(* ===== verification/_CoqProject ===== *)
-Q . S2P
Prelude.v
Value.v
KeyFormat.v
Codec.v
Md5.v
TableDef.v
Bits.v
Field.v
Mem.v
PtMalloc.v
PtHeap.v
PtOps.v
PtFree.v
PtAlloc.v
PtRealloc.v
PtOpsSpec.v
PtCheck.v
PtSpec.v
Mallocator.v
Bump.v
NodeTable.v
NodeRep.v
NodeAcc.v
NodeLru.v
NodeGroup.v
NodeNg.v
NodeInv.v
NodeAlloc.v
NodeOps.v
NodeAllot.v
NodeRelease.v
NodeLists.v
NodeInit.v
NodeSpec.v
TTree.v
TTreePure.v
TTreeRep.v
TTreePage.v
TTreeRot.v
TTreeInsert.v
TTreeDelete.v
TTreeFind.v
TTreeWalk.v
TTreeKeys.v
TTreeSpec.v
RawData.v
RawRep.v
RawOps.v
RawEdit.v
RawSpec.v
Hash.v
BufferPool.v
CacheRep.v
CacheInv.v
CacheOps.v
CacheFind.v
CacheMake.v
CacheEvict.v
CacheInit.v
CacheSpec.v
Std.v
Heap.v
TopK.v
TopKSpec.v
QuerySet.v
Suggest.v
SuggestSpec.v
Utf8.v
Segment.v
SegmentSpec.v
NgramSpec.v
SplitSpec.v
Correct.v
CorrectSpec.v
