(* ===== verification/Prelude.v ===== *)
(** * isearch, its storage engine and its search: a verification development

    isearch is a search service. Its [index_storage] keeps the inverted index: a cache
    server with a segment of shared memory in front of a RocksDB helper process. Clients
    send requests in a tagged binary protocol; a table definition says what the fields
    are; the server keeps the rows of a key in the segment, under handles of its own
    allocator, and what it does not hold is fetched from RocksDB, where a row is found by
    a key whose bytes sort like the fields. Its [index_read] answers queries: it cuts the
    text into words, fetches the documents of each, combines and ranks them, corrects
    words and suggests others. This development models the core of both and proves it.
    Sources are under [src/src/search_local/index_storage/]; a file is named here by
    its path from there, or, where it starts with [comm/] or [index_read/], by its path
    from [src/src/] or [src/src/search_local/].

    ** The parts, and the files that model them

    - [Prelude]: machine integers ([wrap], [swrap] and the casts [u8] to [s64]), bytes
      of integers, dictionary order, the outcomes of fallible code ([Ok], [Err] with the
      source's error code, [Fault] where C gives no meaning), the state monad [ST] with
      its weakest precondition [wp], and the automation the other files share.
    - [Value]: field types, [DTCBinary], [DTCValue], [mystrcmp], buffer chains
      ([common/protocol.h], [common/value.h], [common/value.c]).
    - [KeyFormat]: the row keys of RocksDB, [rocksdb_helper/key_format.cc] (Module
      [key_format]) and the comparator of [rocksdb_helper/rocksdb_key_comparator.h]
      (Module [CommKeyComparator]). Theorems in Module [KeySpec].
    - [Codec]: values, fields and tagged sections on the wire, [common/encode.cc],
      [common/decode.cc], [common/section.h]. Module [CodecSpec].
    - [Md5]: [common/md5.c], which signs packed table definitions. Module [Md5Spec].
    - [TableDef]: [common/table_def.cc]: adding and finding fields, key fields, packing a
      definition for a client and unpacking it. Module [TableSpec].
    - [Bits], [Field]: bit sets ([common/bitsop.c]) and field sets, update operations and
      conditions on rows ([common/field.cc]). Modules [BitsSpec], [FieldSpec].
    - [Mem], [PtMalloc]: the allocator of the segment, [cache/pt_malloc.cc]
      ([DTCBinMalloc]) on byte memory. [PtHeap] is its invariant, [PtOps], [PtFree],
      [PtAlloc], [PtRealloc], [PtOpsSpec] prove that the operations keep it, [PtCheck]
      is the invariant as a test, [PtSpec] (Module [AllocSpec]) the refinement of a map
      from handles to byte strings.
    - [Mallocator]: the abstract allocator of [cache/mallocator.h] as a class, with the
      laws its clients rely on, and [DTCBinMalloc] as an instance of both. [Bump] is a
      second, simpler instance, on which witnesses are computed.
    - [TTree]: the T-tree of [cache/t_tree.cc], which indexes the rows of a key, over any
      [Mallocator]. [TTreePure] are its trees without memory, [TTreeRep] and [TTreePage]
      nodes and pages in memory, [TTreeRot], [TTreeInsert], [TTreeDelete], [TTreeFind],
      [TTreeWalk] the proofs of the operations, [TTreeKeys] the keys for which
      [KeyCompare] is an order, [TTreeSpec] (Module [TreeSpec]) the theorems.
    - [RawData]: the rows of a key in one chunk, [cache/raw_data.cc], over any
      [Mallocator]: one definition for each macro and method, on the object's members and
      the allocator's state. [RawRep] says how rows lie in a chunk and what the macros and
      loops do there, [RawOps] and [RawEdit] prove the methods one by one, [RawSpec]
      (Module [RawSpec]) has the theorems.
    - [NodeTable]: the node table of the cache, a node for each key: groups of nodes
      ([cache/node_set.cc], [cache/node.h]), the index from ids to nodes
      ([cache/node_index.cc]), the lists of groups and the eviction lists
      ([cache/ng_list.h], [cache/node_list.h]) and their head ([cache/ng_info.cc]), over
      any [Mallocator]. [NodeRep] names every word the table keeps and says what the
      memory holds, [NodeAcc] are the accesses, [NodeLru] and [NodeNg] lists as rings,
      [NodeGroup] new groups, [NodeInv] the invariant, [NodeAlloc], [NodeOps],
      [NodeAllot] and [NodeRelease] the life of a node, [NodeLists] and [NodeInit] the
      other operations and the set-up, [NodeSpec] (Module [NodeSpec]) the theorems.
    - [Hash]: the hash from keys to nodes with its two hash functions ([cache/hash.h],
      [cache/hash.cc], [common/new_hash.cc]) and the chunks of the nodes
      ([cache/data_chunk.h]). [BufferPool]: what the pool does with keys
      ([cache/buffer_pool.cc] and its header; [RawDataProcess] and [BufferProcess] where
      they make nodes and chunks): set-up, searching while the hash changes from one
      function to the other, inserting, purging, evicting, the list of empty nodes and the
      time markers. [CacheRep] says what hash and chunks hold, [CacheInv] is the
      invariant, [CacheOps], [CacheFind], [CacheMake], [CacheEvict] and [CacheInit] prove
      the operations, [CacheSpec] (Module [CacheSpec]) has the theorems.
    - [Std], [Heap]: what the search side uses of the C++ library (sorting, sets and
      their merges by a comparison function), and heaps in vectors, for both heaps below.
    - [TopK]: the heap of the first k results ([index_read/utils/max_heap.h]) and the pages
      cut from it ([index_read/order_op.h]), over the class [Scalar] of score types.
      Theorems in [TopKSpec].
    - [QuerySet]: the documents found so far and their combination
      ([index_read/result_context.cc]), the search for a list of words and the boolean
      query with the processes it calls ([index_read/valid_doc_filter.cc],
      [index_read/process/]); what the index answers is an argument. Theorems in Module
      [QuerySpec], over the class [Finds] of processes.
    - [Suggest]: the bounded queue and the ternary tree of suggestions
      ([index_read/priority_queue.h], [index_read/ternary.cc]). Theorems in [SuggestSpec].
    - [Utf8]: characters of UTF-8 strings and [splitEx] ([comm/utf8_str.cc]). [Segment]:
      word segmentation ([comm/segment/]): the dictionary, forward and backward matching,
      bigrams, the plug-in, and what they share, [Segment::Split]. [SegmentSpec] has longest
      match and the laws [Split] asks of a segmenter, [NgramSpec] the bigram segmenter,
      [SplitSpec] the theorems on [Split] over any segmenter with the laws.
    - [Correct]: the edits of a word and the best known one
      ([index_read/correction/correction.cc]). Theorems in [CorrectSpec].

    Later parts use earlier ones as the code does: the codec writes values of [Value];
    table definitions are packed with the codec and signed with [Md5]; field operations
    work on rows of [Value] under a [TableDef]; the tree stores records in blocks of the
    allocator, through the interface of [Mallocator] only, and reads the key's type from
    a [TableDef]; the rows of a key are a chunk of the same interface, laid out by the
    columns of a [TableDef]; the cache hangs nodes of the node table into its hash and
    gives each a chunk of rows. On the search side [Split] calls the segmenter through the
    class [Segmenter], correction uses the characters of [Utf8] and the dictionary of
    [Segment], and the heaps and sets rest on [Std]. The two sides meet over the network
    only.

    ** What the theorems show

    Row keys: encoding and decoding are inverse, the bytes sort like the fields, and the
    comparator agrees with the order of the decoded keys; where it does not (virtual
    bounds), that is a theorem too. Wire format: what is encoded is decoded, and the
    decoder never reads outside its input, for any input. Table definitions: a packed
    definition is rebuilt by [Unpack]; adding and looking up fields, errors included.
    Field operations: updates and conditions compute what their operators say, at the
    width of the field. Allocator: on a segment it has formatted, every sequence of
    operations behaves like a map of handles to byte strings; blocks do not overlap; its
    accounts are exact; its checks pass and end. T-tree: every sequence of insertions,
    deletions and searches behaves like an ordered list of records; a search is
    logarithmic; traversals visit exactly their range in order; destruction gives back
    exactly the tree. Rows of a key: every program of reads, insertions, replacements and
    deletions behaves like a list of rows with a place in it, also across objects that
    attach to the same chunk; decoding is safe for any bytes, and the size of a decoded row
    is what was read of it. Node table: from its set-up on, every run behaves like a map from ids to
    attributes and three lists; released nodes can be had again without new memory; the
    other blocks of the segment stay as they are. Cache: from its set-up on, every run of
    searches, insertions, purges and evictions behaves like a set of keyed entries in three
    lists, whichever hash a key hangs in; a search finds exactly the entry of its key.
    Ranking: a page has the scores of that page of all results, and exactly its documents
    where no scores are tied or a filter is set. Queries: a boolean query finds exactly what
    the searches of its lists have in common, counted, when there is anything. Suggestions: exactly the most frequent words
    that continue the text. Segmentation: two segmenters are longest match, the third
    chooses between them, all end and keep the text; [Split] loses only the punctuation,
    and its words survive the trip through a string. Correction: exactly the words one
    edit away, and the most frequent of them.
    Theorems that hold of the code but show a flaw in it (truncated differences, wrapped
    counters, dead checks, chunks that are not freed, pages that repeat documents, an empty
    result taken for none) are stated as what the code does.

    ** Bounds and fuel

    Integers have the width of the source and wrap around; a pointer is an offset in the
    memory it points into. Loops whose bound is not structural take fuel and end in a
    [Fault] without it; the theorems state that they end. The allocator's theorems are
    for segments of at most [MAX_ALLOC_SIZE] bytes, 4 GB less 8, which the 32-bit sizes in
    the chunk headers impose; the node table asks only that different blocks take less
    than 64 GB together, which keeps its ids below 2^32. The loops of the cache along a
    chain of the hash or a list get as many steps as there were operations before, which
    bounds the nodes there are ([sound]). [last_fit] is given fuel 1, which the theorems show to be
    enough on the invariant. [PAGE_FUEL] is one more than the items of a page. Recursion on the tree has
    [TREE_FUEL], 260: 64-bit handles allow at most 2^64 nodes, a balanced tree of which
    has at most 129 levels ([height_bound]), and an insertion takes at most two calls a
    level and one more ([enough]). The segmenters get one step more than the text has bytes,
    the weaving of two segmentations as many as both have words; a text is shorter
    than 2 GB, so that an [int] counts its bytes ([fits], [short_text]; where its words are
    joined by bars, shorter than 1 GB). The heaps of ranking and suggesting have at most
    2^30 entries, which keeps the index of a child an [int] ([left_child], [Left]);
    packets of at most 64 MB keep requests far below these bounds. Row keys are compared
    up to 2^31 bytes, and the texts in them as C strings.

    ** What is assumed

    Nothing without proof. What is not under [src/] is a parameter: [printf], [strtod]
    and the conversion of doubles of the C library, with hypotheses on their round trip,
    each shown to hold at a concrete instance; what [RawData] asks of the process around
    it (the table definitions, the hour, whether [malloc] has room) is its [Env]. Of the
    search side, what the index answers for a word, a range or a place, the filter of documents, the
    plug-in of the custom segmenter and [log] are arguments, and nothing is assumed of
    them. [std::sort] is modelled as a
    stable sort; where elements tie, the theorems speak of what they tie in only. [strncasecmp] is modelled by
    its definition in the C locale; of [memcmp] only the sign is known ([MemcmpSign]); a cell
    of a row is a union, read by the type of its column ([cell]); MD5 is compared with a
    definition of its own after RFC 1321 (Module [Rfc]), the table from the sine; doubles are the Standard Library's binary64.

    ** What is not modelled

    Event loops, sockets, threads, configuration files, statistics and the processes
    around them: system calls and glue. Of the cache, [try_purge_size], statistics, the log,
    the features and attaching to a segment that exists are left out; the list of empty
    nodes and the time markers are defined but no theorem is about them. Rows of a key in a tree
    ([cache/tree_data.cc]) are modelled as far as purging needs them. Of the search side, the parsing
    of queries from JSON, searches by sound, by range and by place, scores of type double and
    by relevance, the segmenter over a graph of words, the discovery of new words, reading
    the dictionaries and the replicated index are left out, and writing the index is.
    RocksDB, jsoncpp and other third-party code stay outside. Error texts are left out everywhere. *)
From Stdlib Require Import ZArith Lia.
From stdpp Require Import base list list_numbers numbers gmap.
Local Open Scope Z_scope.

(** ** Fixed-width integers

    A C integer is a [Z] together with the width the source gives it; a cast is
    written out where the source performs one. *)

Definition wrap (w v : Z) : Z := v mod 2 ^ w.
Definition u8 (v : Z) : Z := wrap 8 v.
Definition u16 (v : Z) : Z := wrap 16 v.
Definition u32 (v : Z) : Z := wrap 32 v.
Definition u64 (v : Z) : Z := wrap 64 v.

(** Two's-complement reinterpretation of the low [w] bits. *)
Definition swrap (w v : Z) : Z :=
  let r := wrap w v in if r <? 2 ^ (w - 1) then r else r - 2 ^ w.
Definition s8 (v : Z) : Z := swrap 8 v.
Definition s32 (v : Z) : Z := swrap 32 v.
Definition s64 (v : Z) : Z := swrap 64 v.

Definition is_u (w v : Z) : Prop := 0 <= v < 2 ^ w.
Definition is_s (w v : Z) : Prop := - 2 ^ (w - 1) <= v < 2 ^ (w - 1).

Declare Scope isearch_scope.
Delimit Scope isearch_scope with isearch.
Abbreviation byte_ok := (is_u 8).
Abbreviation bytes_ok := (Forall (is_u 8)).

Lemma pow2_pos n : 0 <= n -> 0 < 2 ^ n.
Proof. intros. apply Z.pow_pos_nonneg; lia. Qed.

Lemma wrap_small w v : is_u w v -> wrap w v = v.
Proof. apply Z.mod_small. Qed.

Lemma wrap_range w v : 0 <= w -> is_u w (wrap w v).
Proof. intros. apply Z.mod_pos_bound, pow2_pos; lia. Qed.

Lemma wrap_idemp w v : wrap w (wrap w v) = wrap w v.
Proof. apply Zmod_mod. Qed.

Lemma pow2_half w : 0 < w -> 2 ^ w = 2 * 2 ^ (w - 1).
Proof. intros. replace w with (Z.succ (w - 1)) at 1 by lia. apply Z.pow_succ_r; lia. Qed.

Lemma wrap_neg w v : 0 < w -> - 2 ^ w <= v < 0 -> wrap w v = v + 2 ^ w.
Proof.
  intros. unfold wrap. replace v with (v + 2 ^ w + (-1) * 2 ^ w) at 1 by lia.
  rewrite Z_mod_plus_full. apply Z.mod_small; lia.
Qed.

Lemma swrap_small w v : 0 < w -> is_s w v -> swrap w v = v.
Proof.
  intros Hw [Hl Hh]. unfold swrap. pose proof (pow2_half w Hw).
  pose proof (pow2_pos (w - 1) ltac:(lia)).
  destruct (decide (0 <= v)).
  - rewrite wrap_small by (unfold is_u; lia). destruct (Z.ltb_spec v (2 ^ (w - 1))); lia.
  - rewrite wrap_neg by lia. destruct (Z.ltb_spec (v + 2 ^ w) (2 ^ (w - 1))); lia.
Qed.

Lemma swrap_range w v : 0 < w -> is_s w (swrap w v).
Proof.
  intros Hw. pose proof (wrap_range w v ltac:(lia)) as [? ?].
  pose proof (pow2_half w Hw). unfold swrap, is_s.
  destruct (Z.ltb_spec (wrap w v) (2 ^ (w - 1))); lia.
Qed.

Lemma wrap_add_l w a b : wrap w (wrap w a + b) = wrap w (a + b).
Proof. apply Zplus_mod_idemp_l. Qed.
Lemma wrap_add_r w a b : wrap w (a + wrap w b) = wrap w (a + b).
Proof. apply Zplus_mod_idemp_r. Qed.

Lemma swrap_wrap w v : swrap w (wrap w v) = swrap w v.
Proof. unfold swrap. by rewrite wrap_idemp. Qed.

(** Bits above the width are clear; a bit above the width adds instead of or-ing. *)
Lemma testbit_above w v n : 0 <= v < 2 ^ w -> 0 <= w <= n -> Z.testbit v n = false.
Proof.
  intros Hv Hn. rewrite <-(Z.mod_small v (2 ^ w)) by lia. apply Z.mod_pow2_bits_high. lia.
Qed.

Lemma land_above w v k : 0 <= v < 2 ^ w -> 0 <= w -> Z.land v (k * 2 ^ w) = 0.
Proof.
  intros Hv Hw. apply Z.bits_inj'. intros n Hn. rewrite Z.land_spec, Z.bits_0.
  destruct (decide (n < w)).
  - rewrite Z.mul_pow2_bits_low by lia. apply andb_false_r.
  - rewrite (testbit_above w) by lia. done.
Qed.

Lemma lor_above w v k : 0 <= v < 2 ^ w -> 0 <= w -> Z.lor v (k * 2 ^ w) = v + k * 2 ^ w.
Proof.
  intros. pose proof (land_above w v k ltac:(done) ltac:(done)) as E.
  by rewrite <-Z.lxor_lor, Z.add_nocarry_lxor.
Qed.

Lemma lxor_above w v k : 0 <= v < 2 ^ w -> 0 <= w -> Z.lxor v (k * 2 ^ w) = v + k * 2 ^ w.
Proof. intros. rewrite Z.lxor_lor by (by apply land_above). by apply lor_above. Qed.

#[export] Instance is_u_dec w v : Decision (is_u w v).
Proof. unfold is_u; apply _. Defined.
#[export] Instance is_s_dec w v : Decision (is_s w v).
Proof. unfold is_s; apply _. Defined.

(** ** Outcomes of fallible code

    [Ok] is a normal return, [Err c] a return with the error code [c] of the
    source, [Fault] an access the language gives no meaning to (a read outside
    the buffer, an exception of the library on a broken precondition). *)

Inductive outcome (A : Type) : Type :=
  | Ok (a : A)
  | Err (code : Z)
  | Fault.
Arguments Ok {A} a.
Arguments Err {A} code.
Arguments Fault {A}.

#[export] Instance outcome_eq_dec {A} `{EqDecision A} : EqDecision (outcome A).
Proof. solve_decision. Defined.

Definition obind {A B} (m : outcome A) (f : A -> outcome B) : outcome B :=
  match m with
  | Ok a => f a
  | Err c => Err c
  | Fault => Fault
  end.

Lemma Ok_inj {A} (a b : A) : Ok a = Ok b -> a = b.
Proof. by intros [=]. Qed.

Notation "'let!' x := m 'in' k" := (obind m (fun x => k))
  (at level 10, x pattern, m at level 100, k at level 200) : isearch_scope.
Open Scope isearch_scope.

(** Code with a state: the state is passed along, a [Fault] ends everything. *)
Definition ST (S A : Type) : Type := S -> outcome (A * S).
#[export] Instance ST_ret S : MRet (ST S) := fun A a s => Ok (a, s).
#[export] Instance ST_bind S : MBind (ST S) := fun A B f m s => let! p := m s in f p.1 p.2.
Definition fault {S A} : ST S A := fun _ => Fault.
Definition gets {S A} (f : S -> A) : ST S A := fun s => Ok (f s, s).
Definition modify {S} (f : S -> S) : ST S unit := fun s => Ok (tt, f s).
Definition lift {S A} (o : outcome A) : ST S A := fun s => let! a := o in Ok (a, s).

Lemma bind_ok {S A B} (m : ST S A) (f : A -> ST S B) s a s' : m s = Ok (a, s') -> (m ≫= f) s = f a s'.
Proof. intros H. unfold mbind, ST_bind. by rewrite H. Qed.
Lemma bind_inv {S A B} (m : ST S A) (f : A -> ST S B) s b s'' : (m ≫= f) s = Ok (b, s'') -> exists a s', m s = Ok (a, s') /\ f a s' = Ok (b, s'').
Proof. unfold mbind, ST_bind. destruct (m s) as [[a s']| |]; [|done..]. intros H. by exists a, s'. Qed.
Lemma ret_ok {S A} (a : A) (s : S) : (mret a : ST S A) s = Ok (a, s).
Proof. done. Qed.
Lemma gets_bind {S A B} (g : S -> A) (f : A -> ST S B) s : (gets g ≫= f) s = f (g s) s.
Proof. done. Qed.
Lemma modify_bind {S B} (g : S -> S) (f : unit -> ST S B) s : (modify g ≫= f) s = f tt (g s).
Proof. done. Qed.

(** [m] ends normally from [s], with a result and a state that satisfy [Q]. *)
Definition wp {S A} (m : ST S A) (s : S) (Q : A -> S -> Prop) : Prop := exists a s', m s = Ok (a, s') /\ Q a s'.

Lemma wp_ret {S A} (a : A) (s : S) (Q : A -> S -> Prop) : Q a s -> wp (mret a) s Q.
Proof. intros H. by exists a, s. Qed.
Lemma wp_bind {S A B} (m : ST S A) (f : A -> ST S B) s Q : wp m s (fun a s' => wp (f a) s' Q) -> wp (m ≫= f) s Q.
Proof. intros (a & s' & E & b & s'' & E' & HQ). exists b, s''. by rewrite (bind_ok _ _ _ _ _ E). Qed.
Lemma wp_mono {S A} (m : ST S A) s (P Q : A -> S -> Prop) : wp m s P -> (forall a s', P a s' -> Q a s') -> wp m s Q.
Proof. intros (a & s' & E & HP) H. exists a, s'. auto. Qed.
Lemma wp_lift {S A} (o : outcome A) (a : A) (s : S) (Q : A -> S -> Prop) : o = Ok a -> Q a s -> wp (lift o) s Q.
Proof. intros -> H. by exists a, s. Qed.
Lemma wp_eq {S A} (m : ST S A) s a (Q : A -> S -> Prop) : m s = Ok (a, s) -> Q a s -> wp m s Q.
Proof. intros E H. by exists a, s. Qed.

(** ** Byte order and memory images of integers *)

(** Bytes of an integer, least significant first: the memory image on the
    little-endian hosts the build targets ([memcpy] of a [uint64_t]). *)
Fixpoint le_bytes (n : nat) (v : Z) : list Z :=
  match n with
  | O => []
  | S n => v mod 256 :: le_bytes n (v / 256)
  end.

Fixpoint le_value (bs : list Z) : Z :=
  match bs with
  | [] => 0
  | b :: bs => b + 256 * le_value bs
  end.

Definition be_bytes (n : nat) (v : Z) : list Z := rev (le_bytes n v).
Definition be_value (bs : list Z) : Z := le_value (rev bs).

Lemma le_bytes_length n v : length (le_bytes n v) = n.
Proof. revert v; induction n; simpl; auto. Qed.

Lemma be_bytes_length n v : length (be_bytes n v) = n.
Proof. unfold be_bytes. by rewrite length_rev, le_bytes_length. Qed.

Lemma le_bytes_ok n v : bytes_ok (le_bytes n v).
Proof.
  revert v; induction n; intros v; simpl; constructor; auto.
  apply Z.mod_pos_bound; lia.
Qed.

Lemma be_bytes_ok n v : bytes_ok (be_bytes n v).
Proof. apply Forall_rev, le_bytes_ok. Qed.

Lemma pow256_S n : 256 ^ Z.of_nat (S n) = 256 * 256 ^ Z.of_nat n.
Proof. rewrite Nat2Z.inj_succ. apply Z.pow_succ_r; lia. Qed.

Lemma le_value_bytes n v : le_value (le_bytes n v) = v mod 256 ^ Z.of_nat n.
Proof.
  revert v; induction n as [|n IH]; intros v; simpl le_bytes; simpl le_value.
  - by rewrite Z.mod_1_r.
  - rewrite IH, pow256_S, Z.rem_mul_r by (try lia; apply Z.pow_pos_nonneg; lia). lia.
Qed.

Lemma be_value_bytes n v : be_value (be_bytes n v) = v mod 256 ^ Z.of_nat n.
Proof. unfold be_value, be_bytes. rewrite rev_involutive. apply le_value_bytes. Qed.

Lemma le_value_bound bs : bytes_ok bs -> 0 <= le_value bs < 256 ^ Z.of_nat (length bs).
Proof.
  induction 1 as [|b bs Hb _ IH]; simpl length; [simpl; lia|].
  rewrite pow256_S. simpl. unfold is_u in Hb. lia.
Qed.

Lemma le_bytes_value bs : bytes_ok bs -> le_bytes (length bs) (le_value bs) = bs.
Proof.
  induction 1 as [|b bs Hb _ IH]; [done|]. unfold is_u in Hb. simpl. f_equal.
  - rewrite (Z.mul_comm 256), Z_mod_plus_full. apply Z.mod_small; lia.
  - rewrite (Z.mul_comm 256), Z.div_add, Z.div_small by lia. apply IH.
Qed.

Lemma le_bytes_app n m v :
  le_bytes (n + m) v = le_bytes n v ++ le_bytes m (v / 256 ^ Z.of_nat n).
Proof.
  revert v; induction n as [|n IH]; intros v; [by rewrite Z.div_1_r|].
  simpl le_bytes. simpl app. rewrite IH, pow256_S, Z.div_div by (try lia; apply Z.pow_pos_nonneg; lia).
  reflexivity.
Qed.

Lemma le_bytes_mod n v : le_bytes n (v mod 256 ^ Z.of_nat n) = le_bytes n v.
Proof.
  rewrite <-le_value_bytes. rewrite <-(le_bytes_length n v) at 1. apply le_bytes_value, le_bytes_ok.
Qed.

Lemma be_value_app bs cs :
  be_value (bs ++ cs) = be_value bs * 256 ^ Z.of_nat (length cs) + be_value cs.
Proof.
  unfold be_value. rewrite rev_app_distr.
  enough (H : forall xs ys, le_value (xs ++ ys) = le_value xs + 256 ^ Z.of_nat (length xs) * le_value ys).
  { rewrite H, length_rev. lia. }
  induction xs as [|x xs IH]; intros ys; [simpl; lia|].
  simpl length. rewrite pow256_S. simpl. rewrite IH. lia.
Qed.

Lemma be_value_bound bs : bytes_ok bs -> 0 <= be_value bs < 256 ^ Z.of_nat (length bs).
Proof. intros. unfold be_value. rewrite <-length_rev. by apply le_value_bound, Forall_rev. Qed.

(** ** Lexicographic comparison of byte strings ([memcmp], [std::string::compare]) *)

Fixpoint lex (xs ys : list Z) : comparison :=
  match xs, ys with
  | [], [] => Eq
  | [], _ :: _ => Lt
  | _ :: _, [] => Gt
  | x :: xs, y :: ys =>
    match Z.compare x y with
    | Eq => lex xs ys
    | c => c
    end
  end.

Lemma lex_refl xs : lex xs xs = Eq.
Proof. induction xs as [|x xs IH]; simpl; [done|]. by rewrite Z.compare_refl. Qed.

Lemma lex_eq xs ys : lex xs ys = Eq <-> xs = ys.
Proof.
  split; [|intros ->; apply lex_refl].
  revert ys; induction xs as [|x xs IH]; intros [|y ys]; simpl; try done.
  destruct (Z.compare_spec x y); intros H'; try done. subst. f_equal; auto.
Qed.

Lemma lex_antisym xs ys : lex ys xs = CompOpp (lex xs ys).
Proof.
  revert ys; induction xs as [|x xs IH]; intros [|y ys]; simpl; try done.
  rewrite Z.compare_antisym. destruct (Z.compare x y); simpl; auto.
Qed.

Lemma lex_trans c xs ys zs : lex xs ys = c -> lex ys zs = c -> lex xs zs = c.
Proof.
  revert ys zs; induction xs as [|x xs IH]; intros [|y ys] [|z zs]; simpl; try congruence.
  destruct (Z.compare_spec x y), (Z.compare_spec y z), (Z.compare_spec x z);
    intros; subst; try congruence; try lia; eauto.
Qed.

Lemma lex_app_same p xs ys : lex (p ++ xs) (p ++ ys) = lex xs ys.
Proof. induction p as [|z p IH]; simpl; [done|]. by rewrite Z.compare_refl. Qed.

(** Two strings of the same length that differ decide the comparison before
    their continuations are looked at. *)
Lemma lex_app_decided p q xs ys :
  length p = length q -> lex p q <> Eq -> lex (p ++ xs) (q ++ ys) = lex p q.
Proof.
  revert q; induction p as [|a p IH]; intros [|b q]; simpl; try done.
  intros [= Hl] Hne. destruct (Z.compare a b); auto.
Qed.

Lemma lex_app_fixed p q xs ys :
  length p = length q ->
  lex (p ++ xs) (q ++ ys) = match lex p q with Eq => lex xs ys | c => c end.
Proof.
  intros Hl. destruct (lex p q) eqn:E.
  - apply lex_eq in E as ->. apply lex_app_same.
  - rewrite lex_app_decided by congruence. done.
  - rewrite lex_app_decided by congruence. done.
Qed.

Lemma lex_be_value xs ys :
  length xs = length ys -> bytes_ok xs -> bytes_ok ys ->
  lex xs ys = Z.compare (be_value xs) (be_value ys).
Proof.
  revert ys; induction xs as [|x xs IH]; intros [|y ys]; try done.
  intros [= Hl] [Hx Hxs]%Forall_cons [Hy Hys]%Forall_cons. simpl lex.
  change (x :: xs) with ([x] ++ xs). change (y :: ys) with ([y] ++ ys).
  rewrite !be_value_app, Hl. unfold be_value at 1 3; simpl le_value.
  pose proof (be_value_bound xs Hxs) as Bx. pose proof (be_value_bound ys Hys) as By.
  rewrite Hl in Bx. rewrite IH by done. set (P := 256 ^ _) in *.
  destruct (Z.compare_spec x y), (Z.compare_spec (be_value xs) (be_value ys)),
    (Z.compare_spec ((x + 256 * 0) * P + be_value xs) ((y + 256 * 0) * P + be_value ys)); try done; nia.
Qed.

(** [simpl] keeps comparisons of constants folded. *)
Arguments Z.compare : simpl never.

(** Sign of a comparison, as the C comparison functions return it. *)
Definition cmp_sign (c : comparison) : Z :=
  match c with Eq => 0 | Lt => -1 | Gt => 1 end.

Lemma cmp_sign_opp c : cmp_sign (CompOpp c) = - cmp_sign c.
Proof. by destruct c. Qed.

Lemma cmp_sign_0 c : cmp_sign c = 0 <-> c = Eq.
Proof. by destruct c. Qed.

(** Sum of a list of integers. *)
Fixpoint list_sum_Z (l : list Z) : Z :=
  match l with [] => 0 | x :: l => x + list_sum_Z l end.

Lemma list_sum_Z_app l1 l2 : list_sum_Z (l1 ++ l2) = list_sum_Z l1 + list_sum_Z l2.
Proof. induction l1 as [|x l1 IH]; [done|]. cbn. lia. Qed.

Lemma inserts_middle {A} (pre mid mid' post : list A) :
  length mid' = length mid -> list_inserts (length pre) mid' (pre ++ mid ++ post) = pre ++ mid' ++ post.
Proof.
  intros Hl. apply list_eq. intros i. destruct (decide (i < length pre)%nat) as [H1|H1].
  { by rewrite list_lookup_inserts_lt, !lookup_app_l by done. }
  destruct (decide (i < length pre + length mid')%nat) as [H2|H2].
  - rewrite list_lookup_inserts by (rewrite ?length_app; lia). rewrite lookup_app_r, lookup_app_l by lia. done.
  - rewrite list_lookup_inserts_ge by lia. rewrite !(lookup_app_r pre), !lookup_app_r by lia. by rewrite Hl.
Qed.

Lemma filter_all {A} (P : A -> Prop) `{!forall x, Decision (P x)} (l : list A) :
  Forall P l -> filter P l = l.
Proof. induction 1 as [|x l Hx _ IH]; [done|]. rewrite filter_cons_True by done. by f_equal. Qed.

(** ** Automation *)

Create HintDb isearch.
Create Rewrite HintDb isearch.
#[export] Hint Resolve wrap_range le_bytes_ok be_bytes_ok pow2_pos : isearch.
#[export] Hint Rewrite le_bytes_length be_bytes_length @length_app @length_rev @length_replicate : isearch.
#[export] Hint Rewrite @length_take @length_drop @length_cons @length_nil : isearch.

(** Unfold the integer casts and leave plain [mod] and comparisons. *)
Ltac unfold_ints := unfold u8, u16, u32, u64, s8, s32, s64, swrap, wrap, is_u, is_s in *.

(** Linear arithmetic that also knows quotients and remainders by constants. *)
Ltac zdm := Z.div_mod_to_equations; lia.

(** Evaluate the boolean comparison that blocks the goal. *)
Ltac bcase :=
  match goal with
  | |- context [?a <? ?b] => destruct (Z.ltb_spec a b)
  | |- context [?a <=? ?b] => destruct (Z.leb_spec a b)
  | |- context [?a =? ?b] => destruct (Z.eqb_spec a b)
  end.
Ltac bcases := repeat bcase.
