(* ===== verification/Value.v ===== *)
(** Field types and values: [common/protocol.h] (class [DField]) and the value
    types of [common/value.h] ([DTCBinary], [DTCValue], [BufferChain]) that every
    other component of the storage engine passes around. *)
From Stdlib Require Import ZArith Lia.
From stdpp Require Import base list numbers gmap.
From S2P Require Import Prelude.
Local Open Scope Z_scope.

(** ** [DField]: field types, update operations and comparisons *)
Module DField.
Definition None := 0.
Definition Signed := 1.
Definition Unsigned := 2.
Definition Float := 3.
Definition String := 4.
Definition Binary := 5.
Definition TotalType := 6.

Definition Set_ := 0.
Definition Add := 1.
Definition SetBits := 2.
Definition OR := 3.

Definition EQ := 0.
Definition NE := 1.
Definition LT := 2.
Definition LE := 3.
Definition GT := 4.
Definition GE := 5.
End DField.

Definition MAXPACKETSIZE : Z := Z.shiftl 64 20.

(** ** [DTCBinary]: a length and a pointer

    [bytes] is the memory readable from [ptr] on, [None] the null pointer; [len]
    is whatever the source stored, not tied to the size of that memory. *)
Record DTCBinary := mkBin { len : Z; bytes : option (list Z) }.

#[export] Instance DTCBinary_eq_dec : EqDecision DTCBinary.
Proof. solve_decision. Defined.

(** [operator!]: nothing left to read. *)
Definition bin_empty (b : DTCBinary) : bool := b.(len) <=? 0.

(** [ptr[n]]: a read at or after the end of the memory (or through the null
    pointer) is outside what C defines. *)
Definition mem_at (m : option (list Z)) (n : nat) : outcome Z :=
  match m with
  | Some bs => match bs !! n with Some b => Ok b | None => Fault end
  | None => Fault
  end.

Definition bin_at (b : DTCBinary) (n : nat) : outcome Z := mem_at b.(bytes) n.

(** [operator+=]: the pointer and the length move together. *)
Definition bin_skip (n : nat) (b : DTCBinary) : DTCBinary :=
  mkBin (b.(len) - Z.of_nat n) (drop n <$> b.(bytes)).

(** The buffer holds at least the [len] bytes it promises. *)
Definition bin_ok (b : DTCBinary) : Prop :=
  match b.(bytes) with
  | Some bs => bytes_ok bs /\ b.(len) <= Z.of_nat (length bs)
  | None => b.(len) <= 0
  end.

(** ** [DTCValue]: the union of a 64-bit word and a [DTCBinary]

    [DWord w] is the union after [s64], [u64] or [flt] was stored; the word is kept
    as the unsigned 64-bit pattern all three share. [DBin b] is the union after
    [str] or [bin] was stored. Reading the other member is not given a meaning. *)
Inductive DTCValue :=
  | DWord (w : Z)
  | DBin (b : DTCBinary).

#[export] Instance DTCValue_eq_dec : EqDecision DTCValue.
Proof. solve_decision. Defined.

Definition val_u64 (v : DTCValue) : outcome Z :=
  match v with DWord w => Ok w | DBin _ => Fault end.
Definition val_s64 (v : DTCValue) : outcome Z :=
  match v with DWord w => Ok (s64 w) | DBin _ => Fault end.
Definition val_flt (v : DTCValue) : outcome Z := val_u64 v.
Definition val_bin (v : DTCValue) : outcome DTCBinary :=
  match v with DWord _ => Fault | DBin b => Ok b end.

Definition set_s64 (v : Z) : DTCValue := DWord (u64 v).
Definition set_u64 (v : Z) : DTCValue := DWord (u64 v).
Definition set_str (p : option (list Z)) (l : Z) : DTCValue := DBin (mkBin l p).

(** [std::string(ptr, len)]: exactly [len] readable bytes. *)
Definition string_of_bin (b : DTCBinary) : outcome (list Z) :=
  match b.(bytes) with
  | Some bs =>
    if (0 <=? b.(len)) && (b.(len) <=? Z.of_nat (length bs))
    then Ok (take (Z.to_nat b.(len)) bs) else Fault
  | None => if b.(len) =? 0 then Ok [] else Fault
  end.

Lemma string_of_bin_app s rest : string_of_bin (mkBin (Z.of_nat (length s)) (Some (s ++ rest))) = Ok s.
Proof.
  unfold string_of_bin. simpl. rewrite length_app, (proj2 (Z.leb_le _ _)), (proj2 (Z.leb_le _ _)) by lia.
  simpl. by rewrite Nat2Z.id, take_app_length.
Qed.

Lemma set_s64_get v : is_s 64 v -> val_s64 (set_s64 v) = Ok v.
Proof.
  intros Hv. unfold set_s64, val_s64, s64, u64.
  by rewrite swrap_wrap, swrap_small by (lia || done).
Qed.

(** ** [BufferChain]: the chain of reply buffers *)
Record BufferChain := mkBuf { totalBytes : Z; usedBytes : Z }.

(** The chain is the list of its buffers in [nextBuffer] order; [Count] walks it
    with [int] counters. *)
Definition Count (bc : list BufferChain) : Z * Z :=
  fold_left (fun '(n, l) b => (s32 (n + 1), s32 (l + b.(usedBytes)))) bc (0, 0).

Definition ChainClean (bc : list BufferChain) : list BufferChain :=
  (fun b => mkBuf b.(totalBytes) 0) <$> bc.

(** ** String comparison of [value.h] over [value.c]'s lower-case table *)

(** The table of [value.c], entry by entry. *)
Definition internal_tolower_table_ : list Z :=
  [0; 1; 2; 3; 4; 5; 6; 7; 8; 9; 10; 11; 12; 13; 14; 15;
   16; 17; 18; 19; 20; 21; 22; 23; 24; 25; 26; 27; 28; 29; 30; 31;
   32; 33; 34; 35; 36; 37; 38; 39; 40; 41; 42; 43; 44; 45; 46; 47;
   48; 49; 50; 51; 52; 53; 54; 55; 56; 57; 58; 59; 60; 61; 62; 63;
   64; 97; 98; 99; 100; 101; 102; 103; 104; 105; 106; 107; 108; 109; 110; 111;
   112; 113; 114; 115; 116; 117; 118; 119; 120; 121; 122; 91; 92; 93; 94; 95;
   96; 97; 98; 99; 100; 101; 102; 103; 104; 105; 106; 107; 108; 109; 110; 111;
   112; 113; 114; 115; 116; 117; 118; 119; 120; 121; 122; 123; 124; 125; 126; 127;
   128; 129; 130; 131; 132; 133; 134; 135; 136; 137; 138; 139; 140; 141; 142; 143;
   144; 145; 146; 147; 148; 149; 150; 151; 152; 153; 154; 155; 156; 157; 158; 159;
   160; 161; 162; 163; 164; 165; 166; 167; 168; 169; 170; 171; 172; 173; 174; 175;
   176; 177; 178; 179; 180; 181; 182; 183; 184; 185; 186; 187; 188; 189; 190; 191;
   192; 193; 194; 195; 196; 197; 198; 199; 200; 201; 202; 203; 204; 205; 206; 207;
   208; 209; 210; 211; 212; 213; 214; 215; 216; 217; 218; 219; 220; 221; 222; 223;
   224; 225; 226; 227; 228; 229; 230; 231; 232; 233; 234; 235; 236; 237; 238; 239;
   240; 241; 242; 243; 244; 245; 246; 247; 248; 249; 250; 251; 252; 253; 254; 255].

Definition TOLOWER (c : Z) : outcome Z :=
  match internal_tolower_table_ !! Z.to_nat c with Some r => Ok r | None => Fault end.

(** [mystrcmp]: at most [l] bytes, stopping after a pair of equal NUL bytes. The
    shortcut [p1 == p2] of the source returns what the loop returns on two equal
    memories, so pointers are not told apart here. *)
Fixpoint mystrcmp (l : nat) (p1 p2 : list Z) : outcome Z :=
  match l with
  | O => Ok 0
  | S l =>
    match p1, p2 with
    | c1 :: p1, c2 :: p2 =>
      let! a := TOLOWER c1 in
      let! b := TOLOWER c2 in
      if a - b =? 0 then
        if c1 =? 0 then Ok 0 else mystrcmp l p1 p2
      else Ok (a - b)
    | _, _ => Fault
    end
  end.

Definition mem_list (m : option (list Z)) : list Z := default [] m.

(** [string_equal] on two [DTCBinary]: same length and no difference found. *)
Definition string_equal (a b : DTCBinary) : outcome bool :=
  if a.(len) =? b.(len) then
    let! r := mystrcmp (Z.to_nat a.(len)) (mem_list a.(bytes)) (mem_list b.(bytes)) in
    Ok (r =? 0)
  else Ok false.

(** [memcmp] of [n] bytes: the sign of the first difference. *)
Definition memcmp (p q : list Z) (n : nat) : outcome Z :=
  if (Nat.leb n (length p)) && (Nat.leb n (length q))
  then Ok (cmp_sign (lex (take n p) (take n q))) else Fault.

(** [binary_equal]: same length and the same bytes. *)
Definition binary_equal (a b : DTCBinary) : outcome bool :=
  if a.(len) =? b.(len) then
    let! r := memcmp (mem_list a.(bytes)) (mem_list b.(bytes)) (Z.to_nat a.(len)) in
    Ok (r =? 0)
  else Ok false.

(** ** What the comparisons compute *)

Definition ascii_lower (c : Z) : Z := if (65 <=? c) && (c <=? 90) then c + 32 else c.

Lemma TOLOWER_spec c : byte_ok c -> TOLOWER c = Ok (ascii_lower c).
Proof.
  intros Hc. unfold TOLOWER.
  enough (H : forallb (fun n => match internal_tolower_table_ !! n with
    | Some r => r =? ascii_lower (Z.of_nat n) | None => false end) (seq 0 256) = true).
  { rewrite forallb_forall in H. unfold is_u in Hc.
    specialize (H (Z.to_nat c)). rewrite Z2Nat.id in H by lia.
    destruct (internal_tolower_table_ !! Z.to_nat c).
    - f_equal. apply Z.eqb_eq, H, in_seq. lia.
    - discriminate H. apply in_seq. lia. }
  vm_compute. reflexivity.
Qed.

(** The part of a string a C string function looks at. *)
Fixpoint cstr (bs : list Z) : list Z :=
  match bs with
  | [] => []
  | b :: bs => if b =? 0 then [] else b :: cstr bs
  end.

Lemma cstr_nonzero bs : Forall (fun b => b <> 0) bs -> cstr bs = bs.
Proof.
  induction 1 as [|c bs Hc _ IH]; [done|]. simpl. rewrite (proj2 (Z.eqb_neq _ _)) by lia. by f_equal.
Qed.

Lemma cstr_id bs : Forall (fun c => 0 < c < 256) bs -> cstr bs = bs.
Proof. intros H. apply cstr_nonzero. eapply Forall_impl; [exact H|]. simpl. lia. Qed.

Lemma ascii_lower_0 c : byte_ok c -> ascii_lower c = 0 <-> c = 0.
Proof. unfold is_u, ascii_lower. intros. destruct (Z.leb_spec 65 c), (Z.leb_spec c 90); simpl; lia. Qed.

Lemma mystrcmp_spec l p1 p2 :
  bytes_ok p1 -> bytes_ok p2 -> (l <= length p1)%nat -> (l <= length p2)%nat ->
  exists r, mystrcmp l p1 p2 = Ok r /\
    (r = 0 <-> ascii_lower <$> cstr (take l p1) = ascii_lower <$> cstr (take l p2)).
Proof.
  revert p1 p2; induction l as [|l IH]; intros p1 p2 H1 H2 L1 L2; [by exists 0|].
  destruct p1 as [|c1 p1], p2 as [|c2 p2]; simpl in L1, L2; try lia.
  apply Forall_cons in H1 as [Hc1 H1], H2 as [Hc2 H2]. simpl.
  rewrite !TOLOWER_spec by done. simpl.
  pose proof (ascii_lower_0 c1 Hc1). pose proof (ascii_lower_0 c2 Hc2).
  destruct (Z.eqb_spec (ascii_lower c1 - ascii_lower c2) 0).
  - destruct (Z.eqb_spec c1 0) as [->|].
    + exists 0. split; [done|]. destruct (Z.eqb_spec c2 0); [done|].
      change (ascii_lower 0) with 0 in *. lia.
    + destruct (Z.eqb_spec c2 0) as [->|]; [change (ascii_lower 0) with 0 in *; lia|].
      destruct (IH p1 p2 H1 H2) as [r [-> Hr]]; [lia..|]. exists r. split; [done|].
      rewrite Hr, !fmap_cons. split; [intros ->; f_equal; lia|by intros [= _ ->]].
  - eexists. split; [done|]. split; [lia|]. intros Heq. exfalso. revert Heq.
    destruct (Z.eqb_spec c1 0) as [->|], (Z.eqb_spec c2 0) as [->|]; simpl; try done.
    intros [= Heq _]. lia.
Qed.

Lemma memcmp_spec p q n :
  (n <= length p)%nat -> (n <= length q)%nat ->
  exists r, memcmp p q n = Ok r /\ (r = 0 <-> take n p = take n q).
Proof.
  intros Hp Hq. unfold memcmp.
  rewrite (proj2 (Nat.leb_le _ _) Hp), (proj2 (Nat.leb_le _ _) Hq). simpl.
  eexists. split; [done|]. by rewrite cmp_sign_0, lex_eq.
Qed.
