(* ===== verification/KeyFormat.v ===== *)
(** Order-preserving row keys: [rocksdb_helper/key_format.cc] and the comparator of
    [rocksdb_helper/rocksdb_key_comparator.h].

    A key is the concatenation of its fields, each encoded so that comparing the
    keys byte by byte compares the fields: integers big-endian with the sign bit
    flipped, doubles as sign-magnitude integers, strings in 8-byte segments closed
    by a marker. *)
From Stdlib Require Import ZArith Lia.
From stdpp Require Import base list numbers gmap.
From S2P Require Import Prelude Value.
Local Open Scope Z_scope.

(** ** Numbers in text: the parts of the C library the keys go through *)
Module Num.

(** [std::to_string] of an unsigned value: decimal digits, most significant
    first. Twenty digits hold every 64-bit value. *)
Fixpoint dec_digits (fuel : nat) (n : Z) (acc : list Z) : list Z :=
  match fuel with
  | O => acc
  | S fuel =>
    let acc := 48 + n mod 10 :: acc in
    if n <? 10 then acc else dec_digits fuel (n / 10) acc
  end.

Definition to_string_u (n : Z) : list Z := dec_digits 20 n [].
Definition to_string_s (n : Z) : list Z :=
  if n <? 0 then 45 :: to_string_u (- n) else to_string_u n.

Definition isspace (c : Z) : bool := (c =? 32) || ((9 <=? c) && (c <=? 13)).
Definition isdigit (c : Z) : bool := (48 <=? c) && (c <=? 57).

Fixpoint skip_space (bs : list Z) : list Z :=
  match bs with
  | b :: r => if isspace b then skip_space r else bs
  | [] => []
  end.

Fixpoint digits_value (acc : Z) (bs : list Z) : Z :=
  match bs with
  | b :: r => if isdigit b then digits_value (10 * acc + (b - 48)) r else acc
  | [] => acc
  end.

(** An optional sign, then digits: the sign and the magnitude. *)
Definition scan_number (bs : list Z) : bool * Z :=
  match skip_space bs with
  | 45 :: r => (true, digits_value 0 r)
  | 43 :: r => (false, digits_value 0 r)
  | r => (false, digits_value 0 r)
  end.

(** [strtoll(s, NULL, 10)]: saturates at the ends of [long long]. *)
Definition strtoll (bs : list Z) : Z :=
  let '(neg, v) := scan_number bs in
  let v := if (neg : bool) then - v else v in
  Z.max (- 2 ^ 63) (Z.min (2 ^ 63 - 1) v).

(** [strtoull(s, NULL, 10)]: saturates, a minus sign negates modulo 2^64. *)
Definition strtoull (bs : list Z) : Z :=
  let '(neg, v) := scan_number bs in
  if 2 ^ 64 <=? v then 2 ^ 64 - 1 else if (neg : bool) then u64 (- v) else v.

Lemma digits_value_app acc ds r :
  forallb isdigit ds = true ->
  digits_value acc (ds ++ r) = digits_value (digits_value acc ds) r.
Proof.
  revert acc; induction ds as [|d ds IH]; intros acc; simpl; [done|].
  destruct (isdigit d); simpl; [|done]. apply IH.
Qed.

Lemma dec_digits_spec fuel n acc :
  0 <= n < 10 ^ Z.of_nat fuel -> (0 < fuel)%nat ->
  exists ds, dec_digits fuel n acc = ds ++ acc /\ ds <> [] /\
    forallb isdigit ds = true /\
    forall a, digits_value a ds = a * 10 ^ Z.of_nat (length ds) + n.
Proof.
  revert n acc; induction fuel as [|fuel IH]; intros n acc Hn Hf; [lia|].
  simpl dec_digits. assert (Hd : isdigit (48 + n mod 10) = true).
  { unfold isdigit. apply andb_true_intro; split; apply Z.leb_le; zdm. }
  destruct (Z.ltb_spec n 10).
  - exists [48 + n mod 10]. split_and!; [done..|simpl; by rewrite Hd|].
    intros a. simpl. rewrite Hd. rewrite Z.mod_small by lia. lia.
  - destruct fuel as [|fuel]; [simpl in Hn; lia|].
    rewrite Nat2Z.inj_succ, Z.pow_succ_r in Hn by lia.
    destruct (IH (n / 10) (48 + n mod 10 :: acc)) as (ds & -> & Hne & Hall & Hv); [zdm|lia|].
    exists (ds ++ [48 + n mod 10]). split_and!.
    + by rewrite <-app_assoc.
    + by destruct ds.
    + rewrite forallb_app, Hall. simpl. by rewrite Hd.
    + intros a. rewrite digits_value_app, Hv by done. simpl. rewrite Hd.
      rewrite length_app, Nat2Z.inj_add, Z.pow_add_r by lia. simpl.
      pose proof (Z.div_mod n 10). lia.
Qed.

Lemma to_string_u_spec n :
  is_u 64 n -> exists d ds, to_string_u n = d :: ds /\ isdigit d = true /\
    digits_value 0 (d :: ds) = n.
Proof.
  intros Hn. destruct (dec_digits_spec 20 n []) as (ds & E & Hne & Hall & Hv).
  { unfold is_u in Hn. simpl. lia. } { lia. }
  rewrite app_nil_r in E. destruct ds as [|d ds]; [done|]. exists d, ds.
  split_and!; [done| |by rewrite Hv].
  simpl in Hall. by apply andb_true_iff in Hall as [? _].
Qed.

(** A digit is neither white space nor a sign. *)
Lemma scan_digit d ds : isdigit d = true -> scan_number (d :: ds) = (false, digits_value 0 (d :: ds)).
Proof.
  unfold isdigit. intros [H1%Z.leb_le H2%Z.leb_le]%andb_true_iff.
  unfold scan_number, skip_space. assert (isspace d = false) as ->.
  { unfold isspace. bcases; simpl; lia. }
  assert (Hn : d = 48 \/ d = 49 \/ d = 50 \/ d = 51 \/ d = 52 \/ d = 53 \/ d = 54 \/ d = 55 \/ d = 56 \/ d = 57) by lia.
  repeat destruct Hn as [->|Hn]; subst; reflexivity.
Qed.

Lemma strtoull_to_string n : is_u 64 n -> strtoull (to_string_u n) = n.
Proof.
  intros Hn. destruct (to_string_u_spec n Hn) as (d & ds & -> & Hd & Hv).
  unfold strtoull. rewrite scan_digit, Hv by done. unfold is_u in Hn. bcases; lia.
Qed.

Lemma strtoll_to_string n : is_s 64 n -> strtoll (to_string_s n) = n.
Proof.
  intros Hn. unfold is_s in Hn. unfold to_string_s. destruct (Z.ltb_spec n 0).
  - destruct (to_string_u_spec (- n)) as (d & ds & -> & Hd & Hv); [unfold is_u; lia|].
    unfold strtoll. change (scan_number (45 :: d :: ds)) with (true, digits_value 0 (d :: ds)).
    rewrite Hv. lia.
  - destruct (to_string_u_spec n) as (d & ds & -> & Hd & Hv); [unfold is_u; lia|].
    unfold strtoll. rewrite scan_digit, Hv by done. lia.
Qed.

End Num.

(** ** [std::string] accesses *)

(** [s[i]]: the terminating NUL may be read, nothing after it. *)
Definition char_at (s : list Z) (i : nat) : outcome Z :=
  match s !! i with
  | Some c => Ok c
  | None => if Nat.eqb i (length s) then Ok 0 else Fault
  end.

(** [s.substr(pos, n)]: throws when [pos] is past the end, clips the [size_t] [n]. *)
Definition substr (s : list Z) (pos : nat) (n : Z) : outcome (list Z) :=
  if Nat.leb pos (length s)
  then Ok (take (Z.to_nat (Z.min n (Z.of_nat (length s)))) (drop pos s)) else Fault.

(** [memcpy(&u, s.c_str(), 8)] into a [uint64_t] of a little-endian host; the
    copy may include the terminating NUL. *)
Definition load_u64 (s : list Z) : outcome Z :=
  if Nat.leb 8 (S (length s)) then Ok (le_value (take 8 (s ++ [0]))) else Fault.

(** ** Encoding of one field *)
Module key_format.

Definition SEGMENT_SIZE : nat := 8.
Definition ENCODER_MARKER : Z := 127.
Definition signMask : Z := 0x8000000000000000.

Definition encode_into_cmp_uint (src : Z) : Z := Z.lxor (u64 src) signMask.

(** The C library's [htonl] on a little-endian host. *)
Definition htonl (v : Z) : Z := le_value (rev (le_bytes 4 v)).

Definition htonll (val : Z) : Z :=
  u64 (u64 (Z.shiftl (htonl (u32 val)) 32) + htonl (u32 (Z.shiftr val 32))).

Definition ntohll (val : Z) : Z :=
  u64 (u64 (Z.shiftl (htonl (u32 val)) 32) + htonl (u32 (Z.shiftr val 32))).

(** [encode_bytes(uint64_t)] *)
Definition encode_bytes_u64 (src : Z) : list Z := le_bytes 8 (htonll src).

(** [encode_bytes(int64_t)] *)
Definition encode_bytes_s64 (src : Z) : list Z := le_bytes 8 (htonll (encode_into_cmp_uint src)).

(** [src >= 0] on a [double] given by its bits: false for every NaN, true for
    both zeros. *)
Definition is_nan (u : Z) : bool := 0x7FF0000000000000 <? Z.land u 0x7FFFFFFFFFFFFFFF.
Definition double_ge_0 (u : Z) : bool :=
  negb (is_nan u) && ((u <? signMask) || (u =? signMask)).

(** [encode_bytes(double)], the argument given by its bits. *)
Definition encode_bytes_double (src : Z) : list Z :=
  let u := src in
  let u := if double_ge_0 src then Z.lor u signMask else Z.lxor u 0xFFFFFFFFFFFFFFFF in
  encode_bytes_u64 u.

(** [encode_bytes(const std::string &)]: the loop works on what is left of the
    string; every round but the last consumes seven bytes. *)
Fixpoint encode_segments (fuel : nat) (left : list Z) : list Z :=
  match fuel with
  | O => []
  | S fuel =>
    let copy_len := if Nat.ltb (SEGMENT_SIZE - 1) (length left) then (SEGMENT_SIZE - 1)%nat else length left in
    let padding_bytes := (SEGMENT_SIZE - 1 - copy_len)%nat in
    take copy_len left ++
    (if Nat.eqb padding_bytes 0
     then [ENCODER_MARKER] ++ encode_segments fuel (drop copy_len left)
     else replicate padding_bytes 0 ++ [ENCODER_MARKER - Z.of_nat padding_bytes])
  end.

Definition encode_bytes_str (src : list Z) : list Z := encode_segments (S (length src)) src.

(** ** Decoding of one field *)

(** [DecodeBytes(const std::string &, uint64_t &)] *)
Definition DecodeBytes_u64 (src : list Z) : outcome Z :=
  let! net_bytes := load_u64 src in Ok (ntohll net_bytes).

(** [DecodeBytes(const std::string &, int64_t &)] *)
Definition DecodeBytes_s64 (src : list Z) : outcome Z :=
  let! net_bytes := load_u64 src in Ok (s64 (Z.lxor (ntohll net_bytes) signMask)).

(** [DecodeBytes(const std::string &, double &)] *)
Definition DecodeBytes_double (src : list Z) : outcome Z :=
  let! u := DecodeBytes_u64 src in
  Ok (if 0 <? Z.land u signMask
      then Z.land u (Z.lxor signMask 0xFFFFFFFFFFFFFFFF)
      else Z.lxor u 0xFFFFFFFFFFFFFFFF).

(** [DecodeBytes(const std::string &, std::string &)]: appends to [dst], segment by
    segment. The padding is computed in [char]; a negative count becomes a huge
    [size_t]. *)
Fixpoint DecodeBytes_loop (fuel : nat) (src : list Z) (i : nat) (dst : list Z) : outcome (list Z) :=
  if Nat.ltb i (length src) then
    match fuel with
    | O => Fault
    | S fuel =>
      let! c := char_at src (i + 7) in
      let padding_bytes := s8 (ENCODER_MARKER - s8 c) in
      let! seg := substr src i (u64 (Z.of_nat SEGMENT_SIZE - 1 - padding_bytes)) in
      DecodeBytes_loop fuel src (i + SEGMENT_SIZE) (dst ++ seg)
    end
  else Ok dst.

Definition DecodeBytes_str (src dst : list Z) : outcome (list Z) :=
  let dst := if Nat.eqb (length src) 0 then [] else dst in
  DecodeBytes_loop (length src) src 0 dst.

(** The scan for the last segment: [for (; src[pos-1] == ENCODER_MARKER; pos += 8)]. *)
Fixpoint segment_end (fuel : nat) (src : list Z) (pos : nat) : outcome nat :=
  let! c := char_at src (pos - 1) in
  if c =? ENCODER_MARKER then
    match fuel with
    | O => Fault
    | S fuel => segment_end fuel src (pos + SEGMENT_SIZE)
    end
  else Ok pos.

Section Keys.
(** [strtod] and [std::to_string(double)] of the C library, on the bits of the
    double; the theorems that need more of them say so. *)
Variable strtod : list Z -> Z.
Variable to_string_d : Z -> list Z.

(** ** Whole keys *)

(** One field of [Encode(fieldValues, fieldTypes)]; a type the switch does not
    name adds nothing and does not look at the value. *)
Definition encode_field (type : Z) (v : outcome (list Z)) : outcome (list Z) :=
  if type =? DField.Signed then let! s := v in Ok (encode_bytes_s64 (Num.strtoll (cstr s)))
  else if type =? DField.Unsigned then let! s := v in Ok (encode_bytes_u64 (Num.strtoull (cstr s)))
  else if type =? DField.Float then let! s := v in Ok (encode_bytes_double (strtod (cstr s)))
  else if (type =? DField.Binary) || (type =? DField.String) then let! s := v in Ok (encode_bytes_str s)
  else Ok [].

(** [fieldValues[i]] of a vector: out of range is undefined. *)
Definition vec_at (vs : list (list Z)) (i : nat) : outcome (list Z) :=
  match vs !! i with Some v => Ok v | None => Fault end.

(** [Encode(fieldValues, fieldTypes)]; [i] is the loop counter. *)
Fixpoint Encode_from (fieldValues : list (list Z)) (fieldTypes : list Z) (i : nat) : outcome (list Z) :=
  match fieldTypes with
  | [] => Ok []
  | t :: ts =>
    let! b := encode_field t (vec_at fieldValues i) in
    let! r := Encode_from fieldValues ts (S i) in
    Ok (b ++ r)
  end.

Definition Encode (fieldValues : list (list Z)) (fieldTypes : list Z) : outcome (list Z) :=
  Encode_from fieldValues fieldTypes 0.

(** [Encode(fieldValues, table_def, caseSensitiveFreeLen)]: the types are those of
    the table's unique fields. The [Binary] case has no [break]: it goes on into
    the [String] case, which appends the field once more and counts it as case
    insensitive. *)
Fixpoint Encode_table_from (fieldValues : list (list Z)) (uniq_types : list Z) (i : nat)
    (rockdb_key : list Z) (free : Z) : outcome (list Z * Z) :=
  match uniq_types with
  | [] => Ok (rockdb_key, free)
  | t :: ts =>
    if (t =? DField.Binary) || (t =? DField.String) then
      let! s := vec_at fieldValues i in
      let rockdb_key := if t =? DField.Binary then rockdb_key ++ encode_bytes_str s else rockdb_key in
      let temp_field := encode_bytes_str s in
      Encode_table_from fieldValues ts (S i) (rockdb_key ++ temp_field)
        (u64 (free + Z.of_nat (length temp_field)))
    else
      let! b := encode_field t (vec_at fieldValues i) in
      Encode_table_from fieldValues ts (S i) (rockdb_key ++ b) free
  end.

Definition Encode_table (fieldValues : list (list Z)) (uniq_types : list Z) : outcome (list Z * Z) :=
  Encode_table_from fieldValues uniq_types 0 [] 0.

(** [Encode(map, table_def, caseSensitiveFreeLen)]: fields absent from the map are
    left out of the key. *)
Fixpoint Encode_map (fieldValues : gmap Z DTCValue) (field_type : Z -> Z) (uniq_fields : list Z)
    (rockdb_key : list Z) (free : Z) : outcome (list Z * Z) :=
  match uniq_fields with
  | [] => Ok (rockdb_key, free)
  | id :: ids =>
    match fieldValues !! id with
    | None => Encode_map fieldValues field_type ids rockdb_key free
    | Some v =>
      let t := field_type id in
      let! bf :=
        (if t =? DField.Signed then let! x := val_s64 v in Ok (encode_bytes_s64 x, free)
         else if t =? DField.Unsigned then let! x := val_u64 v in Ok (encode_bytes_u64 x, free)
         else if t =? DField.Float then let! x := val_flt v in Ok (encode_bytes_double x, free)
         else if t =? DField.Binary then
           let! b := val_bin v in let! s := string_of_bin b in Ok (encode_bytes_str s, free)
         else if t =? DField.String then
           let! b := val_bin v in let! s := string_of_bin b in
           let temp_field := encode_bytes_str s in
           Ok (temp_field, u64 (free + Z.of_nat (length temp_field)))
         else Ok ([], free)) in
      Encode_map fieldValues field_type ids (rockdb_key ++ fst bf) (snd bf)
    end
  end.

(** One field of [Decode]: its text and the position after it. *)
Definition decode_field (src : list Z) (type : Z) (pos : nat) : outcome (list Z * nat) :=
  if type =? DField.Signed then
    let! s := substr src pos 8 in let! v := DecodeBytes_s64 s in
    Ok (Num.to_string_s v, (pos + 8)%nat)
  else if type =? DField.Unsigned then
    let! s := substr src pos 8 in let! v := DecodeBytes_u64 s in
    Ok (Num.to_string_u v, (pos + 8)%nat)
  else if type =? DField.Float then
    let! s := substr src pos 8 in let! v := DecodeBytes_double s in
    Ok (to_string_d v, (pos + 8)%nat)
  else if (type =? DField.Binary) || (type =? DField.String) then
    let begin_pos := pos in
    let! pos := segment_end (length src) src (pos + SEGMENT_SIZE) in
    let! s := substr src begin_pos (Z.of_nat (pos - begin_pos)) in
    let! value := DecodeBytes_str s [] in
    Ok (value, pos)
  else Ok ([], pos).

(** [Decode(src, fieldTypes, fieldValues)]; the overload that takes the table runs
    the same loop over the types of the table's unique fields. *)
Fixpoint Decode_from (src : list Z) (fieldTypes : list Z) (pos : nat) : outcome (list (list Z)) :=
  match fieldTypes with
  | [] => Ok []
  | t :: ts =>
    let! vp := decode_field src t pos in
    let! r := Decode_from src ts (snd vp) in
    Ok (fst vp :: r)
  end.

Definition Decode (src : list Z) (fieldTypes : list Z) : outcome (list (list Z)) :=
  Decode_from src fieldTypes 0.

Definition Decode_table (src : list Z) (uniq_types : list Z) : outcome (list (list Z)) :=
  Decode_from src uniq_types 0.

(** [decode_primary_key]: the first field as text; the text of a string is
    appended to what [pKey] held, an unknown type leaves [pKey] alone. *)
Definition decode_primary_key (src : list Z) (keyType : Z) (pKey : list Z) : outcome (list Z) :=
  if keyType =? DField.Signed then
    let! s := substr src 0 8 in let! v := DecodeBytes_s64 s in Ok (Num.to_string_s v)
  else if keyType =? DField.Unsigned then
    let! s := substr src 0 8 in let! v := DecodeBytes_u64 s in Ok (Num.to_string_u v)
  else if keyType =? DField.Float then
    let! s := substr src 0 8 in let! v := DecodeBytes_double s in Ok (to_string_d v)
  else if (keyType =? DField.Binary) || (keyType =? DField.String) then
    let! pos := segment_end (length src) src SEGMENT_SIZE in
    let! s := substr src 0 (Z.of_nat pos) in
    DecodeBytes_str s pKey
  else Ok pKey.

End Keys.

(** [get_field_len]: the encoded length of the field at the start of [src], as an
    [int]; -1 for an unknown type. *)
Definition get_field_len (src : list Z) (fieldType : Z) : outcome Z :=
  if (fieldType =? DField.Signed) || (fieldType =? DField.Unsigned) || (fieldType =? DField.Float)
  then Ok 8
  else if (fieldType =? DField.Binary) || (fieldType =? DField.String) then
    let! pos := segment_end (length src) src SEGMENT_SIZE in Ok (s32 (Z.of_nat pos))
  else Ok (-1).

(** [get_format_key]: the encoded first field; [Err (-1)] for an unknown type. *)
Definition get_format_key (src : list Z) (fieldType : Z) : outcome (list Z) :=
  if (fieldType =? DField.Signed) || (fieldType =? DField.Unsigned) || (fieldType =? DField.Float)
  then substr src 0 8
  else if (fieldType =? DField.Binary) || (fieldType =? DField.String) then
    let! pos := segment_end (length src) src SEGMENT_SIZE in substr src 0 (Z.of_nat pos)
  else Err (-1).

(** ** Comparison of keys *)

(** [toupper] in the "C" locale, on a [char] converted to [int]. *)
Definition toupper (c : Z) : Z := if (97 <=? c) && (c <=? 122) then c - 32 else c.

(** [my_strn_case_cmp]: [char]s are signed, so bytes from 128 on come first. *)
Fixpoint my_strn_case_cmp (s1 s2 : list Z) (n : nat) : outcome Z :=
  match n with
  | O => Ok 0
  | S n =>
    match s1, s2 with
    | b1 :: s1, b2 :: s2 =>
      let c1 := s8 (toupper (s8 b1)) in
      let c2 := s8 (toupper (s8 b2)) in
      if c1 =? c2 then my_strn_case_cmp s1 s2 n
      else if c1 <? c2 then Ok (-1) else Ok 1
    | _, _ => Fault
    end
  end.

(** [memcmp] of the C library: which value it returns for two runs of bytes that differ
    is its own, but for the sign. *)
Class Memcmp := memcmp_value : list Z -> list Z -> Z.
Class MemcmpSign `{!Memcmp} : Prop :=
  memcmp_sign : forall p q, length p = length q -> Z.sgn (memcmp_value p q) = cmp_sign (lex p q).

Section Comparing.
Context `{!Memcmp}.

Definition memcmp (p q : list Z) (n : nat) : outcome Z :=
  if (Nat.leb n (length p)) && (Nat.leb n (length q)) then Ok (memcmp_value (take n p) (take n q)) else Fault.

(** [Compare]: field by field with the type of each. [lens] are the field lengths
    the previous round left in [lFieldLen] and [rFieldLen], none at the start: an
    unknown type reuses them. The heads are the remaining memory of the keys. *)
Fixpoint Compare_from (lHead rHead : list Z) (fieldTypes : list Z) (lens : option (Z * Z)) : outcome Z :=
  match fieldTypes with
  | [] => Ok 0
  | type :: ts =>
    let! lr :=
      (if (type =? DField.Signed) || (type =? DField.Unsigned) || (type =? DField.Float) then Ok (8, 8)
       else if (type =? DField.Binary) || (type =? DField.String) then
         let! l := get_field_len lHead type in
         let! r := get_field_len rHead type in Ok (l, r)
       else match lens with Some p => Ok p | None => Fault end) in
    let '(lFieldLen, rFieldLen) := lr in
    let compLen := if rFieldLen <? lFieldLen then rFieldLen else lFieldLen in
    let n := Z.to_nat (u64 compLen) in
    let! ret := (if type =? DField.String then my_strn_case_cmp lHead rHead n
                 else memcmp lHead rHead n) in
    if negb (ret =? 0) then Ok ret
    else if negb (lFieldLen =? rFieldLen) then Ok (if lFieldLen <? rFieldLen then -1 else 1)
    else Compare_from (drop n lHead) (drop n rHead) ts (Some lr)
  end.

Definition Compare (ls rs : list Z) (fieldTypes : list Z) : outcome Z :=
  Compare_from ls rs fieldTypes None.

End Comparing.
End key_format.

(** ** The RocksDB comparator of [rocksdb_key_comparator.h] *)
Module CommKeyComparator.
Import key_format.

(** [lk.compare(0, n, rk)]: the first [n] bytes of [lk] against the whole of [rk]. *)
Definition string_compare (lk : list Z) (n : nat) (rk : list Z) : Z :=
  cmp_sign (lex (take n lk) rk).

Definition len_sign (l r : Z) : Z := if l <? r then -1 else if r <? l then 1 else 0.

Record t := mk { mCaseSensitiveKey : bool; mHasVirtualField : bool }.

Section Comparing.
Context `{!Memcmp}.

(** The comparison of a key with a case-insensitive tail ("virtual field") whose
    length the last eight bytes give. A failed [assert] aborts. *)
Definition compare_virtual (c : t) (lk rk : list Z) : outcome Z :=
  let lkLen := Z.of_nat (length lk) in
  let rkLen := Z.of_nat (length rk) in
  let! lkNextStr := (if 8 <=? lkLen then substr lk (Z.to_nat (lkLen - 8)) lkLen else Fault) in
  let! rkNextStr := (if 8 <=? rkLen then substr rk (Z.to_nat (rkLen - 8)) rkLen else Fault) in
  let! lkNextLen := DecodeBytes_u64 lkNextStr in
  let! rkNextLen := DecodeBytes_u64 rkNextStr in
  let lkPrevLen := u64 (lkLen - lkNextLen - 8) in
  let rkPrevLen := u64 (rkLen - rkNextLen - 8) in
  let minLen := if lkPrevLen <? rkPrevLen then lkPrevLen else rkPrevLen in
  if minLen =? 0 then Fault else
  let! r := (if c.(mCaseSensitiveKey)
             then Ok (string_compare lk (Z.to_nat (Z.min minLen lkLen)) rk)
             else my_strn_case_cmp lk rk (Z.to_nat (Z.min minLen (lkLen + rkLen + 1)))) in
  let r := if r =? 0 then len_sign lkPrevLen rkPrevLen else r in
  if r =? 0 then
    let minLen := if lkNextLen <? rkNextLen then lkNextLen else rkNextLen in
    let n := Z.to_nat (Z.min minLen (lkLen + rkLen + 1)) in
    let ltail := drop (Z.to_nat lkPrevLen) lk in
    let rtail := drop (Z.to_nat rkPrevLen) rk in
    if negb c.(mCaseSensitiveKey) then memcmp ltail rtail n else my_strn_case_cmp ltail rtail n
  else Ok r.

(** [internal_compare] *)
Definition internal_compare (c : t) (lk rk : list Z) : outcome Z :=
  let lkLen := Z.of_nat (length lk) in
  let rkLen := Z.of_nat (length rk) in
  let! r :=
    (if c.(mHasVirtualField) then compare_virtual c lk rk
     else
       let minLen := if lkLen <? rkLen then lkLen else rkLen in
       if minLen =? 0 then Fault
       else if c.(mCaseSensitiveKey) then Ok (string_compare lk (Z.to_nat minLen) rk)
       else my_strn_case_cmp lk rk (Z.to_nat minLen)) in
  Ok (if r =? 0 then len_sign lkLen rkLen else r).

End Comparing.

(** [case_sensitive_rockskey] *)
Definition case_sensitive_rockskey (c : t) : bool :=
  Bool.eqb c.(mCaseSensitiveKey) true && Bool.eqb c.(mHasVirtualField) false.

(** [CanKeysWithDifferentByteContentsBeEqual] of the RocksDB comparator. *)
Definition CanKeysWithDifferentByteContentsBeEqual (c : t) : bool :=
  if case_sensitive_rockskey c then false else true.

End CommKeyComparator.

(** ** Numbers: the encodings are big-endian images *)
Module KeyFacts.
Import key_format.

Lemma htonl_be v : htonl v = be_value (le_bytes 4 v).
Proof. reflexivity. Qed.

(** Splitting a byte image at a byte boundary. *)
Lemma le_bytes_be_value bs : bytes_ok bs -> le_bytes (length bs) (be_value bs) = rev bs.
Proof. intros. unfold be_value. rewrite <-length_rev. by apply le_bytes_value, Forall_rev. Qed.

Lemma htonl_bound v : 0 <= htonl v < 2 ^ 32.
Proof. rewrite htonl_be. apply (be_value_bound (le_bytes 4 v)), le_bytes_ok. Qed.

(** [htonll] reverses the eight bytes. *)
Lemma htonll_be v : is_u 64 v -> htonll v = be_value (le_bytes 8 v).
Proof.
  intros Hv. unfold is_u in Hv. unfold htonll.
  change 8%nat with (4 + 4)%nat. rewrite le_bytes_app, be_value_app, le_bytes_length.
  change (256 ^ Z.of_nat 4) with (2 ^ 32).
  rewrite Z.shiftl_mul_pow2, Z.shiftr_div_pow2 by lia.
  assert (E : htonl (u32 v) = be_value (le_bytes 4 v)).
  { rewrite htonl_be. unfold u32, wrap. by rewrite <-(le_bytes_mod 4 v). }
  assert (E' : u32 (v / 2 ^ 32) = v / 2 ^ 32) by (apply wrap_small; unfold is_u; zdm).
  rewrite E, E', htonl_be.
  pose proof (be_value_bound _ (le_bytes_ok 4 v)) as B1.
  pose proof (be_value_bound _ (le_bytes_ok 4 (v / 2 ^ 32))) as B2.
  rewrite le_bytes_length in B1, B2. change (256 ^ Z.of_nat 4) with (2 ^ 32) in B1, B2.
  unfold u64. rewrite !wrap_small; [done|..]; unfold is_u; rewrite ?wrap_small; unfold is_u; lia.
Qed.

Lemma encode_bytes_u64_be v : is_u 64 v -> encode_bytes_u64 v = be_bytes 8 v.
Proof.
  intros Hv. unfold encode_bytes_u64. rewrite htonll_be by done.
  rewrite <-(le_bytes_length 8 v) at 1. apply le_bytes_be_value, le_bytes_ok.
Qed.

Lemma lxor_signMask_u64 v : is_s 64 v -> encode_into_cmp_uint v = v + 2 ^ 63.
Proof.
  intros [Hl Hh]. change (64 - 1) with 63 in *. unfold encode_into_cmp_uint, u64, signMask.
  change 0x8000000000000000 with (2 ^ 63).
  assert (Hadd : forall a, 0 <= a < 2 ^ 63 -> Z.lxor a (2 ^ 63) = a + 2 ^ 63).
  { intros a Ha. rewrite <-(Z.mul_1_l (2 ^ 63)). apply lxor_above; lia. }
  destruct (decide (0 <= v)).
  - rewrite wrap_small by (unfold is_u; lia). apply Hadd. lia.
  - rewrite wrap_neg by lia. replace (v + 2 ^ 64) with (v + 2 ^ 63 + 2 ^ 63) by lia.
    rewrite <-Hadd at 1 by lia. by rewrite Z.lxor_assoc, Z.lxor_nilpotent, Z.lxor_0_r.
Qed.

Lemma encode_bytes_s64_be v : is_s 64 v -> encode_bytes_s64 v = be_bytes 8 (v + 2 ^ 63).
Proof.
  intros Hv. unfold encode_bytes_s64. rewrite lxor_signMask_u64 by done.
  change (encode_bytes_u64 (v + 2 ^ 63) = be_bytes 8 (v + 2 ^ 63)).
  apply encode_bytes_u64_be. destruct Hv. change (64 - 1) with 63 in *. unfold is_u. lia.
Qed.

Lemma be_bytes_lex v w :
  is_u 64 v -> is_u 64 w -> lex (be_bytes 8 v) (be_bytes 8 w) = Z.compare v w.
Proof.
  intros Hv Hw.
  rewrite lex_be_value, !be_value_bytes by (auto using be_bytes_ok; by rewrite !be_bytes_length).
  change (256 ^ Z.of_nat 8) with (2 ^ 64). by rewrite !Z.mod_small.
Qed.

Lemma load_u64_ok bs : length bs = 8%nat -> load_u64 bs = Ok (le_value bs).
Proof.
  intros Hl. unfold load_u64. rewrite Hl. simpl.
  rewrite take_app_le by lia. rewrite take_ge by lia. done.
Qed.

Lemma ntohll_htonll_same v : ntohll v = htonll v.
Proof. reflexivity. Qed.

Lemma ntohll_htonll v : is_u 64 v -> ntohll (htonll v) = v.
Proof.
  intros Hv. rewrite ntohll_htonll_same.
  assert (is_u 64 (htonll v)) by (apply wrap_range; lia).
  rewrite htonll_be by done. rewrite (htonll_be v Hv).
  rewrite <-(le_bytes_length 8 v) at 1. rewrite le_bytes_be_value by apply le_bytes_ok.
  unfold be_value. rewrite rev_involutive, le_value_bytes.
  change (256 ^ Z.of_nat 8) with (2 ^ 64). by apply Z.mod_small.
Qed.

Lemma DecodeBytes_u64_encode v : is_u 64 v -> DecodeBytes_u64 (encode_bytes_u64 v) = Ok v.
Proof.
  intros Hv. unfold DecodeBytes_u64, encode_bytes_u64.
  rewrite load_u64_ok by apply le_bytes_length. cbn [obind].
  rewrite le_value_bytes, Z.mod_small by (apply (wrap_range 64); lia).
  by rewrite ntohll_htonll.
Qed.

Lemma DecodeBytes_s64_encode v : is_s 64 v -> DecodeBytes_s64 (encode_bytes_s64 v) = Ok v.
Proof.
  intros Hv. pose proof (lxor_signMask_u64 v Hv) as E.
  assert (Hu : is_u 64 (encode_into_cmp_uint v)).
  { rewrite E. destruct Hv. change (64 - 1) with 63 in *. unfold is_u. lia. }
  pose proof (DecodeBytes_u64_encode _ Hu) as D. unfold DecodeBytes_u64 in D.
  unfold DecodeBytes_s64. change (encode_bytes_s64 v) with (encode_bytes_u64 (encode_into_cmp_uint v)).
  destruct (load_u64 _); simpl in *; try done. injection D as ->.
  unfold encode_into_cmp_uint at 1. rewrite Z.lxor_assoc, Z.lxor_nilpotent, Z.lxor_0_r.
  unfold s64, u64. by rewrite swrap_wrap, swrap_small by (lia || done).
Qed.

(** ** Doubles as sign-magnitude integers *)

(** The order of the finite doubles and infinities, on their bits: the magnitude,
    negated when the sign bit is set. Both zeros have rank 0. *)
Definition double_rank (u : Z) : Z := if u <? 2 ^ 63 then u else 2 ^ 63 - u.

Lemma lor_signMask u : is_u 64 u -> Z.lor u signMask = if u <? 2 ^ 63 then u + 2 ^ 63 else u.
Proof.
  intros Hu. unfold is_u in Hu. change signMask with (2 ^ 63).
  destruct (Z.ltb_spec u (2 ^ 63)).
  - rewrite <-(Z.mul_1_l (2 ^ 63)). apply lor_above; lia.
  - apply Z.bits_inj'. intros n Hn. rewrite Z.lor_spec.
    destruct (decide (n = 63)) as [->|].
    + rewrite Z.pow2_bits_true, orb_true_r by lia. symmetry. apply Z.testbit_true; [lia|].
      replace (u / 2 ^ 63) with 1 by zdm. done.
    + rewrite Z.pow2_bits_false by lia. apply orb_false_r.
Qed.

Lemma lxor_ones u : is_u 64 u -> Z.lxor u 0xFFFFFFFFFFFFFFFF = 2 ^ 64 - 1 - u.
Proof.
  intros Hu. unfold is_u in Hu. change 0xFFFFFFFFFFFFFFFF with (Z.ones 64).
  rewrite <-(Z.add_simpl_r (Z.lxor u (Z.ones 64)) u). f_equal.
  assert (E : Z.land (Z.lxor u (Z.ones 64)) u = 0).
  { apply Z.bits_inj'. intros n Hn. rewrite Z.land_spec, Z.lxor_spec, Z.bits_0, Z.testbit_ones by lia.
    destruct (Z.leb_spec 0 n), (Z.ltb_spec n 64); try lia; simpl; [by destruct (Z.testbit u n)|].
    rewrite (testbit_above 64) by lia. done. }
  rewrite (Z.add_nocarry_lxor _ _ E), Z.lxor_comm, <-Z.lxor_assoc, Z.lxor_nilpotent, Z.lxor_0_l.
  reflexivity.
Qed.

(** What the encoder stores: the rank moved up to the unsigned range, except that
    the two zeros and the negative numbers leave one value unused. *)
Definition double_code (u : Z) : Z :=
  if double_ge_0 u then Z.lor u signMask else Z.lxor u 0xFFFFFFFFFFFFFFFF.

Lemma double_code_rank u :
  is_u 64 u -> is_nan u = false ->
  double_code u = if double_rank u <? 0 then 2 ^ 63 - 1 + double_rank u else 2 ^ 63 + double_rank u.
Proof.
  intros Hu Hn. unfold double_code, double_ge_0, double_rank. rewrite Hn. simpl.
  rewrite lor_signMask, lxor_ones by done. unfold is_u in Hu.
  change signMask with (2 ^ 63). change (2 ^ 63) with 9223372036854775808 in *.
  change (2 ^ 64) with 18446744073709551616 in *.
  bcases; simpl; bcases; lia.
Qed.

Lemma double_code_range u : is_u 64 u -> is_u 64 (double_code u).
Proof.
  intros Hu. unfold double_code. rewrite lor_signMask, lxor_ones by done.
  unfold is_u in *. destruct (double_ge_0 u); [bcases|]; lia.
Qed.

End KeyFacts.

(** ** Strings: segments *)
Module SegFacts.
Import key_format.

(** The first segment of a string and what follows it. *)
Definition head_segment (l : list Z) : list Z :=
  take 7 l ++ replicate (7 - length (take 7 l)) 0 ++ [120 + Z.of_nat (length (take 7 l))].

Lemma head_segment_length l : length (head_segment l) = 8%nat.
Proof.
  unfold head_segment. rewrite !length_app, length_replicate, length_take. cbn [length]. lia.
Qed.

Lemma encode_segments_fuel f g l :
  (length l < f)%nat -> (length l < g)%nat -> encode_segments f l = encode_segments g l.
Proof.
  revert g l; induction f as [|f IH]; intros [|g] l Hf Hg; try lia.
  cbn [encode_segments]. change (SEGMENT_SIZE - 1)%nat with 7%nat.
  set (n := if Nat.ltb 7 (length l) then 7%nat else length l).
  assert (Hn : (n = 7%nat /\ 7 < length l)%nat \/ n = length l)
    by (unfold n; destruct (Nat.ltb_spec 7 (length l)); auto).
  clearbody n. destruct (Nat.eqb_spec (7 - n) 0); [|done].
  by rewrite (IH g) by (rewrite length_drop; lia).
Qed.

Lemma encode_bytes_str_unfold l :
  encode_bytes_str l =
    head_segment l ++ (if Nat.ltb (length l) 7 then [] else encode_bytes_str (drop 7 l)).
Proof.
  unfold encode_bytes_str at 1, head_segment. cbn [encode_segments].
  change (SEGMENT_SIZE - 1)%nat with 7%nat. rewrite <-!app_assoc.
  destruct (Nat.ltb_spec (length l) 7) as [Hs|Hs].
  - rewrite (proj2 (Nat.ltb_ge 7 (length l))) by lia.
    destruct (Nat.eqb_spec (7 - length l) 0); [lia|].
    rewrite (take_ge l (length l)), (take_ge l 7) by lia. unfold ENCODER_MARKER. simpl.
    do 3 f_equal. lia.
  - assert (Ht : length (take 7 l) = 7%nat) by (rewrite length_take; lia).
    assert ((if Nat.ltb 7 (length l) then 7%nat else length l) = 7%nat) as ->.
    { destruct (Nat.ltb_spec 7 (length l)); lia. }
    rewrite Ht. simpl. do 2 f_equal. apply encode_segments_fuel; rewrite length_drop; lia.
Qed.

(** Induction along the segments. *)
Lemma seg_ind (P : list Z -> Prop) :
  (forall l, (length l < 7)%nat -> P l) ->
  (forall l, (7 <= length l)%nat -> P (drop 7 l) -> P l) ->
  forall l, P l.
Proof.
  intros Hs Hl l. induction l as [l IH] using (induction_ltof1 _ length). unfold ltof in IH.
  destruct (decide (length l < 7)%nat); [auto|]. apply Hl; [lia|]. apply IH.
  rewrite length_drop. lia.
Qed.

Lemma encode_bytes_str_length l :
  length (encode_bytes_str l) = (8 * (length l / 7 + 1))%nat.
Proof.
  induction l as [l Hs|l Hl IH] using seg_ind;
    rewrite encode_bytes_str_unfold, length_app, head_segment_length.
  - rewrite (proj2 (Nat.ltb_lt _ _) Hs). rewrite Nat.div_small by done. done.
  - rewrite (proj2 (Nat.ltb_ge _ _) Hl), IH, length_drop.
    replace (length l) with (length l - 7 + 1 * 7)%nat at 2 by lia.
    rewrite Nat.div_add by lia. lia.
Qed.

Lemma head_segment_ok l : bytes_ok l -> bytes_ok (head_segment l).
Proof.
  intros Hl. unfold head_segment. rewrite !Forall_app. split_and!.
  - by apply Forall_take.
  - apply Forall_replicate. unfold is_u. lia.
  - constructor; [|done]. rewrite length_take. unfold is_u. lia.
Qed.

Lemma encode_bytes_str_ok l : bytes_ok l -> bytes_ok (encode_bytes_str l).
Proof.
  intros Hl. induction l as [l Hs|l Hs IH] using seg_ind;
    rewrite encode_bytes_str_unfold, Forall_app; (split; [by apply head_segment_ok|]).
  - by rewrite (proj2 (Nat.ltb_lt _ _) Hs).
  - rewrite (proj2 (Nat.ltb_ge _ _) Hs). by apply IH, Forall_drop.
Qed.

(** *** Order *)

(** A padded string against a longer one whose padding starts later. *)
Lemma lex_pad_nil k b m n xs ys :
  bytes_ok b -> (length b <= k)%nat -> m < n ->
  lex (replicate k 0 ++ m :: xs) (b ++ replicate (k - length b) 0 ++ n :: ys) = Lt.
Proof.
  revert k; induction b as [|y b IH]; intros k Hb Hk Hmn.
  - simpl. rewrite Nat.sub_0_r, lex_app_same. simpl.
    destruct (Z.compare_spec m n); (done || lia).
  - destruct k as [|k]; [simpl in Hk; lia|]. apply Forall_cons in Hb as [Hy Hb].
    unfold is_u in Hy. simpl. destruct (Z.compare_spec 0 y); [|done|lia].
    apply IH; simpl in *; (done || lia).
Qed.

(** Padding with zeros and closing with a marker that grows with the length keeps
    the order and separates the continuations. *)
Lemma lex_pad a b k m n xs ys :
  bytes_ok a -> bytes_ok b -> (length a <= k)%nat -> (length b <= k)%nat ->
  Z.compare m n = Nat.compare (length a) (length b) ->
  lex (a ++ replicate (k - length a) 0 ++ m :: xs) (b ++ replicate (k - length b) 0 ++ n :: ys)
  = match lex a b with Eq => lex xs ys | r => r end.
Proof.
  revert b k; induction a as [|x a IH]; intros b k Ha Hb La Lb Hc.
  - destruct b as [|y b].
    + simpl. rewrite Nat.sub_0_r, lex_app_same. simpl. by rewrite Hc.
    + simpl (length []). rewrite Nat.sub_0_r. simpl ([] ++ _).
      rewrite (lex_pad_nil k (y :: b)) by (done || by apply Z.compare_lt_iff). done.
  - apply Forall_cons in Ha as Ha'. destruct Ha' as [Hx Ha']. destruct b as [|y b].
    + rewrite lex_antisym. simpl (length []). rewrite Nat.sub_0_r. simpl ([] ++ _).
      rewrite (lex_pad_nil k (x :: a)) by (done || by apply Z.compare_gt_iff). done.
    + apply Forall_cons in Hb as [Hy Hb]. destruct k as [|k]; [simpl in La; lia|].
      simpl. destruct (Z.compare x y); try done.
      apply IH; simpl in La, Lb; (done || lia).
Qed.

(** A string shorter than a prefix of the other is decided within the prefix. *)
Lemma lex_short a p q : (length a < length p)%nat -> lex a (p ++ q) = lex a p.
Proof.
  revert p; induction a as [|x a IH]; intros [|y p] Hl; simpl in *; try lia; [done|].
  destruct (Z.compare x y); auto. apply IH. lia.
Qed.

(** The order is kept by every reading [f] of the bytes that sends the padding to 0
    and keeps the markers in order; the identity is the one of [memcmp]. *)
Section Reading.
Context (f : Z -> Z) (dom : Z -> Prop).
Context (f_pad : f 0 = 0) (f_dom : forall b, dom b -> byte_ok (f b)).
Context (f_marker : forall i j, (i <= 7)%nat -> (j <= 7)%nat ->
  Z.compare (f (120 + Z.of_nat i)) (f (120 + Z.of_nat j)) = Nat.compare i j).

Lemma fmap_dom_ok l : Forall dom l -> bytes_ok (f <$> l).
Proof using f_dom. intros H. apply Forall_fmap. eapply Forall_impl; [exact H|]. apply f_dom. Qed.

Lemma fmap_take7 l : f <$> take 7 l = take 7 (f <$> l).
Proof. by rewrite fmap_take. Qed.

Lemma lex_head_segment a b xs ys :
  Forall dom a -> Forall dom b ->
  lex ((f <$> head_segment a) ++ xs) ((f <$> head_segment b) ++ ys)
  = match lex (take 7 (f <$> a)) (take 7 (f <$> b)) with Eq => lex xs ys | r => r end.
Proof using f_pad f_dom f_marker.
  intros Ha Hb. unfold head_segment.
  rewrite !fmap_app, !fmap_replicate, f_pad, <-!app_assoc, <-!fmap_take7.
  simpl ((f <$> [_]) ++ _). rewrite <-(length_fmap f (take 7 a)), <-(length_fmap f (take 7 b)).
  apply lex_pad; rewrite ?length_fmap, ?length_take; try lia;
    [by apply fmap_dom_ok, Forall_take..|apply f_marker; lia].
Qed.

(** Comparing encoded strings followed by anything is comparing the strings, then
    what follows. *)
Lemma encode_bytes_str_lex_fmap a b xs ys :
  Forall dom a -> Forall dom b ->
  lex ((f <$> encode_bytes_str a) ++ xs) ((f <$> encode_bytes_str b) ++ ys)
  = match lex (f <$> a) (f <$> b) with Eq => lex xs ys | r => r end.
Proof using f_pad f_dom f_marker.
  intros Ha. revert b; induction a as [a Hs|a Hs IH] using seg_ind; intros b Hb;
    rewrite (encode_bytes_str_unfold a), (encode_bytes_str_unfold b), !fmap_app, <-!app_assoc,
      lex_head_segment by done.
  - rewrite (proj2 (Nat.ltb_lt _ _) Hs), (take_ge (f <$> a)) by (rewrite length_fmap; lia). simpl.
    destruct (Nat.ltb_spec (length b) 7); [by rewrite (take_ge (f <$> b)) by (rewrite length_fmap; lia)|].
    assert (Hne : lex (f <$> a) (take 7 (f <$> b)) <> Eq).
    { rewrite lex_eq. intros E%(f_equal length). rewrite length_take, !length_fmap in E. lia. }
    assert (lex (f <$> a) (f <$> b) = lex (f <$> a) (take 7 (f <$> b))) as ->.
    { rewrite <-(take_drop 7 (f <$> b)) at 1. apply lex_short. rewrite length_take, !length_fmap. lia. }
    by destruct (lex (f <$> a) (take 7 (f <$> b))).
  - rewrite (proj2 (Nat.ltb_ge _ _) Hs). destruct (Nat.ltb_spec (length b) 7).
    + assert (Hne : lex (take 7 (f <$> a)) (f <$> b) <> Eq).
      { rewrite lex_eq. intros E%(f_equal length). rewrite length_take, !length_fmap in E. lia. }
      assert (E : lex (f <$> a) (f <$> b) = lex (take 7 (f <$> a)) (f <$> b)).
      { rewrite <-(take_drop 7 (f <$> a)) at 1.
        rewrite (lex_antisym (f <$> b)), lex_short, <-lex_antisym
          by (rewrite length_take, !length_fmap; lia). done. }
      rewrite (take_ge (f <$> b)), E by (rewrite length_fmap; lia).
      by destruct (lex (take 7 (f <$> a)) (f <$> b)).
    + rewrite IH, !fmap_drop by (by apply Forall_drop).
      assert (lex (f <$> a) (f <$> b) = match lex (take 7 (f <$> a)) (take 7 (f <$> b)) with
                        | Eq => lex (drop 7 (f <$> a)) (drop 7 (f <$> b)) | r => r end) as ->.
      { rewrite <-(take_drop 7 (f <$> a)) at 1. rewrite <-(take_drop 7 (f <$> b)) at 1.
        apply lex_app_fixed. rewrite !length_take, !length_fmap. lia. }
      by destruct (lex (take 7 (f <$> a)) (take 7 (f <$> b))).
Qed.

End Reading.

Lemma encode_bytes_str_lex a b xs ys :
  bytes_ok a -> bytes_ok b ->
  lex (encode_bytes_str a ++ xs) (encode_bytes_str b ++ ys)
  = match lex a b with Eq => lex xs ys | r => r end.
Proof.
  intros Ha Hb.
  pose proof (encode_bytes_str_lex_fmap (fun x => x) byte_ok eq_refl (fun b H => H)) as L.
  specialize (L ltac:(intros; cbv beta; rewrite Zcompare_plus_compat; apply Nat2Z.inj_compare) a b xs ys Ha Hb).
  by rewrite !list_fmap_id in L.
Qed.

(** *** Round trip *)

Lemma lookup_head_marker pre l rest :
  (pre ++ head_segment l ++ rest) !! (length pre + 7)%nat
  = Some (120 + Z.of_nat (length (take 7 l))).
Proof.
  rewrite lookup_app_r by lia. replace (length pre + 7 - length pre)%nat with 7%nat by lia.
  rewrite lookup_app_l by (rewrite head_segment_length; lia).
  unfold head_segment. rewrite app_assoc.
  assert (E : length (take 7 l ++ replicate (7 - length (take 7 l)) 0) = 7%nat)
    by (rewrite length_app, length_replicate, length_take; lia).
  rewrite lookup_app_r by lia. by rewrite E.
Qed.

Lemma segment_end_encode fuel pre l post :
  (length l < fuel)%nat ->
  segment_end fuel (pre ++ encode_bytes_str l ++ post) (length pre + 8)
  = Ok (length pre + length (encode_bytes_str l))%nat.
Proof.
  revert fuel pre; induction l as [l Hs|l Hs IH] using seg_ind; intros [|fuel] pre Hf; try lia;
    rewrite (encode_bytes_str_unfold l), <-app_assoc; cbn [segment_end];
    replace (length pre + 8 - 1)%nat with (length pre + 7)%nat by lia;
    unfold char_at; rewrite lookup_head_marker, length_take; cbn [obind];
    unfold ENCODER_MARKER.
  - rewrite (proj2 (Nat.ltb_lt _ _) Hs), app_nil_r, head_segment_length.
    destruct (Z.eqb_spec (120 + Z.of_nat (7 `min` length l)) 127); [lia|done].
  - rewrite (proj2 (Nat.ltb_ge _ _) Hs).
    destruct (Z.eqb_spec (120 + Z.of_nat (7 `min` length l)) 127); [|lia].
    replace (length pre + 8)%nat with (length (pre ++ head_segment l))
      by (rewrite length_app, head_segment_length; lia).
    rewrite (app_assoc pre), IH by (rewrite length_drop; lia).
    rewrite !length_app, head_segment_length. f_equal. lia.
Qed.

Lemma DecodeBytes_loop_encode fuel pre l dst :
  (length l < fuel)%nat ->
  DecodeBytes_loop fuel (pre ++ encode_bytes_str l) (length pre) dst = Ok (dst ++ l).
Proof.
  revert fuel pre dst; induction l as [l Hs|l Hs IH] using seg_ind; intros [|fuel] pre dst Hf; try lia;
    cbn [DecodeBytes_loop]; rewrite (encode_bytes_str_unfold l);
    (rewrite (proj2 (Nat.ltb_lt _ _))
      by (rewrite !length_app, head_segment_length; lia));
    unfold char_at; rewrite lookup_head_marker; cbn [obind];
    set (k := length (take 7 l)); assert (Hk : (k <= 7)%nat) by (unfold k; rewrite length_take; lia);
    assert (s8 (ENCODER_MARKER - s8 (120 + Z.of_nat k)) = 7 - Z.of_nat k) as ->
      by (unfold ENCODER_MARKER, s8; rewrite (swrap_small 8 (120 + _)) by (unfold is_s; lia);
          rewrite swrap_small by (unfold is_s; lia); lia);
    assert (u64 (Z.of_nat SEGMENT_SIZE - 1 - (7 - Z.of_nat k)) = Z.of_nat k) as ->
      by (unfold SEGMENT_SIZE, u64; rewrite wrap_small by (unfold is_u; lia); lia);
    unfold substr; (rewrite (proj2 (Nat.leb_le _ _)) by (rewrite length_app; lia));
    rewrite drop_app_length, !length_app, head_segment_length;
    (replace (Z.to_nat (Z.min _ _)) with k by lia); cbn [obind];
    (rewrite take_app_le by (rewrite head_segment_length; lia));
    (assert (take k (head_segment l) = take 7 l) as ->
      by (unfold head_segment; apply take_app_length)).
  - rewrite (proj2 (Nat.ltb_lt _ _) Hs), app_nil_r, take_ge by lia.
    destruct fuel as [|fuel]; cbn [DecodeBytes_loop];
      (rewrite (proj2 (Nat.ltb_ge _ _)); [done|rewrite length_app, head_segment_length; unfold SEGMENT_SIZE; lia]).
  - rewrite (proj2 (Nat.ltb_ge _ _) Hs).
    replace (length pre + SEGMENT_SIZE)%nat with (length (pre ++ head_segment l))
      by (rewrite length_app, head_segment_length; done).
    rewrite (app_assoc pre), IH by (rewrite length_drop; lia).
    by rewrite <-app_assoc, take_drop.
Qed.

Lemma DecodeBytes_str_encode l dst : DecodeBytes_str (encode_bytes_str l) dst = Ok (dst ++ l).
Proof.
  unfold DecodeBytes_str. pose proof (encode_bytes_str_length l) as E.
  destruct (Nat.eqb_spec (length (encode_bytes_str l)) 0); [lia|].
  apply (DecodeBytes_loop_encode _ []). rewrite E.
  pose proof (Nat.div_mod_eq (length l) 7). pose proof (Nat.mod_upper_bound (length l) 7). lia.
Qed.

End SegFacts.

(** ** Whole keys *)
Module RowFacts.
Import key_format KeyFacts SegFacts.

Definition key_type (t : Z) : Prop := DField.Signed <= t <= DField.Binary.

Lemma strtoll_range s : is_s 64 (Num.strtoll s).
Proof. unfold Num.strtoll. destruct (Num.scan_number s). unfold is_s. change (64 - 1) with 63. lia. Qed.

Lemma digits_value_nonneg acc bs : 0 <= acc -> 0 <= Num.digits_value acc bs.
Proof.
  revert acc; induction bs as [|b bs IH]; intros acc Ha; simpl; [done|].
  unfold Num.isdigit. destruct (Z.leb_spec 48 b); simpl; [|done].
  destruct (b <=? 57); simpl; [|done]. apply IH. lia.
Qed.

Lemma scan_number_nonneg s : 0 <= snd (Num.scan_number s).
Proof.
  unfold Num.scan_number.
  repeat case_match; apply digits_value_nonneg; lia.
Qed.

Lemma strtoull_range s : is_u 64 (Num.strtoull s).
Proof.
  unfold Num.strtoull. pose proof (scan_number_nonneg s) as H.
  destruct (Num.scan_number s) as [neg v]; simpl in H. destruct (Z.leb_spec (2 ^ 64) v).
  - unfold is_u. lia.
  - destruct neg; [apply wrap_range; lia|unfold is_u; lia].
Qed.

(** Decimal texts contain no NUL, so a C string function reads them whole. *)
Lemma dec_digits_nonzero fuel n acc :
  0 <= n -> Forall (fun b => b <> 0) acc -> Forall (fun b => b <> 0) (Num.dec_digits fuel n acc).
Proof.
  revert n acc; induction fuel as [|fuel IH]; intros n acc Hn Ha; simpl; [done|].
  assert (Forall (fun b => b <> 0) (48 + n mod 10 :: acc)).
  { constructor; [|done]. pose proof (Z.mod_pos_bound n 10). lia. }
  destruct (n <? 10); [done|]. apply IH; [apply Z.div_pos; lia|done].
Qed.

Lemma cstr_to_string_u n : 0 <= n -> cstr (Num.to_string_u n) = Num.to_string_u n.
Proof. intros. by apply cstr_nonzero, dec_digits_nonzero. Qed.

Lemma cstr_to_string_s n : cstr (Num.to_string_s n) = Num.to_string_s n.
Proof.
  apply cstr_nonzero. unfold Num.to_string_s. destruct (Z.ltb_spec n 0).
  - constructor; [done|]. apply dec_digits_nonzero; [lia|done].
  - by apply dec_digits_nonzero.
Qed.

Section WithLibc.
Context (strtod : list Z -> Z) (to_string_d : Z -> list Z).

(** *** Order *)

(** The order a column of each type has, on the texts the caller passes. *)
Definition field_compare (t : Z) (v w : list Z) : comparison :=
  if t =? DField.Signed then Z.compare (Num.strtoll (cstr v)) (Num.strtoll (cstr w))
  else if t =? DField.Unsigned then Z.compare (Num.strtoull (cstr v)) (Num.strtoull (cstr w))
  else if t =? DField.Float then Z.compare (double_rank (strtod (cstr v))) (double_rank (strtod (cstr w)))
  else lex v w.

Fixpoint row_compare (ts : list Z) (vs ws : list (list Z)) : comparison :=
  match ts, vs, ws with
  | t :: ts, v :: vs, w :: ws =>
    match field_compare t v w with Eq => row_compare ts vs ws | c => c end
  | _, _, _ => Eq
  end.

(** A value a field of type [t] can be compared on: its bytes are bytes, and as a
    double it is a number. *)
Definition field_ok (t : Z) (v : list Z) : Prop :=
  key_type t /\ bytes_ok v /\
  (t = DField.Float -> is_u 64 (strtod (cstr v)) /\ is_nan (strtod (cstr v)) = false).

Definition encoded (t : Z) (v : list Z) : list Z :=
  if t =? DField.Signed then encode_bytes_s64 (Num.strtoll (cstr v))
  else if t =? DField.Unsigned then encode_bytes_u64 (Num.strtoull (cstr v))
  else if t =? DField.Float then encode_bytes_double (strtod (cstr v))
  else encode_bytes_str v.

Lemma encode_field_encoded t v : key_type t -> encode_field strtod t (Ok v) = Ok (encoded t v).
Proof.
  unfold key_type, encode_field, encoded. unfold DField.Signed, DField.Binary, DField.Unsigned, DField.Float, DField.String.
  intros Ht. bcases; try done. simpl. bcases; try done. lia.
Qed.

(** Keys are what [concat] of the encoded fields is. *)
Lemma Encode_from_app vs0 ts vs :
  Forall2 (fun t _ => key_type t) ts vs ->
  Encode_from strtod (vs0 ++ vs) ts (length vs0) = Ok (concat (zip_with encoded ts vs)).
Proof.
  intros H. revert vs0; induction H as [|t v ts vs Ht _ IH]; intros vs0; [done|].
  cbn [Encode_from]. unfold vec_at. rewrite list_lookup_middle by done.
  rewrite encode_field_encoded by done. cbn [obind].
  replace (S (length vs0)) with (length (vs0 ++ [v])) by (rewrite length_app; simpl; lia).
  replace (vs0 ++ v :: vs) with ((vs0 ++ [v]) ++ vs) by by rewrite <-app_assoc.
  by rewrite IH.
Qed.

Lemma Encode_concat ts vs :
  Forall2 (fun t _ => key_type t) ts vs -> Encode strtod vs ts = Ok (concat (zip_with encoded ts vs)).
Proof. apply (Encode_from_app []). Qed.

Lemma be_bytes_lex_app x y xs ys :
  is_u 64 x -> is_u 64 y ->
  lex (be_bytes 8 x ++ xs) (be_bytes 8 y ++ ys) = match Z.compare x y with Eq => lex xs ys | c => c end.
Proof.
  intros. rewrite lex_app_fixed by (by rewrite !be_bytes_length). by rewrite be_bytes_lex.
Qed.

Lemma encoded_lex t v w xs ys :
  field_ok t v -> field_ok t w ->
  lex (encoded t v ++ xs) (encoded t w ++ ys)
  = match field_compare t v w with Eq => lex xs ys | c => c end.
Proof.
  intros (Ht & Hv & Fv) (_ & Hw & Fw). unfold encoded, field_compare.
  destruct (Z.eqb_spec t DField.Signed).
  - pose proof (strtoll_range (cstr v)) as Rv. pose proof (strtoll_range (cstr w)) as Rw.
    unfold is_s in Rv, Rw. change (64 - 1) with 63 in *.
    rewrite !encode_bytes_s64_be, be_bytes_lex_app by (unfold is_s, is_u; change (64 - 1) with 63; lia).
    rewrite (Z.add_comm _ (2 ^ 63)), (Z.add_comm _ (2 ^ 63)). by rewrite Zcompare_plus_compat.
  - destruct (Z.eqb_spec t DField.Unsigned).
    + pose proof (strtoull_range (cstr v)). pose proof (strtoull_range (cstr w)).
      by rewrite !encode_bytes_u64_be, be_bytes_lex_app.
    + destruct (Z.eqb_spec t DField.Float); [|by apply encode_bytes_str_lex].
      destruct (Fv ltac:(done)) as [Uv Nv], (Fw ltac:(done)) as [Uw Nw].
      change (encode_bytes_double ?x) with (encode_bytes_u64 (double_code x)).
      pose proof (double_code_range _ Uv). pose proof (double_code_range _ Uw).
      rewrite !encode_bytes_u64_be, be_bytes_lex_app by done. rewrite !double_code_rank by done.
      set (p := double_rank _). set (q := double_rank (strtod (cstr w))).
      assert (E : ((if p <? 0 then 2 ^ 63 - 1 + p else 2 ^ 63 + p)
                   ?= (if q <? 0 then 2 ^ 63 - 1 + q else 2 ^ 63 + q)) = (p ?= q)); [|by rewrite E].
      destruct (Z.compare_spec p q); bcases; subst;
        (apply Z.compare_eq_iff + apply Z.compare_lt_iff + apply Z.compare_gt_iff); lia.
Qed.

Lemma row_lex ts vs ws :
  Forall2 field_ok ts vs -> Forall2 field_ok ts ws ->
  lex (concat (zip_with encoded ts vs)) (concat (zip_with encoded ts ws)) = row_compare ts vs ws.
Proof.
  intros Hv. revert ws; induction Hv as [|t v ts vs Hv _ IH]; intros ws Hw.
  - apply Forall2_nil_inv_l in Hw as ->. done.
  - apply Forall2_cons_inv_l in Hw as (w & ws' & Hw & Hws & ->).
    cbn [zip_with concat row_compare]. rewrite encoded_lex by done.
    destruct (field_compare t v w); auto.
Qed.

Lemma field_ok_types ts vs : Forall2 field_ok ts vs -> Forall2 (fun t _ => key_type t) ts vs.
Proof. induction 1 as [|??? ? [? _]]; constructor; auto. Qed.

Lemma Encode_table_from_spec vs0 ts vs key free :
  Forall2 (fun t _ => key_type t) ts vs -> Forall (fun t => t <> DField.Binary) ts ->
  Encode_table_from strtod (vs0 ++ vs) ts (length vs0) key (u64 free)
  = Ok (key ++ concat (zip_with encoded ts vs),
        u64 (free + list_sum_Z (zip_with (fun t v => if t =? DField.String
            then Z.of_nat (length (encode_bytes_str v)) else 0) ts vs))).
Proof.
  intros H. revert vs0 key free; induction H as [|t v ts vs Ht _ IH]; intros vs0 key free Hb.
  - simpl. by rewrite app_nil_r, Z.add_0_r.
  - apply Forall_cons in Hb as [Hn Hb]. cbn [Encode_table_from zip_with concat list_sum_Z].
    unfold vec_at. rewrite list_lookup_middle by done. rewrite (proj2 (Z.eqb_neq t DField.Binary)) by done.
    rewrite encode_field_encoded by done. cbn [obind orb].
    replace (S (length vs0)) with (length (vs0 ++ [v])) by (rewrite length_app; simpl; lia).
    replace (vs0 ++ v :: vs) with ((vs0 ++ [v]) ++ vs) by by rewrite <-app_assoc.
    destruct (Z.eqb_spec t DField.String) as [->|].
    + assert (u64 (u64 free + Z.of_nat (length (encode_bytes_str v)))
        = u64 (free + Z.of_nat (length (encode_bytes_str v)))) as ->
        by (unfold u64, wrap; apply Zplus_mod_idemp_l).
      rewrite IH by done. by rewrite <-app_assoc, Z.add_assoc.
    + rewrite IH by done. by rewrite <-app_assoc, Z.add_0_l.
Qed.

(** *** Round trip *)

(** The texts [Decode] writes: canonical decimals, any byte string, and the
    doubles the library prints and reads back exactly (with +0 as the only zero). *)
Definition canonical (t : Z) (v : list Z) : Prop :=
  (t = DField.Signed /\ exists n, is_s 64 n /\ v = Num.to_string_s n) \/
  (t = DField.Unsigned /\ exists n, is_u 64 n /\ v = Num.to_string_u n) \/
  (t = DField.Float /\ exists u, is_u 64 u /\ is_nan u = false /\ u <> 2 ^ 63 /\
     strtod (cstr v) = u /\ to_string_d u = v) \/
  ((t = DField.Binary \/ t = DField.String) /\ bytes_ok v).

Lemma substr_mid pre m post n :
  length m = n -> substr (pre ++ m ++ post) (length pre) (Z.of_nat n) = Ok m.
Proof.
  intros Hm. unfold substr. rewrite (proj2 (Nat.leb_le _ _)) by (rewrite length_app; lia).
  rewrite drop_app_length. replace (Z.to_nat _) with n by (rewrite !length_app; lia).
  by rewrite <-Hm, take_app_length.
Qed.

Lemma encode_bytes_double_code u : encode_bytes_double u = encode_bytes_u64 (double_code u).
Proof. reflexivity. Qed.

Lemma land_signMask u : is_u 64 u -> (0 <? Z.land u signMask) = (2 ^ 63 <=? u).
Proof.
  intros Hu. unfold is_u in Hu. change signMask with (1 * 2 ^ 63).
  destruct (Z.leb_spec (2 ^ 63) u).
  - apply Z.ltb_lt. assert (Z.land u (1 * 2 ^ 63) <> 0).
    { intros E. apply (f_equal (fun z => Z.testbit z 63)) in E.
      rewrite Z.land_spec, Z.bits_0, Z.mul_1_l, Z.pow2_bits_true, andb_true_r in E by lia.
      rewrite Z.testbit_false in E by lia. replace (u / 2 ^ 63) with 1 in E by zdm. done. }
    pose proof (Z.land_nonneg u (1 * 2 ^ 63)). lia.
  - rewrite land_above by lia. done.
Qed.

Lemma land_magnitude u : is_u 64 u -> 2 ^ 63 <= u -> Z.land u (Z.lxor signMask 0xFFFFFFFFFFFFFFFF) = u - 2 ^ 63.
Proof.
  intros Hu Hs. unfold is_u in Hu. change (Z.lxor signMask 0xFFFFFFFFFFFFFFFF) with (Z.ones 63).
  rewrite Z.land_ones by lia. symmetry. apply (Z.mod_unique_pos u (2 ^ 63) 1); lia.
Qed.

(** Every double but a NaN and the negative zero is decoded to itself. *)
Lemma DecodeBytes_double_encode u :
  is_u 64 u -> is_nan u = false -> u <> 2 ^ 63 ->
  DecodeBytes_double (encode_bytes_double u) = Ok u.
Proof.
  intros Hu Hn Hz. unfold DecodeBytes_double. rewrite encode_bytes_double_code.
  pose proof (double_code_range u Hu) as Hr.
  rewrite DecodeBytes_u64_encode by done. cbn [obind]. rewrite land_signMask by done.
  pose proof (double_code_rank u Hu Hn) as E. unfold double_rank in E. unfold is_u in Hu.
  destruct (Z.leb_spec (2 ^ 63) (double_code u)).
  - rewrite land_magnitude by done. f_equal. revert E. bcases; lia.
  - rewrite lxor_ones by done. f_equal. revert E. bcases; lia.
Qed.

Lemma decode_field_encoded t v pre post :
  canonical t v ->
  decode_field to_string_d (pre ++ encoded t v ++ post) t (length pre)
  = Ok (v, length (pre ++ encoded t v)).
Proof.
  intros [[-> (n & Hn & ->)]|[[-> (n & Hn & ->)]|[[-> (u & Hu & Hnan & Hz & Hs & Hv)]|[Ht Hv]]]].
  - unfold encoded, decode_field. cbn [Z.eqb Pos.eqb DField.Signed].
    rewrite cstr_to_string_s, Num.strtoll_to_string by done.
    assert (L : length (encode_bytes_s64 n) = 8%nat) by apply le_bytes_length.
    rewrite (substr_mid _ _ _ 8) by done. cbn [obind].
    rewrite DecodeBytes_s64_encode by done. cbn [obind]. by rewrite length_app, L.
  - unfold encoded, decode_field. cbn [Z.eqb Pos.eqb DField.Signed DField.Unsigned].
    rewrite cstr_to_string_u, Num.strtoull_to_string by (done || apply Hn).
    assert (L : length (encode_bytes_u64 n) = 8%nat) by apply le_bytes_length.
    rewrite (substr_mid _ _ _ 8) by done. cbn [obind].
    rewrite DecodeBytes_u64_encode by done. cbn [obind]. by rewrite length_app, L.
  - unfold encoded, decode_field. cbn [Z.eqb Pos.eqb DField.Signed DField.Unsigned DField.Float].
    rewrite Hs. assert (L : length (encode_bytes_double u) = 8%nat) by apply le_bytes_length.
    rewrite (substr_mid _ _ _ 8) by done. cbn [obind].
    rewrite DecodeBytes_double_encode by done. cbn [obind]. by rewrite length_app, L, Hv.
  - assert (E : encoded t v = encode_bytes_str v) by (by destruct Ht as [-> | ->]).
    rewrite E. assert (D : decode_field to_string_d (pre ++ encode_bytes_str v ++ post) t (length pre)
      = let! pos := segment_end (length (pre ++ encode_bytes_str v ++ post))
                      (pre ++ encode_bytes_str v ++ post) (length pre + SEGMENT_SIZE) in
        let! s := substr (pre ++ encode_bytes_str v ++ post) (length pre) (Z.of_nat (pos - length pre)) in
        let! value := DecodeBytes_str s [] in Ok (value, pos)) by (by destruct Ht as [-> | ->]).
    rewrite D. unfold SEGMENT_SIZE.
    rewrite segment_end_encode; cbn [obind].
    + replace (length pre + length (encode_bytes_str v) - length pre)%nat
        with (length (encode_bytes_str v)) by lia.
      rewrite substr_mid by done. cbn [obind]. rewrite DecodeBytes_str_encode. cbn [obind].
      by rewrite length_app.
    + rewrite !length_app, encode_bytes_str_length.
      pose proof (Nat.div_mod_eq (length v) 7). pose proof (Nat.mod_upper_bound (length v) 7). lia.
Qed.

Lemma Decode_from_encoded ts vs pre :
  Forall2 canonical ts vs ->
  Decode_from to_string_d (pre ++ concat (zip_with encoded ts vs)) ts (length pre) = Ok vs.
Proof.
  intros H. revert pre; induction H as [|t v ts vs Hc _ IH]; intros pre; [done|].
  cbn [zip_with concat Decode_from]. rewrite decode_field_encoded by done. cbn [obind fst snd].
  rewrite app_assoc, IH. done.
Qed.

Lemma canonical_types ts vs : Forall2 canonical ts vs -> Forall2 (fun t _ => key_type t) ts vs.
Proof.
  induction 1 as [|t v ts vs Hc _ IH]; constructor; [|done].
  unfold key_type, DField.Signed, DField.Binary.
  destruct Hc as [[-> _]|[[-> _]|[[-> _]|[[->| ->] _]]]];
    unfold DField.Signed, DField.Unsigned, DField.Float, DField.Binary, DField.String; lia.
Qed.

End WithLibc.
End RowFacts.

(** ** Comparison routines *)
Module CompareFacts.
Import key_format KeyFacts SegFacts RowFacts.

(** A byte as the case-insensitive comparison reads it. *)
Definition cfold (b : Z) : Z := s8 (toupper (s8 b)).

Lemma my_strn_case_cmp_spec s1 s2 n :
  (n <= length s1)%nat -> (n <= length s2)%nat ->
  my_strn_case_cmp s1 s2 n = Ok (cmp_sign (lex (cfold <$> take n s1) (cfold <$> take n s2))).
Proof.
  revert s1 s2; induction n as [|n IH]; intros [|b1 s1] [|b2 s2] H1 H2; simpl in H1, H2; try lia;
    try (by destruct s1); try done.
  simpl. fold (cfold b1) (cfold b2).
  destruct (Z.compare_spec (cfold b1) (cfold b2)) as [->|Hc|Hc].
  - rewrite Z.eqb_refl. apply IH; lia.
  - rewrite (proj2 (Z.eqb_neq _ _)), (proj2 (Z.ltb_lt _ _)) by lia. done.
  - rewrite (proj2 (Z.eqb_neq _ _)), (proj2 (Z.ltb_ge _ _)) by lia. done.
Qed.

(** A comparison over the common length, then of the lengths, is lexicographic. *)
Lemma lex_by_length a b :
  lex a b = match lex (take (length a `min` length b) a) (take (length a `min` length b) b) with
            | Eq => Nat.compare (length a) (length b) | c => c end.
Proof.
  revert b; induction a as [|x a IH]; intros [|y b]; simpl; try done.
  destruct (Z.compare x y); auto.
Qed.

Lemma len_sign_compare n m :
  CommKeyComparator.len_sign (Z.of_nat n) (Z.of_nat m) = cmp_sign (Nat.compare n m).
Proof.
  unfold CommKeyComparator.len_sign. rewrite <-Nat2Z.inj_compare.
  destruct (Z.compare_spec (Z.of_nat n) (Z.of_nat m)); bcases; simpl; lia.
Qed.

Lemma sign_then_length c n m :
  (if cmp_sign c =? 0 then CommKeyComparator.len_sign (Z.of_nat n) (Z.of_nat m) else cmp_sign c)
  = cmp_sign (match c with Eq => Nat.compare n m | c => c end).
Proof. rewrite len_sign_compare. by destruct c. Qed.

(** *** [key_format::Compare] *)

(** The letter a byte stands for where case does not count: ASCII letters are capitals,
    and bytes from 128 on, as [char]s, are negative. *)
Definition letter (b : Z) : Z :=
  if (97 <=? b) && (b <=? 122) then b - 32 else if b <? 128 then b else b - 256.

Lemma cfold_letter b : byte_ok b -> cfold b = letter b.
Proof.
  unfold is_u. intros Hb. unfold cfold, letter, s8, toupper.
  destruct (Z.ltb_spec b 128) as [Hl|Hl].
  - rewrite (swrap_small 8 b) by (unfold is_s; lia). destruct (Z.leb_spec 97 b), (Z.leb_spec b 122); cbn [andb]; apply swrap_small; unfold is_s; lia.
  - assert (E : swrap 8 b = b - 256) by (unfold swrap; rewrite wrap_small by (unfold is_u; lia); by rewrite (proj2 (Z.ltb_ge _ _)) by lia).
    rewrite E, !(proj2 (Z.leb_gt _ _)) by lia. rewrite (proj2 (Z.leb_gt b 122)), andb_false_r by lia. apply swrap_small; unfold is_s; lia.
Qed.
Lemma cfold_letters v : bytes_ok v -> cfold <$> v = letter <$> v.
Proof. intros H. apply list_fmap_ext. intros i b Hb. apply cfold_letter. by eapply Forall_lookup_1. Qed.

Lemma cfold_marker i j :
  (i <= 7)%nat -> (j <= 7)%nat ->
  Z.compare (cfold (120 + Z.of_nat i)) (cfold (120 + Z.of_nat j)) = Nat.compare i j.
Proof.
  intros Hi Hj.
  do 8 (destruct i as [|i]; [do 8 (destruct j as [|j]; [reflexivity|]); lia|]). lia.
Qed.

(** Nothing negative behind a 0: there the padding of a segment cannot be told from
    text. *)
Fixpoint calm (l : list Z) : Prop :=
  match l with [] => True | x :: l => (x = 0 -> Forall (Z.le 0) l) /\ calm l end.
(** The order of texts that end with a 0. *)
Definition lex0 (a b : list Z) : comparison := lex (a ++ [0]) (b ++ [0]).

Lemma lex0_eq a b : lex0 a b = Eq <-> a = b.
Proof. unfold lex0. rewrite lex_eq. split; [apply app_inj_tail|by intros ->]. Qed.
Lemma lex0_antisym a b : lex0 a b = CompOpp (lex0 b a).
Proof. apply lex_antisym. Qed.
Lemma calm_drop n l : calm l -> calm (drop n l).
Proof. revert n; induction l as [|x l IH]; intros [|n]; simpl; try done. intros [_ H]. by apply IH. Qed.
Lemma calm_take n l : calm l -> calm (take n l).
Proof.
  revert n; induction l as [|x l IH]; intros [|n]; simpl; try done. intros [H0 H]. split; [|by apply IH].
  intros ->. apply Forall_take. by apply H0.
Qed.

Lemma lex_zeros k b m n xs ys : Forall (Z.le 0) b -> (length b <= k)%nat -> m < n ->
  lex (replicate k 0 ++ m :: xs) (b ++ replicate (k - length b) 0 ++ n :: ys) = Lt.
Proof.
  revert k; induction b as [|y b IH]; intros k Hb Hk Hmn.
  - simpl. rewrite Nat.sub_0_r, lex_app_same. simpl. destruct (Z.compare_spec m n); (done || lia).
  - destruct k as [|k]; [simpl in Hk; lia|]. apply Forall_cons in Hb as [Hy Hb].
    simpl. destruct (Z.compare_spec 0 y); [|done|lia]. apply IH; simpl in Hk; (done || lia).
Qed.
(** A text that ends is padded; the marker tells it from a longer one. *)
Lemma lex_ends k y b m n xs ys : calm (y :: b) -> (length (y :: b) <= k)%nat -> m < n ->
  lex (replicate k 0 ++ m :: xs) ((y :: b) ++ replicate (k - length (y :: b)) 0 ++ n :: ys) = lex0 [] (y :: b).
Proof.
  intros [H0 _] Hk Hmn. unfold lex0. cbn [app lex]. destruct k as [|k]; [simpl in Hk; lia|]. simpl.
  destruct (Z.compare_spec 0 y) as [<-|Hy|Hy]; [|done..].
  rewrite lex_zeros; [by destruct b|by apply H0|simpl in Hk; lia|done].
Qed.
Lemma lex_pad0 k a b m n xs ys : calm a -> calm b -> (length a <= k)%nat -> (length b <= k)%nat ->
  Z.compare m n = Nat.compare (length a) (length b) ->
  lex (a ++ replicate (k - length a) 0 ++ m :: xs) (b ++ replicate (k - length b) 0 ++ n :: ys)
  = match lex0 a b with Eq => lex xs ys | r => r end.
Proof.
  revert b k; induction a as [|x a IH]; intros [|y b] k Ha Hb La Lb Hc.
  - simpl (length []). rewrite Nat.sub_0_r. simpl. rewrite lex_app_same. simpl. by rewrite Hc.
  - simpl (length []). rewrite Nat.sub_0_r. simpl ([] ++ _). rewrite (lex_ends k y b) by (done || by apply Z.compare_lt_iff).
    unfold lex0. simpl. destruct (Z.compare_spec 0 y); (done || by destruct b).
  - rewrite lex_antisym. simpl (length []). rewrite Nat.sub_0_r. simpl ([] ++ _). rewrite (lex_ends k x a) by (done || by apply Z.compare_gt_iff).
    rewrite (lex0_antisym (x :: a)). unfold lex0. simpl. destruct (Z.compare_spec 0 x); (done || by destruct a).
  - destruct k as [|k]; [simpl in La; lia|]. unfold lex0. simpl. destruct Ha as [_ Ha], Hb as [_ Hb].
    destruct (Z.compare x y); try done. apply IH; simpl in La, Lb; (done || lia).
Qed.

(** A text that is not longer than a part of another is decided there. *)
Lemma lex_within a p y q z q' : (length a <= length p)%nat -> lex a (p ++ y :: q) = lex a (p ++ z :: q').
Proof.
  revert p; induction a as [|x a IH]; intros [|w p] Hl; simpl in *; try lia; [done..|].
  destruct (Z.compare x w); auto. apply IH. lia.
Qed.
Lemma lex0_take a b : (length a < 7)%nat -> (7 <= length b)%nat -> lex0 a (take 7 b) = lex0 a b.
Proof.
  intros Ha Hb. unfold lex0. rewrite <-(take_drop 7 b) at 2. rewrite <-(app_assoc (take 7 b)).
  destruct (drop 7 b) as [|y q]; [done|]. apply lex_within. rewrite length_app, length_take. cbn [length]. lia.
Qed.
Lemma lex0_take_drop a b : (7 <= length a)%nat -> (7 <= length b)%nat ->
  lex0 a b = match lex0 (take 7 a) (take 7 b) with Eq => lex0 (drop 7 a) (drop 7 b) | r => r end.
Proof.
  intros Ha Hb. unfold lex0. rewrite <-(take_drop 7 a) at 1. rewrite <-(take_drop 7 b) at 1.
  rewrite <-!app_assoc, (lex_app_fixed (take 7 a) (take 7 b) (drop 7 a ++ _)), (lex_app_fixed (take 7 a) (take 7 b) [0]) by (rewrite !length_take; lia). by destruct (lex (take 7 a) (take 7 b)).
Qed.

Lemma lex_fold_segment a b xs ys : calm (cfold <$> a) -> calm (cfold <$> b) ->
  lex ((cfold <$> head_segment a) ++ xs) ((cfold <$> head_segment b) ++ ys)
  = match lex0 (take 7 (cfold <$> a)) (take 7 (cfold <$> b)) with Eq => lex xs ys | r => r end.
Proof.
  intros Ha Hb. unfold head_segment.
  rewrite !fmap_app, !fmap_replicate, <-!app_assoc, !fmap_take. change (cfold 0) with 0.
  simpl ((cfold <$> [_]) ++ _). rewrite <-(length_fmap cfold (take 7 a)), <-(length_fmap cfold (take 7 b)), !fmap_take.
  apply lex_pad0; [by apply calm_take..| | |apply cfold_marker]; rewrite length_take; lia.
Qed.

(** Comparing the encodings of texts without case compares the texts. *)
Lemma encode_bytes_str_fold a b xs ys : calm (cfold <$> a) -> calm (cfold <$> b) ->
  lex ((cfold <$> encode_bytes_str a) ++ xs) ((cfold <$> encode_bytes_str b) ++ ys)
  = match lex0 (cfold <$> a) (cfold <$> b) with Eq => lex xs ys | r => r end.
Proof.
  assert (Hne : forall u v, (length u < 7)%nat -> (7 <= length v)%nat -> lex0 u (take 7 v) <> Eq).
  { intros u v Hu Hv ->%lex0_eq. rewrite length_take in Hu. lia. }
  intros Ha. revert b; induction a as [a Hs|a Hs IH] using seg_ind; intros b Hb;
    rewrite (encode_bytes_str_unfold a), (encode_bytes_str_unfold b), !fmap_app, <-!app_assoc, lex_fold_segment by done;
    pose proof (length_fmap cfold a) as La; pose proof (length_fmap cfold b) as Lb.
  - rewrite (proj2 (Nat.ltb_lt _ _) Hs), (take_ge (cfold <$> a)) by lia. simpl.
    destruct (Nat.ltb_spec (length b) 7); [by rewrite (take_ge (cfold <$> b)) by lia|].
    rewrite <-(lex0_take (cfold <$> a) (cfold <$> b)) by lia. specialize (Hne (cfold <$> a) (cfold <$> b)). destruct (lex0 _ (take 7 _)); [destruct Hne; [lia..|done]|done..].
  - rewrite (proj2 (Nat.ltb_ge _ _) Hs). destruct (Nat.ltb_spec (length b) 7).
    + rewrite (take_ge (cfold <$> b)), (lex0_antisym (take 7 _)), (lex0_antisym (cfold <$> a)), lex0_take by lia.
      specialize (Hne (cfold <$> b) (cfold <$> a)). rewrite lex0_take in Hne by lia. destruct (lex0 (cfold <$> b) _); [destruct Hne; [lia..|done]|done..].
    + rewrite IH, !fmap_drop, (lex0_take_drop (cfold <$> a)) by (rewrite ?fmap_drop; first [by apply calm_drop | lia]).
      by destruct (lex0 (take 7 _) _).
Qed.

(** The order of [Compare]: a [String] field ignores case and is compared as text that
    ends with a 0, the way [strcasecmp] compares. *)
Section WithLibc.
Context (strtod : list Z -> Z) `{!Memcmp, !MemcmpSign}.

Definition field_compare_ci (t : Z) (v w : list Z) : comparison :=
  if t =? DField.String then lex ((letter <$> v) ++ [0]) ((letter <$> w) ++ [0]) else field_compare strtod t v w.

Fixpoint row_compare_ci (ts : list Z) (vs ws : list (list Z)) : comparison :=
  match ts, vs, ws with
  | t :: ts, v :: vs, w :: ws =>
    match field_compare_ci t v w with Eq => row_compare_ci ts vs ws | c => c end
  | _, _, _ => Eq
  end.

(** No byte from 128 on after a NUL: ASCII, and any text without NUL. *)
Fixpoint ascii_after_nul (v : list Z) : Prop :=
  match v with [] => True | b :: v => (b = 0 -> Forall (is_u 7) v) /\ ascii_after_nul v end.
(** As [field_ok]; the encoding can be counted by an [int]. *)
Definition field_ok_ci (t : Z) (v : list Z) : Prop :=
  field_ok strtod t v /\ Z.of_nat (length (encoded strtod t v)) < 2 ^ 31 /\ (t = DField.String -> ascii_after_nul v).

Lemma ascii_calm v : bytes_ok v -> ascii_after_nul v -> calm (cfold <$> v).
Proof.
  induction v as [|b v IH]; [done|]. intros [Hb Hv]%Forall_cons [Hz Hr]. split; [|by apply IH].
  rewrite cfold_letter by done. intros E. rewrite cfold_letters by done. apply Forall_fmap. eapply Forall_impl; [apply Hz|].
  - revert E Hb. unfold letter, is_u. destruct (Z.leb_spec 97 b), (Z.leb_spec b 122), (Z.ltb_spec b 128); cbn [andb]; lia.
  - intros x Hx. unfold is_u in Hx. cbn. unfold letter. destruct (Z.leb_spec 97 x), (Z.leb_spec x 122), (Z.ltb_spec x 128); cbn [andb]; lia.
Qed.

(** The segments of a string end where its encoding ends. *)
Lemma segment_end_encoded v xs :
  segment_end (length (encode_bytes_str v ++ xs)) (encode_bytes_str v ++ xs) SEGMENT_SIZE = Ok (length (encode_bytes_str v)).
Proof.
  apply (segment_end_encode _ [] v xs).
  rewrite length_app, encode_bytes_str_length. pose proof (Nat.div_mod_eq (length v) 7). pose proof (Nat.mod_upper_bound (length v) 7). lia.
Qed.

(** The length [Compare] gives an encoded field. *)
Lemma get_field_len_encoded t v xs :
  key_type t ->
  (if (t =? DField.Signed) || (t =? DField.Unsigned) || (t =? DField.Float) then Ok 8
   else get_field_len (encoded strtod t v ++ xs) t) = Ok (s32 (Z.of_nat (length (encoded strtod t v)))).
Proof.
  intros Ht. unfold encoded. unfold key_type, DField.Signed, DField.Binary in Ht.
  assert (Hc : t = 1 \/ t = 2 \/ t = 3 \/ t = 4 \/ t = 5) by lia.
  destruct Hc as [-> |[-> |[-> |Hc]]]; [done..|].
  unfold get_field_len.
  destruct Hc as [-> | ->]; cbn [Z.eqb Pos.eqb orb DField.Signed DField.Unsigned DField.Float DField.Binary DField.String];
    by rewrite segment_end_encoded.
Qed.

(** The comparison of one field of the heads of two keys. *)
Lemma Compare_key_field t v w xs ys :
  field_ok_ci t v -> field_ok_ci t w ->
  let l := length (encoded strtod t v) in
  let r := length (encoded strtod t w) in
  exists c ret, (if t =? DField.String
   then my_strn_case_cmp (encoded strtod t v ++ xs) (encoded strtod t w ++ ys) (l `min` r)
   else memcmp (encoded strtod t v ++ xs) (encoded strtod t w ++ ys) (l `min` r)) = Ok ret /\ Z.sgn ret = cmp_sign c /\
  match c with Eq => Nat.compare l r | Lt => Lt | Gt => Gt end = field_compare_ci t v w.
Proof.
  intros (Fv & _ & Av) (Fw & _ & Aw) l r. unfold field_compare_ci.
  destruct (Z.eqb_spec t DField.String) as [->|Hn].
  - rewrite my_strn_case_cmp_spec by (rewrite length_app; lia).
    match goal with |- context [Ok (cmp_sign ?c)] => exists c, (cmp_sign c) end. split; [reflexivity|]. split; [by destruct (lex _ _)|].
    rewrite !take_app_le by lia. unfold l, r.
    change (encoded strtod DField.String v) with (encode_bytes_str v).
    change (encoded strtod DField.String w) with (encode_bytes_str w).
    pose proof (lex_by_length (cfold <$> encode_bytes_str v) (cfold <$> encode_bytes_str w)) as L.
    rewrite !length_fmap, <-!fmap_take in L. rewrite <-L.
    destruct Fv as (_ & Bv & _), Fw as (_ & Bw & _).
    pose proof (encode_bytes_str_fold v w [] [] (ascii_calm _ Bv (Av eq_refl)) (ascii_calm _ Bw (Aw eq_refl))) as E.
    rewrite !app_nil_r in E. rewrite E, !cfold_letters by done. unfold lex0. by destruct (lex (_ ++ _) (_ ++ _)).
  - unfold memcmp.
    rewrite !(proj2 (Nat.leb_le _ _)) by (rewrite length_app; lia). do 2 eexists. split; [reflexivity|].
    split; [apply memcmp_sign; rewrite !length_take, !length_app; lia|].
    rewrite !take_app_le by lia. unfold l, r. rewrite <-lex_by_length.
    pose proof (encoded_lex strtod t v w [] [] Fv Fw) as E. rewrite !app_nil_r in E.
    rewrite E. by destruct (field_compare strtod t v w).
Qed.

Lemma Compare_from_encoded ts vs ws lens :
  Forall2 field_ok_ci ts vs -> Forall2 field_ok_ci ts ws ->
  exists ret, Compare_from (concat (zip_with (encoded strtod) ts vs)) (concat (zip_with (encoded strtod) ts ws)) ts lens = Ok ret /\
    Z.sgn ret = cmp_sign (row_compare_ci ts vs ws).
Proof.
  intros Hv. revert ws lens; induction Hv as [|t v ts vs Hv _ IH]; intros ws lens Hw.
  - apply Forall2_nil_inv_l in Hw as ->. by exists 0.
  - apply Forall2_cons_inv_l in Hw as (w & ws' & Hw & Hws & ->).
    cbn [zip_with concat row_compare_ci].
    set (xs := concat (zip_with _ ts vs)). set (ys := concat (zip_with _ ts ws')).
    assert (Ht : key_type t) by apply Hv. cbn [Compare_from].
    pose proof (get_field_len_encoded t v xs Ht) as L. pose proof (get_field_len_encoded t w ys Ht) as R.
    rewrite (swrap_small 32 : forall x, _ -> _ -> s32 x = x) in L by (first [done | destruct Hv as (_ & ? & _); unfold is_s; lia]).
    rewrite (swrap_small 32 : forall x, _ -> _ -> s32 x = x) in R by (first [done | destruct Hw as (_ & ? & _); unfold is_s; lia]).
    assert (Hn : Z.of_nat (length (encoded strtod t v)) < 2 ^ 31 /\ Z.of_nat (length (encoded strtod t w)) < 2 ^ 31) by (split; [apply Hv|apply Hw]).
    destruct (Compare_key_field t v w xs ys Hv Hw) as (c & ret & E & Er & Ec).
    set (l := length (encoded strtod t v)) in *. set (r := length (encoded strtod t w)) in *.
    match goal with |- context [obind ?o _] => assert (Hlr : o = Ok (Z.of_nat l, Z.of_nat r)) end.
    { revert L R. unfold key_type, DField.Signed, DField.Binary in Ht. clear -Ht.
      unfold DField.Signed, DField.Unsigned, DField.Float, DField.String, DField.Binary.
      assert (Hc : t = 1 \/ t = 2 \/ t = 3 \/ t = 4 \/ t = 5) by lia.
      repeat destruct Hc as [-> |Hc]; subst; cbn [Z.eqb Pos.eqb orb]; first [intros L R; rewrite L; cbn [obind]; rewrite R; done | intros _ _; reflexivity]. }
    rewrite Hlr. cbn [obind].
    replace (Z.to_nat (u64 (if Z.of_nat r <? Z.of_nat l then Z.of_nat r else Z.of_nat l))) with (l `min` r)%nat
      by (unfold u64; rewrite wrap_small by (unfold is_u; bcases; lia); bcases; lia).
    rewrite E. cbn [obind]. rewrite <-Ec.
    destruct (Z.eqb_spec ret 0) as [->|Hr]; cbn [negb]; [|exists ret; split; [done|by destruct c; [destruct ret|..]]].
    destruct c; try done.
    destruct (Z.eqb_spec (Z.of_nat l) (Z.of_nat r)) as [Hl|Hl]; cbn [negb].
    + replace (l `min` r)%nat with l by lia. rewrite (drop_app_length' _ xs l) by done.
      rewrite (drop_app_length' _ ys l) by lia.
      replace (Nat.compare l r) with Eq by (symmetry; apply Nat.compare_eq_iff; lia). by apply IH.
    + eexists. split; [reflexivity|]. destruct (Nat.compare_spec l r); [lia|..]; bcases; (done || lia).
Qed.

End WithLibc.

(** *** The RocksDB comparator *)

(** The contract RocksDB asks of a comparator on the keys [dom]: it answers on
    every pair, it is reflexive, antisymmetric in sign, and transitive. *)
Class Comparator (dom : list Z -> Prop) (cmp : list Z -> list Z -> outcome Z) : Prop := {
  cmp_answers : forall a b, dom a -> dom b -> exists r, cmp a b = Ok r;
  cmp_reflexive : forall a, dom a -> cmp a a = Ok 0;
  cmp_antisym : forall a b r, dom a -> dom b -> cmp a b = Ok r -> cmp b a = Ok (- r);
  cmp_trans : forall a b c r s t, dom a -> dom b -> dom c ->
    cmp a b = Ok r -> cmp b c = Ok s -> cmp a c = Ok t -> r <= 0 -> s <= 0 -> t <= 0
}.

(** Comparing a reading of the keys lexicographically meets the contract. *)
Lemma Comparator_of_reading (dom : list Z -> Prop) cmp (f : list Z -> list Z) :
  (forall a b, dom a -> dom b -> cmp a b = Ok (cmp_sign (lex (f a) (f b)))) -> Comparator dom cmp.
Proof.
  intros H. split.
  - intros a b Ha Hb. rewrite H by done. eauto.
  - intros a Ha. by rewrite H, lex_refl by done.
  - intros a b r Ha Hb. rewrite !H by done. intros [= <-]. by rewrite lex_antisym, cmp_sign_opp.
  - intros a b c r s t Ha Hb Hc. rewrite !H by done. intros [= <-] [= <-] [= <-].
    pose proof (lex_trans Lt (f a) (f b) (f c)) as T. pose proof (lex_trans Eq (f a) (f b) (f c)) as T'.
    destruct (lex (f a) (f b)) eqn:E1, (lex (f b) (f c)) eqn:E2; simpl; try lia; intros _ _.
    + by rewrite T'.
    + apply lex_eq in E1 as ->. by rewrite E2.
    + apply lex_eq in E2 as <-. by rewrite E1.
    + by rewrite T.
Qed.

Definition key_reading (cs : bool) (k : list Z) : list Z := if cs then k else cfold <$> k.

Lemma internal_compare_plain `{!Memcmp} cs lk rk :
  lk <> [] -> rk <> [] ->
  CommKeyComparator.internal_compare (CommKeyComparator.mk cs false) lk rk
  = Ok (cmp_sign (lex (key_reading cs lk) (key_reading cs rk))).
Proof.
  intros Hl Hr. unfold CommKeyComparator.internal_compare. simpl.
  set (n := (length lk `min` length rk)%nat).
  assert (Hm : (if Z.of_nat (length lk) <? Z.of_nat (length rk) then Z.of_nat (length lk)
                else Z.of_nat (length rk)) = Z.of_nat n) by (unfold n; bcases; lia).
  rewrite Hm, Nat2Z.id. destruct (Z.eqb_spec (Z.of_nat n) 0).
  { unfold n in *. destruct lk, rk; simpl in *; (done || lia). }
  destruct cs; simpl; f_equal.
  - unfold CommKeyComparator.string_compare. rewrite sign_then_length. f_equal.
    rewrite (lex_by_length lk rk). fold n.
    destruct (decide (length lk < length rk)%nat) as [Hlt|Hge].
    + rewrite (lex_by_length (take n lk) rk), !length_take.
      replace ((n `min` length lk) `min` length rk)%nat with n by (unfold n; lia).
      rewrite take_take. replace (n `min` n)%nat with n by lia.
      replace (n `min` length lk)%nat with (length lk) by (unfold n; lia).
      destruct (lex (take n lk) (take n rk)); try done.
      by rewrite (proj2 (Nat.compare_lt_iff _ _)).
    + rewrite (take_ge rk n) by (unfold n; lia). by destruct (lex (take n lk) rk).
  - rewrite my_strn_case_cmp_spec by (unfold n; lia). cbn [obind].
    rewrite sign_then_length. do 2 f_equal.
    rewrite (lex_by_length (cfold <$> lk)), !length_fmap. fold n. rewrite !fmap_take.
    by destruct (lex (take n (cfold <$> lk)) (take n (cfold <$> rk))).
Qed.

End CompareFacts.

(** ** Properties of the keys *)
Module KeySpec.
Import key_format SegFacts RowFacts CompareFacts.

(** C1: decoding an encoded key gives back the row. For every list of column types
    and every row of canonical texts of those types ([Decode] prints numbers in
    decimal; strings are arbitrary bytes, NUL and the segment marker included),
    [Encode] succeeds and [Decode] of its result with the same types is the row. *)
Theorem Decode_Encode strtod to_string_d ts vs :
  Forall2 (canonical strtod to_string_d) ts vs ->
  exists k, Encode strtod vs ts = Ok k /\ Decode to_string_d k ts = Ok vs.
Proof.
  intros H. eexists. split; [apply Encode_concat; by eapply canonical_types|].
  by apply (Decode_from_encoded strtod to_string_d ts vs []).
Qed.

(** The row (-5, nine bytes with a NUL and a marker, 18446744073709551615, ""). *)
Definition sample_types : list Z := [1; 4; 2; 5].
Definition sample_row : list (list Z) :=
  [[45; 53]; [0; 127; 97; 98; 255; 1; 2; 3; 4]; Num.to_string_u (2 ^ 64 - 1); []].

Lemma Decode_Encode_witness :
  Forall2 (canonical (fun _ => 0) (fun _ => [48])) sample_types sample_row /\
  exists k, Encode (fun _ => 0) sample_row sample_types = Ok k /\
    Decode (fun _ => [48]) k sample_types = Ok sample_row.
Proof.
  assert (H : Forall2 (canonical (fun _ => 0) (fun _ => [48])) sample_types sample_row).
  { unfold sample_types, sample_row, canonical. repeat apply Forall2_cons_2; [| | | |constructor].
    - left. split; [done|]. exists (-5). split; [by vm_compute|done].
    - do 3 right. split; [by right|]. by repeat (constructor; [by vm_compute|]).
    - right. left. split; [done|]. exists (2 ^ 64 - 1). split; [by vm_compute|done].
    - do 3 right. split; [by left|]. constructor. }
  split; [exact H|]. exact (Decode_Encode _ _ _ _ H).
Defined.

(** C7: byte order of keys is row order. For rows whose columns can be compared (no
    NaN), comparing the encoded keys byte by byte, as RocksDB's default comparator
    does, gives the order of the rows: column by column, integers as integers,
    doubles as numbers, strings lexicographically. *)
Theorem Encode_order strtod ts vs ws :
  Forall2 (field_ok strtod) ts vs -> Forall2 (field_ok strtod) ts ws ->
  exists k l, Encode strtod vs ts = Ok k /\ Encode strtod ws ts = Ok l /\
    lex k l = row_compare strtod ts vs ws.
Proof.
  intros Hv Hw. do 2 eexists. split; [|split].
  1, 2: apply Encode_concat; by eapply field_ok_types.
  by apply row_lex.
Qed.

(** Rows ("-1", "ab") and ("1", "aa"); the double -0.5 against 2.0. *)
Lemma Encode_order_witness :
  let strtod := fun s => if bool_decide (s = [45]) then 0xBFE0000000000000 else 0x4000000000000000 in
  exists k l, Encode strtod [[45; 49]; [97; 98]; [45]] [1; 5; 3] = Ok k /\
    Encode strtod [[45; 49]; [97; 98]; [43]] [1; 5; 3] = Ok l /\ lex k l = Lt.
Proof.
  intros strtod.
  apply (Encode_order strtod [1; 5; 3] [[45; 49]; [97; 98]; [45]] [[45; 49]; [97; 98]; [43]]);
    (repeat (apply Forall2_cons_2; [split; [by vm_compute|split;
      [by repeat (constructor; [by vm_compute|])|intros; split; by vm_compute]]|]); constructor).
Defined.

(** C17: [key_format::Compare] implements the column order with case-insensitive
    strings. On the keys of two rows of comparable columns, whatever [memcmp] returns
    beside the sign, the answer has the sign of the comparison column by column. [String]
    columns are compared as texts that end with a 0, with ASCII letters as capitals and
    bytes from 128 on, which are negative [char]s, before everything else, the end of a
    text included; a [String] with such a byte after a NUL is left out, since there the
    padding counts. The encoding of a column is shorter than 2 GB. *)
Theorem Compare_refines strtod `{!Memcmp, !MemcmpSign} ts vs ws :
  Forall2 (field_ok_ci strtod) ts vs -> Forall2 (field_ok_ci strtod) ts ws ->
  exists k l ret, Encode strtod vs ts = Ok k /\ Encode strtod ws ts = Ok l /\
    Compare k l ts = Ok ret /\ Z.sgn ret = cmp_sign (row_compare_ci strtod ts vs ws).
Proof.
  intros Hv Hw. destruct (Compare_from_encoded strtod ts vs ws None Hv Hw) as (ret & E & Er).
  do 2 eexists. exists ret. split; [|split; [|split; [exact E|exact Er]]];
    apply Encode_concat, (field_ok_types strtod); (eapply Forall2_impl; [eassumption|]; by intros ? ? [? _]).
Qed.

(** A [memcmp] that returns the difference of the first bytes that differ. *)
#[local] Instance memcmp_difference : Memcmp :=
  fix go p q := match p, q with x :: p, y :: q => if x =? y then go p q else x - y | _, _ => 0 end.
#[local] Instance memcmp_difference_sign : MemcmpSign.
Proof.
  intros p. unfold memcmp_value. induction p as [|x p IH]; intros [|y q] Hl; try done.
  cbn [memcmp_difference lex]. destruct (Z.eqb_spec x y) as [->|Hne]; [rewrite Z.compare_refl; apply IH; simpl in Hl; lia|].
  destruct (Z.compare_spec x y); [done|..]; cbn [cmp_sign]; lia.
Qed.

(** ("Hello!7z", "ab") against ("hELLO!7Z", "ad"), the second column binary: the
    difference of the bytes. "caf" comes after "caf" with a byte 233. *)
Lemma Compare_refines_witness :
  (exists k l ret, Encode (fun _ => 0) [[72; 101; 108; 108; 111; 33; 55; 122]; [97; 98]] [4; 5] = Ok k /\
    Encode (fun _ => 0) [[104; 69; 76; 76; 79; 33; 55; 90]; [97; 100]] [4; 5] = Ok l /\
    Compare k l [4; 5] = Ok ret /\ Z.sgn ret = -1) /\
  (exists k l ret, Encode (fun _ => 0) [[99; 97; 102]] [4] = Ok k /\ Encode (fun _ => 0) [[67; 65; 70; 233]] [4] = Ok l /\
    Compare k l [4] = Ok ret /\ Z.sgn ret = 1).
Proof.
  assert (Hok : forall t v, t = 4 \/ t = 5 -> forallb (fun b => (1 <=? b) && (b <=? 255)) v = true -> Z.of_nat (length (encode_bytes_str v)) < 2 ^ 31 -> field_ok_ci (fun _ => 0) t v).
  { intros t v Ht Hv Hl. assert (Hv' : Forall (fun b => 1 <= b <= 255) v).
    { apply Forall_forall. intros b Hb. rewrite forallb_forall in Hv. specialize (Hv b (proj1 (list_elem_of_In _ _) Hb)). lia. }
    split; [split; [unfold key_type, DField.Signed, DField.Binary; lia|split; [eapply Forall_impl; [exact Hv'|]; unfold is_u; simpl; lia|by destruct Ht as [-> | ->]]]|].
    split; [by destruct Ht as [-> | ->]|]. intros _. clear -Hv'. induction Hv' as [|b v Hb _ IH]; [done|]. split; [lia|done]. }
  split.
  - apply (Compare_refines (fun _ => 0) [4; 5] [[72; 101; 108; 108; 111; 33; 55; 122]; [97; 98]] [[104; 69; 76; 76; 79; 33; 55; 90]; [97; 100]]);
      repeat (apply Forall2_cons_2; [apply Hok; [auto|reflexivity|vm_compute; reflexivity]|]); constructor.
  - apply (Compare_refines (fun _ => 0) [4] [[99; 97; 102]] [[67; 65; 70; 233]]);
      repeat (apply Forall2_cons_2; [apply Hok; [auto|reflexivity|vm_compute; reflexivity]|]); constructor.
Defined.

(** The first column can be cut off and read without the rest of the key. On the
    key of a row, [get_field_len] is the encoded length of the first column, as an [int],
    [get_format_key] its encoding and [decode_primary_key] its text. *)
Theorem first_field strtod to_string_d t v ts vs :
  Forall2 (canonical strtod to_string_d) (t :: ts) (v :: vs) ->
  exists k e, Encode strtod (v :: vs) (t :: ts) = Ok k /\ Encode strtod [v] [t] = Ok e /\
    get_field_len k t = Ok (s32 (Z.of_nat (length e))) /\
    get_format_key k t = Ok e /\
    decode_primary_key to_string_d k t [] = Ok v.
Proof.
  intros H. pose proof (canonical_types _ _ _ _ H) as T.
  apply Forall2_cons_1 in H as [Hc _]. apply Forall2_cons_1 in T as [Ht T].
  exists (encoded strtod t v ++ concat (zip_with (encoded strtod) ts vs)), (encoded strtod t v).
  split; [rewrite Encode_concat by (by constructor); done|].
  split; [rewrite Encode_concat by (constructor; [done|constructor]); simpl; by rewrite app_nil_r|].
  set (rest := concat _).
  pose proof (decode_field_encoded strtod to_string_d t v [] rest Hc) as D. simpl app in D.
  pose proof (get_field_len_encoded strtod t v rest Ht) as L.
  pose proof (substr_mid [] (encoded strtod t v) rest _ eq_refl) as S. simpl in S.
  assert (E : t = 4 \/ t = 5 -> segment_end (length (encoded strtod t v ++ rest)) (encoded strtod t v ++ rest) SEGMENT_SIZE = Ok (length (encoded strtod t v))).
  { intros [-> | ->]; apply segment_end_encoded. }
  assert (En : t = 1 \/ t = 2 \/ t = 3 -> length (encoded strtod t v) = 8%nat).
  { intros [-> |[-> | ->]]; apply le_bytes_length. }
  revert D L S E En. unfold get_field_len, get_format_key, decode_primary_key, decode_field, SEGMENT_SIZE.
  simpl length. simpl (0 + 8)%nat.
  set (k := encoded strtod t v ++ rest). set (n := length (encoded strtod t v)). clearbody n k.
  unfold key_type, DField.Signed, DField.Binary in Ht.
  assert (Hcase : t = 1 \/ t = 2 \/ t = 3 \/ t = 4 \/ t = 5) by lia.
  unfold DField.Signed, DField.Unsigned, DField.Float, DField.String, DField.Binary.
  destruct Hcase as [-> |[-> |[-> |[-> | ->]]]]; simpl (_ || _); cbn [Z.eqb Pos.eqb orb].
  all: try (intros D L S _ En; split; [exact L|]; rewrite En in S by auto; split; [exact S|];
    revert D; change 8%Z with (Z.of_nat 8); destruct (substr k 0 _); cbn [obind]; try done;
    match goal with |- context [DecodeBytes_s64 ?a] => destruct (DecodeBytes_s64 a)
      | |- context [DecodeBytes_u64 ?a] => destruct (DecodeBytes_u64 a)
      | |- context [DecodeBytes_double ?a] => destruct (DecodeBytes_double a) end;
    cbn [obind]; congruence).
  all: intros D L S E _; split; [exact L|]; rewrite E in D |- * by auto; cbn [obind] in *;
    rewrite Nat.sub_0_r, S in D; rewrite S; split; [done|]; revert D; cbn [obind];
    destruct (DecodeBytes_str _ []); cbn [obind]; congruence.
Qed.

Lemma first_field_witness :
  exists k e, Encode (fun _ => 0) [[120; 121]; [45; 49]] [4; 1] = Ok k /\
    Encode (fun _ => 0) [[120; 121]] [4] = Ok e /\
    get_field_len k 4 = Ok (s32 (Z.of_nat (length e))) /\ get_format_key k 4 = Ok e /\
    decode_primary_key (fun _ => []) k 4 [] = Ok [120; 121].
Proof.
  apply (first_field (fun _ => 0) (fun _ => []) 4 [120; 121] [1] [[45; 49]]).
  apply Forall2_cons_2; [|apply Forall2_cons_2; [|constructor]].
  - do 3 right. split; [by right|]. by repeat (constructor; [by vm_compute|]).
  - left. split; [done|]. exists (-1). split; [by vm_compute|done].
Defined.

(** C36: the comparator without virtual field meets RocksDB's contract. On nonempty
    keys [internal_compare] of [rocksdb_key_comparator.h] always answers (the
    assertion holds), and is reflexive, antisymmetric in sign and transitive, in
    both the case-sensitive and the case-insensitive mode. *)
Theorem internal_compare_contract `{!Memcmp} cs :
  Comparator (fun k => k <> []) (CommKeyComparator.internal_compare (CommKeyComparator.mk cs false)).
Proof. apply (Comparator_of_reading _ _ (key_reading cs)). apply internal_compare_plain. Qed.

(** With a virtual field and case-sensitive keys the contract is broken. Every key
    made of a nonempty prefix, a virtual field and its length compares as smaller
    than itself: [lk.compare(0, minLen, rk)] compares the prefix of one key with
    the whole of the other. *)
Theorem internal_compare_virtual_irreflexive `{!Memcmp} p t :
  p <> [] -> Z.of_nat (length (p ++ t)) < 2 ^ 63 ->
  let k := p ++ t ++ encode_bytes_u64 (Z.of_nat (length t)) in
  CommKeyComparator.internal_compare (CommKeyComparator.mk true true) k k = Ok (-1).
Proof.
  intros Hp Hlen k. rewrite length_app in Hlen.
  assert (Hlp : (0 < length p)%nat) by (destruct p; simpl; (done || lia)).
  assert (Ht : is_u 64 (Z.of_nat (length t))) by (unfold is_u; lia).
  assert (L8 : length (encode_bytes_u64 (Z.of_nat (length t))) = 8%nat) by apply le_bytes_length.
  assert (Lk : length k = (length p + length t + 8)%nat) by (unfold k; rewrite !length_app; lia).
  assert (S : substr k (Z.to_nat (Z.of_nat (length k) - 8)) (Z.of_nat (length k))
    = Ok (encode_bytes_u64 (Z.of_nat (length t)))).
  { replace (Z.to_nat _) with (length (p ++ t)) by (rewrite length_app; lia).
    unfold substr. rewrite (proj2 (Nat.leb_le _ _)) by (rewrite length_app; lia).
    rewrite Lk. unfold k. rewrite app_assoc, drop_app_length. by rewrite take_ge by lia. }
  unfold CommKeyComparator.internal_compare. cbn [CommKeyComparator.mHasVirtualField].
  unfold CommKeyComparator.compare_virtual. rewrite (proj2 (Z.leb_le _ _)) by lia.
  rewrite S. cbn [obind]. rewrite KeyFacts.DecodeBytes_u64_encode by done. cbn [obind].
  assert (u64 (Z.of_nat (length k) - Z.of_nat (length t) - 8) = Z.of_nat (length p)) as ->.
  { unfold u64. rewrite Lk, wrap_small by (unfold is_u; lia). lia. }
  rewrite Z.ltb_irrefl, (proj2 (Z.eqb_neq _ _)) by lia. cbn [CommKeyComparator.mCaseSensitiveKey].
  replace (Z.to_nat (Z.min _ _)) with (length p) by lia. cbn [obind].
  unfold CommKeyComparator.string_compare, k. rewrite take_app_length.
  assert (lex p (p ++ t ++ encode_bytes_u64 (Z.of_nat (length t))) = Lt) as ->; [|done].
  rewrite <-(app_nil_r p) at 1. rewrite lex_app_same.
  by destruct (t ++ encode_bytes_u64 _) eqn:E; [apply (f_equal length) in E; rewrite length_app, L8 in E; simpl in E; lia|].
Qed.

Lemma internal_compare_virtual_irreflexive_witness :
  let k := [97] ++ [98] ++ encode_bytes_u64 1 in
  CommKeyComparator.internal_compare (CommKeyComparator.mk true true) k k = Ok (-1).
Proof. apply (internal_compare_virtual_irreflexive [97] [98]); [done|by vm_compute]. Defined.

(** Keys built from a table definition. Without [Binary] columns the overload
    that takes the table writes the same key as the one that takes the types, and
    counts the encoded bytes of its [String] columns (modulo 2^64) as case
    insensitive; a [Binary] column, whose [case] has no [break], is written twice. *)
Theorem Encode_table_spec strtod ts vs :
  Forall2 (fun t _ => key_type t) ts vs -> Forall (fun t => t <> DField.Binary) ts ->
  (exists k, Encode strtod vs ts = Ok k /\ Encode_table strtod vs ts = Ok (k,
     u64 (list_sum_Z (zip_with (fun t v => if t =? DField.String
            then Z.of_nat (length (encode_bytes_str v)) else 0) ts vs)))) /\
  (forall v, Encode strtod [v] [DField.Binary] = Ok (encode_bytes_str v) /\
     Encode_table strtod [v] [DField.Binary]
     = Ok (encode_bytes_str v ++ encode_bytes_str v, u64 (Z.of_nat (length (encode_bytes_str v))))).
Proof.
  intros Ht Hb. split.
  - eexists. split; [by apply Encode_concat|].
    apply (Encode_table_from_spec strtod [] ts vs [] 0 Ht Hb).
  - intros v. split; [|done]. cbn. by rewrite app_nil_r.
Qed.

Lemma Encode_table_spec_witness :
  exists k, Encode (fun _ => 0) [[97]; [49]] [4; 1] = Ok k /\
    Encode_table (fun _ => 0) [[97]; [49]] [4; 1] = Ok (k, 8).
Proof.
  apply (Encode_table_spec (fun _ => 0) [4; 1] [[97]; [49]]).
  - by repeat (apply Forall2_cons_2; [by vm_compute|]).
  - by repeat (constructor; [done|]).
Defined.

End KeySpec.
