(* ===== verification/Codec.v ===== *)
(** The wire encoding of values and sections: [common/encode.cc] and
    [common/decode.cc], with the [SimpleSection] of [common/section.h].

    A decoder reads from a [DTCBinary] and moves it; it is a state-and-error
    computation over the reader, so that the reader a failing decoder leaves behind
    is the one the source leaves. An encoder is the list of the bytes it writes. *)
From Stdlib Require Import ZArith Lia.
From stdpp Require Import base list numbers gmap.
From S2P Require Import Prelude Value.
Local Open Scope Z_scope.

(** ** Error codes ([common/buffer_error.h]) *)
Definition EC_ERROR_BASE := 2000.
Definition EC_BAD_COMMAND := 2001.
Definition EC_MISSING_SECTION := 2002.
Definition EC_EXTRA_SECTION := 2003.
Definition EC_DUPLICATE_TAG := 2004.
Definition EC_DUPLICATE_FIELD := 2005.
Definition EC_BAD_SECTION_LENGTH := 2006.
Definition EC_BAD_VALUE_LENGTH := 2007.
Definition EC_BAD_STRING_VALUE := 2008.
Definition EC_BAD_FLOAT_VALUE := 2009.
Definition EC_BAD_FIELD_NUM := 2010.
Definition EC_EXTRA_SECTION_DATA := 2011.
Definition EC_BAD_VALUE_TYPE := 2012.
Definition EC_BAD_OPERATOR := 2013.
Definition EC_BAD_FIELD_ID := 2014.
Definition EC_BAD_FIELD_NAME := 2015.

(** ** Readers *)

Definition rd (A : Type) : Type := DTCBinary -> outcome A * DTCBinary.

Definition rret {A} (a : A) : rd A := fun b => (Ok a, b).
Definition rerr {A} (c : Z) : rd A := fun b => (Err c, b).
Definition rfault {A} : rd A := fun b => (Fault, b).
Definition rbind {A B} (m : rd A) (f : A -> rd B) : rd B := fun b =>
  match m b with
  | (Ok a, b) => f a b
  | (Err c, b) => (Err c, b)
  | (Fault, b) => (Fault, b)
  end.
Definition rlift {A} (o : outcome A) : rd A := fun b => (o, b).

Notation "'do!' x <- m ; k" := (rbind m (fun x => k))
  (at level 10, x pattern, m at level 100, k at level 200) : isearch_scope.

(** [bin++] with the byte read, [bin += n], [bin[n]], [bin < n], [!bin]. *)
Definition rbyte : rd Z := fun b => match bin_at b 0 with Ok c => (Ok c, bin_skip 1 b) | o => (o, b) end.
Definition rskip (n : nat) : rd unit := fun b => (Ok tt, bin_skip n b).
Definition rat (n : nat) : rd Z := fun b => (bin_at b n, b).
Definition rshort (n : Z) : rd bool := fun b => (Ok (b.(len) <? n), b).
Definition rempty : rd bool := fun b => (Ok (bin_empty b), b).
Definition rptr : rd (option (list Z)) := fun b => (Ok b.(bytes), b).

(** ** Lengths *)

(** [decode_length] *)
Definition decode_length : rd Z :=
  do! e <- rempty;
  if (e : bool) then rerr (- EC_BAD_SECTION_LENGTH) else
  do! l <- rbyte;
  if l <? 240 then rret l
  else if l <=? 252 then
    do! e <- rempty;
    if (e : bool) then rerr (- EC_BAD_SECTION_LENGTH) else
    do! c <- rbyte;
    rret (u32 (Z.shiftl (Z.land l 0xF) 8 + c))
  else if l =? 253 then
    do! s <- rshort 2;
    if (s : bool) then rerr (- EC_BAD_SECTION_LENGTH) else
    do! b0 <- rat 0; do! b1 <- rat 1;
    do! _ <- rskip 2;
    rret (u32 (Z.shiftl b0 8 + b1))
  else if l =? 254 then
    do! s <- rshort 3;
    if (s : bool) then rerr (- EC_BAD_SECTION_LENGTH) else
    do! b0 <- rat 0; do! b1 <- rat 1; do! b2 <- rat 2;
    do! _ <- rskip 3;
    rret (u32 (Z.shiftl b0 16 + Z.shiftl b1 8 + b2))
  else
    do! s <- rshort 4;
    if (s : bool) then rerr (- EC_BAD_SECTION_LENGTH) else
    do! b0 <- rat 0; do! b1 <- rat 1; do! b2 <- rat 2; do! b3 <- rat 3;
    do! _ <- rskip 4;
    let l := u32 (Z.shiftl b0 24 + Z.shiftl b1 16 + Z.shiftl b2 8 + b3) in
    if MAXPACKETSIZE <? l then rerr (- EC_BAD_VALUE_LENGTH) else rret l.

(** [encode_length]; every stored value is truncated to a [char]. *)
Definition encode_length (l : Z) : list Z :=
  if l <? 240 then [u8 l]
  else if l <? Z.shiftl 13 8 then [u8 (0xF0 + Z.shiftr l 8); Z.land l 0xFF]
  else if l <? Z.shiftl 1 16 then [253; u8 (Z.shiftr l 8); Z.land l 0xFF]
  else if l <? Z.shiftl 1 24 then [254; u8 (Z.shiftr l 16); u8 (Z.shiftr l 8); Z.land l 0xFF]
  else [255; u8 (Z.shiftr l 24); u8 (Z.shiftr l 16); u8 (Z.shiftr l 8); Z.land l 0xFF].

(** [encoded_bytes_length] *)
Definition encoded_bytes_length (n : Z) : Z :=
  if n <? 240 then 1
  else if n <? Z.shiftl 13 8 then 2
  else if n <? Z.shiftl 1 16 then 3
  else if n <? Z.shiftl 1 24 then 4
  else 5.

Section Values.
(** The formatting of a [double] as a C99 hexadecimal text ([snprintf] with
    ["%LA"]) and its scanning back ([sscanf]), on the bits of the double. *)
Variable print_double : Z -> list Z.
Variable scan_double : list Z -> option Z.

(** ** Values *)

(** The bytes the two's complement of an integer takes. *)
Definition int_bytes (s64 : Z) : Z :=
  if 0 <=? s64 then
    if s64 <? 0x80 then 1 else if s64 <? 0x8000 then 2 else if s64 <? 0x800000 then 3
    else if s64 <? 0x80000000 then 4 else if s64 <? 0x8000000000 then 5
    else if s64 <? 0x800000000000 then 6 else if s64 <? 0x80000000000000 then 7 else 8
  else
    if -0x80 <=? s64 then 1 else if -0x8000 <=? s64 then 2 else if -0x800000 <=? s64 then 3
    else if -0x80000000 <=? s64 then 4 else if -0x8000000000 <=? s64 then 5
    else if -0x800000000000 <=? s64 then 6 else if -0x80000000000000 <=? s64 then 7 else 8.

(** The buffer of [encode_data_value] holds 40 characters; a longer text becomes
    "NAN". *)
Definition FLT_BUF : Z := 40.
Definition str_NAN : list Z := [78; 65; 78].
Definition str_INF : list Z := [73; 78; 70].
Definition str_NINF : list Z := [45; 73; 78; 70].

Definition double_text (u : Z) : list Z :=
  let buf := print_double u in
  if FLT_BUF <=? Z.of_nat (length buf) then str_NAN else buf.

(** [encode_data_value] *)
Definition encode_data_value (v : DTCValue) (type : Z) : outcome (list Z) :=
  if type =? DField.None then Ok [0]
  else if (type =? DField.Signed) || (type =? DField.Unsigned) then
    let! s64 := val_s64 v in
    let n := int_bytes s64 in
    Ok (n :: rev (take (Z.to_nat n) (le_bytes 8 (u64 s64))))
  else if type =? DField.Float then
    let! flt := val_flt v in
    let buf := double_text flt in
    let n := Z.of_nat (length buf) + 1 in
    Ok (u8 n :: buf ++ [0])
  else if (type =? DField.String) || (type =? DField.Binary) then
    let! b := val_bin v in
    match b.(bytes) with
    | None => Ok [0]
    | Some _ =>
      let! s := string_of_bin b in
      Ok (encode_length (u32 (b.(len) + 1)) ++ s ++ [0])
    end
  else Ok [].

(** [encoded_bytes_data_value] *)
Definition encoded_bytes_data_value (v : DTCValue) (type : Z) : outcome Z :=
  if type =? DField.None then Ok 1
  else if (type =? DField.Signed) || (type =? DField.Unsigned) then
    let! s64 := val_s64 v in
    Ok (if 0 <=? s64 then
      if s64 <? 0x80 then 2 else if s64 <? 0x8000 then 3 else if s64 <? 0x800000 then 4
      else if s64 <? 0x80000000 then 5 else if s64 <? 0x8000000000 then 6
      else if s64 <? 0x800000000000 then 7 else if s64 <? 0x80000000000000 then 8 else 9
    else
      if -0x80 <=? s64 then 2 else if -0x8000 <=? s64 then 3 else if -0x800000 <=? s64 then 4
      else if -0x80000000 <=? s64 then 5 else if -0x8000000000 <=? s64 then 6
      else if -0x800000000000 <=? s64 then 7 else if -0x80000000000000 <=? s64 then 8 else 9)
  else if type =? DField.Float then
    let! flt := val_flt v in
    let b := print_double flt in
    Ok (if FLT_BUF <=? Z.of_nat (length b) then 5 else 2 + Z.of_nat (length b))
  else if (type =? DField.String) || (type =? DField.Binary) then
    let! b := val_bin v in
    Ok (match b.(bytes) with
        | None => 1
        | Some _ => b.(len) + 1 + encoded_bytes_length (u32 (b.(len) + 1))
        end)
  else Ok 0.

(** The integer cases of [decode_data_value]: the first byte is sign-extended, each
    further one shifted in. *)
Fixpoint shift_in (s : Z) (n : nat) (i : nat) : rd Z :=
  match n with
  | O => rret s
  | S n =>
    do! c <- rat i;
    shift_in (s64 (Z.lor (Z.shiftl s 8) c)) n (S i)
  end.

(** The switch of [decode_data_value] on the type, at [l] bytes of value: [None]
    when the value is left alone. The zero-length string points at the byte before
    the reader, the last byte of its encoded length, which is 0. *)
Definition decode_body (type l : Z) : rd (option DTCValue) :=
  if type =? DField.None then rret None
  else if (type =? DField.Signed) || (type =? DField.Unsigned) then
    if (l =? 0) || (8 <? l) then rerr (- EC_BAD_VALUE_LENGTH) else
    do! c <- rat 0;
    do! v <- shift_in (s8 c) (Z.to_nat l - 1) 1;
    rret (Some (set_s64 v))
  else if type =? DField.Float then
    if l <? 3 then rerr (- EC_BAD_VALUE_LENGTH) else
    do! c <- rat (Z.to_nat (l - 1));
    if negb (c =? 0) then rerr (- EC_BAD_FLOAT_VALUE) else
    do! p <- rptr;
    let txt := cstr (mem_list p) in
    if bool_decide (txt = str_NAN) then rret (Some (set_u64 0x7FF8000000000000))
    else if bool_decide (txt = str_INF) then rret (Some (set_u64 0x7FF0000000000000))
    else if bool_decide (txt = str_NINF) then rret (Some (set_u64 0xFFF0000000000000))
    else match scan_double txt with
         | Some u => rret (Some (set_u64 u))
         | None => rerr (- EC_BAD_FLOAT_VALUE)
         end
  else if (type =? DField.String) || (type =? DField.Binary) then
    do! p <- rptr;
    if l =? 0 then rret (Some (set_str (cons 0 <$> p) 0)) else
    do! c <- rat (Z.to_nat (l - 1));
    if negb (c =? 0) then rerr (- EC_BAD_STRING_VALUE) else
    rret (Some (set_str p (l - 1)))
  else rret None.

(** [decode_data_value] *)
Definition decode_data_value (type : Z) : rd (option DTCValue) :=
  do! l <- decode_length;
  do! s <- rshort l;
  if (s : bool) then rerr (- EC_BAD_SECTION_LENGTH) else
  do! v <- decode_body type l;
  do! _ <- rskip (Z.to_nat l);
  rret v.

(** ** Sections of tagged values ([section.h]) *)

Definition MAX_STATIC_SECTION : Z := 20.

Record SectionDefinition := mkSectionDef {
  sectionId : Z;
  maxTags : Z;
  tagType : Z -> Z            (** 256 entries *)
}.

(** [fieldMask] is the set of the tags whose bit is set; [tagValue] the array of
    [MAX_STATIC_SECTION] values. *)
Record SimpleSection := mkSection {
  definition : SectionDefinition;
  numTags : Z;
  fieldMask : gset Z;
  tagValue : list DTCValue
}.

Definition empty_tag : DTCValue := set_str None 0.

(** The constructor: the tags of the definition are null strings. *)
Definition SimpleSection_new (d : SectionDefinition) : SimpleSection :=
  mkSection d 0 ∅ (replicate (Z.to_nat MAX_STATIC_SECTION) empty_tag).

Definition tag_type (s : SimpleSection) (id : Z) : Z := s.(definition).(tagType) id.

Definition tag_present (s : SimpleSection) (id : Z) : bool :=
  if MAX_STATIC_SECTION <=? id then false else bool_decide (id ∈ s.(fieldMask)).

Definition get_tag (s : SimpleSection) (id : Z) : option DTCValue :=
  if tag_present s id then s.(tagValue) !! Z.to_nat id else None.

(** [set_tag(id, val)]: a tag the definition does not type is ignored; the array is
    not checked. *)
Definition set_tag (s : SimpleSection) (id : Z) (v : DTCValue) : outcome SimpleSection :=
  if negb (tag_type s id =? DField.None) then
    if MAX_STATIC_SECTION <=? id then Fault else
    let tv := <[Z.to_nat id := v]> s.(tagValue) in
    if bool_decide (id ∈ s.(fieldMask)) then Ok (mkSection s.(definition) s.(numTags) s.(fieldMask) tv)
    else Ok (mkSection s.(definition) (u8 (s.(numTags) + 1)) ({[id]} ∪ s.(fieldMask)) tv)
  else Ok s.

(** [SetTagMask] after the value was written through [get_this_tag]: two unchecked
    accesses to the arrays of the section. *)
Definition put_tag (s : SimpleSection) (id : Z) (v : option DTCValue) : outcome SimpleSection :=
  if MAX_STATIC_SECTION <=? id then Fault else
  Ok (mkSection s.(definition) (u8 (s.(numTags) + 1)) ({[id]} ∪ s.(fieldMask))
       (match v with Some v => <[Z.to_nat id := v]> s.(tagValue) | None => s.(tagValue) end)).

(** [Clean] *)
Definition SimpleSection_Clean (s : SimpleSection) : SimpleSection :=
  mkSection s.(definition) 0 ∅
    (imap (fun i v => if Z.of_nat i <? s.(definition).(maxTags) then DWord 0 else v) s.(tagValue)).

(** [decode_simple_section]: tags until the reader is empty. [mask] is the local
    duplicate mask. Every round consumes a byte, so the reader's length bounds the
    rounds. *)
Fixpoint decode_section_loop (fuel : nat) (mask : gset Z) (ss : SimpleSection) (kt : Z) : rd SimpleSection :=
  do! e <- rempty;
  if (e : bool) then rret ss else
  match fuel with
  | O => rfault
  | S fuel =>
    do! id <- rbyte;
    if bool_decide (id ∈ mask) then rerr (- EC_DUPLICATE_TAG) else
    let type := if id =? 0 then kt else tag_type ss id in
    do! v <- decode_data_value type;
    if negb (type =? DField.None) then
      do! ss <- rlift (put_tag ss id v);
      decode_section_loop fuel ({[id]} ∪ mask) ss kt
    else decode_section_loop fuel mask ss kt
  end.

Definition decode_simple_section (ss : SimpleSection) (kt : Z) : rd SimpleSection := fun b =>
  decode_section_loop (Z.to_nat b.(len)) ∅ ss kt b.

(** [encode_simple_section] and [encoded_bytes_simple_section]: the present tags in
    order; the loop runs up to and including [max_tags]. *)
Definition section_ids (s : SimpleSection) : list Z :=
  seqZ 0 (s.(definition).(maxTags) + 1).

Definition encode_tag (s : SimpleSection) (kt i : Z) : outcome (list Z) :=
  match get_tag s i with
  | None => Ok []
  | Some v =>
    let! b := encode_data_value v (if i =? 0 then kt else tag_type s i) in
    Ok (u8 i :: b)
  end.

Fixpoint encode_tags (s : SimpleSection) (kt : Z) (ids : list Z) : outcome (list Z) :=
  match ids with
  | [] => Ok []
  | i :: ids =>
    let! b := encode_tag s kt i in
    let! r := encode_tags s kt ids in
    Ok (b ++ r)
  end.

Definition encode_simple_section (s : SimpleSection) (kt : Z) : outcome (list Z) :=
  encode_tags s kt (section_ids s).

Fixpoint encoded_bytes_tags (s : SimpleSection) (kt : Z) (ids : list Z) : outcome Z :=
  match ids with
  | [] => Ok 0
  | i :: ids =>
    let! n := (match get_tag s i with
               | None => Ok 0
               | Some v =>
                 let! n := encoded_bytes_data_value v (if i =? 0 then kt else tag_type s i) in
                 Ok (1 + n)
               end) in
    let! r := encoded_bytes_tags s kt ids in
    Ok (n + r)
  end.

Definition encoded_bytes_simple_section (s : SimpleSection) (kt : Z) : outcome Z :=
  encoded_bytes_tags s kt (section_ids s).

End Values.

(** ** Reasoning about readers *)
Module ReaderFacts.

(** [rspec m P Q]: from a reader satisfying [P], [m] does not fault, and when it
    succeeds the value and the reader satisfy [Q]. *)
Definition rspec {A} (m : rd A) (P : DTCBinary -> Prop) (Q : A -> DTCBinary -> Prop) : Prop :=
  forall b, P b -> match m b with
  | (Ok a, b') => Q a b'
  | (Err _, _) => True
  | (Fault, _) => False
  end.

Lemma rspec_bind {A B} (m : rd A) (f : A -> rd B) P Q R :
  rspec m P R -> (forall a, rspec (f a) (R a) Q) -> rspec (rbind m f) P Q.
Proof.
  intros Hm Hf b Hb. unfold rbind. specialize (Hm b Hb).
  destruct (m b) as [[a|c|] b']; [by apply Hf|done|done].
Qed.

Lemma rspec_strengthen {A} (m : rd A) (P P' : DTCBinary -> Prop) (Q : A -> DTCBinary -> Prop) :
  (forall b, P' b -> P b) -> rspec m P Q -> rspec m P' Q.
Proof. intros HP Hm b Hb. exact (Hm b (HP b Hb)). Qed.

Lemma rspec_ret {A} (a : A) (P : DTCBinary -> Prop) (Q : A -> DTCBinary -> Prop) :
  (forall b, P b -> Q a b) -> rspec (rret a) P Q.
Proof. intros H b Hb. by apply H. Qed.

Lemma rspec_err {A} c P (Q : A -> DTCBinary -> Prop) : rspec (rerr c) P Q.
Proof. done. Qed.

Lemma rspec_pre {A} (m : rd A) (P : DTCBinary -> Prop) (H : Prop) (Q : A -> DTCBinary -> Prop) :
  (H -> rspec m P Q) -> rspec m (fun b => H /\ P b) Q.
Proof. intros Hm b [Hh Hb]. exact (Hm Hh b Hb). Qed.

(** At least [n] bytes left, out of at most [m]. *)
Definition avail (n m : Z) (b : DTCBinary) : Prop := bin_ok b /\ n <= b.(len) <= m.

Lemma bin_at_ok b n : bin_ok b -> Z.of_nat n < b.(len) -> exists c, bin_at b n = Ok c /\ byte_ok c.
Proof.
  destruct b as [l [bs|]]; unfold bin_ok, bin_at; simpl; [|lia].
  intros [Hbs Hl] Hn. destruct (lookup_lt_is_Some_2 bs n) as [c Hc]; [lia|].
  rewrite Hc. exists c. split; [done|]. by eapply Forall_lookup_1.
Qed.

Lemma bin_skip_ok b n : bin_ok b -> Z.of_nat n <= b.(len) -> bin_ok (bin_skip n b).
Proof.
  destruct b as [l [bs|]]; unfold bin_ok, bin_skip; simpl; [|lia].
  intros [Hbs Hl] Hn. split; [by apply Forall_drop|]. rewrite length_drop. lia.
Qed.

Lemma rspec_empty n m :
  rspec rempty (avail n m) (fun e b => avail n m b /\ (e = false -> avail 1 m b)).
Proof.
  intros b [Hb Hl]. simpl. split; [done|]. unfold bin_empty.
  intros H%Z.leb_gt. split; [done|lia].
Qed.

Lemma rspec_short n m k :
  rspec (rshort k) (avail n m) (fun s b => avail n m b /\ (s = false -> avail (Z.max n k) m b)).
Proof.
  intros b [Hb Hl]. simpl. split; [done|]. intros H%Z.ltb_ge. split; [done|lia].
Qed.

Lemma rspec_byte n m :
  1 <= n -> rspec rbyte (avail n m) (fun c b => byte_ok c /\ avail (n - 1) (m - 1) b).
Proof.
  intros Hn b [Hb Hl]. unfold rbyte.
  destruct (bin_at_ok b 0 Hb) as (c & -> & Hc); [lia|]. split; [done|].
  split; [by apply bin_skip_ok; [|lia]|]. simpl. lia.
Qed.

Lemma rspec_at n m i : Z.of_nat i < n -> rspec (rat i) (avail n m) (fun c b => byte_ok c /\ avail n m b).
Proof.
  intros Hi b [Hb Hl]. unfold rat. destruct (bin_at_ok b i Hb) as (c & -> & Hc); [lia|]. done.
Qed.

Lemma rspec_skip n m i :
  Z.of_nat i <= n ->
  rspec (rskip i) (avail n m) (fun _ b => avail (n - Z.of_nat i) (m - Z.of_nat i) b).
Proof.
  intros Hi b [Hb Hl]. simpl. split; [apply bin_skip_ok; [done|lia]|]. simpl. lia.
Qed.

Lemma rspec_ptr n m : rspec rptr (avail n m) (fun _ b => avail n m b).
Proof. by intros b Hb. Qed.

(** *** Reading what was written *)

(** A reader over [bs] followed by [rest], with [l] bytes announced. *)
Definition reader (l : Z) (bs : list Z) : DTCBinary := mkBin l (Some bs).

Lemma rbyte_cons l c bs : rbyte (reader l (c :: bs)) = (Ok c, reader (l - 1) bs).
Proof. unfold rbyte, reader, bin_skip. simpl. by rewrite drop_0. Qed.

Lemma rempty_reader l bs : 0 < l -> rempty (reader l bs) = (Ok false, reader l bs).
Proof. intros H. unfold rempty, bin_empty. simpl. by rewrite (proj2 (Z.leb_gt _ _)). Qed.

Lemma rshort_reader l bs n : n <= l -> rshort n (reader l bs) = (Ok false, reader l bs).
Proof. intros H. unfold rshort. simpl. by rewrite (proj2 (Z.ltb_ge _ _)). Qed.

Lemma bin_skip_app l bs rest :
  bin_skip (length bs) (reader l (bs ++ rest)) = reader (l - Z.of_nat (length bs)) rest.
Proof. unfold bin_skip, reader. simpl. by rewrite drop_app_length. Qed.

Lemma rbind_rempty {A} (f : bool -> rd A) l bs :
  0 < l -> rbind rempty f (reader l bs) = f false (reader l bs).
Proof. intros H. unfold rbind. by rewrite rempty_reader. Qed.

Lemma rbind_rshort {A} (f : bool -> rd A) l bs n :
  n <= l -> rbind (rshort n) f (reader l bs) = f false (reader l bs).
Proof. intros H. unfold rbind. by rewrite rshort_reader. Qed.

Lemma rbind_rbyte {A} (f : Z -> rd A) l c bs :
  rbind rbyte f (reader l (c :: bs)) = f c (reader (l - 1) bs).
Proof. unfold rbind. by rewrite rbyte_cons. Qed.

Lemma rbind_ok {A B} (m : rd A) (f : A -> rd B) b a b' : m b = (Ok a, b') -> rbind m f b = f a b'.
Proof. unfold rbind. by intros ->. Qed.

End ReaderFacts.

(** ** Lengths *)
Module LengthFacts.
Import ReaderFacts.

Lemma land_ff x : Z.land x 0xFF = x mod 256.
Proof. change 0xFF with (Z.ones 8). by rewrite Z.land_ones. Qed.

Lemma land_f x : Z.land x 0xF = x mod 16.
Proof. change 0xF with (Z.ones 4). by rewrite Z.land_ones. Qed.

Lemma encode_length_length l : Z.of_nat (length (encode_length l)) = encoded_bytes_length l.
Proof. unfold encode_length, encoded_bytes_length. by repeat bcase. Qed.

Lemma encode_length_ok l : is_u 32 l -> bytes_ok (encode_length l).
Proof.
  intros Hl. unfold encode_length. rewrite !land_ff.
  assert (H : forall x, byte_ok (u8 x)) by (intros; apply wrap_range; lia).
  assert (H' : forall x, byte_ok (x mod 256)) by (intros; apply Z.mod_pos_bound; lia).
  repeat case_match;
    repeat (apply Forall_cons_2; [first [apply H | apply H' | unfold is_u; lia]|]); constructor.
Qed.

Lemma decode_length_encode l L rest :
  is_u 32 l -> l <= MAXPACKETSIZE -> Z.of_nat (length (encode_length l)) <= L ->
  decode_length (reader L (encode_length l ++ rest))
  = (Ok l, reader (L - Z.of_nat (length (encode_length l))) rest).
Proof.
  intros Hl Hmax. unfold is_u in Hl. change MAXPACKETSIZE with 67108864 in Hmax.
  unfold encode_length. rewrite !land_ff, !Z.shiftr_div_pow2 by lia.
  change (Z.shiftl 13 8) with 3328. change (Z.shiftl 1 16) with 65536. change (Z.shiftl 1 24) with 16777216.
  change (2 ^ 8) with 256 in *. change (2 ^ 16) with 65536 in *. change (2 ^ 24) with 16777216 in *.
  change (2 ^ 32) with 4294967296 in *.
  bcases; simpl length; intros HL; unfold u8, wrap; cbn [app]; unfold decode_length;
    change (2 ^ 8) with 256.
  all: rewrite rbind_rempty, rbind_rbyte by lia.
  - rewrite !Z.mod_small by lia. rewrite (proj2 (Z.ltb_lt _ _)) by lia. done.
  - rewrite (Z.mod_small (240 + _)) by (zdm).
    rewrite (proj2 (Z.ltb_ge _ _)), (proj2 (Z.leb_le _ _)) by (zdm).
    rewrite rbind_rempty, rbind_rbyte by lia. unfold rret. rewrite land_f, Z.shiftl_mul_pow2 by lia. change (2 ^ 8) with 256.
    f_equal; [|unfold bin_skip, reader; simpl; rewrite ?drop_0; f_equal; lia]. f_equal.
    unfold u32. rewrite wrap_small; [|unfold is_u; change (2 ^ 32) with 4294967296]; zdm.
  - change (253 <? 240) with false. change (253 <=? 252) with false.
    change (253 =? 253) with true. cbv iota.
    rewrite rbind_rshort by lia.
    unfold rbind, rat, rskip, rret, bin_at. simpl. rewrite ?drop_0, !Z.shiftl_mul_pow2 by lia.
    change (2 ^ 8) with 256. change (2 ^ 16) with 65536. change (2 ^ 24) with 16777216.
    f_equal; [|unfold bin_skip, reader; simpl; rewrite ?drop_0; f_equal; lia]. f_equal.
    unfold u32. rewrite wrap_small; [|unfold is_u; change (2 ^ 32) with 4294967296]; zdm.
  - change (254 <? 240) with false. change (254 <=? 252) with false.
    change (254 =? 253) with false. change (254 =? 254) with true. cbv iota.
    rewrite rbind_rshort by lia.
    unfold rbind, rat, rskip, rret, bin_at. simpl. rewrite ?drop_0, !Z.shiftl_mul_pow2 by lia.
    change (2 ^ 8) with 256. change (2 ^ 16) with 65536. change (2 ^ 24) with 16777216.
    f_equal; [|unfold bin_skip, reader; simpl; rewrite ?drop_0; f_equal; lia]. f_equal.
    unfold u32. rewrite wrap_small; [|unfold is_u; change (2 ^ 32) with 4294967296]; zdm.
  - change (255 <? 240) with false. change (255 <=? 252) with false.
    change (255 =? 253) with false. change (255 =? 254) with false. cbv iota.
    rewrite rbind_rshort by lia.
    unfold rbind, rat, rskip, bin_at. simpl. rewrite ?drop_0, !Z.shiftl_mul_pow2 by lia.
    change (2 ^ 8) with 256. change (2 ^ 16) with 65536. change (2 ^ 24) with 16777216.
    assert (Hv : u32 (l / 16777216 mod 256 * 16777216 + l / 65536 mod 256 * 65536
                      + l / 256 mod 256 * 256 + l mod 256) = l).
    { unfold u32. rewrite wrap_small; [|unfold is_u; change (2 ^ 32) with 4294967296]; zdm. }
    rewrite Hv. change MAXPACKETSIZE with 67108864. rewrite (proj2 (Z.ltb_ge _ _)) by lia.
    unfold rret, bin_skip, reader. simpl. rewrite ?drop_0. do 2 f_equal. lia.
Qed.

(** Decoding a length reads only what is there; the result is a 32-bit value. *)
Lemma decode_length_safe n m :
  rspec decode_length (avail n m) (fun l b => is_u 32 l /\ avail 0 (m - 1) b).
Proof.
  assert (U : forall x, is_u 32 (u32 x)) by (intros; apply wrap_range; lia).
  unfold decode_length. eapply rspec_bind; [apply rspec_empty|]. intros [|]; [by intros ? ?|].
  apply (rspec_strengthen _ (avail 1 m)); [intros b [_ H]; by apply H|].
  eapply rspec_bind; [by apply rspec_byte|]. intros l. apply rspec_pre. intros Hl.
  change (1 - 1) with 0.
  destruct (Z.ltb_spec l 240).
  { apply rspec_ret. intros b Hb. split; [unfold is_u in *; lia|exact Hb]. }
  destruct (Z.leb_spec l 252).
  { eapply rspec_bind; [apply rspec_empty|]. intros [|]; [by intros ? ?|].
    apply (rspec_strengthen _ (avail 1 (m - 1))); [intros b [_ H']; by apply H'|].
    eapply rspec_bind; [by apply rspec_byte|]. intros c. apply rspec_pre. intros Hc.
    apply rspec_ret. intros b [Hb Hb']. split; [apply U|]. split; [done|lia]. }
  assert (T : forall k (f : rd Z), 0 <= k ->
    rspec f (avail k (m - 1)) (fun l b => is_u 32 l /\ avail 0 (m - 1) b) ->
    rspec (do! s <- rshort k; if (s : bool) then rerr (- EC_BAD_SECTION_LENGTH) else f)
      (avail 0 (m - 1)) (fun l b => is_u 32 l /\ avail 0 (m - 1) b)).
  { intros k f Hk Hf. eapply rspec_bind; [apply rspec_short|]. intros [|]; [by intros ? ?|].
    eapply rspec_strengthen; [|apply Hf]. intros b [_ H'].
    specialize (H' eq_refl). rewrite Z.max_r in H' by lia. exact H'. }
  assert (S : forall k (f : rd Z) c,
    (forall b, avail 0 (m - 1 - Z.of_nat k) b -> match f b with (Ok l, b') => is_u 32 l /\ b' = b
        | (Err _, _) => True | (Fault, _) => False end) ->
    c = Z.of_nat k ->
    rspec (do! _ <- rskip k; f) (avail c (m - 1)) (fun l b => is_u 32 l /\ avail 0 (m - 1) b)).
  { intros k f c Hf ->. eapply rspec_bind; [apply rspec_skip; lia|]. intros _ b Hb.
    rewrite Z.sub_diag in Hb. specialize (Hf b Hb). destruct (f b) as [[l'| |] b']; try done.
    destruct Hf as [Hl' ->]. split; [done|]. destruct Hb as [? ?]. split; [done|lia]. }
  destruct (l =? 253); [|destruct (l =? 254)]; apply T; try lia;
    repeat (eapply rspec_bind; [by apply rspec_at|]; intros ?; apply rspec_pre; intros ?);
    apply S; try lia; intros b Hb; unfold rret, rerr; try (by split; [apply U|]).
  destruct (MAXPACKETSIZE <? _); [done|]. by split; [apply U|].
Qed.

End LengthFacts.


(** ** Values: what the decoder reads back *)
Module ValueFacts.
Import ReaderFacts LengthFacts.

Lemma s64_of_mod x y : x mod 2 ^ 64 = y mod 2 ^ 64 -> s64 x = s64 y.
Proof. intros E. unfold s64, swrap, wrap. by rewrite E. Qed.

Lemma s64_idem x k : s64 (s64 x * 256 + k) = s64 (x * 256 + k).
Proof.
  apply s64_of_mod. rewrite Z.add_mod, Z.mul_mod, (Z.add_mod (x * 256)), (Z.mul_mod x) by lia.
  assert (s64 x mod 2 ^ 64 = x mod 2 ^ 64) as ->; [|done].
  unfold s64, swrap, wrap. change (2 ^ 64) with 18446744073709551616.
  change (2 ^ (64 - 1)) with 9223372036854775808. bcase; zdm.
Qed.

Lemma lor_shiftl_8 s c : byte_ok c -> Z.lor (Z.shiftl s 8) c = s * 256 + c.
Proof.
  intros Hc. rewrite Z.shiftl_mul_pow2, Z.lor_comm, lor_above by (done || lia).
  change (2 ^ 8) with 256. lia.
Qed.

Lemma bin_at_lookup L bs i c : bs !! i = Some c -> bin_at (reader L bs) i = Ok c.
Proof. intros H. unfold bin_at, reader. simpl. by rewrite H. Qed.

(** The fall-through switch computes the big-endian value of the remaining bytes. *)
Lemma shift_in_spec L pre bs rest s :
  bytes_ok bs ->
  shift_in s (length bs) (length pre) (reader L (pre ++ bs ++ rest))
  = (Ok (match bs with [] => s | _ => s64 (s * 256 ^ Z.of_nat (length bs) + be_value bs) end),
     reader L (pre ++ bs ++ rest)).
Proof.
  intros Hbs. revert pre s; induction Hbs as [|c bs Hc Hbs IH]; intros pre s; [done|].
  simpl length. cbn [shift_in].
  assert (E : rat (length pre) (reader L (pre ++ (c :: bs) ++ rest))
              = (Ok c, reader L (pre ++ (c :: bs) ++ rest))).
  { unfold rat. rewrite (bin_at_lookup _ _ _ c); [done|]. by rewrite lookup_app_r, Nat.sub_diag by lia. }
  erewrite rbind_ok by exact E. rewrite lor_shiftl_8 by done.
  specialize (IH (pre ++ [c]) (s64 (s * 256 + c))).
  rewrite length_app, Nat.add_1_r, <-app_assoc in IH. simpl in IH. simpl. rewrite IH. f_equal. f_equal.
  change (c :: bs) with ([c] ++ bs). rewrite be_value_app, pow256_S.
  destruct bs as [|b bs]; [unfold be_value; simpl; f_equal; lia|].
  apply s64_of_mod. set (Q := 256 ^ _). set (B := be_value (b :: bs)).
  change (be_value [c]) with (c + 256 * 0).
  replace (s * (256 * Q) + ((c + 256 * 0) * Q + B)) with ((s * 256 + c) * Q + B) by ring.
  rewrite Z.add_mod, Z.mul_mod, (Z.add_mod ((s * 256 + c) * Q)), (Z.mul_mod (s * 256 + c)) by lia.
  assert (s64 (s * 256 + c) mod 2 ^ 64 = (s * 256 + c) mod 2 ^ 64) as ->; [|done].
  unfold s64, swrap, wrap. change (2 ^ 64) with 18446744073709551616.
  change (2 ^ (64 - 1)) with 9223372036854775808. bcase; zdm.
Qed.

Lemma take_le_bytes n m v : (n <= m)%nat -> take n (le_bytes m v) = le_bytes n v.
Proof.
  revert m v; induction n as [|n IH]; intros [|m] v H; simpl; try (done || lia).
  f_equal. apply IH. lia.
Qed.

Lemma int_bytes_spec s :
  is_s 64 s -> exists n : nat, int_bytes s = Z.of_nat (S n) /\ (n < 8)%nat /\
    - 128 * 256 ^ Z.of_nat n <= s < 128 * 256 ^ Z.of_nat n.
Proof.
  unfold is_s. change (2 ^ (64 - 1)) with 9223372036854775808. intros Hs. unfold int_bytes.
  bcases; try lia;
    match goal with |- exists n, ?k = _ /\ _ => exists (Z.to_nat k - 1)%nat end;
    (split; [done|]); (split; [vm_compute; lia|]);
    match goal with |- context [256 ^ ?e] => let r := eval vm_compute in (256 ^ e) in change (256 ^ e) with r end;
    lia.
Qed.

(** Sign extension of the leading byte gives the integer back. *)
Lemma sign_extend n s :
  - 128 * 256 ^ Z.of_nat n <= s < 128 * 256 ^ Z.of_nat n ->
  exists c bs, be_bytes (S n) s = c :: bs /\ length bs = n /\ byte_ok c /\ bytes_ok bs /\
    s8 c * 256 ^ Z.of_nat n + be_value bs = s.
Proof.
  intros Hs. pose proof (be_bytes_length (S n) s) as L. pose proof (be_bytes_ok (S n) s) as O.
  pose proof (be_value_bytes (S n) s) as V.
  destruct (be_bytes (S n) s) as [|c bs]; [done|]. exists c, bs.
  apply Forall_cons in O as [Oc Obs]. simpl in L. injection L as L.
  do 4 (split; [done|]). change (c :: bs) with ([c] ++ bs) in V. rewrite be_value_app, L in V.
  change (be_value [c]) with (c + 256 * 0) in V. pose proof (be_value_bound bs Obs) as B. rewrite L in B.
  rewrite pow256_S in V. set (Q := 256 ^ Z.of_nat n) in *.
  assert (HQ : 0 < Q) by (apply Z.pow_pos_nonneg; lia).
  unfold is_u in Oc. change (2 ^ 8) with 256 in Oc.
  unfold s8, swrap. rewrite wrap_small by done. change (2 ^ (8 - 1)) with 128. change (2 ^ 8) with 256.
  destruct (decide (0 <= s)).
  - rewrite (Z.mod_small s) in V by nia. bcase; nia.
  - replace (s mod (256 * Q)) with (s + 256 * Q) in V.
    + bcase; nia.
    + replace s with (s + 256 * Q + (-1) * (256 * Q)) at 2 by ring.
      rewrite Z_mod_plus_full, Z.mod_small; nia.
Qed.


(** *** The values that survive the wire *)
Section WithLibc.
Variable print_double : Z -> list Z.
Variable scan_double : list Z -> option Z.

(** The text of a double is what the decoder accepts: printable, of two to 39
    characters, and scanned (or recognised) back to the same bits. *)
Definition float_ok (u : Z) : Prop :=
  Forall (fun c => 0 < c < 256) (print_double u) /\
  (2 <= length (print_double u) < 40)%nat /\
  (print_double u = str_NAN -> u = 0x7FF8000000000000) /\
  (print_double u = str_INF -> u = 0x7FF0000000000000) /\
  (print_double u = str_NINF -> u = 0xFFF0000000000000) /\
  (print_double u <> str_NAN -> print_double u <> str_INF -> print_double u <> str_NINF ->
     scan_double (print_double u) = Some u).

Definition value_ok (type : Z) (v : DTCValue) : Prop :=
  match v with
  | DWord w => is_u 64 w /\
      (type = DField.Signed \/ type = DField.Unsigned \/ (type = DField.Float /\ float_ok w))
  | DBin b => (type = DField.String \/ type = DField.Binary) /\ bin_ok b /\ 0 <= b.(len) < MAXPACKETSIZE
  end.

(** Equality of values up to where strings are stored; a null string reads back as
    the empty one. *)
Definition same_value (v v' : DTCValue) : Prop :=
  match v, v' with
  | DWord w, DWord w' => w' = w
  | DBin b, DBin b' => string_of_bin b' = string_of_bin b /\ exists s, string_of_bin b = Ok s
  | _, _ => False
  end.

Lemma cstr_text txt rest : Forall (fun c => 0 < c < 256) txt -> cstr (txt ++ 0 :: rest) = txt.
Proof.
  induction 1 as [|c txt Hc _ IH]; [done|]. simpl. rewrite (proj2 (Z.eqb_neq _ _)) by lia. by f_equal.
Qed.

Lemma string_of_bin_ok b : bin_ok b -> 0 <= b.(len) -> exists s, string_of_bin b = Ok s /\ bytes_ok s /\ Z.of_nat (length s) = b.(len).
Proof.
  destruct b as [l [bs|]]; unfold bin_ok, string_of_bin; simpl; intros H Hl.
  - destruct H as [Hb H]. rewrite (proj2 (Z.leb_le _ _)), (proj2 (Z.leb_le _ _)) by lia. simpl.
    eexists. split; [done|]. split; [by apply Forall_take|]. rewrite length_take. lia.
  - assert (l = 0) as -> by lia. simpl. by exists [].
Qed.

Lemma bin_skip_cons L c bs n : bin_skip (S n) (reader L (c :: bs)) = bin_skip n (reader (L - 1) bs).
Proof. unfold bin_skip, reader. simpl. f_equal. lia. Qed.

(** A value decodes to what its body decodes to, and the reader moves past it. *)
Lemma decode_data_value_body type n body rest L v :
  n <= MAXPACKETSIZE -> n = Z.of_nat (length body) ->
  Z.of_nat (length (encode_length n)) + n <= L ->
  (forall L', n <= L' -> decode_body scan_double type n (reader L' (body ++ rest)) = (Ok v, reader L' (body ++ rest))) ->
  decode_data_value scan_double type (reader L ((encode_length n ++ body) ++ rest))
  = (Ok v, reader (L - Z.of_nat (length (encode_length n ++ body))) rest).
Proof.
  intros Hm Hn HL Hb. unfold decode_data_value. rewrite <-app_assoc.
  assert (Hu : is_u 32 n).
  { unfold is_u. change MAXPACKETSIZE with 67108864 in Hm. change (2 ^ 32) with 4294967296. lia. }
  erewrite rbind_ok by (apply decode_length_encode; [done..|lia]).
  rewrite rbind_rshort by lia. erewrite rbind_ok by (apply Hb; lia).
  rewrite Hn, Nat2Z.id. unfold rbind, rskip, rret. rewrite bin_skip_app. do 2 f_equal.
  rewrite length_app. lia.
Qed.

Lemma decode_int type w n bs rest L :
  type = DField.Signed \/ type = DField.Unsigned -> is_u 64 w -> n = int_bytes (s64 w) ->
  bs = rev (take (Z.to_nat n) (le_bytes 8 (u64 (s64 w)))) ->
  decode_body scan_double type n (reader L (bs ++ rest)) = (Ok (Some (DWord w)), reader L (bs ++ rest))
  /\ n = Z.of_nat (length bs) /\ n <= 8.
Proof.
  intros Ht Hw -> ->.
  assert (Hs : is_s 64 (s64 w)) by (apply swrap_range; lia).
  destruct (int_bytes_spec (s64 w) Hs) as (n & -> & Hn & Hr).
  rewrite Nat2Z.id, take_le_bytes by lia. fold (be_bytes (S n) (u64 (s64 w))).
  assert (be_bytes (S n) (u64 (s64 w)) = be_bytes (S n) (s64 w)) as ->.
  { unfold be_bytes. f_equal. assert (H : forall m k v, (m <= k)%nat ->
      le_bytes m (v mod 256 ^ Z.of_nat k) = le_bytes m v).
    { clear. intros m k v H. rewrite <-(take_le_bytes m k) by done. by rewrite le_bytes_mod, take_le_bytes. }
    apply (H (S n) 8%nat). lia. }
  destruct (sign_extend n _ Hr) as (c & bs & -> & Hl & Hc & Hbs & Hval). simpl length. rewrite Hl.
  split; [|split; [done|lia]].
  unfold decode_body. assert (type <> DField.None) by (unfold DField.Signed, DField.Unsigned, DField.None in *; lia).
  rewrite (proj2 (Z.eqb_neq _ _)) by done.
  assert (((type =? DField.Signed) || (type =? DField.Unsigned)) = true) as ->.
  { destruct Ht as [-> | ->]; done. }
  assert (((Z.of_nat (S n) =? 0) || (8 <? Z.of_nat (S n))) = false) as ->.
  { apply orb_false_iff. split; [apply Z.eqb_neq|apply Z.ltb_ge]; lia. }
  erewrite rbind_ok by reflexivity. rewrite Nat2Z.id. simpl (S n - 1)%nat. rewrite Nat.sub_0_r.
  pose proof (shift_in_spec L [c] bs rest (s8 c) Hbs) as E. rewrite Hl in E. simpl length in E.
  change ((c :: bs) ++ rest) with ([c] ++ bs ++ rest). erewrite rbind_ok by exact E.
  unfold rret. do 3 f_equal. unfold set_s64. f_equal.
  assert (match bs with [] => s8 c | _ => s64 (s8 c * 256 ^ Z.of_nat n + be_value bs) end = s64 w) as ->.
  { rewrite Hval. rewrite (swrap_small 64 (s64 w) ltac:(lia) Hs : s64 (s64 w) = _).
    destruct bs; [|done]. simpl in Hl. subst n. rewrite <-Hval. unfold be_value. simpl. lia. }
  unfold u64, s64, swrap. rewrite (wrap_small 64 w) by done. unfold is_u in Hw. unfold wrap.
  change (2 ^ 64) with 18446744073709551616 in *. change (2 ^ (64 - 1)) with 9223372036854775808. bcase; zdm.
Qed.

Lemma rat_last L txt c rest :
  rat (length txt) (reader L ((txt ++ [c]) ++ rest)) = (Ok c, reader L ((txt ++ [c]) ++ rest)).
Proof.
  unfold rat. rewrite (bin_at_lookup _ _ _ c); [done|].
  by rewrite <-app_assoc, lookup_app_r, Nat.sub_diag by lia.
Qed.

Lemma decode_float w rest L :
  is_u 64 w -> float_ok w ->
  decode_body scan_double DField.Float (Z.of_nat (length (print_double w)) + 1)
    (reader L ((print_double w ++ [0]) ++ rest))
  = (Ok (Some (DWord w)), reader L ((print_double w ++ [0]) ++ rest)).
Proof.
  intros Hw (Ht & Hl & Hnan & Hinf & Hninf & Hscan). unfold decode_body. cbn [Z.eqb Pos.eqb orb DField.Float DField.None DField.Signed DField.Unsigned].
  rewrite (proj2 (Z.ltb_ge _ _)) by lia. rewrite Z.add_simpl_r, Nat2Z.id.
  erewrite rbind_ok by apply rat_last. change (negb (0 =? 0)) with false. cbv iota.
  erewrite rbind_ok by reflexivity. cbv zeta.
  assert (cstr (mem_list (bytes (reader L ((print_double w ++ [0]) ++ rest)))) = print_double w) as ->.
  { unfold mem_list. simpl. rewrite <-app_assoc. by apply cstr_text. }
  assert (Hset : forall u, is_u 64 u -> set_u64 u = DWord u).
  { intros u Hu. unfold set_u64, u64. by rewrite wrap_small. }
  repeat case_bool_decide; unfold rret;
    [rewrite <-(Hnan H)|rewrite <-(Hinf H0)|rewrite <-(Hninf H1)|rewrite (Hscan H H0 H1)]; by rewrite Hset.
Qed.

Lemma decode_string type s rest L :
  type = DField.String \/ type = DField.Binary ->
  decode_body scan_double type (Z.of_nat (length s) + 1) (reader L ((s ++ [0]) ++ rest))
  = (Ok (Some (set_str (Some ((s ++ [0]) ++ rest)) (Z.of_nat (length s)))), reader L ((s ++ [0]) ++ rest)).
Proof.
  intros Ht. unfold decode_body.
  assert (H : type = 4 \/ type = 5) by exact Ht.
  destruct H as [-> | ->]; cbn [Z.eqb Pos.eqb orb DField.Float DField.None DField.Signed DField.Unsigned DField.String DField.Binary];
  (erewrite rbind_ok by reflexivity); cbn [bytes reader];
  rewrite (proj2 (Z.eqb_neq _ _)), Z.add_simpl_r, Nat2Z.id by lia;
  erewrite rbind_ok by apply rat_last; done.
Qed.

(** Encoding a value that survives succeeds. *)
Lemma encode_data_value_total type v :
  value_ok type v -> exists e, encode_data_value print_double v type = Ok e.
Proof.
  unfold encode_data_value. destruct v as [w|b]; simpl.
  - intros [_ [-> |[-> |[-> _]]]]; simpl; by eexists.
  - intros (Ht & Hb & Hl). destruct (string_of_bin_ok b Hb) as (s & E & _); [lia|]. rewrite E. simpl.
    destruct Ht as [-> | ->]; simpl; destruct (bytes b); by eexists.
Qed.

Lemma encode_small n : 0 <= n < 240 -> encode_length n = [n].
Proof.
  intros H. unfold encode_length. rewrite (proj2 (Z.ltb_lt _ _)) by lia.
  unfold u8. by rewrite wrap_small by (unfold is_u; change (2 ^ 8) with 256; lia).
Qed.

Lemma decode_encode_value type v e rest L :
  value_ok type v -> encode_data_value print_double v type = Ok e -> Z.of_nat (length e) <= L ->
  exists v', decode_data_value scan_double type (reader L (e ++ rest))
    = (Ok (Some v'), reader (L - Z.of_nat (length e)) rest) /\ same_value v v'.
Proof.
  assert (Hmax : MAXPACKETSIZE = 67108864) by done.
  destruct v as [w|b]; cbn [value_ok].
  - intros [Hw Ht] E HL. exists (DWord w). split; [|done].
    assert (Hcase : (type = DField.Signed \/ type = DField.Unsigned) \/ (type = DField.Float /\ float_ok w)) by tauto.
    destruct Hcase as [Hint|[-> Hf]].
    + unfold encode_data_value in E. rewrite (proj2 (Z.eqb_neq _ _)) in E
        by (unfold DField.Signed, DField.Unsigned, DField.None in *; lia).
      assert (((type =? DField.Signed) || (type =? DField.Unsigned)) = true) as Hb by (destruct Hint as [-> | ->]; done).
      rewrite Hb in E. simpl in E. injection E as <-.
      set (bs := rev _) in *.
      destruct (decode_int type w _ bs rest 0 Hint Hw eq_refl eq_refl) as (_ & Hlen & H8).
      set (n := int_bytes _) in *.
      assert (En : encode_length n = [n]) by (apply encode_small; lia).
      change (n :: bs) with ([n] ++ bs) in HL |- *. rewrite <-En in HL |- *.
      apply decode_data_value_body; [lia|done|rewrite length_app in HL; lia|].
      intros L' _. subst n. by apply decode_int.
    + pose proof Hf as (_ & Hl & _). unfold encode_data_value, double_text in E. simpl in E. unfold FLT_BUF in E.
      rewrite (proj2 (Z.leb_gt _ _)) in E by lia. injection E as <-.
      set (n := Z.of_nat (length (print_double w)) + 1) in *.
      assert (En : encode_length n = [u8 n]).
      { rewrite encode_small by lia. unfold u8. by rewrite wrap_small by (unfold is_u; change (2 ^ 8) with 256; lia). }
      change (u8 n :: print_double w ++ [0]) with ([u8 n] ++ (print_double w ++ [0])) in HL |- *. rewrite <-En in HL |- *.
      apply decode_data_value_body; [lia|rewrite length_app; simpl; lia|rewrite !length_app in HL; simpl in HL; lia|].
      intros L' _. by apply decode_float.
  - intros (Ht & Hb & Hl) E HL. destruct (string_of_bin_ok b Hb) as (s & Es & Hs & Hlen); [lia|].
    unfold encode_data_value in E.
    assert (Hne : type <> DField.None /\ ((type =? DField.Signed) || (type =? DField.Unsigned)) = false
      /\ (type =? DField.Float) = false /\ ((type =? DField.String) || (type =? DField.Binary)) = true).
    { destruct Ht as [-> | ->]; by vm_compute. }
    destruct Hne as (H0 & H1 & H2 & H3). rewrite (proj2 (Z.eqb_neq _ _) H0), H1, H2, H3 in E. cbn [val_bin obind] in E.
    destruct (bytes b) as [bs|] eqn:Ebs.
    + rewrite Es in E. cbn [obind] in E. injection E as <-.
      assert (Hu : u32 (len b + 1) = Z.of_nat (length s) + 1).
      { unfold u32. rewrite wrap_small by (unfold is_u; change (2 ^ 32) with 4294967296; lia). lia. }
      rewrite Hu in *. eexists. split.
      * apply (decode_data_value_body _ _ (s ++ [0])); [lia|rewrite length_app; simpl; lia|rewrite !length_app in *; simpl in *; lia|].
        intros L' _. by apply decode_string.
      * simpl. split; [|eauto]. rewrite Es. unfold string_of_bin. simpl.
        rewrite !length_app, (proj2 (Z.leb_le _ _)), (proj2 (Z.leb_le _ _)) by lia. simpl.
        rewrite Nat2Z.id, <-app_assoc, take_app_length. done.
    + injection E as <-. assert (Hz : len b = 0) by (unfold bin_ok in Hb; rewrite Ebs in Hb; lia).
      exists (set_str (Some (0 :: rest)) 0). split.
      * change ([0] ++ rest) with ((encode_length 0 ++ []) ++ rest).
        change (Z.of_nat (length [0])) with (Z.of_nat (length (encode_length 0 ++ []))).
        apply decode_data_value_body; [done|done|simpl in HL; simpl; lia|].
        intros L' _. unfold decode_body. rewrite (proj2 (Z.eqb_neq _ _) H0), H1, H2, H3. simpl. unfold rbind, rptr, rret. simpl.
        done.
      * simpl. split; [|eauto]. rewrite Es. unfold string_of_bin in *. rewrite Ebs, Hz in Es. simpl in Es. injection Es as <-. done.
Qed.

(** *** The length computed beforehand is the length written *)
Lemma encoded_bytes_value type v e :
  (forall b, v = DBin b -> bin_ok b /\ 0 <= b.(len) < 2 ^ 31 - 1) ->
  encode_data_value print_double v type = Ok e ->
  encoded_bytes_data_value print_double v type = Ok (Z.of_nat (length e)).
Proof.
  intros Hv. unfold encode_data_value, encoded_bytes_data_value.
  destruct (type =? DField.None); [by intros [= <-]|].
  destruct ((type =? DField.Signed) || (type =? DField.Unsigned)).
  { destruct v as [w|b]; [|done]. cbn [val_s64 obind]. intros <-%Ok_inj.
    assert (Hs : is_s 64 (s64 w)) by (apply swrap_range; lia).
    destruct (int_bytes_spec _ Hs) as (n & En & Hn & _).
    rewrite length_cons, length_rev, length_take, le_bytes_length, En, Nat2Z.id, Nat.min_l by lia.
    f_equal. rewrite Nat2Z.inj_succ, <-En. unfold int_bytes. by bcases. }
  destruct (type =? DField.Float).
  { destruct v as [w|b]; [|done]. simpl. unfold double_text, FLT_BUF. intros [= <-]. simpl length.
    rewrite length_app. destruct (Z.leb_spec 40 (Z.of_nat (length (print_double w)))); simpl length; f_equal; lia. }
  destruct ((type =? DField.String) || (type =? DField.Binary)); [|by intros [= <-]].
  destruct v as [w|b]; [done|]. cbn [val_bin obind]. destruct (Hv b eq_refl) as [Hb Hl].
  destruct (string_of_bin_ok b Hb) as (s & Es & _ & Hlen); [lia|].
  destruct (bytes b); [|by intros [= <-]]. rewrite Es. cbn [obind]. intros [= <-].
  rewrite !length_app, !Nat2Z.inj_add, encode_length_length. simpl length. f_equal. lia.
Qed.

(** *** Decoding never reads outside the packet *)
Lemma decode_body_safe type l m :
  0 <= l ->
  rspec (decode_body scan_double type l) (avail l m) (fun _ b => avail l m b).
Proof.
  intros Hl0.
  assert (Hat : forall (f : Z -> rd (option DTCValue)) i, Z.of_nat i < l ->
    (forall c, rspec (f c) (avail l m) (fun _ b => avail l m b)) ->
    rspec (rbind (rat i) f) (avail l m) (fun _ b => avail l m b)).
  { intros f i Hi Hf. eapply rspec_bind; [by apply rspec_at|]. intros c. apply rspec_pre. intros _. apply Hf. }
  assert (Hret : forall v, rspec (rret v : rd (option DTCValue)) (avail l m) (fun _ b => avail l m b)).
  { intros v. by apply rspec_ret. }
  assert (Hptr : forall f : option (list Z) -> rd (option DTCValue),
    (forall p, rspec (f p) (avail l m) (fun _ b => avail l m b)) ->
    rspec (rbind rptr f) (avail l m) (fun _ b => avail l m b)).
  { intros f Hf. eapply rspec_bind; [apply rspec_ptr|]. apply Hf. }
  assert (Hshift : forall n s i, Z.of_nat (i + n) <= l ->
    rspec (shift_in s n i) (avail l m) (fun _ b => avail l m b)).
  { induction n as [|n IH]; intros s i Hi; [by apply rspec_ret|]. cbn [shift_in].
    eapply rspec_bind; [apply rspec_at; lia|]. intros c. apply rspec_pre. intros _. apply IH. lia. }
  unfold decode_body. destruct (type =? DField.None); [apply Hret|].
  destruct (_ || _).
  { destruct (Z.eqb_spec l 0), (Z.ltb_spec 8 l); try done. cbn [orb].
    apply Hat; [lia|]. intros c. eapply rspec_bind; [apply Hshift; lia|]. intros v. apply Hret. }
  destruct (type =? DField.Float).
  { destruct (Z.ltb_spec l 3); [done|]. apply Hat; [lia|]. intros c. destruct (negb _); [done|].
    apply Hptr. intros p. cbv zeta. repeat case_match; (apply Hret || done). }
  destruct (_ || _); [|apply Hret]. apply Hptr. intros p. destruct (Z.eqb_spec l 0); [apply Hret|].
  apply Hat; [lia|]. intros c. destruct (negb _); [done|apply Hret].
Qed.

Lemma decode_data_value_safe type n m :
  rspec (decode_data_value scan_double type) (avail n m) (fun _ b => avail 0 (m - 1) b).
Proof.
  unfold decode_data_value. eapply rspec_bind; [apply decode_length_safe|]. intros l.
  apply rspec_pre. intros Hl. unfold is_u in Hl.
  eapply rspec_bind; [apply rspec_short|]. intros [|]; [done|].
  apply (rspec_strengthen _ (avail l (m - 1))).
  { intros b [_ H]. specialize (H eq_refl). by rewrite Z.max_r in H by lia. }
  eapply rspec_bind; [apply decode_body_safe; lia|]. intros v.
  eapply rspec_bind; [apply rspec_skip; lia|]. intros []. apply rspec_ret.
  intros b [Hb Hlen]. split; [done|lia].
Qed.

End WithLibc.
End ValueFacts.

(** ** Sections *)
Module SectionFacts.
Import ReaderFacts LengthFacts ValueFacts.

(** The tags past the static array have no type, so the decoder never stores them. *)
Definition def_ok (d : SectionDefinition) : Prop :=
  forall id, MAX_STATIC_SECTION <= id -> d.(tagType) id = DField.None.

(** The arrays of a section and its tag count agree with its mask. *)
Record section_ok (s : SimpleSection) : Prop := {
  so_len : length s.(tagValue) = Z.to_nat MAX_STATIC_SECTION;
  so_mask : forall id, id ∈ s.(fieldMask) -> 0 <= id < MAX_STATIC_SECTION;
  so_num : s.(numTags) = Z.of_nat (size s.(fieldMask))
}.

Definition section_type (s : SimpleSection) (kt i : Z) : Z := if i =? 0 then kt else tag_type s i.

Lemma section_ok_new d : section_ok (SimpleSection_new d).
Proof. split; simpl; [done|set_solver|done]. Qed.

Lemma mask_size (X : gset Z) : (forall id, id ∈ X -> 0 <= id < MAX_STATIC_SECTION) -> (size X <= 20)%nat.
Proof.
  intros H. transitivity (size (list_to_set (seqZ 0 20) : gset Z)).
  - apply subseteq_size. intros x Hx. apply elem_of_list_to_set, elem_of_seqZ. exact (H x Hx).
  - by vm_compute.
Qed.

Lemma put_tag_ok s id v :
  section_ok s -> 0 <= id < MAX_STATIC_SECTION -> id ∉ s.(fieldMask) ->
  exists s', put_tag s id v = Ok s' /\ section_ok s' /\ s'.(definition) = s.(definition) /\
    s'.(fieldMask) = {[id]} ∪ s.(fieldMask) /\
    s'.(tagValue) = match v with Some v => <[Z.to_nat id := v]> s.(tagValue) | None => s.(tagValue) end.
Proof.
  intros Hs Hid Hn. unfold put_tag. rewrite (proj2 (Z.leb_gt _ _)) by lia. eexists. split; [done|].
  split; [|done]. destruct Hs as [Hl Hm Hk]. pose proof (mask_size _ Hm). split; simpl.
  - destruct v; [by rewrite length_insert|done].
  - intros i [->%elem_of_singleton|Hi]%elem_of_union; [done|by apply Hm].
  - rewrite size_union, size_singleton, Hk by (by apply disjoint_singleton_l). unfold u8.
    rewrite wrap_small; [lia|]. unfold is_u. change (2 ^ 8) with 256. lia.
Qed.

Section WithLibc.
Variable print_double : Z -> list Z.
Variable scan_double : list Z -> option Z.

Lemma rempty_split {A} (f : bool -> rd A) m (Q : A -> DTCBinary -> Prop) :
  rspec (f true) (fun b => bin_empty b = true) Q ->
  (1 <= m -> rspec (f false) (avail 1 m) Q) ->
  rspec (rbind rempty f) (avail 0 m) Q.
Proof.
  intros Ht Hf b [Hb Hl]. unfold rbind, rempty. destruct (bin_empty b) eqn:E.
  - exact (Ht b E).
  - unfold bin_empty in E. apply Z.leb_gt in E. apply Hf; [lia|]. split; [done|lia].
Qed.

Lemma decode_section_loop_safe kt d fuel ss :
  def_ok d -> ss.(definition) = d -> section_ok ss ->
  rspec (decode_section_loop scan_double fuel ss.(fieldMask) ss kt) (avail 0 (Z.of_nat fuel))
    (fun ss' b => section_ok ss' /\ ss'.(definition) = d /\ bin_empty b = true).
Proof.
  intros Hd. revert ss; induction fuel as [|fuel IH]; intros ss Hss Hok; cbn [decode_section_loop];
    (apply rempty_split; [by apply rspec_ret|]); [lia|]. intros _.
  eapply rspec_bind; [by apply rspec_byte|]. intros id. apply rspec_pre. intros Hid.
  case_bool_decide as Hdup; [done|]. cbv zeta.
  replace (Z.of_nat (S fuel) - 1) with (Z.of_nat fuel) by lia.
  eapply rspec_bind; [apply decode_data_value_safe|]. intros v.
  apply (rspec_strengthen _ (avail 0 (Z.of_nat fuel))); [intros b [? ?]; split; [done|lia]|].
  destruct (Z.eqb_spec (if id =? 0 then kt else tag_type ss id) DField.None) as [|Hty]; cbn [negb]; [by apply IH|].
  assert (Hr : 0 <= id < MAX_STATIC_SECTION).
  { unfold is_u in Hid. destruct (decide (id < MAX_STATIC_SECTION)); [lia|]. exfalso. apply Hty.
    change MAX_STATIC_SECTION with 20 in *. rewrite (proj2 (Z.eqb_neq _ _)) by lia.
    unfold tag_type. rewrite Hss. apply Hd. change MAX_STATIC_SECTION with 20. lia. }
  destruct (put_tag_ok ss id v Hok Hr Hdup) as (ss' & -> & Hok' & Hd' & Hm & _).
  change (rbind (rlift (Ok ss')) ?f) with (f ss'). rewrite <-Hm. apply IH; [congruence|done].
Qed.


(** A section whose present tags survive the wire. *)
Definition section_encodable (s : SimpleSection) (kt : Z) : Prop :=
  0 <= s.(definition).(maxTags) < 256 /\
  forall id, id ∈ s.(fieldMask) -> 0 <= id < MAX_STATIC_SECTION /\ id <= s.(definition).(maxTags) /\
    exists v, s.(tagValue) !! Z.to_nat id = Some v /\ value_ok print_double scan_double (section_type s kt id) v.

Lemma value_ok_type type v : value_ok print_double scan_double type v -> type <> DField.None.
Proof.
  unfold DField.None. destruct v; simpl; unfold DField.Signed, DField.Unsigned, DField.Float, DField.String, DField.Binary; intuition lia.
Qed.

Lemma get_tag_absent s id : id ∉ s.(fieldMask) -> get_tag s id = None.
Proof.
  intros H. unfold get_tag, tag_present. destruct (_ <=? _); [done|]. by rewrite bool_decide_false.
Qed.

Lemma get_tag_present s id :
  id ∈ s.(fieldMask) -> 0 <= id < MAX_STATIC_SECTION -> get_tag s id = s.(tagValue) !! Z.to_nat id.
Proof.
  intros H Hr. unfold get_tag, tag_present. rewrite (proj2 (Z.leb_gt _ _)) by lia. by rewrite bool_decide_true.
Qed.

(** One round of the decoder over one encoded tag. *)
Lemma decode_round kt ss fuel id type v e rest L :
  0 <= id < MAX_STATIC_SECTION -> id ∉ ss.(fieldMask) -> section_type ss kt id = type ->
  value_ok print_double scan_double type v -> encode_data_value print_double v type = Ok e ->
  Z.of_nat (S (length e)) <= L -> section_ok ss ->
  exists ss' v', same_value v v' /\ section_ok ss' /\ ss'.(definition) = ss.(definition) /\
    ss'.(fieldMask) = {[id]} ∪ ss.(fieldMask) /\ ss'.(tagValue) = <[Z.to_nat id := v']> ss.(tagValue) /\
    decode_section_loop scan_double (S fuel) ss.(fieldMask) ss kt (reader L (id :: e ++ rest))
    = decode_section_loop scan_double fuel ss'.(fieldMask) ss' kt (reader (L - Z.of_nat (S (length e))) rest).
Proof.
  intros Hid Hn Ht Hv He HL Hok.
  destruct (decode_encode_value print_double scan_double type v e rest (L - 1) Hv He) as (v' & Hd & Hsame); [lia|].
  destruct (put_tag_ok ss id (Some v') Hok Hid Hn) as (ss' & Hp & Hok' & Hdef & Hm & Htv).
  exists ss', v'. do 5 (split; [done|]). cbn [decode_section_loop].
  rewrite rbind_rempty, rbind_rbyte by lia. rewrite bool_decide_false by done. cbv zeta.
  change (if id =? 0 then kt else tag_type ss id) with (section_type ss kt id). rewrite Ht.
  erewrite rbind_ok by exact Hd. rewrite (proj2 (Z.eqb_neq _ _)) by (by eapply value_ok_type). cbn [negb].
  rewrite Hp. change (rbind (rlift (Ok ss')) ?f) with (f ss'). rewrite <-Hm. do 2 f_equal. lia.
Qed.

Lemma decode_encoded_tags s kt ids e :
  section_encodable s kt -> NoDup ids -> encode_tags print_double s kt ids = Ok e ->
  forall fuel ss, (length e <= fuel)%nat -> ss.(definition) = s.(definition) -> section_ok ss ->
  (forall i, i ∈ ids -> i ∉ ss.(fieldMask)) ->
  exists ss', decode_section_loop scan_double fuel ss.(fieldMask) ss kt (reader (Z.of_nat (length e)) e)
      = (Ok ss', reader 0 []) /\ section_ok ss' /\
    (forall i, i ∈ ss'.(fieldMask) <-> i ∈ ss.(fieldMask) \/ (i ∈ ids /\ i ∈ s.(fieldMask))) /\
    (forall i, i ∈ ids -> i ∈ s.(fieldMask) -> exists v v', s.(tagValue) !! Z.to_nat i = Some v /\
       ss'.(tagValue) !! Z.to_nat i = Some v' /\ same_value v v') /\
    (forall i, 0 <= i -> i ∉ ids -> ss'.(tagValue) !! Z.to_nat i = ss.(tagValue) !! Z.to_nat i).
Proof.
  intros [Hmax Henc]. revert e; induction ids as [|i ids IH]; intros e Hnd; cbn [encode_tags].
  { intros <-%Ok_inj fuel ss _ _ Hok _. exists ss. split; [by destruct fuel|]. split; [done|]. set_solver +. }
  apply NoDup_cons in Hnd as [Hi Hnd].
  destruct (decide (i ∈ fieldMask s)) as [Hin|Hin].
  - destruct (Henc i Hin) as (Hr & Hle & v & Hv & Hok).
    unfold encode_tag at 1. rewrite get_tag_present, Hv by done.
    destruct (encode_data_value_total print_double scan_double _ v Hok) as [b Hb]. unfold section_type in Hb. rewrite Hb.
    cbn [obind]. destruct (encode_tags print_double s kt ids) as [r| |] eqn:Er; [|done..]. cbn [obind].
    intros <-%Ok_inj fuel ss Hf Hd Hss Hfresh.
    assert (u8 i = i) as ->.
    { unfold u8. apply wrap_small. unfold is_u. change (2 ^ 8) with 256. change MAX_STATIC_SECTION with 20 in Hr. lia. }
    destruct fuel as [|fuel]; [simpl in Hf; lia|]. rewrite length_app in Hf |- *. simpl length in Hf |- *.
    destruct (decode_round kt ss fuel i (section_type s kt i) v b r (Z.of_nat (S (length b) + length r)))
      as (s1 & v' & Hsame & Hok1 & Hd1 & Hm1 & Ht1 & Hrun); try (done || lia).
    { apply Hfresh. set_solver +. } { unfold section_type, tag_type. by rewrite Hd. }
    change ((i :: b) ++ r) with (i :: b ++ r). rewrite Hrun.
    replace (Z.of_nat (S (length b) + length r) - Z.of_nat (S (length b))) with (Z.of_nat (length r)) by lia.
    destruct (IH r Hnd eq_refl fuel s1) as (ss' & E & Hok' & HM & HV & HO); [lia|congruence|done| |].
    { intros j Hj. rewrite Hm1. assert (j <> i) by set_solver +Hj Hi. specialize (Hfresh j). set_solver +Hfresh Hj H. }
    exists ss'. do 2 (split; [done|]). split; [|split].
    + intros j. rewrite HM, Hm1. set_solver +Hin.
    + intros j Hj Hj'. destruct (decide (j = i)) as [->|Hne]; [|apply HV; set_solver +Hj Hj' Hne].
      exists v, v'. split; [done|]. split; [|done]. rewrite HO by (lia || done). rewrite Ht1.
      apply list_lookup_insert_eq. rewrite (so_len _ Hss). change MAX_STATIC_SECTION with 20 in *. lia.
    + intros j Hj Hj'. rewrite HO, Ht1 by (try done; set_solver +Hj'). assert (i <> j) by set_solver +Hj'. apply list_lookup_insert_ne. lia.
  - unfold encode_tag at 1. rewrite get_tag_absent by done. cbn [obind].
    destruct (encode_tags print_double s kt ids) as [r| |] eqn:Er; [|done..]. cbn [obind].
    intros <-%Ok_inj fuel ss Hf Hd Hss Hfresh. simpl in Hf |- *.
    destruct (IH r Hnd eq_refl fuel ss) as (ss' & E & Hok' & HM & HV & HO); [done..|set_solver +Hfresh|].
    exists ss'. do 2 (split; [done|]). split; [|split].
    + intros j. rewrite HM. set_solver +Hin.
    + intros j Hj Hj'. apply HV; set_solver +Hin Hj Hj'.
    + intros j Hj Hj'. apply HO; set_solver +Hj Hj'.
Qed.

Lemma encode_tags_total s kt ids :
  section_encodable s kt -> exists e, encode_tags print_double s kt ids = Ok e.
Proof.
  intros [_ Henc]. induction ids as [|i ids [r IH]]; [by eexists|]. cbn [encode_tags]. unfold encode_tag.
  destruct (decide (i ∈ fieldMask s)) as [Hin|Hin].
  - destruct (Henc i Hin) as (Hr & _ & v & Hv & Hok). rewrite get_tag_present, Hv by done.
    destruct (encode_data_value_total print_double scan_double _ v Hok) as [b Hb].
    unfold section_type in Hb. rewrite Hb, IH. by eexists.
  - rewrite get_tag_absent, IH by done. by eexists.
Qed.

Lemma encoded_bytes_tags_spec s kt ids e :
  section_encodable s kt -> encode_tags print_double s kt ids = Ok e ->
  encoded_bytes_tags print_double s kt ids = Ok (Z.of_nat (length e)).
Proof.
  intros Hs. revert e; induction ids as [|i ids IH]; intros e; cbn [encode_tags encoded_bytes_tags]; [by intros [= <-]|].
  unfold encode_tag. destruct (decide (i ∈ fieldMask s)) as [Hin|Hin].
  - destruct Hs as [_ Henc]. destruct (Henc i Hin) as (Hr & _ & v & Hv & Hok). rewrite get_tag_present, Hv by done.
    destruct (encode_data_value _ v _) as [b| |] eqn:Eb; [|done..]. cbn [obind].
    destruct (encode_tags print_double s kt ids) as [r| |]; [|done..]. cbn [obind]. intros <-%Ok_inj.
    assert (Hbb : forall bb, v = DBin bb -> bin_ok bb /\ 0 <= bb.(len) < 2 ^ 31 - 1).
    { intros bb ->. destruct Hok as (_ & ? & Hl). change MAXPACKETSIZE with 67108864 in Hl.
      change (2 ^ 31 - 1) with 2147483647. split; [done|lia]. }
    rewrite (encoded_bytes_value _ _ _ b Hbb Eb). cbn [obind]. rewrite (IH r eq_refl). cbn [obind]. f_equal. rewrite length_app. simpl length. lia.
  - rewrite get_tag_absent by done. cbn [obind].
    destruct (encode_tags print_double s kt ids) as [r| |]; [|done..]. cbn [obind]. intros <-%Ok_inj.
    by rewrite (IH r eq_refl).
Qed.

(** A section that is sent is the section received. *)
Lemma section_roundtrip s kt :
  def_ok s.(definition) -> section_encodable s kt ->
  exists e s', encode_simple_section print_double s kt = Ok e /\
    encoded_bytes_simple_section print_double s kt = Ok (Z.of_nat (length e)) /\
    decode_simple_section scan_double (SimpleSection_new s.(definition)) kt (reader (Z.of_nat (length e)) e)
    = (Ok s', reader 0 []) /\
    (forall id, tag_present s' id = tag_present s id) /\
    s'.(numTags) = Z.of_nat (size s.(fieldMask)) /\
    (forall id v, get_tag s id = Some v -> exists v', get_tag s' id = Some v' /\ same_value v v').
Proof.
  intros Hd Hs. destruct (encode_tags_total s kt (section_ids s) Hs) as [e He].
  destruct (decode_encoded_tags s kt (section_ids s) e Hs (NoDup_seqZ _ _) He (length e)
    (SimpleSection_new (definition s))) as (s' & E & Hok & HM & HV & _); [lia|done|apply section_ok_new|set_solver +|].
  exists e, s'. split; [done|]. split; [by eapply encoded_bytes_tags_spec|].
  split. { unfold decode_simple_section. simpl len. rewrite Nat2Z.id. exact E. }
  assert (Hids : forall id, id ∈ fieldMask s -> id ∈ section_ids s).
  { intros id Hid. destruct (proj2 Hs id Hid) as (? & ? & _). apply elem_of_seqZ. lia. }
  assert (Hmask : forall id, id ∈ fieldMask s' <-> id ∈ fieldMask s).
  { intros id. rewrite HM. simpl. specialize (Hids id). set_solver +Hids. }
  assert (HfM : fieldMask s' = fieldMask s) by (apply set_eq; exact Hmask).
  split; [intros id; unfold tag_present; by rewrite HfM|]. split; [rewrite (so_num _ Hok); by rewrite HfM|].
  intros id v Hv. destruct (decide (id ∈ fieldMask s)) as [Hid|Hid]; [|by rewrite get_tag_absent in Hv].
  destruct (proj2 Hs id Hid) as (Hr & _). rewrite get_tag_present in Hv |- * by (rewrite ?HfM; done).
  destruct (HV id (Hids id Hid) Hid) as (v0 & v' & Ev & Ev' & Hsame). exists v'. split; [done|]. congruence.
Qed.

End WithLibc.
End SectionFacts.

(** ** The properties of the encoding *)
Module CodecSpec.
Import ReaderFacts LengthFacts ValueFacts SectionFacts.

(** C8: every value that can be sent is read back, and its size is known
    beforehand. For an integer, a double whose text scans back, a string or a binary
    value within the packet limit, [encode_data_value] writes exactly as many bytes
    as [encoded_bytes_data_value] announces, and [decode_data_value] of these bytes,
    whatever follows them, returns the same value (a null string as the empty
    string) and leaves the reader behind them. *)
Theorem decode_encode_data_value print_double scan_double type v :
  value_ok print_double scan_double type v ->
  exists e, encode_data_value print_double v type = Ok e /\
    encoded_bytes_data_value print_double v type = Ok (Z.of_nat (length e)) /\
    forall L rest, Z.of_nat (length e) <= L -> exists v',
      decode_data_value scan_double type (reader L (e ++ rest))
      = (Ok (Some v'), reader (L - Z.of_nat (length e)) rest) /\ same_value v v'.
Proof.
  intros Hv. destruct (encode_data_value_total _ _ _ _ Hv) as [e He]. exists e. split; [done|]. split.
  - apply encoded_bytes_value; [|done]. intros b ->. destruct Hv as (_ & ? & Hl).
    change MAXPACKETSIZE with 67108864 in Hl. change (2 ^ 31 - 1) with 2147483647. split; [done|lia].
  - intros L rest HL. by apply (decode_encode_value print_double).
Qed.

(** The integer -2^40, which takes six bytes. *)
Lemma decode_encode_data_value_witness :
  exists e, encode_data_value (fun _ => []) (set_s64 (- 2 ^ 40)) DField.Signed = Ok e /\
    encoded_bytes_data_value (fun _ => []) (set_s64 (- 2 ^ 40)) DField.Signed = Ok (Z.of_nat (length e)) /\
    forall L rest, Z.of_nat (length e) <= L -> exists v',
      decode_data_value (fun _ => None) DField.Signed (reader L (e ++ rest))
      = (Ok (Some v'), reader (L - Z.of_nat (length e)) rest) /\ same_value (set_s64 (- 2 ^ 40)) v'.
Proof.
  apply (decode_encode_data_value (fun _ => []) (fun _ => None)).
  split; [by vm_compute|]. left. reflexivity.
Defined.

(** C11: decoding a section never reads outside the packet and always ends. Whatever
    the bytes, if the reader's memory holds the bytes its length promises and the
    definition gives no type to tags beyond the static array,
    [decode_simple_section] either returns one of the source's errors or a section
    whose mask, tag count and tags agree, with the whole reader consumed; the fuel
    of the loop (the length of the packet) is always enough. *)
Theorem decode_simple_section_safe scan_double d kt b :
  def_ok d -> bin_ok b ->
  match decode_simple_section scan_double (SimpleSection_new d) kt b with
  | (Ok s, b') => section_ok s /\ s.(definition) = d /\ bin_empty b' = true
  | (Err _, _) => True
  | (Fault, _) => False
  end.
Proof.
  intros Hd Hb. unfold decode_simple_section. destruct (decide (0 <= b.(len))).
  - apply (decode_section_loop_safe scan_double kt d _ (SimpleSection_new d) Hd eq_refl (section_ok_new d)).
    split; [done|lia].
  - destruct (Z.to_nat (len b)) eqn:E; [|lia]. simpl.
    assert (bin_empty b = true) as Hemp by (apply Z.leb_le; lia).
    unfold rbind, rempty. rewrite Hemp. simpl. split; [apply section_ok_new|done].
Qed.

(** A definition in the style of [task_const.cc]: tags 0 to 3. *)
Definition sample_def : SectionDefinition :=
  mkSectionDef 0 3 (fun id => if id =? 1 then DField.String else if id =? 2 then DField.Unsigned
    else if id =? 3 then DField.Signed else DField.None).

Lemma sample_def_ok : def_ok sample_def.
Proof.
  intros id H. change MAX_STATIC_SECTION with 20 in H. unfold sample_def; cbn [tagType].
  rewrite !(proj2 (Z.eqb_neq _ _)) by lia. done.
Qed.

(** A truncated string. *)
Lemma decode_simple_section_safe_witness :
  decode_simple_section (fun _ => None) (SimpleSection_new sample_def) 1 (mkBin 3 (Some [1; 5; 97]))
  = (Err (- EC_BAD_SECTION_LENGTH), mkBin 1 (Some [97])) /\
  match decode_simple_section (fun _ => None) (SimpleSection_new sample_def) 1 (mkBin 3 (Some [1; 5; 97])) with
  | (Ok s, b') => section_ok s /\ s.(definition) = sample_def /\ bin_empty b' = true
  | (Err _, _) => True
  | (Fault, _) => False
  end.
Proof.
  split; [by vm_compute|]. apply decode_simple_section_safe; [exact sample_def_ok|].
  split; [by repeat (constructor; [by vm_compute|])|by vm_compute].
Defined.

(** C15: a section that is sent is the section received. If the present tags of a
    section are typed, within the definition and sendable, [encode_simple_section]
    writes exactly the bytes [encoded_bytes_simple_section] announces, and decoding
    them into a fresh section of the same definition gives a section with the same
    present tags, the same count and the same values. *)
Theorem decode_encode_simple_section print_double scan_double s kt :
  def_ok s.(definition) -> section_encodable print_double scan_double s kt ->
  exists e s', encode_simple_section print_double s kt = Ok e /\
    encoded_bytes_simple_section print_double s kt = Ok (Z.of_nat (length e)) /\
    decode_simple_section scan_double (SimpleSection_new s.(definition)) kt (reader (Z.of_nat (length e)) e)
    = (Ok s', reader 0 []) /\
    (forall id, tag_present s' id = tag_present s id) /\
    s'.(numTags) = Z.of_nat (size s.(fieldMask)) /\
    (forall id v, get_tag s id = Some v -> exists v', get_tag s' id = Some v' /\ same_value v v').
Proof. exact (section_roundtrip print_double scan_double s kt). Qed.

(** A section with the key 7, a string and a negative number. *)
Definition sample_section : SimpleSection :=
  mkSection sample_def 3 (list_to_set [0; 1; 3])
    ([set_u64 7; set_str (Some [104; 105]) 2; empty_tag; set_s64 (-300)] ++ replicate 16 empty_tag).

Lemma sample_section_ok : section_encodable (fun _ => []) (fun _ => None) sample_section DField.Unsigned.
Proof.
  split; [by vm_compute|]. intros id Hid. assert (H : id = 0 \/ id = 1 \/ id = 3) by set_solver.
  destruct H as [-> |[-> | ->]]; (split; [by vm_compute|]); (split; [by vm_compute|]);
    eexists; (split; [reflexivity|]).
  - split; [by vm_compute|right; left; reflexivity].
  - split; [left; reflexivity|]. split; [|by vm_compute].
    split; [by repeat (constructor; [by vm_compute|])|by vm_compute].
  - split; [by vm_compute|left; reflexivity].
Qed.

Lemma decode_encode_simple_section_witness :
  exists e s', encode_simple_section (fun _ => []) sample_section DField.Unsigned = Ok e /\
    encoded_bytes_simple_section (fun _ => []) sample_section DField.Unsigned = Ok (Z.of_nat (length e)) /\
    decode_simple_section (fun _ => None) (SimpleSection_new sample_def) DField.Unsigned (reader (Z.of_nat (length e)) e)
    = (Ok s', reader 0 []) /\
    (forall id, tag_present s' id = tag_present sample_section id) /\
    s'.(numTags) = Z.of_nat (size sample_section.(fieldMask)) /\
    (forall id v, get_tag sample_section id = Some v -> exists v', get_tag s' id = Some v' /\ same_value v v').
Proof.
  exact (decode_encode_simple_section (fun _ => []) (fun _ => None) sample_section DField.Unsigned
    sample_def_ok sample_section_ok).
Defined.

(** A repeated tag is an error. After a tag of the section, the same tag again is
    answered with [EC_DUPLICATE_TAG], whatever its value. *)
Theorem decode_duplicate_tag print_double scan_double d kt id v e L rest :
  def_ok d -> 0 <= id < MAX_STATIC_SECTION ->
  value_ok print_double scan_double (if id =? 0 then kt else d.(tagType) id) v ->
  encode_data_value print_double v (if id =? 0 then kt else d.(tagType) id) = Ok e ->
  Z.of_nat (length e) + 1 < L ->
  exists b', decode_simple_section scan_double (SimpleSection_new d) kt (reader L (id :: e ++ id :: rest))
    = (Err (- EC_DUPLICATE_TAG), b').
Proof.
  intros Hd Hid Hv He HL. unfold decode_simple_section. cbn [len reader].
  destruct (Z.to_nat L) as [|[|fuel]] eqn:EL; [lia|lia|].
  destruct (decode_round print_double scan_double kt (SimpleSection_new d) (S fuel) id (section_type (SimpleSection_new d) kt id) v e (id :: rest) L)
    as (ss & v' & _ & Hok & _ & Hm & _ & Hrun); [done|apply not_elem_of_empty|done|done|done|lia|apply section_ok_new|].
  change (∅ : gset Z) with (fieldMask (SimpleSection_new d)). rewrite Hrun.
  eexists. cbn [decode_section_loop]. rewrite rbind_rempty, rbind_rbyte by lia.
  rewrite bool_decide_true by (rewrite Hm; set_solver +). reflexivity.
Qed.

Lemma decode_duplicate_tag_witness :
  exists b', decode_simple_section (fun _ => None) (SimpleSection_new sample_def) 1 (reader 9 ([2; 1; 5] ++ [2; 1; 9]))
    = (Err (- EC_DUPLICATE_TAG), b').
Proof.
  apply (decode_duplicate_tag (fun _ => []) (fun _ => None) sample_def 1 2 (set_u64 5) [1; 5] 9 [1; 9]).
  - exact sample_def_ok.
  - by vm_compute.
  - split; [by vm_compute|right; left; reflexivity].
  - by vm_compute.
  - by vm_compute.
Defined.
End CodecSpec.
