(* ===== verification/Md5.v ===== *)
(** MD5: [common/md5.c], which signs the packed table definitions.

    The context is the record of the source; [MD5Update] takes the [unsigned] length
    from the list. The block transform is given as the table of the 64 [MD5STEP]
    lines: from one line to the next the source rotates the names of its registers,
    here the values rotate. *)
From Stdlib Require Import ZArith Lia.
From stdpp Require Import base list numbers.
From S2P Require Import Prelude.
Local Open Scope Z_scope.

(** ** The transform *)

Definition F1 (x y z : Z) : Z := Z.lxor z (Z.land x (Z.lxor y z)).
Definition F2 (x y z : Z) : Z := F1 z x y.
Definition F3 (x y z : Z) : Z := Z.lxor (Z.lxor x y) z.
Definition F4 (x y z : Z) : Z := Z.lxor y (Z.lor x (u32 (Z.lnot z))).

(** [w << s | w >> (32 - s)] on 32 bits. *)
Definition rotl (w s : Z) : Z := Z.lor (u32 (Z.shiftl w s)) (Z.shiftr w (32 - s)).

Definition MD5STEP (f : Z -> Z -> Z -> Z) (w x y z data s : Z) : Z :=
  let w := u32 (w + u32 (f x y z + data)) in
  let w := rotl w s in
  u32 (w + x).

(** The 64 lines of [MD5Transform]: function, word, constant, shift. *)
Definition md5_steps : list ((Z -> Z -> Z -> Z) * nat * Z * Z) :=
  [(F1, 0%nat, 0xd76aa478, 7); (F1, 1%nat, 0xe8c7b756, 12);
   (F1, 2%nat, 0x242070db, 17); (F1, 3%nat, 0xc1bdceee, 22);
   (F1, 4%nat, 0xf57c0faf, 7); (F1, 5%nat, 0x4787c62a, 12);
   (F1, 6%nat, 0xa8304613, 17); (F1, 7%nat, 0xfd469501, 22);
   (F1, 8%nat, 0x698098d8, 7); (F1, 9%nat, 0x8b44f7af, 12);
   (F1, 10%nat, 0xffff5bb1, 17); (F1, 11%nat, 0x895cd7be, 22);
   (F1, 12%nat, 0x6b901122, 7); (F1, 13%nat, 0xfd987193, 12);
   (F1, 14%nat, 0xa679438e, 17); (F1, 15%nat, 0x49b40821, 22);
   (F2, 1%nat, 0xf61e2562, 5); (F2, 6%nat, 0xc040b340, 9);
   (F2, 11%nat, 0x265e5a51, 14); (F2, 0%nat, 0xe9b6c7aa, 20);
   (F2, 5%nat, 0xd62f105d, 5); (F2, 10%nat, 0x02441453, 9);
   (F2, 15%nat, 0xd8a1e681, 14); (F2, 4%nat, 0xe7d3fbc8, 20);
   (F2, 9%nat, 0x21e1cde6, 5); (F2, 14%nat, 0xc33707d6, 9);
   (F2, 3%nat, 0xf4d50d87, 14); (F2, 8%nat, 0x455a14ed, 20);
   (F2, 13%nat, 0xa9e3e905, 5); (F2, 2%nat, 0xfcefa3f8, 9);
   (F2, 7%nat, 0x676f02d9, 14); (F2, 12%nat, 0x8d2a4c8a, 20);
   (F3, 5%nat, 0xfffa3942, 4); (F3, 8%nat, 0x8771f681, 11);
   (F3, 11%nat, 0x6d9d6122, 16); (F3, 14%nat, 0xfde5380c, 23);
   (F3, 1%nat, 0xa4beea44, 4); (F3, 4%nat, 0x4bdecfa9, 11);
   (F3, 7%nat, 0xf6bb4b60, 16); (F3, 10%nat, 0xbebfbc70, 23);
   (F3, 13%nat, 0x289b7ec6, 4); (F3, 0%nat, 0xeaa127fa, 11);
   (F3, 3%nat, 0xd4ef3085, 16); (F3, 6%nat, 0x04881d05, 23);
   (F3, 9%nat, 0xd9d4d039, 4); (F3, 12%nat, 0xe6db99e5, 11);
   (F3, 15%nat, 0x1fa27cf8, 16); (F3, 2%nat, 0xc4ac5665, 23);
   (F4, 0%nat, 0xf4292244, 6); (F4, 7%nat, 0x432aff97, 10);
   (F4, 14%nat, 0xab9423a7, 15); (F4, 5%nat, 0xfc93a039, 21);
   (F4, 12%nat, 0x655b59c3, 6); (F4, 3%nat, 0x8f0ccc92, 10);
   (F4, 10%nat, 0xffeff47d, 15); (F4, 1%nat, 0x85845dd1, 21);
   (F4, 8%nat, 0x6fa87e4f, 6); (F4, 15%nat, 0xfe2ce6e0, 10);
   (F4, 6%nat, 0xa3014314, 15); (F4, 13%nat, 0x4e0811a1, 21);
   (F4, 4%nat, 0xf7537e82, 6); (F4, 11%nat, 0xbd3af235, 10);
   (F4, 2%nat, 0x2ad7d2bb, 15); (F4, 9%nat, 0xeb86d391, 21)].

(** [((uint32_t * )in)[i]] on the little-endian targets of the build. *)
Definition in_word (inp : list Z) (i : nat) : Z := le_value (take 4 (drop (4 * i) inp)).

Definition md5_regs : Type := Z * Z * Z * Z.

Definition md5_step (inp : list Z) (r : md5_regs) (st : (Z -> Z -> Z -> Z) * nat * Z * Z) : md5_regs :=
  let '(a, b, c, d) := r in
  let '(f, i, k, s) := st in
  (d, MD5STEP f a b c d (u32 (in_word inp i + k)) s, b, c).

Definition MD5Transform (buf : md5_regs) (inp : list Z) : md5_regs :=
  let '(a, b, c, d) := fold_left (md5_step inp) md5_steps buf in
  let '(b0, b1, b2, b3) := buf in
  (u32 (b0 + a), u32 (b1 + b), u32 (b2 + c), u32 (b3 + d)).

(** ** The context *)
Record MD5Context := mkMD5 {
  buf : md5_regs;
  bits0 : Z;
  bits1 : Z;
  inp : list Z       (** [in[64]] *)
}.

(** [MD5Init]; [in] keeps what it held. *)
Definition MD5Init (ctx : MD5Context) : MD5Context :=
  mkMD5 (0x67452301, 0xefcdab89, 0x98badcfe, 0x10325476) 0 0 ctx.(inp).

(** [memcpy(in + at, src, n)] *)
Definition copy_in (inp : list Z) (at_ : nat) (src : list Z) : list Z :=
  take at_ inp ++ src ++ drop (at_ + length src) inp.

(** The loop over whole 64-byte chunks and the copy of the remaining bytes. *)
Fixpoint md5_chunks (fuel : nat) (buf : md5_regs) (inp : list Z) (src : list Z) : md5_regs * list Z :=
  match fuel with
  | O => (buf, copy_in inp 0 src)
  | S fuel =>
    if 64 <=? Z.of_nat (length src) then
      let inp := copy_in inp 0 (take 64 src) in
      md5_chunks fuel (MD5Transform buf inp) inp (drop 64 src)
    else (buf, copy_in inp 0 src)
  end.

Definition MD5Update (ctx : MD5Context) (src : list Z) : MD5Context :=
  let len := Z.of_nat (length src) in
  let t := ctx.(bits0) in
  let b0 := u32 (t + u32 (Z.shiftl len 3)) in
  let b1 := if b0 <? t then u32 (ctx.(bits1) + 1) else ctx.(bits1) in
  let b1 := u32 (b1 + Z.shiftr len 29) in
  let t := Z.land (Z.shiftr t 3) 0x3f in
  if negb (t =? 0) then
    let n := 64 - t in
    if len <? n then mkMD5 ctx.(buf) b0 b1 (copy_in ctx.(inp) (Z.to_nat t) src)
    else
      let inp := copy_in ctx.(inp) (Z.to_nat t) (take (Z.to_nat n) src) in
      let '(bf, inp) := md5_chunks (length src) (MD5Transform ctx.(buf) inp) inp (drop (Z.to_nat n) src) in
      mkMD5 bf b0 b1 inp
  else
    let '(bf, inp) := md5_chunks (length src) ctx.(buf) ctx.(inp) src in
    mkMD5 bf b0 b1 inp.

(** The digest, and the context after it. [memset(ctx, 0, sizeof(ctx))] clears as
    many bytes as a pointer has: the first two words. *)
Definition MD5Final (ctx : MD5Context) : list Z * MD5Context :=
  let count := Z.land (Z.shiftr ctx.(bits0) 3) 0x3F in
  let inp := copy_in ctx.(inp) (Z.to_nat count) [0x80] in
  let p := S (Z.to_nat count) in
  let count := 64 - 1 - count in
  let '(bf, inp) :=
    if count <? 8 then
      let inp := copy_in inp p (replicate (Z.to_nat count) 0) in
      (MD5Transform ctx.(buf) inp, copy_in inp 0 (replicate 56 0))
    else (ctx.(buf), copy_in inp p (replicate (Z.to_nat (count - 8)) 0)) in
  let inp := copy_in inp 56 (le_bytes 4 ctx.(bits0)) in
  let inp := copy_in inp 60 (le_bytes 4 ctx.(bits1)) in
  let '(a, b, c, d) := MD5Transform bf inp in
  (le_bytes 4 a ++ le_bytes 4 b ++ le_bytes 4 c ++ le_bytes 4 d,
   mkMD5 (0, 0, c, d) ctx.(bits0) ctx.(bits1) inp).

(** ** Reference definition (RFC 1321)

    Written from the RFC, with its own additions, rotations, words and constants; it
    shares nothing with the transform above but the byte images of integers. *)
Module Rfc.

(** 2: addition modulo 2^32, and [X <<< s], the rotation to the left. *)
Definition plus (x y : Z) : Z := (x + y) mod 2 ^ 32.
Definition rotate (x s : Z) : Z := (x * 2 ^ s) mod 2 ^ 32 + x / 2 ^ (32 - s).
Definition not (x : Z) : Z := (2 ^ 32 - 1 - x) mod 2 ^ 32.

(** 3.4: the auxiliary functions. *)
Definition F (x y z : Z) : Z := Z.lor (Z.land x y) (Z.land (Z.lnot x) z).
Definition G (x y z : Z) : Z := Z.lor (Z.land x z) (Z.land y (Z.lnot z)).
Definition H (x y z : Z) : Z := Z.lxor (Z.lxor x y) z.
Definition I (x y z : Z) : Z := Z.lxor y (Z.lor x (not z)).

(** Function, word and shift of step [i], from 0. *)
Definition fn (i : nat) : Z -> Z -> Z -> Z := nth (i / 16) [F; G; H; I] F.
Definition word (i : nat) : nat :=
  (nth (i / 16) [i; 5 * i + 1; 3 * i + 5; 7 * i] i mod 16)%nat.
Definition shift (i : nat) : Z :=
  nth (i mod 4) (nth (i / 16) [[7; 12; 17; 22]; [5; 9; 14; 20]; [4; 11; 16; 23]; [6; 10; 15; 21]] []) 0.

(** [T[i]]: the integer part of 4294967296 times [abs(sin(i))], [i] in radians, from 1.
    The sine is summed from its series, in units of [2^-256]; 160 terms are far more than
    64 radians need, and no fractional part of the 64 products is within [2^-7] of 0 or 1. *)
Fixpoint sine (terms : nat) (k x term : Z) : Z :=
  match terms with
  | O => 0
  | S terms => term - sine terms (k + 2) x (term * x * x / ((k + 1) * (k + 2)))
  end.
Definition T (i : Z) : Z := 4294967296 * Z.abs (sine 160 1 i (i * 2 ^ 256)) / 2 ^ 256.

(** [X[k]]: the [k]th word of a block, low byte first. *)
Definition X (M : list Z) (k : nat) : Z :=
  nth (4 * k) M 0 + 2 ^ 8 * nth (4 * k + 1) M 0 + 2 ^ 16 * nth (4 * k + 2) M 0 + 2 ^ 24 * nth (4 * k + 3) M 0.

(** [a = b + ((a + F(b,c,d) + X[k] + T[i]) <<< s)], and the registers move on. *)
Definition round (M : list Z) (r : md5_regs) (i : nat) : md5_regs :=
  let '(a, b, c, d) := r in
  (d, plus b (rotate (plus (plus (plus a (fn i b c d)) (X M (word i))) (T (Z.of_nat i + 1))) (shift i)), b, c).

Definition compress (st : md5_regs) (M : list Z) : md5_regs :=
  let '(a, b, c, d) := fold_left (round M) (seq 0 64) st in
  let '(a0, b0, c0, d0) := st in
  (plus a0 a, plus b0 b, plus c0 c, plus d0 d).

(** The [n] first 64-byte blocks of a message. *)
Fixpoint blocks (n : nat) (m : list Z) : list (list Z) :=
  match n with
  | O => []
  | S n => take 64 m :: blocks n (drop 64 m)
  end.

(** Padding: one 1 bit, zeros up to 56 modulo 64, the length in bits. *)
Definition pad (m : list Z) : list Z :=
  let n := Z.of_nat (length m) in
  m ++ [0x80] ++ replicate (Z.to_nat ((55 - n) mod 64)) 0 ++ le_bytes 8 (8 * n).

Definition init : md5_regs := (0x67452301, 0xefcdab89, 0x98badcfe, 0x10325476).

Definition digest (r : md5_regs) : list Z :=
  let '(a, b, c, d) := r in le_bytes 4 a ++ le_bytes 4 b ++ le_bytes 4 c ++ le_bytes 4 d.

Definition md5 (m : list Z) : list Z :=
  digest (fold_left compress (blocks (length (pad m) / 64) (pad m)) init).

End Rfc.

(** RFC 1321, A.5: the digests of the empty string and of "abc". *)
Example md5_empty : be_value (Rfc.md5 []) = 0xd41d8cd98f00b204e9800998ecf8427e.
Proof. vm_compute. reflexivity. Qed.
Example md5_abc : be_value (Rfc.md5 [97; 98; 99]) = 0x900150983cd24fb0d6963f7d28e17f72.
Proof. vm_compute. reflexivity. Qed.

(** ** The transform is the reference compression *)
Module Md5Facts.

Ltac bitwise :=
  apply Z.bits_inj'; intros;
  rewrite ?Z.lxor_spec, ?Z.lor_spec, ?Z.land_spec, ?Z.lxor_spec, ?Z.lnot_spec by lia;
  repeat match goal with |- context [Z.testbit ?x ?n] => destruct (Z.testbit x n) end; reflexivity.

Lemma F1_F x y z : F1 x y z = Rfc.F x y z.
Proof. unfold F1, Rfc.F. bitwise. Qed.

Lemma F2_G x y z : F2 x y z = Rfc.G x y z.
Proof. unfold F2, F1, Rfc.G. bitwise. Qed.

Lemma F4_I x y z : F4 x y z = Rfc.I x y z.
Proof.
  unfold F4, Rfc.I, Rfc.not. do 2 f_equal. unfold u32, wrap. replace (2 ^ 32 - 1 - z) with (Z.lnot z + 1 * 2 ^ 32) by (unfold Z.lnot; lia).
  by rewrite Z_mod_plus_full.
Qed.

Lemma rotl_rotate x s : 0 <= x < 2 ^ 32 -> 0 <= s <= 32 -> rotl x s = Rfc.rotate x s.
Proof.
  intros Hx Hs. unfold rotl, Rfc.rotate, u32, wrap. rewrite Z.shiftl_mul_pow2, Z.shiftr_div_pow2 by lia.
  assert (E : Z.land ((x * 2 ^ s) mod 2 ^ 32) (x / 2 ^ (32 - s)) = 0).
  { apply Z.bits_inj'. intros n Hn. rewrite Z.land_spec, Z.bits_0. destruct (Z.ltb_spec n s).
    - rewrite Z.mod_pow2_bits_low by lia. by rewrite Z.mul_pow2_bits_low.
    - rewrite Z.div_pow2_bits by lia. rewrite (testbit_above 32 x) by lia. apply andb_false_r. }
  by rewrite <-Z.lxor_lor, <-Z.add_nocarry_lxor.
Qed.
Lemma in_word_X M k : in_word M k = Rfc.X M k.
Proof.
  unfold in_word, Rfc.X. assert (E : forall j, nth (4 * k + j) M 0 = nth j (drop (4 * k) M) 0) by (intros j; by rewrite nth_skipn).
  pose proof (E 0%nat) as E0. rewrite Nat.add_0_r in E0. rewrite E0, !E. destruct (drop (4 * k) M) as [|a [|b [|c [|d l]]]]; cbn [nth]; unfold take; cbn [firstn le_value]; lia.
Qed.
Lemma plus_u32 x y k t : u32 (x + u32 (y + u32 (k + t))) = Rfc.plus (Rfc.plus (Rfc.plus x y) k) t.
Proof. unfold Rfc.plus, u32, wrap. rewrite !Zplus_mod_idemp_l, <-Z.add_assoc, Zplus_mod_idemp_l, Zplus_mod_idemp_r, Z.add_assoc, Zplus_mod_idemp_r. by rewrite <-Z.add_assoc. Qed.

Lemma md5_step_round M r i f k s t :
  (forall x y z, f x y z = Rfc.fn i x y z) -> k = Rfc.word i -> s = Rfc.shift i -> t = Rfc.T (Z.of_nat i + 1) -> 0 <= s <= 32 ->
  md5_step M r (f, k, t, s) = Rfc.round M r i.
Proof.
  intros Hf -> -> -> Hs. destruct r as [[[a b] c] d]. unfold md5_step, Rfc.round, MD5STEP.
  rewrite Hf, plus_u32, in_word_X, rotl_rotate by (done || (apply Z.mod_pos_bound; lia)).
  do 3 f_equal. unfold Rfc.plus at 4, u32, wrap. by rewrite Z.add_comm.
Qed.

Lemma md5_steps_rounds M :
  Forall2 (fun st i => forall r, md5_step M r st = Rfc.round M r i) md5_steps (seq 0 64).
Proof.
  unfold md5_steps. cbn [seq].
  repeat (apply Forall2_cons_2; [intros r; apply md5_step_round; [first [apply F1_F|apply F2_G|apply F4_I|reflexivity]|reflexivity|reflexivity|vm_compute; reflexivity|lia]|]).
  constructor.
Qed.

Lemma fold_left_Forall2 {A B C} (f : A -> B -> A) (g : A -> C -> A) l k a :
  Forall2 (fun x y => forall r, f r x = g r y) l k -> fold_left f l a = fold_left g k a.
Proof. intros H. revert a; induction H as [|x y l k E _ IH]; intros a; [done|]. simpl. by rewrite E, IH. Qed.

Lemma MD5Transform_compress st M : MD5Transform st M = Rfc.compress st M.
Proof.
  unfold MD5Transform, Rfc.compress. rewrite (fold_left_Forall2 _ (Rfc.round M) _ (seq 0 64)); [done|].
  apply md5_steps_rounds.
Qed.

(** ** Streaming *)

Lemma blocks_app n k x y :
  length x = (64 * n)%nat -> Rfc.blocks (n + k) (x ++ y) = Rfc.blocks n x ++ Rfc.blocks k y.
Proof.
  revert x; induction n as [|n IH]; intros x Hx.
  - assert (x = []) as -> by (apply length_zero_iff_nil; lia). done.
  - simpl. rewrite take_app_le, drop_app_le by lia. f_equal. apply IH. rewrite length_drop. lia.
Qed.

Lemma copy_in_length i a s : (a + length s <= length i)%nat -> length (copy_in i a s) = length i.
Proof. intros H. unfold copy_in. rewrite !length_app, length_take, length_drop. lia. Qed.

Lemma copy_in_take i a s : (a + length s <= length i)%nat -> take (a + length s) (copy_in i a s) = take a i ++ s.
Proof.
  intros H. unfold copy_in. rewrite app_assoc. rewrite take_app_le by (rewrite length_app, length_take; lia).
  apply take_ge. rewrite length_app, length_take. lia.
Qed.

Lemma copy_in_all i s : length s = length i -> copy_in i 0 s = s.
Proof. intros H. unfold copy_in. simpl. rewrite H, drop_all. by rewrite app_nil_r. Qed.

Lemma copy_in_full i a s : (a + length s = length i)%nat -> copy_in i a s = take a i ++ s.
Proof. intros H. unfold copy_in. rewrite H, drop_all. by rewrite app_nil_r. Qed.

Lemma md5_chunks_spec fuel bf i src :
  (length src <= fuel)%nat -> length i = 64%nat ->
  exists k full tail i', md5_chunks fuel bf i src = (fold_left MD5Transform (Rfc.blocks k full) bf, i') /\
    src = full ++ tail /\ length full = (64 * k)%nat /\ (length tail < 64)%nat /\
    length i' = 64%nat /\ take (length tail) i' = tail.
Proof.
  revert bf i src; induction fuel as [|fuel IH]; intros bf i src Hf Hi.
  { exists 0%nat, [], src, (copy_in i 0 src). do 3 (split; [done|]). split; [lia|].
    split; [rewrite copy_in_length; lia|]. apply (copy_in_take i 0). lia. }
  simpl. destruct (Z.leb_spec 64 (Z.of_nat (length src))).
  - assert (L : length (take 64 src) = 64%nat) by (rewrite length_take; lia).
    rewrite copy_in_all by (by rewrite L, Hi).
    destruct (IH (MD5Transform bf (take 64 src)) (take 64 src) (drop 64 src)) as (k & full & tail & i' & E & Es & Hk & Ht & Hi' & Htl);
      [rewrite length_drop; lia|done|].
    exists (S k), (take 64 src ++ full), tail, i'. rewrite E. split.
    { f_equal. simpl. rewrite take_app_length', drop_app_length' by done. done. }
    split; [by rewrite <-app_assoc, <-Es, take_drop|]. rewrite length_app, L, Hk. split; [lia|done].
  - exists 0%nat, [], src, (copy_in i 0 src). do 3 (split; [done|]). split; [lia|].
    split; [rewrite copy_in_length; lia|]. apply (copy_in_take i 0). lia.
Qed.

(** The context after the bytes [m]: whole blocks compressed, the rest kept in
    [in], the number of bits counted. *)
Definition md5_after (ctx : MD5Context) (m : list Z) : Prop :=
  exists k full tail, m = full ++ tail /\ length full = (64 * k)%nat /\ (length tail < 64)%nat /\
    ctx.(buf) = fold_left MD5Transform (Rfc.blocks k full) Rfc.init /\
    length ctx.(inp) = 64%nat /\ take (length tail) ctx.(inp) = tail /\
    ctx.(bits0) = u32 (8 * Z.of_nat (length m)) /\
    ctx.(bits1) = u32 (8 * Z.of_nat (length m) / 2 ^ 32).

Lemma md5_after_init ctx : length ctx.(inp) = 64%nat -> md5_after (MD5Init ctx) [].
Proof. intros H. exists 0%nat, [], []. split_and!; try done. simpl. lia. Qed.

(** The two words of the bit count carry. *)
Lemma bits_add n l :
  0 <= n -> 0 <= l < 2 ^ 32 ->
  let t := u32 (8 * n) in let b0 := u32 (t + u32 (Z.shiftl l 3)) in
  let b1 := u32 (8 * n / 2 ^ 32) in
  b0 = u32 (8 * (n + l)) /\
  u32 ((if b0 <? t then u32 (b1 + 1) else b1) + Z.shiftr l 29) = u32 (8 * (n + l) / 2 ^ 32).
Proof.
  intros Hn Hl. cbv zeta. rewrite Z.shiftl_mul_pow2, Z.shiftr_div_pow2 by lia. unfold u32, wrap.
  change (2 ^ 3) with 8. change (2 ^ 29) with 536870912. change (2 ^ 32) with 4294967296 in *.
  split; [|bcase]; zdm.
Qed.

Lemma count_mod n : 0 <= n -> Z.land (Z.shiftr (u32 (8 * n)) 3) 0x3f = n mod 64.
Proof.
  intros Hn. change 0x3f with (Z.ones 6). rewrite Z.land_ones, Z.shiftr_div_pow2 by lia.
  unfold u32, wrap. change (2 ^ 32) with 4294967296. change (2 ^ 3) with 8. change (2 ^ 6) with 64. zdm.
Qed.

Lemma md5_after_update ctx m src :
  md5_after ctx m -> Z.of_nat (length src) < 2 ^ 32 -> md5_after (MD5Update ctx src) (m ++ src).
Proof.
  intros (k & full & tail & -> & Hk & Ht & Hbuf & Hi & Htl & Hb0 & Hb1) Hs.
  set (n := Z.of_nat (length (full ++ tail))) in *.
  destruct (bits_add n (Z.of_nat (length src))) as [B0 B1]; [lia|lia|]. rewrite B0 in B1.
  assert (Hmod : n mod 64 = Z.of_nat (length tail)).
  { unfold n. rewrite length_app, Hk. replace (Z.of_nat (64 * k + length tail)) with (Z.of_nat (length tail) + Z.of_nat k * 64) by lia.
    rewrite Z_mod_plus_full. apply Z.mod_small. lia. }
  assert (Hbits : forall bf i k' full' tail',
    (full ++ tail) ++ src = full' ++ tail' -> length full' = (64 * k')%nat -> (length tail' < 64)%nat ->
    bf = fold_left MD5Transform (Rfc.blocks k' full') Rfc.init -> length i = 64%nat -> take (length tail') i = tail' ->
    md5_after (mkMD5 bf (u32 (8 * (n + Z.of_nat (length src)))) (u32 (8 * (n + Z.of_nat (length src)) / 2 ^ 32)) i)
      ((full ++ tail) ++ src)).
  { intros bf i k' full' tail' E1 E2 E3 E4 E5 E6. exists k', full', tail'. rewrite length_app, Nat2Z.inj_add. fold n.
    split_and!; done. }
  unfold MD5Update. rewrite Hb0, Hb1, B0, B1, count_mod, Hmod by lia. cbv zeta.
  destruct (Z.eqb_spec (Z.of_nat (length tail)) 0) as [E|E]; cbn [negb].
  - assert (tail = []) as -> by (apply length_zero_iff_nil; lia).
    destruct (md5_chunks_spec (length src) (buf ctx) (inp ctx) src) as (k' & full' & tail' & i' & -> & Es & Hk' & Ht' & Hi' & Htl'); [done..|].
    apply (Hbits _ _ (k + k')%nat (full ++ full') tail'); try done.
    + by rewrite app_nil_r, Es, app_assoc. + rewrite length_app. lia.
    + by rewrite blocks_app, fold_left_app, <-Hbuf by done.
  - rewrite Nat2Z.id. destruct (Z.ltb_spec (Z.of_nat (length src)) (64 - Z.of_nat (length tail))).
    + apply (Hbits _ _ k full (tail ++ src)); rewrite ?length_app; try done; try lia.
      * by rewrite app_assoc. * rewrite copy_in_length; lia.
      * rewrite copy_in_take by lia. by rewrite Htl.
    + replace (Z.to_nat (64 - Z.of_nat (length tail))) with (64 - length tail)%nat by lia.
      set (h := take _ src). assert (Lh : length h = (64 - length tail)%nat) by (unfold h; rewrite length_take; lia).
      rewrite copy_in_full, Htl by lia. set (blk := tail ++ h).
      assert (Lb : length blk = 64%nat) by (unfold blk; rewrite length_app; lia).
      destruct (md5_chunks_spec (length src) (MD5Transform (buf ctx) blk) blk (drop (64 - length tail) src))
        as (k' & full' & tail' & i' & -> & Es & Hk' & Ht' & Hi' & Htl'); [rewrite length_drop; lia|done|].
      apply (Hbits _ _ (k + S k')%nat (full ++ blk ++ full') tail'); try done.
      * unfold blk. rewrite <-!app_assoc, <-Es. unfold h. by rewrite (take_drop (64 - length tail) src).
      * rewrite !length_app. lia.
      * rewrite blocks_app, fold_left_app, <-Hbuf by done. cbn [Rfc.blocks fold_left].
        by rewrite take_app_length', drop_app_length' by done.
Qed.

Lemma fold_compress l st : fold_left Rfc.compress l st = fold_left MD5Transform l st.
Proof. revert st; induction l as [|M l IH]; intros st; [done|]. simpl. by rewrite IH, MD5Transform_compress. Qed.

Lemma md5_pad m k j full rest :
  Rfc.pad m = full ++ rest -> length full = (64 * k)%nat -> length rest = (64 * j)%nat ->
  Rfc.md5 m = Rfc.digest (fold_left MD5Transform (Rfc.blocks j rest) (fold_left MD5Transform (Rfc.blocks k full) Rfc.init)).
Proof.
  intros E Hk Hj. unfold Rfc.md5. rewrite E, length_app, Hk, Hj, fold_compress.
  replace (64 * k + 64 * j)%nat with ((k + j) * 64)%nat by lia.
  rewrite Nat.div_mul, blocks_app, fold_left_app by (done || lia). done.
Qed.

Lemma md5_length_bytes n :
  0 <= n -> le_bytes 8 (8 * n) = le_bytes 4 (u32 (8 * n)) ++ le_bytes 4 (u32 (8 * n / 2 ^ 32)).
Proof.
  intros Hn. change 8%nat with (4 + 4)%nat. rewrite le_bytes_app.
  change (256 ^ Z.of_nat 4) with (2 ^ 32). unfold u32, wrap. change (2 ^ 32) with (256 ^ Z.of_nat 4).
  by rewrite !le_bytes_mod.
Qed.

(** The last blocks of the padded message, by the number of bytes left over. *)
Definition len_bytes (n : Z) : list Z := le_bytes 4 (u32 (8 * n)) ++ le_bytes 4 (u32 (8 * n / 2 ^ 32)).

Lemma md5_pad_tail m k full tail z :
  m = full ++ tail -> length full = (64 * k)%nat ->
  z = Z.to_nat ((55 - Z.of_nat (length tail)) mod 64) ->
  Rfc.pad m = full ++ ((tail ++ [0x80]) ++ replicate z 0) ++ len_bytes (Z.of_nat (length m)).
Proof.
  intros -> Hk ->. unfold Rfc.pad. rewrite md5_length_bytes by lia. fold (len_bytes (Z.of_nat (length (full ++ tail)))).
  rewrite <-!app_assoc. do 4 f_equal. rewrite length_app, Hk. f_equal. f_equal. zdm.
Qed.

Lemma md5_one_block m k full tail :
  m = full ++ tail -> length full = (64 * k)%nat -> (length tail < 56)%nat ->
  Rfc.md5 m = Rfc.digest (MD5Transform (fold_left MD5Transform (Rfc.blocks k full) Rfc.init)
    (((tail ++ [0x80]) ++ replicate (55 - length tail) 0) ++ len_bytes (Z.of_nat (length m)))).
Proof.
  intros Hm Hk Ht. set (blk := _ ++ len_bytes _).
  assert (Lb : length blk = 64%nat).
  { unfold blk, len_bytes. rewrite !length_app, length_replicate, !le_bytes_length. simpl. lia. }
  rewrite (md5_pad m k 1 full blk); [|apply (md5_pad_tail m k); [done..|zdm]|done|done].
  cbn [Rfc.blocks fold_left]. by rewrite take_ge by lia.
Qed.

Lemma md5_two_blocks m k full tail :
  m = full ++ tail -> length full = (64 * k)%nat -> (56 <= length tail < 64)%nat ->
  Rfc.md5 m = Rfc.digest (MD5Transform (MD5Transform (fold_left MD5Transform (Rfc.blocks k full) Rfc.init)
      ((tail ++ [0x80]) ++ replicate (63 - length tail) 0)) (replicate 56 0 ++ len_bytes (Z.of_nat (length m)))).
Proof.
  intros Hm Hk Ht. set (b1 := _ ++ replicate (63 - _) 0). set (b2 := _ ++ len_bytes _).
  assert (L1 : length b1 = 64%nat) by (unfold b1; rewrite !length_app, length_replicate; simpl; lia).
  assert (L2 : length b2 = 64%nat).
  { unfold b2, len_bytes. by rewrite !length_app, length_replicate, !le_bytes_length. }
  rewrite (md5_pad m k 2 full (b1 ++ b2)); [|..|by rewrite length_app, L1, L2]; [|..|done].
  - cbn [Rfc.blocks fold_left]. rewrite take_app_length', drop_app_length' by done. by rewrite take_ge by lia.
  - rewrite (md5_pad_tail m k full tail ((63 - length tail) + 56)) by (try done; zdm).
    unfold b1, b2. by rewrite replicate_add, <-!app_assoc.
Qed.

(** The length words of the last block. *)
Lemma copy_len_bytes i z n :
  length i = 64%nat -> take 56 i = z ->
  copy_in (copy_in i 56 (le_bytes 4 (u32 (8 * n)))) 60 (le_bytes 4 (u32 (8 * n / 2 ^ 32))) = z ++ len_bytes n.
Proof.
  intros Li <-. set (L0 := le_bytes 4 (u32 (8 * n))). assert (Ll0 : length L0 = 4%nat) by apply le_bytes_length.
  rewrite copy_in_full by (rewrite copy_in_length, le_bytes_length; lia).
  pose proof (copy_in_take i 56 L0) as E. rewrite Ll0 in E. change (56 + 4)%nat with 60%nat in E.
  rewrite E by lia. by rewrite <-app_assoc.
Qed.

Lemma md5_final_spec ctx m : md5_after ctx m -> fst (MD5Final ctx) = Rfc.md5 m.
Proof.
  intros (k & full & tail & Hm & Hk & Ht & Hbuf & Hi & Htl & Hb0 & Hb1). set (n := Z.of_nat (length m)) in *.
  assert (Hmod : n mod 64 = Z.of_nat (length tail)) by (unfold n; rewrite Hm, length_app, Hk; zdm).
  unfold MD5Final. rewrite Hb0, Hb1, count_mod, Hmod, Nat2Z.id by lia.
  set (i1 := copy_in (inp ctx) (length tail) [0x80]).
  assert (Li1 : length i1 = 64%nat) by (unfold i1; rewrite copy_in_length; simpl; lia).
  assert (Ti1 : take (S (length tail)) i1 = tail ++ [0x80]).
  { pose proof (copy_in_take (inp ctx) (length tail) [0x80]) as E. simpl length in E.
    rewrite Nat.add_1_r, Htl in E. apply E. lia. }
  destruct (Z.ltb_spec (64 - 1 - Z.of_nat (length tail)) 8).
  - rewrite (md5_two_blocks m k full tail), <-Hbuf by (done || lia).
    replace (Z.to_nat (64 - 1 - Z.of_nat (length tail))) with (63 - length tail)%nat by lia.
    rewrite (copy_in_full i1), Ti1 by (rewrite length_replicate; lia). set (b1 := _ ++ replicate (63 - _) 0).
    assert (L1 : length b1 = 64%nat) by (unfold b1; rewrite !length_app, length_replicate; simpl; lia).
    rewrite (copy_len_bytes _ (replicate 56 0));
      [|by rewrite copy_in_length; rewrite ?length_replicate; lia|apply (copy_in_take b1 0 (replicate 56 0)); rewrite length_replicate; lia].
    by destruct (MD5Transform (MD5Transform _ _) _) as [[[a b] c] d].
  - rewrite (md5_one_block m k full tail), <-Hbuf by (done || lia).
    replace (Z.to_nat (64 - 1 - Z.of_nat (length tail) - 8)) with (55 - length tail)%nat by lia.
    set (z := replicate (55 - length tail) 0). assert (Lz : length z = (55 - length tail)%nat) by apply length_replicate.
    rewrite (copy_len_bytes _ ((tail ++ [0x80]) ++ z)).
    + by destruct (MD5Transform _ _) as [[[a b] c] d].
    + rewrite copy_in_length; lia.
    + pose proof (copy_in_take i1 (S (length tail)) z) as E. rewrite Ti1 in E.
      replace 56%nat with (S (length tail) + length z)%nat by lia. apply E. lia.
Qed.

End Md5Facts.

Module Md5Spec.
Import Md5Facts.

(** C28: the streaming interface computes MD5. Whatever the context held before, after
    [MD5Init] and any number of [MD5Update] calls (each of an [unsigned] length),
    [MD5Final] yields the RFC 1321 digest of the concatenated bytes: the buffering of
    partial blocks, the carries of the bit count, both padding branches and the
    optimised unrolled transform are those of the definition. *)
Theorem md5_stream ctx chunks :
  length ctx.(inp) = 64%nat -> Forall (fun c => Z.of_nat (length c) < 2 ^ 32) chunks ->
  fst (MD5Final (fold_left MD5Update chunks (MD5Init ctx))) = Rfc.md5 (concat chunks).
Proof.
  intros Hi Hc. apply md5_final_spec.
  enough (H : forall c m, md5_after c m -> md5_after (fold_left MD5Update chunks c) (m ++ concat chunks)).
  { by apply (H _ []), md5_after_init. }
  induction Hc as [|x chunks Hx _ IH]; intros c m H; [by rewrite app_nil_r|].
  simpl. rewrite app_assoc. by apply IH, md5_after_update.
Qed.

(** "abc" in two pieces, on a context that held something else. *)
Lemma md5_stream_witness :
  let ctx := mkMD5 (1, 2, 3, 4) 5 6 (replicate 64 7) in
  be_value (fst (MD5Final (fold_left MD5Update [[97]; [98; 99]] (MD5Init ctx)))) = 0x900150983cd24fb0d6963f7d28e17f72.
Proof.
  intros ctx. rewrite (md5_stream ctx [[97]; [98; 99]]); [vm_compute; reflexivity|reflexivity|].
  by repeat (constructor; [vm_compute; reflexivity|]).
Defined.

End Md5Spec.
