(* ===== verification/TableDef.v ===== *)
(** Table definitions: [common/table_def.h] and [common/table_def.cc].

    A definition is the array of its fields, the hash chains over the field names,
    the attribute section and the values derived from the key. The server packs it
    ([build_info_cache]); a client rebuilds it ([Unpack]). Operations that return an
    [int] give back the pair of that result and the new state, since they change the
    state on some of their error paths too; [Fault] is an access outside an array. *)
From Stdlib Require Import ZArith Lia.
From stdpp Require Import base list numbers gmap.
From S2P Require Import Prelude Value Codec Md5.
Local Open Scope Z_scope.

Definition EC_BAD_FIELD_TYPE := 2016.
Definition EC_BAD_FIELD_SIZE := 2017.
Definition EC_TABLE_REDEFINED := 2018.
Definition EC_VERSION_MISMATCH := 2020.

Definition MAXFIELDS_PER_TABLE := 255.
Definition HASHSTOP := 0xFFFF.

(** ** Data *)

Definition FF_READONLY := 1.
Definition FF_VOLATILE := 2.
Definition FF_DISCARD := 4.
Definition FF_DESC := 0x10.
Definition FF_TIMESTAMP := 0x20.

Record FieldDefinition := mkField {
  fieldName : option (list Z);      (** the characters before the NUL *)
  fieldSize : Z;
  fieldType : Z;
  nameLen : Z;
  offset : Z;
  flags : Z;
  boffset : Z;
  bsize : Z;
  next : Z
}.

(** An entry of the array as [calloc] leaves it. *)
Definition empty_field : FieldDefinition := mkField None 0 0 0 0 0 0 0 0.

Record DTCTableDefinition := mkTable {
  fieldList : list FieldDefinition;
  nameHash : list Z;                 (** 256 chains *)
  attr : SimpleSection;
  maxFields : Z;
  usedFields : Z;
  numFields : Z;
  keyFields : Z;
  tableName : DTCBinary;
  hash : list Z;
  defaultValue : option (list DTCValue);
  packedTableDefinition : DTCBinary;
  packedFullFieldSet : DTCBinary;
  packedFieldSet : DTCBinary;
  uniqFields : list Z;
  uniqFieldCnt : Z;
  keysAsUniqField : Z;
  maxKeySize : Z;
  keyFormat : Z;
  hasAutoInc : Z;
  hasLastacc : Z;
  hasLastmod : Z;
  hasLastcmod : Z;
  hasExpireTime : Z
}.

Definition tableAttributeDefinition : SectionDefinition :=
  mkSectionDef 1 4 (fun id => nth (Z.to_nat id) [DField.None; DField.Unsigned; DField.Unsigned; DField.Unsigned] DField.None).

(** The constructor. [garbage] are the members it does not initialise: the hash and
    the key size, and on the client side ([m <= 0]) the server's members. *)
Definition DTCTableDefinition_new (m : Z) (garbage : DTCTableDefinition) : DTCTableDefinition :=
  let at_ := SimpleSection_new tableAttributeDefinition in
  let nb := mkBin 0 None in
  if 0 <? m then
    mkTable (replicate (Z.to_nat m) empty_field) (replicate 256 HASHSTOP) at_ m 0 0 0 nb garbage.(hash)
      (Some (replicate (Z.to_nat m) (DWord 0))) nb nb nb (replicate (Z.to_nat m) 0) 0 0
      garbage.(maxKeySize) 0 (-1) (-1) (-1) (-1) (-1)
  else
    mkTable [] (replicate 256 HASHSTOP) at_ m 0 0 0 nb garbage.(hash)
      None garbage.(packedTableDefinition) garbage.(packedFullFieldSet) garbage.(packedFieldSet)
      garbage.(uniqFields) garbage.(uniqFieldCnt) garbage.(keysAsUniqField)
      garbage.(maxKeySize) garbage.(keyFormat) garbage.(hasAutoInc) garbage.(hasLastacc)
      garbage.(hasLastmod) garbage.(hasLastcmod) garbage.(hasExpireTime).

(** Assignments to groups of members. *)
Definition with_fields (d : DTCTableDefinition) fl nh used num dv : DTCTableDefinition :=
  mkTable fl nh d.(attr) d.(maxFields) used num d.(keyFields) d.(tableName) d.(hash) dv
    d.(packedTableDefinition) d.(packedFullFieldSet) d.(packedFieldSet) d.(uniqFields) d.(uniqFieldCnt)
    d.(keysAsUniqField) d.(maxKeySize) d.(keyFormat) d.(hasAutoInc) d.(hasLastacc) d.(hasLastmod)
    d.(hasLastcmod) d.(hasExpireTime).

Definition with_fieldList (d : DTCTableDefinition) fl : DTCTableDefinition :=
  with_fields d fl d.(nameHash) d.(usedFields) d.(numFields) d.(defaultValue).

Definition with_defaultValue (d : DTCTableDefinition) dv : DTCTableDefinition :=
  with_fields d d.(fieldList) d.(nameHash) d.(usedFields) d.(numFields) dv.

Definition with_attr (d : DTCTableDefinition) a : DTCTableDefinition :=
  mkTable d.(fieldList) d.(nameHash) a d.(maxFields) d.(usedFields) d.(numFields) d.(keyFields) d.(tableName)
    d.(hash) d.(defaultValue) d.(packedTableDefinition) d.(packedFullFieldSet) d.(packedFieldSet) d.(uniqFields)
    d.(uniqFieldCnt) d.(keysAsUniqField) d.(maxKeySize) d.(keyFormat) d.(hasAutoInc) d.(hasLastacc)
    d.(hasLastmod) d.(hasLastcmod) d.(hasExpireTime).

Definition with_keys (d : DTCTableDefinition) kf kau mks kfmt : DTCTableDefinition :=
  mkTable d.(fieldList) d.(nameHash) d.(attr) d.(maxFields) d.(usedFields) d.(numFields) kf d.(tableName)
    d.(hash) d.(defaultValue) d.(packedTableDefinition) d.(packedFullFieldSet) d.(packedFieldSet) d.(uniqFields)
    d.(uniqFieldCnt) kau mks kfmt d.(hasAutoInc) d.(hasLastacc) d.(hasLastmod) d.(hasLastcmod) d.(hasExpireTime).

Definition with_packed (d : DTCTableDefinition) h pt pfull pf : DTCTableDefinition :=
  mkTable d.(fieldList) d.(nameHash) d.(attr) d.(maxFields) d.(usedFields) d.(numFields) d.(keyFields) d.(tableName)
    h d.(defaultValue) pt pfull pf d.(uniqFields) d.(uniqFieldCnt) d.(keysAsUniqField) d.(maxKeySize)
    d.(keyFormat) d.(hasAutoInc) d.(hasLastacc) d.(hasLastmod) d.(hasLastcmod) d.(hasExpireTime).

Definition with_table (d : DTCTableDefinition) fl mx tn h : DTCTableDefinition :=
  mkTable fl d.(nameHash) d.(attr) mx d.(usedFields) d.(numFields) d.(keyFields) tn
    h d.(defaultValue) d.(packedTableDefinition) d.(packedFullFieldSet) d.(packedFieldSet) d.(uniqFields)
    d.(uniqFieldCnt) d.(keysAsUniqField) d.(maxKeySize) d.(keyFormat) d.(hasAutoInc) d.(hasLastacc)
    d.(hasLastmod) d.(hasLastcmod) d.(hasExpireTime).

Definition with_uniq (d : DTCTableDefinition) uf cnt : DTCTableDefinition :=
  mkTable d.(fieldList) d.(nameHash) d.(attr) d.(maxFields) d.(usedFields) d.(numFields) d.(keyFields) d.(tableName)
    d.(hash) d.(defaultValue) d.(packedTableDefinition) d.(packedFullFieldSet) d.(packedFieldSet) uf cnt
    d.(keysAsUniqField) d.(maxKeySize) d.(keyFormat) d.(hasAutoInc) d.(hasLastacc) d.(hasLastmod)
    d.(hasLastcmod) d.(hasExpireTime).

Definition with_stamps (d : DTCTableDefinition) ai la lm lc et : DTCTableDefinition :=
  mkTable d.(fieldList) d.(nameHash) d.(attr) d.(maxFields) d.(usedFields) d.(numFields) d.(keyFields) d.(tableName)
    d.(hash) d.(defaultValue) d.(packedTableDefinition) d.(packedFullFieldSet) d.(packedFieldSet) d.(uniqFields)
    d.(uniqFieldCnt) d.(keysAsUniqField) d.(maxKeySize) d.(keyFormat) ai la lm lc et.

(** ** Accessors *)

(** [fieldList[id]] *)
Definition field_at (d : DTCTableDefinition) (id : Z) : outcome FieldDefinition :=
  if id <? 0 then Fault else
  match d.(fieldList) !! Z.to_nat id with Some f => Ok f | None => Fault end.

Definition field_type (d : DTCTableDefinition) (id : Z) : outcome Z :=
  let! f := field_at d id in Ok f.(fieldType).
Definition field_size (d : DTCTableDefinition) (id : Z) : outcome Z :=
  let! f := field_at d id in Ok f.(fieldSize).
Definition field_flags (d : DTCTableDefinition) (id : Z) : outcome Z :=
  let! f := field_at d id in Ok f.(flags).

(** [fieldList[n].flags |= fl] *)
Definition or_flags (d : DTCTableDefinition) (n fl : Z) : outcome DTCTableDefinition :=
  let! f := field_at d n in
  Ok (with_fieldList d (<[Z.to_nat n := mkField f.(fieldName) f.(fieldSize) f.(fieldType) f.(nameLen) f.(offset)
     (Z.lor f.(flags) fl) f.(boffset) f.(bsize) f.(next)]> d.(fieldList))).

Definition mark_as_read_only (d : DTCTableDefinition) (n : Z) := or_flags d n FF_READONLY.
Definition mark_as_volatile (d : DTCTableDefinition) (n : Z) := or_flags d n FF_VOLATILE.
Definition mark_order_desc (d : DTCTableDefinition) (n : Z) := or_flags d n FF_DESC.

(** [set_lastmod]: the member is guarded, the flag is not. *)
Definition set_lastmod (d : DTCTableDefinition) (n : Z) : outcome DTCTableDefinition :=
  let d := if (0 <=? n) && (n <=? d.(numFields))
           then with_stamps d d.(hasAutoInc) d.(hasLastacc) n d.(hasLastcmod) d.(hasExpireTime) else d in
  or_flags d n FF_TIMESTAMP.
Definition set_lastacc (d : DTCTableDefinition) (n : Z) : outcome DTCTableDefinition :=
  let d := if (0 <=? n) && (n <=? d.(numFields))
           then with_stamps d d.(hasAutoInc) n d.(hasLastmod) d.(hasLastcmod) d.(hasExpireTime) else d in
  or_flags d n FF_TIMESTAMP.
Definition set_lastcmod (d : DTCTableDefinition) (n : Z) : outcome DTCTableDefinition :=
  let d := if (0 <=? n) && (n <=? d.(numFields))
           then with_stamps d d.(hasAutoInc) d.(hasLastacc) d.(hasLastmod) n d.(hasExpireTime) else d in
  or_flags d n FF_TIMESTAMP.
Definition set_auto_increment (d : DTCTableDefinition) (n : Z) : DTCTableDefinition :=
  if (0 <=? n) && (n <=? d.(numFields))
  then with_stamps d n d.(hasLastacc) d.(hasLastmod) d.(hasLastcmod) d.(hasExpireTime) else d.
Definition set_expire_time (d : DTCTableDefinition) (n : Z) : DTCTableDefinition :=
  if (0 <=? n) && (n <=? d.(numFields))
  then with_stamps d d.(hasAutoInc) d.(hasLastacc) d.(hasLastmod) d.(hasLastcmod) n else d.

(** [mark_uniq_field]: [uniqFields[uniqFieldCnt++] = n], both [uint8_t]. *)
Definition mark_uniq_field (d : DTCTableDefinition) (n : Z) : outcome DTCTableDefinition :=
  if Z.of_nat (length d.(uniqFields)) <=? d.(uniqFieldCnt) then Fault else
  Ok (with_uniq d (<[Z.to_nat d.(uniqFieldCnt) := u8 n]> d.(uniqFields)) (u8 (d.(uniqFieldCnt) + 1))).

(** [max_field_size] *)
Definition max_field_size (d : DTCTableDefinition) : outcome Z :=
  fold_left (fun m id => let! m := m in let! s := field_size d id in Ok (if m <? s then s else m))
    (seqZ d.(keyFields) (d.(numFields) + 1 - d.(keyFields))) (Ok 0).

(** *** The attribute section ([TableAttribute]) *)
Definition attr_u64 (a : SimpleSection) (id : Z) : outcome (option Z) :=
  match get_tag a id with
  | None => Ok None
  | Some v => let! u := val_u64 v in Ok (Some u)
  end.

Definition is_single_row (a : SimpleSection) : outcome bool :=
  let! t := attr_u64 a 1 in
  Ok (match t with Some u => negb (Z.land u 1 =? 0) | None => false end).
Definition set_single_row (a : SimpleSection) : outcome SimpleSection :=
  let! t := attr_u64 a 1 in
  set_tag a 1 (set_u64 (match t with Some u => Z.lor u 1 | None => 1 end)).
Definition set_key_field_count (a : SimpleSection) (n : Z) : outcome SimpleSection :=
  if tag_type a 3 =? DField.Signed then set_tag a 3 (set_s64 n)
  else if tag_type a 3 =? DField.Unsigned then set_tag a 3 (set_u64 n) else Ok a.
Definition compress_field_id (a : SimpleSection) : outcome Z :=
  let! t := attr_u64 a 1 in
  Ok (match t with Some u => Z.land (Z.shiftr u 56) 0xFF | None => -1 end).
Definition set_compress_flag (a : SimpleSection) (n : Z) : outcome SimpleSection :=
  let tmp := u64 (Z.shiftl (Z.land n 0xFF) 56) in
  let! t := attr_u64 a 1 in
  set_tag a 1 (set_u64 (match t with Some u => Z.land u tmp | None => tmp end)).

(** ** Fields and their names *)

(** The hash of a name; [name[i]] is a signed [char]. *)
Definition name_hash (name : list Z) : Z :=
  Z.land (fold_left (fun h c => u32 (h * 11 + Z.shiftl (s8 c) 4 + Z.shiftr (s8 c) 4)) name 0) 0xFF.

(** The checks on size and type shared by the two overloads of [add_field], with
    the default value the type stores; [inl] is the error returned. *)
Definition check_type (type size : Z) : Z + DTCValue :=
  if size <=? 0 then inl (- EC_BAD_FIELD_SIZE)
  else if (type =? DField.Signed) || (type =? DField.Unsigned) then
    if 8 <? size then inl (- EC_BAD_FIELD_SIZE) else inr (set_s64 0)
  else if type =? DField.Float then
    if negb (size =? 8) && negb (size =? 4) then inl (- EC_BAD_FIELD_SIZE) else inr (DWord 0)
  else if (type =? DField.String) || (type =? DField.Binary) then
    if MAXPACKETSIZE <? size then inl (- EC_BAD_FIELD_SIZE) else inr (set_str None 0)
  else inl (- EC_BAD_FIELD_TYPE).

(** The end of [add_field]: the name, the entry, its chain and the counters. [mk]
    fills the entry, given the flags and the old head of the chain. *)
Definition add_named (d : DTCTableDefinition) (id : Z) (name : list Z) (mk : FieldDefinition -> Z -> Z -> FieldDefinition)
  : outcome (Z * DTCTableDefinition) :=
  let n := Z.of_nat (length name) in
  if (n =? 0) || (255 <? n) then Ok (- EC_BAD_FIELD_NAME, d) else
  let h := name_hash name in
  let! old := field_at d id in
  match d.(nameHash) !! Z.to_nat h with
  | None => Fault
  | Some head =>
    let f := mk old (if id =? 0 then FF_READONLY else 0) head in
    Ok (0, with_fields d (<[Z.to_nat id := f]> d.(fieldList)) (<[Z.to_nat h := id]> d.(nameHash))
             (if id =? 0 then d.(usedFields) else s32 (d.(usedFields) + 1))
             (if d.(numFields) <? id then id else d.(numFields)) d.(defaultValue))
  end.

(** [add_field(id, name, type, size)]; the name is the characters before its NUL. *)
Definition add_field (d : DTCTableDefinition) (id : Z) (name : list Z) (type size : Z)
  : outcome (Z * DTCTableDefinition) :=
  if (id <? 0) || (MAXFIELDS_PER_TABLE <? id) || (d.(maxFields) <=? id) then Ok (- EC_BAD_FIELD_ID, d) else
  let! f := field_at d id in
  match f.(fieldName) with
  | Some _ => Ok (- EC_BAD_FIELD_ID, d)
  | None =>
    match check_type type size with
    | inl e => Ok (e, d)
    | inr dv =>
      let d := with_defaultValue d ((fun l => <[Z.to_nat id := dv]> l) <$> d.(defaultValue)) in
      add_named d id name (fun f fl head =>
        mkField (Some name) size (u8 type) (u8 (Z.of_nat (length name))) f.(offset) fl f.(boffset) f.(bsize) head)
    end
  end.

(** [add_field(id, name, type, size, bsize, boffset)], which overwrites. *)
Definition add_field_bits (d : DTCTableDefinition) (id : Z) (name : list Z) (type size bsize boffset : Z)
  : outcome (Z * DTCTableDefinition) :=
  if (id <? 0) || (MAXFIELDS_PER_TABLE <? id) || (d.(maxFields) <=? id) then Ok (- EC_BAD_FIELD_ID, d) else
  match check_type type size with
  | inl e => Ok (e, d)
  | inr dv =>
    let d := with_defaultValue d ((fun l => <[Z.to_nat id := dv]> l) <$> d.(defaultValue)) in
    add_named d id name (fun f fl head =>
      mkField (Some name) size (u8 type) (u8 (Z.of_nat (length name))) f.(offset) fl boffset bsize head)
  end.

(** [field_id]: along the chain of the name's hash. Out of fuel is [None]. *)
Fixpoint field_id_loop (fuel : nat) (d : DTCTableDefinition) (name : list Z) (id : Z) : option (outcome Z) :=
  if id =? HASHSTOP then Some (Ok (-1)) else
  match fuel with
  | O => None
  | S fuel =>
    match field_at d id with
    | Ok f =>
      if negb (f.(nameLen) =? Z.of_nat (length name)) then field_id_loop fuel d name f.(next)
      else match f.(fieldName) with
           | Some nm => if bool_decide (nm = name) then Some (Ok id) else field_id_loop fuel d name f.(next)
           | None => Some Fault
           end
    | Err c => Some (Err c)
    | Fault => Some Fault
    end
  end.

(** A chain visits each of the at most 256 fields once. *)
Definition FIELD_FUEL : nat := 256.

Definition field_id (d : DTCTableDefinition) (name : list Z) : option (outcome Z) :=
  match d.(nameHash) !! Z.to_nat (name_hash name) with
  | Some id => field_id_loop FIELD_FUEL d name id
  | None => Some Fault
  end.

Definition set_default_value (d : DTCTableDefinition) (id : Z) (dval : DTCValue) : DTCTableDefinition :=
  if (id <=? 0) || (255 <? id) || (d.(maxFields) <=? id) then d
  else with_defaultValue d ((fun l => <[Z.to_nat id := dval]> l) <$> d.(defaultValue)).

(** [get_default_row]: [numFields] values after the key's. *)
Definition get_default_row (d : DTCTableDefinition) (row : list DTCValue) : outcome (list DTCValue) :=
  let n := Z.to_nat d.(numFields) in
  if (length row <? S n)%nat then Fault else
  match d.(defaultValue) with
  | Some l => if (length l <? S n)%nat then Fault
              else Ok (take 1 row ++ take n (drop 1 l) ++ drop (S n) row)
  | None => Ok (take 1 row ++ replicate n (DWord 0) ++ drop (S n) row)
  end.

Definition set_table_name (d : DTCTableDefinition) (name : list Z) : DTCTableDefinition :=
  with_table d d.(fieldList) d.(maxFields) (mkBin (Z.of_nat (length name)) (Some (name ++ [0]))) d.(hash).

(** ** The key *)

(** One round of the loop of [set_key_fields]. *)
Definition key_round (d : DTCTableDefinition) (kau maxSize nvar i : Z)
  : outcome (DTCTableDefinition * Z * Z * Z) :=
  let! d := mark_as_read_only d i in
  let! f := field_at d i in
  let d := with_fieldList d (<[Z.to_nat i := mkField f.(fieldName) f.(fieldSize) f.(fieldType) f.(nameLen)
     (u8 maxSize) f.(flags) f.(boffset) f.(bsize) f.(next)]> d.(fieldList)) in
  let '(maxSize, nvar) :=
    if (f.(fieldType) =? DField.Signed) || (f.(fieldType) =? DField.Unsigned) || (f.(fieldType) =? DField.Float)
    then (maxSize + f.(fieldSize), nvar) else (1 + f.(fieldSize), nvar + 1) in
  let kau := if negb (kau =? 0) && negb (bool_decide (i ∈ take (Z.to_nat d.(uniqFieldCnt)) d.(uniqFields)))
             then 0 else kau in
  Ok (d, kau, maxSize, nvar).

Fixpoint key_loop (d : DTCTableDefinition) (kau maxSize nvar : Z) (ids : list Z)
  : outcome (DTCTableDefinition * Z * Z * Z) :=
  match ids with
  | [] => Ok (d, kau, maxSize, nvar)
  | i :: ids =>
    let! r := key_round d kau maxSize nvar i in
    let '(d, kau, maxSize, nvar) := r in key_loop d kau maxSize nvar ids
  end.

(** [set_key_fields]; the tests on [maxKeySize] read its old value. *)
Definition set_key_fields (d : DTCTableDefinition) (n : Z) : outcome (Z * DTCTableDefinition) :=
  let n := if n <? 0 then 1 else n in
  if n <=? 0 then Ok (0, d)
  else if 32 <? n then Ok (-1, d)
  else
    let n := if d.(numFields) + 1 <? n then d.(numFields) + 1 else n in
    let! a := set_key_field_count d.(attr) n in
    let d := with_attr d a in
    let! r := key_loop d 2 0 0 (seqZ 0 n) in
    let '(d, kau, maxSize, nvar) := r in
    let kau := if (d.(uniqFieldCnt) =? n) && (0 <? kau) then 1 else kau in
    let d := with_keys d n kau d.(maxKeySize) d.(keyFormat) in
    if nvar =? 0 then
      if 256 <=? d.(maxKeySize) then Ok (-1, d)
      else Ok (0, with_keys d n kau (u16 maxSize) (u8 maxSize))
    else if 257 <=? d.(maxKeySize) then Ok (-1, d)
    else if negb (n =? 1) then Ok (-1, d)
    else Ok (0, with_keys d n kau (u16 (maxSize + (if 1 <? nvar then 1 else 0))) 0).

(** ** Packing *)

(** [fieldList[i].fieldName != NULL] *)
Definition is_named (d : DTCTableDefinition) (i : Z) : bool :=
  match field_at d i with Ok f => bool_decide (is_Some f.(fieldName)) | _ => false end.

(** The ids of the named fields among [ids]. *)
Definition named_ids (d : DTCTableDefinition) (ids : list Z) : list Z :=
  filter (fun i => is_named d i) ids.

Definition pack_field (d : DTCTableDefinition) (i : Z) : list Z :=
  match field_at d i with
  | Ok f => [u8 i; f.(fieldType)] ++ encode_length (u32 f.(fieldSize)) ++ [f.(nameLen)] ++ default [] f.(fieldName)
  | _ => []
  end.

(** The digest of a buffer; the context starts uninitialised. *)
Definition md5_digest (m : list Z) : list Z :=
  fst (MD5Final (MD5Update (MD5Init (mkMD5 (0, 0, 0, 0) 0 0 (replicate 64 0))) m)).

Section WithLibc.
Variable print_double : Z -> list Z.
Variable scan_double : list Z -> option Z.

(** [build_info_cache] *)
Definition build_info_cache (d : DTCTableDefinition) : outcome DTCTableDefinition :=
  if d.(numFields) <=? 0 then Ok d else
  let ids := named_ids d (seqZ 1 d.(numFields)) in
  let full := [0; 0] ++ (u8 <$> ids) in
  let pfull := mkBin (Z.of_nat (length full) + 1) (Some (u8 (Z.of_nat (length full) - 1) :: full)) in
  let pf := mkBin (Z.of_nat (length ids) + 1) (Some (u8 (Z.of_nat (length ids)) :: (u8 <$> ids))) in
  let named := named_ids d (seqZ 0 (d.(numFields) + 1)) in
  let! tn := string_of_bin d.(tableName) in
  let! at_ := encode_simple_section print_double d.(attr) DField.None in
  let body := [1; u8 d.(tableName).(len)] ++ tn ++ [u8 (Z.of_nat (length named))]
              ++ concat (pack_field d <$> named) ++ at_ in
  let h := md5_digest body in
  Ok (with_packed d h (mkBin (Z.of_nat (length (h ++ body))) (Some (h ++ body))) pfull pf).

(** [memcpy(name, b.ptr, n)] *)
Definition rtake (n : nat) : rd (list Z) := fun b =>
  match b.(bytes) with
  | Some bs => if (n <=? length bs)%nat then (Ok (take n bs), b) else (Fault, b)
  | None => (if (n =? 0)%nat then Ok [] else Fault, b)
  end.

(** The loop of [Unpack] over the field descriptions. A half-built definition is
    thrown away by the callers, so an error carries only its code. *)
Fixpoint unpack_fields (nf : nat) (d : DTCTableDefinition) : rd DTCTableDefinition :=
  match nf with
  | O => rret d
  | S nf =>
    do! s <- rshort 5;
    if (s : bool) then rerr (- EC_BAD_SECTION_LENGTH) else
    do! id <- rbyte; do! type <- rbyte;
    do! size <- decode_length;
    do! s <- rshort 2;
    if (s : bool) then rerr (- EC_BAD_SECTION_LENGTH) else
    do! n <- rbyte;
    do! s <- rshort n;
    if (n =? 0) || (s : bool) then rerr (- EC_BAD_SECTION_LENGTH) else
    do! name <- rtake (Z.to_nat n);
    do! _ <- rskip (Z.to_nat n);
    do! r <- rlift (add_field d id (cstr name) type (s32 size));
    let '(rv, d) := r in
    if rv =? 0 then unpack_fields nf d else rerr rv
  end.

(** [Unpack] after the check of the digest. *)
Definition unpack_body (d : DTCTableDefinition) (h : list Z) : rd DTCTableDefinition :=
  do! n <- rbyte;
  if negb (n =? 1) then rerr (- EC_VERSION_MISMATCH) else
  do! n <- rbyte;
  do! s <- rshort (n + 1);
  if (n =? 0) || (s : bool) then rerr (- EC_BAD_SECTION_LENGTH) else
  do! name <- rtake (Z.to_nat n);
  do! _ <- rskip (Z.to_nat n);
  do! nf <- rbyte;
  if nf =? 0 then rerr (- EC_BAD_SECTION_LENGTH) else
  do! d <- unpack_fields (Z.to_nat nf)
    (with_table d (replicate (Z.to_nat nf) empty_field) nf (mkBin n (Some (name ++ [0]))) h);
  do! a <- decode_simple_section scan_double d.(attr) DField.None;
  rret (with_attr d a).

(** [Unpack] *)
Definition Unpack (d : DTCTableDefinition) (ptr : list Z) (len : Z) : outcome DTCTableDefinition :=
  if negb (d.(numFields) =? 0) || negb (d.(maxFields) =? 0) then Err (- EC_TABLE_REDEFINED)
  else if len <? 24 then Err (- EC_BAD_SECTION_LENGTH)
  else if Z.of_nat (length ptr) <? len then Fault
  else
    let h := md5_digest (take (Z.to_nat len - 16) (drop 16 ptr)) in
    if negb (bool_decide (h = take 16 ptr)) then Err (- EC_VERSION_MISMATCH)
    else fst (unpack_body d h (mkBin (len - 16) (Some (drop 16 ptr)))).

End WithLibc.

(** ** The fields and their chains *)
Module FieldFacts.

Lemma field_at_lookup d id f : field_at d id = Ok f <-> 0 <= id /\ d.(fieldList) !! Z.to_nat id = Some f.
Proof.
  unfold field_at. destruct (Z.ltb_spec id 0); [split; [done|lia]|].
  destruct (d.(fieldList) !! Z.to_nat id); split; try done; [intros [= ->]; done|intros [_ [= ->]]; done|by intros [_ ?]].
Qed.

(** The ids met from [id] on. *)
Inductive chain (fl : list FieldDefinition) : Z -> list Z -> Prop :=
  | chain_stop : chain fl HASHSTOP []
  | chain_step id f l : 0 <= id < HASHSTOP -> fl !! Z.to_nat id = Some f ->
      chain fl f.(next) l -> chain fl id (id :: l).

(** A stored field: what [add_field] lets in. *)
Definition stored (f : FieldDefinition) (nm : list Z) : Prop :=
  f.(fieldName) = Some nm /\ f.(nameLen) = Z.of_nat (length nm) /\ (1 <= length nm <= 255)%nat /\
  is_u 8 f.(fieldType) /\ exists dv, check_type f.(fieldType) f.(fieldSize) = inr dv.

Definition has_name (d : DTCTableDefinition) (id : Z) (nm : list Z) : Prop :=
  exists f, field_at d id = Ok f /\ f.(fieldName) = Some nm.

(** The invariant of the array and the hash chains. *)
Record fields_ok (d : DTCTableDefinition) : Prop := {
  fo_len : Z.of_nat (length d.(fieldList)) = d.(maxFields);
  fo_hash : length d.(nameHash) = 256%nat;
  fo_stored : forall id f nm, field_at d id = Ok f -> f.(fieldName) = Some nm ->
    stored f nm /\ id <= d.(numFields);
  fo_num : 0 <= d.(numFields) <= MAXFIELDS_PER_TABLE;
  fo_chain : forall h head, d.(nameHash) !! h = Some head ->
    exists l, chain d.(fieldList) head l /\ NoDup l /\
      forall id, id ∈ l <-> exists nm, has_name d id nm /\ Z.to_nat (name_hash nm) = h
}.

Lemma name_hash_range nm : 0 <= name_hash nm < 256.
Proof.
  unfold name_hash. change 0xFF with (Z.ones 8). rewrite Z.land_ones by lia. apply Z.mod_pos_bound. lia.
Qed.

(** A definition without fields. *)
Lemma fields_ok_empty d :
  Z.of_nat (length d.(fieldList)) = d.(maxFields) -> d.(nameHash) = replicate 256 HASHSTOP ->
  0 <= d.(numFields) <= MAXFIELDS_PER_TABLE ->
  (forall id f, field_at d id = Ok f -> f.(fieldName) = None) -> fields_ok d.
Proof.
  intros Hl Hh Hn Hnone. split.
  - done.
  - by rewrite Hh.
  - intros id f nm H E. apply Hnone in H. congruence.
  - done.
  - intros h head H. exists []. split; [|split; [constructor|]].
    + rewrite Hh in H. apply lookup_replicate in H as [-> _]. constructor.
    + intros id. split; [set_solver +|]. intros (nm & (f & Hf & Hnm) & _). apply Hnone in Hf. congruence.
Qed.

Lemma field_at_replicate d n id f :
  d.(fieldList) = replicate n empty_field -> field_at d id = Ok f -> f.(fieldName) = None.
Proof. intros E [_ H]%field_at_lookup. rewrite E in H. by apply lookup_replicate in H as [-> _]. Qed.

Lemma fields_ok_new m g : 0 <= m -> fields_ok (DTCTableDefinition_new m g).
Proof.
  intros Hm. apply fields_ok_empty; unfold DTCTableDefinition_new; destruct (Z.ltb_spec 0 m); simpl; try (done || lia).
  - rewrite length_replicate. lia.
  - intros id f. by apply (field_at_replicate _ (Z.to_nat m)).
  - intros id f. by apply (field_at_replicate _ 0).
Qed.

Lemma chain_insert fl id f head l :
  chain fl head l -> id ∉ l -> 0 <= id -> chain (<[Z.to_nat id := f]> fl) head l.
Proof.
  induction 1 as [|i g l Hr Hi _ IH]; [constructor|]. intros Hn Hid. apply not_elem_of_cons in Hn as [Hne Hn].
  econstructor; [done| |by apply IH]. rewrite list_lookup_insert_ne; [done|lia].
Qed.

Lemma field_id_loop_spec d name head l fuel :
  chain d.(fieldList) head l -> (length l <= fuel)%nat ->
  (forall id, id ∈ l -> exists f nm, field_at d id = Ok f /\ stored f nm) ->
  exists r, field_id_loop fuel d name head = Some (Ok r) /\
    ((r = -1 /\ forall id, id ∈ l -> ~ has_name d id name) \/ (r ∈ l /\ has_name d r name)).
Proof.
  intros Hc. revert fuel; induction Hc as [|id f l Hr Hf Hc IH]; intros fuel Hl Hall.
  { exists (-1). split; [by destruct fuel|]. left. split; [done|set_solver +]. }
  destruct fuel as [|fuel]; [simpl in Hl; lia|]. cbn [field_id_loop].
  rewrite (proj2 (Z.eqb_neq _ _)) by lia.
  assert (Hat : field_at d id = Ok f) by (apply field_at_lookup; split; [lia|done]). rewrite Hat.
  destruct (Hall id) as (f' & nm & Hat' & Hs); [set_solver +|]. rewrite Hat in Hat'. apply Ok_inj in Hat' as <-.
  destruct Hs as (Hn & Hlen & _). rewrite Hn, Hlen.
  destruct (IH fuel) as (r & E & Hres); [simpl in Hl; lia|intros i Hi; apply Hall; set_solver +Hi|].
  assert (Hskip : nm <> name -> exists r, field_id_loop fuel d name (next f) = Some (Ok r) /\
    ((r = -1 /\ forall i, i ∈ id :: l -> ~ has_name d i name) \/ (r ∈ id :: l /\ has_name d r name))).
  { intros Hne. exists r. split; [done|]. destruct Hres as [[-> Hno]|[Hin Hh]]; [left|right; set_solver +Hin Hh].
    split; [done|]. intros i [-> |Hi]%elem_of_cons; [|by apply Hno].
    intros (g & Hg & Hgn). rewrite Hat in Hg. apply Ok_inj in Hg as <-. congruence. }
  destruct (Z.eqb_spec (Z.of_nat (length nm)) (Z.of_nat (length name))); cbn [negb].
  - case_bool_decide as Heq; [|by apply Hskip]. subst nm. exists id. split; [done|]. right. split; [set_solver +|by exists f].
  - apply Hskip. congruence.
Qed.

(** A chain is shorter than the fuel: its ids are distinct and at most 255. *)
Lemma chain_short (l : list Z) :
  NoDup l -> (forall id, id ∈ l -> 0 <= id <= MAXFIELDS_PER_TABLE) -> (length l <= FIELD_FUEL)%nat.
Proof.
  intros Hd Hr. assert (Hs : l ⊆+ seqZ 0 256).
  { apply NoDup_submseteq; [done|]. intros id Hid. apply elem_of_seqZ. specialize (Hr id Hid).
    unfold MAXFIELDS_PER_TABLE in Hr. lia. }
  apply submseteq_length in Hs. by rewrite length_seqZ in Hs.
Qed.

Lemma has_name_ok d id nm :
  fields_ok d -> has_name d id nm -> 0 <= id <= MAXFIELDS_PER_TABLE /\ id <= d.(numFields).
Proof.
  intros Hd (f & Hf & Hn). destruct (fo_stored d Hd id f nm Hf Hn) as [_ ?].
  pose proof (fo_num d Hd). apply field_at_lookup in Hf as [? _]. lia.
Qed.

Lemma field_id_ok d name :
  fields_ok d -> exists r, field_id d name = Some (Ok r) /\
    ((r = -1 /\ forall id, ~ has_name d id name) \/ (0 <= r <= d.(numFields) /\ has_name d r name)).
Proof.
  intros Hd. pose proof (name_hash_range name) as Hh. unfold field_id.
  destruct (lookup_lt_is_Some_2 d.(nameHash) (Z.to_nat (name_hash name))) as [head Hhead];
    [rewrite (fo_hash d Hd); lia|]. rewrite Hhead.
  destruct (fo_chain d Hd _ _ Hhead) as (l & Hc & Hnd & Hl).
  assert (Hin : forall id, id ∈ l -> exists f nm, field_at d id = Ok f /\ stored f nm).
  { intros id (nm & (f & Hf & Hn) & _)%Hl. exists f, nm. split; [done|]. by apply (fo_stored d Hd id). }
  destruct (field_id_loop_spec d name head l FIELD_FUEL Hc) as (r & E & Hres); [|done|].
  { apply chain_short; [done|]. intros id (nm & Hn & _)%Hl. by apply (has_name_ok d id nm). }
  exists r. split; [done|]. destruct Hres as [[-> Hno]|[_ Hh']]; [left|right].
  - split; [done|]. intros id Hid. apply (Hno id); [|done]. apply Hl. by exists name.
  - split; [|done]. destruct (has_name_ok d r name Hd Hh'). lia.
Qed.

(** The state after [add_named] on an unnamed entry. *)
Lemma add_named_ok d id name f head f' used dv :
  fields_ok d -> 0 <= id <= MAXFIELDS_PER_TABLE -> field_at d id = Ok f -> f.(fieldName) = None ->
  d.(nameHash) !! Z.to_nat (name_hash name) = Some head -> stored f' name -> f'.(next) = head ->
  let d' := with_fields d (<[Z.to_nat id := f']> d.(fieldList)) (<[Z.to_nat (name_hash name) := id]> d.(nameHash))
              used (if d.(numFields) <? id then id else d.(numFields)) dv in
  fields_ok d' /\ field_at d' id = Ok f' /\ (forall j, j <> id -> field_at d' j = field_at d j).
Proof.
  intros Hd Hid Hf Hnone Hhead Hs Hnext d'.
  pose proof (proj1 (field_at_lookup d id f) Hf) as [_ Hlk].
  assert (Hlen : (Z.to_nat id < length d.(fieldList))%nat) by (by eapply lookup_lt_Some).
  assert (Hat : field_at d' id = Ok f').
  { apply field_at_lookup. split; [lia|]. simpl. by apply list_lookup_insert_eq. }
  assert (Hother : forall j, j <> id -> field_at d' j = field_at d j).
  { intros j Hj. unfold field_at. simpl. destruct (Z.ltb_spec j 0); [done|].
    by rewrite list_lookup_insert_ne by lia. }
  split; [|done].
  assert (Hnn : forall j nm, has_name d' j nm <-> (j = id /\ nm = name) \/ (j <> id /\ has_name d j nm)).
  { intros j nm. unfold has_name. destruct (decide (j = id)) as [-> |Hj].
    - rewrite Hat. destruct Hs as (Hn & _). split; [|intros [[_ ->]|[? _]]; [by exists f'|done]].
      intros (g & <-%Ok_inj & Hg). left. split; [done|congruence].
    - rewrite Hother by done. split; [by right|intros [[? _]|[_ ?]]; done]. }
  assert (Hout : forall h (l : list Z), (forall j, j ∈ l <-> exists nm, has_name d j nm /\ Z.to_nat (name_hash nm) = h) -> id ∉ l).
  { intros h l Hl (nm & (g & Hg & Hn) & _)%Hl. rewrite Hf in Hg. apply Ok_inj in Hg as <-. congruence. }
  split.
  - simpl. rewrite length_insert. apply (fo_len d Hd).
  - simpl. rewrite length_insert. apply (fo_hash d Hd).
  - intros j g nm Hg Hn. simpl. destruct (decide (j = id)) as [-> |Hj].
    + rewrite Hat in Hg. apply Ok_inj in Hg as <-. assert (nm = name) as -> by (destruct Hs; congruence).
      split; [done|]. destruct (Z.ltb_spec d.(numFields) id); lia.
    + rewrite Hother in Hg by done. destruct (fo_stored d Hd j g nm Hg Hn) as [? ?]. split; [done|].
      destruct (Z.ltb_spec d.(numFields) id); lia.
  - simpl. pose proof (fo_num d Hd). destruct (Z.ltb_spec d.(numFields) id); lia.
  - simpl. intros h hd Hh. destruct (decide (h = Z.to_nat (name_hash name))) as [-> |Hne].
    + rewrite list_lookup_insert_eq in Hh by (by eapply lookup_lt_Some). injection Hh as <-.
      destruct (fo_chain d Hd _ _ Hhead) as (l & Hc & Hnd & Hl).
      pose proof (Hout _ _ Hl) as Hid'.
      exists (id :: l). split; [|split].
      * apply (chain_step _ id f'); [unfold MAXFIELDS_PER_TABLE, HASHSTOP in *; lia|by apply list_lookup_insert_eq|].
        rewrite Hnext. apply chain_insert; [done|done|lia].
      * by constructor.
      * intros j. rewrite elem_of_cons, Hl. setoid_rewrite Hnn. split.
        -- intros [-> |(nm & Hn & E)]; [exists name; tauto|]. exists nm. split; [|done]. right. split; [|done].
           intros ->. apply Hid', Hl. by exists nm.
        -- intros (nm & [[-> ->]|[_ Hn]] & E); [by left|right; by exists nm].
    + rewrite list_lookup_insert_ne in Hh by done.
      destruct (fo_chain d Hd _ _ Hh) as (l & Hc & Hnd & Hl).
      pose proof (Hout _ _ Hl) as Hid'.
      exists l. split; [apply chain_insert; [done|done|lia]|]. split; [done|].
      intros j. rewrite Hl. setoid_rewrite Hnn. split.
      * intros (nm & Hn & E). exists nm. split; [|done]. right. split; [|done]. intros ->. apply Hid', Hl. by exists nm.
      * intros (nm & [[-> ->]|[_ Hn]] & E); [congruence|by exists nm].
Qed.

(** [add_field] changes the fields, their chains, two counters and the defaults. *)
Definition same_rest (d d' : DTCTableDefinition) : Prop :=
  d'.(maxFields) = d.(maxFields) /\ d'.(attr) = d.(attr) /\ d'.(tableName) = d.(tableName) /\
  d'.(hash) = d.(hash) /\ d'.(keyFields) = d.(keyFields).

(** What [add_field] asks of its arguments. *)
Definition addable (d : DTCTableDefinition) (id : Z) (name : list Z) (type size : Z) : Prop :=
  0 <= id <= MAXFIELDS_PER_TABLE /\ id < d.(maxFields) /\
  (exists f, field_at d id = Ok f /\ f.(fieldName) = None) /\
  (exists dv, check_type type size = inr dv) /\ (1 <= length name <= 255)%nat.

Lemma add_field_success d id name type size :
  fields_ok d -> is_u 8 type -> addable d id name type size ->
  exists d' f', add_field d id name type size = Ok (0, d') /\ fields_ok d' /\ same_rest d d' /\
    field_at d' id = Ok f' /\ stored f' name /\ f'.(fieldType) = type /\ f'.(fieldSize) = size /\
    (forall j, j <> id -> field_at d' j = field_at d j) /\ d'.(numFields) = Z.max d.(numFields) id.
Proof.
  intros Hd Ht (Hid & Hmax & (f & Hf & Hnone) & (dv & Hdv) & Hn). unfold add_field.
  assert (((id <? 0) || (MAXFIELDS_PER_TABLE <? id) || (d.(maxFields) <=? id)) = false) as ->.
  { rewrite !orb_false_iff, !Z.ltb_ge, Z.leb_gt. lia. }
  rewrite Hf. cbn [obind]. rewrite Hnone, Hdv. unfold add_named.
  assert (((Z.of_nat (length name) =? 0) || (255 <? Z.of_nat (length name))) = false) as ->.
  { rewrite orb_false_iff, Z.eqb_neq, Z.ltb_ge. lia. }
  change (field_at (with_defaultValue d _) id) with (field_at d id). rewrite Hf. cbn [obind].
  destruct (lookup_lt_is_Some_2 d.(nameHash) (Z.to_nat (name_hash name))) as [head Hhead];
    [rewrite (fo_hash d Hd); pose proof (name_hash_range name); lia|].
  change (nameHash (with_defaultValue d ?x)) with (nameHash d). rewrite Hhead.
  set (f' := mkField _ _ _ _ _ _ _ _ _).
  assert (Hu : forall w v, is_u w v -> wrap w v = v) by (intros; by apply wrap_small).
  assert (Hs : stored f' name).
  { unfold f', stored. simpl. unfold u8. rewrite (Hu 8 type Ht), Hu by (unfold is_u; change (2 ^ 8) with 256; lia).
    split_and!; eauto; lia. }
  destruct (add_named_ok d id name f head f' (if id =? 0 then d.(usedFields) else s32 (d.(usedFields) + 1))
    ((fun l => <[Z.to_nat id := dv]> l) <$> d.(defaultValue)) Hd Hid Hf Hnone Hhead Hs eq_refl) as (Hok & Hat & Hother).
  eexists _, f'. split; [reflexivity|]. split; [exact Hok|]. split; [done|]. split; [exact Hat|]. split; [done|].
  split; [by apply (Hu 8)|]. split; [done|]. split; [exact Hother|]. simpl. destruct (Z.ltb_spec d.(numFields) id); lia.
Qed.

(** An error leaves the fields as they are. *)
Lemma add_field_error d id name type size :
  fields_ok d -> ~ addable d id name type size ->
  exists rv d', add_field d id name type size = Ok (rv, d') /\ rv < 0 /\ fields_ok d' /\
    d'.(fieldList) = d.(fieldList) /\ d'.(nameHash) = d.(nameHash) /\ d'.(numFields) = d.(numFields).
Proof.
  intros Hd Hna. unfold add_field.
  destruct ((id <? 0) || (MAXFIELDS_PER_TABLE <? id) || (d.(maxFields) <=? id)) eqn:Er; [by eexists _, _|].
  rewrite !orb_false_iff, !Z.ltb_ge, Z.leb_gt in Er. destruct Er as [[Hr1 Hr2] Hr3].
  destruct (lookup_lt_is_Some_2 d.(fieldList) (Z.to_nat id)) as [f Hf]; [pose proof (fo_len d Hd); lia|].
  assert (Hat : field_at d id = Ok f) by (by apply field_at_lookup). rewrite Hat. cbn [obind].
  destruct (fieldName f) eqn:En; [by eexists _, _|].
  destruct (check_type type size) as [e|dv] eqn:Et.
  - eexists _, _. split; [done|]. split; [|done]. unfold check_type in Et. repeat case_match; simplify_eq; done.
  - unfold add_named. destruct ((Z.of_nat (length name) =? 0) || (255 <? Z.of_nat (length name))) eqn:El.
    + eexists _, _. split; [done|]. split; [done|]. split; [|done]. by destruct Hd.
    + exfalso. apply Hna. rewrite orb_false_iff, Z.eqb_neq, Z.ltb_ge in El.
      split; [lia|]. split; [done|]. split; [by exists f|]. split; [by exists dv|lia].
Qed.

Lemma add_field_cases d id name type size :
  addable d id name type size \/ ~ addable d id name type size.
Proof.
  destruct (decide (0 <= id <= MAXFIELDS_PER_TABLE)); [|right; unfold addable; tauto].
  destruct (decide (id < d.(maxFields))); [|right; unfold addable; tauto].
  destruct (decide (1 <= length name <= 255)%nat); [|right; unfold addable; tauto].
  destruct (field_at d id) as [f|e|] eqn:Hf; [|right; intros (_ & _ & (? & E & _) & _); congruence..].
  destruct (fieldName f) eqn:Hn; [right; intros (_ & _ & (? & E & ?) & _); congruence|].
  destruct (check_type type size) as [e|dv] eqn:Ht; [right; intros (_ & _ & _ & (? & E) & _); congruence|].
  left. unfold addable. eauto 10.
Qed.

End FieldFacts.

(** ** Packing and unpacking *)
Module PackFacts.
Import ReaderFacts LengthFacts ValueFacts SectionFacts FieldFacts.

Section WithLibc.
Variable print_double : Z -> list Z.
Variable scan_double : list Z -> option Z.

(** A definition the wire format can carry: no gap in the field ids, at most 255
    fields, a table name, attributes of the attribute section. *)
Record packable (d : DTCTableDefinition) : Prop := {
  pk_fields : fields_ok d;
  pk_num : 0 < d.(numFields) < MAXFIELDS_PER_TABLE;
  pk_named : forall id, 0 <= id <= d.(numFields) ->
    exists nm, has_name d id nm /\ Forall (fun c => 0 < c < 256) nm;
  pk_table : exists nm, string_of_bin d.(tableName) = Ok nm /\ d.(tableName).(len) = Z.of_nat (length nm) /\
    (1 <= length nm <= 255)%nat;
  pk_def : d.(attr).(definition) = tableAttributeDefinition;
  pk_attr : section_encodable print_double scan_double d.(attr) DField.None
}.

(** The two sides agree on a field. *)
Definition same_field (d c : DTCTableDefinition) (id : Z) : Prop :=
  exists f g, field_at d id = Ok f /\ field_at c id = Ok g /\ g.(fieldName) = f.(fieldName) /\
    g.(fieldType) = f.(fieldType) /\ g.(fieldSize) = f.(fieldSize) /\ g.(nameLen) = f.(nameLen).

Lemma check_type_size type size dv : check_type type size = inr dv -> 0 < size <= MAXPACKETSIZE.
Proof.
  unfold check_type. change MAXPACKETSIZE with 67108864.
  destruct (Z.leb_spec size 0); [done|].
  destruct (_ || _); [destruct (Z.ltb_spec 8 size); [done|lia]|].
  destruct (type =? DField.Float); [destruct (Z.eqb_spec size 8), (Z.eqb_spec size 4); simpl; try done; lia|].
  destruct (_ || _); [destruct (Z.ltb_spec 67108864 size); [done|lia]|done].
Qed.

Lemma rtake_app L nm rest : rtake (length nm) (reader L (nm ++ rest)) = (Ok nm, reader L (nm ++ rest)).
Proof.
  unfold rtake, reader. simpl. rewrite (proj2 (Nat.leb_le _ _)) by (rewrite length_app; lia).
  by rewrite take_app_length.
Qed.

Lemma pack_field_eq d id f nm :
  field_at d id = Ok f -> stored f nm -> 0 <= id <= MAXFIELDS_PER_TABLE ->
  pack_field d id = [id; f.(fieldType)] ++ encode_length f.(fieldSize) ++ [Z.of_nat (length nm)] ++ nm.
Proof.
  intros Hf (Hn & Hl & Hr & Ht & dv & Hdv) Hid. unfold pack_field. rewrite Hf, Hn, Hl.
  assert (u8 id = id) as -> by (unfold u8; apply wrap_small; unfold is_u, MAXFIELDS_PER_TABLE in *; change (2 ^ 8) with 256; lia).
  apply check_type_size in Hdv. change MAXPACKETSIZE with 67108864 in Hdv.
  assert (u32 f.(fieldSize) = f.(fieldSize)) as ->; [|done].
  unfold u32. apply wrap_small. unfold is_u. change (2 ^ 32) with 4294967296. lia.
Qed.

(** One field description. *)
Lemma unpack_round nf c id f nm rest L :
  stored f nm -> Forall (fun ch => 0 < ch < 256) nm -> fields_ok c -> addable c id nm f.(fieldType) f.(fieldSize) ->
  let bs := [id; f.(fieldType)] ++ encode_length f.(fieldSize) ++ [Z.of_nat (length nm)] ++ nm in
  Z.of_nat (length bs) <= L ->
  exists c' g, unpack_fields (S nf) c (reader L (bs ++ rest))
    = unpack_fields nf c' (reader (L - Z.of_nat (length bs)) rest) /\
    fields_ok c' /\ same_rest c c' /\ field_at c' id = Ok g /\ stored g nm /\
    g.(fieldType) = f.(fieldType) /\ g.(fieldSize) = f.(fieldSize) /\
    (forall j, j <> id -> field_at c' j = field_at c j) /\ c'.(numFields) = Z.max c.(numFields) id.
Proof.
  intros (Hn & Hl & Hr & Ht & dv & Hdv) Hnm Hc Hadd bs HL.
  destruct (add_field_success c id nm f.(fieldType) f.(fieldSize) Hc Ht Hadd)
    as (c' & g & Eadd & Hc' & Hrest & Hg & Hs & Hty & Hsz & Hother & Hnum).
  exists c', g. split; [|done]. pose proof (check_type_size _ _ _ Hdv) as Hsize.
  assert (Hmax : MAXPACKETSIZE = 67108864) by done.
  assert (Hu : is_u 32 f.(fieldSize)) by (unfold is_u; change (2 ^ 32) with 4294967296; lia).
  pose proof (encode_length_length f.(fieldSize)) as Le.
  assert (1 <= encoded_bytes_length f.(fieldSize)) by (unfold encoded_bytes_length; bcases; lia).
  unfold bs in *. rewrite !length_app in HL |- *. simpl length in HL |- *.
  cbn [unpack_fields]. rewrite rbind_rshort by lia.
  change ((([id; fieldType f] ++ ?x) ++ rest)) with (id :: fieldType f :: (x ++ rest)).
  rewrite !rbind_rbyte, <-!app_assoc.
  erewrite rbind_ok by (apply decode_length_encode; [done|lia|lia]).
  rewrite rbind_rshort by lia. change ([?x] ++ ?y) with (x :: y). rewrite rbind_rbyte.
  rewrite rbind_rshort by lia. rewrite (proj2 (Z.eqb_neq _ _)) by lia. cbn [orb].
  rewrite Nat2Z.id. erewrite rbind_ok by apply rtake_app.
  erewrite rbind_ok by (unfold rskip; rewrite bin_skip_app; reflexivity).
  rewrite cstr_id by done. assert (s32 f.(fieldSize) = f.(fieldSize)) as ->.
  { unfold s32. apply swrap_small; [lia|]. unfold is_s. change (2 ^ (32 - 1)) with 2147483648. lia. }
  rewrite Eadd. erewrite rbind_ok by reflexivity. cbn [Z.eqb]. do 2 f_equal. lia.
Qed.

(** All of them, in order. *)
Lemma unpack_fields_pack d m k c rest L :
  packable d -> 0 <= k -> k + Z.of_nat m = d.(numFields) + 1 ->
  fields_ok c -> c.(maxFields) = d.(numFields) + 1 -> c.(numFields) = Z.max 0 (k - 1) ->
  (forall i, 0 <= i < k -> same_field d c i) ->
  (forall i, k <= i <= d.(numFields) -> exists g, field_at c i = Ok g /\ g.(fieldName) = None) ->
  let bs := concat (pack_field d <$> seqZ k (Z.of_nat m)) in
  Z.of_nat (length bs) <= L ->
  exists c', unpack_fields m c (reader L (bs ++ rest)) = (Ok c', reader (L - Z.of_nat (length bs)) rest) /\
    fields_ok c' /\ same_rest c c' /\ c'.(numFields) = d.(numFields) /\
    (forall i, 0 <= i <= d.(numFields) -> same_field d c' i).
Proof.
  intros Hd. revert k c L; induction m as [|m IH]; intros k c L Hk Hkm Hc Hmax Hnum Hsame Hnone bs HL.
  { exists c. pose proof (pk_num d Hd). split; [unfold bs; simpl; unfold rret; do 2 f_equal; lia|].
    split; [done|]. split; [done|]. split; [lia|]. intros i Hi. apply Hsame. lia. }
  pose proof (pk_num d Hd) as HN.
  destruct (pk_named d Hd k) as (nm & (f & Hf & Hfn) & Hnm); [lia|].
  destruct (fo_stored d (pk_fields d Hd) k f nm Hf Hfn) as [Hs _].
  assert (Ebs : bs = ([k; f.(fieldType)] ++ encode_length f.(fieldSize) ++ [Z.of_nat (length nm)] ++ nm)
                     ++ concat (pack_field d <$> seqZ (Z.succ k) (Z.of_nat m))).
  { unfold bs. rewrite seqZ_cons by lia. rewrite fmap_cons. cbn [concat].
    rewrite (pack_field_eq d k f nm) by (done || unfold MAXFIELDS_PER_TABLE in *; lia). do 4 f_equal. lia. }
  set (b1 := [k; _] ++ _) in Ebs. set (b2 := concat _) in Ebs. rewrite Ebs in HL |- *. rewrite length_app in HL |- *.
  assert (Hadd : addable c k nm f.(fieldType) f.(fieldSize)).
  { unfold addable, MAXFIELDS_PER_TABLE in *. destruct Hs as (_ & _ & ? & _ & ?).
    destruct (Hnone k) as (g & ? & ?); [lia|]. split; [lia|]. split; [lia|]. split; [by exists g|]. split; [done|lia]. }
  rewrite <-app_assoc. unfold b1 in *. clear b1.
  destruct (unpack_round m c k f nm (b2 ++ rest) L Hs Hnm Hc Hadd) as (c1 & g & E & Hc1 & Hrest & Hg & Hsg & Hty & Hsz & Hother & Hn1); [lia|].
  rewrite E. destruct Hrest as (R1 & R2 & R3 & R4 & R5).
  set (l1 := length ([k; fieldType f] ++ _)) in *.
  destruct (IH (Z.succ k) c1 (L - Z.of_nat l1)) as (c' & E' & Hc' & (S1 & S2 & S3 & S4 & S5) & Hn' & Hsame').
  - lia. - lia. - done. - congruence. - rewrite Hn1, Hnum. lia.
  - intros i Hi. destruct (decide (i = k)) as [-> |Hne].
    + exists f, g. destruct Hs as (? & ? & _), Hsg as (? & ? & _). split_and!; congruence.
    + destruct (Hsame i) as (f0 & g0 & H0 & H1 & H2); [lia|]. exists f0, g0. by rewrite Hother.
  - intros i Hi. rewrite Hother by lia. apply Hnone. lia.
  - fold b2. lia.
  - fold b2 in E'. exists c'. split; [rewrite E'; do 2 f_equal; lia|]. split; [done|]. split; [|done].
    unfold same_rest. split_and!; congruence.
Qed.

(** *** The whole definition *)

Lemma MD5Final_length ctx : length (fst (MD5Final ctx)) = 16%nat.
Proof.
  unfold MD5Final. destruct (if _ <? 8 then _ else _) as [bf i].
  destruct (MD5Transform _ _) as [[[a b] c] d]. cbn [fst]. by rewrite !length_app, !le_bytes_length.
Qed.

Lemma md5_digest_length m : length (md5_digest m) = 16%nat.
Proof. apply MD5Final_length. Qed.

Lemma named_ids_all d k n :
  (forall i, k <= i < k + n -> is_named d i = true) -> named_ids d (seqZ k n) = seqZ k n.
Proof.
  intros H. unfold named_ids. apply filter_all, Forall_forall.
  intros i Hi%elem_of_seqZ. rewrite H by lia. done.
Qed.

(** A client finds the fields the server has, under the same ids. *)
Lemma same_names d c :
  fields_ok d -> fields_ok c -> c.(numFields) = d.(numFields) ->
  (forall i, 0 <= i <= d.(numFields) -> same_field d c i) ->
  (forall i j nm, has_name d i nm -> has_name d j nm -> i = j) ->
  forall nm, field_id c nm = field_id d nm.
Proof.
  intros Hd Hc Hn Hsame Huniq nm.
  assert (Hiff : forall i, has_name c i nm <-> has_name d i nm).
  { intros i. split; intros H; pose proof H as (f & Hf & Hfn).
    - destruct (has_name_ok c i nm Hc H). destruct (Hsame i) as (g & g' & E1 & E2 & E3 & _); [lia|].
      exists g. split; [done|]. congruence.
    - destruct (has_name_ok d i nm Hd H). destruct (Hsame i) as (g & g' & E1 & E2 & E3 & _); [lia|].
      exists g'. split; [done|]. congruence. }
  destruct (field_id_ok c nm Hc) as (r & -> & Hr). destruct (field_id_ok d nm Hd) as (r' & -> & Hr').
  do 2 f_equal. setoid_rewrite Hiff in Hr.
  destruct Hr as [[-> Hno]|[_ Hh]], Hr' as [[-> Hno']|[_ Hh']]; try done; [by destruct (Hno r')|by destruct (Hno' r)|].
  by apply (Huniq _ _ nm).
Qed.

Lemma table_attr_def_ok : def_ok tableAttributeDefinition.
Proof.
  intros id Hid. change MAX_STATIC_SECTION with 20 in Hid. unfold tableAttributeDefinition. cbn [tagType].
  apply nth_overflow. cbn [length]. lia.
Qed.

(** What [build_info_cache] puts after the digest. *)
Definition packed_body (d : DTCTableDefinition) (tn at_ : list Z) : list Z :=
  [1; Z.of_nat (length tn)] ++ tn ++ [d.(numFields) + 1]
  ++ concat (pack_field d <$> seqZ 0 (d.(numFields) + 1)) ++ at_.

Lemma byte_small v : 0 <= v < 256 -> u8 v = v.
Proof. intros H. unfold u8. apply wrap_small. exact H. Qed.

Lemma build_info_cache_packable d :
  packable d -> exists tn at_ d', string_of_bin d.(tableName) = Ok tn /\ (1 <= length tn <= 255)%nat /\
    encode_simple_section print_double d.(attr) DField.None = Ok at_ /\
    build_info_cache print_double d = Ok d' /\
    let p := md5_digest (packed_body d tn at_) ++ packed_body d tn at_ in
    d'.(packedTableDefinition) = mkBin (Z.of_nat (length p)) (Some p) /\
    d'.(hash) = md5_digest (packed_body d tn at_).
Proof.
  intros Hd. pose proof (pk_num d Hd) as HN. unfold MAXFIELDS_PER_TABLE in HN.
  destruct (pk_table d Hd) as (tn & Htn & Hlen & Hr).
  destruct (encode_tags_total print_double scan_double d.(attr) DField.None (section_ids d.(attr)) (pk_attr d Hd)) as [at_ Hat].
  unfold build_info_cache. rewrite (proj2 (Z.leb_gt _ _)) by lia. rewrite Htn.
  change (encode_simple_section print_double d.(attr) DField.None = Ok at_) in Hat. rewrite Hat. cbn [obind].
  rewrite (named_ids_all d 0 (numFields d + 1)).
  2: { intros i Hi. destruct (pk_named d Hd i) as (nm & (f & Hf & Hfn) & _); [lia|]. unfold is_named.
       by rewrite Hf, Hfn. }
  rewrite length_seqZ, Z2Nat.id, Hlen, !byte_small by lia.
  exists tn, at_. eexists. split_and!; try done; lia.
Qed.

(** The client side of the exchange, from the first byte after the digest. *)
Lemma unpack_body_packed d g h tn at_ :
  packable d -> string_of_bin d.(tableName) = Ok tn -> (1 <= length tn <= 255)%nat ->
  encode_simple_section print_double d.(attr) DField.None = Ok at_ ->
  let body := packed_body d tn at_ in
  exists c a, fst (unpack_body scan_double (DTCTableDefinition_new 0 g) h (reader (Z.of_nat (length body)) body))
      = Ok (with_attr c a) /\
    fields_ok c /\ c.(numFields) = d.(numFields) /\ (forall i, 0 <= i <= d.(numFields) -> same_field d c i) /\
    c.(tableName) = mkBin (Z.of_nat (length tn)) (Some (tn ++ [0])) /\ c.(hash) = h /\
    (forall id, tag_present a id = tag_present d.(attr) id) /\
    (forall id v, get_tag d.(attr) id = Some v -> exists v', get_tag a id = Some v' /\ same_value v v').
Proof.
  intros Hd Htn Hr Hat body. pose proof (pk_num d Hd) as HN. unfold MAXFIELDS_PER_TABLE in HN.
  unfold body, packed_body. set (fs := concat _). rewrite !length_app. simpl length.
  unfold unpack_body. simpl app. rewrite rbind_rbyte. change (negb (1 =? 1)) with false. cbv iota.
  rewrite rbind_rbyte, rbind_rshort by lia. rewrite (proj2 (Z.eqb_neq _ _)) by lia. cbn [orb].
  rewrite Nat2Z.id. erewrite rbind_ok by apply rtake_app.
  erewrite rbind_ok by (unfold rskip; rewrite bin_skip_app; reflexivity).
  rewrite rbind_rbyte. rewrite (proj2 (Z.eqb_neq _ _)) by lia.
  set (c0 := with_table _ _ _ _ _).
  assert (Hnone : forall i f, field_at c0 i = Ok f -> fieldName f = None).
  { intros i f. by apply (field_at_replicate c0 (Z.to_nat (numFields d + 1))). }
  assert (Hc0 : fields_ok c0).
  { apply fields_ok_empty; simpl; try done. rewrite length_replicate. lia. }
  destruct (unpack_fields_pack d (Z.to_nat (numFields d + 1)) 0 c0 at_
    (Z.of_nat (2 + (length tn + (1 + (length fs + length at_)))) - 1 - 1 - Z.of_nat (length tn) - 1))
    as (c & E & Hc & (R1 & R2 & R3 & R4 & R5) & Hn & Hsame); try (done || lia).
  { intros i Hi. destruct (lookup_lt_is_Some_2 (fieldList c0) (Z.to_nat i)) as [f Hf]; [simpl; rewrite length_replicate; lia|].
    exists f. assert (Hfa : field_at c0 i = Ok f) by (apply field_at_lookup; split; [lia|done]). split; [done|]. by apply (Hnone i). }
  { rewrite Z2Nat.id by lia. fold fs. lia. }
  rewrite Z2Nat.id in E by lia. fold fs in E. erewrite rbind_ok by exact E.
  replace (_ - Z.of_nat (length fs)) with (Z.of_nat (length at_)) by lia.
  destruct (section_roundtrip print_double scan_double d.(attr) DField.None) as (e & a & He & _ & Hdec & Htags & _ & Hvals).
  { rewrite (pk_def d Hd). apply table_attr_def_ok. } { apply (pk_attr d Hd). }
  rewrite Hat in He. apply Ok_inj in He as <-. rewrite (pk_def d Hd) in Hdec.
  assert (attr c = SimpleSection_new tableAttributeDefinition) as -> by (rewrite R2; done).
  erewrite rbind_ok by exact Hdec. exists c, a. split; [done|].
  split_and!; try done; by rewrite ?R3, ?R4.
Qed.

End WithLibc.
End PackFacts.

(** ** The key columns *)
Module KeyColumns.
Import FieldFacts.

Definition numeric (f : FieldDefinition) : Prop :=
  f.(fieldType) = DField.Signed \/ f.(fieldType) = DField.Unsigned \/ f.(fieldType) = DField.Float.

(** Sum of the sizes of the fields [0 .. n-1]. *)
Fixpoint sizes_before (d : DTCTableDefinition) (n : nat) : Z :=
  match n with
  | O => 0
  | S n => sizes_before d n + match field_at d (Z.of_nat n) with Ok f => f.(fieldSize) | _ => 0 end
  end.

(** A key column after the loop: read-only, at the offset of the sizes before it. *)
Definition key_column (d d' : DTCTableDefinition) (i : Z) : Prop :=
  exists f f', field_at d i = Ok f /\ field_at d' i = Ok f' /\ f'.(fieldName) = f.(fieldName) /\
    f'.(fieldType) = f.(fieldType) /\ f'.(fieldSize) = f.(fieldSize) /\
    f'.(offset) = u8 (sizes_before d (Z.to_nat i)) /\ f'.(flags) = Z.lor f.(flags) FF_READONLY.

Lemma field_at_insert d id j f :
  0 <= id -> (exists g, field_at d id = Ok g) ->
  field_at (with_fieldList d (<[Z.to_nat id := f]> d.(fieldList))) j = if decide (j = id) then Ok f else field_at d j.
Proof.
  intros Hid [g Hg]. apply field_at_lookup in Hg as [_ Hg]. unfold field_at. simpl.
  destruct (decide (j = id)) as [-> |Hne].
  - rewrite (proj2 (Z.ltb_ge _ _)) by lia. by rewrite list_lookup_insert_eq by (by eapply lookup_lt_Some).
  - destruct (Z.ltb_spec j 0); [done|]. by rewrite list_lookup_insert_ne by lia.
Qed.

Lemma key_round_numeric d kau maxSize i f :
  0 <= i -> field_at d i = Ok f -> numeric f ->
  exists d' kau', key_round d kau maxSize 0 i = Ok (d', kau', maxSize + f.(fieldSize), 0) /\
    (exists f', field_at d' i = Ok f' /\ f'.(fieldName) = f.(fieldName) /\ f'.(fieldType) = f.(fieldType) /\
      f'.(fieldSize) = f.(fieldSize) /\ f'.(offset) = u8 maxSize /\ f'.(flags) = Z.lor f.(flags) FF_READONLY) /\
    (forall j, j <> i -> field_at d' j = field_at d j) /\ d'.(maxKeySize) = d.(maxKeySize) /\ d'.(numFields) = d.(numFields).
Proof.
  intros Hi Hf Hnum. unfold key_round, mark_as_read_only, or_flags. rewrite Hf. cbn [obind].
  set (g := mkField _ _ _ _ _ (Z.lor _ _) _ _ _).
  rewrite (field_at_insert d i i g) by eauto. rewrite decide_True by done. cbn [obind].
  set (d1 := with_fieldList d _). set (h := mkField _ _ _ _ (u8 maxSize) _ _ _ _).
  assert (((fieldType g =? DField.Signed) || (fieldType g =? DField.Unsigned) || (fieldType g =? DField.Float)) = true) as ->.
  { unfold g; simpl. destruct Hnum as [-> |[-> | ->]]; done. }
  assert (Hg : field_at d1 i = Ok g) by (unfold d1; rewrite field_at_insert by eauto; by rewrite decide_True).
  eexists _, _. split; [reflexivity|]. split; [exists h; rewrite field_at_insert by eauto; by rewrite decide_True|].
  split; [|done]. intros j Hj. rewrite field_at_insert by eauto. rewrite decide_False by done.
  unfold d1. rewrite field_at_insert by eauto. by rewrite decide_False.
Qed.

Lemma key_loop_numeric d0 d kau m k :
  (forall i, 0 <= i < Z.of_nat (k + m) -> exists f, field_at d0 i = Ok f /\ numeric f) ->
  (forall i, 0 <= i < Z.of_nat k -> key_column d0 d i) -> (forall i, Z.of_nat k <= i -> field_at d i = field_at d0 i) ->
  d.(maxKeySize) = d0.(maxKeySize) -> d.(numFields) = d0.(numFields) ->
  exists d' kau', key_loop d kau (sizes_before d0 k) 0 (seqZ (Z.of_nat k) (Z.of_nat m))
      = Ok (d', kau', sizes_before d0 (k + m), 0) /\
    (forall i, 0 <= i < Z.of_nat (k + m) -> key_column d0 d' i) /\ d'.(maxKeySize) = d0.(maxKeySize).
Proof.
  revert d kau k; induction m as [|m IH]; intros d kau k Hall Hcol Hrest Hmk Hnf.
  { rewrite Nat.add_0_r in *. by exists d, kau. }
  destruct (Hall (Z.of_nat k)) as (f & Hf & Hnum); [lia|].
  destruct (key_round_numeric d kau (sizes_before d0 k) (Z.of_nat k) f) as (d1 & kau1 & E & (f' & Hf' & H1 & H2 & H3 & H4 & H5) & Hother & Hmk1 & Hnf1);
    [lia|by rewrite Hrest by lia|done|].
  rewrite seqZ_cons by lia. cbn [key_loop]. rewrite E. cbn [obind].
  destruct (IH d1 kau1 (S k)) as (d' & kau' & E' & Hcol' & Hmk').
  - intros i Hi. apply Hall. lia.
  - intros i Hi. destruct (decide (i = Z.of_nat k)) as [-> |Hne].
    + exists f, f'. rewrite Nat2Z.id. split_and!; done.
    + destruct (Hcol i) as (g & g' & G1 & G2 & G3); [lia|]. exists g, g'. by rewrite Hother.
  - intros i Hi. rewrite Hother by lia. apply Hrest. lia.
  - congruence.
  - congruence.
  - exists d', kau'. replace (k + S m)%nat with (S k + m)%nat by lia. split; [|done]. rewrite <-E'. f_equal.
    + cbn [sizes_before]. by rewrite Hf.
    + f_equal; lia.
Qed.

Lemma set_key_field_count_ok a n :
  a.(definition) = tableAttributeDefinition -> exists a', set_key_field_count a n = Ok a'.
Proof.
  intros Hd. unfold set_key_field_count, set_tag, tag_type. rewrite Hd. simpl.
  destruct (bool_decide _); by eexists.
Qed.

End KeyColumns.

(** ** Overwriting a field *)
Module Overwrite.
Import FieldFacts.

(** A field whose [next] is itself catches every longer or shorter name. *)
Lemma field_id_loop_cycle d id f name fuel :
  0 <= id < HASHSTOP -> field_at d id = Ok f -> f.(next) = id -> f.(nameLen) <> Z.of_nat (length name) ->
  field_id_loop fuel d name id = None.
Proof.
  intros Hid Hf Hn Hl. induction fuel as [|fuel IH]; cbn [field_id_loop];
    rewrite (proj2 (Z.eqb_neq _ _)) by (unfold HASHSTOP in *; lia); [done|].
  rewrite Hf. rewrite (proj2 (Z.eqb_neq _ _)) by done. cbn [negb]. by rewrite Hn.
Qed.

(** What [add_field_bits] leaves: the entry heads the chain of its name and points to
    the old head. *)
Lemma add_field_bits_ok d id name type size bs bo dv head f :
  0 <= id <= MAXFIELDS_PER_TABLE -> id < d.(maxFields) -> check_type type size = inr dv ->
  (1 <= length name <= 255)%nat -> field_at d id = Ok f -> d.(nameHash) !! Z.to_nat (name_hash name) = Some head ->
  exists d' f', add_field_bits d id name type size bs bo = Ok (0, d') /\ field_at d' id = Ok f' /\
    f'.(next) = head /\ f'.(nameLen) = Z.of_nat (length name) /\
    d'.(nameHash) !! Z.to_nat (name_hash name) = Some id /\ d'.(maxFields) = d.(maxFields).
Proof.
  intros Hid Hmax Hdv Hn Hf Hhead. unfold add_field_bits.
  assert (((id <? 0) || (MAXFIELDS_PER_TABLE <? id) || (d.(maxFields) <=? id)) = false) as ->.
  { rewrite !orb_false_iff, !Z.ltb_ge, Z.leb_gt. lia. }
  rewrite Hdv. unfold add_named.
  assert (((Z.of_nat (length name) =? 0) || (255 <? Z.of_nat (length name))) = false) as ->.
  { rewrite orb_false_iff, Z.eqb_neq, Z.ltb_ge. lia. }
  change (field_at (with_defaultValue d _) id) with (field_at d id). rewrite Hf. cbn [obind].
  change (nameHash (with_defaultValue d ?x)) with (nameHash d). rewrite Hhead.
  pose proof (proj1 (field_at_lookup d id f) Hf) as [_ Hlk].
  eexists _, _. split; [reflexivity|]. split; [apply field_at_lookup; split; [lia|]; simpl;
    by apply list_lookup_insert_eq, (lookup_lt_Some _ _ f)|].
  simpl. split; [done|]. split; [unfold u8; apply wrap_small; unfold is_u; change (2 ^ 8) with 256; lia|].
  split; [|done]. by apply list_lookup_insert_eq, (lookup_lt_Some _ _ head).
Qed.

End Overwrite.

#[local] Opaque md5_digest.

Module TableSpec.
Import ReaderFacts LengthFacts ValueFacts SectionFacts FieldFacts PackFacts KeyColumns Overwrite.

(** C22: a client rebuilds the table the server packed. For a definition the wire
    format can carry, [build_info_cache] succeeds, and [Unpack] of the packed bytes
    into a fresh client definition passes the check of the digest and gives a
    well-formed definition with the same fields (name, type, size) under the same
    ids, the same table name, hash and attributes; if no two fields share a name,
    every lookup by name answers the same on both sides. *)
Theorem Unpack_build_info_cache print_double scan_double d g :
  packable print_double scan_double d ->
  exists d' p c, build_info_cache print_double d = Ok d' /\
    d'.(packedTableDefinition) = mkBin (Z.of_nat (length p)) (Some p) /\
    Unpack scan_double (DTCTableDefinition_new 0 g) p (Z.of_nat (length p)) = Ok c /\
    fields_ok c /\ c.(numFields) = d.(numFields) /\ (forall i, 0 <= i <= d.(numFields) -> same_field d c i) /\
    string_of_bin c.(tableName) = string_of_bin d.(tableName) /\ c.(hash) = d'.(hash) /\
    (forall id, tag_present c.(attr) id = tag_present d.(attr) id) /\
    (forall id v, get_tag d.(attr) id = Some v -> exists v', get_tag c.(attr) id = Some v' /\ same_value v v') /\
    ((forall i j nm, has_name d i nm -> has_name d j nm -> i = j) -> forall nm, field_id c nm = field_id d nm).
Proof.
  intros Hd. destruct (build_info_cache_packable print_double scan_double d Hd) as (tn & at_ & d' & Htn & Hr & Hat & Hb & Hp & Hh).
  set (body := packed_body d tn at_) in *. set (h := md5_digest body) in *.
  assert (Lh : length h = 16%nat) by apply md5_digest_length.
  destruct (unpack_body_packed print_double scan_double d g h tn at_ Hd Htn Hr Hat)
    as (c & a & E & Hc & Hn & Hsame & Htname & Hhash & Htags & Hvals). fold body in E.
  exists d', (h ++ body), (with_attr c a). split; [done|]. split; [done|]. split.
  { unfold Unpack. change (negb (numFields _ =? 0) || _) with false. cbv iota.
    assert (Hbody : (8 <= length body)%nat).
    { unfold body, packed_body. pose proof (pk_num _ _ d Hd).
      destruct (pk_named _ _ d Hd 0) as (nm & (f & Hf & Hfn) & _); [lia|].
      destruct (fo_stored d (pk_fields _ _ d Hd) 0 f nm Hf Hfn) as [Hs _].
      rewrite seqZ_cons, fmap_cons, (pack_field_eq d 0 f nm) by (done || lia). cbn [concat].
      destruct Hs as (_ & _ & ? & _). pose proof (encode_length_length f.(fieldSize)) as Le.
      assert (1 <= encoded_bytes_length f.(fieldSize)) by (unfold encoded_bytes_length; bcases; lia).
      rewrite !length_app. simpl length. lia. }
    rewrite length_app, Lh.
    assert ((Z.of_nat (16 + length body) <? 24) = false) as -> by (apply Z.ltb_ge; lia).
    rewrite Z.ltb_irrefl. replace (Z.to_nat (Z.of_nat (16 + length body)) - 16)%nat with (length body) by lia.
    rewrite drop_app_length', take_app_length' by done. rewrite take_ge by lia. fold h.
    rewrite bool_decide_true by done. cbn [negb].
    replace (Z.of_nat (16 + length body) - 16) with (Z.of_nat (length body)) by lia. exact E. }
  split; [by destruct Hc|]. split; [done|]. split; [exact Hsame|].
  split; [cbn [tableName with_attr]; by rewrite Htname, Htn, string_of_bin_app|].
  split; [cbn [hash with_attr]; by rewrite Hhash, Hh|]. do 2 (split; [done|]).
  intros Hu. apply same_names; [exact (pk_fields _ _ d Hd)|by destruct Hc|exact Hn|exact Hsame|exact Hu].
Qed.

(** A table of two fields. *)
Definition garbage_table : DTCTableDefinition :=
  mkTable [] [] (SimpleSection_new tableAttributeDefinition) 0 0 0 0 (mkBin 0 None) [] None
    (mkBin 0 None) (mkBin 0 None) (mkBin 0 None) [] 0 0 0 0 0 0 0 0 0.
Definition build (fs : list (list Z * Z * Z)) : outcome DTCTableDefinition :=
  snd (fold_left (fun st f => let '(id, d) := st in let '(nm, ty, sz) := f in
    (id + 1, let! d := d in let! r := add_field d id nm ty sz in
             if fst r =? 0 then Ok (snd r) else Fault))
    fs (0, Ok (DTCTableDefinition_new (Z.of_nat (length fs)) garbage_table))).
Definition sample_fields : list (list Z * Z * Z) := [([105; 100], DField.Unsigned, 8); ([110; 109], DField.String, 300)].
Definition sample_table : DTCTableDefinition :=
  match build sample_fields with
  | Ok d => match set_single_row d.(attr) with
            | Ok a => set_table_name (with_attr d a) [116; 98; 108]
            | _ => garbage_table
            end
  | _ => garbage_table
  end.

Lemma sample_fields_ok : fields_ok sample_table.
Proof.
  assert (H0 : fields_ok (DTCTableDefinition_new 2 garbage_table)) by (apply fields_ok_new; lia).
  destruct (add_field_success _ 0 [105; 100] DField.Unsigned 8 H0) as (d1 & f1 & E1 & H1 & _ & _ & _ & _ & _ & O1 & N1);
    [by vm_compute|split; [by vm_compute|]; split; [by vm_compute|]; split; [eexists; split; [reflexivity|done]|];
      split; [eexists; reflexivity|simpl; lia]|].
  destruct (add_field_success d1 1 [110; 109] DField.String 300 H1) as (d2 & f2 & E2 & H2 & _).
  { by vm_compute. }
  { vm_compute in E1. apply Ok_inj in E1. injection E1 as <-.
    split; [by vm_compute|]; split; [by vm_compute|]; split; [eexists; split; [reflexivity|done]|].
    split; [eexists; reflexivity|simpl; lia]. }
  vm_compute in E1. apply Ok_inj in E1. injection E1 as <-. vm_compute in E2. apply Ok_inj in E2. injection E2 as <-.
  destruct H2 as [F1 F2 F3 F4 F5]. split; [exact F1|exact F2|exact F3|exact F4|exact F5].
Qed.

Lemma sample_packable : packable (fun _ => []) (fun _ => None) sample_table.
Proof.
  split.
  - exact sample_fields_ok.
  - by vm_compute.
  - intros id Hid. change (numFields sample_table) with 1 in Hid. assert (H : id = 0 \/ id = 1) by lia.
    destruct H as [-> | ->]; eexists; (split; [eexists; split; [vm_compute; reflexivity|reflexivity]|]);
      repeat (constructor; [lia|]); constructor.
  - eexists. split; [vm_compute; reflexivity|]. split; [reflexivity|simpl; lia].
  - reflexivity.
  - split; [by vm_compute|]. intros id Hid.
    assert (H : id = 1).
    { change (fieldMask (attr sample_table)) with ({[1]} ∪ ∅ : gset Z) in Hid. set_solver. }
    subst id. split; [by vm_compute|]. split; [by vm_compute|].
    eexists. split; [vm_compute; reflexivity|]. split; [by vm_compute|]. right. left. reflexivity.
Qed.

Lemma Unpack_build_info_cache_witness :
  exists d' p c, build_info_cache (fun _ => []) sample_table = Ok d' /\
    d'.(packedTableDefinition) = mkBin (Z.of_nat (length p)) (Some p) /\
    Unpack (fun _ => None) (DTCTableDefinition_new 0 garbage_table) p (Z.of_nat (length p)) = Ok c /\
    field_id c [110; 109] = field_id sample_table [110; 109].
Proof.
  destruct (Unpack_build_info_cache _ _ sample_table garbage_table sample_packable)
    as (d' & p & c & H1 & H2 & H3 & _ & _ & _ & _ & _ & _ & _ & H).
  exists d', p, c. split; [exact H1|]. split; [exact H2|]. split; [exact H3|]. apply H.
  intros i j nm Hi Hj. pose proof (has_name_ok _ i nm sample_fields_ok Hi). pose proof (has_name_ok _ j nm sample_fields_ok Hj).
  change (numFields sample_table) with 1 in *. assert (i = 0 \/ i = 1) as Ci by lia. assert (j = 0 \/ j = 1) as Cj by lia.
  destruct Hi as (f & Hf & Hfn), Hj as (g & Hg & Hgn). destruct Ci as [-> | ->], Cj as [-> | ->]; try reflexivity;
    vm_compute in Hf, Hg; apply Ok_inj in Hf as <-; apply Ok_inj in Hg as <-; vm_compute in Hfn, Hgn; congruence.
Defined.

(** C30: [add_field] keeps the table well formed on every branch. It succeeds exactly
    when the id is free and in range, type and size are legal and the name has 1 to
    255 characters, and then that entry alone is new; in every other case it
    returns a negative code and leaves the fields and their chains as they were. *)
Theorem add_field_spec d id name type size :
  fields_ok d -> is_u 8 type ->
  exists rv d', add_field d id name type size = Ok (rv, d') /\ fields_ok d' /\ rv <= 0 /\
    (rv = 0 <-> addable d id name type size) /\
    (rv = 0 -> (exists f, field_at d' id = Ok f /\ stored f name /\ f.(fieldType) = type /\ f.(fieldSize) = size) /\
       (forall j, j <> id -> field_at d' j = field_at d j) /\ d'.(numFields) = Z.max d.(numFields) id) /\
    (rv <> 0 -> d'.(fieldList) = d.(fieldList) /\ d'.(nameHash) = d.(nameHash) /\ d'.(numFields) = d.(numFields)).
Proof.
  intros Hd Ht.
  destruct (add_field_cases d id name type size) as [Ha|Hna].
  - destruct (add_field_success d id name type size Hd Ht Ha) as (d' & f & E & Hok & _ & Hf & Hs & H1 & H2 & H3 & H4).
    exists 0, d'. split; [done|]. split; [done|]. split; [lia|]. split; [done|]. split; [|done]. intros _. eauto 10.
  - destruct (add_field_error d id name type size Hd Hna) as (rv & d' & E & Hneg & Hok & H).
    exists rv, d'. split; [done|]. split; [done|]. split; [lia|]. split; [split; [lia|done]|]. split; [lia|done].
Qed.

Lemma add_field_spec_witness :
  exists rv d', add_field sample_table 1 [120] DField.Signed 4 = Ok (rv, d') /\ rv = - EC_BAD_FIELD_ID /\ fields_ok d'.
Proof.
  destruct (add_field_spec sample_table 1 [120] DField.Signed 4 sample_fields_ok) as (rv & d' & E & Hok & _); [by vm_compute|].
  exists rv, d'. split; [exact E|]. split; [|exact Hok]. vm_compute in E. apply Ok_inj in E. injection E as <- _. reflexivity.
Defined.

(** C31: names resolve to ids. In a well-formed definition every lookup ends within
    the fuel and answers the id of a field of that name, or -1 when there is none;
    a name just added under a free id is found there. *)
Theorem field_id_spec d name :
  fields_ok d ->
  (exists r, field_id d name = Some (Ok r) /\
     ((r = -1 /\ forall id, ~ has_name d id name) \/ (0 <= r <= d.(numFields) /\ has_name d r name))) /\
  (forall id type size, is_u 8 type -> addable d id name type size -> (forall j, ~ has_name d j name) ->
     exists d', add_field d id name type size = Ok (0, d') /\ field_id d' name = Some (Ok id)).
Proof.
  intros Hd. split; [by apply field_id_ok|]. intros id type size Ht Ha Hfresh.
  destruct (add_field_success d id name type size Hd Ht Ha) as (d' & f & E & Hok & _ & Hf & Hs & _ & _ & Hother & _).
  exists d'. split; [done|]. destruct (field_id_ok d' name Hok) as (r & -> & [[-> Hno]|[_ (g & Hg & Hgn)]]).
  - destruct (Hno id). exists f. split; [done|]. apply Hs.
  - do 2 f_equal. destruct (decide (r = id)) as [|Hne]; [done|]. destruct (Hfresh r). exists g. by rewrite <-Hother.
Qed.

Lemma field_id_spec_witness : exists r, field_id sample_table [110; 109] = Some (Ok r) /\ r = 1.
Proof.
  destruct (proj1 (field_id_spec sample_table [110; 109] sample_fields_ok)) as (r & E & _).
  exists r. split; [exact E|]. vm_compute in E. injection E as <-. reflexivity.
Defined.

(** Numeric key columns. For up to 32 numeric key columns (and a key size read as
    below 256) [set_key_fields] succeeds; every key column becomes read-only and is
    placed at the sum of the sizes before it, and the total is stored, truncated to
    16 bits as the key size and to 8 bits as the key format. Nothing rejects a total
    of 256: such a table gets the format 0, which means "variable size". *)
Theorem set_key_fields_numeric d n :
  1 <= n <= 32 -> n <= d.(numFields) + 1 -> d.(maxKeySize) < 256 -> d.(attr).(definition) = tableAttributeDefinition ->
  (forall i, 0 <= i < n -> exists f, field_at d i = Ok f /\ numeric f) ->
  exists d', set_key_fields d n = Ok (0, d') /\ d'.(keyFields) = n /\
    (forall i, 0 <= i < n -> key_column d d' i) /\
    d'.(maxKeySize) = u16 (sizes_before d (Z.to_nat n)) /\ d'.(keyFormat) = u8 (sizes_before d (Z.to_nat n)).
Proof.
  intros Hn Hnf Hmk Hdef Hall. unfold set_key_fields.
  rewrite (proj2 (Z.ltb_ge n 0)), (proj2 (Z.leb_gt n 0)), (proj2 (Z.ltb_ge 32 n)), (proj2 (Z.ltb_ge (numFields d + 1) n)) by lia.
  destruct (set_key_field_count_ok (attr d) n Hdef) as [a ->]. cbn [obind]. set (d1 := with_attr d a).
  destruct (key_loop_numeric d1 d1 2 (Z.to_nat n) 0) as (d' & kau & E & Hcol & Hk);
    [intros i Hi; apply Hall; lia|intros i Hi; lia|done|done|done|].
  change (sizes_before d1 0) with 0 in E. change (Z.of_nat 0) with 0 in E. rewrite Nat.add_0_l, Z2Nat.id in E by lia. rewrite E. cbn [obind Z.eqb].
  cbn [maxKeySize with_keys]. rewrite Hk, (proj2 (Z.leb_gt 256 (maxKeySize d1))) by exact Hmk.
  assert (Hs : forall k, sizes_before d1 k = sizes_before d k) by (induction k as [|k IH]; [done|]; cbn [sizes_before]; by rewrite IH).
  eexists. split; [reflexivity|]. rewrite Hs. split; [done|]. split; [|done].
  intros i Hi. destruct (Hcol i) as (f & f' & H1 & H2 & H3 & H4 & H5 & H6 & H7); [lia|].
  rewrite Hs in H6. exists f, f'. split_and!; assumption.
Qed.

(** 32 columns of 8 bytes: 256 bytes of key, format 0. *)
Definition wide_table : DTCTableDefinition :=
  match build (replicate 32 ([107], DField.Signed, 8)) with Ok d => d | _ => garbage_table end.
Lemma set_key_fields_numeric_witness :
  exists d', set_key_fields wide_table 32 = Ok (0, d') /\ d'.(maxKeySize) = 256 /\ d'.(keyFormat) = 0.
Proof.
  destruct (set_key_fields_numeric wide_table 32) as (d' & E & _ & _ & H1 & H2).
  - lia.
  - by vm_compute.
  - by vm_compute.
  - by vm_compute.
  - intros i Hi. assert (H : forallb (fun i => match field_at wide_table i with
      Ok f => fieldType f =? DField.Signed | _ => false end) (seqZ 0 32) = true) by (vm_compute; reflexivity).
    rewrite forallb_forall in H. specialize (H i). rewrite <-list_elem_of_In, elem_of_seqZ in H.
    destruct (field_at wide_table i) as [f| |]; [|discriminate H; lia..].
    exists f. split; [reflexivity|]. left. apply Z.eqb_eq, H. lia.
  - exists d'. split; [exact E|]. split; [rewrite H1; vm_compute; reflexivity|rewrite H2; vm_compute; reflexivity].
Defined.

(** Overwriting a field makes lookups spin. The overload of [add_field] that
    permits to add a field again links the entry to the old head of its chain; when
    it adds the same name twice in a row under the same id, the entry is its own
    successor, and looking up any name of another length with the same hash never
    ends, whatever the fuel. *)
Theorem add_field_bits_cycle d id name type size bs bo head f :
  0 <= id <= MAXFIELDS_PER_TABLE -> id < d.(maxFields) -> (exists dv, check_type type size = inr dv) ->
  (1 <= length name <= 255)%nat -> field_at d id = Ok f -> d.(nameHash) !! Z.to_nat (name_hash name) = Some head ->
  exists d1 d2, add_field_bits d id name type size bs bo = Ok (0, d1) /\
    add_field_bits d1 id name type size bs bo = Ok (0, d2) /\
    forall other, name_hash other = name_hash name -> length other <> length name ->
      field_id d2 other = None /\ forall fuel, field_id_loop fuel d2 other id = None.
Proof.
  intros Hid Hmax (dv & Hdv) Hn Hf Hhead.
  destruct (add_field_bits_ok d id name type size bs bo dv head f) as (d1 & f1 & E1 & Hf1 & _ & _ & Hh1 & Hm1); [done..|].
  destruct (add_field_bits_ok d1 id name type size bs bo dv id f1) as (d2 & f2 & E2 & Hf2 & Hn2 & Hl2 & Hh2 & _); try done; [lia|].
  exists d1, d2. split; [done|]. split; [done|]. intros other Ho Hlen.
  assert (Hc : forall fuel, field_id_loop fuel d2 other id = None).
  { intros fuel. apply (field_id_loop_cycle d2 id f2); [unfold MAXFIELDS_PER_TABLE, HASHSTOP in *; lia|done|done|lia]. }
  split; [|done]. unfold field_id. rewrite Ho, Hh2. apply Hc.
Qed.

(** The name "a" twice, then "0_", which has the same hash. *)
Lemma add_field_bits_cycle_witness :
  exists d1 d2, add_field_bits (DTCTableDefinition_new 2 garbage_table) 1 [97] 1 4 0 0 = Ok (0, d1) /\
    add_field_bits d1 1 [97] 1 4 0 0 = Ok (0, d2) /\ field_id d2 [48; 95] = None.
Proof.
  destruct (add_field_bits_cycle (DTCTableDefinition_new 2 garbage_table) 1 [97] 1 4 0 0 HASHSTOP empty_field)
    as (d1 & d2 & H1 & H2 & H);
    [by vm_compute|by vm_compute|by eexists|simpl; lia|vm_compute; reflexivity|vm_compute; reflexivity|].
  exists d1, d2. split; [exact H1|]. split; [exact H2|]. apply H; [vm_compute; reflexivity|discriminate].
Defined.

(** The compression flag erases instead of adding. On attributes that hold a
    flag word below 2^56 (the single-row and admin flags do), [set_compress_flag]
    leaves the word 0: neither the old flags nor the field id survive. *)
Theorem set_compress_flag_clears a u n :
  a.(definition) = tableAttributeDefinition -> a.(tagValue) !! 1%nat = Some (DWord u) -> 1 ∈ a.(fieldMask) ->
  0 <= u < 2 ^ 56 ->
  exists a', set_compress_flag a n = Ok a' /\ compress_field_id a' = Ok 0 /\ is_single_row a' = Ok false.
Proof.
  intros Hd Hv Hm Hu. unfold set_compress_flag, attr_u64.
  rewrite get_tag_present by (done || lia). change (Z.to_nat 1) with 1%nat. rewrite Hv. cbn [val_u64 obind].
  assert (Hz : Z.land u (u64 (Z.shiftl (Z.land n 0xFF) 56)) = 0).
  { change 0xFF with (Z.ones 8). rewrite Z.shiftl_mul_pow2, Z.land_ones by lia.
    pose proof (Z.mod_pos_bound n (2 ^ 8) ltac:(lia)) as Hb. unfold u64. rewrite wrap_small; [apply land_above; [exact Hu|lia]|].
    unfold is_u. change (2 ^ 8) with 256 in *. change (2 ^ 56) with 72057594037927936.
    change (2 ^ 64) with 18446744073709551616. lia. }
  rewrite Hz. unfold set_tag, tag_type. rewrite Hd. cbn [tagType tableAttributeDefinition].
  change (negb (nth (Z.to_nat 1) _ _ =? DField.None)) with true. change (MAX_STATIC_SECTION <=? 1) with false. cbv iota.
  rewrite bool_decide_true by done. eexists. split; [reflexivity|].
  set (a' := mkSection _ _ _ _).
  assert (Hg : get_tag a' 1 = Some (set_u64 0)).
  { rewrite get_tag_present by (done || lia). unfold a'. simpl. apply list_lookup_insert_eq.
    apply lookup_lt_Some in Hv. exact Hv. }
  unfold compress_field_id, is_single_row, attr_u64. by rewrite Hg.
Qed.

Lemma set_compress_flag_clears_witness :
  exists a', set_compress_flag sample_table.(attr) 1 = Ok a' /\ compress_field_id a' = Ok 0 /\ is_single_row a' = Ok false.
Proof.
  apply (set_compress_flag_clears sample_table.(attr) 1 1); [reflexivity|vm_compute; reflexivity| |by vm_compute].
  change (fieldMask (attr sample_table)) with ({[1]} ∪ ∅ : gset Z). set_solver.
Defined.

End TableSpec.
