(* ===== verification/Bits.v ===== *)
(** Bit sets over byte memory: [common/bitsop.h] and [common/bitsop.c].

    The operations work on one memory and byte addresses in it, so that the two
    ranges of a copy may lie in the same buffer. An address outside the memory is a
    [Fault]. *)
From Stdlib Require Import ZArith Lia.
From stdpp Require Import base list numbers.
From S2P Require Import Prelude.
Local Open Scope Z_scope.

Definition CHAR_BITS : Z := 8.

Definition byte_at (mem : list Z) (a : Z) : outcome Z :=
  if a <? 0 then Fault else match mem !! Z.to_nat a with Some b => Ok b | None => Fault end.

Definition byte_put (mem : list Z) (a v : Z) : list Z := <[Z.to_nat a := v]> mem.

(** [__set_b], [__clr_b], [__isset_b]: the bit [bit] counted from the address. *)
Definition set_b (bit addr : Z) (mem : list Z) : outcome (list Z) :=
  let a := addr + bit / CHAR_BITS in
  let shift := bit mod CHAR_BITS in
  let! b := byte_at mem a in
  Ok (byte_put mem a (u8 (Z.lor b (Z.shiftl 1 shift)))).

Definition clr_b (bit addr : Z) (mem : list Z) : outcome (list Z) :=
  let a := addr + bit / CHAR_BITS in
  let shift := bit mod CHAR_BITS in
  let! b := byte_at mem a in
  Ok (byte_put mem a (u8 (Z.land b (Z.lnot (Z.shiftl 1 shift))))).

Definition isset_b (bit addr : Z) (mem : list Z) : outcome bool :=
  let a := addr + bit / CHAR_BITS in
  let shift := bit mod CHAR_BITS in
  let! b := byte_at mem a in
  Ok (0 <? Z.land b (Z.shiftl 1 shift)).

(** [__bit_copy]; the two bit numbers are [__u32] and wrap. *)
Fixpoint bit_copy (count : nat) (dest_bit dest src_bit src : Z) (mem : list Z) : outcome (list Z) :=
  match count with
  | O => Ok mem
  | S count =>
    let! s := isset_b src_bit src mem in
    let! mem := (if (s : bool) then set_b dest_bit dest mem else clr_b dest_bit dest mem) in
    bit_copy count (u32 (dest_bit + 1)) dest (u32 (src_bit + 1)) src mem
  end.

(** The table of [bitsop.c], row by row. *)
Definition bitcount_table : list Z :=
  [0; 1; 1; 2; 1; 2; 2; 3; 1; 2; 2; 3; 2; 3; 3; 4;
   1; 2; 2; 3; 2; 3; 3; 4; 2; 3; 3; 4; 3; 4; 4; 5;
   1; 2; 2; 3; 2; 3; 3; 4; 2; 3; 3; 4; 3; 4; 4; 5;
   2; 3; 3; 4; 3; 4; 4; 5; 3; 4; 4; 5; 4; 5; 5; 6;
   1; 2; 2; 3; 2; 3; 3; 4; 2; 3; 3; 4; 3; 4; 4; 5;
   2; 3; 3; 4; 3; 4; 4; 5; 3; 4; 4; 5; 4; 5; 5; 6;
   2; 3; 3; 4; 3; 4; 4; 5; 3; 4; 4; 5; 4; 5; 5; 6;
   3; 4; 4; 5; 4; 5; 5; 6; 4; 5; 5; 6; 5; 6; 6; 7;
   1; 2; 2; 3; 2; 3; 3; 4; 2; 3; 3; 4; 3; 4; 4; 5;
   2; 3; 3; 4; 3; 4; 4; 5; 3; 4; 4; 5; 4; 5; 5; 6;
   2; 3; 3; 4; 3; 4; 4; 5; 3; 4; 4; 5; 4; 5; 5; 6;
   3; 4; 4; 5; 4; 5; 5; 6; 4; 5; 5; 6; 5; 6; 6; 7;
   2; 3; 3; 4; 3; 4; 4; 5; 3; 4; 4; 5; 4; 5; 5; 6;
   3; 4; 4; 5; 4; 5; 5; 6; 4; 5; 5; 6; 5; 6; 6; 7;
   3; 4; 4; 5; 4; 5; 5; 6; 4; 5; 5; 6; 5; 6; 6; 7;
   4; 5; 5; 6; 5; 6; 6; 7; 5; 6; 6; 7; 6; 7; 7; 8].

(** [CountBits(buf, sz)]: [sz] bytes from the start of [buf]. *)
Fixpoint count_loop (n : nat) (buf : list Z) (c : Z) : outcome Z :=
  match n with
  | O => Ok c
  | S n =>
    match buf with
    | [] => Fault
    | b :: buf =>
      match bitcount_table !! Z.to_nat b with
      | Some k => count_loop n buf (s32 (c + k))
      | None => Fault
      end
    end
  end.
Definition CountBits (buf : list Z) (sz : Z) : outcome Z := count_loop (Z.to_nat sz) buf 0.

(** ** What the operations mean *)

(** The bit [n] of the memory, counted from its start. *)
Definition mem_bit (mem : list Z) (n : Z) : bool :=
  match mem !! Z.to_nat (n / 8) with Some b => Z.testbit b (n mod 8) | None => false end.

(** The number of set bits among the first [8 * n]. *)
Definition popcount (mem : list Z) : Z :=
  list_sum_Z ((fun n => if mem_bit mem (Z.of_nat n) then 1 else 0) <$> seq 0 (8 * length mem)).

Module BitsFacts.

Lemma byte_at_in mem a : 0 <= a < Z.of_nat (length mem) -> exists b, byte_at mem a = Ok b /\ mem !! Z.to_nat a = Some b.
Proof.
  intros H. unfold byte_at. rewrite (proj2 (Z.ltb_ge _ _)) by lia.
  destruct (lookup_lt_is_Some_2 mem (Z.to_nat a)) as [b Hb]; [lia|]. rewrite Hb. by exists b.
Qed.

Lemma testbit_shiftl_1 s n : 0 <= s -> 0 <= n -> Z.testbit (Z.shiftl 1 s) n = (n =? s).
Proof.
  intros Hs Hn. rewrite Z.shiftl_mul_pow2, Z.mul_1_l, Z.pow2_bits_eqb by lia. apply Z.eqb_sym.
Qed.

(** Writing a byte moves only its eight bits. *)
Lemma mem_bit_put mem a v n :
  0 <= a < Z.of_nat (length mem) -> 0 <= n ->
  mem_bit (byte_put mem a v) n = if n / 8 =? a then Z.testbit v (n mod 8) else mem_bit mem n.
Proof.
  intros Ha Hn. unfold mem_bit, byte_put. pose proof (Z.div_pos n 8 Hn).
  destruct (Z.eqb_spec (n / 8) a) as [<-|Hne].
  - by rewrite list_lookup_insert_eq by lia.
  - by rewrite list_lookup_insert_ne by lia.
Qed.

(** The bit number from the start of the memory. *)
Lemma bit_index bit addr :
  (addr * 8 + bit) / 8 = addr + bit / 8 /\ (addr * 8 + bit) mod 8 = bit mod 8.
Proof. split; zdm. Qed.

Definition bit_in (mem : list Z) (addr bit : Z) : Prop := 0 <= addr + bit / 8 < Z.of_nat (length mem).

Lemma bit_wise mem addr bit (f : Z -> Z) (g : bool) :
  bytes_ok mem -> bit_in mem addr bit ->
  (forall b, byte_ok b -> forall n, 0 <= n < 8 -> Z.testbit (f b) n = if n =? bit mod 8 then g else Z.testbit b n) ->
  exists b, byte_at mem (addr + bit / 8) = Ok b /\
    bytes_ok (byte_put mem (addr + bit / 8) (u8 (f b))) /\
    length (byte_put mem (addr + bit / 8) (u8 (f b))) = length mem /\
    forall n, 0 <= n -> mem_bit (byte_put mem (addr + bit / 8) (u8 (f b))) n = if n =? addr * 8 + bit then g else mem_bit mem n.
Proof.
  intros Hok Hin Hf. destruct (byte_at_in mem _ Hin) as (b & Hb & Hlk). exists b. split; [done|].
  assert (Hbo : byte_ok b) by (by eapply Forall_lookup_1).
  split; [apply Forall_insert; [done|apply wrap_range; lia]|]. split; [apply length_insert|].
  intros n Hn. rewrite mem_bit_put by done. destruct (bit_index bit addr) as [E1 E2].
  assert (Hmod : 0 <= n mod 8 < 8) by (apply Z.mod_pos_bound; lia).
  destruct (Z.eqb_spec (n / 8) (addr + bit / 8)) as [E|E].
  - unfold u8, wrap. rewrite Z.mod_pow2_bits_low, Hf by (done || lia).
    destruct (Z.eqb_spec (n mod 8) (bit mod 8)) as [E'|E'].
    + by rewrite (proj2 (Z.eqb_eq n _)) by zdm.
    + rewrite (proj2 (Z.eqb_neq n _)) by congruence. unfold mem_bit. by rewrite E, Hlk.
  - rewrite (proj2 (Z.eqb_neq n _)) by congruence. done.
Qed.

Lemma isset_b_spec bit addr mem :
  bytes_ok mem -> bit_in mem addr bit -> isset_b bit addr mem = Ok (mem_bit mem (addr * 8 + bit)).
Proof.
  intros Hok Hin. unfold isset_b, CHAR_BITS. destruct (byte_at_in mem _ Hin) as (b & -> & Hlk). cbn [obind].
  destruct (bit_index bit addr) as [E1 E2]. unfold mem_bit. rewrite E1, E2, Hlk. f_equal.
  pose proof (Z.mod_pos_bound bit 8 ltac:(lia)) as Hm.
  assert (E : Z.land b (Z.shiftl 1 (bit mod 8)) = if Z.testbit b (bit mod 8) then 2 ^ (bit mod 8) else 0).
  { apply Z.bits_inj'. intros n Hn. rewrite Z.land_spec, testbit_shiftl_1 by lia.
    destruct (Z.eqb_spec n (bit mod 8)) as [->|Hne].
    - destruct (Z.testbit b (bit mod 8)); [by rewrite Z.pow2_bits_true by lia|by rewrite Z.bits_0].
    - rewrite andb_false_r. destruct (Z.testbit b (bit mod 8)); [by rewrite Z.pow2_bits_false by lia|by rewrite Z.bits_0]. }
  rewrite E. destruct (Z.testbit b (bit mod 8)); [|done]. apply Z.ltb_lt, pow2_pos. lia.
Qed.

Lemma set_b_spec bit addr mem :
  bytes_ok mem -> bit_in mem addr bit ->
  exists mem', set_b bit addr mem = Ok mem' /\ bytes_ok mem' /\ length mem' = length mem /\
    forall n, 0 <= n -> mem_bit mem' n = (n =? addr * 8 + bit) || mem_bit mem n.
Proof.
  intros Hok Hin. destruct (bit_wise mem addr bit (fun b => Z.lor b (Z.shiftl 1 (bit mod 8))) true) as (b & Hb & H1 & H2 & H3); [done..| |].
  - intros b Hb n Hn. pose proof (Z.mod_pos_bound bit 8 ltac:(lia)).
    rewrite Z.lor_spec, testbit_shiftl_1 by lia. destruct (n =? bit mod 8); [apply orb_true_r|apply orb_false_r].
  - unfold set_b, CHAR_BITS. rewrite Hb. cbn [obind]. eexists. split; [done|]. split; [done|]. split; [done|].
    intros n Hn. rewrite H3 by done. by destruct (n =? addr * 8 + bit).
Qed.

Lemma clr_b_spec bit addr mem :
  bytes_ok mem -> bit_in mem addr bit ->
  exists mem', clr_b bit addr mem = Ok mem' /\ bytes_ok mem' /\ length mem' = length mem /\
    forall n, 0 <= n -> mem_bit mem' n = negb (n =? addr * 8 + bit) && mem_bit mem n.
Proof.
  intros Hok Hin. destruct (bit_wise mem addr bit (fun b => Z.land b (Z.lnot (Z.shiftl 1 (bit mod 8)))) false) as (b & Hb & H1 & H2 & H3); [done..| |].
  - intros b Hb n Hn. pose proof (Z.mod_pos_bound bit 8 ltac:(lia)).
    rewrite Z.land_spec, Z.lnot_spec, testbit_shiftl_1 by lia.
    destruct (n =? bit mod 8); [apply andb_false_r|apply andb_true_r].
  - unfold clr_b, CHAR_BITS. rewrite Hb. cbn [obind]. eexists. split; [done|]. split; [done|]. split; [done|].
    intros n Hn. rewrite H3 by done. by destruct (n =? addr * 8 + bit).
Qed.

(** A copy between two ranges of bits that do not overlap. *)
Lemma bit_copy_spec count db dest sb src mem :
  bytes_ok mem -> 0 <= dest -> 0 <= src -> 0 <= db -> 0 <= sb ->
  db + Z.of_nat count < 2 ^ 32 -> sb + Z.of_nat count < 2 ^ 32 ->
  dest * 8 + db + Z.of_nat count <= 8 * Z.of_nat (length mem) -> src * 8 + sb + Z.of_nat count <= 8 * Z.of_nat (length mem) ->
  (dest * 8 + db + Z.of_nat count <= src * 8 + sb \/ src * 8 + sb + Z.of_nat count <= dest * 8 + db) ->
  exists mem', bit_copy count db dest sb src mem = Ok mem' /\ bytes_ok mem' /\ length mem' = length mem /\
    forall n, 0 <= n -> mem_bit mem' n =
      if (dest * 8 + db <=? n) && (n <? dest * 8 + db + Z.of_nat count)
      then mem_bit mem (n - (dest * 8 + db) + (src * 8 + sb)) else mem_bit mem n.
Proof.
  revert db sb mem; induction count as [|count IH]; intros db sb mem Hok Hd Hs Hdb Hsb Wd Ws Ld Ls Hdis.
  { exists mem. split_and!; try done. intros n Hn. destruct (Z.leb_spec (dest * 8 + db) n), (Z.ltb_spec n (dest * 8 + db + Z.of_nat 0)); simpl; try done; lia. }
  rewrite Nat2Z.inj_succ in *.
  assert (Hind : bit_in mem dest db) by (unfold bit_in; zdm). assert (Hins : bit_in mem src sb) by (unfold bit_in; zdm).
  cbn [bit_copy]. rewrite isset_b_spec by done. cbn [obind].
  set (v := mem_bit mem (src * 8 + sb)).
  assert (Hput : exists mem1, (if v then set_b db dest mem else clr_b db dest mem) = Ok mem1 /\ bytes_ok mem1 /\
    length mem1 = length mem /\ forall n, 0 <= n -> mem_bit mem1 n = if n =? dest * 8 + db then v else mem_bit mem n).
  { destruct v; [destruct (set_b_spec db dest mem Hok Hind) as (m1 & ? & ? & ? & H)|destruct (clr_b_spec db dest mem Hok Hind) as (m1 & ? & ? & ? & H)];
      exists m1; split_and!; try done; intros n Hn; rewrite H by done; by destruct (n =? _). }
  destruct Hput as (mem1 & -> & Hok1 & Hl1 & Hb1). cbn [obind].
  assert (Eu : forall x, 0 <= x < 2 ^ 32 -> u32 x = x) by (intros; unfold u32; by apply wrap_small).
  rewrite !Eu by lia.
  destruct (IH (db + 1) (sb + 1) mem1) as (mem' & -> & Hok' & Hl' & Hb'); try (rewrite ?Hl1; (done || lia)).
  exists mem'. split; [done|]. split; [done|]. split; [congruence|]. intros n Hn. rewrite Hb' by done.
  destruct (Z.eqb_spec n (dest * 8 + db)) as [->|Hne].
  - replace ((dest * 8 + (db + 1) <=? dest * 8 + db)) with false by (symmetry; apply Z.leb_gt; lia). cbn [andb].
    rewrite Hb1, Z.eqb_refl by lia.
    rewrite (proj2 (Z.leb_le _ _)), (proj2 (Z.ltb_lt _ _)) by lia. cbn [andb]. unfold v. f_equal. lia.
  - destruct (Z.leb_spec (dest * 8 + (db + 1)) n), (Z.ltb_spec n (dest * 8 + (db + 1) + Z.of_nat count)),
      (Z.leb_spec (dest * 8 + db) n), (Z.ltb_spec n (dest * 8 + db + Z.succ (Z.of_nat count))); cbn [andb]; try lia;
      rewrite Hb1 by lia; rewrite (proj2 (Z.eqb_neq _ _)) by lia; try done; f_equal; lia.
Qed.

End BitsFacts.

Module CountFacts.

Definition byte_popcount (b : Z) : Z :=
  list_sum_Z ((fun n => if Z.testbit b (Z.of_nat n) then 1 else 0) <$> seq 0 8).

Lemma bitcount_table_spec b : byte_ok b -> bitcount_table !! Z.to_nat b = Some (byte_popcount b).
Proof.
  intros Hb. assert (H : forallb (fun n => bool_decide (bitcount_table !! n = Some (byte_popcount (Z.of_nat n)))) (seq 0 256) = true)
    by (vm_compute; reflexivity).
  rewrite forallb_forall in H. unfold is_u in Hb. change (2 ^ 8) with 256 in Hb.
  specialize (H (Z.to_nat b)). rewrite Z2Nat.id, bool_decide_eq_true in H by lia. apply H, in_seq. lia.
Qed.

Lemma mem_bit_cons b mem n :
  mem_bit (b :: mem) (Z.of_nat n) = if (n <? 8)%nat then Z.testbit b (Z.of_nat n) else mem_bit mem (Z.of_nat (n - 8)).
Proof.
  unfold mem_bit. destruct (Nat.ltb_spec n 8).
  - rewrite Z.div_small, Z.mod_small by lia. done.
  - replace (Z.to_nat (Z.of_nat n / 8)) with (S (Z.to_nat (Z.of_nat (n - 8) / 8))) by zdm. simpl.
    by replace (Z.of_nat n mod 8) with (Z.of_nat (n - 8) mod 8) by zdm.
Qed.

Lemma popcount_cons b mem : popcount (b :: mem) = byte_popcount b + popcount mem.
Proof.
  unfold popcount, byte_popcount. simpl length. replace (8 * S (length mem))%nat with (8 + 8 * length mem)%nat by lia.
  rewrite seq_app, fmap_app, list_sum_Z_app. f_equal.
  rewrite <-(fmap_add_seq 8 0), <-list_fmap_compose. f_equal. apply list_fmap_ext. intros i n _. unfold compose.
  rewrite mem_bit_cons. rewrite (proj2 (Nat.ltb_ge _ _)) by lia. by replace (8 + n - 8)%nat with n by lia.
Qed.

Lemma byte_popcount_range b : 0 <= byte_popcount b <= 8.
Proof. unfold byte_popcount. simpl. repeat case_match; lia. Qed.

Lemma popcount_range mem : 0 <= popcount mem <= 8 * Z.of_nat (length mem).
Proof.
  induction mem as [|b mem IH]; [done|]. rewrite popcount_cons. pose proof (byte_popcount_range b). simpl length. lia.
Qed.

Lemma count_loop_spec n mem c :
  bytes_ok mem -> (n <= length mem)%nat -> 0 <= c -> c + 8 * Z.of_nat n < 2 ^ 31 ->
  count_loop n mem c = Ok (c + popcount (take n mem)).
Proof.
  intros Hok. revert mem c Hok; induction n as [|n IH]; intros mem c Hok Hl Hc Hb.
  { rewrite take_0. change (popcount []) with 0. by rewrite Z.add_0_r. }
  destruct mem as [|b mem]; [simpl in Hl; lia|]. apply Forall_cons_1 in Hok as [Hbo Hok].
  cbn [count_loop take]. rewrite bitcount_table_spec by done. pose proof (byte_popcount_range b).
  assert (s32 (c + byte_popcount b) = c + byte_popcount b) as ->.
  { unfold s32. apply swrap_small; [lia|]. unfold is_s. change (2 ^ (32 - 1)) with 2147483648. change (2 ^ 31) with 2147483648 in Hb. lia. }
  rewrite IH by (simpl in Hl; first [done | lia]). rewrite popcount_cons. f_equal. lia.
Qed.

End CountFacts.

Module BitsSpec.
Import BitsFacts CountFacts.

(** Copying bit ranges. When the ranges lie in the memory and do not overlap,
    [__bit_copy] succeeds, every bit of the destination range becomes the source's
    bit at the same position, and no other bit of the memory changes, whatever the
    alignment of the two ranges. *)
Theorem bit_copy_correct count db dest sb src mem :
  bytes_ok mem -> 0 <= dest -> 0 <= src -> 0 <= db -> 0 <= sb ->
  db + Z.of_nat count < 2 ^ 32 -> sb + Z.of_nat count < 2 ^ 32 ->
  dest * 8 + db + Z.of_nat count <= 8 * Z.of_nat (length mem) -> src * 8 + sb + Z.of_nat count <= 8 * Z.of_nat (length mem) ->
  (dest * 8 + db + Z.of_nat count <= src * 8 + sb \/ src * 8 + sb + Z.of_nat count <= dest * 8 + db) ->
  exists mem', bit_copy count db dest sb src mem = Ok mem' /\ length mem' = length mem /\
    (forall i, 0 <= i < Z.of_nat count -> mem_bit mem' (dest * 8 + db + i) = mem_bit mem (src * 8 + sb + i)) /\
    (forall n, 0 <= n -> n < dest * 8 + db \/ dest * 8 + db + Z.of_nat count <= n -> mem_bit mem' n = mem_bit mem n).
Proof.
  intros. destruct (bit_copy_spec count db dest sb src mem) as (mem' & E & _ & Hl & Hb); try done.
  exists mem'. split; [done|]. split; [done|]. split.
  - intros i Hi. rewrite Hb by lia. rewrite (proj2 (Z.leb_le _ _)), (proj2 (Z.ltb_lt _ _)) by lia. cbn [andb]. f_equal. lia.
  - intros n Hn Hout. rewrite Hb by done.
    destruct (Z.leb_spec (dest * 8 + db) n), (Z.ltb_spec n (dest * 8 + db + Z.of_nat count)); cbn [andb]; try done; lia.
Qed.

(** Five bits from bit 6 of byte 0 to bit 3 of byte 2. *)
Lemma bit_copy_correct_witness :
  exists mem', bit_copy 5 3 2 6 0 [192; 5; 0] = Ok mem' /\ mem' = [192; 5; 184] /\
    mem_bit mem' (2 * 8 + 3 + 1) = mem_bit [192; 5; 0] (0 * 8 + 6 + 1).
Proof.
  destruct (bit_copy_correct 5 3 2 6 0 [192; 5; 0]) as (mem' & E & _ & H & _); try lia; try (by vm_compute).
  - by repeat (constructor; [by vm_compute|]).
  - exists mem'. split; [exact E|]. split; [vm_compute in E; congruence|apply (H 1); lia].
Defined.

(** [CountBits] counts the set bits: on a buffer of bytes (small enough for an
    [int]) it is the number of the first [8 * sz] bits that are set. *)
Theorem CountBits_correct buf sz :
  bytes_ok buf -> 0 <= sz <= Z.of_nat (length buf) -> 8 * sz < 2 ^ 31 ->
  CountBits buf sz = Ok (popcount (take (Z.to_nat sz) buf)).
Proof. intros Hok Hsz Hb. unfold CountBits. rewrite count_loop_spec by (done || lia). done. Qed.

Lemma CountBits_correct_witness : CountBits [255; 3; 128; 77] 3 = Ok 11.
Proof.
  rewrite (CountBits_correct [255; 3; 128; 77] 3); [vm_compute; reflexivity| |simpl; lia|by vm_compute].
  by repeat (constructor; [by vm_compute|]).
Defined.

End BitsSpec.
