(* ===== verification/Field.v ===== *)
(** Field sets, rows and field operations: [common/field.h] and [common/field.cc].

    [DTCFieldValue] is a list of (field, operator, type, value): an update applies
    it to a row, a condition compares a row with it. Doubles are computed with on
    their bits through the Standard Library's binary64 arithmetic. *)
From Stdlib Require Import ZArith Lia SpecFloat.
From stdpp Require Import base list numbers gmap.
From S2P Require Import Prelude Value Codec TableDef Bits.
Local Open Scope Z_scope.

(** ** Doubles on their bits *)

Definition dbl_of_bits (u : Z) : spec_float :=
  let s := Z.testbit u 63 in
  let e := Z.land (Z.shiftr u 52) 0x7FF in
  let m := Z.land u (Z.ones 52) in
  if e =? 0x7FF then (if m =? 0 then S754_infinity s else S754_nan)
  else if e =? 0 then match m with Zpos p => S754_finite s p (-1074) | _ => S754_zero s end
  else match m + 2 ^ 52 with Zpos p => S754_finite s p (e - 1075) | _ => S754_nan end.

(** The NaN an operation produces is the default quiet one. *)
Definition bits_of_dbl (f : spec_float) : Z :=
  let sg (s : bool) := if s then 2 ^ 63 else 0 in
  match f with
  | S754_zero s => sg s
  | S754_infinity s => sg s + 0x7FF0000000000000
  | S754_nan => 0x7FF8000000000000
  | S754_finite s p e =>
    if Zpos p <? 2 ^ 52 then sg s + Zpos p
    else sg s + Z.shiftl (e + 1075) 52 + (Zpos p - 2 ^ 52)
  end.

Definition dbl_add (a b : Z) : Z := bits_of_dbl (SFadd 53 1024 (dbl_of_bits a) (dbl_of_bits b)).
Definition dbl_of_Z (z : Z) : Z := bits_of_dbl (binary_normalize 53 1024 z 0 false).

(** A [float], converted to [double], which is exact. *)
Definition flt_of_bits (u : Z) : spec_float :=
  let sgn (p : positive) := if Z.testbit u 31 then Zneg p else Zpos p in
  let s := Z.testbit u 31 in
  let e := Z.land (Z.shiftr u 23) 0xFF in
  let m := Z.land u (Z.ones 23) in
  if e =? 0xFF then (if m =? 0 then S754_infinity s else S754_nan)
  else if e =? 0 then match m with Zpos p => binary_normalize 53 1024 (sgn p) (-149) s | _ => S754_zero s end
  else match m + 2 ^ 23 with Zpos p => binary_normalize 53 1024 (sgn p) (e - 150) s | _ => S754_nan end.

(** The other way, rounded to nearest; a NaN becomes quiet and keeps the upper part of
    its payload. *)
Definition bits_of_flt (f : spec_float) : Z :=
  let sg (s : bool) := if s then 2 ^ 31 else 0 in
  match f with
  | S754_zero s => sg s
  | S754_infinity s => sg s + 0x7F800000
  | S754_nan => 0x7FC00000
  | S754_finite s p e =>
    if Zpos p <? 2 ^ 23 then sg s + Zpos p
    else sg s + Z.shiftl (e + 150) 23 + (Zpos p - 2 ^ 23)
  end.
Definition flt_of_dbl (u : Z) : Z :=
  match dbl_of_bits u with
  | S754_nan => (if Z.testbit u 63 then 2 ^ 31 else 0) + Z.lor 0x7FC00000 (Z.shiftr (Z.land u (Z.ones 52)) 29)
  | S754_finite s p e => bits_of_flt (binary_normalize 24 128 (if s then Zneg p else Zpos p) e s)
  | f => bits_of_flt f
  end.
Definition dbl_of_flt (u : Z) : Z :=
  match flt_of_bits u with
  | S754_nan => (if Z.testbit u 31 then 2 ^ 63 else 0) + Z.lor 0x7FF8000000000000 (Z.shiftl (Z.land u (Z.ones 23)) 29)
  | f => bits_of_dbl f
  end.

Example flt_1_5 : flt_of_dbl 0x3FF8000000000000 = 0x3FC00000 /\ dbl_of_flt 0x3FC00000 = 0x3FF8000000000000.
Proof. split; vm_compute; reflexivity. Qed.
(** 0.1 is rounded; the least denormal float is 2^-149. *)
Example flt_0_1 : dbl_of_flt (flt_of_dbl 0x3FB999999999999A) = 0x3FB99999A0000000 /\ dbl_of_flt 1 = 0x36A0000000000000.
Proof. split; vm_compute; reflexivity. Qed.

(** ** Rows *)

Record RowValue := mkRow { row_def : DTCTableDefinition; value : list DTCValue }.

(** [value[id]], unchecked in the source. *)
Definition row_at (r : RowValue) (id : Z) : outcome DTCValue :=
  if id <? 0 then Fault else match r.(value) !! Z.to_nat id with Some v => Ok v | None => Fault end.
Definition row_put (r : RowValue) (id : Z) (v : DTCValue) : RowValue :=
  mkRow r.(row_def) (<[Z.to_nat id := v]> r.(value)).

Definition RowValue_new (t : DTCTableDefinition) : RowValue :=
  mkRow t (replicate (Z.to_nat (t.(numFields) + 1)) (DWord 0)).
Definition RowValue_Clean (r : RowValue) : RowValue :=
  mkRow r.(row_def) (replicate (Z.to_nat (r.(row_def).(numFields) + 1)) (DWord 0)).

(** [field_value(id)]: checked. *)
Definition row_field_value (r : RowValue) (id : Z) : outcome (option DTCValue) :=
  if (0 <=? id) && (id <=? r.(row_def).(numFields)) then let! v := row_at r id in Ok (Some v) else Ok None.

(** [update_timestamp(now, updateall)] *)
Definition stamp (r : RowValue) (id now : Z) : outcome RowValue :=
  if 0 <? id then let! _ := row_at r id in Ok (row_put r id (set_u64 now)) else Ok r.
Definition update_timestamp (r : RowValue) (now : Z) (updateall : bool) : outcome RowValue :=
  let t := r.(row_def) in
  let! r := stamp r t.(hasLastacc) now in
  let! r := stamp r t.(hasLastmod) now in
  if updateall then stamp r t.(hasLastcmod) now else Ok r.

(** [update_expire_time()], given [time(NULL)]. *)
Definition update_expire_time (r : RowValue) (time : Z) : outcome RowValue :=
  let id := r.(row_def).(hasExpireTime) in
  if 0 <? id then
    let! v := row_at r id in
    let! e := val_s64 v in
    if 0 <? e then Ok (row_put r id (set_s64 (s64 (e - time)))) else Ok r
  else Ok r.

(** [RowValue::Compare] over a list of field ids: 0 equal, -1 different, -2 a double,
    -3 an unknown type. *)
Fixpoint RowValue_Compare (r rv : RowValue) (ids : list Z) : outcome Z :=
  match ids with
  | [] => Ok 0
  | id :: ids =>
    let! t := field_type r.(row_def) id in
    if (t =? DField.Signed) || (t =? DField.Unsigned) then
      let! v := row_at r id in let! a := val_u64 v in
      let! w := row_field_value rv id in
      match w with
      | None => Fault
      | Some w => let! b := val_u64 w in if a =? b then RowValue_Compare r rv ids else Ok (-1)
      end
    else if t =? DField.Float then Ok (-2)
    else if (t =? DField.String) || (t =? DField.Binary) then
      let! v := row_at r id in let! a := val_bin v in
      let! w := row_field_value rv id in
      match w with
      | None => Fault
      | Some w =>
        let! b := val_bin w in
        let! e := (if t =? DField.String then string_equal a b else binary_equal a b) in
        if (e : bool) then RowValue_Compare r rv ids else Ok (-1)
      end
    else Ok (-3)
  end.

(** ** Field sets *)

(** [fieldId[-2]], [fieldId[-1]], the [max_fields] bytes at [fieldId] and the mask. *)
Record DTCFieldSet := mkFieldSet { fs_max : Z; fs_num : Z; fs_ids : list Z; fs_mask : gset Z }.

Definition clamp255 (n : Z) : Z := if 255 <? n then 255 else n.

(** [build_field_mask(mask)] *)
Definition fs_build_mask (fs : DTCFieldSet) (mask : gset Z) : gset Z :=
  list_to_set (take (Z.to_nat fs.(fs_num)) fs.(fs_ids)) ∪ mask.

Definition DTCFieldSet_new (n : Z) : outcome DTCFieldSet :=
  let n := clamp255 n in
  if n <? 0 then Fault else Ok (mkFieldSet n 0 (replicate (Z.to_nat n) 0) ∅).

(** [memcpy(fieldId, idtab, n)] into [room] bytes that held [old]. *)
Definition copy_ids (old idtab : list Z) (n : Z) : outcome (list Z) :=
  if (n <? 0) || (Z.of_nat (length old) <? n) || (Z.of_nat (length idtab) <? n) then Fault
  else Ok (take (Z.to_nat n) idtab ++ drop (Z.to_nat n) old).

(** [DTCFieldSet(idtab, n)]: the mask [garbage] is not cleared before it is built. *)
Definition DTCFieldSet_ids (idtab : list Z) (n : Z) (garbage : gset Z) : outcome DTCFieldSet :=
  let n := clamp255 n in
  if n <? 0 then Fault else
  let! ids := copy_ids (replicate (Z.to_nat n) 0) idtab n in
  let fs := mkFieldSet n n ids garbage in
  Ok (mkFieldSet n n ids (fs_build_mask fs garbage)).

(** [DTCFieldSet(idtab, n, total)]; the bytes past the [n] copied are [garbage]. *)
Definition DTCFieldSet_total (idtab : list Z) (n total : Z) (garbage : list Z) : outcome DTCFieldSet :=
  let n := clamp255 n in
  let total := clamp255 total in
  if (total <? 0) || (n <? 0) then Fault else
  let! ids := copy_ids (take (Z.to_nat total) garbage) idtab n in
  let fs := mkFieldSet total n ids ∅ in
  Ok (mkFieldSet total n ids (fs_build_mask fs ∅)).

Definition fs_Clean (fs : DTCFieldSet) : DTCFieldSet := mkFieldSet fs.(fs_max) 0 fs.(fs_ids) ∅.

(** [Set(idtab, n)]: the capacity is not checked, the mask not cleared. *)
Definition fs_Set (fs : DTCFieldSet) (idtab : list Z) (n : Z) : outcome DTCFieldSet :=
  let n := clamp255 n in
  let! ids := copy_ids fs.(fs_ids) idtab n in
  let fs' := mkFieldSet fs.(fs_max) n ids fs.(fs_mask) in
  Ok (mkFieldSet fs.(fs_max) n ids (fs_build_mask fs' fs.(fs_mask))).

Definition fs_field_id (fs : DTCFieldSet) (n : Z) : Z :=
  if (0 <=? n) && (n <? fs.(fs_num)) then nth (Z.to_nat n) fs.(fs_ids) 0 else 0.

Definition fs_add_field (fs : DTCFieldSet) (id : Z) : outcome DTCFieldSet :=
  let n := fs.(fs_num) in
  if fs.(fs_max) <=? n then Ok fs else
  if (id <? 0) || (255 <? id) then Fault else
  Ok (mkFieldSet fs.(fs_max) (n + 1) (<[Z.to_nat n := id]> fs.(fs_ids)) ({[id]} ∪ fs.(fs_mask))).

Definition fs_field_present (fs : DTCFieldSet) (id : Z) : bool :=
  if (0 <=? id) && (id <? 255) then bool_decide (id ∈ fs.(fs_mask)) else false.

(** ** Field values *)

Record SFieldValue := mkFV { fv_id : Z; fv_oper : Z; fv_type : Z; fv_val : DTCValue }.

(** The entries in use; [maxFields] is the number allocated. *)
Record DTCFieldValue := mkFieldValue {
  fv_items : list SFieldValue;
  fv_max : Z;
  typeMask0 : Z;
  typeMask1 : Z
}.

Definition fv_num (fv : DTCFieldValue) : Z := Z.of_nat (length fv.(fv_items)).

(** The constructor; without room the masks keep what they held. *)
Definition DTCFieldValue_new (total m0 m1 : Z) : DTCFieldValue :=
  if total <=? 0 then mkFieldValue [] 0 m0 m1 else mkFieldValue [] total 0 0.

Definition fv_Clean (fv : DTCFieldValue) : DTCFieldValue := mkFieldValue [] fv.(fv_max) 0 0.

(** [add_value]: dropped when full. *)
Definition add_value (fv : DTCFieldValue) (id op t : Z) (val : DTCValue) : DTCFieldValue :=
  if fv_num fv =? fv.(fv_max) then fv
  else mkFieldValue (fv.(fv_items) ++ [mkFV id op t val]) fv.(fv_max) fv.(typeMask0) fv.(typeMask1).

(** [update_type_mask(flag)]; the masks are [uint8_t]. *)
Definition update_type_mask (fv : DTCFieldValue) (flag : Z) : DTCFieldValue :=
  mkFieldValue fv.(fv_items) fv.(fv_max) (u8 (Z.lor fv.(typeMask0) flag)) (u8 (Z.lor fv.(typeMask1) (Z.lnot flag))).

Definition has_type_ro (fv : DTCFieldValue) : Z := Z.land fv.(typeMask0) FF_READONLY.
Definition has_type_commit (fv : DTCFieldValue) : Z := Z.land fv.(typeMask1) FF_VOLATILE.

(** ** Operations on one field *)

(** The case labels: [TP(x,y,z)] and [TC(x,y,z)]. *)
Definition TP (x y z : Z) : Z := Z.shiftl x 16 + Z.shiftl y 8 + z.

(** [TruncateIntValue]: the switch on [size * 2 + type]. *)
Definition TruncateIntValue (v type size : Z) : Z :=
  let sat lo hi := if v <? lo then lo else if hi <? v then hi else v in
  let k := size * 2 + type in
  if k =? 1 * 2 + DField.Signed then sat (-0x80) 0x7F
  else if k =? 1 * 2 + DField.Unsigned then sat 0 0xFF
  else if k =? 2 * 2 + DField.Signed then sat (-0x8000) 0x7FFF
  else if k =? 2 * 2 + DField.Unsigned then sat 0 0xFFFF
  else if k =? 3 * 2 + DField.Signed then sat (-0x800000) 0x7FFFFF
  else if k =? 3 * 2 + DField.Unsigned then sat 0 0xFFFFFF
  else if k =? 4 * 2 + DField.Signed then sat (-0x80000000) 0x7FFFFFFF
  else if k =? 4 * 2 + DField.Unsigned then sat 0 0xFFFFFFFF
  else if k =? 5 * 2 + DField.Signed then sat (-0x8000000000) 0x7FFFFFFFFF
  else if k =? 5 * 2 + DField.Unsigned then sat 0 0xFFFFFFFFFF
  else if k =? 6 * 2 + DField.Signed then sat (-0x800000000000) 0x7FFFFFFFFFFF
  else if k =? 6 * 2 + DField.Unsigned then sat 0 0xFFFFFFFFFFFF
  else if k =? 7 * 2 + DField.Signed then sat (-0x80000000000000) 0x7FFFFFFFFFFFFF
  else if k =? 7 * 2 + DField.Unsigned then sat 0 0xFFFFFFFFFFFFFF
  else v.

(** The [Add] case on 64-bit words, before the truncation. *)
Definition add_s64 (v1 v2 : Z) : Z :=
  let s := s64 (v1 + v2) in
  if 0 <? v1 then (if (0 <? v2) && (s <? 0) then 0x7FFFFFFFFFFFFFFF else s)
  else (if (v2 <? 0) && (0 <? s) then - 0x8000000000000000 else s).

(** [SetBits] on an integer: offset, size and bits come packed in the operand. *)
Definition setbits_u64 (v1 v2 : Z) : Z :=
  let off := u32 (Z.shiftr v2 32) in
  let size := Z.shiftr off 24 in
  let off := Z.land off 0xFFFFFF in
  let val := Z.land v2 0xFFFFFFFF in
  if (64 <=? off) || (size =? 0) then v1 else
  let size := if 32 <? size then 32 else size in
  let size := if 64 - off <? size then 64 - off else size in
  let mask := u64 (Z.shiftl (Z.shiftl 1 size - 1) off) in
  Z.lor (Z.land v1 (u64 (Z.lnot mask))) (Z.land (u64 (Z.shiftl val off)) mask).

(** The loop of [SetBits] on bytes. *)
Fixpoint setbits_loop (n : nat) (off val : Z) (mem : list Z) : outcome (list Z) :=
  match n with
  | O => Ok mem
  | S n =>
    let! mem := (if Z.land val 1 =? 0 then clr_b off 0 mem else set_b off 0 mem) in
    setbits_loop n (off + 1) (Z.shiftr val 1) mem
  end.

(** [SetBits] on a string: [off] and [size] are [int]s here, so a size byte of 128 or
    more is negative and sets nothing. The bytes are changed where the value
    points; the buffers of distinct values are taken to be distinct. *)
Definition setbits_bin (b : DTCBinary) (v2 : Z) : outcome DTCBinary :=
  let off := s32 (Z.shiftr v2 32) in
  let size := Z.shiftr off 24 in
  let off := Z.land off 0xFFFFFF in
  let val := Z.land v2 0xFFFFFFFF in
  if (8 * b.(len) <=? off) || (size =? 0) then Ok b else
  let size := if 32 <? size then 32 else size in
  let size := if 8 * b.(len) - off <? size then 8 * b.(len) - off else size in
  match b.(bytes) with
  | None => if size <=? 0 then Ok b else Fault
  | Some mem => let! mem := setbits_loop (Z.to_nat size) off val mem in Ok (mkBin b.(len) (Some mem))
  end.

(** A string assigned to a field of [size] bytes is cut to it. *)
Definition assign_bin (b : DTCBinary) (size : Z) : DTCValue :=
  DBin (mkBin (if size <? b.(len) then size else b.(len)) b.(bytes)).

(** The switch of [DTCFieldValue::Update] for a field of type [ft] and size [fs]
    holding [v1]; an unlisted combination leaves the field. *)
Definition Update_field (ft fs : Z) (v1 : DTCValue) (it : SFieldValue) : outcome DTCValue :=
  let v2 := it.(fv_val) in
  let k := TP ft it.(fv_type) it.(fv_oper) in
  let tc x y z := k =? TP x y z in
  if tc DField.Signed DField.Signed DField.Set_ || tc DField.Unsigned DField.Signed DField.Set_
     || tc DField.Unsigned DField.Unsigned DField.Set_ then
    let! b := val_s64 v2 in Ok (set_s64 (TruncateIntValue b ft fs))
  else if tc DField.Signed DField.Signed DField.Add || tc DField.Unsigned DField.Signed DField.Add then
    let! a := val_s64 v1 in let! b := val_s64 v2 in Ok (set_s64 (TruncateIntValue (add_s64 a b) ft fs))
  else if tc DField.Signed DField.Signed DField.OR || tc DField.Unsigned DField.Signed DField.OR then
    let! a := val_s64 v1 in let! b := val_s64 v2 in Ok (set_s64 (TruncateIntValue (Z.lor a b) ft fs))
  else if tc DField.Float DField.Signed DField.Set_ then
    let! b := val_s64 v2 in Ok (DWord (dbl_of_Z b))
  else if tc DField.Float DField.Unsigned DField.Set_ then
    let! b := val_u64 v2 in Ok (DWord (dbl_of_Z b))
  else if tc DField.Float DField.Float DField.Set_ then
    let! b := val_flt v2 in Ok (DWord b)
  else if tc DField.Float DField.Signed DField.Add then
    let! a := val_flt v1 in let! b := val_s64 v2 in Ok (DWord (dbl_add a (dbl_of_Z b)))
  else if tc DField.Float DField.Unsigned DField.Add then
    let! a := val_flt v1 in let! b := val_u64 v2 in Ok (DWord (dbl_add a (dbl_of_Z b)))
  else if tc DField.Float DField.Float DField.Add then
    let! a := val_flt v1 in let! b := val_flt v2 in Ok (DWord (dbl_add a b))
  else if tc DField.String DField.String DField.Set_ || tc DField.Binary DField.String DField.Set_
          || tc DField.Binary DField.Binary DField.Set_ then
    let! b := val_bin v2 in Ok (assign_bin b fs)
  else if tc DField.Signed DField.Signed DField.SetBits || tc DField.Signed DField.Unsigned DField.SetBits
          || tc DField.Unsigned DField.Signed DField.SetBits || tc DField.Unsigned DField.Unsigned DField.SetBits then
    let! a := val_u64 v1 in let! b := val_u64 v2 in Ok (DWord (setbits_u64 a b))
  else if tc DField.Binary DField.Signed DField.SetBits || tc DField.Binary DField.Unsigned DField.SetBits
          || tc DField.String DField.Signed DField.SetBits || tc DField.String DField.Unsigned DField.SetBits then
    let! a := val_bin v1 in let! b := val_u64 v2 in let! r := setbits_bin a b in Ok (DBin r)
  else Ok v1.

(** [DTCFieldValue::Update] *)
Fixpoint Update_items (its : list SFieldValue) (r : RowValue) : outcome RowValue :=
  match its with
  | [] => Ok r
  | it :: its =>
    let! v1 := row_at r it.(fv_id) in
    let! ft := field_type r.(row_def) it.(fv_id) in
    let! fs := field_size r.(row_def) it.(fv_id) in
    let! v := Update_field ft fs v1 it in
    Update_items its (row_put r it.(fv_id) v)
  end.
Definition DTCFieldValue_Update (fv : DTCFieldValue) (r : RowValue) : outcome RowValue := Update_items fv.(fv_items) r.

(** The switch of [DTCFieldValue::Compare]: does the field satisfy the condition? *)
Definition Compare_field (ft : Z) (v1 : DTCValue) (it : SFieldValue) : outcome bool :=
  let v2 := it.(fv_val) in
  let k := TP ft it.(fv_type) it.(fv_oper) in
  let tc x y z := k =? TP x y z in
  let ints op := tc DField.Signed DField.Signed op || tc DField.Unsigned DField.Signed op in
  let cmp (f : Z -> Z -> bool) := let! a := val_s64 v1 in let! b := val_s64 v2 in Ok (f a b) in
  let bins op := tc DField.Binary DField.Binary op || tc DField.String DField.Binary op || tc DField.Binary DField.String op in
  let eq (f : DTCBinary -> DTCBinary -> outcome bool) := let! a := val_bin v1 in let! b := val_bin v2 in f a b in
  if ints DField.EQ then cmp Z.eqb
  else if ints DField.NE then cmp (fun a b => negb (a =? b))
  else if ints DField.LT then cmp Z.ltb
  else if ints DField.LE then cmp Z.leb
  else if ints DField.GT then cmp Z.gtb
  else if ints DField.GE then cmp Z.geb
  else if tc DField.String DField.String DField.EQ then eq string_equal
  else if tc DField.String DField.String DField.NE then let! e := eq string_equal in Ok (negb e)
  else if bins DField.EQ then eq binary_equal
  else if bins DField.NE then let! e := eq binary_equal in Ok (negb e)
  else Ok false.

(** [DTCFieldValue::Compare]: the key fields and the fields from [iCmpFirstNRows] on
    are skipped. *)
Fixpoint Compare_items (its : list SFieldValue) (r : RowValue) (iCmpFirstNRows : Z) : outcome bool :=
  match its with
  | [] => Ok true
  | it :: its =>
    let id := it.(fv_id) in
    if (id <? r.(row_def).(keyFields)) || (iCmpFirstNRows - 1 <? id) then Compare_items its r iCmpFirstNRows else
    let! v1 := row_at r id in
    let! ft := field_type r.(row_def) id in
    let! c := Compare_field ft v1 it in
    if (c : bool) then Compare_items its r iCmpFirstNRows else Ok false
  end.
Definition DTCFieldValue_Compare (fv : DTCFieldValue) (r : RowValue) (iCmpFirstNRows : Z) : outcome bool :=
  Compare_items fv.(fv_items) r iCmpFirstNRows.

(** IEEE sanity: 1, 1 + 2 and 2^53 + 1 on bits. *)
Example dbl_of_Z_1 : dbl_of_Z 1 = 0x3FF0000000000000.
Proof. vm_compute. reflexivity. Qed.
Example dbl_add_1_2 : dbl_add (dbl_of_Z 1) (dbl_of_Z 2) = dbl_of_Z 3.
Proof. vm_compute. reflexivity. Qed.
Example dbl_of_Z_rounds : dbl_of_Z (2 ^ 53 + 1) = dbl_of_Z (2 ^ 53).
Proof. vm_compute. reflexivity. Qed.

(** ** Facts *)
Module FieldValueFacts.
Import BitsFacts.

(** The range of an integer column of [size] bytes. *)
Definition int_min (type size : Z) : Z := if type =? DField.Signed then - 2 ^ (8 * size - 1) else 0.
Definition int_max (type size : Z) : Z := if type =? DField.Signed then 2 ^ (8 * size - 1) - 1 else 2 ^ (8 * size) - 1.
Definition clamp (lo hi v : Z) : Z := Z.max lo (Z.min hi v).

Lemma TruncateIntValue_clamp v type size :
  type = DField.Signed \/ type = DField.Unsigned -> 1 <= size <= 7 ->
  TruncateIntValue v type size = clamp (int_min type size) (int_max type size) v.
Proof.
  intros Ht Hs. unfold TruncateIntValue, clamp, int_min, int_max.
  assert (Hcase : size = 1 \/ size = 2 \/ size = 3 \/ size = 4 \/ size = 5 \/ size = 6 \/ size = 7) by lia.
  destruct Ht as [-> | ->]; destruct Hcase as [->|[->|[->|[->|[->|[->| ->]]]]]];
    cbv -[Z.ltb Z.max Z.min]; bcases; lia.
Qed.

Lemma TruncateIntValue_wide v type size :
  type = DField.Signed \/ type = DField.Unsigned -> 8 <= size -> TruncateIntValue v type size = v.
Proof.
  intros Ht Hs. unfold TruncateIntValue, DField.Signed, DField.Unsigned in *.
  rewrite !(proj2 (Z.eqb_neq _ _)) by lia. done.
Qed.

(** The 64-bit sum saturates, but for the sum of the two smallest integers. *)
Lemma add_s64_saturates a b :
  is_s 64 a -> is_s 64 b -> ~ (a = - 2 ^ 63 /\ b = - 2 ^ 63) ->
  add_s64 a b = clamp (- 2 ^ 63) (2 ^ 63 - 1) (a + b).
Proof.
  unfold is_s, add_s64, clamp, s64, swrap, wrap. change (2 ^ (64 - 1)) with 9223372036854775808.
  change (2 ^ 63) with 9223372036854775808. change (2 ^ 64) with 18446744073709551616. intros Ha Hb Hne.
  assert (Hm : (a + b) mod 18446744073709551616 = a + b + (if a + b <? 0 then 18446744073709551616 else 0)).
  { destruct (Z.ltb_spec (a + b) 0); zdm. }
  rewrite Hm. bcases; cbn [andb]; lia.
Qed.

(** *** [SetBits] on a word *)

Definition sb_off (v2 : Z) : Z := Z.land (Z.shiftr v2 32) 0xFFFFFF.
Definition sb_size (v2 : Z) : Z := Z.shiftr v2 56.
Definition sb_count (room v2 : Z) : Z :=
  if (room <=? sb_off v2) || (sb_size v2 =? 0) then 0 else Z.min (Z.min (sb_size v2) 32) (room - sb_off v2).

Lemma sb_ranges v2 : is_u 64 v2 -> 0 <= sb_off v2 < 2 ^ 24 /\ 0 <= sb_size v2 < 256.
Proof.
  intros Hv. unfold sb_off, sb_size, is_u in *. change 0xFFFFFF with (Z.ones 24). rewrite Z.land_ones by lia.
  split; [apply Z.mod_pos_bound; lia|]. rewrite Z.shiftr_div_pow2 by lia. change (2 ^ 56) with 72057594037927936.
  change (2 ^ 64) with 18446744073709551616 in Hv. zdm.
Qed.

Lemma sb_high v2 : is_u 64 v2 -> u32 (Z.shiftr v2 32) = Z.shiftr v2 32.
Proof.
  intros Hv. unfold u32. apply wrap_small. unfold is_u in *. rewrite Z.shiftr_div_pow2 by lia.
  change (2 ^ 32) with 4294967296. change (2 ^ 64) with 18446744073709551616 in Hv. zdm.
Qed.

Lemma u64_testbit v n : 0 <= n -> Z.testbit (u64 v) n = (n <? 64) && Z.testbit v n.
Proof.
  intros Hn. unfold u64, wrap. destruct (Z.ltb_spec n 64); [by rewrite Z.mod_pow2_bits_low by lia|].
  by rewrite Z.mod_pow2_bits_high by lia.
Qed.

Lemma mask_testbit off s n :
  0 <= off -> 0 <= s -> off + s <= 64 -> 0 <= n ->
  Z.testbit (u64 (Z.shiftl (Z.shiftl 1 s - 1) off)) n = (off <=? n) && (n <? off + s).
Proof.
  intros Ho Hs Hos Hn. rewrite u64_testbit, Z.shiftl_spec by done.
  assert (Z.shiftl 1 s - 1 = Z.ones s) as -> by (rewrite Z.shiftl_mul_pow2, Z.ones_equiv by done; lia).
  destruct (Z.leb_spec off n).
  - destruct (Z.ltb_spec n (off + s)).
    + rewrite Z.ones_spec_low by lia. by rewrite (proj2 (Z.ltb_lt _ _)) by lia.
    + rewrite Z.ones_spec_high by lia. apply andb_false_r.
  - rewrite Z.testbit_neg_r by lia. apply andb_false_r.
Qed.

Lemma setbits_u64_spec v1 v2 n :
  is_u 64 v1 -> is_u 64 v2 -> 0 <= n ->
  Z.testbit (setbits_u64 v1 v2) n =
    if (sb_off v2 <=? n) && (n <? sb_off v2 + sb_count 64 v2) then Z.testbit v2 (n - sb_off v2) else Z.testbit v1 n.
Proof.
  intros H1 H2 Hn. unfold setbits_u64. rewrite sb_high by done.
  rewrite Z.shiftr_shiftr by lia. change (32 + 24) with 56. fold (sb_off v2) (sb_size v2).
  destruct (sb_ranges v2 H2) as [Ho Hs]. unfold sb_count.
  destruct ((64 <=? sb_off v2) || (sb_size v2 =? 0)) eqn:E.
  { destruct (Z.leb_spec (sb_off v2) n), (Z.ltb_spec n (sb_off v2 + 0)); cbn [andb]; try done; lia. }
  rewrite orb_false_iff, Z.leb_gt, Z.eqb_neq in E. destruct E as [E1 E2].
  set (s := Z.min (Z.min (sb_size v2) 32) (64 - sb_off v2)).
  assert (Hs' : (if 64 - sb_off v2 <? (if 32 <? sb_size v2 then 32 else sb_size v2) then 64 - sb_off v2
    else (if 32 <? sb_size v2 then 32 else sb_size v2)) = s) by (unfold s; destruct (Z.ltb_spec 32 (sb_size v2)); bcases; lia).
  rewrite Hs'. assert (Hb : 1 <= s <= 32 /\ sb_off v2 + s <= 64) by (unfold s; lia). destruct Hb as [Hb1 Hb2].
  rewrite Z.lor_spec, !Z.land_spec, mask_testbit by lia. rewrite !u64_testbit, Z.lnot_spec by done.
  rewrite mask_testbit by lia. rewrite Z.shiftl_spec by done.
  destruct (Z.leb_spec (sb_off v2) n), (Z.ltb_spec n (sb_off v2 + s)); cbn [andb negb];
    rewrite ?andb_false_r, ?andb_true_r, ?orb_false_r, ?orb_false_l.
  - rewrite (proj2 (Z.ltb_lt n 64)) by lia. cbn [andb orb]. rewrite Z.land_spec.
    change 0xFFFFFFFF with (Z.ones 32). rewrite Z.ones_spec_low by lia. apply andb_true_r.
  - destruct (Z.ltb_spec n 64); [by rewrite andb_true_r|]. rewrite andb_false_r. by rewrite (testbit_above 64) by (unfold is_u in *; lia).
  - destruct (Z.ltb_spec n 64); [by rewrite andb_true_r|]. rewrite andb_false_r. by rewrite (testbit_above 64) by (unfold is_u in *; lia).
  - destruct (Z.ltb_spec n 64); [by rewrite andb_true_r|]. rewrite andb_false_r. by rewrite (testbit_above 64) by (unfold is_u in *; lia).
Qed.

(** *** [SetBits] on bytes *)

Lemma land_1_testbit v : (Z.land v 1 =? 0) = negb (Z.testbit v 0).
Proof.
  change 1 with (Z.ones 1) at 1. rewrite Z.land_ones by lia. change (2 ^ 1) with 2.
  rewrite Z.bit0_odd, Zmod_odd. by destruct (Z.odd v).
Qed.

Lemma setbits_loop_spec n off val mem :
  bytes_ok mem -> 0 <= off -> off + Z.of_nat n <= 8 * Z.of_nat (length mem) ->
  exists mem', setbits_loop n off val mem = Ok mem' /\ bytes_ok mem' /\ length mem' = length mem /\
    forall i, 0 <= i -> mem_bit mem' i =
      if (off <=? i) && (i <? off + Z.of_nat n) then Z.testbit val (i - off) else mem_bit mem i.
Proof.
  revert off val mem; induction n as [|n IH]; intros off val mem Hok Ho Hl.
  { exists mem. split_and!; try done. intros i Hi.
    destruct (Z.leb_spec off i), (Z.ltb_spec i (off + Z.of_nat 0)); cbn [andb]; try done; lia. }
  rewrite Nat2Z.inj_succ in *. cbn [setbits_loop]. rewrite land_1_testbit.
  assert (Hin : bit_in mem 0 off) by (unfold bit_in; zdm).
  assert (Hstep : exists mem1, (if negb (Z.testbit val 0) then clr_b off 0 mem else set_b off 0 mem) = Ok mem1 /\
    bytes_ok mem1 /\ length mem1 = length mem /\
    forall i, 0 <= i -> mem_bit mem1 i = if i =? off then Z.testbit val 0 else mem_bit mem i).
  { destruct (Z.testbit val 0); cbn [negb];
      [destruct (set_b_spec off 0 mem Hok Hin) as (m1 & ? & ? & ? & H)|destruct (clr_b_spec off 0 mem Hok Hin) as (m1 & ? & ? & ? & H)];
      exists m1; split_and!; try done; intros i Hi; rewrite H by done; change (0 * 8 + off) with off; by destruct (i =? off). }
  destruct Hstep as (mem1 & -> & Hok1 & Hl1 & Hb1). cbn [obind].
  destruct (IH (off + 1) (Z.shiftr val 1) mem1) as (mem' & -> & Hok' & Hl' & Hb'); [done|lia|rewrite Hl1; lia|].
  exists mem'. split; [done|]. split; [done|]. split; [congruence|]. intros i Hi. rewrite Hb', Hb1 by done.
  destruct (Z.leb_spec (off + 1) i), (Z.ltb_spec i (off + 1 + Z.of_nat n)), (Z.leb_spec off i),
    (Z.ltb_spec i (off + Z.succ (Z.of_nat n))), (Z.eqb_spec i off); cbn [andb]; try lia; try done.
  - rewrite Z.shiftr_spec by lia. f_equal. lia.
  - subst i. by rewrite Z.sub_diag.
Qed.

(** The [int] view of the packed operand. *)
Lemma sb_off_int v2 : is_u 64 v2 -> Z.land (s32 (Z.shiftr v2 32)) 0xFFFFFF = sb_off v2.
Proof.
  intros Hv. unfold sb_off. change 0xFFFFFF with (Z.ones 24). rewrite !Z.land_ones by lia. rewrite <-(sb_high v2 Hv) at 2.
    unfold u32, s32, swrap, wrap. change (2 ^ 32) with 4294967296. change (2 ^ (32 - 1)) with 2147483648.
    change (2 ^ 24) with 16777216. bcase; zdm.
Qed.

Lemma sb_size_int v2 :
  is_u 64 v2 -> Z.shiftr (s32 (Z.shiftr v2 32)) 24 = if sb_size v2 <? 128 then sb_size v2 else sb_size v2 - 256.
Proof.
  intros Hv. unfold sb_size. pose proof (sb_high v2 Hv) as E. unfold s32, swrap. fold (u32 (Z.shiftr v2 32)). rewrite E.
    replace (Z.shiftr v2 56) with (Z.shiftr (Z.shiftr v2 32) 24) by (by rewrite Z.shiftr_shiftr by lia).
    rewrite !(Z.shiftr_div_pow2 _ 24) by lia.
    assert (0 <= Z.shiftr v2 32 < 4294967296).
    { unfold is_u in Hv. rewrite Z.shiftr_div_pow2 by lia. change (2 ^ 32) with 4294967296.
      change (2 ^ 64) with 18446744073709551616 in Hv. zdm. }
    change (2 ^ (32 - 1)) with 2147483648. change (2 ^ 32) with 4294967296. change (2 ^ 24) with 16777216.
    destruct (Z.ltb_spec (Z.shiftr v2 32) 2147483648), (Z.ltb_spec (Z.shiftr v2 32 / 16777216) 128); zdm.
Qed.

Lemma setbits_bin_spec b mem v2 :
  bin_ok b -> b.(bytes) = Some mem -> 0 <= b.(len) -> is_u 64 v2 ->
  exists mem', setbits_bin b v2 = Ok (mkBin b.(len) (Some mem')) /\ bytes_ok mem' /\ length mem' = length mem /\
    forall i, 0 <= i -> mem_bit mem' i =
      if (sb_size v2 <? 128) && ((sb_off v2 <=? i) && (i <? sb_off v2 + sb_count (8 * b.(len)) v2))
      then Z.testbit v2 (i - sb_off v2) else mem_bit mem i.
Proof.
  intros Hb Em Hl Hv. unfold bin_ok in Hb. rewrite Em in Hb. destruct Hb as [Hok Hlen].
  destruct (sb_ranges v2 Hv) as [Ho Hs]. unfold setbits_bin.
  rewrite sb_off_int, sb_size_int, Em by done. unfold sb_count.
  assert (Hnone : forall m, bytes_ok m -> length m = length mem -> (forall i, mem_bit m i = mem_bit mem i) ->
    forall (c : bool), c = false -> forall i, 0 <= i -> mem_bit m i = if c then Z.testbit v2 (i - sb_off v2) else mem_bit mem i)
    by (intros m _ _ H c -> i _; apply H).
  destruct (Z.ltb_spec (sb_size v2) 128) as [H128|H128]; cbn [andb].
  - destruct (Z.leb_spec (8 * len b) (sb_off v2)), (Z.eqb_spec (sb_size v2) 0); cbn [orb].
    1-3: exists mem; split; [destruct b; simpl in *; by subst|]; split_and!; try done; intros i Hi;
      apply Hnone; try done; destruct (Z.leb_spec (sb_off v2) i), (Z.ltb_spec i (sb_off v2 + 0)); cbn [andb]; try done; lia.
    set (s := Z.min _ _).
    assert (Hs' : (if 8 * len b - sb_off v2 <? (if 32 <? sb_size v2 then 32 else sb_size v2) then 8 * len b - sb_off v2
      else (if 32 <? sb_size v2 then 32 else sb_size v2)) = s) by (unfold s; destruct (Z.ltb_spec 32 (sb_size v2)); bcases; lia).
    rewrite Hs'. assert (1 <= s <= 32 /\ sb_off v2 + s <= 8 * len b) as [Hs1 Hs2] by (unfold s; lia).
    destruct (setbits_loop_spec (Z.to_nat s) (sb_off v2) (Z.land v2 0xFFFFFFFF) mem Hok) as (mem' & -> & Hok' & Hl' & Hb'); [lia|lia|].
    exists mem'. split; [done|]. split; [done|]. split; [done|]. intros i Hi. rewrite Hb', Z2Nat.id by lia.
    destruct (Z.leb_spec (sb_off v2) i), (Z.ltb_spec i (sb_off v2 + s)); cbn [andb]; try done.
    rewrite Z.land_spec. change 0xFFFFFFFF with (Z.ones 32). rewrite Z.ones_spec_low by lia. apply andb_true_r.
  - exists mem. split; [|split_and!; done].
    destruct (Z.leb_spec (8 * len b) (sb_off v2)); cbn [orb]; [destruct b; simpl in *; by subst|].
    rewrite (proj2 (Z.eqb_neq _ _)) by lia. rewrite (proj2 (Z.ltb_ge 32 _)), (proj2 (Z.ltb_ge _ (sb_size v2 - 256))) by lia.
    rewrite Z2Nat.nonpos by lia. done.
Qed.

(** *** Conditions *)

(** The comparison an operator stands for. *)
Definition int_rel (op a b : Z) : Prop :=
  if op =? DField.EQ then a = b else if op =? DField.NE then a <> b
  else if op =? DField.LT then a < b else if op =? DField.LE then a <= b
  else if op =? DField.GT then a > b else a >= b.

(** Equal strings: case-insensitive up to a NUL when both sides are [String], byte
    by byte otherwise. *)
Definition same_string (ci : bool) (s t : list Z) : Prop :=
  if ci then length s = length t /\ ascii_lower <$> cstr s = ascii_lower <$> cstr t else s = t.

(** A condition the client may send for a field of type [ft]. *)
Definition comparable (ft : Z) (v1 : DTCValue) (it : SFieldValue) : Prop :=
  match v1, it.(fv_val) with
  | DWord _, DWord _ => (ft = DField.Signed \/ ft = DField.Unsigned) /\ it.(fv_type) = DField.Signed /\
      DField.EQ <= it.(fv_oper) <= DField.GE
  | DBin a, DBin b => (ft = DField.String \/ ft = DField.Binary) /\
      (it.(fv_type) = DField.String \/ it.(fv_type) = DField.Binary) /\
      (it.(fv_oper) = DField.EQ \/ it.(fv_oper) = DField.NE) /\ bin_ok a /\ bin_ok b /\ 0 <= a.(len) /\ 0 <= b.(len)
  | _, _ => False
  end.

(** What the condition says. *)
Definition holds (ft : Z) (v1 : DTCValue) (it : SFieldValue) : Prop :=
  match v1, it.(fv_val) with
  | DWord a, DWord b => int_rel it.(fv_oper) (s64 a) (s64 b)
  | DBin a, DBin b => forall s t, string_of_bin a = Ok s -> string_of_bin b = Ok t ->
      let e := same_string ((ft =? DField.String) && (it.(fv_type) =? DField.String)) s t in
      if it.(fv_oper) =? DField.EQ then e else ~ e
  | _, _ => False
  end.

Lemma mem_list_prefix b s : string_of_bin b = Ok s -> 0 <= b.(len) ->
  s = take (Z.to_nat b.(len)) (mem_list b.(bytes)) /\ (Z.to_nat b.(len) <= length (mem_list b.(bytes)))%nat.
Proof.
  unfold string_of_bin, mem_list. destruct b as [l [bs|]]; simpl.
  - destruct (_ && _) eqn:E; [|done]. intros <-%Ok_inj _. apply andb_true_iff in E as [_ E%Z.leb_le]. split; [done|lia].
  - destruct (Z.eqb_spec l 0) as [->|]; [|done]. by intros <-%Ok_inj _.
Qed.

Lemma mem_list_bytes b : bin_ok b -> bytes_ok (mem_list b.(bytes)).
Proof. unfold bin_ok, mem_list. destruct b as [l [bs|]]; simpl; [tauto|constructor]. Qed.

Lemma string_len b s : string_of_bin b = Ok s -> 0 <= b.(len) -> Z.of_nat (length s) = b.(len).
Proof. intros H Hl. destruct (mem_list_prefix b s H Hl) as [-> ?]. rewrite length_take. lia. Qed.

Lemma string_equal_same a b s t :
  bin_ok a -> bin_ok b -> 0 <= a.(len) -> 0 <= b.(len) -> string_of_bin a = Ok s -> string_of_bin b = Ok t ->
  exists e, string_equal a b = Ok e /\ (e = true <-> same_string true s t).
Proof.
  intros Ha Hb La Lb Ea Eb. pose proof (string_len a s Ea La). pose proof (string_len b t Eb Lb).
  destruct (mem_list_prefix a s Ea La) as [Es Ls], (mem_list_prefix b t Eb Lb) as [Et Lt].
  unfold string_equal, same_string. destruct (Z.eqb_spec (len a) (len b)) as [El|Hne].
  - rewrite <-El in Et, Lt.
    destruct (mystrcmp_spec (Z.to_nat (len a)) _ _ (mem_list_bytes a Ha) (mem_list_bytes b Hb) Ls Lt) as (r & -> & Hr).
    cbn [obind]. eexists. split; [done|]. rewrite Z.eqb_eq, Hr, <-Es, <-Et. split; [intros ->; split; [lia|done]|tauto].
  - exists false. split; [done|]. split; [done|]. intros [? _]. lia.
Qed.

Lemma binary_equal_same a b s t :
  0 <= a.(len) -> 0 <= b.(len) -> string_of_bin a = Ok s -> string_of_bin b = Ok t ->
  exists e, binary_equal a b = Ok e /\ (e = true <-> s = t).
Proof.
  intros La Lb Ea Eb. pose proof (string_len a s Ea La). pose proof (string_len b t Eb Lb).
  destruct (mem_list_prefix a s Ea La) as [Es Ls], (mem_list_prefix b t Eb Lb) as [Et Lt].
  unfold binary_equal. destruct (Z.eqb_spec (len a) (len b)) as [El|Hne].
  - rewrite <-El in Et, Lt. destruct (memcmp_spec _ _ _ Ls Lt) as (r & -> & Hr).
    cbn [obind]. eexists. split; [done|]. by rewrite Z.eqb_eq, Hr, <-Es, <-Et.
  - exists false. split; [done|]. split; [done|]. intros ->. lia.
Qed.

Definition int_op (op a b : Z) : bool :=
  if op =? DField.EQ then a =? b else if op =? DField.NE then negb (a =? b)
  else if op =? DField.LT then a <? b else if op =? DField.LE then a <=? b
  else if op =? DField.GT then a >? b else a >=? b.

Lemma int_op_rel op a b : int_op op a b = true <-> int_rel op a b.
Proof.
  unfold int_op, int_rel. repeat case_match.
  - apply Z.eqb_eq.
  - by rewrite negb_true_iff, Z.eqb_neq.
  - apply Z.ltb_lt.
  - apply Z.leb_le.
  - rewrite Z.gtb_ltb, Z.ltb_lt. lia.
  - rewrite Z.geb_leb, Z.leb_le. lia.
Qed.

Lemma Compare_field_ints ft id op a b :
  ft = DField.Signed \/ ft = DField.Unsigned -> DField.EQ <= op <= DField.GE ->
  Compare_field ft (DWord a) (mkFV id op DField.Signed (DWord b)) = Ok (int_op op (s64 a) (s64 b)).
Proof.
  intros Hft Hop. unfold DField.EQ, DField.GE in Hop.
  assert (Hcase : op = 0 \/ op = 1 \/ op = 2 \/ op = 3 \/ op = 4 \/ op = 5) by lia.
  destruct Hft as [-> | ->]; destruct Hcase as [->|[->|[->|[->|[->| ->]]]]]; reflexivity.
Qed.

Lemma Compare_field_bins ft id op ty a b :
  ft = DField.String \/ ft = DField.Binary -> ty = DField.String \/ ty = DField.Binary ->
  op = DField.EQ \/ op = DField.NE ->
  Compare_field ft (DBin a) (mkFV id op ty (DBin b)) =
    (let! e := (if (ft =? DField.String) && (ty =? DField.String) then string_equal a b else binary_equal a b) in
     Ok (if op =? DField.EQ then e else negb e)).
Proof.
  assert (E : forall m : outcome bool, (let! e := m in Ok e) = m) by (by intros [| |]).
  intros [-> | ->] [-> | ->] [-> | ->]; cbn [andb Z.eqb Pos.eqb DField.String DField.Binary DField.EQ DField.NE]; rewrite ?E; reflexivity.
Qed.

(** A condition the client may send is decided. *)
Lemma Compare_field_holds ft v1 it :
  comparable ft v1 it -> exists c, Compare_field ft v1 it = Ok c /\ (c = true <-> holds ft v1 it).
Proof.
  destruct it as [id op ty v2]. unfold comparable, holds, fv_val, fv_oper, fv_type.
  destruct v1 as [a|a], v2 as [b|b]; try done.
  - intros (Hft & -> & Hop). rewrite Compare_field_ints by done. eexists. split; [done|]. apply int_op_rel.
  - intros (Hft & Hty & Hop & Ha & Hb & La & Lb). rewrite Compare_field_bins by done.
    destruct (ValueFacts.string_of_bin_ok a Ha La) as (s & Es & _), (ValueFacts.string_of_bin_ok b Hb Lb) as (t & Et & _).
    assert (He : exists e, (if (ft =? DField.String) && (ty =? DField.String) then string_equal a b else binary_equal a b) = Ok e /\
      (e = true <-> same_string ((ft =? DField.String) && (ty =? DField.String)) s t)).
    { destruct (_ && _); [by apply string_equal_same|by apply binary_equal_same]. }
    destruct He as (e & -> & He). cbn [obind]. eexists. split; [done|].
    rewrite Es, Et. split.
    + intros Hc s' t' <-%Ok_inj <-%Ok_inj. destruct (op =? DField.EQ); [by apply He|].
      intros Hsame. apply He in Hsame as ->. done.
    + intros H. specialize (H s t eq_refl eq_refl). cbv zeta in H. destruct (op =? DField.EQ); [by apply He|].
      destruct e; [destruct H; by apply He|done].
Qed.

(** The conditions looked at. *)
Definition applies (r : RowValue) (n : Z) (it : SFieldValue) : Prop :=
  r.(row_def).(keyFields) <= it.(fv_id) <= n - 1.

Lemma Compare_items_holds its r n :
  (forall it, it ∈ its -> applies r n it -> exists v ft, row_at r it.(fv_id) = Ok v /\
     field_type r.(row_def) it.(fv_id) = Ok ft /\ comparable ft v it) ->
  exists c, Compare_items its r n = Ok c /\
    (c = true <-> forall it, it ∈ its -> applies r n it -> forall v ft, row_at r it.(fv_id) = Ok v ->
       field_type r.(row_def) it.(fv_id) = Ok ft -> holds ft v it).
Proof.
  induction its as [|it its IH]; intros Hall.
  { exists true. split; [done|]. split; [|done]. intros _ it Hit. by apply not_elem_of_nil in Hit. }
  destruct IH as (c & Ec & Hc); [intros it' Hit; apply Hall; by right|].
  cbn [Compare_items]. destruct (_ || _) eqn:E.
  - exists c. split; [done|]. rewrite Hc. rewrite orb_true_iff, !Z.ltb_lt in E.
    split; [|intros H it' Hit; apply H; by right].
    intros H it' Hit Ha. apply elem_of_cons in Hit as [-> |Hit]; [unfold applies in Ha; lia|by apply H].
  - rewrite orb_false_iff, !Z.ltb_ge in E.
    assert (Ha : applies r n it) by (unfold applies; lia).
    destruct (Hall it) as (v & ft & Ev & Eft & Hcomp); [by left|done|].
    rewrite Ev, Eft. cbn [obind]. destruct (Compare_field_holds ft v it Hcomp) as (c1 & -> & Hc1). cbn [obind].
    destruct c1.
    + exists c. split; [done|]. rewrite Hc. split; [|intros H it' Hit; apply H; by right].
      intros H it' Hit Ha' v' ft' Ev' Eft'. apply elem_of_cons in Hit as [-> |Hit]; [|by eapply H].
      rewrite Ev in Ev'. rewrite Eft in Eft'. apply Ok_inj in Ev' as <-. apply Ok_inj in Eft' as <-. by apply Hc1.
    + exists false. split; [done|]. split; [done|]. intros H. apply Hc1. apply (H it); [by left|done|done|done].
Qed.

End FieldValueFacts.

(** ** Field sets *)
Module FieldSetFacts.

(** The ids in use. *)
Definition fs_members (fs : DTCFieldSet) : list Z := take (Z.to_nat fs.(fs_num)) fs.(fs_ids).

Record fs_ok (fs : DTCFieldSet) : Prop := {
  fsok_num : 0 <= fs.(fs_num) <= fs.(fs_max) /\ fs.(fs_max) <= 255;
  fsok_room : Z.of_nat (length fs.(fs_ids)) = fs.(fs_max);
  fsok_mask : fs.(fs_mask) = list_to_set (fs_members fs)
}.

Lemma clamp255_le n : clamp255 n <= 255.
Proof. unfold clamp255. destruct (Z.ltb_spec 255 n); lia. Qed.

Lemma fs_new_ok n : 0 <= n -> exists fs, DTCFieldSet_new n = Ok fs /\ fs_ok fs /\ fs_members fs = [] /\ fs.(fs_max) = Z.min n 255.
Proof.
  intros Hn. unfold DTCFieldSet_new, clamp255. destruct (Z.ltb_spec 255 n).
  - eexists. split; [done|]. split; [|split; [done|simpl; lia]]. split; simpl; [lia|done|done].
  - rewrite (proj2 (Z.ltb_ge n 0)) by lia. eexists. split; [done|]. split; [|split; [done|simpl; lia]].
    split; simpl; [lia|rewrite length_replicate; lia|done].
Qed.

Lemma fs_add_ok fs id :
  fs_ok fs -> 0 <= id <= 255 ->
  exists fs', fs_add_field fs id = Ok fs' /\ fs_ok fs' /\ fs'.(fs_max) = fs.(fs_max) /\
    fs_members fs' = if fs.(fs_num) <? fs.(fs_max) then fs_members fs ++ [id] else fs_members fs.
Proof.
  intros [Hn Hr Hm] Hid. unfold fs_add_field.
  destruct (Z.leb_spec (fs_max fs) (fs_num fs)).
  { exists fs. rewrite (proj2 (Z.ltb_ge _ _)) by lia. done. }
  assert (((id <? 0) || (255 <? id)) = false) as -> by (rewrite orb_false_iff, !Z.ltb_ge; lia).
  rewrite (proj2 (Z.ltb_lt _ _)) by lia.
  assert (Hmem : take (Z.to_nat (fs_num fs + 1)) (<[Z.to_nat (fs_num fs):=id]> (fs_ids fs)) = fs_members fs ++ [id]).
  { replace (Z.to_nat (fs_num fs + 1)) with (S (Z.to_nat (fs_num fs))) by lia.
    rewrite (take_S_r _ _ id) by (apply list_lookup_insert_eq; lia). f_equal. by apply take_insert_ge. }
  eexists. split; [done|]. split; [|split; [done|exact Hmem]].
  split; simpl; [lia|by rewrite length_insert|].
  unfold fs_members at 1; simpl. rewrite Hmem, list_to_set_app_L, Hm. simpl. set_solver +.
Qed.

Lemma fs_add_all fs ids :
  fs_ok fs -> Forall (fun id => 0 <= id <= 255) ids ->
  exists fs', fold_left (fun m id => let! fs := m in fs_add_field fs id) ids (Ok fs) = Ok fs' /\ fs_ok fs' /\
    fs'.(fs_max) = fs.(fs_max) /\ fs_members fs' = take (Z.to_nat fs.(fs_max)) (fs_members fs ++ ids).
Proof.
  intros Hok Hids. revert fs Hok; induction Hids as [|id ids Hid _ IH]; intros fs Hok.
  - exists fs. split; [done|]. split; [done|]. split; [done|]. rewrite app_nil_r, take_ge; [done|].
    unfold fs_members. rewrite length_take. destruct Hok. lia.
  - destruct (fs_add_ok fs id Hok Hid) as (fs1 & E1 & Hok1 & Hm1 & Hmem1).
    destruct (IH fs1 Hok1) as (fs' & E & Hok' & Hm' & Hmem'). exists fs'. simpl. rewrite E1. split; [done|].
    split; [done|]. split; [congruence|]. rewrite Hmem', Hm1, Hmem1.
    destruct (Z.ltb_spec (fs_num fs) (fs_max fs)); [by rewrite <-app_assoc|].
    assert (Hl : length (fs_members fs) = Z.to_nat (fs_max fs)) by (unfold fs_members; rewrite length_take; destruct Hok; lia).
    by rewrite !take_app_length' by done.
Qed.

Lemma fs_present_member fs id : fs_ok fs -> 0 <= id < 255 -> fs_field_present fs id = true <-> id ∈ fs_members fs.
Proof.
  intros [_ _ Hm] Hid. unfold fs_field_present. rewrite (proj2 (Z.leb_le _ _)), (proj2 (Z.ltb_lt _ _)) by lia. cbn [andb].
  by rewrite bool_decide_eq_true, Hm, elem_of_list_to_set.
Qed.

Lemma copy_ids_ok old idtab n :
  0 <= n <= Z.of_nat (length old) -> n <= Z.of_nat (length idtab) ->
  copy_ids old idtab n = Ok (take (Z.to_nat n) idtab ++ drop (Z.to_nat n) old).
Proof.
  intros. unfold copy_ids.
  assert (((n <? 0) || (Z.of_nat (length old) <? n) || (Z.of_nat (length idtab) <? n)) = false) as ->; [|done].
  rewrite !orb_false_iff, !Z.ltb_ge. lia.
Qed.

Lemma copy_ids_overflow old idtab n : Z.of_nat (length old) < n -> copy_ids old idtab n = Fault.
Proof.
  intros. unfold copy_ids.
  assert (((n <? 0) || (Z.of_nat (length old) <? n) || (Z.of_nat (length idtab) <? n)) = true) as ->; [|done].
  rewrite !orb_true_iff, !Z.ltb_lt. lia.
Qed.

End FieldSetFacts.

Module FieldSpec.
Import BitsFacts FieldValueFacts FieldSetFacts.

(** C26: a signed operand assigned or added to an integer column is clamped. For a column
    of 1 to 7 bytes [Set] stores the operand and [Add] the exact sum, both brought into
    the range of the column's signedness and size. A column of 8 bytes is handled as
    signed, also if it is [Unsigned]: there the bounds are those of a signed 64-bit
    integer, not the column's own, a sum saturates at [2 ^ 63 - 1] and a negative result
    is kept as its two's complement. The one exception is the sum of the two smallest
    integers, which the overflow test (a wrapped sum of exactly 0) misses: it is treated
    as 0. *)
Theorem Update_integer ft fs id a b :
  ft = DField.Signed \/ ft = DField.Unsigned -> 1 <= fs <= 8 -> is_s 64 a -> is_s 64 b ->
  let cl v := if fs =? 8 then clamp (- 2 ^ 63) (2 ^ 63 - 1) v else clamp (int_min ft fs) (int_max ft fs) v in
  Update_field ft fs (set_s64 a) (mkFV id DField.Set_ DField.Signed (set_s64 b)) = Ok (set_s64 (cl b)) /\
  Update_field ft fs (set_s64 a) (mkFV id DField.Add DField.Signed (set_s64 b))
  = Ok (set_s64 (cl (if (a =? - 2 ^ 63) && (b =? - 2 ^ 63) then 0 else a + b))).
Proof.
  intros Hft Hfs Ha Hb cl.
  assert (E1 : Update_field ft fs (set_s64 a) (mkFV id DField.Set_ DField.Signed (set_s64 b))
    = (let! y := val_s64 (set_s64 b) in Ok (set_s64 (TruncateIntValue y ft fs)))) by (destruct Hft as [-> | ->]; reflexivity).
  assert (E2 : Update_field ft fs (set_s64 a) (mkFV id DField.Add DField.Signed (set_s64 b))
    = (let! x := val_s64 (set_s64 a) in let! y := val_s64 (set_s64 b) in Ok (set_s64 (TruncateIntValue (add_s64 x y) ft fs))))
    by (destruct Hft as [-> | ->]; reflexivity).
  rewrite E1, E2, !set_s64_get by done. cbn [obind].
  assert (Hcl : forall v, is_s 64 v -> TruncateIntValue v ft fs = cl v).
  { intros v Hv. unfold cl. destruct (Z.eqb_spec fs 8) as [->|].
    - rewrite TruncateIntValue_wide by (done || lia). unfold clamp, is_s in *. change (64 - 1) with 63 in Hv. lia.
    - apply TruncateIntValue_clamp; [done|lia]. }
  split; [by rewrite Hcl|]. f_equal. f_equal.
  destruct (Z.eqb_spec a (- 2 ^ 63)) as [Ea|Ea], (Z.eqb_spec b (- 2 ^ 63)) as [Eb|Eb]; cbn [andb].
  { subst. change (add_s64 (- 2 ^ 63) (- 2 ^ 63)) with 0. apply Hcl. by vm_compute. }
  all: rewrite add_s64_saturates by (done || tauto); rewrite Hcl;
    [|unfold clamp, is_s; change (64 - 1) with 63; change (2 ^ 63) with 9223372036854775808; lia].
  all: unfold cl; destruct (Z.eqb_spec fs 8); unfold clamp; [lia|].
  all: assert (Hr : - 2 ^ 63 <= int_min ft fs /\ int_max ft fs <= 2 ^ 63 - 1 /\ int_min ft fs <= int_max ft fs)
    by (assert (Hc : fs = 1 \/ fs = 2 \/ fs = 3 \/ fs = 4 \/ fs = 5 \/ fs = 6 \/ fs = 7) by lia;
        destruct Hft as [-> | ->]; destruct Hc as [->|[->|[->|[->|[->|[->| ->]]]]]]; by vm_compute).
  all: lia.
Qed.

(** A one-byte signed column: 100 + 100 stays 127. *)
Lemma Update_integer_witness :
  Update_field DField.Signed 1 (set_s64 100) (mkFV 3 DField.Add DField.Signed (set_s64 100)) = Ok (set_s64 127).
Proof.
  apply (Update_integer DField.Signed 1 3 100 100); [by left|lia|by vm_compute|by vm_compute].
Defined.

(** [SetBits] replaces a bit field. The operand packs a size (8 bits), an offset
    (24 bits) and 32 bits of data; on an integer column exactly the bits from the
    offset on, as many as the size says (at most 32, and not past the end), become
    the data's bits and all others stay. On a string the same happens to the bits
    of its buffer, except that a size of 128 or more, negative as an [int],
    changes nothing there. *)
Theorem Update_setbits ft fs ty id v1 v2 :
  is_u 64 v2 -> (ty = DField.Signed \/ ty = DField.Unsigned) ->
  (ft = DField.Signed \/ ft = DField.Unsigned -> is_u 64 v1 ->
     exists w, Update_field ft fs (DWord v1) (mkFV id DField.SetBits ty (DWord v2)) = Ok (DWord w) /\
       forall n, 0 <= n -> Z.testbit w n =
         if (sb_off v2 <=? n) && (n <? sb_off v2 + sb_count 64 v2) then Z.testbit v2 (n - sb_off v2) else Z.testbit v1 n) /\
  (forall b mem, ft = DField.String \/ ft = DField.Binary -> bin_ok b -> b.(bytes) = Some mem -> 0 <= b.(len) ->
     exists mem', Update_field ft fs (DBin b) (mkFV id DField.SetBits ty (DWord v2)) = Ok (DBin (mkBin b.(len) (Some mem'))) /\
       length mem' = length mem /\ forall n, 0 <= n -> mem_bit mem' n =
         if (sb_size v2 <? 128) && ((sb_off v2 <=? n) && (n <? sb_off v2 + sb_count (8 * b.(len)) v2))
         then Z.testbit v2 (n - sb_off v2) else mem_bit mem n).
Proof.
  intros H2 Hty. split.
  - intros Hft H1. exists (setbits_u64 v1 v2). split; [destruct Hft as [-> | ->], Hty as [-> | ->]; reflexivity|].
    intros n Hn. by apply setbits_u64_spec.
  - intros b mem Hft Hb Em Hl. destruct (setbits_bin_spec b mem v2 Hb Em Hl H2) as (mem' & E & _ & Hl' & Hbits).
    exists mem'. split; [|done].
    assert (Hu : Update_field ft fs (DBin b) (mkFV id DField.SetBits ty (DWord v2)) = (let! r := setbits_bin b v2 in Ok (DBin r)))
      by (destruct Hft as [-> | ->], Hty as [-> | ->]; reflexivity).
    by rewrite Hu, E.
Qed.

(** Four bits at offset 6 of a two-byte string. *)
Lemma Update_setbits_witness :
  exists mem', Update_field DField.Binary 2 (DBin (mkBin 2 (Some [0; 255])))
      (mkFV 1 DField.SetBits DField.Unsigned (DWord 0x040000060000000B)) = Ok (DBin (mkBin 2 (Some mem'))) /\ mem' = [192; 254].
Proof.
  destruct (proj2 (Update_setbits DField.Binary 2 DField.Unsigned 1 0 0x040000060000000B ltac:(by vm_compute) ltac:(by right))
    (mkBin 2 (Some [0; 255])) [0; 255]) as (mem' & E & _).
  - by right. - split; [by repeat (constructor; [by vm_compute|])|by vm_compute]. - reflexivity. - by vm_compute.
  - exists mem'. split; [exact E|]. vm_compute in E. congruence.
Defined.

(** C27: a row passes a condition exactly when every clause looked at holds. For clauses
    a client may send, on fields of the matching kind, [DTCFieldValue::Compare] always
    answers, and the answer is yes exactly if each clause on a non-key field below
    the given bound holds: integers by the signed comparison named by the operator,
    [String] against [String] without regard to case (and to what follows a NUL),
    other strings byte by byte. *)
Theorem Compare_conjunction fv r n :
  (forall it, it ∈ fv.(fv_items) -> applies r n it -> exists v ft, row_at r it.(fv_id) = Ok v /\
     field_type r.(row_def) it.(fv_id) = Ok ft /\ comparable ft v it) ->
  exists c, DTCFieldValue_Compare fv r n = Ok c /\
    (c = true <-> forall it, it ∈ fv.(fv_items) -> applies r n it -> forall v ft, row_at r it.(fv_id) = Ok v ->
       field_type r.(row_def) it.(fv_id) = Ok ft -> holds ft v it).
Proof. apply Compare_items_holds. Qed.

(** The row (7, "Abc") against the clause field 1 = "aBC". *)
Definition sample_row : RowValue :=
  mkRow TableSpec.sample_table [set_u64 7; set_str (Some [65; 98; 99]) 3].
Definition sample_clause : DTCFieldValue :=
  mkFieldValue [mkFV 1 DField.EQ DField.String (set_str (Some [97; 66; 67]) 3)] 1 0 0.
Lemma Compare_conjunction_witness : DTCFieldValue_Compare sample_clause sample_row 256 = Ok true.
Proof.
  destruct (Compare_conjunction sample_clause sample_row 256) as (c & E & _).
  - intros it Hit _. unfold sample_clause in Hit; cbn [fv_items] in Hit. apply list_elem_of_singleton in Hit as ->.
    eexists _, _. split; [vm_compute; reflexivity|]. split; [vm_compute; reflexivity|].
    split; [by left|]. split; [by left|]. split; [by left|].
    split; [split; [by repeat (constructor; [by vm_compute|])|by vm_compute]|].
    split; [split; [by repeat (constructor; [by vm_compute|])|by vm_compute]|by vm_compute].
  - rewrite E. f_equal. vm_compute in E. congruence.
Defined.

(** Unsigned columns are compared as signed. The clause [field < c] on an unsigned
    column answers by the 64-bit patterns read as signed integers: it is the
    unsigned comparison exactly when both values lie on the same side of 2^63, and
    its negation otherwise. *)
Theorem Compare_unsigned_wraps id a b :
  is_u 64 a -> is_u 64 b -> a <> b ->
  Compare_field DField.Unsigned (DWord a) (mkFV id DField.LT DField.Signed (DWord b))
  = Ok (xorb (a <? b) (xorb (2 ^ 63 <=? a) (2 ^ 63 <=? b))).
Proof.
  unfold is_u. intros Ha Hb Hne. rewrite Compare_field_ints by (by right || by vm_compute).
  change (int_op DField.LT (s64 a) (s64 b)) with (s64 a <? s64 b). f_equal.
  unfold s64, swrap, wrap. rewrite !Z.mod_small by done. change (2 ^ (64 - 1)) with (2 ^ 63).
  change (2 ^ 63) with 9223372036854775808. change (2 ^ 64) with 18446744073709551616 in *.
  destruct (Z.ltb_spec a 9223372036854775808), (Z.ltb_spec b 9223372036854775808);
    bcases; cbn [xorb]; try done; lia.
Qed.

Lemma Compare_unsigned_wraps_witness :
  Compare_field DField.Unsigned (DWord (2 ^ 63)) (mkFV 1 DField.LT DField.Signed (DWord 1)) = Ok true.
Proof.
  rewrite (Compare_unsigned_wraps 1 (2 ^ 63) 1); [vm_compute; reflexivity|by vm_compute|by vm_compute|by vm_compute].
Defined.

(** A field set holds what was added. Starting from a set for [n] fields, adding ids
    keeps the array, the counter and the mask consistent; the members are the ids
    in order, the ones past the capacity (at most 255) being dropped, and
    [field_present] answers membership for every id below 255 (and no for 255). *)
Theorem field_set_members n ids :
  0 <= n -> Forall (fun id => 0 <= id <= 255) ids ->
  exists fs0 fs, DTCFieldSet_new n = Ok fs0 /\
    fold_left (fun m id => let! fs := m in fs_add_field fs id) ids (Ok fs0) = Ok fs /\ fs_ok fs /\
    fs_members fs = take (Z.to_nat (Z.min n 255)) ids /\
    (forall i, (i < length (fs_members fs))%nat -> fs_field_id fs (Z.of_nat i) = nth i ids 0) /\
    (forall id, 0 <= id < 255 -> fs_field_present fs id = true <-> id ∈ take (Z.to_nat (Z.min n 255)) ids) /\
    fs_field_present fs 255 = false.
Proof.
  intros Hn Hids. destruct (fs_new_ok n Hn) as (fs0 & E0 & Hok0 & Hm0 & Hmax0).
  destruct (fs_add_all fs0 ids Hok0 Hids) as (fs & E & Hok & Hmax & Hmem). rewrite Hm0, app_nil_l, Hmax0 in Hmem.
  exists fs0, fs. split; [done|]. split; [done|]. split; [done|]. split; [done|]. split; [|split; [|done]].
  - intros i Hi. destruct Hok as [Hnum Hroom _].
    assert (Hl : length (fs_members fs) = Z.to_nat (fs_num fs)) by (unfold fs_members; rewrite length_take; lia).
    unfold fs_field_id. rewrite (proj2 (Z.leb_le _ _)), (proj2 (Z.ltb_lt _ _)) by lia. cbn [andb]. rewrite Nat2Z.id.
    assert (H1 : nth i (fs_members fs) 0 = nth i (fs_ids fs) 0).
    { unfold fs_members. rewrite !nth_lookup, lookup_take_lt by lia. done. }
    rewrite <-H1, Hmem, !nth_lookup, lookup_take_lt; [done|]. rewrite Hmem, length_take in Hi. lia.
  - intros id Hid. by rewrite fs_present_member, Hmem.
Qed.

Lemma field_set_members_witness :
  exists fs0 fs, DTCFieldSet_new 2 = Ok fs0 /\
    fold_left (fun m id => let! fs := m in fs_add_field fs id) [9; 4; 7] (Ok fs0) = Ok fs /\ fs_members fs = [9; 4].
Proof.
  destruct (field_set_members 2 [9; 4; 7]) as (fs0 & fs & E0 & E & _ & Hm & _); [lia| |].
  - by repeat (constructor; [lia|]).
  - exists fs0, fs. split; [exact E0|]. split; [exact E|]. rewrite Hm. reflexivity.
Defined.

End FieldSpec.
