(* ===== verification/Mem.v ===== *)
(** Byte-addressed memory, as the shared-memory components see it.

    A memory is a finite map from addresses to bytes, a byte that was never written
    being some fixed value; integers are stored least significant byte first. *)
From Stdlib Require Import ZArith Lia.
From stdpp Require Import base list numbers gmap.
From S2P Require Import Prelude.
Local Open Scope Z_scope.

Abbreviation memory := (gmap Z Z).

Definition byte (m : memory) (a : Z) : Z := u8 (default 0 (m !! a)).

(** An [n]-byte integer. *)
Fixpoint ld (n : nat) (m : memory) (a : Z) : Z :=
  match n with
  | O => 0
  | S n => byte m a + 256 * ld n m (a + 1)
  end.
Fixpoint sto (n : nat) (m : memory) (a v : Z) : memory :=
  match n with
  | O => m
  | S n => <[a := v mod 256]> (sto n m (a + 1) (v / 256))
  end.

(** Byte strings: what [memcpy], [memmove] and [memset] move. *)
Definition get_bytes (m : memory) (a : Z) (n : nat) : list Z := (fun i => byte m (a + Z.of_nat i)) <$> seq 0 n.
Fixpoint put_bytes (m : memory) (a : Z) (bs : list Z) : memory :=
  match bs with
  | [] => m
  | b :: bs => <[a := b]> (put_bytes m (a + 1) bs)
  end.
Definition mem_move (m : memory) (dst src : Z) (n : nat) : memory := put_bytes m dst (get_bytes m src n).
Definition mem_set (m : memory) (a v : Z) (n : nat) : memory := put_bytes m a (replicate n (u8 v)).

(** Two memories with the same bytes on [lo, hi). *)
Definition same_on (lo hi : Z) (m m' : memory) : Prop := forall x, lo <= x < hi -> byte m x = byte m' x.

Module MemFacts.

Lemma byte_range m a : 0 <= byte m a < 256.
Proof. apply (wrap_range 8). lia. Qed.

Lemma byte_insert m a v x : byte (<[a := v]> m) x = if a =? x then u8 v else byte m x.
Proof. unfold byte. destruct (Z.eqb_spec a x) as [->|]; [by rewrite lookup_insert_eq|by rewrite lookup_insert_ne]. Qed.

Lemma byte_sto_out n m a v x : ~ (a <= x < a + Z.of_nat n) -> byte (sto n m a v) x = byte m x.
Proof.
  revert a v; induction n as [|n IH]; intros a v Hx; [done|]. cbn [sto]. rewrite byte_insert.
  rewrite (proj2 (Z.eqb_neq _ _)) by lia. apply IH. lia.
Qed.

Lemma ld_ext n m m' a : same_on a (a + Z.of_nat n) m m' -> ld n m a = ld n m' a.
Proof.
  revert a; induction n as [|n IH]; intros a H; [done|]. cbn [ld]. rewrite (H a) by lia. f_equal. f_equal.
  apply IH. intros x Hx. apply H. lia.
Qed.

Lemma ld_range n m a : 0 <= ld n m a < 256 ^ Z.of_nat n.
Proof.
  revert a; induction n as [|n IH]; intros a; [simpl; lia|]. cbn [ld]. rewrite pow256_S.
  pose proof (byte_range m a). specialize (IH (a + 1)). lia.
Qed.

Lemma ld_sto_same n m a v : ld n (sto n m a v) a = v mod 256 ^ Z.of_nat n.
Proof.
  revert m a v; induction n as [|n IH]; intros m a v; [by rewrite Z.mod_1_r|].
  cbn [ld sto]. rewrite byte_insert, Z.eqb_refl.
  rewrite (ld_ext n _ (sto n m (a + 1) (v / 256))).
  - rewrite IH, pow256_S, Z.rem_mul_r by (try lia; apply Z.pow_pos_nonneg; lia). unfold u8, wrap.
    rewrite (Zmod_small (v mod 256)); [done|]. change (2 ^ 8) with 256. apply Z.mod_pos_bound. lia.
  - intros x Hx. rewrite byte_insert. by rewrite (proj2 (Z.eqb_neq _ _)) by lia.
Qed.

Lemma ld_sto_fit n m a v : 0 <= v < 256 ^ Z.of_nat n -> ld n (sto n m a v) a = v.
Proof. intros. by rewrite ld_sto_same, Z.mod_small. Qed.

Lemma ld_sto_other n k m a b v :
  a + Z.of_nat k <= b \/ b + Z.of_nat n <= a -> ld n (sto k m a v) b = ld n m b.
Proof. intros H. apply ld_ext. intros x Hx. apply byte_sto_out. lia. Qed.

Lemma same_on_sym lo hi m m' : same_on lo hi m m' -> same_on lo hi m' m.
Proof. intros H x Hx. symmetry. by apply H. Qed.

Lemma same_on_trans lo hi m1 m2 m3 : same_on lo hi m1 m2 -> same_on lo hi m2 m3 -> same_on lo hi m1 m3.
Proof. intros H1 H2 x Hx. by rewrite H1, H2. Qed.

Lemma same_on_sub lo hi lo' hi' m m' : same_on lo hi m m' -> lo <= lo' -> hi' <= hi -> same_on lo' hi' m m'.
Proof. intros H ?? x Hx. apply H. lia. Qed.

Lemma same_on_sto lo hi n m a v : hi <= a \/ a + Z.of_nat n <= lo -> same_on lo hi (sto n m a v) m.
Proof. intros H x Hx. apply byte_sto_out. lia. Qed.

Lemma get_bytes_length m a n : length (get_bytes m a n) = n.
Proof. unfold get_bytes. by rewrite length_fmap, length_seq. Qed.

Lemma get_bytes_lookup m a n i : (i < n)%nat -> get_bytes m a n !! i = Some (byte m (a + Z.of_nat i)).
Proof. intros H. unfold get_bytes. by rewrite list_lookup_fmap, lookup_seq_lt by done. Qed.

Lemma byte_put_out m a bs x : ~ (a <= x < a + Z.of_nat (length bs)) -> byte (put_bytes m a bs) x = byte m x.
Proof.
  revert a; induction bs as [|b bs IH]; intros a Hx; [done|]. cbn [put_bytes]. rewrite length_cons in Hx.
  rewrite byte_insert, (proj2 (Z.eqb_neq _ _)) by lia. apply IH. lia.
Qed.

Lemma byte_put_in m a bs i b : bs !! i = Some b -> is_u 8 b -> byte (put_bytes m a bs) (a + Z.of_nat i) = b.
Proof.
  revert a i; induction bs as [|c bs IH]; intros a i Hi Hb; [done|]. cbn [put_bytes]. rewrite byte_insert.
  destruct i as [|i].
  - injection Hi as ->. rewrite Z.add_0_r, Z.eqb_refl. by apply wrap_small.
  - rewrite (proj2 (Z.eqb_neq _ _)) by lia. replace (a + Z.of_nat (S i)) with (a + 1 + Z.of_nat i) by lia. by apply IH.
Qed.

Lemma byte_move_in m dst src n i : 0 <= i < Z.of_nat n -> byte (mem_move m dst src n) (dst + i) = byte m (src + i).
Proof.
  intros Hi. unfold mem_move. replace i with (Z.of_nat (Z.to_nat i)) at 1 by lia.
  rewrite (byte_put_in _ _ _ _ (byte m (src + i))); [done| |apply byte_range].
  rewrite get_bytes_lookup by lia. do 2 f_equal. lia.
Qed.

Lemma byte_move_out m dst src n x : ~ (dst <= x < dst + Z.of_nat n) -> byte (mem_move m dst src n) x = byte m x.
Proof. intros H. apply byte_put_out. by rewrite get_bytes_length. Qed.

Lemma same_on_move lo hi m dst src n : hi <= dst \/ dst + Z.of_nat n <= lo -> same_on lo hi (mem_move m dst src n) m.
Proof. intros H x Hx. apply byte_move_out. lia. Qed.

Lemma byte_set_in m a v n x : a <= x < a + Z.of_nat n -> byte (mem_set m a v n) x = u8 v.
Proof.
  intros Hx. unfold mem_set. replace x with (a + Z.of_nat (Z.to_nat (x - a))) by lia.
  apply byte_put_in; [apply lookup_replicate_2; lia|apply (wrap_range 8); lia].
Qed.

Lemma byte_set_out m a v n x : ~ (a <= x < a + Z.of_nat n) -> byte (mem_set m a v n) x = byte m x.
Proof. intros H. apply byte_put_out. by rewrite length_replicate. Qed.

End MemFacts.
