(* ===== verification/PtMalloc.v ===== *)
(** The shared-memory allocator: [cache/pt_malloc.h], [cache/pt_malloc.cc] and
    [cache/mallocator.h] ([DTCBinMalloc]).

    The segment starts with a header and the heads of the bins; they are records of
    the state. From [m_hBottom] on it is divided into chunks, which are byte memory: a
    chunk at [p] has its size and the in-use bit of the chunk before it at [p + 4], the
    user's bytes from [p + 8] to [p + size + 4]; while it is free, its list links are
    at [p + 8] and [p + 16] and its size is repeated behind it, at [p + size]. Handles
    are offsets from the start of the segment. A chunk access that is not between
    [m_hBottom] and [m_tSize] is a [Fault]. *)
From Stdlib Require Import ZArith Lia.
From stdpp Require Import base list numbers gmap.
From S2P Require Import Prelude Mem.
Local Open Scope Z_scope.

(** ** Sizes and constants *)

Definition INVALID_HANDLE : Z := 0.
Definition SIZE_SZ : Z := 4.
Definition MALLOC_ALIGN_MASK : Z := 7.
Definition MAX_ALLOC_SIZE : Z := 0xFFFFFFF8.
(** [sizeof(MallocChunk)]: two 32-bit sizes and two 64-bit handles. *)
Definition MIN_CHUNK_SIZE : Z := 24.
Definition MINSIZE : Z := Z.ldiff (MIN_CHUNK_SIZE + MALLOC_ALIGN_MASK) MALLOC_ALIGN_MASK.
Definition NBINS : Z := 128.
Definition NFASTBINS : Z := 64.
Definition MIN_LARGE_SIZE : Z := 512.
Definition DTC_SIGN_0 : Z := 0.
Definition DTC_SIGN_1 : Z := 0x4D635474.
Definition DTC_VER_MIN : Z := 4.
Definition DTC_RESERVE_SIZE : Z := 4096.
Definition MALLOC_FLAG_FAST : Z := 1.
Definition MAXSTATCOUNT : Z := 10000 * 3600 * 12.
Definition PREV_INUSE : Z := 1.
Definition SIZE_BITS : Z := 7.

(** On the 64-bit targets. *)
Definition sizeof_MemHead : Z := 1024.
Definition sizeof_CBin : Z := 16.

(** ** The state *)

Record CBin := mkCBin { m_hPreChunk : Z; m_hNextChunk : Z }.

Record MemHead := mkHead {
  m_auiSign : list Z;
  m_ushVer : Z;
  m_tSize : Z;
  m_tUserAllocSize : Z;
  m_tUserAllocChunkCnt : Z;
  m_uiFlags : Z;
  m_hBottom : Z;
  m_hReserveZone : Z;
  m_hTop : Z;
  m_tLastFreeChunkSize : Z;
  m_auiBinBitMap : list Z;
  m_shmIntegrity : Z
}.

Record MallocStat := mkStat {
  statChunkTotal : Z;
  statDataSize : Z;
  statMemoryTop : Z;
  statTmpDataSizeRecently : Z;
  statTmpDataAllocCountRecently : Z;
  statAverageDataSizeRecently : Z;
  minChunkSize : Z
}.

Record DTCBinMalloc := mkMalloc {
  head : MemHead;
  m_ptBin : list CBin;
  m_ptFastBin : list CBin;
  m_ptUnsortedBin : CBin;
  stat : MallocStat;
  mem : memory
}.

Abbreviation M := (ST DTCBinMalloc).

Definition set_mem (m : memory) (s : DTCBinMalloc) : DTCBinMalloc :=
  mkMalloc s.(head) s.(m_ptBin) s.(m_ptFastBin) s.(m_ptUnsortedBin) s.(stat) m.
Definition set_head (h : MemHead) (s : DTCBinMalloc) : DTCBinMalloc :=
  mkMalloc h s.(m_ptBin) s.(m_ptFastBin) s.(m_ptUnsortedBin) s.(stat) s.(mem).
Definition set_stat (t : MallocStat) (s : DTCBinMalloc) : DTCBinMalloc :=
  mkMalloc s.(head) s.(m_ptBin) s.(m_ptFastBin) s.(m_ptUnsortedBin) t s.(mem).

(** [m_hTop] with its copy in the statistics, and the other fields set alone. *)
Definition set_top (v : Z) (s : DTCBinMalloc) : DTCBinMalloc :=
  let h := s.(head) in let t := s.(stat) in
  set_stat (mkStat t.(statChunkTotal) t.(statDataSize) v t.(statTmpDataSizeRecently)
    t.(statTmpDataAllocCountRecently) t.(statAverageDataSizeRecently) t.(minChunkSize))
  (set_head (mkHead h.(m_auiSign) h.(m_ushVer) h.(m_tSize) h.(m_tUserAllocSize) h.(m_tUserAllocChunkCnt) h.(m_uiFlags)
    h.(m_hBottom) h.(m_hReserveZone) v h.(m_tLastFreeChunkSize) h.(m_auiBinBitMap) h.(m_shmIntegrity)) s).
Definition set_last (v : Z) (s : DTCBinMalloc) : DTCBinMalloc :=
  let h := s.(head) in
  set_head (mkHead h.(m_auiSign) h.(m_ushVer) h.(m_tSize) h.(m_tUserAllocSize) h.(m_tUserAllocChunkCnt) h.(m_uiFlags)
    h.(m_hBottom) h.(m_hReserveZone) h.(m_hTop) v h.(m_auiBinBitMap) h.(m_shmIntegrity)) s.
Definition set_bitmap (v : list Z) (s : DTCBinMalloc) : DTCBinMalloc :=
  let h := s.(head) in
  set_head (mkHead h.(m_auiSign) h.(m_ushVer) h.(m_tSize) h.(m_tUserAllocSize) h.(m_tUserAllocChunkCnt) h.(m_uiFlags)
    h.(m_hBottom) h.(m_hReserveZone) h.(m_hTop) h.(m_tLastFreeChunkSize) v h.(m_shmIntegrity)) s.
Definition set_flags (v : Z) (s : DTCBinMalloc) : DTCBinMalloc :=
  let h := s.(head) in
  set_head (mkHead h.(m_auiSign) h.(m_ushVer) h.(m_tSize) h.(m_tUserAllocSize) h.(m_tUserAllocChunkCnt) v
    h.(m_hBottom) h.(m_hReserveZone) h.(m_hTop) h.(m_tLastFreeChunkSize) h.(m_auiBinBitMap) h.(m_shmIntegrity)) s.
Definition set_share_memory_integrity (flags : Z) (s : DTCBinMalloc) : DTCBinMalloc :=
  let h := s.(head) in
  set_head (mkHead h.(m_auiSign) h.(m_ushVer) h.(m_tSize) h.(m_tUserAllocSize) h.(m_tUserAllocChunkCnt) h.(m_uiFlags)
    h.(m_hBottom) h.(m_hReserveZone) h.(m_hTop) h.(m_tLastFreeChunkSize) h.(m_auiBinBitMap) (if flags =? 0 then 0 else 1)) s.

(** [m_tUserAllocSize] and [m_tUserAllocChunkCnt] changed by [dsz] and [dcnt], with
    [statChunkTotal] and [statDataSize] kept in step. *)
Definition set_user (dsz dcnt : Z) (s : DTCBinMalloc) : DTCBinMalloc :=
  let h := s.(head) in let t := s.(stat) in
  let user := u64 (h.(m_tUserAllocSize) + dsz) in
  set_stat (mkStat (s64 (t.(statChunkTotal) + dcnt)) (s64 user) t.(statMemoryTop) t.(statTmpDataSizeRecently)
    t.(statTmpDataAllocCountRecently) t.(statAverageDataSizeRecently) t.(minChunkSize))
  (set_head (mkHead h.(m_auiSign) h.(m_ushVer) h.(m_tSize) user (u64 (h.(m_tUserAllocChunkCnt) + dcnt)) h.(m_uiFlags)
    h.(m_hBottom) h.(m_hReserveZone) h.(m_hTop) h.(m_tLastFreeChunkSize) h.(m_auiBinBitMap) h.(m_shmIntegrity)) s).

Definition add_alloc_size_to_stat (size : Z) (s : DTCBinMalloc) : DTCBinMalloc :=
  let t := s.(stat) in
  if MAXSTATCOUNT <? t.(statTmpDataAllocCountRecently)
  then set_stat (mkStat t.(statChunkTotal) t.(statDataSize) t.(statMemoryTop) 0 0 MINSIZE t.(minChunkSize)) s
  else
    let sum := u64 (t.(statTmpDataSizeRecently) + size) in
    let cnt := t.(statTmpDataAllocCountRecently) + 1 in
    set_stat (mkStat t.(statChunkTotal) t.(statDataSize) t.(statMemoryTop) sum cnt (s64 (sum / cnt)) t.(minChunkSize)) s.

Definition get_min_chunk_size (s : DTCBinMalloc) : Z :=
  let t := s.(stat) in
  u32 (if t.(minChunkSize) =? 1
       then (if t.(statChunkTotal) <=? 0 then MINSIZE else u64 (Z.quot t.(statDataSize) t.(statChunkTotal)))
       else t.(minChunkSize)).

Definition set_min_chunk_size (size : Z) (s : DTCBinMalloc) : DTCBinMalloc :=
  let t := s.(stat) in
  set_stat (mkStat t.(statChunkTotal) t.(statDataSize) t.(statMemoryTop) t.(statTmpDataSizeRecently)
    t.(statTmpDataAllocCountRecently) t.(statAverageDataSizeRecently)
    (if size =? 1 then 1 else if size <? MINSIZE then MINSIZE else size)) s.

(** ** Chunk memory *)

Definition in_area (s : DTCBinMalloc) (a n : Z) : bool :=
  (s.(head).(m_hBottom) <=? a) && (a + n <=? s.(head).(m_tSize)).
Definition load (n : nat) (a : Z) : M Z := fun s =>
  if in_area s a (Z.of_nat n) then Ok (ld n s.(mem) a, s) else Fault.
Definition store (n : nat) (a v : Z) : M unit := fun s =>
  if in_area s a (Z.of_nat n) then Ok (tt, set_mem (sto n s.(mem) a v) s) else Fault.

(** The fields of [MallocChunk]. *)
Definition tPreSize_of (p : Z) : M Z := load 4 p.
Definition tSize_of (p : Z) : M Z := load 4 (p + 4).
Definition hPre_of (p : Z) : M Z := load 8 (p + 8).
Definition hNext_of (p : Z) : M Z := load 8 (p + 16).
Definition put_tPreSize (p v : Z) : M unit := store 4 p v.
Definition put_tSize (p v : Z) : M unit := store 4 (p + 4) v.
Definition put_hPre (p v : Z) : M unit := store 8 (p + 8) v.
Definition put_hNext (p v : Z) : M unit := store 8 (p + 16) v.

Definition memmove (dst src n : Z) : M unit := fun s =>
  if (0 <=? n) && in_area s dst n && in_area s src n
  then Ok (tt, set_mem (mem_move s.(mem) dst src (Z.to_nat n)) s) else Fault.
Definition memset0 (p n : Z) : M unit := fun s =>
  if (0 <=? n) && in_area s p n then Ok (tt, set_mem (mem_set s.(mem) p 0 (Z.to_nat n)) s) else Fault.

(** A pointer is its distance from [m_pBaseAddr]. *)
Definition ptr_to_handle (p : Z) (s : DTCBinMalloc) : Z :=
  if (p <? 0) || (s.(head).(m_tSize) <=? p) then INVALID_HANDLE else p.

Definition chunk2mem (h : Z) : Z := h + 2 * SIZE_SZ.
Definition mem2chunk (h : Z) : Z := h - 2 * SIZE_SZ.
Definition chunksize2memsize (size : Z) : Z := u32 (size - SIZE_SZ).
Definition misaligned_chunk (h : Z) : bool := negb (Z.land h MALLOC_ALIGN_MASK =? 0).

Definition REQUEST_OUT_OF_RANGE (req : Z) : bool := u32 (-2 * MINSIZE) <=? req.
Definition request2size (req : Z) : Z :=
  if req + SIZE_SZ + MALLOC_ALIGN_MASK <? MINSIZE then MINSIZE
  else u32 (Z.ldiff (req + SIZE_SZ + MALLOC_ALIGN_MASK) MALLOC_ALIGN_MASK).

Definition REAL_SIZE (sz : Z) : Z := Z.ldiff sz SIZE_BITS.
Definition CHUNK_SIZE (p : Z) : M Z := sz ← tSize_of p; mret (REAL_SIZE sz).
Definition prev_inuse (p : Z) : M bool := sz ← tSize_of p; mret (negb (Z.land sz PREV_INUSE =? 0)).
Definition inuse_bit_at_offset (p offset : Z) : M bool := prev_inuse (p + offset).
Definition set_inuse_bit_at_offset (p offset : Z) : M unit :=
  sz ← tSize_of (p + offset); put_tSize (p + offset) (Z.lor sz PREV_INUSE).
Definition clear_inuse_bit_at_offset (p offset : Z) : M unit :=
  sz ← tSize_of (p + offset); put_tSize (p + offset) (Z.ldiff sz PREV_INUSE).
Definition set_size_at_offset (p offset size : Z) : M unit :=
  sz ← tSize_of (p + offset); put_tSize (p + offset) (Z.lor (REAL_SIZE size) (Z.land sz SIZE_BITS)).
Definition set_presize_at_offset (p offset size : Z) : M unit := put_tPreSize (p + offset) (REAL_SIZE size).

Definition in_smallbin_range (sz : Z) : bool := sz <? MIN_LARGE_SIZE.
Definition smallbin_index (sz : Z) : Z := Z.shiftr sz 3.
Definition largebin_index (sz : Z) : Z :=
  if Z.shiftr sz 6 <=? 32 then 56 + Z.shiftr sz 6
  else if Z.shiftr sz 9 <=? 20 then 91 + Z.shiftr sz 9
  else if Z.shiftr sz 12 <=? 10 then 110 + Z.shiftr sz 12
  else if Z.shiftr sz 15 <=? 4 then 119 + Z.shiftr sz 15
  else if Z.shiftr sz 18 <=? 2 then 124 + Z.shiftr sz 18
  else 126.
Definition bin_index (sz : Z) : Z := if in_smallbin_range sz then smallbin_index sz else largebin_index sz.

Definition AT_TOP (p sz : Z) (s : DTCBinMalloc) : bool := p + sz =? s.(head).(m_hTop).
Definition CAN_COMBILE (size add : Z) : bool := size + add <=? MAX_ALLOC_SIZE.

(** ** Bins *)

Inductive bin_ref : Type :=
  | Bin (i : Z)
  | FastBin (i : Z)
  | UnsortedBin.

Definition nth_bin (bs : list CBin) (i : Z) : outcome CBin :=
  if i <? 0 then Fault else match bs !! Z.to_nat i with Some b => Ok b | None => Fault end.

Definition get_bin (r : bin_ref) : M CBin := fun s =>
  match r with
  | Bin i => let! b := nth_bin s.(m_ptBin) i in Ok (b, s)
  | FastBin i => let! b := nth_bin s.(m_ptFastBin) i in Ok (b, s)
  | UnsortedBin => Ok (s.(m_ptUnsortedBin), s)
  end.

Definition put_bin (r : bin_ref) (b : CBin) : M unit := modify (fun s =>
  match r with
  | Bin i => mkMalloc s.(head) (<[Z.to_nat i := b]> s.(m_ptBin)) s.(m_ptFastBin) s.(m_ptUnsortedBin) s.(stat) s.(mem)
  | FastBin i => mkMalloc s.(head) s.(m_ptBin) (<[Z.to_nat i := b]> s.(m_ptFastBin)) s.(m_ptUnsortedBin) s.(stat) s.(mem)
  | UnsortedBin => mkMalloc s.(head) s.(m_ptBin) s.(m_ptFastBin) b s.(stat) s.(mem)
  end).

(** The bitmap words; past the array lie [m_shmIntegrity] and the reserved bytes,
    which are zero since [Init]. *)
Definition bitmap_word (s : DTCBinMalloc) (i : Z) : Z :=
  if i <? 4 then nth (Z.to_nat i) s.(head).(m_auiBinBitMap) 0 else if i =? 4 then s.(head).(m_shmIntegrity) else 0.

Definition set_bin_bit_map (i : Z) : M unit := modify (fun s =>
  set_bitmap (<[Z.to_nat (i / 32) := u32 (Z.lor (bitmap_word s (i / 32)) (Z.shiftl 1 (i mod 32)))]> s.(head).(m_auiBinBitMap)) s).
Definition clear_bin_bit_map (i : Z) : M unit := modify (fun s =>
  set_bitmap (<[Z.to_nat (i / 32) := u32 (Z.ldiff (bitmap_word s (i / 32)) (Z.shiftl 1 (i mod 32)))]> s.(head).(m_auiBinBitMap)) s).

Definition empty_bin (i : Z) : M bool := b ← get_bin (Bin i); mret (b.(m_hNextChunk) =? INVALID_HANDLE).

(** [if (empty_bin(i)) clear_bin_bit_map(i);] *)
Definition clear_if_empty (i : Z) : M unit := e ← empty_bin i; if (e : bool) then clear_bin_bit_map i else mret tt.

Definition unlink_bin (r : bin_ref) (hHandle : Z) : M Z :=
  if hHandle =? INVALID_HANDLE then mret (-1) else
  stBin ← get_bin r;
  if (stBin.(m_hNextChunk) =? INVALID_HANDLE) || (stBin.(m_hPreChunk) =? INVALID_HANDLE) then mret (-2) else
  pre ← hPre_of hHandle;
  (if pre =? INVALID_HANDLE then
     next ← hNext_of hHandle;
     stBin ← get_bin r;
     put_bin r (mkCBin stBin.(m_hPreChunk) next)
   else
     next ← hNext_of hHandle;
     put_hNext pre next);;
  next ← hNext_of hHandle;
  (if next =? INVALID_HANDLE then
     pre ← hPre_of hHandle;
     stBin ← get_bin r;
     put_bin r (mkCBin pre stBin.(m_hNextChunk))
   else
     pre ← hPre_of hHandle;
     put_hPre next pre);;
  mret 0.

Definition link_bin (r : bin_ref) (hHandle : Z) : M Z :=
  if hHandle =? INVALID_HANDLE then mret (-1) else
  stBin ← get_bin r;
  put_hNext hHandle stBin.(m_hNextChunk);;
  put_hPre hHandle INVALID_HANDLE;;
  if negb (stBin.(m_hNextChunk) =? INVALID_HANDLE) then
    put_hPre stBin.(m_hNextChunk) hHandle;;
    if stBin.(m_hPreChunk) =? INVALID_HANDLE then mret (-2)
    else put_bin r (mkCBin stBin.(m_hPreChunk) hHandle);; mret 0
  else
    if negb (stBin.(m_hPreChunk) =? INVALID_HANDLE) then mret (-3)
    else put_bin r (mkCBin hHandle hHandle);; mret 0.

(** Takes the first chunk of a bin and marks it in use; 0 for NULL. *)
Definition bin_malloc (r : bin_ref) : M Z :=
  ptBin ← get_bin r;
  if ptBin.(m_hNextChunk) =? INVALID_HANDLE then mret 0 else
  let p := ptBin.(m_hNextChunk) in
  sz ← tSize_of p;
  set_inuse_bit_at_offset p (REAL_SIZE sz);;
  unlink_bin r p;;
  mret p.

Definition fast_malloc (tSize : Z) : M Z := bin_malloc (FastBin (smallbin_index tSize)).
Definition small_bin_malloc (tSize : Z) : M Z :=
  let uiBinIdx := smallbin_index tSize in
  p ← bin_malloc (Bin uiBinIdx);
  clear_if_empty uiBinIdx;;
  mret p.

(** The loop of [check_bin] along one bin: the handle it ends with. *)
Fixpoint check_chain (fuel : nat) (hHandle : Z) : M Z :=
  match fuel with
  | O => fault
  | S fuel =>
    next ← hNext_of hHandle;
    if next =? INVALID_HANDLE then mret hHandle else check_chain fuel next
  end.
Definition check_one_bin (fuel : nat) (b : CBin) : M bool :=
  h ← (if b.(m_hNextChunk) =? INVALID_HANDLE then mret b.(m_hNextChunk) else check_chain fuel b.(m_hNextChunk));
  mret (b.(m_hPreChunk) =? h).
Fixpoint check_bins (fuel : nat) (bs : list CBin) : M bool :=
  match bs with
  | [] => mret true
  | b :: bs => ok ← check_one_bin fuel b; if (ok : bool) then check_bins fuel bs else mret false
  end.
Definition check_bin (fuel : nat) : M Z :=
  bins ← gets m_ptBin; fast ← gets m_ptFastBin; uns ← gets m_ptUnsortedBin;
  ok ← check_bins fuel bins;
  if negb ok then mret (-1) else
  ok ← check_bins fuel fast;
  if negb ok then mret (-2) else
  ok ← check_one_bin fuel uns;
  if negb ok then mret (-3) else mret 0.

(** ** Freeing *)

Definition check_inuse_chunk (p : Z) : M Z :=
  sz ← CHUNK_SIZE p;
  used ← inuse_bit_at_offset p sz;
  if negb used then mret (-1) else
  prev ← prev_inuse p;
  bad ← (if negb prev then
           pre ← tPreSize_of p;
           let tmp := p - pre in
           h ← gets (ptr_to_handle tmp); bottom ← gets (fun s => s.(head).(m_hBottom));
           if h <? bottom then mret true else
           tsz ← CHUNK_SIZE tmp; mret (negb (tsz =? pre))
         else mret false);
  if (bad : bool) then mret (-2) else
  let tmp := p + sz in
  top ← gets (AT_TOP tmp 0);
  if negb top then
    tsz ← CHUNK_SIZE tmp;
    if tsz <? MINSIZE then mret (-3) else mret 0
  else mret 0.

(** The first half of [inter_free]: the chunk before is merged when it is free. The
    result is the chunk, its handle and its size. *)
Definition combine_prev (p hHandle tSize : Z) : M (Z * Z * Z) :=
  prev ← prev_inuse p;
  if (prev : bool) then mret (p, hHandle, tSize) else
  pre ← tPreSize_of p;
  if CAN_COMBILE tSize pre then
    let tSize := u32 (tSize + pre) in
    let hHandle := u64 (hHandle - pre) in
    let uiBinIdx := bin_index pre in
    let p := p - pre in
    h ← gets (ptr_to_handle p);
    unlink_bin (Bin uiBinIdx) h;;
    clear_if_empty uiBinIdx;;
    set_size_at_offset p 0 tSize;;
    set_presize_at_offset p tSize tSize;;
    mret (p, hHandle, tSize)
  else mret (p, hHandle, tSize).

(** The chunk behind; [None] is the error return. *)
Definition combine_next (p hHandle tSize : Z) : M (option Z) :=
  top ← gets (fun s => s.(head).(m_hTop));
  if u64 (hHandle + tSize) =? top then mret (Some tSize) else
  let next := u64 (hHandle + tSize) in
  nsz ← CHUNK_SIZE next;
  if nsz <? MINSIZE then mret None else
  used ← inuse_bit_at_offset next nsz;
  if negb used && CAN_COMBILE tSize nsz then
    let tSize := u32 (tSize + nsz) in
    let uiBinIdx := bin_index nsz in
    h ← gets (ptr_to_handle next);
    unlink_bin (Bin uiBinIdx) h;;
    clear_if_empty uiBinIdx;;
    set_size_at_offset p 0 tSize;;
    set_presize_at_offset p tSize tSize;;
    mret (Some tSize)
  else mret (Some tSize).

Definition note_free_size (tSize : Z) : M unit := modify (fun s =>
  if s.(head).(m_tLastFreeChunkSize) <? tSize then set_last tSize s else s).

(** The chunk goes to the top of the heap or into its bin. *)
Definition place_chunk (p hHandle tSize : Z) : M Z :=
  set_size_at_offset p 0 tSize;;
  set_presize_at_offset p tSize tSize;;
  set_inuse_bit_at_offset p tSize;;
  note_free_size tSize;;
  top ← gets (fun s => s.(head).(m_hTop));
  if u64 (hHandle + tSize) =? top then
    modify (fun s => set_top (u64 (s.(head).(m_hTop) - tSize)) s);;
    put_tSize p PREV_INUSE;;
    modify (fun s =>
      let free := u64 (s.(head).(m_tSize) - s.(head).(m_hTop) - MINSIZE) in
      if (s.(head).(m_hTop) + MINSIZE <? s.(head).(m_tSize)) && (s.(head).(m_tLastFreeChunkSize) <? free)
      then set_last free s else s);;
    mret 0
  else
    clear_inuse_bit_at_offset p tSize;;
    h ← gets (ptr_to_handle p);
    if in_smallbin_range tSize then
      link_bin (Bin (smallbin_index tSize)) h;;
      set_bin_bit_map (smallbin_index tSize);;
      mret 0
    else
      link_bin (Bin (largebin_index tSize)) h;;
      set_bin_bit_map (largebin_index tSize);;
      mret 0.

(** [inter_free]: the return value and [tMemSize]. Two of the error returns are
    [INVALID_HANDLE], which is 0. *)
Definition inter_free (hHandle : Z) : M (Z * Z) :=
  if hHandle =? INVALID_HANDLE then mret (0, 0) else
  total ← gets (fun s => s.(head).(m_tSize));
  if total <=? hHandle then mret (-1, 0) else
  let p := mem2chunk hHandle in
  tSize ← CHUNK_SIZE p;
  let tMemSize := tSize in
  hHandle ← gets (ptr_to_handle p);
  if total <=? u64 (hHandle + tSize) then mret (-2, tMemSize) else
  used ← inuse_bit_at_offset p tSize;
  if negb used then mret (-3, tMemSize) else
  if misaligned_chunk hHandle then mret (INVALID_HANDLE, tMemSize) else
  bad ← check_inuse_chunk p;
  if negb (bad =? 0) then mret (INVALID_HANDLE, tMemSize) else
  '(p, hHandle, tSize) ← combine_prev p hHandle tSize;
  r ← combine_next p hHandle tSize;
  match r with
  | None => mret (-4, tMemSize)
  | Some tSize => ret ← place_chunk p hHandle tSize; mret (ret, tMemSize)
  end.

Definition Free (hHandle : Z) : M Z :=
  '(iRet, tSize) ← inter_free hHandle;
  (if iRet =? 0 then modify (set_user (- tSize) (-1)) else mret tt);;
  mret iRet.

(** ** Allocating *)

(** The handle given out is that of the user memory; 0 for NULL. *)
Definition top_alloc (tSize : Z) : M Z :=
  h ← gets head;
  if h.(m_tSize) <=? u64 (h.(m_hTop) + tSize + MINSIZE) then mret 0 else
  let p := h.(m_hTop) in
  sz ← tSize_of p;
  put_tSize p (Z.lor (Z.land sz SIZE_BITS) (REAL_SIZE tSize));;
  put_tPreSize (p + tSize) (REAL_SIZE tSize);;
  put_tSize (p + tSize) PREV_INUSE;;
  modify (set_top (u64 (h.(m_hTop) + tSize)));;
  mret (chunk2mem p).

(** The chunk found is taken out of its bin; what it has too much becomes a chunk of
    its own, which is freed. *)
Definition carve_chunk (uiBinIdx p tSize : Z) : M unit :=
  sz ← CHUNK_SIZE p;
  let tRemainSize := u32 (sz - tSize) in
  h ← gets (ptr_to_handle p);
  unlink_bin (Bin uiBinIdx) h;;
  clear_if_empty uiBinIdx;;
  min ← gets get_min_chunk_size;
  if tRemainSize <? min then
    sz ← CHUNK_SIZE p;
    set_inuse_bit_at_offset p sz
  else
    bits ← tSize_of p;
    put_tSize p (Z.lor tSize (Z.land bits SIZE_BITS));;
    let next := p + tSize in
    put_tSize next tRemainSize;;
    put_tPreSize next tSize;;
    set_inuse_bit_at_offset next 0;;
    put_tPreSize (p + tSize + tRemainSize) tRemainSize;;
    set_inuse_bit_at_offset next tRemainSize;;
    h ← gets (ptr_to_handle next);
    inter_free (chunk2mem h);;
    mret tt.

(** The first fit among the first 99 chunks of a bin; [tries] is what is left of them. *)
Fixpoint first_fit (tries : nat) (v tSize : Z) : M (option Z) :=
  match tries with
  | O => mret None
  | S tries =>
    if v =? INVALID_HANDLE then mret None else
    sz ← CHUNK_SIZE v;
    if tSize <=? sz then mret (Some v) else
    v ← hNext_of v; first_fit tries v tSize
  end.

(** The bitmap skips empty words ([sizeof] counts bytes, so up to 16 words are looked
    at), then the bins are tried one by one. *)
Fixpoint skip_words (n : nat) (uiBitMapIdx uiBinIdx : Z) : M Z :=
  match n with
  | O => mret uiBinIdx
  | S n =>
    w ← gets (fun s => bitmap_word s uiBitMapIdx);
    if (uiBitMapIdx <? 16) && (w =? 0) then skip_words n (uiBitMapIdx + 1) (uiBinIdx + 32) else mret uiBinIdx
  end.
Fixpoint skip_bins (n : nat) (uiBinIdx : Z) : M Z :=
  match n with
  | O => mret uiBinIdx
  | S n =>
    if uiBinIdx <? NBINS then
      b ← get_bin (Bin uiBinIdx);
      if b.(m_hNextChunk) =? INVALID_HANDLE then skip_bins n (uiBinIdx + 1) else mret uiBinIdx
    else mret uiBinIdx
  end.
Definition search_next_bin (uiBinIdx : Z) : M Z :=
  let uiBinIdx := uiBinIdx + 1 in
  let uiBitMapIdx := uiBinIdx / 32 in
  w ← gets (fun s => bitmap_word s uiBitMapIdx);
  uiBinIdx ← (if w =? 0 then skip_words 16 (uiBitMapIdx + 1) ((uiBitMapIdx + 1) * 32) else mret uiBinIdx);
  skip_bins (Z.to_nat NBINS) uiBinIdx.

(** From the tail of a bin to the first chunk that is large enough. *)
Fixpoint last_fit (fuel : nat) (hPre tSize : Z) : M Z :=
  match fuel with
  | O => fault
  | S fuel =>
    if hPre =? INVALID_HANDLE then fault else
    pre ← hPre_of hPre;
    sz ← CHUNK_SIZE hPre;
    if sz <? tSize then last_fit fuel pre tSize else mret hPre
  end.

Definition malloc_next_bin (fuel : nat) (uiBinIdx tSize : Z) : M Z :=
  uiBinIdx ← search_next_bin uiBinIdx;
  if NBINS <=? uiBinIdx then (p ← top_alloc tSize; gets (ptr_to_handle p)) else
  b ← get_bin (Bin uiBinIdx);
  p ← last_fit fuel b.(m_hPreChunk) tSize;
  carve_chunk uiBinIdx p tSize;;
  gets (ptr_to_handle (chunk2mem p)).

(** [inter_malloc]; [fuel] bounds the walk from the tail of a bin. *)
Definition inter_malloc (fuel : nat) (tSize : Z) : M Z :=
  if REQUEST_OUT_OF_RANGE tSize then mret INVALID_HANDLE else
  let tSize := request2size tSize in
  p ← (if in_smallbin_range tSize then small_bin_malloc tSize else mret 0);
  if negb (p =? 0) then gets (ptr_to_handle (chunk2mem p)) else
  let uiBinIdx := bin_index tSize in
  if negb (in_smallbin_range tSize) then
    b ← get_bin (Bin uiBinIdx);
    v ← first_fit 99 b.(m_hNextChunk) tSize;
    match v with
    | Some p => carve_chunk uiBinIdx p tSize;; gets (ptr_to_handle (chunk2mem p))
    | None => malloc_next_bin fuel uiBinIdx tSize
    end
  else malloc_next_bin fuel uiBinIdx tSize.

Definition Malloc (fuel : nat) (tSize : Z) : M Z :=
  modify (set_last 0);;
  hHandle ← inter_malloc fuel tSize;
  (if negb (hHandle =? INVALID_HANDLE) then
     sz ← CHUNK_SIZE (mem2chunk hHandle);
     modify (set_user sz 1);;
     modify (add_alloc_size_to_stat tSize)
   else mret tt);;
  mret hHandle.

Definition Calloc (fuel : nat) (tSize : Z) : M Z :=
  hHandle ← Malloc fuel tSize;
  (if negb (hHandle =? INVALID_HANDLE) then memset0 hHandle tSize else mret tt);;
  mret hHandle.

(** The user space of a chunk; 0 for a handle that is not one. *)
Definition chunk_size (hHandle : Z) : M Z :=
  h ← gets head;
  if (h.(m_hTop) <=? hHandle) || (hHandle <=? h.(m_hBottom)) then mret 0 else
  let p := mem2chunk hHandle in
  bad ← check_inuse_chunk p;
  if negb (bad =? 0) then mret 0 else
  sz ← CHUNK_SIZE p; mret (chunksize2memsize sz).

(** ** Reallocating *)

(** What [inter_re_alloc] does with the room past the new size: chunks of at most
    [MAX_ALLOC_SIZE], each freed. *)
Fixpoint free_remainder (fuel : nat) (remain tRemainderSize : Z) : M unit :=
  match fuel with
  | O => fault
  | S fuel =>
    let tThisChunkSize :=
      if MAX_ALLOC_SIZE <? tRemainderSize then
        if MINSIZE <=? tRemainderSize - MAX_ALLOC_SIZE then REAL_SIZE MAX_ALLOC_SIZE
        else u32 (REAL_SIZE (tRemainderSize - MINSIZE))
      else u32 tRemainderSize in
    put_tSize remain (Z.lor (REAL_SIZE tThisChunkSize) PREV_INUSE);;
    let next := remain + REAL_SIZE tThisChunkSize in
    put_tPreSize next (REAL_SIZE tThisChunkSize);;
    sz ← tSize_of next;
    put_tSize next (Z.lor sz PREV_INUSE);;
    set_inuse_bit_at_offset remain tThisChunkSize;;
    h ← gets (ptr_to_handle (chunk2mem remain));
    inter_free h;;
    let tRemainderSize := u64 (tRemainderSize - tThisChunkSize) in
    if 0 <? tRemainderSize then free_remainder fuel (remain + REAL_SIZE tThisChunkSize) tRemainderSize else mret tt
  end.

(** The end of [inter_re_alloc]: the chunk at [hNewHandle] of [tNewSize] bytes is cut
    to [tSize]. *)
Definition realloc_finish (fuel : nat) (hNewHandle tNewSize tSize : Z) (iPreInUse : bool) (tPreSize : Z) : M Z :=
  if tNewSize <? tSize then fault else
  let tRemainderSize := tNewSize - tSize in
  min ← gets get_min_chunk_size;
  tNewSize ← (if min <=? tRemainderSize then
      free_remainder fuel (hNewHandle + tSize) tRemainderSize;; mret tSize
    else
      let next := hNewHandle + REAL_SIZE tNewSize in
      sz ← tSize_of next;
      put_tSize next (Z.lor sz PREV_INUSE);;
      mret tNewSize);
  put_tSize hNewHandle (u32 (REAL_SIZE tNewSize));;
  (if iPreInUse then sz ← tSize_of hNewHandle; put_tSize hNewHandle (Z.lor sz PREV_INUSE) else mret tt);;
  put_tPreSize hNewHandle tPreSize;;
  gets (ptr_to_handle (chunk2mem hNewHandle)).

(** Room is sought at the top, in the chunk behind, in the chunk before, and last in a
    new chunk. *)
Definition realloc_grow (fuel : nat) (p hHandle tOldSize tSize tUserReqSize : Z) (iPreInUse : bool) (tPreSize : Z) : M Z :=
  h ← gets head;
  top ← gets (AT_TOP p tOldSize);
  if top && (u64 (h.(m_hTop) + (tSize - tOldSize) + MINSIZE) <? h.(m_tSize)) then
    bits ← tSize_of p;
    put_tSize p (Z.lor (REAL_SIZE tSize) (Z.land bits SIZE_BITS));;
    let next := h.(m_hTop) + (tSize - tOldSize) in
    put_tPreSize next (REAL_SIZE tSize);;
    put_tSize next PREV_INUSE;;
    modify (set_top (u64 (h.(m_hTop) + (tSize - tOldSize))));;
    gets (ptr_to_handle (chunk2mem p))
  else
  osz ← CHUNK_SIZE p;
  let next := p + osz in
  room ← (if negb top then
            nsz ← CHUNK_SIZE next;
            used ← inuse_bit_at_offset next nsz;
            mret (if negb used && (tSize <=? tOldSize + nsz) then Some nsz else None)
          else mret None);
  match room with
  | Some nsz =>
    h ← gets (ptr_to_handle next);
    unlink_bin (Bin (bin_index nsz)) h;;
    realloc_finish fuel hHandle (tOldSize + nsz) tSize iPreInUse tPreSize
  | None =>
    prev ← prev_inuse p;
    room ← (if negb prev then
              pre ← tPreSize_of p;
              mret (if tSize <=? u32 (tOldSize + pre) then Some pre else None)
            else mret None);
    match room with
    | Some pre =>
      let tmp := p - pre in
      iPreInUse ← prev_inuse tmp;
      tPreSize ← tPreSize_of tmp;
      let hNewHandle := u64 (hHandle - pre) in
      unlink_bin (Bin (bin_index pre)) hNewHandle;;
      memmove (chunk2mem hNewHandle) (chunk2mem hHandle) (chunksize2memsize tOldSize);;
      realloc_finish fuel hNewHandle (tOldSize + pre) tSize iPreInUse tPreSize
    | None =>
      hNewHandle ← inter_malloc fuel tUserReqSize;
      if hNewHandle =? INVALID_HANDLE then mret INVALID_HANDLE else
      let tmp := mem2chunk hNewHandle in
      hNewHandle ← gets (ptr_to_handle tmp);
      memmove (chunk2mem tmp) (chunk2mem hHandle) (chunksize2memsize tOldSize);;
      inter_free (chunk2mem hHandle);;
      mret (chunk2mem hNewHandle)
    end
  end.

(** [inter_re_alloc]: the new handle and [tOldMemSize]. *)
Definition inter_re_alloc (fuel : nat) (hHandle tSize : Z) : M (Z * Z) :=
  let tUserReqSize := tSize in
  if hHandle =? INVALID_HANDLE then (h ← inter_malloc fuel tSize; mret (h, 0)) else
  if tSize =? 0 then '(_, old) ← inter_free hHandle; mret (INVALID_HANDLE, old) else
  if REQUEST_OUT_OF_RANGE tSize then mret (INVALID_HANDLE, 0) else
  let tSize := request2size tSize in
  hd ← gets head;
  if (hd.(m_hTop) <=? hHandle) || (hHandle <=? hd.(m_hBottom)) then mret (INVALID_HANDLE, 0) else
  let p := mem2chunk hHandle in
  tOldSize ← CHUNK_SIZE p;
  hHandle ← gets (ptr_to_handle p);
  if hd.(m_hTop) <? u64 (hHandle + tOldSize) then mret (INVALID_HANDLE, 0) else
  if misaligned_chunk hHandle then mret (INVALID_HANDLE, 0) else
  if tOldSize <? MINSIZE then mret (INVALID_HANDLE, 0) else
  bad ← check_inuse_chunk p;
  if negb (bad =? 0) then mret (INVALID_HANDLE, 0) else
  iPreInUse ← prev_inuse p;
  tPreSize ← tPreSize_of p;
  if tSize <=? tOldSize then
    h ← realloc_finish fuel hHandle tOldSize tSize iPreInUse tPreSize; mret (h, tOldSize)
  else
    h ← realloc_grow fuel p hHandle tOldSize tSize tUserReqSize iPreInUse tPreSize; mret (h, tOldSize).

Definition ReAlloc (fuel : nat) (hHandle tSize : Z) : M Z :=
  modify (set_last 0);;
  '(hNewHandle, tOldSize) ← inter_re_alloc fuel hHandle tSize;
  (if negb (hNewHandle =? INVALID_HANDLE) then
     sz ← CHUNK_SIZE (mem2chunk hNewHandle);
     modify (set_user (sz - tOldSize) (if hHandle =? INVALID_HANDLE then 1 else 0));;
     modify (add_alloc_size_to_stat tSize)
   else if tSize =? 0 then modify (set_user (- tOldSize) (-1))
   else mret tt);;
  mret hNewHandle.

(** ** The rest of the interface *)

(** What freeing a chunk would give: 0 for an error. *)
Definition ask_for_destroy_size (hHandle : Z) : M Z :=
  hd ← gets head;
  if (hHandle =? INVALID_HANDLE) || (hd.(m_tSize) <=? hHandle) then mret 0 else
  let p := mem2chunk hHandle in
  physic_size ← CHUNK_SIZE p;
  physic_handle ← gets (ptr_to_handle p);
  if hd.(m_tSize) <? u64 (physic_handle + physic_size) then mret 0 else
  used ← inuse_bit_at_offset p physic_size;
  if negb used then mret 0 else
  if misaligned_chunk physic_handle then mret 0 else
  bad ← check_inuse_chunk p;
  if negb (bad =? 0) then mret 0 else
  prev ← prev_inuse p;
  '(physic_handle, physic_size) ← (if prev : bool then mret (physic_handle, physic_size) else
     pre ← tPreSize_of p;
     mret (if CAN_COMBILE physic_size pre then (u64 (physic_handle - pre), u32 (physic_size + pre))
           else (physic_handle, physic_size)));
  r ← (if u64 (physic_handle + physic_size) =? hd.(m_hTop) then mret (Some physic_size) else
     let next := u64 (physic_handle + physic_size) in
     nsz ← CHUNK_SIZE next;
     if nsz <? MINSIZE then mret None else
     used ← inuse_bit_at_offset next nsz;
     mret (Some (if negb used && CAN_COMBILE physic_size nsz then u32 (physic_size + nsz) else physic_size)));
  match r with
  | None => mret 0
  | Some physic_size =>
    let size := if u64 (physic_handle + physic_size) =? hd.(m_hTop) then
        let physic_free := u32 (hd.(m_tSize) - hd.(m_hTop) - MINSIZE + physic_size) in
        if physic_size <? physic_free then physic_free else physic_size
      else physic_size in
    mret (chunksize2memsize size)
  end.

(** One chunk of a fast bin goes to the unsorted bin or to the top. *)
Definition free_fast_chunk (i : Z) : M unit :=
  b ← get_bin (FastBin i);
  let p := b.(m_hNextChunk) in
  unlink_bin (FastBin i) p;;
  tSize ← CHUNK_SIZE p;
  prev ← prev_inuse p;
  pre ← tPreSize_of p;
  '(p, tSize) ← (if negb prev && CAN_COMBILE tSize pre then
      let tSize := u32 (tSize + pre) in
      let p := p - pre in
      h ← gets (ptr_to_handle p);
      unlink_bin (Bin (bin_index pre)) h;;
      clear_if_empty (bin_index pre);;
      set_inuse_bit_at_offset p tSize;;
      mret (p, tSize)
    else mret (p, tSize));
  top ← gets (AT_TOP p tSize);
  tSize ← (if negb top then
      let next := p + tSize in
      tNextSize ← CHUNK_SIZE next;
      used ← inuse_bit_at_offset next tNextSize;
      if negb used && CAN_COMBILE tSize tNextSize then
        let tSize := u32 (tSize + tNextSize) in
        h ← gets (ptr_to_handle next);
        unlink_bin (Bin (bin_index tNextSize)) h;;
        clear_if_empty (bin_index tNextSize);;
        set_inuse_bit_at_offset p tSize;;
        mret tSize
      else mret tSize
    else mret tSize);
  note_free_size (REAL_SIZE tSize);;
  bits ← tSize_of p;
  put_tSize p (Z.lor (REAL_SIZE tSize) (Z.land bits SIZE_BITS));;
  top ← gets (AT_TOP p tSize);
  (if (top : bool) then modify (fun s => set_top (u64 (s.(head).(m_hTop) - tSize)) s)
   else h ← gets (ptr_to_handle p); link_bin UnsortedBin h;; mret tt);;
  put_tPreSize (p + REAL_SIZE tSize) (REAL_SIZE tSize).

Fixpoint free_fast_bin (fuel : nat) (i : Z) : M unit :=
  match fuel with
  | O => fault
  | S fuel =>
    b ← get_bin (FastBin i);
    if b.(m_hNextChunk) =? INVALID_HANDLE then mret tt else free_fast_chunk i;; free_fast_bin fuel i
  end.
Fixpoint free_fast_bins (n fuel : nat) (i : Z) : M unit :=
  match n with
  | O => mret tt
  | S n => free_fast_bin fuel i;; free_fast_bins n fuel (i + 1)
  end.
Definition free_fast (fuel : nat) : M Z :=
  flags ← gets (fun s => s.(head).(m_uiFlags));
  if Z.land flags MALLOC_FLAG_FAST =? 0 then mret 0 else
  free_fast_bins (Z.to_nat NFASTBINS) fuel 0;;
  modify (fun s => set_flags (Z.ldiff s.(head).(m_uiFlags) MALLOC_FLAG_FAST) s);;
  mret 0.

Definition last_free_size (fuel : nat) : M Z :=
  free_fast fuel;;
  last ← gets (fun s => s.(head).(m_tLastFreeChunkSize));
  mret (chunksize2memsize (u32 last)).

(** ** Setting up *)

Definition V4Sign : list Z :=
  [DTC_SIGN_0; DTC_SIGN_1; 1; 0xFFFFFFFF; 0xFFFFFFFF; 0xFFFFFFFF; 4; 0; 16; 0xFFFFFFFF; 0; 0; 0xFFFFFFFF; 0xFFFFFFFF].

Definition align (v : Z) : Z := Z.ldiff (v + MALLOC_ALIGN_MASK) MALLOC_ALIGN_MASK.

Definition bins_size : Z := sizeof_CBin * (NBINS + NFASTBINS + 1).
Definition no_bin : CBin := mkCBin INVALID_HANDLE INVALID_HANDLE.

(** [Init(pAddr, tSize)] on an object whose statistics are [t], over a segment that
    holds [m]: [None] when the segment is too small. *)
Definition Init (tSize : Z) (t : MallocStat) (m : memory) : outcome (option DTCBinMalloc) :=
  if tSize <? sizeof_MemHead + bins_size + DTC_RESERVE_SIZE + MINSIZE then Ok None else
  let reserve := align (sizeof_MemHead + bins_size) in
  let bottom := align (reserve + DTC_RESERVE_SIZE) in
  let last := if bottom + MINSIZE <? tSize then tSize - bottom - MINSIZE else 0 in
  let h := mkHead V4Sign DTC_VER_MIN tSize bottom 0 0 bottom reserve bottom last (replicate 4 0) 0 in
  let s := mkMalloc h (replicate (Z.to_nat NBINS) no_bin) (replicate (Z.to_nat NFASTBINS) no_bin) no_bin
    (mkStat 0 bottom bottom t.(statTmpDataSizeRecently) t.(statTmpDataAllocCountRecently) t.(statAverageDataSizeRecently)
      t.(minChunkSize)) m in
  let! r := (put_tPreSize bottom 0;; put_tSize bottom PREV_INUSE) s in
  Ok (Some r.2).

Definition detect_version (s : DTCBinMalloc) : Z :=
  let h := s.(head) in
  if negb (nth 0 h.(m_auiSign) 0 =? DTC_SIGN_0) || negb (nth 1 h.(m_auiSign) 0 =? DTC_SIGN_1) then 1
  else if h.(m_ushVer) =? 2 then 2
  else if h.(m_ushVer) =? 3 then 3
  else if h.(m_ushVer) =? 4 then 4
  else 0.

(** [Attach(pAddr, tSize)]: the segment holds the header, bins and memory of [s]; the
    checks and, when they pass, the statistics taken over. *)
Definition Attach (tSize : Z) (t : MallocStat) (s : DTCBinMalloc) : Z * DTCBinMalloc :=
  let h := s.(head) in
  if tSize <? sizeof_MemHead + bins_size + MINSIZE then (-1, s)
  else if negb (detect_version s =? DTC_VER_MIN) then (-2, s)
  else if negb (h.(m_tSize) =? tSize) then (-3, s)
  else if h.(m_tSize) <=? h.(m_hTop) then (-4, s)
  else (0, set_stat (mkStat (s64 h.(m_tUserAllocChunkCnt)) (s64 h.(m_tUserAllocSize)) t.(statMemoryTop)
    t.(statTmpDataSizeRecently) t.(statTmpDataAllocCountRecently) t.(statAverageDataSizeRecently) t.(minChunkSize)) s).
