(* ===== verification/PtHeap.v ===== *)
(** The heap invariant of the shared-memory allocator of [PtMalloc].

    The area between [m_hBottom] and [m_hTop] is a sequence of chunks, in use or free,
    no two free ones side by side and the last one in use; each free chunk is in the
    doubly linked list of the bin of its size and in no other. *)
From Stdlib Require Import ZArith Lia.
From stdpp Require Import base list numbers gmap.
From S2P Require Import Prelude Mem PtMalloc.
Local Open Scope Z_scope.

(** ** Headers *)
Module Header.

(** The second word of a chunk: its size and the in-use bit of the chunk before. *)
Definition hdr (s : Z) (pu : bool) : Z := s + Z.b2z pu.

Lemma low3 s n : s mod 8 = 0 -> 0 <= n < 8 -> Z.land (s + n) 7 = n.
Proof. intros Hs Hn. change 7 with (Z.ones 3). rewrite Z.land_ones by lia. change (2 ^ 3) with 8. zdm. Qed.

Lemma ldiff7 v : Z.ldiff v 7 = v - v mod 8.
Proof.
  change 7 with (Z.ones 3). rewrite Z.ldiff_ones_r, Z.shiftl_mul_pow2, Z.shiftr_div_pow2 by lia.
  change (2 ^ 3) with 8. zdm.
Qed.

Lemma lor_aligned s n : s mod 8 = 0 -> 0 <= n < 8 -> Z.lor s n = s + n.
Proof.
  intros Hs Hn. rewrite Z.lor_comm. replace s with (s / 8 * 2 ^ 3) by (change (2 ^ 3) with 8; zdm).
  rewrite lor_above by (change (2 ^ 3) with 8; lia). lia.
Qed.

Lemma REAL_SIZE_hdr s pu : s mod 8 = 0 -> REAL_SIZE (hdr s pu) = s.
Proof. intros Hs. unfold REAL_SIZE, SIZE_BITS. rewrite ldiff7. unfold hdr. destruct pu; cbn [Z.b2z]; zdm. Qed.

Lemma REAL_SIZE_aligned s : s mod 8 = 0 -> REAL_SIZE s = s.
Proof. intros Hs. pose proof (REAL_SIZE_hdr s false Hs) as E. unfold hdr in E. cbn [Z.b2z] in E. by rewrite Z.add_0_r in E. Qed.

Lemma hdr_bit s pu : s mod 8 = 0 -> negb (Z.land (hdr s pu) PREV_INUSE =? 0) = pu.
Proof.
  intros Hs. unfold PREV_INUSE. change 1 with (Z.ones 1) at 1. rewrite Z.land_ones by lia. change (2 ^ 1) with 2.
  unfold hdr. destruct pu; cbn [Z.b2z]; destruct (Z.eqb_spec ((s + 1) mod 2) 0), (Z.eqb_spec ((s + 0) mod 2) 0); cbn [negb]; try done; zdm.
Qed.

Lemma hdr_bits s pu : s mod 8 = 0 -> Z.land (hdr s pu) SIZE_BITS = Z.b2z pu.
Proof. intros Hs. unfold hdr, SIZE_BITS. apply low3; [done|]. destruct pu; cbn [Z.b2z]; lia. Qed.

Lemma hdr_resize t s pu : s mod 8 = 0 -> t mod 8 = 0 -> Z.lor (REAL_SIZE t) (Z.land (hdr s pu) SIZE_BITS) = hdr t pu.
Proof.
  intros Hs Ht. rewrite hdr_bits, REAL_SIZE_aligned by done. apply lor_aligned; [done|]. destruct pu; cbn [Z.b2z]; lia.
Qed.

Lemma hdr_set s pu : s mod 8 = 0 -> Z.lor (hdr s pu) PREV_INUSE = hdr s true.
Proof.
  intros Hs. unfold hdr, PREV_INUSE. destruct pu; cbn [Z.b2z].
  - rewrite <-(lor_aligned s 1) by (done || lia). by rewrite <-Z.lor_assoc.
  - rewrite Z.add_0_r. apply lor_aligned; [done|lia].
Qed.

Lemma hdr_clear s pu : s mod 8 = 0 -> Z.ldiff (hdr s pu) PREV_INUSE = hdr s false.
Proof.
  intros Hs. unfold hdr, PREV_INUSE. change 1 with (Z.ones 1).
  rewrite Z.ldiff_ones_r, Z.shiftl_mul_pow2, Z.shiftr_div_pow2 by lia. change (2 ^ 1) with 2.
  destruct pu; cbn [Z.b2z]; zdm.
Qed.

(** The bins of chunk sizes: in range, and larger chunks are in later bins. *)
Lemma bin_index_shift s k : 0 <= k -> Z.shiftr s k = s / 2 ^ k.
Proof. intros. by apply Z.shiftr_div_pow2. Qed.

Ltac bin_idx :=
  unfold bin_index, in_smallbin_range, smallbin_index, largebin_index, MIN_LARGE_SIZE;
  rewrite ?bin_index_shift by lia;
  change (2 ^ 3) with 8; change (2 ^ 6) with 64; change (2 ^ 9) with 512; change (2 ^ 12) with 4096;
  change (2 ^ 15) with 32768; change (2 ^ 18) with 262144.

Lemma bin_index_range s : 0 <= s -> 0 <= bin_index s <= 126.
Proof. intros Hs. bin_idx. bcases; zdm. Qed.

Lemma bin_index_mono s t : 0 <= s <= t -> bin_index s <= bin_index t.
Proof. intros Hs. bin_idx. bcases; zdm. Qed.

Lemma smallbin_size s t :
  s mod 8 = 0 -> t mod 8 = 0 -> 0 <= s -> in_smallbin_range t = true -> 0 <= t -> bin_index s = smallbin_index t -> s = t.
Proof.
  intros Hs Ht H0 Hsm Ht0. unfold in_smallbin_range, MIN_LARGE_SIZE in Hsm. apply Z.ltb_lt in Hsm. bin_idx.
  bcases; intros; zdm.
Qed.

End Header.

(** ** Chunk sequences *)
Module Layout.
Import MemFacts Header.

(** A chunk: its size, whether it is in use, and whether its header is to be believed;
    a chunk in use that is being resized has an old header for a while. *)
Record chunk := mkChunk { csz : Z; cused : bool; cseen : bool }.
Abbreviation mkC z u := (mkChunk z u true).
Abbreviation all_seen := (Forall (fun c => cseen c = true)).

Definition total (cs : list chunk) : Z := list_sum_Z (csz <$> cs).
Definition sizes_ok : list chunk -> Prop := Forall (fun c => 24 <= csz c /\ csz c mod 8 = 0).

(** The chunks with their addresses. *)
Fixpoint places (a : Z) (cs : list chunk) : list (Z * chunk) :=
  match cs with
  | [] => []
  | c :: cs => (a, c) :: places (a + csz c) cs
  end.

(** The blocks in use and the free ones, as (address, size). *)
Definition block (p : Z * chunk) : Z * Z := (p.1, csz p.2).
Definition useds (a : Z) (cs : list chunk) : list (Z * Z) := block <$> filter (fun p => cused p.2 = true) (places a cs).
Definition frees (a : Z) (cs : list chunk) : list (Z * Z) := block <$> filter (fun p => cused p.2 = false) (places a cs).

(** A chunk at [a], the one before it being in use or not. *)
Definition chunk_ok (m : memory) (a : Z) (pu : bool) (c : chunk) : Prop :=
  24 <= csz c /\ csz c mod 8 = 0 /\ (cseen c = true -> ld 4 m (a + 4) = hdr (csz c) pu) /\
  (cused c = false -> cseen c = true /\ pu = true /\ ld 4 m (a + csz c) = csz c).

Fixpoint seg (m : memory) (a : Z) (pu : bool) (cs : list chunk) (b : Z) (pv : bool) : Prop :=
  match cs with
  | [] => a = b /\ pu = pv
  | c :: cs => chunk_ok m a pu c /\ seg m (a + csz c) (cused c) cs b pv
  end.

(** Up to the top, whose header has size 0; no header is old. *)
Definition tail (m : memory) (a : Z) (pu : bool) (cs : list chunk) (top : Z) : Prop :=
  seg m a pu cs top true /\ ld 4 m (top + 4) = hdr 0 true /\ all_seen cs.

Lemma total_app l r : total (l ++ r) = total l + total r.
Proof. unfold total. induction l as [|c l IH]; [done|]. cbn. lia. Qed.

Lemma total_cons c r : total (c :: r) = csz c + total r.
Proof. done. Qed.

Lemma places_app a l r : places a (l ++ r) = places a l ++ places (a + total l) r.
Proof.
  revert a; induction l as [|c l IH]; intros a; [by rewrite Z.add_0_r|].
  cbn [app places]. rewrite IH, total_cons. do 3 f_equal. lia.
Qed.

Lemma useds_app a l r : useds a (l ++ r) = useds a l ++ useds (a + total l) r.
Proof. unfold useds. by rewrite places_app, filter_app, fmap_app. Qed.
Lemma frees_app a l r : frees a (l ++ r) = frees a l ++ frees (a + total l) r.
Proof. unfold frees. by rewrite places_app, filter_app, fmap_app. Qed.

Lemma useds_cons a c r : useds a (c :: r) = (if cused c then [(a, csz c)] else []) ++ useds (a + csz c) r.
Proof. unfold useds. cbn [places]. rewrite filter_cons. cbn. destruct (cused c); by case_decide. Qed.
Lemma frees_cons a c r : frees a (c :: r) = (if cused c then [] else [(a, csz c)]) ++ frees (a + csz c) r.
Proof. unfold frees. cbn [places]. rewrite filter_cons. cbn. destruct (cused c); by case_decide. Qed.

Lemma useds_place a cs p : p ∈ useds a cs -> exists c, (p.1, c) ∈ places a cs /\ csz c = p.2 /\ cused c = true.
Proof.
  unfold useds. intros ([x c] & -> & H)%list_elem_of_fmap. apply list_elem_of_filter in H as [Hu H]. by exists c.
Qed.
Lemma frees_place a cs p : p ∈ frees a cs -> exists c, (p.1, c) ∈ places a cs /\ csz c = p.2 /\ cused c = false.
Proof.
  unfold frees. intros ([x c] & -> & H)%list_elem_of_fmap. apply list_elem_of_filter in H as [Hu H]. by exists c.
Qed.

Lemma seg_sizes m a pu cs b pv : seg m a pu cs b pv -> sizes_ok cs.
Proof.
  revert a pu; induction cs as [|c cs IH]; intros a pu; [constructor|]. cbn.
  intros [(? & ? & _) ?]. constructor; [done|]. by eapply IH.
Qed.

Lemma seg_end m a pu cs b pv : seg m a pu cs b pv -> b = a + total cs.
Proof.
  revert a pu; induction cs as [|c cs IH]; intros a pu; cbn [seg].
  - intros [-> _]. unfold total. cbn. lia.
  - intros [_ H%IH]. rewrite total_cons. lia.
Qed.

Lemma seg_app m a pu l r b pv :
  seg m a pu (l ++ r) b pv <-> exists pw, seg m a pu l (a + total l) pw /\ seg m (a + total l) pw r b pv.
Proof.
  revert a pu; induction l as [|c l IH]; intros a pu; cbn [app seg].
  - unfold total; cbn. rewrite Z.add_0_r. split; [intros H; by exists pu|by intros (pw & [_ ->] & H)].
  - rewrite IH, total_cons, Z.add_assoc. naive_solver.
Qed.

Lemma total_nonneg cs : sizes_ok cs -> 0 <= total cs.
Proof. induction 1 as [|c cs [? _] _ IH]; [done|]. rewrite total_cons. lia. Qed.
Lemma total_mod cs : sizes_ok cs -> total cs mod 8 = 0.
Proof. induction 1 as [|c cs [_ ?] _ IH]; [done|]. rewrite total_cons. zdm. Qed.

Lemma places_bounds a cs p c : sizes_ok cs -> (p, c) ∈ places a cs -> a <= p /\ 24 <= csz c /\ p + csz c <= a + total cs.
Proof.
  intros H. revert a; induction H as [|d cs [Hd _] Hcs IH]; intros a; cbn [places]; [by intros ?%not_elem_of_nil|].
  rewrite total_cons. pose proof (total_nonneg cs Hcs).
  intros [[= -> ->]|Hp]%elem_of_cons; [lia|]. apply IH in Hp. lia.
Qed.

Lemma places_disjoint a cs p c q d :
  sizes_ok cs -> (p, c) ∈ places a cs -> (q, d) ∈ places a cs ->
  (p = q /\ c = d) \/ p + csz c <= q \/ q + csz d <= p.
Proof.
  intros H. revert a; induction H as [|e cs [He _] Hcs IH]; intros a; cbn [places]; [by intros ?%not_elem_of_nil|].
  intros [[= -> ->]|Hp]%elem_of_cons [[= -> ->]|Hq]%elem_of_cons; [by left| | |by eapply IH].
  - apply places_bounds in Hq; [|done]. right. left. lia.
  - apply places_bounds in Hp; [|done]. right. right. lia.
Qed.

(** Writing to the links of free chunks, or outside, leaves a segment alone. *)
Lemma seg_frame m m' a pu cs b pv :
  seg m a pu cs b pv ->
  (forall x, a + 4 <= x < b + 4 -> (forall p, p ∈ frees a cs -> ~ (p.1 + 8 <= x < p.1 + 24)) -> byte m' x = byte m x) ->
  seg m' a pu cs b pv.
Proof.
  revert a pu; induction cs as [|c cs IH]; intros a pu; cbn [seg]; [done|].
  intros [(Hs & Hm & Hh & Hf) Hseg] Hsame.
  pose proof (seg_sizes _ _ _ _ _ _ Hseg) as Hsz. pose proof (seg_end _ _ _ _ _ _ Hseg). pose proof (total_nonneg cs Hsz).
  assert (Hrest : forall p, p ∈ frees (a + csz c) cs -> a + csz c <= p.1).
  { intros p (d & Hd & _)%frees_place. apply places_bounds in Hd; [lia|done]. }
  split.
  - split; [done|]. split; [done|]. split.
    + intros Hcs. rewrite <-(Hh Hcs). apply ld_ext. intros x Hx. apply Hsame; [lia|]. intros p. rewrite frees_cons.
      intros [Hp|Hp%Hrest]%elem_of_app; [|lia]. destruct (cused c); [by apply not_elem_of_nil in Hp|].
      apply list_elem_of_singleton in Hp as ->. simpl. lia.
    + intros Hu. destruct (Hf Hu) as (Hcs & Hp & Hft). split; [done|]. split; [done|]. etrans; [|exact Hft]. apply ld_ext. intros x Hx. apply Hsame; [lia|].
      intros p. rewrite frees_cons, Hu. intros [Hq|Hq%Hrest]%elem_of_app; [|lia].
      apply list_elem_of_singleton in Hq as ->. simpl. lia.
  - apply IH; [done|]. intros x Hx Hfr. apply Hsame; [lia|]. intros p. rewrite frees_cons.
    intros [Hq|Hq]%elem_of_app; [|by apply Hfr]. destruct (cused c); [by apply not_elem_of_nil in Hq|].
    apply list_elem_of_singleton in Hq as ->. simpl. lia.
Qed.

Lemma seg_same m m' a pu cs b pv : seg m a pu cs b pv -> same_on (a + 4) (b + 4) m' m -> seg m' a pu cs b pv.
Proof. intros H Hs. eapply seg_frame; [done|]. intros x Hx _. by apply Hs. Qed.

(** The in-use bit at the end of a segment is the state of its last chunk; a free one
    repeats its size there. *)
Lemma seg_snoc m a pu l c b pv :
  seg m a pu (l ++ [c]) b pv <->
  exists pw, seg m a pu l (a + total l) pw /\ chunk_ok m (a + total l) pw c /\ b = a + total l + csz c /\ pv = cused c.
Proof. rewrite seg_app. cbn [seg]. naive_solver. Qed.

Lemma useds_snoc a l c : useds a (l ++ [c]) = useds a l ++ (if cused c then [(a + total l, csz c)] else []).
Proof. rewrite useds_app, useds_cons. by rewrite app_nil_r. Qed.
Lemma frees_snoc a l c : frees a (l ++ [c]) = frees a l ++ (if cused c then [] else [(a + total l, csz c)]).
Proof. rewrite frees_app, frees_cons. by rewrite app_nil_r. Qed.

Lemma useds_bounds a cs p : sizes_ok cs -> p ∈ useds a cs -> a <= p.1 /\ 24 <= p.2 /\ p.1 + p.2 <= a + total cs.
Proof. intros Hs (c & Hc & <- & _)%useds_place. by apply places_bounds in Hc. Qed.
Lemma frees_bounds a cs p : sizes_ok cs -> p ∈ frees a cs -> a <= p.1 /\ 24 <= p.2 /\ p.1 + p.2 <= a + total cs.
Proof. intros Hs (c & Hc & <- & _)%frees_place. by apply places_bounds in Hc. Qed.

Lemma used_free_apart a cs p q :
  sizes_ok cs -> p ∈ useds a cs -> q ∈ frees a cs -> p.1 + p.2 <= q.1 \/ q.1 + q.2 <= p.1.
Proof.
  intros Hs (c & Hc & <- & Hu)%useds_place (d & Hd & <- & Hf)%frees_place.
  destruct (places_disjoint a cs _ _ _ _ Hs Hc Hd) as [[_ ->]|H]; [congruence|done].
Qed.

End Layout.

(** ** Bin lists *)
Module BinList.
Import MemFacts Header Layout.

(** Pairwise at least a minimal chunk apart. *)
Fixpoint apart (hs : list Z) : Prop :=
  match hs with
  | [] => True
  | h :: hs => Forall (fun q => q + 24 <= h \/ h + 24 <= q) hs /\ apart hs
  end.

Lemma apart_perm hs hs' : hs ≡ₚ hs' -> apart hs -> apart hs'.
Proof.
  induction 1 as [|x l l' P IH|x y l|l1 l2 l3 _ IH1 _ IH2]; cbn [apart]; [done| | |tauto].
  - intros [H ?]. split; [by rewrite <-P|tauto].
  - intros [[Hyx Hy]%Forall_cons_1 [Hx Ha]]. split; [|done]. constructor; [lia|done].
Qed.
#[export] Instance apart_proper : Proper ((≡ₚ) ==> iff) apart.
Proof. intros l l' H. split; apply apart_perm; [done|by symmetry]. Qed.

Lemma apart_sub hs hs' : sublist hs hs' -> apart hs' -> apart hs.
Proof.
  induction 1 as [|x l l' Hs IH|x l l' Hs IH]; cbn [apart]; [done| |tauto].
  intros [H ?]. split; [|tauto]. eapply Forall_forall. intros y Hy. rewrite Forall_forall in H. apply H.
  eapply elem_of_submseteq; [exact Hy|by apply sublist_submseteq].
Qed.

Lemma apart_elem h hs q : apart (h :: hs) -> q ∈ hs -> q + 24 <= h \/ h + 24 <= q.
Proof. intros [H _] Hq. by rewrite Forall_forall in H; apply H. Qed.

(** Free chunks, and any part of them, are apart. *)
Lemma frees_apart a cs : sizes_ok cs -> apart ((frees a cs).*1).
Proof.
  intros H. revert a; induction H as [|c cs [Hc _] Hcs IH]; intros a; [done|]. rewrite frees_cons.
  destruct (cused c); [by apply IH|]. cbn. split; [|by apply IH]. apply Forall_forall. intros q Hq.
  apply list_elem_of_fmap in Hq as (p & -> & Hp). apply frees_bounds in Hp; [lia|done].
Qed.

(** The list [hs] between the links [p] and [n]. *)
Fixpoint chain (m : memory) (p : Z) (hs : list Z) (n : Z) : Prop :=
  match hs with
  | [] => True
  | h :: hs => ld 8 m (h + 8) = p /\ ld 8 m (h + 16) = hd n hs /\ chain m h hs n
  end.
Fixpoint lastd (p : Z) (hs : list Z) : Z := match hs with [] => p | h :: hs => lastd h hs end.

Lemma lastd_snoc p hs h : lastd p (hs ++ [h]) = h.
Proof. revert p; induction hs as [|x hs IH]; intros p; [done|]. apply IH. Qed.
Lemma lastd_app p hs hs' : lastd p (hs ++ hs') = lastd (lastd p hs) hs'.
Proof. revert p; induction hs as [|x hs IH]; intros p; [done|]. apply IH. Qed.
Lemma hd_app (n : Z) (hs hs' : list Z) : hd n (hs ++ hs') = hd (hd n hs') hs.
Proof. by destruct hs. Qed.

Lemma chain_app m p l r n : chain m p (l ++ r) n <-> chain m p l (hd n r) /\ chain m (lastd p l) r n.
Proof.
  revert p; induction l as [|h l IH]; intros p; cbn [app chain lastd]; [tauto|]. rewrite IH, hd_app. tauto.
Qed.

Lemma chain_frame m m' p hs n :
  chain m p hs n -> (forall h, h ∈ hs -> same_on (h + 8) (h + 24) m' m) -> chain m' p hs n.
Proof.
  revert p; induction hs as [|h hs IH]; intros p; [done|]. cbn [chain]. intros (Hp & Hn & Hc) Hs.
  pose proof (Hs h ltac:(by left)) as Hh. split; [|split].
  - rewrite <-Hp. apply ld_ext. eapply same_on_sub; [done|lia|lia].
  - rewrite <-Hn. apply ld_ext. eapply same_on_sub; [done|lia|lia].
  - apply IH; [done|]. intros q Hq. apply Hs. by right.
Qed.

(** One link changed at either end. *)
Lemma lastd_elem p hs : hs <> [] -> lastd p hs ∈ hs.
Proof.
  revert p; induction hs as [|h hs IH]; intros p Hne; [done|]. cbn [lastd]. destruct hs as [|q hs]; [by left|].
  right. by apply IH.
Qed.

Lemma chain_set_last m p hs n v :
  0 <= v < 2 ^ 64 -> hs <> [] -> apart hs -> chain m p hs n -> chain (sto 8 m (lastd p hs + 16) v) p hs v.
Proof.
  intros Hv. revert p; induction hs as [|h hs IH]; intros p Hne Ha; [done|]. cbn [chain lastd].
  intros (Hp & Hn & Hc). destruct hs as [|q hs].
  - cbn [lastd hd]. split; [|split; [|done]].
    + rewrite ld_sto_other by lia. done.
    + rewrite ld_sto_fit; [done|]. by change (256 ^ Z.of_nat 8) with (2 ^ 64).
  - pose proof (apart_elem h (q :: hs) _ Ha (lastd_elem h (q :: hs) ltac:(done))) as Hfar. destruct Ha as [_ Ha].
    split; [|split; [|by apply IH]].
    + rewrite ld_sto_other by lia. done.
    + rewrite ld_sto_other by lia. done.
Qed.

Lemma chain_set_first m p q hs n v :
  0 <= v < 2 ^ 64 -> apart (q :: hs) -> chain m p (q :: hs) n -> chain (sto 8 m (q + 8) v) v (q :: hs) n.
Proof.
  intros Hv Ha (Hp & Hn & Hc). split; [|split].
  - rewrite ld_sto_fit; [done|]. by change (256 ^ Z.of_nat 8) with (2 ^ 64).
  - rewrite ld_sto_other by lia. done.
  - eapply chain_frame; [done|]. intros h Hh x Hx. apply byte_sto_out.
    pose proof (apart_elem q hs h Ha Hh). lia.
Qed.

(** The bin of the chunks [hs]. *)
Definition bin_list (m : memory) (b : CBin) (hs : list Z) : Prop :=
  b.(m_hNextChunk) = hd 0 hs /\ b.(m_hPreChunk) = lastd 0 hs /\ chain m 0 hs 0.

(** The free chunks of one bin, in any order. *)
Definition in_bin (i : Z) (frs : list (Z * Z)) : list Z := (filter (fun p => bin_index p.2 = i) frs).*1.
Definition bins_ok (m : memory) (bins : list CBin) (frs : list (Z * Z)) : Prop :=
  length bins = Z.to_nat NBINS /\
  forall i b, bins !! i = Some b -> exists hs, bin_list m b hs /\ hs ≡ₚ in_bin (Z.of_nat i) frs.

(** Bits of the bitmap are set for the bins in use. *)
Definition bitmap_ok (bins : list CBin) (bm : list Z) : Prop :=
  length bm = 4%nat /\
  forall i b, bins !! i = Some b -> b.(m_hNextChunk) <> 0 ->
    Z.testbit (nth (i / 32) bm 0) (Z.of_nat (i mod 32)) = true.

Lemma in_bin_perm i frs frs' : frs ≡ₚ frs' -> in_bin i frs ≡ₚ in_bin i frs'.
Proof. intros H. unfold in_bin. by rewrite H. Qed.
Lemma bins_ok_perm m bins frs frs' : frs ≡ₚ frs' -> bins_ok m bins frs -> bins_ok m bins frs'.
Proof.
  intros P [Hl H]. split; [done|]. intros i b Hb. destruct (H i b Hb) as (hs & ? & E). exists hs. split; [done|].
  by rewrite <-(in_bin_perm _ _ _ P).
Qed.

Lemma in_bin_elem i frs h : h ∈ in_bin i frs <-> exists s, (h, s) ∈ frs /\ bin_index s = i.
Proof.
  unfold in_bin. rewrite list_elem_of_fmap. split.
  - intros ([x s] & -> & [? ?]%list_elem_of_filter). by exists s.
  - intros (s & H & E). exists (h, s). split; [done|]. by apply list_elem_of_filter.
Qed.

Lemma in_bin_cons i h s frs : in_bin i ((h, s) :: frs) = (if decide (bin_index s = i) then [h] else []) ++ in_bin i frs.
Proof. unfold in_bin. rewrite filter_cons. cbn. by case_decide. Qed.

Lemma in_bin_apart i frs : apart (frs.*1) -> apart (in_bin i frs).
Proof. intros H. eapply apart_sub; [|exact H]. unfold in_bin. apply fmap_sublist, sublist_filter. Qed.

Lemma bins_ok_frame m m' bins frs :
  bins_ok m bins frs -> (forall p, p ∈ frs -> same_on (p.1 + 8) (p.1 + 24) m' m) -> bins_ok m' bins frs.
Proof.
  intros [Hl H] Hs. split; [done|]. intros i b Hb. destruct (H i b Hb) as (hs & (? & ? & Hc) & E).
  exists hs. split; [|done]. split; [done|]. split; [done|]. eapply chain_frame; [done|].
  intros h Hh. rewrite E in Hh. apply in_bin_elem in Hh as (s & Hh & _). by apply (Hs (h, s)).
Qed.

(** Writes that touch nothing but the links of [frs]. *)
Definition links_only (frs : list (Z * Z)) (m m' : memory) : Prop :=
  forall x, (forall p, p ∈ frs -> ~ (p.1 + 8 <= x < p.1 + 24)) -> byte m' x = byte m x.

End BinList.

(** ** Taking a chunk out of a list and putting one in *)
Module BinUpdate.
Import MemFacts Header Layout BinList.

Definition handle_ok (h : Z) : Prop := 0 < h < 2 ^ 64.

Lemma lastd_ok l : Forall handle_ok l -> 0 <= lastd 0 l < 2 ^ 64 /\ (l <> [] -> lastd 0 l <> 0).
Proof.
  intros H. destruct l as [|x l]; [done|]. pose proof (lastd_elem 0 (x :: l) ltac:(done)) as Hin.
  rewrite Forall_forall in H. apply H in Hin. unfold handle_ok in Hin. split; [lia|]. intros _. lia.
Qed.

Lemma hd_ok l : Forall handle_ok l -> 0 <= hd 0 l < 2 ^ 64 /\ (l <> [] -> hd 0 l <> 0).
Proof. intros [|x l' Hx _]; [done|]. unfold handle_ok in Hx. cbn. split; [lia|]. intros _. lia. Qed.

(** What [unlink_bin] writes. *)
Definition unlinked (m : memory) (l r : list Z) : memory :=
  let m1 := if l is [] then m else sto 8 m (lastd 0 l + 16) (hd 0 r) in
  if r is [] then m1 else sto 8 m1 (hd 0 r + 8) (lastd 0 l).

Lemma unlinked_out m l r x :
  (forall h, h ∈ l ++ r -> ~ (h + 8 <= x < h + 24)) -> byte (unlinked m l r) x = byte m x.
Proof.
  intros H. unfold unlinked.
  assert (Hl : byte (if l is [] then m else sto 8 m (lastd 0 l + 16) (hd 0 r)) x = byte m x).
  { destruct l as [|y l]; [done|]. apply byte_sto_out.
    specialize (H (lastd 0 (y :: l)) ltac:(apply elem_of_app; left; by apply lastd_elem)). lia. }
  destruct r as [|q r]; [done|]. rewrite byte_sto_out; [done|]. cbn [hd].
  specialize (H q ltac:(apply elem_of_app; right; by left)). lia.
Qed.

Lemma chain_unlink m l h r :
  apart (l ++ h :: r) -> Forall handle_ok (l ++ r) -> chain m 0 (l ++ h :: r) 0 -> chain (unlinked m l r) 0 (l ++ r) 0.
Proof.
  intros Ha Hok Hc. apply chain_app in Hc as [Hl (Hhp & Hhn & Hr)]. cbn [hd] in Hl. cbn [lastd] in *.
  apply Forall_app in Hok as [Hokl Hokr]. destruct (hd_ok r Hokr) as [Hr0 _], (lastd_ok l Hokl) as [Hl0 _].
  assert (Ha' : apart (l ++ r)) by (eapply apart_sub; [|exact Ha]; apply sublist_app; [done|by apply sublist_cons]).
  assert (Hal : apart l) by (eapply apart_sub; [|exact Ha']; by apply sublist_inserts_r).
  assert (Har : apart r) by (eapply apart_sub; [|exact Ha']; by apply sublist_inserts_l).
  assert (Hcross : forall x y, x ∈ l -> y ∈ r -> y + 24 <= x \/ x + 24 <= y).
  { intros x y (l1 & l2 & ->)%list_elem_of_split Hy. eapply (apart_elem x (l1 ++ l2 ++ r)).
    - eapply apart_perm; [|exact Ha']. rewrite <-app_assoc, <-app_comm_cons. by rewrite <-Permutation_middle.
    - rewrite !elem_of_app. auto. }
  assert (H1 : chain (if l is [] then m else sto 8 m (lastd 0 l + 16) (hd 0 r)) 0 l (hd 0 r)).
  { destruct l as [|y l]; [done|]. by eapply chain_set_last. }
  assert (H2 : chain (if l is [] then m else sto 8 m (lastd 0 l + 16) (hd 0 r)) h r 0).
  { destruct l as [|y l]; [done|]. eapply chain_frame; [exact Hr|]. intros q Hq x Hx. apply byte_sto_out.
    pose proof (Hcross _ q (lastd_elem 0 (y :: l) ltac:(done)) Hq). lia. }
  apply chain_app. unfold unlinked. revert H1 H2. generalize (if l is [] then m else sto 8 m (lastd 0 l + 16) (hd 0 r)) as m1.
  intros m1 H1 H2. destruct r as [|q r]; [done|]. split.
  - eapply chain_frame; [exact H1|]. intros x Hx y Hy. apply byte_sto_out. cbn [hd].
    pose proof (Hcross x q Hx ltac:(by left)). lia.
  - by eapply chain_set_first.
Qed.

(** What [link_bin] writes when the bin holds [hs]. *)
Definition linked (m : memory) (h : Z) (hs : list Z) : memory :=
  let m2 := sto 8 (sto 8 m (h + 16) (hd 0 hs)) (h + 8) 0 in
  if hs is q :: _ then sto 8 m2 (q + 8) h else m2.

Lemma linked_out m h hs x :
  (forall q, q ∈ h :: hs -> ~ (q + 8 <= x < q + 24)) -> byte (linked m h hs) x = byte m x.
Proof.
  intros H. pose proof (H h ltac:(by left)) as Hh. unfold linked.
  assert (E : byte (sto 8 (sto 8 m (h + 16) (hd 0 hs)) (h + 8) 0) x = byte m x) by (rewrite !byte_sto_out by lia; done).
  destruct hs as [|q hs]; [done|]. specialize (H q ltac:(right; by left)). by rewrite byte_sto_out by lia.
Qed.

Lemma chain_link m h hs :
  apart (h :: hs) -> Forall handle_ok (h :: hs) -> chain m 0 hs 0 -> chain (linked m h hs) 0 (h :: hs) 0.
Proof.
  intros Ha [Hh Hok]%Forall_cons_1 Hc. destruct (hd_ok hs Hok) as [H0 _].
  set (m2 := sto 8 (sto 8 m (h + 16) (hd 0 hs)) (h + 8) 0).
  assert (Hp : ld 8 m2 (h + 8) = 0) by (unfold m2; rewrite ld_sto_fit; done).
  assert (Hn : ld 8 m2 (h + 16) = hd 0 hs).
  { unfold m2. rewrite ld_sto_other by lia. rewrite ld_sto_fit; [done|]. by change (256 ^ Z.of_nat 8) with (2 ^ 64). }
  assert (Hhs : chain m2 0 hs 0).
  { eapply chain_frame; [exact Hc|]. intros q Hq x Hx. unfold m2.
    pose proof (apart_elem h hs q Ha Hq). by rewrite !byte_sto_out by lia. }
  unfold linked. fold m2. clearbody m2. destruct hs as [|q hs]; [done|].
  pose proof (apart_elem h (q :: hs) q Ha ltac:(by left)) as Hq.
  split; [by rewrite ld_sto_other by lia|]. split; [by rewrite ld_sto_other by lia|].
  unfold handle_ok in Hh. eapply chain_set_first; [lia|by destruct Ha|exact Hhs].
Qed.

End BinUpdate.
