(* ===== verification/PtOps.v ===== *)
(** The single steps of the allocator of [PtMalloc] on a heap that satisfies the
    invariant of [PtHeap]: field accesses, bins, bitmap. *)
From Stdlib Require Import ZArith Lia.
From stdpp Require Import base list numbers gmap.
From S2P Require Import Prelude Mem PtMalloc PtHeap.
Import MemFacts Header Layout BinList BinUpdate.
Local Open Scope Z_scope.

Abbreviation hTop s := (m_hTop (head s)).
Abbreviation bottom s := (m_hBottom (head s)).
Abbreviation total_size s := (m_tSize (head s)).
Abbreviation bitmap s := (m_auiBinBitMap (head s)).

(** What allocation and freeing leave alone, but for the accounting: all of the state
    except the chunks, the bins, the bitmap, the top and the largest size freed. *)
Definition rest (s : DTCBinMalloc) : DTCBinMalloc :=
  set_mem ∅ (set_bitmap [] (set_last 0 (set_top 0
    (mkMalloc s.(head) [] s.(m_ptFastBin) s.(m_ptUnsortedBin) s.(stat) ∅)))).
Definition like (s s' : DTCBinMalloc) : Prop := rest s' = rest s.

(** The same with the top and the bitmap. *)
Definition same_head (s s' : DTCBinMalloc) : Prop :=
  like s s' /\ hTop s' = hTop s /\ bitmap s' = bitmap s.

#[export] Instance like_equiv : Equivalence like.
Proof. split; [done|intros ?? E; by symmetry|intros ??? E1 E2; unfold like in *; congruence]. Qed.
#[export] Instance same_head_preorder : PreOrder same_head.
Proof. split; [done|]. intros s1 s2 s3 (? & ? & ?) (? & ? & ?). split; [by etrans|]. split; congruence. Qed.

Lemma like_bottom s s' : like s s' -> bottom s' = bottom s.
Proof. intros H. exact (f_equal (fun t => bottom t) H). Qed.
Lemma like_size s s' : like s s' -> total_size s' = total_size s.
Proof. intros H. exact (f_equal (fun t => total_size t) H). Qed.
Lemma like_min s s' : like s s' -> get_min_chunk_size s' = get_min_chunk_size s.
Proof.
  intros H. pose proof (f_equal (fun t => minChunkSize (stat t)) H) as E1.
  pose proof (f_equal (fun t => statChunkTotal (stat t)) H) as E2. pose proof (f_equal (fun t => statDataSize (stat t)) H) as E3.
  cbn in E1, E2, E3. unfold get_min_chunk_size. by rewrite E1, E2, E3.
Qed.

(** *** Accesses *)

Definition area (s : DTCBinMalloc) (a n : Z) : Prop := bottom s <= a /\ a + n <= total_size s.

Lemma in_area_ok s a n : area s a n -> in_area s a n = true.
Proof. intros [? ?]. unfold in_area. rewrite andb_true_iff, !Z.leb_le. done. Qed.

Lemma load_ok n a s : area s a (Z.of_nat n) -> load n a s = Ok (ld n s.(mem) a, s).
Proof. intros H. unfold load. by rewrite in_area_ok. Qed.
Lemma store_ok n a v s : area s a (Z.of_nat n) -> store n a v s = Ok (tt, set_mem (sto n s.(mem) a v) s).
Proof. intros H. unfold store. by rewrite in_area_ok. Qed.

(** A header word at [p]. *)
Definition header (s : DTCBinMalloc) (p z : Z) (pu : bool) : Prop :=
  area s (p + 4) 4 /\ z mod 8 = 0 /\ ld 4 s.(mem) (p + 4) = hdr z pu.

Section Steps.
Context (s : DTCBinMalloc) (p z : Z) (pu : bool).
Hypothesis H : header s p z pu.

Lemma tSize_of_ok : tSize_of p s = Ok (hdr z pu, s).
Proof. destruct H as (? & _ & <-). unfold tSize_of. by rewrite load_ok. Qed.

Lemma CHUNK_SIZE_ok : CHUNK_SIZE p s = Ok (z, s).
Proof. unfold CHUNK_SIZE. rewrite (bind_ok _ _ _ _ _ tSize_of_ok), ret_ok. rewrite REAL_SIZE_hdr; [done|apply H]. Qed.

Lemma prev_inuse_ok : prev_inuse p s = Ok (pu, s).
Proof. unfold prev_inuse. rewrite (bind_ok _ _ _ _ _ tSize_of_ok), ret_ok. rewrite hdr_bit; [done|apply H]. Qed.

Lemma put_tSize_ok v : put_tSize p v s = Ok (tt, set_mem (sto 4 s.(mem) (p + 4) v) s).
Proof. unfold put_tSize. apply store_ok. apply H. Qed.

Lemma set_inuse_ok q o : q + o = p -> set_inuse_bit_at_offset q o s = Ok (tt, set_mem (sto 4 s.(mem) (p + 4) (hdr z true)) s).
Proof.
  intros E. unfold set_inuse_bit_at_offset. rewrite E. rewrite (bind_ok _ _ _ _ _ tSize_of_ok), hdr_set by apply H.
  apply put_tSize_ok.
Qed.
Lemma clear_inuse_ok q o : q + o = p -> clear_inuse_bit_at_offset q o s = Ok (tt, set_mem (sto 4 s.(mem) (p + 4) (hdr z false)) s).
Proof.
  intros E. unfold clear_inuse_bit_at_offset. rewrite E. rewrite (bind_ok _ _ _ _ _ tSize_of_ok), hdr_clear by apply H.
  apply put_tSize_ok.
Qed.
Lemma set_size_ok t : t mod 8 = 0 -> set_size_at_offset p 0 t s = Ok (tt, set_mem (sto 4 s.(mem) (p + 4) (hdr t pu)) s).
Proof.
  intros Ht. unfold set_size_at_offset. rewrite Z.add_0_r. rewrite (bind_ok _ _ _ _ _ tSize_of_ok), hdr_resize by (apply H || done).
  apply put_tSize_ok.
Qed.
End Steps.

Lemma set_presize_ok s p o t : area s (p + o) 4 -> t mod 8 = 0 ->
  set_presize_at_offset p o t s = Ok (tt, set_mem (sto 4 s.(mem) (p + o) t) s).
Proof. intros. unfold set_presize_at_offset. rewrite REAL_SIZE_aligned by done. by apply store_ok. Qed.

Lemma hdr_fits t pu : 0 <= t <= MAX_ALLOC_SIZE -> 0 <= hdr t pu < 256 ^ Z.of_nat 4.
Proof.
  unfold MAX_ALLOC_SIZE, hdr. change (256 ^ Z.of_nat 4) with 4294967296. destruct pu; cbn [Z.b2z]; lia.
Qed.

Lemma ptr_to_handle_ok s p : 0 <= p < total_size s -> ptr_to_handle p s = p.
Proof.
  intros. unfold ptr_to_handle. rewrite (proj2 (Z.ltb_ge _ _)), (proj2 (Z.leb_gt _ _)) by lia. done.
Qed.

(** *** Bins *)

Definition free_area (s : DTCBinMalloc) (p : Z * Z) : Prop := handle_ok p.1 /\ area s p.1 24 /\ 24 <= p.2.

Lemma nth_bin_ok bs i b : 0 <= i -> bs !! Z.to_nat i = Some b -> nth_bin bs i = Ok b.
Proof. intros Hi E. unfold nth_bin. by rewrite (proj2 (Z.ltb_ge _ _)), E by lia. Qed.

Lemma get_bin_ok s i b : 0 <= i -> s.(m_ptBin) !! Z.to_nat i = Some b -> get_bin (Bin i) s = Ok (b, s).
Proof. intros Hi E. unfold get_bin. by erewrite nth_bin_ok. Qed.

Definition set_bins (bs : list CBin) (s : DTCBinMalloc) : DTCBinMalloc :=
  mkMalloc s.(head) bs s.(m_ptFastBin) s.(m_ptUnsortedBin) s.(stat) s.(mem).

Lemma put_bin_ok s i b : put_bin (Bin i) b s = Ok (tt, set_bins (<[Z.to_nat i := b]> s.(m_ptBin)) s).
Proof. done. Qed.

(** Each bin exists. *)
Lemma bins_ok_lookup m bins frs i : bins_ok m bins frs -> 0 <= i < NBINS -> exists b, bins !! Z.to_nat i = Some b.
Proof. intros [Hl _] Hi. apply lookup_lt_is_Some. rewrite Hl. lia. Qed.

(** The bins after one of them and its part of the free chunks have changed. *)
Lemma bins_ok_update m m' bins frs frs' i b hs :
  bins_ok m bins frs -> 0 <= i < NBINS ->
  (forall j, j <> i -> in_bin j frs' = in_bin j frs) ->
  (forall j q, j <> i -> q ∈ in_bin j frs -> same_on (q + 8) (q + 24) m' m) ->
  bin_list m' b hs -> hs ≡ₚ in_bin i frs' -> bins_ok m' (<[Z.to_nat i := b]> bins) frs'.
Proof.
  intros [Hl H] Hi Hin Hs Hb Hhs. split; [by rewrite length_insert|]. intros j c Hc.
  destruct (decide (j = Z.to_nat i)) as [->|Hne].
  - rewrite list_lookup_insert_eq in Hc by (rewrite Hl; lia). injection Hc as <-. exists hs. by rewrite Z2Nat.id by lia.
  - rewrite list_lookup_insert_ne in Hc by done. destruct (H j c Hc) as (hs' & (? & ? & Hch) & E).
    assert (Hj : Z.of_nat j <> i) by lia.
    exists hs'. rewrite Hin by done. split; [|done]. split; [done|]. split; [done|]. eapply chain_frame; [done|].
    intros q Hq. rewrite E in Hq. by eapply (Hs (Z.of_nat j)).
Qed.

Lemma bitmap_ok_update bins bm i b :
  bitmap_ok bins bm -> (b.(m_hNextChunk) <> 0 -> exists b0, bins !! i = Some b0 /\ b0.(m_hNextChunk) <> 0) -> bitmap_ok (<[i := b]> bins) bm.
Proof.
  intros [Hl H] Hb. split; [done|]. intros j c Hc Hne. destruct (decide (j = i)) as [->|].
  - assert (i < length bins)%nat by (apply lookup_lt_Some in Hc; by rewrite length_insert in Hc).
    rewrite list_lookup_insert_eq in Hc by done. injection Hc as <-. destruct (Hb Hne) as (b0 & ? & ?). by eapply H.
  - rewrite list_lookup_insert_ne in Hc by done. by eapply H.
Qed.

Definition link_ok (s : DTCBinMalloc) (q : Z) : Prop := handle_ok q /\ area s q 24.

Lemma link_ok_nonzero s q : link_ok s q -> (q =? INVALID_HANDLE) = false.
Proof. intros [? _]. apply Z.eqb_neq. unfold handle_ok, INVALID_HANDLE in *. lia. Qed.

Lemma hPre_ok s q : link_ok s q -> hPre_of q s = Ok (ld 8 s.(mem) (q + 8), s).
Proof. intros [_ [? ?]]. unfold hPre_of. apply load_ok. split; lia. Qed.
Lemma hNext_ok s q : link_ok s q -> hNext_of q s = Ok (ld 8 s.(mem) (q + 16), s).
Proof. intros [_ [? ?]]. unfold hNext_of. apply load_ok. split; lia. Qed.
Lemma put_hPre_ok s q v : link_ok s q -> put_hPre q v s = Ok (tt, set_mem (sto 8 s.(mem) (q + 8) v) s).
Proof. intros [_ [? ?]]. unfold put_hPre. apply store_ok. split; lia. Qed.
Lemma put_hNext_ok s q v : link_ok s q -> put_hNext q v s = Ok (tt, set_mem (sto 8 s.(mem) (q + 16) v) s).
Proof. intros [_ [? ?]]. unfold put_hNext. apply store_ok. split; lia. Qed.

Section Unlink.
Context (s : DTCBinMalloc) (i : Z) (b : CBin) (l r : list Z) (h : Z).
Hypothesis Hi : 0 <= i.
Hypothesis Hb : s.(m_ptBin) !! Z.to_nat i = Some b.
Hypothesis Hlist : bin_list s.(mem) b (l ++ h :: r).
Hypothesis Hap : apart (l ++ h :: r).
Hypothesis Hok : Forall (link_ok s) (l ++ h :: r).

Lemma unlink_handles : Forall handle_ok (l ++ r) /\ link_ok s h /\ Forall (link_ok s) l /\ Forall (link_ok s) r.
Proof.
  apply Forall_app in Hok as [Hl [Hh Hr]%Forall_cons_1]. split; [|done].
  apply Forall_app; split; eapply Forall_impl; [exact Hl| |exact Hr|]; by intros x [? _].
Qed.

Lemma unlink_links : ld 8 s.(mem) (h + 8) = lastd 0 l /\ ld 8 s.(mem) (h + 16) = hd 0 r /\
  (b.(m_hNextChunk) =? INVALID_HANDLE) || (b.(m_hPreChunk) =? INVALID_HANDLE) = false.
Proof.
  destruct Hlist as (Hn & Hp & Hc). apply chain_app in Hc as [_ (? & ? & _)]. split; [done|]. split; [done|].
  assert (Hall : Forall handle_ok (l ++ h :: r)) by (eapply Forall_impl; [exact Hok|]; by intros x [? _]).
  apply orb_false_iff. rewrite !Z.eqb_neq, Hn, Hp. unfold INVALID_HANDLE.
  split; [apply (hd_ok _ Hall)|apply (lastd_ok _ Hall)]; by destruct l.
Qed.

(** After the first step: the link into [h] is redirected. *)
Definition unlink_mid : DTCBinMalloc :=
  if l is [] then set_bins (<[Z.to_nat i := mkCBin b.(m_hPreChunk) (hd 0 r)]> s.(m_ptBin)) s
  else set_mem (sto 8 s.(mem) (lastd 0 l + 16) (hd 0 r)) s.

Lemma unlink_apart q : q ∈ l ++ r -> q + 24 <= h \/ h + 24 <= q.
Proof.
  intros Hq. eapply (apart_elem h (l ++ r)); [|exact Hq]. eapply apart_perm; [|exact Hap]. by rewrite <-Permutation_middle.
Qed.

Lemma unlink_mid_links : ld 8 unlink_mid.(mem) (h + 8) = lastd 0 l /\ ld 8 unlink_mid.(mem) (h + 16) = hd 0 r.
Proof.
  destruct unlink_links as (E1 & E2 & _).
  assert (Hfar : l <> [] -> lastd 0 l + 24 <= h \/ h + 24 <= lastd 0 l)
    by (intros Hne; apply unlink_apart, elem_of_app; left; by apply lastd_elem).
  unfold unlink_mid. destruct l as [|y l']; [done|]. specialize (Hfar ltac:(done)).
  cbn [mem set_mem]. rewrite !ld_sto_other by lia. done.
Qed.

Lemma unlink_step1 {A} (k : M A) :
  (pre ← hPre_of h;
   (if pre =? INVALID_HANDLE then
      next ← hNext_of h; stBin ← get_bin (Bin i); put_bin (Bin i) (mkCBin stBin.(m_hPreChunk) next)
    else next ← hNext_of h; put_hNext pre next);; k) s = k unlink_mid.
Proof.
  destruct unlink_links as (Ep & En & _), unlink_handles as (Hall & Hh & Hl & Hr).
  rewrite (bind_ok _ _ _ _ _ (hPre_ok s h Hh)), Ep.
  rewrite (bind_ok _ _ s tt unlink_mid); [done|]. unfold unlink_mid. destruct l as [|y l'].
  - cbn [lastd Z.eqb INVALID_HANDLE]. rewrite (bind_ok _ _ _ _ _ (hNext_ok s h Hh)), En. by erewrite bind_ok by (by apply get_bin_ok).
  - assert (Hlast : link_ok s (lastd 0 (y :: l'))) by (rewrite Forall_forall in Hl; by apply Hl, lastd_elem).
    rewrite (link_ok_nonzero s) by done. rewrite (bind_ok _ _ _ _ _ (hNext_ok s h Hh)), En. by apply put_hNext_ok.
Qed.

End Unlink.

Lemma unlink_bin_raw s i b l r h :
  0 <= i -> s.(m_ptBin) !! Z.to_nat i = Some b -> bin_list s.(mem) b (l ++ h :: r) -> apart (l ++ h :: r) ->
  Forall (link_ok s) (l ++ h :: r) ->
  unlink_bin (Bin i) h s = Ok (0, set_bins (<[Z.to_nat i := mkCBin (lastd 0 (l ++ r)) (hd 0 (l ++ r))]> s.(m_ptBin))
                                     (set_mem (unlinked s.(mem) l r) s)).
Proof.
  intros Hi Hb Hlist Hap Hok.
  edestruct (unlink_links s b l r h) as (_ & _ & Enz); [done..|].
  edestruct (unlink_handles s l r h) as (_ & Hh & Hl & Hr); [done..|].
  edestruct (unlink_mid_links s i b l r h) as (Ep & En); [done..|]. pose proof Hlist as (Hnext & Hpre & _).
  unfold unlink_bin. rewrite (link_ok_nonzero s) by done. erewrite bind_ok by (by apply get_bin_ok). rewrite Enz.
  rewrite (unlink_step1 s i b l r h) by done.
  assert (Hmid : forall q, link_ok s q -> link_ok (unlink_mid s i b l r) q) by (intros q; unfold unlink_mid; by destruct l).
  assert (Hbi : (Z.to_nat i < length s.(m_ptBin))%nat) by (by apply lookup_lt_Some in Hb).
  rewrite (bind_ok _ _ _ _ _ (hNext_ok _ h (Hmid h Hh))), En.
  erewrite (bind_ok _ _ _ tt); [reflexivity|]. destruct r as [|q r'].
  - cbn [hd Z.eqb INVALID_HANDLE]. rewrite (bind_ok _ _ _ _ _ (hPre_ok _ h (Hmid h Hh))), Ep, app_nil_r.
    unfold unlinked, unlink_mid. destruct l as [|y l'].
    + erewrite bind_ok by (apply get_bin_ok; [exact Hi|cbn; by apply list_lookup_insert_eq]).
      rewrite put_bin_ok. unfold set_bins, set_mem; cbn. by rewrite list_insert_insert_eq.
    + erewrite bind_ok by (by apply get_bin_ok). rewrite put_bin_ok. unfold set_bins, set_mem; cbn.
      by rewrite Hnext.
  - apply Forall_cons_1 in Hr as [Hq _]. cbn [hd]. rewrite (link_ok_nonzero s) by done.
    rewrite (bind_ok _ _ _ _ _ (hPre_ok _ h (Hmid h Hh))), Ep, (put_hPre_ok _ q _ (Hmid q Hq)).
    rewrite lastd_app. unfold unlinked, unlink_mid. destruct l as [|y l']; unfold set_bins, set_mem; cbn.
    + by rewrite Hpre.
    + rewrite list_insert_id; [done|]. rewrite Hb. f_equal. destruct b as [bp bn]. cbn in *. subst. by rewrite lastd_app.
Qed.

Lemma link_bin_raw s i b hs h :
  0 <= i -> s.(m_ptBin) !! Z.to_nat i = Some b -> bin_list s.(mem) b hs -> Forall (link_ok s) (h :: hs) ->
  link_bin (Bin i) h s = Ok (0, set_bins (<[Z.to_nat i := mkCBin (lastd 0 (h :: hs)) h]> s.(m_ptBin)) (set_mem (linked s.(mem) h hs) s)).
Proof.
  intros Hi Hb (Hnext & Hpre & _) [Hh Hok]%Forall_cons_1. unfold link_bin. rewrite (link_ok_nonzero s) by done.
  erewrite bind_ok by (by apply get_bin_ok). rewrite Hnext, Hpre, (bind_ok _ _ _ _ _ (put_hNext_ok s h _ Hh)).
  erewrite bind_ok by (apply put_hPre_ok; exact Hh). unfold linked.
  destruct hs as [|q hs].
  - cbn [hd lastd negb Z.eqb INVALID_HANDLE]. erewrite bind_ok by apply put_bin_ok. reflexivity.
  - apply Forall_cons_1 in Hok as [Hq Hok]. cbn [hd]. rewrite (link_ok_nonzero s q Hq). cbn [negb].
    erewrite bind_ok by (apply put_hPre_ok; exact Hq).
    assert ((lastd 0 (q :: hs) =? INVALID_HANDLE) = false) as ->.
    { apply (link_ok_nonzero s). assert (Hall : Forall (link_ok s) (q :: hs)) by by constructor.
      rewrite Forall_forall in Hall. by apply Hall, lastd_elem. }
    erewrite bind_ok by apply put_bin_ok. reflexivity.
Qed.

Lemma free_area_link s frs i : Forall (free_area s) frs -> Forall (link_ok s) (in_bin i frs).
Proof.
  intros H. apply Forall_forall. intros q (z & Hq & _)%in_bin_elem. rewrite Forall_forall in H.
  destruct (H _ Hq) as (? & ? & _). done.
Qed.

Lemma apart_cross i j frs q q' :
  apart (frs.*1) -> i <> j -> q ∈ in_bin i frs -> q' ∈ in_bin j frs -> q + 24 <= q' \/ q' + 24 <= q.
Proof.
  intros Ha Hne Hq Hq'. apply in_bin_elem in Hq as (z & Hq & Ez), Hq' as (z' & Hq' & Ez').
  apply list_elem_of_split in Hq as (l & r & ->).
  assert (Ha' : apart (q :: (l ++ r).*1)) by (eapply apart_perm; [|exact Ha]; rewrite !fmap_app; cbn; by rewrite <-Permutation_middle).
  assert (Hin : q' ∈ (l ++ r).*1).
  { apply list_elem_of_fmap. exists (q', z'). split; [done|]. apply elem_of_app in Hq' as [?|[?|?]%elem_of_cons]; [set_solver|congruence|set_solver]. }
  pose proof (apart_elem _ _ _ Ha' Hin). lia.
Qed.

(** [unlink_bin] removes a free chunk from the bins. *)
Lemma unlink_bin_ok s h z frs frs' :
  frs ≡ₚ (h, z) :: frs' -> bins_ok s.(mem) s.(m_ptBin) frs -> apart (frs.*1) -> Forall (free_area s) frs -> 0 <= z ->
  exists s', unlink_bin (Bin (bin_index z)) h s = Ok (0, s') /\ same_head s s' /\ bins_ok s'.(mem) s'.(m_ptBin) frs' /\
    links_only frs' s.(mem) s'.(mem) /\ (forall bm, bitmap_ok s.(m_ptBin) bm -> bitmap_ok s'.(m_ptBin) bm).
Proof.
  intros P Hbins Hap Har Hz. rewrite P in Har. apply (bins_ok_perm _ _ _ _ P) in Hbins.
  assert (Hap' : apart (((h, z) :: frs').*1)) by (eapply apart_perm; [|exact Hap]; by rewrite P). clear P Hap frs.
  set (i := bin_index z). pose proof (bin_index_range z Hz) as Hi. fold i in Hi.
  destruct (bins_ok_lookup _ _ _ i Hbins ltac:(unfold NBINS; lia)) as (b & Hb).
  pose proof Hbins as [_ H]. destruct (H _ _ Hb) as (hs & Hlist & E). rewrite Z2Nat.id in E by lia.
  assert (Hmem : h ∈ hs) by (rewrite E, in_bin_elem; exists z; split; [by left|done]).
  apply list_elem_of_split in Hmem as (l & r & ->).
  assert (E' : l ++ r ≡ₚ in_bin i frs').
  { symmetry. apply (Permutation_cons_app_inv _ _ (a := h)). rewrite E, in_bin_cons. by rewrite decide_True by done. }
  assert (Hapb : apart (l ++ h :: r)) by (rewrite E; by apply in_bin_apart).
  assert (Hokb : Forall (link_ok s) (l ++ h :: r)) by (rewrite E; by apply free_area_link).
  edestruct (unlink_handles s l r h) as (Hall & _ & _ & _); [done..|].
  assert (Hlinks : links_only frs' s.(mem) (unlinked s.(mem) l r)).
  { intros x Hx. apply unlinked_out. intros q Hq. rewrite E' in Hq. apply in_bin_elem in Hq as (zq & Hq & _). by apply (Hx (q, zq)). }
  eexists. split; [apply (unlink_bin_raw s i b l r h); [lia|done..]|]. split; [done|]. split; [|split; [exact Hlinks|]]; cbn.
  - eapply bins_ok_update; [done|unfold NBINS; lia| | | |].
    + intros j Hj. rewrite in_bin_cons. by rewrite decide_False by done.
    + intros j q Hj Hq x Hx. apply unlinked_out. intros q' Hq'.
      rewrite E' in Hq'. assert (Hq'2 : q' ∈ in_bin i ((h, z) :: frs')) by (rewrite in_bin_cons; set_solver +Hq').
      pose proof (apart_cross j i _ q q' Hap' Hj Hq Hq'2). lia.
    + split; [done|]. split; [done|]. destruct Hlist as (_ & _ & Hc). by eapply chain_unlink.
    + done.
  - intros bm Hbm. eapply bitmap_ok_update; [done|]. intros _. exists b. split; [done|].
    destruct Hlist as (-> & _ & _). assert (Hall' : Forall handle_ok (l ++ h :: r)) by (eapply Forall_impl; [exact Hokb|]; by intros x [? _]).
    apply (hd_ok _ Hall'). by destruct l.
Qed.

(** [link_bin] adds one; its own bin is then in use. *)
Lemma link_bin_ok s h z frs :
  bins_ok s.(mem) s.(m_ptBin) frs -> apart (((h, z) :: frs).*1) -> Forall (free_area s) ((h, z) :: frs) ->
  exists s', link_bin (Bin (bin_index z)) h s = Ok (0, s') /\ same_head s s' /\ bins_ok s'.(mem) s'.(m_ptBin) ((h, z) :: frs) /\
    links_only ((h, z) :: frs) s.(mem) s'.(mem) /\
    (forall j b, j <> Z.to_nat (bin_index z) -> s'.(m_ptBin) !! j = Some b -> s.(m_ptBin) !! j = Some b).
Proof.
  intros Hbins Hap Har. pose proof (Forall_inv Har) as (Hh & Hha & Hz). cbn in Hh, Hha, Hz.
  set (i := bin_index z). pose proof (bin_index_range z ltac:(lia)) as Hi. fold i in Hi.
  destruct (bins_ok_lookup _ _ _ i Hbins ltac:(unfold NBINS; lia)) as (b & Hb).
  pose proof Hbins as [_ H]. destruct (H _ _ Hb) as (hs & Hlist & E). rewrite Z2Nat.id in E by lia.
  assert (E' : h :: hs ≡ₚ in_bin i ((h, z) :: frs)) by (rewrite in_bin_cons, decide_True by done; cbn; by rewrite E).
  assert (Hapb : apart (h :: hs)) by (rewrite E'; by apply in_bin_apart).
  assert (Hokb : Forall (link_ok s) (h :: hs)) by (rewrite E'; by apply free_area_link).
  assert (Hall : Forall handle_ok (h :: hs)) by (eapply Forall_impl; [exact Hokb|]; by intros x [? _]).
  assert (Hlinks : forall x, (forall q, q ∈ in_bin i ((h, z) :: frs) -> ~ (q + 8 <= x < q + 24)) ->
    byte (linked s.(mem) h hs) x = byte s.(mem) x).
  { intros x Hx. apply linked_out. intros q Hq. rewrite E' in Hq. by apply Hx. }
  eexists. split; [apply (link_bin_raw s i b hs h); [lia|done..]|]. split; [done|]. split; [|split]; cbn.
  - eapply (bins_ok_update _ _ _ _ _ _ _ (h :: hs)); [done|unfold NBINS; lia| | | |].
    + intros j Hj. rewrite in_bin_cons. by rewrite decide_False by done.
    + intros j q Hj Hq x Hx. apply Hlinks. intros q' Hq'.
      assert (Hq2 : q ∈ in_bin j ((h, z) :: frs)) by (rewrite in_bin_cons; set_solver +Hq).
      pose proof (apart_cross j i _ q q' Hap Hj Hq2 Hq'). lia.
    + split; [done|]. split; [done|]. destruct Hlist as (_ & _ & Hc). by eapply chain_link.
    + exact E'.
  - intros x Hx. apply Hlinks. intros q (zq & Hq & _)%in_bin_elem. by apply (Hx (q, zq)).
  - intros j c Hj Hc. by rewrite list_lookup_insert_ne in Hc.
Qed.

(** *** The bitmap *)

(** Everything but the bitmap is the same. *)
Definition same_but_bitmap (s s' : DTCBinMalloc) : Prop :=
  like s s' /\ hTop s' = hTop s /\ s'.(mem) = s.(mem) /\ s'.(m_ptBin) = s.(m_ptBin).

Lemma bitmap_word_nth s i : 0 <= i < NBINS -> bitmap_word s (i / 32) = nth (Z.to_nat i / 32) (bitmap s) 0.
Proof.
  unfold NBINS. intros Hi. unfold bitmap_word. rewrite (proj2 (Z.ltb_lt _ _)) by zdm. f_equal.
  rewrite <-(Z2Nat.id i) at 1 by lia. change 32 with (Z.of_nat 32) at 1. by rewrite <-Nat2Z.inj_div, Nat2Z.id.
Qed.

Lemma shiftl1_testbit k n : 0 <= k -> 0 <= n -> Z.testbit (Z.shiftl 1 k) n = (n =? k).
Proof.
  intros. rewrite Z.shiftl_mul_pow2, Z.mul_1_l by done. rewrite Z.pow2_bits_eqb by done. apply Z.eqb_sym.
Qed.

Lemma nth_insert (l : list Z) (k k' : nat) x : (k < length l)%nat -> nth k' (<[k := x]> l) 0 = if decide (k = k') then x else nth k' l 0.
Proof.
  intros. rewrite !nth_lookup. case_decide; [subst; by rewrite list_lookup_insert_eq|by rewrite list_lookup_insert_ne].
Qed.

Lemma bit_update_other (bm : list Z) (i j : nat) (v : Z) :
  length bm = 4%nat -> (i < 128)%nat -> (j < 128)%nat -> j <> i ->
  (forall n, 0 <= n < 32 -> n <> Z.of_nat (i mod 32) -> Z.testbit v n = Z.testbit (nth (i / 32) bm 0) n) ->
  Z.testbit (nth (j / 32) (<[(i / 32)%nat := v]> bm) 0) (Z.of_nat (j mod 32)) = Z.testbit (nth (j / 32) bm 0) (Z.of_nat (j mod 32)).
Proof.
  intros Hl Hi Hj Hne Hv. rewrite nth_insert by (rewrite Hl; apply Nat.Div0.div_lt_upper_bound; lia).
  case_decide as E; [|done]. pose proof (Nat.mod_upper_bound j 32 ltac:(lia)).
  assert ((j mod 32 <> i mod 32)%nat) by (pose proof (Nat.div_mod_eq i 32); pose proof (Nat.div_mod_eq j 32); lia).
  rewrite Hv by lia. by rewrite E.
Qed.

Lemma clear_bit_val w k n : 0 <= k < 32 -> 0 <= n < 32 -> n <> k -> Z.testbit (u32 (Z.ldiff w (Z.shiftl 1 k))) n = Z.testbit w n.
Proof.
  intros. unfold u32, wrap. rewrite Z.mod_pow2_bits_low, Z.ldiff_spec, shiftl1_testbit by lia.
  rewrite (proj2 (Z.eqb_neq _ _)) by lia. apply andb_true_r.
Qed.
Lemma set_bit_val w k n : 0 <= k < 32 -> 0 <= n < 32 -> Z.testbit (u32 (Z.lor w (Z.shiftl 1 k))) n = (n =? k) || Z.testbit w n.
Proof.
  intros. unfold u32, wrap. rewrite Z.mod_pow2_bits_low, Z.lor_spec, shiftl1_testbit by lia. apply orb_comm.
Qed.

Lemma nat_bit i : 0 <= i < NBINS -> Z.to_nat (i / 32) = (Z.to_nat i / 32)%nat /\ i mod 32 = Z.of_nat (Z.to_nat i mod 32) /\ (Z.to_nat i < 128)%nat.
Proof.
  unfold NBINS. intros Hi. split; [|split; [|lia]].
  - rewrite <-(Z2Nat.id i) at 1 by lia. change 32 with (Z.of_nat 32) at 1. by rewrite <-Nat2Z.inj_div, Nat2Z.id.
  - rewrite Nat2Z.inj_mod, Z2Nat.id by lia. done.
Qed.

Lemma clear_if_empty_ok s i :
  0 <= i < NBINS -> length s.(m_ptBin) = Z.to_nat NBINS -> bitmap_ok s.(m_ptBin) (bitmap s) ->
  exists s', clear_if_empty i s = Ok (tt, s') /\ same_but_bitmap s s' /\ bitmap_ok s'.(m_ptBin) (bitmap s').
Proof.
  intros Hi Hl [Hbl Hbm]. assert (Hlt : (Z.to_nat i < length (m_ptBin s))%nat) by (rewrite Hl; lia).
  apply lookup_lt_is_Some in Hlt as [b Hb]. unfold clear_if_empty, empty_bin.
  rewrite (bind_ok _ _ s (m_hNextChunk b =? INVALID_HANDLE) s) by (by erewrite bind_ok by (apply get_bin_ok; [lia|done])).
  unfold INVALID_HANDLE. destruct (Z.eqb_spec (m_hNextChunk b) 0) as [E|E]; [|by exists s].
  eexists. split; [reflexivity|]. split; [done|]. cbn. destruct (nat_bit i Hi) as (Ed & Em & Hi').
  rewrite Ed, Em, bitmap_word_nth by done. split; [by rewrite length_insert|]. intros j c Hc Hne.
  assert (Hj : j <> Z.to_nat i) by (intros ->; rewrite Hb in Hc; congruence).
  pose proof (lookup_lt_Some _ _ _ Hc) as Hjl. rewrite Hl in Hjl. unfold NBINS in Hjl.
  rewrite bit_update_other; [by eapply Hbm|done|done|lia|done|].
  intros n Hn Hnk. pose proof (Nat.mod_upper_bound (Z.to_nat i) 32 ltac:(lia)). apply clear_bit_val; lia.
Qed.

Lemma set_bin_bit_map_ok s i bins0 :
  0 <= i < NBINS -> length s.(m_ptBin) = Z.to_nat NBINS -> bitmap_ok bins0 (bitmap s) ->
  (forall j b, j <> Z.to_nat i -> s.(m_ptBin) !! j = Some b -> bins0 !! j = Some b) ->
  exists s', set_bin_bit_map i s = Ok (tt, s') /\ same_but_bitmap s s' /\ bitmap_ok s'.(m_ptBin) (bitmap s').
Proof.
  intros Hi Hl [Hbl Hbm] Hoth. eexists. split; [reflexivity|]. split; [done|]. cbn. destruct (nat_bit i Hi) as (Ed & Em & Hi').
  rewrite Ed, Em, bitmap_word_nth by done. split; [by rewrite length_insert|]. intros j c Hc Hne.
  pose proof (lookup_lt_Some _ _ _ Hc) as Hjl. rewrite Hl in Hjl. unfold NBINS in Hjl.
  pose proof (Nat.mod_upper_bound (Z.to_nat i) 32 ltac:(lia)).
  destruct (decide (j = Z.to_nat i)) as [->|Hj].
  - rewrite nth_insert, decide_True by (done || (rewrite Hbl; apply Nat.Div0.div_lt_upper_bound; lia)).
    rewrite set_bit_val by lia. by rewrite Z.eqb_refl.
  - rewrite bit_update_other; [eapply Hbm; [by apply Hoth|done]|done|done|lia|done|].
    intros n Hn Hnk. rewrite set_bit_val by lia. by rewrite (proj2 (Z.eqb_neq _ _)) by lia.
Qed.
