(* ===== verification/PtFree.v ===== *)
(** Freeing keeps the heap: [inter_free] and [Free] of [PtMalloc] on the invariant of
    [PtHeap].

    While a chunk is freed the heap has a hole, from [x] to [y], between the chunks
    [l] in front and [r] behind; merging a neighbour widens the hole, and at the end
    the hole becomes a free chunk or part of the space above the top. *)
From Stdlib Require Import ZArith Lia.
From stdpp Require Import base list numbers gmap.
From S2P Require Import Prelude Mem PtMalloc PtHeap PtOps.
Import MemFacts Header Layout BinList BinUpdate.
Local Open Scope Z_scope.

(** ** The invariant *)

Record heap_ok (s : DTCBinMalloc) (cs : list chunk) : Prop := {
  hk_bottom : 0 < bottom s /\ bottom s mod 8 = 0;
  hk_size : hTop s + 24 <= total_size s /\ total_size s <= MAX_ALLOC_SIZE;
  hk_tail : tail s.(mem) (bottom s) true cs (hTop s);
  hk_bins : bins_ok s.(mem) s.(m_ptBin) (frees (bottom s) cs);
  hk_map : bitmap_ok s.(m_ptBin) (bitmap s)
}.

Record hole (s : DTCBinMalloc) (l : list chunk) (x : Z) (pu : bool) (y : Z) (py : bool) (r : list chunk) : Prop := {
  ho_bottom : 0 < bottom s /\ bottom s mod 8 = 0;
  ho_size : hTop s + 24 <= total_size s /\ total_size s <= MAX_ALLOC_SIZE;
  ho_l : seg s.(mem) (bottom s) true l x pu;
  ho_xy : 24 <= y - x /\ (y - x) mod 8 = 0;
  ho_r : tail s.(mem) y py r (hTop s);
  ho_bins : bins_ok s.(mem) s.(m_ptBin) (frees (bottom s) l ++ frees y r);
  ho_map : bitmap_ok s.(m_ptBin) (bitmap s)
}.

(** The same when the headers of [l] may be old. *)
Record heap_at (s : DTCBinMalloc) (l t : list chunk) : Prop := {
  ha_bottom : 0 < bottom s /\ bottom s mod 8 = 0;
  ha_size : hTop s + 24 <= total_size s /\ total_size s <= MAX_ALLOC_SIZE;
  ha_l : exists pw, seg s.(mem) (bottom s) true l (bottom s + total l) pw /\ tail s.(mem) (bottom s + total l) pw t (hTop s);
  ha_bins : bins_ok s.(mem) s.(m_ptBin) (frees (bottom s) (l ++ t));
  ha_map : bitmap_ok s.(m_ptBin) (bitmap s)
}.

Lemma heap_at_ok s l t : heap_at s l t -> all_seen l -> heap_ok s (l ++ t).
Proof.
  intros [Hb Hs (pw & Hl & Ht & Htop & Hst) Hbins Hmap] Hseen. split; try done. split; [|split; [done|by apply Forall_app]].
  apply seg_app. by exists pw.
Qed.

(** A hole whose first word is the header of a chunk that fills it. *)
Definition gap s l x pu y py r : Prop := hole s l x pu y py r /\ ld 4 s.(mem) (x + 4) = hdr (y - x) pu.

(** The user memory of the blocks [U]: from behind the header to the header of the next
    chunk. *)
Definition keeps (U : list (Z * Z)) (m m' : memory) : Prop :=
  forall p, p ∈ U -> same_on (p.1 + 8) (p.1 + p.2 + 4) m' m.

Lemma keeps_refl U m : keeps U m m.
Proof. done. Qed.
Lemma keeps_trans U m1 m2 m3 : keeps U m1 m2 -> keeps U m2 m3 -> keeps U m1 m3.
Proof. intros H1 H2 p Hp. eapply same_on_trans; [by apply H2|by apply H1]. Qed.

(** ** Frames *)

Lemma tail_end m a pu cs top : tail m a pu cs top -> top = a + total cs /\ sizes_ok cs.
Proof. intros [H _]. split; [by eapply seg_end|by eapply seg_sizes]. Qed.

Lemma tail_same m m' a pu cs top : tail m a pu cs top -> same_on (a + 4) (top + 8) m' m -> tail m' a pu cs top.
Proof.
  intros Ht Hs. destruct (tail_end _ _ _ _ _ Ht) as [E Hsz]. pose proof (total_nonneg cs Hsz). destruct Ht as (Hseg & Htop & Hseen).
  split; [eapply seg_same; [exact Hseg|]; eapply same_on_sub; [exact Hs|lia|lia]|]. split; [|done]. rewrite <-Htop. apply ld_ext. eapply same_on_sub; [exact Hs|lia|lia].
Qed.

Section Frame.
Context (m m' : memory) (bot x y top : Z) (pu py : bool) (l r : list chunk).
Hypothesis Hl : seg m bot true l x pu.
Hypothesis Hr : tail m y py r top.
Hypothesis Hxy : x + 24 <= y.

Lemma frame_bounds : x = bot + total l /\ top = y + total r /\ sizes_ok l /\ sizes_ok r /\ 0 <= total l /\ 0 <= total r.
Proof.
  pose proof (seg_sizes _ _ _ _ _ _ Hl) as H1. destruct (tail_end _ _ _ _ _ Hr) as [E H2].
  pose proof (total_nonneg l H1). pose proof (total_nonneg r H2). pose proof (seg_end _ _ _ _ _ _ Hl). tauto.
Qed.

(** The blocks and the links lie on either side of the hole. *)
Lemma outside_free p : p ∈ frees bot l ++ frees y r -> 24 <= p.2 /\ (bot <= p.1 /\ p.1 + p.2 <= x \/ y <= p.1 /\ p.1 + p.2 <= top).
Proof.
  destruct frame_bounds as (Ex & Et & H1 & H2 & _ & _). intros [Hp|Hp]%elem_of_app; apply frees_bounds in Hp; try done; lia.
Qed.
Lemma outside_used p : p ∈ useds bot l ++ useds y r -> 24 <= p.2 /\ (bot <= p.1 /\ p.1 + p.2 <= x \/ y <= p.1 /\ p.1 + p.2 <= top).
Proof.
  destruct frame_bounds as (Ex & Et & H1 & H2 & _ & _). intros [Hp|Hp]%elem_of_app; apply useds_bounds in Hp; try done; lia.
Qed.

(** Writing inside the hole. *)
Lemma frame_hole :
  same_on (bot + 4) (x + 4) m' m -> same_on (y + 4) (top + 8) m' m ->
  seg m' bot true l x pu /\ tail m' y py r top /\ keeps (useds bot l ++ useds y r) m m' /\
  (forall bins, bins_ok m bins (frees bot l ++ frees y r) -> bins_ok m' bins (frees bot l ++ frees y r)).
Proof.
  intros Sl Sr. destruct frame_bounds as (Ex & Et & H1 & H2 & ? & ?). split; [by eapply seg_same|].
  split; [by eapply tail_same|]. split.
  - intros p Hp. pose proof (outside_used p Hp) as [? [?|?]];
      [eapply same_on_sub; [exact Sl|lia|lia]|eapply same_on_sub; [exact Sr|lia|lia]].
  - intros bins Hb. eapply bins_ok_frame; [exact Hb|]. intros p Hp. pose proof (outside_free p Hp) as [? [?|?]];
      [eapply same_on_sub; [exact Sl|lia|lia]|eapply same_on_sub; [exact Sr|lia|lia]].
Qed.

(** Writing links. *)
Lemma frame_links :
  links_only (frees bot l ++ frees y r) m m' ->
  seg m' bot true l x pu /\ tail m' y py r top /\ same_on (x + 4) (y + 4) m' m /\ keeps (useds bot l ++ useds y r) m m'.
Proof.
  intros Hlk. destruct frame_bounds as (Ex & Et & H1 & H2 & ? & ?). split; [|split; [split; [|split; [|apply Hr]]|split]].
  - eapply seg_frame; [exact Hl|]. intros q Hq Hf. apply Hlk. intros p [Hp|Hp]%elem_of_app; [by apply Hf|].
    apply frees_bounds in Hp; [lia|done].
  - eapply seg_frame; [exact (proj1 Hr)|]. intros q Hq Hf. apply Hlk. intros p [Hp|Hp]%elem_of_app; [|by apply Hf].
    apply frees_bounds in Hp; [lia|done].
  - rewrite <-(proj1 (proj2 Hr)). apply ld_ext. intros q Hq. apply Hlk. intros p Hp. apply outside_free in Hp. lia.
  - intros q Hq. apply Hlk. intros p Hp. apply outside_free in Hp. lia.
  - intros u Hu q Hq. apply Hlk. intros p Hp.
    assert (Hd : u.1 + u.2 <= p.1 \/ p.1 + p.2 <= u.1).
    { apply elem_of_app in Hu as [Hu|Hu], Hp as [Hp|Hp]; try (by eapply used_free_apart; [| |exact Hp]; done).
      - apply useds_bounds in Hu; [|done]. apply frees_bounds in Hp; [|done]. lia.
      - apply useds_bounds in Hu; [|done]. apply frees_bounds in Hp; [|done]. lia. }
    apply outside_free in Hp. lia.
Qed.
End Frame.

(** The free chunks of both sides, taken together. *)
Lemma hole_apart s l x pu y py r : hole s l x pu y py r -> apart ((frees (bottom s) l ++ frees y r).*1).
Proof.
  intros H. destruct H as [_ _ Hl Hxy Hr _ _]. destruct (frame_bounds _ _ _ _ _ _ _ _ _ Hl Hr) as (Ex & Et & H1 & H2 & _).
  enough (Ha : apart ((frees (bottom s) (l ++ mkC (y - x) true :: r)).*1)).
  { rewrite frees_app, frees_cons in Ha. cbn [cused csz app] in Ha.
    by replace (bottom s + total l + (y - x)) with y in Ha by lia. }
  apply frees_apart, Forall_app. split; [done|]. by constructor.
Qed.

Lemma hole_area s l x pu y py r : hole s l x pu y py r -> Forall (free_area s) (frees (bottom s) l ++ frees y r).
Proof.
  intros [[Hb _] [Hs HM] Hl [Hxy _] Hr _ _]. destruct (frame_bounds _ _ _ _ _ _ _ _ _ Hl Hr) as (Ex & Et & H1 & H2 & ? & ?).
  apply Forall_forall. intros p Hp. pose proof (outside_free _ _ _ _ _ _ _ _ _ Hl Hr p Hp) as Ho. unfold free_area, handle_ok, area, MAX_ALLOC_SIZE in *.
  change (2 ^ 64) with 18446744073709551616. lia.
Qed.

(** ** Headers around the hole *)

Definition hd_size (r : list chunk) : Z := match r with [] => 0 | c :: _ => csz c end.
(** The chunk behind, if any, is in use. *)
Definition used_next (r : list chunk) : Prop := match r with [] => False | c :: _ => cused c = true end.

Lemma tail_header m a pu cs top : tail m a pu cs top -> ld 4 m (a + 4) = hdr (hd_size cs) pu /\ hd_size cs mod 8 = 0.
Proof.
  destruct cs as [|c cs]; [intros ([-> ->] & H & _); done|]. intros ([(_ & ? & Hh & _) _] & _ & [Hc _]%Forall_cons_1).
  split; [by apply Hh|done].
Qed.

Lemma tail_set m a pu cs top pu' :
  tail m a pu cs top -> top <= MAX_ALLOC_SIZE -> 0 <= a -> (pu' = true \/ used_next cs) ->
  tail (sto 4 m (a + 4) (hdr (hd_size cs) pu')) a pu' cs top.
Proof.
  intros Ht HM Ha Hpu. destruct (tail_end _ _ _ _ _ Ht) as [E Hsz].
  destruct cs as [|c cs].
  - destruct Ht as ([-> ->] & H & Hseen). cbn in Hpu. destruct Hpu as [->|[]]. split; [done|]. split; [|done]. cbn [hd_size].
    rewrite ld_sto_fit; [done|]. apply hdr_fits. unfold MAX_ALLOC_SIZE. lia.
  - apply Forall_cons in Hsz as [[H24 _] Hsz]. pose proof (total_nonneg cs Hsz) as H0. rewrite total_cons in E. cbn [hd_size used_next] in *.
    destruct Ht as ([(? & ? & ? & Hf) Hseg] & Htop & Hseen).
    assert (Hs : same_on (a + csz c) (top + 8) (sto 4 m (a + 4) (hdr (csz c) pu')) m) by (apply same_on_sto; lia).
    split; [split|split; [|done]].
    + split; [done|]. split; [done|]. split; [intros _; apply ld_sto_fit, hdr_fits; lia|].
      intros Hu. destruct (Hf Hu) as (Hc & _ & Hft). destruct Hpu as [->|Hpu]; [|congruence]. split; [done|]. split; [done|].
      etrans; [|exact Hft]. apply ld_ext. eapply same_on_sub; [exact Hs|lia|lia].
    + eapply seg_same; [exact Hseg|]. eapply same_on_sub; [exact Hs|lia|lia].
    + rewrite <-Htop. apply ld_ext. eapply same_on_sub; [exact Hs|lia|lia].
Qed.

Section Hole.
Context (s : DTCBinMalloc) (l : list chunk) (x : Z) (pu : bool) (y : Z) (py : bool) (r : list chunk).
Hypothesis H : hole s l x pu y py r.

Lemma hole_bounds : 0 < bottom s /\ bottom s <= x /\ x + 24 <= y /\ y <= hTop s /\ hTop s + 24 <= total_size s /\
  total_size s <= MAX_ALLOC_SIZE /\ hTop s = y + total r /\ 0 <= total r /\ x = bottom s + total l /\ sizes_ok l /\ sizes_ok r.
Proof.
  destruct H as [[? _] [? ?] Hl [? _] Hr _ _]. destruct (frame_bounds _ _ _ _ _ _ _ _ _ Hl Hr) as (Ex & Et & Hz1 & Hz2 & ? & ?).
  split_and!; try done; lia.
Qed.

Lemma hole_aligned : x mod 8 = 0 /\ y mod 8 = 0.
Proof.
  destruct H as [[_ Hb] _ _ [_ Hm] _ _ _]. destruct hole_bounds as (_ & _ & _ & _ & _ & _ & _ & _ & -> & Hl & _).
  pose proof (total_mod l Hl). split; zdm.
Qed.

Lemma hole_header_y : header s y (hd_size r) py.
Proof.
  destruct hole_bounds as (? & ? & ? & ? & ? & ? & ? & ? & _). destruct (tail_header _ _ _ _ _ (ho_r _ _ _ _ _ _ _ H)).
  split; [split; lia|done].
Qed.

(** Inside the hole anything may be written. *)
Lemma hole_write m' :
  same_on (bottom s + 4) (x + 4) m' s.(mem) -> same_on (y + 4) (hTop s + 8) m' s.(mem) ->
  hole (set_mem m' s) l x pu y py r /\ keeps (useds (bottom s) l ++ useds y r) s.(mem) m'.
Proof.
  intros Sl Sr. destruct H as [Hb Hs Hl Hxy Hr Hbins Hmap].
  destruct (frame_hole _ m' _ _ _ _ _ _ _ _ Hl Hr Sl Sr) as (Hl' & Hr' & Hk & Hbs).
  split; [|done]. split; try done. by apply Hbs.
Qed.
End Hole.

Lemma gap_header_x s l x pu y py r : gap s l x pu y py r -> header s x (y - x) pu.
Proof.
  intros [H Hx]. destruct (hole_bounds _ _ _ _ _ _ _ H) as (? & ? & ? & ? & ? & ? & _). split; [split; lia|].
  split; [apply (ho_xy _ _ _ _ _ _ _ H)|done].
Qed.

(** The chunk before the hole is free when the header at the hole says so. *)
Lemma seg_last m a l x pu :
  seg m a true l x pu -> sizes_ok l ->
  pu = true \/ exists l' c, l = l' ++ [c] /\ cused c = false /\ pu = false /\ x = a + total l' + csz c /\
    24 <= csz c /\ csz c mod 8 = 0 /\ seg m a true l' (x - csz c) true /\
    ld 4 m (x - csz c + 4) = hdr (csz c) true /\ ld 4 m x = csz c.
Proof.
  intros Hl Hsz. destruct l as [|c l' _] using rev_ind.
  - destruct Hl as [_ <-]. by left.
  - apply seg_snoc in Hl as (pw & Hl & (? & ? & Hh & Hf) & E & ->). destruct (cused c) eqn:Ec; [by left|right].
    destruct (Hf eq_refl) as (Hc & -> & Hft). specialize (Hh Hc). exists l', c. replace (x - csz c) with (a + total l') by lia. subst x. done.
Qed.

(** ** Merging *)

(** The bins lose a free chunk that lies inside the hole. *)
Lemma unlink_hole s frs h z l x pu y py r :
  0 < bottom s /\ bottom s mod 8 = 0 -> hTop s + 24 <= total_size s /\ total_size s <= MAX_ALLOC_SIZE ->
  seg s.(mem) (bottom s) true l x pu -> 24 <= y - x /\ (y - x) mod 8 = 0 -> tail s.(mem) y py r (hTop s) ->
  bins_ok s.(mem) s.(m_ptBin) frs -> bitmap_ok s.(m_ptBin) (bitmap s) ->
  frs ≡ₚ (h, z) :: (frees (bottom s) l ++ frees y r) -> apart (frs.*1) -> Forall (free_area s) frs -> 0 <= z ->
  exists s', unlink_bin (Bin (bin_index z)) h s = Ok (0, s') /\ same_head s s' /\ hole s' l x pu y py r /\
    same_on (x + 4) (y + 4) s'.(mem) s.(mem) /\ keeps (useds (bottom s) l ++ useds y r) s.(mem) s'.(mem).
Proof.
  intros Hb Hs Hl Hxy Hr Hbins Hmap P Hap Har Hz.
  destruct (unlink_bin_ok s h z frs _ P Hbins Hap Har Hz) as (s' & E & Hsame & Hbins' & Hlk & Hbm).
  destruct (frame_links _ _ _ _ _ _ _ _ _ _ Hl Hr ltac:(lia) Hlk) as (Hl' & Hr' & Hin & Hk).
  exists s'. split; [done|]. split; [done|]. split; [|done]. destruct Hsame as (Hlike & Et & Ebm).
  pose proof (like_bottom _ _ Hlike) as Eb. pose proof (like_size _ _ Hlike) as Es.
  split; rewrite ?Eb, ?Es, ?Et, ?Ebm; try done. by apply Hbm.
Qed.

Lemma hole_bitmap s s' l x pu y py r :
  hole s l x pu y py r -> same_but_bitmap s s' -> bitmap_ok s'.(m_ptBin) (bitmap s') -> hole s' l x pu y py r.
Proof.
  intros [] (Hlike & Et & Em & Ebins) Hbm. pose proof (like_bottom _ _ Hlike) as Eb. pose proof (like_size _ _ Hlike) as Es.
  split; rewrite ?Eb, ?Es, ?Et, ?Em, ?Ebins; try done. by rewrite <-Ebins.
Qed.

Lemma hole_clear s l x pu y py r i :
  hole s l x pu y py r -> 0 <= i < NBINS ->
  exists s', clear_if_empty i s = Ok (tt, s') /\ like s s' /\ hTop s' = hTop s /\ s'.(mem) = s.(mem) /\ hole s' l x pu y py r.
Proof.
  intros H Hi. destruct (clear_if_empty_ok s i Hi) as (s' & E & Hsame & Hbm); [apply (ho_bins _ _ _ _ _ _ _ H)|apply (ho_map _ _ _ _ _ _ _ H)|].
  exists s'. split; [done|]. pose proof Hsame as (? & ? & ? & _). do 3 (split; [done|]). by eapply hole_bitmap.
Qed.

(** The end of a merge: the hole gets a header and its size behind it. *)
Lemma hole_resize s l x pu y py r z :
  hole s l x pu y py r -> ld 4 s.(mem) (x + 4) = hdr z pu -> z mod 8 = 0 ->
  exists s', (forall A (k : M A), (set_size_at_offset x 0 (y - x);; set_presize_at_offset x (y - x) (y - x);; k) s = k s') /\
    like s s' /\ hTop s' = hTop s /\ gap s' l x pu y py r /\ ld 4 s'.(mem) y = y - x /\
    keeps (useds (bottom s) l ++ useds y r) s.(mem) s'.(mem).
Proof.
  intros H Hh Hz. destruct (hole_bounds _ _ _ _ _ _ _ H) as (? & ? & ? & ? & ? & ? & ? & ? & _).
  destruct (ho_xy _ _ _ _ _ _ _ H) as [_ Hm]. unfold MAX_ALLOC_SIZE in *.
  assert (Hhdr : header s x z pu) by (split; [split; lia|done]).
  set (m1 := sto 4 (sto 4 s.(mem) (x + 4) (hdr (y - x) pu)) y (y - x)).
  destruct (hole_write s l x pu y py r H m1) as [Hhole Hk].
  { intros q Hq. unfold m1. rewrite !byte_sto_out by lia. done. }
  { intros q Hq. unfold m1. rewrite !byte_sto_out by lia. done. }
  exists (set_mem m1 s). split; [|split; [done|split; [done|split; [split; [exact Hhole|]|split; [|exact Hk]]]]].
  - intros A k. rewrite (bind_ok _ _ _ _ _ (set_size_ok s x z pu Hhdr (y - x) Hm)).
    erewrite bind_ok; [reflexivity|]. rewrite set_presize_ok; [|split; cbn; lia|done].
    unfold m1, set_mem; cbn. by replace (x + (y - x)) with y by lia.
  - cbn [mem set_mem]. unfold m1. rewrite ld_sto_other by lia. rewrite ld_sto_fit; [done|]. apply hdr_fits. unfold MAX_ALLOC_SIZE. lia.
  - cbn [mem set_mem]. unfold m1. rewrite ld_sto_fit; [done|]. change (256 ^ Z.of_nat 4) with 4294967296. lia.
Qed.

(** The sizes of the hole stay 32-bit. *)
Lemma combile_ok a b : a + b <= MAX_ALLOC_SIZE -> 0 <= a -> 0 <= b -> CAN_COMBILE a b = true /\ u32 (a + b) = a + b.
Proof.
  intros. split; [by apply Z.leb_le|]. apply wrap_small. unfold is_u, MAX_ALLOC_SIZE in *. change (2 ^ 32) with 4294967296. lia.
Qed.
Lemma u64_ok a : 0 <= a <= MAX_ALLOC_SIZE -> u64 a = a.
Proof. intros. apply wrap_small. unfold is_u, MAX_ALLOC_SIZE in *. change (2 ^ 64) with 18446744073709551616. lia. Qed.

(** The free chunk [c] in front of the hole joins it. *)
Lemma unlink_prev s l c x y py r :
  hole s (l ++ [c]) x false y py r -> cused c = false ->
  exists s', unlink_bin (Bin (bin_index (csz c))) (x - csz c) s = Ok (0, s') /\ same_head s s' /\
    hole s' l (x - csz c) true y py r /\ ld 4 s'.(mem) (x - csz c + 4) = hdr (csz c) true /\
    same_on (x + 4) (y + 4) s'.(mem) s.(mem) /\ keeps (useds (bottom s) l ++ useds y r) s.(mem) s'.(mem).
Proof.
  intros H Hc. pose proof (hole_apart _ _ _ _ _ _ _ H) as Hap. pose proof (hole_area _ _ _ _ _ _ _ H) as Har.
  destruct H as [Hb Hs Hl Hxy Hr Hbins Hmap].
  apply seg_snoc in Hl as (pw & Hl & (? & ? & Hh & Hf) & Ex & _). destruct (Hf Hc) as (Hseen & -> & _).
  rewrite frees_snoc, Hc in Hap, Har, Hbins. assert (Ea : bottom s + total l = x - csz c) by lia. rewrite Ea in *.
  destruct (unlink_hole s _ (x - csz c) (csz c) l (x - csz c) true y py r Hb Hs Hl ltac:(split; [lia|zdm]) Hr Hbins Hmap)
    as (s' & E & Hsame & Hhole & Hin & Hk); [rewrite <-app_assoc; cbn [app]; by rewrite <-Permutation_middle|done|done|lia|].
  exists s'. split; [done|]. split; [done|]. split; [done|]. split.
  - rewrite <-(Hh Hseen). apply ld_ext. eapply same_on_sub; [exact Hin|lia|lia].
  - split; [eapply same_on_sub; [exact Hin|lia|lia]|done].
Qed.

(** The free chunk [c] behind the hole joins it. *)
Lemma unlink_next s l x pu y c r :
  hole s l x pu y true (c :: r) \/ hole s l x pu y false (c :: r) -> cused c = false ->
  exists s', unlink_bin (Bin (bin_index (csz c))) y s = Ok (0, s') /\ same_head s s' /\
    hole s' l x pu (y + csz c) false r /\ same_on (x + 4) (y + 4) s'.(mem) s.(mem) /\
    keeps (useds (bottom s) l ++ useds (y + csz c) r) s.(mem) s'.(mem) /\ used_next r.
Proof.
  intros H Hc. assert (H' : exists py, hole s l x pu y py (c :: r)) by (destruct H as [H|H]; by eexists). clear H.
  destruct H' as [py H]. pose proof (hole_apart _ _ _ _ _ _ _ H) as Hap. pose proof (hole_area _ _ _ _ _ _ _ H) as Har.
  destruct H as [Hb Hs Hl Hxy Hr Hbins Hmap]. destruct Hr as ([(? & ? & _) Hseg] & Htop & [_ Hseen]%Forall_cons_1). rewrite Hc in Hseg.
  rewrite frees_cons, Hc in Hap, Har, Hbins.
  destruct (unlink_hole s _ y (csz c) l x pu (y + csz c) false r Hb Hs Hl ltac:(split; [lia|zdm]) (conj Hseg (conj Htop Hseen)) Hbins Hmap)
    as (s' & E & Hsame & Hhole & Hin & Hk); [cbn [app]; by rewrite <-Permutation_middle|done|done|lia|].
  exists s'. do 3 (split; [done|]). split; [eapply same_on_sub; [exact Hin|lia|lia]|]. split; [done|].
  destruct r as [|c' r]; [by destruct Hseg|]. destruct Hseg as [(_ & _ & _ & Hf) _]. cbn.
  destruct (cused c') eqn:Ec'; [done|]. by destruct (Hf eq_refl) as (_ & ? & _).
Qed.

Lemma combine_prev_ok s l x pu y py r :
  gap s l x pu y py r ->
  exists l' x' s', combine_prev x x (y - x) s = Ok ((x', x', y - x'), s') /\ like s s' /\ hTop s' = hTop s /\
    gap s' l' x' true y py r /\ useds (bottom s) l' = useds (bottom s) l /\ (pu = true -> l' = l) /\ (all_seen l -> all_seen l') /\
    keeps (useds (bottom s) l ++ useds y r) s.(mem) s'.(mem).
Proof.
  intros Hg. pose proof (gap_header_x _ _ _ _ _ _ _ Hg) as Hhx. destruct Hg as [H Hx].
  pose proof (hole_bounds _ _ _ _ _ _ _ H) as (? & ? & ? & ? & ? & ? & ? & ? & _ & Hsl & _).
  unfold combine_prev. rewrite (bind_ok _ _ _ _ _ (prev_inuse_ok _ _ _ _ Hhx)).
  destruct (seg_last _ _ _ _ _ (ho_l _ _ _ _ _ _ _ H) Hsl) as [->|(l' & c & -> & Hc & -> & Ex & H24 & Hm & Hl' & Hh & Hft)].
  { exists l, x, s. done. }
  assert (Hl'0 : 0 <= total l') by (apply total_nonneg; apply Forall_app in Hsl; tauto).
  unfold tPreSize_of. rewrite (bind_ok _ _ _ _ _ (load_ok 4 x s ltac:(split; lia))), Hft.
  destruct (combile_ok (y - x) (csz c)) as [-> ->]; [unfold MAX_ALLOC_SIZE in *; lia|lia|lia|].
  rewrite u64_ok by lia. rewrite gets_bind, ptr_to_handle_ok by lia.
  destruct (unlink_prev s l' c x y py r H Hc) as (s1 & E1 & (Hlike1 & Ht1 & _) & Ho1 & Hh1 & _ & Hk1).
  rewrite (bind_ok _ _ _ _ _ E1).
  pose proof (bin_index_range (csz c) ltac:(lia)) as Hi.
  destruct (hole_clear s1 _ _ _ _ _ _ (bin_index (csz c)) Ho1 ltac:(unfold NBINS; lia)) as (s2 & E2 & Hlike2 & Ht2 & Em2 & Ho2).
  rewrite (bind_ok _ _ _ _ _ E2). rewrite <-Em2 in Hh1.
  destruct (hole_resize s2 _ _ _ _ _ _ _ Ho2 Hh1 Hm) as (s3 & E3 & Hlike3 & Ht3 & Ho3 & _ & Hk3).
  replace (y - x + csz c) with (y - (x - csz c)) by lia. rewrite E3.
  exists l', (x - csz c), s3. split; [done|]. split; [by etrans; [|etrans]|]. split; [congruence|]. split; [done|].
  rewrite useds_snoc, Hc, app_nil_r. split; [done|]. split; [done|]. split; [by intros [? _]%Forall_app|].
  eapply keeps_trans; [exact Hk1|].
  rewrite (like_bottom _ _ Hlike2), (like_bottom _ _ Hlike1) in Hk3. by rewrite <-Em2.
Qed.

Lemma combine_next_ok s l x y r :
  gap s l x true y true r ->
  exists y' py' r' s', combine_next x x (y - x) s = Ok (Some (y' - x), s') /\ like s s' /\ hTop s' = hTop s /\
    gap s' l x true y' py' r' /\ (r' = [] \/ used_next r') /\ useds y' r' = useds y r /\
    keeps (useds (bottom s) l ++ useds y r) s.(mem) s'.(mem).
Proof.
  intros Hg. pose proof Hg as [H Hx]. pose proof (hole_header_y _ _ _ _ _ _ _ H) as Hhy.
  pose proof (hole_bounds _ _ _ _ _ _ _ H) as (? & ? & ? & ? & ? & ? & ? & ? & _ & _ & Hsr).
  unfold combine_next. rewrite gets_bind. replace (x + (y - x)) with y by lia. rewrite u64_ok by lia.
  destruct r as [|c r].
  { destruct (ho_r _ _ _ _ _ _ _ H) as [[<- _] _]. rewrite Z.eqb_refl. exists y, true, [], s. split_and!; try done; [cbn in *; lia|by left]. }
  apply Forall_cons_1 in Hsr as [[H24 Hm] Hsr]. pose proof (total_nonneg _ Hsr). rewrite total_cons in *. cbn [hd_size] in Hhy.
  rewrite (proj2 (Z.eqb_neq _ _)) by lia. cbv zeta. rewrite (bind_ok _ _ _ _ _ (CHUNK_SIZE_ok _ _ _ _ Hhy)).
  change MINSIZE with 24. rewrite (proj2 (Z.ltb_ge _ _)) by lia.
  assert (Hnext : header s (y + csz c) (hd_size r) (cused c)).
  { destruct (ho_r _ _ _ _ _ _ _ H) as ([_ Hseg] & Htop & [_ Hseen]%Forall_cons_1).
    destruct (tail_header _ _ _ _ _ (conj Hseg (conj Htop Hseen))).
    split; [split; lia|done]. }
  unfold inuse_bit_at_offset. rewrite (bind_ok _ _ _ _ _ (prev_inuse_ok _ _ _ _ Hnext)).
  destruct (cused c) eqn:Ec; cbn [negb andb].
  { exists y, true, (c :: r), s. split_and!; try done. by right. }
  destruct (combile_ok (y - x) (csz c)) as [-> ->]; [unfold MAX_ALLOC_SIZE in *; lia|lia|lia|].
  rewrite gets_bind, ptr_to_handle_ok by lia.
  destruct (unlink_next s l x true y c r (or_introl H) Ec) as (s1 & E1 & (Hlike1 & Ht1 & _) & Ho1 & Hin1 & Hk1 & Hun).
  rewrite (bind_ok _ _ _ _ _ E1). pose proof (bin_index_range (csz c) ltac:(lia)) as Hi.
  destruct (hole_clear s1 _ _ _ _ _ _ (bin_index (csz c)) Ho1 ltac:(unfold NBINS; lia)) as (s2 & E2 & Hlike2 & Ht2 & Em2 & Ho2).
  rewrite (bind_ok _ _ _ _ _ E2).
  assert (Hh2 : ld 4 s2.(mem) (x + 4) = hdr (y - x) true).
  { rewrite Em2, <-Hx. apply ld_ext. eapply same_on_sub; [exact Hin1|lia|lia]. }
  destruct (hole_resize s2 _ _ _ _ _ _ _ Ho2 Hh2 (proj2 (ho_xy _ _ _ _ _ _ _ H))) as (s3 & E3 & Hlike3 & Ht3 & Ho3 & _ & Hk3).
  replace (y - x + csz c) with (y + csz c - x) by lia. rewrite E3.
  exists (y + csz c), false, r, s3. split; [done|]. split; [by etrans; [|etrans]|]. split; [congruence|]. split; [done|].
  rewrite useds_cons, Ec. split; [by right|]. split; [done|]. eapply keeps_trans; [exact Hk1|].
  rewrite (like_bottom _ _ Hlike2), (like_bottom _ _ Hlike1) in Hk3. by rewrite <-Em2.
Qed.

(** ** Placing the chunk *)

(** A heap without a hole, its links rewritten. *)
Lemma seg_links m m' a cs top frs :
  seg m a true cs top true -> frs ≡ₚ frees a cs -> links_only frs m m' ->
  seg m' a true cs top true /\ ld 4 m' (top + 4) = ld 4 m (top + 4) /\ keeps (useds a cs) m m'.
Proof.
  intros Hseg P Hlk. pose proof (seg_sizes _ _ _ _ _ _ Hseg) as Hsz. pose proof (seg_end _ _ _ _ _ _ Hseg) as E.
  assert (Hlk' : links_only (frees a cs) m m') by (intros x Hx; apply Hlk; intros p; rewrite P; apply Hx).
  split; [|split].
  - eapply seg_frame; [exact Hseg|]. intros x Hx Hf. by apply Hlk'.
  - apply ld_ext. intros x Hx. apply Hlk'. intros p Hp. apply frees_bounds in Hp; [lia|done].
  - intros u Hu x Hx. apply Hlk'. intros p Hp. pose proof (used_free_apart a cs u p Hsz Hu Hp). apply frees_bounds in Hp; [lia|done].
Qed.

(** The hole filled by a free chunk. *)
Definition filled (l : list chunk) (z : Z) (r : list chunk) : list chunk := l ++ mkC z false :: r.

Lemma filled_useds a l x y r : x = a + total l -> useds a (filled l (y - x) r) = useds a l ++ useds y r.
Proof. intros ->. unfold filled. rewrite useds_app, useds_cons. cbn [cused csz app]. do 2 f_equal. lia. Qed.
Lemma filled_frees a l x y r : x = a + total l -> frees a (filled l (y - x) r) ≡ₚ (x, y - x) :: frees a l ++ frees y r.
Proof.
  intros ->. unfold filled. rewrite frees_app, frees_cons. cbn [cused csz app]. rewrite <-Permutation_middle.
  by replace (a + total l + (y - (a + total l))) with y by lia.
Qed.

Lemma filled_seg s l x y r :
  gap s l x true y false r -> ld 4 s.(mem) y = y - x -> seg s.(mem) (bottom s) true (filled l (y - x) r) (hTop s) true.
Proof.
  intros [H Hx] Hft. pose proof (hole_bounds _ _ _ _ _ _ _ H) as (_ & _ & _ & _ & _ & _ & _ & _ & Ex & _ & _).
  destruct H as [_ _ Hl Hxy (Hr & _ & _) _ _]. apply seg_app. exists true. rewrite <-Ex. split; [done|].
  cbn [seg csz cused]. replace (x + (y - x)) with y by lia. split; [|done]. split_and!; try tauto.
  cbn [csz cseen]. replace (x + (y - x)) with y by lia. by intros _.
Qed.

(** A segment up to the top, taken apart. *)
Lemma heap_at_intro s l t :
  0 < bottom s /\ bottom s mod 8 = 0 -> hTop s + 24 <= total_size s /\ total_size s <= MAX_ALLOC_SIZE ->
  seg s.(mem) (bottom s) true (l ++ t) (hTop s) true -> ld 4 s.(mem) (hTop s + 4) = hdr 0 true -> all_seen t ->
  bins_ok s.(mem) s.(m_ptBin) (frees (bottom s) (l ++ t)) -> bitmap_ok s.(m_ptBin) (bitmap s) -> heap_at s l t.
Proof.
  intros Hb Hs Hseg Htop Hseen Hbins Hmap. split; try done. apply seg_app in Hseg as (pw & Hl & Ht). by exists pw.
Qed.

(** Into its bin. *)
Lemma place_bin_ok s l x y r :
  gap s l x true y false r -> ld 4 s.(mem) y = y - x ->
  exists s', (link_bin (Bin (bin_index (y - x))) x;; set_bin_bit_map (bin_index (y - x));; mret 0) s = Ok (0, s') /\
    like s s' /\ heap_at s' l (mkC (y - x) false :: r) /\ keeps (useds (bottom s) l ++ useds y r) s.(mem) s'.(mem).
Proof.
  intros Hg Hft. pose proof Hg as [H Hx]. pose proof (filled_seg _ _ _ _ _ Hg Hft) as Ht.
  pose proof (hole_bounds _ _ _ _ _ _ _ H) as (Hb1 & Hb2 & Hb3 & Hb4 & Hb5 & Hb6 & Hb7 & Hb8 & Ex & Hsl & Hsr).
  pose proof (filled_frees (bottom s) l x y r Ex) as P. pose proof (bin_index_range (y - x) ltac:(lia)) as Hi.
  assert (Hap : apart (((x, y - x) :: frees (bottom s) l ++ frees y r).*1)).
  { rewrite <-P. apply frees_apart. by eapply seg_sizes. }
  assert (Har : Forall (free_area s) ((x, y - x) :: frees (bottom s) l ++ frees y r)).
  { constructor; [|by eapply hole_area]. unfold free_area, handle_ok, area, MAX_ALLOC_SIZE in *. cbn [fst snd].
    change (2 ^ 64) with 18446744073709551616. lia. }
  destruct (link_bin_ok s x (y - x) _ (ho_bins _ _ _ _ _ _ _ H) Hap Har) as (s1 & E1 & (Hlike1 & Ht1 & Hbm1) & Hbins1 & Hlk1 & Hoth1).
  destruct (seg_links _ _ _ _ _ _ Ht (symmetry P) Hlk1) as (Hseg1 & Htop1 & Hk1).
  destruct (set_bin_bit_map_ok s1 (bin_index (y - x)) s.(m_ptBin)) as (s2 & E2 & (Hlike2 & Ht2 & Em2 & Eb2) & Hmap2).
  { unfold NBINS. lia. } { apply Hbins1. } { rewrite Hbm1. apply (ho_map _ _ _ _ _ _ _ H). } { exact Hoth1. }
  exists s2. rewrite (bind_ok _ _ _ _ _ E1), (bind_ok _ _ _ _ _ E2). split; [done|]. split; [by etrans|].
  rewrite Em2, <-(filled_useds (bottom s) l x y r Ex). split; [|done].
  assert (Hlike : like s s2) by by etrans. pose proof (like_bottom _ _ Hlike) as Eb. pose proof (like_size _ _ Hlike) as Es.
  destruct H as [Hb Hs _ _ (_ & Htop & Hseen) _ _]. apply heap_at_intro; rewrite ?Eb, ?Es, ?Ht2, ?Ht1, ?Em2, ?Eb2; try done.
  - by rewrite Htop1.
  - by constructor.
  - by eapply bins_ok_perm; [symmetry; exact P|].
  - by rewrite <-Eb2.
Qed.

(** The in-use bit behind the hole is rewritten. *)
Lemma hole_set_next s l x pu y py r py' :
  hole s l x pu y py r -> py' = true \/ used_next r ->
  let m' := sto 4 s.(mem) (y + 4) (hdr (hd_size r) py') in
  hole (set_mem m' s) l x pu y py' r /\ same_on 0 (y + 4) m' s.(mem) /\
  keeps (useds (bottom s) l ++ useds y r) s.(mem) m'.
Proof.
  intros H Hpy m'. pose proof (hole_bounds _ _ _ _ _ _ _ H) as (Hb1 & Hb2 & Hb3 & Hb4 & Hb5 & Hb6 & Hb7 & Hb8 & Ex & Hsl & Hsr).
  destruct H as [Hb Hs Hl Hxy Hr Hbins Hmap].
  assert (Hout : forall q, q < y + 4 \/ y + 8 <= q -> byte m' q = byte s.(mem) q) by (intros q Hq; apply byte_sto_out; lia).
  assert (Hbl : forall p, p ∈ frees (bottom s) l ++ frees y r -> same_on (p.1 + 8) (p.1 + 24) m' s.(mem)).
  { intros p Hp q Hq. apply Hout. pose proof (outside_free _ _ _ _ _ _ _ _ _ Hl Hr p Hp). lia. }
  split; [|split].
  - split; try done.
    + eapply seg_same; [exact Hl|]. intros q Hq. apply Hout. lia.
    + apply (tail_set _ _ py); [done|cbn; lia|lia|done].
    + by eapply bins_ok_frame.
  - intros q Hq. apply Hout. lia.
  - intros p Hp q Hq. apply Hout. pose proof (outside_used _ _ _ _ _ _ _ _ _ Hl Hr p Hp). lia.
Qed.

Lemma note_free_size_ok t s :
  exists s', note_free_size t s = Ok (tt, s') /\ same_but_bitmap s s' /\ bitmap s' = bitmap s.
Proof. eexists. split; [reflexivity|]. by destruct (_ <? _). Qed.

(** The last step at the top: the largest size freed is noted. *)
Definition note_top : M unit := modify (fun s =>
  let free := u64 (s.(head).(m_tSize) - s.(head).(m_hTop) - MINSIZE) in
  if (s.(head).(m_hTop) + MINSIZE <? s.(head).(m_tSize)) && (s.(head).(m_tLastFreeChunkSize) <? free)
  then set_last free s else s).
Lemma note_top_ok s : exists s', note_top s = Ok (tt, s') /\ same_but_bitmap s s' /\ bitmap s' = bitmap s.
Proof. eexists. split; [reflexivity|]. cbv beta zeta. by case_match. Qed.

Lemma place_top_ok s l x y :
  gap s l x true y true [] ->
  exists s', (modify (fun s => set_top (u64 (s.(head).(m_hTop) - (y - x))) s);; put_tSize x PREV_INUSE;; note_top;; mret 0) s
    = Ok (0, s') /\ like s s' /\ heap_at s' l [] /\ keeps (useds (bottom s) l) s.(mem) s'.(mem).
Proof.
  intros [H _]. pose proof (hole_bounds _ _ _ _ _ _ _ H) as (Hb1 & Hb2 & Hb3 & Hb4 & Hb5 & Hb6 & Hb7 & Hb8 & Ex & Hsl & Hsr).
  cbn in Hb7. rewrite modify_bind. set (s1 := set_top _ s).
  assert (Et1 : hTop s1 = x) by (subst s1; cbn; rewrite u64_ok by lia; lia).
  assert (E2 : put_tSize x PREV_INUSE s1 = Ok (tt, set_mem (sto 4 s1.(mem) (x + 4) PREV_INUSE) s1)).
  { apply (store_ok 4 (x + 4)). split; cbn; lia. }
  rewrite (bind_ok _ _ _ _ _ E2). destruct (note_top_ok (set_mem (sto 4 s1.(mem) (x + 4) PREV_INUSE) s1))
    as (s3 & E3 & (Hlike3 & Ht3 & Em3 & Eb3) & Ebm3).
  rewrite (bind_ok _ _ _ _ _ E3). exists s3. split; [done|].
  assert (Hlike : like s s3) by (rewrite <-Hlike3; done). split; [done|].
  destruct H as [Hb Hs Hl Hxy Hr Hbins Hmap]. rewrite app_nil_r in Hbins.
  assert (Hout : same_on 0 (x + 4) s3.(mem) s.(mem)) by (rewrite Em3; intros q Hq; apply byte_sto_out; lia).
  split.
  - pose proof (like_bottom _ _ Hlike) as Eb. pose proof (like_size _ _ Hlike) as Es.
    assert (Et3 : hTop s3 = x) by (rewrite Ht3; exact Et1).
    pose proof Hr as ([Ey _] & _ & _). apply heap_at_intro; rewrite ?app_nil_r, ?Eb, ?Es, ?Et3, ?Eb3, ?Ebm3; try done; [lia| | |].
    + eapply seg_same; [exact Hl|]; eapply same_on_sub; [exact Hout|lia|lia].
    + rewrite Em3. cbn [mem set_mem]. by rewrite ld_sto_fit.
    + eapply bins_ok_frame; [exact Hbins|]. intros p Hp. apply frees_bounds in Hp; [|done].
      eapply same_on_sub; [exact Hout|lia|lia].
  - intros p Hp. apply useds_bounds in Hp; [|done]. eapply same_on_sub; [exact Hout|lia|lia].
Qed.

Lemma place_chunk_ok s l x y py r :
  gap s l x true y py r -> r = [] \/ used_next r ->
  exists t s', place_chunk x x (y - x) s = Ok (0, s') /\ like s s' /\ heap_at s' l t /\
    useds (bottom s) (l ++ t) = useds (bottom s) l ++ useds y r /\ keeps (useds (bottom s) l ++ useds y r) s.(mem) s'.(mem).
Proof.
  intros Hg Hr. pose proof Hg as [H Hx].
  pose proof (hole_bounds _ _ _ _ _ _ _ H) as (Hb1 & Hb2 & Hb3 & Hb4 & Hb5 & Hb6 & Hb7 & Hb8 & Ex & Hsl & Hsr).
  unfold place_chunk.
  destruct (hole_resize s _ _ _ _ _ _ _ H Hx (proj2 (ho_xy _ _ _ _ _ _ _ H))) as (s1 & E1 & Hlike1 & Ht1 & [Ho1 Hx1] & Hft1 & Hk1).
  rewrite E1. clear E1. pose proof (hole_header_y _ _ _ _ _ _ _ Ho1) as Hhy.
  rewrite (bind_ok _ _ _ _ _ (set_inuse_ok _ _ _ _ Hhy x (y - x) ltac:(lia))).
  destruct (hole_set_next _ _ _ _ _ _ _ true Ho1 (or_introl eq_refl)) as (Ho2 & Hs2 & Hk2).
  set (s2 := set_mem _ s1) in *. destruct (note_free_size_ok (y - x) s2) as (s3 & E3 & Hsame3 & Ebm3).
  rewrite (bind_ok _ _ _ _ _ E3), gets_bind.
  pose proof Hsame3 as (Hlike3 & Ht3 & Em3 & Eb3).
  assert (Ho3 : hole s3 l x true y true r) by (eapply hole_bitmap; [exact Ho2|exact Hsame3|rewrite Eb3, Ebm3; apply (ho_map _ _ _ _ _ _ _ Ho2)]).
  assert (Hg3 : gap s3 l x true y true r).
  { split; [done|]. rewrite Em3, <-Hx1. apply ld_ext. eapply same_on_sub; [exact Hs2|lia|lia]. }
  assert (Hft3 : ld 4 s3.(mem) y = y - x) by (rewrite <-Hft1, Em3; apply ld_ext; eapply same_on_sub; [exact Hs2|lia|lia]).
  assert (Hl3 : like s s3) by (rewrite <-Hlike3; exact Hlike1). pose proof (like_bottom _ _ Hl3) as Eb.
  assert (Hk3 : keeps (useds (bottom s) l ++ useds y r) s.(mem) s3.(mem)).
  { rewrite Em3. eapply keeps_trans; [exact Hk1|]. by rewrite (like_bottom _ _ Hlike1) in Hk2. }
  assert (Et3 : hTop s3 = hTop s) by (rewrite Ht3; exact Ht1).
  rewrite Et3. replace (x + (y - x)) with y by lia. rewrite u64_ok by lia. destruct Hr as [-> | Hr].
  - cbn in Hb7. rewrite (proj2 (Z.eqb_eq _ _)) by lia.
    destruct (place_top_ok s3 l x y Hg3) as (s' & E & Hlike & Hok & Hk). exists [], s'. split; [exact E|]. split; [by etrans|].
    split; [done|]. rewrite !app_nil_r in *. split; [done|]. eapply keeps_trans; [exact Hk3|]. by rewrite <-Eb.
  - assert (Hne : total r > 0) by (destruct r as [|c r]; [done|]; apply Forall_cons_1 in Hsr as [[? _] Hsr];
      pose proof (total_nonneg r Hsr); rewrite total_cons; lia).
    rewrite (proj2 (Z.eqb_neq _ _)) by lia. pose proof (hole_header_y _ _ _ _ _ _ _ Ho3) as Hhy3.
    rewrite (bind_ok _ _ _ _ _ (clear_inuse_ok _ _ _ _ Hhy3 x (y - x) ltac:(lia))).
    destruct (hole_set_next _ _ _ _ _ _ _ false Ho3 (or_intror Hr)) as (Ho4 & Hs4 & Hk4).
    set (s4 := set_mem _ s3) in *. rewrite gets_bind, ptr_to_handle_ok by (cbn; rewrite (like_size _ _ Hl3); lia).
    assert (Hg4 : gap s4 l x true y false r).
    { split; [done|]. rewrite <-(proj2 Hg3). apply ld_ext. eapply same_on_sub; [exact Hs4|lia|lia]. }
    destruct (place_bin_ok s4 l x y r Hg4) as (s' & E & Hlike & Hok & Hk).
    { rewrite <-Hft3. apply ld_ext. eapply same_on_sub; [exact Hs4|lia|lia]. }
    exists (mkC (y - x) false :: r), s'. split; [|split; [by etrans|split; [done|split; [by apply filled_useds|]]]].
    + rewrite <-E. unfold bin_index. by destruct (in_smallbin_range (y - x)).
    + eapply keeps_trans; [exact Hk3|]. rewrite <-Eb. eapply keeps_trans; [exact Hk4|exact Hk].
Qed.

(** ** [inter_free] on a chunk in use *)

Lemma check_inuse_ok s l x pu y r : gap s l x pu y true r -> check_inuse_chunk x s = Ok (0, s).
Proof.
  intros Hg. pose proof (gap_header_x _ _ _ _ _ _ _ Hg) as Hhx. pose proof Hg as [H Hx].
  pose proof (hole_header_y _ _ _ _ _ _ _ H) as Hhy.
  pose proof (hole_bounds _ _ _ _ _ _ _ H) as (Hb1 & Hb2 & Hb3 & Hb4 & Hb5 & Hb6 & Hb7 & Hb8 & Ex & Hsl & Hsr).
  unfold check_inuse_chunk. rewrite (bind_ok _ _ _ _ _ (CHUNK_SIZE_ok _ _ _ _ Hhx)). unfold inuse_bit_at_offset.
  replace (x + (y - x)) with y by lia. rewrite (bind_ok _ _ _ _ _ (prev_inuse_ok _ _ _ _ Hhy)). cbn [negb].
  rewrite (bind_ok _ _ _ _ _ (prev_inuse_ok _ _ _ _ Hhx)).
  rewrite (bind_ok _ _ s false s).
  - rewrite gets_bind. unfold AT_TOP. rewrite Z.add_0_r. destruct r as [|c r].
    + cbn in Hb7. by rewrite (proj2 (Z.eqb_eq _ _)) by lia.
    + apply Forall_cons_1 in Hsr as [[H24 Hm] Hsr]. pose proof (total_nonneg _ Hsr). rewrite total_cons in *. cbn [hd_size] in Hhy.
      rewrite (proj2 (Z.eqb_neq _ _)) by lia. cbn [negb]. rewrite (bind_ok _ _ _ _ _ (CHUNK_SIZE_ok _ _ _ _ Hhy)).
      change MINSIZE with 24. by rewrite (proj2 (Z.ltb_ge _ _)) by lia.
  - destruct (seg_last _ _ _ _ _ (ho_l _ _ _ _ _ _ _ H) Hsl) as [->|(l' & c & -> & Hc & -> & Exc & H24 & Hm & Hl' & Hh & Hft)]; [done|].
    assert (Hl'0 : 0 <= total l') by (apply total_nonneg; apply Forall_app in Hsl; tauto). cbn [negb].
    unfold tPreSize_of. rewrite (bind_ok _ _ _ _ _ (load_ok 4 x s ltac:(split; lia))), Hft.
    rewrite !gets_bind, ptr_to_handle_ok by lia. rewrite (proj2 (Z.ltb_ge _ _)) by lia.
    assert (Hhp : header s (x - csz c) (csz c) true) by (split; [split; lia|done]).
    rewrite (bind_ok _ _ _ _ _ (CHUNK_SIZE_ok _ _ _ _ Hhp)), ret_ok. by rewrite Z.eqb_refl.
Qed.

Lemma aligned_ok x : x mod 8 = 0 -> misaligned_chunk x = false.
Proof.
  intros H. unfold misaligned_chunk, MALLOC_ALIGN_MASK. pose proof (low3 x 0 H ltac:(lia)) as E. rewrite Z.add_0_r in E. by rewrite E.
Qed.

Lemma inter_free_at s l x pu y r :
  gap s l x pu y true r ->
  exists l' t s', inter_free (x + 8) s = Ok ((0, y - x), s') /\ like s s' /\ heap_at s' l' t /\
    (pu = true -> l' = l) /\ (all_seen l -> all_seen l') /\
    useds (bottom s) (l' ++ t) = useds (bottom s) l ++ useds y r /\ keeps (useds (bottom s) l ++ useds y r) s.(mem) s'.(mem).
Proof.
  intros Hg. pose proof (gap_header_x _ _ _ _ _ _ _ Hg) as Hhx. pose proof Hg as [H Hx].
  pose proof (hole_header_y _ _ _ _ _ _ _ H) as Hhy. destruct (hole_aligned _ _ _ _ _ _ _ H) as [Hax _].
  pose proof (hole_bounds _ _ _ _ _ _ _ H) as (Hb1 & Hb2 & Hb3 & Hb4 & Hb5 & Hb6 & _).
  unfold inter_free, mem2chunk, SIZE_SZ, INVALID_HANDLE. replace (x + 8 - 2 * 4) with x by lia.
  rewrite (proj2 (Z.eqb_neq _ _)), gets_bind, (proj2 (Z.leb_gt _ _)) by lia.
  rewrite (bind_ok _ _ _ _ _ (CHUNK_SIZE_ok _ _ _ _ Hhx)), gets_bind, ptr_to_handle_ok by lia.
  replace (x + (y - x)) with y by lia. rewrite u64_ok, (proj2 (Z.leb_gt _ _)) by lia. unfold inuse_bit_at_offset.
  replace (x + (y - x)) with y by lia. rewrite (bind_ok _ _ _ _ _ (prev_inuse_ok _ _ _ _ Hhy)). cbn [negb].
  rewrite aligned_ok by done. rewrite (bind_ok _ _ _ _ _ (check_inuse_ok _ _ _ _ _ _ Hg)). cbn [Z.eqb negb].
  destruct (combine_prev_ok _ _ _ _ _ _ _ Hg) as (l' & x' & s1 & E1 & Hlike1 & Ht1 & Hg1 & Hu1 & Hl1 & Hs1 & Hk1).
  rewrite (bind_ok _ _ _ _ _ E1).
  destruct (combine_next_ok _ _ _ _ _ Hg1) as (y' & py' & r' & s2 & E2 & Hlike2 & Ht2 & Hg2 & Hr2 & Hu2 & Hk2).
  rewrite (bind_ok _ _ _ _ _ E2).
  destruct (place_chunk_ok _ _ _ _ _ _ Hg2 Hr2) as (t & s3 & E3 & Hlike3 & Hok & Hu3 & Hk3).
  rewrite (bind_ok _ _ _ _ _ E3). exists l', t, s3. split; [done|]. split; [by etrans; [|etrans]|]. do 3 (split; [done|]).
  pose proof (like_bottom _ _ Hlike1) as Eb1. pose proof (like_bottom _ _ Hlike2) as Eb2.
  rewrite Eb2, Eb1 in Hu3, Hk3. rewrite Eb1 in Hk2. rewrite Hu1, Hu2 in *.
  split; [done|]. eapply keeps_trans; [exact Hk1|]. by eapply keeps_trans.
Qed.

Lemma inter_free_ok s l x pu y r :
  gap s l x pu y true r -> all_seen l ->
  exists cs s', inter_free (x + 8) s = Ok ((0, y - x), s') /\ like s s' /\ heap_ok s' cs /\
    useds (bottom s) cs = useds (bottom s) l ++ useds y r /\ keeps (useds (bottom s) l ++ useds y r) s.(mem) s'.(mem).
Proof.
  intros Hg Hl. destruct (inter_free_at _ _ _ _ _ _ Hg) as (l' & t & s' & E & Hlike & Hok & _ & Hs & Hu & Hk).
  exists (l' ++ t), s'. do 2 (split; [done|]). split; [|done]. apply heap_at_ok; [done|by apply Hs].
Qed.

(** A chunk in use is a hole waiting to happen. *)
Lemma heap_gap s l z r :
  heap_ok s (l ++ mkC z true :: r) ->
  all_seen l /\ exists pu, gap s l (bottom s + total l) pu (bottom s + total l + z) true r.
Proof.
  intros [Hb Hs (Hseg & Htop & Hseen) Hbins Hmap]. apply Forall_app in Hseen as [Hsl [_ Hsr]%Forall_cons_1]. split; [done|].
  apply seg_app in Hseg as (pw & Hl & (? & ? & Hh & _) & Hr). cbn [csz cused cseen] in *. specialize (Hh eq_refl).
  exists pw. replace (bottom s + total l + z - (bottom s + total l)) with z by lia. split; [|by replace (_ + z - _) with z by lia].
  split; try done; [by replace (_ + z - _) with z by lia|].
  rewrite frees_app, frees_cons in Hbins. exact Hbins.
Qed.

(** The blocks in use, from the outside. *)
Lemma useds_split a cs p : p ∈ useds a cs -> all_seen cs ->
  exists l r, cs = l ++ mkC p.2 true :: r /\ p.1 = a + total l /\
    useds a cs = useds a l ++ p :: useds (p.1 + p.2) r.
Proof.
  intros Hp Hs. revert a Hp; induction Hs as [|c cs Hc Hs IH]; intros a Hp; [by apply not_elem_of_nil in Hp|].
  rewrite useds_cons in Hp. apply elem_of_app in Hp as [Hp|Hp].
  - destruct (cused c) eqn:Ec; [|by apply not_elem_of_nil in Hp]. apply list_elem_of_singleton in Hp as ->.
    exists [], cs. destruct c as [z u v]. cbn [cused csz cseen fst snd] in *. subst u v.
    split; [done|]. split; [unfold total; cbn; lia|]. by rewrite useds_cons.
  - destruct (IH _ Hp) as (l & r & -> & E1 & E2). exists (c :: l), r. split; [done|]. rewrite total_cons. split; [lia|].
    change ((c :: l) ++ mkC p.2 true :: r) with (c :: (l ++ mkC p.2 true :: r)). rewrite !useds_cons, E2. by rewrite app_assoc.
Qed.
