(* ===== verification/PtAlloc.v ===== *)
(** Allocation keeps the heap: [inter_malloc] of [PtMalloc] on the invariant of
    [PtHeap], and the searches it consists of. *)
From Stdlib Require Import ZArith Lia.
From stdpp Require Import base list numbers gmap.
From S2P Require Import Prelude Mem PtMalloc PtHeap PtOps PtFree.
Import MemFacts Header Layout BinList BinUpdate.
Local Open Scope Z_scope.

(** ** Holes and blocks *)

(** The hole filled by a chunk in use. *)
Lemma gap_used s l x pu y r : gap s l x pu y true r -> all_seen l -> heap_ok s (l ++ mkC (y - x) true :: r).
Proof.
  intros [H Hx] Hsl. pose proof (hole_bounds _ _ _ _ _ _ _ H) as (_ & _ & _ & _ & _ & _ & _ & _ & Ex & _ & _).
  destruct H as [Hb Hs Hl Hxy (Hr & Htop & Hsr) Hbins Hmap]. split; try done.
  - split; [|split; [done|by apply Forall_app; split; [|constructor]]]. apply seg_app. exists pu. rewrite <-Ex. split; [done|]. cbn [seg csz cused].
    replace (x + (y - x)) with y by lia. split; [|done]. split_and!; try tauto. done.
  - rewrite frees_app, frees_cons. cbn [csz cused app]. rewrite <-Ex. by replace (x + (y - x)) with y by lia.
Qed.

(** The front of the hole becomes a chunk in use. *)
Lemma hole_shrink s l x pu y py r n :
  hole s l x pu y py r -> ld 4 s.(mem) (x + 4) = hdr n pu -> 24 <= n -> n mod 8 = 0 -> 24 <= y - (x + n) ->
  hole s (l ++ [mkC n true]) (x + n) true y py r.
Proof.
  intros H Hh Hn Hm Hrest. pose proof (hole_bounds _ _ _ _ _ _ _ H) as (_ & _ & _ & _ & _ & _ & _ & _ & Ex & _ & _).
  destruct H as [Hb Hs Hl Hxy Hr Hbins Hmap]. split; try done.
  - apply seg_snoc. exists pu. rewrite <-Ex. split; [done|]. split; [|done]. by split_and!.
  - split; [lia|zdm].
  - rewrite frees_snoc. cbn [cused]. by rewrite app_nil_r.
Qed.

(** A free chunk of the heap. *)
Lemma frees_split a cs p : p ∈ frees a cs -> all_seen cs ->
  exists l r, cs = l ++ mkC p.2 false :: r /\ p.1 = a + total l.
Proof.
  intros Hp Hs. revert a Hp; induction Hs as [|c cs Hc Hs IH]; intros a Hp; [by apply not_elem_of_nil in Hp|].
  rewrite frees_cons in Hp. apply elem_of_app in Hp as [Hp|Hp].
  - destruct (cused c) eqn:Ec; [by apply not_elem_of_nil in Hp|]. apply list_elem_of_singleton in Hp as ->.
    exists [], cs. destruct c as [z u v]. cbn [cused csz cseen fst snd] in *. subst u v. split; [done|]. unfold total; cbn; lia.
  - destruct (IH _ Hp) as (l & r & -> & E1). exists (c :: l), r. split; [done|]. rewrite total_cons. lia.
Qed.

Lemma useds_free a l z r : useds a (l ++ mkC z false :: r) = useds a l ++ useds (a + total l + z) r.
Proof. rewrite useds_app, useds_cons. done. Qed.

Section FreeChunk.
Context (s : DTCBinMalloc) (l : list chunk) (z : Z) (r : list chunk) (p : Z).
Hypothesis H : heap_ok s (l ++ mkC z false :: r).
Hypothesis Hp : p = bottom s + total l.

Lemma free_parts : seg s.(mem) (bottom s) true l p true /\ chunk_ok s.(mem) p true (mkC z false) /\
  tail s.(mem) (p + z) false r (hTop s) /\ used_next r /\ all_seen l.
Proof.
  destruct H as [_ _ (Hseg & Htop & Hseen) _ _]. apply seg_app in Hseg as (pw & Hl & Hc & Hr). rewrite <-Hp in *. cbn [csz cused] in *.
  apply Forall_app in Hseen as [Hsl [_ Hsr]%Forall_cons_1].
  pose proof Hc as (? & ? & ? & Hf). destruct (Hf eq_refl) as (_ & -> & ?). do 3 (split; [done|]). split; [|done].
  destruct r as [|c r']; [by destruct Hr|]. destruct Hr as [(_ & _ & _ & Hf') _]. cbn.
  destruct (cused c) eqn:Ec; [done|]. by destruct (Hf' eq_refl) as (_ & ? & _).
Qed.

Lemma free_bounds : 0 < bottom s /\ bottom s <= p /\ 24 <= z /\ z mod 8 = 0 /\ p + z <= hTop s /\ hTop s + 24 <= total_size s /\
  total_size s <= MAX_ALLOC_SIZE /\ sizes_ok l /\ sizes_ok r.
Proof.
  destruct free_parts as (Hl & (? & ? & _) & Hr & _). pose proof (seg_sizes _ _ _ _ _ _ Hl) as Hsl.
  destruct (tail_end _ _ _ _ _ Hr) as [Et Hsr]. pose proof (total_nonneg _ Hsl). pose proof (total_nonneg _ Hsr).
  destruct H as [[? _] [? ?] _ _ _]. cbn [csz] in *. split_and!; try done; lia.
Qed.

Lemma free_header : header s p z true.
Proof.
  destruct free_parts as (_ & (? & ? & ? & _) & _ & _), free_bounds as (? & ? & ? & ? & ? & ? & ? & _).
  cbn [cseen csz] in *. split; [split; lia|]. split; [done|]. auto.
Qed.
Lemma free_header_next : header s (p + z) (hd_size r) false.
Proof.
  destruct free_parts as (_ & _ & Hr & _), free_bounds as (? & ? & ? & ? & ? & ? & ? & _).
  destruct (tail_header _ _ _ _ _ Hr). destruct (tail_end _ _ _ _ _ Hr). split; [split; lia|done].
Qed.

Lemma free_perm : frees (bottom s) (l ++ mkC z false :: r) ≡ₚ (p, z) :: (frees (bottom s) l ++ frees (p + z) r).
Proof. rewrite frees_app, frees_cons, <-Hp. cbn [cused csz app]. by rewrite <-Permutation_middle. Qed.

Lemma free_sizes : sizes_ok (l ++ mkC z false :: r).
Proof. destruct H as [_ _ Ht _ _]. by eapply (tail_end _ _ _ _ _ Ht). Qed.

Lemma free_areas : Forall (free_area s) (frees (bottom s) (l ++ mkC z false :: r)).
Proof.
  destruct H as [[? _] [? ?] Ht _ _]. destruct (tail_end _ _ _ _ _ Ht) as [Et Hsz]. apply Forall_forall. intros q Hq.
  apply frees_bounds in Hq; [|done]. unfold free_area, handle_ok, area, MAX_ALLOC_SIZE in *.
  change (2 ^ 64) with 18446744073709551616. lia.
Qed.

(** Taken out of its bin, the chunk is a hole. The memory may have changed inside the
    chunk and in the header behind it. *)
Lemma unlink_free m py :
  same_on (bottom s + 4) (p + 24) m s.(mem) -> tail m (p + z) py r (hTop s) ->
  (forall q, q ∈ frees (p + z) r -> same_on (q.1 + 8) (q.1 + 24) m s.(mem)) ->
  exists s', unlink_bin (Bin (bin_index z)) p (set_mem m s) = Ok (0, s') /\ same_head s s' /\ hole s' l p true (p + z) py r /\
    same_on (p + 4) (p + z + 4) s'.(mem) m /\ keeps (useds (bottom s) l ++ useds (p + z) r) m s'.(mem).
Proof.
  intros Hs Ht Hfr. destruct free_parts as (Hl & (? & Hm & _) & Hr & _), free_bounds as (? & ? & ? & ? & ? & ? & ? & Hsl & Hsr).
  cbn [csz] in *. pose proof (frees_apart (bottom s) _ free_sizes) as Hap.
  destruct (unlink_hole (set_mem m s) (frees (bottom s) (l ++ mkC z false :: r)) p z l p true (p + z) py r (hk_bottom _ _ H) (hk_size _ _ H)) as (s' & E & Hsame & Hhole & Hin & Hk).
  - eapply seg_same; [exact Hl|]. eapply same_on_sub; [exact Hs|cbn; lia|lia].
  - split; [lia|zdm].
  - exact Ht.
  - eapply bins_ok_frame; [apply (hk_bins _ _ H)|]. intros q. rewrite free_perm. intros [->|[Hq|Hq]%elem_of_app]%elem_of_cons.
    + cbn [fst]. eapply same_on_sub; [exact Hs|lia|lia].
    + apply frees_bounds in Hq; [|done]. eapply same_on_sub; [exact Hs|lia|lia].
    + by apply Hfr.
  - apply (hk_map _ _ H).
  - apply free_perm.
  - exact Hap.
  - exact free_areas.
  - lia.
  - exists s'. split; [exact E|]. done.
Qed.
End FreeChunk.

(** ** Cutting a block off a free chunk *)

(** What an allocation of [n] bytes gives: a block at [p] in the place of free space,
    everything in use before untouched. *)
Definition allocated (s s' : DTCBinMalloc) (U1 U2 : list (Z * Z)) (p z : Z) : Prop :=
  like s s' /\ exists cs', heap_ok s' cs' /\ useds (bottom s) cs' = U1 ++ (p, z) :: U2 /\
    keeps (U1 ++ U2) s.(mem) s'.(mem).

(** The rest of the chunk is freed. *)
Lemma carve_rest s l p y r n m :
  hole s l p true y false r -> all_seen l -> 24 <= n -> n mod 8 = 0 -> 24 <= y - (p + n) ->
  (forall q, q < p + 4 \/ y + 4 <= q -> byte m q = byte s.(mem) q) ->
  ld 4 m (p + 4) = hdr n true -> ld 4 m (p + n + 4) = hdr (y - (p + n)) true ->
  exists s', (set_inuse_bit_at_offset (p + n) (y - (p + n));; h ← gets (ptr_to_handle (p + n)); inter_free (chunk2mem h);; mret tt)
      (set_mem m s) = Ok (tt, s') /\ allocated s s' (useds (bottom s) l) (useds y r) p n.
Proof.
  intros H Hseen Hn Hm Hrest Hout E1 E2. pose proof (hole_bounds _ _ _ _ _ _ _ H) as (Hb1 & Hb2 & Hb3 & Hb4 & Hb5 & Hb6 & Hb7 & Hb8 & Ex & Hsl & Hsr).
  destruct (hole_write _ _ _ _ _ _ _ H m) as [Ho1 Hk1]; [intros q Hq; apply Hout; lia|intros q Hq; apply Hout; lia|].
  pose proof (hole_header_y _ _ _ _ _ _ _ Ho1) as Hhy.
  rewrite (bind_ok _ _ _ _ _ (set_inuse_ok _ _ _ _ Hhy (p + n) (y - (p + n)) ltac:(lia))).
  destruct (hole_set_next _ _ _ _ _ _ _ true Ho1 (or_introl eq_refl)) as (Ho2 & Hs2 & Hk2).
  set (s2 := set_mem _ (set_mem m s)) in *. rewrite gets_bind, ptr_to_handle_ok by (cbn; lia).
  assert (Hh1 : ld 4 s2.(mem) (p + 4) = hdr n true) by (rewrite <-E1; apply ld_ext; eapply same_on_sub; [exact Hs2|lia|lia]).
  assert (Hh2 : ld 4 s2.(mem) (p + n + 4) = hdr (y - (p + n)) true)
    by (rewrite <-E2; apply ld_ext; eapply same_on_sub; [exact Hs2|lia|lia]).
  pose proof (hole_shrink _ _ _ _ _ _ _ _ Ho2 Hh1 Hn Hm Hrest) as Ho3.
  assert (Hseen' : all_seen (l ++ [mkC n true])) by (apply Forall_app; split; [done|by constructor]).
  destruct (inter_free_ok s2 _ _ _ _ _ (conj Ho3 Hh2) Hseen') as (cs & s3 & E3 & Hlike3 & Hok3 & Hu3 & Hk3).
  unfold chunk2mem, SIZE_SZ. change (2 * 4) with 8. rewrite (bind_ok _ _ _ _ _ E3). exists s3. split; [done|].
  split; [exact Hlike3|]. exists cs. rewrite (useds_snoc _ _ (mkC n true)) in *. cbn [cused csz] in *. change (bottom s2) with (bottom s) in *.
  rewrite <-Ex in *. split; [done|]. rewrite <-app_assoc in *. split; [done|].
  eapply keeps_trans; [exact Hk1|]. eapply keeps_trans; [exact Hk2|]. intros q Hq. apply Hk3. set_solver +Hq.
Qed.

Lemma lor_size n pu : n mod 8 = 0 -> Z.lor n (Z.b2z pu) = hdr n pu.
Proof. intros Hn. unfold hdr. apply lor_aligned; [done|]. destruct pu; cbn [Z.b2z]; lia. Qed.

(** The writes that split a chunk. *)
Definition carve_mem (m : memory) (p n rem : Z) : memory :=
  sto 4 (sto 4 (sto 4 (sto 4 (sto 4 m (p + 4) (hdr n true)) (p + n + 4) rem) (p + n) n) (p + n + 4) (hdr rem true)) (p + n + rem) rem.

Lemma carve_writes {A} s p z n (k : M A) :
  header s p z true -> bottom s <= p -> p + z + 4 <= total_size s -> total_size s <= MAX_ALLOC_SIZE -> 0 <= p ->
  24 <= n -> n mod 8 = 0 -> 24 <= z - n ->
  (bits ← tSize_of p; put_tSize p (Z.lor n (Z.land bits SIZE_BITS));; put_tSize (p + n) (z - n);; put_tPreSize (p + n) n;;
   set_inuse_bit_at_offset (p + n) 0;; put_tPreSize (p + n + (z - n)) (z - n);; k) s = k (set_mem (carve_mem s.(mem) p n (z - n)) s).
Proof.
  intros Hh Hb Ht HM H0 Hn Hm Hz. pose proof Hh as (_ & Hzm & _). unfold MAX_ALLOC_SIZE in *.
  rewrite (bind_ok _ _ _ _ _ (tSize_of_ok _ _ _ _ Hh)), hdr_bits, lor_size by done.
  rewrite (bind_ok _ _ _ _ _ (put_tSize_ok _ _ _ _ Hh _)).
  erewrite bind_ok by (apply (store_ok 4 (p + n + 4)); split; cbn; lia).
  erewrite bind_ok by (apply (store_ok 4 (p + n)); split; cbn; lia).
  set (s1 := set_mem _ (set_mem _ _)).
  assert (Hh1 : header s1 (p + n) (z - n) false).
  { split; [split; cbn; lia|]. split; [zdm|]. subst s1. cbn [mem set_mem]. rewrite ld_sto_other by lia.
    rewrite ld_sto_fit; [unfold hdr; cbn; lia|]. change (256 ^ Z.of_nat 4) with 4294967296. lia. }
  rewrite (bind_ok _ _ _ _ _ (set_inuse_ok _ _ _ _ Hh1 (p + n) 0 ltac:(lia))).
  erewrite bind_ok by (apply (store_ok 4 (p + n + (z - n))); split; cbn; lia). done.
Qed.

Lemma carve_mem_facts m p n rem :
  24 <= n -> 24 <= rem -> n + rem <= MAX_ALLOC_SIZE ->
  (forall q, q < p + 4 \/ p + n + rem + 4 <= q -> byte (carve_mem m p n rem) q = byte m q) /\
  ld 4 (carve_mem m p n rem) (p + 4) = hdr n true /\ ld 4 (carve_mem m p n rem) (p + n + 4) = hdr rem true.
Proof.
  intros Hn Hr HM. unfold carve_mem. split; [|split].
  - intros q Hq. by rewrite !byte_sto_out by lia.
  - rewrite !ld_sto_other by lia. apply ld_sto_fit, hdr_fits. lia.
  - rewrite ld_sto_other by lia. apply ld_sto_fit, hdr_fits. lia.
Qed.

Lemma carve_chunk_ok s l z r p n :
  heap_ok s (l ++ mkC z false :: r) -> p = bottom s + total l -> 24 <= n -> n mod 8 = 0 -> n <= z -> 24 <= get_min_chunk_size s ->
  exists s' z', carve_chunk (bin_index z) p n s = Ok (tt, s') /\ n <= z' < n + get_min_chunk_size s /\
    allocated s s' (useds (bottom s) l) (useds (p + z) r) p z'.
Proof.
  intros H Hp Hn Hm Hz Hmin. pose proof (free_header _ _ _ _ _ H Hp) as Hh.
  pose proof (free_bounds _ _ _ _ _ H Hp) as (Hb1 & Hb2 & Hz24 & Hzm & Hb4 & Hb5 & Hb6 & Hsl & Hsr).
  destruct (free_parts _ _ _ _ _ H Hp) as (_ & _ & Hr & _ & Hseen).
  unfold carve_chunk. rewrite (bind_ok _ _ _ _ _ (CHUNK_SIZE_ok _ _ _ _ Hh)), gets_bind, ptr_to_handle_ok by lia.
  destruct (unlink_free _ _ _ _ _ H Hp s.(mem) false) as (s1 & E1 & (Hlike1 & Ht1 & _) & Ho1 & Hs1 & Hk1); [done|exact Hr|done|].
  replace (set_mem (mem s) s) with s in E1 by by destruct s. rewrite (bind_ok _ _ _ _ _ E1).
  pose proof (bin_index_range z ltac:(lia)) as Hi.
  destruct (hole_clear s1 _ _ _ _ _ _ (bin_index z) Ho1 ltac:(unfold NBINS; lia)) as (s2 & E2 & Hlike2 & Ht2 & Em2 & Ho2).
  rewrite (bind_ok _ _ _ _ _ E2), gets_bind. assert (Hlike : like s s2) by by etrans.
  rewrite (like_min _ _ Hlike). pose proof (like_bottom _ _ Hlike) as Eb. pose proof (like_size _ _ Hlike) as Es.
  rewrite <-Em2 in Hs1, Hk1.
  assert (Hh2 : header s2 p z true).
  { destruct Hh as ([? ?] & ? & Hh). split; [split; rewrite ?Eb, ?Es; lia|]. split; [done|]. rewrite <-Hh.
    apply ld_ext. eapply same_on_sub; [exact Hs1|lia|lia]. }
  assert (u32 (z - n) = z - n) as -> by (apply wrap_small; unfold is_u, MAX_ALLOC_SIZE in *; change (2 ^ 32) with 4294967296; lia).
  destruct (Z.ltb_spec (z - n) (get_min_chunk_size s)) as [Hlt|Hge].
  - rewrite (bind_ok _ _ _ _ _ (CHUNK_SIZE_ok _ _ _ _ Hh2)). pose proof (hole_header_y _ _ _ _ _ _ _ Ho2) as Hhy.
    rewrite (set_inuse_ok _ _ _ _ Hhy p z eq_refl).
    destruct (hole_set_next _ _ _ _ _ _ _ true Ho2 (or_introl eq_refl)) as (Ho3 & Hs3 & Hk3).
    set (s3 := set_mem _ s2) in *. exists s3, z. split; [done|]. split; [lia|]. split; [exact Hlike|].
    assert (Hg : gap s3 l p true (p + z) true r).
    { split; [done|]. replace (p + z - p) with z by lia. rewrite <-(proj2 (proj2 Hh2)). apply ld_ext. eapply same_on_sub; [exact Hs3|lia|lia]. }
    pose proof (gap_used _ _ _ _ _ _ Hg Hseen) as Hok. replace (p + z - p) with z in Hok by lia.
    exists (l ++ mkC z true :: r). split; [done|]. rewrite useds_app, useds_cons, <-Hp. split; [done|].
    eapply keeps_trans; [exact Hk1|]. rewrite Eb in Hk3. exact Hk3.
  - rewrite carve_writes; [|done|lia..]. destruct (carve_mem_facts s2.(mem) p n (z - n)) as (Hout & Hc1 & Hc2); [lia..|].
    replace (z - n) with (p + z - (p + n)) by lia.
    destruct (carve_rest s2 l p (p + z) r n (carve_mem s2.(mem) p n (z - n)) Ho2 Hseen) as (s3 & E3 & Ha); try done; [lia| | |].
    + intros q Hq. apply Hout. lia.
    + by replace (p + z - (p + n)) with (z - n) by lia.
    + replace (z - n) with (p + z - (p + n)) in E3 by lia. exists s3, n. split; [exact E3|]. split; [lia|].
      destruct Ha as (Hlike3 & cs' & Hok & Hu & Hk3). split; [by etrans|]. exists cs'. rewrite Eb in *. split; [done|]. split; [done|].
      by eapply keeps_trans.
Qed.

(** ** Taking a chunk of exactly the right size *)

(** The in-use bit behind a free chunk is set before the chunk leaves its bin. *)
Lemma bin_malloc_ok s l z r p b hs :
  heap_ok s (l ++ mkC z false :: r) -> p = bottom s + total l ->
  s.(m_ptBin) !! Z.to_nat (bin_index z) = Some b -> bin_list s.(mem) b (p :: hs) ->
  exists s', bin_malloc (Bin (bin_index z)) s = Ok (p, s') /\ like s s' /\ hTop s' = hTop s /\ bitmap s' = bitmap s /\
    gap s' l p true (p + z) true r /\ keeps (useds (bottom s) l ++ useds (p + z) r) s.(mem) s'.(mem).
Proof.
  intros H Hp Hb (Hnext & _ & _). pose proof (free_header _ _ _ _ _ H Hp) as Hh. pose proof (free_header_next _ _ _ _ _ H Hp) as Hhn.
  pose proof (free_bounds _ _ _ _ _ H Hp) as (Hb1 & Hb2 & Hz24 & Hzm & Hb4 & Hb5 & Hb6 & Hsl & Hsr).
  destruct (free_parts _ _ _ _ _ H Hp) as (Hl & _ & Hr & _). destruct (tail_end _ _ _ _ _ Hr) as [Et _]. pose proof (total_nonneg _ Hsr).
  pose proof (bin_index_range z ltac:(lia)) as Hi. cbn [hd] in Hnext.
  unfold bin_malloc. erewrite bind_ok by (apply get_bin_ok; [lia|exact Hb]). rewrite Hnext. unfold INVALID_HANDLE.
  rewrite (proj2 (Z.eqb_neq _ _)) by lia. cbv zeta. rewrite (bind_ok _ _ _ _ _ (tSize_of_ok _ _ _ _ Hh)), REAL_SIZE_hdr by done.
  rewrite (bind_ok _ _ _ _ _ (set_inuse_ok _ _ _ _ Hhn p z eq_refl)).
  set (m := sto 4 s.(mem) (p + z + 4) (hdr (hd_size r) true)).
  assert (Hout : forall q, q < p + z + 4 \/ p + z + 8 <= q -> byte m q = byte s.(mem) q) by (intros q Hq; apply byte_sto_out; lia).
  destruct (unlink_free _ _ _ _ _ H Hp m true) as (s1 & E1 & (Hlike1 & Ht1 & Hbm1) & Ho1 & Hs1 & Hk1).
  - intros q Hq. apply Hout. lia.
  - apply (tail_set _ _ false); [exact Hr|lia|lia|by left].
  - intros q Hq x Hx. apply Hout. apply frees_bounds in Hq; [lia|done].
  - rewrite (bind_ok _ _ _ _ _ E1). exists s1. split; [done|]. split; [exact Hlike1|]. split; [exact Ht1|]. split; [exact Hbm1|]. split.
    + split; [done|]. replace (p + z - p) with z by lia. destruct Hh as (_ & _ & <-).
      transitivity (ld 4 m (p + 4)); apply ld_ext; [eapply same_on_sub; [exact Hs1|lia|lia]|intros q Hq; apply Hout; lia].
    + eapply keeps_trans; [|exact Hk1]. intros q Hq x Hx. apply Hout.
      apply elem_of_app in Hq as [Hq|Hq]; apply useds_bounds in Hq; try done; lia.
Qed.

(** The chunks of a bin, seen from the heap. *)
Lemma bin_chunks s cs i b :
  heap_ok s cs -> 0 <= i -> s.(m_ptBin) !! Z.to_nat i = Some b ->
  exists hs, bin_list s.(mem) b hs /\ Forall handle_ok hs /\ forall h, h ∈ hs ->
    exists l z r, cs = l ++ mkC z false :: r /\ h = bottom s + total l /\ bin_index z = i.
Proof.
  intros H Hi Hb. destruct (hk_bins _ _ H) as [_ Hbins]. assert (Hsc : all_seen cs) by (destruct (hk_tail _ _ H) as (_ & _ & ?); done). destruct (Hbins _ _ Hb) as (hs & Hlist & E).
  rewrite Z2Nat.id in E by lia. exists hs. split; [done|].
  assert (Hall : forall h, h ∈ hs -> exists l z r, cs = l ++ mkC z false :: r /\ h = bottom s + total l /\ bin_index z = i).
  { intros h Hh. rewrite E in Hh. apply in_bin_elem in Hh as (z & Hz & Ez). apply frees_split in Hz as (l & r & -> & Ep); [|done].
    cbn [fst snd] in *. by exists l, z, r. }
  split; [|done]. apply Forall_forall. intros h Hh. destruct (Hall h Hh) as (l & z & r & -> & Ep & _).
  destruct (free_bounds _ _ _ _ _ H Ep) as (? & ? & ? & ? & ? & ? & ? & _). unfold handle_ok, MAX_ALLOC_SIZE in *.
  change (2 ^ 64) with 18446744073709551616. lia.
Qed.

Lemma allocated_gap s s' l p y r :
  like s s' -> gap s' l p true y true r -> all_seen l -> p = bottom s + total l ->
  keeps (useds (bottom s) l ++ useds y r) s.(mem) s'.(mem) -> allocated s s' (useds (bottom s) l) (useds y r) p (y - p).
Proof.
  intros Hlike Hg Hseen Hp Hk. split; [done|]. eexists. split; [by eapply gap_used|]. rewrite useds_app, useds_cons. cbn [cused csz app].
  rewrite <-Hp. by replace (p + (y - p)) with y by lia.
Qed.

Lemma hole_to_heap s s' cs : heap_ok s cs -> same_but_bitmap s s' -> bitmap_ok s'.(m_ptBin) (bitmap s') -> heap_ok s' cs.
Proof.
  intros [] (Hlike & Et & Em & Ebins) Hbm. pose proof (like_bottom _ _ Hlike) as Eb. pose proof (like_size _ _ Hlike) as Es.
  split; rewrite ?Eb, ?Es, ?Et, ?Em, ?Ebins; try done. by rewrite <-Ebins.
Qed.

(** What an allocation of [n] bytes may do: nothing but to the bitmap, or a block of at
    least [n] bytes. *)
Definition alloc_result (s s' : DTCBinMalloc) (cs : list chunk) (n p : Z) : Prop :=
  exists U1 U2 z, useds (bottom s) cs = U1 ++ U2 /\ n <= z < n + get_min_chunk_size s /\ allocated s s' U1 U2 p z /\ 0 < p.

Definition not_allocated (s s' : DTCBinMalloc) (cs : list chunk) : Prop := same_but_bitmap s s' /\ heap_ok s' cs.

Lemma small_bin_malloc_ok s cs n :
  heap_ok s cs -> 24 <= n -> n mod 8 = 0 -> in_smallbin_range n = true -> 24 <= get_min_chunk_size s ->
  (exists p s', small_bin_malloc n s = Ok (p, s') /\ alloc_result s s' cs n p) \/
  (exists s', small_bin_malloc n s = Ok (0, s') /\ not_allocated s s' cs).
Proof.
  intros H Hn Hm Hsm Hmin. unfold small_bin_malloc. set (i := smallbin_index n).
  assert (Hi : 0 <= i < 64).
  { unfold i, smallbin_index, in_smallbin_range, MIN_LARGE_SIZE in *. apply Z.ltb_lt in Hsm. rewrite Z.shiftr_div_pow2 by lia.
    change (2 ^ 3) with 8. zdm. }
  assert (Hlen : length s.(m_ptBin) = Z.to_nat NBINS) by apply (hk_bins _ _ H).
  destruct (bins_ok_lookup _ _ _ i (hk_bins _ _ H) ltac:(unfold NBINS; lia)) as (b & Hb).
  destruct (bin_chunks s cs i b H ltac:(lia) Hb) as (hs & Hlist & Hpos & Hch). destruct hs as [|p hs].
  - right. assert (E : bin_malloc (Bin i) s = Ok (0, s)).
    { unfold bin_malloc. erewrite bind_ok by (apply get_bin_ok; [lia|exact Hb]). destruct Hlist as (-> & _). done. }
    rewrite (bind_ok _ _ _ _ _ E). destruct (clear_if_empty_ok s i ltac:(unfold NBINS; lia) Hlen (hk_map _ _ H)) as (s1 & E1 & Hsame & Hbm).
    rewrite (bind_ok _ _ _ _ _ E1). exists s1. split; [done|]. split; [done|]. by eapply hole_to_heap.
  - left. destruct (Hch p ltac:(by left)) as (l & z & r & -> & Hp & Ez).
    pose proof (free_bounds _ _ _ _ _ H Hp) as (Hb1 & Hb2 & Hz24 & Hzm & Hb4 & Hb5 & Hb6 & Hsl & Hsr).
    assert (z = n) as -> by (eapply smallbin_size; [done|done|lia|done|lia|done]). rewrite <-Ez in *.
    destruct (bin_malloc_ok _ _ _ _ _ _ _ H Hp Hb Hlist) as (s1 & E1 & Hlike1 & Ht1 & Hbm1 & [Ho1 Hx1] & Hk1).
    rewrite (bind_ok _ _ _ _ _ E1).
    destruct (hole_clear _ _ _ _ _ _ _ (bin_index n) Ho1 ltac:(unfold NBINS; lia)) as (s2 & E2 & Hlike2 & Ht2 & Em2 & Ho2).
    rewrite (bind_ok _ _ _ _ _ E2). exists p, s2. split; [done|]. eexists _, _, _. split; [by rewrite useds_free, <-Hp|].
    split; [|split; [apply (allocated_gap s s2 l p (p + n) r)|lia]].
    + lia.
    + by etrans.
    + split; [done|]. by rewrite Em2.
    + by destruct (free_parts _ _ _ _ _ H Hp) as (_ & _ & _ & _ & ?).
    + done.
    + by rewrite Em2.
Qed.

(** ** Searching the bins *)

Lemma free_link s l z r p : heap_ok s (l ++ mkC z false :: r) -> p = bottom s + total l -> link_ok s p.
Proof.
  intros H Hp. destruct (free_bounds _ _ _ _ _ H Hp) as (? & ? & ? & ? & ? & ? & ? & _). unfold MAX_ALLOC_SIZE in *.
  unfold link_ok, handle_ok. change (2 ^ 64) with 18446744073709551616. split; [lia|]. split; lia.
Qed.

Definition free_in (s : DTCBinMalloc) (cs : list chunk) (i h : Z) : Prop :=
  exists l z r, cs = l ++ mkC z false :: r /\ h = bottom s + total l /\ bin_index z = i.

Lemma first_fit_ok s cs i n tries pre hs :
  heap_ok s cs -> Forall handle_ok hs -> (forall h, h ∈ hs -> free_in s cs i h) -> chain s.(mem) pre hs 0 ->
  first_fit tries (hd 0 hs) n s = Ok (None, s) \/
  exists v l z r, first_fit tries (hd 0 hs) n s = Ok (Some v, s) /\ cs = l ++ mkC z false :: r /\ v = bottom s + total l /\
    bin_index z = i /\ n <= z.
Proof.
  intros H. revert pre hs; induction tries as [|tries IH]; intros pre hs Hpos Hfree Hc; [by left|].
  cbn [first_fit]. destruct hs as [|h hs]; [by left|]. apply Forall_cons_1 in Hpos as [Hh Hpos]. destruct Hc as (_ & Hn & Hc).
  cbn [hd]. unfold INVALID_HANDLE. rewrite (proj2 (Z.eqb_neq _ _)) by (unfold handle_ok in Hh; lia).
  destruct (Hfree h ltac:(by left)) as (l & z & r & E & Ep & Ez). pose proof H as H0. rewrite E in H0.
  rewrite (bind_ok _ _ _ _ _ (CHUNK_SIZE_ok _ _ _ _ (free_header _ _ _ _ _ H0 Ep))).
  destruct (Z.leb_spec n z).
  - right. exists h, l, z, r. done.
  - rewrite (bind_ok _ _ _ _ _ (hNext_ok s h (free_link _ _ _ _ _ H0 Ep))), Hn.
    apply (IH h hs); [done| |done]. intros q Hq. apply Hfree. by right.
Qed.

Definition slot_empty (s : DTCBinMalloc) (k : Z) : Prop :=
  exists b, s.(m_ptBin) !! Z.to_nat k = Some b /\ b.(m_hNextChunk) = 0.
Definition slot_filled (s : DTCBinMalloc) (k : Z) : Prop :=
  exists b, s.(m_ptBin) !! Z.to_nat k = Some b /\ b.(m_hNextChunk) <> 0.

Section Search.
Context (s : DTCBinMalloc).
Hypothesis Hlen : length s.(m_ptBin) = Z.to_nat NBINS.
Hypothesis Hmap : bitmap_ok s.(m_ptBin) (bitmap s).

Lemma bin_cases k : 0 <= k < NBINS -> slot_empty s k \/ slot_filled s k.
Proof.
  intros Hk. assert (Hlt : (Z.to_nat k < length s.(m_ptBin))%nat) by (rewrite Hlen; lia).
  apply lookup_lt_is_Some in Hlt as [b Hb]. destruct (decide (m_hNextChunk b = 0)); [left|right]; by exists b.
Qed.

(** A zero word of the bitmap: its 32 bins are empty. *)
Lemma zero_word w k : bitmap_word s w = 0 -> 32 * w <= k < 32 * w + 32 -> 0 <= k < NBINS -> slot_empty s k.
Proof.
  intros Hw Hk Hb. destruct (bin_cases k Hb) as [?|(b & Hl & Hne)]; [done|].
  destruct Hmap as [_ Hm]. specialize (Hm _ _ Hl Hne). destruct (nat_bit k Hb) as (Ed & Em & _).
  assert (Ew : w = k / 32) by zdm. rewrite Ew, bitmap_word_nth in Hw by done. rewrite Hw, Z.bits_0 in Hm. done.
Qed.

Lemma skip_words_ok n w : 0 <= w -> exists j, skip_words n w (32 * w) s = Ok (j, s) /\ 32 * w <= j /\
  forall k, 32 * w <= k < j -> k < NBINS -> slot_empty s k.
Proof.
  revert w; induction n as [|n IH]; intros w Hw; cbn [skip_words].
  { exists (32 * w). split; [done|]. split; [lia|]. lia. }
  rewrite gets_bind. destruct (_ && _) eqn:E.
  - apply andb_true_iff in E as [_ E%Z.eqb_eq]. replace (32 * w + 32) with (32 * (w + 1)) by lia.
    destruct (IH (w + 1) ltac:(lia)) as (j & Ej & Hj & Hall). exists j. split; [done|]. split; [lia|]. intros k Hk Hb.
    destruct (Z.ltb_spec k (32 * w + 32)); [apply (zero_word w k E); lia|apply Hall; lia].
  - exists (32 * w). split; [done|]. split; [lia|]. lia.
Qed.

Lemma skip_bins_ok n j : 0 <= j -> NBINS - j <= Z.of_nat n -> exists j', skip_bins n j s = Ok (j', s) /\ j <= j' /\
  (forall k, j <= k < j' -> k < NBINS -> slot_empty s k) /\ (j' < NBINS -> slot_filled s j').
Proof.
  revert j; induction n as [|n IH]; intros j Hj Hn; cbn [skip_bins].
  { exists j. split_and!; try done; lia. }
  destruct (Z.ltb_spec j NBINS).
  - destruct (bin_cases j ltac:(lia)) as [(b & Hl & E)|(b & Hl & E)]; erewrite bind_ok by (by apply get_bin_ok).
    + rewrite E. cbn [Z.eqb INVALID_HANDLE]. destruct (IH (j + 1) ltac:(lia) ltac:(lia)) as (j' & Ej & Hj' & Hall & Hf).
      exists j'. split; [done|]. split; [lia|]. split; [|done]. intros k Hk Hb.
      destruct (decide (k = j)) as [->|]; [by exists b|apply Hall; lia].
    + unfold INVALID_HANDLE. rewrite (proj2 (Z.eqb_neq _ _)) by done. exists j. split; [done|]. split; [lia|]. split; [lia|].
      intros _. by exists b.
  - exists j. split_and!; try done; lia.
Qed.

(** The next bin in use, or none. *)
Lemma search_next_bin_ok i : 0 <= i < NBINS -> exists j, search_next_bin i s = Ok (j, s) /\ i < j /\
  (forall k, i < k < j -> k < NBINS -> slot_empty s k) /\ (j < NBINS -> slot_filled s j).
Proof.
  intros Hi. unfold search_next_bin. rewrite gets_bind.
  destruct (Z.eqb_spec (bitmap_word s ((i + 1) / 32)) 0) as [E|E].
  - assert (H0 : 0 <= (i + 1) / 32) by (apply Z.div_pos; lia).
    destruct (skip_words_ok 16 ((i + 1) / 32 + 1) ltac:(lia)) as (j & Ej & Hj & Hall).
    replace (32 * ((i + 1) / 32 + 1)) with (((i + 1) / 32 + 1) * 32) in Ej by lia. rewrite (bind_ok _ _ _ _ _ Ej).
    destruct (skip_bins_ok (Z.to_nat NBINS) j ltac:(lia) ltac:(lia)) as (j' & Ej' & Hj' & Hall' & Hf).
    exists j'. split; [done|]. split; [zdm|]. split; [|done]. intros k Hk Hb.
    destruct (Z.ltb_spec k (32 * ((i + 1) / 32 + 1))); [apply (zero_word _ k E); [zdm|lia]|].
    destruct (Z.ltb_spec k j); [apply Hall; lia|apply Hall'; lia].
  - rewrite (bind_ok _ _ _ _ _ (ret_ok _ _)).
    destruct (skip_bins_ok (Z.to_nat NBINS) (i + 1) ltac:(lia) ltac:(lia)) as (j' & Ej' & Hj' & Hall' & Hf).
    exists j'. split; [done|]. split; [lia|]. split; [|done]. intros k Hk Hb. apply Hall'; lia.
Qed.
End Search.

(** An empty bin has no chunks. *)
Lemma bin_empty_none s cs k p : heap_ok s cs -> slot_empty s k -> p ∈ frees (bottom s) cs -> 0 <= k -> bin_index p.2 <> k.
Proof.
  intros H (b & Hl & E) Hp Hk Ek. destruct (hk_bins _ _ H) as [_ Hbins]. destruct (Hbins _ _ Hl) as (hs & (Hn & _) & P).
  rewrite Z2Nat.id in P by lia. assert (Hin : p.1 ∈ hs) by (rewrite P; apply in_bin_elem; exists p.2; by destruct p).
  destruct hs as [|q hs]; [by apply not_elem_of_nil in Hin|]. cbn in Hn.
  assert (Hq : q ∈ in_bin k (frees (bottom s) cs)) by (rewrite <-P; by left).
  apply in_bin_elem in Hq as (zq & Hq & _). destruct H as [[? _] _ Ht _ _].
  apply frees_bounds in Hq; [cbn in Hq; lia|]. by eapply (tail_end _ _ _ _ _ Ht).
Qed.

(** ** [inter_malloc] *)

Lemma top_alloc_ok s cs n :
  heap_ok s cs -> 24 <= n <= MAX_ALLOC_SIZE -> n mod 8 = 0 ->
  if total_size s <=? hTop s + n + 24 then top_alloc n s = Ok (0, s)
  else exists s', top_alloc n s = Ok (hTop s + 8, s') /\ allocated s s' (useds (bottom s) cs) [] (hTop s) n.
Proof.
  intros [[Hb Hba] [Hs HM] Ht Hbins Hmap] Hn Hm. destruct (tail_end _ _ _ _ _ Ht) as [Et Hsz]. pose proof (total_nonneg _ Hsz).
  unfold top_alloc. rewrite gets_bind. change MINSIZE with 24.
  assert (u64 (hTop s + n + 24) = hTop s + n + 24) as ->
    by (apply wrap_small; unfold is_u, MAX_ALLOC_SIZE in *; change (2 ^ 64) with 18446744073709551616; lia).
  destruct (Z.leb_spec (total_size s) (hTop s + n + 24)); [done|].
  assert (Hh : header s (hTop s) 0 true) by (split; [split; lia|split; [done|apply Ht]]).
  rewrite (bind_ok _ _ _ _ _ (tSize_of_ok _ _ _ _ Hh)), Z.lor_comm, hdr_resize by done.
  rewrite (bind_ok _ _ _ _ _ (put_tSize_ok _ _ _ _ Hh _)).
  erewrite bind_ok by (apply (store_ok 4 (hTop s + n)); split; cbn; lia).
  erewrite bind_ok by (apply (store_ok 4 (hTop s + n + 4)); split; cbn; lia). cbv zeta. rewrite modify_bind.
  set (m := sto 4 (sto 4 (sto 4 s.(mem) (hTop s + 4) (hdr n true)) (hTop s + n) (REAL_SIZE n)) (hTop s + n + 4) PREV_INUSE).
  set (s' := set_top _ _). assert (Em : s'.(mem) = m) by done.
  assert (Etop : hTop s' = hTop s + n) by (change (hTop s') with (u64 (hTop s + n)); apply u64_ok; lia).
  exists s'. split; [done|]. split; [done|]. exists (cs ++ [mkC n true]).
  assert (Hout : forall q, q < hTop s + 4 -> byte m q = byte s.(mem) q) by (intros q Hq; unfold m; rewrite !byte_sto_out by lia; done).
  split; [|split; [rewrite useds_snoc; cbn [cused csz]; by rewrite <-Et|]].
  - change (bottom s) with (bottom s') in *. change (total_size s) with (total_size s') in *.
    split; rewrite ?Etop, ?Em; try done; [lia| | ].
    + destruct Ht as (Hseg & Htop & Hseen). split; [|split; [|by apply Forall_app; split; [|constructor]]].
      * apply seg_snoc. exists true. rewrite <-Et. split; [eapply seg_same; [exact Hseg|]; intros q Hq; apply Hout; lia|].
        split; [|done]. split; [cbn; lia|]. split; [done|]. split; [intros _|done]. cbn [csz]. unfold m. rewrite !ld_sto_other by lia.
        apply ld_sto_fit, hdr_fits. lia.
      * unfold m. by rewrite ld_sto_fit.
    + rewrite frees_snoc. cbn [cused]. rewrite app_nil_r. eapply bins_ok_frame; [exact Hbins|]. intros q Hq x Hx. apply Hout.
      apply frees_bounds in Hq; [lia|done].
  - intros q Hq x Hx. rewrite Em. apply Hout. rewrite app_nil_r in Hq. apply useds_bounds in Hq; [lia|done].
Qed.

(** When nothing is handed out: the top is too far up and the later bins are empty. *)
Definition exhausted (s : DTCBinMalloc) (cs : list chunk) (n : Z) : Prop :=
  total_size s <= hTop s + n + 24 /\ forall p, p ∈ frees (bottom s) cs -> bin_index p.2 <= bin_index n.

Lemma ptr_mem_ok s s' cs n p : alloc_result s s' cs n p -> heap_ok s cs -> 24 <= n -> ptr_to_handle (chunk2mem p) s' = p + 8.
Proof.
  intros (U1 & U2 & z & Hu & Hz & (Hlike & cs' & Hok & Hu' & _) & Hp) H Hn. unfold chunk2mem, SIZE_SZ. change (2 * 4) with 8.
  apply ptr_to_handle_ok. destruct Hok as [_ [Hs' _] Ht' _ _]. destruct (tail_end _ _ _ _ _ Ht') as [Et Hsz].
  assert (Hin : (p, z) ∈ useds (bottom s') cs') by (rewrite (like_bottom _ _ Hlike), Hu'; apply elem_of_app; right; by left).
  apply useds_bounds in Hin; [|done]. cbn [fst snd] in Hin. lia.
Qed.

Lemma carve_result s cs l z r p n :
  heap_ok s cs -> cs = l ++ mkC z false :: r -> p = bottom s + total l -> 24 <= n -> n mod 8 = 0 -> n <= z ->
  24 <= get_min_chunk_size s ->
  exists s', (carve_chunk (bin_index z) p n;; gets (ptr_to_handle (chunk2mem p))) s = Ok (p + 8, s') /\ alloc_result s s' cs n p.
Proof.
  intros H -> Hp Hn Hm Hz Hmin. destruct (carve_chunk_ok _ _ _ _ _ _ H Hp Hn Hm Hz Hmin) as (s' & z' & E & Hz' & Ha).
  assert (Hr : alloc_result s s' (l ++ mkC z false :: r) n p).
  { eexists _, _, z'. split; [by rewrite useds_free, <-Hp|]. split; [done|]. split; [done|].
    destruct (free_bounds _ _ _ _ _ H Hp). lia. }
  exists s'. rewrite (bind_ok _ _ _ _ _ E). unfold gets. by rewrite (ptr_mem_ok _ _ _ _ _ Hr H Hn).
Qed.

Lemma ptr_null s : ptr_to_handle 0 s = 0.
Proof. unfold ptr_to_handle, INVALID_HANDLE. by destruct (_ || _). Qed.

Lemma malloc_next_bin_ok fuel s cs n :
  (0 < fuel)%nat -> heap_ok s cs -> 24 <= n <= MAX_ALLOC_SIZE -> n mod 8 = 0 -> 24 <= get_min_chunk_size s ->
  (exists p s', malloc_next_bin fuel (bin_index n) n s = Ok (p + 8, s') /\ alloc_result s s' cs n p) \/
  (malloc_next_bin fuel (bin_index n) n s = Ok (0, s) /\ exhausted s cs n).
Proof.
  intros Hfuel H Hn Hm Hmin. pose proof (bin_index_range n ltac:(lia)) as Hi. unfold malloc_next_bin.
  destruct (search_next_bin_ok s (proj1 (hk_bins _ _ H)) (hk_map _ _ H) (bin_index n) ltac:(unfold NBINS; lia))
    as (j & E & Hj & Hempty & Hfilled). rewrite (bind_ok _ _ _ _ _ E).
  destruct (Z.leb_spec NBINS j) as [Hge|Hlt].
  - pose proof (top_alloc_ok s cs n H Hn Hm) as Htop. destruct (Z.leb_spec (total_size s) (hTop s + n + 24)) as [Hfull|Hroom].
    + right. rewrite (bind_ok _ _ _ _ _ Htop). split; [unfold gets; by rewrite ptr_null|]. split; [done|]. intros p Hp.
      destruct (Z.leb_spec (bin_index p.2) (bin_index n)) as [?|Hgt]; [done|exfalso].
      assert (Hsz : sizes_ok cs) by (destruct H as [_ _ Ht _ _]; by eapply (tail_end _ _ _ _ _ Ht)).
      pose proof (frees_bounds _ _ _ Hsz Hp) as Hb. pose proof (bin_index_range p.2 ltac:(lia)). unfold NBINS in *.
      eapply (bin_empty_none s cs (bin_index p.2) p); [done|apply Hempty; lia|done|lia|done].
    + destruct Htop as (s' & Et & Ha). left. exists (hTop s), s'. rewrite (bind_ok _ _ _ _ _ Et).
      assert (Hr : alloc_result s s' cs n (hTop s)).
      { exists (useds (bottom s) cs), [], n. rewrite app_nil_r. split; [done|]. split; [lia|]. split; [done|].
        destruct H as [[? _] _ Ht _ _]. destruct (tail_end _ _ _ _ _ Ht) as [? Hsz]. pose proof (total_nonneg _ Hsz). lia. }
      split; [|done]. unfold gets. pose proof (ptr_mem_ok _ _ _ _ _ Hr H ltac:(lia)) as Ep. unfold chunk2mem, SIZE_SZ in Ep.
      change (2 * 4) with 8 in Ep. by rewrite Ep.
  - left. destruct (Hfilled Hlt) as (b & Hb & Hne). erewrite bind_ok by (apply get_bin_ok; [lia|exact Hb]).
    destruct (bin_chunks s cs j b H ltac:(lia) Hb) as (hs & (Hnext & Hpre & _) & Hpos & Hch).
    assert (hs <> []) as Hnil by (intros ->; by rewrite Hnext in Hne).
    destruct (Hch (lastd 0 hs) (lastd_elem 0 hs Hnil)) as (l & z & r & Ecs & Ep & Ez).
    assert (Hz : n <= z).
    { destruct (Z.leb_spec n z); [done|]. assert (Hz0 : 0 <= z) by (rewrite Ecs in H; destruct (free_bounds _ _ _ _ _ H Ep); lia).
      pose proof (bin_index_mono z n ltac:(lia)). lia. }
    pose proof H as H0. rewrite Ecs in H0.
    destruct fuel as [|fuel]; [lia|]. assert (El : last_fit (S fuel) (lastd 0 hs) n s = Ok (lastd 0 hs, s)).
    { cbn [last_fit]. rewrite (link_ok_nonzero s) by (by eapply free_link).
      rewrite (bind_ok _ _ _ _ _ (hPre_ok s _ (free_link _ _ _ _ _ H0 Ep))).
      rewrite (bind_ok _ _ _ _ _ (CHUNK_SIZE_ok _ _ _ _ (free_header _ _ _ _ _ H0 Ep))). by rewrite (proj2 (Z.ltb_ge _ _)) by lia. }
    rewrite Hpre, (bind_ok _ _ _ _ _ El). exists (lastd 0 hs). rewrite <-Ez. eapply carve_result; try done; lia.
Qed.

Lemma request2size_ok t : 0 <= t -> REQUEST_OUT_OF_RANGE t = false ->
  24 <= request2size t <= MAX_ALLOC_SIZE /\ request2size t mod 8 = 0 /\ t + 4 <= request2size t /\
  (request2size t <= t + 11 \/ request2size t = 24).
Proof.
  intros Ht Hr. unfold REQUEST_OUT_OF_RANGE in Hr. apply Z.leb_gt in Hr. change (u32 (-2 * MINSIZE)) with 4294967248 in Hr.
  unfold request2size, SIZE_SZ, MALLOC_ALIGN_MASK, MAX_ALLOC_SIZE. change MINSIZE with 24. rewrite ldiff7.
  destruct (Z.ltb_spec (t + 4 + 7) 24); [split_and!; (done || lia)|]. unfold u32. rewrite wrap_small; [|unfold is_u; change (2 ^ 32) with 4294967296; zdm].
  split_and!; zdm.
Qed.

Lemma alloc_result_like s s1 s' cs n p :
  like s s1 -> s1.(mem) = s.(mem) -> alloc_result s1 s' cs n p -> alloc_result s s' cs n p.
Proof.
  intros Hl Em (U1 & U2 & z & Hu & Hz & (Hlike & cs' & Hok & Hu' & Hk) & Hp).
  rewrite (like_bottom _ _ Hl) in *. rewrite (like_min _ _ Hl) in Hz. rewrite Em in Hk.
  exists U1, U2, z. split; [done|]. split; [done|]. split; [|done]. split; [by etrans|]. by exists cs'.
Qed.

Lemma inter_malloc_ok fuel s cs t :
  (0 < fuel)%nat -> heap_ok s cs -> 0 <= t -> 24 <= get_min_chunk_size s ->
  let n := request2size t in
  (exists p s', inter_malloc fuel t s = Ok (p + 8, s') /\ alloc_result s s' cs n p /\ REQUEST_OUT_OF_RANGE t = false) \/
  (exists s', inter_malloc fuel t s = Ok (0, s') /\ not_allocated s s' cs /\ (REQUEST_OUT_OF_RANGE t = true \/ exhausted s cs n)).
Proof.
  intros Hfuel H Ht Hmin n. unfold inter_malloc. destruct (REQUEST_OUT_OF_RANGE t) eqn:Er.
  { right. exists s. split; [done|]. split; [split; [done|done]|by left]. }
  destruct (request2size_ok t Ht Er) as (Hn & Hm & _). fold n in Hn, Hm. cbv zeta. fold n.
  assert (Hself : not_allocated s s cs) by (split; done).
  destruct (in_smallbin_range n) eqn:Esm.
  - destruct (small_bin_malloc_ok s cs n H ltac:(lia) Hm Esm Hmin) as [(p & s1 & E1 & Hr1)|(s1 & E1 & Hna)].
    + left. exists p, s1. rewrite (bind_ok _ _ _ _ _ E1). assert (0 < p) by (destruct Hr1 as (? & ? & ? & ? & ? & ? & ?); done).
      rewrite (proj2 (Z.eqb_neq _ _)) by lia. cbn [negb]. split; [|done].
      unfold gets. by rewrite (ptr_mem_ok _ _ _ _ _ Hr1 H ltac:(lia)).
    + rewrite (bind_ok _ _ _ _ _ E1). cbn [Z.eqb negb]. destruct Hna as [(Hlike & Et & Em & Eb) Hok].
      destruct (malloc_next_bin_ok fuel s1 cs n Hfuel Hok Hn Hm ltac:(by rewrite (like_min _ _ Hlike))) as [(p & s2 & E2 & Hr2)|[E2 Hex]].
      * left. exists p, s2. split; [done|]. split; [|done]. by eapply alloc_result_like.
      * right. exists s1. split; [done|]. split; [done|]. right. destruct Hex as [Hf Hall].
        rewrite (like_bottom _ _ Hlike), ?(like_size _ _ Hlike), ?Et in *. done.
  - rewrite (bind_ok _ _ _ _ _ (ret_ok _ _)). cbn [Z.eqb negb].
    pose proof (bin_index_range n ltac:(lia)) as Hi.
    destruct (bins_ok_lookup _ _ _ (bin_index n) (hk_bins _ _ H) ltac:(unfold NBINS; lia)) as (b & Hb).
    destruct (bin_chunks s cs (bin_index n) b H ltac:(lia) Hb) as (hs & (Hnext & _ & Hc) & Hpos & Hch).
    erewrite bind_ok by (apply get_bin_ok; [lia|exact Hb]). rewrite Hnext.
    destruct (first_fit_ok s cs (bin_index n) n 99 0 hs H Hpos Hch Hc) as [E|(v & l & z & r & E & Ecs & Ep & Ez & Hz)];
      rewrite (bind_ok _ _ _ _ _ E).
    + destruct (malloc_next_bin_ok fuel s cs n Hfuel H Hn Hm Hmin) as [(p & s2 & E2 & Hr2)|[E2 Hex]].
      * left. by exists p, s2.
      * right. exists s. split; [done|]. split; [done|]. by right.
    + left. rewrite <-Ez. destruct (carve_result s cs l z r v n H Ecs Ep ltac:(lia) Hm Hz Hmin) as (s' & E' & Hr).
      exists v, s'. split; [done|]. done.
Qed.
