(* ===== verification/PtRealloc.v ===== *)
(** Reallocation keeps the heap: [inter_re_alloc] of [PtMalloc] on the invariant of
    [PtHeap], and the bytes of the block go with it. *)
From Stdlib Require Import ZArith Lia.
From stdpp Require Import base list numbers gmap.
From S2P Require Import Prelude Mem PtMalloc PtHeap PtOps PtFree PtAlloc.
Import MemFacts Header Layout BinList BinUpdate.
Local Open Scope Z_scope.

(** ** Writing into a block *)

Lemma write_block s cs p z m' U1 U2 :
  heap_ok s cs -> (p, z) ∈ useds (bottom s) cs -> useds (bottom s) cs ≡ₚ (p, z) :: U1 ++ U2 ->
  (forall x, x < p + 8 \/ p + z + 4 <= x -> byte m' x = byte s.(mem) x) ->
  heap_ok (set_mem m' s) cs /\ keeps (U1 ++ U2) s.(mem) m'.
Proof.
  intros H Hp P Hout. destruct (hk_tail _ _ H) as (_ & _ & Hsc).
  destruct (useds_split _ _ _ Hp Hsc) as (l & r & -> & Ep & Eu). cbn [fst snd] in *.
  destruct (heap_gap _ _ _ _ H) as (Hsl & pu & Hg). rewrite <-Ep in Hg. pose proof Hg as [Ho Hx].
  destruct (hole_bounds _ _ _ _ _ _ _ Ho) as (? & ? & ? & ? & ? & ? & ? & ? & _).
  destruct (hole_write _ _ _ _ _ _ _ Ho m') as [Ho' Hk]; [intros q Hq; apply Hout; lia|intros q Hq; apply Hout; lia|].
  rewrite Eu, <-Permutation_middle in P. apply Permutation_cons_inv in P.
  split; [|intros q Hq; apply Hk; by rewrite P].
  replace z with (p + z - p) by lia. apply (gap_used _ _ _ pu _ _); [|done]. split; [done|]. rewrite <-Hx.
  apply ld_ext. intros q Hq. apply Hout. lia.
Qed.

(** ** The end of a reallocation *)

(** What is written back in front of the chunk is what is there. *)
Definition pre_ok (l : list chunk) (x : Z) (m : memory) (v : Z) : Prop := l = [] \/ ld 4 m x = v.

Lemma byte_sto_same n m a x : byte (sto n m a (ld n m a)) x = byte m x.
Proof.
  revert a; induction n as [|n IH]; intros a; [done|]. cbn [sto ld]. rewrite byte_insert. pose proof (byte_range m a).
  destruct (Z.eqb_spec a x) as [->|].
  - unfold u8, wrap. change (2 ^ 8) with 256. rewrite Z.mod_mod by lia. zdm.
  - replace ((byte m a + 256 * ld n m (a + 1)) / 256) with (ld n m (a + 1)) by zdm. apply IH.
Qed.

Lemma pre_ok_kept m m' bot l x pu v :
  seg m bot true l x pu -> seg m' bot true l x pu -> keeps (useds bot l) m m' -> pre_ok l x m v -> pre_ok l x m' v.
Proof.
  intros H H' Hk [->|Hv]; [by left|]. destruct l as [|c l _] using rev_ind; [by left|right]. rewrite <-Hv.
  apply seg_snoc in H as (pw & _ & (? & _ & _ & Hf) & E & _), H' as (pw' & _ & (_ & _ & _ & Hf') & _).
  rewrite E. destruct (cused c) eqn:Ec.
  - apply ld_ext. specialize (Hk (bot + total l, csz c)). rewrite useds_snoc, Ec in Hk.
    eapply same_on_sub; [apply Hk; set_solver|cbn; lia|cbn; lia].
  - destruct (Hf eq_refl) as (_ & _ & ->), (Hf' eq_refl) as (_ & _ & ->). done.
Qed.

Definition finish_header (x n : Z) (pu : bool) (v : Z) : M Z :=
  put_tSize x (u32 (REAL_SIZE n));;
  (if pu then sz ← tSize_of x; put_tSize x (Z.lor sz PREV_INUSE) else mret tt);;
  put_tPreSize x v;;
  gets (ptr_to_handle (chunk2mem x)).

Lemma finish_header_ok s l x pu y t v :
  hole s l x pu y true t -> all_seen l -> pre_ok l x s.(mem) v ->
  exists s', finish_header x (y - x) pu v s = Ok (x + 8, s') /\ like s s' /\ heap_ok s' (l ++ mkC (y - x) true :: t) /\
    keeps (useds (bottom s) l ++ (x, y - x) :: useds y t) s.(mem) s'.(mem).
Proof.
  intros H Hsl Hv. destruct (hole_bounds _ _ _ _ _ _ _ H) as (Hb1 & Hb2 & Hb3 & Hb4 & Hb5 & Hb6 & Hb7 & Hb8 & Ex & Hzl & Hzt).
  destruct (ho_xy _ _ _ _ _ _ _ H) as [_ Hm].
  assert (Hfit : forall b, 0 <= hdr (y - x) b < 256 ^ Z.of_nat 4) by (intros b; apply hdr_fits; lia).
  set (m1 := sto 4 s.(mem) (x + 4) (hdr (y - x) false)).
  set (m2 := if pu then sto 4 m1 (x + 4) (hdr (y - x) true) else m1).
  set (m3 := sto 4 m2 x v).
  assert (E : finish_header x (y - x) pu v s = Ok (x + 8, set_mem m3 s)).
  { unfold finish_header. rewrite REAL_SIZE_aligned by done.
    assert (u32 (y - x) = hdr (y - x) false) as ->.
    { unfold hdr; cbn [Z.b2z]. rewrite Z.add_0_r. apply wrap_small. unfold is_u, MAX_ALLOC_SIZE in *. change (2 ^ 32) with 4294967296. lia. }
    erewrite bind_ok by (apply (store_ok 4 (x + 4)); split; cbn; lia).
    rewrite (bind_ok _ _ _ tt (set_mem m2 s)).
    - erewrite bind_ok by (apply (store_ok 4 x); split; cbn; lia). unfold gets, chunk2mem, SIZE_SZ. change (2 * 4) with 8.
      rewrite ptr_to_handle_ok by (cbn; lia). done.
    - subst m2. destruct pu; [|done].
      assert (Hh : header (set_mem m1 s) x (y - x) false) by (split; [split; cbn; lia|split; [done|by apply ld_sto_fit]]).
      rewrite (bind_ok _ _ _ _ _ (tSize_of_ok _ _ _ _ Hh)), hdr_set by done. apply (put_tSize_ok _ _ _ _ Hh). }
  assert (Hout2 : forall q, q < x + 4 \/ x + 8 <= q -> byte m2 q = byte s.(mem) q).
  { intros q Hq. subst m2 m1. destruct pu; rewrite !byte_sto_out by lia; done. }
  assert (Hout : forall q, q < x \/ x + 8 <= q -> byte m3 q = byte s.(mem) q).
  { intros q Hq. subst m3. rewrite byte_sto_out by lia. apply Hout2. lia. }
  assert (Hpre : l <> [] -> forall q, q < x + 4 -> byte m3 q = byte s.(mem) q).
  { intros Hl q Hq. destruct Hv as [?|<-]; [done|]. subst m3.
    rewrite <-(ld_ext 4 m2 s.(mem)) by (intros k Hk; apply Hout2; lia). rewrite byte_sto_same. apply Hout2. lia. }
  destruct (hole_write _ _ _ _ _ _ _ H m3) as [Ho Hk].
  { intros q Hq. destruct l as [|c l]; [unfold total in Ex; cbn in Ex; lia|]. apply Hpre; [done|lia]. }
  { intros q Hq. apply Hout. lia. }
  assert (Hg : gap (set_mem m3 s) l x pu y true t).
  { split; [done|]. cbn [mem set_mem]. subst m3. rewrite ld_sto_other by lia. subst m2 m1. destruct pu; by rewrite ld_sto_fit. }
  exists (set_mem m3 s). split; [exact E|]. split; [done|]. split; [by eapply gap_used|].
  intros q [Hq|[->|Hq]%elem_of_cons]%elem_of_app; [apply Hk; set_solver +Hq| |apply Hk; set_solver +Hq].
  intros k Hk'. apply Hout. cbn in Hk'. lia.
Qed.

(** ** The room past the new size *)

(** The front of the hole is given up to a chunk in use whose header is not written yet. *)
Lemma hole_keep s l x pu y py r n :
  hole s l x pu y py r -> 24 <= n -> n mod 8 = 0 -> 24 <= y - (x + n) ->
  hole s (l ++ [mkChunk n true false]) (x + n) true y py r.
Proof.
  intros H Hn Hm Hrest. pose proof (hole_bounds _ _ _ _ _ _ _ H) as (_ & _ & _ & _ & _ & _ & _ & _ & Ex & _ & _).
  destruct H as [Hb Hs Hl Hxy Hr Hbins Hmap]. split; try done.
  - apply seg_snoc. exists pu. rewrite <-Ex. split; [done|]. split; [|done]. by split_and!.
  - split; [lia|zdm].
  - rewrite frees_snoc. cbn [cused]. by rewrite app_nil_r.
Qed.

Lemma seg_state m m' a l b b' pu pv pv' : seg m a pu l b pv -> seg m' a pu l b' pv' -> pv = pv'.
Proof.
  destruct l as [|c l _] using rev_ind; [by intros [_ <-] [_ <-]|].
  by intros (_ & _ & _ & _ & ->)%seg_snoc (_ & _ & _ & _ & ->)%seg_snoc.
Qed.

(** And got back when the rest is freed. *)
Lemma keep_hole s m l x pu n t :
  heap_at s (l ++ [mkChunk n true false]) t -> seg m (bottom s) true l x pu -> hole s l x pu (x + n) true t.
Proof.
  intros [Hb Hs (pw & Hl & Ht) Hbins Hmap] Hm. pose proof (seg_end _ _ _ _ _ _ Hm) as Ex.
  apply seg_snoc in Hl as (pv & Hl & (? & ? & _) & E & ->). cbn [csz cused] in *.
  rewrite <-Ex in *. rewrite (seg_state _ _ _ _ _ _ _ _ _ Hm Hl). rewrite total_app, total_cons in *. change (total []) with 0 in *.
  cbn [csz] in *. split; try done; [split; [lia|zdm]| |].
  - by replace (x + n) with (bottom s + (total l + (n + 0))) by lia.
  - rewrite <-app_assoc, frees_app in Hbins. cbn [app] in Hbins. rewrite frees_cons in Hbins. cbn [cused csz app] in Hbins. by rewrite <-Ex in Hbins.
Qed.

Lemma keeps_front U V x n m m' :
  keeps (U ++ V) m m' -> same_on (x + 8) (x + n + 4) m' m -> keeps (U ++ (x, n) :: V) m m'.
Proof. intros Hk Hs q [Hq|[->|Hq]%elem_of_cons]%elem_of_app; [apply Hk; set_solver +Hq|exact Hs|apply Hk; set_solver +Hq]. Qed.

(** The rest of the hole gets the header and the footer of a chunk in use. *)
Lemma remainder_head s l x pu y py r n :
  hole s l x pu y py r -> 24 <= n -> n mod 8 = 0 -> 24 <= y - (x + n) ->
  let rem := y - (x + n) in
  exists m', (forall A (k : M A), (put_tSize (x + n) (Z.lor rem PREV_INUSE);; put_tPreSize y rem;;
      sz ← tSize_of y; put_tSize y (Z.lor sz PREV_INUSE);; set_inuse_bit_at_offset (x + n) rem;; k) s = k (set_mem m' s)) /\
    gap (set_mem m' s) (l ++ [mkChunk n true false]) (x + n) true y true r /\
    keeps (useds (bottom s) l ++ (x, n) :: useds y r) s.(mem) m'.
Proof.
  intros H Hn Hm Hrest rem. destruct (hole_bounds _ _ _ _ _ _ _ H) as (Hb1 & Hb2 & Hb3 & Hb4 & Hb5 & Hb6 & Hb7 & Hb8 & Ex & Hzl & Hzr).
  destruct (ho_xy _ _ _ _ _ _ _ H) as [_ Hxm]. assert (Hrm : rem mod 8 = 0) by (subst rem; zdm).
  assert (Hfit : 0 <= hdr rem true < 256 ^ Z.of_nat 4) by (apply hdr_fits; subst rem; lia).
  rewrite lor_aligned by (done || (unfold PREV_INUSE; lia)). change (rem + PREV_INUSE) with (hdr rem true).
  set (m1 := sto 4 (sto 4 s.(mem) (x + n + 4) (hdr rem true)) y rem).
  assert (Hout : forall q, q < x + n + 4 \/ y + 4 <= q -> byte m1 q = byte s.(mem) q).
  { intros q Hq. subst m1. rewrite !byte_sto_out by (subst rem; lia). done. }
  destruct (hole_write _ _ _ _ _ _ _ H m1) as [Ho1 Hk1]; [intros q Hq; apply Hout; lia|intros q Hq; apply Hout; lia|].
  pose proof (hole_header_y _ _ _ _ _ _ _ Ho1) as Hhy.
  destruct (hole_set_next _ _ _ _ _ _ _ true Ho1 (or_introl eq_refl)) as (Ho2 & Hs2 & Hk2). set (s2 := set_mem _ (set_mem m1 s)) in *.
  pose proof (hole_header_y _ _ _ _ _ _ _ Ho2) as Hhy2.
  destruct (hole_set_next _ _ _ _ _ _ _ true Ho2 (or_introl eq_refl)) as (Ho3 & Hs3 & Hk3).
  exists (sto 4 s2.(mem) (y + 4) (hdr (hd_size r) true)). split; [|split].
  - intros A k. erewrite bind_ok by (apply (store_ok 4 (x + n + 4)); split; cbn; subst rem; lia).
    erewrite bind_ok by (apply (store_ok 4 y); split; cbn; subst rem; lia).
    match goal with |- _ ?st = _ => change st with (set_mem m1 s) end.
    rewrite (bind_ok _ _ _ _ _ (tSize_of_ok _ _ _ _ Hhy)), hdr_set by apply Hhy.
    rewrite (bind_ok _ _ _ _ _ (put_tSize_ok _ _ _ _ Hhy _)).
    by rewrite (bind_ok _ _ _ _ _ (set_inuse_ok _ _ _ _ Hhy2 (x + n) rem ltac:(subst rem; lia))).
  - split; [by apply (hole_keep _ _ _ pu)|]. transitivity (ld 4 m1 (x + n + 4)).
    + apply ld_ext. eapply same_on_trans; [eapply same_on_sub; [exact Hs3|lia|lia]|eapply same_on_sub; [exact Hs2|lia|lia]].
    + subst m1. rewrite ld_sto_other by (subst rem; lia). by apply ld_sto_fit.
  - apply keeps_front; [eapply keeps_trans; [exact Hk1|]; by eapply keeps_trans|]. intros q Hq. rewrite Hs3, Hs2 by lia. apply Hout. lia.
Qed.

Lemma free_remainder_ok fuel s l x pu y py r n :
  hole s l x pu y py r -> 24 <= n -> n mod 8 = 0 -> 24 <= y - (x + n) ->
  exists t s', free_remainder (S fuel) (x + n) (y - (x + n)) s = Ok (tt, s') /\ like s s' /\ hole s' l x pu (x + n) true t /\
    useds (x + n) t = useds y r /\ keeps (useds (bottom s) l ++ (x, n) :: useds y r) s.(mem) s'.(mem).
Proof.
  intros H Hn Hm Hrest. destruct (hole_bounds _ _ _ _ _ _ _ H) as (Hb1 & Hb2 & Hb3 & Hb4 & Hb5 & Hb6 & Hb7 & Hb8 & Ex & Hzl & Hzr).
  destruct (ho_xy _ _ _ _ _ _ _ H) as [_ Hxm]. destruct (remainder_head _ _ _ _ _ _ _ _ H Hn Hm Hrest) as (m' & E & Hg & Hk).
  cbn [free_remainder]. rewrite (proj2 (Z.ltb_ge MAX_ALLOC_SIZE _)) by lia.
  assert (u32 (y - (x + n)) = y - (x + n)) as -> by (apply wrap_small; unfold is_u, MAX_ALLOC_SIZE in *; change (2 ^ 32) with 4294967296; lia).
  rewrite REAL_SIZE_aligned by zdm. replace (x + n + (y - (x + n))) with y by lia. rewrite E.
  unfold chunk2mem, SIZE_SZ. change (2 * 4) with 8. rewrite gets_bind, ptr_to_handle_ok by (cbn; lia).
  destruct (inter_free_at _ _ _ _ _ _ Hg) as (l' & t & s4 & E4 & Hlike & Hat & Hl' & _ & Hu & Hk4).
  rewrite (Hl' eq_refl) in *. clear l' Hl'. rewrite (bind_ok _ _ _ _ _ E4).
  rewrite Z.sub_diag. exists t, s4. split; [done|]. split; [exact Hlike|].
  pose proof (like_bottom _ _ Hlike) as Eb. change (bottom (set_mem m' s)) with (bottom s) in *.
  split; [eapply keep_hole; [exact Hat|]; rewrite Eb; apply (ho_l _ _ _ _ _ _ _ H)|].
  rewrite useds_app, total_app, !useds_snoc in Hu. rewrite useds_snoc in Hk4. cbn [cused csz] in *.
  rewrite total_cons in Hu. change (total []) with 0 in Hu. cbn [csz] in Hu.
  rewrite <-Ex in *. replace (bottom s + (total l + (n + 0))) with (x + n) in Hu by lia. rewrite <-!app_assoc in *. cbn [app] in *.
  apply app_inv_head in Hu. injection Hu as Hu. split; [done|]. by eapply keeps_trans.
Qed.

(** ** Cutting the chunk to size *)

Lemma realloc_finish_ok fuel s l x pu y py r n v :
  hole s l x pu y py r -> all_seen l -> pre_ok l x s.(mem) v -> 24 <= n -> n mod 8 = 0 -> n <= y - x -> 24 <= get_min_chunk_size s ->
  exists s' cs' z, realloc_finish (S fuel) x (y - x) n pu v s = Ok (x + 8, s') /\ like s s' /\ heap_ok s' cs' /\
    useds (bottom s) cs' = useds (bottom s) l ++ (x, z) :: useds y r /\ n <= z < n + get_min_chunk_size s /\
    keeps (useds (bottom s) l ++ (x, n) :: useds y r) s.(mem) s'.(mem).
Proof.
  intros H Hsl Hv Hn Hm Hle Hmin. destruct (hole_bounds _ _ _ _ _ _ _ H) as (Hb1 & Hb2 & Hb3 & Hb4 & Hb5 & Hb6 & Hb7 & Hb8 & Ex & Hzl & Hzr).
  destruct (ho_xy _ _ _ _ _ _ _ H) as [_ Hxm].
  unfold realloc_finish. rewrite (proj2 (Z.ltb_ge _ _)) by lia. cbv zeta. rewrite gets_bind.
  destruct (Z.leb_spec (get_min_chunk_size s) (y - x - n)) as [Hge|Hlt].
  - destruct (free_remainder_ok fuel _ _ _ _ _ _ _ _ H Hn Hm ltac:(lia)) as (t & s1 & E1 & Hlike1 & Ho1 & Hu1 & Hk1).
    replace (y - x - n) with (y - (x + n)) by lia.
    erewrite bind_ok by (rewrite (bind_ok _ _ _ _ _ E1); reflexivity).
    pose proof (like_bottom _ _ Hlike1) as Eb.
    destruct (finish_header_ok s1 l x pu (x + n) t v Ho1 Hsl) as (s2 & E2 & Hlike2 & Hok & Hk2).
    { eapply pre_ok_kept; [apply (ho_l _ _ _ _ _ _ _ H)|rewrite <-Eb; apply (ho_l _ _ _ _ _ _ _ Ho1)| |exact Hv].
      intros q Hq. apply Hk1. set_solver +Hq. }
    replace (x + n - x) with n in * by lia. eexists s2, _, n. split; [exact E2|]. split; [by etrans|]. split; [exact Hok|].
    rewrite useds_app, useds_cons, <-Ex. cbn [cused csz app]. rewrite Hu1. split; [done|]. split; [lia|].
    eapply keeps_trans; [exact Hk1|]. by rewrite Eb, Hu1 in Hk2.
  - pose proof (hole_header_y _ _ _ _ _ _ _ H) as Hhy. rewrite REAL_SIZE_aligned by done. replace (x + (y - x)) with y by lia.
    destruct (hole_set_next _ _ _ _ _ _ _ true H (or_introl eq_refl)) as (Ho1 & Hs1 & Hk1). set (s1 := set_mem _ s) in *.
    rewrite (bind_ok _ _ _ (y - x) s1).
    2:{ rewrite (bind_ok _ _ _ _ _ (tSize_of_ok _ _ _ _ Hhy)), hdr_set by apply Hhy. by rewrite (bind_ok _ _ _ _ _ (put_tSize_ok _ _ _ _ Hhy _)). }
    destruct (finish_header_ok s1 l x pu y r v Ho1 Hsl) as (s2 & E2 & Hlike2 & Hok & Hk2).
    { eapply pre_ok_kept; [apply (ho_l _ _ _ _ _ _ _ H)|apply (ho_l _ _ _ _ _ _ _ Ho1)| |exact Hv].
      intros q Hq. apply Hk1. set_solver +Hq. }
    eexists s2, _, (y - x). split; [exact E2|]. split; [exact Hlike2|]. split; [exact Hok|].
    rewrite useds_app, useds_cons, <-Ex. cbn [cused csz app]. replace (x + (y - x)) with y by lia. split; [done|]. split; [lia|].
    apply keeps_front; [eapply keeps_trans; [exact Hk1|]; intros q Hq; apply Hk2; set_solver +Hq|].
    eapply same_on_trans; [eapply same_on_sub; [apply (Hk2 (x, y - x)); set_solver|cbn; lia|cbn; lia]|eapply same_on_sub; [exact Hs1|lia|lia]].
Qed.

(** ** The result of a reallocation *)

(** The block [(p, z)] has become [(q, z')]: the other blocks are there as before, and
    the bytes that fit are the same. *)
Definition re_allocated (s s' : DTCBinMalloc) (cs : list chunk) (p z n q z' : Z) : Prop :=
  like s s' /\ n <= z' /\ exists U cs', useds (bottom s) cs ≡ₚ (p, z) :: U /\ heap_ok s' cs' /\
    useds (bottom s) cs' ≡ₚ (q, z') :: U /\ keeps U s.(mem) s'.(mem) /\
    forall i, 0 <= i < Z.min z n - 4 -> byte s'.(mem) (q + 8 + i) = byte s.(mem) (p + 8 + i).

Lemma useds_middle a l z r : useds a (l ++ mkC z true :: r) ≡ₚ (a + total l, z) :: useds a l ++ useds (a + total l + z) r.
Proof. rewrite useds_app, useds_cons. cbn [cused csz app]. by rewrite <-Permutation_middle. Qed.

(** A state in between, where the bytes of the block are at [q] already. *)
Lemma re_allocated_finish s s1 s' l p z r l' y r' n q z' cs' :
  like s s1 -> like s1 s' -> n <= z' -> z <= n -> p = bottom s + total l -> heap_ok s' cs' ->
  useds (bottom s) l' ++ useds y r' = useds (bottom s) l ++ useds (p + z) r ->
  useds (bottom s) cs' = useds (bottom s) l' ++ (q, z') :: useds y r' ->
  keeps (useds (bottom s) l ++ useds (p + z) r) s.(mem) s1.(mem) ->
  (forall i, 0 <= i < z - 4 -> byte s1.(mem) (q + 8 + i) = byte s.(mem) (p + 8 + i)) ->
  keeps (useds (bottom s) l' ++ (q, n) :: useds y r') s1.(mem) s'.(mem) ->
  re_allocated s s' (l ++ mkC z true :: r) p z n q z'.
Proof.
  intros H1 H2 Hn Hzn -> Hok Hu Hcs Hk1 Hb Hk2. split; [by etrans|]. split; [done|].
  exists (useds (bottom s) l ++ useds (bottom s + total l + z) r), cs'. split; [apply useds_middle|]. split; [done|].
  split; [rewrite Hcs, <-Permutation_middle; by rewrite Hu|]. split.
  - eapply keeps_trans; [exact Hk1|]. rewrite <-Hu. intros x Hx. apply Hk2. set_solver +Hx.
  - intros i Hi. rewrite <-Hb by lia. apply (Hk2 (q, n)); [set_solver|cbn; lia].
Qed.

Section Grow.
Context (s : DTCBinMalloc) (l : list chunk) (p z : Z) (r : list chunk) (pu : bool).
Hypothesis Hg : gap s l p pu (p + z) true r.

Lemma grow_bounds : 0 < bottom s /\ bottom s <= p /\ 24 <= z /\ z mod 8 = 0 /\ p + z <= hTop s /\ hTop s + 24 <= total_size s /\
  total_size s <= MAX_ALLOC_SIZE /\ hTop s = p + z + total r /\ 0 <= total r /\ p = bottom s + total l /\ sizes_ok l /\ sizes_ok r.
Proof.
  destruct Hg as [H _]. destruct (hole_bounds _ _ _ _ _ _ _ H) as (? & ? & ? & ? & ? & ? & ? & ? & ? & ? & ?).
  destruct (ho_xy _ _ _ _ _ _ _ H) as [_ Hm']. replace (p + z - p) with z in Hm' by lia. split_and!; try done; lia.
Qed.

Lemma grow_header : header s p z pu.
Proof. pose proof (gap_header_x _ _ _ _ _ _ _ Hg) as H. by replace (p + z - p) with z in H by lia. Qed.

End Grow.

(** At the top there is room above. *)
Lemma grow_top s l p z pu n :
  gap s l p pu (p + z) true [] -> all_seen l -> 24 <= n -> n mod 8 = 0 -> z < n -> hTop s + (n - z) + 24 < total_size s ->
  exists s', (bits ← tSize_of p; put_tSize p (Z.lor (REAL_SIZE n) (Z.land bits SIZE_BITS));;
      put_tPreSize (hTop s + (n - z)) (REAL_SIZE n);; put_tSize (hTop s + (n - z)) PREV_INUSE;;
      modify (set_top (u64 (hTop s + (n - z))));; gets (ptr_to_handle (chunk2mem p))) s = Ok (p + 8, s') /\
    re_allocated s s' (l ++ mkC z true :: []) p z n p n.
Proof.
  intros Hg Hseen Hn Hm Hz Hroom. destruct (grow_bounds _ _ _ _ _ _ Hg) as (Hb1 & Hb2 & Hz24 & Hzm & Hb4 & Hb5 & Hb6 & Hb7 & _ & Ep & Hsl & _).
  change (total []) with 0 in Hb7. assert (z + 8 <= n) by zdm. pose proof (grow_header _ _ _ _ _ _ Hg) as Hh. replace (hTop s + (n - z)) with (p + n) by lia.
  rewrite (bind_ok _ _ _ _ _ (tSize_of_ok _ _ _ _ Hh)), hdr_resize by done.
  rewrite (bind_ok _ _ _ _ _ (put_tSize_ok _ _ _ _ Hh _)).
  erewrite bind_ok by (apply (store_ok 4 (p + n)); split; cbn; lia).
  erewrite bind_ok by (apply (store_ok 4 (p + n + 4)); split; cbn; lia). rewrite modify_bind, u64_ok by lia.
  set (m := sto 4 (sto 4 (sto 4 s.(mem) (p + 4) (hdr n pu)) (p + n) (REAL_SIZE n)) (p + n + 4) PREV_INUSE).
  set (s' := set_top _ _). assert (Em : s'.(mem) = m) by done. assert (Et : hTop s' = p + n) by done.
  exists s'. unfold gets, chunk2mem, SIZE_SZ. change (2 * 4) with 8. rewrite ptr_to_handle_ok by (cbn; lia). split; [done|].
  assert (Hout : forall q, q < p + 4 \/ p + 8 <= q < p + z + 4 -> byte m q = byte s.(mem) q)
    by (intros q Hq; unfold m; rewrite !byte_sto_out by lia; done).
  pose proof Hg as [[Hbot Hsz Hl Hxy Hr Hbins Hmap] _].
  apply (re_allocated_finish s s' s' l p z [] l (p + z) [] n p n (l ++ [mkC n true])); try done.
  - lia.
  - change (bottom s) with (bottom s') in *. change (total_size s) with (total_size s') in *.
    split; rewrite ?Et, ?Em; try done; [lia| |].
    + split; [|split; [unfold m; by rewrite ld_sto_fit|by apply Forall_app; split; [|constructor]]].
      apply seg_snoc. exists pu. rewrite <-Ep. split; [eapply seg_same; [exact Hl|]; intros q Hq; apply Hout; lia|].
      split; [|done]. split; [cbn; lia|]. split; [done|]. split; [intros _|done]. cbn [csz]. unfold m. rewrite !ld_sto_other by lia.
      apply ld_sto_fit, hdr_fits. lia.
    + rewrite frees_snoc. cbn [cused]. eapply bins_ok_frame; [exact Hbins|]. intros q Hq x Hx. apply Hout.
      rewrite app_nil_r in Hq. apply frees_bounds in Hq; [lia|done].
  - rewrite useds_snoc, <-Ep. done.
  - intros q Hq x Hx. rewrite Em. apply Hout. rewrite app_nil_r in Hq. apply useds_bounds in Hq; [lia|done].
  - intros i Hi. rewrite Em. apply Hout. lia.
Qed.

(** The free chunk behind is large enough. *)
Lemma grow_next fuel s l p z pu n c r v :
  gap s l p pu (p + z) true (c :: r) -> all_seen l -> 24 <= n -> n mod 8 = 0 -> z <= n -> 24 <= get_min_chunk_size s ->
  cused c = false -> n <= z + csz c -> pre_ok l p s.(mem) v ->
  exists s' z', (h ← gets (ptr_to_handle (p + z)); unlink_bin (Bin (bin_index (csz c))) h;;
      realloc_finish (S fuel) p (z + csz c) n pu v) s = Ok (p + 8, s') /\
    re_allocated s s' (l ++ mkC z true :: c :: r) p z n p z'.
Proof.
  intros Hg Hseen Hn Hm Hz Hmin Hc Hle Hv. destruct (grow_bounds _ _ _ _ _ _ Hg) as (Hb1 & Hb2 & Hz24 & Hzm & Hb4 & Hb5 & Hb6 & Hb7 & Hb8 & Ep & Hsl & [[H24 _] Hsr]%Forall_cons_1).
  rewrite total_cons in *. pose proof (total_nonneg _ Hsr).
  rewrite gets_bind, ptr_to_handle_ok by lia. pose proof Hg as [Hho _].
  destruct (unlink_next s l p pu (p + z) c r (or_introl Hho) Hc) as (s1 & E1 & (Hlike1 & _) & Ho1 & Hin1 & Hk1 & _).
  rewrite (bind_ok _ _ _ _ _ E1). pose proof (like_bottom _ _ Hlike1) as Eb.
  replace (z + csz c) with (p + z + csz c - p) in * by lia.
  destruct (realloc_finish_ok fuel s1 l p pu _ _ _ n v Ho1 Hseen) as (s' & cs' & z' & E & Hlike & Hok & Hu & Hz' & Hk); try done.
  { eapply pre_ok_kept; [apply (ho_l _ _ _ _ _ _ _ Hho)|rewrite <-Eb; apply (ho_l _ _ _ _ _ _ _ Ho1)| |exact Hv].
    intros q Hq. apply Hk1. set_solver +Hq. }
  { by rewrite (like_min _ _ Hlike1). }
  exists s', z'. split; [exact E|]. rewrite Eb in *.
  apply (re_allocated_finish s s1 s' l p z _ l (p + z + csz c) r n p z' cs'); try done.
  - lia.
  - rewrite useds_cons, Hc. done.
  - rewrite useds_cons, Hc. exact Hk1.
  - intros i Hi. apply Hin1. lia.
Qed.

(** The free chunk in front is large enough; the bytes move. *)
Lemma grow_prev fuel s l c p z r n v :
  gap s (l ++ [c]) p false (p + z) true r -> all_seen l -> 24 <= n -> n mod 8 = 0 -> z <= n -> 24 <= get_min_chunk_size s ->
  cused c = false -> n <= z + csz c -> v = ld 4 s.(mem) (p - csz c) ->
  exists s' z', (unlink_bin (Bin (bin_index (csz c))) (p - csz c);;
      memmove (chunk2mem (p - csz c)) (chunk2mem p) (chunksize2memsize z);;
      realloc_finish (S fuel) (p - csz c) (z + csz c) n true v) s = Ok (p - csz c + 8, s') /\
    re_allocated s s' ((l ++ [c]) ++ mkC z true :: r) p z n (p - csz c) z'.
Proof.
  intros Hg Hseen Hn Hm Hz Hmin Hc Hle Hv.
  destruct (grow_bounds _ _ _ _ _ _ Hg) as (Hb1 & Hb2 & Hz24 & Hzm & Hb4 & Hb5 & Hb6 & Hb7 & Hb8 & Ep & Hsl & Hsr).
  pose proof Hg as [Hho _]. apply Forall_app in Hsl as [Hsl [[Hc24 Hcm] _]%Forall_cons_1].
  rewrite total_app, total_cons in Ep. change (total []) with 0 in Ep. pose proof (total_nonneg _ Hsl).
  destruct (unlink_prev s l c p (p + z) true r Hho Hc) as (s1 & E1 & (Hlike1 & _) & Ho1 & Hh1 & Hin1 & Hk1).
  rewrite (bind_ok _ _ _ _ _ E1). pose proof (like_bottom _ _ Hlike1) as Eb. pose proof (like_size _ _ Hlike1) as Es.
  unfold chunk2mem, SIZE_SZ. change (2 * 4) with 8. assert (chunksize2memsize z = z - 4) as ->.
  { apply wrap_small. unfold is_u, SIZE_SZ, MAX_ALLOC_SIZE in *. change (2 ^ 32) with 4294967296. lia. }
  set (x := p - csz c) in *. set (m := mem_move s1.(mem) (x + 8) (p + 8) (Z.to_nat (z - 4))).
  assert (E2 : memmove (x + 8) (p + 8) (z - 4) s1 = Ok (tt, set_mem m s1)).
  { unfold memmove, in_area. rewrite Eb, Es, !(proj2 (Z.leb_le _ _)) by lia. done. }
  rewrite (bind_ok _ _ _ _ _ E2).
  assert (Hout : forall q, q < x + 8 \/ x + 8 + (z - 4) <= q -> byte m q = byte s1.(mem) q) by (intros q Hq; apply byte_move_out; lia).
  destruct (hole_write _ _ _ _ _ _ _ Ho1 m) as [Ho2 Hk2]; [intros q Hq; apply Hout; lia|intros q Hq; apply Hout; lia|].
  replace (z + csz c) with (p + z - x) in * by lia.
  destruct (realloc_finish_ok fuel _ _ _ _ _ _ _ n v Ho2 Hseen) as (s' & cs' & z' & E & Hlike & Hok & Hu & Hz' & Hk); try done.
  { pose proof (ho_l _ _ _ _ _ _ _ Hho) as Hl. apply seg_snoc in Hl as (pw & Hl & (_ & _ & _ & Hf) & _). destruct (Hf Hc) as (_ & -> & _).
    replace (bottom s + total l) with x in Hl by lia.
    eapply pre_ok_kept; [exact Hl|rewrite <-Eb; apply (ho_l _ _ _ _ _ _ _ Ho2)| |by right].
    intros q Hq. eapply same_on_trans; [apply Hk2|apply Hk1]; rewrite ?Eb; apply elem_of_app; by left. }
  { change (get_min_chunk_size (set_mem m s1)) with (get_min_chunk_size s1). by rewrite (like_min _ _ Hlike1). }
  exists s', z'. split; [exact E|]. change (bottom (set_mem m s1)) with (bottom s1) in *. rewrite Eb in *.
  apply (re_allocated_finish s (set_mem m s1) s' (l ++ [c]) p z _ l (p + z) r n x z' cs'); try done.
  - lia.
  - rewrite total_app, total_cons. change (total []) with 0. lia.
  - by rewrite useds_snoc, Hc, app_nil_r.
  - rewrite useds_snoc, Hc, app_nil_r. eapply keeps_trans; [exact Hk1|exact Hk2].
  - intros i Hi. cbn [mem set_mem]. subst m. replace (p + 8 + i) with ((p + 8) + i) by lia. rewrite byte_move_in by lia. apply Hin1. lia.
Qed.

(** ** A new block *)

Lemma heap_bounds s cs p : heap_ok s cs -> p ∈ useds (bottom s) cs ->
  0 < bottom s <= p.1 /\ 24 <= p.2 /\ p.1 + p.2 <= hTop s /\ hTop s + 24 <= total_size s /\ total_size s <= MAX_ALLOC_SIZE.
Proof.
  intros [[Hb _] [Hs HM] Ht _ _] Hp. destruct (tail_end _ _ _ _ _ Ht) as [Et Hsz]. apply useds_bounds in Hp; [lia|done].
Qed.

(** A block in use can be freed. *)
Lemma inter_free_used s cs p z :
  heap_ok s cs -> (p, z) ∈ useds (bottom s) cs ->
  exists s' cs', inter_free (p + 8) s = Ok ((0, z), s') /\ like s s' /\ heap_ok s' cs' /\
    useds (bottom s) cs ≡ₚ (p, z) :: useds (bottom s) cs' /\ keeps (useds (bottom s) cs') s.(mem) s'.(mem).
Proof.
  intros H Hp. destruct (hk_tail _ _ H) as (_ & _ & Hsc). destruct (useds_split _ _ _ Hp Hsc) as (l & r & -> & Ep & Eu).
  cbn [fst snd] in *. destruct (heap_gap _ _ _ _ H) as (Hsl & pu & Hg). rewrite <-Ep in Hg.
  destruct (inter_free_ok _ _ _ _ _ _ Hg Hsl) as (cs' & s' & E & Hlike & Hok & Hu & Hk).
  replace (p + z - p) with z in E by lia. exists s', cs'. split; [exact E|]. split; [done|]. split; [done|].
  rewrite Hu. split; [|done]. by rewrite Eu, <-Permutation_middle.
Qed.

Lemma chunksize2memsize_ok z : 24 <= z <= MAX_ALLOC_SIZE -> chunksize2memsize z = z - 4.
Proof. intros. apply wrap_small. unfold is_u, SIZE_SZ, MAX_ALLOC_SIZE in *. change (2 ^ 32) with 4294967296. lia. Qed.

Lemma useds_apart s cs p z q y : heap_ok s cs -> (p, z) ∈ useds (bottom s) cs -> (q, y) ∈ useds (bottom s) cs ->
  (p = q /\ z = y) \/ p + z <= q \/ q + y <= p.
Proof.
  intros H (c & Hc & Ec & _)%useds_place (d & Hd & Ed & _)%useds_place. cbn [fst snd] in *. subst z y.
  destruct (tail_end _ _ _ _ _ (hk_tail _ _ H)) as [_ Hsz]. destruct (places_disjoint _ _ _ _ _ _ Hsz Hc Hd) as [[? ->]|?]; auto.
Qed.

Definition move_and_free (p q z : Z) : M Z :=
  hNewHandle ← gets (ptr_to_handle q);
  memmove (chunk2mem q) (chunk2mem p) (chunksize2memsize z);;
  inter_free (chunk2mem p);;
  mret (chunk2mem hNewHandle).

Lemma move_and_free_ok s s1 cs p z n q z2 U1 U2 :
  heap_ok s cs -> (p, z) ∈ useds (bottom s) cs -> useds (bottom s) cs = U1 ++ U2 -> allocated s s1 U1 U2 q z2 -> z <= n <= z2 ->
  exists s', move_and_free p q z s1 = Ok (q + 8, s') /\ re_allocated s s' cs p z n q z2.
Proof.
  intros H Hp Eu (Hlike1 & cs1 & Hok1 & Eu1 & Hk1) Hz. pose proof (like_bottom _ _ Hlike1) as Eb. pose proof (like_size _ _ Hlike1) as Es.
  assert (Hq : (q, z2) ∈ useds (bottom s1) cs1) by (rewrite Eb, Eu1; set_solver).
  assert (Hp1 : (p, z) ∈ useds (bottom s1) cs1) by (rewrite Eb, Eu1; rewrite Eu in Hp; set_solver +Hp).
  destruct (heap_bounds _ _ _ Hok1 Hq) as (? & ? & ? & ? & ?), (heap_bounds _ _ _ Hok1 Hp1) as (? & ? & ? & _). cbn [fst snd] in *.
  unfold move_and_free. rewrite gets_bind, ptr_to_handle_ok by lia. unfold chunk2mem, SIZE_SZ. change (2 * 4) with 8.
  rewrite chunksize2memsize_ok by lia. set (m := mem_move s1.(mem) (q + 8) (p + 8) (Z.to_nat (z - 4))).
  assert (E2 : memmove (q + 8) (p + 8) (z - 4) s1 = Ok (tt, set_mem m s1)).
  { unfold memmove, in_area. rewrite !(proj2 (Z.leb_le _ _)) by lia. done. }
  rewrite (bind_ok _ _ _ _ _ E2). rewrite Eb in *.
  destruct (write_block s1 cs1 q z2 m U1 U2 Hok1) as [Hok2 Hk2]; rewrite ?Eb; [done|by rewrite Eu1, <-Permutation_middle| |].
  { intros x Hx. apply byte_move_out. lia. }
  destruct (inter_free_used (set_mem m s1) cs1 p z Hok2) as (s' & cs' & E3 & Hlike3 & Hok3 & Eu3 & Hk3); [cbn; by rewrite Eb|].
  rewrite (bind_ok _ _ _ _ _ E3). exists s'. split; [done|]. change (bottom (set_mem m s1)) with (bottom s1) in *. rewrite Eb in *.
  assert (Hpu : (p, z) ∈ U1 ++ U2) by (by rewrite <-Eu). apply list_elem_of_split in Hpu as (A & B & EAB).
  assert (P : useds (bottom s) cs' ≡ₚ (q, z2) :: A ++ B).
  { apply (Permutation_cons_inv (a := (p, z))). rewrite <-Eu3, Eu1, <-Permutation_middle, EAB, <-Permutation_middle. constructor. }
  split; [by etrans; [|exact Hlike3]|]. split; [lia|]. exists (A ++ B), cs'.
  split; [by rewrite Eu, EAB, <-Permutation_middle|]. split; [done|]. split; [done|].
  assert (Hin : forall x, x ∈ A ++ B -> x ∈ U1 ++ U2) by (intros x; rewrite EAB; set_solver).
  split.
  - intros x Hx. eapply same_on_trans; [apply Hk3; rewrite P; by right|]. eapply same_on_trans; [apply Hk2|apply Hk1]; by apply Hin.
  - intros i Hi. rewrite (Hk3 (q, z2) ltac:(rewrite P; by left)) by (cbn; lia). cbn [mem set_mem]. subst m.
    replace (q + 8 + i) with ((q + 8) + i) by lia. rewrite byte_move_in by lia. apply (Hk1 (p, z) ltac:(by rewrite <-Eu)). cbn; lia.
Qed.

(** ** Growing *)

(** The chunk in front, when it is free and large enough. *)
Definition try_prev (fuel : nat) (p hHandle tOldSize tSize : Z) (other : M Z) : M Z :=
  prev ← prev_inuse p;
  room ← (if negb prev then
            pre ← tPreSize_of p;
            mret (if tSize <=? u32 (tOldSize + pre) then Some pre else None)
          else mret None);
  match room with
  | Some pre =>
    let tmp := p - pre in
    iPreInUse ← prev_inuse tmp;
    tPreSize ← tPreSize_of tmp;
    let hNewHandle := u64 (hHandle - pre) in
    unlink_bin (Bin (bin_index pre)) hNewHandle;;
    memmove (chunk2mem hNewHandle) (chunk2mem hHandle) (chunksize2memsize tOldSize);;
    realloc_finish fuel hNewHandle (tOldSize + pre) tSize iPreInUse tPreSize
  | None => other
  end.

Lemma try_prev_ok fuel s l p z r pu n other :
  gap s l p pu (p + z) true r -> all_seen l -> 24 <= n -> n mod 8 = 0 -> z <= n -> 24 <= get_min_chunk_size s ->
  try_prev (S fuel) p p z n other s = other s \/
  exists q z' s', try_prev (S fuel) p p z n other s = Ok (q + 8, s') /\ 0 < q /\ re_allocated s s' (l ++ mkC z true :: r) p z n q z'.
Proof.
  intros Hg Hseen Hn Hm Hz Hmin. destruct (grow_bounds _ _ _ _ _ _ Hg) as (Hb1 & Hb2 & Hz24 & Hzm & Hb4 & Hb5 & Hb6 & Hb7 & Hb8 & Ep & Hsl & Hsr).
  unfold try_prev. rewrite (bind_ok _ _ _ _ _ (prev_inuse_ok _ _ _ _ (grow_header _ _ _ _ _ _ Hg))).
  pose proof (ho_l _ _ _ _ _ _ _ (proj1 Hg)) as Hl.
  destruct (seg_last _ _ _ _ _ Hl Hsl) as [->|(l' & c & -> & Hc & -> & Ex & H24 & Hcm & Hl' & Hh & Hft)]; [by left|].
  assert (Hl'0 : 0 <= total l') by (apply total_nonneg; apply Forall_app in Hsl; tauto). apply Forall_app in Hseen as [Hseen _].
  cbn [negb]. unfold tPreSize_of.
  rewrite (bind_ok _ _ s (if n <=? u32 (z + csz c) then Some (csz c) else None) s).
  2:{ rewrite (bind_ok _ _ _ _ _ (load_ok 4 p s ltac:(split; lia))), Hft. done. }
  destruct (combile_ok z (csz c)) as [_ ->]; [unfold MAX_ALLOC_SIZE in *; lia|lia|lia|].
  destruct (Z.leb_spec n (z + csz c)) as [Hle|]; [right|by left]. cbv zeta.
  assert (Hhp : header s (p - csz c) (csz c) true) by (split; [split; lia|done]).
  rewrite (bind_ok _ _ _ _ _ (prev_inuse_ok _ _ _ _ Hhp)).
  rewrite (bind_ok _ _ _ _ _ (load_ok 4 (p - csz c) s ltac:(split; lia))). rewrite u64_ok by lia.
  destruct (grow_prev fuel s l' c p z r n _ Hg Hseen Hn Hm Hz Hmin Hc Hle eq_refl) as (s' & z' & E & Hr).
  exists (p - csz c), z', s'. split; [exact E|]. split; [lia|done].
Qed.

(** A new block, when there is one. *)
Definition try_new (fuel : nat) (hHandle tOldSize tUserReqSize : Z) : M Z :=
  hNewHandle ← inter_malloc fuel tUserReqSize;
  if hNewHandle =? INVALID_HANDLE then mret INVALID_HANDLE else
  move_and_free hHandle (mem2chunk hNewHandle) tOldSize.

Lemma try_new_ok fuel s cs p z t :
  (0 < fuel)%nat -> heap_ok s cs -> (p, z) ∈ useds (bottom s) cs -> 0 <= t -> REQUEST_OUT_OF_RANGE t = false -> z <= request2size t ->
  24 <= get_min_chunk_size s ->
  (exists s', try_new fuel p z t s = Ok (0, s') /\ not_allocated s s' cs /\ exhausted s cs (request2size t)) \/
  exists q z' s', try_new fuel p z t s = Ok (q + 8, s') /\ 0 < q /\ re_allocated s s' cs p z (request2size t) q z'.
Proof.
  intros Hf H Hp Ht Hr Hz Hmin. unfold try_new.
  destruct (inter_malloc_ok fuel s cs t Hf H Ht Hmin) as [(q & s1 & E & (U1 & U2 & z2 & Eu & Hz2 & Ha & Hq) & _)|(s1 & E & Hna & Hex)];
    rewrite (bind_ok _ _ _ _ _ E).
  - right. unfold INVALID_HANDLE. rewrite (proj2 (Z.eqb_neq _ _)) by lia. unfold mem2chunk, SIZE_SZ. replace (q + 8 - 2 * 4) with q by lia.
    destruct (move_and_free_ok s s1 cs p z (request2size t) q z2 U1 U2 H Hp Eu Ha ltac:(lia)) as (s' & E' & Hre).
    by exists q, z2, s'.
  - left. exists s1. split; [done|]. split; [done|]. destruct Hex as [Hex|?]; [congruence|done].
Qed.

Lemma realloc_grow_ok fuel s l p z r pu t :
  let n := request2size t in
  gap s l p pu (p + z) true r -> all_seen l -> 0 <= t -> REQUEST_OUT_OF_RANGE t = false -> z < n -> 24 <= get_min_chunk_size s ->
  let cs := l ++ mkC z true :: r in
  (exists s', realloc_grow (S fuel) p p z n t pu (ld 4 s.(mem) p) s = Ok (0, s') /\ not_allocated s s' cs /\ exhausted s cs n) \/
  exists q z' s', realloc_grow (S fuel) p p z n t pu (ld 4 s.(mem) p) s = Ok (q + 8, s') /\ 0 < q /\ re_allocated s s' cs p z n q z'.
Proof.
  intros n Hg Hseen Ht Hr Hz Hmin cs. destruct (request2size_ok t Ht Hr) as (Hn & Hm & _). fold n in Hn, Hm.
  destruct (grow_bounds _ _ _ _ _ _ Hg) as (Hb1 & Hb2 & Hz24 & Hzm & Hb4 & Hb5 & Hb6 & Hb7 & Hb8 & Ep & Hsl & Hsr).
  assert (Hok : heap_ok s cs).
  { pose proof (gap_used _ _ _ _ _ _ Hg Hseen) as Hok. by replace (p + z - p) with z in Hok by lia. }
  assert (Hp : (p, z) ∈ useds (bottom s) cs) by (unfold cs; rewrite useds_middle, <-Ep; by left).
  assert (Hrest : forall k : M Z, (k = try_prev (S fuel) p p z n (try_new (S fuel) p z t)) ->
    (exists s', k s = Ok (0, s') /\ not_allocated s s' cs /\ exhausted s cs n) \/
    exists q z' s', k s = Ok (q + 8, s') /\ 0 < q /\ re_allocated s s' cs p z n q z').
  { intros k ->. destruct (try_prev_ok fuel s l p z r pu n (try_new (S fuel) p z t)) as [->|?]; try done; [lia|lia| |by right].
    apply (try_new_ok (S fuel) s cs p z t); try done; lia. }
  pose proof (grow_header _ _ _ _ _ _ Hg) as Hh. pose proof (hole_header_y _ _ _ _ _ _ _ (proj1 Hg)) as Hhy.
  assert (Ev : pre_ok l p s.(mem) (ld 4 s.(mem) p)) by by right.
  unfold realloc_grow. rewrite !gets_bind. unfold AT_TOP. destruct r as [|c r'].
  - change (total []) with 0 in Hb7. rewrite (proj2 (Z.eqb_eq _ _)) by lia.
    assert (u64 (hTop s + (n - z) + MINSIZE) = hTop s + (n - z) + 24) as ->.
    { change MINSIZE with 24. apply wrap_small. unfold is_u, MAX_ALLOC_SIZE in *. change (2 ^ 64) with 18446744073709551616. lia. }
    cbn [andb negb]. destruct (Z.ltb_spec (hTop s + (n - z) + 24) (total_size s)) as [Hroom|_].
    + right. destruct (grow_top s l p z pu n Hg Hseen ltac:(lia) Hm Hz Hroom) as (s' & E & Hre). exists p, n, s'. split; [exact E|]. split; [lia|done].
    + rewrite (bind_ok _ _ _ _ _ (CHUNK_SIZE_ok _ _ _ _ Hh)). by apply Hrest.
  - pose proof Hsr as [[H24 _] Hsr']%Forall_cons_1. pose proof (total_nonneg _ Hsr'). rewrite total_cons in *. cbn [hd_size] in Hhy.
    rewrite (proj2 (Z.eqb_neq _ _)) by lia. cbn [andb negb].
    rewrite (bind_ok _ _ _ _ _ (CHUNK_SIZE_ok _ _ _ _ Hh)). cbv zeta.
    assert (Hnext : header s (p + z + csz c) (hd_size r') (cused c)).
    { destruct (ho_r _ _ _ _ _ _ _ (proj1 Hg)) as ([_ Hseg] & Htop & [_ Hsn]%Forall_cons_1).
      destruct (tail_header _ _ _ _ _ (conj Hseg (conj Htop Hsn))). split; [split; lia|done]. }
    rewrite (bind_ok _ _ s (if negb (cused c) && (n <=? z + csz c) then Some (csz c) else None) s).
    2:{ rewrite (bind_ok _ _ _ _ _ (CHUNK_SIZE_ok _ _ _ _ Hhy)). unfold inuse_bit_at_offset. by rewrite (bind_ok _ _ _ _ _ (prev_inuse_ok _ _ _ _ Hnext)). }
    destruct (cused c) eqn:Ec; cbn [andb negb]; [by apply Hrest|].
    destruct (Z.leb_spec n (z + csz c)) as [Hle|_]; [right|by apply Hrest].
    destruct (grow_next fuel s l p z pu n c r' (ld 4 s.(mem) p)) as (s' & z' & E & Hre); try done; [lia|lia|].
    exists p, z', s'. split; [exact E|]. split; [lia|done].
Qed.

(** ** [inter_re_alloc] on a block in use *)

Lemma inter_re_alloc_ok fuel s cs p z t :
  heap_ok s cs -> (p, z) ∈ useds (bottom s) cs -> 0 < t -> REQUEST_OUT_OF_RANGE t = false -> 24 <= get_min_chunk_size s ->
  let n := request2size t in
  (exists s', inter_re_alloc (S fuel) (p + 8) t s = Ok ((0, z), s') /\ not_allocated s s' cs /\ exhausted s cs n) \/
  exists q z' s', inter_re_alloc (S fuel) (p + 8) t s = Ok ((q + 8, z), s') /\ 0 < q /\ re_allocated s s' cs p z n q z'.
Proof.
  intros H Hp Ht Hr Hmin n. destruct (request2size_ok t ltac:(lia) Hr) as (Hn & Hm & _). fold n in Hn, Hm.
  destruct (hk_tail _ _ H) as (_ & _ & Hsc). destruct (useds_split _ _ _ Hp Hsc) as (l & r & -> & Ep & Eu).
  cbn [fst snd] in *. destruct (heap_gap _ _ _ _ H) as (Hsl & pu & Hg). rewrite <-Ep in Hg.
  destruct (grow_bounds _ _ _ _ _ _ Hg) as (Hb1 & Hb2 & Hz24 & Hzm & Hb4 & Hb5 & Hb6 & Hb7 & Hb8 & _ & Hzl & Hzr).
  destruct (hole_aligned _ _ _ _ _ _ _ (proj1 Hg)) as [Hax _]. pose proof (grow_header _ _ _ _ _ _ Hg) as Hh.
  unfold inter_re_alloc, INVALID_HANDLE. rewrite (proj2 (Z.eqb_neq (p + 8) _)), (proj2 (Z.eqb_neq t _)), Hr by lia. cbv zeta. fold n.
  rewrite gets_bind, (proj2 (Z.leb_gt _ _)), (proj2 (Z.leb_gt _ _)) by lia. cbn [orb].
  unfold mem2chunk, SIZE_SZ. replace (p + 8 - 2 * 4) with p by lia.
  rewrite (bind_ok _ _ _ _ _ (CHUNK_SIZE_ok _ _ _ _ Hh)), gets_bind, ptr_to_handle_ok, u64_ok, (proj2 (Z.ltb_ge _ _)) by lia.
  rewrite aligned_ok by done. change MINSIZE with 24. rewrite (proj2 (Z.ltb_ge _ _)) by lia.
  rewrite (bind_ok _ _ _ _ _ (check_inuse_ok _ _ _ _ _ _ Hg)). cbn [Z.eqb negb].
  rewrite (bind_ok _ _ _ _ _ (prev_inuse_ok _ _ _ _ Hh)). unfold tPreSize_of.
  rewrite (bind_ok _ _ _ _ _ (load_ok 4 p s ltac:(split; lia))).
  destruct (Z.leb_spec n z) as [Hle|Hlt].
  - right. assert (Hho : hole s l p pu (p + z) true r) by apply Hg.
    destruct (realloc_finish_ok fuel s l p pu (p + z) true r n (ld 4 s.(mem) p) Hho Hsl) as (s' & cs' & z' & E & Hlike & Hok & Hu & Hz' & Hk);
      try done; [by right|lia|lia|].
    replace (p + z - p) with z in E by lia. rewrite (bind_ok _ _ _ _ _ E). exists p, z', s'. split; [done|]. split; [lia|].
    split; [done|]. split; [lia|]. exists (useds (bottom s) l ++ useds (p + z) r), cs'. rewrite useds_middle, <-Ep. split; [done|]. split; [done|].
    rewrite Hu, <-Permutation_middle. split; [done|]. split; [intros x Hx; apply Hk; set_solver +Hx|].
    intros i Hi. apply (Hk (p, n)); [set_solver|cbn; lia].
  - destruct (realloc_grow_ok fuel s l p z r pu t Hg Hsl) as [(s' & E & Hna & Hex)|(q & z' & s' & E & Hq & Hre)]; try done; [lia| |].
    + left. exists s'. by rewrite (bind_ok _ _ _ _ _ E).
    + right. exists q, z', s'. by rewrite (bind_ok _ _ _ _ _ E).
Qed.
