(* ===== verification/PtOpsSpec.v ===== *)
(** The operations of [DTCBinMalloc] as the program calls them, on the invariant with
    its accounts: [Malloc], [Calloc], [Free], [ReAlloc], [Init], [chunk_size] and
    [check_bin] of [PtMalloc]. *)
From Stdlib Require Import ZArith Lia.
From stdpp Require Import base list numbers gmap.
From S2P Require Import Prelude Mem PtMalloc PtHeap PtOps PtFree PtAlloc PtRealloc.
Import MemFacts Header Layout BinList BinUpdate.
Local Open Scope Z_scope.

(** ** The accounts *)

Definition used_total (U : list (Z * Z)) : Z := list_sum_Z (snd <$> U).

(** What the header and the statistics say about the blocks [U]. *)
Record accounts (s : DTCBinMalloc) (U : list (Z * Z)) : Prop := {
  ac_size : m_tUserAllocSize (head s) = bottom s + used_total U;
  ac_cnt : m_tUserAllocChunkCnt (head s) = Z.of_nat (length U);
  ac_data : statDataSize (stat s) = bottom s + used_total U;
  ac_total : statChunkTotal (stat s) = Z.of_nat (length U);
  ac_min : minChunkSize (stat s) = 1 \/ 24 <= minChunkSize (stat s) < 2 ^ 32;
  ac_recent : 0 <= statTmpDataAllocCountRecently (stat s);
  ac_fast : m_ptFastBin s = replicate (Z.to_nat NFASTBINS) no_bin;
  ac_unsorted : m_ptUnsortedBin s = no_bin;
  ac_flags : m_uiFlags (head s) = 0;
  ac_version : detect_version s = DTC_VER_MIN
}.

(** The invariant of an allocator with the chunks [cs]. *)
Definition Inv (s : DTCBinMalloc) (cs : list chunk) : Prop := heap_ok s cs /\ accounts s (useds (bottom s) cs).

Lemma used_total_perm U V : U ≡ₚ V -> used_total U = used_total V.
Proof. unfold used_total. induction 1; cbn in *; lia. Qed.
Lemma used_total_cons p z U : used_total ((p, z) :: U) = z + used_total U.
Proof. done. Qed.

Lemma accounts_perm s U V : U ≡ₚ V -> accounts s U -> accounts s V.
Proof. intros P []. pose proof (Permutation_length P) as El. split; rewrite <-?(used_total_perm _ _ P), <-?El; done. Qed.

Lemma accounts_like s s' U : like s s' -> accounts s U -> accounts s' U.
Proof.
  intros Hl []. pose proof (like_bottom _ _ Hl) as Eb.
  pose proof (f_equal (fun t => m_tUserAllocSize (head t)) Hl) as E1. pose proof (f_equal (fun t => m_tUserAllocChunkCnt (head t)) Hl) as E2.
  pose proof (f_equal (fun t => statDataSize (stat t)) Hl) as E3. pose proof (f_equal (fun t => statChunkTotal (stat t)) Hl) as E4.
  pose proof (f_equal (fun t => minChunkSize (stat t)) Hl) as E5. pose proof (f_equal (fun t => statTmpDataAllocCountRecently (stat t)) Hl) as E6.
  pose proof (f_equal m_ptFastBin Hl) as E7. pose proof (f_equal m_ptUnsortedBin Hl) as E8.
  pose proof (f_equal (fun t => m_uiFlags (head t)) Hl) as E9. pose proof (f_equal detect_version Hl) as E10.
  cbn in E1, E2, E3, E4, E5, E6, E7, E8, E9. change (detect_version s' = detect_version s) in E10.
  split; rewrite ?Eb, ?E1, ?E2, ?E3, ?E4, ?E5, ?E6, ?E7, ?E8, ?E9, ?E10; done.
Qed.

(** The blocks are at least 24 bytes each and lie below the top. *)
Lemma used_total_bounds m a pu cs b pv : seg m a pu cs b pv ->
  24 * Z.of_nat (length (useds a cs)) <= used_total (useds a cs) /\ used_total (useds a cs) <= total cs.
Proof.
  intros H%seg_sizes. revert a; induction H as [|c cs [Hc _] Hcs IH]; intros a; [done|]. rewrite useds_cons, total_cons.
  specialize (IH (a + csz c)). destruct (cused c); cbn [app]; [rewrite used_total_cons; cbn [length]|]; lia.
Qed.

Lemma heap_used s cs : heap_ok s cs ->
  let U := useds (bottom s) cs in
  0 < bottom s /\ 24 * Z.of_nat (length U) <= used_total U /\ bottom s + used_total U <= hTop s /\ hTop s <= MAX_ALLOC_SIZE.
Proof.
  intros [[? _] [? ?] [Hseg _] _ _] U. pose proof (used_total_bounds _ _ _ _ _ _ Hseg) as Hb. pose proof (seg_end _ _ _ _ _ _ Hseg).
  fold U in Hb. lia.
Qed.

Lemma get_min_ok s cs : Inv s cs -> 24 <= get_min_chunk_size s.
Proof.
  intros [H []]. destruct (heap_used s cs H) as (Hb & H24 & Ht & HM). cbv zeta in *. unfold get_min_chunk_size.
  rewrite ac_data0, ac_total0. set (U := useds (bottom s) cs) in *. unfold MAX_ALLOC_SIZE in *. change (2 ^ 32) with 4294967296 in *.
  destruct ac_min0 as [E | Hm].
  - rewrite E, Z.eqb_refl. destruct (Z.leb_spec (Z.of_nat (length U)) 0) as [_|Hpos]; [done|].
    assert (24 <= (bottom s + used_total U) / Z.of_nat (length U)) by (apply Z.div_le_lower_bound; lia).
    assert ((bottom s + used_total U) / Z.of_nat (length U) <= bottom s + used_total U) by (apply Z.div_le_upper_bound; nia).
    rewrite Z.quot_div_nonneg by lia. rewrite u64_ok by (unfold MAX_ALLOC_SIZE; lia). unfold u32.
    rewrite wrap_small; [done|]. unfold is_u. change (2 ^ 32) with 4294967296. lia.
  - rewrite (proj2 (Z.eqb_neq _ _)) by lia. unfold u32. rewrite wrap_small; [lia|]. unfold is_u. change (2 ^ 32) with 4294967296. lia.
Qed.

(** ** Steps that change the accounts only *)

Lemma heap_ok_ext s s' cs :
  bottom s' = bottom s -> total_size s' = total_size s -> hTop s' = hTop s -> bitmap s' = bitmap s ->
  s'.(m_ptBin) = s.(m_ptBin) -> s'.(mem) = s.(mem) -> heap_ok s cs -> heap_ok s' cs.
Proof. intros E1 E2 E3 E4 E5 E6 []. split; rewrite ?E1, ?E2, ?E3, ?E4, ?E5, ?E6; done. Qed.

Lemma heap_ok_user s dsz dcnt cs : heap_ok s cs -> heap_ok (set_user dsz dcnt s) cs.
Proof. by apply heap_ok_ext. Qed.

Lemma heap_ok_stat s size cs : heap_ok s cs -> heap_ok (add_alloc_size_to_stat size s) cs.
Proof. apply heap_ok_ext; unfold add_alloc_size_to_stat; by destruct (_ <? _). Qed.

Lemma accounts_stat s size U : accounts s U -> accounts (add_alloc_size_to_stat size s) U.
Proof. intros []. unfold add_alloc_size_to_stat. destruct (_ <? _); split; try done. cbn. lia. Qed.

Lemma accounts_user s U U' dsz dcnt :
  accounts s U -> used_total U' = used_total U + dsz -> Z.of_nat (length U') = Z.of_nat (length U) + dcnt ->
  0 <= bottom s + used_total U' <= MAX_ALLOC_SIZE -> Z.of_nat (length U') <= MAX_ALLOC_SIZE -> accounts (set_user dsz dcnt s) U'.
Proof.
  intros [] Et El Hb Hl. unfold MAX_ALLOC_SIZE in *.
  assert (E1 : u64 (m_tUserAllocSize (head s) + dsz) = bottom s + used_total U').
  { rewrite ac_size0. replace (bottom s + used_total U + dsz) with (bottom s + used_total U') by lia. apply u64_ok. unfold MAX_ALLOC_SIZE. lia. }
  assert (E2 : u64 (m_tUserAllocChunkCnt (head s) + dcnt) = Z.of_nat (length U')).
  { rewrite ac_cnt0. rewrite <-El. apply u64_ok. unfold MAX_ALLOC_SIZE. lia. }
  assert (Hs : forall v, 0 <= v <= 4294967288 -> s64 v = v).
  { intros v Hv. apply swrap_small; [lia|]. unfold is_s. change (2 ^ (64 - 1)) with 9223372036854775808. lia. }
  split; cbn; rewrite ?E1, ?E2; try done.
  - apply Hs. lia.
  - rewrite ac_total0, <-El. apply Hs. lia.
Qed.

(** ** [Malloc] and [Calloc] *)

Lemma Inv_last s v cs : Inv s cs -> Inv (set_last v s) cs.
Proof. intros [H Ha]. split; [by eapply heap_ok_ext; [..|exact H]|]. by eapply accounts_like; [|exact Ha]. Qed.

Lemma useds_header s cs p z : heap_ok s cs -> (p, z) ∈ useds (bottom s) cs -> exists pu, header s p z pu.
Proof.
  intros H Hp. destruct (hk_tail _ _ H) as (_ & _ & Hsc). destruct (useds_split _ _ _ Hp Hsc) as (l & r & -> & Ep & _).
  cbn [fst snd] in *. destruct (heap_gap _ _ _ _ H) as (_ & pu & Hg). rewrite <-Ep in Hg. exists pu. by eapply grow_header.
Qed.

(** The chunks [cs'] are those of [cs] and one for the new block. *)
Lemma Inv_add s s1 cs cs1 p z t :
  Inv s cs -> like s s1 -> heap_ok s1 cs1 -> useds (bottom s) cs1 ≡ₚ (p, z) :: useds (bottom s) cs ->
  Inv (add_alloc_size_to_stat t (set_user z 1 s1)) cs1.
Proof.
  intros [_ Ha] Hl H1 P. split; [by apply heap_ok_stat, heap_ok_user|]. pose proof (like_bottom _ _ Hl) as Eb.
  assert (bottom (add_alloc_size_to_stat t (set_user z 1 s1)) = bottom s1) as -> by (unfold add_alloc_size_to_stat; by destruct (_ <? _)).
  destruct (heap_used s1 cs1 H1) as (? & ? & ? & ?). cbv zeta in *. rewrite Eb in *.
  apply accounts_stat, (accounts_user _ (useds (bottom s) cs)); rewrite ?Eb; [by eapply accounts_like|rewrite (used_total_perm _ _ P), used_total_cons; lia
    |rewrite (Permutation_length P); cbn [length]; lia|lia|lia].
Qed.

Lemma Malloc_ok fuel s cs t :
  (0 < fuel)%nat -> Inv s cs -> 0 <= t ->
  (exists p z s' cs', Malloc fuel t s = Ok (p + 8, s') /\ 0 < p /\ bottom s' = bottom s /\ Inv s' cs' /\ REQUEST_OUT_OF_RANGE t = false /\
    request2size t <= z < request2size t + get_min_chunk_size s /\
    useds (bottom s) cs' ≡ₚ (p, z) :: useds (bottom s) cs /\ keeps (useds (bottom s) cs) s.(mem) s'.(mem)) \/
  (exists s', Malloc fuel t s = Ok (0, s') /\ bottom s' = bottom s /\ Inv s' cs /\ s'.(mem) = s.(mem) /\
    (REQUEST_OUT_OF_RANGE t = true \/ exhausted s cs (request2size t))).
Proof.
  intros Hf HI Ht. unfold Malloc. rewrite modify_bind. pose proof (Inv_last s 0 cs HI) as HI0. pose proof (get_min_ok _ _ HI0) as Hmin.
  set (s0 := set_last 0 s) in *.
  destruct (inter_malloc_ok fuel s0 cs t Hf (proj1 HI0) Ht Hmin) as [(p & s1 & E & (U1 & U2 & z & Eu & Hz & Ha & Hp) & Hr)|(s1 & E & Hna & Hex)];
    rewrite (bind_ok _ _ _ _ _ E); unfold INVALID_HANDLE.
  - left. rewrite (proj2 (Z.eqb_neq _ _)) by lia. destruct Ha as (Hlike & cs1 & Hok & Eu1 & Hk).
    pose proof (like_bottom _ _ Hlike) as Eb. change (bottom s0) with (bottom s) in *.
    assert (Hin : (p, z) ∈ useds (bottom s1) cs1) by (rewrite Eb, Eu1; set_solver).
    destruct (useds_header _ _ _ _ Hok Hin) as (pu & Hh). unfold mem2chunk, SIZE_SZ. replace (p + 8 - 2 * 4) with p by lia. cbn [negb].
    rewrite (bind_ok _ _ _ tt (add_alloc_size_to_stat t (set_user z 1 s1))).
    2:{ by rewrite (bind_ok _ _ _ _ _ (CHUNK_SIZE_ok _ _ _ _ Hh)). }
    assert (P : useds (bottom s) cs1 ≡ₚ (p, z) :: useds (bottom s) cs) by (by rewrite Eu1, Eu, <-Permutation_middle).
    exists p, z. eexists _, cs1. split; [reflexivity|]. split; [done|].
    assert (Eb2 : bottom (add_alloc_size_to_stat t (set_user z 1 s1)) = bottom s)
      by (rewrite <-Eb; unfold add_alloc_size_to_stat; by destruct (_ <? _)).
    split; [done|]. split; [eapply (Inv_add s0); [exact HI0|done|done|exact P]|]. split; [done|]. split; [exact Hz|]. split; [exact P|].
    rewrite Eu. intros q Hq. unfold add_alloc_size_to_stat. destruct (_ <? _); by apply Hk.
  - right. cbn [Z.eqb negb]. exists s1. split; [done|]. destruct Hna as [(Hlike & Ht1 & Em & _) Hok].
    split; [exact (like_bottom _ _ Hlike)|]. split; [|done]. split; [done|].
    rewrite (like_bottom _ _ Hlike). change (bottom s0) with (bottom s). by eapply accounts_like; [|apply HI0].
Qed.

(** Writing into a block keeps the accounts too. *)
Lemma Inv_write s cs p z m' U :
  Inv s cs -> useds (bottom s) cs ≡ₚ (p, z) :: U ->
  (forall x, x < p + 8 \/ p + z + 4 <= x -> byte m' x = byte s.(mem) x) ->
  Inv (set_mem m' s) cs /\ keeps U s.(mem) m'.
Proof.
  intros [H Ha] P Hout. destruct (write_block s cs p z m' U [] H) as [Hok Hk]; [rewrite P; by left|by rewrite app_nil_r|done|].
  rewrite app_nil_r in Hk. split; [|done]. split; [done|]. by eapply accounts_like; [|exact Ha].
Qed.

(** ** [Free] *)

Lemma Inv_remove s s1 cs cs1 p z :
  Inv s cs -> like s s1 -> heap_ok s1 cs1 -> useds (bottom s) cs ≡ₚ (p, z) :: useds (bottom s) cs1 -> Inv (set_user (- z) (-1) s1) cs1.
Proof.
  intros [_ Ha] Hl H1 P. split; [by apply heap_ok_user|]. pose proof (like_bottom _ _ Hl) as Eb.
  change (bottom (set_user (- z) (-1) s1)) with (bottom s1).
  destruct (heap_used s1 cs1 H1) as (? & ? & ? & ?). cbv zeta in *. rewrite Eb in *.
  apply (accounts_user _ (useds (bottom s) cs)); rewrite ?Eb; [by eapply accounts_like|rewrite (used_total_perm _ _ P), used_total_cons; lia
    |rewrite (Permutation_length P); cbn [length]; lia|lia|lia].
Qed.

Lemma Free_ok s cs p z :
  Inv s cs -> (p, z) ∈ useds (bottom s) cs ->
  exists s' cs', Free (p + 8) s = Ok (0, s') /\ bottom s' = bottom s /\ Inv s' cs' /\
    useds (bottom s) cs ≡ₚ (p, z) :: useds (bottom s) cs' /\ keeps (useds (bottom s) cs') s.(mem) s'.(mem).
Proof.
  intros HI Hp. destruct (inter_free_used s cs p z (proj1 HI) Hp) as (s1 & cs1 & E & Hlike & Hok & P & Hk).
  unfold Free. rewrite (bind_ok _ _ _ _ _ E). cbn [Z.eqb]. rewrite modify_bind. eexists _, cs1. split; [done|].
  split; [exact (like_bottom _ _ Hlike)|]. split; [by eapply Inv_remove|]. done.
Qed.

(** ** [ReAlloc] *)

Lemma ReAlloc_ok fuel s cs p z t :
  Inv s cs -> (p, z) ∈ useds (bottom s) cs -> 0 < t -> REQUEST_OUT_OF_RANGE t = false ->
  let n := request2size t in
  (exists s', ReAlloc (S fuel) (p + 8) t s = Ok (0, s') /\ bottom s' = bottom s /\ Inv s' cs /\ s'.(mem) = s.(mem) /\ exhausted s cs n) \/
  exists q z' s' U cs', ReAlloc (S fuel) (p + 8) t s = Ok (q + 8, s') /\ 0 < q /\ bottom s' = bottom s /\ Inv s' cs' /\ n <= z' /\
    useds (bottom s) cs ≡ₚ (p, z) :: U /\ useds (bottom s) cs' ≡ₚ (q, z') :: U /\ keeps U s.(mem) s'.(mem) /\
    forall i, 0 <= i < Z.min z n - 4 -> byte s'.(mem) (q + 8 + i) = byte s.(mem) (p + 8 + i).
Proof.
  intros HI Hp Ht Hr n. unfold ReAlloc. rewrite modify_bind. pose proof (Inv_last s 0 cs HI) as HI0. pose proof (get_min_ok _ _ HI0) as Hmin.
  set (s0 := set_last 0 s) in *.
  destruct (inter_re_alloc_ok fuel s0 cs p z t (proj1 HI0) Hp Ht Hr Hmin)
    as [(s1 & E & Hna & Hex)|(q & z' & s1 & E & Hq & Hlike & Hn & U & cs' & PU & Hok & PU' & Hk & Hb)];
    rewrite (bind_ok _ _ _ _ _ E); unfold INVALID_HANDLE.
  - left. cbn [Z.eqb negb]. rewrite (proj2 (Z.eqb_neq t 0)) by lia. exists s1. split; [done|]. destruct Hna as [(Hlike & Ht1 & Em & _) Hok].
    split; [exact (like_bottom _ _ Hlike)|]. split; [|done]. split; [done|].
    rewrite (like_bottom _ _ Hlike). change (bottom s0) with (bottom s). by eapply accounts_like; [|apply HI0].
  - right. rewrite (proj2 (Z.eqb_neq (q + 8) 0)), (proj2 (Z.eqb_neq (p + 8) 0)) by (destruct (heap_bounds _ _ _ (proj1 HI) Hp); cbn [fst] in *; lia).
    cbn [negb]. pose proof (like_bottom _ _ Hlike) as Eb. change (bottom s0) with (bottom s) in *.
    assert (Hin : (q, z') ∈ useds (bottom s1) cs') by (rewrite Eb, PU'; by left).
    destruct (useds_header _ _ _ _ Hok Hin) as (pu & Hh). unfold mem2chunk, SIZE_SZ. replace (q + 8 - 2 * 4) with q by lia.
    rewrite (bind_ok _ _ _ tt (add_alloc_size_to_stat t (set_user (z' - z) 0 s1))).
    2:{ by rewrite (bind_ok _ _ _ _ _ (CHUNK_SIZE_ok _ _ _ _ Hh)). }
    assert (Hst : forall v, bottom (add_alloc_size_to_stat t v) = bottom v /\ (add_alloc_size_to_stat t v).(mem) = v.(mem))
      by (intros v; unfold add_alloc_size_to_stat; by destruct (_ <? _)).
    exists q, z'. eexists _, U, cs'. split; [reflexivity|]. split; [done|]. rewrite (proj1 (Hst _)), (proj2 (Hst _)). split; [done|].
    split; [|done]. split; [by apply heap_ok_stat, heap_ok_user|]. rewrite (proj1 (Hst _)). change (bottom (set_user (z' - z) 0 s1)) with (bottom s1).
    destruct (heap_used s1 cs' Hok) as (? & ? & ? & ?). cbv zeta in *. rewrite Eb in *.
    apply accounts_stat, (accounts_user _ (useds (bottom s) cs)); rewrite ?Eb; [eapply accounts_like; [exact Hlike|apply HI0]
      |rewrite (used_total_perm _ _ PU), (used_total_perm _ _ PU'), !used_total_cons; lia
      |rewrite (Permutation_length PU), (Permutation_length PU'); cbn [length]; lia|lia|lia].
Qed.

(** Without a block [ReAlloc] is [Malloc], and without a size it frees. *)
Lemma ReAlloc_null fuel s t : t <> 0 -> ReAlloc fuel 0 t s = Malloc fuel t s.
Proof.
  intros Ht. unfold ReAlloc, Malloc. rewrite !modify_bind. unfold inter_re_alloc. cbn [Z.eqb INVALID_HANDLE].
  unfold mbind, ST_bind, mret, ST_ret, modify. destruct (inter_malloc fuel t _) as [[h s1]|c|]; [|done..]. cbn [obind fst snd].
  unfold INVALID_HANDLE. rewrite (proj2 (Z.eqb_neq t 0)) by done. destruct (h =? 0); [done|]. cbn [negb].
  destruct (CHUNK_SIZE _ s1) as [[sz s2]|c|]; [|done..]. cbn [obind fst snd]. by rewrite Z.sub_0_r.
Qed.

Lemma ReAlloc_zero fuel s cs p z :
  Inv s cs -> (p, z) ∈ useds (bottom s) cs ->
  exists s' cs', ReAlloc fuel (p + 8) 0 s = Ok (0, s') /\ bottom s' = bottom s /\ Inv s' cs' /\
    useds (bottom s) cs ≡ₚ (p, z) :: useds (bottom s) cs' /\ keeps (useds (bottom s) cs') s.(mem) s'.(mem).
Proof.
  intros HI Hp. unfold ReAlloc. rewrite modify_bind. pose proof (Inv_last s 0 cs HI) as HI0.
  set (s0 := set_last 0 s) in *. destruct (inter_free_used s0 cs p z (proj1 HI0) Hp) as (s1 & cs1 & E & Hlike & Hok & P & Hk).
  assert (Hp0 : 0 < p) by (destruct (heap_bounds _ _ _ (proj1 HI) Hp); cbn [fst] in *; lia).
  rewrite (bind_ok _ _ _ (0, z) s1).
  2:{ unfold inter_re_alloc, INVALID_HANDLE. rewrite (proj2 (Z.eqb_neq (p + 8) 0)) by lia. cbn [Z.eqb]. by rewrite (bind_ok _ _ _ _ _ E). }
  unfold INVALID_HANDLE. cbn [Z.eqb negb]. rewrite modify_bind. eexists _, cs1. split; [done|].
  split; [exact (like_bottom _ _ Hlike)|]. split; [by eapply (Inv_remove s0)|]. done.
Qed.

Lemma Calloc_ok fuel s cs t :
  (0 < fuel)%nat -> Inv s cs -> 0 <= t ->
  (exists p z s' cs', Calloc fuel t s = Ok (p + 8, s') /\ 0 < p /\ bottom s' = bottom s /\ Inv s' cs' /\ t + 4 <= z /\
    useds (bottom s) cs' ≡ₚ (p, z) :: useds (bottom s) cs /\ keeps (useds (bottom s) cs) s.(mem) s'.(mem) /\
    forall x, p + 8 <= x < p + 8 + t -> byte s'.(mem) x = 0) \/
  (exists s', Calloc fuel t s = Ok (0, s') /\ bottom s' = bottom s /\ Inv s' cs /\ s'.(mem) = s.(mem)).
Proof.
  intros Hf HI Ht. unfold Calloc.
  destruct (Malloc_ok fuel s cs t Hf HI Ht) as [(p & z & s1 & cs1 & E & Hp & Eb & HI1 & Hr & Hz & P & Hk)|(s1 & E & Eb & HI1 & Em & _)];
    rewrite (bind_ok _ _ _ _ _ E); unfold INVALID_HANDLE; [left|right; by exists s1].
  rewrite (proj2 (Z.eqb_neq (p + 8) 0)) by lia. cbn [negb]. destruct (request2size_ok t Ht Hr) as (_ & _ & Hn & _).
  assert (Hin : (p, z) ∈ useds (bottom s1) cs1) by (rewrite Eb, P; by left).
  destruct (heap_bounds _ _ _ (proj1 HI1) Hin) as (? & ? & ? & ? & ?). cbn [fst snd] in *.
  set (m := mem_set s1.(mem) (p + 8) 0 (Z.to_nat t)).
  destruct (Inv_write s1 cs1 p z m (useds (bottom s) cs) HI1) as [HI2 Hk2]; [by rewrite Eb| |].
  { intros x Hx. apply byte_set_out. lia. }
  rewrite (bind_ok _ _ _ tt (set_mem m s1)).
  2:{ unfold memset0, in_area. by rewrite !(proj2 (Z.leb_le _ _)) by lia. }
  exists p, z, (set_mem m s1), cs1. split; [done|]. do 3 (split; [done|]). split; [lia|]. split; [exact P|].
  split; [by eapply keeps_trans|]. intros x Hx. cbn [mem set_mem]. subst m. rewrite byte_set_in by lia. done.
Qed.

(** ** Reading the size of a block *)

Lemma chunk_size_ok s cs p z : heap_ok s cs -> (p, z) ∈ useds (bottom s) cs -> chunk_size (p + 8) s = Ok (z - 4, s).
Proof.
  intros H Hp. destruct (heap_bounds _ _ _ H Hp) as (? & ? & ? & ? & ?). cbn [fst snd] in *.
  destruct (hk_tail _ _ H) as (_ & _ & Hsc). destruct (useds_split _ _ _ Hp Hsc) as (l & r & -> & Ep & _). cbn [fst snd] in *.
  destruct (heap_gap _ _ _ _ H) as (_ & pu & Hg). rewrite <-Ep in Hg.
  unfold chunk_size. rewrite gets_bind, (proj2 (Z.leb_gt _ _)), (proj2 (Z.leb_gt _ _)) by lia. cbn [orb].
  unfold mem2chunk, SIZE_SZ. replace (p + 8 - 2 * 4) with p by lia. rewrite (bind_ok _ _ _ _ _ (check_inuse_ok _ _ _ _ _ _ Hg)). cbn [Z.eqb negb].
  rewrite (bind_ok _ _ _ _ _ (CHUNK_SIZE_ok _ _ _ _ (grow_header _ _ _ _ _ _ Hg))). by rewrite ret_ok, chunksize2memsize_ok by lia.
Qed.

(** ** Freeing what is free already *)

Lemma Free_free s cs p z : heap_ok s cs -> (p, z) ∈ frees (bottom s) cs -> Free (p + 8) s = Ok (-3, s).
Proof.
  intros H Hp. assert (Hsc : all_seen cs) by apply (hk_tail _ _ H). destruct (frees_split _ _ _ Hp Hsc) as (l & r & -> & Ep).
  cbn [fst snd] in *. destruct (free_bounds _ _ _ _ _ H Ep) as (? & ? & ? & ? & ? & ? & ? & _).
  unfold Free, inter_free, INVALID_HANDLE, mem2chunk, SIZE_SZ. replace (p + 8 - 2 * 4) with p by lia.
  rewrite (proj2 (Z.eqb_neq _ _)) by lia. rewrite (bind_ok _ _ _ (-3, z) s); [done|].
  rewrite gets_bind, (proj2 (Z.leb_gt _ _)) by lia.
  rewrite (bind_ok _ _ _ _ _ (CHUNK_SIZE_ok _ _ _ _ (free_header _ _ _ _ _ H Ep))), gets_bind, ptr_to_handle_ok by lia.
  rewrite u64_ok, (proj2 (Z.leb_gt _ _)) by lia. unfold inuse_bit_at_offset.
  by rewrite (bind_ok _ _ _ _ _ (prev_inuse_ok _ _ _ _ (free_header_next _ _ _ _ _ H Ep))).
Qed.

(** ** [check_bin] *)

Lemma check_chain_ok fuel m s pre h hs :
  m = s.(mem) -> chain m pre (h :: hs) 0 -> Forall (link_ok s) (h :: hs) -> (length hs < fuel)%nat ->
  check_chain fuel h s = Ok (lastd h hs, s).
Proof.
  intros ->. revert pre h hs; induction fuel as [|fuel IH]; intros pre h hs Hc Hok Hf; [lia|]. cbn [check_chain].
  destruct Hc as (_ & Hn & Hc). apply Forall_cons_1 in Hok as [Hh Hok]. rewrite (bind_ok _ _ _ _ _ (hNext_ok s h Hh)), Hn.
  destruct hs as [|q hs]; [done|]. cbn [hd]. pose proof (Forall_inv Hok) as Hq. rewrite (link_ok_nonzero s q Hq).
  cbn [lastd length] in *. eapply IH; [exact Hc|done|lia].
Qed.

Lemma check_one_bin_ok fuel s b hs :
  bin_list s.(mem) b hs -> Forall (link_ok s) hs -> (length hs <= fuel)%nat -> check_one_bin fuel b s = Ok (true, s).
Proof.
  intros (Hn & Hp & Hc) Hok Hf. unfold check_one_bin. rewrite Hn, Hp. destruct hs as [|h hs]; [done|]. cbn [hd].
  pose proof (Forall_inv Hok) as Hh. rewrite (link_ok_nonzero s h Hh). cbn [length] in Hf.
  rewrite (bind_ok _ _ _ _ _ (check_chain_ok fuel _ s 0 h hs eq_refl Hc Hok Hf)). unfold mret, ST_ret. cbn [lastd]. by rewrite Z.eqb_refl.
Qed.

Lemma check_bins_ok fuel s bs :
  Forall (fun b => exists hs, bin_list s.(mem) b hs /\ Forall (link_ok s) hs /\ (length hs <= fuel)%nat) bs ->
  check_bins fuel bs s = Ok (true, s).
Proof.
  induction 1 as [|b bs (hs & Hb & Hok & Hf) _ IH]; [done|]. cbn [check_bins]. by rewrite (bind_ok _ _ _ _ _ (check_one_bin_ok fuel s b hs Hb Hok Hf)).
Qed.

Lemma in_bin_length i frs : (length (in_bin i frs) <= length frs)%nat.
Proof. unfold in_bin. rewrite length_fmap. apply length_filter. Qed.
Lemma frees_length a cs : (length (frees a cs) <= length cs)%nat.
Proof. revert a; induction cs as [|c cs IH]; intros a; [done|]. rewrite frees_cons, length_app. specialize (IH (a + csz c)). destruct (cused c); cbn; lia. Qed.

Lemma bins_checked fuel s cs : heap_ok s cs -> (length cs <= fuel)%nat -> check_bins fuel s.(m_ptBin) s = Ok (true, s).
Proof.
  intros H Hf. apply check_bins_ok. apply Forall_lookup. intros i b Hb. destruct (hk_bins _ _ H) as [_ Hbins].
  destruct (Hbins i b Hb) as (hs & Hl & P). exists hs. split; [done|]. rewrite P. split.
  - apply free_area_link. apply Forall_forall. intros q Hq. destruct H as [[? _] [? ?] Ht _ _]. destruct (tail_end _ _ _ _ _ Ht) as [Et Hsz].
    apply frees_bounds in Hq; [|done]. unfold free_area, handle_ok, area, MAX_ALLOC_SIZE in *. change (2 ^ 64) with 18446744073709551616. lia.
  - pose proof (in_bin_length (Z.of_nat i) (frees (bottom s) cs)). pose proof (frees_length (bottom s) cs). lia.
Qed.

Lemma check_bin_ok fuel s cs : Inv s cs -> (length cs <= fuel)%nat -> check_bin fuel s = Ok (0, s).
Proof.
  intros [H Ha] Hf. unfold check_bin. rewrite !gets_bind, (bind_ok _ _ _ _ _ (bins_checked fuel s cs H Hf)). cbn [negb].
  rewrite (ac_fast _ _ Ha), (ac_unsorted _ _ Ha).
  rewrite (bind_ok _ _ _ true s).
  - done.
  - apply check_bins_ok. apply Forall_replicate. exists []. split; [done|]. split; [done|cbn; lia].
Qed.

(** ** A new segment *)

Lemma Init_ok tSize t m :
  8232 <= tSize <= MAX_ALLOC_SIZE -> minChunkSize t = 1 \/ 24 <= minChunkSize t < 2 ^ 32 -> 0 <= statTmpDataAllocCountRecently t ->
  exists s, Init tSize t m = Ok (Some s) /\ Inv s [] /\ total_size s = tSize /\ bottom s = 8208 /\ hTop s = 8208.
Proof.
  intros Ht Hmin Hrec. unfold Init. change (sizeof_MemHead + bins_size + DTC_RESERVE_SIZE + MINSIZE) with 8232.
  rewrite (proj2 (Z.ltb_ge _ _)) by lia. change (align (sizeof_MemHead + bins_size)) with 4112. change (align (4112 + DTC_RESERVE_SIZE)) with 8208.
  cbv zeta. set (s0 := mkMalloc _ _ _ _ _ _).
  assert (E : (put_tPreSize 8208 0;; put_tSize 8208 PREV_INUSE) s0 = Ok (tt, set_mem (sto 4 (sto 4 m 8208 0) (8208 + 4) PREV_INUSE) s0)).
  { erewrite bind_ok by (apply (store_ok 4 8208); split; cbn; lia). unfold put_tSize; by rewrite store_ok by (split; cbn; lia). }
  rewrite E. cbn [obind snd]. eexists. split; [reflexivity|]. split; [|done]. split.
  - split; [done|cbn; lia| | |].
    + split; [done|]. split; [|done]. cbn [mem set_mem]. change (hTop _) with 8208. by rewrite ld_sto_fit.
    + split; [done|]. intros i b Hb. cbn in Hb. apply lookup_replicate in Hb as [-> _]. exists []. done.
    + split; [done|]. intros i b Hb Hne. cbn in Hb. apply lookup_replicate in Hb as [-> _]. done.
  - split; try done; cbn; lia.
Qed.

Lemma last_free_size_ok fuel s cs : Inv s cs -> last_free_size fuel s = Ok (chunksize2memsize (u32 (m_tLastFreeChunkSize (head s))), s).
Proof. intros [_ Ha]. unfold last_free_size, free_fast. rewrite (bind_ok _ _ _ 0 s); [done|]. rewrite gets_bind. by rewrite (ac_flags _ _ Ha). Qed.

(** A process that attaches to the segment finds the same allocator. *)
Lemma Attach_ok s cs t :
  Inv s cs -> sizeof_MemHead + bins_size + MINSIZE <= total_size s -> minChunkSize t = 1 \/ 24 <= minChunkSize t < 2 ^ 32 ->
  0 <= statTmpDataAllocCountRecently t ->
  exists s', Attach (total_size s) t s = (0, s') /\ Inv s' cs /\ bottom s' = bottom s /\ s'.(mem) = s.(mem).
Proof.
  intros [H Ha] Hsz Hmin Hrec. unfold Attach. rewrite (proj2 (Z.ltb_ge _ _)) by lia. rewrite (ac_version _ _ Ha). cbn [Z.eqb negb DTC_VER_MIN].
  change (4 =? 4) with true. cbn [negb]. rewrite Z.eqb_refl, (proj2 (Z.leb_gt _ _)) by (destruct H as [_ [? _] _ _ _]; lia).
  eexists. split; [reflexivity|]. split; [|done]. split; [by eapply heap_ok_ext; [..|exact H]|].
  destruct (heap_used s cs H) as (? & ? & ? & ?). cbv zeta in *. destruct Ha. unfold MAX_ALLOC_SIZE in *.
  assert (Hs : forall v, 0 <= v <= 4294967288 -> s64 v = v).
  { intros v Hv. apply swrap_small; [lia|]. unfold is_s. change (2 ^ (64 - 1)) with 9223372036854775808. lia. }
  split; try done; cbn; rewrite ?ac_cnt0, ?ac_size0; try done; apply Hs; lia.
Qed.
