(* ===== verification/PtCheck.v ===== *)
(** The invariant of the allocator as a test that can be run on a state of [PtMalloc],
    and states to try theorems on. *)
From Stdlib Require Import ZArith Lia.
From stdpp Require Import base list numbers gmap.
From S2P Require Import Prelude Mem PtMalloc PtHeap PtOps PtFree PtAlloc PtRealloc PtOpsSpec.
Import MemFacts Header Layout BinList.
Local Open Scope Z_scope.

Fixpoint segb (m : memory) (a : Z) (pu : bool) (cs : list chunk) (b : Z) : bool :=
  match cs with
  | [] => (a =? b) && pu
  | c :: cs =>
    (24 <=? csz c) && (csz c mod 8 =? 0) && cseen c && (ld 4 m (a + 4) =? hdr (csz c) pu) &&
    (cused c || pu && (ld 4 m (a + csz c) =? csz c)) && segb m (a + csz c) (cused c) cs b
  end.

(** The chunks of a bin, along its links. *)
Fixpoint walk (fuel : nat) (m : memory) (p h : Z) : option (list Z * Z) :=
  match fuel with
  | O => None
  | S fuel =>
    if h =? 0 then Some ([], p)
    else if ld 8 m (h + 8) =? p then
      match walk fuel m h (ld 8 m (h + 16)) with Some (hs, e) => Some (h :: hs, e) | None => None end
    else None
  end.

Definition binb (fuel : nat) (m : memory) (frs : list (Z * Z)) (bm : list Z) (i : nat) (b : CBin) : bool :=
  match walk fuel m 0 (m_hNextChunk b) with
  | Some (hs, e) =>
    (m_hPreChunk b =? e) && bool_decide (hs ≡ₚ in_bin (Z.of_nat i) frs) &&
    ((m_hNextChunk b =? 0) || Z.testbit (nth (i / 32) bm 0) (Z.of_nat (i mod 32)))
  | None => false
  end.

Fixpoint binsb (fuel : nat) (m : memory) (frs : list (Z * Z)) (bm : list Z) (i : nat) (bs : list CBin) : bool :=
  match bs with
  | [] => true
  | b :: bs => binb fuel m frs bm i b && binsb fuel m frs bm (S i) bs
  end.

Definition heap_okb (s : DTCBinMalloc) (cs : list chunk) : bool :=
  (0 <? bottom s) && (bottom s mod 8 =? 0) && (hTop s + 24 <=? total_size s) && (total_size s <=? MAX_ALLOC_SIZE) &&
  segb s.(mem) (bottom s) true cs (hTop s) && (ld 4 s.(mem) (hTop s + 4) =? hdr 0 true) &&
  (length s.(m_ptBin) =? Z.to_nat NBINS)%nat && (length (bitmap s) =? 4)%nat &&
  binsb (S (length cs)) s.(mem) (frees (bottom s) cs) (bitmap s) 0 s.(m_ptBin).

Lemma segb_sound m a pu cs b : segb m a pu cs b = true -> seg m a pu cs b true /\ all_seen cs.
Proof.
  revert a pu; induction cs as [|c cs IH]; intros a pu; cbn [segb seg].
  - by intros [->%Z.eqb_eq ->]%andb_true_iff.
  - rewrite !andb_true_iff. intros (((((?%Z.leb_le & ?%Z.eqb_eq) & Hc) & ?%Z.eqb_eq) & Hf) & [? ?]%IH). split; [|by constructor].
    split; [|done]. do 3 (split; [done|]). intros Hu. rewrite Hu in Hf. apply andb_true_iff in Hf as [? ?%Z.eqb_eq]. done.
Qed.

Lemma walk_sound fuel m p h hs e : walk fuel m p h = Some (hs, e) -> h = hd 0 hs /\ e = lastd p hs /\ chain m p hs 0.
Proof.
  revert p h hs; induction fuel as [|fuel IH]; intros p h hs; cbn [walk]; [done|].
  destruct (Z.eqb_spec h 0) as [->|]; [by intros [= <- <-]|]. destruct (Z.eqb_spec (ld 8 m (h + 8)) p) as [Ep|]; [|done].
  destruct (walk fuel m h _) as [[hs' e']|] eqn:E; [|done]. intros [= <- <-]. apply IH in E as (Eh & -> & Hc). done.
Qed.

Lemma binsb_sound fuel m frs bm i bs : binsb fuel m frs bm i bs = true ->
  forall j b, bs !! j = Some b -> (exists hs, bin_list m b hs /\ hs ≡ₚ in_bin (Z.of_nat (i + j)) frs) /\
    (m_hNextChunk b <> 0 -> Z.testbit (nth ((i + j) / 32) bm 0) (Z.of_nat ((i + j) mod 32)) = true).
Proof.
  revert i; induction bs as [|b bs IH]; intros i; cbn [binsb]; [done|]. intros [Hb Hbs]%andb_true_iff j c Hc.
  destruct j as [|j]; [|replace (i + S j)%nat with (S i + j)%nat by lia; by apply IH].
  injection Hc as <-. rewrite Nat.add_0_r. unfold binb in Hb. destruct (walk fuel m 0 _) as [[hs e]|] eqn:E; [|done].
  apply walk_sound in E as (? & -> & ?). apply andb_true_iff in Hb as [[?%Z.eqb_eq ?%bool_decide_eq_true]%andb_true_iff Hbit].
  split; [by exists hs|]. intros Hne. rewrite (proj2 (Z.eqb_neq _ _)) in Hbit by done. done.
Qed.

Lemma heap_okb_sound s cs : heap_okb s cs = true -> heap_ok s cs.
Proof.
  unfold heap_okb. rewrite !andb_true_iff.
  intros ((((((((?%Z.ltb_lt & ?%Z.eqb_eq) & ?%Z.leb_le) & ?%Z.leb_le) & [? ?]%segb_sound) & ?%Z.eqb_eq) & ?%Nat.eqb_eq) & ?%Nat.eqb_eq) & Hb).
  pose proof (binsb_sound _ _ _ _ _ _ Hb) as Hbs. split; try done.
  - split; [done|]. intros i b Hi. by destruct (Hbs i b Hi).
  - split; [done|]. intros i b Hi. by destruct (Hbs i b Hi).
Qed.

(** The accounts, tested in the same way. *)
Definition accountsb (s : DTCBinMalloc) (U : list (Z * Z)) : bool :=
  (m_tUserAllocSize (head s) =? bottom s + used_total U) && (m_tUserAllocChunkCnt (head s) =? Z.of_nat (length U)) &&
  (statDataSize (stat s) =? bottom s + used_total U) && (statChunkTotal (stat s) =? Z.of_nat (length U)) &&
  ((minChunkSize (stat s) =? 1) || (24 <=? minChunkSize (stat s)) && (minChunkSize (stat s) <? 2 ^ 32)) &&
  (0 <=? statTmpDataAllocCountRecently (stat s)) && (m_uiFlags (head s) =? 0) && (detect_version s =? DTC_VER_MIN).

Definition Invb (s : DTCBinMalloc) (cs : list chunk) : bool := heap_okb s cs && accountsb s (useds (bottom s) cs).

Lemma Invb_sound s cs :
  Invb s cs = true -> m_ptFastBin s = replicate (Z.to_nat NFASTBINS) no_bin -> m_ptUnsortedBin s = no_bin -> Inv s cs.
Proof.
  unfold Invb, accountsb. rewrite !andb_true_iff, orb_true_iff, andb_true_iff.
  intros (?%heap_okb_sound & ((((((?%Z.eqb_eq & ?%Z.eqb_eq) & ?%Z.eqb_eq) & ?%Z.eqb_eq) & Hm) & ?%Z.leb_le) & ?%Z.eqb_eq) & ?%Z.eqb_eq) Hf Hu.
  split; [done|]. split; try done. destruct Hm as [?%Z.eqb_eq|[?%Z.leb_le ?%Z.ltb_lt]]; [by left|by right].
Qed.

(** ** States to try theorems on *)

Definition stat0 : MallocStat := mkStat 0 0 0 0 0 0 1.
Definition blank : DTCBinMalloc := mkMalloc (mkHead [] 0 0 0 0 0 0 0 0 0 [] 0) [] [] no_bin stat0 ∅.

(** The state after some operations on a fresh segment of 64 kB. *)
Fixpoint after_ops (ops : list (M Z)) (s : DTCBinMalloc) : DTCBinMalloc :=
  match ops with
  | [] => s
  | o :: ops => if o s is Ok (_, s') then after_ops ops s' else blank
  end.
Definition fresh : DTCBinMalloc := if Init 65536 stat0 ∅ is Ok (Some s) then s else blank.

(** Three blocks, then the one in the middle is freed. *)
Definition sample : DTCBinMalloc := after_ops [Malloc 1 100; Malloc 1 200; Malloc 1 300; Free 8320] fresh.
Definition sample_chunks : list chunk := [mkC 104 true; mkC 208 false; mkC 304 true].
