(* ===== verification/PtSpec.v ===== *)
(** What [DTCBinMalloc] promises: a map from handles to byte strings, of which
    [Malloc], [Calloc], [Free], [ReAlloc] and the writes of the program are the obvious
    operations; the code of [PtMalloc] implements it. *)
From Stdlib Require Import ZArith Lia.
From stdpp Require Import base list numbers gmap.
From S2P Require Import Prelude Mem PtMalloc PtHeap PtOps PtFree PtAlloc PtRealloc PtOpsSpec PtCheck.
Import MemFacts Header Layout.
Local Open Scope Z_scope.

Module AllocSpec.

(** ** The abstract heap *)

Abbreviation blocks := (gmap Z (list Z)).

Inductive op : Type :=
  | OMalloc (t : Z)
  | OCalloc (t : Z)
  | OFree (h : Z)
  | OReAlloc (h t : Z)
  | OWrite (h : Z) (i : nat) (bs : list Z).

(** A new block of at least [t] bytes, or none. *)
Definition new_block (A : blocks) (t : Z) (r : Z) (A' : blocks) (good : list Z -> Prop) : Prop :=
  (r = 0 /\ A' = A) \/
  (r <> 0 /\ A !! r = None /\ exists bs, t <= Z.of_nat (length bs) /\ good bs /\ A' = <[r := bs]> A).

Definition spec_step (A : blocks) (o : op) (r : Z) (A' : blocks) : Prop :=
  match o with
  | OMalloc t => new_block A t r A' (fun _ => True)
  | OCalloc t => new_block A t r A' (fun bs => take (Z.to_nat t) bs = replicate (Z.to_nat t) 0)
  | OFree h => r = 0 /\ A' = delete h A
  | OReAlloc h t =>
    if h =? 0 then new_block A t r A' (fun _ => True)
    else if t =? 0 then r = 0 /\ A' = delete h A
    else (r = 0 /\ A' = A) \/
      exists bs, A !! h = Some bs /\ r <> 0 /\
        new_block (delete h A) t r A' (fun bs' => take (Z.to_nat (Z.min t (Z.of_nat (length bs)))) bs' = take (Z.to_nat (Z.min t (Z.of_nat (length bs)))) bs)
  | OWrite h i bs => r = 0 /\ exists old, A !! h = Some old /\ A' = <[h := list_inserts i bs old]> A
  end.

(** What a program may ask for. *)
Definition legal (A : blocks) (o : op) : Prop :=
  match o with
  | OMalloc t | OCalloc t => 0 <= t
  | OFree h => is_Some (A !! h)
  | OReAlloc h t => if h =? 0 then 0 < t else is_Some (A !! h) /\ 0 <= t
  | OWrite h i bs => exists old, A !! h = Some old /\ (i + length bs <= length old)%nat /\ Forall (is_u 8) bs
  end.

(** ** The implementation *)

Definition exec (o : op) (s : DTCBinMalloc) : outcome (Z * DTCBinMalloc) :=
  match o with
  | OMalloc t => Malloc 1 t s
  | OCalloc t => Calloc 1 t s
  | OFree h => Free h s
  | OReAlloc h t => ReAlloc 1 h t s
  | OWrite h i bs => Ok (0, set_mem (put_bytes s.(mem) (h + Z.of_nat i) bs) s)
  end.

(** The bytes of a block, and the abstract heap of the blocks [U]. *)
Definition user (m : memory) (p : Z * Z) : list Z := get_bytes m (p.1 + 8) (Z.to_nat (p.2 - 4)).
Definition heap_of (m : memory) (U : list (Z * Z)) : blocks := list_to_map ((fun p => (p.1 + 8, user m p)) <$> U).

Definition Rel (s : DTCBinMalloc) (A : blocks) : Prop :=
  exists cs, Inv s cs /\ A = heap_of s.(mem) (useds (bottom s) cs).

(** ** Facts on the abstract heap *)

Lemma keys_of m (U : list (Z * Z)) : ((fun p => (p.1 + 8, user m p)) <$> U).*1 = (fun x => x + 8) <$> U.*1.
Proof. by rewrite <-!list_fmap_compose. Qed.

Lemma heap_of_perm m U V : NoDup U.*1 -> U ≡ₚ V -> heap_of m U = heap_of m V.
Proof.
  intros Hn P. apply list_to_map_proper; [|by rewrite P]. rewrite keys_of. apply NoDup_fmap_2; [|done]. intros x y E. lia.
Qed.

Lemma heap_of_cons m p U : heap_of m (p :: U) = <[p.1 + 8 := user m p]> (heap_of m U).
Proof. done. Qed.

Lemma heap_of_none m U h : ~ (h - 8 ∈ U.*1) -> heap_of m U !! h = None.
Proof.
  intros H. apply not_elem_of_list_to_map_1. rewrite keys_of. intros (x & -> & Hx)%list_elem_of_fmap. apply H. by replace (x + 8 - 8) with x by lia.
Qed.

Lemma heap_of_some m U h bs : NoDup U.*1 -> heap_of m U !! h = Some bs <-> exists z, (h - 8, z) ∈ U /\ bs = user m (h - 8, z).
Proof.
  intros Hn. unfold heap_of. rewrite <-elem_of_list_to_map.
  2:{ rewrite keys_of. apply NoDup_fmap_2; [|done]. intros x y E. lia. }
  rewrite list_elem_of_fmap. split.
  - intros ([x z] & [= -> ->] & Hx). exists z. cbn [fst]. by replace (x + 8 - 8) with x by lia.
  - intros (z & Hz & ->). exists (h - 8, z). split; [|done]. cbn [fst]. by replace (h - 8 + 8) with h by lia.
Qed.

Lemma user_length m p : 4 <= p.2 -> Z.of_nat (length (user m p)) = p.2 - 4.
Proof. intros. unfold user. rewrite get_bytes_length. lia. Qed.

Lemma get_bytes_ext m m' a n : same_on a (a + Z.of_nat n) m m' -> get_bytes m a n = get_bytes m' a n.
Proof.
  intros H. apply list_eq. intros i. destruct (decide (i < n)%nat) as [Hi|Hi].
  - rewrite !get_bytes_lookup by done. f_equal. apply H. lia.
  - rewrite !(proj2 (lookup_ge_None _ _)) by (rewrite get_bytes_length; lia). done.
Qed.

Lemma user_keeps U m m' p : keeps U m m' -> p ∈ U -> user m' p = user m p.
Proof. intros H Hp. apply get_bytes_ext. intros x Hx. apply (H p Hp). lia. Qed.

Lemma heap_of_keeps m m' U : keeps U m m' -> heap_of m' U = heap_of m U.
Proof.
  intros H. unfold heap_of. f_equal. apply list_fmap_ext. intros i p Hp%list_elem_of_lookup_2. f_equal. by eapply user_keeps.
Qed.

(** No two blocks at the same address. *)
Lemma useds_nodup a cs : sizes_ok cs -> NoDup (useds a cs).*1.
Proof.
  intros H. revert a; induction H as [|c cs [Hc _] Hcs IH]; intros a; [constructor|]. rewrite useds_cons.
  destruct (cused c); [|by apply IH]. cbn. constructor; [|by apply IH].
  intros (p & E & Hp)%list_elem_of_fmap. apply useds_bounds in Hp; [|done]. lia.
Qed.
Lemma Inv_nodup s cs : Inv s cs -> NoDup (useds (bottom s) cs).*1.
Proof. intros [[_ _ Ht _ _] _]. apply useds_nodup. by eapply (tail_end _ _ _ _ _ Ht). Qed.

Lemma take_get_bytes m a n k : (k <= n)%nat -> take k (get_bytes m a n) = get_bytes m a k.
Proof.
  intros Hk. apply list_eq. intros i. destruct (decide (i < k)%nat) as [Hi|Hi].
  - rewrite lookup_take_lt, !get_bytes_lookup by lia. done.
  - rewrite lookup_take_ge by lia. by rewrite (proj2 (lookup_ge_None _ _)) by (rewrite get_bytes_length; lia).
Qed.

Lemma get_bytes_shift m m' a a' n :
  (forall i, 0 <= i < Z.of_nat n -> byte m (a + i) = byte m' (a' + i)) -> get_bytes m a n = get_bytes m' a' n.
Proof.
  intros H. apply list_eq. intros i. destruct (decide (i < n)%nat) as [Hi|Hi].
  - rewrite !get_bytes_lookup by done. f_equal. apply H. lia.
  - rewrite !(proj2 (lookup_ge_None _ _)) by (rewrite get_bytes_length; lia). done.
Qed.

Lemma get_bytes_zero m a n : (forall x, a <= x < a + Z.of_nat n -> byte m x = 0) -> get_bytes m a n = replicate n 0.
Proof.
  intros H. apply list_eq. intros i. destruct (decide (i < n)%nat) as [Hi|Hi].
  - rewrite get_bytes_lookup, lookup_replicate_2 by done. f_equal. apply H. lia.
  - rewrite (proj2 (lookup_ge_None _ _)) by (rewrite get_bytes_length; lia).
    by rewrite (proj2 (lookup_ge_None _ _)) by (rewrite length_replicate; lia).
Qed.

(** What the program writes. *)
Lemma get_put_bytes m a n i bs :
  (i + length bs <= n)%nat -> Forall (is_u 8) bs -> get_bytes (put_bytes m (a + Z.of_nat i) bs) a n = list_inserts i bs (get_bytes m a n).
Proof.
  intros Hn Hb. apply list_eq. intros j. destruct (decide (j < n)%nat) as [Hj|Hj].
  - rewrite get_bytes_lookup by done. destruct (decide (i <= j < i + length bs)%nat) as [Hin|Hout].
    + rewrite list_lookup_inserts by (rewrite ?get_bytes_length; lia).
      assert (Hlt : (j - i < length bs)%nat) by lia. apply lookup_lt_is_Some in Hlt as [b Hbj]. rewrite Hbj. f_equal.
      replace (a + Z.of_nat j) with (a + Z.of_nat i + Z.of_nat (j - i)) by lia. apply byte_put_in; [done|].
      rewrite Forall_lookup in Hb. by eapply Hb.
    + rewrite byte_put_out by lia. assert (Hc : (j < i)%nat \/ (i + length bs <= j)%nat) by lia.
      destruct Hc; [rewrite list_lookup_inserts_lt by lia|rewrite list_lookup_inserts_ge by lia]; by rewrite get_bytes_lookup.
  - rewrite !(proj2 (lookup_ge_None _ _)) by (rewrite ?length_inserts, ?get_bytes_length; lia). done.
Qed.

(** ** The steps *)

Section Steps.
Context (s : DTCBinMalloc) (cs : list chunk).
Hypothesis HI : Inv s cs.
Abbreviation U := (useds (bottom s) cs).
Abbreviation A := (heap_of (mem s) U).

(** The handle of a block leads to its chunk. *)
Lemma live_chunk h bs : A !! h = Some bs -> exists z, (h - 8, z) ∈ U /\ bs = user s.(mem) (h - 8, z) /\ 24 <= z /\ Z.of_nat (length bs) = z - 4.
Proof.
  intros (z & Hz & ->)%heap_of_some; [|by eapply Inv_nodup]. exists z. do 2 (split; [done|]).
  destruct (heap_bounds _ _ _ (proj1 HI) Hz) as (_ & Hz24 & _). cbn [snd] in Hz24. split; [done|]. rewrite user_length; cbn; lia.
Qed.

Lemma Rel_add s' cs' p z :
  Inv s' cs' -> bottom s' = bottom s -> useds (bottom s) cs' ≡ₚ (p, z) :: U -> keeps U s.(mem) s'.(mem) ->
  A !! (p + 8) = None /\ Rel s' (<[p + 8 := user s'.(mem) (p, z)]> A).
Proof.
  intros HI' Eb P Hk. pose proof (Inv_nodup _ _ HI') as Hn. rewrite Eb in Hn. split.
  - apply heap_of_none. replace (p + 8 - 8) with p by lia. rewrite P in Hn. cbn in Hn. by apply NoDup_cons in Hn as [? _].
  - exists cs'. split; [done|]. rewrite Eb, (heap_of_perm _ _ _ Hn P), heap_of_cons. cbn [fst]. by rewrite (heap_of_keeps _ _ _ Hk).
Qed.

Lemma Rel_same s' : Inv s' cs -> bottom s' = bottom s -> s'.(mem) = s.(mem) -> Rel s' A.
Proof. intros HI' Eb Em. exists cs. split; [done|]. by rewrite Eb, Em. Qed.

Lemma heap_of_delete m p z V : U ≡ₚ (p, z) :: V -> delete (p + 8) (heap_of m U) = heap_of m V.
Proof.
  intros P. pose proof (Inv_nodup _ _ HI) as Hn. rewrite (heap_of_perm _ _ _ Hn P), heap_of_cons. cbn [fst].
  rewrite delete_insert_id; [done|]. apply heap_of_none. replace (p + 8 - 8) with p by lia.
  rewrite P in Hn. cbn in Hn. by apply NoDup_cons in Hn as [? _].
Qed.

Lemma Rel_remove s' cs' p z :
  Inv s' cs' -> bottom s' = bottom s -> U ≡ₚ (p, z) :: useds (bottom s) cs' -> keeps (useds (bottom s) cs') s.(mem) s'.(mem) ->
  Rel s' (delete (p + 8) A).
Proof.
  intros HI' Eb P Hk. exists cs'. split; [done|]. by rewrite Eb, (heap_of_delete _ _ _ _ P), (heap_of_keeps _ _ _ Hk).
Qed.

Lemma malloc_step t : 0 <= t -> exists r s' A', Malloc 1 t s = Ok (r, s') /\ new_block A t r A' (fun _ => True) /\ Rel s' A'.
Proof.
  intros Ht. destruct (Malloc_ok 1 s cs t ltac:(lia) HI Ht) as [(p & z & s' & cs' & E & Hp & Eb & HI' & Hr & Hz & P & Hk)|(s' & E & Eb & HI' & Em & _)].
  - destruct (Rel_add s' cs' p z HI' Eb P Hk) as [Hnone HR]. destruct (request2size_ok t Ht Hr) as (_ & _ & Hn & _).
    eexists _, s', _. split; [exact E|]. split; [right|exact HR]. split; [lia|]. split; [done|]. eexists. split; [|done].
    rewrite user_length; cbn; lia.
  - exists 0, s', A. split; [exact E|]. split; [by left|by apply Rel_same].
Qed.

Lemma calloc_step t : 0 <= t -> exists r s' A', Calloc 1 t s = Ok (r, s') /\
  new_block A t r A' (fun bs => take (Z.to_nat t) bs = replicate (Z.to_nat t) 0) /\ Rel s' A'.
Proof.
  intros Ht. destruct (Calloc_ok 1 s cs t ltac:(lia) HI Ht) as [(p & z & s' & cs' & E & Hp & Eb & HI' & Hz & P & Hk & H0)|(s' & E & Eb & HI' & Em)].
  - destruct (Rel_add s' cs' p z HI' Eb P Hk) as [Hnone HR].
    eexists _, s', _. split; [exact E|]. split; [right|exact HR]. split; [lia|]. split; [done|]. eexists. split; [|split; [|done]].
    + rewrite user_length; cbn; lia.
    + unfold user. cbn [fst snd]. rewrite take_get_bytes by lia. apply get_bytes_zero. intros x Hx. apply H0. lia.
  - exists 0, s', A. split; [exact E|]. split; [by left|by apply Rel_same].
Qed.

Lemma free_step h : is_Some (A !! h) -> exists s', Free h s = Ok (0, s') /\ Rel s' (delete h A).
Proof.
  intros [bs Hb]. destruct (live_chunk _ _ Hb) as (z & Hz & _). destruct (Free_ok s cs _ _ HI Hz) as (s' & cs' & E & Eb & HI' & P & Hk).
  replace (h - 8 + 8) with h in E by lia. exists s'. split; [exact E|].
  pose proof (Rel_remove s' cs' _ _ HI' Eb P Hk) as HR. by replace (h - 8 + 8) with h in HR by lia.
Qed.

Lemma write_step h i bs old :
  A !! h = Some old -> (i + length bs <= length old)%nat -> Forall (is_u 8) bs ->
  Rel (set_mem (put_bytes s.(mem) (h + Z.of_nat i) bs) s) (<[h := list_inserts i bs old]> A).
Proof.
  intros Hb Hl Hu. destruct (live_chunk _ _ Hb) as (z & Hz & -> & Hz24 & Hlen).
  apply list_elem_of_split in Hz as (V & W & EU). assert (P : U ≡ₚ (h - 8, z) :: V ++ W) by (by rewrite EU, Permutation_middle).
  destruct (Inv_write s cs (h - 8) z (put_bytes s.(mem) (h + Z.of_nat i) bs) (V ++ W) HI P) as [HI' Hk].
  { intros x Hx. apply byte_put_out. lia. }
  exists cs. split; [done|]. pose proof (Inv_nodup _ _ HI) as Hn. change (bottom (set_mem _ s)) with (bottom s).
  rewrite !(heap_of_perm _ _ _ Hn P), !heap_of_cons. cbn [fst mem set_mem]. replace (h - 8 + 8) with h by lia.
  rewrite insert_insert_eq, (heap_of_keeps _ _ _ Hk). f_equal.
  unfold user in *. cbn [fst snd] in *. replace (h - 8 + 8) with h in * by lia. rewrite get_put_bytes; [done|lia|done].
Qed.

Lemma realloc_step h t :
  h <> 0 -> is_Some (A !! h) -> 0 <= t -> exists r s' A', ReAlloc 1 h t s = Ok (r, s') /\ spec_step A (OReAlloc h t) r A' /\ Rel s' A'.
Proof.
  intros Hh [bs Hb] Ht. cbn [spec_step]. rewrite (proj2 (Z.eqb_neq h 0)) by done.
  destruct (live_chunk _ _ Hb) as (z & Hz & -> & Hz24 & Hlen).
  destruct (Z.eqb_spec t 0) as [->|Ht0].
  - destruct (ReAlloc_zero 1 s cs _ _ HI Hz) as (s' & cs' & E & Eb & HI' & P & Hk). exists 0, s', (delete h A).
    replace (h - 8 + 8) with h in E by lia. split; [exact E|]. split; [done|]. pose proof (Rel_remove s' cs' _ _ HI' Eb P Hk) as HR. by replace (h - 8 + 8) with h in HR by lia.
  - destruct (REQUEST_OUT_OF_RANGE t) eqn:Er.
    { exists 0, (set_last 0 s), A. split; [|split; [by left|apply Rel_same; [by apply Inv_last|done|done]]].
      unfold ReAlloc, inter_re_alloc, INVALID_HANDLE. rewrite modify_bind, (proj2 (Z.eqb_neq h 0)), (proj2 (Z.eqb_neq t 0)), Er by lia. done. }
    destruct (ReAlloc_ok 0 s cs _ _ t HI Hz ltac:(lia) Er) as [(s' & E & Eb & HI' & Em & _)|(q & z' & s' & V & cs' & E & Hq & Eb & HI' & Hn & P & P' & Hk & Hbytes)].
    { replace (h - 8 + 8) with h in E by lia. exists 0, s', A. split; [exact E|]. split; [by left|by apply Rel_same]. }
    replace (h - 8 + 8) with h in E by lia. destruct (request2size_ok t Ht Er) as (_ & _ & Hn2 & _). exists (q + 8), s', (<[q + 8 := user s'.(mem) (q, z')]> (delete h A)).
    pose proof (heap_of_delete (mem s) _ _ _ P) as Ed. replace (h - 8 + 8) with h in Ed by lia. rewrite Ed.
    pose proof (Inv_nodup _ _ HI') as Hnd. rewrite Eb in Hnd. pose proof Hnd as Hnd'. rewrite P' in Hnd'. cbn in Hnd'. apply NoDup_cons in Hnd' as [Hni _].
    split; [exact E|]. split.
    + right. eexists. split; [exact Hb|]. split; [lia|]. right. split; [lia|].
      split; [apply heap_of_none; by replace (q + 8 - 8) with q by lia|]. eexists. split; [|split; [|done]].
      * rewrite user_length; cbn; lia.
      * rewrite user_length by (cbn; lia). unfold user. cbn [fst snd]. rewrite !take_get_bytes by lia.
        apply get_bytes_shift. intros i Hi. rewrite Hbytes by lia. done.
    + exists cs'. split; [done|]. rewrite Eb, (heap_of_perm _ _ _ Hnd P'), heap_of_cons. cbn [fst]. by rewrite (heap_of_keeps _ _ _ Hk).
Qed.

End Steps.

Lemma step_ok s A o : Rel s A -> legal A o -> exists r s' A', exec o s = Ok (r, s') /\ spec_step A o r A' /\ Rel s' A'.
Proof.
  intros (cs & HI & ->) Hl. destruct o as [t|t|h|h t|h i bs]; cbn [legal exec] in *.
  - by apply malloc_step.
  - by apply calloc_step.
  - destruct (free_step s cs HI h Hl) as (s' & E & HR). by exists 0, s', (delete h (heap_of (mem s) (useds (bottom s) cs))).
  - destruct (Z.eqb_spec h 0) as [->|Hh].
    + rewrite ReAlloc_null by lia. cbn [spec_step Z.eqb]. apply malloc_step; [done|lia].
    + destruct Hl. by apply realloc_step.
  - destruct Hl as (old & Hb & Hlen & Hu). eexists 0, _, _. split; [done|]. split; [split; [done|by exists old]|]. by eapply write_step.
Qed.

(** ** Runs *)

(** A client decides from what it has seen: the operations so far and their results. *)
Abbreviation trace := (list (op * Z)).

Fixpoint run (client : trace -> option op) (n : nat) (tr : trace) (s : DTCBinMalloc) : outcome (trace * DTCBinMalloc) :=
  match n with
  | O => Ok (tr, s)
  | S n =>
    match client tr with
    | None => Ok (tr, s)
    | Some o => let! p := exec o s in run client n (tr ++ [(o, p.1)]) p.2
    end
  end.

Inductive spec_trace : trace -> blocks -> Prop :=
  | spec_nil : spec_trace [] ∅
  | spec_snoc tr A o r A' : spec_trace tr A -> spec_step A o r A' -> spec_trace (tr ++ [(o, r)]) A'.

(** The client keeps the rules as long as the abstract heap does. *)
Definition well_behaved (client : trace -> option op) : Prop :=
  forall tr A o, spec_trace tr A -> client tr = Some o -> legal A o.

Lemma run_ok client n tr s A :
  well_behaved client -> spec_trace tr A -> Rel s A ->
  exists tr' s' A', run client n tr s = Ok (tr', s') /\ spec_trace tr' A' /\ Rel s' A'.
Proof.
  intros Hw. revert tr s A; induction n as [|n IH]; intros tr s A Ht HR; cbn [run]; [by exists tr, s, A|].
  destruct (client tr) as [o|] eqn:Eo; [|by exists tr, s, A].
  destruct (step_ok s A o HR (Hw _ _ _ Ht Eo)) as (r & s' & A' & E & Hs & HR'). rewrite E. cbn [obind fst snd].
  eapply IH; [by econstructor|done].
Qed.

(** C2: the allocator refines a map of handles to byte strings: on a fresh segment every
    run of every client that keeps to the abstract rules ends without a fault, its
    results are those the abstract heap allows, and the memory holds the bytes of the
    abstract heap. *)
Theorem run_refines client n tSize t m :
  8232 <= tSize <= MAX_ALLOC_SIZE -> minChunkSize t = 1 \/ 24 <= minChunkSize t < 2 ^ 32 -> 0 <= statTmpDataAllocCountRecently t ->
  well_behaved client ->
  exists s tr s' A', Init tSize t m = Ok (Some s) /\ run client n [] s = Ok (tr, s') /\ spec_trace tr A' /\ Rel s' A'.
Proof.
  intros Hs Hmin Hrec Hw. destruct (Init_ok tSize t m Hs Hmin Hrec) as (s & E & HI & _). exists s.
  destruct (run_ok client n [] s ∅ Hw) as (tr & s' & A' & E' & Ht & HR); [constructor|by exists []|]. by exists tr, s', A'.
Qed.

(** A client that allocates and, when it got something, frees it. *)
Definition client0 (tr : trace) : option op :=
  match tr with
  | [] => Some (OMalloc 100)
  | [(OMalloc _, h)] => if h =? 0 then None else Some (OFree h)
  | _ => None
  end.

Lemma run_refines_witness :
  exists s tr s' A', Init 65536 stat0 ∅ = Ok (Some s) /\ run client0 2 [] s = Ok (tr, s') /\ spec_trace tr A' /\ Rel s' A'.
Proof.
  apply (run_refines client0 2 65536 stat0 ∅); [done|by left|done|].
  intros tr A o Ht Ec. destruct tr as [|[o1 h] [|]]; cbn in Ec.
  - injection Ec as <-. cbn. lia.
  - destruct o1; try done. destruct (Z.eqb_spec h 0); [done|]. injection Ec as <-. cbn [legal].
    inversion Ht as [|tr' B o' r' A' Ht' Hs E1 E2]. destruct tr' as [|x [|]]; simplify_list_eq. destruct Hs as [[-> _]|(_ & _ & bs & _ & _ & ->)]; [done|].
    rewrite lookup_insert_eq. by eexists.
  - destruct o1; done.
Defined.

(** ** What holds in every state *)

(** C14: the blocks handed out and not freed are aligned, lie in the area between the
    bottom and the top, and no two of them share a byte; each has its length in its
    chunk's header. *)
Theorem live_blocks_apart s A h bs :
  Rel s A -> A !! h = Some bs ->
  h mod 8 = 0 /\ bottom s + 8 <= h /\ h + Z.of_nat (length bs) <= hTop s + 4 /\ 20 <= Z.of_nat (length bs) /\
  get_bytes s.(mem) h (length bs) = bs /\ chunk_size h s = Ok (Z.of_nat (length bs), s) /\
  forall h' bs', A !! h' = Some bs' -> h <> h' -> h + Z.of_nat (length bs) < h' \/ h' + Z.of_nat (length bs') < h.
Proof.
  intros (cs & HI & ->) Hb. destruct (live_chunk s cs HI h bs Hb) as (z & Hz & -> & Hz24 & Hlen).
  destruct (heap_bounds _ _ _ (proj1 HI) Hz) as (? & _ & ? & ? & ?). cbn [fst snd] in *.
  pose proof (chunk_size_ok _ _ _ _ (proj1 HI) Hz) as Ec. rewrite Hlen. replace (h - 8 + 8) with h in Ec by lia.
  split; [|split; [lia|split; [lia|split; [lia|split; [|split; [done|]]]]]].
  - destruct (hk_tail _ _ (proj1 HI)) as (_ & _ & Hsc). destruct (useds_split _ _ _ Hz Hsc) as (l & r & -> & Ep & _). cbn [fst snd] in *.
    destruct (heap_gap _ _ _ _ (proj1 HI)) as (_ & pu & Hg). destruct (hole_aligned _ _ _ _ _ _ _ (proj1 Hg)). zdm.
  - unfold user. rewrite get_bytes_length. cbn [fst snd]. by replace (h - 8 + 8) with h by lia.
  - intros h' bs' Hb' Hne. destruct (live_chunk s cs HI h' bs' Hb') as (z' & Hz' & _ & _ & Hlen').
    pose proof (useds_apart _ _ _ _ _ _ (proj1 HI) Hz Hz') as Hd. lia.
Qed.

Lemma heap_of_list m U : NoDup U.*1 -> map_to_list (heap_of m U) ≡ₚ (fun p => (p.1 + 8, user m p)) <$> U.
Proof. intros Hn. apply map_to_list_to_map. rewrite keys_of. apply NoDup_fmap_2; [|done]. intros x y E. lia. Qed.

Definition sum_sizes (A : blocks) : Z := list_sum_Z ((fun p => Z.of_nat (length p.2) + 4) <$> map_to_list A).

Lemma list_sum_perm l k : l ≡ₚ k -> list_sum_Z l = list_sum_Z k.
Proof. induction 1; cbn in *; lia. Qed.

(** C29: the counters of the header and the statistics agree with the live blocks after
    every run: the number of chunks in use and the bytes they take. *)
Theorem accounts_exact s A :
  Rel s A -> m_tUserAllocChunkCnt (head s) = Z.of_nat (size A) /\ statChunkTotal (stat s) = Z.of_nat (size A) /\
    m_tUserAllocSize (head s) = bottom s + sum_sizes A /\ statDataSize (stat s) = bottom s + sum_sizes A.
Proof.
  intros (cs & HI & ->). pose proof (Inv_nodup _ _ HI) as Hn. pose proof HI as [H []]. set (U := useds (bottom s) cs) in *.
  assert (Es : size (heap_of (mem s) U) = length U).
  { by rewrite <-length_map_to_list, (heap_of_list _ _ Hn), length_fmap. }
  assert (Et : sum_sizes (heap_of (mem s) U) = used_total U).
  { unfold sum_sizes. rewrite (list_sum_perm _ _ (fmap_Permutation _ _ _ (heap_of_list (mem s) _ Hn))), <-list_fmap_compose.
    unfold used_total. f_equal. apply list_fmap_ext. intros i p Hp%list_elem_of_lookup_2. cbn.
    pose proof (heap_bounds _ _ _ H Hp). rewrite user_length; lia. }
  by rewrite Es, Et.
Qed.

(** C18: allocation makes progress: when there is room above the top, or a free chunk of a
    larger bin, [Malloc] hands out a block, which is less than the request rounded up
    and one minimal chunk in size. *)
Theorem Malloc_progress s cs t :
  Inv s cs -> 0 <= t -> REQUEST_OUT_OF_RANGE t = false ->
  hTop s + request2size t + 24 < total_size s \/ (exists p, p ∈ frees (bottom s) cs /\ bin_index (request2size t) < bin_index p.2) ->
  exists r s' cs' z, Malloc 1 t s = Ok (r, s') /\ r <> 0 /\ Inv s' cs' /\ useds (bottom s) cs' ≡ₚ (r - 8, z) :: useds (bottom s) cs /\
    t + 4 <= z < request2size t + get_min_chunk_size s.
Proof.
  intros HI Ht Hr Hroom.
  destruct (Malloc_ok 1 s cs t ltac:(lia) HI Ht) as [(p & z & s' & cs' & E & Hp & Eb & HI' & _ & Hz & P & Hk)|(s' & E & Eb & HI' & Em & [?|[Hf Hall]])].
  - destruct (request2size_ok t Ht Hr) as (_ & _ & Hn & _). exists (p + 8), s', cs', z. split; [exact E|]. split; [lia|].
    split; [done|]. replace (p + 8 - 8) with p by lia. split; [done|lia].
  - congruence.
  - destruct Hroom as [?|(p & Hp & Hlt)]; [lia|]. specialize (Hall p Hp). lia.
Qed.

(** ** The same at a concrete state *)

Lemma sample_Inv : Inv sample sample_chunks.
Proof. apply Invb_sound; vm_compute; reflexivity. Defined.
Definition sample_blocks : blocks := heap_of (mem sample) (useds (bottom sample) sample_chunks).
Lemma sample_Rel : Rel sample sample_blocks.
Proof. exists sample_chunks. split; [apply sample_Inv|done]. Defined.
Lemma sample_block : exists bs, sample_blocks !! 8216 = Some bs.
Proof. eexists. vm_compute. reflexivity. Defined.

Lemma live_blocks_apart_witness : exists bs, sample_blocks !! 8216 = Some bs /\ chunk_size 8216 sample = Ok (Z.of_nat (length bs), sample).
Proof.
  destruct sample_block as [bs Hb]. exists bs. split; [exact Hb|].
  pose proof (live_blocks_apart sample sample_blocks 8216 bs sample_Rel Hb) as (_ & _ & _ & _ & _ & Hc & _). exact Hc.
Defined.

Lemma accounts_exact_witness : m_tUserAllocChunkCnt (head sample) = Z.of_nat (size sample_blocks) /\ m_tUserAllocChunkCnt (head sample) = 2.
Proof. split; [apply (accounts_exact sample sample_blocks sample_Rel)|vm_compute; reflexivity]. Defined.

Lemma Malloc_progress_witness : exists r s' cs' z, Malloc 1 1000 sample = Ok (r, s') /\ r <> 0 /\ Inv s' cs' /\
  useds (bottom sample) cs' ≡ₚ (r - 8, z) :: useds (bottom sample) sample_chunks /\
  1000 + 4 <= z < request2size 1000 + get_min_chunk_size sample.
Proof.
  apply (Malloc_progress sample sample_chunks 1000 sample_Inv); [lia|reflexivity|]. left. vm_compute. reflexivity.
Defined.

(** ** Errors and checks *)

(** Freeing a chunk that is in a bin already is refused with -3, and nothing is
    changed. *)
Theorem Free_twice s cs p z : Inv s cs -> (p, z) ∈ frees (bottom s) cs -> Free (p + 8) s = Ok (-3, s).
Proof. intros [H _] Hp. by eapply Free_free. Qed.

Lemma Free_twice_witness : Free (8312 + 8) sample = Ok (-3, sample).
Proof. apply (Free_twice sample sample_chunks 8312 208 sample_Inv). vm_compute. left. Defined.

(** [INVALID_HANDLE] is 0, the code of success: freeing it counts as one chunk
    freed, and with no chunk in use the count wraps around. *)
Theorem Free_invalid_counts s :
  m_tUserAllocChunkCnt (head s) = 0 ->
  exists s', Free INVALID_HANDLE s = Ok (0, s') /\ m_tUserAllocChunkCnt (head s') = 2 ^ 64 - 1 /\ s'.(mem) = s.(mem) /\ s'.(m_ptBin) = s.(m_ptBin).
Proof. intros H. eexists. split; [reflexivity|]. split; [|done]. cbn. by rewrite H. Qed.

Lemma Free_invalid_counts_witness : exists s', Free INVALID_HANDLE fresh = Ok (0, s') /\ m_tUserAllocChunkCnt (head s') = 2 ^ 64 - 1.
Proof. destruct (Free_invalid_counts fresh) as (s' & E & Ec & _); [vm_compute; reflexivity|]. exists s'. split; [exact E|exact Ec]. Defined.

(** C40: [check_bin] ends after as many steps along each bin as there are chunks, and
    finds no fault in a heap that satisfies the invariant; [Attach] to the segment with
    the right size accepts it and keeps every block, with any other size it is refused. *)
Theorem checks_pass s cs t :
  Inv s cs -> sizeof_MemHead + bins_size + MINSIZE <= total_size s -> minChunkSize t = 1 \/ 24 <= minChunkSize t < 2 ^ 32 ->
  0 <= statTmpDataAllocCountRecently t ->
  check_bin (length cs) s = Ok (0, s) /\
  (exists s', Attach (total_size s) t s = (0, s') /\ Inv s' cs /\ heap_of s'.(mem) (useds (bottom s') cs) = heap_of s.(mem) (useds (bottom s) cs)) /\
  forall n, total_size s < n -> Attach n t s = (-3, s).
Proof.
  intros HI Hsz Hmin Hrec. split; [by eapply check_bin_ok|]. split.
  - destruct (Attach_ok s cs t HI Hsz Hmin Hrec) as (s' & E & HI' & Eb & Em). exists s'. by rewrite Eb, Em.
  - intros n Hn. unfold Attach. rewrite (proj2 (Z.ltb_ge _ _)) by lia. rewrite (ac_version _ _ (proj2 HI)), Z.eqb_refl. cbn [negb].
    by rewrite (proj2 (Z.eqb_neq _ _)) by lia.
Qed.

Lemma checks_pass_witness : check_bin 3 sample = Ok (0, sample) /\ Attach 65537 stat0 sample = (-3, sample).
Proof.
  destruct (checks_pass sample sample_chunks stat0 sample_Inv) as (Hc & _ & Ha); [vm_compute; discriminate|by left|done|].
  split; [exact Hc|]. apply Ha. vm_compute. reflexivity.
Defined.

End AllocSpec.
