(* ===== verification/Mallocator.v ===== *)
(** The allocator as its clients see it: [cache/mallocator.h].

    [Mallocator] is the abstract class of the source, with the reads and writes its
    clients make through [handle_to_ptr]; [MallocatorLaws] is what an implementation
    promises: its state stands for a map from handles to byte strings, which fit into a
    segment of the 64 GB that [cache/buffer_pool.cc] allows. The structures
    in the shared segment are verified against the laws; [DTCBinMalloc] has them. *)
From Stdlib Require Import ZArith Lia.
From stdpp Require Import base list numbers gmap.
From S2P Require Import Prelude Mem PtMalloc PtHeap PtOps PtFree PtAlloc PtRealloc PtOpsSpec PtCheck PtSpec.
Import MemFacts Layout AllocSpec.
Local Open Scope Z_scope.

(** An object at the pointer of the handle [h] has its field at offset [o] at [h + o];
    [mread n] and [mwrite n] access [n] bytes there. *)
Class Mallocator (S : Type) := {
  malloc : Z -> ST S Z;
  calloc : Z -> ST S Z;
  free : Z -> ST S Z;
  realloc : Z -> Z -> ST S Z;
  block_size : Z -> ST S Z;
  mread : nat -> Z -> ST S Z;
  mwrite : nat -> Z -> Z -> ST S unit
}.

Definition EC_NO_MEM : Z := 2041.

Class MallocatorLaws (S : Type) `{!Mallocator S} := {
  heap : S -> blocks -> Prop;
  heap_handle s A h : heap s A -> is_Some (A !! h) -> 0 < h < 2 ^ 64;
  heap_bytes s A h bs : heap s A -> A !! h = Some bs -> bytes_ok bs;
  heap_size s A h bs : heap s A -> A !! h = Some bs -> Z.of_nat (length bs) < 2 ^ 32;
  heap_end s A h bs : heap s A -> A !! h = Some bs -> h + Z.of_nat (length bs) <= 2 ^ 64;
  heap_room s A l n : heap s A -> NoDup l -> 0 <= n ->
    (forall h, h ∈ l -> exists bs, A !! h = Some bs /\ n <= Z.of_nat (length bs)) -> Z.of_nat (length l) * n < 2 ^ 36;
  malloc_law s A t : heap s A -> 0 <= t ->
    exists r s' A', malloc t s = Ok (r, s') /\ new_block A t r A' (fun _ => True) /\ heap s' A';
  calloc_law s A t : heap s A -> 0 <= t ->
    exists r s' A', calloc t s = Ok (r, s') /\ new_block A t r A' (fun bs => take (Z.to_nat t) bs = replicate (Z.to_nat t) 0) /\ heap s' A';
  free_law s A h : heap s A -> is_Some (A !! h) -> exists s', free h s = Ok (0, s') /\ heap s' (delete h A);
  realloc_law s A h bs t : heap s A -> A !! h = Some bs -> 0 < t ->
    exists r s' A', realloc h t s = Ok (r, s') /\ heap s' A' /\
      ((r = 0 /\ A' = A) \/ (r <> 0 /\ new_block (delete h A) t r A' (fun bs' =>
        take (Z.to_nat (Z.min t (Z.of_nat (length bs)))) bs' = take (Z.to_nat (Z.min t (Z.of_nat (length bs)))) bs)));
  block_size_law s A h bs : heap s A -> A !! h = Some bs -> block_size h s = Ok (Z.of_nat (length bs), s);
  mread_law n s A h bs (o : nat) : heap s A -> A !! h = Some bs -> (o + n <= length bs)%nat ->
    mread n (h + Z.of_nat o) s = Ok (le_value (take n (drop o bs)), s);
  mwrite_law n s A h bs (o : nat) v : heap s A -> A !! h = Some bs -> (o + n <= length bs)%nat ->
    exists s', mwrite n (h + Z.of_nat o) v s = Ok (tt, s') /\ heap s' (<[h := list_inserts o (le_bytes n v) bs]> A)
}.

(** ** [DTCBinMalloc] *)

#[export] Instance DTCBinMalloc_Mallocator : Mallocator DTCBinMalloc := {
  malloc := Malloc 1;
  calloc := Calloc 1;
  free := Free;
  realloc := ReAlloc 1;
  block_size := chunk_size;
  mread := load;
  mwrite := store
}.

Lemma ld_get_bytes n m a : ld n m a = le_value (get_bytes m a n).
Proof.
  revert a; induction n as [|n IH]; intros a; [done|]. cbn [ld]. rewrite IH. unfold get_bytes. cbn [seq fmap list_fmap le_value].
  rewrite Z.add_0_r. do 3 f_equal. rewrite <-fmap_S_seq, <-list_fmap_compose. apply list_fmap_ext. intros i x _. cbn. f_equal. lia.
Qed.

Lemma sto_put_bytes n m a v : sto n m a v = put_bytes m a (le_bytes n v).
Proof. revert a v; induction n as [|n IH]; intros a v; [done|]. cbn [sto le_bytes put_bytes]. by rewrite IH. Qed.

Lemma get_bytes_sub m a n o k : (o + k <= n)%nat -> take k (drop o (get_bytes m a n)) = get_bytes m (a + Z.of_nat o) k.
Proof.
  intros H. apply list_eq. intros i. destruct (decide (i < k)%nat) as [Hi|Hi].
  - rewrite lookup_take_lt, lookup_drop, !get_bytes_lookup by lia. do 2 f_equal. lia.
  - rewrite lookup_take_ge by lia. by rewrite (proj2 (lookup_ge_None _ _)) by (rewrite get_bytes_length; lia).
Qed.

(** A block lies in the area that may be accessed. *)
Lemma live_area s A h bs o n : Rel s A -> A !! h = Some bs -> (o + n <= length bs)%nat -> in_area s (h + Z.of_nat o) (Z.of_nat n) = true.
Proof.
  intros (cs & HI & ->) Hb Hn. destruct (live_chunk s cs HI h bs Hb) as (z & Hz & -> & Hz24 & Hlen).
  pose proof (heap_bounds _ _ _ (proj1 HI) Hz) as Hbd. cbn [fst snd] in Hbd. unfold in_area.
  apply andb_true_iff; split; apply Z.leb_le; lia.
Qed.

Lemma live_handle s A h : Rel s A -> is_Some (A !! h) -> 0 < h < 2 ^ 64.
Proof.
  intros (cs & HI & ->) [bs Hb]. destruct (live_chunk s cs HI h bs Hb) as (z & Hz & _).
  pose proof (heap_bounds _ _ _ (proj1 HI) Hz) as Hbd. cbn [fst snd] in Hbd. unfold MAX_ALLOC_SIZE in Hbd.
  change (2 ^ 64) with 0x10000000000000000. lia.
Qed.

Lemma live_user s A h bs : Rel s A -> A !! h = Some bs -> bs = get_bytes (mem s) h (length bs).
Proof.
  intros (cs & HI & ->) Hb. destruct (live_chunk s cs HI h bs Hb) as (z & _ & -> & _ & _).
  unfold user. rewrite get_bytes_length. cbn [fst]. by replace (h - 8 + 8) with h by lia.
Qed.

Lemma load_law n s A h bs o :
  Rel s A -> A !! h = Some bs -> (o + n <= length bs)%nat -> load n (h + Z.of_nat o) s = Ok (le_value (take n (drop o bs)), s).
Proof.
  intros HR Hb Hn. unfold load. rewrite (live_area s A h bs o n HR Hb Hn). do 2 f_equal.
  rewrite (live_user _ _ _ _ HR Hb), get_bytes_sub by done. apply ld_get_bytes.
Qed.

Lemma store_law n s A h bs o v :
  Rel s A -> A !! h = Some bs -> (o + n <= length bs)%nat ->
  exists s', store n (h + Z.of_nat o) v s = Ok (tt, s') /\ Rel s' (<[h := list_inserts o (le_bytes n v) bs]> A).
Proof.
  intros HR Hb Hn. unfold store. rewrite (live_area s A h bs o n HR Hb Hn), sto_put_bytes. eexists. split; [done|].
  destruct HR as (cs & HI & ->). apply (write_step s cs HI); [done|by rewrite le_bytes_length|apply le_bytes_ok].
Qed.

Lemma live_bytes s A h bs : Rel s A -> A !! h = Some bs -> bytes_ok bs.
Proof.
  intros HR Hb. rewrite (live_user _ _ _ _ HR Hb). apply Forall_fmap, Forall_true. intros i. apply byte_range.
Qed.

Lemma live_small s A h bs : Rel s A -> A !! h = Some bs -> Z.of_nat (length bs) < 2 ^ 32.
Proof.
  intros (cs & HI & ->) Hb. destruct (live_chunk s cs HI h bs Hb) as (z & Hz & _ & _ & Hlen).
  pose proof (heap_bounds _ _ _ (proj1 HI) Hz) as Hbd. cbn [fst snd] in Hbd. unfold MAX_ALLOC_SIZE in Hbd.
  change (2 ^ 32) with 0x100000000. lia.
Qed.

Lemma live_end s A h bs : Rel s A -> A !! h = Some bs -> h + Z.of_nat (length bs) <= 2 ^ 64.
Proof.
  intros (cs & HI & ->) Hb. destruct (live_chunk s cs HI h bs Hb) as (z & Hz & _ & _ & Hlen).
  pose proof (heap_bounds _ _ _ (proj1 HI) Hz) as Hbd. cbn [fst snd] in Hbd. unfold MAX_ALLOC_SIZE in Hbd.
  change (2 ^ 64) with 0x10000000000000000. lia.
Qed.

(** Different blocks take their sizes together. *)
Lemma used_total_nonneg (U : list (Z * Z)) : (forall p, p ∈ U -> 0 <= p.2) -> 0 <= used_total U.
Proof.
  induction U as [|[p z] U IH]; intros H; [done|]. rewrite used_total_cons.
  pose proof (H (p, z) ltac:(by left)) as Hz. cbn in Hz. assert (0 <= used_total U) by (apply IH; intros q Hq; apply H; by right). lia.
Qed.

Lemma used_total_room l n (U : list (Z * Z)) : NoDup l -> (forall p, p ∈ U -> 0 <= p.2) ->
  (forall h, h ∈ l -> exists z, (h - 8, z) ∈ U /\ n <= z) -> Z.of_nat (length l) * n <= used_total U.
Proof.
  intros Hl. revert U; induction Hl as [|h l Hh Hl IH]; intros U Hpos H; [by apply used_total_nonneg|].
  destruct (H h ltac:(by left)) as (z & [U' P]%elem_of_Permutation & Hz). rewrite (used_total_perm _ _ P), used_total_cons.
  assert (HU : forall p, p ∈ U' -> 0 <= p.2) by (intros p Hp; apply Hpos; rewrite P; by right).
  specialize (IH U' HU). assert (Z.of_nat (length l) * n <= used_total U'); [|cbn [length]; lia].
  apply IH. intros x Hx. destruct (H x ltac:(by right)) as (y & Hy & Hn). exists y. split; [|done].
  rewrite P in Hy. apply elem_of_cons in Hy as [[= E _]|Hy]; [|done]. by replace x with h in Hx by lia.
Qed.

Lemma used_total_le a cs : sizes_ok cs -> used_total (useds a cs) <= total cs.
Proof.
  intros H. revert a; induction H as [|c cs [Hc _] Hcs IH]; intros a; [done|]. rewrite useds_cons, total_cons. specialize (IH (a + csz c)).
  destruct (cused c); cbn [app]; [rewrite used_total_cons|]; lia.
Qed.

Lemma live_room s A l n : Rel s A -> NoDup l -> 0 <= n ->
  (forall h, h ∈ l -> exists bs, A !! h = Some bs /\ n <= Z.of_nat (length bs)) -> Z.of_nat (length l) * n < 2 ^ 36.
Proof.
  intros (cs & HI & ->) Hl Hn H. assert (Z.of_nat (length l) * n <= used_total (useds (bottom s) cs)).
  - apply used_total_room; [done| |].
    + intros p Hp. pose proof (heap_bounds _ _ _ (proj1 HI) Hp). lia.
    + intros h Hh. destruct (H h Hh) as (bs & Hb & Hle). destruct (live_chunk s cs HI h bs Hb) as (z & Hz & _ & _ & El). exists z. split; [done|lia].
  - destruct (proj1 HI) as [[Hb _] [Hs HM] Ht _ _]. destruct (tail_end _ _ _ _ _ Ht) as [Et Hsz].
    pose proof (used_total_le (bottom s) cs Hsz). unfold MAX_ALLOC_SIZE in HM. change (2 ^ 36) with 0x1000000000. lia.
Qed.

Lemma realloc_ok s A h bs t : Rel s A -> A !! h = Some bs -> 0 < t ->
  exists r s' A', ReAlloc 1 h t s = Ok (r, s') /\ Rel s' A' /\
    ((r = 0 /\ A' = A) \/ (r <> 0 /\ new_block (delete h A) t r A' (fun bs' =>
      take (Z.to_nat (Z.min t (Z.of_nat (length bs)))) bs' = take (Z.to_nat (Z.min t (Z.of_nat (length bs)))) bs))).
Proof.
  intros HR Hb Ht. pose proof (live_handle _ _ _ HR (ex_intro _ _ Hb)) as Hh.
  assert (Hz : (h =? 0) = false) by (apply Z.eqb_neq; lia).
  destruct (step_ok s A (OReAlloc h t) HR) as (r & s' & A' & E & Hstep & HR').
  { cbn. rewrite Hz. split; [by exists bs|lia]. }
  exists r, s', A'. split; [exact E|split; [exact HR'|]].
  cbn in Hstep. rewrite Hz, (proj2 (Z.eqb_neq t 0)) in Hstep by lia.
  destruct Hstep as [Hn|(bs' & Hb' & Hr & Hn)]; [by left|right]. rewrite Hb in Hb'. injection Hb' as <-. done.
Qed.

Lemma Rel_chunk_size s A h bs : Rel s A -> A !! h = Some bs -> chunk_size h s = Ok (Z.of_nat (length bs), s).
Proof.
  intros (cs & HI & ->) Hb. destruct (live_chunk s cs HI h bs Hb) as (z & Hz & _ & _ & Hlen).
  pose proof (chunk_size_ok _ _ _ _ (proj1 HI) Hz) as E. by rewrite Hlen; replace (h - 8 + 8) with h in E by lia.
Qed.

#[export] Instance DTCBinMalloc_laws : MallocatorLaws DTCBinMalloc.
Proof.
  refine {| heap := Rel |}.
  - apply live_handle.
  - apply live_bytes.
  - apply live_small.
  - apply live_end.
  - apply live_room.
  - intros s A t HR Ht. apply (step_ok s A (OMalloc t) HR Ht).
  - intros s A t HR Ht. apply (step_ok s A (OCalloc t) HR Ht).
  - intros s A h HR Hh. destruct (step_ok s A (OFree h) HR Hh) as (r & s' & A' & E & [-> ->] & HR'). by exists s'.
  - apply realloc_ok.
  - apply Rel_chunk_size.
  - apply load_law.
  - apply store_law.
Defined.
