(* ===== verification/Bump.v ===== *)
(** A second allocator that keeps the laws of [Mallocator]: it only moves forward and gives
    nothing back. It starts with a segment of zeros, so a run of a client can be computed on
    it; the clients' witnesses do. *)
From Stdlib Require Import ZArith Lia.
From stdpp Require Import base list list_numbers numbers gmap.
From S2P Require Import Prelude Mem PtMalloc PtHeap PtOpsSpec PtSpec Mallocator.
Import MemFacts AllocSpec.
Local Open Scope Z_scope.

Module Bump.

Record Bump := mkBump { b_next : Z; b_mem : memory; b_blocks : gmap Z Z }.
Definition LIMIT : Z := 2 ^ 30.
Definition take_block (t : Z) : ST Bump Z := fun s =>
  if b_next s + t <? LIMIT then Ok (b_next s, mkBump (b_next s + t + 1) (b_mem s) (<[b_next s := t]> (b_blocks s))) else Ok (0, s).
#[export] Instance Bump_Mallocator : Mallocator Bump := {
  malloc := take_block;
  calloc := take_block;
  free := fun h s => Ok (0, mkBump (b_next s) (b_mem s) (delete h (b_blocks s)));
  realloc := fun h t s =>
    match b_blocks s !! h with
    | None => Fault
    | Some n =>
      let! x := take_block t s in
      if x.1 =? 0 then Ok (0, s)
      else Ok (x.1, mkBump (b_next x.2) (mem_move (b_mem x.2) x.1 h (Z.to_nat (Z.min t n))) (delete h (b_blocks x.2)))
    end;
  block_size := fun h s => match b_blocks s !! h with None => Fault | Some n => Ok (n, s) end;
  mread := fun n a s => Ok (ld n (b_mem s) a, s);
  mwrite := fun n a v s => Ok (tt, mkBump (b_next s) (sto n (b_mem s) a v) (b_blocks s))
}.
Definition empty_bump : Bump := mkBump 8 ∅ ∅.

Record good (s : Bump) : Prop := {
  gd_next : 0 < b_next s <= LIMIT + 1;
  gd_block h n : b_blocks s !! h = Some n -> 0 < h /\ 0 <= n /\ h + n < b_next s;
  gd_apart h n h' n' : b_blocks s !! h = Some n -> b_blocks s !! h' = Some n' -> h < h' -> h + n < h';
  gd_zero a : b_next s <= a -> byte (b_mem s) a = 0
}.
Definition bytes_of (s : Bump) (h n : Z) : list Z := get_bytes (b_mem s) h (Z.to_nat n).
Definition holds (s : Bump) (A : blocks) : Prop := good s /\ forall h, A !! h = bytes_of s h <$> b_blocks s !! h.

Lemma held s A h bs : holds s A -> A !! h = Some bs -> exists n, b_blocks s !! h = Some n /\ bs = bytes_of s h n /\ Z.of_nat (length bs) = n.
Proof.
  intros [HG HA] Hb. rewrite HA in Hb. apply fmap_Some in Hb as (n & Hn & ->). exists n. split; [done|]. split; [done|].
  destruct (gd_block s HG h n Hn). unfold bytes_of. rewrite get_bytes_length. lia.
Qed.

(** The blocks of a list take their sizes together. *)
Lemma room_below s (l : list Z) n : good s -> forall B, NoDup l -> 0 <= n -> 0 <= B ->
  (forall h, h ∈ l -> exists m, b_blocks s !! h = Some m /\ n <= m /\ h + m <= B) -> Z.of_nat (length l) * n <= B.
Proof.
  intros HG. induction (length l) as [|k IH] eqn:E in l |- *; intros B Hl Hn HB H; [lia|].
  assert (Hmax : exists h, h ∈ l /\ forall x, x ∈ l -> x <= h).
  { clear -E. assert (l <> []) as Hne by by destruct l. clear E. induction l as [|x l IH]; [done|]. destruct l as [|y l].
    - exists x. split; [by left|]. intros z ->%list_elem_of_singleton. done.
    - destruct IH as (h & Hh & Hm); [done|]. destruct (Z.le_ge_cases x h); [exists h|exists x]; (split; [|intros z [->|Hz]%elem_of_cons; [lia|pose proof (Hm z Hz); lia]]); [by right|by left]. }
  destruct Hmax as (h & Hh & Hm). apply elem_of_Permutation in Hh as [l' P]. rewrite P in Hl. apply NoDup_cons in Hl as [Hnl Hl].
  destruct (H h) as (m & Em & Hnm & Hhm); [rewrite P; by left|]. destruct (gd_block s HG h m Em) as (Hp & Hm0 & _).
  assert (El : length l' = k) by (rewrite P in E; cbn in E; lia). specialize (IH l' El h Hl Hn ltac:(lia)).
  assert (Z.of_nat k * n <= h); [|lia]. apply IH. intros x Hx. destruct (H x) as (mx & Ex & Hnx & _); [rewrite P; by right|].
  exists mx. split; [done|]. split; [done|]. assert (x <> h) by congruence. pose proof (Hm x ltac:(rewrite P; by right)).
  pose proof (gd_apart s HG x mx h m Ex Em ltac:(lia)). lia.
Qed.

Lemma take_ok s A t (P : list Z -> Prop) : holds s A -> 0 <= t -> P (replicate (Z.to_nat t) 0) ->
  exists r s' A', take_block t s = Ok (r, s') /\ new_block A t r A' P /\ holds s' A' /\
    (r <> 0 -> b_mem s' = b_mem s /\ r = b_next s /\ b_blocks s' = <[r := t]> (b_blocks s) /\ A !! r = None /\ A' = <[r := replicate (Z.to_nat t) 0]> A).
Proof.
  intros [[Gn Gb Ga Gz] HA] Ht HP. unfold take_block. destruct (Z.ltb_spec (b_next s + t) LIMIT) as [Hl|Hl].
  2: { exists 0, s, A. split; [done|]. split; [by left|]. split; [by split|done]. }
  set (h := b_next s) in *. set (s' := mkBump _ _ _).
  assert (Hnone : b_blocks s !! h = None). { destruct (b_blocks s !! h) as [n|] eqn:E; [|done]. destruct (Gb h n E). lia. }
  assert (HN : A !! h = None) by by rewrite HA, Hnone.
  assert (Ez : bytes_of s' h t = replicate (Z.to_nat t) 0) by (apply get_bytes_zero; intros x Hx; apply Gz; lia).
  assert (HA' : holds s' (<[h := replicate (Z.to_nat t) 0]> A)).
  { split; [split|].
    - cbn. lia.
    - intros x n. cbn. rewrite lookup_insert_Some. intros [[<- <-]|[_ Hx]]; [lia|]. destruct (Gb x n Hx). lia.
    - intros x n y m. cbn. rewrite !lookup_insert_Some. intros [[<- <-]|[_ Hx]] [[<- <-]|[_ Hy]] Hxy; [lia| | |by eapply Ga].
      + destruct (Gb y m Hy). lia.
      + destruct (Gb x n Hx). lia.
    - intros a Ha. cbn in *. apply Gz. lia.
    - intros x. cbn. destruct (decide (x = h)) as [->|Hne]; [by rewrite !lookup_insert_eq, <-Ez|rewrite !lookup_insert_ne by done; apply HA]. }
  exists h, s', (<[h := replicate (Z.to_nat t) 0]> A). split; [done|]. split; [|by split].
  right. split; [lia|]. split; [done|]. eexists. split; [|split; [exact HP|reflexivity]]. rewrite length_replicate. lia.
Qed.

Lemma hold_delete s A h : holds s A -> holds (mkBump (b_next s) (b_mem s) (delete h (b_blocks s))) (delete h A).
Proof.
  intros [[Gn Gb Ga Gz] HA]. split; [split|]; cbn; try done.
  - intros x n [_ Hx]%lookup_delete_Some. by apply Gb.
  - intros x n y m [_ Hx]%lookup_delete_Some [_ Hy]%lookup_delete_Some. by apply (Ga x n y m).
  - intros x. destruct (decide (x = h)) as [->|Hne]; [by rewrite !lookup_delete_eq|by rewrite !lookup_delete_ne].
Qed.

(** A write inside a block. *)
Lemma hold_write s A h bs (o : nat) ws : holds s A -> A !! h = Some bs -> (o + length ws <= length bs)%nat -> bytes_ok ws ->
  holds (mkBump (b_next s) (put_bytes (b_mem s) (h + Z.of_nat o) ws) (b_blocks s)) (<[h := list_inserts o ws bs]> A).
Proof.
  intros HS Hb Ho Hw. pose proof HS as [[Gn Gb Ga Gz] HA]. destruct (held s A h bs HS Hb) as (n & En & -> & El). destruct (Gb h n En) as (Hh & Hn & Hlt).
  split; [split; cbn; try done|].
  - intros a Ha. rewrite byte_put_out; [by apply Gz|lia].
  - intros x. cbn. destruct (decide (x = h)) as [->|Hne].
    + rewrite lookup_insert_eq, En. cbn. f_equal. unfold bytes_of in *. rewrite get_bytes_length in *. symmetry. apply get_put_bytes; [lia|done].
    + rewrite lookup_insert_ne, HA by done. destruct (b_blocks s !! x) as [m|] eqn:Ex; [|done]. cbn. f_equal. unfold bytes_of. cbn. apply get_bytes_ext.
      intros y Hy. symmetry. apply byte_put_out. destruct (Gb x m Ex). rewrite Z2Nat.id in Hy by lia.
      destruct (Z.lt_ge_cases x h); [pose proof (Ga x m h n Ex En ltac:(lia))|pose proof (Ga h n x m En Ex ltac:(lia))]; lia.
Qed.

Lemma realloc_holds s A h bs t : holds s A -> A !! h = Some bs -> 0 < t ->
  exists r s' A', realloc h t s = Ok (r, s') /\ holds s' A' /\
    ((r = 0 /\ A' = A) \/ (r <> 0 /\ new_block (delete h A) t r A' (fun bs' =>
      take (Z.to_nat (Z.min t (Z.of_nat (length bs)))) bs' = take (Z.to_nat (Z.min t (Z.of_nat (length bs)))) bs))).
Proof.
  intros HS Hb Ht. destruct (held s A h bs HS Hb) as (n & En & Eb & El). cbn [realloc Bump_Mallocator]. rewrite En.
  destruct (take_ok s A t (fun _ => True) HS ltac:(lia) I) as (r & s1 & A1 & E1 & Hnew & H1 & Hr). rewrite E1. cbn [obind fst snd].
  destruct (Z.eqb_spec r 0) as [->|Hr0]; [exists 0, s, A; split; [done|]; split; [done|by left]|].
  destruct (Hr Hr0) as (Em & Er & Ebl & HN & ->). assert (Hrh : r <> h) by congruence. set (k := Z.to_nat (Z.min t n)).
  set (ws := get_bytes (b_mem s1) h k). assert (Hk : (k <= length bs)%nat) by lia.
  assert (HW : holds (mkBump (b_next s1) (put_bytes (b_mem s1) (r + Z.of_nat 0) ws) (b_blocks s1)) (<[r := list_inserts 0 ws (replicate (Z.to_nat t) 0)]> (<[r := replicate (Z.to_nat t) 0]> A))).
  { apply hold_write; [done|by rewrite lookup_insert_eq| |].
    - unfold ws. rewrite get_bytes_length, length_replicate. lia.
    - unfold ws. apply Forall_fmap, Forall_true. intros i. apply byte_range. }
  rewrite insert_insert_eq in HW. apply (hold_delete _ _ h) in HW. cbn [b_next b_mem b_blocks] in HW. rewrite Z.add_0_r, delete_insert_ne in HW by done.
  eexists r, _, _. split; [reflexivity|]. split; [exact HW|]. right. split; [done|]. right. split; [done|]. split; [by rewrite lookup_delete_ne|].
  eexists. split; [|split; [|reflexivity]].
  - rewrite length_inserts, length_replicate. lia.
  - rewrite El. fold k. assert (Ew : ws = take k bs). { unfold ws. rewrite Eb, Em. unfold bytes_of. symmetry. apply take_get_bytes. lia. }
    rewrite <-Ew. assert (Lw : length ws = k) by (unfold ws; by rewrite get_bytes_length).
    apply list_eq. intros i. destruct (decide (i < k)%nat) as [Hi|Hi].
    + rewrite lookup_take_lt, list_lookup_inserts by (rewrite ?length_replicate; lia). f_equal. lia.
    + rewrite !lookup_take_ge by lia. symmetry. apply lookup_ge_None. lia.
Qed.

#[export] Instance Bump_laws : MallocatorLaws Bump.
Proof.
  refine {| heap := holds |}.
  - intros s A h HS [bs Hb]. destruct (held s A h bs HS Hb) as (n & En & _). destruct HS as [[Gn Gb _ _] _]. destruct (Gb h n En). unfold LIMIT in *. lia.
  - intros s A h bs HS Hb. destruct (held s A h bs HS Hb) as (n & _ & -> & _). apply Forall_fmap, Forall_true. intros i. apply byte_range.
  - intros s A h bs HS Hb. destruct (held s A h bs HS Hb) as (n & En & _ & El). destruct HS as [[Gn Gb _ _] _]. destruct (Gb h n En). unfold LIMIT in *. lia.
  - intros s A h bs HS Hb. destruct (held s A h bs HS Hb) as (n & En & _ & El). destruct HS as [[Gn Gb _ _] _]. destruct (Gb h n En). unfold LIMIT in *. lia.
  - intros s A l n HS Hl Hn H. pose proof HS as [HG _]. pose proof (gd_next s HG) as Hnx. unfold LIMIT in Hnx.
    assert (Z.of_nat (length l) * n <= b_next s); [|lia]. apply (room_below s l n HG); [done|done|lia|]. intros h Hh. destruct (H h Hh) as (bs & Hb & Hle).
    destruct (held s A h bs HS Hb) as (m & Em & _ & El). exists m. destruct (gd_block s HG h m Em). split; [done|lia].
  - intros s A t HS Ht. destruct (take_ok s A t (fun _ => True) HS Ht I) as (r & s' & A' & E & Hn & H' & _). by exists r, s', A'.
  - intros s A t HS Ht. destruct (take_ok s A t (fun bs => take (Z.to_nat t) bs = replicate (Z.to_nat t) 0) HS Ht) as (r & s' & A' & E & Hn & H' & _).
    { apply take_ge. by rewrite length_replicate. }
    by exists r, s', A'.
  - intros s A h HS _. eexists. split; [reflexivity|]. by apply hold_delete.
  - apply realloc_holds.
  - intros s A h bs HS Hb. destruct (held s A h bs HS Hb) as (n & En & _ & ->). cbn. by rewrite En.
  - intros n s A h bs o HS Hb Ho. destruct (held s A h bs HS Hb) as (m & En & -> & El). unfold bytes_of in *. rewrite get_bytes_length in *.
    cbn. rewrite ld_get_bytes, get_bytes_sub by lia. done.
  - intros n s A h bs o v HS Hb Ho. eexists. split; [reflexivity|]. rewrite sto_put_bytes. apply (hold_write s A h bs o (le_bytes n v)); [done|done|by rewrite le_bytes_length|apply le_bytes_ok].
Defined.

Lemma empty_holds : heap empty_bump (∅ : blocks).
Proof. split; [|done]. by split; cbn. Qed.
End Bump.
