(* ===== verification/NodeTable.v ===== *)
(** The node table: [cache/node_set.h], [cache/node_set.cc], [cache/node.h],
    [cache/node_list.h], [cache/node_index.h], [cache/node_index.cc], [cache/ng_list.h],
    [cache/ng_info.h] and [cache/ng_info.cc].

    A node stands for a key of the cache. Nodes live in groups of 256, [NODE_SET]s, in
    the shared segment, and are named by 32-bit ids, which [NodeIndex] maps to groups;
    [NGInfo] hands them out and keeps the eviction lists. The functions work on the
    allocator's memory through the interface of [Mallocator]; what the process keeps
    outside the segment, the members of the singletons and the static variables, is
    the record [Pool]. Statistics and error texts are left out. *)
From Stdlib Require Import ZArith Lia.
From stdpp Require Import base list numbers gmap.
From S2P Require Import Prelude PtMalloc Mallocator.
Local Open Scope Z_scope.

Definition INVALID_NODE_ID : Z := 2 ^ 32 - 1.
Definition SYS_MIN_NODE_ID : Z := 0.
Definition SYS_DIRTY_NODE_INDEX : Z := 0.
Definition SYS_CLEAN_NODE_INDEX : Z := 1.
Definition SYS_EMPTY_NODE_INDEX : Z := 2.
Definition LRU_PREV : Z := 0.
Definition LRU_NEXT : Z := 1.
Definition NODE_GROUP_INCLUDE_NODES : Z := 256.

(** What the process keeps: [NodeIndex::_firstIndex], [NGInfo::_ngInfo] and the static
    variables of [NGInfo::allocate_node], [NGInfo::emptyCnt] and
    [NGInfo::emptyStartupMode], [DTCHash::_hash], and the members of [DTCBufferPool]. *)
Record Pool := mkPool {
  _firstIndex : Z;
  _ngInfo : Z;
  alloc_step : Z;
  alloc_fail : bool;
  emptyCnt : Z;
  emptyStartupMode : Z;
  _hash : Z;
  _need_purge_node_count : Z;
  firstMarkerTime : Z;
  lastMarkerTime : Z
}.

Definition set_firstIndex (v : Z) (p : Pool) : Pool :=
  mkPool v p.(_ngInfo) p.(alloc_step) p.(alloc_fail) p.(emptyCnt) p.(emptyStartupMode) p.(_hash) p.(_need_purge_node_count)
    p.(firstMarkerTime) p.(lastMarkerTime).
Definition set_ngInfo (v : Z) (p : Pool) : Pool :=
  mkPool p.(_firstIndex) v p.(alloc_step) p.(alloc_fail) p.(emptyCnt) p.(emptyStartupMode) p.(_hash) p.(_need_purge_node_count)
    p.(firstMarkerTime) p.(lastMarkerTime).
Definition set_alloc (step : Z) (fail : bool) (p : Pool) : Pool :=
  mkPool p.(_firstIndex) p.(_ngInfo) step fail p.(emptyCnt) p.(emptyStartupMode) p.(_hash) p.(_need_purge_node_count)
    p.(firstMarkerTime) p.(lastMarkerTime).
Definition set_emptyCnt (v : Z) (p : Pool) : Pool :=
  mkPool p.(_firstIndex) p.(_ngInfo) p.(alloc_step) p.(alloc_fail) v p.(emptyStartupMode) p.(_hash) p.(_need_purge_node_count)
    p.(firstMarkerTime) p.(lastMarkerTime).
Definition set_emptyStartupMode (v : Z) (p : Pool) : Pool :=
  mkPool p.(_firstIndex) p.(_ngInfo) p.(alloc_step) p.(alloc_fail) p.(emptyCnt) v p.(_hash) p.(_need_purge_node_count)
    p.(firstMarkerTime) p.(lastMarkerTime).
Definition set_hash (v : Z) (p : Pool) : Pool :=
  mkPool p.(_firstIndex) p.(_ngInfo) p.(alloc_step) p.(alloc_fail) p.(emptyCnt) p.(emptyStartupMode) v p.(_need_purge_node_count)
    p.(firstMarkerTime) p.(lastMarkerTime).
Definition set_need_purge (v : Z) (p : Pool) : Pool :=
  mkPool p.(_firstIndex) p.(_ngInfo) p.(alloc_step) p.(alloc_fail) p.(emptyCnt) p.(emptyStartupMode) p.(_hash) v
    p.(firstMarkerTime) p.(lastMarkerTime).
Definition set_markers (first last : Z) (p : Pool) : Pool :=
  mkPool p.(_firstIndex) p.(_ngInfo) p.(alloc_step) p.(alloc_fail) p.(emptyCnt) p.(emptyStartupMode) p.(_hash) p.(_need_purge_node_count)
    first last.

(** The constructors; [step] is [DTCGlobal::_pre_alloc_NG_num]. *)
Definition CREATED : Z := 0.
Definition Pool_new (step : Z) : Pool := mkPool 0 0 step false 0 CREATED 0 0 0 0.

(** [Node]: a group and a place in it. [Node(NULL, 0)] is the empty node. *)
Record Node := mkNd { owner : Z; index : Z }.
#[export] Instance Node_eq_dec : EqDecision Node.
Proof. solve_decision. Defined.
Definition Node_Empty : Node := mkNd 0 0.
(** [operator!] *)
Definition no_node (n : Node) : bool := (n.(owner) =? 0) || (NODE_GROUP_INCLUDE_NODES <=? n.(index)).
(** [operator==] *)
Definition same_node (a b : Node) : bool := (a.(owner) =? b.(owner)) && (a.(index) =? b.(index)).

(** [ATTR_TYPE_T] and the sizes of the attributes of a group *)
Definition NEXT_NODE : Z := 0.
Definition TIME_LIST : Z := 1.
Definition VD_HANDLE : Z := 2.
Definition DIRTY_BMP : Z := 3.
Definition NG_ATTR_SIZE : list Z :=
  [NODE_GROUP_INCLUDE_NODES * 4; NODE_GROUP_INCLUDE_NODES * 4 * 2; NODE_GROUP_INCLUDE_NODES * 8; NODE_GROUP_INCLUDE_NODES / 8].
Definition attr_count : Z := Z.of_nat (length NG_ATTR_SIZE).
Definition attr_size : Z := foldr Z.add 0 NG_ATTR_SIZE.
Definition base_header_size : Z := 28 + 4 + 4 * attr_count.
Definition NODE_SET_Size : Z := base_header_size + attr_size.

Definition OFFSET1 (id : Z) : Z := Z.shiftr id 24.
Definition OFFSET2 (id : Z) : Z := Z.shiftr (Z.land id 0xFFFF00) 8.
Definition INDEX_1_SIZE : Z := Z.shiftl 1 8 * 8 + 8.
Definition INDEX_2_SIZE : Z := Z.shiftl 1 16 * 8 + 8.
Definition sizeof_NG_INFO : Z := 80.

Section NodeTable.
Context {S : Type} `{!Mallocator S}.

(** ** Groups of nodes: [NODE_SET] *)

Definition dele_top (ns : Z) : ST S Z := mread 2 (ns + 16).
Definition dele_count (ns : Z) : ST S Z := mread 2 (ns + 18).
Definition ng_free (ns : Z) : ST S Z := mread 2 (ns + 20).
Definition ng_nid (ns : Z) : ST S Z := mread 4 (ns + 24).
Definition attr_offset (ns t : Z) : ST S Z := mread 4 (ns + 32 + 4 * t).
Definition put_dele_top (ns v : Z) : ST S unit := mwrite 2 (ns + 16) v.
Definition put_dele_count (ns v : Z) : ST S unit := mwrite 2 (ns + 18) v.
Definition put_ng_free (ns v : Z) : ST S unit := mwrite 2 (ns + 20) v.
Definition put_ng_nid (ns v : Z) : ST S unit := mwrite 4 (ns + 24) v.
Definition put_attr_count (ns v : Z) : ST S unit := mwrite 4 (ns + 28) v.
Definition put_attr_offset (ns t v : Z) : ST S unit := mwrite 4 (ns + 32 + 4 * t) v.

(** [__CAST__]: where an attribute of the group starts. *)
Definition attr_start (ns t : Z) : ST S Z := o ← attr_offset ns t; mret (ns + o).

Definition set_node_id (ns idx : Z) : ST S Z := nid ← ng_nid ns; mret (u32 (nid + idx)).
Definition set_next_node_id (ns idx : Z) : ST S Z := p ← attr_start ns NEXT_NODE; mret (p + 4 * idx).
Definition set_node_lru (ns idx : Z) : ST S Z := p ← attr_start ns TIME_LIST; mret (p + 4 * (idx * 2)).
Definition set_vd_handle (ns idx : Z) : ST S Z := p ← attr_start ns VD_HANDLE; mret (p + 8 * idx).
(** [FD_ISSET], [FD_SET], [FD_CLR] on words of 64 bits *)
Definition dirty_word (ns idx : Z) : ST S Z := p ← attr_start ns DIRTY_BMP; mret (p + 8 * (idx / 64)).
Definition set_is_dirty (ns idx : Z) : ST S bool := p ← dirty_word ns idx; w ← mread 8 p; mret (Z.testbit w (idx mod 64)).
Definition set_set_dirty (ns idx : Z) : ST S unit :=
  p ← dirty_word ns idx; w ← mread 8 p; mwrite 8 p (Z.lor w (Z.shiftl 1 (idx mod 64))).
Definition set_clr_dirty (ns idx : Z) : ST S unit :=
  p ← dirty_word ns idx; w ← mread 8 p; mwrite 8 p (Z.ldiff w (Z.shiftl 1 (idx mod 64))).

(** The loop of [Init] over the nodes, [k] of them from [i] on. *)
Fixpoint init_nodes (ns i : Z) (k : nat) : ST S unit :=
  match k with
  | O => mret tt
  | Datatypes.S k =>
    a ← set_next_node_id ns i; mwrite 4 a INVALID_NODE_ID;;
    lru ← set_node_lru ns i;
    id ← set_node_id ns i; mwrite 4 (lru + 4 * LRU_PREV) id;;
    id ← set_node_id ns i; mwrite 4 (lru + 4 * LRU_NEXT) id;;
    a ← set_vd_handle ns i; mwrite 8 a INVALID_HANDLE;;
    set_clr_dirty ns i;;
    init_nodes ns (i + 1) k
  end.
(** The offsets of the attributes from the second on. *)
Fixpoint init_offsets (ns i : Z) (sizes : list Z) : ST S unit :=
  match sizes with
  | [] => mret tt
  | n :: sizes =>
    if i <? attr_count then
      o ← attr_offset ns (i - 1); put_attr_offset ns i (u32 (o + n));; init_offsets ns (i + 1) sizes
    else mret tt
  end.
Definition NODE_SET_Init (ns id : Z) : ST S Z :=
  mwrite 8 (ns + 8) INVALID_HANDLE;;
  mwrite 8 ns INVALID_HANDLE;;
  put_dele_top ns 0;;
  put_dele_count ns 0;;
  put_ng_free ns 0;;
  put_ng_nid ns id;;
  put_attr_count ns attr_count;;
  put_attr_offset ns 0 base_header_size;;
  init_offsets ns 1 NG_ATTR_SIZE;;
  init_nodes ns 0 (Z.to_nat NODE_GROUP_INCLUDE_NODES);;
  mret 0.

Definition set_is_full (ns : Z) : ST S bool := c ← dele_count ns; f ← ng_free ns; mret ((c =? 0) && (NODE_GROUP_INCLUDE_NODES <=? f)).

(** ** [Node] *)

Definition node_id (n : Node) : ST S Z := set_node_id n.(owner) n.(index).
Definition next_node_id (n : Node) : ST S Z := a ← set_next_node_id n.(owner) n.(index); mread 4 a.
Definition put_next_node_id (n : Node) (v : Z) : ST S unit := a ← set_next_node_id n.(owner) n.(index); mwrite 4 a v.
Definition vd_handle (n : Node) : ST S Z := a ← set_vd_handle n.(owner) n.(index); mread 8 a.
Definition put_vd_handle (n : Node) (v : Z) : ST S unit := a ← set_vd_handle n.(owner) n.(index); mwrite 8 a v.
Definition lru_prev (n : Node) : ST S Z := p ← set_node_lru n.(owner) n.(index); mread 4 (p + 4 * LRU_PREV).
Definition lru_next (n : Node) : ST S Z := p ← set_node_lru n.(owner) n.(index); mread 4 (p + 4 * LRU_NEXT).
Definition put_lru_prev (n : Node) (v : Z) : ST S unit := p ← set_node_lru n.(owner) n.(index); mwrite 4 (p + 4 * LRU_PREV) v.
Definition put_lru_next (n : Node) (v : Z) : ST S unit := p ← set_node_lru n.(owner) n.(index); mwrite 4 (p + 4 * LRU_NEXT) v.
(** The time of a marker is stored in its handle. *)
Definition node_Time (n : Node) : ST S Z := h ← vd_handle n; mret (u32 h).
Definition is_dirty (n : Node) : ST S bool := set_is_dirty n.(owner) n.(index).
Definition set_dirty (n : Node) : ST S unit := set_set_dirty n.(owner) n.(index).
Definition clr_dirty (n : Node) : ST S unit := set_clr_dirty n.(owner) n.(index).
Definition not_in_lru_list (n : Node) : ST S bool :=
  p ← lru_prev n; i ← node_id n; if p =? i then mret true else x ← lru_next n; i ← node_id n; mret (x =? i).

Definition Node_Reset (n : Node) : ST S Z :=
  put_next_node_id n INVALID_NODE_ID;;
  i ← node_id n; put_lru_prev n i;;
  i ← node_id n; put_lru_next n i;;
  clr_dirty n;;
  mret 0.

Definition set_allocate_node (ns : Z) : ST S Node :=
  full ← set_is_full ns;
  if full : bool then mret (mkNd 0 0) else
  c ← dele_count ns;
  if 0 <? c then
    top ← dele_top ns;
    let N := mkNd ns top in
    Node_Reset N;;
    c ← dele_count ns; put_dele_count ns (c - 1);;
    h ← vd_handle N; put_dele_top ns (u8 h);;
    mret N
  else
    f ← ng_free ns;
    let N := mkNd ns f in
    Node_Reset N;;
    f ← ng_free ns; put_ng_free ns (f + 1);;
    mret N.

(** The handle of a released node links it to the one released before it. *)
Definition set_release_node (ns : Z) (N : Node) : ST S Z :=
  top ← dele_top ns; put_vd_handle N top;;
  put_dele_top ns N.(index);;
  c ← dele_count ns; put_dele_count ns (c + 1);;
  mret 0.

(** The node ends as the empty one: the second result. *)
Definition Node_Release (n : Node) : ST S (Z * Node) :=
  set_release_node n.(owner) n;;
  Node_Reset n;;
  mret (0, mkNd 0 0).

(** ** Lists of groups: [NG_LIST] *)

Definition ng_prev (p : Z) : ST S Z := mread 8 p.
Definition ng_next (p : Z) : ST S Z := mread 8 (p + 8).
Definition put_ng_prev (p v : Z) : ST S unit := mwrite 8 p v.
Definition put_ng_next (p v : Z) : ST S unit := mwrite 8 (p + 8) v.
Definition INIT_NG_LIST_HEAD (p : Z) : ST S unit := put_ng_prev p p;; put_ng_next p p.
Definition NG_LIST_insert (p prev next : Z) : ST S unit :=
  put_ng_prev next p;; put_ng_next p next;; put_ng_prev p prev;; put_ng_next prev p.
Definition NG_LIST_ADD (p head : Z) : ST S unit := n ← ng_next head; NG_LIST_insert p head n.
Definition NG_LIST_ADD_TAIL (p head : Z) : ST S unit := v ← ng_prev head; NG_LIST_insert p v head.
Definition NG_LIST_unlink (prev next : Z) : ST S unit := put_ng_prev next prev;; put_ng_next prev next.
Definition NG_LIST_DEL (p : Z) : ST S unit :=
  v ← ng_prev p; n ← ng_next p; NG_LIST_unlink v n;;
  put_ng_next p INVALID_HANDLE;; put_ng_prev p INVALID_HANDLE.
Definition NG_LIST_DEL_INIT (p : Z) : ST S unit := v ← ng_prev p; n ← ng_next p; NG_LIST_unlink v n;; INIT_NG_LIST_HEAD p.
Definition NG_LIST_MOVE (p head : Z) : ST S unit := v ← ng_prev p; n ← ng_next p; NG_LIST_unlink v n;; NG_LIST_ADD p head.
Definition NG_LIST_MOVE_TAIL (p head : Z) : ST S unit := v ← ng_prev p; n ← ng_next p; NG_LIST_unlink v n;; NG_LIST_ADD_TAIL p head.
Definition NG_LIST_EMPTY (head : Z) : ST S bool := n ← ng_next head; mret (n =? head).

(** ** Computations on the process and the segment *)

#[local] Abbreviation PS := (ST (Pool * S)).
Definition shm {A} (m : ST S A) : PS A := fun st => let! p := m st.2 in Ok (p.1, (st.1, p.2)).
Definition member {A} (f : Pool -> A) : PS A := gets (fun st => f st.1).
Definition assign (g : Pool -> Pool) : PS unit := modify (fun st => (g st.1, st.2)).

(** ** From ids to nodes: [NodeIndex] *)

Definition fi_h (fi i : Z) : Z := fi + 8 + 8 * i.
Definition si_h (si i : Z) : Z := si + 8 + 8 * i.

Definition Index_Insert (n : Node) : PS Z :=
  id ← shm (node_id n);
  fi ← member _firstIndex;
  h ← shm (mread 8 (fi_h fi (OFFSET1 id)));
  ok ← (if h =? INVALID_HANDLE then
      v ← shm (calloc INDEX_2_SIZE);
      shm (mwrite 8 (fi_h fi (OFFSET1 id)) v);;
      h ← shm (mread 8 (fi_h fi (OFFSET1 id)));
      mret (negb (h =? INVALID_HANDLE))
    else mret true);
  if negb ok then mret (-1) else
  p ← shm (mread 8 (fi_h fi (OFFSET1 id)));
  u ← shm (mread 4 p); shm (mwrite 4 p (u32 (u + 1)));;
  shm (mwrite 8 (si_h p (OFFSET2 id)) n.(owner));;
  mret 0.

Definition Index_Search (id : Z) : PS Node :=
  if INVALID_NODE_ID =? id then mret (mkNd 0 0) else
  fi ← member _firstIndex;
  h ← shm (mread 8 (fi_h fi (OFFSET1 id)));
  if h =? INVALID_HANDLE then mret (mkNd 0 0) else
  ns ← shm (mread 8 (si_h h (OFFSET2 id)));
  if ns =? INVALID_HANDLE then mret (mkNd 0 0) else
  nid ← shm (ng_nid ns);
  let idx := s32 (id - nid) in
  if (idx <? 0) || (255 <? idx) then mret (mkNd 0 0) else mret (mkNd ns idx).

(** The second-level maps allocated in advance: [k] of them from [i] on. *)
Fixpoint pre_allocate (i : Z) (k : nat) : PS Z :=
  match k with
  | O => mret 0
  | Datatypes.S k =>
    fi ← member _firstIndex;
    v ← shm (calloc INDEX_2_SIZE);
    shm (mwrite 8 (fi_h fi i) v);;
    h ← shm (mread 8 (fi_h fi i));
    if h =? INVALID_HANDLE then mret (-1) else pre_allocate (i + 1) k
  end.
Definition pre_allocate_index (mem_size : Z) : PS Z :=
  let n := u32 (65536 * 256 * 44) in
  let n := u32 (mem_size / n + 1) in
  let n := if 256 <? n then 256 else n in
  pre_allocate 0 (Z.to_nat n).
Definition Index_Init (mem_size : Z) : PS Z :=
  v ← shm (calloc INDEX_1_SIZE);
  if v =? INVALID_HANDLE then mret (-1) else
  assign (set_firstIndex v);;
  pre_allocate_index mem_size.
Definition Index_Attach (handle : Z) : PS Z :=
  if handle =? INVALID_HANDLE then mret (-1) else assign (set_firstIndex handle);; mret 0.

(** ** Lists of nodes: [node_list.h] *)

Definition node_Next (n : Node) : PS Node := i ← shm (lru_next n); Index_Search i.
Definition node_Prev (n : Node) : PS Node := i ← shm (lru_prev n); Index_Search i.
Definition next_node (n : Node) : PS Node := i ← shm (next_node_id n); Index_Search i.

Definition INIT_NODE_LIST_HEAD (n : Node) (id : Z) : ST S unit := put_lru_prev n id;; put_lru_next n id.
Definition NODE_LIST_insert (p prev next : Node) : ST S unit :=
  i ← node_id p; put_lru_prev next i;;
  i ← node_id next; put_lru_next p i;;
  i ← node_id prev; put_lru_prev p i;;
  i ← node_id p; put_lru_next prev i.
Definition NODE_LIST_ADD (p head : Node) : PS unit := n ← node_Next head; shm (NODE_LIST_insert p head n).
Definition NODE_LIST_ADD_TAIL (p head : Node) : PS unit := v ← node_Prev head; shm (NODE_LIST_insert p v head).
Definition NODE_LIST_unlink (prev next : Node) : ST S unit :=
  i ← node_id prev; put_lru_prev next i;;
  i ← node_id next; put_lru_next prev i.
Definition NODE_LIST_DEL (p : Node) : PS unit :=
  v ← node_Prev p; n ← node_Next p; shm (NODE_LIST_unlink v n);;
  i ← shm (node_id p); shm (put_lru_prev p i);;
  i ← shm (node_id p); shm (put_lru_next p i).
Definition NODE_LIST_MOVE (p head : Node) : PS unit :=
  v ← node_Prev p; n ← node_Next p; shm (NODE_LIST_unlink v n);; NODE_LIST_ADD p head.
Definition NODE_LIST_MOVE_TAIL (p head : Node) : PS unit :=
  v ← node_Prev p; n ← node_Next p; shm (NODE_LIST_unlink v n);; NODE_LIST_ADD_TAIL p head.
Definition NODE_LIST_EMPTY (head : Node) : PS bool :=
  x ← shm (lru_next head); i ← shm (node_id head); mret (x =? i).

(** ** The head of the node table: [NGInfo] *)

Definition ni_free_head (ni : Z) : Z := ni.
Definition ni_full_head (ni : Z) : Z := ni + 16.
Definition ni_min_id (ni : Z) : Z := ni + 32.
Definition ni_sys_zone (ni : Z) : Z := ni + 40.
Definition ni_used_ng (ni : Z) : Z := ni + 48.
Definition ni_used_node (ni : Z) : Z := ni + 52.
Definition ni_dirty_node (ni : Z) : Z := ni + 56.
Definition ni_used_row (ni : Z) : Z := ni + 64.
Definition ni_dirty_row (ni : Z) : Z := ni + 72.

(** [x += v] on an unsigned member of [w] bytes *)
Definition add_to (w : nat) (a v : Z) : ST S unit := x ← mread w a; mwrite w a (x + v).

Definition inc_dirty_node (v : Z) : PS unit := ni ← member _ngInfo; shm (add_to 4 (ni_dirty_node ni) v).
Definition inc_dirty_row (v : Z) : PS unit := ni ← member _ngInfo; shm (add_to 8 (ni_dirty_row ni) v).
Definition inc_total_row (v : Z) : PS unit := ni ← member _ngInfo; shm (add_to 8 (ni_used_row ni) v).
Definition ng_inc_empty_node (v : Z) : PS unit := assign (fun p => set_emptyCnt (p.(emptyCnt) + v) p).
Definition total_dirty_node : PS Z := ni ← member _ngInfo; shm (mread 4 (ni_dirty_node ni)).
Definition total_used_node : PS Z := ni ← member _ngInfo; shm (mread 4 (ni_used_node ni)).
Definition total_used_row : PS Z := ni ← member _ngInfo; shm (mread 8 (ni_used_row ni)).
Definition total_dirty_row : PS Z := ni ← member _ngInfo; shm (mread 8 (ni_dirty_row ni)).
Definition min_valid_node_id : Z := 256.
Definition max_node_id : PS Z := ni ← member _ngInfo; v ← shm (mread 4 (ni_used_ng ni)); mret (u32 (v * 256 - 1)).

Definition lru_head (idx : Z) : PS Node :=
  ni ← member _ngInfo; sysNG ← shm (mread 8 (ni_sys_zone ni));
  if sysNG =? 0 then mret Node_Empty else mret (mkNd sysNG idx).
Definition dirty_node_head : PS Node := lru_head SYS_DIRTY_NODE_INDEX.
Definition clean_node_head : PS Node := lru_head SYS_CLEAN_NODE_INDEX.
Definition empty_node_head : PS Node := lru_head SYS_EMPTY_NODE_INDEX.

Definition insert2_lru (idx : Z) (n : Node) : PS Z :=
  ni ← member _ngInfo; sysNG ← shm (mread 8 (ni_sys_zone ni));
  NODE_LIST_ADD n (mkNd sysNG idx);; mret 0.
Definition insert2_dirty_lru (n : Node) : PS Z := insert2_lru SYS_DIRTY_NODE_INDEX n.
Definition insert2_clean_lru (n : Node) : PS Z := insert2_lru SYS_CLEAN_NODE_INDEX n.
Definition insert2_empty_lru (n : Node) : PS Z := insert2_lru SYS_EMPTY_NODE_INDEX n.
Definition remove_from_lru (n : Node) : PS Z := NODE_LIST_DEL n;; mret 0.

(** 0 for no memory *)
Definition allocate_ng : PS Z :=
  v ← shm (calloc NODE_SET_Size);
  if v =? INVALID_HANDLE then mret 0 else
  ni ← member _ngInfo;
  id ← shm (mread 4 (ni_min_id ni));
  shm (NODE_SET_Init v id);;
  shm (add_to 4 (ni_min_id ni) NODE_GROUP_INCLUDE_NODES);;
  shm (add_to 4 (ni_used_ng ni) 1);;
  mret v.

(** The list member comes first in a group: [NG_LIST_ENTRY] is the pointer itself. *)
Definition find_free_ng : PS Z :=
  ni ← member _ngInfo;
  e ← shm (NG_LIST_EMPTY (ni_free_head ni));
  if e : bool then mret 0 else shm (ng_next (ni_free_head ni)).
Definition list_del (ns : Z) : PS unit := shm (NG_LIST_DEL ns).
Definition free_list_add (ns : Z) : PS unit := ni ← member _ngInfo; shm (NG_LIST_ADD ns (ni_free_head ni)).
Definition full_list_add (ns : Z) : PS unit := ni ← member _ngInfo; shm (NG_LIST_ADD ns (ni_full_head ni)).
Definition free_list_add_tail (ns : Z) : PS unit := ni ← member _ngInfo; shm (NG_LIST_ADD_TAIL ns (ni_free_head ni)).
Definition full_list_add_tail (ns : Z) : PS unit := ni ← member _ngInfo; shm (NG_LIST_ADD_TAIL ns (ni_full_head ni)).

(** The loop that allocates groups in advance: [k] of them, the first if [i] is 0.
    [false]: not even one could be had. *)
Fixpoint allocate_groups (i : Z) (k : nat) : PS bool :=
  match k with
  | O => mret true
  | Datatypes.S k =>
    ns ← allocate_ng;
    if ns =? 0 then
      if i =? 0 then mret false else assign (set_alloc 1 true);; mret true
    else free_list_add ns;; allocate_groups (i + 1) k
  end.
(** [None]: [allocate_node] returns the empty node. *)
Definition find_or_allocate_ng : PS (option Z) :=
  ns ← find_free_ng;
  if negb (ns =? 0) then mret (Some ns) else
  step ← member alloc_step;
  ok ← allocate_groups 0 (Z.to_nat step);
  if negb ok then mret None else
  ns ← find_free_ng;
  step ← member alloc_step; fail ← member alloc_fail;
  (if (step <? 256) && negb fail then assign (set_alloc (step * 2) fail) else mret tt);;
  mret (Some ns).
Definition allocate_node : PS Node :=
  found ← find_or_allocate_ng;
  match found with None => mret Node_Empty | Some ns =>
  n ← shm (set_allocate_node ns);
  full ← shm (set_is_full ns);
  (if full : bool then list_del ns;; full_list_add ns else mret tt);;
  if no_node n then mret Node_Empty else
  ni ← member _ngInfo;
  shm (add_to 4 (ni_used_node ni) 1);;
  Index_Insert n;;
  mret n
  end.

Definition release_node (n : Node) : PS (Z * Node) :=
  let ns := n.(owner) in
  full ← shm (set_is_full ns);
  (if full : bool then list_del ns;; free_list_add ns else mret tt);;
  ni ← member _ngInfo;
  shm (add_to 4 (ni_used_node ni) (-1));;
  shm (Node_Release n).

(** ** The system's nodes: the heads of the three lists *)

Definition reserve_head (ns : Z) (err : Z) (k : Node -> PS Z) : PS Z :=
  n ← shm (set_allocate_node ns); if no_node n then mret err else k n.
Definition init_head (n : Node) : ST S unit := i ← node_id n; INIT_NODE_LIST_HEAD n i.
Definition system_reserved_init (ns : Z) : PS Z :=
  reserve_head ns (-2) (fun dirtyNode =>
  reserve_head ns (-3) (fun cleanNode =>
  reserve_head ns (-3) (fun emptyNode =>
    shm (init_head dirtyNode);;
    shm (init_head cleanNode);;
    shm (init_head emptyNode);;
    Index_Insert dirtyNode;;
    Index_Insert cleanNode;;
    Index_Insert emptyNode;;
    mret 0))).

(** 1: the list of empty nodes was missing and has been created. *)
Definition system_reserved_check (ns : Z) : PS Z :=
  f ← shm (ng_free ns);
  if f <? 2 then mret (-10) else
  f ← shm (ng_free ns);
  if negb (3 <=? f) then
    reserve_head ns (-3) (fun emptyNode => shm (init_head emptyNode);; Index_Insert emptyNode;; mret 1)
  else mret 0.

Definition InitHeader (ni : Z) : PS Z :=
  shm (INIT_NG_LIST_HEAD (ni_free_head ni));;
  shm (INIT_NG_LIST_HEAD (ni_full_head ni));;
  shm (mwrite 4 (ni_min_id ni) SYS_MIN_NODE_ID);;
  sysNG ← allocate_ng;
  if sysNG =? 0 then mret (-1) else
  system_reserved_init sysNG;;
  shm (mwrite 8 (ni_sys_zone ni) sysNG);;
  shm (mwrite 4 (ni_used_ng ni) 1);;
  shm (mwrite 4 (ni_used_node ni) 0);;
  shm (mwrite 4 (ni_dirty_node ni) 0);;
  shm (mwrite 8 (ni_used_row ni) 0);;
  shm (mwrite 8 (ni_dirty_row ni) 0);;
  mret 0.
Definition NGInfo_Init : PS Z :=
  v ← shm (calloc sizeof_NG_INFO);
  if v =? INVALID_HANDLE then mret (-1) else
  assign (set_ngInfo v);;
  InitHeader v.

Definition Index_Detach : PS Z := assign (set_firstIndex 0);; mret 0.
Definition NGInfo_Detach : PS Z := assign (set_ngInfo 0);; mret 0.
Definition ATTACHED : Z := 1.
Definition UPGRADED : Z := 2.
Definition NGInfo_Attach (v : Z) : PS Z :=
  if v =? INVALID_HANDLE then mret (-1) else
  assign (set_ngInfo v);;
  sysNG ← shm (mread 8 (ni_sys_zone v));
  if sysNG =? 0 then mret (-1) else
  ret ← system_reserved_check sysNG;
  if ret <? 0 then mret ret else
  assign (set_emptyStartupMode (if 0 <? ret then UPGRADED else ATTACHED));; mret 0.

End NodeTable.
