(* ===== verification/NodeRep.v ===== *)
(** The node table in memory: every word the table keeps in the segment is a named cell,
    and a state of the table says what each cell holds. The accesses of [NodeTable] and
    [BufferPool] read and write cells; a write changes one. *)
From Stdlib Require Import ZArith Lia.
From stdpp Require Import functions base list list_numbers numbers gmap.
From S2P Require Import Prelude PtMalloc PtSpec Mallocator NodeTable.
Import AllocSpec.
Local Open Scope Z_scope.

(** ** Cells *)

(** The blocks of the table: the head, the two levels of the index, the buckets of the
    hash and the groups of nodes. *)
Inductive role := RInfo | RFirst | RHash | RSet (k : Z) | RSecond (i : Z).
#[export] Instance role_eq_dec : EqDecision role.
Proof. solve_decision. Defined.

Inductive info_field := IFreePrev | IFreeNext | IFullPrev | IFullNext | IMinId | ISys | IUsedNg | IUsedNode | IDirtyNode | IUsedRow | IDirtyRow.
#[export] Instance info_field_eq_dec : EqDecision info_field.
Proof. solve_decision. Defined.
Inductive set_field := SPrev | SNext | STop | SCount | SFree | SNid | SAttrs | SOff (t : Z).
#[export] Instance set_field_eq_dec : EqDecision set_field.
Proof. solve_decision. Defined.
Inductive hash_field := HSize | HFree | HNode | HFixed.
#[export] Instance hash_field_eq_dec : EqDecision hash_field.
Proof. solve_decision. Defined.

(** Cells of nodes are named by the node's id, of the dirty bits by the number of the
    64-bit word, of the second index by [id / 256]. *)
Inductive loc :=
  | LInfo (f : info_field)
  | LSet (k : Z) (f : set_field)
  | LNext (id : Z)
  | LLru (id : Z) (next : bool)
  | LVd (id : Z)
  | LDirty (w : Z)
  | LFi (i : Z)
  | LUsed (i : Z)
  | LSi (j : Z)
  | LHash (f : hash_field)
  | LBucket (i : Z).
#[export] Instance loc_eq_dec : EqDecision loc.
Proof. solve_decision. Defined.

Definition lrole (l : loc) : role :=
  match l with
  | LInfo _ => RInfo
  | LSet k _ => RSet k
  | LNext id | LLru id _ | LVd id => RSet (id / 256)
  | LDirty w => RSet (w / 4)
  | LFi _ => RFirst
  | LUsed i => RSecond i
  | LSi j => RSecond (j / 65536)
  | LHash _ | LBucket _ => RHash
  end.
Definition loff (l : loc) : Z :=
  match l with
  | LInfo f =>
    match f with
    | IFreePrev => 0 | IFreeNext => 8 | IFullPrev => 16 | IFullNext => 24 | IMinId => 32 | ISys => 40
    | IUsedNg => 48 | IUsedNode => 52 | IDirtyNode => 56 | IUsedRow => 64 | IDirtyRow => 72
    end
  | LSet _ f =>
    match f with SPrev => 0 | SNext => 8 | STop => 16 | SCount => 18 | SFree => 20 | SNid => 24 | SAttrs => 28 | SOff t => 32 + 4 * t end
  | LNext id => 48 + 4 * (id mod 256)
  | LLru id b => 1072 + 4 * (id mod 256 * 2) + (if b then 4 else 0)
  | LVd id => 3120 + 8 * (id mod 256)
  | LDirty w => 5168 + 8 * (w mod 4)
  | LFi i => 8 + 8 * i
  | LUsed _ => 0
  | LSi j => 8 + 8 * (j mod 65536)
  | LHash f => match f with HSize => 0 | HFree => 4 | HNode => 8 | HFixed => 12 end
  | LBucket i => 16 + 4 * i
  end.
Definition lsize (l : loc) : nat :=
  match l with
  | LInfo f => match f with IMinId | IUsedNg | IUsedNode | IDirtyNode => 4 | _ => 8 end
  | LSet _ f => match f with SPrev | SNext => 8 | STop | SCount | SFree => 2 | _ => 4 end
  | LNext _ | LLru _ _ | LUsed _ | LHash _ | LBucket _ => 4
  | LVd _ | LDirty _ | LFi _ | LSi _ => 8
  end.
(** The cells of a block; [nb] is the number of buckets. *)
Definition lrange (nb : Z) (l : loc) : Prop :=
  match l with
  | LSet _ (SOff t) => 0 <= t < 4
  | LFi i => 0 <= i < 256
  | LBucket i => 0 <= i < nb
  | _ => True
  end.
(** The bytes of a block that hold cells. *)
Definition rlen (nb : Z) (r : role) : Z :=
  match r with RInfo => 80 | RFirst => 2056 | RHash => 16 + 4 * nb | RSet _ => 5200 | RSecond _ => 524296 end.

Lemma loff_range nb l : 0 <= nb -> lrange nb l -> 0 <= loff l /\ loff l + Z.of_nat (lsize l) <= rlen nb (lrole l).
Proof.
  assert (Hm : forall x m, 0 < m -> 0 <= x mod m < m) by (intros; by apply Z.mod_pos_bound).
  destruct l as [[]|k []|id|id []|id|w|i|i|j|[]|i]; cbn; intros; repeat match goal with |- context [?x mod ?m] => learn_hyp (Hm x m ltac:(lia)) end; lia.
Qed.

(** Two cells do not overlap. *)
Lemma cells_apart nb l l' : lrange nb l -> lrange nb l' -> lrole l = lrole l' -> l <> l' ->
  loff l' + Z.of_nat (lsize l') <= loff l \/ loff l + Z.of_nat (lsize l) <= loff l'.
Proof.
  intros H H' Hr Hne.
  assert (Hm : forall x m, 0 < m -> 0 <= x mod m < m) by (intros; by apply Z.mod_pos_bound).
  assert (Hd : forall x y m, m <> 0 -> x / m = y / m -> x <> y -> x mod m <> y mod m).
  { intros x y m Hz E Hxy E'. apply Hxy. rewrite (Z.div_mod x m), (Z.div_mod y m) by done. by rewrite E, E'. }
  destruct l as [f|k f|id|id b|id|w|i|i|j|f|i], l' as [f'|k' f'|id'|id' b'|id'|w'|i'|i'|j'|f'|i']; cbn in *; try discriminate Hr; try (injection Hr as Hr);
    repeat match goal with |- context [?x mod ?m] => learn_hyp (Hm x m ltac:(lia)) end;
    try match goal with |- context [?x mod ?m] => match goal with |- context [?y mod m] => tryif constr_eq x y then fail else
      (destruct (decide (x = y)) as [<-|Hxy]; [|pose proof (Hd x y m ltac:(lia) Hr Hxy)]) end end;
    try (destruct f); try (destruct f'); try (destruct b); try (destruct b'); cbn in *; try congruence; try lia.
  all: match goal with
    | _ : LSet _ (SOff ?x) <> LSet _ (SOff ?y) |- _ => assert (x <> y) by congruence
    | _ : _ ?x <> _ ?y |- _ => assert (x <> y) by congruence
    end; lia.
Qed.

(** ** States of the table *)

(** Where the blocks are (0 for a block that does not exist), what their cells hold, and
    the other blocks of the segment. *)
Record table := mkTable {
  hof : role -> Z;
  nsets : Z;
  nbkt : Z;
  info : info_field -> Z;
  hdr : Z -> set_field -> Z;
  nxt : Z -> Z;
  lru : Z -> bool -> Z;
  vdh : Z -> Z;
  dirty : Z -> Z;
  fih : Z -> Z;
  siu : Z -> Z;
  sih : Z -> Z;
  hh : hash_field -> Z;
  bkt : Z -> Z;
  rest : blocks
}.

Definition val (G : table) (l : loc) : Z :=
  match l with
  | LInfo f => info G f
  | LSet k f => hdr G k f
  | LNext id => nxt G id
  | LLru id b => lru G id b
  | LVd id => vdh G id
  | LDirty w => dirty G w
  | LFi i => fih G i
  | LUsed i => siu G i
  | LSi j => sih G j
  | LHash f => hh G f
  | LBucket i => bkt G i
  end.

Definition upd_info f G := mkTable (hof G) (nsets G) (nbkt G) (f (info G)) (hdr G) (nxt G) (lru G) (vdh G) (dirty G) (fih G) (siu G) (sih G) (hh G) (bkt G) (rest G).
Definition upd_hdr f G := mkTable (hof G) (nsets G) (nbkt G) (info G) (f (hdr G)) (nxt G) (lru G) (vdh G) (dirty G) (fih G) (siu G) (sih G) (hh G) (bkt G) (rest G).
Definition upd_nxt f G := mkTable (hof G) (nsets G) (nbkt G) (info G) (hdr G) (f (nxt G)) (lru G) (vdh G) (dirty G) (fih G) (siu G) (sih G) (hh G) (bkt G) (rest G).
Definition upd_lru f G := mkTable (hof G) (nsets G) (nbkt G) (info G) (hdr G) (nxt G) (f (lru G)) (vdh G) (dirty G) (fih G) (siu G) (sih G) (hh G) (bkt G) (rest G).
Definition upd_vdh f G := mkTable (hof G) (nsets G) (nbkt G) (info G) (hdr G) (nxt G) (lru G) (f (vdh G)) (dirty G) (fih G) (siu G) (sih G) (hh G) (bkt G) (rest G).
Definition upd_dirty f G := mkTable (hof G) (nsets G) (nbkt G) (info G) (hdr G) (nxt G) (lru G) (vdh G) (f (dirty G)) (fih G) (siu G) (sih G) (hh G) (bkt G) (rest G).
Definition upd_fih f G := mkTable (hof G) (nsets G) (nbkt G) (info G) (hdr G) (nxt G) (lru G) (vdh G) (dirty G) (f (fih G)) (siu G) (sih G) (hh G) (bkt G) (rest G).
Definition upd_siu f G := mkTable (hof G) (nsets G) (nbkt G) (info G) (hdr G) (nxt G) (lru G) (vdh G) (dirty G) (fih G) (f (siu G)) (sih G) (hh G) (bkt G) (rest G).
Definition upd_sih f G := mkTable (hof G) (nsets G) (nbkt G) (info G) (hdr G) (nxt G) (lru G) (vdh G) (dirty G) (fih G) (siu G) (f (sih G)) (hh G) (bkt G) (rest G).
Definition upd_hh f G := mkTable (hof G) (nsets G) (nbkt G) (info G) (hdr G) (nxt G) (lru G) (vdh G) (dirty G) (fih G) (siu G) (sih G) (f (hh G)) (bkt G) (rest G).
Definition upd_bkt f G := mkTable (hof G) (nsets G) (nbkt G) (info G) (hdr G) (nxt G) (lru G) (vdh G) (dirty G) (fih G) (siu G) (sih G) (hh G) (f (bkt G)) (rest G).

Definition upd (l : loc) (v : Z) (G : table) : table :=
  match l with
  | LInfo f => upd_info <[f := v]> G
  | LSet k f => upd_hdr (fun g => <[k := <[f := v]> (g k)]> g) G
  | LNext id => upd_nxt <[id := v]> G
  | LLru id b => upd_lru (fun g => <[id := <[b := v]> (g id)]> g) G
  | LVd id => upd_vdh <[id := v]> G
  | LDirty w => upd_dirty <[w := v]> G
  | LFi i => upd_fih <[i := v]> G
  | LUsed i => upd_siu <[i := v]> G
  | LSi j => upd_sih <[j := v]> G
  | LHash f => upd_hh <[f := v]> G
  | LBucket i => upd_bkt <[i := v]> G
  end.

Lemma val_upd l v G : val (upd l v G) l = v.
Proof. destruct l; cbn; by rewrite ?fn_lookup_insert. Qed.
Lemma val_upd_ne l l' v G : l <> l' -> val (upd l v G) l' = val G l'.
Proof.
  intros Hne. destruct l as [f|k f|id|id b|id|w|i|i|j|f|i], l' as [f'|k' f'|id'|id' b'|id'|w'|i'|i'|j'|f'|i']; try done; cbn.
  2: destruct (decide (k = k')) as [->|]; [rewrite fn_lookup_insert|by rewrite fn_lookup_insert_ne].
  4: destruct (decide (id = id')) as [->|]; [rewrite fn_lookup_insert|by rewrite fn_lookup_insert_ne].
  all: rewrite fn_lookup_insert_ne; [done|congruence].
Qed.
Lemma upd_hof l v G : hof (upd l v G) = hof G.
Proof. by destruct l. Qed.
Lemma upd_nbkt l v G : nbkt (upd l v G) = nbkt G.
Proof. by destruct l. Qed.
Lemma upd_nsets l v G : nsets (upd l v G) = nsets G.
Proof. by destruct l. Qed.
Lemma upd_rest l v G : rest (upd l v G) = rest G.
Proof. by destruct l. Qed.

(** A new block of zeros at [h]. *)
Definition blank {A} (r : role) (f : A -> role) (v : A -> Z) (x : A) : Z := if decide (f x = r) then 0 else v x.
Definition adopt (r : role) (h nb : Z) (G : table) : table :=
  mkTable (<[r := h]> (hof G)) (nsets G) nb (blank r (fun _ => RInfo) (info G)) (fun k => blank r (fun _ => RSet k) (hdr G k))
    (blank r (fun id => RSet (id / 256)) (nxt G)) (fun id => blank r (fun _ => RSet (id / 256)) (lru G id))
    (blank r (fun id => RSet (id / 256)) (vdh G)) (blank r (fun w => RSet (w / 4)) (dirty G))
    (blank r (fun _ => RFirst) (fih G)) (blank r RSecond (siu G)) (blank r (fun j => RSecond (j / 65536)) (sih G))
    (blank r (fun _ => RHash) (hh G)) (blank r (fun _ => RHash) (bkt G)) (rest G).

Lemma val_adopt r h nb G l : val (adopt r h nb G) l = if decide (lrole l = r) then 0 else val G l.
Proof. by destruct l. Qed.

(** ** Tables in memory *)

Definition cell_val (bs : list Z) (l : loc) : Z := le_value (take (lsize l) (drop (Z.to_nat (loff l)) bs)).
Definition llive (G : table) (l : loc) : Prop := hof G (lrole l) <> 0 /\ lrange (nbkt G) l.

Record in_heap (A : blocks) (G : table) : Prop := {
  ih_nbkt : 0 <= nbkt G;
  ih_block r : hof G r <> 0 -> exists bs, A !! hof G r = Some bs /\ rlen (nbkt G) r <= Z.of_nat (length bs);
  ih_inj r r' : hof G r <> 0 -> hof G r = hof G r' -> r = r';
  ih_rest h : h <> 0 -> (forall r, hof G r <> h) -> A !! h = rest G !! h;
  ih_apart r : hof G r <> 0 -> rest G !! hof G r = None;
  ih_cell l bs : llive G l -> A !! hof G (lrole l) = Some bs -> cell_val bs l = val G l
}.

Lemma take_drop_inserts n o m (k bs : list Z) : (o + n <= m \/ m + length k <= o)%nat ->
  take n (drop o (list_inserts m k bs)) = take n (drop o bs).
Proof.
  intros H. apply list_eq. intros i. destruct (decide (i < n)%nat); [|rewrite !lookup_take_ge by lia; done].
  rewrite !lookup_take_lt, !lookup_drop by lia. destruct (decide (o + i < m)%nat).
  - by rewrite list_lookup_inserts_lt by lia.
  - by rewrite list_lookup_inserts_ge by lia.
Qed.
Lemma take_drop_inserts_eq m (k bs : list Z) : (m + length k <= length bs)%nat -> take (length k) (drop m (list_inserts m k bs)) = k.
Proof.
  intros H. apply list_eq. intros i. destruct (decide (i < length k)%nat) as [Hi|].
  - rewrite lookup_take_lt, lookup_drop by lia. rewrite list_lookup_inserts by lia. f_equal. lia.
  - rewrite lookup_take_ge by lia. symmetry. apply lookup_ge_None. lia.
Qed.

Section Rep.
Context {S : Type} `{!Mallocator S, !MallocatorLaws S}.

Definition Rep (s : S) (G : table) : Prop := exists A, heap s A /\ in_heap A G.

Lemma Rep_val_range s G l : Rep s G -> llive G l -> 0 <= val G l < 256 ^ Z.of_nat (lsize l).
Proof.
  intros (A & HA & HG) Hl. destruct (ih_block A G HG _ (proj1 Hl)) as (bs & Hb & Hlen).
  rewrite <-(ih_cell A G HG l bs Hl Hb). destruct (loff_range _ l (ih_nbkt A G HG) (proj2 Hl)).
  unfold cell_val. set (t := take _ _). assert (length t = lsize l) as <- by (subst t; rewrite length_take, length_drop; lia).
  apply le_value_bound, Forall_take, Forall_drop. by eapply heap_bytes.
Qed.

(** A cell is read and written with its own size. *)
Lemma Rep_read s G l a n : Rep s G -> llive G l -> a = hof G (lrole l) + loff l -> n = lsize l -> mread n a s = Ok (val G l, s).
Proof.
  intros (A & HA & HG) Hl -> ->. destruct (ih_block A G HG _ (proj1 Hl)) as (bs & Hb & Hlen).
  destruct (loff_range _ l (ih_nbkt A G HG) (proj2 Hl)) as [Ho Hn].
  replace (loff l) with (Z.of_nat (Z.to_nat (loff l))) by lia. rewrite (mread_law _ s A _ bs) by (done || lia).
  do 2 f_equal. apply (ih_cell A G HG l bs Hl Hb).
Qed.

Lemma Rep_write s G l v a n : Rep s G -> llive G l -> a = hof G (lrole l) + loff l -> n = lsize l ->
  exists s', mwrite n a v s = Ok (tt, s') /\ Rep s' (upd l (v mod 256 ^ Z.of_nat n) G).
Proof.
  intros (A & HA & HG) Hl -> ->. destruct (ih_block A G HG _ (proj1 Hl)) as (bs & Hb & Hlen).
  destruct (loff_range _ l (ih_nbkt A G HG) (proj2 Hl)) as [Ho Hn].
  replace (loff l) with (Z.of_nat (Z.to_nat (loff l))) by lia.
  destruct (mwrite_law (lsize l) s A _ bs (Z.to_nat (loff l)) v HA Hb) as (s' & E & HA'); [lia|].
  exists s'. split; [done|]. eexists. split; [exact HA'|]. set (bs' := list_inserts _ _ bs) in *.
  assert (Hlk : forall r, hof G r <> 0 -> r <> lrole l -> <[hof G (lrole l) := bs']> A !! hof G r = A !! hof G r).
  { intros r Hr Hne. apply lookup_insert_ne. intros Eh. by apply Hne, (ih_inj A G HG). }
  split; rewrite ?upd_nbkt, ?upd_hof, ?upd_rest.
  - apply HG.
  - intros r Hr. destruct (decide (r = lrole l)) as [->|Hne].
    + exists bs'. rewrite lookup_insert_eq. subst bs'. by rewrite length_inserts.
    + rewrite (Hlk r) by done. by apply HG.
  - apply HG.
  - intros h Hz Hh. rewrite lookup_insert_ne by done. by apply HG.
  - apply HG.
  - intros l' b' [Hr' Hrg']. rewrite upd_hof, upd_nbkt in *. intros Hb'. destruct (decide (l' = l)) as [->|Hne].
    + rewrite lookup_insert_eq in Hb'. injection Hb' as <-. rewrite val_upd, <-le_value_bytes. unfold cell_val. subst bs'.
      rewrite <-(le_bytes_length (lsize l) v) at 1. rewrite take_drop_inserts_eq; [done|rewrite le_bytes_length; lia].
    + rewrite val_upd_ne by done. destruct (decide (lrole l' = lrole l)) as [Er|Er].
      * rewrite Er, lookup_insert_eq in Hb'. injection Hb' as <-. rewrite <-(ih_cell A G HG l' bs) by (rewrite ?Er; done).
        unfold cell_val. subst bs'. rewrite take_drop_inserts; [done|]. rewrite le_bytes_length.
        destruct (loff_range _ l' (ih_nbkt A G HG) Hrg').
        pose proof (cells_apart (nbkt G) l l' (proj2 Hl) Hrg' ltac:(congruence) ltac:(congruence)). lia.
      * rewrite (Hlk (lrole l')) in Hb' by done. by apply (ih_cell A G HG).
Qed.

Lemma zero_cell t bs l : take t bs = replicate t 0 -> (Z.to_nat (loff l) + lsize l <= t)%nat -> cell_val bs l = 0.
Proof.
  intros E H. unfold cell_val. assert (Ht : take (lsize l) (drop (Z.to_nat (loff l)) bs) = replicate (lsize l) 0).
  { replace bs with (take t bs ++ drop t bs) by apply take_drop. rewrite E. apply list_eq. intros i.
    destruct (decide (i < lsize l)%nat).
    - rewrite lookup_take_lt, lookup_drop, lookup_app_l, !lookup_replicate_2 by (rewrite ?length_replicate; lia). done.
    - rewrite lookup_take_ge by lia. symmetry. apply lookup_ge_None. rewrite length_replicate. lia. }
  rewrite Ht. generalize (lsize l) as n. induction n as [|n IH]; [done|]. cbn in *. lia.
Qed.

Lemma Rep_calloc s G r nb t : Rep s G -> hof G r = 0 -> 0 <= nb -> (r = RHash \/ nb = nbkt G) -> rlen nb r <= t ->
  exists h s', calloc t s = Ok (h, s') /\
    ((h = 0 /\ Rep s' G) \/ (h <> 0 /\ (forall r', hof G r' <> h) /\ Rep s' (adopt r h nb G))).
Proof.
  intros (A & HA & HG) Hr Hnb Hnbr Ht. assert (Ht0 : 0 <= t) by (destruct r; cbn in Ht; lia).
  destruct (calloc_law s A t HA Ht0) as (h & s' & A' & E & Hnew & HA'). exists h, s'. split; [done|].
  destruct Hnew as [[-> ->]|(Hh & Hnone & bs & Hlen & Hz & ->)]; [left; split; [done|by exists A]|right]. split; [done|].
  assert (Hfree : forall r', hof G r' <> h).
  { intros r' <-. destruct (ih_block A G HG r') as (? & ? & _); [done|congruence]. }
  split; [done|]. exists (<[h := bs]> A). split; [done|].
  assert (Hlk : forall r', hof G r' <> 0 -> r' <> r /\ <[h := bs]> A !! hof G r' = A !! hof G r').
  { intros r' Hr'. split; [by intros ->|]. apply lookup_insert_ne. intros Eh. by apply (Hfree r'). }
  assert (Hrl : forall r', r' <> r -> rlen nb r' = rlen (nbkt G) r').
  { intros r' Hne. destruct Hnbr as [->| ->]; [by destruct r'|done]. }
  split; cbn [adopt hof nbkt rest].
  - done.
  - intros r' Hr'. destruct (decide (r' = r)) as [->|Hne].
    + rewrite fn_lookup_insert in *. exists bs. rewrite lookup_insert_eq. split; [done|lia].
    + rewrite fn_lookup_insert_ne in * by done. destruct (Hlk r' Hr') as [_ ->]. rewrite (Hrl r') by done. by apply HG.
  - intros r1 r2. destruct (decide (r1 = r)) as [->|H1], (decide (r2 = r)) as [->|H2];
      rewrite ?fn_lookup_insert, ?fn_lookup_insert_ne by done; intros Hz1 Eh; [done| | |by apply HG].
    + by destruct (Hfree r2).
    + by destruct (Hfree r1).
  - intros x Hx Hn. assert (Hxh : x <> h). { intros ->. apply (Hn r). by rewrite fn_lookup_insert. }
    rewrite lookup_insert_ne by done. apply HG; [done|]. intros r' Er. apply (Hn r').
    destruct (decide (r' = r)) as [->|]; [congruence|by rewrite fn_lookup_insert_ne].
  - intros r' Hr'. destruct (decide (r' = r)) as [->|Hne].
    + rewrite fn_lookup_insert. rewrite <-(ih_rest A G HG) by done. done.
    + rewrite fn_lookup_insert_ne in * by done. by apply HG.
  - intros l bs' [Hl Hrg] Hb'. cbn [adopt hof nbkt] in *. rewrite val_adopt. destruct (decide (lrole l = r)) as [El|El].
    + rewrite El, fn_lookup_insert, lookup_insert_eq in Hb'. injection Hb' as <-. apply (zero_cell (Z.to_nat t)); [done|].
      destruct (loff_range _ l Hnb Hrg). rewrite El in *. lia.
    + rewrite fn_lookup_insert_ne in * by done. destruct (Hlk _ Hl) as [_ Elk]. rewrite Elk in Hb'. apply (ih_cell A G HG); [|done].
      split; [done|]. destruct Hnbr as [->| ->]; [|done]. by destruct l.
Qed.

(** A table of nothing. *)
Definition no_table (A : blocks) : table :=
  mkTable (fun _ => 0) 0 0 (fun _ => 0) (fun _ _ => 0) (fun _ => 0) (fun _ _ => 0) (fun _ => 0) (fun _ => 0) (fun _ => 0) (fun _ => 0)
    (fun _ => 0) (fun _ => 0) (fun _ => 0) A.
Lemma Rep_start s A : heap s A -> Rep s (no_table A).
Proof. intros HA. exists A. split; [done|]. split; cbn; try done. by intros l bs [? _]. Qed.

(** The number of groups is bounded by the size of the segment. *)
Lemma Rep_sets s G n : Rep s G -> 0 <= n -> (forall k, 0 <= k < n -> hof G (RSet k) <> 0) -> n * 5200 < 2 ^ 36.
Proof.
  intros (A & HA & HG) Hn Hk. pose proof (heap_room s A ((fun k => hof G (RSet k)) <$> seqZ 0 n) 5200 HA) as H.
  rewrite length_fmap, length_seqZ, Z2Nat.id in H by lia. apply H; [|lia|].
  - apply NoDup_fmap_2_strong; [|apply NoDup_seqZ]. intros x y Hx%elem_of_seqZ Hy%elem_of_seqZ E.
    enough (RSet x = RSet y) by congruence. apply (ih_inj A G HG); [apply Hk; lia|done].
  - intros h (k & -> & Hin%elem_of_seqZ)%list_elem_of_fmap. destruct (ih_block A G HG (RSet k)) as (bs & Hb & Hl); [apply Hk; lia|].
    by exists bs.
Qed.

End Rep.
