(* ===== verification/NodeAcc.v ===== *)
(** The accesses of [NodeTable] on a table in memory: the attributes of nodes, the index,
    and the eviction lists as lists of ids. *)
From Stdlib Require Import ZArith Lia.
From stdpp Require Import functions base list list_numbers numbers gmap.
From S2P Require Import Prelude PtMalloc PtSpec Mallocator NodeTable NodeRep.
Import AllocSpec.
Local Open Scope Z_scope.

(** A group whose header is as [Init] leaves it. *)
Definition off_of (t : Z) : Z := if t =? 0 then 48 else if t =? 1 then 1072 else if t =? 2 then 3120 else 5168.
Definition set_geo (G : table) (k : Z) : Prop :=
  0 <= k /\ 256 * k + 256 < 2 ^ 32 /\ hof G (RSet k) <> 0 /\ hdr G k SNid = 256 * k /\ forall t, 0 <= t < 4 -> hdr G k (SOff t) = off_of t.
(** The node of an id. *)
Definition nd (G : table) (id : Z) : Node := mkNd (hof G (RSet (id / 256))) (id mod 256).
(** A bit of the dirty words. *)
Definition dirty_bit (G : table) (id : Z) : bool := Z.testbit (dirty G (id / 64)) (id mod 64).

(** A group that the index knows, and the ids in such groups. *)
Definition filled (G : table) (k : Z) : Prop :=
  hof G RFirst <> 0 /\ hof G (RSecond (k / 65536)) <> 0 /\ fih G (k / 65536) = hof G (RSecond (k / 65536)) /\ sih G k = hof G (RSet k).
Definition ready (G : table) (id : Z) : Prop := set_geo G (id / 256) /\ filled G (id / 256).

(** Cells that carry no header and no index. *)
Definition plain (l : loc) : Prop := match l with LSet _ SNid | LSet _ (SOff _) | LFi _ | LSi _ => False | _ => True end.
Lemma set_geo_upd l v G k : plain l -> set_geo G k -> set_geo (upd l v G) k.
Proof.
  intros Hl (H0 & H1 & Hh & Hn & Ho). unfold set_geo. rewrite upd_hof. do 3 (split; [done|]).
  assert (Hk : forall f, (match f with SNid | SOff _ => True | _ => False end) -> hdr (upd l v G) k f = hdr G k f).
  { intros f Hf. apply (val_upd_ne l (LSet k f) v G). intros ->. by destruct f. }
  rewrite Hk by done. split; [done|]. intros t Ht. rewrite Hk by done. by apply Ho.
Qed.
Lemma filled_upd l v G k : plain l -> filled G k -> filled (upd l v G) k.
Proof. unfold filled. rewrite upd_hof. by destruct l. Qed.
Lemma ready_upd l v G id : plain l -> ready G id -> ready (upd l v G) id.
Proof. intros Hl [? ?]. split; [by apply set_geo_upd|by apply filled_upd]. Qed.
Lemma nd_upd l v G id : nd (upd l v G) id = nd G id.
Proof. unfold nd. by rewrite upd_hof. Qed.

Section Acc.
Context {S : Type} `{!Mallocator S, !MallocatorLaws S}.
Implicit Types (s : S) (G : table).

Lemma wp_rd s G l a n (Q : Z -> S -> Prop) : Rep s G -> llive G l -> a = hof G (lrole l) + loff l -> n = lsize l -> Q (val G l) s -> wp (mread n a) s Q.
Proof. intros HR Hl Ea En HQ. eapply wp_eq; [by eapply Rep_read|done]. Qed.
Lemma wp_wr s G l v a n (Q : unit -> S -> Prop) : Rep s G -> llive G l -> a = hof G (lrole l) + loff l -> n = lsize l ->
  (forall s', Rep s' (upd l (v mod 256 ^ Z.of_nat n) G) -> Q tt s') -> wp (mwrite n a v) s Q.
Proof. intros HR Hl Ea En HQ. destruct (Rep_write s G l v a n HR Hl Ea En) as (s' & E & HR'). exists tt, s'. auto. Qed.

(** ** Attributes of a node *)

Section Node.
Context (s : S) (G : table) (id : Z).
Hypothesis HR : Rep s G.
Hypothesis HG : set_geo G (id / 256).
#[local] Abbreviation ow := (hof G (RSet (id / 256))).
#[local] Abbreviation ix := (id mod 256).

Lemma id_split : id = 256 * (id / 256) + id mod 256.
Proof. apply Z.div_mod. lia. Qed.
Lemma id_small : 0 <= id < 2 ^ 32 - 1 + 1 /\ 0 <= ix < 256.
Proof. destruct HG as (? & ? & _). pose proof (Z.mod_pos_bound id 256). pose proof id_split. lia. Qed.
Lemma node_live l : lrole l = RSet (id / 256) -> lrange (nbkt G) l -> llive G l.
Proof. intros El Hr. split; [|done]. rewrite El. apply HG. Qed.

Lemma wp_attr_start t (Q : Z -> S -> Prop) : 0 <= t < 4 -> Q (ow + off_of t) s -> wp (attr_start ow t) s Q.
Proof.
  intros Ht HQ. unfold attr_start, attr_offset. apply wp_bind. apply (wp_rd s G (LSet (id / 256) (SOff t))); [done|by apply node_live|cbn; lia|done|].
  cbn [val]. destruct HG as (_ & _ & _ & _ & ->); [|done]. by apply wp_ret.
Qed.
Lemma wp_node_id (Q : Z -> S -> Prop) : Q id s -> wp (node_id (nd G id)) s Q.
Proof.
  intros HQ. unfold node_id, set_node_id, ng_nid. cbn [owner index nd]. apply wp_bind.
  apply (wp_rd s G (LSet (id / 256) SNid)); [done|by apply node_live|done|done|]. apply wp_ret. cbn [val].
  destruct HG as (H0 & H1 & _ & -> & _). rewrite <-id_split. unfold u32. rewrite wrap_small; [done|]. pose proof id_small. unfold is_u. lia.
Qed.

(** An access to the attribute cell [l] through its start and offset. *)
Lemma wp_attr_read t l o n (Q : Z -> S -> Prop) : 0 <= t < 4 -> lrole l = RSet (id / 256) -> lrange (nbkt G) l -> loff l = off_of t + o -> n = lsize l ->
  Q (val G l) s -> wp (p ← attr_start ow t; (mread n (p + o) : ST S Z)) s Q.
Proof.
  intros Ht Hr Hrg Ho En HQ. apply wp_bind, wp_attr_start; [done|]. apply (wp_rd s G l); [done|by apply node_live|rewrite Hr, Ho; lia|done|done].
Qed.
Lemma wp_attr_write t l o n v (Q : unit -> S -> Prop) : 0 <= t < 4 -> lrole l = RSet (id / 256) -> lrange (nbkt G) l -> loff l = off_of t + o -> n = lsize l ->
  0 <= v < 256 ^ Z.of_nat n -> (forall s', Rep s' (upd l v G) -> Q tt s') -> wp (p ← attr_start ow t; mwrite n (p + o) v) s Q.
Proof.
  intros Ht Hr Hrg Ho En Hv HQ. apply wp_bind, wp_attr_start; [done|].
  apply (wp_wr s G l); [done|by apply node_live|rewrite Hr, Ho; lia|done|]. rewrite Z.mod_small by done. done.
Qed.
Lemma wp_assoc {A B C} (m : ST S A) (f : A -> B) (k : B -> ST S C) (Q : C -> S -> Prop) : wp (m ≫= fun a => k (f a)) s Q -> wp ((m ≫= fun a => (mret (f a) : ST S B)) ≫= k) s Q.
Proof. intros (c & s' & E & H). exists c, s'. split; [|done]. rewrite <-E. unfold mbind, ST_bind. by destruct (m s) as [[]| |]. Qed.

Lemma wp_next_node_id (Q : Z -> S -> Prop) : Q (nxt G id) s -> wp (next_node_id (nd G id)) s Q.
Proof. intros HQ. apply wp_assoc, (wp_attr_read 0 (LNext id)); done. Qed.
Lemma wp_put_next_node_id v (Q : unit -> S -> Prop) : 0 <= v < 2 ^ 32 -> (forall s', Rep s' (upd (LNext id) v G) -> Q tt s') -> wp (put_next_node_id (nd G id) v) s Q.
Proof. intros Hv HQ. apply wp_assoc, (wp_attr_write 0 (LNext id)); done. Qed.
Lemma wp_vd_handle (Q : Z -> S -> Prop) : Q (vdh G id) s -> wp (vd_handle (nd G id)) s Q.
Proof. intros HQ. apply wp_assoc, (wp_attr_read 2 (LVd id)); done. Qed.
Lemma wp_put_vd_handle v (Q : unit -> S -> Prop) : 0 <= v < 2 ^ 64 -> (forall s', Rep s' (upd (LVd id) v G) -> Q tt s') -> wp (put_vd_handle (nd G id) v) s Q.
Proof. intros Hv HQ. apply wp_assoc, (wp_attr_write 2 (LVd id)); done. Qed.

Lemma wp_lru_read (b : bool) o (Q : Z -> S -> Prop) : o = (if b then 4 else 0) -> Q (lru G id b) s -> wp (p ← set_node_lru ow ix; mread 4 (p + o)) s Q.
Proof.
  intros -> HQ. unfold set_node_lru. apply wp_assoc. apply wp_bind, wp_attr_start; [done|].
  apply (wp_rd s G (LLru id b)); [done|by apply node_live|cbn; lia|done|done].
Qed.
Lemma wp_lru_write (b : bool) o v (Q : unit -> S -> Prop) : o = (if b then 4 else 0) -> 0 <= v < 2 ^ 32 -> (forall s', Rep s' (upd (LLru id b) v G) -> Q tt s') ->
  wp (p ← set_node_lru ow ix; mwrite 4 (p + o) v) s Q.
Proof.
  intros -> Hv HQ. unfold set_node_lru. apply wp_assoc. apply wp_bind, wp_attr_start; [done|].
  apply (wp_wr s G (LLru id b)); [done|by apply node_live|cbn; lia|done|]. rewrite Z.mod_small by done. done.
Qed.
Lemma wp_lru_prev (Q : Z -> S -> Prop) : Q (lru G id false) s -> wp (lru_prev (nd G id)) s Q.
Proof. by apply (wp_lru_read false). Qed.
Lemma wp_lru_next (Q : Z -> S -> Prop) : Q (lru G id true) s -> wp (lru_next (nd G id)) s Q.
Proof. by apply (wp_lru_read true). Qed.
Lemma wp_put_lru_prev v (Q : unit -> S -> Prop) : 0 <= v < 2 ^ 32 -> (forall s', Rep s' (upd (LLru id false) v G) -> Q tt s') -> wp (put_lru_prev (nd G id) v) s Q.
Proof. by apply (wp_lru_write false). Qed.
Lemma wp_put_lru_next v (Q : unit -> S -> Prop) : 0 <= v < 2 ^ 32 -> (forall s', Rep s' (upd (LLru id true) v G) -> Q tt s') -> wp (put_lru_next (nd G id) v) s Q.
Proof. by apply (wp_lru_write true). Qed.

(** Where the attributes are. *)
Lemma wp_set_next_node_id (Q : Z -> S -> Prop) : Q (ow + loff (LNext id)) s -> wp (set_next_node_id ow ix) s Q.
Proof. intros HQ. apply wp_bind, wp_attr_start; [done|]. apply wp_ret. cbn [loff] in HQ. by rewrite Z.add_assoc in HQ. Qed.
Lemma wp_set_node_lru (Q : Z -> S -> Prop) : Q (ow + loff (LLru id false)) s -> wp (set_node_lru ow ix) s Q.
Proof.
  intros HQ. apply wp_bind, wp_attr_start; [done|]. apply wp_ret. cbn [loff] in HQ.
  by replace (ow + off_of TIME_LIST + 4 * (ix * 2)) with (ow + (1072 + 4 * (ix * 2) + 0)) by (change (off_of TIME_LIST) with 1072; lia).
Qed.
Lemma wp_set_vd_handle (Q : Z -> S -> Prop) : Q (ow + loff (LVd id)) s -> wp (set_vd_handle ow ix) s Q.
Proof. intros HQ. apply wp_bind, wp_attr_start; [done|]. apply wp_ret. cbn [loff] in HQ. by rewrite Z.add_assoc in HQ. Qed.

(** ** Dirty bits *)

Lemma dirty_word_live : llive G (LDirty (id / 64)).
Proof. apply node_live; [|done]. cbn. f_equal. rewrite Z.div_div by lia. done. Qed.
Lemma wp_dirty_word (Q : Z -> S -> Prop) : Q (ow + loff (LDirty (id / 64))) s -> wp (dirty_word ow ix) s Q.
Proof.
  intros HQ. unfold dirty_word. apply wp_bind, wp_attr_start; [done|]. apply wp_ret.
  replace (off_of DIRTY_BMP) with 5168 by done. cbn [loff] in HQ. replace (id mod 256 / 64) with (id / 64 mod 4) by zdm. by rewrite Z.add_assoc in HQ.
Qed.
Lemma bit_pos : id mod 256 mod 64 = id mod 64.
Proof. zdm. Qed.
Lemma dirty_addr : ow + loff (LDirty (id / 64)) = hof G (lrole (LDirty (id / 64))) + loff (LDirty (id / 64)).
Proof. cbn [lrole]. do 3 f_equal. rewrite Z.div_div by lia. done. Qed.
Lemma wp_is_dirty (Q : bool -> S -> Prop) : Q (dirty_bit G id) s -> wp (is_dirty (nd G id)) s Q.
Proof.
  intros HQ. unfold is_dirty, set_is_dirty. cbn [owner index nd]. apply wp_bind, wp_dirty_word, wp_bind.
  apply (wp_rd s G (LDirty (id / 64))); [done|apply dirty_word_live|apply dirty_addr|done|]. apply wp_ret. by rewrite bit_pos.
Qed.

Lemma wp_dirty_write (f : Z -> Z) (Q : unit -> S -> Prop) : 0 <= f (dirty G (id / 64)) < 2 ^ 64 ->
  (forall s', Rep s' (upd (LDirty (id / 64)) (f (dirty G (id / 64))) G) -> Q tt s') ->
  wp (p ← dirty_word ow ix; w ← mread 8 p; mwrite 8 p (f w)) s Q.
Proof.
  intros Hf HQ. apply wp_bind, wp_dirty_word, wp_bind.
  apply (wp_rd s G (LDirty (id / 64))); [done|apply dirty_word_live|apply dirty_addr|done|].
  apply (wp_wr s G (LDirty (id / 64))); [done|apply dirty_word_live|apply dirty_addr|done|]. cbn [val]. by rewrite Z.mod_small by done.
Qed.
Lemma dirty_range : 0 <= dirty G (id / 64) < 2 ^ 64.
Proof. apply (Rep_val_range s G (LDirty (id / 64)) HR dirty_word_live). Qed.
Lemma bit_range (f : Z -> Z -> Z) : (forall n, 64 <= n -> Z.testbit (f (dirty G (id / 64)) (Z.shiftl 1 (id mod 64))) n = false) ->
  0 <= f (dirty G (id / 64)) (Z.shiftl 1 (id mod 64)) -> 0 <= f (dirty G (id / 64)) (Z.shiftl 1 (id mod 64)) < 2 ^ 64.
Proof.
  intros Hb H0. set (v := f _ _) in *. split; [done|]. destruct (decide (v = 0)) as [->|]; [done|].
  apply Z.log2_lt_pow2; [lia|]. destruct (Z.lt_ge_cases (Z.log2 v) 64) as [|Hge]; [done|].
  pose proof (Z.bit_log2 v ltac:(lia)) as H1. by rewrite (Hb _ Hge) in H1.
Qed.
Lemma high_bits n : 64 <= n -> Z.testbit (dirty G (id / 64)) n = false /\ Z.testbit (Z.shiftl 1 (id mod 64)) n = false.
Proof.
  intros Hn. pose proof dirty_range. split; [by apply (testbit_above 64)|]. pose proof (Z.mod_pos_bound id 64 ltac:(lia)).
  rewrite Z.shiftl_spec by lia. apply (testbit_above 1); lia.
Qed.
Lemma wp_set_dirty (Q : unit -> S -> Prop) :
  (forall s', Rep s' (upd (LDirty (id / 64)) (Z.lor (dirty G (id / 64)) (Z.shiftl 1 (id mod 64))) G) -> Q tt s') -> wp (set_dirty (nd G id)) s Q.
Proof.
  intros HQ. unfold set_dirty, set_set_dirty. cbn [owner index nd]. rewrite bit_pos.
  apply (wp_dirty_write (fun w => Z.lor w (Z.shiftl 1 (id mod 64)))); [|done]. apply (bit_range Z.lor).
  - intros n Hn. destruct (high_bits n Hn) as [E1 E2]. by rewrite Z.lor_spec, E1, E2.
  - apply Z.lor_nonneg. pose proof dirty_range. split; [lia|]. apply Z.shiftl_nonneg. lia.
Qed.
Lemma wp_clr_dirty (Q : unit -> S -> Prop) :
  (forall s', Rep s' (upd (LDirty (id / 64)) (Z.ldiff (dirty G (id / 64)) (Z.shiftl 1 (id mod 64))) G) -> Q tt s') -> wp (clr_dirty (nd G id)) s Q.
Proof.
  intros HQ. unfold clr_dirty, set_clr_dirty. cbn [owner index nd]. rewrite bit_pos.
  apply (wp_dirty_write (fun w => Z.ldiff w (Z.shiftl 1 (id mod 64)))); [|done]. apply (bit_range Z.ldiff).
  - intros n Hn. destruct (high_bits n Hn) as [E1 E2]. by rewrite Z.ldiff_spec, E1.
  - apply Z.ldiff_nonneg. pose proof dirty_range. left. lia.
Qed.

End Node.
End Acc.
