(* ===== verification/NodeLru.v ===== *)
(** The index and the eviction lists: [Search] finds the node of an id, and the operations
    of [node_list.h] act on the ring of a head as on a list of ids. *)
From Stdlib Require Import ZArith Lia.
From stdpp Require Import functions base list list_numbers numbers gmap.
From S2P Require Import Prelude PtMalloc PtSpec Mallocator NodeTable NodeRep NodeAcc.
Import AllocSpec.
Local Open Scope Z_scope.

(** ** Rings of links, without memory *)

(** [f x true] is what follows [x], [f x false] what precedes it. *)
Fixpoint path (f : Z -> bool -> Z) (a : Z) (xs : list Z) (b : Z) : Prop :=
  match xs with
  | [] => f a true = b /\ f b false = a
  | x :: xs => f a true = x /\ f x false = a /\ path f x xs b
  end.
Definition ring (f : Z -> bool -> Z) (h : Z) (xs : list Z) : Prop := path f h xs h.
Definition alone (f : Z -> bool -> Z) (x : Z) : Prop := f x true = x /\ f x false = x.

Definition lset (x : Z) (b : bool) (v : Z) (f : Z -> bool -> Z) : Z -> bool -> Z := <[x := <[b := v]> (f x)]> f.
Lemma lset_eq x b v f : lset x b v f x b = v.
Proof. unfold lset. by rewrite !fn_lookup_insert. Qed.
Lemma lset_ne x b v f y c : (x <> y \/ b <> c) -> lset x b v f y c = f y c.
Proof.
  intros H. unfold lset. destruct (decide (x = y)) as [->|]; [rewrite fn_lookup_insert|by rewrite fn_lookup_insert_ne].
  rewrite fn_lookup_insert_ne; [done|]. by destruct H.
Qed.
(** Membership in lists. *)
Ltac lmem :=
  repeat match goal with H : _ :: _ = _ |- _ => clear H end; cbn [app] in *;
  do 3 (rewrite ?not_elem_of_app, ?elem_of_app, ?not_elem_of_cons, ?elem_of_cons, ?elem_of_nil in * ); intuition congruence.
Ltac links := repeat first [rewrite lset_eq | rewrite lset_ne by (first [left; congruence | right; congruence])]; try done.

Definition add_links (p h n : Z) (f : Z -> bool -> Z) : Z -> bool -> Z := lset h true p (lset p false h (lset p true n (lset n false p f))).
Definition unlink (v n : Z) (f : Z -> bool -> Z) : Z -> bool -> Z := lset v true n (lset n false v f).
Definition del_links (p : Z) (f : Z -> bool -> Z) : Z -> bool -> Z :=
  lset p true p (lset p false p (unlink (f p false) (f p true) f)).

Lemma path_ext f g a xs b : (forall x, x ∈ a :: xs -> f x true = g x true) -> (forall x, x ∈ xs ++ [b] -> f x false = g x false) ->
  path f a xs b -> path g a xs b.
Proof.
  revert a; induction xs as [|x xs IH]; intros a H1 H2; cbn [path].
  - intros [E1 E2]. split; [rewrite <-H1|rewrite <-H2]; first [done|by left].
  - intros (Ha & Hx & Hp). split; [rewrite <-H1; [done|by left]|]. split; [rewrite <-H2; [done|by left]|].
    apply IH; [|intros y Hy; apply H2; by right|done]. intros y Hy. apply H1. by right.
Qed.
Lemma path_app f a l x r b : path f a (l ++ x :: r) b <-> path f a l x /\ path f x r b.
Proof. revert a; induction l as [|y l IH]; intros a; cbn [app path]; [naive_solver|]. rewrite IH. naive_solver. Qed.
Lemma path_next f a xs b : path f a xs b -> f a true ∈ xs ++ [b].
Proof. destruct xs as [|x xs]; cbn; [intros [-> _]|intros (-> & _)]; by left. Qed.
Lemma path_prev f a xs b : path f a xs b -> f b false ∈ a :: xs.
Proof.
  revert a; induction xs as [|x xs IH]; intros a; cbn [path]; [intros [_ ->]; by left|]. intros (_ & _ & H%IH). by right.
Qed.

Lemma ring_add f h xs p : ring f h xs -> NoDup (h :: xs) -> p ∉ h :: xs -> ring (add_links p h (f h true) f) h (p :: xs).
Proof.
  intros Hr [Hh Hn]%NoDup_cons Hp. apply not_elem_of_cons in Hp as [Hph Hpx]. unfold add_links, ring in *. destruct xs as [|x r]; cbn [path] in *.
  - destruct Hr as [E1 E2]. rewrite E1. split; [links|]. split; [links|]. split; links.
  - destruct Hr as (-> & E2 & Hr). apply not_elem_of_cons in Hh as [Hhx Hhr], Hpx as [Hpx Hpr]. apply NoDup_cons in Hn as [Hxr Hn].
    split; [links|]. split; [links|]. split; [links|]. split; [links|]. eapply path_ext; [| |exact Hr].
    + intros y Hy. assert (y <> h /\ y <> p) as [? ?] by (split; intros ->; lmem). links.
    + intros y Hy. assert (y <> x /\ y <> p) as [? ?] by (split; intros ->; lmem). links.
Qed.

Lemma path_join f a l p r b : path f a l p -> path f p r b -> NoDup (a :: l ++ p :: r) -> b ∉ l ++ p :: r ->
  path (unlink (f p false) (f p true) f) a (l ++ r) b.
Proof.
  unfold unlink. revert a; induction l as [|c l IH]; intros a; cbn [app path].
  - intros [E1 E2] Hr [Ha [Hp Hn]%NoDup_cons]%NoDup_cons [Hbp Hb]%not_elem_of_cons. rewrite E2. destruct r as [|x r]; cbn [path] in *.
    + destruct Hr as [-> _]. split; links.
    + destruct Hr as (-> & _ & Hr). assert (x <> b) by lmem. apply NoDup_cons in Hn as [Hx Hn].
      split; [links|]. split; [links|]. eapply path_ext; [| |exact Hr]; intros y Hy.
      * assert (y <> a) by lmem. links.
      * assert (y <> x) by lmem. links.
  - intros (E1 & E2 & Hl) Hr [Ha Hn]%NoDup_cons [Hbc Hb]%not_elem_of_cons.
    pose proof (path_prev _ _ _ _ Hl) as Hv. pose proof (path_next _ _ _ _ Hr) as Hx.
    assert (f p false <> a) by lmem. assert (f p true <> c). { apply NoDup_cons in Hn as [Hn _]. lmem. }
    split; [links|]. split; [links|]. by apply IH.
Qed.

Lemma unlink_ne v n f x : x <> v -> x <> n -> forall b, unlink v n f x b = f x b.
Proof. intros Hv Hn b. unfold unlink. links. Qed.

(** What is next to an element of a ring is in the ring. *)
Lemma ring_near f h l p r b : ring f h (l ++ p :: r) -> f p b ∈ h :: l ++ r.
Proof.
  intros [Hl Hr]%path_app. destruct b.
  - apply path_next in Hr. lmem.
  - apply path_prev in Hl. lmem.
Qed.

(** Rings do not see changes elsewhere. *)
Lemma ring_frame f g h xs : (forall x b, x ∈ h :: xs -> f x b = g x b) -> ring f h xs -> ring g h xs.
Proof. intros H. apply path_ext; intros x Hx; apply H; lmem. Qed.

(** ** Several rings *)

(** [L h] is what hangs on the head [h]. *)
Definition listed (hs : list Z) (L : Z -> list Z) (x : Z) : Prop := exists h, h ∈ hs /\ x ∈ h :: L h.

Record rings (hs : list Z) (f : Z -> bool -> Z) (L : Z -> list Z) : Prop := {
  rg_ring h : h ∈ hs -> ring f h (L h);
  rg_nodup h : h ∈ hs -> NoDup (h :: L h);
  rg_apart h h' x : h ∈ hs -> h' ∈ hs -> x ∈ h :: L h -> x ∈ h' :: L h' -> h = h'
}.

Section Rings.
Context (hs : list Z) (f : Z -> bool -> Z) (L : Z -> list Z).
Hypothesis HL : rings hs f L.

Lemma listed_add h p x : h ∈ hs -> listed hs (<[h := p :: L h]> L) x <-> x = p \/ listed hs L x.
Proof.
  intros Hh. unfold listed. split.
  - intros (h' & Hh' & Hx). destruct (decide (h' = h)) as [->|Hne]; [rewrite fn_lookup_insert in Hx|rewrite fn_lookup_insert_ne in Hx by done; eauto].
    assert (x = p \/ x ∈ h :: L h) as [?|?] by lmem; eauto.
  - intros [->|(h' & Hh' & Hx)]; [exists h; rewrite fn_lookup_insert; split; [done|lmem]|].
    exists h'. split; [done|]. destruct (decide (h' = h)) as [->|Hne]; [rewrite fn_lookup_insert; lmem|by rewrite fn_lookup_insert_ne].
Qed.
Lemma not_listed p h : ~ listed hs L p -> h ∈ hs -> p ∉ h :: L h.
Proof. intros Hp Hh Hin. apply Hp. by exists h. Qed.
Lemma listed_near h x b : h ∈ hs -> x ∈ h :: L h -> f x b ∈ h :: L h.
Proof.
  intros Hh. pose proof (rg_ring _ _ _ HL h Hh) as Hr. intros [->|Hx]%elem_of_cons.
  - destruct b; [apply path_next in Hr|apply path_prev in Hr]; lmem.
  - apply list_elem_of_split in Hx as (l & r & E). rewrite E in *. pose proof (ring_near f h l x r b Hr). lmem.
Qed.

Lemma rings_add h p : h ∈ hs -> ~ listed hs L p -> rings hs (add_links p h (f h true) f) (<[h := p :: L h]> L).
Proof.
  intros Hh Hp. pose proof HL as [Hr Hn Ha]. pose proof (not_listed p h Hp Hh) as Hph.
  assert (HL' : forall h', h' <> h -> <[h := p :: L h]> L h' = L h') by (intros; by rewrite fn_lookup_insert_ne). split.
  - intros h' Hh'. destruct (decide (h' = h)) as [->|Hne]; [rewrite fn_lookup_insert; apply ring_add; auto|].
    rewrite HL' by done. apply (ring_frame f); [|by apply Hr]. intros x b Hx. unfold add_links.
    pose proof (listed_near h h true Hh ltac:(by left)) as Hin.
    assert (x <> p) by (intros ->; by apply (not_listed p h' Hp Hh')).
    assert (x ∉ h :: L h) by (intros Hx'; by apply Hne, (Ha h' h x)). assert (x <> f h true /\ x <> h) as [? ?] by (split; intros ->; lmem). links.
  - intros h' Hh'. destruct (decide (h' = h)) as [->|Hne]; [rewrite fn_lookup_insert|rewrite HL' by done; by apply Hn].
    pose proof (Hn h Hh) as Hnh. rewrite !NoDup_cons in *. lmem.
  - intros h1 h2 x H1 H2.
    assert (Hin : forall h', h' ∈ hs -> x ∈ h' :: <[h := p :: L h]> L h' -> (x = p /\ h' = h) \/ (x <> p /\ x ∈ h' :: L h')).
    { intros h' Hh'. destruct (decide (x = p)) as [->|]; [left; split; [done|]|right; split; [done|]].
      - destruct (decide (h' = h)) as [->|Hne]; [done|]. rewrite HL' in H by done. by destruct (not_listed p h' Hp Hh').
      - destruct (decide (h' = h)) as [->|Hne]; [rewrite fn_lookup_insert in H; lmem|by rewrite HL' in H]. }
    intros [[-> ->]|[? Hx1]]%Hin [[E ->]|[? Hx2]]%Hin; try done. by apply (Ha h1 h2 x).
Qed.

Section Del.
Context (h : Z) (l r : list Z) (p : Z).
Hypothesis Hh : h ∈ hs.
Hypothesis E : L h = l ++ p :: r.

Lemma listed_del x : listed hs (<[h := l ++ r]> L) x <-> listed hs L x /\ x <> p.
Proof.
  pose proof HL as [Hr Hn Ha]. pose proof (Hn h Hh) as Hnh. rewrite E in Hnh. change (h :: l ++ p :: r) with ((h :: l) ++ p :: r) in Hnh.
  rewrite <-Permutation_middle in Hnh. apply NoDup_cons in Hnh as [Hp _]. unfold listed. split.
  - intros (h' & Hh' & Hx). destruct (decide (h' = h)) as [->|Hne].
    + rewrite fn_lookup_insert in Hx. split; [exists h; rewrite E; split; [done|]|intros ->]; lmem.
    + rewrite fn_lookup_insert_ne in Hx by done. split; [by exists h'|]. intros ->. apply Hne, (Ha h' h p); [done..|rewrite E; lmem].
  - intros [(h' & Hh' & Hx) Hxp]. exists h'. split; [done|]. destruct (decide (h' = h)) as [->|Hne]; [|by rewrite fn_lookup_insert_ne].
    rewrite fn_lookup_insert. rewrite E in Hx. lmem.
Qed.

Lemma ring_unlink : ring (unlink (f p false) (f p true) f) h (l ++ r).
Proof.
  pose proof (rg_ring _ _ _ HL h Hh) as Hr. pose proof (rg_nodup _ _ _ HL h Hh) as Hn. rewrite E in Hr, Hn. apply path_app in Hr as [H1 H2].
  apply (path_join f h l p r h H1 H2 Hn). by apply NoDup_cons in Hn as [? _].
Qed.

Lemma rings_unlink : rings hs (unlink (f p false) (f p true) f) (<[h := l ++ r]> L).
Proof.
  pose proof HL as [Hr Hn Ha].
  assert (HL' : forall h', h' <> h -> <[h := l ++ r]> L h' = L h') by (intros; by rewrite fn_lookup_insert_ne).
  assert (Hp : p ∈ h :: L h) by (rewrite E; lmem).
  assert (Hsub : forall h' x, x ∈ h' :: <[h := l ++ r]> L h' -> x ∈ h' :: L h').
  { intros h' x. destruct (decide (h' = h)) as [->|Hne]; [rewrite fn_lookup_insert, E; lmem|by rewrite HL']. }
  split.
  - intros h' Hh'. destruct (decide (h' = h)) as [->|Hne]; [rewrite fn_lookup_insert; apply ring_unlink|].
    rewrite HL' by done. apply (ring_frame f); [|by apply Hr]. intros x b Hx. symmetry.
    assert (x ∉ h :: L h) by (intros Hx'; by apply Hne, (Ha h' h x)).
    apply unlink_ne; intros ->; pose proof (listed_near h p true Hh Hp); pose proof (listed_near h p false Hh Hp); lmem.
  - intros h' Hh'. destruct (decide (h' = h)) as [->|Hne]; [rewrite fn_lookup_insert|rewrite HL' by done; by apply Hn].
    pose proof (Hn h Hh) as Hnh. rewrite E in Hnh. change (h :: l ++ p :: r) with ((h :: l) ++ p :: r) in Hnh.
    rewrite <-Permutation_middle in Hnh. by apply NoDup_cons in Hnh as [_ ?].
  - intros h1 h2 x H1 H2 Hx1%Hsub Hx2%Hsub. by apply (Ha h1 h2 x).
Qed.
End Del.

Lemma rings_lset p b v : ~ listed hs L p -> rings hs (lset p b v f) L.
Proof.
  intros Hp. pose proof HL as [Hr Hn Ha]. split; [|done..]. intros h Hh. apply (ring_frame f); [|by apply Hr].
  intros x c Hx. assert (x <> p) by (intros ->; apply Hp; by exists h). links.
Qed.
End Rings.

(** ** The three lists of the table *)

Definition heads : list Z := [0; 1; 2].

Record lru_ok (f : Z -> bool -> Z) (L : Z -> list Z) (n : Z) : Prop := {
  lo_rings : rings heads f L;
  lo_alone x : 0 <= x < n -> ~ listed heads L x -> alone f x
}.

Lemma lru_ok_add f L n h p : lru_ok f L n -> h ∈ heads -> ~ listed heads L p -> lru_ok (add_links p h (f h true) f) (<[h := p :: L h]> L) n.
Proof.
  intros [HL Hs] Hh Hp. split; [by apply rings_add|]. intros x Hx Hl. rewrite listed_add in Hl by done.
  assert (Hxp : x <> p) by (intros ->; apply Hl; by left). assert (Hnl : ~ listed heads L x) by (intros ?; apply Hl; by right).
  pose proof (not_listed _ _ x h Hnl Hh). pose proof (listed_near _ _ _ HL h h true Hh ltac:(by left)).
  assert (x <> f h true /\ x <> h) as [? ?] by (split; intros ->; lmem).
  destruct (Hs x Hx Hnl) as [E1 E2]. unfold alone, add_links. split; links.
Qed.

Lemma lru_ok_del f L n h l p r : lru_ok f L n -> h ∈ heads -> L h = l ++ p :: r -> lru_ok (del_links p f) (<[h := l ++ r]> L) n.
Proof.
  intros [HL Hs] Hh E. pose proof (listed_del _ _ _ HL h l r p Hh E) as Hl.
  assert (Hp : ~ listed heads (<[h := l ++ r]> L) p) by (rewrite Hl; naive_solver).
  split; [unfold del_links; do 2 (apply rings_lset; [|done]); by apply rings_unlink|].
  intros x Hx Hnl. destruct (decide (x = p)) as [->|Hxp]; [unfold alone, del_links; split; links|].
  assert (Hnl' : ~ listed heads L x) by (intros ?; apply Hnl; by rewrite Hl). destruct (Hs x Hx Hnl') as [E1 E2].
  pose proof (not_listed _ _ x h Hnl' Hh). assert (p ∈ h :: L h) by (rewrite E; lmem).
  pose proof (listed_near _ _ _ HL h p true Hh ltac:(done)). pose proof (listed_near _ _ _ HL h p false Hh ltac:(done)).
  assert (x <> f p true /\ x <> f p false) as [? ?] by (split; intros ->; lmem). unfold alone, del_links, unlink. split; links.
Qed.

(** Taking out a node that is in no list changes nothing. *)
Lemma del_links_alone p f : alone f p -> forall x b, del_links p f x b = f x b.
Proof.
  intros [E1 E2] x b. unfold del_links, unlink. rewrite E1, E2. destruct (decide (x = p)) as [->|]; [|links]. destruct b; links.
Qed.
Lemma lru_ok_ext f g L n : (forall x b, 0 <= x < n \/ listed heads L x -> f x b = g x b) -> lru_ok f L n -> lru_ok g L n.
Proof.
  intros H [[Hr Hn Ha] Hs]. split; [split; [|done..]|].
  - intros h Hh. apply (ring_frame f); [|by apply Hr]. intros x b Hx. apply H. right. by exists h.
  - intros x Hx Hl. destruct (Hs x Hx Hl). split; rewrite <-H by (by left); done.
Qed.

(** ** The index *)

Definition with_lru (f : Z -> bool -> Z) (G : table) : table := upd_lru (fun _ => f) G.
Lemma with_lru_self G : with_lru (lru G) G = G.
Proof. by destruct G. Qed.

(** What the process knows of the table. *)
Definition linked (p : Pool) (G : table) : Prop := _firstIndex p = hof G RFirst /\ _ngInfo p = hof G RInfo /\ hof G RInfo <> 0.

Section Lru.
Context {S : Type} `{!Mallocator S, !MallocatorLaws S}.
Implicit Types (s : S) (G : table) (p : Pool).
#[local] Abbreviation PS := (ST (Pool * S)).

Lemma wp_shm {A} (m : ST S A) p s (Q : A -> Pool * S -> Prop) : wp m s (fun a s' => Q a (p, s')) -> wp (shm m) (p, s) Q.
Proof. intros (a & s' & E & H). exists a, (p, s'). unfold shm. cbn [fst snd]. by rewrite E. Qed.
Lemma wp_member {A B} (f : Pool -> A) (k : A -> PS B) p s Q : wp (k (f p)) (p, s) Q -> wp (member f ≫= k) (p, s) Q.
Proof. done. Qed.
Lemma wp_assign {B} (g : Pool -> Pool) (k : unit -> PS B) p s Q : wp (k tt) (g p, s) Q -> wp (assign g ≫= k) (p, s) Q.
Proof. done. Qed.

Lemma wp_assign_last (g : Pool -> Pool) p s (Q : unit -> Pool * S -> Prop) : Q tt (g p, s) -> wp (assign g) (p, s) Q.
Proof. intros H. by exists tt, (g p, s). Qed.

Lemma offsets id : 0 <= id < 2 ^ 32 -> OFFSET1 id = id / 256 / 65536 /\ OFFSET2 id = id / 256 mod 65536.
Proof.
  intros Hid. unfold OFFSET1, OFFSET2. rewrite !Z.shiftr_div_pow2 by lia. change (2 ^ 24) with 16777216. change (2 ^ 8) with 256. split.
  - rewrite Z.div_div by lia. done.
  - replace (Z.land id 16776960) with (id mod 16777216 / 256 * 256); [zdm|].
    change 16777216 with (2 ^ 24). change 256 with (2 ^ 8). rewrite <-Z.shiftr_div_pow2, <-Z.shiftl_mul_pow2, <-Z.land_ones by lia.
    apply Z.bits_inj'. intros n Hn. rewrite Z.shiftl_spec by lia. destruct (decide (n < 8)).
    + rewrite Z.testbit_neg_r, Z.land_spec by lia. change 16776960 with (Z.shiftl 65535 8). rewrite Z.shiftl_spec, (Z.testbit_neg_r 65535) by lia. by rewrite andb_false_r.
    + rewrite Z.shiftr_spec, !Z.land_spec by lia. replace (n - 8 + 8) with n by lia. f_equal.
      change 16776960 with (Z.shiftl (Z.ones 16) 8). rewrite Z.shiftl_spec by lia.
      destruct (decide (n < 24)); [rewrite !Z.ones_spec_low by lia|rewrite !Z.ones_spec_high by lia]; done.
Qed.

Lemma ready_small G id : ready G id -> 0 <= id < 2 ^ 32 - 1 /\ 0 <= id / 256 < 2 ^ 24.
Proof. intros [(H0 & H1 & _) _]. pose proof (Z.mod_pos_bound id 256). pose proof (Z.div_mod id 256). change (2 ^ 24) with 16777216. lia. Qed.

Lemma wp_Search p s G id (Q : Node -> Pool * S -> Prop) : Rep s G -> linked p G -> ready G id -> Q (nd G id) (p, s) -> wp (Index_Search id) (p, s) Q.
Proof.
  intros HR (Ef & _) Hrd HQ. destruct (ready_small _ _ Hrd) as [Hid Hk]. destruct Hrd as [Hg (Hf & Hs & E1 & E2)].
  destruct (offsets id) as [O1 O2]; [lia|]. unfold Index_Search, INVALID_NODE_ID. rewrite (proj2 (Z.eqb_neq _ _)) by lia.
  apply wp_member, wp_bind, wp_shm. rewrite O1, O2, Ef.
  apply (wp_rd s G (LFi (id / 256 / 65536))); [done|split; [done|cbn; change (2 ^ 24) with 16777216 in *; zdm]|unfold fi_h; cbn [lrole loff]; lia|done|].
  cbn [val]. rewrite E1. unfold INVALID_HANDLE. rewrite (proj2 (Z.eqb_neq _ _)) by done. apply wp_bind, wp_shm.
  apply (wp_rd s G (LSi (id / 256))); [done|by split|unfold si_h; cbn [lrole loff]; lia|done|]. cbn [val]. rewrite E2.
  rewrite (proj2 (Z.eqb_neq _ _)) by apply Hg. apply wp_bind, wp_shm. unfold ng_nid.
  apply (wp_rd s G (LSet (id / 256) SNid)); [done|split; [apply Hg|done]|done..|]. cbn [val].
  destruct Hg as (_ & _ & _ & -> & _). pose proof (Z.div_mod id 256 ltac:(lia)) as Ed. pose proof (Z.mod_pos_bound id 256 ltac:(lia)).
  replace (id - 256 * (id / 256)) with (id mod 256) by lia.
  assert (E3 : s32 (id mod 256) = id mod 256). { apply swrap_small; [lia|]. unfold is_s. cbn. lia. }
  rewrite E3, (proj2 (Z.ltb_ge _ _)), (proj2 (Z.ltb_ge _ _)) by lia. by apply wp_ret.
Qed.

Lemma wp_node_Next p s G id (Q : Node -> Pool * S -> Prop) : Rep s G -> linked p G -> ready G id -> ready G (lru G id true) ->
  Q (nd G (lru G id true)) (p, s) -> wp (node_Next (nd G id)) (p, s) Q.
Proof. intros HR Hp [Hg ?] Hrd HQ. apply wp_bind, wp_shm, (wp_lru_next s G id HR Hg). by apply wp_Search with G. Qed.
Lemma wp_node_Prev p s G id (Q : Node -> Pool * S -> Prop) : Rep s G -> linked p G -> ready G id -> ready G (lru G id false) ->
  Q (nd G (lru G id false)) (p, s) -> wp (node_Prev (nd G id)) (p, s) Q.
Proof. intros HR Hp [Hg ?] Hrd HQ. apply wp_bind, wp_shm, (wp_lru_prev s G id HR Hg). by apply wp_Search with G. Qed.

(** ** The operations on lists *)

(** A link is set to a node's id. *)
Definition put_link (b : bool) (x : Node) (v : Z) : ST S unit := if b then put_lru_next x v else put_lru_prev x v.
Lemma wp_put_link s G f x b y (Q : unit -> S -> Prop) : Rep s (with_lru f G) -> set_geo G (x / 256) -> set_geo G (y / 256) ->
  (forall s', Rep s' (with_lru (lset x b y f) G) -> Q tt s') -> wp (i ← node_id (nd G y); put_link b (nd G x) i) s Q.
Proof.
  intros HR Hx Hy HQ. pose proof (id_small _ _ Hy) as [Hy' _]. apply wp_bind. apply (wp_node_id s (with_lru f G) y HR Hy). destruct b.
  - apply (wp_put_lru_next s (with_lru f G) x HR Hx); [lia|exact HQ].
  - apply (wp_put_lru_prev s (with_lru f G) x HR Hx); [lia|exact HQ].
Qed.
Lemma wp_put_link_then {A} s G f x b y (k : ST S A) (Q : A -> S -> Prop) : Rep s (with_lru f G) -> set_geo G (x / 256) -> set_geo G (y / 256) ->
  (forall s', Rep s' (with_lru (lset x b y f) G) -> wp k s' Q) -> wp (i ← node_id (nd G y); put_link b (nd G x) i;; k) s Q.
Proof.
  intros HR Hx Hy HQ. destruct (wp_put_link s G f x b y (fun _ s' => wp k s' Q) HR Hx Hy HQ) as (u & s' & E & H).
  unfold wp in *. destruct H as (a & s'' & E' & H). exists a, s''. split; [|done]. destruct u. rewrite <-E'.
  apply bind_inv in E as (i & s1 & E1 & E2). rewrite (bind_ok _ _ _ _ _ E1). by rewrite (bind_ok _ _ _ _ _ E2).
Qed.

Lemma wp_list_insert s G h n x (Q : unit -> S -> Prop) : Rep s G -> set_geo G (h / 256) -> set_geo G (n / 256) -> set_geo G (x / 256) ->
  (forall s', Rep s' (with_lru (add_links x h n (lru G)) G) -> Q tt s') -> wp (NODE_LIST_insert (nd G x) (nd G h) (nd G n)) s Q.
Proof.
  intros HR Hh Hn Hx HQ. rewrite <-(with_lru_self G) in HR. unfold NODE_LIST_insert.
  eapply (wp_put_link_then s G _ n false x); [eassumption|done..|]. intros s1 H1.
  eapply (wp_put_link_then s1 G _ x true n); [eassumption|done..|]. intros s2 H2.
  eapply (wp_put_link_then s2 G _ x false h); [eassumption|done..|]. intros s3 H3.
  eapply (wp_put_link s3 G _ h true x); [eassumption|done..].
Qed.
Lemma wp_list_unlink s G v n (Q : unit -> S -> Prop) : Rep s G -> set_geo G (v / 256) -> set_geo G (n / 256) ->
  (forall s', Rep s' (with_lru (unlink v n (lru G)) G) -> Q tt s') -> wp (NODE_LIST_unlink (nd G v) (nd G n)) s Q.
Proof.
  intros HR Hv Hn HQ. rewrite <-(with_lru_self G) in HR. unfold NODE_LIST_unlink.
  eapply (wp_put_link_then s G _ n false v); [eassumption|done..|]. intros s1 H1. eapply (wp_put_link s1 G _ v true n); [eassumption|done..].
Qed.

Lemma wp_NODE_LIST_ADD p s G h x (Q : unit -> Pool * S -> Prop) : Rep s G -> linked p G -> ready G h -> ready G (lru G h true) -> set_geo G (x / 256) ->
  (forall s', Rep s' (with_lru (add_links x h (lru G h true) (lru G)) G) -> Q tt (p, s')) -> wp (NODE_LIST_ADD (nd G x) (nd G h)) (p, s) Q.
Proof.
  intros HR Hp Hh Hn Hx HQ. apply wp_bind, (wp_node_Next p s G); [done..|].
  apply wp_shm, wp_list_insert; [done|apply Hh|apply Hn|done|done].
Qed.

Lemma wp_NODE_LIST_DEL p s G x (Q : unit -> Pool * S -> Prop) : Rep s G -> linked p G -> ready G x -> (forall b, ready G (lru G x b)) ->
  (forall s', Rep s' (with_lru (del_links x (lru G)) G) -> Q tt (p, s')) -> wp (NODE_LIST_DEL (nd G x)) (p, s) Q.
Proof.
  intros HR Hp Hx Hn HQ. apply wp_bind, (wp_node_Prev p s G); [done..|]. apply wp_bind, (wp_node_Next p s G); [done..|].
  apply wp_bind, wp_shm, wp_list_unlink; [done|apply Hn|apply Hn|]. intros s1 H1.
  set (f1 := unlink _ _ _) in H1. apply wp_bind, wp_shm. apply (wp_node_id s1 (with_lru f1 G) x H1 (proj1 Hx)).
  pose proof (id_small G x (proj1 Hx)) as [Hx' _].
  apply wp_bind, wp_shm, (wp_put_lru_prev s1 (with_lru f1 G) x H1 (proj1 Hx)); [lia|]. intros s2 H2.
  apply wp_bind, wp_shm, (wp_node_id s2 (with_lru (lset x false x f1) G) x H2 (proj1 Hx)).
  apply wp_shm, (wp_put_lru_next s2 (with_lru (lset x false x f1) G) x H2 (proj1 Hx)); [lia|]. intros s3 H3. apply HQ, H3.
Qed.
End Lru.
