(* ===== verification/NodeGroup.v ===== *)
(** New groups of nodes: what [NODE_SET::Init] makes of a block of zeros. *)
From Stdlib Require Import ZArith Lia.
From stdpp Require Import functions base list list_numbers numbers gmap.
From S2P Require Import Prelude PtMalloc PtSpec Mallocator NodeTable NodeRep NodeAcc NodeLru.
Import AllocSpec.
Local Open Scope Z_scope.

(** Only cells of the block [r] differ. *)
Record outside (r : role) (G G' : table) : Prop := {
  os_hof : hof G' = hof G;
  os_nsets : nsets G' = nsets G;
  os_nbkt : nbkt G' = nbkt G;
  os_rest : rest G' = rest G;
  os_val l : lrole l <> r -> val G' l = val G l
}.
Lemma outside_refl r G : outside r G G.
Proof. by split. Qed.
Lemma outside_trans r G G' G'' : outside r G G' -> outside r G' G'' -> outside r G G''.
Proof. intros [] []. split; try congruence. intros l Hl. transitivity (val G' l); auto. Qed.
Lemma outside_upd r l v G : lrole l = r -> outside r G (upd l v G).
Proof.
  intros E. split; rewrite ?upd_hof, ?upd_nsets, ?upd_nbkt, ?upd_rest; try done. intros l' Hl'. apply val_upd_ne. congruence.
Qed.

(** A node as [Init] leaves it, and the dirty bits of its word. *)
Definition fresh_node (G : table) (id : Z) : Prop :=
  nxt G id = INVALID_NODE_ID /\ lru G id false = id /\ lru G id true = id /\ vdh G id = INVALID_HANDLE.
Record fresh_group (G : table) (k : Z) : Prop := {
  fg_prev : hdr G k SPrev = INVALID_HANDLE;
  fg_next : hdr G k SNext = INVALID_HANDLE;
  fg_top : hdr G k STop = 0;
  fg_count : hdr G k SCount = 0;
  fg_free : hdr G k SFree = 0;
  fg_geo : set_geo G k;
  fg_node id : 256 * k <= id < 256 * k + 256 -> fresh_node G id;
  fg_dirty w : 4 * k <= w < 4 * k + 4 -> dirty G w = 0
}.

Section Group.
Context {S : Type} `{!Mallocator S, !MallocatorLaws S}.
Implicit Types (s : S) (G : table).

(** A write to a cell of the group [k]; the new state is kept abstract. *)
Lemma wp_put s G l v a n (Q : unit -> S -> Prop) : Rep s G -> hof G (lrole l) <> 0 -> lrange (nbkt G) l -> a = hof G (lrole l) + loff l -> n = lsize l ->
  0 <= v < 256 ^ Z.of_nat n -> (forall s', Rep s' (upd l v G) -> Q tt s') -> wp (mwrite n a v) s Q.
Proof.
  intros HR Hh Hr Ea En Hv HQ. apply (wp_wr s G l v); [done|by split|done|done|]. by rewrite Z.mod_small.
Qed.

Section Init.
Context (k : Z).
#[local] Abbreviation ns G := (hof G (RSet k)).
Hypothesis Hk : 0 <= k /\ 256 * k + 256 < 2 ^ 32.

Ltac put_cell Hh l :=
  match goal with H : Rep ?s ?G |- wp _ ?s _ => apply (wp_put s G l) end; [eassumption|exact Hh|first [done|cbn; lia]|repeat match goal with x := _ : table |- _ => unfold x end; rewrite ?upd_hof; cbn [lrole loff upd upd_hdr hof]; unfold LRU_PREV, LRU_NEXT; lia|done|first [lia|by split|cbn; lia]|
    let s' := fresh "s" in let H := fresh "HR" in intros s' H].
Ltac next_offset Hh i v w :=
  match goal with |- context [if ?b then _ else _] => change b with true end; cbv iota;
  apply wp_bind; match goal with H : Rep ?s ?G |- wp _ ?s _ => apply (wp_rd s G (LSet k (SOff i))) end;
    [assumption|split; [exact Hh|done]|cbn [lrole loff upd upd_hdr hof]; lia|done|];
  match goal with |- context [val ?G (LSet k (SOff i))] => replace (val G (LSet k (SOff i))) with v by (symmetry; apply val_upd) end;
  match goal with |- context [u32 ?x] => change (u32 x) with w end;
  let j := eval cbv in (i + 1) in apply wp_bind; put_cell Hh (LSet k (SOff j)).
Ltac look := repeat first [rewrite fn_lookup_insert | rewrite fn_lookup_insert_ne by congruence].

Lemma init_header s G (Q : unit -> S -> Prop) : Rep s G -> hof G (RSet k) <> 0 ->
  (forall s' G', Rep s' G' -> outside (RSet k) G G' -> hdr G' k SPrev = INVALID_HANDLE -> hdr G' k SNext = INVALID_HANDLE ->
    hdr G' k STop = 0 -> hdr G' k SCount = 0 -> hdr G' k SFree = 0 -> set_geo G' k ->
    dirty G' = dirty G -> Q tt s') ->
  wp (mwrite 8 (ns G + 8) INVALID_HANDLE;; mwrite 8 (ns G) INVALID_HANDLE;; put_dele_top (ns G) 0;; put_dele_count (ns G) 0;;
    put_ng_free (ns G) 0;; put_ng_nid (ns G) (256 * k);; put_attr_count (ns G) attr_count;; put_attr_offset (ns G) 0 base_header_size;;
    init_offsets (ns G) 1 NG_ATTR_SIZE) s Q.
Proof.
  intros HR Hh HQ. unfold INVALID_HANDLE, put_dele_top, put_dele_count, put_ng_free, put_ng_nid, put_attr_count, put_attr_offset.
  apply wp_bind. put_cell Hh (LSet k SNext). apply wp_bind. put_cell Hh (LSet k SPrev). apply wp_bind. put_cell Hh (LSet k STop).
  apply wp_bind. put_cell Hh (LSet k SCount). apply wp_bind. put_cell Hh (LSet k SFree). apply wp_bind. put_cell Hh (LSet k SNid).
  apply wp_bind. put_cell Hh (LSet k SAttrs). apply wp_bind. put_cell Hh (LSet k (SOff 0)).
  cbn [init_offsets NG_ATTR_SIZE]. next_offset Hh 0 48 1072. next_offset Hh 1 1072 3120. next_offset Hh 2 3120 5168.
  match goal with |- context [if ?b then _ else _] => change b with false end. cbv iota. apply wp_ret.
  match goal with H : Rep _ (upd (LSet k (SOff 3)) _ _) |- _ => eapply HQ; [exact H|..]; clear - Hk Hh end.
  1: repeat first [apply outside_refl|eapply outside_trans; [|by apply outside_upd]].
  1-5,7: cbn; look; done.
  unfold set_geo. cbn. split; [lia|]. split; [lia|]. split; [done|]. look. split; [done|]. intros t Ht.
  assert (t = 0 \/ t = 1 \/ t = 2 \/ t = 3) as [->|[->|[->| ->]]] by lia; look; done.
Qed.

(** ** The nodes *)

(** What the loop has done to the first [n] nodes. *)
Record started (G G' : table) (n : Z) : Prop := {
  sd_out : outside (RSet k) G G';
  sd_hdr f : hdr G' k f = hdr G k f;
  sd_node id : 256 * k <= id < 256 * k + n -> fresh_node G' id;
  sd_dirty w : 4 * k <= w < 4 * k + 4 -> dirty G' w = 0
}.

(** One round of the loop. *)
Definition init_one (G : table) (id : Z) : table :=
  upd (LDirty (id / 64)) (Z.ldiff (dirty G (id / 64)) (Z.shiftl 1 (id mod 64)))
    (upd (LVd id) INVALID_HANDLE (upd (LLru id true) id (upd (LLru id false) id (upd (LNext id) INVALID_NODE_ID G)))).

Lemma init_one_started G0 G i : started G0 G i -> 0 <= i < 256 -> started G0 (init_one G (256 * k + i)) (i + 1).
Proof.
  intros [Ho Hh Hn Hd] Hi. set (id := 256 * k + i). assert (Ek : id / 256 = k) by zdm.
  assert (Ew : id / 64 / 4 = k) by (rewrite Z.div_div by lia; done). split.
  - unfold init_one. do 5 (eapply outside_trans; [|apply outside_upd; cbn [lrole]; congruence]). done.
  - done.
  - intros id' Hid'. destruct (decide (id' = id)) as [->|Hne].
    + repeat split; cbn; look; done.
    + destruct (Hn id') as (? & ? & ? & ?); [lia|]. repeat split; cbn; look; done.
  - intros w Hw. cbn. destruct (decide (w = id / 64)) as [->|]; look; [|by apply Hd]. by rewrite Hd.
Qed.

Lemma init_nodes_ok s G G0 i n (Q : unit -> S -> Prop) : Rep s G -> set_geo G k -> started G0 G i -> 0 <= i -> i + Z.of_nat n <= 256 ->
  (forall s' G', Rep s' G' -> started G0 G' (i + Z.of_nat n) -> Q tt s') -> wp (init_nodes (ns G) i n) s Q.
Proof.
  revert s G i; induction n as [|n IH]; intros s G i HR HG Hst Hi Hn HQ; [apply wp_ret, (HQ s G HR); by rewrite Z.add_0_r|].
  set (id := 256 * k + i). assert (Ek : id / 256 = k) by zdm. assert (Ei : id mod 256 = i) by zdm.
  assert (Hh : hof G (RSet (id / 256)) <> 0) by (rewrite Ek; apply HG).
  assert (Hid : 0 <= id < 2 ^ 32) by lia. assert (HG' : set_geo G (id / 256)) by by rewrite Ek.
  cbn [init_nodes]. replace (ns G) with (hof G (RSet (id / 256))) by by rewrite Ek. replace i with (id mod 256) by done.
  apply wp_bind, (wp_set_next_node_id s G id HR HG'), wp_bind. put_cell Hh (LNext id). set (G1 := upd _ _ G) in *.
  apply wp_bind, (wp_set_node_lru s0 G1 id HR0 HG'), wp_bind, (wp_node_id s0 G1 id HR0 HG'), wp_bind.
  put_cell Hh (LLru id false). set (G2 := upd _ _ G1) in *.
  apply wp_bind, (wp_node_id s1 G2 id HR1 HG'), wp_bind. put_cell Hh (LLru id true). set (G3 := upd _ _ G2) in *.
  apply wp_bind, (wp_set_vd_handle s2 G3 id HR2 HG'), wp_bind. put_cell Hh (LVd id). set (G4 := upd _ _ G3) in *.
  apply wp_bind, (wp_clr_dirty s3 G4 id HR3 HG'). intros s4 HR4.
  replace (hof G (RSet (id / 256))) with (hof (init_one G id) (RSet k)) by by rewrite <-Ek.
  replace (id mod 256 + 1) with (i + 1) by lia. apply (IH s4 (init_one G id)); [done|done|by apply init_one_started; [|lia]|lia|lia|].
  intros s5 G5 HR5 Hst5. apply (HQ s5 G5 HR5). by replace (i + Z.of_nat (Datatypes.S n)) with (i + 1 + Z.of_nat n) by lia.
Qed.

Lemma NODE_SET_Init_ok s G (Q : Z -> S -> Prop) : Rep s G -> hof G (RSet k) <> 0 -> (forall w, 4 * k <= w < 4 * k + 4 -> dirty G w = 0) ->
  (forall s' G', Rep s' G' -> outside (RSet k) G G' -> fresh_group G' k -> Q 0 s') -> wp (NODE_SET_Init (ns G) (256 * k)) s Q.
Proof.
  intros HR Hh Hd HQ. unfold NODE_SET_Init. cbn [NG_ATTR_SIZE].
  destruct (init_header s G (fun _ s' => exists G', Rep s' G' /\ outside (RSet k) G G' /\ hdr G' k SPrev = INVALID_HANDLE /\ hdr G' k SNext = INVALID_HANDLE /\
    hdr G' k STop = 0 /\ hdr G' k SCount = 0 /\ hdr G' k SFree = 0 /\ set_geo G' k /\ dirty G' = dirty G) HR Hh) as (u & s1 & E & G1 & HR1 & Ho & ? & ? & ? & ? & ? & Hg & Ed).
  { intros s' G'. intros. exists G'. auto 10. }
  enough (H' : wp (init_nodes (ns G) 0 (Z.to_nat NODE_GROUP_INCLUDE_NODES);; mret 0) s1 Q).
  { destruct H' as (r & s2 & E2 & HQ2). exists r, s2. split; [|done]. rewrite <-E2. clear -E. destruct u.
    do 8 (apply bind_inv in E as (? & ? & E1 & E); rewrite (bind_ok _ _ _ _ _ E1); clear E1). by rewrite (bind_ok _ _ _ _ _ E). }
  apply wp_bind. rewrite <-(os_hof _ _ _ Ho). apply (init_nodes_ok s1 G1 G1); [done|done| |done|done|].
  { split; [apply outside_refl|done|lia|]. intros w Hw. rewrite Ed. by apply Hd. }
  intros s2 G2 HR2 [Ho2 Hh2 Hn2 Hd2]. apply wp_ret, (HQ s2 G2); [done|by eapply outside_trans|].
  split; rewrite ?Hh2; try done. 
  destruct Hg as (? & ? & ? & E1 & E2). unfold set_geo. rewrite Hh2, (os_hof _ _ _ Ho2). do 4 (split; [done|]). intros t Ht. rewrite Hh2. by apply E2.
Qed.
End Init.
End Group.
