(* ===== verification/NodeNg.v ===== *)
(** The two lists of groups, those with room and the full ones: [ng_list.h] acts on them
    as on rings of names. *)
From Stdlib Require Import ZArith Lia.
From stdpp Require Import functions base list list_numbers numbers gmap.
From S2P Require Import Prelude PtMalloc PtSpec Mallocator NodeTable NodeRep NodeAcc NodeLru NodeGroup.
Import AllocSpec.
Local Open Scope Z_scope.

(** The head of the list of groups with room is named -1, that of the full groups -2, a
    group by its number; -3 names nothing. *)
Definition name_addr (G : table) (x : Z) : Z :=
  if x =? -3 then 0 else if x =? -1 then hof G RInfo else if x =? -2 then hof G RInfo + 16 else hof G (RSet x).
Definition name_cell (x : Z) (b : bool) : loc :=
  if x =? -1 then LInfo (if b then IFreeNext else IFreePrev)
  else if x =? -2 then LInfo (if b then IFullNext else IFullPrev)
  else LSet x (if b then SNext else SPrev).
Definition name_link (G : table) (x : Z) (b : bool) : Z :=
  if x =? -1 then info G (if b then IFreeNext else IFreePrev)
  else if x =? -2 then info G (if b then IFullNext else IFullPrev)
  else hdr G x (if b then SNext else SPrev).
(** Groups and heads that exist. *)
Definition named (G : table) (x : Z) : Prop := x = -1 \/ x = -2 \/ (0 <= x < nsets G /\ hof G (RSet x) <> 0).
(** [f] are their links. *)
Definition ng_links (G : table) (f : Z -> bool -> Z) : Prop := forall x b, named G x -> name_link G x b = name_addr G (f x b).
Definition ng_heads : list Z := [-1; -2].
Definition set_links (b : bool) (p v : Z) {S} `{!Mallocator S} : ST S unit := if b then put_ng_next p v else put_ng_prev p v.

(** Only links of groups and heads differ. *)
Record ng_frame (G G' : table) : Prop := {
  nf_hof : hof G' = hof G;
  nf_nsets : nsets G' = nsets G;
  nf_nbkt : nbkt G' = nbkt G;
  nf_rest : rest G' = rest G;
  nf_nxt : nxt G' = nxt G;
  nf_lru : lru G' = lru G;
  nf_vdh : vdh G' = vdh G;
  nf_dirty : dirty G' = dirty G;
  nf_fih : fih G' = fih G;
  nf_sih : sih G' = sih G;
  nf_hh : hh G' = hh G;
  nf_bkt : bkt G' = bkt G;
  nf_info f : f <> IFreePrev -> f <> IFreeNext -> f <> IFullPrev -> f <> IFullNext -> info G' f = info G f;
  nf_hdr k f : f <> SPrev -> f <> SNext -> hdr G' k f = hdr G k f
}.
Lemma ng_frame_refl G : ng_frame G G.
Proof. by split. Qed.
Lemma ng_frame_trans G G' G'' : ng_frame G G' -> ng_frame G' G'' -> ng_frame G G''.
Proof.
  intros [] []. split; try congruence.
  - intros f. intros. transitivity (info G' f); auto.
  - intros k f. intros. transitivity (hdr G' k f); auto.
Qed.
Lemma ng_frame_upd x b v G : ng_frame G (upd (name_cell x b) v G).
Proof.
  unfold name_cell. destruct (x =? -1), (x =? -2), b; split; try done; cbn; intros; rewrite ?fn_lookup_insert_ne by done; try done.
  all: match goal with |- context [<[?y := _]> _ ?k] => destruct (decide (y = k)) as [->|] end; rewrite ?fn_lookup_insert, ?fn_lookup_insert_ne by done; done.
Qed.
Lemma ng_frame_addr G G' x : ng_frame G G' -> name_addr G' x = name_addr G x.
Proof. intros []. unfold name_addr. by rewrite nf_hof0. Qed.
Lemma ng_frame_geo G G' k : ng_frame G G' -> set_geo G k -> set_geo G' k.
Proof.
  intros [] (? & ? & ? & E & Ho). unfold set_geo. rewrite nf_hof0, nf_hdr0 by done. do 4 (split; [done|]).
  intros t Ht. rewrite nf_hdr0 by done. by apply Ho.
Qed.

Lemma val_name_cell G x b : val G (name_cell x b) = name_link G x b.
Proof. unfold name_cell, name_link. by destruct (x =? -1), (x =? -2). Qed.
Lemma name_cell_inj x y b c : name_cell x b = name_cell y c -> x = y /\ b = c.
Proof.
  unfold name_cell. destruct (Z.eqb_spec x (-1)), (Z.eqb_spec y (-1)), (Z.eqb_spec x (-2)), (Z.eqb_spec y (-2)); destruct b, c; intros [=]; split; congruence || lia.
Qed.

Section Ng.
Context {S : Type} `{!Mallocator S, !MallocatorLaws S}.
Implicit Types (s : S) (G : table).

Lemma named_cell G x b : hof G RInfo <> 0 -> named G x ->
  llive G (name_cell x b) /\ name_addr G x + (if b then 8 else 0) = hof G (lrole (name_cell x b)) + loff (name_cell x b) /\ lsize (name_cell x b) = 8%nat.
Proof.
  intros Hi Hx. unfold name_cell, name_addr. destruct Hx as [->|[->|[Hx Hh]]]; [..|rewrite !(proj2 (Z.eqb_neq x _)) by lia];
    destruct b; cbn; repeat split; try done; lia.
Qed.
Lemma named_range G x s : Rep s G -> hof G RInfo <> 0 -> named G x -> 0 <= name_addr G x < 2 ^ 64.
Proof.
  intros (A & HA & HG) Hi Hx. assert (Hr : forall r, hof G r <> 0 -> 0 < hof G r /\ hof G r + rlen (nbkt G) r <= 2 ^ 64).
  { intros r Hr. destruct (ih_block A G HG r Hr) as (bs & Hb & Hl). pose proof (heap_end s A _ bs HA Hb).
    pose proof (heap_handle s A _ HA ltac:(by exists bs)). lia. }
  pose proof (Hr RInfo Hi). cbn [rlen] in *. unfold name_addr.
  destruct Hx as [->|[->|[Hx Hh]]]; cbn; [lia|lia|]. rewrite !(proj2 (Z.eqb_neq x _)) by lia. pose proof (Hr _ Hh). cbn [rlen] in *. lia.
Qed.

Lemma wp_ng_next s G x (Q : Z -> S -> Prop) : Rep s G -> hof G RInfo <> 0 -> named G x -> Q (name_link G x true) s -> wp (ng_next (name_addr G x)) s Q.
Proof.
  intros HR Hi Hx HQ. destruct (named_cell G x true Hi Hx) as (Hl & Ha & Hn). apply (wp_rd s G (name_cell x true)); [done|done|lia|done|].
  by rewrite val_name_cell.
Qed.
Lemma wp_ng_prev s G x (Q : Z -> S -> Prop) : Rep s G -> hof G RInfo <> 0 -> named G x -> Q (name_link G x false) s -> wp (ng_prev (name_addr G x)) s Q.
Proof.
  intros HR Hi Hx HQ. destruct (named_cell G x false Hi Hx) as (Hl & Ha & Hn). apply (wp_rd s G (name_cell x false)); [done|done|lia|done|].
  by rewrite val_name_cell.
Qed.

(** A link is set to a name, or to none. *)
Lemma wp_set_links s G f x b y (Q : unit -> S -> Prop) : Rep s G -> hof G RInfo <> 0 -> named G x -> named G y \/ y = -3 -> ng_links G f ->
  (forall s' G', Rep s' G' -> ng_frame G G' -> ng_links G' (lset x b y f) -> Q tt s') -> wp (set_links b (name_addr G x) (name_addr G y)) s Q.
Proof.
  intros HR Hi Hx Hy Hf HQ. destruct (named_cell G x b Hi Hx) as (Hl & Ha & Hn).
  assert (Hv : 0 <= name_addr G y < 2 ^ 64) by (destruct Hy as [Hy| ->]; [by apply (named_range G y s)|done]).
  assert (Hw : wp (mwrite 8 (name_addr G x + (if b then 8 else 0)) (name_addr G y)) s Q).
  { apply (wp_wr s G (name_cell x b)); [done..|]. rewrite Z.mod_small by done. intros s' HR'.
    apply (HQ s' _ HR'); [apply ng_frame_upd|]. intros z c Hz. unfold named in Hz. rewrite upd_nsets, upd_hof in Hz. rewrite (ng_frame_addr G _ _ (ng_frame_upd x b (name_addr G y) G)).
    rewrite <-val_name_cell. destruct (decide (z = x /\ c = b)) as [[-> ->]|Hne].
    - by rewrite val_upd, lset_eq.
    - rewrite val_upd_ne by (intros [-> ->]%name_cell_inj; by apply Hne).
      rewrite lset_ne by (destruct (decide (x = z)) as [->|]; [right; intros ->; by apply Hne|by left]). rewrite val_name_cell. by apply Hf. }
  unfold set_links. destruct b; [exact Hw|]. unfold put_ng_prev. by rewrite Z.add_0_r in Hw.
Qed.
Lemma wp_set_links_then {A} s G f x b y (k : ST S A) (Q : A -> S -> Prop) : Rep s G -> hof G RInfo <> 0 -> named G x -> named G y \/ y = -3 -> ng_links G f ->
  (forall s' G', Rep s' G' -> ng_frame G G' -> ng_links G' (lset x b y f) -> wp k s' Q) -> wp (set_links b (name_addr G x) (name_addr G y);; k) s Q.
Proof. intros HR Hi Hx Hy Hf HQ. by apply wp_bind, (wp_set_links s G f x b y). Qed.

Lemma ng_frame_named G G' x : ng_frame G G' -> named G x -> named G' x.
Proof. intros []. unfold named. by rewrite nf_nsets0, nf_hof0. Qed.
Lemma wp_ng_insert s G f h n x (Q : unit -> S -> Prop) : Rep s G -> hof G RInfo <> 0 -> named G h -> named G n -> named G x -> ng_links G f ->
  (forall s' G', Rep s' G' -> ng_frame G G' -> ng_links G' (add_links x h n f) -> Q tt s') -> wp (NG_LIST_insert (name_addr G x) (name_addr G h) (name_addr G n)) s Q.
Proof.
  intros HR Hi Hh Hn Hx Hf HQ. unfold NG_LIST_insert.
  apply (wp_set_links_then s G f n false x); auto. intros s1 G1 H1 F1 L1. assert (Hi1 : hof G1 RInfo <> 0) by by rewrite (nf_hof _ _ F1).
  rewrite <-!(ng_frame_addr G G1) by done. pose proof (ng_frame_named _ _ x F1 Hx) as Hx1. pose proof (ng_frame_named _ _ n F1 Hn) as Hn1.
  pose proof (ng_frame_named _ _ h F1 Hh) as Hh1.
  eapply (wp_set_links_then s1 G1 _ x true n _ _ H1); [done|done|by left|exact L1|]. intros s2 G2 H2 F2 L2. assert (Hi2 : hof G2 RInfo <> 0) by by rewrite (nf_hof _ _ F2).
  rewrite <-!(ng_frame_addr G1 G2) by done. pose proof (ng_frame_named _ _ x F2 Hx1) as Hx2. pose proof (ng_frame_named _ _ h F2 Hh1) as Hh2.
  eapply (wp_set_links_then s2 G2 _ x false h _ _ H2); [done|done|by left|exact L2|]. intros s3 G3 H3 F3 L3. assert (Hi3 : hof G3 RInfo <> 0) by by rewrite (nf_hof _ _ F3).
  rewrite <-!(ng_frame_addr G2 G3) by done. pose proof (ng_frame_named _ _ x F3 Hx2) as Hx3. pose proof (ng_frame_named _ _ h F3 Hh2) as Hh3.
  eapply (wp_set_links s3 G3 _ h true x _ H3); [done|done|by left|exact L3|]. intros s4 G4 H4 F4 L4. apply (HQ s4 G4 H4); [|done].
  eapply ng_frame_trans; [|exact F4]. eapply ng_frame_trans; [|exact F3]. by eapply ng_frame_trans.
Qed.

Lemma wp_NG_LIST_ADD s G f h x (Q : unit -> S -> Prop) : Rep s G -> hof G RInfo <> 0 -> named G h -> named G (f h true) -> named G x -> ng_links G f ->
  (forall s' G', Rep s' G' -> ng_frame G G' -> ng_links G' (add_links x h (f h true) f) -> Q tt s') -> wp (NG_LIST_ADD (name_addr G x) (name_addr G h)) s Q.
Proof.
  intros HR Hi Hh Hn Hx Hf HQ. apply wp_bind, (wp_ng_next s G h _ HR Hi Hh).
  rewrite Hf by done. by apply (wp_ng_insert s G f).
Qed.
Lemma wp_NG_LIST_DEL s G f x (Q : unit -> S -> Prop) : Rep s G -> hof G RInfo <> 0 -> named G x -> (forall b, named G (f x b)) -> ng_links G f ->
  (forall s' G', Rep s' G' -> ng_frame G G' -> ng_links G' (lset x false (-3) (lset x true (-3) (unlink (f x false) (f x true) f))) -> Q tt s') ->
  wp (NG_LIST_DEL (name_addr G x)) s Q.
Proof.
  intros HR Hi Hx Hn Hf HQ. apply wp_bind, (wp_ng_prev s G x _ HR Hi Hx), wp_bind, (wp_ng_next s G x _ HR Hi Hx). rewrite !Hf by done.
  set (v := f x false). set (n := f x true). pose proof (Hn false) as Hv. pose proof (Hn true) as Hn'. fold v in Hv. fold n in Hn'.
  unfold NG_LIST_unlink. apply wp_bind. apply (wp_set_links_then s G f n false v); [done|done|done|by left|done|].
  intros s1 G1 H1 F1 L1. assert (Hi1 : hof G1 RInfo <> 0) by by rewrite (nf_hof _ _ F1).
  rewrite <-!(ng_frame_addr G G1) by done. pose proof (ng_frame_named _ _ x F1 Hx) as Hx1.
  eapply (wp_set_links s1 G1 _ v true n _ H1); [done|by eapply ng_frame_named|left; by eapply ng_frame_named|exact L1|].
  intros s2 G2 H2 F2 L2. assert (Hi2 : hof G2 RInfo <> 0) by by rewrite (nf_hof _ _ F2).
  rewrite <-!(ng_frame_addr G1 G2) by done. pose proof (ng_frame_named _ _ x F2 Hx1) as Hx2.
  eapply (wp_set_links_then s2 G2 _ x true (-3) _ _ H2); [done|done|by right|exact L2|].
  intros s3 G3 H3 F3 L3. assert (Hi3 : hof G3 RInfo <> 0) by by rewrite (nf_hof _ _ F3).
  rewrite <-!(ng_frame_addr G2 G3) by done.
  eapply (wp_set_links s3 G3 _ x false (-3) _ H3); [done|by eapply ng_frame_named|by right|exact L3|].
  intros s4 G4 H4 F4 L4. apply (HQ s4 G4 H4); [|exact L4].
  eapply ng_frame_trans; [|exact F4]. eapply ng_frame_trans; [|exact F3]. by eapply ng_frame_trans.
Qed.

(** ** The lists *)

Definition ng_range (G : table) (f : Z -> bool -> Z) : Prop := forall x b, named G x -> named G (f x b) \/ f x b = -3.
Lemma range_lset G f y c v : named G v \/ v = -3 -> ng_range G f -> ng_range G (lset y c v f).
Proof.
  intros Hv Hf x b Hx. destruct (decide (y = x /\ c = b)) as [[-> ->]|Hne]; [by rewrite lset_eq|].
  rewrite lset_ne; [by apply Hf|]. destruct (decide (y = x)) as [->|]; [right; intros ->; by apply Hne|by left].
Qed.
Lemma range_frame G G' f : ng_frame G G' -> ng_range G f -> ng_range G' f.
Proof.
  intros HF Hf x b Hx. assert (Hn : forall y, named G' y <-> named G y) by (intros y; unfold named; by rewrite (nf_nsets _ _ HF), (nf_hof _ _ HF)).
  rewrite Hn. apply Hf. by apply Hn.
Qed.

(** The groups with room are [L (-1)], the full ones [L (-2)]. *)
Definition ng_ok (G : table) (L : Z -> list Z) : Prop :=
  exists f, ng_links G f /\ ng_range G f /\ rings ng_heads f L /\ (forall x, listed ng_heads L x -> named G x).

Lemma ng_ok_ext G G' L : hof G' RInfo = hof G RInfo -> (forall k, hof G' (RSet k) = hof G (RSet k)) -> nsets G' = nsets G ->
  (forall x b, name_link G' x b = name_link G x b) -> ng_ok G L -> ng_ok G' L.
Proof.
  intros Hi Hs Hn Hl (f & Hf & Hr & HL & Hx).
  assert (Hnm : forall x, named G' x <-> named G x) by (intros x; unfold named; by rewrite Hs, Hn).
  exists f. split; [|split; [|split; [done|]]].
  - intros x b Hx'%Hnm. unfold name_addr. rewrite Hi, Hs, Hl. by apply Hf.
  - intros x b Hx'%Hnm. rewrite Hnm. by apply Hr.
  - intros x Hx'. by apply Hnm, Hx.
Qed.

Lemma ng_add s G L h x (Q : unit -> S -> Prop) : Rep s G -> hof G RInfo <> 0 -> ng_ok G L -> h ∈ ng_heads -> named G x -> ~ listed ng_heads L x ->
  (forall s' G', Rep s' G' -> ng_frame G G' -> ng_ok G' (<[h := x :: L h]> L) -> Q tt s') -> wp (NG_LIST_ADD (name_addr G x) (name_addr G h)) s Q.
Proof.
  intros HR Hi (f & Hf & Hg & HL & Hn) Hh Hx Hxl HQ.
  assert (Hnear : forall y, y ∈ h :: L h -> named G y) by (intros y Hy; apply Hn; by exists h).
  apply (wp_NG_LIST_ADD s G f); [done|done|apply Hnear; by left|apply Hnear; apply (listed_near ng_heads f L HL h h true Hh); by left|done|done|].
  intros s' G' HR' HF Hf'. apply (HQ s' G' HR' HF). eexists. split; [exact Hf'|].
  assert (Hhn : named G (f h true)) by (apply Hnear, (listed_near ng_heads f L HL h h true Hh); by left).
  split; [apply (range_frame G); [done|]; unfold add_links; repeat (apply range_lset; [left; auto; apply Hnear; by left|]); done|].
  split; [by apply rings_add|].
  intros y [->|Hy]%listed_add; [by eapply ng_frame_named|eapply ng_frame_named; eauto|done].
Qed.

Lemma ng_del s G L h l x r (Q : unit -> S -> Prop) : Rep s G -> hof G RInfo <> 0 -> ng_ok G L -> h ∈ ng_heads -> L h = l ++ x :: r -> 
  (forall s' G', Rep s' G' -> ng_frame G G' -> ng_ok G' (<[h := l ++ r]> L) -> ~ listed ng_heads (<[h := l ++ r]> L) x -> Q tt s') ->
  wp (NG_LIST_DEL (name_addr G x)) s Q.
Proof.
  intros HR Hi (f & Hf & Hg & HL & Hn) Hh E HQ. assert (Hxh : x ∈ h :: L h) by (rewrite E; lmem).
  assert (Hnear : forall y, y ∈ h :: L h -> named G y) by (intros y Hy; apply Hn; by exists h).
  assert (Hl : forall y, listed ng_heads (<[h := l ++ r]> L) y <-> listed ng_heads L y /\ y <> x) by (intros y; by apply (listed_del ng_heads f L HL)).
  assert (Hxl : ~ listed ng_heads (<[h := l ++ r]> L) x) by (rewrite Hl; naive_solver).
  apply (wp_NG_LIST_DEL s G f); [done|done|by apply Hnear|intros b; by apply Hnear, (listed_near ng_heads f L HL h x b Hh)|done|].
  intros s' G' HR' HF Hf'. apply (HQ s' G' HR' HF); [|done]. eexists. split; [exact Hf'|].
  assert (Hxn : forall b, named G (f x b)) by (intros b; by apply Hnear, (listed_near ng_heads f L HL h x b Hh)).
  split; [apply (range_frame G); [done|]; unfold unlink; repeat (apply range_lset; [auto|]); done|]. split.
  - do 2 (apply rings_lset; [|done]). by apply rings_unlink.
  - intros y [Hy _]%Hl. eapply ng_frame_named; eauto.
Qed.

Lemma name_addr_inj s G x : Rep s G -> hof G RInfo <> 0 -> named G x -> name_addr G x = hof G RInfo -> x = -1.
Proof.
  intros (A & HA & HG) Hi [->|[->|[Hx Hh]]]; cbn; [done|lia|]. unfold name_addr. rewrite !(proj2 (Z.eqb_neq x _)) by lia.
  intros E. pose proof (ih_inj A G HG _ _ Hh E). done.
Qed.
Lemma ng_first s G L (Q : Z -> S -> Prop) : Rep s G -> hof G RInfo <> 0 -> ng_ok G L ->
  Q (match L (-1) with [] => 0 | x :: _ => name_addr G x end) s ->
  wp (e ← NG_LIST_EMPTY (hof G RInfo); if (e : bool) then mret 0 else ng_next (hof G RInfo)) s Q.
Proof.
  intros HR Hi (f & Hf & Hg & HL & Hn) HQ. assert (Hm : named G (-1)) by by left. pose proof (rg_ring _ _ _ HL (-1) ltac:(by left)) as Hr.
  change (hof G RInfo) with (name_addr G (-1)). unfold NG_LIST_EMPTY. apply wp_bind, wp_bind, (wp_ng_next s G (-1) _ HR Hi Hm), wp_ret.
  rewrite Hf by done. destruct (L (-1)) as [|x l] eqn:E; cbn [path ring] in Hr.
  - destruct Hr as [-> _]. rewrite Z.eqb_refl. by apply wp_ret.
  - destruct Hr as (Ex & _). rewrite Ex. rewrite (proj2 (Z.eqb_neq _ _)).
    + apply (wp_ng_next s G (-1) _ HR Hi Hm). by rewrite Hf, Ex.
    + intros Ea. assert (Hx : named G x) by (apply Hn; exists (-1); rewrite E; split; [by left|lmem]).
      apply (name_addr_inj s G x HR Hi Hx) in Ea. pose proof (rg_nodup _ _ _ HL (-1) ltac:(by left)) as Hnd. rewrite E in Hnd.
      apply NoDup_cons in Hnd as [Hnd _]. apply Hnd. rewrite Ea. by left.
Qed.
End Ng.
