(* ===== verification/NodeInv.v ===== *)
(** The invariant of the node table, and allocating groups. *)
From Stdlib Require Import ZArith Lia.
From stdpp Require Import functions base list list_numbers numbers gmap.
From S2P Require Import Prelude PtMalloc PtSpec Mallocator NodeTable NodeRep NodeAcc NodeLru NodeGroup NodeNg.
Import AllocSpec.
Local Open Scope Z_scope.

(** ** The invariant *)

(** The groups there are, and what the head of the table says of them. *)
Record base_ok (G : table) : Prop := {
  bo_info : hof G RInfo <> 0;
  bo_pos : 0 <= nsets G;
  bo_sets k : hof G (RSet k) <> 0 -> 0 <= k < nsets G;
  bo_geo k : 0 <= k < nsets G -> set_geo G k;
  bo_min : info G IMinId = 256 * nsets G;
  bo_ngs : info G IUsedNg = nsets G
}.

Record index_ok (G : table) : Prop := {
  ix_first : hof G RFirst <> 0;
  ix_fi i : 0 <= i < 256 -> fih G i = hof G (RSecond i)
}.

(** The released nodes of a group, the last one first. *)
Fixpoint released (vd : Z -> Z) (k top : Z) (xs : list Z) : Prop :=
  match xs with
  | [] => True
  | x :: xs => top = x /\ released vd k (u8 (vd (256 * k + x))) xs
  end.
Record group_ok (G : table) (k : Z) (xs : list Z) : Prop := {
  gr_free : 0 <= hdr G k SFree <= 256;
  gr_nodup : NoDup xs;
  gr_in x : x ∈ xs -> 0 <= x < hdr G k SFree;
  gr_count : hdr G k SCount = Z.of_nat (length xs);
  gr_released : released (vdh G) k (hdr G k STop) xs
}.
Definition is_full (G : table) (k : Z) (xs : list Z) : Prop := xs = [] /\ hdr G k SFree = 256.
#[export] Instance is_full_dec G k xs : Decision (is_full G k xs).
Proof. unfold is_full. apply _. Defined.

(** The nodes handed out are [N]. The group 0 is the system's: its nodes are the heads of
    the eviction lists. *)
Record nodes_ok (G : table) (N : gset Z) (st : Z -> list Z) : Prop := {
  no_group k : 0 <= k < nsets G -> group_ok G k (st k);
  no_live id : id ∈ N <-> 256 <= id < 256 * nsets G /\ id mod 256 < hdr G (id / 256) SFree /\ id mod 256 ∉ st (id / 256)
}.
Definition filled_ok (G : table) : Prop := forall k, 0 <= k < nsets G -> 0 < hdr G k SFree -> filled G k.
Record sys_ok (G : table) (st : Z -> list Z) : Prop := {
  sy_pos : 1 <= nsets G;
  sy_free : hdr G 0 SFree = 3;
  sy_none : st 0 = [];
  sy_zone : info G ISys = hof G (RSet 0)
}.
Record groups_ok (G : table) (st : Z -> list Z) (NL : Z -> list Z) : Prop := {
  gs_lists : ng_ok G NL;
  gs_all k : k ∈ NL (-1) \/ k ∈ NL (-2) <-> 1 <= k < nsets G;
  gs_full k : 1 <= k < nsets G -> k ∈ NL (-2) <-> is_full G k (st k)
}.
Record lists_ok (G : table) (N : gset Z) (L : Z -> list Z) : Prop := {
  ls_lru : lru_ok (lru G) L (256 * nsets G);
  ls_in h x : h ∈ heads -> x ∈ L h -> x ∈ N
}.

Record table_ok (p : Pool) (G : table) (N : gset Z) (L : Z -> list Z) (st : Z -> list Z) (NL : Z -> list Z) : Prop := {
  tb_linked : linked p G;
  tb_base : base_ok G;
  tb_index : index_ok G;
  tb_sys : sys_ok G st;
  tb_nodes : nodes_ok G N st;
  tb_filled : filled_ok G;
  tb_used : info G IUsedNode = Z.of_nat (size N);
  tb_groups : groups_ok G st NL;
  tb_lists : lists_ok G N L;
  tb_step : 1 <= alloc_step p
}.

(** ** The nodes in use are found through the index *)

Lemma head_small h : h ∈ heads -> 0 <= h < 3.
Proof. unfold heads. rewrite !elem_of_cons, elem_of_nil. lia. Qed.

#[export] Instance listed_dec hs L x : Decision (listed hs L x).
Proof. refine (cast_if (decide (Exists (fun h => x ∈ h :: L h) hs))); by rewrite Exists_exists in *. Defined.

Section Table.
Context (p : Pool) (G : table) (N : gset Z) (L st NL : Z -> list Z).
Hypothesis HT : table_ok p G N L st NL.

Lemma group_ready k : 0 <= k < nsets G -> 0 < hdr G k SFree -> set_geo G k /\ filled G k.
Proof. intros Hk Hf. split; [by apply HT|by apply HT]. Qed.
Lemma head_ready h : h ∈ heads -> ready G h.
Proof.
  intros Hh%head_small. assert (h / 256 = 0) as E by zdm. unfold ready. rewrite E.
  apply group_ready; [|rewrite (sy_free _ _ (tb_sys _ _ _ _ _ _ HT)); lia]. pose proof (sy_pos _ _ (tb_sys _ _ _ _ _ _ HT)). lia.
Qed.
Lemma live_ready id : id ∈ N -> ready G id.
Proof.
  intros (Hr & Hf & _)%(no_live _ _ _ (tb_nodes _ _ _ _ _ _ HT)). pose proof (Z.mod_pos_bound id 256 ltac:(lia)).
  apply group_ready; [zdm|lia].
Qed.
Lemma listed_ready h x : h ∈ heads -> x ∈ h :: L h -> ready G x.
Proof.
  intros Hh [->|Hx]%elem_of_cons; [by apply head_ready|]. by apply live_ready, (ls_in _ _ _ (tb_lists _ _ _ _ _ _ HT) h).
Qed.
Lemma live_not_head id : id ∈ N -> 256 <= id < 256 * nsets G.
Proof. by intros (? & _ & _)%(no_live _ _ _ (tb_nodes _ _ _ _ _ _ HT)). Qed.
Lemma listed_in id : id ∈ N -> listed heads L id -> exists h, h ∈ heads /\ id ∈ L h.
Proof.
  intros Hid%live_not_head (h & Hh & [->|Hx]%elem_of_cons); [apply head_small in Hh; lia|by exists h].
Qed.
Lemma near_ready id b : id ∈ N -> ready G (lru G id b).
Proof.
  intros Hid. destruct (tb_lists _ _ _ _ _ _ HT) as [[HL Ha] _]. pose proof (live_not_head id Hid).
  destruct (decide (listed heads L id)) as [Hl|Hn].
  - destruct (listed_in id Hid Hl) as (h & Hh & Hx). apply (listed_ready h _ Hh), (listed_near _ _ _ HL h id b Hh). by right.
  - destruct (Ha id) as [E1 E2]; [lia|done|]. destruct b; rewrite ?E1, ?E2; by apply live_ready.
Qed.
End Table.

(** ** A new group *)

Definition set_nsets (n : Z) (G : table) : table :=
  mkTable (hof G) n (nbkt G) (info G) (hdr G) (nxt G) (lru G) (vdh G) (dirty G) (fih G) (siu G) (sih G) (hh G) (bkt G) (rest G).

(** One more group, all of whose nodes are free, in no list. *)
Record grown (G G' : table) : Prop := {
  gw_nsets : nsets G' = nsets G + 1;
  gw_hof r : r <> RSet (nsets G) -> hof G' r = hof G r;
  gw_nbkt : nbkt G' = nbkt G;
  gw_rest : rest G' = rest G;
  gw_fresh : fresh_group G' (nsets G);
  gw_val l : lrole l <> RSet (nsets G) -> l <> LInfo IMinId -> l <> LInfo IUsedNg -> val G' l = val G l
}.

Section Groups.
Context {S : Type} `{!Mallocator S, !MallocatorLaws S}.
Implicit Types (s : S) (G : table) (p : Pool).
#[local] Abbreviation PS := (ST (Pool * S)).

Lemma Rep_nsets s G n : Rep s G -> Rep s (set_nsets n G).
Proof. intros (A & HA & []). exists A. split; [done|]. by split. Qed.

Lemma base_room s G : Rep s G -> base_ok G -> nsets G * 5200 < 2 ^ 36.
Proof. intros HR HB. apply (Rep_sets s G); [done|apply HB|]. intros k Hk. by apply (bo_geo G HB k). Qed.

(** [x += v] *)
Lemma wp_add_to s G l a n v (Q : unit -> S -> Prop) : Rep s G -> llive G l -> a = hof G (lrole l) + loff l -> n = lsize l ->
  0 <= val G l + v < 256 ^ Z.of_nat n -> (forall s', Rep s' (upd l (val G l + v) G) -> Q tt s') -> wp (add_to n a v) s Q.
Proof.
  intros HR Hl Ea En Hv HQ. apply wp_bind, (wp_rd s G l); [done..|]. apply (wp_wr s G l); [done..|]. by rewrite Z.mod_small.
Qed.

Lemma wp_allocate_ng p s G (Q : Z -> Pool * S -> Prop) : Rep s G -> linked p G -> base_ok G ->
  (forall s', Rep s' G -> Q 0 (p, s')) ->
  (forall s' G', Rep s' G' -> linked p G' -> base_ok G' -> grown G G' -> Q (hof G' (RSet (nsets G))) (p, s')) -> wp allocate_ng (p, s) Q.
Proof.
  intros HR Hp HB HQ0 HQ. set (k := nsets G). pose proof (bo_pos G HB) as Hk0. fold k in Hk0.
  assert (Hnone : hof G (RSet k) = 0).
  { destruct (decide (hof G (RSet k) = 0)) as [|Hk]; [done|]. apply (bo_sets G HB) in Hk. lia. }
  assert (Hb0 : 0 <= nbkt G) by (destruct HR as (A & _ & HG); apply HG).
  unfold allocate_ng. apply wp_bind, wp_shm.
  destruct (Rep_calloc s G (RSet k) (nbkt G) NODE_SET_Size HR Hnone Hb0 (or_intror eq_refl)) as (v & s1 & E & Hc); [done|].
  exists v, s1. split; [exact E|]. clear E. unfold INVALID_HANDLE. destruct Hc as [[-> HR1]|(Hv & Hfree & HR1)]; [by apply wp_ret, HQ0|].
  rewrite (proj2 (Z.eqb_neq _ _)) by done. set (G1 := adopt (RSet k) v (nbkt G) G) in *.
  assert (Hh1 : hof G1 (RSet k) = v) by apply fn_lookup_insert.
  assert (Hr1 : forall r, r <> RSet k -> hof G1 r = hof G r) by (intros; by apply fn_lookup_insert_ne).
  assert (Hroom : 256 * k + 256 < 2 ^ 32).
  { assert ((k + 1) * 5200 < 2 ^ 36); [|lia]. apply (Rep_sets s1 G1); [done|lia|]. intros j Hj.
    destruct (decide (j = k)) as [->|]; [by rewrite Hh1|]. rewrite Hr1 by congruence. apply (bo_geo G HB). lia. }
  destruct Hp as (Ep1 & Ep2 & Hi). apply wp_member. rewrite Ep2, <-(Hr1 RInfo) by done. apply wp_bind, wp_shm.
  apply (wp_rd s1 G1 (LInfo IMinId)); [done|split; [cbn [lrole]; by rewrite Hr1|done]|done|done|].
  replace (val G1 (LInfo IMinId)) with (256 * k) by (symmetry; apply HB).
  apply wp_bind, wp_shm. rewrite <-Hh1. apply (NODE_SET_Init_ok k); [done|done|by rewrite Hh1| |].
  { intros w Hw. cbn. unfold blank. rewrite decide_True; [done|]. f_equal. zdm. }
  intros s2 G2 HR2 Ho Hf. pose proof (os_hof _ _ _ Ho) as Eh2. pose proof (os_val _ _ _ Ho) as Ev2.
  assert (E2 : val G2 (LInfo IMinId) = 256 * k) by (rewrite Ev2 by done; apply HB).
  assert (E3 : val G2 (LInfo IUsedNg) = k) by (rewrite Ev2 by done; apply HB).
  assert (Hi2 : llive G2 (LInfo IMinId) /\ llive G2 (LInfo IUsedNg)).
  { split; split; try done; cbn [lrole]; rewrite Eh2, Hr1; done. }
  rewrite <-Eh2. apply wp_bind, wp_shm, (wp_add_to s2 G2 (LInfo IMinId)); [done|apply Hi2|done|done| |].
  { rewrite E2. change (256 ^ Z.of_nat 4) with (2 ^ 32). unfold NODE_GROUP_INCLUDE_NODES. lia. }
  intros s3 HR3. set (G3 := upd _ _ G2) in *. replace (hof G2) with (hof G3) by apply upd_hof.
  apply wp_bind, wp_shm, (wp_add_to s3 G3 (LInfo IUsedNg)); [done|apply Hi2|done|done| |].
  { unfold G3. rewrite val_upd_ne, E3 by done. change (256 ^ Z.of_nat 4) with (2 ^ 32). lia. }
  intros s4 HR4. set (G4 := upd _ _ G3) in *. apply wp_ret.
  replace (hof G3 (RSet k)) with (hof (set_nsets (k + 1) G4) (RSet k)) by (cbn [set_nsets hof]; unfold G4; by rewrite upd_hof).
  assert (Eh4 : hof (set_nsets (k + 1) G4) = hof G1) by (cbn [set_nsets hof]; unfold G4, G3; by rewrite !upd_hof).
  assert (Hgw : grown G (set_nsets (k + 1) G4)).
  { split; cbn [set_nsets nsets]; [done|intros r Hr; rewrite Eh4; by apply Hr1| | | |].
    - cbn [set_nsets nbkt]. unfold G4, G3. rewrite !upd_nbkt, (os_nbkt _ _ _ Ho). done.
    - cbn [set_nsets rest]. unfold G4, G3. rewrite !upd_rest, (os_rest _ _ _ Ho). done.
    - destruct Hf. by split.
    - intros l Hl H1 H2. transitivity (val G4 l); [by destruct l|]. unfold G4, G3. rewrite !val_upd_ne by done.
      rewrite Ev2 by done. unfold G1. rewrite val_adopt. by rewrite decide_False. }
  apply HQ; [by apply Rep_nsets| | |done].
  - split; [by rewrite Eh4, Hr1|]. by rewrite Eh4, Hr1.
  - split; rewrite ?(gw_nsets _ _ Hgw), ?Eh4, ?(Hr1 RInfo) by done; try done.
    + lia.
    + intros j. destruct (decide (j = k)) as [->|]; [lia|]. rewrite Hr1 by congruence. intros Hj%(bo_sets G HB). lia.
    + intros j Hj. destruct (decide (j = k)) as [->|Hne]; [by apply (gw_fresh _ _ Hgw)|].
      destruct (bo_geo G HB j) as (? & ? & ? & En & Eo); [lia|].
      assert (Eq : forall f, hdr (set_nsets (k + 1) G4) j f = hdr G j f) by (intros f; apply (gw_val _ _ Hgw (LSet j f)); [cbn; fold k; congruence|done|done]).
      unfold set_geo. rewrite Eh4, Hr1, Eq by congruence. do 4 (split; [done|]). intros t Ht. rewrite Eq. by apply Eo.
    + change (val G4 (LInfo IMinId) = 256 * (k + 1)). unfold G4, G3. rewrite val_upd_ne, val_upd, E2 by done. unfold NODE_GROUP_INCLUDE_NODES. lia.
    + change (val G4 (LInfo IUsedNg) = k + 1). unfold G4, G3. rewrite val_upd, val_upd_ne, E3 by done. done.
Qed.
End Groups.
