(* ===== verification/NodeAlloc.v ===== *)
(** Allocating and releasing nodes keeps the invariant of the table. *)
From Stdlib Require Import ZArith Lia.
From stdpp Require Import functions base list list_numbers numbers gmap.
From S2P Require Import Prelude PtMalloc PtSpec Mallocator NodeTable NodeRep NodeAcc NodeLru NodeGroup NodeNg NodeInv.
Import AllocSpec.
Local Open Scope Z_scope.

(** What an operation that is not about the nodes [N] leaves alone. *)
Record kept (N : gset Z) (G G' : table) : Prop := {
  kp_hof r : hof G r <> 0 -> hof G' r = hof G r;
  kp_hash : hof G' RHash = hof G RHash;
  kp_node x : x ∈ N -> nxt G' x = nxt G x /\ vdh G' x = vdh G x /\ dirty_bit G' x = dirty_bit G x;
  kp_hh f : hh G' f = hh G f;
  kp_bkt i : bkt G' i = bkt G i;
  kp_nbkt : nbkt G' = nbkt G;
  kp_rest : rest G' = rest G;
  kp_info f : f ∈ [IDirtyNode; IUsedRow; IDirtyRow] -> info G' f = info G f;
  kp_nsets : nsets G <= nsets G';
  kp_free k : 0 <= k < nsets G -> hdr G k SFree <= hdr G' k SFree
}.
Lemma kept_refl N G : kept N G G.
Proof. by split. Qed.
Lemma kept_trans N G G' G'' : kept N G G' -> kept N G' G'' -> kept N G G''.
Proof.
  intros K1 K2. destruct K1 as [A1 A2 A3 A4 A5 A6 A7 A8 A9 A10], K2 as [B1 B2 B3 B4 B5 B6 B7 B8 B9 B10]. split; try congruence.
  - intros r Hr. rewrite B1; [by apply A1|]. by rewrite A1.
  - intros x Hx. destruct (A3 x Hx) as (E1 & E2 & E3), (B3 x Hx) as (F1 & F2 & F3). by rewrite F1, F2, F3.
  - intros f Hf. by rewrite B8, A8.
  - lia.
  - intros k Hk. pose proof (A10 k Hk). pose proof (B10 k ltac:(lia)). lia.
Qed.
Lemma kept_weaken (N N' : gset Z) G G' : N' ⊆ N -> kept N G G' -> kept N' G G'.
Proof. intros HN []. split; auto. Qed.
Lemma kept_ng N G G' : ng_frame G G' -> kept N G G'.
Proof.
  intros [E1 E2 E3 E4 E5 E6 E7 E8 E9 E10 E11 E12 E13 E14]. split; try congruence.
  - intros x _. unfold dirty_bit. by rewrite E5, E7, E8.
  - intros f Hf. apply E13; intros ->; set_solver.
  - lia.
  - intros k Hk. by rewrite E14.
Qed.
Lemma kept_nd N G G' id : set_geo G (id / 256) -> kept N G G' -> nd G' id = nd G id.
Proof. intros (_ & _ & Hh & _) HK. unfold nd. by rewrite (kp_hof _ _ _ HK). Qed.

(** ** The parts of the invariant and what they depend on *)

Lemma released_ext vd vd' k top xs : (forall x, x ∈ xs -> vd' (256 * k + x) = vd (256 * k + x)) -> released vd k top xs -> released vd' k top xs.
Proof.
  revert top; induction xs as [|x xs IH]; intros top H; [done|]. cbn. intros [-> Hr]. split; [done|].
  rewrite H by by left. apply IH; [|done]. intros y Hy. apply H. by right.
Qed.
Lemma group_ext G G' k xs : (forall f, f ∈ [STop; SCount; SFree] -> hdr G' k f = hdr G k f) -> (forall x, x ∈ xs -> vdh G' (256 * k + x) = vdh G (256 * k + x)) ->
  group_ok G k xs -> group_ok G' k xs.
Proof.
  intros Hh Hv []. split; rewrite ?(Hh SFree), ?(Hh SCount), ?(Hh STop) by set_solver; auto. by eapply released_ext.
Qed.
Lemma filled_ext G G' k : (forall r, hof G r <> 0 -> hof G' r = hof G r) -> (0 <= k / 65536 < 256 -> fih G' (k / 65536) = fih G (k / 65536)) -> sih G' k = sih G k ->
  hof G (RSet k) <> 0 -> 0 <= k / 65536 < 256 -> filled G k -> filled G' k.
Proof. intros Hh H1 H2 Hk Hr (Hf & Hs & E1 & E2). unfold filled. rewrite !Hh, H1, H2 by done. done. Qed.

Lemma base_frame G G' : ng_frame G G' -> base_ok G -> base_ok G'.
Proof.
  intros HF [B1 B2 B3 B4 B5 B6]. split; rewrite ?(nf_hof _ _ HF), ?(nf_nsets _ _ HF), ?(nf_info _ _ HF) by done; try done.
  intros k Hk. by eapply ng_frame_geo; [|apply B4].
Qed.
Lemma set_small G k : base_ok G -> 0 <= k < nsets G -> 0 <= k < 2 ^ 24 /\ 0 <= k / 65536 < 256.
Proof. intros HB Hk. destruct (bo_geo G HB k Hk) as (? & ? & _). change (2 ^ 24) with 16777216. zdm. Qed.

(** The parts of the invariant that the links of groups and the index do not touch. *)
Record parts_ok (G : table) (N : gset Z) (L st : Z -> list Z) : Prop := {
  pt_base : base_ok G;
  pt_sys : sys_ok G st;
  pt_nodes : nodes_ok G N st;
  pt_lists : lists_ok G N L
}.
Definition inert (l : loc) : Prop :=
  match l with
  | LInfo IMinId | LInfo IUsedNg | LInfo ISys | LSet _ STop | LSet _ SCount | LSet _ SFree | LSet _ SNid | LSet _ (SOff _) | LVd _ | LLru _ _ => True
  | _ => False
  end.
Record calm (G G' : table) : Prop := {
  ca_info : hof G' RInfo = hof G RInfo;
  ca_set k : hof G' (RSet k) = hof G (RSet k);
  ca_nsets : nsets G' = nsets G;
  ca_val l : inert l -> val G' l = val G l
}.
Lemma calm_trans G G' G'' : calm G G' -> calm G' G'' -> calm G G''.
Proof.
  intros [A1 A2 A3 A4] [B1 B2 B3 B4]. split; [congruence|congruence|congruence|].
  intros l Hl. by rewrite B4, A4.
Qed.
Lemma calm_ng G G' : ng_frame G G' -> calm G G'.
Proof.
  intros [F1 F2 F3 F4 F5 F6 F7 F8 F9 F10 F11 F12 F13 F14]. split; try congruence.
  intros [f|k f|id|id b|id|w|i|i|j|f|i]; cbn; try done.
  - destruct f; intros; try done; by apply F13.
  - destruct f; intros; try done; by apply F14.
  - by rewrite F6.
  - by rewrite F7.
Qed.
Lemma calm_parts G G' N L st : calm G G' -> parts_ok G N L st -> parts_ok G' N L st.
Proof.
  intros [E1 E2 E3 E4] [HB HY HN HL].
  assert (Hh : forall k f, (match f with STop | SCount | SFree | SNid | SOff _ => True | _ => False end) -> hdr G' k f = hdr G k f).
  { intros k f Hf. apply (E4 (LSet k f)). by destruct f. }
  assert (Hi : forall f, (match f with IMinId | IUsedNg | ISys => True | _ => False end) -> info G' f = info G f).
  { intros f Hf. apply (E4 (LInfo f)). by destruct f. }
  split.
  - destruct HB as [B1 B2 B3 B4 B5 B6]. split; rewrite ?E1, ?E3, ?Hi by done; try done.
    + intros k Hk. rewrite E2 in Hk. by apply B3.
    + intros k Hk. destruct (B4 k Hk) as (? & ? & ? & En & Eo). unfold set_geo. rewrite E2, Hh by done. do 4 (split; [done|]).
      intros t Ht. rewrite Hh by done. by apply Eo.
  - destruct HY. split; rewrite ?E3, ?Hh, ?Hi, ?E2 by done; done.
  - destruct HN as [N1 N2]. split; rewrite ?E3.
    + intros k Hk. apply (group_ext G); [|..|by apply N1].
      * intros f Hf. apply Hh. rewrite !elem_of_cons, elem_of_nil in Hf. by destruct Hf as [->|[->|[->|[]]]].
      * intros x Hx. by apply (E4 (LVd _)).
    + intros id. by rewrite N2, Hh.
  - destruct HL as [L1 L2]. split; [|done]. rewrite E3. eapply lru_ok_ext; [|exact L1]. intros x b _. symmetry. by apply (E4 (LLru x b)).
Qed.
Lemma table_parts p G N L st NL : table_ok p G N L st NL -> parts_ok G N L st.
Proof. intros []. by split. Qed.

Section Grow.
Context {S : Type} `{!Mallocator S, !MallocatorLaws S}.
Implicit Types (s : S) (G : table) (p : Pool).
#[local] Abbreviation PS := (ST (Pool * S)).

Section Grown.
Context (p : Pool) (G G' : table) (N : gset Z) (L st NL : Z -> list Z).
Hypothesis HT : table_ok p G N L st NL.
Hypothesis HW : grown G G'.
Hypothesis HB : base_ok G'.
#[local] Abbreviation n := (nsets G).

Lemma grown_old k : k <> n -> forall f, hdr G' k f = hdr G k f.
Proof. intros Hk f. apply (gw_val _ _ HW (LSet k f)); cbn; congruence. Qed.
Lemma grown_node x : x / 256 <> n -> nxt G' x = nxt G x /\ vdh G' x = vdh G x /\ dirty_bit G' x = dirty_bit G x /\ forall b, lru G' x b = lru G x b.
Proof.
  intros Hx. assert (Hr : RSet (x / 256) <> RSet n) by congruence. split; [|split; [|split]].
  - by apply (gw_val _ _ HW (LNext x)).
  - by apply (gw_val _ _ HW (LVd x)).
  - unfold dirty_bit. f_equal. apply (gw_val _ _ HW (LDirty (x / 64))); [|done..]. cbn. rewrite Z.div_div by lia. done.
  - intros b. by apply (gw_val _ _ HW (LLru x b)).
Qed.
Lemma grown_live x : x ∈ N -> 256 <= x < 256 * n.
Proof. intros Hx. by apply (no_live _ _ _ (tb_nodes _ _ _ _ _ _ HT)) in Hx as [? _]. Qed.

Lemma grown_kept : kept N G G'.
Proof.
  pose proof (tb_base _ _ _ _ _ _ HT) as HBG. split.
  - intros r Hr. apply (gw_hof _ _ HW). intros ->. apply (bo_sets _ HBG) in Hr. lia.
  - by apply (gw_hof _ _ HW).
  - intros x Hx%grown_live. destruct (grown_node x) as (? & ? & ? & _); [zdm|done].
  - intros f. by apply (gw_val _ _ HW (LHash f)).
  - intros i. by apply (gw_val _ _ HW (LBucket i)).
  - apply HW.
  - apply HW.
  - intros f Hf. apply (gw_val _ _ HW (LInfo f)); [done|intros [= ->]; set_solver..].
  - rewrite (gw_nsets _ _ HW). lia.
  - intros k Hk. rewrite grown_old; [done|lia].
Qed.

Lemma grown_ng : ng_ok G' NL.
Proof.
  pose proof (tb_base _ _ _ _ _ _ HT) as HBG. destruct (gs_lists _ _ _ (tb_groups _ _ _ _ _ _ HT)) as (f & Hf & Hg & HL & Hn).
  assert (Hnl : ~ listed ng_heads NL n). { intros H%Hn. destruct H as [H|[H|[H _]]]; pose proof (bo_pos _ HBG); lia. }
  exists (lset n true (-3) (lset n false (-3) f)).
  assert (Hng : forall x, named G x -> x <> n /\ named G' x /\ name_addr G' x = name_addr G x).
  { intros x Hx. assert (x <> n) by (intros ->; destruct Hx as [H|[H|[H _]]]; pose proof (bo_pos _ HBG); lia). split; [done|].
    unfold name_addr, named in *. rewrite (gw_nsets _ _ HW), !(gw_hof _ _ HW) by congruence. split; [|done]. destruct Hx as [?|[?|[? ?]]]; [by left|by right; left|right; right; split; [lia|done]]. }
  assert (Hng' : forall x, named G' x -> x = n \/ named G x).
  { intros x Hx. destruct (decide (x = n)) as [->|Hne]; [by left|]. right. unfold named in *. rewrite (gw_nsets _ _ HW), (gw_hof _ _ HW) in Hx by congruence.
    destruct Hx as [?|[?|[? ?]]]; [by left|by right; left|right; right; split; [lia|done]]. }
  split; [|split; [|split]].
  - intros x b Hx. destruct (decide (x = n)) as [->|Hne].
    + unfold name_link. rewrite !(proj2 (Z.eqb_neq n _)) by (pose proof (bo_pos _ HBG); lia).
      destruct (gw_fresh _ _ HW) as [E1 E2 _ _ _ _ _ _]. destruct b; links.
    + assert (Hxg : named G x).
      { destruct Hx as [?|[?|[Hx Hh]]]; [by left|by right; left|]. right; right. rewrite (gw_nsets _ _ HW) in Hx.
        rewrite (gw_hof _ _ HW) in Hh by congruence. split; [lia|done]. }
      assert (E : name_link G' x b = name_link G x b).
      { rewrite <-!val_name_cell. apply (gw_val _ _ HW); unfold name_cell; repeat case_match; cbn; try done; congruence. }
      rewrite E, Hf by done. links. destruct (Hg x b Hxg) as [Hfx| ->]; [|done]. by destruct (Hng _ Hfx) as (_ & _ & ->).
  - intros x b [->|Hx]%Hng'; [right; destruct b; links|]. destruct (Hng x Hx) as [? _]. rewrite !lset_ne by (left; congruence).
    destruct (Hg x b Hx) as [Hfx%Hng|?]; [left; apply Hfx|by right].
  - do 2 (apply rings_lset; [|done]). done.
  - intros x Hx%Hn. by apply Hng.
Qed.

Lemma grown_table G'' : ng_frame G' G'' -> ng_ok G'' (<[-1 := n :: NL (-1)]> NL) -> linked p G'' ->
  table_ok p G'' N L (<[n := []]> st) (<[-1 := n :: NL (-1)]> NL).
Proof.
  intros HF Hng Hlk. pose proof HT as [_ HBG [I1 I2] [Y1 Y2 Y3 Y4] [N1 N2] NF N3 [S1 S2 S3] [L1 L2] Hst].
  pose proof (gw_nsets _ _ HW) as En. pose proof (gw_fresh _ _ HW) as Hfr. pose proof HF as [F1 F2 F3 F4 F5 F6 F7 F8 F9 F10 F11 F12 F13 F14].
  assert (Hst0 : forall k, k <> n -> <[n := []]> st k = st k) by (intros; by rewrite fn_lookup_insert_ne).
  assert (Hold : forall k f, k <> n -> f <> SPrev -> f <> SNext -> hdr G'' k f = hdr G k f) by (intros; rewrite F14, grown_old; done).
  assert (Hgrp : forall k, 0 <= k < n -> group_ok G'' k (st k)).
  { intros k Hk. assert (k <> n) by lia. apply (group_ext G); [|..|by apply N1].
    - intros f Hf. apply Hold; [done|intros ->; set_solver..].
    - intros x Hx. rewrite F7. pose proof (gr_in _ _ _ (N1 k Hk) x Hx). pose proof (gr_free _ _ _ (N1 k Hk)).
      apply (grown_node (256 * k + x)). zdm. }
  assert (Hfil : filled_ok G'').
  { intros k Hk Hfree. rewrite F2, En in Hk. destruct (decide (k = n)) as [->|Hne].
    - rewrite F14, (fg_free _ _ Hfr) in Hfree by done. lia.
    - rewrite Hold in Hfree by done. assert (Hkn : 0 <= k < n) by lia. destruct (set_small G k HBG Hkn) as [_ Hs].
      apply (filled_ext G); [| | | |done|by apply NF].
      + intros r Hr. rewrite F1. by apply (kp_hof _ _ _ grown_kept).
      + intros _. rewrite F9. by apply (gw_val _ _ HW (LFi (k / 65536))).
      + rewrite F10. by apply (gw_val _ _ HW (LSi k)).
      + by apply HBG. }
  split; try done.
  - by apply (base_frame G').
  - split; [by rewrite F1, (gw_hof _ _ HW)|]. intros i Hi. rewrite F9, F1, (gw_hof _ _ HW) by done. rewrite <-I2 by done.
    by apply (gw_val _ _ HW (LFi i)).
  - split; [lia|rewrite Hold by (done || lia); done|rewrite Hst0 by lia; done|].
    rewrite F13, F1, (gw_hof _ _ HW) by (try done; intros [=]; lia). rewrite <-Y4. by apply (gw_val _ _ HW (LInfo ISys)).
  - split.
    + intros k Hk. rewrite F2, En in Hk. destruct (decide (k = n)) as [->|Hne]; [|rewrite Hst0 by done; apply Hgrp; lia].
      rewrite fn_lookup_insert. destruct Hfr as [_ _ E3 E4 E5 _ _ _]. split; rewrite ?F14 by done; rewrite ?E4, ?E5; try done; try lia.
      * constructor.
      * by intros x ?%not_elem_of_nil.
    + intros id. rewrite N2, F2, En. destruct (decide (id / 256 = n)) as [Ei|Ei].
      * rewrite Ei, F14 by done. rewrite (fg_free _ _ Hfr). pose proof (Z.mod_pos_bound id 256). split; [zdm|lia].
      * rewrite Hold, Hst0 by done. split; intros (? & ? & ?); (split; [zdm|done]).
  - rewrite F13 by done. rewrite <-N3. by apply (gw_val _ _ HW (LInfo IUsedNode)).
  - split; [done| |].
    + intros k. rewrite fn_lookup_insert, fn_lookup_insert_ne by done. rewrite elem_of_cons, F2, En. specialize (S2 k).
      split.
      * intros [[->|Hk]|Hk]; [lia|assert (1 <= k < n) by (apply S2; by left); lia|assert (1 <= k < n) by (apply S2; by right); lia].
      * intros Hk. destruct (decide (k = n)) as [->|]; [by left; left|]. destruct (proj2 S2 ltac:(lia)) as [?|?]; [by left; right|by right].
    + intros k Hk. rewrite fn_lookup_insert_ne by done. rewrite F2, En in Hk. unfold is_full. destruct (decide (k = n)) as [->|Hne].
      * rewrite F14, (fg_free _ _ Hfr) by done. split; [|lia]. intros Hin. assert (1 <= n < n) by (apply S2; by right). lia.
      * rewrite Hst0, Hold by done. apply S3. lia.
  - assert (Hids : forall x b, 0 <= x < 256 * n \/ listed heads L x -> lru G x b = lru G'' x b).
    { intros x b Hx. rewrite F6. symmetry. apply grown_node. destruct Hx as [Hx|(h & Hh & [->|Hx]%elem_of_cons)]; [zdm| |].
      - unfold heads in Hh. rewrite !elem_of_cons, elem_of_nil in Hh. zdm.
      - apply (L2 h x Hh), grown_live in Hx. zdm. }
    pose proof (lru_ok_ext _ _ _ _ Hids L1) as [HLr HLa]. split; [|done]. split; [done|]. intros x Hx Hl. rewrite F2, En in Hx.
    destruct (decide (x < 256 * n)); [apply HLa; [lia|done]|]. destruct (fg_node _ _ Hfr x) as (_ & E1 & E2 & _); [lia|].
    unfold alone. by rewrite F6.
Qed.
End Grown.

(** ** Groups in advance *)

Lemma table_ok_pool p p' G N L st NL : _firstIndex p' = _firstIndex p -> _ngInfo p' = _ngInfo p -> 1 <= alloc_step p' ->
  table_ok p G N L st NL -> table_ok p' G N L st NL.
Proof. intros E1 E2 E3 [Hl]. split; try done. unfold linked. by rewrite E1, E2. Qed.

Lemma name_addr_set G k : 0 <= k -> name_addr G k = hof G (RSet k).
Proof. intros Hk. unfold name_addr. by rewrite !(proj2 (Z.eqb_neq k _)) by lia. Qed.

(** The state after some groups have been added. *)
Definition more_groups (p : Pool) (G : table) (N : gset Z) (L : Z -> list Z) (p' : Pool) (G' : table) : Prop :=
  (exists step fail, p' = set_alloc step fail p) /\ kept N G G' /\ exists st NL, table_ok p' G' N L st NL /\ NL (-1) <> [].

Lemma set_alloc_self p : set_alloc (alloc_step p) (alloc_fail p) p = p.
Proof. by destruct p. Qed.

Lemma wp_allocate_groups k i p s G N L st NL (Q : bool -> Pool * S -> Prop) :
  Rep s G -> table_ok p G N L st NL -> 0 <= i -> (0 < i -> NL (-1) <> []) -> (0 < k)%nat \/ 0 < i ->
  (i = 0 -> forall s', Rep s' G -> Q false (p, s')) ->
  (forall p' s' G', Rep s' G' -> more_groups p G N L p' G' -> Q true (p', s')) -> wp (allocate_groups i k) (p, s) Q.
Proof.
  revert i p s G st NL; induction k as [|k IH]; intros i p s G st NL HR HT Hi Hne Hk HQ0 HQ1; cbn [allocate_groups].
  - apply wp_ret, (HQ1 p s G HR). split; [by exists (alloc_step p), (alloc_fail p); rewrite set_alloc_self|]. split; [apply kept_refl|].
    exists st, NL. split; [done|]. apply Hne. lia.
  - apply wp_bind, (wp_allocate_ng p s G); [done|apply HT|apply HT|..].
    + intros s' HR'. rewrite Z.eqb_refl. destruct (Z.eqb_spec i 0) as [->|Hi0]; [by apply wp_ret, HQ0|].
      apply wp_assign, wp_ret. apply (HQ1 _ s' G HR'). split; [by eexists _, _|]. split; [apply kept_refl|].
      exists st, NL. split; [|apply Hne; lia]. by apply (table_ok_pool p).
    + intros s1 G1 HR1 Hp1 HB1 HW. set (n := nsets G) in *. pose proof (bo_pos _ (tb_base _ _ _ _ _ _ HT)) as Hn. fold n in Hn.
      assert (Hnn : named G1 n) by (right; right; rewrite (gw_nsets _ _ HW); fold n; split; [lia|apply (gw_fresh _ _ HW)]).
      assert (Hnl : ~ listed ng_heads NL n).
      { intros (h & Hh & Hx). unfold ng_heads in Hh. pose proof (gs_all _ _ _ (tb_groups _ _ _ _ _ _ HT) n) as Ha.
        rewrite !elem_of_cons, elem_of_nil in Hh. fold n in Ha. destruct Hh as [->|[->|[]]]; apply elem_of_cons in Hx as [Hx|Hx]; try lia.
        - assert (1 <= n < n) by (apply Ha; by left). lia.
        - assert (1 <= n < n) by (apply Ha; by right). lia. }
      rewrite (proj2 (Z.eqb_neq _ _)) by apply (gw_fresh _ _ HW). unfold free_list_add. apply wp_bind, wp_member.
      destruct Hp1 as (Ef1 & Ei1 & Hi1). rewrite Ei1, <-name_addr_set by done.
      apply wp_shm. change (ni_free_head (hof G1 RInfo)) with (name_addr G1 (-1)).
      apply (ng_add s1 G1 NL (-1) n); [done|done|by apply (grown_ng p G G1 N L st NL)|by left|done|done|].
      intros s2 G2 HR2 HF2 Hng2. assert (HT2 : table_ok p G2 N L (<[n := []]> st) (<[-1 := n :: NL (-1)]> NL)).
      { apply (grown_table p G G1); try done. split; [|split]; rewrite (nf_hof _ _ HF2); done. }
      assert (HK2 : kept N G G2) by (apply (kept_trans _ _ G1); [by apply (grown_kept p G G1 N L st NL)|by apply kept_ng]).
      apply (IH (i + 1) p s2 G2 _ _ HR2 HT2); [lia|by rewrite fn_lookup_insert|lia|lia|].
      intros p' s' G' HR' (Hp' & HK' & HT'). apply (HQ1 p' s' G' HR'). split; [done|]. split; [by apply (kept_trans _ _ G2)|done].
Qed.

Lemma wp_find_free_ng p s G N L st NL (Q : Z -> Pool * S -> Prop) : Rep s G -> table_ok p G N L st NL ->
  Q (match NL (-1) with [] => 0 | k :: _ => hof G (RSet k) end) (p, s) -> wp find_free_ng (p, s) Q.
Proof.
  intros HR HT HQ. destruct (tb_linked _ _ _ _ _ _ HT) as (_ & Ei & Hi). unfold find_free_ng. apply wp_member. rewrite Ei. unfold ni_free_head.
  assert (Hw : wp (e ← NG_LIST_EMPTY (hof G RInfo); if (e : bool) then mret 0 else ng_next (hof G RInfo)) s (fun a s' => Q a (p, s'))).
  { apply (ng_first s G NL); [done|done|apply HT|]. destruct (NL (-1)) as [|k l] eqn:E; [done|]. rewrite name_addr_set; [done|].
    assert (1 <= k < nsets G); [|lia]. apply (gs_all _ _ _ (tb_groups _ _ _ _ _ _ HT)). left. rewrite E. by left. }
  destruct Hw as (a & s' & E & HQ'). exists a, (p, s'). split; [|done]. apply bind_inv in E as (e & s1 & E1 & E2).
  rewrite (bind_ok _ _ _ e (p, s1)) by (unfold shm; cbn; by rewrite E1).
  destruct e; [by injection E2 as -> ->|]. unfold shm. cbn. by rewrite E2.
Qed.

(** A group with room, if there is memory for one. *)
Lemma wp_find_or_allocate p s G N L st NL (Q : option Z -> Pool * S -> Prop) : Rep s G -> table_ok p G N L st NL ->
  (NL (-1) = [] -> forall s', Rep s' G -> Q None (p, s')) ->
  (forall p' s' G' st' NL' k l, Rep s' G' -> table_ok p' G' N L st' NL' -> kept N G G' -> (exists step fail, p' = set_alloc step fail p) ->
    NL' (-1) = k :: l -> Q (Some (hof G' (RSet k))) (p', s')) -> wp find_or_allocate_ng (p, s) Q.
Proof.
  intros HR HT HQ0 HQ1.
  assert (Hset : forall p' G' st' NL' k l, table_ok p' G' N L st' NL' -> NL' (-1) = k :: l -> hof G' (RSet k) <> 0).
  { intros p' G' st' NL' k l HT' E. assert (1 <= k < nsets G') by (apply (gs_all _ _ _ (tb_groups _ _ _ _ _ _ HT')); left; rewrite E; by left).
    apply (bo_geo _ (tb_base _ _ _ _ _ _ HT') k). lia. }
  unfold find_or_allocate_ng. apply wp_bind, (wp_find_free_ng p s G N L st NL); [done|done|]. destruct (NL (-1)) as [|k l] eqn:E.
  - change (negb (0 =? 0)) with false. cbv iota. apply wp_member, wp_bind. pose proof (tb_step _ _ _ _ _ _ HT).
    apply (wp_allocate_groups _ 0 p s G N L st NL); [done|done|done|lia|lia| |].
    { intros _ s' HR'. by apply wp_ret, (HQ0 eq_refl). }
    intros p' s' G' HR' ((step & fail & ->) & HK & st' & NL' & HT' & Hne). cbv beta iota. cbn [negb].
    apply wp_bind, (wp_find_free_ng _ s' G' N L st' NL'); [done|done|]. destruct (NL' (-1)) as [|k l] eqn:E'; [done|].
    apply wp_member, wp_member. cbn [alloc_step alloc_fail set_alloc]. pose proof (tb_step _ _ _ _ _ _ HT') as Hs. cbn in Hs. destruct (_ && _).
    + apply wp_bind, wp_assign_last, wp_ret. eapply HQ1; [exact HR'| |exact HK|by eexists _, _|exact E']. apply (table_ok_pool (set_alloc step fail p)); [done|done|cbn; lia|done].
    + apply wp_bind, wp_ret, wp_ret. eapply HQ1; [exact HR'|exact HT'|exact HK|by eexists _, _|exact E'].
  - rewrite (proj2 (Z.eqb_neq _ 0)) by (eapply Hset; eauto). cbv iota. cbn [negb]. apply wp_ret. eapply HQ1; [exact HR|exact HT|apply kept_refl| |exact E].
    exists (alloc_step p), (alloc_fail p). by rewrite set_alloc_self.
Qed.
End Grow.
