(* ===== verification/NodeOps.v ===== *)
(** [allocate_node] and [release_node]: nodes come from groups with room, and go back. *)
From Stdlib Require Import ZArith Lia.
From stdpp Require Import functions base list list_numbers numbers gmap.
From S2P Require Import Prelude PtMalloc PtSpec Mallocator NodeTable NodeRep NodeAcc NodeLru NodeGroup NodeNg NodeInv NodeAlloc.
Import AllocSpec.
Local Open Scope Z_scope.

(** ** Dirty bits *)

Lemma one_bit m n : 0 <= m -> 0 <= n -> Z.testbit (Z.shiftl 1 m) n = (n =? m).
Proof. intros Hm Hn. rewrite Z.shiftl_1_l, Z.pow2_bits_eqb by done. apply Z.eqb_sym. Qed.
Lemma word_bits (w : Z -> Z) id x (f : Z -> Z -> Z) :
  Z.testbit (<[id / 64 := f (w (id / 64)) (Z.shiftl 1 (id mod 64))]> w (x / 64)) (x mod 64) =
  if decide (x / 64 = id / 64) then Z.testbit (f (w (id / 64)) (Z.shiftl 1 (id mod 64))) (x mod 64) else Z.testbit (w (x / 64)) (x mod 64).
Proof. destruct (decide _) as [->|]; [by rewrite fn_lookup_insert|by rewrite fn_lookup_insert_ne]. Qed.
Lemma dirty_bit_clr G id x : dirty_bit (upd (LDirty (id / 64)) (Z.ldiff (dirty G (id / 64)) (Z.shiftl 1 (id mod 64))) G) x =
  if decide (x = id) then false else dirty_bit G x.
Proof.
  unfold dirty_bit. cbn. rewrite (word_bits _ id x Z.ldiff). pose proof (Z.mod_pos_bound x 64 ltac:(lia)). pose proof (Z.mod_pos_bound id 64 ltac:(lia)).
  destruct (decide (x / 64 = id / 64)) as [E|E], (decide (x = id)) as [->|Hne]; try done.
  - by rewrite Z.ldiff_spec, one_bit, Z.eqb_refl, andb_false_r by lia.
  - rewrite Z.ldiff_spec, one_bit, (proj2 (Z.eqb_neq _ _)) by zdm. by rewrite andb_true_r, E.
Qed.
Lemma dirty_bit_set G id x : dirty_bit (upd (LDirty (id / 64)) (Z.lor (dirty G (id / 64)) (Z.shiftl 1 (id mod 64))) G) x =
  if decide (x = id) then true else dirty_bit G x.
Proof.
  unfold dirty_bit. cbn. rewrite (word_bits _ id x Z.lor). pose proof (Z.mod_pos_bound x 64 ltac:(lia)). pose proof (Z.mod_pos_bound id 64 ltac:(lia)).
  destruct (decide (x / 64 = id / 64)) as [E|E], (decide (x = id)) as [->|Hne]; try done.
  - by rewrite Z.lor_spec, one_bit, Z.eqb_refl, orb_true_r by lia.
  - rewrite Z.lor_spec, one_bit, (proj2 (Z.eqb_neq _ _)) by zdm. by rewrite orb_false_r, E.
Qed.

(** ** A reset node *)

Definition reset_node (G : table) (id : Z) : table :=
  let G1 := upd (LLru id true) id (upd (LLru id false) id (upd (LNext id) INVALID_NODE_ID G)) in
  upd (LDirty (id / 64)) (Z.ldiff (dirty G1 (id / 64)) (Z.shiftl 1 (id mod 64))) G1.
Lemma reset_nxt G id x : nxt (reset_node G id) x = if decide (x = id) then INVALID_NODE_ID else nxt G x.
Proof. cbn. destruct (decide (x = id)) as [->|]; [by rewrite fn_lookup_insert|by rewrite fn_lookup_insert_ne]. Qed.
Lemma reset_lru G id x b : lru (reset_node G id) x b = if decide (x = id) then id else lru G x b.
Proof.
  cbn. destruct (decide (x = id)) as [->|]; [|by rewrite !fn_lookup_insert_ne]. rewrite !fn_lookup_insert.
  destruct b; by rewrite ?fn_lookup_insert_ne, ?fn_lookup_insert by done.
Qed.
Lemma reset_dirty G id x : dirty_bit (reset_node G id) x = if decide (x = id) then false else dirty_bit G x.
Proof. unfold reset_node. by rewrite dirty_bit_clr. Qed.

(** What taking a node out of a group, or putting it back, leaves alone. *)
Record node_frame (G G' : table) (id : Z) : Prop := {
  nr_hof : hof G' = hof G;
  nr_nsets : nsets G' = nsets G;
  nr_nbkt : nbkt G' = nbkt G;
  nr_rest : rest G' = rest G;
  nr_info : info G' = info G;
  nr_fih : fih G' = fih G;
  nr_sih : sih G' = sih G;
  nr_hh : hh G' = hh G;
  nr_bkt : bkt G' = bkt G;
  nr_vdh x : x <> id -> vdh G' x = vdh G x;
  nr_nxt x : nxt G' x = if decide (x = id) then INVALID_NODE_ID else nxt G x;
  nr_lru x b : lru G' x b = if decide (x = id) then id else lru G x b;
  nr_dirty x : dirty_bit G' x = if decide (x = id) then false else dirty_bit G x;
  nr_hdr k f : k <> id / 256 \/ f ∉ [STop; SCount; SFree] -> hdr G' k f = hdr G k f
}.

(** The ids of a group that are handed out. *)
Definition taken (G : table) (st : Z -> list Z) (id : Z) : Prop := id mod 256 < hdr G (id / 256) SFree /\ id mod 256 ∉ st (id / 256).

Section Frame.
Context (G G' : table) (id : Z).
Hypothesis HF : node_frame G G' id.
Lemma frame_hdr k f : f ∉ [STop; SCount; SFree] -> hdr G' k f = hdr G k f.
Proof. intros Hf. apply HF. by right. Qed.
Lemma frame_base : base_ok G -> base_ok G'.
Proof.
  pose proof (nr_hof _ _ _ HF) as F1. pose proof (nr_nsets _ _ _ HF) as F2. pose proof (nr_info _ _ _ HF) as F5.
  intros [B1 B2 B3 B4 B5 B6]. split; rewrite ?F1, ?F2, ?F5; try done. intros j Hj.
  destruct (B4 j Hj) as (? & ? & ? & En & Eo). unfold set_geo. rewrite F1, frame_hdr by set_solver. do 4 (split; [done|]).
  intros t Ht. rewrite frame_hdr by set_solver. by apply Eo.
Qed.
Lemma frame_sys st st' : id / 256 <> 0 -> st' 0 = st 0 -> sys_ok G st -> sys_ok G' st'.
Proof.
  intros Hid E [Y1 Y2 Y3 Y4]. split; rewrite ?(nr_hof _ _ _ HF), ?(nr_nsets _ _ _ HF), ?(nr_info _ _ _ HF), ?E; try done.
  rewrite (nr_hdr _ _ _ HF); [done|by left].
Qed.
Lemma frame_nodes N N' st k xs : id / 256 = k -> nodes_ok G N st -> group_ok G' k xs ->
  (forall x, x / 256 = k -> x ∈ N' <-> 256 <= x < 256 * nsets G /\ taken G' (<[k := xs]> st) x) -> (forall x, x / 256 <> k -> x ∈ N' <-> x ∈ N) ->
  nodes_ok G' N' (<[k := xs]> st).
Proof.
  intros Ek [N1 N2] Hk Hin Hout. split; rewrite (nr_nsets _ _ _ HF).
  - intros j Hj. destruct (decide (j = k)) as [->|Hne]; [by rewrite fn_lookup_insert|]. rewrite fn_lookup_insert_ne by done.
    apply (group_ext G); [|..|by apply N1].
    + intros f _. apply HF. left. congruence.
    + intros y Hy. apply HF. pose proof (gr_in _ _ _ (N1 j Hj) y Hy). pose proof (gr_free _ _ _ (N1 j Hj)). intros E. apply Hne. zdm.
  - intros x. destruct (decide (x / 256 = k)) as [Ex|Ex]; [by rewrite Hin|]. rewrite Hout, N2, fn_lookup_insert_ne by done.
    rewrite (nr_hdr _ _ _ HF); [done|left; congruence].
Qed.
Lemma frame_lru L n : 0 <= id < n -> ~ listed heads L id -> lru_ok (lru G) L n -> lru_ok (lru G') L n.
Proof.
  intros Hid Hl HL. eapply lru_ok_ext; [|exact HL]. intros x b Hx. rewrite (nr_lru _ _ _ HF). destruct (decide (x = id)) as [->|]; [|done].
  destruct (lo_alone _ _ _ HL id) as [E1 E2]; [done|done|]. by destruct b.
Qed.
Lemma frame_ng NL : ng_ok G NL -> ng_ok G' NL.
Proof.
  apply ng_ok_ext; [by rewrite (nr_hof _ _ _ HF)|intros j; by rewrite (nr_hof _ _ _ HF)|apply HF|].
  intros x b. unfold name_link. rewrite (nr_info _ _ _ HF), frame_hdr; [done|]. destruct b; set_solver.
Qed.
Lemma frame_index : index_ok G -> index_ok G'.
Proof. intros [I1 I2]. split; by rewrite ?(nr_hof _ _ _ HF), ?(nr_fih _ _ _ HF). Qed.
Lemma frame_filled j : filled G j -> filled G' j.
Proof. unfold filled. by rewrite (nr_hof _ _ _ HF), (nr_fih _ _ _ HF), (nr_sih _ _ _ HF). Qed.
End Frame.

Section Ops.
Context {S : Type} `{!Mallocator S, !MallocatorLaws S}.
Implicit Types (s : S) (G : table) (p : Pool).
#[local] Abbreviation PS := (ST (Pool * S)).

Lemma wp_Node_Reset s G id (Q : Z -> S -> Prop) : Rep s G -> set_geo G (id / 256) -> (forall s', Rep s' (reset_node G id) -> Q 0 s') -> wp (Node_Reset (nd G id)) s Q.
Proof.
  intros HR HG HQ. pose proof (id_small G id HG) as [Hid _]. unfold Node_Reset.
  apply wp_bind, (wp_put_next_node_id s G id HR HG); [done|]. intros s1 H1. set (G1 := upd _ _ G) in *.
  apply wp_bind, (wp_node_id s1 G1 id H1 HG), wp_bind, (wp_put_lru_prev s1 G1 id H1 HG); [lia|]. intros s2 H2. set (G2 := upd _ _ G1) in *.
  apply wp_bind, (wp_node_id s2 G2 id H2 HG), wp_bind, (wp_put_lru_next s2 G2 id H2 HG); [lia|]. intros s3 H3. set (G3 := upd _ _ G2) in *.
  apply wp_bind, (wp_clr_dirty s3 G3 id H3 HG). intros s4 H4. by apply wp_ret, HQ.
Qed.

(** Words of the header of a group. *)
Section Header.
Context (s : S) (G : table) (k : Z).
Hypothesis HR : Rep s G.
Hypothesis Hk : hof G (RSet k) <> 0.
Lemma wp_dele_top (Q : Z -> S -> Prop) : Q (hdr G k STop) s -> wp (dele_top (hof G (RSet k))) s Q.
Proof. by apply (wp_rd s G (LSet k STop)). Qed.
Lemma wp_dele_count (Q : Z -> S -> Prop) : Q (hdr G k SCount) s -> wp (dele_count (hof G (RSet k))) s Q.
Proof. by apply (wp_rd s G (LSet k SCount)). Qed.
Lemma wp_ng_free (Q : Z -> S -> Prop) : Q (hdr G k SFree) s -> wp (ng_free (hof G (RSet k))) s Q.
Proof. by apply (wp_rd s G (LSet k SFree)). Qed.
Lemma wp_put_dele_top v (Q : unit -> S -> Prop) : 0 <= v < 65536 -> (forall s', Rep s' (upd (LSet k STop) v G) -> Q tt s') -> wp (put_dele_top (hof G (RSet k)) v) s Q.
Proof. intros Hv HQ. by apply (wp_put s G (LSet k STop)). Qed.
Lemma wp_put_dele_count v (Q : unit -> S -> Prop) : 0 <= v < 65536 -> (forall s', Rep s' (upd (LSet k SCount) v G) -> Q tt s') -> wp (put_dele_count (hof G (RSet k)) v) s Q.
Proof. intros Hv HQ. by apply (wp_put s G (LSet k SCount)). Qed.
Lemma wp_put_ng_free v (Q : unit -> S -> Prop) : 0 <= v < 65536 -> (forall s', Rep s' (upd (LSet k SFree) v G) -> Q tt s') -> wp (put_ng_free (hof G (RSet k)) v) s Q.
Proof. intros Hv HQ. by apply (wp_put s G (LSet k SFree)). Qed.

Lemma group_len xs : group_ok G k xs -> Z.of_nat (length xs) <= 256.
Proof.
  intros [Hf Hn Hi _ _]. assert (length xs <= length (seqZ 0 256))%nat; [|rewrite length_seqZ in *; lia].
  apply submseteq_length, NoDup_submseteq; [done|]. intros x Hx%Hi. apply elem_of_seqZ. lia.
Qed.
Lemma wp_set_is_full xs (Q : bool -> S -> Prop) : group_ok G k xs -> Q (bool_decide (is_full G k xs)) s -> wp (set_is_full (hof G (RSet k))) s Q.
Proof.
  intros Hg HQ. apply wp_bind, wp_dele_count, wp_bind, wp_ng_free, wp_ret. rewrite (gr_count _ _ _ Hg).
  replace (_ && _) with (bool_decide (is_full G k xs)); [done|]. apply eq_bool_prop_intro. rewrite bool_decide_spec, andb_True.
  unfold is_full, NODE_GROUP_INCLUDE_NODES. pose proof (gr_free _ _ _ Hg). rewrite !Is_true_true, Z.eqb_eq, Z.leb_le.
  destruct xs; cbn [length]; split; intros [? ?]; split; try done; lia.
Qed.
End Header.

(** ** Taking a node from a group *)

(** The node [id] is taken from the group [k], whose released nodes are [xs] then. *)
Record takes (G G' : table) (st : Z -> list Z) (k id : Z) (xs : list Z) : Prop := {
  tk_in : id / 256 = k;
  tk_frame : node_frame G G' id;
  tk_new : ~ taken G st id;
  tk_group : group_ok G' k xs;
  tk_taken x : x / 256 = k -> taken G' (<[k := xs]> st) x <-> x = id \/ taken G st x;
  tk_free : hdr G k SFree <= hdr G' k SFree;
  tk_first : st k = [] -> xs = [] /\ id = 256 * k + hdr G k SFree /\ hdr G' k SFree = hdr G k SFree + 1
}.

Section Take.
Context (G : table) (k : Z) (st : Z -> list Z).
Hypothesis Hgeo : set_geo G k.
Hypothesis Hg : group_ok G k (st k).

Lemma takes_fresh (G' := upd (LSet k SFree) (hdr G k SFree + 1) (reset_node G (256 * k + hdr G k SFree))) :
  st k = [] -> hdr G k SFree < 256 -> takes G G' st k (256 * k + hdr G k SFree) [].
Proof.
  intros E Hf'. subst G'. pose proof Hg as [Hf Hn Hi Hc Hr]. rewrite E in *.
  set (id := 256 * k + hdr G k SFree). assert (Ek : id / 256 = k) by zdm. assert (Ei : id mod 256 = hdr G k SFree) by zdm. split; [done|..].
  - split; try done; [apply reset_nxt|apply reset_lru|apply reset_dirty|]. intros k' f Hkf. cbn.
    destruct (decide (k' = k)) as [->|]; [|by rewrite fn_lookup_insert_ne]. rewrite fn_lookup_insert, fn_lookup_insert_ne; [done|intros <-; set_solver].
  - unfold taken. rewrite Ei, Ek. lia.
  - split; cbn; rewrite ?fn_lookup_insert, ?fn_lookup_insert_ne by done; cbn; try done.
    all: first [by intros y ?%not_elem_of_nil|lia|constructor].
  - intros y Ey. unfold taken. rewrite Ey, fn_lookup_insert, E. cbn. rewrite !fn_lookup_insert.
    pose proof (not_elem_of_nil (y mod 256)). split; [intros [? _]|intros [->|[? _]]; [split; [lia|done]|split; [lia|done]]].
    destruct (decide (y mod 256 = hdr G k SFree)); [left; unfold id; zdm|right; split; [lia|done]].
  - cbn. rewrite !fn_lookup_insert. lia.
  - intros _. do 2 (split; [done|]). cbn. by rewrite !fn_lookup_insert.
Qed.

Lemma takes_released x xs (id := 256 * k + x) (G' := upd (LSet k STop) (u8 (vdh G id)) (upd (LSet k SCount) (Z.of_nat (length xs)) (reset_node G id))) :
  st k = x :: xs -> takes G G' st k id xs.
Proof.
  intros E. subst G'. pose proof Hg as [Hf Hn Hi Hc Hr]. rewrite E in *. cbn in Hr. destruct Hr as [Et Hr]. pose proof (Hi x ltac:(by left)) as Hx.
  assert (Ek : id / 256 = k) by zdm. assert (Ei : id mod 256 = x) by zdm. apply NoDup_cons in Hn as [Hx' Hn]. split; [done|..].
  - split; try done; [apply reset_nxt|apply reset_lru|apply reset_dirty|]. intros k' f Hkf. cbn.
    destruct (decide (k' = k)) as [->|]; [|by rewrite !fn_lookup_insert_ne]. rewrite !fn_lookup_insert, !fn_lookup_insert_ne; [done|intros <-; set_solver..].
  - unfold taken. rewrite Ei, Ek, E. intros [_ H]. apply H. by left.
  - split; cbn; rewrite ?fn_lookup_insert, ?fn_lookup_insert_ne by done; cbn; rewrite ?fn_lookup_insert, ?fn_lookup_insert_ne by done; cbn; try done.
    intros y Hy. apply Hi. by right.
  - intros y Ey. unfold taken. rewrite Ey, fn_lookup_insert, E. cbn. rewrite !fn_lookup_insert, !fn_lookup_insert_ne by done. cbn.
    rewrite not_elem_of_cons. destruct (decide (y mod 256 = x)) as [Exy|Hne].
    + split; [intros _; left; unfold id; zdm|]. intros _. rewrite Exy. split; [lia|done].
    + split; [intros [? ?]; by right|]. intros [->|(? & ? & ?)]; [congruence|done].
  - cbn. by rewrite !fn_lookup_insert, !fn_lookup_insert_ne.
  - by rewrite E.
Qed.

Lemma wp_set_allocate s (Q : Node -> S -> Prop) : Rep s G -> ~ is_full G k (st k) ->
  (forall s' G' id xs, Rep s' G' -> takes G G' st k id xs -> Q (nd G' id) s') -> wp (set_allocate_node (hof G (RSet k))) s Q.
Proof.
  intros HR Hnf HQ. assert (Hh : hof G (RSet k) <> 0) by apply Hgeo. pose proof (group_len G k _ Hg) as Hlen. unfold set_allocate_node.
  apply wp_bind, (wp_set_is_full s G k HR Hh (st k)); [done|]. rewrite bool_decide_false by done.
  apply wp_bind, wp_dele_count; [done..|]. pose proof Hg as [Hf _ Hi Hc Hr]. rewrite Hc.
  assert (E : st k = [] \/ exists x xs, st k = x :: xs) by (destruct (st k) as [|x xs]; [by left|right; by exists x, xs]).
  unfold is_full in Hnf. destruct E as [E|(x & xs & E)]; rewrite E in Hlen, Hnf, Hi, Hc, Hr |- *.
  - cbn [length Z.of_nat Z.ltb Z.compare]. apply wp_bind, wp_ng_free; [done..|].
    assert (Hf' : hdr G k SFree < 256). { destruct (decide (hdr G k SFree = 256)); [|lia]. by destruct Hnf. }
    pose proof (takes_fresh E Hf') as Ht. set (id := 256 * k + hdr G k SFree) in *. assert (Ek : id / 256 = k) by zdm. assert (Ei : id mod 256 = hdr G k SFree) by zdm.
    replace (mkNd _ _) with (nd G id) by (unfold nd; by rewrite Ek, Ei). apply wp_bind, wp_Node_Reset; [done|by rewrite Ek|].
    intros s1 H1. apply wp_bind, (wp_ng_free s1 (reset_node G id) k H1 Hh), wp_bind, (wp_put_ng_free s1 (reset_node G id) k H1 Hh); [cbn; lia|].
    intros s2 H2. apply wp_ret. apply (HQ s2 _ id [] H2 Ht).
  - rewrite (proj2 (Z.ltb_lt _ _)) by (cbn; lia). cbn in Hr. destruct Hr as [Et _].
    apply wp_bind, wp_dele_top; [done..|]. rewrite Et. pose proof (Hi x ltac:(by left)) as Hx.
    pose proof (takes_released x xs E) as Ht. set (id := 256 * k + x) in *. assert (Ek : id / 256 = k) by zdm. assert (Ei : id mod 256 = x) by zdm.
    replace (mkNd _ _) with (nd G id) by (unfold nd; by rewrite Ek, Ei). apply wp_bind, wp_Node_Reset; [done|by rewrite Ek|].
    intros s1 H1. apply wp_bind, (wp_dele_count s1 (reset_node G id) k H1 Hh), wp_bind.
    replace (hdr (reset_node G id) k SCount - 1) with (Z.of_nat (length xs)) by (cbn [reset_node hdr upd upd_dirty upd_lru upd_nxt]; rewrite Hc; cbn [length]; lia).
    apply (wp_put_dele_count s1 (reset_node G id) k H1 Hh); [cbn [length] in Hlen; lia|]. intros s2 H2. set (G2 := upd _ _ (reset_node G id)) in *.
    assert (Hg2 : set_geo G2 (id / 256)) by (rewrite Ek; by apply (set_geo_upd (LSet k SCount))).
    apply wp_bind, (wp_vd_handle s2 G2 id H2 Hg2), wp_bind, (wp_put_dele_top s2 G2 k H2 Hh).
    { pose proof (wrap_range 8 (vdh G2 id) ltac:(lia)) as Hw. unfold is_u in Hw. unfold u8. lia. }
    intros s3 H3. apply wp_ret. apply (HQ s3 _ id xs H3 Ht).
Qed.
End Take.

(** ** What taking a node does to the table *)

Section Taken.
Context (p : Pool) (G G' : table) (N : gset Z) (L st NL : Z -> list Z) (k id : Z) (xs : list Z).
Hypothesis HT : table_ok p G N L st NL.
Hypothesis Hk : 1 <= k < nsets G.
Hypothesis HW : takes G G' st k id xs.

Lemma takes_id : 256 <= id < 256 * nsets G /\ id ∉ N.
Proof.
  destruct HW as [Ek _ Hn _ _]. split; [zdm|]. intros Hin. apply Hn. by apply (no_live _ _ _ (tb_nodes _ _ _ _ _ _ HT)) in Hin as [_ ?].
Qed.
Lemma takes_unlisted : ~ listed heads L id.
Proof.
  destruct takes_id as [Hid Hn]. intros (h & Hh & Hin). apply elem_of_cons in Hin as [->|Hin].
  - unfold heads in Hh. rewrite !elem_of_cons, elem_of_nil in Hh. lia.
  - by apply Hn, (ls_in _ _ _ (tb_lists _ _ _ _ _ _ HT) h id).
Qed.
Lemma takes_kept : kept N G G' /\ nxt G' id = INVALID_NODE_ID /\ dirty_bit G' id = false.
Proof.
  destruct (tk_frame _ _ _ _ _ _ HW) as [F1 F2 F3 F4 F5 F6 F7 F8 F9 F10 F11 F12 F13 F14]. split.
  - split; try congruence; [|lia|].
    + intros x Hx. destruct takes_id as [_ Hn]. assert (x <> id) by congruence. rewrite F10, F11, F13 by done. by rewrite !decide_False.
    + intros j Hj. destruct (decide (j = k)) as [->|]; [apply HW|]. rewrite F14; [done|left; rewrite (tk_in _ _ _ _ _ _ HW); congruence].
  - by rewrite F11, F13, !decide_True.
Qed.

Lemma takes_parts : parts_ok G' ({[id]} ∪ N) L (<[k := xs]> st).
Proof.
  destruct HT as [_ HB _ HY HN _ _ _ [L1 L2] _]. pose proof (tk_in _ _ _ _ _ _ HW) as Ek. pose proof (tk_frame _ _ _ _ _ _ HW) as HF.
  destruct takes_id as [Hid _]. split.
  - by apply (frame_base G G' id).
  - apply (frame_sys G G' id HF st); [lia|rewrite fn_lookup_insert_ne by lia; done|done].
  - apply (frame_nodes G G' id HF N); [done|done|apply HW| |].
    + intros x Ex. rewrite elem_of_union, elem_of_singleton, (no_live _ _ _ HN), (tk_taken _ _ _ _ _ _ HW x Ex). unfold taken. naive_solver.
    + intros x Hx. rewrite elem_of_union, elem_of_singleton. split; [intros [->|?]; [congruence|done]|by right].
  - split; [|intros h x Hh Hx; apply elem_of_union_r; by eapply L2]. rewrite (nr_nsets _ _ _ HF).
    apply (frame_lru G G' id); [done|lia|apply takes_unlisted|done].
Qed.

Lemma takes_rest : ng_ok G' NL /\ index_ok G' /\ info G' = info G /\ (forall j, 0 <= j < nsets G -> j <> k -> 0 < hdr G' j SFree -> filled G' j).
Proof.
  pose proof (tk_frame _ _ _ _ _ _ HW) as HF. pose proof (tk_in _ _ _ _ _ _ HW) as Ek. split; [|split; [|split]].
  - apply (frame_ng G G' id); [done|apply HT].
  - apply (frame_index G G' id); [done|apply HT].
  - apply HF.
  - intros j Hj Hne. rewrite (nr_hdr _ _ _ HF) by (left; congruence). intros Hfree. apply (frame_filled G G' id HF).
    by apply (tb_filled _ _ _ _ _ _ HT).
Qed.
End Taken.
End Ops.
