(* ===== verification/NodeAllot.v ===== *)
(** [allocate_node] hands out a node that the index knows, [release_node] takes it back. *)
From Stdlib Require Import ZArith Lia.
From stdpp Require Import functions base list list_numbers numbers gmap.
From S2P Require Import Prelude PtMalloc PtSpec Mallocator NodeTable NodeRep NodeAcc NodeLru NodeGroup NodeNg NodeInv NodeAlloc NodeOps.
Import AllocSpec.
Local Open Scope Z_scope.

(** A group is entered into the index: a second-level map may be new. *)
Record indexed (G G' : table) (k : Z) : Prop := {
  xd_hof r : (forall i, r <> RSecond i) -> hof G' r = hof G r;
  xd_second i : hof G (RSecond i) <> 0 -> hof G' (RSecond i) = hof G (RSecond i);
  xd_nsets : nsets G' = nsets G;
  xd_nbkt : nbkt G' = nbkt G;
  xd_rest : rest G' = rest G;
  xd_index : index_ok G';
  xd_filled : filled G' k;
  xd_others j : 0 <= j < nsets G -> filled G j -> filled G' j;
  xd_val l : (match l with LFi _ | LUsed _ | LSi _ => False | _ => True end) -> val G' l = val G l
}.
Lemma indexed_kept N G G' k : indexed G G' k -> kept N G G'.
Proof.
  intros [X1 X2 X3 X4 X5 X6 X7 X8 X9]. split; try done.
  - intros r Hr. destruct r; try by apply X1. by apply X2.
  - by apply X1.
  - intros x _. split; [by apply (X9 (LNext x))|]. split; [by apply (X9 (LVd x))|]. unfold dirty_bit. f_equal. by apply (X9 (LDirty _)).
  - intros f. by apply (X9 (LHash f)).
  - intros i. by apply (X9 (LBucket i)).
  - intros f _. by apply (X9 (LInfo f)).
  - lia.
  - intros j _. by rewrite (X9 (LSet j SFree) I : hdr G' j SFree = hdr G j SFree).
Qed.
Lemma indexed_calm G G' k : indexed G G' k -> calm G G'.
Proof. intros [X1 X2 X3 X4 X5 X6 X7 X8 X9]. split; [by apply X1|intros j; by apply X1|done|]. intros l Hl. apply X9. by destruct l. Qed.
Lemma indexed_ng G G' k L : indexed G G' k -> ng_ok G L -> ng_ok G' L.
Proof.
  intros [X1 X2 X3 X4 X5 X6 X7 X8 X9]. apply ng_ok_ext; [by apply X1|intros j; by apply X1|done|].
  intros x b. rewrite <-!val_name_cell. apply X9. unfold name_cell. by repeat case_match.
Qed.
Lemma info_ng f v G L : f ∉ [IFreePrev; IFreeNext; IFullPrev; IFullNext] -> ng_ok G L -> ng_ok (upd (LInfo f) v G) L.
Proof.
  intros Hf. apply ng_ok_ext; [done..|]. intros x b. rewrite <-!val_name_cell. apply val_upd_ne.
  unfold name_cell. repeat case_match; try done; intros [= ->]; set_solver.
Qed.

(** A new second-level map of the index. *)
Definition new_map (i v : Z) (G : table) : table := upd (LFi i) v (adopt (RSecond i) v (nbkt G) G).
Section NewMap.
Context (i : Z) (G : table) (v : Z).
Lemma new_map_hof : hof (new_map i v G) (RSecond i) = v /\ forall r, r <> RSecond i -> hof (new_map i v G) r = hof G r.
Proof. split; [apply fn_lookup_insert|]. intros r Hr. by apply fn_lookup_insert_ne. Qed.
Lemma new_map_val l : l <> LFi i -> lrole l <> RSecond i -> val (new_map i v G) l = val G l.
Proof. intros Hl Hr. unfold new_map. rewrite val_upd_ne by congruence. rewrite val_adopt. by rewrite decide_False. Qed.
Lemma new_map_index : index_ok G -> index_ok (new_map i v G).
Proof.
  intros [Hf Hfi]. destruct new_map_hof as [Hh Hr]. split; [by rewrite Hr|]. intros j Hj. destruct (decide (j = i)) as [->|Hne].
  - rewrite Hh. apply (val_upd (LFi i)).
  - rewrite Hr, <-Hfi by congruence. by apply (new_map_val (LFi j)); [congruence|].
Qed.
Lemma new_map_base : base_ok G -> base_ok (new_map i v G).
Proof. intros [B1 B2 B3 B4 B5 B6]. by split. Qed.
End NewMap.

(** Tables that hold the same. *)
Record same_vals (G G' : table) : Prop := {
  sv_hof : hof G' = hof G;
  sv_nsets : nsets G' = nsets G;
  sv_nbkt : nbkt G' = nbkt G;
  sv_rest : rest G' = rest G;
  sv_val l : val G' l = val G l
}.
Lemma same_kept N G G' : same_vals G G' -> kept N G G'.
Proof.
  intros [V1 V2 V3 V4 V5]. split; try congruence; [|intros f; apply (V5 (LHash f))|intros i; apply (V5 (LBucket i))|intros f _; apply (V5 (LInfo f))|lia|intros k _; rewrite (V5 (LSet k SFree) : hdr G' k SFree = _); reflexivity].
  intros x _. unfold dirty_bit. by rewrite (V5 (LNext x) : nxt G' x = _), (V5 (LVd x) : vdh G' x = _), (V5 (LDirty (x / 64)) : dirty G' (x / 64) = _).
Qed.

(** What a node needs to be found. *)
Lemma ready_ext G G' x : hof G' = hof G -> (forall f, (match f with SNid | SOff _ => True | _ => False end) -> hdr G' (x / 256) f = hdr G (x / 256) f) ->
  (forall i, fih G' i = fih G i) -> (forall k, sih G' k = sih G k) -> ready G x -> ready G' x.
Proof.
  intros E1 E2 E3 E4 [(H0 & H1 & Hh & Hn & Ho) (F1 & F2 & F3 & F4)]. unfold ready, set_geo, filled. rewrite E1, E3, E4, E2 by done.
  split; [|done]. do 4 (split; [done|]). intros t Ht. rewrite E2 by done. by apply Ho.
Qed.

(** A table whose index could not take a new node: the heads and the nodes found before are
    still there. *)
Record short (p : Pool) (G : table) (N : gset Z) : Prop := {
  so_linked : linked p G;
  so_index : index_ok G;
  so_zone : info G ISys = hof G (RSet 0);
  so_ready x : x ∈ heads \/ x ∈ N -> ready G x;
  so_near h : h ∈ heads -> ready G (lru G h true)
}.

Section Allot.
Context {S : Type} `{!Mallocator S, !MallocatorLaws S}.
Implicit Types (s : S) (G : table) (p : Pool).
#[local] Abbreviation PS := (ST (Pool * S)).

Lemma Rep_handle s G r : Rep s G -> hof G r <> 0 -> 0 < hof G r < 2 ^ 64.
Proof. intros (A & HA & HG) Hr. destruct (ih_block A G HG r Hr) as (bs & Hb & _). apply (heap_handle s A); [done|by exists bs]. Qed.

Section Insert.
Context (p : Pool) (id : Z).
#[local] Abbreviation k := (id / 256).
#[local] Abbreviation i := (k / 65536).

(** The end of [Insert], when the second-level map is there. *)
Lemma index_tail s G G0 (Q : Z -> Pool * S -> Prop) : Rep s G -> linked p G -> base_ok G -> 0 <= k < nsets G -> index_ok G -> hof G (RSecond i) <> 0 ->
  (forall s', Rep s' (upd (LSi k) (hof G (RSet k)) (upd (LUsed i) (u32 (siu G i + 1)) G)) -> Q 0 (p, s')) ->
  hof G0 (RSet k) = hof G (RSet k) ->
  wp (pt ← shm (mread 8 (fi_h (_firstIndex p) (OFFSET1 id))); u ← shm (mread 4 pt); shm (mwrite 4 pt (u32 (u + 1)));;
    shm (mwrite 8 (si_h pt (OFFSET2 id)) (owner (nd G0 id)));; mret 0) (p, s) Q.
Proof.
  intros HR (Ef & _) HB Hk [Hf Hfi] Hs HQ E0. destruct (bo_geo G HB k Hk) as (_ & Hk2 & Hh & _). pose proof (Z.mod_pos_bound id 256 ltac:(lia)).
  assert (Hid : 0 <= id < 2 ^ 32) by (pose proof (Z.div_mod id 256 ltac:(lia)); lia). destruct (offsets id Hid) as [O1 O2].
  destruct (set_small G k HB Hk) as [_ Hi]. cbn [owner nd]. rewrite E0, Ef, O1, O2.
  apply wp_bind, wp_shm, (wp_rd s G (LFi i)); [done|by split|unfold fi_h; cbn [lrole loff]; lia|done|]. cbn [val]. rewrite Hfi by done.
  apply wp_bind, wp_shm, (wp_rd s G (LUsed i)); [done|by split|cbn [lrole loff]; lia|done|]. cbn [val].
  apply wp_bind, wp_shm, (wp_wr s G (LUsed i)); [done|by split|cbn [lrole loff]; lia|done|]. intros s1 H1.
  replace (u32 (siu G i + 1) mod 256 ^ Z.of_nat 4) with (u32 (siu G i + 1)) in H1 by (symmetry; apply Z.mod_small, (wrap_range 32); lia).
  set (G1 := upd (LUsed i) _ G) in *. apply wp_bind, wp_shm, (wp_wr s1 G1 (LSi k)); [done|by split|unfold si_h; cbn [lrole loff]; change (hof G1) with (hof G); lia|done|].
  intros s2 H2. rewrite Z.mod_small in H2 by (pose proof (Rep_handle s G (RSet k) HR Hh); change (256 ^ Z.of_nat 8) with (2 ^ 64); lia).
  by apply wp_ret, HQ.
Qed.

Lemma tail_indexed G : base_ok G -> 0 <= k < nsets G -> index_ok G -> hof G (RSecond i) <> 0 ->
  indexed G (upd (LSi k) (hof G (RSet k)) (upd (LUsed i) (u32 (siu G i + 1)) G)) k.
Proof.
  intros HB Hk [Hf Hfi] Hs. destruct (set_small G k HB Hk) as [_ Hi]. split; try done.
  - unfold filled. cbn. rewrite fn_lookup_insert, Hfi by done. done.
  - intros j Hj (F1 & F2 & F3 & F4). unfold filled. cbn. do 3 (split; [done|]).
    destruct (decide (j = k)) as [->|]; [by rewrite fn_lookup_insert|by rewrite fn_lookup_insert_ne].
  - by intros [].
Qed.

(** A new second-level map takes the group in. *)
Lemma new_map_indexed G G' v : hof G (RSecond i) = 0 -> v <> 0 -> indexed (new_map i v G) G' k -> indexed G G' k.
Proof.
  intros E0 Hv [X1 X2 X3 X4 X5 X6 X7 X8 X9]. destruct (new_map_hof i G v) as [Hh Hr]. split; try done.
  - intros r Hne. rewrite X1 by done. by apply Hr.
  - intros j Hj. assert (j <> i) by (intros ->; done). rewrite X2; rewrite Hr by congruence; done.
  - intros j Hj Hfj. apply X8; [done|]. destruct Hfj as (F1 & F2 & F3 & F4). assert (Hji : j / 65536 <> i) by (intros Hji; rewrite Hji in *; congruence).
    unfold filled. rewrite !Hr by congruence. do 2 (split; [done|]). split.
    + rewrite <-F3. apply (new_map_val i G v (LFi (j / 65536))); [congruence|done].
    + rewrite <-F4. apply (new_map_val i G v (LSi j)); [done|cbn; congruence].
  - intros l Hl. rewrite X9 by done. apply new_map_val; by destruct l.
Qed.

Lemma wp_Index_Insert s G (Q : Z -> Pool * S -> Prop) : Rep s G -> linked p G -> base_ok G -> 0 <= k < nsets G -> index_ok G ->
  (forall s' G', Rep s' G' -> indexed G G' k -> Q 0 (p, s')) ->
  (forall s' G', Rep s' G' -> same_vals G G' -> hof G (RSecond i) = 0 -> Q (-1) (p, s')) -> wp (Index_Insert (nd G id)) (p, s) Q.
Proof.
  intros HR Hp HB Hk HI HQ1 HQ2. pose proof Hp as (Ef & Ei & Hi0). pose proof HI as [Hf Hfi]. destruct (bo_geo G HB k Hk) as (_ & Hk2 & Hh & _).
  pose proof (Z.mod_pos_bound id 256 ltac:(lia)). assert (Hid : 0 <= id < 2 ^ 32) by (pose proof (Z.div_mod id 256 ltac:(lia)); lia).
  destruct (offsets id Hid) as [O1 O2]. destruct (set_small G k HB Hk) as [_ Hi]. unfold Index_Insert, INVALID_HANDLE.
  apply wp_bind, wp_shm, (wp_node_id s G id HR); [by apply HB|]. apply wp_member. apply wp_bind, wp_shm.
  apply (wp_rd s G (LFi i)); [done|by split|rewrite Ef, O1; unfold fi_h; cbn [lrole loff]; lia|done|]. cbn [val]. rewrite Hfi by done.
  destruct (Z.eqb_spec (hof G (RSecond i)) 0) as [E0|Hs].
  2: { apply wp_bind, wp_ret. cbn [negb]. apply (index_tail s G G); try done. intros s1 H1. apply (HQ1 s1 _ H1). by apply tail_indexed. }
  assert (Hb0 : 0 <= nbkt G) by (destruct HR as (A & _ & HG); apply HG). apply wp_bind, wp_bind, wp_shm.
  destruct (Rep_calloc s G (RSecond i) (nbkt G) INDEX_2_SIZE HR E0 Hb0 (or_intror eq_refl)) as (v & s1 & E & Hc); [done|].
  exists v, s1. split; [exact E|]. clear E. destruct Hc as [[-> HR1]|(Hv & Hfree & HR1)].
  - apply wp_bind, wp_shm, (wp_wr s1 G (LFi i)); [done|by split|rewrite Ef, O1; unfold fi_h; cbn [lrole loff]; lia|done|].
    intros s2 H2. set (G2 := upd _ _ G) in *. apply wp_bind, wp_shm, (wp_rd s2 G2 (LFi i)); [done|by split|rewrite Ef, O1; unfold fi_h; cbn [lrole loff]; change (hof G2) with (hof G); lia|done|].
    unfold G2. rewrite val_upd. apply wp_ret, wp_ret. apply (HQ2 s2 G2); [done| |done]. split; try done.
    intros l. destruct (decide (l = LFi i)) as [->|Hne]; [unfold G2; rewrite val_upd; cbn [val]; by rewrite Hfi|by apply val_upd_ne].
  - set (G1 := adopt (RSecond i) v (nbkt G) G) in *. destruct (new_map_hof i G v) as [Hv1 Hr1].
    assert (Hv2 : 0 < v < 2 ^ 64) by (rewrite <-Hv1; apply (Rep_handle s1 G1); [done|]; change (hof G1) with (hof (new_map i v G)); by rewrite Hv1).
    assert (Hf1 : hof G1 RFirst = hof G RFirst) by by apply Hr1. assert (Hl1 : llive G1 (LFi i)) by (split; [cbn [lrole]; by rewrite Hf1|done]).
    apply wp_bind, wp_shm, (wp_wr s1 G1 (LFi i)); [done|done|rewrite Ef, O1; unfold fi_h; cbn [lrole loff]; lia|done|].
    intros s2 H2. rewrite Z.mod_small in H2 by (change (256 ^ Z.of_nat 8) with (2 ^ 64); lia). change (upd (LFi i) v G1) with (new_map i v G) in H2.
    set (G2 := new_map i v G) in *. change (hof G1) with (hof G2) in *.
    apply wp_bind, wp_shm, (wp_rd s2 G2 (LFi i)); [done|done|rewrite Ef, O1; unfold fi_h; cbn [lrole loff]; lia|done|].
    unfold G2 at 1, new_map. rewrite val_upd. apply wp_ret. rewrite (proj2 (Z.eqb_neq v 0)) by done. cbn [negb].
    pose proof (new_map_base i G v HB) as HB2. pose proof (new_map_index i G v HI) as HI2. assert (Hs2 : hof G2 (RSecond i) <> 0) by by rewrite Hv1.
    apply (index_tail s2 G2 G); [done|split; [|split]; by rewrite Hr1|done|done|done|done| |by rewrite Hr1].
    intros s3 H3. apply (HQ1 s3 _ H3), (new_map_indexed G _ v E0 Hv). by apply tail_indexed.
Qed.
End Insert.

(** ** The list of a group that has become full, or has room again *)

Lemma first_split (NL : Z -> list Z) h k : k ∈ NL h -> exists l r, NL h = l ++ k :: r.
Proof. apply list_elem_of_split. Qed.

(** The group [k] moves from the list [h] to the list [h']. *)
Lemma wp_move_group p s G NL h h' k (head : Z -> Z) (Q : unit -> Pool * S -> Prop) : Rep s G -> linked p G -> ng_ok G NL -> h ∈ ng_heads -> h' ∈ ng_heads -> h <> h' ->
  0 <= k -> k ∈ NL h -> head (hof G RInfo) = name_addr G h' ->
  (forall s' G' l r, Rep s' G' -> ng_frame G G' -> NL h = l ++ k :: r -> ng_ok G' (<[h' := k :: NL h']> (<[h := l ++ r]> NL)) -> Q tt (p, s')) ->
  wp (list_del (hof G (RSet k));; ni ← member _ngInfo; shm (NG_LIST_ADD (hof G (RSet k)) (head ni))) (p, s) Q.
Proof.
  intros HR (Ef & Ei & Hi) Hng Hh Hh' Hne Hk Hin Ehd HQ. destruct (first_split NL h k Hin) as (l & r & E).
  rewrite <-(name_addr_set G k Hk). apply wp_bind, wp_shm, (ng_del s G NL h l k r); [done..|].
  intros s1 G1 H1 F1 Hng1 Hnl. apply wp_member. rewrite Ei, Ehd.
  assert (Hkn : named G1 k). { destruct Hng as (f & _ & _ & _ & Hn). apply (ng_frame_named G); [done|]. apply Hn. exists h. split; [done|by right]. }
  rewrite <-!(ng_frame_addr G G1) by done.
  apply wp_shm, (ng_add s1 G1 (<[h := l ++ r]> NL) h' k); [done|by rewrite (nf_hof _ _ F1)|done|done|done|done|].
  intros s2 G2 H2 F2 Hng2. rewrite fn_lookup_insert_ne in Hng2 by done. apply (HQ s2 G2 l r); [done|by eapply ng_frame_trans|done|done].
Qed.

(** The lists after a move. *)
Lemma moved_lists G G' (st st' NL : Z -> list Z) h h' k l r : ng_ok G NL -> groups_ok G st NL -> 1 <= k < nsets G -> h ∈ ng_heads -> h' ∈ ng_heads -> h <> h' ->
  NL h = l ++ k :: r -> nsets G' = nsets G -> ng_ok G' (<[h' := k :: NL h']> (<[h := l ++ r]> NL)) ->
  (forall j, j <> k -> st' j = st j /\ hdr G' j SFree = hdr G j SFree) -> (h' = -2 <-> is_full G' k (st' k)) ->
  groups_ok G' st' (<[h' := k :: NL h']> (<[h := l ++ r]> NL)).
Proof.
  intros Hng [_ S2 S3] Hk Hh Hh' Hne E En Hng' Hj Hf. destruct Hng as (f & _ & _ & HL & _).
  assert (Hnd : k ∉ l ++ r /\ k ∉ NL h').
  { pose proof (rg_nodup _ _ _ HL h Hh) as Hn. rewrite E in Hn. apply NoDup_cons in Hn as [_ Hn]. rewrite <-Permutation_middle in Hn. apply NoDup_cons in Hn as [Hn _].
    split; [done|]. intros Hin. apply Hne, (rg_apart _ _ _ HL h h' k Hh Hh'); [rewrite E; lmem|by right]. }
  assert (Hin : forall j g, g ∈ ng_heads -> j <> k -> j ∈ <[h' := k :: NL h']> (<[h := l ++ r]> NL) g <-> j ∈ NL g).
  { intros j g Hg Hjk. destruct (decide (g = h')) as [->|Hg']; [rewrite fn_lookup_insert, elem_of_cons; naive_solver|]. rewrite fn_lookup_insert_ne by done.
    destruct (decide (g = h)) as [->|Hg'']; [rewrite fn_lookup_insert, E; set_solver|by rewrite fn_lookup_insert_ne]. }
  assert (Hk' : forall g, g ∈ ng_heads -> k ∈ <[h' := k :: NL h']> (<[h := l ++ r]> NL) g <-> g = h').
  { intros g Hg. destruct (decide (g = h')) as [->|Hg']; [rewrite fn_lookup_insert; split; [done|by left]|]. rewrite fn_lookup_insert_ne by done.
    split; [|done]. destruct (decide (g = h)) as [->|Hg'']; [rewrite fn_lookup_insert; by intros ?%Hnd|]. rewrite fn_lookup_insert_ne by done.
    intros Hkg. destruct Hg''. apply (rg_apart _ _ _ HL g h k Hg Hh); [by right|rewrite E; lmem]. }
  assert (H1 : -1 ∈ ng_heads) by by left. assert (H2 : -2 ∈ ng_heads) by (right; by left).
  split; [done| |].
  - intros j. rewrite En. destruct (decide (j = k)) as [->|Hjk]; [|rewrite !Hin by done; apply S2]. rewrite !Hk' by done. split; [done|].
    intros _. unfold ng_heads in Hh'. rewrite !elem_of_cons, elem_of_nil in Hh'. naive_solver.
  - intros j Hj'. rewrite En in Hj'. destruct (decide (j = k)) as [->|Hjk]; [by rewrite Hk', <-Hf by done|].
    rewrite Hin, (S3 j Hj') by done. unfold is_full. by destruct (Hj j Hjk) as [-> ->].
Qed.

Lemma groups_calm G G' st NL : calm G G' -> ng_ok G' NL -> groups_ok G st NL -> groups_ok G' st NL.
Proof.
  intros HC Hng [_ S2 S3]. split; rewrite ?(ca_nsets _ _ HC); [done|done|]. intros k Hk. rewrite S3 by done.
  unfold is_full. by rewrite (ca_val _ _ HC (LSet k SFree) I : hdr G' k SFree = hdr G k SFree).
Qed.

(** The number of nodes handed out fits into its word. *)
Lemma size_small (N : gset Z) n : 1 <= n -> (forall x, x ∈ N -> 256 <= x < 256 * n) -> Z.of_nat (size N) <= 256 * n - 256.
Proof.
  intros Hn H. transitivity (Z.of_nat (size (list_to_set (seqZ 256 (256 * n - 256)) : gset Z))).
  - apply inj_le, subseteq_size. intros x Hx%H. apply elem_of_list_to_set, elem_of_seqZ. lia.
  - rewrite size_list_to_set by apply NoDup_seqZ. rewrite length_seqZ. lia.
Qed.

Section Allotted.
Context (p : Pool) (G1 G2 G3 G5 : table) (N : gset Z) (L st NL NL' : Z -> list Z) (k id : Z) (xs : list Z).
#[local] Abbreviation G4 := (upd (LInfo IUsedNode) (info G3 IUsedNode + 1) G3).
Hypothesis HT : table_ok p G1 N L st NL.
Hypothesis Hk : 1 <= k < nsets G1.
Hypothesis HW : takes G1 G2 st k id xs.
Hypothesis HF : ng_frame G2 G3.
Hypothesis HGr : groups_ok G3 (<[k := xs]> st) NL'.
Hypothesis HX : indexed G4 G5 k.

Lemma allot_table : table_ok p G5 ({[id]} ∪ N) L (<[k := xs]> st) NL'.
Proof.
  pose proof (takes_parts p G1 G2 N L st NL k id xs HT Hk HW) as HP. destruct (takes_rest p G1 G2 N L st NL k id xs HT HW) as (Hng & HI & Ei & Hfil).
  destruct (takes_id p G1 G2 N L st NL k id xs HT Hk HW) as [_ Hid]. destruct (tk_frame _ _ _ _ _ _ HW) as [F1 F2 F3 F4 F5 F6 F7 F8 F9 _ _ _ _ _].
  assert (C23 : calm G2 G3) by by apply calm_ng. assert (C34 : calm G3 G4) by (split; try done; intros l Hl; apply val_upd_ne; intros <-; done).
  assert (C45 : calm G4 G5) by by apply (indexed_calm _ _ k). assert (C25 : calm G2 G5) by (eapply calm_trans; [exact C23|by eapply calm_trans]).
  pose proof HX as [X1 X2 X3 X4 X5 X6 X7 X8 X9]. destruct (calm_parts G2 G5 _ _ _ C25 HP) as [PB PY PN PL].
  destruct (tb_linked _ _ _ _ _ _ HT) as (E1 & E2 & E3). split; try done.
  - unfold linked. rewrite !X1, upd_hof, !(nf_hof _ _ HF), F1 by done. done.
  - intros j Hj Hfree. rewrite (ca_nsets _ _ C25), F2 in Hj. destruct (decide (j = k)) as [->|Hne]; [done|].
    rewrite (ca_val _ _ C25 (LSet j SFree) I : hdr G5 j SFree = hdr G2 j SFree) in Hfree. specialize (Hfil j Hj Hne Hfree).
    apply X8; [rewrite upd_nsets, (nf_nsets _ _ HF), F2; done|]. unfold filled in *. rewrite upd_hof. cbn [fih sih upd upd_info]. by rewrite (nf_hof _ _ HF), (nf_fih _ _ HF), (nf_sih _ _ HF).
  - rewrite (X9 (LInfo IUsedNode) I : info G5 IUsedNode = info G4 IUsedNode). cbn. rewrite fn_lookup_insert, (nf_info _ _ HF), Ei, (tb_used _ _ _ _ _ _ HT) by done.
    rewrite size_union by set_solver. rewrite size_singleton. lia.
  - apply (groups_calm G3); [by eapply calm_trans|apply (indexed_ng G4 G5 k); [done|by apply info_ng; [set_solver|apply HGr]]|done].
  - by apply (tb_step _ _ _ _ _ _ HT).
Qed.
Lemma allot_kept : kept N G1 G5 /\ nxt G5 id = INVALID_NODE_ID /\ dirty_bit G5 id = false.
Proof.
  destruct (takes_kept p G1 G2 N L st NL k id xs HT Hk HW) as (K12 & Hn & Hd).
  assert (K25 : kept ({[id]} ∪ N) G2 G5).
  { apply (kept_trans _ _ G3); [by apply kept_ng|]. apply (kept_trans _ _ G4); [|by apply (indexed_kept _ _ _ k)].
    split; try done. intros f Hf. cbn. rewrite fn_lookup_insert_ne; [done|intros <-; set_solver]. }
  split; [|destruct (kp_node _ _ _ K25 id) as (-> & _ & ->); [set_solver|done]].
  apply (kept_trans _ _ G2); [done|]. eapply kept_weaken; [|exact K25]. set_solver.
Qed.
End Allotted.

(** The outcome of [allocate_node] when a node was found: it is a new one, and the index
    knows it unless a second-level map could not be had. *)
Definition allotted (p : Pool) G (N : gset Z) (L : Z -> list Z) (Q : Node -> Pool * S -> Prop) : Prop :=
  (forall p' s' G' st' NL' id, Rep s' G' -> table_ok p' G' ({[id]} ∪ N) L st' NL' -> id ∉ N -> kept N G G' -> nxt G' id = INVALID_NODE_ID -> dirty_bit G' id = false ->
    (exists step fail, p' = set_alloc step fail p) -> Q (nd G' id) (p', s')) /\
  (forall p' s' G' id, Rep s' G' -> short p' G' N -> kept N G G' -> set_geo G' (id / 256) -> hof G' (RSecond (id / 256 / 65536)) = 0 ->
    (exists step fail, p' = set_alloc step fail p) -> Q (nd G' id) (p', s')).

Section Taking.
Context (p : Pool) (G1 G2 : table) (N : gset Z) (L st NL : Z -> list Z) (k id : Z) (xs : list Z).
Hypothesis HT : table_ok p G1 N L st NL.
Hypothesis Hk : 1 <= k < nsets G1.
Hypothesis HW : takes G1 G2 st k id xs.

(** The group goes to the full ones if the node was its last. *)
Lemma allot_lists s (l : list Z) (Q : unit -> Pool * S -> Prop) : Rep s G2 -> NL (-1) = k :: l ->
  (forall s' G' NL', Rep s' G' -> ng_frame G2 G' -> groups_ok G' (<[k := xs]> st) NL' -> Q tt (p, s')) ->
  wp (if bool_decide (is_full G2 k xs) then list_del (hof G2 (RSet k));; full_list_add (hof G2 (RSet k)) else mret tt) (p, s) Q.
Proof.
  intros HR E HQ. destruct (takes_rest p G1 G2 N L st NL k id xs HT HW) as (Hng & _).
  pose proof (tk_frame _ _ _ _ _ _ HW) as HWF. pose proof (tk_in _ _ _ _ _ _ HW) as Ek. assert (Hn2 : nsets G2 = nsets G1) by apply HWF.
  assert (Hst : forall j, j <> k -> <[k := xs]> st j = st j /\ hdr G2 j SFree = hdr G1 j SFree).
  { intros j Hj. rewrite fn_lookup_insert_ne by done. split; [done|]. apply HWF. left. congruence. }
  pose proof (tb_groups _ _ _ _ _ _ HT) as HG. case_bool_decide as Hfull.
  - assert (Hlk : linked p G2) by (unfold linked; rewrite (nr_hof _ _ _ HWF); apply HT).
    apply (wp_move_group p s G2 NL (-1) (-2) k ni_full_head); [done|done|done|by left|by right; left|done|lia|rewrite E; by left|done|].
    intros s3 G3 l' r' HR3 HF3 E3 Hng3. apply (HQ s3 G3 (<[-2 := k :: NL (-2)]> (<[-1 := l' ++ r']> NL)) HR3 HF3).
    apply (moved_lists G1 G3 st _ NL (-1) (-2) k l' r'); [apply HG|done|done|by left|by right; left|done|done|by rewrite (nf_nsets _ _ HF3)|done| |].
    + intros j Hj. destruct (Hst j Hj) as [-> <-]. split; [done|]. by apply HF3.
    + rewrite fn_lookup_insert. unfold is_full in *. rewrite (nf_hdr _ _ HF3) by done. done.
  - apply wp_ret. apply (HQ s G2 NL HR (ng_frame_refl G2)). destruct HG as [S1 S2 S3]. split; rewrite ?Hn2; [done|done|].
    intros j Hj. rewrite S3 by done. destruct (decide (j = k)) as [->|Hj'].
    + rewrite fn_lookup_insert. split; [|done]. intros Hin%S3; [|done]. destruct S1 as (f & _ & _ & HL & _).
      assert (-1 = -2); [|done]. apply (rg_apart _ _ _ HL (-1) (-2) k); [by left|by right; left|rewrite E; right; by left|by right].
    + unfold is_full. by destruct (Hst j Hj') as [-> ->].
Qed.

(** The index fails. *)
Lemma allot_short G3 G5 : ng_frame G2 G3 -> same_vals (upd (LInfo IUsedNode) (info G3 IUsedNode + 1) G3) G5 -> short p G5 N /\ kept N G1 G5.
Proof.
  intros HF HV. set (G4 := upd _ _ G3) in *. destruct (takes_rest p G1 G2 N L st NL k id xs HT HW) as (_ & HI2 & Ei2 & _).
  destruct (takes_id p G1 G2 N L st NL k id xs HT Hk HW) as [Hid1 Hid]. pose proof (tk_frame _ _ _ _ _ _ HW) as HWF.
  assert (Eh : hof G5 = hof G1) by (rewrite (sv_hof _ _ HV); change (hof G4) with (hof G3); by rewrite (nf_hof _ _ HF), (nr_hof _ _ _ HWF)).
  assert (Ef : forall i, fih G5 i = fih G1 i) by (intros i; rewrite (sv_val _ _ HV (LFi i) : fih G5 i = _); change (fih G3 i = fih G1 i); by rewrite (nf_fih _ _ HF), (nr_fih _ _ _ HWF)).
  assert (Es : forall j, sih G5 j = sih G1 j) by (intros j; rewrite (sv_val _ _ HV (LSi j) : sih G5 j = _); change (sih G3 j = sih G1 j); by rewrite (nf_sih _ _ HF), (nr_sih _ _ _ HWF)).
  assert (El : forall h, h ∈ heads -> lru G5 h true = lru G1 h true).
  { intros h Hh. rewrite (sv_val _ _ HV (LLru h true) : lru G5 h true = _). change (lru G3 h true = lru G1 h true). rewrite (nf_lru _ _ HF), (nr_lru _ _ _ HWF).
    apply head_small in Hh. by rewrite decide_False by lia. }
  assert (Hrd : forall x, ready G1 x -> ready G5 x).
  { intros x. apply ready_ext; [done| |done|done]. intros f Hf. rewrite (sv_val _ _ HV (LSet (x / 256) f) : hdr G5 _ f = _). change (hdr G3 (x / 256) f = hdr G1 (x / 256) f).
    rewrite (nf_hdr _ _ HF) by by destruct f. apply HWF. right. destruct f; try done; set_solver. }
  assert (Ez : forall f, f <> IUsedNode -> f <> IFreePrev -> f <> IFreeNext -> f <> IFullPrev -> f <> IFullNext -> info G5 f = info G1 f).
  { intros f ? ? ? ? ?. rewrite (sv_val _ _ HV (LInfo f) : info G5 f = _). change (val G4 (LInfo f) = info G1 f). unfold G4. rewrite val_upd_ne by congruence.
    cbn [val]. by rewrite (nf_info _ _ HF), Ei2 by done. }
  destruct (tb_lists _ _ _ _ _ _ HT) as [[HL _] _]. split.
  - split.
    + unfold linked. rewrite Eh. apply HT.
    + destruct (tb_index _ _ _ _ _ _ HT). split; [by rewrite Eh|]. intros i Hi. rewrite Eh, Ef. auto.
    + rewrite Ez, Eh by done. apply HT.
    + intros x [Hx|Hx]; apply Hrd; [by apply (head_ready _ _ _ _ _ _ HT)|by apply (live_ready _ _ _ _ _ _ HT)].
    + intros h Hh. rewrite El by done. apply Hrd, (listed_ready _ _ _ _ _ _ HT h); [done|]. apply (listed_near _ _ _ HL); [done|by left].
  - destruct (takes_kept p G1 G2 N L st NL k id xs HT Hk HW) as (K12 & _). apply (kept_trans _ _ G2); [done|]. apply (kept_trans _ _ G3); [by apply kept_ng|].
    apply (kept_trans _ _ G4); [|by apply same_kept]. split; try done. intros f Hf. cbn. rewrite fn_lookup_insert_ne; [done|intros <-; set_solver].
Qed.

(** The node is counted and entered into the index. *)
Lemma allot_finish s G3 NL3 (Q : Node -> Pool * S -> Prop) : Rep s G3 -> ng_frame G2 G3 -> groups_ok G3 (<[k := xs]> st) NL3 -> allotted p G1 N L Q ->
  wp (if no_node (nd G2 id) then mret Node_Empty else
      ni ← member _ngInfo; shm (add_to 4 (ni_used_node ni) 1);; Index_Insert (nd G2 id);; mret (nd G2 id)) (p, s) Q.
Proof.
  intros HR HF HG3 [HQ1 HQ2]. pose proof (tk_frame _ _ _ _ _ _ HW) as HWF. pose proof (tk_in _ _ _ _ _ _ HW) as Ek.
  destruct (takes_rest p G1 G2 N L st NL k id xs HT HW) as (_ & HI2 & Ei2 & _). destruct (takes_id p G1 G2 N L st NL k id xs HT Hk HW) as [_ Hid].
  destruct (calm_parts G2 G3 ({[id]} ∪ N) L (<[k := xs]> st) (calm_ng _ _ HF) (takes_parts p G1 G2 N L st NL k id xs HT Hk HW)) as [HB3 _ _ _].
  assert (Hh3 : hof G3 = hof G2) by apply HF. assert (Hh2 : hof G2 = hof G1) by apply HWF.
  assert (Hn3 : nsets G3 = nsets G1) by (rewrite (nf_nsets _ _ HF); apply HWF). assert (Hk3 : 0 <= k < nsets G3) by lia.
  replace (nd G2 id) with (nd G3 id) by (unfold nd; by rewrite Hh3).
  assert (Hnn : no_node (nd G3 id) = false).
  { unfold no_node. cbn. rewrite Ek. apply orb_false_iff. split; [apply Z.eqb_neq, (bo_geo _ HB3 k Hk3)|apply Z.leb_gt]. by apply Z.mod_pos_bound. }
  rewrite Hnn. destruct (tb_linked _ _ _ _ _ _ HT) as (Ef & Ei & Hi). apply wp_member. rewrite Ei, <-Hh2, <-Hh3.
  assert (Hu : info G3 IUsedNode = Z.of_nat (size N)) by (rewrite (nf_info _ _ HF), Ei2 by done; apply HT).
  apply wp_bind, wp_shm, (wp_add_to s G3 (LInfo IUsedNode)); [done|split; [cbn [lrole]; by rewrite Hh3, Hh2|done]|done|done| |].
  { cbn [val]. rewrite Hu. pose proof (base_room _ _ HR HB3). change (256 ^ Z.of_nat 4) with (2 ^ 32).
    assert (Z.of_nat (size N) <= 256 * nsets G1 - 256); [|lia]. apply size_small; [lia|].
    intros x Hx. by apply (no_live _ _ _ (tb_nodes _ _ _ _ _ _ HT)) in Hx as [? _]. }
  intros s4 HR4. cbn [val] in HR4. set (G4 := upd _ _ G3) in *. change (nd G3 id) with (nd G4 id).
  apply wp_bind, (wp_Index_Insert p id s4 G4); [done|unfold linked; change (hof G4) with (hof G3); by rewrite Hh3, Hh2| |rewrite Ek; exact Hk3| |..].
  { destruct HB3 as [B1 B2 B3 B4 B5 B6]. by split. }
  { destruct HI2 as [I1 I2]. split; change (hof G4) with (hof G3); change (fih G4) with (fih G3); rewrite ?Hh3, ?(nf_fih _ _ HF); done. }
  - intros s5 G5 HR5 HX. rewrite Ek in HX. apply wp_ret.
    pose proof (allot_table p G1 G2 G3 G5 N L st NL NL3 k id xs HT Hk HW HF HG3 HX) as HT5.
    destruct (allot_kept p G1 G2 G3 G5 N L st NL NL3 k id xs HT Hk HW HF HG3 HX) as (HK5 & Hnx & Hd).
    replace (nd G4 id) with (nd G5 id) by (unfold nd; by rewrite (xd_hof _ _ _ HX)).
    eapply HQ1; [exact HR5|exact HT5|done|done|done|done|]. exists (alloc_step p), (alloc_fail p). by rewrite set_alloc_self.
  - intros s5 G5 HR5 HV H0. apply wp_ret. replace (nd G4 id) with (nd G5 id) by (unfold nd; by rewrite (sv_hof _ _ HV)).
    destruct (allot_short G3 G5 HF HV) as [HS HK]. apply (HQ2 p s5 G5 id HR5 HS HK); [|by rewrite (sv_hof _ _ HV)|exists (alloc_step p), (alloc_fail p); by rewrite set_alloc_self].
    destruct (bo_geo _ HB3 k Hk3) as (g0 & g1 & g2 & g3 & g4). rewrite Ek. unfold set_geo.
    rewrite (sv_hof _ _ HV), (sv_val _ _ HV (LSet k SNid) : hdr G5 k SNid = _). do 4 (split; [done|]). intros t Ht. rewrite (sv_val _ _ HV (LSet k (SOff t)) : hdr G5 k (SOff t) = _). by apply g4.
Qed.
End Taking.

Lemma wp_allocate_node p s G N L st NL (Q : Node -> Pool * S -> Prop) : Rep s G -> table_ok p G N L st NL ->
  (NL (-1) = [] -> forall s', Rep s' G -> Q Node_Empty (p, s')) -> allotted p G N L Q -> wp allocate_node (p, s) Q.
Proof.
  intros HR HT HQ0 [HQ1 HQ2]. unfold allocate_node. apply wp_bind, (wp_find_or_allocate p s G N L st NL _ HR HT).
  { intros E s' HR'. by apply wp_ret, HQ0. }
  intros p1 s1 G1 st1 NL1 k l HR1 HT1 HK1 (step & fail & Hp1) E1. pose proof (tb_groups _ _ _ _ _ _ HT1) as HG1.
  assert (Hk : 1 <= k < nsets G1) by (apply (gs_all _ _ _ HG1); left; rewrite E1; by left). assert (Hkn : 0 <= k < nsets G1) by lia.
  pose proof (bo_geo G1 (tb_base _ _ _ _ _ _ HT1) k Hkn) as Hg1. pose proof (no_group _ _ _ (tb_nodes _ _ _ _ _ _ HT1) k Hkn) as Hgr1.
  assert (Hfull1 : ~ is_full G1 k (st1 k)).
  { rewrite <-(gs_full _ _ _ HG1 k Hk). intros Hin. destruct (gs_lists _ _ _ HG1) as (f & _ & _ & HL & _).
    assert (-1 = -2); [|done]. apply (rg_apart _ _ _ HL (-1) (-2) k); [by left|by right; left|rewrite E1; right; by left|by right]. }
  apply wp_bind, wp_shm, (wp_set_allocate G1 k st1 Hg1 Hgr1 s1 _ HR1 Hfull1). intros s2 G2 id xs HR2 HW.
  assert (Hh2 : hof G2 = hof G1) by apply (tk_frame _ _ _ _ _ _ HW). rewrite <-Hh2.
  apply wp_bind, wp_shm, (wp_set_is_full s2 G2 k HR2 ltac:(rewrite Hh2; apply Hg1) xs); [apply HW|].
  apply wp_bind, (allot_lists p1 G1 G2 N L st1 NL1 k id xs HT1 Hk HW s2 l _ HR2 E1). intros s3 G3 NL3 HR3 HF3 HG3.
  apply (allot_finish p1 G1 G2 N L st1 NL1 k id xs HT1 Hk HW s3 G3 NL3 Q HR3 HF3 HG3). split.
  2: { intros p' s' G' x HR' HS' HK' Hg' H0 (step' & fail' & ->). eapply HQ2; [exact HR'|exact HS'|by eapply kept_trans|done|done|]. exists step', fail'. by rewrite Hp1. }
  intros p' s' G' st' NL' x HR' HT' Hx HK' Hnx Hd (step' & fail' & ->). eapply HQ1; [exact HR'|exact HT'|done|by eapply kept_trans|done|done|].
  exists step', fail'. by rewrite Hp1.
Qed.
End Allot.
