(* ===== verification/NodeRelease.v ===== *)
(** [release_node] takes a node back, and the eviction lists let nodes in and out. *)
From Stdlib Require Import ZArith Lia.
From stdpp Require Import functions base list list_numbers numbers gmap.
From S2P Require Import Prelude PtMalloc PtSpec Mallocator NodeTable NodeRep NodeAcc NodeLru NodeGroup NodeNg NodeInv NodeAlloc NodeOps NodeAllot.
Import AllocSpec.
Local Open Scope Z_scope.

(** The node [id] is put back into its group, in front of the released nodes. *)
Record gives (G G' : table) (st : Z -> list Z) (id : Z) : Prop := {
  gv_frame : node_frame G G' id;
  gv_group : group_ok G' (id / 256) (id mod 256 :: st (id / 256));
  gv_free : hdr G' (id / 256) SFree = hdr G (id / 256) SFree
}.
Definition given (G : table) (id : Z) : table :=
  let k := id / 256 in
  reset_node (upd (LSet k SCount) (hdr G k SCount + 1) (upd (LSet k STop) (id mod 256) (upd (LVd id) (hdr G k STop) G))) id.

Lemma given_gives G st id : group_ok G (id / 256) (st (id / 256)) -> taken G st id -> gives G (given G id) st id.
Proof.
  intros [Hf Hn Hi Hc Hr] [H1 H2]. set (k := id / 256) in *. pose proof (Z.mod_pos_bound id 256 ltac:(lia)) as Hx. split.
  - split; try done; [|exact (reset_nxt _ id)|exact (reset_lru _ id)|exact (reset_dirty _ id)|].
    + intros x Hx'. cbn. by rewrite fn_lookup_insert_ne.
    + intros k' f Hkf. cbn. fold k. destruct (decide (k' = k)) as [->|]; [|by rewrite !fn_lookup_insert_ne].
      rewrite !fn_lookup_insert, !fn_lookup_insert_ne; [done|intros <-; set_solver..].
  - split; cbn; fold k; rewrite ?fn_lookup_insert, ?fn_lookup_insert_ne by done; cbn; rewrite ?fn_lookup_insert, ?fn_lookup_insert_ne by done; cbn; try done.
    + by constructor.
    + intros x [->|?]%elem_of_cons; [lia|by apply Hi].
    + lia.
    + split; [done|]. replace (256 * k + id mod 256) with id by (unfold k; zdm). rewrite fn_lookup_insert.
      destruct (st k) as [|y ys] eqn:E; [done|]. destruct Hr as [Et Hr]. assert (Hy : 0 <= y < hdr G k SFree) by (apply Hi; by left).
      unfold u8. rewrite wrap_small by (unfold is_u; lia). apply (released_ext (vdh G)); [|by split]. intros z Hz. apply fn_lookup_insert_ne.
      intros E'. apply H2. replace (id mod 256) with z; [done|]. pose proof (Hi z Hz). zdm.
  - cbn. fold k. rewrite !fn_lookup_insert. by rewrite !fn_lookup_insert_ne.
Qed.

Section Release.
Context {S : Type} `{!Mallocator S, !MallocatorLaws S}.
Implicit Types (s : S) (G : table) (p : Pool).
#[local] Abbreviation PS := (ST (Pool * S)).

Lemma wp_Node_Release s G id xs (Q : Z * Node -> S -> Prop) : Rep s G -> set_geo G (id / 256) -> group_ok G (id / 256) xs ->
  (forall s', Rep s' (given G id) -> Q (0, Node_Empty) s') -> wp (Node_Release (nd G id)) s Q.
Proof.
  intros HR HG Hg HQ. assert (Hh : hof G (RSet (id / 256)) <> 0) by apply HG. pose proof (Z.mod_pos_bound id 256 ltac:(lia)).
  pose proof (group_len G (id / 256) xs Hg) as Hlen. assert (Hc : 0 <= hdr G (id / 256) SCount + 1 < 65536) by (rewrite (gr_count _ _ _ Hg); lia).
  assert (Ht : 0 <= hdr G (id / 256) STop < 65536) by (apply (Rep_val_range s G (LSet (id / 256) STop)); [done|by split]).
  unfold Node_Release, set_release_node. cbn [owner index nd]. apply wp_bind, wp_bind, (wp_dele_top s G (id / 256) HR Hh), wp_bind.
  change (mkNd (hof G (RSet (id / 256))) (id mod 256)) with (nd G id). apply (wp_put_vd_handle s G id HR HG); [lia|]. intros s1 H1. set (G1 := upd _ _ G) in *.
  apply wp_bind, (wp_put_dele_top s1 G1 (id / 256) H1 Hh); [lia|]. intros s2 H2. set (G2 := upd _ _ G1) in *.
  apply wp_bind, (wp_dele_count s2 G2 (id / 256) H2 Hh). apply wp_bind.
  replace (hdr G2 (id / 256) SCount) with (hdr G (id / 256) SCount).
  2: { change (hdr G (id / 256) SCount) with (val G1 (LSet (id / 256) SCount)). change (hdr G2 (id / 256) SCount) with (val G2 (LSet (id / 256) SCount)).
    symmetry. by apply val_upd_ne. }
  apply (wp_put_dele_count s2 G2 (id / 256) H2 Hh); [lia|]. intros s3 H3. set (G3 := upd _ _ G2) in *. apply wp_ret.
  change (nd G id) with (nd G3 id). apply wp_bind, wp_Node_Reset; [done| |].
  - by do 3 (apply set_geo_upd; [done|]).
  - intros s4 H4. by apply wp_ret, HQ.
Qed.

Section Given.
Context (p : Pool) (G G1 G3 : table) (N : gset Z) (L st NL NL' : Z -> list Z) (id : Z).
#[local] Abbreviation k := (id / 256).
#[local] Abbreviation st' := (<[k := id mod 256 :: st k]> st).
#[local] Abbreviation G2 := (upd (LInfo IUsedNode) (info G1 IUsedNode - 1) G1).
Hypothesis HT : table_ok p G N L st NL.
Hypothesis Hid : id ∈ N.
Hypothesis Hl : ~ listed heads L id.
Hypothesis HF : ng_frame G G1.
Hypothesis HGr : groups_ok G1 st' NL'.
Hypothesis HW : gives G2 G3 st id.

Lemma given_in : 256 <= id < 256 * nsets G /\ taken G st id.
Proof. by apply (no_live _ _ _ (tb_nodes _ _ _ _ _ _ HT)) in Hid as (? & ? & ?). Qed.
Lemma given_calm : calm G G2.
Proof.
  apply (calm_trans _ G1); [by apply calm_ng|]. split; try done. intros l Hl'. apply val_upd_ne. by intros <-.
Qed.

Lemma given_table : table_ok p G3 (N ∖ {[id]}) L st' NL'.
Proof.
  pose proof (gv_frame _ _ _ _ HW) as HWF. destruct given_in as [Hr Ht]. pose proof (calm_parts G G2 N L st given_calm (table_parts _ _ _ _ _ _ HT)) as [PB PY PN [L1 L2]].
  pose proof given_calm as HC. assert (Hn2 : nsets G2 = nsets G) by apply HC.
  assert (Hf3 : hdr G3 k SFree = hdr G k SFree) by (rewrite (gv_free _ _ _ _ HW); apply (ca_val _ _ HC (LSet k SFree) I)).
  assert (Hh1 : hof G1 = hof G) by apply HF. destruct (tb_index _ _ _ _ _ _ HT) as [I1 I2]. split.
  - unfold linked. rewrite (nr_hof _ _ _ HWF), upd_hof, Hh1. apply HT.
  - by apply (frame_base G2 G3 id).
  - apply (frame_index G2 G3 id HWF). split; change (hof G2) with (hof G1); change (fih G2) with (fih G1); by rewrite ?Hh1, ?(nf_fih _ _ HF).
  - apply (frame_sys G2 G3 id HWF st); [zdm|rewrite fn_lookup_insert_ne by zdm; done|done].
  - apply (frame_nodes G2 G3 id HWF N); [done|done|apply HW| |].
    + intros x Ex. rewrite elem_of_difference, elem_of_singleton, (no_live _ _ _ (tb_nodes _ _ _ _ _ _ HT)), Hn2. unfold taken.
      rewrite Ex, Hf3, fn_lookup_insert, not_elem_of_cons. assert (x <> id <-> x mod 256 <> id mod 256) by (split; [intros ? ?; zdm|congruence]). tauto.
    + intros x Hx. rewrite elem_of_difference, elem_of_singleton. split; [tauto|]. intros ?. split; [done|congruence].
  - intros j Hj Hfree. rewrite (nr_nsets _ _ _ HWF), Hn2 in Hj. apply (frame_filled G2 G3 id HWF).
    assert (Hfj : 0 < hdr G j SFree).
    { rewrite <-(ca_val _ _ HC (LSet j SFree) I : hdr G2 j SFree = hdr G j SFree). destruct (decide (j = k)) as [->|]; [by rewrite <-(gv_free _ _ _ _ HW)|].
      by rewrite <-(nr_hdr _ _ _ HWF) by by left. }
    pose proof (tb_filled _ _ _ _ _ _ HT j Hj Hfj) as HFj. unfold filled in *. change (hof G2) with (hof G1). change (fih G2) with (fih G1). change (sih G2) with (sih G1).
    by rewrite Hh1, (nf_fih _ _ HF), (nf_sih _ _ HF).
  - rewrite (nr_info _ _ _ HWF). cbn. rewrite fn_lookup_insert, (nf_info _ _ HF), (tb_used _ _ _ _ _ _ HT) by done.
    rewrite size_difference by set_solver. rewrite size_singleton. assert (size N <> 0%nat) by (apply size_non_empty_iff; set_solver). lia.
  - destruct HGr as [S1 S2 S3]. assert (En : nsets G3 = nsets G1) by apply HWF. split.
    + apply (frame_ng G2 G3 id HWF). by apply info_ng; [set_solver|].
    + by rewrite En.
    + rewrite En. intros j Hj. rewrite S3 by done. unfold is_full. replace (hdr G3 j SFree) with (hdr G1 j SFree); [done|].
      change (hdr G1 j SFree) with (hdr G2 j SFree). destruct (decide (j = k)) as [->|]; [by rewrite (gv_free _ _ _ _ HW)|].
      by rewrite (nr_hdr _ _ _ HWF) by by left.
  - split.
    + rewrite (nr_nsets _ _ _ HWF). apply (frame_lru G2 G3 id HWF); [lia|done|done].
    + intros h x Hh Hx. apply elem_of_difference. split; [by eapply L2|]. intros ->%elem_of_singleton. apply Hl. exists h. split; [done|by right].
  - by apply (tb_step _ _ _ _ _ _ HT).
Qed.
Lemma given_kept : kept (N ∖ {[id]}) G G3.
Proof.
  apply (kept_trans _ _ G1); [by apply kept_ng|]. destruct (gv_frame _ _ _ _ HW) as [F1 F2 F3 F4 F5 F6 F7 F8 F9 F10 F11 F12 F13 F14].
  split; rewrite ?F1, ?F3, ?F4, ?F8, ?F9; try done.
  - intros x [_ Hx]%elem_of_difference. rewrite elem_of_singleton in Hx. rewrite F10, F11, F13 by done. by rewrite !decide_False.
  - intros f Hf. rewrite F5. cbn. rewrite fn_lookup_insert_ne; [done|intros <-; set_solver].
  - rewrite F2. done.
  - intros j Hj. destruct (decide (j = k)) as [->|]; [by rewrite (gv_free _ _ _ _ HW)|]. rewrite F14; [done|by left].
Qed.
End Given.

(** The group is among those with room when one of its nodes comes back. *)
Lemma release_lists p s G N L st NL id (Q : unit -> Pool * S -> Prop) (k := id / 256) : Rep s G -> table_ok p G N L st NL -> id ∈ N ->
  (forall s' G' NL', Rep s' G' -> ng_frame G G' -> groups_ok G' (<[k := id mod 256 :: st k]> st) NL' -> Q tt (p, s')) ->
  wp (if bool_decide (is_full G k (st k)) then list_del (hof G (RSet k));; free_list_add (hof G (RSet k)) else mret tt) (p, s) Q.
Proof.
  intros HR HT Hid HQ. destruct (given_in p G N L st NL id HT Hid) as [Hr Ht]. pose proof (tb_groups _ _ _ _ _ _ HT) as HG.
  assert (Hk : 1 <= k < nsets G) by (unfold k; zdm). assert (Hst : forall j, j <> k -> <[k := id mod 256 :: st k]> st j = st j) by (intros; by rewrite fn_lookup_insert_ne).
  case_bool_decide as Hfull.
  - pose proof (proj2 (gs_full _ _ _ HG k Hk) Hfull) as Hin.
    apply (wp_move_group p s G NL (-2) (-1) k ni_free_head); [done|apply HT|apply HG|by right; left|by left|done|lia|done|unfold ni_free_head; done|].
    intros s1 G1 l r HR1 HF1 E1 Hng1. apply (HQ s1 G1 (<[-1 := k :: NL (-1)]> (<[-2 := l ++ r]> NL)) HR1 HF1).
    apply (moved_lists G G1 st _ NL (-2) (-1) k l r); [apply HG|done|done|by right; left|by left|done|done|apply HF1|done| |].
    + intros j Hj. split; [by apply Hst|by apply HF1].
    + rewrite fn_lookup_insert. unfold is_full. split; [done|]. by intros [? _].
  - apply wp_ret, (HQ s G NL HR (ng_frame_refl G)). destruct HG as [S1 S2 S3]. split; [done|done|]. intros j Hj. rewrite S3 by done.
    destruct (decide (j = k)) as [->|Hj']; [|by rewrite Hst]. rewrite fn_lookup_insert. split; [done|]. by intros [? _].
Qed.

Lemma wp_release_node p s G N L st NL id (Q : Z * Node -> Pool * S -> Prop) : Rep s G -> table_ok p G N L st NL -> id ∈ N -> ~ listed heads L id ->
  (forall s' G' st' NL', Rep s' G' -> table_ok p G' (N ∖ {[id]}) L st' NL' -> kept (N ∖ {[id]}) G G' -> Q (0, Node_Empty) (p, s')) ->
  wp (release_node (nd G id)) (p, s) Q.
Proof.
  intros HR HT Hid Hl HQ. destruct (given_in p G N L st NL id HT Hid) as [Hr Ht]. set (k := id / 256) in *.
  assert (Hk : 0 <= k < nsets G) by (unfold k; zdm). pose proof (bo_geo G (tb_base _ _ _ _ _ _ HT) k Hk) as Hg.
  pose proof (no_group _ _ _ (tb_nodes _ _ _ _ _ _ HT) k Hk) as Hgr. assert (Hh : hof G (RSet k) <> 0) by apply Hg.
  unfold release_node. cbn [owner nd]. fold k. apply wp_bind, wp_shm, (wp_set_is_full s G k HR Hh (st k)); [done|].
  apply wp_bind, (release_lists p s G N L st NL id _ HR HT Hid). intros s1 G1 NL1 HR1 HF1 HG1.
  destruct (tb_linked _ _ _ _ _ _ HT) as (_ & Ei & Hi). assert (Hh1 : hof G1 = hof G) by apply HF1. apply wp_member. rewrite Ei, <-Hh1.
  assert (Hu : info G1 IUsedNode = Z.of_nat (size N)) by (rewrite (nf_info _ _ HF1) by done; apply HT).
  assert (Hs : size N <> 0%nat) by (apply size_non_empty_iff; set_solver).
  apply wp_bind, wp_shm, (wp_add_to s1 G1 (LInfo IUsedNode)); [done|split; [cbn [lrole]; by rewrite Hh1|done]|done|done| |].
  { cbn [val]. pose proof (Rep_val_range s1 G1 (LInfo IUsedNode) HR1 ltac:(split; [cbn [lrole]; by rewrite Hh1|done])) as Hv. cbn [val lsize] in *. lia. }
  intros s2 HR2. cbn [val] in HR2. change (info G1 IUsedNode + -1) with (info G1 IUsedNode - 1) in HR2. set (G2 := upd _ _ G1) in *.
  assert (HC : calm G G2) by by apply (given_calm G G1).
  destruct (calm_parts G G2 N L st HC (table_parts _ _ _ _ _ _ HT)) as [PB _ PN _]. assert (Hk2 : 0 <= k < nsets G2) by (rewrite (ca_nsets _ _ HC); done).
  assert (Hh2 : hof G2 = hof G) by (rewrite <-Hh1; apply upd_hof). replace (nd G id) with (nd G2 id) by (unfold nd; by rewrite Hh2).
  apply wp_shm, (wp_Node_Release s2 G2 id (st k)); [done|by apply PB|by apply PN|]. intros s3 HR3.
  assert (HW : gives G2 (given G2 id) st id).
  { apply given_gives; [by apply PN|]. unfold taken. by rewrite (ca_val _ _ HC (LSet (id / 256) SFree) I : hdr G2 (id / 256) SFree = hdr G (id / 256) SFree). }
  apply (HQ s3 (given G2 id) (<[k := id mod 256 :: st k]> st) NL1 HR3).
  - by apply (given_table p G G1 _ N L st NL NL1 id).
  - by eapply (given_kept p G G1).
Qed.
End Release.
