(* ===== verification/NodeLists.v ===== *)
(** The clients' view of the node table: every node handed out is found through the index,
    is put into and taken out of the eviction lists, and carries its attributes. *)
From Stdlib Require Import ZArith Lia.
From stdpp Require Import functions base list list_numbers numbers gmap.
From S2P Require Import Prelude PtMalloc PtSpec Mallocator NodeTable NodeRep NodeAcc NodeLru NodeGroup NodeNg NodeInv NodeAlloc NodeOps NodeAllot NodeRelease.
Import AllocSpec.
Local Open Scope Z_scope.

(** A list without [id]. *)
Definition without (id : Z) (xs : list Z) : list Z := filter (fun x => x <> id) xs.
Lemma without_absent id xs : id ∉ xs -> without id xs = xs.
Proof. unfold without. induction xs as [|y k IH]; intros Hy; [done|]. apply not_elem_of_cons in Hy as [Hy Hk]. rewrite filter_cons_True by congruence. by rewrite IH. Qed.
Lemma without_middle l r id : NoDup (l ++ id :: r) -> without id (l ++ id :: r) = l ++ r.
Proof.
  intros Hn. unfold without. rewrite filter_app, filter_cons_False by tauto. rewrite <-Permutation_middle in Hn. apply NoDup_cons in Hn as [Hn _].
  apply not_elem_of_app in Hn as [Hl Hr]. fold (without id l) (without id r). by rewrite !without_absent.
Qed.
Lemma elem_of_without id x xs : x ∈ without id xs <-> x <> id /\ x ∈ xs.
Proof. unfold without. by rewrite list_elem_of_filter. Qed.
Lemma without_twice id xs : without id (without id xs) = without id xs.
Proof. apply without_absent. rewrite elem_of_without. tauto. Qed.
Lemma without_sublist id xs : sublist (without id xs) xs.
Proof.
  unfold without. induction xs as [|x xs IH]; [constructor|]. destruct (decide (x <> id)) as [H|H].
  - rewrite filter_cons_True by done. by apply sublist_skip.
  - rewrite filter_cons_False by done. by apply sublist_cons.
Qed.

Section Table.
Context (p : Pool) (G : table) (N : gset Z) (L st NL : Z -> list Z).
Hypothesis HT : table_ok p G N L st NL.

(** The lists change. *)
Lemma table_lru f L' : lru_ok f L' (256 * nsets G) -> (forall h x, h ∈ heads -> x ∈ L' h -> x ∈ N) -> table_ok p (with_lru f G) N L' st NL.
Proof.
  intros Hf Hin. destruct HT as [T1 [] [] [] [N1 N2] T6 T7 [T8 ? ?] T9 T10]. split; try done; try by split.
  - split; [|done]. intros k Hk. by apply (group_ext G), N1.
Qed.
(** An attribute of a node, or what the table does not look at, changes. *)
Definition free_cell (l : loc) : Prop :=
  match l with
  | LNext _ | LDirty _ | LHash _ | LBucket _ => True
  | LInfo f => f ∈ [IDirtyNode; IUsedRow; IDirtyRow]
  | LVd id => id ∈ N
  | _ => False
  end.
Lemma free_val l v l' : free_cell l -> (match l' with LVd _ => False | _ => True end) -> inert l' -> val (upd l v G) l' = val G l'.
Proof. intros Hl Hv Hl'. apply val_upd_ne. intros ->. destruct l' as [[]| | | | | | | | | |]; try done; set_solver. Qed.
Lemma free_cell_parts l v : free_cell l -> parts_ok (upd l v G) N L st.
Proof.
  intros Hl. pose proof (table_parts _ _ _ _ _ _ HT) as [PB PY [N1 N2] PL].
  assert (Hc : (exists id, l = LVd id) \/ forall id, l <> LVd id) by (destruct l; try (by right); left; by eexists). destruct Hc as [[id ->]|Hne].
  - destruct PB, PY, PL as [[] ?]. split; try by split. split; [|exact N2]. intros k Hk. apply (group_ext G); [done| |by apply N1].
    intros x Hx. cbn. apply fn_lookup_insert_ne. intros ->. pose proof (gr_in _ _ _ (N1 k Hk) x Hx). pose proof (gr_free _ _ _ (N1 k Hk)).
    apply N2 in Hl as (_ & _ & Hl). apply Hl.
    assert ((256 * k + x) / 256 = k /\ (256 * k + x) mod 256 = x) as [-> ->] by (split; zdm). done.
  - apply (calm_parts G); [|by apply table_parts with p NL]. split; rewrite ?upd_hof, ?upd_nsets; try done.
    intros l' Hl'. apply val_upd_ne. intros ->. destruct l' as [[]| | | | | | | | | |]; try done; set_solver.
Qed.
Lemma table_free l v : free_cell l -> table_ok p (upd l v G) N L st NL.
Proof.
  intros Hl. destruct (free_cell_parts l v Hl) as [PB PY PN PL]. pose proof HT as [T1 _ T3 _ _ T6 T7 [S1 S2 S3] _ T10].
  assert (Hf : fih (upd l v G) = fih G /\ sih (upd l v G) = sih G) by by destruct l. destruct Hf as [E1 E2].
  assert (Hv : forall k, hdr (upd l v G) k SFree = hdr G k SFree) by (intros k; by apply (free_val l v (LSet k SFree))).
  split; try done.
  - unfold linked. by rewrite upd_hof.
  - destruct T3. split; by rewrite ?upd_hof, ?E1.
  - intros k. rewrite upd_nsets, Hv. unfold filled. rewrite upd_hof, E1, E2. apply T6.
  - rewrite <-T7. apply (val_upd_ne l (LInfo IUsedNode)). intros ->. cbn in Hl. set_solver.
  - split; rewrite ?upd_nsets; [|done|].
    + apply (ng_ok_ext G); [by rewrite upd_hof|intros k; by rewrite upd_hof|by rewrite upd_nsets| |done].
      intros x b. rewrite <-!val_name_cell. apply val_upd_ne. intros ->. unfold name_cell in Hl. repeat case_match; try done; cbn in Hl; destruct b; set_solver.
    + intros k Hk. rewrite S3 by done. unfold is_full. by rewrite Hv.
Qed.
End Table.

Lemma node_there G id : set_geo G (id / 256) -> no_node (nd G id) = false.
Proof. intros (_ & _ & Hh & _). apply orb_false_iff. split; [by apply Z.eqb_neq|]. apply Z.leb_gt. by apply Z.mod_pos_bound. Qed.

Section Lists.
Context {S : Type} `{!Mallocator S, !MallocatorLaws S}.
Implicit Types (s : S) (G : table) (p : Pool).
#[local] Abbreviation PS := (ST (Pool * S)).

(** A node the index does not know *)
Lemma wp_Search_none p s G id (Q : Node -> Pool * S -> Prop) : Rep s G -> linked p G -> index_ok G -> set_geo G (id / 256) -> hof G (RSecond (id / 256 / 65536)) = 0 ->
  Q (mkNd 0 0) (p, s) -> wp (Index_Search id) (p, s) Q.
Proof.
  intros HR (Ef & _) [I1 I2] (H0 & H1 & _) Hs HQ. pose proof (Z.mod_pos_bound id 256 ltac:(lia)). pose proof (Z.div_mod id 256 ltac:(lia)).
  unfold Index_Search. destruct (_ =? _); [by apply wp_ret|]. destruct (offsets id) as [O1 _]; [lia|]. apply wp_member, wp_bind, wp_shm.
  assert (Hi : 0 <= id / 256 / 65536 < 256) by zdm.
  apply (wp_rd s G (LFi (id / 256 / 65536))); [done|by split|rewrite Ef, O1; unfold fi_h; cbn [lrole loff]; lia|done|].
  cbn [val]. rewrite I2, Hs by done. by apply wp_ret.
Qed.

Lemma head_nd G h : h ∈ heads -> mkNd (hof G (RSet 0)) h = nd G h.
Proof. intros Hh%head_small. unfold nd. assert (h / 256 = 0 /\ h mod 256 = h) as [-> ->] by (split; zdm). done. Qed.
(** A node is put behind a head; it need not be known to the index. *)
Lemma wp_insert2_any p s G h id (Q : Z -> Pool * S -> Prop) : Rep s G -> linked p G -> info G ISys = hof G (RSet 0) -> h ∈ heads ->
  ready G h -> ready G (lru G h true) -> set_geo G (id / 256) ->
  (forall s', Rep s' (with_lru (add_links id h (lru G h true) (lru G)) G) -> Q 0 (p, s')) -> wp (insert2_lru h (nd G id)) (p, s) Q.
Proof.
  intros HR Hp Ez Hh Hrh Hn Hg HQ. destruct Hp as (Ef & Ei & Hi). apply wp_member, wp_bind, wp_shm. rewrite Ei.
  apply (wp_rd s G (LInfo ISys)); [done|by split|done|done|]. cbn [val]. rewrite Ez, head_nd by done.
  apply wp_bind, (wp_NODE_LIST_ADD p s G); [done..|]. intros s' HR'. by apply wp_ret, HQ.
Qed.

Section Ops.
Context (p : Pool) (s : S) (G : table) (N : gset Z) (L st NL : Z -> list Z).
Hypothesis HR : Rep s G.
Hypothesis HT : table_ok p G N L st NL.

Lemma wp_sys_zone {B} (f : Z -> PS B) (Q : B -> Pool * S -> Prop) : wp (f (hof G (RSet 0))) (p, s) Q ->
  wp (ni ← member _ngInfo; z ← shm (mread 8 (ni_sys_zone ni)); f z) (p, s) Q.
Proof.
  intros HQ. destruct (tb_linked _ _ _ _ _ _ HT) as (_ & Ei & Hi). apply wp_member, wp_bind, wp_shm. rewrite Ei.
  apply (wp_rd s G (LInfo ISys)); [done|by split|done|done|]. cbn [val]. by rewrite (sy_zone _ _ (tb_sys _ _ _ _ _ _ HT)).
Qed.
Lemma wp_lru_head h (Q : Node -> Pool * S -> Prop) : h ∈ heads -> Q (nd G h) (p, s) -> wp (lru_head h) (p, s) Q.
Proof.
  intros Hh HQ. apply wp_sys_zone. destruct (head_ready p G N L st NL HT h Hh) as [(_ & _ & H0 & _) _]. apply head_small in Hh as Hs.
  replace (h / 256) with 0 in H0 by zdm. rewrite (proj2 (Z.eqb_neq _ _)) by done. rewrite head_nd by done. by apply wp_ret.
Qed.

Lemma wp_insert2_lru h id (Q : Z -> Pool * S -> Prop) : h ∈ heads -> id ∈ N -> ~ listed heads L id ->
  (forall s' f, Rep s' (with_lru f G) -> table_ok p (with_lru f G) N (<[h := id :: L h]> L) st NL -> Q 0 (p, s')) -> wp (insert2_lru h (nd G id)) (p, s) Q.
Proof.
  intros Hh Hid Hl HQ. destruct (tb_lists _ _ _ _ _ _ HT) as [HL Hin]. pose proof (head_ready _ _ _ _ _ _ HT h Hh) as Hrh.
  apply (wp_insert2_any p s G); [done|apply HT|apply (sy_zone _ _ (tb_sys _ _ _ _ _ _ HT))|done|done| |by apply (live_ready _ _ _ _ _ _ HT)|].
  { apply (listed_ready _ _ _ _ _ _ HT h); [done|]. apply (listed_near _ _ _ (lo_rings _ _ _ HL)); [done|by left]. }
  intros s' HR'. apply (HQ s' _ HR'), (table_lru _ _ _ L); [done|by apply lru_ok_add|].
  intros g x Hg. destruct (decide (g = h)) as [->|Hne]; [|rewrite fn_lookup_insert_ne by done; by apply Hin].
  rewrite fn_lookup_insert. intros [->|Hx]%elem_of_cons; [done|by apply (Hin h)].
Qed.

Lemma wp_remove_from_lru id (Q : Z -> Pool * S -> Prop) : id ∈ N ->
  (forall s' f h l r, h ∈ heads -> L h = l ++ id :: r -> Rep s' (with_lru f G) -> table_ok p (with_lru f G) N (<[h := l ++ r]> L) st NL -> Q 0 (p, s')) ->
  (forall s' f, ~ listed heads L id -> Rep s' (with_lru f G) -> table_ok p (with_lru f G) N L st NL -> Q 0 (p, s')) ->
  wp (remove_from_lru (nd G id)) (p, s) Q.
Proof.
  intros Hid HQ1 HQ2. destruct (tb_lists _ _ _ _ _ _ HT) as [HL Hin]. pose proof (live_not_head _ _ _ _ _ _ HT id Hid) as Hr. unfold remove_from_lru.
  apply wp_bind, (wp_NODE_LIST_DEL p s G); [done|apply HT|by apply (live_ready _ _ _ _ _ _ HT)|intros b; by apply (near_ready _ _ _ _ _ _ HT)|].
  intros s' HR'. apply wp_ret. destruct (decide (listed heads L id)) as [Hl|Hl].
  - destruct (listed_in _ _ _ _ _ _ HT id Hid Hl) as (h & Hh & (l & r & E)%list_elem_of_split). apply (HQ1 s' _ h l r Hh E HR').
    apply (table_lru _ _ _ L); [done|by apply lru_ok_del|]. intros g x Hg. destruct (decide (g = h)) as [->|Hne]; [|rewrite fn_lookup_insert_ne by done; by apply Hin].
    rewrite fn_lookup_insert. intros Hx. apply (Hin h); [done|]. rewrite E. lmem.
  - apply (HQ2 s' _ Hl HR'), (table_lru _ _ _ L); [done| |done]. eapply lru_ok_ext; [|exact HL]. intros x b _. symmetry.
    apply del_links_alone, (lo_alone _ _ _ HL); [lia|done].
Qed.

(** In whatever list it is, or in none *)
Lemma wp_unlist id (Q : Z -> Pool * S -> Prop) : id ∈ N ->
  (forall s' f L', Rep s' (with_lru f G) -> table_ok p (with_lru f G) N L' st NL -> (forall h, h ∈ heads -> L' h = without id (L h)) -> Q 0 (p, s')) ->
  wp (remove_from_lru (nd G id)) (p, s) Q.
Proof.
  intros Hid HQ. pose proof (tb_lists _ _ _ _ _ _ HT) as [[HL _] _]. apply wp_remove_from_lru; [done|..].
  - intros s' f h l r Hh E HR' HT'. apply (HQ s' f _ HR' HT'). intros g Hg. destruct (decide (g = h)) as [->|Hne].
    + rewrite fn_lookup_insert, E, without_middle; [done|]. rewrite <-E. by eapply NoDup_cons_1_2, (rg_nodup _ _ _ HL).
    + rewrite fn_lookup_insert_ne by done. rewrite without_absent; [done|]. intros Hx. apply Hne.
      apply (rg_apart _ _ _ HL _ _ id Hg Hh); [by right|rewrite E; lmem].
  - intros s' f Hl HR' HT'. apply (HQ s' f _ HR' HT'). intros g Hg. rewrite without_absent; [done|]. intros Hx. apply Hl. exists g. split; [done|by right].
Qed.

(** The neighbour of a node in its list. *)
Lemma wp_near id b (Q : Node -> Pool * S -> Prop) : id ∈ N \/ id ∈ heads -> Q (nd G (lru G id b)) (p, s) -> wp (if b then node_Next (nd G id) else node_Prev (nd G id)) (p, s) Q.
Proof.
  intros Hid HQ. assert (H : ready G id /\ ready G (lru G id b)).
  { destruct Hid as [Hid|Hid]; [split; [by apply (live_ready _ _ _ _ _ _ HT)|by apply (near_ready _ _ _ _ _ _ HT)]|]. split; [by apply (head_ready _ _ _ _ _ _ HT)|].
    apply (listed_ready _ _ _ _ _ _ HT id); [done|]. apply (listed_near _ _ _ (lo_rings _ _ _ (ls_lru _ _ _ (tb_lists _ _ _ _ _ _ HT)))); [done|by left]. }
  destruct H as [H1 H2], b; [apply (wp_node_Next p s G)|apply (wp_node_Prev p s G)]; try done; apply HT.
Qed.
End Ops.
End Lists.
