(* ===== verification/NodeInit.v ===== *)
(** Setting up the node table in an empty segment. *)
From Stdlib Require Import ZArith Lia.
From stdpp Require Import functions base list list_numbers numbers gmap.
From S2P Require Import Prelude PtMalloc PtSpec Mallocator NodeTable NodeRep NodeAcc NodeLru NodeGroup NodeNg NodeInv NodeAlloc NodeOps NodeAllot NodeRelease NodeLists.
Import AllocSpec.
Local Open Scope Z_scope.

(** The index is there, groups and their head are not. *)
Record bare (p : Pool) (G : table) : Prop := {
  ba_first : _firstIndex p = hof G RFirst;
  ba_index : index_ok G;
  ba_zero : hof G (RSecond 0) <> 0;
  ba_info : hof G RInfo = 0;
  ba_sets k : hof G (RSet k) = 0;
  ba_nsets : nsets G = 0
}.

(** The head is there, and the group 0, of which [n] nodes are in use. *)
Record booting (p : Pool) (G : table) (n : Z) : Prop := {
  bt_linked : linked p G;
  bt_base : base_ok G;
  bt_nsets : nsets G = 1;
  bt_index : index_ok G;
  bt_second : hof G (RSecond 0) <> 0;
  bt_group : group_ok G 0 [];
  bt_free : hdr G 0 SFree = n;
  bt_none x b : (x = -1 \/ x = -2) -> name_link G x b = name_addr G x;
  bt_zero b : name_link G 0 b = 0;
  bt_alone x : 0 <= x < 256 -> alone (lru G) x
}.
(** What the steps of the set-up that follow leave alone. *)
Record apart (G G' : table) : Prop := {
  ap_first : hof G' RFirst = hof G RFirst;
  ap_hash : hof G' RHash = hof G RHash;
  ap_hh f : hh G' f = hh G f;
  ap_bkt i : bkt G' i = bkt G i;
  ap_nbkt : nbkt G' = nbkt G;
  ap_rest : rest G' = rest G
}.
Lemma apart_trans G G' G'' : apart G G' -> apart G' G'' -> apart G G''.
Proof. intros [A1 A2 A3 A4 A5 A6] [B1 B2 B3 B4 B5 B6]. split; try congruence; intros; by rewrite ?B3, ?B4. Qed.
Lemma apart_upd l v G : (match l with LHash _ | LBucket _ => False | _ => True end) -> apart G (upd l v G).
Proof. by destruct l. Qed.
Lemma apart_frame G G' id : node_frame G G' id -> apart G G'.
Proof. intros [F1 F2 F3 F4 F5 F6 F7 F8 F9 _ _ _ _ _]. split; congruence. Qed.

(** What [booting] looks at. *)
Definition boot_cell (l : loc) : Prop :=
  match l with LInfo f => f ∈ [IFreePrev; IFreeNext; IFullPrev; IFullNext; IMinId; IUsedNg] | LSet _ _ => True | _ => False end.
Lemma booting_ext p G G' n : booting p G n -> hof G' RInfo = hof G RInfo -> hof G' RFirst = hof G RFirst -> (forall k, hof G' (RSet k) = hof G (RSet k)) ->
  hof G' (RSecond 0) <> 0 -> index_ok G' -> nsets G' = nsets G -> (forall l, boot_cell l -> val G' l = val G l) -> (forall x, 0 <= x < 256 -> alone (lru G') x) ->
  booting p G' n.
Proof.
  intros [B1 B2 B3 B4 B5 B6 B7 B8 B9 B10] Hi Hf Hs H0 HI Hn Hv Ha.
  assert (Hh : forall k f, hdr G' k f = hdr G k f) by (intros k f; by apply (Hv (LSet k f))).
  assert (Hl : forall x b, name_link G' x b = name_link G x b).
  { intros x b. rewrite <-!val_name_cell. apply Hv. unfold name_cell. repeat case_match; try done; cbn; destruct b; set_solver. }
  split; try done.
  - destruct B1 as (? & ? & ?). unfold linked. by rewrite Hi, Hf.
  - destruct B2 as [C1 C2 C3 C4 C5 C6]. split; rewrite ?Hi, ?Hn; try done.
    + intros k. rewrite Hs. apply C3.
    + intros k Hk. destruct (C4 k Hk) as (? & ? & ? & En & Eo). unfold set_geo. rewrite Hs, Hh. do 4 (split; [done|]). intros t Ht. rewrite Hh. by apply Eo.
    + rewrite <-C5. apply (Hv (LInfo IMinId)). cbn. set_solver.
    + rewrite <-C6. apply (Hv (LInfo IUsedNg)). cbn. set_solver.
  - by rewrite Hn.
  - by destruct B6; split; rewrite ?Hh.
  - by rewrite Hh.
  - intros x b Hx. rewrite Hl, B8 by done. unfold name_addr. by rewrite Hi, Hs.
  - intros b. by rewrite Hl.
Qed.
Lemma booting_upd p G n l v : booting p G n -> ~ boot_cell l -> (match l with LFi _ => False | LLru x _ => v = x | _ => True end) -> booting p (upd l v G) n.
Proof.
  intros HB Hl Hv. apply (booting_ext p G); rewrite ?upd_hof, ?upd_nsets; try done; try apply HB.
  - destruct (bt_index _ _ _ HB). destruct l; by split.
  - intros l' Hl'. apply val_upd_ne. by intros ->.
  - intros x Hx. destruct (bt_alone _ _ _ HB x Hx) as [E1 E2]. destruct l as [| | |y b| | | | | | |]; try by split. subst v. split; cbn.
    + destruct (decide (y = x)) as [->|]; [rewrite fn_lookup_insert|by rewrite fn_lookup_insert_ne]. destruct b; by rewrite ?fn_lookup_insert, ?fn_lookup_insert_ne.
    + destruct (decide (y = x)) as [->|]; [rewrite fn_lookup_insert|by rewrite fn_lookup_insert_ne]. destruct b; by rewrite ?fn_lookup_insert, ?fn_lookup_insert_ne.
Qed.

Section Init.
Context {S : Type} `{!Mallocator S, !MallocatorLaws S}.
Implicit Types (s : S) (G : table) (p : Pool).
#[local] Abbreviation PS := (ST (Pool * S)).

(** ** The index *)

(** A process that has not attached to a segment yet. *)
Lemma wp_pre_allocate p s G j n (Q : Z -> Pool * S -> Prop) : Rep s G -> _firstIndex p = hof G RFirst -> index_ok G ->
  0 <= j -> j + Z.of_nat n <= 256 -> (forall i, j <= i -> hof G (RSecond i) = 0) ->
  (forall s', Q (-1) (p, s')) ->
  (forall s' G', Rep s' G' -> index_ok G' -> (forall r, (forall i, r <> RSecond i) -> hof G' r = hof G r) -> nsets G' = nsets G -> nbkt G' = nbkt G -> rest G' = rest G ->
    (forall i, i < j + Z.of_nat n -> hof G (RSecond i) <> 0 \/ j <= i -> hof G' (RSecond i) <> 0) -> Q 0 (p, s')) ->
  wp (pre_allocate j n) (p, s) Q.
Proof.
  intros HR Ef HI. revert s G j HR Ef HI; induction n as [|n IH]; intros s G j HR Ef HI Hj Hn H0 HQ1 HQ; cbn [pre_allocate].
  { apply wp_ret, (HQ s G HR HI); try done. intros i Hi [?|?]; [done|lia]. }
  apply wp_member. assert (Hb0 : 0 <= nbkt G) by (destruct HR as (A & _ & HG); apply HG). pose proof (H0 j ltac:(lia)) as E0. apply wp_bind, wp_shm.
  destruct (Rep_calloc s G (RSecond j) (nbkt G) INDEX_2_SIZE HR E0 Hb0 (or_intror eq_refl)) as (v & s1 & E & Hc); [done|].
  exists v, s1. split; [exact E|]. clear E. pose proof HI as [Hf Hfi]. rewrite Ef. unfold fi_h. destruct Hc as [[-> HR1]|(Hv & Hfree & HR1)].
  - apply wp_bind, wp_shm, (wp_wr s1 G (LFi j)); [done|split; [done|cbn; lia]|cbn [lrole loff]; lia|done|]. intros s2 H2.
    set (G2 := upd _ _ G) in H2. apply wp_bind, wp_shm, (wp_rd s2 G2 (LFi j)); [done|split; [done|cbn; lia]|cbn [lrole loff]; change (hof G2) with (hof G); lia|done|].
    unfold G2. rewrite val_upd. by apply wp_ret, HQ1.
  - set (G1 := adopt (RSecond j) v (nbkt G) G) in *. destruct (new_map_hof j G v) as [Hv1 Hr1].
    assert (Hv2 : 0 < v < 2 ^ 64) by (rewrite <-Hv1; apply (Rep_handle s1 G1); [done|]; change (hof G1) with (hof (new_map j v G)); by rewrite Hv1).
    assert (Hf1 : hof G1 RFirst = hof G RFirst) by by apply Hr1.
    apply wp_bind, wp_shm, (wp_wr s1 G1 (LFi j)); [done|split; [cbn [lrole]; by rewrite Hf1|cbn; lia]|cbn [lrole loff]; lia|done|].
    intros s2 H2. rewrite Z.mod_small in H2 by (change (256 ^ Z.of_nat 8) with (2 ^ 64); lia). change (upd (LFi j) v G1) with (new_map j v G) in H2.
    apply wp_bind, wp_shm, (wp_rd s2 (new_map j v G) (LFi j)); [exact H2|split; [by rewrite Hr1|cbn; lia]|rewrite Hr1 by done; cbn [lrole loff]; lia|done|].
    unfold new_map at 1. rewrite val_upd. unfold INVALID_HANDLE. rewrite (proj2 (Z.eqb_neq v 0)) by done.
    apply (IH s2 (new_map j v G)); [done|by rewrite Hr1|by apply new_map_index|lia|lia| |done|].
    { intros i Hi. rewrite Hr1 by (intros [= ->]; lia). apply H0. lia. }
    intros s' G' HR' HI' Hh En Eb Er Hs. apply (HQ s' G' HR' HI'); [|by rewrite En|by rewrite Eb|by rewrite Er|].
    + intros r Hr. rewrite Hh by done. by apply Hr1.
    + intros i Hi Hc. apply Hs; [lia|]. destruct (decide (i = j)) as [->|Hne]; [left; by rewrite Hv1|]. rewrite Hr1 by congruence. destruct Hc; [by left|right; lia].
Qed.

Lemma index_blank A v : v <> 0 -> index_ok (adopt RFirst v 0 (no_table A)).
Proof. intros Hv. split; [by cbn; rewrite fn_lookup_insert|]. intros i Hi. cbn. unfold blank. cbn. by rewrite fn_lookup_insert_ne. Qed.

Lemma wp_Index_Init p s A m (Q : Z -> Pool * S -> Prop) : heap s A -> 0 <= m < 2 ^ 60 -> (forall p' s', Q (-1) (p', s')) ->
  (forall s' G v, Rep s' G -> bare (set_firstIndex v p) G -> hof G RHash = 0 -> rest G = A -> Q 0 (set_firstIndex v p, s')) ->
  wp (Index_Init m) (p, s) Q.
Proof.
  intros HA%Rep_start Hm HQ1 HQ. unfold Index_Init. apply wp_bind, wp_shm.
  destruct (Rep_calloc s (no_table A) RFirst 0 INDEX_1_SIZE HA eq_refl ltac:(done) (or_intror eq_refl)) as (v & s1 & E & Hc); [done|].
  exists v, s1. split; [exact E|]. clear E. unfold INVALID_HANDLE. destruct Hc as [[-> HR1]|(Hv & _ & HR1)]; [by apply wp_ret, HQ1|].
  rewrite (proj2 (Z.eqb_neq v 0)) by done. apply wp_assign. set (G1 := adopt _ _ _ _) in *.
  assert (Ef : hof G1 RFirst = v) by apply fn_lookup_insert. assert (Hr1 : forall r, r <> RFirst -> hof G1 r = 0) by (intros r Hr; by apply fn_lookup_insert_ne).
  unfold pre_allocate_index. set (n := if _ <? _ then _ else _).
  assert (Hn : 1 <= n <= 256).
  { assert (Hm' : 0 <= m / u32 (65536 * 256 * 44) < 2 ^ 31).
    { change (u32 (65536 * 256 * 44)) with 738197504. split; [apply Z.div_pos; lia|]. apply Z.div_lt_upper_bound; lia. }
    assert (En : u32 (m / u32 (65536 * 256 * 44) + 1) = m / u32 (65536 * 256 * 44) + 1) by (apply wrap_small; unfold is_u; lia).
    subst n. rewrite !En. destruct (Z.ltb_spec 256 (m / u32 (65536 * 256 * 44) + 1)); lia. }
  apply (wp_pre_allocate _ s1 G1 0 (Z.to_nat n)); [done|by rewrite Ef|by apply index_blank|lia|lia|intros i _; by apply Hr1|by intros s'|].
  intros s' G' HR' HI' Hh En Eb Er Hs. apply (HQ s' G' v HR'); [|by rewrite Hh, Hr1|by rewrite Er].
  split; [by rewrite Hh|done|apply Hs; [lia|by right]|by rewrite Hh, Hr1|intros k; by rewrite Hh, Hr1|by rewrite En].
Qed.

(** ** The system's nodes *)

Lemma wp_reserve p s G n (Q : Node -> S -> Prop) : Rep s G -> booting p G n -> 0 <= n < 256 ->
  (forall s' G', Rep s' G' -> booting p G' (n + 1) -> apart G G' -> hof G' = hof G -> Q (nd G' n) s') -> wp (set_allocate_node (hof G (RSet 0))) s Q.
Proof.
  intros HR HB Hn HQ. assert (Hk : 0 <= 0 < nsets G) by (rewrite (bt_nsets _ _ _ HB); lia).
  apply (wp_set_allocate G 0 (fun _ => [])); [by apply HB|apply HB|done| |].
  { unfold is_full. rewrite (bt_free _ _ _ HB). lia. }
  intros s' G' id xs HR' HW. destruct (tk_first _ _ _ _ _ _ HW eq_refl) as (-> & Eid & Ef). rewrite (bt_free _ _ _ HB) in Eid, Ef.
  replace id with n by lia. pose proof (tk_frame _ _ _ _ _ _ HW) as HF. pose proof (nr_hof _ _ _ HF) as Eh. pose proof HB as [B1 B2 B3 B4 B5 B6 B7 B8 B9 B10].
  assert (Hl : forall x b, name_link G' x b = name_link G x b).
  { intros x b. unfold name_link. rewrite (nr_info _ _ _ HF), (frame_hdr _ _ _ HF); [done|]. destruct b; set_solver. }
  apply HQ; [done| | |done]; [split|by eapply apart_frame].
  - unfold linked. by rewrite Eh.
  - by apply (frame_base G G' id).
  - by rewrite (nr_nsets _ _ _ HF).
  - by apply (frame_index G G' id).
  - by rewrite Eh.
  - apply HW.
  - done.
  - intros x b Hx. rewrite Hl, B8 by done. unfold name_addr. by rewrite Eh.
  - intros b. by rewrite Hl.
  - intros x Hx. destruct (B10 x Hx). split; rewrite (nr_lru _ _ _ HF); by case_decide.
Qed.

Lemma apart_refl G : apart G G.
Proof. by split. Qed.
Lemma boot_geo p G n x : booting p G n -> 0 <= x < 256 -> set_geo G (x / 256).
Proof. intros HB Hx. replace (x / 256) with 0 by zdm. apply (bt_base _ _ _ HB). rewrite (bt_nsets _ _ _ HB). lia. Qed.

Lemma wp_init_head p s G n x (Q : unit -> S -> Prop) : Rep s G -> booting p G n -> 0 <= x < 256 ->
  (forall s' G', Rep s' G' -> booting p G' n -> apart G G' -> hof G' = hof G -> Q tt s') -> wp (init_head (nd G x)) s Q.
Proof.
  intros HR HB Hx HQ. pose proof (boot_geo p G n x HB Hx) as HG. unfold init_head, INIT_NODE_LIST_HEAD. apply wp_bind, (wp_node_id s G x HR HG).
  apply wp_bind, (wp_put_lru_prev s G x HR HG); [lia|]. intros s1 H1. set (G1 := upd _ _ G) in *.
  apply (wp_put_lru_next s1 G1 x H1 HG); [lia|]. intros s2 H2. apply (HQ s2 _ H2); [|by split|done].
  do 2 (apply booting_upd; [|by intros ?|done]). done.
Qed.

Lemma indexed_boot p G G' n : booting p G n -> indexed G G' 0 -> booting p G' n /\ apart G G'.
Proof.
  intros HB [X1 X2 X3 X4 X5 X6 X7 X8 X9]. split.
  - apply (booting_ext p G); try done; try (by apply X1); try (intros k; by apply X1).
    + rewrite X2; apply HB.
    + intros l Hl. apply X9. by destruct l.
    + intros x Hx. destruct (bt_alone _ _ _ HB x Hx) as [E1 E2]. split; [rewrite <-E1 at 2; apply (X9 (LLru x true) I)|rewrite <-E2 at 2; apply (X9 (LLru x false) I)].
  - split; try done; try (by apply X1); [intros f; apply (X9 (LHash f) I)|intros i; apply (X9 (LBucket i) I)].
Qed.
Lemma wp_boot_insert p s G n x (Q : Z -> Pool * S -> Prop) : Rep s G -> booting p G n -> 0 <= x < 256 ->
  (forall s' G', Rep s' G' -> booting p G' n -> apart G G' -> (forall k, hof G' (RSet k) = hof G (RSet k)) -> filled G' 0 -> Q 0 (p, s')) -> wp (Index_Insert (nd G x)) (p, s) Q.
Proof.
  intros HR HB Hx HQ. pose proof (bt_nsets _ _ _ HB) as Hn. assert (E0 : x / 256 = 0) by zdm.
  apply (wp_Index_Insert p x s G); [done|apply HB|apply HB|lia|apply HB|..]; rewrite E0.
  - intros s' G' HR' HX. destruct (indexed_boot p G G' n HB HX) as [HB' HA]. apply (HQ s' G' HR' HB' HA); [|apply HX]. intros k. by apply HX.
  - intros s' G' _ _ H0. by destruct (bt_second _ _ _ HB).
Qed.

Lemma wp_system_reserved_init p s G (Q : Z -> Pool * S -> Prop) : Rep s G -> booting p G 0 ->
  (forall s' G', Rep s' G' -> booting p G' 3 -> apart G G' -> (forall k, hof G' (RSet k) = hof G (RSet k)) -> filled G' 0 -> Q 0 (p, s')) ->
  wp (system_reserved_init (hof G (RSet 0))) (p, s) Q.
Proof.
  intros HR HB HQ. unfold system_reserved_init.
  assert (Hnn : forall G' n x, booting p G' n -> 0 <= x < 256 -> no_node (nd G' x) = false).
  { intros G' n x HB' Hx. destruct (boot_geo p G' n x HB' Hx) as (_ & _ & Hh & _). apply orb_false_iff. split; [by apply Z.eqb_neq|]. apply Z.leb_gt. by apply Z.mod_pos_bound. }
  apply wp_bind, wp_shm, (wp_reserve p s G 0); [done|done|lia|]. intros s1 G1 H1 B1 A1 E1. rewrite (Hnn G1 1) by (done || lia). rewrite <-E1.
  apply wp_bind, wp_shm, (wp_reserve p s1 G1 1); [done|done|lia|]. intros s2 G2 H2 B2 A2 E2. rewrite (Hnn G2 2) by (done || lia). rewrite <-E2.
  apply wp_bind, wp_shm, (wp_reserve p s2 G2 2); [done|done|lia|]. intros s3 G3 H3 B3 A3 E3. rewrite (Hnn G3 3) by (done || lia).
  replace (nd G1 0) with (nd G3 0) by (unfold nd; by rewrite E3, E2). replace (nd G2 1) with (nd G3 1) by (unfold nd; by rewrite E3).
  apply wp_bind, wp_shm, (wp_init_head p s3 G3 3); [done|done|lia|]. intros s4 G4 H4 B4 A4 E4.
  assert (Hnd : forall Ga Gb x, hof Ga = hof Gb -> nd Gb x = nd Ga x) by (intros Ga Gb x E; unfold nd; by rewrite E). rewrite (Hnd G4 G3 1), (Hnd G4 G3 2), (Hnd G4 G3 0) by done.
  apply wp_bind, wp_shm, (wp_init_head p s4 G4 3); [done|done|lia|]. intros s5 G5 H5 B5 A5 E5. rewrite (Hnd G5 G4 1), (Hnd G5 G4 2), (Hnd G5 G4 0) by done.
  apply wp_bind, wp_shm, (wp_init_head p s5 G5 3); [done|done|lia|]. intros s6 G6 H6 B6 A6 E6. rewrite (Hnd G6 G5 1), (Hnd G6 G5 2), (Hnd G6 G5 0) by done.
  assert (Hnd' : forall Ga Gb x, 0 <= x < 256 -> (forall k, hof Ga (RSet k) = hof Gb (RSet k)) -> nd Gb x = nd Ga x) by (intros Ga Gb x _ E; unfold nd; by rewrite E).
  apply wp_bind, (wp_boot_insert p s6 G6 3); [done|done|lia|]. intros s7 G7 H7 B7 A7 E7 _. rewrite (Hnd' G7 G6 1), (Hnd' G7 G6 2) by (done || lia).
  apply wp_bind, (wp_boot_insert p s7 G7 3); [done|done|lia|]. intros s8 G8 H8 B8 A8 E8 _. rewrite (Hnd' G8 G7 2) by (done || lia).
  apply wp_bind, (wp_boot_insert p s8 G8 3); [done|done|lia|]. intros s9 G9 H9 B9 A9 E9 F9. apply wp_ret, (HQ s9 G9 H9 B9); [| |done].
  - do 8 (eapply apart_trans; [eassumption|]). done.
  - intros k. rewrite E9, E8, E7. by rewrite E6, E5, E4, E3, E2, E1.
Qed.

(** ** The head of the table *)

Definition none : Z -> list Z := fun _ => [].
Lemma boot_table p G : booting p G 3 -> filled G 0 -> info G ISys = hof G (RSet 0) -> info G IUsedNode = 0 -> 1 <= alloc_step p ->
  table_ok p G ∅ none none none.
Proof.
  intros HB HF Hs Hu Hst. pose proof HB as [B1 B2 B3 B4 B5 B6 B7 B8 B9 B10].
  assert (Hk : forall k, 0 <= k < nsets G -> k = 0) by (rewrite B3; lia).
  split; try done; try (by split; rewrite ?B3).
  - split; [intros k ->%Hk; done|]. intros x. rewrite B3. split; [by intros ?%elem_of_empty|lia].
  - intros k ->%Hk _. done.
  - split; rewrite ?B3; [|intros k; split; [by intros [?%not_elem_of_nil|?%not_elem_of_nil]|lia]|lia].
    exists (fun x _ => if x =? 0 then -3 else x). split; [|split; [|split]].
    + intros x b [->|[->|[Hx _]]]; [by rewrite B8 by (by left)|by rewrite B8 by (by right)|]. rewrite B3 in Hx. assert (x = 0) as -> by lia. by rewrite B9.
    + intros x b Hx. destruct (Z.eqb_spec x 0); [by right|by left].
    + assert (Hh : forall h, h ∈ ng_heads -> h = -1 \/ h = -2) by (intros h; unfold ng_heads; rewrite !elem_of_cons, elem_of_nil; tauto).
      split; [by intros h [->| ->]%Hh|intros h _; by apply NoDup_singleton|]. intros h h' x _ _ ->%list_elem_of_singleton ->%list_elem_of_singleton. done.
    + intros x (h & Hh & ->%list_elem_of_singleton). unfold ng_heads in Hh. rewrite !elem_of_cons, elem_of_nil in Hh. destruct Hh as [->|[->|[]]]; [by left|by right; left].
  - split; [rewrite B3; split|by intros h x _ ?%not_elem_of_nil].
    + split; [|intros h _; by apply NoDup_singleton|intros h h' x _ _ ->%list_elem_of_singleton ->%list_elem_of_singleton; done].
      intros h Hh%head_small. apply B10. lia.
    + intros x Hx _. by apply B10.
Qed.

(** The head is there, no group yet. *)
Record headed (p : Pool) (G : table) : Prop := {
  he_linked : linked p G;
  he_index : index_ok G;
  he_second : hof G (RSecond 0) <> 0;
  he_sets k : hof G (RSet k) = 0;
  he_nsets : nsets G = 0;
  he_min : info G IMinId = 0;
  he_ngs : info G IUsedNg = 0;
  he_none x b : (x = -1 \/ x = -2) -> name_link G x b = name_addr G x
}.
Lemma headed_base p G : headed p G -> base_ok G.
Proof. intros [H1 H2 H3 H4 H5 H6 H7 _]. split; rewrite ?H5; try done; try lia; [apply H1|]. intros k Hk. by rewrite H4 in Hk. Qed.
Lemma headed_boot p G G' : headed p G -> grown G G' -> linked p G' -> base_ok G' -> booting p G' 0 /\ apart G G'.
Proof.
  intros HH HW Hp HB. pose proof HH as [H1 [I1 I2] H3 H4 H5 H6 H7 H8]. pose proof (gw_fresh _ _ HW) as [E1 E2 E3 E4 E5 E6 E7 _]. pose proof (gw_val _ _ HW) as Hv.
  pose proof (gw_hof _ _ HW) as Hh. rewrite H5 in *. split; [split; try done|].
  - by rewrite (gw_nsets _ _ HW), H5.
  - split; [by rewrite Hh|]. intros i Hi. rewrite Hh, <-I2 by done. by apply (Hv (LFi i)).
  - by rewrite Hh.
  - split; rewrite ?E4, ?E5; try done; [constructor|by intros x ?%not_elem_of_nil].
  - intros x b Hx. transitivity (name_link G x b); [|rewrite H8 by done; unfold name_addr; by destruct Hx as [->| ->]; cbn; rewrite Hh].
    rewrite <-!val_name_cell. apply Hv; destruct Hx as [->| ->], b; done.
  - intros b. unfold name_link. cbn. by destruct b.
  - intros x Hx. destruct (E7 x) as (_ & ? & ? & _); [lia|]. by split.
  - split; [by apply Hh|by apply Hh|intros f; by apply (Hv (LHash f))|intros i; by apply (Hv (LBucket i))|apply HW|apply HW].
Qed.

Lemma wp_heads {B} p s G (k : PS B) (Q : B -> Pool * S -> Prop) (ni := _ngInfo p) : Rep s G -> linked p G -> index_ok G -> hof G (RSecond 0) <> 0 ->
  (forall k, hof G (RSet k) = 0) -> nsets G = 0 -> info G IUsedNg = 0 ->
  (forall s' G', Rep s' G' -> headed p G' -> apart G G' -> wp k (p, s') Q) ->
  wp (shm (INIT_NG_LIST_HEAD (ni_free_head ni));; shm (INIT_NG_LIST_HEAD (ni_full_head ni));; shm (mwrite 4 (ni_min_id ni) SYS_MIN_NODE_ID);; k) (p, s) Q.
Proof.
  intros HR Hp [I1 I2] Hs Hk Hn Hu HQ. pose proof Hp as (_ & Ei & Hi). subst ni. rewrite Ei. unfold INIT_NG_LIST_HEAD, put_ng_prev, put_ng_next, ni_free_head, ni_full_head, ni_min_id, SYS_MIN_NODE_ID.
  pose proof (named_range G (-1) s HR Hi ltac:(by left)) as R1. pose proof (named_range G (-2) s HR Hi ltac:(by right; left)) as R2. unfold name_addr in R1, R2. cbn in R1, R2.
  apply wp_bind, wp_shm, wp_bind, (wp_put s G (LInfo IFreePrev)); [done|done|done|cbn [lrole loff]; lia|done|done|]. intros s1 H1. set (G1 := upd _ _ G) in *.
  apply (wp_put s1 G1 (LInfo IFreeNext)); [done|done|done|done|done|done|]. intros s2 H2. set (G2 := upd _ _ G1) in *.
  apply wp_bind, wp_shm, wp_bind, (wp_put s2 G2 (LInfo IFullPrev)); [done|done|done|done|done|done|]. intros s3 H3. set (G3 := upd _ _ G2) in *.
  apply (wp_put s3 G3 (LInfo IFullNext)); [done|done|done|cbn [lrole loff]; change (hof G3) with (hof G); lia|done|done|]. intros s4 H4. set (G4 := upd _ _ G3) in *.
  apply wp_bind, wp_shm, (wp_put s4 G4 (LInfo IMinId)); [done|done|done|done|done|done|]. intros s5 H5.
  apply (HQ s5 _ H5); [|by split]. split; try done. intros x b [->| ->]; by destruct b.
Qed.

(** The last words of the head. *)
Lemma wp_boot_writes p s G (Q : Z -> Pool * S -> Prop) (ni := _ngInfo p) : Rep s G -> booting p G 3 -> filled G 0 -> 1 <= alloc_step p ->
  (forall s' G', Rep s' G' -> table_ok p G' ∅ none none none -> apart G G' -> Q 0 (p, s')) ->
  wp (shm (mwrite 8 (ni_sys_zone ni) (hof G (RSet 0)));; shm (mwrite 4 (ni_used_ng ni) 1);; shm (mwrite 4 (ni_used_node ni) 0);;
    shm (mwrite 4 (ni_dirty_node ni) 0);; shm (mwrite 8 (ni_used_row ni) 0);; shm (mwrite 8 (ni_dirty_row ni) 0);; mret 0) (p, s) Q.
Proof.
  intros HR HB HF Hst HQ. destruct (bt_linked _ _ _ HB) as (_ & Ei & Hi). subst ni. rewrite Ei.
  assert (H0 : 0 < hof G (RSet 0) < 2 ^ 64) by (apply (Rep_handle s G); [done|]; apply (boot_geo p G 3 0); [done|lia]).
  apply wp_bind, wp_shm, (wp_put s G (LInfo ISys)); [done|done|done|done|done|change (256 ^ Z.of_nat 8) with (2 ^ 64); lia|]. intros s1 H1. set (G1 := upd _ _ G) in *.
  apply wp_bind, wp_shm, (wp_put s1 G1 (LInfo IUsedNg)); [done|done|done|done|done|done|]. intros s2 H2. set (G2 := upd _ _ G1) in *.
  apply wp_bind, wp_shm, (wp_put s2 G2 (LInfo IUsedNode)); [done|done|done|done|done|done|]. intros s3 H3. set (G3 := upd _ _ G2) in *.
  apply wp_bind, wp_shm, (wp_put s3 G3 (LInfo IDirtyNode)); [done|done|done|done|done|done|]. intros s4 H4. set (G4 := upd _ _ G3) in *.
  apply wp_bind, wp_shm, (wp_put s4 G4 (LInfo IUsedRow)); [done|done|done|done|done|done|]. intros s5 H5. set (G5 := upd _ _ G4) in *.
  apply wp_bind, wp_shm, (wp_put s5 G5 (LInfo IDirtyRow)); [done|done|done|done|done|done|]. intros s6 H6. apply wp_ret, (HQ s6 _ H6); [|by split].
  apply boot_table; [|done|done|done|done]. assert (B2 : booting p G2 3).
  { apply (booting_ext p G); [done|done|done|done|apply HB|destruct (bt_index _ _ _ HB); by split|done| |apply HB]. intros l Hl. unfold G2. destruct (decide (l = LInfo IUsedNg)) as [->|Hne].
    - rewrite val_upd. cbn. rewrite (bo_ngs _ (bt_base _ _ _ HB)), (bt_nsets _ _ _ HB). done.
    - rewrite val_upd_ne by done. apply val_upd_ne. intros <-. cbn in Hl. set_solver. }
  do 4 (apply booting_upd; [|cbn; set_solver|done]). done.
Qed.

Lemma wp_NGInfo_Init p s G (Q : Z -> Pool * S -> Prop) : Rep s G -> bare p G -> 1 <= alloc_step p -> (forall p' s', Q (-1) (p', s')) ->
  (forall s' G' v, Rep s' G' -> table_ok (set_ngInfo v p) G' ∅ none none none -> apart G G' -> Q 0 (set_ngInfo v p, s')) -> wp NGInfo_Init (p, s) Q.
Proof.
  intros HR [A1 A2 A3 A4 A5 A6] Hst HQ1 HQ. unfold NGInfo_Init. apply wp_bind, wp_shm.
  assert (Hb0 : 0 <= nbkt G) by (destruct HR as (A & _ & HG); apply HG).
  destruct (Rep_calloc s G RInfo (nbkt G) sizeof_NG_INFO HR A4 Hb0 (or_intror eq_refl)) as (v & s1 & E & Hc); [done|].
  exists v, s1. split; [exact E|]. clear E. unfold INVALID_HANDLE. destruct Hc as [[-> HR1]|(Hv & _ & HR1)]; [by apply wp_ret, HQ1|].
  rewrite (proj2 (Z.eqb_neq v 0)) by done. apply wp_assign. set (G1 := adopt _ _ _ _) in *. set (p1 := set_ngInfo v p).
  assert (Hv1 : hof G1 RInfo = v) by apply fn_lookup_insert. assert (Hr1 : forall r, r <> RInfo -> hof G1 r = hof G r) by (intros r Hr; by apply fn_lookup_insert_ne).
  assert (Hp1 : linked p1 G1) by (split; [by rewrite Hr1|by rewrite Hv1]). assert (H01 : apart G G1) by by split.
  assert (E1 : InitHeader v = InitHeader (_ngInfo p1)) by done. rewrite E1. clear E1.
  unfold InitHeader. apply (wp_heads p1 s1 G1); [done|done| |by rewrite Hr1|intros k; by rewrite Hr1|done|done|].
  { destruct A2 as [I1 I2]. split; [by rewrite Hr1|]. intros i Hi. rewrite Hr1, <-I2 by done. by apply (val_adopt RInfo v (nbkt G) G (LFi i)). }
  intros s2 G2 HR2 HH2 H12. pose proof (headed_base _ _ HH2) as HB2.
  apply wp_bind, (wp_allocate_ng p1 s2 G2); [done|apply HH2|done|intros s' _; by apply wp_ret, HQ1|].
  intros s3 G3 HR3 Hp3 HB3 HW. destruct (headed_boot p1 G2 G3 HH2 HW Hp3 HB3) as [HB H23]. rewrite (he_nsets _ _ HH2).
  rewrite (proj2 (Z.eqb_neq _ 0)) by (apply (boot_geo p1 G3 0 0); [done|lia]).
  apply wp_bind, (wp_system_reserved_init p1 s3 G3); [done|done|]. intros s4 G4 HR4 HB4 H34 Es4 HF4. rewrite <-Es4.
  apply (wp_boot_writes p1 s4 G4); [done|done|done|done|]. intros s5 G5 HR5 HT5 H45. apply (HQ s5 G5 v HR5 HT5).
  do 4 (eapply apart_trans; [eassumption|]). done.
Qed.
End Init.
