(* ===== verification/NodeSpec.v ===== *)
(** What the node table promises: nodes with attributes, each in at most one of three
    lists. Ids stay valid until they are released, whatever the allocator does. *)
From Stdlib Require Import ZArith Lia.
From stdpp Require Import functions base list list_numbers numbers gmap.
From S2P Require Import Prelude Mem PtMalloc PtHeap PtOps PtSpec Mallocator Bump NodeTable NodeRep NodeAcc NodeLru NodeGroup NodeNg NodeInv NodeAlloc NodeOps NodeAllot NodeRelease NodeLists NodeInit.
Import AllocSpec Bump.
Local Open Scope Z_scope.

Module NodeSpec.

(** ** Going round a list *)

(** What follows [x] in [xs]; [d] comes after the last. *)
Fixpoint follow (x : Z) (xs : list Z) (d : Z) : Z :=
  match xs with [] => d | y :: ys => if decide (y = x) then List.hd d ys else follow x ys d end.

Lemma path_follow f xs b : forall a x, path f a xs b -> NoDup (a :: xs) -> x ∈ a :: xs -> f x true = follow x (a :: xs) b.
Proof.
  induction xs as [|y ys IH]; intros a x; cbn [path].
  - intros [E _] _ ->%list_elem_of_singleton. cbn. by rewrite decide_True.
  - intros (E1 & E2 & Hp) [Ha Hn]%NoDup_cons Hx. change (follow x (a :: y :: ys) b) with (if decide (a = x) then y else follow x (y :: ys) b).
    destruct (decide (a = x)) as [->|Hne]; [done|]. apply IH; [done|done|]. apply elem_of_cons in Hx as [->|?]; done.
Qed.
Definition turn (f : Z -> bool -> Z) : Z -> bool -> Z := fun x b => f x (negb b).
Lemma path_snoc f a xs x b : path f a (xs ++ [x]) b <-> path f a xs x /\ f x true = b /\ f b false = x.
Proof. rewrite path_app. cbn. tauto. Qed.
Lemma path_reverse f xs : forall a b, path f a xs b -> path (turn f) b (reverse xs) a.
Proof.
  induction xs as [|x xs IH]; intros a b; cbn [path].
  - intros [E1 E2]. by split.
  - intros (E1 & E2 & Hp). rewrite reverse_cons, path_snoc. split; [by apply IH|]. by split.
Qed.

(** The neighbours of [x] in the list [xs] of the head [h]. *)
Definition neighbour (next : bool) (h : Z) (xs : list Z) (x : Z) : Z := follow x (h :: if next then xs else reverse xs) h.
Lemma ring_neighbour f h xs x b : ring f h xs -> NoDup (h :: xs) -> x ∈ h :: xs -> f x b = neighbour b h xs x.
Proof.
  intros Hr Hn Hx. destruct b; [by apply path_follow|]. apply (path_follow (turn f)); [by apply path_reverse|..].
  - by rewrite reverse_Permutation.
  - by rewrite reverse_Permutation.
Qed.

(** ** The abstract table *)

Record attrs := mkAttrs { a_next : Z; a_handle : Z; a_dirty : bool }.
Inductive lru_list := Dirty | Clean | Empty.
#[export] Instance lru_list_eq_dec : EqDecision lru_list.
Proof. solve_decision. Defined.
Definition head_of (w : lru_list) : Z :=
  match w with Dirty => SYS_DIRTY_NODE_INDEX | Clean => SYS_CLEAN_NODE_INDEX | Empty => SYS_EMPTY_NODE_INDEX end.

(** [v_spare] are released nodes that have not been handed out again. *)
Record view := mkView { v_nodes : gmap Z attrs; v_list : lru_list -> list Z; v_spare : gset Z }.

(** A place in a list: its head, or a node. *)
Inductive place := Head (w : lru_list) | At (id : Z).
Inductive op :=
  | OAllocate
  | ORelease (id : Z)
  | OInsert (w : lru_list) (id : Z)
  | ORemove (id : Z)
  | ORead (id : Z)
  | OSetNext (id v : Z)
  | OSetHandle (id v : Z)
  | OSetDirty (id : Z) (b : bool)
  | ONear (next : bool) (x : place)
  | OUsed.

(** [ANode id found]: [found] says that the index finds the new node. *)
Inductive answer :=
  | ANone
  | ANode (id : Z) (found : bool)
  | ACode (r : Z)
  | AAttrs (a : attrs)
  | AId (id : Z).

Section Exec.
Context {S : Type} `{!Mallocator S}.
#[local] Abbreviation PS := (ST (Pool * S)).

(** A client names a node by its id and gets it from the index. *)
Definition insert2 (w : lru_list) : Node -> PS Z :=
  match w with Dirty => insert2_dirty_lru | Clean => insert2_clean_lru | Empty => insert2_empty_lru end.
Definition list_head (w : lru_list) : PS Node :=
  match w with Dirty => dirty_node_head | Clean => clean_node_head | Empty => empty_node_head end.
Definition read_attrs (n : Node) : PS answer :=
  x ← shm (next_node_id n); h ← shm (vd_handle n); d ← shm (is_dirty n); mret (AAttrs (mkAttrs x h d)).
Definition exec (o : op) : PS answer :=
  match o with
  | OAllocate =>
    n ← allocate_node; if no_node n then mret ANone else id ← shm (node_id n); m ← Index_Search id; mret (ANode id (negb (no_node m)))
  | ORelease id => n ← Index_Search id; r ← release_node n; mret (ACode r.1)
  | OInsert w id => n ← Index_Search id; r ← insert2 w n; mret (ACode r)
  | ORemove id => n ← Index_Search id; r ← remove_from_lru n; mret (ACode r)
  | ORead id => n ← Index_Search id; read_attrs n
  | OSetNext id v => n ← Index_Search id; shm (put_next_node_id n v);; mret (ACode 0)
  | OSetHandle id v => n ← Index_Search id; shm (put_vd_handle n v);; mret (ACode 0)
  | OSetDirty id b => n ← Index_Search id; shm (if b then set_dirty n else clr_dirty n);; mret (ACode 0)
  | ONear next x =>
    n ← (match x with Head w => list_head w | At id => Index_Search id end); m ← (if next then node_Next n else node_Prev n); id ← shm (node_id m); mret (AId id)
  | OUsed => v ← total_used_node; mret (ACode v)
  end.

Definition start (mem_size : Z) : PS Z := r ← Index_Init mem_size; if negb (r =? 0) then mret r else NGInfo_Init.

Abbreviation trace := (list (op * answer)).
Fixpoint run (client : trace -> option op) (n : nat) (tr : trace) : PS trace :=
  match n with
  | O => mret tr
  | Datatypes.S n => match client tr with None => mret tr | Some o => a ← exec o; run client n (tr ++ [(o, a)]) end
  end.
End Exec.
Abbreviation trace := (list (op * answer)).

(** ** The specification *)

Definition start_view : view := mkView ∅ (fun _ => []) ∅.
Definition set_node (id : Z) (a : attrs) (v : view) : view := mkView (<[id := a]> (v_nodes v)) (v_list v) (v_spare v).
Definition new_node (id : Z) (a : attrs) (v : view) : view := mkView (<[id := a]> (v_nodes v)) (v_list v) (v_spare v ∖ {[id]}).
Definition in_list (v : view) (id : Z) : Prop := exists w, id ∈ v_list v w.

(** [None] is the table after an allocation whose node the index does not know, for want of
    memory for a second-level map: [allocate_node] ignores that failure, and nothing is
    promised from there on. *)
Definition spec_step (v : view) (o : op) (a : answer) (w : option view) : Prop :=
  match o with
  | OAllocate =>
    (a = ANone /\ v_spare v = ∅ /\ w = Some v) \/
    (exists id h, a = ANode id true /\ v_nodes v !! id = None /\ 256 <= id < INVALID_NODE_ID /\ ~ in_list v id /\ w = Some (new_node id (mkAttrs INVALID_NODE_ID h false) v)) \/
    (exists id, a = ANode id false /\ w = None)
  | ORelease id => a = ACode 0 /\ w = Some (mkView (delete id (v_nodes v)) (v_list v) ({[id]} ∪ v_spare v))
  | OInsert l id => a = ACode 0 /\ w = Some (mkView (v_nodes v) (<[l := id :: v_list v l]> (v_list v)) (v_spare v))
  | ORemove id => a = ACode 0 /\ exists lists, (forall l, lists l = filter (fun x => x <> id) (v_list v l)) /\ w = Some (mkView (v_nodes v) lists (v_spare v))
  | ORead id => exists x, v_nodes v !! id = Some x /\ a = AAttrs x /\ w = Some v
  | OSetNext id x => exists y, v_nodes v !! id = Some y /\ a = ACode 0 /\ w = Some (set_node id (mkAttrs x (a_handle y) (a_dirty y)) v)
  | OSetHandle id x => exists y, v_nodes v !! id = Some y /\ a = ACode 0 /\ w = Some (set_node id (mkAttrs (a_next y) x (a_dirty y)) v)
  | OSetDirty id x => exists y, v_nodes v !! id = Some y /\ a = ACode 0 /\ w = Some (set_node id (mkAttrs (a_next y) (a_handle y) x) v)
  | ONear next (Head l) => a = AId (neighbour next (head_of l) (v_list v l) (head_of l)) /\ w = Some v
  | ONear next (At id) => w = Some v /\
      ((exists l, id ∈ v_list v l /\ a = AId (neighbour next (head_of l) (v_list v l) id)) \/ (~ in_list v id /\ a = AId id))
  | OUsed => a = ACode (Z.of_nat (size (v_nodes v))) /\ w = Some v
  end.

(** What clients see to: ids are of nodes that were handed out and not released, a node is
    put into a list only when it is in none, and released only then. *)
Definition legal (v : view) (o : op) : Prop :=
  match o with
  | OAllocate | OUsed | ONear _ (Head _) => True
  | ORelease id | OInsert _ id => is_Some (v_nodes v !! id) /\ ~ in_list v id
  | ORemove id | ORead id | OSetDirty id _ | ONear _ (At id) => is_Some (v_nodes v !! id)
  | OSetNext id x => is_Some (v_nodes v !! id) /\ 0 <= x < 2 ^ 32
  | OSetHandle id x => is_Some (v_nodes v !! id) /\ 0 <= x < 2 ^ 64
  end.

Inductive spec_trace : trace -> option view -> Prop :=
  | st_nil : spec_trace [] (Some start_view)
  | st_snoc tr v o a w : spec_trace tr (Some v) -> legal v o -> spec_step v o a w -> spec_trace (tr ++ [(o, a)]) w.

(** Clients that keep to the rules, and stop when the index does not find a new node. *)
Definition well_behaved (client : trace -> option op) : Prop :=
  forall tr w o, spec_trace tr w -> client tr = Some o -> exists v, w = Some v /\ legal v o.

(** ** The implementation *)

Section Spec.
Context {S : Type} `{!Mallocator S, !MallocatorLaws S} (F : blocks).
Implicit Types (s : S) (G : table) (p : Pool).
#[local] Abbreviation PS := (ST (Pool * S)).

(** [F] are the other blocks of the segment: the table leaves them alone. *)
Definition attrs_of (G : table) (id : Z) : attrs := mkAttrs (nxt G id) (vdh G id) (dirty_bit G id).
(** An id whose place in its group has been handed out at least once. *)
Definition allotted_id (G : table) (id : Z) : Prop := 256 <= id < 256 * nsets G /\ id mod 256 < hdr G (id / 256) SFree.
Lemma allotted_kept N G G' id : kept N G G' -> allotted_id G id -> allotted_id G' id.
Proof. intros HK [H1 H2]. pose proof (kp_nsets _ _ _ HK). split; [lia|]. pose proof (kp_free _ _ _ HK (id / 256)). assert (0 <= id / 256 < nsets G) by zdm. lia. Qed.
(** When no group has room, the places handed out once are all in use. *)
Lemma no_room p G N L st NL x : table_ok p G N L st NL -> NL (-1) = [] -> allotted_id G x -> x ∈ N.
Proof.
  intros HT E [Hr Hf]. pose proof (tb_nodes _ _ _ _ _ _ HT) as [_ N2]. pose proof (tb_groups _ _ _ _ _ _ HT) as [_ S2 S3]. assert (Hk : 1 <= x / 256 < nsets G) by zdm.
  apply N2. split; [done|]. split; [done|]. intros Hst. destruct (proj2 (S2 (x / 256)) Hk) as [Hin|Hin].
  - rewrite E in Hin. by apply not_elem_of_nil in Hin.
  - apply S3 in Hin as [E' _]; [|done]. rewrite E' in Hst. by apply not_elem_of_nil in Hst.
Qed.
Record shows (p : Pool) (G : table) (L st NL : Z -> list Z) (v : view) : Prop := {
  sh_table : table_ok p G (dom (v_nodes v)) L st NL;
  sh_lists w : L (head_of w) = v_list v w;
  sh_attrs id a : v_nodes v !! id = Some a -> attrs_of G id = a;
  sh_spare x : x ∈ v_spare v -> allotted_id G x /\ v_nodes v !! x = None;
  sh_rest : rest G = F
}.
Definition Refines (p : Pool) (s : S) (v : view) : Prop := exists G L st NL, Rep s G /\ shows p G L st NL v.
Definition RefinesO (p : Pool) (s : S) (w : option view) : Prop := match w with Some v => Refines p s v | None => True end.
Definition step_post (v : view) (o : op) (a : answer) (st : Pool * S) : Prop := exists w, spec_step v o a w /\ RefinesO st.1 st.2 w.

Lemma head_in w : head_of w ∈ heads.
Proof. unfold heads. rewrite !elem_of_cons. destruct w; tauto. Qed.
Lemma head_inj w w' : head_of w = head_of w' -> w = w'.
Proof. by destruct w, w'. Qed.
Lemma heads_of h : h ∈ heads -> exists w, h = head_of w.
Proof. unfold heads. rewrite !elem_of_cons, elem_of_nil. intros [->|[->|[->|[]]]]; [by exists Dirty|by exists Clean|by exists Empty]. Qed.

Section Step.
Context (p : Pool) (s : S) (G : table) (L st NL : Z -> list Z) (v : view).
Hypothesis HR : Rep s G.
Hypothesis HS : shows p G L st NL v.
#[local] Abbreviation HT := (sh_table _ _ _ _ _ _ HS).

Lemma shown_listed id : id ∈ dom (v_nodes v) -> listed heads L id <-> in_list v id.
Proof.
  intros Hid. split.
  - intros Hl. destruct (listed_in _ _ _ _ _ _ HT id Hid Hl) as (h & Hh & Hx). destruct (heads_of h Hh) as [w ->]. exists w. by rewrite <-(sh_lists _ _ _ _ _ _ HS).
  - intros [w Hx]. exists (head_of w). split; [apply head_in|]. right. by rewrite (sh_lists _ _ _ _ _ _ HS).
Qed.
Lemma wp_found {B} id (f : Node -> PS B) (Q : B -> Pool * S -> Prop) : is_Some (v_nodes v !! id) -> wp (f (nd G id)) (p, s) Q -> wp (n ← Index_Search id; f n) (p, s) Q.
Proof.
  intros Hid%elem_of_dom HQ. apply wp_bind, (wp_Search p s G); [done|apply HT|by apply (live_ready _ _ _ _ _ _ HT)|done].
Qed.
Lemma shown_geo id : is_Some (v_nodes v !! id) -> set_geo G (id / 256).
Proof. intros Hid%elem_of_dom. by apply (live_ready _ _ _ _ _ _ HT). Qed.

(** An attribute of a node is set. *)
Lemma set_attr l x id a : free_cell (dom (v_nodes v)) l -> is_Some (v_nodes v !! id) ->
  (forall y, nxt (upd l x G) y = (if decide (y = id) then a_next a else nxt G y)) -> (forall y, vdh (upd l x G) y = (if decide (y = id) then a_handle a else vdh G y)) ->
  (forall y, dirty_bit (upd l x G) y = (if decide (y = id) then a_dirty a else dirty_bit G y)) -> shows p (upd l x G) L st NL (set_node id a v).
Proof.
  intros Hl Hid H1 H2 H3. split.
  - cbn. rewrite dom_insert_L, subseteq_union_1_L by (apply singleton_subseteq_l; by apply elem_of_dom). by apply (table_free _ _ _ _ _ _ HT).
  - apply (sh_lists _ _ _ _ _ _ HS).
  - intros y b Hy. cbn in Hy. unfold attrs_of. rewrite H1, H2, H3. destruct (decide (y = id)) as [->|Hne].
    + rewrite lookup_insert_eq in Hy. injection Hy as <-. by destruct a.
    + rewrite lookup_insert_ne in Hy by done. by apply (sh_attrs _ _ _ _ _ _ HS).
  - intros y Hy. destruct (sh_spare _ _ _ _ _ _ HS y Hy) as [[Ha Hb] Hn]. split.
    + split; [by rewrite upd_nsets|]. change (hdr (upd l x G) (y / 256) SFree) with (val (upd l x G) (LSet (y / 256) SFree)). rewrite val_upd_ne; [done|]. by intros ->.
    + cbn. rewrite lookup_insert_ne; [done|]. intros <-. rewrite Hn in Hid. by destruct Hid.
  - rewrite upd_rest. apply HS.
Qed.

(** The nodes stay, the lists change. *)
Lemma set_lists f L' lists : table_ok p (with_lru f G) (dom (v_nodes v)) L' st NL -> (forall w, L' (head_of w) = lists w) ->
  shows p (with_lru f G) L' st NL (mkView (v_nodes v) lists (v_spare v)).
Proof. intros HT' HL. split; [done|done|apply (sh_attrs _ _ _ _ _ _ HS)|apply (sh_spare _ _ _ _ _ _ HS)|apply HS]. Qed.

Lemma step_read id : is_Some (v_nodes v !! id) -> wp (exec (ORead id)) (p, s) (step_post v (ORead id)).
Proof.
  intros Hid. pose proof (shown_geo id Hid) as HG. apply (wp_found id); [done|].
  apply wp_bind, wp_shm, (wp_next_node_id s G id HR HG), wp_bind, wp_shm, (wp_vd_handle s G id HR HG), wp_bind, wp_shm, (wp_is_dirty s G id HR HG), wp_ret.
  destruct Hid as [a Ha]. exists (Some v). split; [|by exists G, L, st, NL]. exists a. split; [done|]. split; [|done].
  by rewrite <-(sh_attrs _ _ _ _ _ _ HS id a Ha).
Qed.
Lemma step_set o l x id a s' : free_cell (dom (v_nodes v)) l -> is_Some (v_nodes v !! id) -> spec_step v o (ACode 0) (Some (set_node id a v)) ->
  (forall y, nxt (upd l x G) y = (if decide (y = id) then a_next a else nxt G y)) -> (forall y, vdh (upd l x G) y = (if decide (y = id) then a_handle a else vdh G y)) ->
  (forall y, dirty_bit (upd l x G) y = (if decide (y = id) then a_dirty a else dirty_bit G y)) -> Rep s' (upd l x G) -> step_post v o (ACode 0) (p, s').
Proof. intros Hl Hid Ho H1 H2 H3 H4. eexists. split; [exact Ho|]. exists (upd l x G), L, st, NL. split; [done|]. by apply set_attr. Qed.

Lemma step_set_next id x : legal v (OSetNext id x) -> wp (exec (OSetNext id x)) (p, s) (step_post v (OSetNext id x)).
Proof.
  intros [Hid Hx]. apply (wp_found id); [done|]. apply wp_bind, wp_shm, (wp_put_next_node_id s G id HR (shown_geo id Hid)); [done|]. intros s' H'. apply wp_ret.
  pose proof Hid as [a Ha]. pose proof (sh_attrs _ _ _ _ _ _ HS id a Ha) as Ea.
  apply (step_set _ (LNext id) x id (mkAttrs x (a_handle a) (a_dirty a))); [done|done|by exists a|..]; try done; intros y.
  - cbn. destruct (decide (y = id)) as [->|]; [by rewrite fn_lookup_insert|by rewrite fn_lookup_insert_ne].
  - cbn. rewrite <-Ea. by destruct (decide (y = id)) as [->|].
  - cbn. rewrite <-Ea. by destruct (decide (y = id)) as [->|].
Qed.
Lemma step_set_handle id x : legal v (OSetHandle id x) -> wp (exec (OSetHandle id x)) (p, s) (step_post v (OSetHandle id x)).
Proof.
  intros [Hid Hx]. apply (wp_found id); [done|]. apply wp_bind, wp_shm, (wp_put_vd_handle s G id HR (shown_geo id Hid)); [done|]. intros s' H'. apply wp_ret.
  pose proof Hid as [a Ha]. pose proof (sh_attrs _ _ _ _ _ _ HS id a Ha) as Ea.
  apply (step_set _ (LVd id) x id (mkAttrs (a_next a) x (a_dirty a))); [by apply elem_of_dom|done|by exists a|..]; try done; intros y.
  - cbn. rewrite <-Ea. by destruct (decide (y = id)) as [->|].
  - cbn. destruct (decide (y = id)) as [->|]; [by rewrite fn_lookup_insert|by rewrite fn_lookup_insert_ne].
  - cbn. rewrite <-Ea. by destruct (decide (y = id)) as [->|].
Qed.
Lemma step_set_dirty id b : legal v (OSetDirty id b) -> wp (exec (OSetDirty id b)) (p, s) (step_post v (OSetDirty id b)).
Proof.
  intros Hid. apply (wp_found id); [done|]. pose proof (shown_geo id Hid) as HG. pose proof Hid as [a Ha]. pose proof (sh_attrs _ _ _ _ _ _ HS id a Ha) as Ea.
  assert (H : forall s' x, (forall y, dirty_bit (upd (LDirty (id / 64)) x G) y = if decide (y = id) then b else dirty_bit G y) -> Rep s' (upd (LDirty (id / 64)) x G) ->
    step_post v (OSetDirty id b) (ACode 0) (p, s')).
  { intros s' x Hx H'. apply (step_set _ (LDirty (id / 64)) x id (mkAttrs (a_next a) (a_handle a) b)); [done|done|by exists a|..]; try done; intros y; cbn; rewrite <-Ea; by destruct (decide (y = id)) as [->|]. }
  destruct b.
  - apply wp_bind, wp_shm, (wp_set_dirty s G id HR HG). intros s' H'. apply wp_ret, (H s' _ (fun y => dirty_bit_set G id y) H').
  - apply wp_bind, wp_shm, (wp_clr_dirty s G id HR HG). intros s' H'. apply wp_ret, (H s' _ (fun y => dirty_bit_clr G id y) H').
Qed.

Lemma insert2_lru_of w n : insert2 w n = insert2_lru (head_of w) n.
Proof. by destruct w. Qed.
Lemma list_head_of w : list_head w = lru_head (head_of w).
Proof. by destruct w. Qed.

Lemma step_insert w id : legal v (OInsert w id) -> wp (exec (OInsert w id)) (p, s) (step_post v (OInsert w id)).
Proof.
  intros [Hid Hn]. apply (wp_found id); [done|]. assert (Hd : id ∈ dom (v_nodes v)) by by apply elem_of_dom.
  rewrite insert2_lru_of. apply wp_bind, (wp_insert2_lru p s G _ L st NL HR HT); [apply head_in|done|by rewrite shown_listed|].
  intros s' f HR' HT'. apply wp_ret. eexists. split; [by split|]. eexists _, _, st, NL. split; [exact HR'|]. apply (set_lists f _ _ HT').
  intros w'. destruct (decide (w' = w)) as [->|Hne]; [by rewrite !fn_lookup_insert, (sh_lists _ _ _ _ _ _ HS)|].
  rewrite !fn_lookup_insert_ne; [apply (sh_lists _ _ _ _ _ _ HS)|done|]. intros E. by apply Hne, head_inj.
Qed.

Lemma step_remove id : legal v (ORemove id) -> wp (exec (ORemove id)) (p, s) (step_post v (ORemove id)).
Proof.
  intros Hid. apply (wp_found id); [done|]. assert (Hd : id ∈ dom (v_nodes v)) by by apply elem_of_dom.
  apply wp_bind, (wp_unlist p s G _ L st NL HR HT); [done|]. intros s' f L' HR' HT' E. apply wp_ret.
  eexists. split; [split; [done|]; eexists; split; [|reflexivity]; intros w; reflexivity|].
  eexists _, _, st, NL. split; [exact HR'|]. apply (set_lists f _ _ HT'). intros w. rewrite E, (sh_lists _ _ _ _ _ _ HS) by apply head_in. done.
Qed.

Lemma live_allotted id : id ∈ dom (v_nodes v) -> allotted_id G id.
Proof. by intros (? & ? & _)%(no_live _ _ _ (tb_nodes _ _ _ _ _ _ HT)). Qed.
Lemma step_release id : legal v (ORelease id) -> wp (exec (ORelease id)) (p, s) (step_post v (ORelease id)).
Proof.
  intros [Hid Hn]. apply (wp_found id); [done|]. assert (Hd : id ∈ dom (v_nodes v)) by by apply elem_of_dom.
  apply wp_bind, (wp_release_node p s G (dom (v_nodes v)) L st NL id); [done|apply HT|done|by rewrite shown_listed|].
  intros s' G' st' NL' HR' HT' HK. apply wp_ret. eexists. split; [by split|]. exists G', L, st', NL'. split; [done|]. split.
  - cbn. by rewrite dom_delete_L.
  - apply (sh_lists _ _ _ _ _ _ HS).
  - intros x a Hx. cbn in Hx. apply lookup_delete_Some in Hx as [Hne Hx]. rewrite <-(sh_attrs _ _ _ _ _ _ HS x a Hx). unfold attrs_of.
    destruct (kp_node _ _ _ HK x) as (-> & -> & ->); [|done]. apply elem_of_difference. split; [by eapply elem_of_dom_2|]. rewrite elem_of_singleton. congruence.
  - intros x. cbn. rewrite elem_of_union, elem_of_singleton, lookup_delete_None. intros [->|Hx].
    + split; [by apply (allotted_kept _ G _ _ HK), live_allotted|by left].
    + destruct (sh_spare _ _ _ _ _ _ HS x Hx). split; [by eapply allotted_kept|by right].
  - rewrite (kp_rest _ _ _ HK). apply HS.
Qed.

(** A group with a spare node has room. *)
Lemma spare_room : NL (-1) = [] -> v_spare v = ∅.
Proof.
  intros E. apply set_eq. intros x. split; [|by intros ?%elem_of_empty]. intros Hx. destruct (sh_spare _ _ _ _ _ _ HS x Hx) as [Ha Hn].
  apply not_elem_of_dom in Hn. destruct (Hn (no_room _ _ _ _ _ _ x HT E Ha)).
Qed.
Lemma step_allocate : wp (exec OAllocate) (p, s) (step_post v OAllocate).
Proof.
  apply wp_bind, (wp_allocate_node p s G (dom (v_nodes v)) L st NL); [done|apply HT| |split].
  - intros E%spare_room s' HR'. apply wp_ret. exists (Some v). split; [by left|]. by exists G, L, st, NL.
  - intros p' s' G' st' NL' id HR' HT' Hid HK Hnx Hd _. assert (Hrd : ready G' id) by (apply (live_ready _ _ _ _ _ _ HT'); set_solver).
    rewrite node_there by apply Hrd. apply wp_bind, wp_shm, (wp_node_id s' G' id HR'); [apply Hrd|].
    apply wp_bind, (wp_Search p' s' G'); [done|apply HT'|done|]. apply wp_ret. rewrite node_there by apply Hrd.
    eexists. split; [right; left; exists id, (vdh G' id); split; [done|]; split; [by apply not_elem_of_dom|]; split; [|split; [|reflexivity]]|].
    + destruct (ready_small _ _ Hrd) as [Hr _]. pose proof (live_not_head _ _ _ _ _ _ HT' id ltac:(set_solver)). unfold INVALID_NODE_ID. lia.
    + intros [w Hx]. apply Hid. apply (ls_in _ _ _ (tb_lists _ _ _ _ _ _ HT) (head_of w)); [apply head_in|]. by rewrite (sh_lists _ _ _ _ _ _ HS).
    + exists G', L, st', NL'. split; [done|]. split; [by cbn; rewrite dom_insert_L|apply (sh_lists _ _ _ _ _ _ HS)| | |rewrite (kp_rest _ _ _ HK); apply HS].
      * intros x a Hx. cbn in Hx. unfold attrs_of. apply lookup_insert_Some in Hx as [[<- <-]|[Hne Hx]]; [by rewrite Hnx, Hd|].
        rewrite <-(sh_attrs _ _ _ _ _ _ HS x a Hx). destruct (kp_node _ _ _ HK x) as (-> & -> & ->); [by eapply elem_of_dom_2|done].
      * intros x. cbn. rewrite elem_of_difference, elem_of_singleton. intros [Hx Hne]. destruct (sh_spare _ _ _ _ _ _ HS x Hx).
        split; [by eapply allotted_kept|by rewrite lookup_insert_ne].
  - intros p' s' G' id HR' [Hp' HI' _ _ _] _ Hg' H0 _. rewrite node_there by done. apply wp_bind, wp_shm, (wp_node_id s' G' id HR'); [done|].
    apply wp_bind, (wp_Search_none p' s' G'); [done..|]. apply wp_ret. exists None. split; [|done]. right. right. by exists id.
Qed.

Lemma step_near next x : legal v (ONear next x) -> wp (exec (ONear next x)) (p, s) (step_post v (ONear next x)).
Proof.
  intros Hx. pose proof (tb_lists _ _ _ _ _ _ HT) as [[HL Ha] _].
  assert (Hstep : forall id, id ∈ dom (v_nodes v) \/ id ∈ heads -> spec_step v (ONear next x) (AId (lru G id next)) (Some v) ->
    wp (m ← (if next then node_Next (nd G id) else node_Prev (nd G id)); i ← shm (node_id m); mret (AId i)) (p, s) (step_post v (ONear next x))).
  { intros id Hid Ho. apply wp_bind, (wp_near p s G _ L st NL HR HT id next); [done|]. apply wp_bind, wp_shm, (wp_node_id s G _ HR).
    - destruct Hid as [Hid|Hid]; [by apply (near_ready _ _ _ _ _ _ HT)|]. apply (listed_ready _ _ _ _ _ _ HT id); [done|]. by apply (listed_near _ _ _ HL); [|left].
    - apply wp_ret. exists (Some v). split; [done|]. by exists G, L, st, NL. }
  assert (Hnb : forall w id, id ∈ head_of w :: L (head_of w) -> lru G id next = neighbour next (head_of w) (v_list v w) id).
  { intros w id Hin. rewrite <-(sh_lists _ _ _ _ _ _ HS). by apply ring_neighbour; [apply (rg_ring _ _ _ HL), head_in|apply (rg_nodup _ _ _ HL), head_in|]. }
  destruct x as [w|id].
  - unfold exec. rewrite list_head_of. apply wp_bind, (wp_lru_head p s G _ L st NL HR HT); [apply head_in|]. apply Hstep; [right; apply head_in|].
    split; [|done]. f_equal. by apply Hnb; left.
  - apply (wp_found id); [done|]. apply elem_of_dom in Hx. apply Hstep; [by left|]. split; [done|]. destruct (decide (listed heads L id)) as [Hl|Hl].
    + left. rewrite shown_listed in Hl by done. destruct Hl as [w Hw]. exists w. split; [done|]. f_equal. apply Hnb. right. by rewrite (sh_lists _ _ _ _ _ _ HS).
    + right. split; [by rewrite <-shown_listed|]. f_equal. pose proof (live_not_head _ _ _ _ _ _ HT id Hx). destruct (Ha id) as [E1 E2]; [lia|done|]. by destruct next.
Qed.

Lemma step_used : wp (exec OUsed) (p, s) (step_post v OUsed).
Proof.
  destruct (tb_linked _ _ _ _ _ _ HT) as (_ & Ei & Hi). unfold exec, total_used_node. apply wp_bind, wp_member, wp_shm. rewrite Ei.
  apply (wp_rd s G (LInfo IUsedNode)); [done|by split|done|done|]. apply wp_ret. exists (Some v). split; [|by exists G, L, st, NL].
  cbn [val]. rewrite (tb_used _ _ _ _ _ _ HT). by rewrite size_dom.
Qed.
End Step.

Lemma step_refines p s v o : Refines p s v -> legal v o -> wp (exec o) (p, s) (step_post v o).
Proof.
  intros (G & L & st & NL & HR & HS) Ho.
  destruct o as [|id|w id|id|id|id x|id x|id b|next x|]; [eapply step_allocate|eapply step_release|eapply step_insert|eapply step_remove|eapply step_read|eapply step_set_next|
    eapply step_set_handle|eapply step_set_dirty|eapply step_near|eapply step_used]; done.
Qed.

Lemma node_run client n : forall tr p s w, well_behaved client -> spec_trace tr w -> RefinesO p s w ->
  exists tr' p' s' w', run client n tr (p, s) = Ok (tr', (p', s')) /\ spec_trace tr' w' /\ RefinesO p' s' w'.
Proof.
  induction n as [|n IH]; intros tr p s w Hc Ht HR; cbn [run]; [by exists tr, p, s, w|].
  destruct (client tr) as [o|] eqn:Eo; [|by exists tr, p, s, w]. destruct (Hc tr w o Ht Eo) as (v & -> & Ho).
  destruct (step_refines p s v o HR Ho) as (a & [p1 s1] & E & w1 & Hs & H1). rewrite (bind_ok _ _ _ _ _ E).
  apply (IH _ p1 s1 w1); [done|by eapply st_snoc|done].
Qed.

Lemma start_refines p s m : heap s F -> 0 <= m < 2 ^ 60 -> 1 <= alloc_step p ->
  exists r p' s', start m (p, s) = Ok (r, (p', s')) /\ (r = -1 \/ (r = 0 /\ Refines p' s' start_view)).
Proof.
  intros HA Hm Hst. cut (wp (start m) (p, s) (fun r st => r = -1 \/ (r = 0 /\ Refines st.1 st.2 start_view))).
  { intros (r & [p' s'] & E & H). by exists r, p', s'. }
  apply wp_bind, (wp_Index_Init p s F m); [done|done|intros p' s'; apply wp_ret; by left|].
  intros s1 G1 v1 H1 B1 _ E1. apply (wp_NGInfo_Init _ s1 G1); [done|done|done|by left|].
  intros s2 G2 v2 H2 T2 A2. right. split; [done|]. exists G2, none, none, none. split; [done|]. split; [by cbn; rewrite dom_empty_L|by intros []|done|by intros x ?%elem_of_empty|].
  by rewrite (ap_rest _ _ A2).
Qed.
End Spec.

(** ** The properties *)

(** C6: the node table refines its specification: in any segment of any allocator that keeps
    its word, the set-up of the index and of the groups fails for want of memory or gives an
    empty table, and then every run of every client ends without a fault. Its answers are those
    of a map from ids to attributes and of three lists: new ids are fresh, released ones
    vanish, nodes are found by id, the links of the lists lead to the neighbours, and the
    blocks of the segment that are not the table's stay as they are. *)
Theorem node_table_refines {S : Type} `{!Mallocator S, !MallocatorLaws S} client n m p (s : S) A :
  heap s A -> 0 <= m < 2 ^ 60 -> 1 <= alloc_step p -> well_behaved client ->
  exists r p1 s1, start m (p, s) = Ok (r, (p1, s1)) /\
    (r = -1 \/ (r = 0 /\ exists tr p2 s2 w, run client n [] (p1, s1) = Ok (tr, (p2, s2)) /\ spec_trace tr w /\ RefinesO A p2 s2 w)).
Proof.
  intros HA Hm Hst Hc. destruct (start_refines A p s m HA Hm Hst) as (r & p1 & s1 & E & H). exists r, p1, s1. split; [done|].
  destruct H as [->|[-> H]]; [by left|]. right. split; [done|]. by apply (node_run A client n [] p1 s1 (Some start_view)); [|constructor|].
Qed.

(** The two levels of the index and the place in the group are the digits of an id: no two
    ids meet, and each digit stays inside its table. *)
Theorem index_digits id : 0 <= id < 2 ^ 32 ->
  id = OFFSET1 id * 2 ^ 24 + OFFSET2 id * 2 ^ 8 + id mod NODE_GROUP_INCLUDE_NODES /\
  0 <= fi_h 0 (OFFSET1 id) <= INDEX_1_SIZE - 8 /\ 0 <= si_h 0 (OFFSET2 id) <= INDEX_2_SIZE - 8.
Proof.
  intros Hid. destruct (offsets id Hid) as [-> ->]. unfold NODE_GROUP_INCLUDE_NODES, fi_h, si_h.
  change (2 ^ 24) with 16777216. change (2 ^ 8) with 256. change INDEX_1_SIZE with 2056. change INDEX_2_SIZE with 524296. change (2 ^ 32) with 4294967296 in Hid.
  zdm.
Qed.

(** ** Witnesses *)

(** A client that puts a node into a list, takes it out again and releases it. *)
Definition client0 (tr : trace) : option op :=
  match tr with
  | [] => Some OAllocate
  | [(_, ANode id true)] => Some (OInsert Dirty id)
  | [(_, ANode id true); (OInsert _ _, _)] => Some (ORemove id)
  | [(_, ANode id true); (OInsert _ _, _); (ORemove x, _)] => if x =? id then Some (ORelease id) else None
  | _ => None
  end.
Lemma trace_nil w : spec_trace [] w -> w = Some start_view.
Proof. intros H. remember ([] : trace) as tr eqn:E. destruct H as [|tr v o a w _ _ _]; [done|]. by destruct tr. Defined.
Lemma trace_snoc tr o a w : spec_trace (tr ++ [(o, a)]) w -> exists v, spec_trace tr (Some v) /\ legal v o /\ spec_step v o a w.
Proof.
  intros H. remember (tr ++ [(o, a)]) as tr' eqn:E. destruct H as [|tr' v o' a' w Ht Ho Hs]; [by destruct tr|].
  apply app_inj_tail in E as [-> [= -> ->]]. by exists v.
Defined.

Lemma first_step o id w : spec_trace [(o, ANode id true)] w -> exists h, w = Some (new_node id (mkAttrs INVALID_NODE_ID h false) start_view).
Proof.
  intros H. apply (trace_snoc []) in H as (v & Hv & _ & Hs). apply trace_nil in Hv as [= ->].
  destruct o as [| | | | | | | |next []|]; cbn in Hs; try naive_solver.
Defined.
Lemma second_step o id l x a w : spec_trace [(o, ANode id true); (OInsert l x, a)] w ->
  exists h spare, w = Some (mkView (<[id := mkAttrs INVALID_NODE_ID h false]> ∅) (<[l := [x]]> (fun _ => [])) spare).
Proof. intros H. apply (trace_snoc [_]) in H as (v & Hv & _ & Hs). apply first_step in Hv as [h [= ->]]. destruct Hs as [_ ->]. by eexists _, _. Defined.
Lemma client0_ok : well_behaved client0.
Proof.
  intros tr w o Ht Hc. destruct tr as [|[o1 [|id [|]| | |]] [|[o2 a2] [|[o3 a3] [|]]]]; try (by destruct o2 as [| | | | | | | |? []|]); try (by destruct o2, o3); try done.
  - injection Hc as <-. apply trace_nil in Ht as ->. by eexists.
  - injection Hc as <-. apply first_step in Ht as [h ->]. eexists. split; [done|]. split; [cbn; rewrite lookup_insert_eq; by eexists|]. by intros [l ?%not_elem_of_nil].
  - destruct o2 as [| |l x| | | | | |? []|]; try done. injection Hc as <-. apply second_step in Ht as (h & spare & ->). eexists. split; [done|].
    cbn. rewrite lookup_insert_eq. by eexists.
  - destruct o2 as [| |l x| | | | | |? []|], o3 as [| | |y| | | | |? []|]; try done. cbn in Hc. destruct (Z.eqb_spec y id) as [->|]; [|done]. injection Hc as <-.
    apply (trace_snoc [_; _]) in Ht as (v & Hv & _ & Hs). apply second_step in Hv as (h & spare & [= ->]). destruct Hs as (_ & lists & Hl & ->).
    eexists. split; [done|]. split; [cbn; rewrite lookup_insert_eq; by eexists|]. intros [l' Hin]. cbn in Hin. rewrite Hl in Hin. by apply list_elem_of_filter in Hin as [? _].
Defined.
Definition fresh_pool : Pool := Pool_new 1.
(** The set-up and the run of the client. *)
Definition outcome {S : Type} `{!Mallocator S} (client : trace -> option op) (n : nat) (m : Z) (st : Pool * S) : option (Z * trace) :=
  match start m st with
  | Ok (r, st) => match run client n [] st with Ok (tr, _) => Some (r, tr) | _ => None end
  | _ => None
  end.
Lemma outcome_inv {S : Type} `{!Mallocator S} client n m (st : Pool * S) r tr st1 : start m st = Ok (r, st1) ->
  outcome client n m st = Some (0, tr) -> r = 0 /\ forall tr' st2, run client n [] st1 = Ok (tr', st2) -> tr' = tr.
Proof.
  unfold outcome. intros -> H. destruct (run client n [] st1) as [[tr1 st2]| |]; [|done..]. injection H as -> ->. split; [done|]. by intros tr' st3 [= -> _].
Defined.
Definition trace0 : trace := [(OAllocate, ANode 256 true); (OInsert Dirty 256, ACode 0); (ORemove 256, ACode 0); (ORelease 256, ACode 0)].
Lemma node_table_refines_witness :
  outcome client0 4 65536 (fresh_pool, Bump.empty_bump) = Some (0, trace0) /\ exists w p s, spec_trace trace0 w /\ RefinesO (S := Bump.Bump) ∅ p s w.
Proof.
  destruct (node_table_refines client0 4 65536 fresh_pool Bump.empty_bump ∅ Bump.empty_holds) as (r & p1 & s1 & E & H); [lia|cbn; lia|exact client0_ok|].
  assert (C : outcome client0 4 65536 (fresh_pool, Bump.empty_bump) = Some (0, trace0)) by (vm_compute; reflexivity).
  split; [exact C|]. destruct (outcome_inv _ _ _ _ _ _ _ E C) as [-> Hrun]. destruct H as [H|[_ (tr & p2 & s2 & w & E2 & Ht & HR)]]; [discriminate H|].
  rewrite <-(Hrun _ _ E2). exact (ex_intro _ w (ex_intro _ p2 (ex_intro _ s2 (conj Ht HR)))).
Defined.

Lemma index_digits_witness : OFFSET1 0x1020304 = 1 /\ 0x1020304 = 2 ^ 24 + OFFSET2 0x1020304 * 2 ^ 8 + 4.
Proof. destruct (index_digits 0x1020304) as (E & _); [lia|]. split; [reflexivity|exact E]. Defined.

End NodeSpec.
