(* ===== verification/TTree.v ===== *)
(** T-trees: [cache/t_tree.h] and [cache/t_tree.cc].

    The tree that indexes the records of one key in the shared segment: a balanced
    binary tree whose nodes are pages of up to 20 record handles. The functions work on
    the allocator's memory through the interface of [Mallocator]; a node is named by
    its handle, and a reference parameter of the source is an additional result.
    Recursions and searches take fuel, which runs out in a [Fault]. *)
From Stdlib Require Import ZArith Lia SpecFloat.
From stdpp Require Import base list numbers gmap.
From S2P Require Import Prelude Value TableDef Field PtMalloc Mallocator.
Local Open Scope Z_scope.

Definition PAGE_SIZE : Z := 20.
Definition MIN_ITEMS : Z := PAGE_SIZE - 2.
(** [sizeof(TtreeNode)], which is packed. *)
Definition sizeof_TtreeNode : Z := 179.
Definition EC_KEY_EXIST : Z := 2042.

(** [cookie->m_pstTab] and [cookie->m_uchIdx] of [cache/tree_data.h]. *)
Record CmpCookie := mkCookie { m_pstTab : DTCTableDefinition; m_uchIdx : Z }.

Section TTree.
Context {S : Type} `{!Mallocator S}.

(** ** The fields of a node *)

Definition hLeft_of (p : Z) : ST S Z := mread 8 p.
Definition hRight_of (p : Z) : ST S Z := mread 8 (p + 8).
Definition chBalance_of (p : Z) : ST S Z := v ← mread 1 (p + 16); mret (s8 v).
Definition ushNItems_of (p : Z) : ST S Z := mread 2 (p + 17).
Definition item_addr (p i : Z) : Z := p + 19 + 8 * i.
Definition ahItems_of (p i : Z) : ST S Z := mread 8 (item_addr p i).
Definition put_hLeft (p v : Z) : ST S unit := mwrite 8 p v.
Definition put_hRight (p v : Z) : ST S unit := mwrite 8 (p + 8) v.
Definition put_chBalance (p v : Z) : ST S unit := mwrite 1 (p + 16) v.
Definition put_ushNItems (p v : Z) : ST S unit := mwrite 2 (p + 17) v.
Definition put_ahItems (p i v : Z) : ST S unit := mwrite 8 (item_addr p i) v.

(** [for (i = hi; i > lo; i--) m_ahItems[i] = m_ahItems[i - 1];] in [k = hi - lo] steps *)
Fixpoint move_up (p hi : Z) (k : nat) : ST S unit :=
  match k with
  | O => mret tt
  | Datatypes.S k => h ← ahItems_of p (hi - 1); put_ahItems p hi h;; move_up p (hi - 1) k
  end.

(** [for (i = lo; i < hi; i++) m_ahItems[i - 1] = m_ahItems[i];] in [k = hi - lo] steps *)
Fixpoint move_down (p lo : Z) (k : nat) : ST S unit :=
  match k with
  | O => mret tt
  | Datatypes.S k => h ← ahItems_of p lo; put_ahItems p (lo - 1) h;; move_down p (lo + 1) k
  end.

(** Loops over the items of a page, with the cookie [c] of a visitor; the body's result
    ends them when it is not 0. *)
Fixpoint for_up {C} (fuel : nat) (p i : Z) (body : Z -> C -> ST S (Z * C)) (c : C) : ST S (Z * C) :=
  match fuel with
  | O => fault
  | Datatypes.S fuel =>
    n ← ushNItems_of p;
    if i <? n then
      rc ← body i c;
      if negb (rc.1 =? 0) then mret rc else for_up fuel p (i + 1) body rc.2
    else mret (0, c)
  end.
Fixpoint for_down {C} (k : nat) (body : Z -> C -> ST S (Z * C)) (c : C) : ST S (Z * C) :=
  match k with
  | O => mret (0, c)
  | Datatypes.S k =>
    rc ← body (Z.of_nat k) c;
    if negb (rc.1 =? 0) then mret rc else for_down k body rc.2
  end.
Definition PAGE_FUEL : nat := 21.

Fixpoint clear_items (p i : Z) (k : nat) : ST S unit :=
  match k with
  | O => mret tt
  | Datatypes.S k => put_ahItems p i INVALID_HANDLE;; clear_items p (i + 1) k
  end.
Definition TtreeNode_Init (p : Z) : ST S Z :=
  put_hLeft p INVALID_HANDLE;;
  put_hRight p INVALID_HANDLE;;
  put_chBalance p 0;;
  put_ushNItems p 0;;
  clear_items p 0 (Z.to_nat PAGE_SIZE);;
  mret 0.

Definition TtreeNode_Alloc (hRecord : Z) : ST S Z :=
  h ← malloc sizeof_TtreeNode;
  if h =? INVALID_HANDLE then mret INVALID_HANDLE else
  TtreeNode_Init h;;
  put_ahItems h 0 hRecord;;
  put_ushNItems h 1;;
  mret h.

(** ** Keys

    The key of a record starts behind the type byte, two counters and the access count
    of the record. *)

Definition key_ptr (h : Z) : Z := h + (1 * 2 + 2 * 4).

(** A signed integer read through a cast pointer. *)
Definition get_s32 (p : Z) : ST S Z := v ← mread 4 p; mret (s32 v).
Definition get_s64 (p : Z) : ST S Z := v ← mread 8 p; mret (s64 v).

(** Conversion to [int64_t]: out of its range, and of a NaN, C gives it no meaning. *)
Definition dbl_to_s64 (f : spec_float) : outcome Z :=
  match f with
  | S754_zero _ => Ok 0
  | S754_finite s m e =>
    let v := if 0 <=? e then Zpos m * 2 ^ e else Zpos m / 2 ^ (- e) in
    let v := if s then - v else v in
    if decide (is_s 64 v) then Ok v else Fault
  | _ => Fault
  end.
(** The bits of 0.0001. *)
Definition dbl_eps : spec_float := dbl_of_bits 0x3F1A36E2EB1C432D.

(** [strncasecmp] in the C locale and [memcmp], of [n] bytes at [key] and at [p]. *)
Fixpoint strncasecmp (n : Z) (key : list Z) (p : Z) : ST S Z :=
  if n =? 0 then mret 0 else
  match key with
  | [] => fault
  | c1 :: key =>
    c2 ← mread 1 p;
    let d := ascii_lower c1 - ascii_lower c2 in
    if negb (d =? 0) then mret d
    else if c1 =? 0 then mret 0 else strncasecmp (n - 1) key (p + 1)
  end.
Fixpoint memcmp_at (n : Z) (key : list Z) (p : Z) : ST S Z :=
  if n =? 0 then mret 0 else
  match key with
  | [] => fault
  | c1 :: key =>
    c2 ← mread 1 p;
    if negb (c1 =? c2) then mret (cmp_sign (Z.compare c1 c2)) else memcmp_at (n - 1) key (p + 1)
  end.

(** The two string cases of [KeyCompare], which differ in [cmp]. *)
Definition compare_bin (cmp : Z -> list Z -> Z -> ST S Z) (value : DTCValue) (pOtherKey : Z) : ST S Z :=
  v ← lift (val_bin value);
  tKeyLen ← get_s32 pOtherKey;
  let keyLen := v.(len) in
  if (keyLen =? 0) && (tKeyLen =? 0) then mret 0
  else if keyLen =? 0 then mret (-1)
  else if tKeyLen =? 0 then mret 1
  else
    res ← cmp (u64 (if keyLen <? tKeyLen then keyLen else tKeyLen)) (mem_list v.(bytes)) (pOtherKey + 4);
    if keyLen =? tKeyLen then mret res
    else if res =? 0 then mret (if tKeyLen <? keyLen then 1 else -1)
    else mret res.

Definition KeyCompare (value : DTCValue) (cookie : CmpCookie) (hOtherKey : Z) : ST S Z :=
  let pOtherKey := key_ptr hOtherKey in
  let t_pstTab := cookie.(m_pstTab) in
  let idx := cookie.(m_uchIdx) in
  fieldType ← lift (field_type t_pstTab idx);
  size ← lift (field_size t_pstTab idx);
  if fieldType =? DField.Signed then
    skey ← lift (val_s64 value);
    sotherKey ← (if 4 <? size then get_s64 pOtherKey else get_s32 pOtherKey);
    mret (s64 (skey - sotherKey))
  else if fieldType =? DField.Unsigned then
    ukey ← lift (val_u64 value);
    uotherKey ← (if 4 <? size then mread 8 pOtherKey else mread 4 pOtherKey);
    mret (s64 (ukey - uotherKey))
  else if fieldType =? DField.Float then
    dkey ← lift (val_flt value);
    dotherKey ← (if 4 <? size then v ← mread 8 pOtherKey; mret (dbl_of_bits v) else v ← mread 4 pOtherKey; mret (flt_of_bits v));
    let sKey := SFsub 53 1024 (dbl_of_bits dkey) dotherKey in
    if SFltb (SFopp dbl_eps) sKey && SFltb sKey dbl_eps then mret 0 else lift (dbl_to_s64 sKey)
  else if fieldType =? DField.String then compare_bin strncasecmp value pOtherKey
  else if fieldType =? DField.Binary then compare_bin memcmp_at value pOtherKey
  else mret 0.

(** [n] bytes at [p]. *)
Fixpoint get_mem (n : nat) (p : Z) : ST S (list Z) :=
  match n with
  | O => mret []
  | Datatypes.S n => b ← mread 1 p; bs ← get_mem n (p + 1); mret (b :: bs)
  end.

(** The key of a record as a value. The pointer a string key gets goes into the record;
    here the value holds the bytes it points to. *)
Definition convert_cvalue (cookie : CmpCookie) (hReInsert : Z) : ST S DTCValue :=
  let t_pstTab := cookie.(m_pstTab) in
  let idx := cookie.(m_uchIdx) in
  fieldType ← lift (field_type t_pstTab idx);
  size ← lift (field_size t_pstTab idx);
  let pchKey := key_ptr hReInsert in
  if fieldType =? DField.Signed then
    v ← (if 4 <? size then get_s64 pchKey else get_s32 pchKey); mret (set_s64 v)
  else if fieldType =? DField.Unsigned then
    v ← (if 4 <? size then mread 8 pchKey else mread 4 pchKey); mret (set_u64 v)
  else if fieldType =? DField.Float then
    if 4 <? size then v ← mread 8 pchKey; mret (DWord v)
    else v ← mread 4 pchKey; mret (DWord (bits_of_dbl (flt_of_bits v)))
  else if (fieldType =? DField.String) || (fieldType =? DField.Binary) then
    l ← get_s32 pchKey; bs ← get_mem (Z.to_nat l) (pchKey + 4); mret (DBin (mkBin l (Some bs)))
  else mret (DWord 0).

(** ** Insertion *)

Definition KeyComparator : Type := DTCValue -> CmpCookie -> Z -> ST S Z.
Context (pCmpCookie : CmpCookie) (pfComp : KeyComparator).

(** [int iDiff = pfComp(...)]: the 64-bit result is cut to an [int]. *)
Definition iDiff (pchKey : DTCValue) (h : Z) : ST S Z := d ← pfComp pchKey pCmpCookie h; mret (s32 d).

(** After the left subtree has grown: the result and the new [hNode]. *)
Definition left_grown (hNode hLeft : Z) : ST S (Z * Z) :=
  let pstNode := hNode in
  b ← chBalance_of pstNode;
  if 0 <? b then put_chBalance pstNode 0;; mret (0, hNode)
  else if b =? 0 then put_chBalance pstNode (-1);; mret (1, hNode)
  else
    let pstLeft := hLeft in
    bl ← chBalance_of pstLeft;
    if bl <? 0 then
      h ← hRight_of pstLeft;
      put_hLeft pstNode h;;
      put_hRight pstLeft hNode;;
      put_chBalance pstNode 0;;
      put_chBalance pstLeft 0;;
      mret (0, hLeft)
    else
      hRight ← hRight_of pstLeft;
      let pstRight := hRight in
      h ← hLeft_of pstRight;
      put_hRight pstLeft h;;
      put_hLeft pstRight hLeft;;
      h ← hRight_of pstRight;
      put_hLeft pstNode h;;
      put_hRight pstRight hNode;;
      br ← chBalance_of pstRight;
      put_chBalance pstNode (if br <? 0 then 1 else 0);;
      br ← chBalance_of pstRight;
      put_chBalance pstLeft (if 0 <? br then -1 else 0);;
      put_chBalance pstRight 0;;
      mret (0, hRight).

(** After the right subtree has grown. *)
Definition right_grown (hNode hRight : Z) : ST S (Z * Z) :=
  let pstNode := hNode in
  b ← chBalance_of pstNode;
  if b <? 0 then put_chBalance pstNode 0;; mret (0, hNode)
  else if b =? 0 then put_chBalance pstNode 1;; mret (1, hNode)
  else
    let pstRight := hRight in
    br ← chBalance_of pstRight;
    if 0 <? br then
      h ← hLeft_of pstRight;
      put_hRight pstNode h;;
      put_hLeft pstRight hNode;;
      put_chBalance pstNode 0;;
      put_chBalance pstRight 0;;
      mret (0, hRight)
    else
      hLeft ← hLeft_of pstRight;
      let pstLeft := hLeft in
      h ← hRight_of pstLeft;
      put_hLeft pstRight h;;
      put_hRight pstLeft hRight;;
      h ← hLeft_of pstLeft;
      put_hRight pstNode h;;
      put_hLeft pstLeft hNode;;
      bl ← chBalance_of pstLeft;
      put_chBalance pstNode (if 0 <? bl then -1 else 0);;
      bl ← chBalance_of pstLeft;
      put_chBalance pstRight (if bl <? 0 then 1 else 0);;
      put_chBalance pstLeft 0;;
      mret (0, hLeft).

(** The binary search inside a page, in [Insert] and in [Find]: [inl i] when item [i]
    has the key, [inr iRight] when none has. *)
Fixpoint search_page (fuel : nat) (pstNode : Z) (pchKey : DTCValue) (iLeft iRight : Z) : ST S (Z + Z) :=
  match fuel with
  | O => fault
  | Datatypes.S fuel =>
    if iLeft <? iRight then
      let i := Z.shiftr (iLeft + iRight) 1 in
      h ← ahItems_of pstNode i;
      d ← iDiff pchKey h;
      if d =? 0 then mret (inl i)
      else if 0 <? d then search_page fuel pstNode pchKey (i + 1) iRight
      else search_page fuel pstNode pchKey iLeft i
    else mret (inr iRight)
  end.

(** [memcpy] of the items of a node to and from the backup. *)
Fixpoint save_items (p i : Z) (k : nat) : ST S (list Z) :=
  match k with
  | O => mret []
  | Datatypes.S k => h ← ahItems_of p i; hs ← save_items p (i + 1) k; mret (h :: hs)
  end.
Fixpoint restore_items (p i : Z) (hs : list Z) : ST S unit :=
  match hs with
  | [] => mret tt
  | h :: hs => put_ahItems p i h;; restore_items p (i + 1) hs
  end.

(** A full page makes room: the record is inserted at [iRight] and the item that leaves
    at one end, the side of the lower subtree, is returned. *)
Definition page_exchange (pstNode ushNodeCnt iRight hRecord : Z) : ST S Z :=
  b ← chBalance_of pstNode;
  if 0 <=? b then
    hReInsert ← ahItems_of pstNode 0;
    move_down pstNode 1 (Z.to_nat (iRight - 1));;
    put_ahItems pstNode (iRight - 1) hRecord;;
    mret hReInsert
  else
    hReInsert ← ahItems_of pstNode (ushNodeCnt - 1);
    move_up pstNode (ushNodeCnt - 1) (Z.to_nat (ushNodeCnt - 1 - iRight));;
    put_ahItems pstNode iRight hRecord;;
    mret hReInsert.

(** [pstNode->m_ushNItems++] *)
Definition incr_items (p : Z) : ST S unit := n ← ushNItems_of p; put_ushNItems p (n + 1).

(** The three parts of [Insert]: the key is below the first item, above the last one, or
    between them; [ins] is the recursive call, [d] the comparison made. *)
Definition insert_left (ins : Z -> DTCValue -> Z -> bool -> ST S (Z * Z * bool)) (hNode ushNodeCnt d : Z) (pchKey : DTCValue)
    (hRecord : Z) (isAllocNode : bool) : ST S (Z * Z * bool) :=
  let pstNode := hNode in
  hLeft ← hLeft_of pstNode;
  n ← ushNItems_of pstNode;
  if ((hLeft =? INVALID_HANDLE) || (d =? 0)) && (n <? PAGE_SIZE) then
    move_up pstNode ushNodeCnt (Z.to_nat ushNodeCnt);;
    put_ahItems pstNode 0 hRecord;;
    incr_items pstNode;;
    mret (0, hNode, isAllocNode)
  else if hLeft =? INVALID_HANDLE then
    hLeft ← TtreeNode_Alloc hRecord;
    if hLeft =? INVALID_HANDLE then mret (-1, hNode, isAllocNode) else
    put_hLeft pstNode hLeft;;
    r ← left_grown hNode hLeft;
    mret (r, true)
  else
    x ← ins hLeft pchKey hRecord isAllocNode;
    let '(iGrow, hChild, isAllocNode) := x in
    if iGrow <? 0 then mret (iGrow, hNode, isAllocNode) else
    (if negb (hChild =? hLeft) then put_hLeft pstNode hChild else mret tt);;
    if iGrow =? 0 then mret (0, hNode, isAllocNode) else
    r ← left_grown hNode hChild;
    mret (r, isAllocNode).

Definition insert_right (ins : Z -> DTCValue -> Z -> bool -> ST S (Z * Z * bool)) (hNode ushNodeCnt d : Z) (pchKey : DTCValue)
    (hRecord : Z) (isAllocNode : bool) : ST S (Z * Z * bool) :=
  let pstNode := hNode in
  hRight ← hRight_of pstNode;
  n ← ushNItems_of pstNode;
  if ((hRight =? INVALID_HANDLE) || (d =? 0)) && (n <? PAGE_SIZE) then
    put_ahItems pstNode ushNodeCnt hRecord;;
    incr_items pstNode;;
    mret (0, hNode, isAllocNode)
  else if hRight =? INVALID_HANDLE then
    hRight ← TtreeNode_Alloc hRecord;
    if hRight =? INVALID_HANDLE then mret (-1, hNode, isAllocNode) else
    put_hRight pstNode hRight;;
    r ← right_grown hNode hRight;
    mret (r, true)
  else
    x ← ins hRight pchKey hRecord isAllocNode;
    let '(iGrow, hChild, isAllocNode) := x in
    if iGrow <? 0 then mret (iGrow, hNode, isAllocNode) else
    (if negb (hChild =? hRight) then put_hRight pstNode hChild else mret tt);;
    if iGrow =? 0 then mret (0, hNode, isAllocNode) else
    r ← right_grown hNode hChild;
    mret (r, isAllocNode).

Definition insert_inside (ins : Z -> DTCValue -> Z -> bool -> ST S (Z * Z * bool)) (hNode ushNodeCnt : Z) (pchKey : DTCValue)
    (hRecord : Z) (isAllocNode : bool) : ST S (Z * Z * bool) :=
  let pstNode := hNode in
  x ← search_page PAGE_FUEL pstNode pchKey 1 (ushNodeCnt - 1);
  match x with
  | inl _ => mret (-2, hNode, isAllocNode)
  | inr iRight =>
    n ← ushNItems_of pstNode;
    if n <? PAGE_SIZE then
      move_up pstNode ushNodeCnt (Z.to_nat (ushNodeCnt - iRight));;
      put_ahItems pstNode iRight hRecord;;
      incr_items pstNode;;
      mret (0, hNode, isAllocNode)
    else
      stBackup ← save_items pstNode 0 (Z.to_nat PAGE_SIZE);
      hReInsert ← page_exchange pstNode ushNodeCnt iRight hRecord;
      pch ← convert_cvalue pCmpCookie hReInsert;
      x ← ins hNode pch hReInsert isAllocNode;
      (if x.1.1 <? 0 then restore_items pstNode 0 stBackup else mret tt);;
      mret x
  end.

(** Results: 1 when the subtree has grown in height, 0 when not, -1 when the allocator
    has no memory, -2 when the key is there; with [hNode] and [isAllocNode]. *)
Fixpoint TtreeNode_Insert (fuel : nat) (hNode : Z) (pchKey : DTCValue) (hRecord : Z) (isAllocNode : bool) : ST S (Z * Z * bool) :=
  match fuel with
  | O => fault
  | Datatypes.S fuel =>
    let pstNode := hNode in
    ushNodeCnt ← ushNItems_of pstNode;
    h ← ahItems_of pstNode 0;
    d ← iDiff pchKey h;
    if d =? 0 then mret (-2, hNode, isAllocNode)
    else if d <=? 0 then insert_left (TtreeNode_Insert fuel) hNode ushNodeCnt d pchKey hRecord isAllocNode
    else
      h ← ahItems_of pstNode (ushNodeCnt - 1);
      d ← iDiff pchKey h;
      if d =? 0 then mret (-2, hNode, isAllocNode)
      else if 0 <=? d then insert_right (TtreeNode_Insert fuel) hNode ushNodeCnt d pchKey hRecord isAllocNode
      else insert_inside (TtreeNode_Insert fuel) hNode ushNodeCnt pchKey hRecord isAllocNode
  end.

(** ** Deletion *)

(** After the left subtree has shrunk: 1 when the tree has shrunk too. *)
Definition balance_left_branch (hNode : Z) : ST S (Z * Z) :=
  let pstNode := hNode in
  b ← chBalance_of pstNode;
  if b <? 0 then put_chBalance pstNode 0;; mret (1, hNode)
  else if b =? 0 then put_chBalance pstNode 1;; mret (0, hNode)
  else
    hRight ← hRight_of pstNode;
    let pstRight := hRight in
    br ← chBalance_of pstRight;
    if 0 <=? br then
      h ← hLeft_of pstRight;
      put_hRight pstNode h;;
      put_hLeft pstRight hNode;;
      br ← chBalance_of pstRight;
      if br =? 0 then
        put_chBalance pstNode 1;;
        put_chBalance pstRight (-1);;
        mret (0, hRight)
      else
        put_chBalance pstNode 0;;
        put_chBalance pstRight 0;;
        mret (1, hRight)
    else
      hLeft ← hLeft_of pstRight;
      let pstLeft := hLeft in
      h ← hRight_of pstLeft;
      put_hLeft pstRight h;;
      put_hRight pstLeft hRight;;
      h ← hLeft_of pstLeft;
      put_hRight pstNode h;;
      put_hLeft pstLeft hNode;;
      bl ← chBalance_of pstLeft;
      put_chBalance pstNode (if 0 <? bl then -1 else 0);;
      bl ← chBalance_of pstLeft;
      put_chBalance pstRight (if bl <? 0 then 1 else 0);;
      put_chBalance pstLeft 0;;
      mret (1, hLeft).

Definition balance_right_branch (hNode : Z) : ST S (Z * Z) :=
  let pstNode := hNode in
  b ← chBalance_of pstNode;
  if 0 <? b then put_chBalance pstNode 0;; mret (1, hNode)
  else if b =? 0 then put_chBalance pstNode (-1);; mret (0, hNode)
  else
    hLeft ← hLeft_of pstNode;
    let pstLeft := hLeft in
    bl ← chBalance_of pstLeft;
    if bl <=? 0 then
      h ← hRight_of pstLeft;
      put_hLeft pstNode h;;
      put_hRight pstLeft hNode;;
      bl ← chBalance_of pstLeft;
      if bl =? 0 then
        put_chBalance pstNode (-1);;
        put_chBalance pstLeft 1;;
        mret (0, hLeft)
      else
        put_chBalance pstNode 0;;
        put_chBalance pstLeft 0;;
        mret (1, hLeft)
    else
      hRight ← hRight_of pstLeft;
      let pstRight := hRight in
      h ← hLeft_of pstRight;
      put_hRight pstLeft h;;
      put_hLeft pstRight hLeft;;
      h ← hRight_of pstRight;
      put_hLeft pstNode h;;
      put_hRight pstRight hNode;;
      br ← chBalance_of pstRight;
      put_chBalance pstNode (if br <? 0 then 1 else 0);;
      br ← chBalance_of pstRight;
      put_chBalance pstLeft (if 0 <? br then -1 else 0);;
      put_chBalance pstRight 0;;
      mret (1, hRight).

(** [for (i = 0; i < ushNodeCnt; i++) if (pfComp(...) == 0)]: the first item with the
    key, compared without the cast; [k] items from [i] on. *)
Fixpoint find_item (pstNode : Z) (pchKey : DTCValue) (i : Z) (k : nat) : ST S (option Z) :=
  match k with
  | O => mret None
  | Datatypes.S k =>
    h ← ahItems_of pstNode i;
    d ← pfComp pchKey pCmpCookie h;
    if d =? 0 then mret (Some i) else find_item pstNode pchKey (i + 1) k
  end.

(** [while (p->m_hRight != INVALID_HANDLE) GET_OBJ(..., p->m_hRight, p);] *)
Fixpoint rightmost (fuel : nat) (p : Z) : ST S Z :=
  match fuel with
  | O => fault
  | Datatypes.S fuel => h ← hRight_of p; if h =? INVALID_HANDLE then mret p else rightmost fuel h
  end.
Fixpoint leftmost (fuel : nat) (p : Z) : ST S Z :=
  match fuel with
  | O => fault
  | Datatypes.S fuel => h ← hLeft_of p; if h =? INVALID_HANDLE then mret p else leftmost fuel h
  end.

(** The item [i] of a page is removed and the page left shorter. *)
Definition remove_item (pstNode ushNodeCnt i : Z) : ST S unit :=
  move_down pstNode (i + 1) (Z.to_nat (ushNodeCnt - 1 - i));;
  n ← ushNItems_of pstNode;
  put_ushNItems pstNode (n - 1).

(** The recursive calls of [Delete] end alike: the child may have changed, and when it
    has shrunk the node is rebalanced. *)
Definition left_deleted (hNode hLeft iRet hChild : Z) : ST S (Z * Z) :=
  (if negb (hChild =? hLeft) then put_hLeft hNode hChild else mret tt);;
  if 0 <? iRet then balance_left_branch hNode else mret (iRet, hNode).
Definition right_deleted (hNode hRight iRet hChild : Z) : ST S (Z * Z) :=
  (if negb (hChild =? hRight) then put_hRight hNode hChild else mret tt);;
  if 0 <? iRet then balance_right_branch hNode else mret (iRet, hNode).

(** The item [i] gives way to the greatest record of the left subtree, or to the least of
    the right one, which is deleted there; [del] is the recursive call. *)
Definition delete_by_left (fuel : nat) (del : Z -> DTCValue -> bool -> ST S (Z * Z * bool)) (hNode hLeft i : Z) (isFreeNode : bool) :
    ST S (Z * Z * bool) :=
  let pstNode := hNode in
  pstLeft ← rightmost fuel hLeft;
  move_up pstNode i (Z.to_nat i);;
  n ← ushNItems_of pstLeft;
  h ← ahItems_of pstLeft (n - 1);
  put_ahItems pstNode 0 h;;
  h ← ahItems_of pstNode 0;
  pch ← convert_cvalue pCmpCookie h;
  x ← del hLeft pch isFreeNode;
  let '(iRet, hChild, isFreeNode) := x in
  if iRet <? -1 then mret (iRet, hNode, isFreeNode) else
  r ← left_deleted hNode hLeft iRet hChild;
  mret (r, isFreeNode).
Definition delete_by_right (fuel : nat) (del : Z -> DTCValue -> bool -> ST S (Z * Z * bool)) (hNode hRight ushNodeCnt i : Z) (isFreeNode : bool) :
    ST S (Z * Z * bool) :=
  let pstNode := hNode in
  pstRight ← leftmost fuel hRight;
  move_down pstNode (i + 1) (Z.to_nat (ushNodeCnt - 1 - i));;
  h ← ahItems_of pstRight 0;
  put_ahItems pstNode (ushNodeCnt - 1) h;;
  h ← ahItems_of pstNode (ushNodeCnt - 1);
  pch ← convert_cvalue pCmpCookie h;
  x ← del hRight pch isFreeNode;
  let '(iRet, hChild, isFreeNode) := x in
  if iRet <? -1 then mret (iRet, hNode, isFreeNode) else
  r ← right_deleted hNode hRight iRet hChild;
  mret (r, isFreeNode).

(** The key is item [i] of the page. *)
Definition delete_item (fuel : nat) (del : Z -> DTCValue -> bool -> ST S (Z * Z * bool)) (hNode ushNodeCnt i : Z) (isFreeNode : bool) :
    ST S (Z * Z * bool) :=
  let pstNode := hNode in
  hLeft ← hLeft_of pstNode;
  hRight ← hRight_of pstNode;
  if (ushNodeCnt =? 1) && (hRight =? INVALID_HANDLE) then
    free hNode;;
    mret (1, hLeft, isFreeNode)
  else if (ushNodeCnt =? 1) && (hLeft =? INVALID_HANDLE) then
    free hNode;;
    mret (1, hRight, isFreeNode)
  else
    let isFreeNode := if ushNodeCnt =? 1 then true else isFreeNode in
    b ← chBalance_of pstNode;
    if (ushNodeCnt <=? MIN_ITEMS) && (negb (hLeft =? INVALID_HANDLE) && (b <=? 0)) then
      delete_by_left fuel del hNode hLeft i isFreeNode
    else if (ushNodeCnt <=? MIN_ITEMS) && negb (hRight =? INVALID_HANDLE) then
      delete_by_right fuel del hNode hRight ushNodeCnt i isFreeNode
    else
      remove_item pstNode ushNodeCnt i;;
      mret (0, hNode, isFreeNode).

(** The part of [Delete] after the left subtree. *)
Definition delete_here (fuel : nat) (del : Z -> DTCValue -> bool -> ST S (Z * Z * bool)) (hNode ushNodeCnt : Z) (pchKey : DTCValue)
    (isFreeNode : bool) : ST S (Z * Z * bool) :=
  let pstNode := hNode in
  h ← ahItems_of pstNode (ushNodeCnt - 1);
  d ← iDiff pchKey h;
  oi ← (if d <=? 0 then find_item pstNode pchKey 0 (Z.to_nat ushNodeCnt) else mret None);
  match oi with
  | Some i => delete_item fuel del hNode ushNodeCnt i isFreeNode
  | None =>
    hRight ← hRight_of pstNode;
    if negb (hRight =? 0) then
      x ← del hRight pchKey isFreeNode;
      let '(iRet, hChild, isFreeNode) := x in
      if iRet <? -1 then mret (iRet, hNode, isFreeNode) else
      r ← right_deleted hNode hRight iRet hChild;
      mret (r, isFreeNode)
    else mret (-1, hNode, isFreeNode)
  end.

(** Results: 1 when the subtree has become lower, 0 when not, -1 when the key is not
    there; with [hNode] and [isFreeNode]. *)
Fixpoint TtreeNode_Delete (fuel : nat) (hNode : Z) (pchKey : DTCValue) (isFreeNode : bool) : ST S (Z * Z * bool) :=
  match fuel with
  | O => fault
  | Datatypes.S fuel =>
    let pstNode := hNode in
    ushNodeCnt ← ushNItems_of pstNode;
    h ← ahItems_of pstNode 0;
    d ← iDiff pchKey h;
    hLeft ← hLeft_of pstNode;
    if (d <? 0) && negb (hLeft =? INVALID_HANDLE) then
      x ← TtreeNode_Delete fuel hLeft pchKey isFreeNode;
      let '(iRet, hChild, isFreeNode) := x in
      if iRet <? -1 then mret (iRet, hNode, isFreeNode)
      else if 0 <=? iRet then r ← left_deleted hNode hLeft iRet hChild; mret (r, isFreeNode)
      else
        (if negb (hChild =? hLeft) then put_hLeft pstNode hChild else mret tt);;
        delete_here fuel (TtreeNode_Delete fuel) hNode ushNodeCnt pchKey isFreeNode
    else delete_here fuel (TtreeNode_Delete fuel) hNode ushNodeCnt pchKey isFreeNode
  end.

(** ** Destruction *)

Fixpoint TtreeNode_Destroy (fuel : nat) (hNode : Z) : ST S Z :=
  match fuel with
  | O => fault
  | Datatypes.S fuel =>
    if negb (hNode =? INVALID_HANDLE) then
      hLeft ← hLeft_of hNode;
      hRight ← hRight_of hNode;
      for_up PAGE_FUEL hNode 0 (fun i c => h ← ahItems_of hNode i; free h;; mret (0, c)) tt;;
      free hNode;;
      TtreeNode_Destroy fuel hLeft;;
      TtreeNode_Destroy fuel hRight;;
      mret 0
    else mret 0
  end.

Fixpoint TtreeNode_ask_for_destroy_size (fuel : nat) (hNode : Z) : ST S Z :=
  match fuel with
  | O => fault
  | Datatypes.S fuel =>
    if hNode =? INVALID_HANDLE then mret 0 else
    hLeft ← hLeft_of hNode;
    hRight ← hRight_of hNode;
    rc ← for_up PAGE_FUEL hNode 0 (fun i size => h ← ahItems_of hNode i; z ← block_size h; mret (0, u32 (size + z))) 0;
    z ← block_size hNode;
    let size := u32 (rc.2 + z) in
    sl ← TtreeNode_ask_for_destroy_size fuel hLeft;
    sr ← TtreeNode_ask_for_destroy_size fuel hRight;
    mret (u32 (u32 (size + sl) + sr))
  end.

(** ** Searching *)

(** The second [Find]: the result and the address of the item, [None] for NULL. *)
Fixpoint TtreeNode_Find_ptr (fuel : nat) (this : Z) (pchKey : DTCValue) : ST S (Z * option Z) :=
  match fuel with
  | O => fault
  | Datatypes.S fuel =>
    n ← ushNItems_of this;
    if n =? 0 then mret (0, None) else
    h ← ahItems_of this 0;
    d ← iDiff pchKey h;
    if d =? 0 then mret (1, Some (item_addr this 0))
    else if 0 <? d then
      h ← ahItems_of this (n - 1);
      d ← iDiff pchKey h;
      if d =? 0 then mret (1, Some (item_addr this (n - 1)))
      else if 0 <? d then
        hRight ← hRight_of this;
        if hRight =? INVALID_HANDLE then mret (0, None) else TtreeNode_Find_ptr fuel hRight pchKey
      else
        x ← search_page PAGE_FUEL this pchKey 1 (n - 1);
        match x with
        | inl i => mret (1, Some (item_addr this i))
        | inr _ => mret (0, None)
        end
    else
      hLeft ← hLeft_of this;
      if hLeft =? INVALID_HANDLE then mret (0, None) else TtreeNode_Find_ptr fuel hLeft pchKey
  end.

Definition TtreeNode_Find (fuel : nat) (this : Z) (pchKey : DTCValue) : ST S (Z * Z) :=
  x ← TtreeNode_Find_ptr fuel this pchKey;
  match x with
  | (iRet, Some phItem) => if iRet =? 1 then h ← mread 8 phItem; mret (iRet, h) else mret (iRet, INVALID_HANDLE)
  | (iRet, None) => mret (iRet, INVALID_HANDLE)
  end.

Fixpoint TtreeNode_find_handle (fuel : nat) (this hRecord : Z) : ST S Z :=
  match fuel with
  | O => fault
  | Datatypes.S fuel =>
    n ← ushNItems_of this;
    if n =? 0 then mret 0 else
    rc ← for_up PAGE_FUEL this 0 (fun i c => h ← ahItems_of this i; mret (if h =? hRecord then 1 else 0, c)) tt;
    if rc.1 =? 1 then mret 1 else
    hRight ← hRight_of this;
    r ← (if negb (hRight =? INVALID_HANDLE) then TtreeNode_find_handle fuel hRight hRecord else mret 0);
    if r =? 1 then mret 1 else
    hLeft ← hLeft_of this;
    r ← (if negb (hLeft =? INVALID_HANDLE) then TtreeNode_find_handle fuel hLeft hRecord else mret 0);
    mret (if r =? 1 then 1 else 0)
  end.

(** The node whose range holds the key, and the last node passed when it would go to
    the left of it. *)
Fixpoint TtreeNode_find_node (fuel : nat) (this : Z) (pchKey : DTCValue) : ST S (Z * Z) :=
  match fuel with
  | O => fault
  | Datatypes.S fuel =>
    n ← ushNItems_of this;
    if n =? 0 then mret (0, INVALID_HANDLE) else
    h ← ahItems_of this 0;
    d ← iDiff pchKey h;
    if d =? 0 then mret (1, this)
    else if 0 <? d then
      h ← ahItems_of this (n - 1);
      d ← iDiff pchKey h;
      if d <=? 0 then mret (1, this) else
      hRight ← hRight_of this;
      if hRight =? INVALID_HANDLE then mret (0, INVALID_HANDLE) else TtreeNode_find_node fuel hRight pchKey
    else
      hLeft ← hLeft_of this;
      if hLeft =? INVALID_HANDLE then mret (1, this) else TtreeNode_find_node fuel hLeft pchKey
  end.

(** ** Traversal

    A visitor gets the reference to the item, that is its address, and its cookie. *)

Definition ItemVisit (C : Type) : Type := Z -> C -> ST S (Z * C).

Section Traverse.
Context {C : Type} (pfVisit : ItemVisit C).

(** [if ((iRet = f) != 0) return iRet;] in front of the rest. *)
Definition then_ (m : ST S (Z * C)) (k : C -> ST S (Z * C)) : ST S (Z * C) :=
  rc ← m; if negb (rc.1 =? 0) then mret rc else k rc.2.

(** [if (h != INVALID_HANDLE)] the traversal of the subtree at [h]. *)
Definition subtree (h : Z) (rec : Z -> C -> ST S (Z * C)) (c : C) : ST S (Z * C) :=
  if negb (h =? INVALID_HANDLE) then rec h c else mret (0, c).

Definition visit (p i : Z) (c : C) : ST S (Z * C) := pfVisit (item_addr p i) c.
Definition visit_up (p : Z) (body : Z -> C -> ST S (Z * C)) (c : C) : ST S (Z * C) := for_up PAGE_FUEL p 0 body c.
Definition visit_down (p : Z) (body : Z -> C -> ST S (Z * C)) (c : C) : ST S (Z * C) :=
  n ← ushNItems_of p; for_down (Z.to_nat n) body c.

Fixpoint TtreeNode_traverse_forward (fuel : nat) (this : Z) (c : C) : ST S (Z * C) :=
  match fuel with
  | O => fault
  | Datatypes.S fuel =>
    hLeft ← hLeft_of this;
    then_ (subtree hLeft (TtreeNode_traverse_forward fuel) c) (fun c =>
    then_ (visit_up this (visit this) c) (fun c =>
    hRight ← hRight_of this;
    subtree hRight (TtreeNode_traverse_forward fuel) c))
  end.

Fixpoint TtreeNode_traverse_backward (fuel : nat) (this : Z) (c : C) : ST S (Z * C) :=
  match fuel with
  | O => fault
  | Datatypes.S fuel =>
    hRight ← hRight_of this;
    then_ (subtree hRight (TtreeNode_traverse_backward fuel) c) (fun c =>
    then_ (visit_down this (visit this) c) (fun c =>
    hLeft ← hLeft_of this;
    subtree hLeft (TtreeNode_traverse_backward fuel) c))
  end.

Fixpoint TtreeNode_post_order_traverse (fuel : nat) (this : Z) (c : C) : ST S (Z * C) :=
  match fuel with
  | O => fault
  | Datatypes.S fuel =>
    hRight ← hRight_of this;
    then_ (subtree hRight (TtreeNode_post_order_traverse fuel) c) (fun c =>
    hLeft ← hLeft_of this;
    then_ (subtree hLeft (TtreeNode_post_order_traverse fuel) c) (fun c =>
    visit_down this (visit this) c))
  end.

(** [pfComp] against item [i] of a page, and against the last item. *)
Definition item_diff (pchKey : DTCValue) (p i : Z) : ST S Z := h ← ahItems_of p i; iDiff pchKey h.
Definition last_diff (pchKey : DTCValue) (p : Z) : ST S Z := n ← ushNItems_of p; item_diff pchKey p (n - 1).

(** [if (h != INVALID_HANDLE && test on the comparison)] the traversal of the subtree. *)
Definition subtree_if (h : Z) (diff : ST S Z) (test : Z -> bool) (rec : Z -> C -> ST S (Z * C)) (c : C) : ST S (Z * C) :=
  if negb (h =? INVALID_HANDLE) then d ← diff; if test d then rec h c else mret (0, c)
  else mret (0, c).

(** The bodies of the loops: an item with [key <= item], with [item <= key], and with
    [key <= item <= key1]. *)
Definition visit_ge (pchKey : DTCValue) (p i : Z) (c : C) : ST S (Z * C) :=
  d ← item_diff pchKey p i; if d <=? 0 then visit p i c else mret (0, c).
Definition visit_le (pchKey : DTCValue) (p i : Z) (c : C) : ST S (Z * C) :=
  d ← item_diff pchKey p i; if 0 <=? d then visit p i c else mret (0, c).
Definition visit_range (pchKey pchKey1 : DTCValue) (p i : Z) (c : C) : ST S (Z * C) :=
  d ← item_diff pchKey p i;
  if d <=? 0 then d1 ← item_diff pchKey1 p i; if 0 <=? d1 then visit p i c else mret (0, c)
  else mret (0, c).

(** The page of a node, when its range and [key, key1] may overlap. *)
Definition page_range (pchKey pchKey1 : DTCValue) (p : Z) (loop : C -> ST S (Z * C)) (c : C) : ST S (Z * C) :=
  d ← last_diff pchKey p;
  d1 ← item_diff pchKey1 p 0;
  if (d1 <? 0) || (0 <? d) then mret (0, c) else loop c.

(** The loop of the traversal with [iInclusion]: it breaks at the first item above the
    range; the index it ends with is a result. *)
Fixpoint incl_loop (fuel : nat) (pchKey : DTCValue) (iInclusion p i : Z) (c : C) : ST S (Z * C * Z) :=
  match fuel with
  | O => fault
  | Datatypes.S fuel =>
    n ← ushNItems_of p;
    if i <? n then
      d ← item_diff pchKey p i;
      if (d <=? 0) && (s32 (0 - iInclusion) <=? d) then
        rc ← visit p i c;
        if negb (rc.1 =? 0) then mret (rc, i) else incl_loop fuel pchKey iInclusion p (i + 1) rc.2
      else if d <? s32 (0 - iInclusion) then mret (0, c, i)
      else incl_loop fuel pchKey iInclusion p (i + 1) c
    else mret (0, c, i)
  end.

Fixpoint TtreeNode_traverse_forward_incl (fuel : nat) (this : Z) (pchKey : DTCValue) (iInclusion : Z) (c : C) : ST S (Z * C) :=
  match fuel with
  | O => fault
  | Datatypes.S fuel =>
    let rec h c := TtreeNode_traverse_forward_incl fuel h pchKey iInclusion c in
    hLeft ← hLeft_of this;
    then_ (subtree_if hLeft (item_diff pchKey this 0) (fun d => d <? 0) rec c) (fun c =>
    n ← ushNItems_of this;
    d ← item_diff pchKey this (n - 1);
    x ← (if d <=? 0 then incl_loop PAGE_FUEL pchKey iInclusion this 0 c else mret (0, c, n));
    if negb (x.1.1 =? 0) then mret x.1 else
    hRight ← hRight_of this;
    if n <=? x.2 then subtree hRight rec x.1.2 else mret (0, x.1.2))
  end.

Fixpoint TtreeNode_traverse_forward_range (fuel : nat) (this : Z) (pchKey pchKey1 : DTCValue) (c : C) : ST S (Z * C) :=
  match fuel with
  | O => fault
  | Datatypes.S fuel =>
    let rec h c := TtreeNode_traverse_forward_range fuel h pchKey pchKey1 c in
    hLeft ← hLeft_of this;
    then_ (subtree_if hLeft (item_diff pchKey this 0) (fun d => d <? 0) rec c) (fun c =>
    then_ (page_range pchKey pchKey1 this (visit_up this (visit_range pchKey pchKey1 this)) c) (fun c =>
    d1 ← last_diff pchKey1 this;
    hRight ← hRight_of this;
    if 0 <=? d1 then subtree hRight rec c else mret (0, c)))
  end.

Fixpoint TtreeNode_traverse_forward_ge (fuel : nat) (this : Z) (pchKey : DTCValue) (c : C) : ST S (Z * C) :=
  match fuel with
  | O => fault
  | Datatypes.S fuel =>
    let rec h c := TtreeNode_traverse_forward_ge fuel h pchKey c in
    hLeft ← hLeft_of this;
    then_ (subtree_if hLeft (item_diff pchKey this 0) (fun d => d <? 0) rec c) (fun c =>
    d ← last_diff pchKey this;
    then_ (if d <=? 0 then visit_up this (visit_ge pchKey this) c else mret (0, c)) (fun c =>
    hRight ← hRight_of this;
    subtree hRight rec c))
  end.

Fixpoint TtreeNode_traverse_backward_range (fuel : nat) (this : Z) (pchKey pchKey1 : DTCValue) (c : C) : ST S (Z * C) :=
  match fuel with
  | O => fault
  | Datatypes.S fuel =>
    let rec h c := TtreeNode_traverse_backward_range fuel h pchKey pchKey1 c in
    hRight ← hRight_of this;
    then_ (subtree_if hRight (last_diff pchKey1 this) (fun d => 0 <? d) rec c) (fun c =>
    then_ (page_range pchKey pchKey1 this (visit_down this (visit_range pchKey pchKey1 this)) c) (fun c =>
    d ← item_diff pchKey this 0;
    hLeft ← hLeft_of this;
    if d <=? 0 then subtree hLeft rec c else mret (0, c)))
  end.

Fixpoint TtreeNode_traverse_backward_le (fuel : nat) (this : Z) (pchKey : DTCValue) (c : C) : ST S (Z * C) :=
  match fuel with
  | O => fault
  | Datatypes.S fuel =>
    let rec h c := TtreeNode_traverse_backward_le fuel h pchKey c in
    hRight ← hRight_of this;
    then_ (subtree_if hRight (last_diff pchKey this) (fun d => 0 <? d) rec c) (fun c =>
    d ← item_diff pchKey this 0;
    then_ (if 0 <=? d then visit_down this (visit_le pchKey this) c else mret (0, c)) (fun c =>
    hLeft ← hLeft_of this;
    subtree hLeft rec c))
  end.

Fixpoint TtreeNode_post_order_traverse_range (fuel : nat) (this : Z) (pchKey pchKey1 : DTCValue) (c : C) : ST S (Z * C) :=
  match fuel with
  | O => fault
  | Datatypes.S fuel =>
    let rec h c := TtreeNode_post_order_traverse_range fuel h pchKey pchKey1 c in
    hLeft ← hLeft_of this;
    then_ (subtree_if hLeft (item_diff pchKey this 0) (fun d => d <? 0) rec c) (fun c =>
    d1 ← last_diff pchKey1 this;
    hRight ← hRight_of this;
    then_ (if 0 <=? d1 then subtree hRight rec c else mret (0, c)) (fun c =>
    page_range pchKey pchKey1 this (visit_up this (visit_range pchKey pchKey1 this)) c))
  end.

Fixpoint TtreeNode_post_order_traverse_ge (fuel : nat) (this : Z) (pchKey : DTCValue) (c : C) : ST S (Z * C) :=
  match fuel with
  | O => fault
  | Datatypes.S fuel =>
    let rec h c := TtreeNode_post_order_traverse_ge fuel h pchKey c in
    hLeft ← hLeft_of this;
    then_ (subtree_if hLeft (item_diff pchKey this 0) (fun d => d <? 0) rec c) (fun c =>
    hRight ← hRight_of this;
    then_ (subtree hRight rec c) (fun c =>
    d ← last_diff pchKey this;
    if d <=? 0 then visit_up this (visit_ge pchKey this) c else mret (0, c)))
  end.

Fixpoint TtreeNode_post_order_traverse_le (fuel : nat) (this : Z) (pchKey : DTCValue) (c : C) : ST S (Z * C) :=
  match fuel with
  | O => fault
  | Datatypes.S fuel =>
    let rec h c := TtreeNode_post_order_traverse_le fuel h pchKey c in
    hRight ← hRight_of this;
    then_ (subtree_if hRight (last_diff pchKey this) (fun d => 0 <? d) rec c) (fun c =>
    hLeft ← hLeft_of this;
    then_ (subtree hLeft rec c) (fun c =>
    d ← item_diff pchKey this 0;
    if 0 <=? d then visit_down this (visit_le pchKey this) c else mret (0, c)))
  end.
End Traverse.

(** ** The tree

    [Ttree] is its root handle; every operation returns the root it leaves. The fuel is
    above any height 64-bit handles allow. *)

Definition TREE_FUEL : nat := 260.

Definition Ttree_first_node (m_hRoot : Z) : ST S Z :=
  if m_hRoot =? INVALID_HANDLE then mret INVALID_HANDLE else ahItems_of m_hRoot 0.

Definition Ttree_Insert (m_hRoot : Z) (pchKey : DTCValue) (hRecord : Z) (isAllocNode : bool) : ST S (Z * Z * bool) :=
  if m_hRoot =? INVALID_HANDLE then
    hNode ← TtreeNode_Alloc hRecord;
    if hNode =? INVALID_HANDLE then mret (EC_NO_MEM, m_hRoot, isAllocNode) else mret (0, hNode, true)
  else
    x ← TtreeNode_Insert TREE_FUEL m_hRoot pchKey hRecord isAllocNode;
    let '(iRet, hNode, isAllocNode) := x in
    if iRet =? -2 then mret (EC_KEY_EXIST, m_hRoot, isAllocNode)
    else if iRet =? -1 then mret (EC_NO_MEM, m_hRoot, isAllocNode)
    else if iRet <? 0 then mret (-1, m_hRoot, isAllocNode)
    else mret (0, hNode, isAllocNode).

Definition Ttree_Delete (m_hRoot : Z) (pchKey : DTCValue) (isFreeNode : bool) : ST S (Z * Z * bool) :=
  if m_hRoot =? INVALID_HANDLE then mret (0, m_hRoot, isFreeNode) else
  x ← TtreeNode_Delete TREE_FUEL m_hRoot pchKey isFreeNode;
  let '(iRet, hNode, isFreeNode) := x in
  if iRet <? -1 then mret (-1, m_hRoot, isFreeNode)
  else if iRet =? -1 then mret (-1, m_hRoot, isFreeNode)
  else mret (0, hNode, isFreeNode).

Definition Ttree_find_handle (m_hRoot hRecord : Z) : ST S Z :=
  if m_hRoot =? INVALID_HANDLE then mret 0 else TtreeNode_find_handle TREE_FUEL m_hRoot hRecord.
Definition Ttree_Find (m_hRoot : Z) (pchKey : DTCValue) : ST S (Z * Z) :=
  if m_hRoot =? INVALID_HANDLE then mret (0, INVALID_HANDLE) else TtreeNode_Find TREE_FUEL m_hRoot pchKey.
Definition Ttree_Find_ptr (m_hRoot : Z) (pchKey : DTCValue) : ST S (Z * option Z) :=
  if m_hRoot =? INVALID_HANDLE then mret (0, None) else TtreeNode_Find_ptr TREE_FUEL m_hRoot pchKey.
Definition Ttree_Destroy (m_hRoot : Z) : ST S (Z * Z) :=
  TtreeNode_Destroy TREE_FUEL m_hRoot;; mret (0, INVALID_HANDLE).
Definition Ttree_ask_for_destroy_size (m_hRoot : Z) : ST S Z := TtreeNode_ask_for_destroy_size TREE_FUEL m_hRoot.

(** The traversals do nothing on an empty tree; [int64_t iInclusion] becomes an [int]. *)
Definition on_root {C} (m_hRoot : Z) (traverse : Z -> C -> ST S (Z * C)) (c : C) : ST S (Z * C) :=
  if negb (m_hRoot =? INVALID_HANDLE) then traverse m_hRoot c else mret (0, c).
Definition Ttree_traverse_forward {C} (v : ItemVisit C) (m_hRoot : Z) : C -> ST S (Z * C) :=
  on_root m_hRoot (TtreeNode_traverse_forward v TREE_FUEL).
Definition Ttree_traverse_backward {C} (v : ItemVisit C) (m_hRoot : Z) : C -> ST S (Z * C) :=
  on_root m_hRoot (TtreeNode_traverse_backward v TREE_FUEL).
Definition Ttree_post_order_traverse {C} (v : ItemVisit C) (m_hRoot : Z) : C -> ST S (Z * C) :=
  on_root m_hRoot (TtreeNode_post_order_traverse v TREE_FUEL).
Definition Ttree_traverse_forward_incl {C} (v : ItemVisit C) (m_hRoot : Z) (pchKey : DTCValue) (iInclusion : Z) : C -> ST S (Z * C) :=
  on_root m_hRoot (fun h => TtreeNode_traverse_forward_incl v TREE_FUEL h pchKey (s32 iInclusion)).
Definition Ttree_traverse_forward_range {C} (v : ItemVisit C) (m_hRoot : Z) (pchKey pchKey1 : DTCValue) : C -> ST S (Z * C) :=
  on_root m_hRoot (fun h => TtreeNode_traverse_forward_range v TREE_FUEL h pchKey pchKey1).
Definition Ttree_traverse_forward_ge {C} (v : ItemVisit C) (m_hRoot : Z) (pchKey : DTCValue) : C -> ST S (Z * C) :=
  on_root m_hRoot (fun h => TtreeNode_traverse_forward_ge v TREE_FUEL h pchKey).
Definition Ttree_traverse_backward_range {C} (v : ItemVisit C) (m_hRoot : Z) (pchKey pchKey1 : DTCValue) : C -> ST S (Z * C) :=
  on_root m_hRoot (fun h => TtreeNode_traverse_backward_range v TREE_FUEL h pchKey pchKey1).
Definition Ttree_traverse_backward_le {C} (v : ItemVisit C) (m_hRoot : Z) (pchKey : DTCValue) : C -> ST S (Z * C) :=
  on_root m_hRoot (fun h => TtreeNode_traverse_backward_le v TREE_FUEL h pchKey).
Definition Ttree_post_order_traverse_range {C} (v : ItemVisit C) (m_hRoot : Z) (pchKey pchKey1 : DTCValue) : C -> ST S (Z * C) :=
  on_root m_hRoot (fun h => TtreeNode_post_order_traverse_range v TREE_FUEL h pchKey pchKey1).
Definition Ttree_post_order_traverse_ge {C} (v : ItemVisit C) (m_hRoot : Z) (pchKey : DTCValue) : C -> ST S (Z * C) :=
  on_root m_hRoot (fun h => TtreeNode_post_order_traverse_ge v TREE_FUEL h pchKey).
Definition Ttree_post_order_traverse_le {C} (v : ItemVisit C) (m_hRoot : Z) (pchKey : DTCValue) : C -> ST S (Z * C) :=
  on_root m_hRoot (fun h => TtreeNode_post_order_traverse_le v TREE_FUEL h pchKey).

End TTree.

(** [pResCookie] of [cache/tree_data.h]: the array the visitor fills, and the counts. *)
Record pResCookie := mkResCookie { m_handle : list Z; nodesGot : Z; nodesNum : Z; rowsGot : Z }.

(** [Visit]: stores the record and counts its rows, until there are enough. *)
Definition Visit {S} `{!Mallocator S} (phRecord : Z) (cookie : pResCookie) : ST S (Z * pResCookie) :=
  hRecord ← mread 8 phRecord;
  hRecordRowCnts ← mread 4 (hRecord + 1 + 4);
  if (0 <? cookie.(nodesNum)) && (cookie.(nodesNum) <=? cookie.(rowsGot)) then mret (0, cookie)
  else if cookie.(nodesGot) <? Z.of_nat (length cookie.(m_handle)) then
    mret (0, mkResCookie (<[Z.to_nat cookie.(nodesGot) := hRecord]> cookie.(m_handle)) (u32 (cookie.(nodesGot) + 1))
      cookie.(nodesNum) (u32 (cookie.(rowsGot) + hRecordRowCnts)))
  else fault.
