(* ===== verification/TTreePure.v ===== *)
(** Balanced trees of pages, apart from their memory: the rotations of [TTree] as
    functions on trees, and lists of records in the order of their keys. *)
From Stdlib Require Import ZArith Lia.
From stdpp Require Import base sorting list numbers gmap.
From S2P Require Import Prelude.
Local Open Scope Z_scope.

(** A node with its handle, its subtrees, its balance and its items. *)
Inductive tree :=
  | Leaf
  | Node (h : Z) (l : tree) (b : Z) (its : list Z) (r : tree).

Definition root (t : tree) : Z := match t with Leaf => 0 | Node h _ _ _ _ => h end.
Definition bal_of (t : tree) : Z := match t with Leaf => 0 | Node _ _ b _ _ => b end.
Fixpoint elements (t : tree) : list Z :=
  match t with Leaf => [] | Node _ l _ its r => elements l ++ its ++ elements r end.
Fixpoint handles (t : tree) : list Z :=
  match t with Leaf => [] | Node h l _ _ r => h :: handles l ++ handles r end.
Fixpoint height (t : tree) : Z :=
  match t with Leaf => 0 | Node _ l _ _ r => 1 + Z.max (height l) (height r) end.

(** The balance of a node is the difference of the heights, at most one; a page holds
    between 1 and 20 items. *)
Fixpoint balanced (t : tree) : Prop :=
  match t with
  | Leaf => True
  | Node _ l b its r => balanced l /\ balanced r /\ b = height r - height l /\ -1 <= b <= 1 /\ (1 <= length its <= 20)%nat
  end.

Lemma height_nonneg t : 0 <= height t.
Proof. induction t; cbn [height]; lia. Qed.

Lemma height_0 t : height t = 0 -> t = Leaf.
Proof. destruct t as [|h l b its r]; [done|]. cbn [height]. pose proof (height_nonneg l). pose proof (height_nonneg r). lia. Qed.

Lemma balanced_elements t : balanced t -> t <> Leaf -> elements t <> [].
Proof.
  destruct t as [|h l b its r]; [done|]. intros (_ & _ & _ & _ & Hl) _ E. cbn in E.
  apply app_eq_nil in E as [_ [-> _]%app_eq_nil]. simpl in Hl. lia.
Qed.

(** ** Rotations

    [left_grown_tree] is what [left_grown] does to a node whose left subtree [l] has
    become higher by one than its balance says; the others alike. The first result is
    the value returned. *)

Definition rotate_LL (h : Z) (l : tree) (its : list Z) (r : tree) (b bl : Z) : option tree :=
  if l is Node hl ll _ il lr then Some (Node hl ll bl il (Node h lr b its r)) else None.
Definition rotate_LR (h : Z) (l : tree) (its : list Z) (r : tree) : option tree :=
  if l is Node hl ll _ il (Node hr rl br ir rr)
  then Some (Node hr (Node hl ll (if 0 <? br then -1 else 0) il rl) 0 ir (Node h rr (if br <? 0 then 1 else 0) its r)) else None.
Definition rotate_RR (h : Z) (l : tree) (its : list Z) (r : tree) (b br : Z) : option tree :=
  if r is Node hr rl _ ir rr then Some (Node hr (Node h l b its rl) br ir rr) else None.
Definition rotate_RL (h : Z) (l : tree) (its : list Z) (r : tree) : option tree :=
  if r is Node hr (Node hl ll bl il lr) _ ir rr
  then Some (Node hl (Node h l (if 0 <? bl then -1 else 0) its ll) 0 il (Node hr lr (if bl <? 0 then 1 else 0) ir rr)) else None.

Definition left_grown_tree (h : Z) (l : tree) (b : Z) (its : list Z) (r : tree) : Z * option tree :=
  if 0 <? b then (0, Some (Node h l 0 its r))
  else if b =? 0 then (1, Some (Node h l (-1) its r))
  else if bal_of l <? 0 then (0, rotate_LL h l its r 0 0) else (0, rotate_LR h l its r).
Definition right_grown_tree (h : Z) (l : tree) (b : Z) (its : list Z) (r : tree) : Z * option tree :=
  if b <? 0 then (0, Some (Node h l 0 its r))
  else if b =? 0 then (1, Some (Node h l 1 its r))
  else if 0 <? bal_of r then (0, rotate_RR h l its r 0 0) else (0, rotate_RL h l its r).
Definition left_shrunk_tree (h : Z) (l : tree) (b : Z) (its : list Z) (r : tree) : Z * option tree :=
  if b <? 0 then (1, Some (Node h l 0 its r))
  else if b =? 0 then (0, Some (Node h l 1 its r))
  else if 0 <=? bal_of r then
    if bal_of r =? 0 then (0, rotate_RR h l its r 1 (-1)) else (1, rotate_RR h l its r 0 0)
  else (1, rotate_RL h l its r).
Definition right_shrunk_tree (h : Z) (l : tree) (b : Z) (its : list Z) (r : tree) : Z * option tree :=
  if 0 <? b then (1, Some (Node h l 0 its r))
  else if b =? 0 then (0, Some (Node h l (-1) its r))
  else if bal_of l <=? 0 then
    if bal_of l =? 0 then (0, rotate_LL h l its r (-1) 1) else (1, rotate_LL h l its r 0 0)
  else (1, rotate_LR h l its r).

(** A rebalanced node: the same items in the same order, the same handles, balanced. *)
Record rebuilt (h : Z) (l : tree) (its : list Z) (r : tree) (t : tree) : Prop := {
  rb_balanced : balanced t;
  rb_elements : elements t = elements l ++ its ++ elements r;
  rb_handles : handles t ≡ₚ h :: handles l ++ handles r
}.

Lemma perm_LL (h hl : Z) ll lr r : hl :: ll ++ h :: lr ++ r ≡ₚ h :: (hl :: ll ++ lr) ++ r.
Proof. rewrite <-(Permutation_middle ll (lr ++ r) h). cbn. rewrite perm_swap. by rewrite app_assoc. Qed.
Lemma perm_RR (h hr : Z) l rl rr : hr :: (h :: l ++ rl) ++ rr ≡ₚ h :: l ++ hr :: rl ++ rr.
Proof. rewrite <-(Permutation_middle l (rl ++ rr) hr). cbn. rewrite perm_swap. by rewrite app_assoc. Qed.

Lemma perm_LR (h hl hr : Z) ll rl rr r :
  hr :: (hl :: ll ++ rl) ++ h :: rr ++ r ≡ₚ h :: (hl :: ll ++ hr :: rl ++ rr) ++ r.
Proof.
  rewrite <-(Permutation_middle _ (rr ++ r) h). cbn. rewrite perm_swap. apply perm_skip.
  rewrite perm_swap. apply perm_skip. rewrite <-(Permutation_middle ll (rl ++ rr) hr). cbn. by rewrite <-!app_assoc.
Qed.
Lemma perm_RL (h hl hr : Z) l ll lr rr :
  hl :: (h :: l ++ ll) ++ hr :: lr ++ rr ≡ₚ h :: l ++ hr :: (hl :: ll ++ lr) ++ rr.
Proof.
  rewrite <-(Permutation_middle (h :: l ++ ll) (lr ++ rr) hr), <-(Permutation_middle l _ hr). cbn.
  rewrite <-(Permutation_middle l _ hl), (perm_swap h hr), (perm_swap h hl), (perm_swap hr hl). by rewrite <-!app_assoc.
Qed.

(** The arithmetic of heights and balances. *)
Ltac heights := cbn [balanced height bal_of handles elements root] in *;
  repeat match goal with
  | t : tree |- _ => lazymatch goal with H : 0 <= height t |- _ => fail | _ => pose proof (height_nonneg t) end
  end; lia.

Lemma rotate_LL_ok h l its r b bl t :
  rotate_LL h l its r b bl = Some t -> balanced l -> balanced r -> (1 <= length its <= 20)%nat -> -1 <= b <= 1 -> -1 <= bl <= 1 ->
  (if l is Node _ ll _ _ lr then b = height r - height lr /\ bl = 1 + Z.max (height lr) (height r) - height ll else True) ->
  rebuilt h l its r t.
Proof.
  destruct l as [|hl ll bl' il lr]; [done|]. cbn [rotate_LL]. intros [= <-] (Bl & Br & E & Hb & Hi) Hr Hl ? ? [Eb Ebl]. split.
  - cbn [balanced height]. done.
  - cbn [elements]. by rewrite <-!app_assoc.
  - apply perm_LL.
Qed.

Lemma rotate_RR_ok h l its r b br t :
  rotate_RR h l its r b br = Some t -> balanced l -> balanced r -> (1 <= length its <= 20)%nat -> -1 <= b <= 1 -> -1 <= br <= 1 ->
  (if r is Node _ rl _ _ rr then b = height rl - height l /\ br = height rr - (1 + Z.max (height l) (height rl)) else True) ->
  rebuilt h l its r t.
Proof.
  destruct r as [|hr rl br' ir rr]; [done|]. cbn [rotate_RR]. intros [= <-] Hl (Brl & Brr & E & Hb & Hi) Hn ? ? [Eb Ebr]. split.
  - cbn [balanced height]. done.
  - cbn [elements]. by rewrite <-!app_assoc.
  - apply perm_RR.
Qed.

Lemma rotate_LR_ok h l its r t :
  rotate_LR h l its r = Some t -> balanced l -> balanced r -> (1 <= length its <= 20)%nat -> bal_of l = 1 -> height l = height r + 2 ->
  rebuilt h l its r t /\ height t = height r + 2.
Proof.
  destruct l as [|hl ll bl il [|hr rl br ir rr]]; [done..|]. cbn [rotate_LR]. intros [= <-] (Bl & (Brl & Brr & Er & Hbr & Hi2) & E & Hb & Hi) Hr Hn Hbl Hh.
  split; [split|].
  - cbn [balanced height]. split_and!; try done; try (bcases; heights).
  - cbn [elements]. by rewrite <-!app_assoc.
  - apply perm_LR.
  - heights.
Qed.

Lemma rotate_RL_ok h l its r t :
  rotate_RL h l its r = Some t -> balanced l -> balanced r -> (1 <= length its <= 20)%nat -> bal_of r = -1 -> height r = height l + 2 ->
  rebuilt h l its r t /\ height t = height l + 2.
Proof.
  destruct r as [|hr [|hl ll bl il lr] br ir rr]; [done..|]. cbn [rotate_RL]. intros [= <-] Hl ((Bll & Blr & El & Hbl & Hi2) & Brr & E & Hb & Hi) Hn Hbr Hh.
  split; [split|].
  - cbn [balanced height]. split_and!; try done; try (bcases; heights).
  - cbn [elements]. by rewrite <-!app_assoc.
  - apply perm_RL.
  - heights.
Qed.

(** The results of the four: [old] is the height the changed subtree had before. *)
Lemma left_grown_ok h l b its r old :
  balanced l -> balanced r -> height l = old + 1 -> b = height r - old -> -1 <= b <= 1 -> (1 <= length its <= 20)%nat -> 0 <= old ->
  (old = 0 \/ bal_of l <> 0) ->
  exists t, (left_grown_tree h l b its r).2 = Some t /\ rebuilt h l its r t /\ 0 <= (left_grown_tree h l b its r).1 <= 1 /\
    height t = 1 + Z.max old (height r) + (left_grown_tree h l b its r).1 /\ ((left_grown_tree h l b its r).1 = 1 -> bal_of t <> 0).
Proof.
  intros Hl Hr Hh Eb Hb Hi Ho Hgr. unfold left_grown_tree. destruct (Z.ltb_spec 0 b); [|destruct (Z.eqb_spec b 0)]; cbn [fst snd].
  - eexists. split; [done|]. split; [split; cbn [balanced]; [split_and!; try done; heights|done|done]|heights].
  - eexists. split; [done|]. split; [split; cbn [balanced]; [split_and!; try done; heights|done|done]|heights].
  - assert (Hl2 : bal_of l <> 0) by (pose proof (height_nonneg r); lia). destruct (Z.ltb_spec (bal_of l) 0); cbn [fst snd].
    + destruct (rotate_LL h l its r 0 0) as [t|] eqn:Et; [|destruct l; [cbn [bal_of] in *; lia|done]]. exists t. split; [done|].
      destruct l as [|hl ll bl il lr]; [done|]. pose proof Hl as (? & ? & ? & ? & ?). cbn [bal_of] in *. split.
      * eapply rotate_LL_ok; try done; try lia. heights.
      * injection Et as <-. heights.
    + destruct (rotate_LR h l its r) as [t|] eqn:Et.
      * exists t. split; [done|]. assert (bal_of l = 1) by (destruct l; [done|destruct Hl as (? & ? & ? & ? & ?); cbn [bal_of] in *; lia]).
        destruct (rotate_LR_ok h l its r t Et) as [Hrb Hht]; [done..|lia|]. split; [done|lia].
      * destruct l as [|hl ll bl il [|]]; try done. destruct Hl as (? & ? & ? & ? & ?). heights.
Qed.

Lemma right_grown_ok h l b its r old :
  balanced l -> balanced r -> height r = old + 1 -> b = old - height l -> -1 <= b <= 1 -> (1 <= length its <= 20)%nat -> 0 <= old ->
  (old = 0 \/ bal_of r <> 0) ->
  exists t, (right_grown_tree h l b its r).2 = Some t /\ rebuilt h l its r t /\ 0 <= (right_grown_tree h l b its r).1 <= 1 /\
    height t = 1 + Z.max (height l) old + (right_grown_tree h l b its r).1 /\ ((right_grown_tree h l b its r).1 = 1 -> bal_of t <> 0).
Proof.
  intros Hl Hr Hh Eb Hb Hi Ho Hgr. unfold right_grown_tree. destruct (Z.ltb_spec b 0); [|destruct (Z.eqb_spec b 0)]; cbn [fst snd].
  - eexists. split; [done|]. split; [split; cbn [balanced]; [split_and!; try done; heights|done|done]|heights].
  - eexists. split; [done|]. split; [split; cbn [balanced]; [split_and!; try done; heights|done|done]|heights].
  - assert (Hr2 : bal_of r <> 0) by (pose proof (height_nonneg l); lia). destruct (Z.ltb_spec 0 (bal_of r)); cbn [fst snd].
    + destruct (rotate_RR h l its r 0 0) as [t|] eqn:Et; [|destruct r; [cbn [bal_of] in *; lia|done]]. exists t. split; [done|].
      destruct r as [|hr rl br ir rr]; [done|]. pose proof Hr as (? & ? & ? & ? & ?). cbn [bal_of] in *. split.
      * eapply rotate_RR_ok; try done; try lia. heights.
      * injection Et as <-. heights.
    + destruct (rotate_RL h l its r) as [t|] eqn:Et.
      * exists t. split; [done|]. assert (bal_of r = -1) by (destruct r; [done|destruct Hr as (? & ? & ? & ? & ?); cbn [bal_of] in *; lia]).
        destruct (rotate_RL_ok h l its r t Et) as [Hrb Hht]; [done..|lia|]. split; [done|lia].
      * destruct r as [|hr [|] br ir rr]; try done; destruct Hr as (? & ? & ? & ? & ?); heights.
Qed.

Lemma left_shrunk_ok h l b its r old :
  balanced l -> balanced r -> height l = old - 1 -> b = height r - old -> -1 <= b <= 1 -> (1 <= length its <= 20)%nat ->
  exists t, (left_shrunk_tree h l b its r).2 = Some t /\ rebuilt h l its r t /\ 0 <= (left_shrunk_tree h l b its r).1 <= 1 /\
    height t = 1 + Z.max old (height r) - (left_shrunk_tree h l b its r).1.
Proof.
  intros Hl Hr Hh Eb Hb Hi. pose proof (height_nonneg l) as Ho. unfold left_shrunk_tree. destruct (Z.ltb_spec b 0); [|destruct (Z.eqb_spec b 0)]; cbn [fst snd].
  - eexists. split; [done|]. split; [split; cbn [balanced]; [split_and!; try done; heights|done|done]|heights].
  - eexists. split; [done|]. split; [split; cbn [balanced]; [split_and!; try done; heights|done|done]|heights].
  - destruct r as [|hr rl br ir rr]; [heights|]. pose proof Hr as (Hrl & Hrr & ? & ? & ?). cbn [bal_of].
    destruct (Z.leb_spec 0 br); [destruct (Z.eqb_spec br 0)|]; cbn [fst snd].
    + eexists. split; [done|]. split; [eapply rotate_RR_ok; try done; heights|heights].
    + eexists. split; [done|]. split; [eapply rotate_RR_ok; try done; heights|heights].
    + destruct (rotate_RL h l its (Node hr rl br ir rr)) as [t|] eqn:Et.
      * exists t. split; [done|]. assert (br = -1) by lia. destruct (rotate_RL_ok h l its _ t Et) as [Hrb Hht]; [done..|heights|]. split; [done|heights].
      * destruct rl as [|]; [heights|done].
Qed.

Lemma right_shrunk_ok h l b its r old :
  balanced l -> balanced r -> height r = old - 1 -> b = old - height l -> -1 <= b <= 1 -> (1 <= length its <= 20)%nat ->
  exists t, (right_shrunk_tree h l b its r).2 = Some t /\ rebuilt h l its r t /\ 0 <= (right_shrunk_tree h l b its r).1 <= 1 /\
    height t = 1 + Z.max (height l) old - (right_shrunk_tree h l b its r).1.
Proof.
  intros Hl Hr Hh Eb Hb Hi. pose proof (height_nonneg r) as Ho. unfold right_shrunk_tree. destruct (Z.ltb_spec 0 b); [|destruct (Z.eqb_spec b 0)]; cbn [fst snd].
  - eexists. split; [done|]. split; [split; cbn [balanced]; [split_and!; try done; heights|done|done]|heights].
  - eexists. split; [done|]. split; [split; cbn [balanced]; [split_and!; try done; heights|done|done]|heights].
  - destruct l as [|hl ll bl il lr]; [heights|]. pose proof Hl as (Hll & Hlr & ? & ? & ?). cbn [bal_of].
    destruct (Z.leb_spec bl 0); [destruct (Z.eqb_spec bl 0)|]; cbn [fst snd].
    + eexists. split; [done|]. split; [eapply rotate_LL_ok; try done; heights|heights].
    + eexists. split; [done|]. split; [eapply rotate_LL_ok; try done; heights|heights].
    + destruct (rotate_LR h (Node hl ll bl il lr) its r) as [t|] eqn:Et.
      * exists t. split; [done|]. assert (bl = 1) by lia. destruct (rotate_LR_ok h _ its r t Et) as [Hrb Hht]; [done..|heights|]. split; [done|heights].
      * destruct lr as [|]; [heights|done].
Qed.

(** ** Height *)

Definition nodes (t : tree) : Z := Z.of_nat (length (handles t)).

Lemma nodes_node h l b its r : nodes (Node h l b its r) = 1 + nodes l + nodes r.
Proof. unfold nodes. cbn [handles length]. rewrite length_app. lia. Qed.

(** A tree of height [n] has at least 2^(n/2) - 1 nodes. *)
Lemma nodes_height n t : balanced t -> height t = Z.of_nat n -> 2 ^ (Z.of_nat n / 2) <= nodes t + 1.
Proof.
  revert t; induction n as [n IH] using lt_wf_ind; intros t Ht Hh.
  destruct t as [|h l b its r]; [cbn [height] in Hh; replace n with 0%nat by lia; done|].
  pose proof Ht as (Hl & Hr & Eb & Hb & Hi). pose proof (height_nonneg l) as Hl0. pose proof (height_nonneg r) as Hr0. cbn [height] in Hh. rewrite nodes_node.
  assert (Hsub : forall t' : tree, balanced t' -> 0 <= height t' < Z.of_nat n -> Z.of_nat n - 2 <= height t' -> 2 ^ (Z.of_nat n / 2) <= 2 * (nodes t' + 1)).
  { intros t' Ht' Hn1 Hn2. pose proof (IH (Z.to_nat (height t')) ltac:(lia) t' Ht' ltac:(lia)) as HI. rewrite Z2Nat.id in HI by lia.
    etrans; [|apply Z.mul_le_mono_nonneg_l; [lia|exact HI]]. rewrite <-Z.pow_succ_r by (apply Z.div_pos; lia).
    apply Z.pow_le_mono_r; [lia|]. zdm. }
  destruct (Z.eq_dec (Z.of_nat n) 1) as [E1|E1].
  - rewrite E1. change (2 ^ (1 / 2)) with 1. unfold nodes. lia.
  - pose proof (Hsub l Hl ltac:(lia) ltac:(lia)). pose proof (Hsub r Hr ltac:(lia) ltac:(lia)). lia.
Qed.

(** 64-bit handles bound the height. *)
Lemma nodup_bound (l : list Z) n : 0 <= n -> NoDup l -> Forall (fun h => 0 < h < n) l -> Z.of_nat (length l) <= n.
Proof.
  intros Hn Hd Hf.
  assert (Hs : (length l <= length (seqZ 0 n))%nat).
  { apply submseteq_length, NoDup_submseteq; [done|]. intros x Hx. apply elem_of_seqZ. apply (Forall_forall _ _) with (x := x) in Hf; [lia|done]. }
  rewrite length_seqZ in Hs. lia.
Qed.

Lemma height_bound t : balanced t -> NoDup (handles t) -> Forall (fun h => 0 < h < 2 ^ 64) (handles t) -> height t <= 129.
Proof.
  intros Hb Hd Hf. pose proof (nodup_bound _ (2 ^ 64) ltac:(done) Hd Hf) as Hn. fold (nodes t) in Hn. pose proof (height_nonneg t).
  destruct (Z.leb_spec (height t) 129) as [|Hgt]; [done|]. pose proof (nodes_height (Z.to_nat (height t)) t Hb ltac:(lia)) as Hp.
  rewrite Z2Nat.id in Hp by lia. assert (2 ^ 65 <= 2 ^ (height t / 2)) by (apply Z.pow_le_mono_r; [lia|zdm]).
  change (2 ^ 65) with (2 * 2 ^ 64) in *. change (2 ^ 64) with 18446744073709551616 in *. lia.
Qed.

(** ** Records in the order of their keys *)

Section Order.
Context {K : Type} (ord : K -> K -> comparison) (key : Z -> K).
Hypothesis ord_antisym : forall a b, ord b a = CompOpp (ord a b).
Hypothesis ord_trans : forall c x y z, ord x y = c -> ord y z = c -> ord x z = c.

Definition lt_rec (x y : Z) : Prop := ord (key x) (key y) = Lt.
Definition above (k : K) (x : Z) : Prop := ord k (key x) = Lt.
Definition below (k : K) (x : Z) : Prop := ord k (key x) = Gt.
Abbreviation sorted := (StronglySorted lt_rec).

#[local] Instance lt_rec_trans : Transitive lt_rec.
Proof. intros x y z. apply ord_trans. Qed.

Lemma ord_sym_eq a b : ord a b = Eq -> ord b a = Eq.
Proof. intros E. by rewrite ord_antisym, E. Qed.
Lemma ord_Eq_l a b c : ord a b = Eq -> ord a c = ord b c.
Proof.
  intros E. destruct (ord b c) eqn:Ebc.
  - by eapply ord_trans.
  - destruct (ord a c) eqn:Eac; [|done|].
    + rewrite <-Ebc. symmetry. eapply ord_trans; [by apply ord_sym_eq|done].
    + assert (ord c a = Lt) by (by rewrite ord_antisym, Eac). assert (ord b a = Lt) by (by eapply ord_trans).
      rewrite ord_antisym, E in H0. done.
  - destruct (ord a c) eqn:Eac; [| |done].
    + rewrite <-Ebc. symmetry. eapply ord_trans; [by apply ord_sym_eq|done].
    + assert (ord c a = Gt) by (by rewrite ord_antisym, Eac). assert (ord b a = Gt) by (by eapply ord_trans).
      rewrite ord_antisym, E in H0. done.
Qed.
Lemma above_trans k x y : above k x -> lt_rec x y -> above k y.
Proof. apply ord_trans. Qed.
Lemma below_trans k x y : below k y -> lt_rec x y -> below k x.
Proof. unfold below, lt_rec. intros H1 H2. eapply ord_trans; [exact H1|]. by rewrite ord_antisym, H2. Qed.

Lemma sorted_app l1 l2 : sorted (l1 ++ l2) <-> sorted l1 /\ sorted l2 /\ forall x y, x ∈ l1 -> y ∈ l2 -> lt_rec x y.
Proof. rewrite StronglySorted_app. naive_solver. Qed.

Lemma above_cons k x l : sorted (x :: l) -> above k x -> Forall (above k) (x :: l).
Proof.
  intros [_ Hx]%StronglySorted_inv Hk. constructor; [done|]. eapply Forall_impl; [exact Hx|]. intros y Hy. by eapply above_trans.
Qed.
Lemma below_snoc k x l : sorted (l ++ [x]) -> below k x -> Forall (below k) (l ++ [x]).
Proof.
  intros (_ & _ & H)%sorted_app Hk. apply Forall_app. split; [|by constructor].
  apply Forall_forall. intros y Hy. eapply below_trans; [done|]. apply H; [done|set_solver].
Qed.

(** [l'] is [l] with [x] put in, between the records below [k] and those above. *)
Definition inserted (k : K) (x : Z) (l l' : list Z) : Prop :=
  exists l1 l2, l = l1 ++ l2 /\ l' = l1 ++ x :: l2 /\ Forall (below k) l1 /\ Forall (above k) l2.

Lemma inserted_left k x l l' m : inserted k x l l' -> Forall (above k) m -> inserted k x (l ++ m) (l' ++ m).
Proof.
  intros (l1 & l2 & -> & -> & H1 & H2) Hm. exists l1, (l2 ++ m). rewrite <-!app_assoc. split_and!; try done. by apply Forall_app.
Qed.
Lemma inserted_right k x l l' m : inserted k x l l' -> Forall (below k) m -> inserted k x (m ++ l) (m ++ l').
Proof.
  intros (l1 & l2 & -> & -> & H1 & H2) Hm. exists (m ++ l1), l2. rewrite <-!app_assoc. split_and!; try done. by apply Forall_app.
Qed.
Lemma inserted_perm k x l l' : inserted k x l l' -> l' ≡ₚ x :: l.
Proof. intros (l1 & l2 & -> & -> & _). by rewrite Permutation_middle. Qed.

Lemma inserted_sorted k x l l' : inserted k x l l' -> ord k (key x) = Eq -> sorted l -> sorted l'.
Proof.
  intros (l1 & l2 & -> & -> & H1 & H2) Hx (S1 & S2 & H)%sorted_app. rewrite Forall_forall in H1. apply sorted_app. split; [done|]. split.
  - constructor; [done|]. eapply Forall_impl; [exact H2|]. intros y Hy. unfold lt_rec. by rewrite <-(ord_Eq_l k).
  - intros a b Ha [->|Hb]%elem_of_cons; [|by apply H]. specialize (H1 a Ha). unfold below in H1. unfold lt_rec.
    rewrite ord_antisym, <-(ord_Eq_l k), H1 by done. done.
Qed.

(** [l'] is [l] without a record of key [k]. *)
Definition removed (k : K) (l l' : list Z) : Prop := exists l1 x l2, l = l1 ++ x :: l2 /\ l' = l1 ++ l2 /\ ord k (key x) = Eq.

Lemma removed_left k l l' m : removed k l l' -> removed k (l ++ m) (l' ++ m).
Proof. intros (l1 & x & l2 & -> & -> & E). exists l1, x, (l2 ++ m). by rewrite <-!app_assoc. Qed.
Lemma removed_right k l l' m : removed k l l' -> removed k (m ++ l) (m ++ l').
Proof. intros (l1 & x & l2 & -> & -> & E). exists (m ++ l1), x, l2. by rewrite <-!app_assoc. Qed.
Lemma removed_sorted k l l' : removed k l l' -> sorted l -> sorted l'.
Proof.
  intros (l1 & x & l2 & -> & -> & _) (S1 & S2 & H)%sorted_app. apply StronglySorted_inv in S2 as [S2 _].
  apply sorted_app. split_and!; try done. intros a b Ha Hb. apply H; [done|by right].
Qed.

(** At most one record has the key [k]. *)
Lemma key_unique k l x y : sorted l -> x ∈ l -> y ∈ l -> ord k (key x) = Eq -> ord k (key y) = Eq -> x = y.
Proof.
  intros Hs Hx Hy Ex Ey. apply list_elem_of_split in Hx as (l1 & l2 & ->).
  apply sorted_app in Hs as (_ & [_ Hs2]%StronglySorted_inv & H). rewrite Forall_forall in Hs2.
  assert (Exy : ord (key x) (key y) = Eq) by (by rewrite <-(ord_Eq_l k)).
  apply elem_of_app in Hy as [Hy|[->|Hy]%elem_of_cons]; [|done|].
  - specialize (H y x Hy ltac:(by left)). unfold lt_rec in H. rewrite ord_antisym, Exy in H. done.
  - specialize (Hs2 y Hy). unfold lt_rec in Hs2. congruence.
Qed.
End Order.
