(* ===== verification/TTreeRep.v ===== *)
(** Nodes of the T-tree in memory: what the field accesses of [TTree] do to a heap that
    consists of nodes and of other blocks, the frame. *)
From Stdlib Require Import ZArith Lia.
From stdpp Require Import base list numbers gmap.
From S2P Require Import Prelude Value PtMalloc PtSpec Mallocator TTree.
Import AllocSpec.
Local Open Scope Z_scope.

(** ** The bytes of a node *)

Record node := mkNode { n_left : Z; n_right : Z; n_bal : Z; n_cnt : Z; n_items : list Z }.

Definition item_bytes (its : list Z) : list Z := concat (le_bytes 8 <$> its).
Definition node_head (n : node) : list Z := le_bytes 8 (n_left n) ++ le_bytes 8 (n_right n) ++ le_bytes 1 (n_bal n) ++ le_bytes 2 (n_cnt n).
Definition node_bytes (n : node) : list Z := node_head n ++ item_bytes (n_items n).

Record node_ok (n : node) : Prop := {
  no_left : is_u 64 (n_left n);
  no_right : is_u 64 (n_right n);
  no_bal : is_s 8 (n_bal n);
  no_cnt : is_u 16 (n_cnt n);
  no_len : length (n_items n) = 20%nat;
  no_items : Forall (is_u 64) (n_items n)
}.

Lemma item_bytes_app a b : item_bytes (a ++ b) = item_bytes a ++ item_bytes b.
Proof. unfold item_bytes. by rewrite fmap_app, concat_app. Qed.
Lemma item_bytes_cons x a : item_bytes (x :: a) = le_bytes 8 x ++ item_bytes a.
Proof. done. Qed.
Lemma item_bytes_length a : length (item_bytes a) = (8 * length a)%nat.
Proof. induction a as [|x a IH]; [done|]. rewrite item_bytes_cons, length_app, IH, le_bytes_length. simpl. lia. Qed.
Lemma node_head_length n : length (node_head n) = 19%nat.
Proof. unfold node_head. by rewrite !length_app, !le_bytes_length. Qed.
Lemma node_bytes_length n : node_ok n -> length (node_bytes n) = 179%nat.
Proof. intros []. unfold node_bytes. rewrite length_app, node_head_length, item_bytes_length. lia. Qed.

(** Any bytes can be seen as items, and as a node. *)
Lemma items_of_bytes k bs : bytes_ok bs -> length bs = (8 * k)%nat ->
  exists its, length its = k /\ Forall (is_u 64) its /\ item_bytes its = bs.
Proof.
  revert bs; induction k as [|k IH]; intros bs Hb Hl.
  - exists []. by destruct bs.
  - destruct (IH (drop 8 bs)) as (its & Hk & Hu & E); [by apply Forall_drop|rewrite length_drop; lia|].
    exists (le_value (take 8 bs) :: its). split; [simpl; lia|].
    pose proof (Forall_take _ 8%nat _ Hb) as Ht. assert (Hl8 : length (take 8 bs) = 8%nat) by (rewrite length_take; lia). split.
    + constructor; [|done]. pose proof (le_value_bound _ Ht) as Hv. rewrite Hl8 in Hv. exact Hv.
    + rewrite item_bytes_cons, E. pose proof (le_bytes_value _ Ht) as Ev. rewrite Hl8 in Ev. rewrite Ev. apply take_drop.
Qed.

Lemma field_of_bytes k bs : bytes_ok bs -> (k <= length bs)%nat ->
  exists v, 0 <= v < 256 ^ Z.of_nat k /\ bs = le_bytes k v ++ drop k bs /\ bytes_ok (drop k bs).
Proof.
  intros Hb Hk. pose proof (Forall_take _ k _ Hb) as Ht. assert (Hl : length (take k bs) = k) by (rewrite length_take; lia).
  exists (le_value (take k bs)). pose proof (le_value_bound _ Ht) as Hv. pose proof (le_bytes_value _ Ht) as Ev. rewrite Hl in Hv, Ev.
  split; [done|]. split; [by rewrite Ev, take_drop|by apply Forall_drop].
Qed.

Lemma le_bytes_s8 v : le_bytes 1 (s8 v) = le_bytes 1 v.
Proof. unfold s8, swrap, wrap. simpl. bcase; f_equal; change (2 ^ 8) with 256; zdm. Qed.

Lemma node_of_bytes bs : bytes_ok bs -> (179 <= length bs)%nat -> exists n tail, node_ok n /\ bs = node_bytes n ++ tail.
Proof.
  intros Hb Hl.
  destruct (field_of_bytes 8 bs Hb) as (l & Hul & E1 & H1); [lia|].
  destruct (field_of_bytes 8 _ H1) as (r & Hur & E2 & H2); [rewrite length_drop; lia|].
  destruct (field_of_bytes 1 _ H2) as (b & _ & E3 & H3); [rewrite !length_drop; lia|].
  destruct (field_of_bytes 2 _ H3) as (c & Hc & E4 & H4); [rewrite !length_drop; lia|].
  set (rest := drop 2 _) in *. assert (Hrl : (160 <= length rest)%nat) by (unfold rest; rewrite !length_drop; lia).
  destruct (items_of_bytes 20 (take 160 rest)) as (its & Hk & Hu & E5); [by apply Forall_take|rewrite length_take; lia|].
  exists (mkNode l r (s8 b) c its), (drop 160 rest). split.
  - split; try done. apply (swrap_range 8). lia.
  - unfold node_bytes, node_head. cbn [n_left n_right n_bal n_cnt n_items]. rewrite le_bytes_s8, E5, E1, E2, E3, E4, <-!app_assoc.
    by rewrite take_drop.
Qed.

(** ** Fields of a block *)

Section Rep.
Context {S : Type} `{!Mallocator S, !MallocatorLaws S}.

Lemma rd_field k (s : S) A h pre v post :
  heap s A -> A !! h = Some (pre ++ le_bytes k v ++ post) -> mread k (h + Z.of_nat (length pre)) s = Ok (v mod 256 ^ Z.of_nat k, s).
Proof.
  intros HA Hh. rewrite (mread_law k s A h _ (length pre) HA Hh) by (rewrite !length_app, le_bytes_length; lia).
  rewrite drop_app_length, take_app_length' by by rewrite le_bytes_length. by rewrite le_value_bytes.
Qed.

Lemma wr_field k (s : S) A h pre v v' post :
  heap s A -> A !! h = Some (pre ++ le_bytes k v ++ post) ->
  exists s', mwrite k (h + Z.of_nat (length pre)) v' s = Ok (tt, s') /\ heap s' (<[h := pre ++ le_bytes k v' ++ post]> A).
Proof.
  intros HA Hh. destruct (mwrite_law k s A h _ (length pre) v' HA Hh) as (s' & E & HA'); [rewrite !length_app, le_bytes_length; lia|].
  exists s'. split; [done|]. by rewrite inserts_middle in HA' by by rewrite !le_bytes_length.
Qed.

(** ** Heaps of nodes *)

Definition node_at (A : blocks) (h : Z) (n : node) : Prop := node_ok n /\ exists tail, A !! h = Some (node_bytes n ++ tail).

(** The nodes [N], and the other blocks [F]. *)
Definition HN (s : S) (F : blocks) (N : gmap Z node) : Prop :=
  exists A, heap s A /\ (forall h n, N !! h = Some n -> node_at A h n /\ F !! h = None) /\ (forall h, N !! h = None -> A !! h = F !! h).

Lemma HN_node_ok s F N h n : HN s F N -> N !! h = Some n -> node_ok n.
Proof. intros (A & _ & HN & _) Hn. by apply HN in Hn as [[? _] _]. Qed.
Lemma HN_handle s F N h : HN s F N -> is_Some (N !! h) -> 0 < h < 2 ^ 64.
Proof. intros (A & HA & HN & _) [n Hn]. apply HN in Hn as [[_ [t Ht]] _]. apply (heap_handle s A); [done|by eexists]. Qed.
Lemma HN_disj s F N h n : HN s F N -> N !! h = Some n -> F !! h = None.
Proof. intros (A & _ & HN & _) Hn. by apply HN in Hn as [_ ?]. Qed.
Lemma HN_frame s F N h : HN s F N -> is_Some (F !! h) -> 0 < h < 2 ^ 64 /\ N !! h = None.
Proof.
  intros (A & HA & HN & HF) Hh. destruct (N !! h) as [n|] eqn:E.
  - apply HN in E as [_ E]. rewrite E in Hh. by destruct Hh.
  - split; [|done]. apply (heap_handle s A); [done|]. by rewrite HF.
Qed.

Lemma HN_start s A : heap s A -> HN s A ∅.
Proof. intros HA. exists A. split; [done|]. split; [intros h n; by rewrite lookup_empty|done]. Qed.

(** Reading and writing [k] bytes at offset [o]. *)
Lemma HN_read k s F N h n pre v post o :
  HN s F N -> N !! h = Some n -> node_bytes n = pre ++ le_bytes k v ++ post -> o = Z.of_nat (length pre) ->
  mread k (h + o) s = Ok (v mod 256 ^ Z.of_nat k, s).
Proof.
  intros (A & HA & HN & _) Hn E ->. apply HN in Hn as [[_ [t Ht]] _]. eapply rd_field; [done|]. rewrite Ht, E, <-!app_assoc. done.
Qed.

Lemma HN_write k s F N h n n' pre v v' post o :
  HN s F N -> N !! h = Some n -> node_bytes n = pre ++ le_bytes k v ++ post -> node_bytes n' = pre ++ le_bytes k v' ++ post ->
  o = Z.of_nat (length pre) -> node_ok n' -> exists s', mwrite k (h + o) v' s = Ok (tt, s') /\ HN s' F (<[h := n']> N).
Proof.
  intros (A & HA & HN & HF) Hn E E' -> Hok. pose proof Hn as Hn'. apply HN in Hn' as [[_ [t Ht]] Hd].
  destruct (wr_field k s A h pre v v' (post ++ t) HA) as (s' & Ew & HA'); [by rewrite Ht, E, <-!app_assoc|].
  exists s'. split; [done|]. exists (<[h := pre ++ le_bytes k v' ++ post ++ t]> A). split; [done|]. split.
  - intros x m Hm. destruct (decide (x = h)) as [->|Hne].
    + rewrite lookup_insert_eq in Hm. injection Hm as <-. split; [|done]. split; [done|]. exists t. rewrite lookup_insert_eq, E', <-!app_assoc. done.
    + rewrite lookup_insert_ne in Hm by done. unfold node_at. rewrite lookup_insert_ne by done. by apply HN.
  - intros x Hx. destruct (decide (x = h)) as [->|Hne]; [by rewrite lookup_insert_eq in Hx|].
    rewrite lookup_insert_ne in Hx by done. rewrite lookup_insert_ne by done. by apply HF.
Qed.

(** Freeing a node, and a block of the frame. *)
Lemma HN_free_node s F N h : HN s F N -> is_Some (N !! h) -> exists s', free h s = Ok (0, s') /\ HN s' F (delete h N).
Proof.
  intros (A & HA & HN & HF) [n Hn]. pose proof Hn as Hn'. apply HN in Hn' as [[_ [t Ht]] Hd].
  destruct (free_law s A h HA) as (s' & E & HA'); [by eexists|]. exists s'. split; [done|]. exists (delete h A). split; [done|]. split.
  - intros x m [Hne Hm]%lookup_delete_Some. unfold node_at. rewrite lookup_delete_ne by done. by apply HN.
  - intros x Hx. destruct (decide (x = h)) as [->|Hne]; [by rewrite lookup_delete_eq|].
    rewrite lookup_delete_ne in Hx by done. rewrite lookup_delete_ne by done. by apply HF.
Qed.

Lemma HN_free_frame s F N h : HN s F N -> is_Some (F !! h) -> exists s', free h s = Ok (0, s') /\ HN s' (delete h F) N.
Proof.
  intros HH HF'. destruct (HN_frame _ _ _ _ HH HF') as [_ Hnone]. destruct HH as (A & HA & HN & HF).
  destruct (free_law s A h HA) as (s' & E & HA'); [by rewrite HF|]. exists s'. split; [done|]. exists (delete h A). split; [done|]. split.
  - intros x m Hm. assert (x <> h) by congruence. unfold node_at. rewrite !lookup_delete_ne by done. by apply HN.
  - intros x Hx. destruct (decide (x = h)) as [->|Hne]; [by rewrite !lookup_delete_eq|]. rewrite !lookup_delete_ne by done. by apply HF.
Qed.

(** A new block of the size of a node, seen as some node. *)
Lemma HN_malloc s F N : HN s F N -> exists r s', malloc sizeof_TtreeNode s = Ok (r, s') /\
  ((r = 0 /\ HN s' F N) \/ (r <> 0 /\ N !! r = None /\ F !! r = None /\ exists n, node_ok n /\ HN s' F (<[r := n]> N))).
Proof.
  intros (A & HA & HN & HF). destruct (malloc_law s A sizeof_TtreeNode HA) as (r & s' & A' & E & Hnb & HA'); [done|].
  exists r, s'. split; [done|]. destruct Hnb as [[-> ->]|(Hr & Hnone & bs & Hl & _ & ->)]; [left; split; [done|by exists A]|right].
  assert (HNr : N !! r = None). { destruct (N !! r) as [n|] eqn:En; [|done]. apply HN in En as [[_ [t Ht]] _]. congruence. }
  split; [done|]. split; [done|]. split; [by rewrite <-HF|].
  pose proof (heap_bytes s' _ r bs HA' (lookup_insert_eq _ _ _)) as Hb. unfold sizeof_TtreeNode in Hl.
  destruct (node_of_bytes bs Hb) as (n & tail & Hok & ->); [lia|]. exists n. split; [done|].
  eexists. split; [exact HA'|]. split.
  - intros x m Hm. destruct (decide (x = r)) as [->|Hne].
    + rewrite lookup_insert_eq in Hm. injection Hm as <-. split; [|by rewrite <-HF]. split; [done|]. exists tail. by rewrite lookup_insert_eq.
    + rewrite lookup_insert_ne in Hm by done. unfold node_at. rewrite lookup_insert_ne by done. by apply HN.
  - intros x Hx. destruct (decide (x = r)) as [->|Hne]; [by rewrite lookup_insert_eq in Hx|].
    rewrite lookup_insert_ne in Hx by done. rewrite lookup_insert_ne by done. by apply HF.
Qed.

(** ** The fields *)

Section Fields.
Context (s : S) (F : blocks) (N : gmap Z node) (h l r b c : Z) (its : list Z).
Hypothesis HH : HN s F N.
Hypothesis Hn : N !! h = Some (mkNode l r b c its).

Lemma wp_hLeft Q : Q l s -> wp (hLeft_of h) s Q.
Proof.
  intros HQ. destruct (HN_node_ok _ _ _ _ _ HH Hn) as [Hl _ _ _ _ _]. eapply wp_eq; [|exact HQ].
  unfold hLeft_of. replace h with (h + 0) by lia. erewrite (HN_read 8 s F N h _ [] l); [|exact HH|exact Hn|done|done].
  do 2 f_equal. by apply Z.mod_small.
Qed.

Lemma wp_hRight Q : Q r s -> wp (hRight_of h) s Q.
Proof.
  intros HQ. destruct (HN_node_ok _ _ _ _ _ HH Hn) as [_ Hr _ _ _ _]. eapply wp_eq; [|exact HQ].
  unfold hRight_of. erewrite (HN_read 8 s F N h _ (le_bytes 8 l) r); [|exact HH|exact Hn|unfold node_bytes, node_head; by rewrite <-!app_assoc|by rewrite le_bytes_length].
  do 2 f_equal. by apply Z.mod_small.
Qed.

Lemma wp_chBalance Q : Q b s -> wp (chBalance_of h) s Q.
Proof.
  intros HQ. destruct (HN_node_ok _ _ _ _ _ HH Hn) as [_ _ Hb _ _ _]. apply wp_bind. eapply wp_eq.
  - erewrite (HN_read 1 s F N h _ (le_bytes 8 l ++ le_bytes 8 r) b); [done|exact HH|exact Hn|unfold node_bytes, node_head; by rewrite <-!app_assoc|by rewrite length_app, !le_bytes_length].
  - apply wp_ret. change (256 ^ Z.of_nat 1) with (2 ^ 8). fold (wrap 8 b). unfold s8. rewrite swrap_wrap, swrap_small by (lia || done). done.
Qed.

Lemma wp_ushNItems Q : Q c s -> wp (ushNItems_of h) s Q.
Proof.
  intros HQ. destruct (HN_node_ok _ _ _ _ _ HH Hn) as [_ _ _ Hc _ _]. eapply wp_eq; [|exact HQ].
  unfold ushNItems_of. erewrite (HN_read 2 s F N h _ (le_bytes 8 l ++ le_bytes 8 r ++ le_bytes 1 b) c);
    [|exact HH|exact Hn|unfold node_bytes, node_head; by rewrite <-!app_assoc|by rewrite !length_app, !le_bytes_length].
  do 2 f_equal. by apply Z.mod_small.
Qed.

Lemma node_item i x : its !! i = Some x -> node_bytes (mkNode l r b c its) =
  (node_head (mkNode l r b c its) ++ item_bytes (take i its)) ++ le_bytes 8 x ++ item_bytes (drop (Datatypes.S i) its).
Proof.
  intros Hi. unfold node_bytes. cbn [n_items]. rewrite <-app_assoc. f_equal.
  by rewrite <-item_bytes_cons, <-item_bytes_app, take_drop_middle.
Qed.

Lemma wp_ahItems i x Q : 0 <= i -> its !! Z.to_nat i = Some x -> Q x s -> wp (ahItems_of h i) s Q.
Proof.
  intros Hi Hx HQ. destruct (HN_node_ok _ _ _ _ _ HH Hn) as [_ _ _ _ Hlen Hits]. cbn [n_items] in *. eapply wp_eq; [|exact HQ].
  pose proof (lookup_lt_Some _ _ _ Hx). unfold ahItems_of, item_addr. rewrite <-Z.add_assoc.
  erewrite (HN_read 8 s F N h _ _ x); [|exact HH|exact Hn|by apply (node_item (Z.to_nat i))|
    rewrite length_app, node_head_length, item_bytes_length, length_take; lia].
  do 2 f_equal. apply Z.mod_small. by apply (Forall_lookup_1 _ _ _ _ Hits Hx).
Qed.

Lemma wp_put_hLeft v Q : is_u 64 v -> (forall s', HN s' F (<[h := mkNode v r b c its]> N) -> Q tt s') -> wp (put_hLeft h v) s Q.
Proof.
  intros Hv HQ. destruct (HN_node_ok _ _ _ _ _ HH Hn) as [].
  destruct (HN_write 8 s F N h _ (mkNode v r b c its) [] l v _ 0 HH Hn eq_refl eq_refl eq_refl) as (s' & E & H'); [done|].
  exists tt, s'. split; [|by apply HQ]. by rewrite Z.add_0_r in E.
Qed.

Lemma wp_put_hRight v Q : is_u 64 v -> (forall s', HN s' F (<[h := mkNode l v b c its]> N) -> Q tt s') -> wp (put_hRight h v) s Q.
Proof.
  intros Hv HQ. destruct (HN_node_ok _ _ _ _ _ HH Hn) as [].
  destruct (HN_write 8 s F N h _ (mkNode l v b c its) (le_bytes 8 l) r v (le_bytes 1 b ++ le_bytes 2 c ++ item_bytes its) 8 HH Hn) as (s' & E & H');
    [unfold node_bytes, node_head; by rewrite <-!app_assoc|unfold node_bytes, node_head; by rewrite <-!app_assoc|by rewrite le_bytes_length|done|].
  exists tt, s'. split; [done|by apply HQ].
Qed.

Lemma wp_put_chBalance v Q : is_s 8 v -> (forall s', HN s' F (<[h := mkNode l r v c its]> N) -> Q tt s') -> wp (put_chBalance h v) s Q.
Proof.
  intros Hv HQ. destruct (HN_node_ok _ _ _ _ _ HH Hn) as [].
  destruct (HN_write 1 s F N h _ (mkNode l r v c its) (le_bytes 8 l ++ le_bytes 8 r) b v (le_bytes 2 c ++ item_bytes its) 16 HH Hn) as (s' & E & H');
    [unfold node_bytes, node_head; by rewrite <-!app_assoc|unfold node_bytes, node_head; by rewrite <-!app_assoc|by rewrite length_app, !le_bytes_length|done|].
  exists tt, s'. split; [done|by apply HQ].
Qed.

Lemma wp_put_ushNItems v Q : is_u 16 v -> (forall s', HN s' F (<[h := mkNode l r b v its]> N) -> Q tt s') -> wp (put_ushNItems h v) s Q.
Proof.
  intros Hv HQ. destruct (HN_node_ok _ _ _ _ _ HH Hn) as [].
  destruct (HN_write 2 s F N h _ (mkNode l r b v its) (le_bytes 8 l ++ le_bytes 8 r ++ le_bytes 1 b) c v (item_bytes its) 17 HH Hn) as (s' & E & H');
    [unfold node_bytes, node_head; by rewrite <-!app_assoc|unfold node_bytes, node_head; by rewrite <-!app_assoc|by rewrite !length_app, !le_bytes_length|done|].
  exists tt, s'. split; [done|by apply HQ].
Qed.

Lemma wp_put_ahItems i v Q : 0 <= i < 20 -> is_u 64 v ->
  (forall s', HN s' F (<[h := mkNode l r b c (<[Z.to_nat i := v]> its)]> N) -> Q tt s') -> wp (put_ahItems h i v) s Q.
Proof.
  intros Hi Hv HQ. destruct (HN_node_ok _ _ _ _ _ HH Hn) as [? ? ? ? Hlen Hits]. cbn [n_left n_right n_bal n_cnt n_items] in *.
  destruct (lookup_lt_is_Some_2 its (Z.to_nat i)) as [x Hx]; [lia|].
  destruct (HN_write 8 s F N h _ (mkNode l r b c (<[Z.to_nat i := v]> its)) (node_head (mkNode l r b c its) ++ item_bytes (take (Z.to_nat i) its)) x v
    (item_bytes (drop (Datatypes.S (Z.to_nat i)) its)) (19 + 8 * i) HH Hn) as (s' & E & H').
  - by apply (node_item (Z.to_nat i)).
  - unfold node_bytes. cbn [n_items]. rewrite insert_take_drop by lia. rewrite item_bytes_app, item_bytes_cons, <-app_assoc. done.
  - rewrite length_app, node_head_length, item_bytes_length, length_take. lia.
  - split; try done; cbn [n_items]; [by rewrite length_insert|by apply Forall_insert].
  - exists tt, s'. split; [|by apply HQ]. unfold put_ahItems, item_addr. by rewrite <-Z.add_assoc.
Qed.
End Fields.
End Rep.
