(* ===== verification/TTreePage.v ===== *)
(** The pages of the T-tree of [TTree]: the loops over the items of one node, and what
    the tree relies on of a comparator. *)
From Stdlib Require Import ZArith Lia.
From stdpp Require Import base sorting list numbers gmap.
From S2P Require Import Prelude Value PtMalloc PtSpec Mallocator TTree TTreeRep TTreePure.
Import AllocSpec.
Local Open Scope Z_scope.

(** ** Comparators

    A comparator orders the records by the keys in their bytes. The difference it
    computes has the sign of the order and fits an [int]; the value that
    [convert_cvalue] builds is the key of the record. *)
Class KeyOrder {S} `{!Mallocator S, !MallocatorLaws S} (cookie : CmpCookie) (pfComp : KeyComparator (S := S)) := {
  ord : DTCValue -> DTCValue -> comparison;
  valid : DTCValue -> Prop;
  rec_key : list Z -> option DTCValue;
  ord_antisym a b : ord b a = CompOpp (ord a b);
  ord_trans c x y z : ord x y = c -> ord y z = c -> ord x z = c;
  comp_law s A h bs k kh : heap s A -> A !! h = Some bs -> rec_key bs = Some kh -> valid k ->
    exists d, pfComp k cookie h s = Ok (d, s) /\ is_s 32 d /\ Z.sgn d = cmp_sign (ord k kh);
  convert_law s A h bs kh : heap s A -> A !! h = Some bs -> rec_key bs = Some kh ->
    convert_cvalue cookie h s = Ok (kh, s) /\ valid kh
}.

Section Page.
Context {S : Type} `{!Mallocator S, !MallocatorLaws S}.

(** ** Moving items *)

Lemma last_cons_default (z : Z) m y : List.last (z :: m) y = List.last m z.
Proof. revert z y; induction m as [|x m IH]; intros z y; [done|]. change (List.last (x :: m) y = List.last (x :: m) z). by rewrite !IH. Qed.

Lemma wp_move_up s F N h l r b c a m y d Q :
  HN s F N -> N !! h = Some (mkNode l r b c (a ++ m ++ y :: d)) ->
  (forall s', HN s' F (<[h := mkNode l r b c (a ++ List.hd y m :: m ++ d)]> N) -> Q tt s') ->
  wp (move_up h (Z.of_nat (length a + length m)) (length m)) s Q.
Proof.
  revert s N y d; induction m as [|z m IH] using rev_ind; intros s N y d HH Hn HQ.
  - apply wp_ret, HQ. cbn. by rewrite insert_id.
  - rewrite length_app, Nat.add_1_r. cbn [move_up].
    pose proof (HN_node_ok _ _ _ _ _ HH Hn) as [_ _ _ _ Hlen Hits]. cbn [n_items] in *.
    rewrite !length_app in Hlen. cbn [length] in Hlen. rewrite !Forall_app, !Forall_cons in Hits.
    apply wp_bind, (wp_ahItems _ _ _ _ _ _ _ _ _ HH Hn _ z); [lia|..].
    { rewrite <-app_assoc. cbn [app]. rewrite app_assoc. apply list_lookup_middle. rewrite length_app. lia. }
    apply wp_bind, (wp_put_ahItems _ _ _ _ _ _ _ _ _ HH Hn); [lia|apply Hits|]. intros s1 H1.
    replace (Z.of_nat (length a + Datatypes.S (length m)) - 1) with (Z.of_nat (length a + length m)) by lia.
    eapply IH; [exact H1|rewrite lookup_insert_eq; do 2 f_equal|].
    { instantiate (1 := z :: d). instantiate (1 := z). rewrite Nat2Z.id.
      replace (length a + Datatypes.S (length m))%nat with (length (a ++ m ++ [z])) by (rewrite !length_app; simpl; lia).
      rewrite !app_assoc, insert_app_r_alt, Nat.sub_diag by lia. by rewrite <-!app_assoc. }
    intros s2 H2. rewrite insert_insert_eq in H2. apply HQ. rewrite <-app_assoc. by destruct m.
Qed.

Lemma wp_move_down s F N h l r b c a m y d Q :
  HN s F N -> N !! h = Some (mkNode l r b c (a ++ y :: m ++ d)) ->
  (forall s', HN s' F (<[h := mkNode l r b c (a ++ m ++ List.last m y :: d)]> N) -> Q tt s') ->
  wp (move_down h (Z.of_nat (length a + 1)) (length m)) s Q.
Proof.
  revert s N a y; induction m as [|z m IH]; intros s N a y HH Hn HQ.
  - apply wp_ret, HQ. cbn. by rewrite insert_id.
  - cbn [length move_down].
    pose proof (HN_node_ok _ _ _ _ _ HH Hn) as [_ _ _ _ Hlen Hits]. cbn [n_items] in *.
    rewrite length_app, length_cons, length_app, length_cons in Hlen. cbn [app] in Hits. rewrite Forall_app, !Forall_cons in Hits.
    apply wp_bind, (wp_ahItems _ _ _ _ _ _ _ _ _ HH Hn _ z); [lia|..].
    { rewrite Nat2Z.id, lookup_app_r, Nat.add_comm, Nat.add_sub by lia. done. }
    apply wp_bind, (wp_put_ahItems _ _ _ _ _ _ _ _ _ HH Hn); [lia|apply Hits|]. intros s1 H1.
    replace (Z.of_nat (length a + 1) + 1) with (Z.of_nat (length (a ++ [z]) + 1)) by (rewrite length_app; simpl; lia).
    eapply IH; [exact H1|rewrite lookup_insert_eq; do 2 f_equal|].
    { instantiate (1 := z). replace (Z.to_nat _) with (length a) by lia.
      rewrite insert_app_r_alt, Nat.sub_diag by lia. by rewrite <-!app_assoc. }
    intros s2 H2. rewrite insert_insert_eq in H2. apply HQ. rewrite <-app_assoc in H2. by rewrite last_cons_default.
Qed.

Lemma wp_clear_items s F N h l r b c a m Q :
  HN s F N -> N !! h = Some (mkNode l r b c (a ++ m)) ->
  (forall s', HN s' F (<[h := mkNode l r b c (a ++ replicate (length m) 0)]> N) -> Q tt s') ->
  wp (clear_items h (Z.of_nat (length a)) (length m)) s Q.
Proof.
  revert s N a; induction m as [|z m IH]; intros s N a HH Hn HQ.
  - apply wp_ret, HQ. cbn. by rewrite insert_id.
  - cbn [length clear_items]. pose proof (HN_node_ok _ _ _ _ _ HH Hn) as [_ _ _ _ Hlen _]. cbn [n_items] in *.
    rewrite length_app, length_cons in Hlen.
    apply wp_bind, (wp_put_ahItems _ _ _ _ _ _ _ _ _ HH Hn); [lia|done|]. intros s1 H1.
    replace (Z.of_nat (length a) + 1) with (Z.of_nat (length (a ++ [0]))) by (rewrite length_app; simpl; lia).
    eapply IH; [exact H1|rewrite lookup_insert_eq; do 2 f_equal|].
    { rewrite Nat2Z.id, insert_app_r_alt, Nat.sub_diag by lia. by rewrite <-app_assoc. }
    intros s2 H2. rewrite insert_insert_eq in H2. apply HQ. by rewrite <-app_assoc in H2.
Qed.

Lemma wp_save_items s F N h l r b c a m Q :
  HN s F N -> N !! h = Some (mkNode l r b c (a ++ m)) -> Q m s -> wp (save_items h (Z.of_nat (length a)) (length m)) s Q.
Proof.
  revert a Q; induction m as [|z m IH]; intros a Q HH Hn HQ; [by apply wp_ret|]. cbn [length save_items].
  apply wp_bind, (wp_ahItems _ _ _ _ _ _ _ _ _ HH Hn _ z); [lia|by rewrite Nat2Z.id, list_lookup_middle|].
  replace (Z.of_nat (length a) + 1) with (Z.of_nat (length (a ++ [z]))) by (rewrite length_app; simpl; lia).
  apply wp_bind, IH; [done|by rewrite <-app_assoc|]. by apply wp_ret.
Qed.

Lemma wp_restore_items s F N h l r b c a m m' Q :
  HN s F N -> N !! h = Some (mkNode l r b c (a ++ m)) -> length m' = length m -> Forall (is_u 64) m' ->
  (forall s', HN s' F (<[h := mkNode l r b c (a ++ m')]> N) -> Q tt s') -> wp (restore_items h (Z.of_nat (length a)) m') s Q.
Proof.
  revert s N a m; induction m' as [|z m' IH]; intros s N a m HH Hn Hl Hu HQ.
  - destruct m; [|done]. apply wp_ret, HQ. by rewrite insert_id.
  - destruct m as [|y m]; [done|]. injection Hl as Hl. apply Forall_cons in Hu as [Hz Hu]. cbn [restore_items].
    pose proof (HN_node_ok _ _ _ _ _ HH Hn) as [_ _ _ _ Hlen _]. cbn [n_items] in *. rewrite length_app, length_cons in Hlen.
    apply wp_bind, (wp_put_ahItems _ _ _ _ _ _ _ _ _ HH Hn); [lia|done|]. intros s1 H1.
    replace (Z.of_nat (length a) + 1) with (Z.of_nat (length (a ++ [z]))) by (rewrite length_app; simpl; lia).
    eapply (IH _ _ _ m); [exact H1|rewrite lookup_insert_eq; do 2 f_equal|done|done|].
    { rewrite Nat2Z.id, insert_app_r_alt, Nat.sub_diag by lia. by rewrite <-app_assoc. }
    intros s2 H2. rewrite insert_insert_eq in H2. apply HQ. by rewrite <-app_assoc in H2.
Qed.

(** A new node with one item, or no memory. *)
Lemma wp_Alloc s F N x Q :
  HN s F N -> is_u 64 x -> (forall s', HN s' F N -> Q 0 s') ->
  (forall s' h pad, h <> 0 -> N !! h = None -> F !! h = None -> HN s' F (<[h := mkNode 0 0 0 1 (x :: pad)]> N) -> Q h s') ->
  wp (TtreeNode_Alloc x) s Q.
Proof.
  intros HH Hx H0 H1. unfold TtreeNode_Alloc. apply wp_bind.
  destruct (HN_malloc s F N HH) as (h & s1 & E & [[-> HH1]|(Hh & HNh & HFh & [l r b c its] & Hok & HH1)]).
  { exists 0, s1. split; [exact E|]. by apply wp_ret, H0. }
  exists h, s1. split; [exact E|].
  rewrite (proj2 (Z.eqb_neq h INVALID_HANDLE) Hh). unfold TtreeNode_Init. do 2 apply wp_bind.
  eapply wp_put_hLeft; [exact HH1|apply lookup_insert_eq|done|]. intros s2. rewrite insert_insert_eq. intros HH2. apply wp_bind.
  eapply wp_put_hRight; [exact HH2|apply lookup_insert_eq|done|]. intros s3. rewrite insert_insert_eq. intros HH3. apply wp_bind.
  eapply wp_put_chBalance; [exact HH3|apply lookup_insert_eq|done|]. intros s4. rewrite insert_insert_eq. intros HH4. apply wp_bind.
  eapply wp_put_ushNItems; [exact HH4|apply lookup_insert_eq|done|]. intros s5. rewrite insert_insert_eq. intros HH5. apply wp_bind.
  pose proof (no_len _ Hok) as Hl. cbn [n_items] in Hl. rewrite (eq_sym Hl : Z.to_nat PAGE_SIZE = length its).
  eapply (wp_clear_items s5 F _ h _ _ _ _ [] its _ HH5); [apply lookup_insert_eq|]. intros s6. rewrite insert_insert_eq, Hl. intros HH6.
  apply wp_ret, wp_bind. eapply wp_put_ahItems; [exact HH6|apply lookup_insert_eq|done|done|]. intros s7. rewrite insert_insert_eq. intros HH7.
  apply wp_bind. eapply wp_put_ushNItems; [exact HH7|apply lookup_insert_eq|done|]. intros s8. rewrite insert_insert_eq. intros HH8.
  apply wp_ret. by apply (H1 s8 h (replicate 19 0)).
Qed.

(** An item is put into a page that is not full: at [i], and behind the last one. *)
Lemma wp_page_insert {B} s F N h l r b its pad i x (k : ST S B) Q :
  HN s F N -> N !! h = Some (mkNode l r b (Z.of_nat (length its)) (its ++ pad)) -> (length its < 20)%nat -> (i <= length its)%nat -> is_u 64 x ->
  (forall s' pad', HN s' F (<[h := mkNode l r b (Z.of_nat (length its + 1)) ((take i its ++ x :: drop i its) ++ pad')]> N) -> wp k s' Q) ->
  wp (move_up h (Z.of_nat (length its)) (length its - i);; put_ahItems h (Z.of_nat i) x;; incr_items h;; k) s Q.
Proof.
  intros HH Hn Hl Hi Hx Hk. pose proof (HN_node_ok _ _ _ _ _ HH Hn) as [_ _ _ _ Hlen _]. cbn [n_items] in Hlen. rewrite length_app in Hlen.
  destruct pad as [|y pad]; [simpl in Hlen; lia|].
  assert (Ei : length (take i its) = i) by (rewrite length_take; lia).
  apply wp_bind. replace (Z.of_nat (length its)) with (Z.of_nat (length (take i its) + length (drop i its))) by (rewrite length_drop; lia).
  replace (length its - i)%nat with (length (drop i its)) by (rewrite length_drop; lia).
  eapply (wp_move_up s F N h _ _ _ _ _ _ y pad _ HH); [by rewrite app_assoc, take_drop|]. intros s1 H1.
  apply wp_bind. eapply wp_put_ahItems; [exact H1|apply lookup_insert_eq|lia|done|]. rewrite insert_insert_eq, Nat2Z.id. intros s2 H2.
  unfold incr_items. do 2 apply wp_bind. eapply wp_ushNItems; [exact H2|apply lookup_insert_eq|].
  eapply wp_put_ushNItems; [exact H2|apply lookup_insert_eq|unfold is_u; lia|]. intros s3 H3. rewrite insert_insert_eq in H3.
  apply (Hk s3 pad). revert H3. rewrite insert_app_r_alt by lia. rewrite Ei, Nat.sub_diag, <-app_assoc. cbn [list_insert app].
  replace (Z.of_nat (length its) + 1) with (Z.of_nat (length its + 1)) by lia. done.
Qed.

Lemma wp_page_append {B} s F N h l r b its pad x (k : ST S B) Q :
  HN s F N -> N !! h = Some (mkNode l r b (Z.of_nat (length its)) (its ++ pad)) -> (length its < 20)%nat -> is_u 64 x ->
  (forall s' pad', HN s' F (<[h := mkNode l r b (Z.of_nat (length its + 1)) ((its ++ [x]) ++ pad')]> N) -> wp k s' Q) ->
  wp (put_ahItems h (Z.of_nat (length its)) x;; incr_items h;; k) s Q.
Proof.
  intros HH Hn Hl Hx Hk. pose proof (wp_page_insert s F N h l r b its pad (length its) x k Q HH Hn Hl ltac:(lia) Hx) as Hw.
  rewrite Nat.sub_diag, take_ge, drop_ge in Hw by lia. apply Hw in Hk as (a & s' & E & HQ). by exists a, s'.
Qed.
End Page.

(** ** Comparisons with the records of the frame *)

Section Compare.
Context {S : Type} `{!Mallocator S, !MallocatorLaws S} (cookie : CmpCookie) (pfComp : KeyComparator (S := S)) `{!KeyOrder cookie pfComp}.

(** The key of the record at the handle [x]. *)
Definition key_at (F : blocks) (x : Z) : DTCValue := default (DWord 0) (F !! x ≫= rec_key).
Definition is_rec (F : blocks) (x : Z) : Prop := is_Some (F !! x ≫= rec_key).

Lemma is_rec_inv F x : is_rec F x -> exists bs, F !! x = Some bs /\ rec_key bs = Some (key_at F x).
Proof.
  intros [k Hk]. pose proof Hk as Hk'. apply bind_Some in Hk as (bs & Hb & Hr). exists bs. split; [done|]. unfold key_at. by rewrite Hk'.
Qed.

Lemma is_rec_handle s F N x : HN s F N -> is_rec F x -> is_u 64 x /\ x <> 0 /\ N !! x = None.
Proof.
  intros HH (bs & Hb & _)%is_rec_inv. destruct (HN_frame s F N x HH) as [Hx ?]; [by eexists|]. unfold is_u. split_and!; [lia|lia|lia|done].
Qed.

Lemma is_rec_heap s F N x : HN s F N -> is_rec F x -> exists A bs, heap s A /\ A !! x = Some bs /\ rec_key bs = Some (key_at F x).
Proof.
  intros HH Hx. destruct (is_rec_handle s F N x HH Hx) as (_ & _ & Hnone). apply is_rec_inv in Hx as (bs & Hb & Hr).
  destruct HH as (A & HA & _ & HF). exists A, bs. split; [done|]. split; [by rewrite HF|done].
Qed.

Lemma wp_comp s F N x k Q :
  HN s F N -> is_rec F x -> valid k -> (forall d, is_s 32 d -> Z.sgn d = cmp_sign (ord k (key_at F x)) -> Q d s) -> wp (pfComp k cookie x) s Q.
Proof.
  intros HH Hx Hk HQ. destruct (is_rec_heap s F N x HH Hx) as (A & bs & HA & Hb & Hr).
  destruct (comp_law s A x bs k _ HA Hb Hr Hk) as (d & E & Hd & Hs). eapply wp_eq; [exact E|by apply HQ].
Qed.

Lemma wp_iDiff s F N x k Q :
  HN s F N -> is_rec F x -> valid k -> (forall d, Z.sgn d = cmp_sign (ord k (key_at F x)) -> Q d s) -> wp (iDiff cookie pfComp k x) s Q.
Proof.
  intros HH Hx Hk HQ. apply wp_bind, (wp_comp s F N); [done..|]. intros d Hd Hs. apply wp_ret.
  unfold s32. rewrite swrap_small by (lia || done). by apply HQ.
Qed.

Lemma wp_convert s F N x Q : HN s F N -> is_rec F x -> (valid (key_at F x) -> Q (key_at F x) s) -> wp (convert_cvalue cookie x) s Q.
Proof.
  intros HH Hx HQ. destruct (is_rec_heap s F N x HH Hx) as (A & bs & HA & Hb & Hr).
  destruct (convert_law s A x bs _ HA Hb Hr) as [E Hv]. eapply wp_eq; [exact E|by apply HQ].
Qed.

Abbreviation lt_key F := (lt_rec ord (key_at F)).
Abbreviation above_key F := (above ord (key_at F)).
Abbreviation below_key F := (below ord (key_at F)).

(** The binary search: it finds the item with the key, or the place between the items
    below it and those above. *)
Lemma wp_search_page fuel s F N h l r b c its pad k lo hi Q :
  HN s F N -> N !! h = Some (mkNode l r b c (its ++ pad)) -> Forall (is_rec F) its -> StronglySorted (lt_key F) its -> valid k ->
  (lo <= hi <= length its)%nat -> (hi - lo < fuel)%nat -> Forall (below_key F k) (take lo its) -> Forall (above_key F k) (drop hi its) ->
  (forall i x, its !! i = Some x -> ord k (key_at F x) = Eq -> Q (inl (Z.of_nat i)) s) ->
  (forall m, (lo <= m <= hi)%nat -> Forall (below_key F k) (take m its) -> Forall (above_key F k) (drop m its) -> Q (inr (Z.of_nat m)) s) ->
  wp (search_page cookie pfComp fuel h k (Z.of_nat lo) (Z.of_nat hi)) s Q.
Proof.
  intros HH Hn Hrec Hsort Hk. revert lo hi; induction fuel as [|fuel IH]; intros lo hi Hlh Hf Hlo Hhi H1 H2; [lia|].
  cbn [search_page]. destruct (Z.ltb_spec (Z.of_nat lo) (Z.of_nat hi)) as [Hlt|Hge].
  2:{ apply wp_ret. assert (hi = lo) as -> by lia. by apply H2. }
  set (m := ((lo + hi) / 2)%nat). assert (Em : Z.shiftr (Z.of_nat lo + Z.of_nat hi) 1 = Z.of_nat m).
  { rewrite Z.shiftr_div_pow2 by lia. unfold m. rewrite Nat2Z.inj_div, Nat2Z.inj_add. done. }
  assert (Hm : (lo <= m < hi)%nat) by (unfold m; split; [apply Nat.div_le_lower_bound; lia|apply Nat.div_lt_upper_bound; lia]).
  rewrite Em. destruct (lookup_lt_is_Some_2 its m) as [x Hx]; [lia|].
  assert (Hx' : is_rec F x) by by eapply Forall_lookup_1.
  apply wp_bind. eapply wp_ahItems; [exact HH|exact Hn|lia|rewrite Nat2Z.id; by apply lookup_app_l_Some|].
  apply wp_bind. apply (wp_iDiff s F N x k _ HH Hx' Hk). intros d Hd.
  rewrite <-(take_drop_middle its m x Hx) in Hsort.
  destruct (ord k (key_at F x)) eqn:Eo; cbn [cmp_sign] in Hd.
  - rewrite (proj2 (Z.eqb_eq d 0)) by lia. apply wp_ret. by eapply H1.
  - rewrite (proj2 (Z.eqb_neq d 0)), (proj2 (Z.ltb_ge 0 d)) by lia. apply IH; [lia|lia|done| |done|].
    + rewrite (drop_S _ x) by done. apply sorted_app in Hsort as (_ & Hs & _). eapply above_cons; [apply ord_trans|exact Hs|done].
    + intros j Hj. apply H2. lia.
  - rewrite (proj2 (Z.eqb_neq d 0)), (proj2 (Z.ltb_lt 0 d)) by lia. replace (Z.of_nat m + 1) with (Z.of_nat (Datatypes.S m)) by lia.
    apply IH; [lia|lia| |done|done|].
    + rewrite (take_S_r _ _ x) by done. change (x :: drop (Datatypes.S m) its) with ([x] ++ drop (Datatypes.S m) its) in Hsort.
      rewrite app_assoc in Hsort. apply sorted_app in Hsort as (Hs & _). eapply below_snoc; [apply ord_antisym|apply ord_trans|exact Hs|done].
    + intros j Hj. apply H2. lia.
Qed.
End Compare.
