(* ===== verification/TTreeRot.v ===== *)
(** Trees in memory, and the rotations of [TTree] on them. *)
From Stdlib Require Import ZArith Lia.
From stdpp Require Import base list numbers gmap.
From S2P Require Import Prelude Value PtMalloc PtSpec Mallocator TTree TTreeRep TTreePage TTreePure.
Import AllocSpec.
Local Open Scope Z_scope.

(** The nodes of [t] are in [N]; behind the items of a page are whatever bytes. *)
Fixpoint rep (N : gmap Z node) (t : tree) : Prop :=
  match t with
  | Leaf => True
  | Node h l b its r =>
    (exists pad, N !! h = Some (mkNode (root l) (root r) b (Z.of_nat (length its)) (its ++ pad))) /\ rep N l /\ rep N r
  end.

Lemma rep_ext N N' t : rep N t -> (forall x, x ∈ handles t -> N' !! x = N !! x) -> rep N' t.
Proof.
  induction t as [|h l IHl b its r IHr]; [done|]. intros ([pad Hn] & Hl & Hr) H. cbn [rep handles] in *. split_and!.
  - exists pad. rewrite H; [done|by left].
  - apply IHl; [done|]. intros x Hx. apply H. set_solver.
  - apply IHr; [done|]. intros x Hx. apply H. set_solver.
Qed.

Lemma rep_insert N h n t : rep N t -> h ∉ handles t -> rep (<[h := n]> N) t.
Proof. intros Hr Hh. apply (rep_ext N); [done|]. intros x Hx. apply lookup_insert_ne. by intros ->. Qed.

Lemma rep_handle N t x : rep N t -> x ∈ handles t -> is_Some (N !! x).
Proof.
  induction t as [|h l IHl b its r IHr]; [by intros _ Hx%not_elem_of_nil|]. intros ([pad Hn] & Hl & Hr).
  cbn [handles]. intros [->|[Hx|Hx]%elem_of_app]%elem_of_cons; [by eexists|by apply IHl|by apply IHr].
Qed.

Create HintDb ttree.
#[export] Hint Resolve rep_insert : ttree.

(** Looking up a node among those just written. *)
Ltac neq := first [assumption | apply not_eq_sym; assumption].
Ltac look :=
  repeat (first [rewrite lookup_insert_eq | rewrite lookup_insert_ne by neq]);
  first [eassumption | reflexivity].

(** A balance that fits. *)
Ltac bal_ok := unfold is_s; repeat (case_match || lia); lia.

(** One step of the code, by the rule of its operation. *)
Ltac wnew := let s' := fresh "s" in let H' := fresh "HH" in intros s' H'.
Ltac wstep :=
  lazymatch goal with
  | |- wp (_ ≫= _) _ _ => apply wp_bind
  | |- wp (mret _) _ _ => apply wp_ret
  | |- wp (hLeft_of _) _ _ => eapply wp_hLeft; [eassumption|look|]
  | |- wp (hRight_of _) _ _ => eapply wp_hRight; [eassumption|look|]
  | |- wp (chBalance_of _) _ _ => eapply wp_chBalance; [eassumption|look|]
  | |- wp (ushNItems_of _) _ _ => eapply wp_ushNItems; [eassumption|look|]
  | |- wp (put_hLeft _ _) _ _ => eapply wp_put_hLeft; [eassumption|look|assumption|wnew]
  | |- wp (put_hRight _ _) _ _ => eapply wp_put_hRight; [eassumption|look|assumption|wnew]
  | |- wp (put_chBalance _ _) _ _ => eapply wp_put_chBalance; [eassumption|look|bal_ok|wnew]
  end; cbv beta.
Ltac wsteps := repeat wstep.

Section Rot.
Context {S : Type} `{!Mallocator S, !MallocatorLaws S}.

Lemma HN_u64 s F N h : HN s F N -> is_Some (N !! h) -> is_u 64 h.
Proof. intros HH Hh. pose proof (HN_handle _ _ _ _ HH Hh). unfold is_u. lia. Qed.

Lemma rep_u64 s F N t : HN s F N -> rep N t -> is_u 64 (root t).
Proof. intros HH Hr. destruct t as [|h l b its r]; [done|]. apply (HN_u64 s F N); [done|]. destruct Hr as ([pad Hn] & _). by eexists. Qed.

Lemma rep_0 s F N t : HN s F N -> rep N t -> root t = 0 -> t = Leaf.
Proof.
  intros HH Hr E. destruct t as [|h l b its r]; [done|]. destruct Hr as ([pad Hn] & _). cbn in E. subst h.
  pose proof (HN_handle _ _ _ 0 HH ltac:(by eexists)). lia.
Qed.

Lemma rep_root_eqb s F N t : HN s F N -> rep N t -> (root t =? INVALID_HANDLE) = match t with Leaf => true | _ => false end.
Proof.
  intros HH Hr. unfold INVALID_HANDLE. destruct (Z.eqb_spec (root t) 0) as [E|E].
  - by rewrite (rep_0 s F N t HH Hr E).
  - by destruct t.
Qed.

(** What a rotation leaves: the tree [t'], and every other node as it was. *)
Definition turned (F : blocks) (N : gmap Z node) (t0 : tree) (ret : Z) (t' : tree) (Q : Z * Z -> S -> Prop) : Prop :=
  forall s' N', HN s' F N' -> rep N' t' -> (forall x, x ∉ handles t0 -> N' !! x = N !! x) -> Q (ret, root t') s'.

(** Facts about handles, from what is known of them alone. *)
Ltac only_handles := repeat match goal with H : ?P |- _ => lazymatch P with context [handles] => fail | _ => clear H end end.
Ltac away h t := assert (h ∉ handles t) by (only_handles; set_solver).
Ltac differ h h' := assert (h <> h') by (only_handles; set_solver).
Ltac turn HQ := apply HQ with (1 := ltac:(eassumption));
  [cbn [rep root]; split_and!; first [eexists; look | repeat (apply rep_insert; [|assumption]); assumption]
  |let x := fresh in let Hx := fresh in intros x Hx; cbn [handles app] in Hx; repeat rewrite ?not_elem_of_cons, ?not_elem_of_app in Hx;
   destruct_and?; rewrite !lookup_insert_ne by neq; done].

(** The parts of a node, for the proofs of the four. *)
Ltac start HH Hrep Hnd := 
  let Uh := fresh "Uh" in pose proof (rep_u64 _ _ _ _ HH Hrep) as Uh; cbn [root] in Uh; destruct Hrep as ([? ?] & ? & ?);
  repeat match goal with H : rep ?N ?t |- _ => lazymatch goal with _ : is_u 64 (root t) |- _ => fail | _ => pose proof (rep_u64 _ _ _ _ HH H) end end;
  cbn [handles] in Hnd; apply NoDup_cons in Hnd as [? (? & ? & ?)%NoDup_app].
Ltac open HH Hsub Hnd :=
  destruct Hsub as ([? ?] & ? & ?);
  repeat match goal with H : rep ?N ?t |- _ => lazymatch goal with _ : is_u 64 (root t) |- _ => fail | _ => pose proof (rep_u64 _ _ _ _ HH H) end end;
  cbn [bal_of root handles] in *; apply NoDup_cons in Hnd as [? (? & ? & ?)%NoDup_app].

Lemma wp_left_grown s F N h l b its r t' Q :
  HN s F N -> rep N (Node h l b its r) -> NoDup (handles (Node h l b its r)) -> (left_grown_tree h l b its r).2 = Some t' ->
  turned F N (Node h l b its r) (left_grown_tree h l b its r).1 t' Q -> wp (left_grown h (root l)) s Q.
Proof.
  intros HH Hrep Hnd Et HQ. start HH Hrep Hnd. away h l. away h r. unfold left_grown, left_grown_tree in *. do 2 wstep.
  destruct (0 <? b); [injection Et as <-; wsteps; turn HQ|destruct (b =? 0); [injection Et as <-; wsteps; turn HQ|]].
  destruct l as [|hl ll bl il lr]; [by destruct (bal_of Leaf <? 0)|].
  match goal with Hl : rep N (Node hl _ _ _ _), Hd : NoDup (handles (Node hl _ _ _ _)) |- _ => open HH Hl Hd end.
  differ h hl. away h ll. away h lr. away hl r. away hl ll. away hl lr. do 2 wstep.
  destruct (bl <? 0); cbn [fst snd rotate_LL rotate_LR] in *; [injection Et as <-; wsteps; turn HQ|].
  destruct lr as [|hr rl br ir rr]; [done|]. injection Et as <-.
  match goal with Hl : rep N (Node hr _ _ _ _), Hd : NoDup (handles (Node hr _ _ _ _)) |- _ => open HH Hl Hd end.
  differ hl hr. differ h hr. away h rl. away h rr. away hl rl. away hl rr. away hr ll. away hr rl. away hr rr. away hr r. wsteps. turn HQ.
Qed.

Lemma wp_right_grown s F N h l b its r t' Q :
  HN s F N -> rep N (Node h l b its r) -> NoDup (handles (Node h l b its r)) -> (right_grown_tree h l b its r).2 = Some t' ->
  turned F N (Node h l b its r) (right_grown_tree h l b its r).1 t' Q -> wp (right_grown h (root r)) s Q.
Proof.
  intros HH Hrep Hnd Et HQ. start HH Hrep Hnd. away h l. away h r. unfold right_grown, right_grown_tree in *. do 2 wstep.
  destruct (b <? 0); [injection Et as <-; wsteps; turn HQ|destruct (b =? 0); [injection Et as <-; wsteps; turn HQ|]].
  destruct r as [|hr rl br ir rr]; [by destruct (0 <? bal_of Leaf)|].
  match goal with Hl : rep N (Node hr _ _ _ _), Hd : NoDup (handles (Node hr _ _ _ _)) |- _ => open HH Hl Hd end.
  differ h hr. away h rl. away h rr. away hr l. away hr rl. away hr rr. do 2 wstep.
  destruct (0 <? br); cbn [fst snd rotate_RR rotate_RL] in *; [injection Et as <-; wsteps; turn HQ|].
  destruct rl as [|hl ll bl il lr]; [done|]. injection Et as <-.
  match goal with Hl : rep N (Node hl _ _ _ _), Hd : NoDup (handles (Node hl _ _ _ _)) |- _ => open HH Hl Hd end.
  differ hl hr. differ h hl. away h ll. away h lr. away hr ll. away hr lr. away hl ll. away hl lr. away hl rr. away hl l. wsteps. turn HQ.
Qed.

Lemma wp_balance_left s F N h l b its r t' Q :
  HN s F N -> rep N (Node h l b its r) -> NoDup (handles (Node h l b its r)) -> (left_shrunk_tree h l b its r).2 = Some t' ->
  turned F N (Node h l b its r) (left_shrunk_tree h l b its r).1 t' Q -> wp (balance_left_branch h) s Q.
Proof.
  intros HH Hrep Hnd Et HQ. start HH Hrep Hnd. away h l. away h r. unfold balance_left_branch, left_shrunk_tree in *. do 2 wstep.
  destruct (b <? 0); [injection Et as <-; wsteps; turn HQ|destruct (b =? 0); [injection Et as <-; wsteps; turn HQ|]].
  destruct r as [|hr rl br ir rr]; [done|].
  match goal with Hl : rep N (Node hr _ _ _ _), Hd : NoDup (handles (Node hr _ _ _ _)) |- _ => open HH Hl Hd end.
  differ h hr. away h rl. away h rr. away hr l. away hr rl. away hr rr. do 4 wstep.
  destruct (0 <=? br); cbn [fst snd rotate_RR rotate_RL] in *.
  - do 8 wstep. destruct (br =? 0); cbn [fst snd rotate_RR] in *; injection Et as <-; wsteps; turn HQ.
  - destruct rl as [|hl ll bl il lr]; [done|]. injection Et as <-.
    match goal with Hl : rep N (Node hl _ _ _ _), Hd : NoDup (handles (Node hl _ _ _ _)) |- _ => open HH Hl Hd end.
    differ hl hr. differ h hl. away h ll. away h lr. away hr ll. away hr lr. away hl ll. away hl lr. away hl rr. away hl l. wsteps. turn HQ.
Qed.

Lemma wp_balance_right s F N h l b its r t' Q :
  HN s F N -> rep N (Node h l b its r) -> NoDup (handles (Node h l b its r)) -> (right_shrunk_tree h l b its r).2 = Some t' ->
  turned F N (Node h l b its r) (right_shrunk_tree h l b its r).1 t' Q -> wp (balance_right_branch h) s Q.
Proof.
  intros HH Hrep Hnd Et HQ. start HH Hrep Hnd. away h l. away h r. unfold balance_right_branch, right_shrunk_tree in *. do 2 wstep.
  destruct (0 <? b); [injection Et as <-; wsteps; turn HQ|destruct (b =? 0); [injection Et as <-; wsteps; turn HQ|]].
  destruct l as [|hl ll bl il lr]; [done|].
  match goal with Hl : rep N (Node hl _ _ _ _), Hd : NoDup (handles (Node hl _ _ _ _)) |- _ => open HH Hl Hd end.
  differ h hl. away h ll. away h lr. away hl r. away hl ll. away hl lr. do 4 wstep.
  destruct (bl <=? 0); cbn [fst snd rotate_LL rotate_LR] in *.
  - do 8 wstep. destruct (bl =? 0); cbn [fst snd rotate_LL] in *; injection Et as <-; wsteps; turn HQ.
  - destruct lr as [|hr rl br ir rr]; [done|]. injection Et as <-.
    match goal with Hl : rep N (Node hr _ _ _ _), Hd : NoDup (handles (Node hr _ _ _ _)) |- _ => open HH Hl Hd end.
    differ hl hr. differ h hr. away h rl. away h rr. away hl rl. away hl rr. away hr ll. away hr rl. away hr rr. away hr r. wsteps. turn HQ.
Qed.
End Rot.
