(* ===== verification/TTreeInsert.v ===== *)
(** Insertion into the T-tree of [TTree]: the record gets its place in the order of the
    keys, the tree stays balanced, and a failing insertion changes nothing. *)
From Stdlib Require Import ZArith Lia.
From stdpp Require Import base sorting list numbers gmap.
From S2P Require Import Prelude Value PtMalloc PtSpec Mallocator TTree TTreePure TTreeRep TTreePage TTreeRot.
Import AllocSpec.
Local Open Scope Z_scope.

Section Insert.
Context {S : Type} `{!Mallocator S, !MallocatorLaws S} (cookie : CmpCookie) (pfComp : KeyComparator (S := S)) `{!KeyOrder cookie pfComp}.
Context (F : blocks).

Abbreviation key := (key_at cookie pfComp F).
Abbreviation above_k := (above ord key).
Abbreviation below_k := (below ord key).

(** A well-formed tree: balanced, in the order of the keys, of records of the frame, each
    node once. *)
Record wf (t : tree) : Prop := {
  wf_balanced : balanced t;
  wf_sorted : StronglySorted (lt_rec ord key) (elements t);
  wf_recs : Forall (is_rec cookie pfComp F) (elements t);
  wf_nodup : NoDup (handles t)
}.

(** The handles after an insertion: the same, or one new one; [isAllocNode] tells. *)
Definition new_handles (N : gmap Z node) (hs hs' : list Z) (isA isA' : bool) : Prop :=
  (isA' = isA /\ hs' ≡ₚ hs) \/ (isA' = true /\ exists hn, N !! hn = None /\ F !! hn = None /\ hs' ≡ₚ hn :: hs).

Record ins_ok (N : gmap Z node) (t : tree) (k : DTCValue) (x : Z) (isA : bool) (ret : Z) (t' : tree) (N' : gmap Z node) (isA' : bool) : Prop := {
  io_rep : rep N' t';
  io_wf : wf t';
  io_inserted : inserted ord key k x (elements t) (elements t');
  io_height : height t' = height t + ret;
  io_ret : 0 <= ret <= 1;
  io_bal : ret = 1 -> bal_of t' <> 0 \/ t = Leaf;
  io_handles : new_handles N (handles t) (handles t') isA isA';
  io_frame : forall y, y ∉ handles t -> y ∉ handles t' -> N' !! y = N !! y
}.

(** What [Insert] leaves: -2 when the key is there and -1 when there is no memory,
    nothing changed; else the record is in its place. *)
Definition insert_post (N : gmap Z node) (t : tree) (k : DTCValue) (x : Z) (isA : bool) (res : Z * Z * bool) (s' : S) : Prop :=
  (res = (-2, root t, isA) /\ HN s' F N /\ Exists (fun y => ord k (key y) = Eq) (elements t)) \/
  (res = (-1, root t, isA) /\ HN s' F N /\ Forall (fun y => ord k (key y) <> Eq) (elements t)) \/
  (exists ret t' N' isA', res = (ret, root t', isA') /\ HN s' F N' /\ ins_ok N t k x isA ret t' N' isA').

Lemma new_nodup N t t' isA isA' : rep N t -> NoDup (handles t) -> new_handles N (handles t) (handles t') isA isA' -> NoDup (handles t').
Proof.
  intros Hr Hd [[_ P]|(_ & hn & Hn & _ & P)]; rewrite P; [done|]. constructor; [|done].
  intros Hin. destruct (rep_handle _ _ _ Hr Hin) as [? ?]. congruence.
Qed.

Lemma ins_finish N t k x isA ret t' N' isA' :
  wf t -> rep N t -> is_rec cookie pfComp F x -> ord k (key x) = Eq -> rep N' t' -> balanced t' ->
  inserted ord key k x (elements t) (elements t') -> height t' = height t + ret -> 0 <= ret <= 1 -> (ret = 1 -> bal_of t' <> 0 \/ t = Leaf) ->
  new_handles N (handles t) (handles t') isA isA' -> (forall y, y ∉ handles t -> y ∉ handles t' -> N' !! y = N !! y) ->
  ins_ok N t k x isA ret t' N' isA'.
Proof.
  intros [Hb Hs Hrec Hd] Hr Hx Hk Hr' Hb' Hi Hh Hret Hbal Hn Hf. split; try done. split; [done| | |by apply (new_nodup N t t' isA isA')].
  - eapply inserted_sorted; [apply ord_antisym|apply ord_trans|exact Hi|exact Hk|exact Hs].
  - rewrite (inserted_perm _ _ _ _ _ _ Hi). by constructor.
Qed.

Lemma wp_set_left s N h l r b c its v Q :
  HN s F N -> N !! h = Some (mkNode l r b c its) -> is_u 64 v -> (forall s', HN s' F (<[h := mkNode v r b c its]> N) -> Q tt s') ->
  wp (if negb (v =? l) then put_hLeft h v else mret tt) s Q.
Proof.
  intros HH Hn Hv HQ. destruct (Z.eqb_spec v l) as [->|]; cbn [negb]; [apply wp_ret, HQ; by rewrite insert_id|by eapply wp_put_hLeft].
Qed.
Lemma wp_set_right s N h l r b c its v Q :
  HN s F N -> N !! h = Some (mkNode l r b c its) -> is_u 64 v -> (forall s', HN s' F (<[h := mkNode l v b c its]> N) -> Q tt s') ->
  wp (if negb (v =? r) then put_hRight h v else mret tt) s Q.
Proof.
  intros HH Hn Hv HQ. destruct (Z.eqb_spec v r) as [->|]; cbn [negb]; [apply wp_ret, HQ; by rewrite insert_id|by eapply wp_put_hRight].
Qed.

(** A subtree changed: the parts of the tree outside it are as they were. *)
Lemma outside_kept (N N' : gmap Z node) t t' isA isA' y :
  new_handles N (handles t) (handles t') isA isA' -> (forall y, y ∉ handles t -> y ∉ handles t' -> N' !! y = N !! y) ->
  is_Some (N !! y) -> y ∉ handles t -> N' !! y = N !! y /\ y ∉ handles t'.
Proof.
  intros Hn Hf [n Hy] Hnot. assert (y ∉ handles t').
  { destruct Hn as [[_ P]|(_ & hn & Hnone & _ & P)]; rewrite P; [done|]. rewrite not_elem_of_cons. split; [congruence|done]. }
  split; [by apply Hf|done].
Qed.

Lemma new_handles_left N h hl hl' hr hs' isA isA' :
  new_handles N hl hl' isA isA' -> hs' ≡ₚ h :: hl' ++ hr -> new_handles N (h :: hl ++ hr) hs' isA isA'.
Proof.
  intros [[-> P]|(-> & hn & Hn & Hf & P)] P'; [left|right; split; [done|]; exists hn; split_and!; try done].
  - split; [done|]. by rewrite P', P.
  - rewrite P', P. cbn. by rewrite perm_swap.
Qed.
Lemma new_handles_right N h hl hr hr' hs' isA isA' :
  new_handles N hr hr' isA isA' -> hs' ≡ₚ h :: hl ++ hr' -> new_handles N (h :: hl ++ hr) hs' isA isA'.
Proof.
  intros Hn P'. rewrite (Permutation_app_comm hl hr') in P'. destruct (new_handles_left N h hr hr' hl hs' isA isA' Hn P') as [[? P]|(? & hn & ? & ? & P)].
  - left. split; [done|]. by rewrite P, (Permutation_app_comm hr hl).
  - right. split; [done|]. exists hn. split_and!; try done. by rewrite P, (Permutation_app_comm hr hl).
Qed.

(** The left subtree [l] of [t] has become [l'], with the record in it. *)
Lemma left_inserted s N h l b its r k x isA g l' N1 isA1 :
  rep N (Node h l b its r) -> wf (Node h l b its r) -> HN s F N1 -> is_rec cookie pfComp F x -> ord k (key x) = Eq ->
  ins_ok N l k x isA g l' N1 isA1 -> Forall (above_k k) (its ++ elements r) ->
  wp ((if negb (root l' =? root l) then put_hLeft h (root l') else mret tt);;
      if g =? 0 then mret (0, h, isA1) else r0 ← left_grown h (root l'); mret (r0, isA1)) s (insert_post N (Node h l b its r) k x isA).
Proof.
  intros Hrep Hwf HH Hx Hk [Hrl' Hwl' Hi Hh Hg Hbal Hnew Hfr] Hab.
  pose proof Hrep as ([pad Hn] & Hl & Hr). pose proof Hwf as [(Bl & Br & Eb & Hb & Hlen) _ _ [Hnh (Hdl & Hdis & Hdr)%NoDup_app]%NoDup_cons].
  rewrite not_elem_of_app in Hnh. destruct Hnh as [Hhl Hhr].
  destruct (outside_kept _ _ _ _ _ _ h Hnew Hfr) as [Hn1 Hhl']; [by eexists|done|]. rewrite Hn in Hn1.
  assert (Hr1 : rep N1 r).
  { apply (rep_ext N); [done|]. intros y Hy. eapply outside_kept; [done|done|by apply (rep_handle N r)|]. intros Hy'. by apply (Hdis y). }
  assert (Hperm : new_handles N (h :: handles l ++ handles r) (h :: handles l' ++ handles r) isA isA1) by (by eapply new_handles_left).
  assert (Hnd : NoDup (h :: handles l' ++ handles r)).
  { by apply (new_nodup N (Node h l b its r) (Node h l' b its r) isA isA1 Hrep (wf_nodup _ Hwf)). }
  assert (Hins : inserted ord key k x (elements (Node h l b its r)) (elements l' ++ its ++ elements r)) by (by apply inserted_left).
  apply wp_bind. eapply wp_set_left; [exact HH|exact Hn1|by eapply rep_u64|]. intros s2 HH2.
  set (N2 := <[h := _]> N1) in HH2. assert (Hrep2 : rep N2 (Node h l' b its r)).
  { cbn [rep]. split_and!; [exists pad; apply lookup_insert_eq|by apply rep_insert..]. }
  destruct (Z.eqb_spec g 0) as [->|Hg0].
  - apply wp_ret. right; right. exists 0, (Node h l' b its r), N2, isA1. split; [done|]. split; [done|].
    apply ins_finish; try done; cbn [elements handles height balanced] in *.
    + split_and!; first [done|lia|by destruct Hwl'].
    + lia.
    + intros y Hy Hy'. unfold N2. rewrite lookup_insert_ne by set_solver. apply Hfr; set_solver.
  - destruct (left_grown_ok h l' b its r (height l)) as (t & Et & [Rb Re Rh] & Hret & Hht & Hbt); try done; [by destruct Hwl'|lia|apply height_nonneg|..].
    { destruct Hbal as [?| ->]; [lia|by right|by left]. }
    apply wp_bind. eapply wp_left_grown; [exact HH2|exact Hrep2|exact Hnd|exact Et|]. intros s3 N3 HH3 Hr3 Hfr3. apply wp_ret.
    right; right. exists (left_grown_tree h l' b its r).1, t, N3, isA1. split; [done|]. split; [done|].
    apply ins_finish; try done; cbn [elements handles height balanced] in *.
    + by rewrite Re.
    + intros E1. left. by apply Hbt.
    + by eapply new_handles_left.
    + intros y Hy Hy'. rewrite Rh in Hy'. rewrite Hfr3 by done. unfold N2. rewrite lookup_insert_ne by set_solver. apply Hfr; set_solver.
Qed.

Lemma right_inserted s N h l b its r k x isA g r' N1 isA1 :
  rep N (Node h l b its r) -> wf (Node h l b its r) -> HN s F N1 -> is_rec cookie pfComp F x -> ord k (key x) = Eq ->
  ins_ok N r k x isA g r' N1 isA1 -> Forall (below_k k) (elements l ++ its) ->
  wp ((if negb (root r' =? root r) then put_hRight h (root r') else mret tt);;
      if g =? 0 then mret (0, h, isA1) else r0 ← right_grown h (root r'); mret (r0, isA1)) s (insert_post N (Node h l b its r) k x isA).
Proof.
  intros Hrep Hwf HH Hx Hk [Hrr' Hwr' Hi Hh Hg Hbal Hnew Hfr] Hbe.
  pose proof Hrep as ([pad Hn] & Hl & Hr). pose proof Hwf as [(Bl & Br & Eb & Hb & Hlen) _ _ [Hnh (Hdl & Hdis & Hdr)%NoDup_app]%NoDup_cons].
  rewrite not_elem_of_app in Hnh. destruct Hnh as [Hhl Hhr].
  destruct (outside_kept _ _ _ _ _ _ h Hnew Hfr) as [Hn1 Hhr']; [by eexists|done|]. rewrite Hn in Hn1.
  assert (Hl1 : rep N1 l).
  { apply (rep_ext N); [done|]. intros y Hy. eapply outside_kept; [done|done|by apply (rep_handle N l)|]. by apply Hdis. }
  assert (Hperm : new_handles N (h :: handles l ++ handles r) (h :: handles l ++ handles r') isA isA1) by (by eapply new_handles_right).
  assert (Hnd : NoDup (h :: handles l ++ handles r')).
  { by apply (new_nodup N (Node h l b its r) (Node h l b its r') isA isA1 Hrep (wf_nodup _ Hwf)). }
  assert (Hins : inserted ord key k x (elements (Node h l b its r)) (elements l ++ its ++ elements r')).
  { cbn [elements]. rewrite !(app_assoc (elements l)). by apply inserted_right. }
  apply wp_bind. eapply wp_set_right; [exact HH|exact Hn1|by eapply rep_u64|]. intros s2 HH2.
  set (N2 := <[h := _]> N1) in HH2. assert (Hrep2 : rep N2 (Node h l b its r')).
  { cbn [rep]. split_and!; [exists pad; apply lookup_insert_eq|by apply rep_insert..]. }
  destruct (Z.eqb_spec g 0) as [->|Hg0].
  - apply wp_ret. right; right. exists 0, (Node h l b its r'), N2, isA1. split; [done|]. split; [done|].
    apply ins_finish; try done; cbn [elements handles height balanced] in *.
    + split_and!; first [done|lia|by destruct Hwr'].
    + lia.
    + intros y Hy Hy'. unfold N2. rewrite lookup_insert_ne by set_solver. apply Hfr; set_solver.
  - destruct (right_grown_ok h l b its r' (height r)) as (t & Et & [Rb Re Rh] & Hret & Hht & Hbt); try done; [by destruct Hwr'|lia|apply height_nonneg|..].
    { destruct Hbal as [?| ->]; [lia|by right|by left]. }
    apply wp_bind. eapply wp_right_grown; [exact HH2|exact Hrep2|exact Hnd|exact Et|]. intros s3 N3 HH3 Hr3 Hfr3. apply wp_ret.
    right; right. exists (right_grown_tree h l b its r').1, t, N3, isA1. split; [done|]. split; [done|].
    apply ins_finish; try done; cbn [elements handles height balanced] in *.
    + by rewrite Re.
    + intros E1. left. by apply Hbt.
    + by eapply new_handles_right.
    + intros y Hy Hy'. rewrite Rh in Hy'. rewrite Hfr3 by done. unfold N2. rewrite lookup_insert_ne by set_solver. apply Hfr; set_solver.
Qed.

(** A page has got the record: the tree is the same around it. *)
Lemma page_inserted s N h l b its r k x isA its' pad' :
  rep N (Node h l b its r) -> wf (Node h l b its r) -> is_rec cookie pfComp F x -> ord k (key x) = Eq ->
  inserted ord key k x its its' -> (length its' <= 20)%nat -> Forall (below_k k) (elements l) -> Forall (above_k k) (elements r) ->
  HN s F (<[h := mkNode (root l) (root r) b (Z.of_nat (length its')) (its' ++ pad')]> N) ->
  insert_post N (Node h l b its r) k x isA (0, h, isA) s.
Proof.
  intros Hrep Hwf Hx Hk Hi Hlen Hbe Hab HH. right; right. eexists 0, (Node h l b its' r), _, isA. split; [done|]. split; [exact HH|].
  pose proof Hrep as (_ & Hl & Hr). pose proof Hwf as [(Bl & Br & Eb & Hb & Hl20) _ _ [[Hhl Hhr]%not_elem_of_app _]%NoDup_cons].
  apply ins_finish; try done; cbn [elements handles height balanced rep] in *.
  - split_and!; [eexists; apply lookup_insert_eq|by apply rep_insert..].
  - pose proof (Permutation_length (inserted_perm _ _ _ _ _ _ Hi)) as El. cbn in El. split_and!; first [done|lia].
  - apply inserted_right; [by apply inserted_left|done].
  - lia.
  - by left.
  - intros y Hy _. rewrite lookup_insert_ne by set_solver. done.
Qed.

(** ** A full page *)

Lemma wp_page_exchange s N h l r b its m x Q :
  HN s F N -> N !! h = Some (mkNode l r b 20 its) -> (1 <= m <= 19)%nat -> is_u 64 x ->
  (forall s' y a d, its = y :: a ++ d -> length a = (m - 1)%nat -> HN s' F (<[h := mkNode l r b 20 (a ++ x :: d)]> N) -> Q y s') ->
  (forall s' y a d, its = a ++ d ++ [y] -> length a = m -> HN s' F (<[h := mkNode l r b 20 (a ++ x :: d)]> N) -> Q y s') ->
  wp (page_exchange h 20 (Z.of_nat m) x) s Q.
Proof.
  intros HH Hn Hm Hx H1 H2. pose proof (HN_node_ok _ _ _ _ _ HH Hn) as [_ _ _ _ Hlen _]. cbn [n_items] in Hlen.
  unfold page_exchange. apply wp_bind. eapply wp_chBalance; [exact HH|exact Hn|]. destruct (0 <=? b); apply wp_bind.
  - destruct its as [|y its]; [done|]. injection Hlen as Hlen. set (a := take (m - 1) its). set (d := drop (m - 1) its).
    assert (E : its = a ++ d) by (unfold a, d; by rewrite take_drop). assert (Ha : length a = (m - 1)%nat) by (unfold a; rewrite length_take; lia).
    clearbody a d. subst its. rewrite length_app in Hlen.
    eapply wp_ahItems; [exact HH|exact Hn|lia|done|]. apply wp_bind.
    replace (Z.to_nat (Z.of_nat m - 1)) with (length a) by lia.
    eapply (wp_move_down s F N h _ _ _ _ [] a y d _ HH Hn). intros s1 HH1. apply wp_bind.
    eapply wp_put_ahItems; [exact HH1|apply lookup_insert_eq|lia|done|]. intros s2. rewrite insert_insert_eq. intros HH2. apply wp_ret.
    apply (H1 s2 y a d); [done|done|]. replace (Z.to_nat (Z.of_nat m - 1)) with (length a) in HH2 by lia.
    cbn [app] in HH2. rewrite insert_app_r_alt, Nat.sub_diag in HH2 by lia. exact HH2.
  - set (a := take m its). set (d := take (19 - m) (drop m its)).
    assert (Ha : length a = m) by (unfold a; rewrite length_take; lia).
    destruct (drop 19 its) as [|y [|]] eqn:Ey; pose proof (f_equal length Ey) as El; rewrite length_drop, Hlen in El; try (cbn in El; lia).
    assert (E : its = a ++ d ++ [y]).
    { rewrite <-Ey. unfold a, d. rewrite <-(take_drop m its) at 1. f_equal. rewrite <-(take_drop (19 - m) (drop m its)) at 1. f_equal.
      rewrite drop_drop. f_equal. lia. }
    assert (Hd : length d = (19 - m)%nat) by (unfold d; rewrite length_take, length_drop; lia).
    clearbody a d. subst its. clear Ey El.
    eapply wp_ahItems; [exact HH|exact Hn|lia| |].
    { replace (Z.to_nat (20 - 1)) with (length (a ++ d)) by (rewrite length_app; lia). rewrite app_assoc. by apply list_lookup_middle. }
    apply wp_bind. replace (Z.to_nat (20 - 1 - Z.of_nat m)) with (length d) by lia.
    replace (20 - 1) with (Z.of_nat (length a + length d)) by lia.
    eapply (wp_move_up s F N h _ _ _ _ a d y [] _ HH); [exact Hn|]. intros s1 HH1. apply wp_bind.
    eapply wp_put_ahItems; [exact HH1|apply lookup_insert_eq|lia|done|]. intros s2. rewrite insert_insert_eq, Nat2Z.id, app_nil_r. intros HH2. apply wp_ret.
    apply (H2 s2 y a d); [done|done|]. rewrite insert_app_r_alt, Ha, Nat.sub_diag in HH2 by lia. exact HH2.
Qed.

(** The place of a key is unique. *)
Lemma place_unique k l1 l2 m1 m2 :
  l1 ++ l2 = m1 ++ m2 -> Forall (below_k k) l1 -> Forall (above_k k) l2 -> Forall (below_k k) m1 -> Forall (above_k k) m2 -> l1 = m1 /\ l2 = m2.
Proof.
  revert m1; induction l1 as [|x l1 IH]; intros [|y m1] E Hl1 Hl2 Hm1 Hm2; cbn in E.
  - done.
  - subst l2. apply Forall_cons in Hl2 as [H1 _], Hm1 as [H2 _]. unfold above, below in *. congruence.
  - subst m2. apply Forall_cons in Hl1 as [H1 _], Hm2 as [H2 _]. unfold above, below in *. congruence.
  - injection E as -> E. apply Forall_cons in Hl1 as [_ Hl1], Hm1 as [_ Hm1]. by destruct (IH m1 E Hl1 Hl2 Hm1 Hm2) as [-> ->].
Qed.

Lemma no_key k l1 l2 : Forall (below_k k) l1 -> Forall (above_k k) l2 -> Forall (fun y => ord k (key y) <> Eq) (l1 ++ l2).
Proof.
  intros H1 H2. apply Forall_app. split; (eapply Forall_impl; [eassumption|]); unfold above, below; congruence.
Qed.

(** The record that left a full page has been inserted again, or not: then the page is
    as it was before. *)
Lemma reinserted s N h l b its its' r k x isA y elo ehi res :
  rep N (Node h l b its r) -> wf (Node h l b its r) -> length its = 20%nat -> length its' = 20%nat -> Forall (is_u 64) its ->
  N !! h = Some (mkNode (root l) (root r) b 20 its) ->
  elements (Node h l b its' r) = elo ++ ehi -> Forall (below_k (key y)) elo -> Forall (above_k (key y)) ehi ->
  inserted ord key k x (elements (Node h l b its r)) (elo ++ y :: ehi) ->
  insert_post (<[h := mkNode (root l) (root r) b 20 its']> N) (Node h l b its' r) (key y) y isA res s ->
  wp ((if res.1.1 <? 0 then restore_items h 0 its else mret tt);; mret res) s (insert_post N (Node h l b its r) k x isA).
Proof.
  intros Hrep Hwf Hl Hl' Hu Hn He Hlo Hhi Hins [(-> & HH & Hex)|[(-> & HH & _)|(ret & t' & N' & isA' & -> & HH & [Hrep' Hwf' Hi Hh Hret Hbal Hnew Hfr])]];
    cbn [fst snd]; apply wp_bind.
  - exfalso. rewrite He in Hex. pose proof (no_key _ _ _ Hlo Hhi) as Hno. rewrite Forall_forall in Hno. rewrite Exists_exists in Hex.
    destruct Hex as (z & Hz & E). by apply (Hno z).
  - eapply (wp_restore_items s F _ h _ _ _ _ [] its' its _ HH); [apply lookup_insert_eq|by rewrite Hl, Hl'|done|]. intros s' HH'.
    rewrite insert_insert_eq, insert_id in HH' by done. apply wp_ret. right; left. split; [done|]. split; [done|].
    destruct Hins as (l1 & l2 & -> & _ & H1 & H2). by apply no_key.
  - rewrite (proj2 (Z.ltb_ge ret 0)) by lia. apply wp_ret, wp_ret. right; right. exists ret, t', N', isA'. split; [done|]. split; [done|]. split; try done.
    + destruct Hi as (m1 & m2 & E & -> & Hm1 & Hm2). rewrite He in E.
      by destruct (place_unique _ _ _ _ _ E Hlo Hhi Hm1 Hm2) as [-> ->].
    + intros E. left. by destruct (Hbal E).
    + destruct Hnew as [?|(? & hn & [Hnn Hne]%lookup_insert_None & Hf & P)]; [by left|right]. split; [done|]. by exists hn.
    + intros z Hz Hz'. rewrite Hfr by done. rewrite lookup_insert_ne; [done|]. cbn in Hz. set_solver.
Qed.

(** ** Insertion *)

(** Enough fuel: two steps a level, one more where the key lies inside the page. *)
Definition outside (t : tree) (k : DTCValue) : Prop :=
  if t is Node _ _ _ its _ then Forall (above_k k) its \/ Forall (below_k k) its else True.
Definition enough (fuel : nat) (t : tree) (k : DTCValue) : Prop :=
  2 * height t + 1 < Z.of_nat fuel \/ (2 * height t < Z.of_nat fuel /\ outside t k).

Definition ins_spec (ins : Z -> DTCValue -> Z -> bool -> ST S (Z * Z * bool)) (t : tree) (k : DTCValue) : Prop :=
  forall s N x isA, HN s F N -> rep N t -> wf t -> t <> Leaf -> valid k -> is_rec cookie pfComp F x -> ord k (key x) = Eq ->
  wp (ins (root t) k x isA) s (insert_post N t k x isA).

Lemma wf_left h l b its r : wf (Node h l b its r) -> wf l.
Proof.
  intros [(Bl & _) Hs Hr [_ (Hd & _ & _)%NoDup_app]%NoDup_cons]. cbn [elements] in *. apply sorted_app in Hs as (Hs & _). apply Forall_app in Hr as [Hr _]. done.
Qed.
Lemma wf_right h l b its r : wf (Node h l b its r) -> wf r.
Proof.
  intros [(_ & Br & _) Hs Hr [_ (_ & _ & Hd)%NoDup_app]%NoDup_cons]. cbn [elements] in *.
  apply sorted_app in Hs as (_ & (_ & Hs & _)%sorted_app & _). rewrite !Forall_app in Hr. destruct Hr as (_ & _ & Hr). done.
Qed.
Lemma wf_page h l b its r : wf (Node h l b its r) ->
  StronglySorted (lt_rec ord key) its /\ Forall (is_rec cookie pfComp F) its /\ (1 <= length its <= 20)%nat.
Proof.
  intros [(_ & _ & _ & _ & Hl) Hs Hr _]. cbn [elements] in *. apply sorted_app in Hs as (_ & (Hs & _)%sorted_app & _).
  rewrite !Forall_app in Hr. destruct Hr as (_ & Hr & _). done.
Qed.

(** A key below the first item is below all behind it; a key above the last item is
    above all in front of it. *)
Lemma above_rest k h l b y its r : wf (Node h l b (y :: its) r) -> above_k k y -> Forall (above_k k) ((y :: its) ++ elements r).
Proof. intros [_ Hs _ _] Hk. cbn [elements] in Hs. apply sorted_app in Hs as (_ & Hs & _). eapply above_cons; [apply ord_trans|exact Hs|exact Hk]. Qed.
Lemma below_front k h l b y its r : wf (Node h l b (its ++ [y]) r) -> below_k k y -> Forall (below_k k) (elements l ++ its ++ [y]).
Proof.
  intros [_ Hs _ _] Hk. cbn [elements] in Hs. rewrite <-app_assoc, 2!app_assoc in Hs. apply sorted_app in Hs as (Hs & _).
  rewrite <-app_assoc in Hs. rewrite app_assoc in Hs |- *. eapply below_snoc; [apply ord_antisym|apply ord_trans|exact Hs|exact Hk].
Qed.

Lemma root_valid s N t : HN s F N -> rep N t -> t <> Leaf -> (root t =? INVALID_HANDLE) = false.
Proof. intros HH Hr Ht. rewrite (rep_root_eqb s F N t HH Hr). by destruct t. Qed.
Lemma leaf_or t : t = Leaf \/ t <> Leaf.
Proof. destruct t; [by left|by right]. Qed.

Lemma new_leaf N k x isA hn pad : is_rec cookie pfComp F x -> ord k (key x) = Eq -> N !! hn = None -> F !! hn = None ->
  ins_ok N Leaf k x isA 1 (Node hn Leaf 0 [x] Leaf) (<[hn := mkNode 0 0 0 1 (x :: pad)]> N) true.
Proof.
  intros Hx Hk Hn Hf. split; try done; cbn [elements handles height bal_of app].
  - split; [exists pad; apply lookup_insert_eq|done].
  - split; cbn [balanced elements handles app]; [cbn; lia|repeat constructor|by constructor|apply NoDup_singleton].
  - exists [], []. by repeat constructor.
  - by right.
  - right. split; [done|]. by exists hn.
  - intros y _ Hy. rewrite lookup_insert_ne by set_solver. done.
Qed.

Lemma insert_left_ok ins s N h l b y its r k x isA d :
  HN s F N -> rep N (Node h l b (y :: its) r) -> wf (Node h l b (y :: its) r) -> valid k -> is_rec cookie pfComp F x -> ord k (key x) = Eq ->
  above_k k y -> d < 0 -> (l <> Leaf -> ins_spec ins l k) ->
  wp (insert_left ins h (Z.of_nat (length (y :: its))) d k x isA) s (insert_post N (Node h l b (y :: its) r) k x isA).
Proof.
  intros HH Hrep Hwf Hk Hx Ek Hab Hd Hins. pose proof (above_rest _ _ _ _ _ _ _ Hwf Hab) as Hrest. pose proof Hrep as ([pad Hn] & Hl & Hr).
  destruct (wf_page _ _ _ _ _ Hwf) as (_ & _ & Hlen). destruct (is_rec_handle _ _ _ _ _ _ HH Hx) as (Ux & _).
  unfold insert_left. wsteps. rewrite (proj2 (Z.eqb_neq d 0)), orb_false_r by lia. destruct (leaf_or l) as [->|Hlf].
  - rewrite Z.eqb_refl. cbn [andb]. destruct (Z.ltb_spec (Z.of_nat (length (y :: its))) PAGE_SIZE) as [Hlt|Hge].
    + rewrite Nat2Z.id. rewrite <-(Nat.sub_0_r (length (y :: its))) at 2.
      apply (wp_page_insert s F N h _ _ _ (y :: its) pad 0 x _ _ HH Hn); [unfold PAGE_SIZE in Hlt; lia|lia|done|].
      intros s' pad' HH'. rewrite Nat.add_1_r in HH'. apply wp_ret. eapply (page_inserted _ _ _ _ _ _ _ _ _ _ (x :: y :: its) pad'); [done..| | | | |exact HH'].
      * exists [], (y :: its). split_and!; try done. by apply Forall_app in Hrest as [? _].
      * unfold PAGE_SIZE in Hlt. cbn [length] in *. lia.
      * constructor.
      * by apply Forall_app in Hrest as [_ ?].
    + apply wp_bind, (wp_Alloc s F N x _ HH Ux).
      * intros s' HH'. rewrite Z.eqb_refl. apply wp_ret. right; left. split; [done|]. split; [done|]. by apply (no_key k []).
      * intros s' hn pad' Hn0 HnN HnF HH'. rewrite (proj2 (Z.eqb_neq hn INVALID_HANDLE)) by done.
        pose proof (left_inserted s' N h Leaf b (y :: its) r k x isA 1 _ _ true Hrep Hwf HH' Hx Ek (new_leaf N k x isA hn pad' Hx Ek HnN HnF) Hrest) as Hw.
        cbn [root] in Hw. rewrite (proj2 (Z.eqb_neq hn 0)) in Hw by done. exact Hw.
  - rewrite (root_valid s N l HH Hl Hlf). cbn [andb]. apply wp_bind.
    eapply wp_mono; [by apply (Hins Hlf s N x isA HH Hl (wf_left _ _ _ _ _ Hwf))|].
    intros res s' [(-> & HH' & Hex)|[(-> & HH' & Hno)|(g & l' & N' & isA' & -> & HH' & Hok)]].
    + apply wp_ret. left. split; [done|]. split; [done|]. cbn [elements]. apply Exists_app. by left.
    + apply wp_ret. right; left. split; [done|]. split; [done|]. cbn [elements]. apply Forall_app. split; [done|]. by apply (no_key k []).
    + destruct (io_ret _ _ _ _ _ _ _ _ _ Hok). rewrite (proj2 (Z.ltb_ge g 0)) by lia. by eapply left_inserted.
Qed.

Lemma insert_right_ok ins s N h l b y its r k x isA d :
  HN s F N -> rep N (Node h l b (its ++ [y]) r) -> wf (Node h l b (its ++ [y]) r) -> valid k -> is_rec cookie pfComp F x -> ord k (key x) = Eq ->
  below_k k y -> 0 < d -> (r <> Leaf -> ins_spec ins r k) ->
  wp (insert_right ins h (Z.of_nat (length (its ++ [y]))) d k x isA) s (insert_post N (Node h l b (its ++ [y]) r) k x isA).
Proof.
  intros HH Hrep Hwf Hk Hx Ek Hbe Hd Hins. pose proof (below_front _ _ _ _ _ _ _ Hwf Hbe) as Hfront. pose proof Hrep as ([pad Hn] & Hl & Hr).
  destruct (wf_page _ _ _ _ _ Hwf) as (_ & _ & Hlen). destruct (is_rec_handle _ _ _ _ _ _ HH Hx) as (Ux & _).
  set (page := its ++ [y]) in *. pose proof (proj1 (proj1 (Forall_app _ _ _) Hfront)) as Hfl. pose proof (proj2 (proj1 (Forall_app _ _ _) Hfront)) as Hfp.
  unfold insert_right. wsteps. rewrite (proj2 (Z.eqb_neq d 0)), orb_false_r by lia. destruct (leaf_or r) as [->|Hrf].
  - rewrite Z.eqb_refl. cbn [andb]. destruct (Z.ltb_spec (Z.of_nat (length page)) PAGE_SIZE) as [Hlt|Hge].
    + eapply wp_page_append; [exact HH|exact Hn|unfold PAGE_SIZE in Hlt; lia|done|].
      intros s' pad' HH'. apply wp_ret. eapply (page_inserted _ _ _ _ _ _ _ _ _ _ (page ++ [x]) pad'); [done..| | | | |].
      * exists page, []. rewrite app_nil_r. by split_and!.
      * unfold PAGE_SIZE in Hlt. rewrite length_app. cbn [length]. lia.
      * done.
      * constructor.
      * rewrite (length_app page). exact HH'.
    + apply wp_bind, (wp_Alloc s F N x _ HH Ux).
      * intros s' HH'. rewrite Z.eqb_refl. apply wp_ret. right; left. split; [done|]. split; [done|].
        cbn [elements]. rewrite app_nil_r. rewrite <-(app_nil_r (elements l ++ page)). by apply no_key.
      * intros s' hn pad' Hn0 HnN HnF HH'. rewrite (proj2 (Z.eqb_neq hn INVALID_HANDLE)) by done.
        pose proof (right_inserted s' N h l b page Leaf k x isA 1 _ _ true Hrep Hwf HH' Hx Ek (new_leaf N k x isA hn pad' Hx Ek HnN HnF) Hfront) as Hw.
        cbn [root] in Hw. rewrite (proj2 (Z.eqb_neq hn 0)) in Hw by done. exact Hw.
  - rewrite (root_valid s N r HH Hr Hrf). cbn [andb]. apply wp_bind.
    eapply wp_mono; [by apply (Hins Hrf s N x isA HH Hr (wf_right _ _ _ _ _ Hwf))|].
    intros res s' [(-> & HH' & Hex)|[(-> & HH' & Hno)|(g & r' & N' & isA' & -> & HH' & Hok)]].
    + apply wp_ret. left. split; [done|]. split; [done|]. cbn [elements]. rewrite !Exists_app. by right; right.
    + apply wp_ret. right; left. split; [done|]. split; [done|]. cbn [elements]. rewrite app_assoc. apply Forall_app. split; [|done].
      rewrite <-(app_nil_r (elements l ++ page)). by apply no_key.
    + destruct (io_ret _ _ _ _ _ _ _ _ _ Hok). rewrite (proj2 (Z.ltb_ge g 0)) by lia. by eapply right_inserted.
Qed.

(** A key between the first and the last item. *)
Lemma between_sides k h l b its r y0 yl :
  wf (Node h l b its r) -> its !! 0%nat = Some y0 -> its !! (length its - 1)%nat = Some yl -> below_k k y0 -> above_k k yl ->
  (2 <= length its)%nat /\ take 1 its = [y0] /\ drop (length its - 1) its = [yl] /\ Forall (below_k k) (elements l) /\ Forall (above_k k) (elements r).
Proof.
  intros Hwf H0 Hl Hbe Hab. destruct its as [|y its]; [done|]. injection H0 as ->.
  destruct (decide (its = [])) as [->|Hne]; [cbn in Hl; injection Hl as ->; unfold above, below in *; congruence|].
  destruct its as [|z its _] using rev_ind; [done|]. clear Hne.
  assert (El : (length (y0 :: its ++ [z]) - 1)%nat = length (y0 :: its)) by (cbn; rewrite length_app; cbn; lia).
  rewrite El in Hl |- *. change (y0 :: its ++ [z]) with ((y0 :: its) ++ [z]) in *. rewrite list_lookup_middle in Hl by done. injection Hl as ->.
  split; [cbn; rewrite length_app; cbn; lia|]. split; [done|]. split; [by rewrite drop_app_length|].
  destruct Hwf as [_ Hs _ _]. cbn [elements] in Hs. apply sorted_app in Hs as (_ & Hs2 & Hs3). rewrite <-app_assoc in Hs2. apply sorted_app in Hs2 as (_ & Hs2 & _).
  apply StronglySorted_inv in Hs2 as [_ Hs2]. split.
  - apply Forall_forall. intros v Hv. eapply below_trans; [apply ord_antisym|apply ord_trans|exact Hbe|]. apply Hs3; [done|]. cbn. by left.
  - eapply Forall_impl; [exact Hs2|]. intros v Hv. by eapply above_trans; [apply ord_trans|exact Hab|].
Qed.

Lemma wf_exchange h l b its r k x y a d :
  wf (Node h l b its r) -> is_rec cookie pfComp F x -> ord k (key x) = Eq -> its ≡ₚ y :: a ++ d -> StronglySorted (lt_rec ord key) (elements l ++ (a ++ d) ++ elements r) ->
  Forall (below_k k) (elements l ++ a) -> Forall (above_k k) (d ++ elements r) -> wf (Node h l b (a ++ x :: d) r).
Proof.
  intros [(Bl & Br & Eb & Hb & Hlen) _ Hr Hd] Hx Ek P Hs Hbe Hab. cbn [elements] in *. split.
  - pose proof (Permutation_length P) as El. assert (El' : length (a ++ x :: d) = length its) by (rewrite El; cbn; rewrite !length_app; cbn; lia).
    cbn [balanced]. by rewrite El'.
  - eapply inserted_sorted; [apply ord_antisym|apply ord_trans| |exact Ek|exact Hs].
    exists (elements l ++ a), (d ++ elements r). cbn [elements]. rewrite <-!app_assoc. by split_and!.
  - cbn [elements]. rewrite P in Hr. revert Hr. rewrite !Forall_app, !Forall_cons, !Forall_app. tauto.
  - exact Hd.
Qed.

Lemma below_of_lt y z : lt_rec ord key z y -> below_k (key y) z.
Proof. unfold lt_rec, below. intros E. by rewrite ord_antisym, E. Qed.
Lemma above_same k x y : ord k (key x) = Eq -> below_k k y -> above_k (key y) x.
Proof. unfold below, above. intros Ex Ey. rewrite ord_antisym, <-(ord_Eq_l ord ord_antisym ord_trans k) by done. by rewrite Ey. Qed.
Lemma below_same k x y : ord k (key x) = Eq -> above_k k y -> below_k (key y) x.
Proof. unfold below, above. intros Ex Ey. rewrite ord_antisym, <-(ord_Eq_l ord ord_antisym ord_trans k) by done. by rewrite Ey. Qed.

(** The first item leaves the page. *)
Lemma exchange_first h l b r k x y a d :
  wf (Node h l b (y :: a ++ d) r) -> is_rec cookie pfComp F x -> ord k (key x) = Eq ->
  Forall (below_k k) (y :: a) -> Forall (above_k k) d -> Forall (below_k k) (elements l) -> Forall (above_k k) (elements r) ->
  wf (Node h l b (a ++ x :: d) r) /\ Forall (below_k (key y)) (elements l) /\ Forall (above_k (key y)) ((a ++ x :: d) ++ elements r) /\
  inserted ord key k x (elements (Node h l b (y :: a ++ d) r)) (elements l ++ y :: (a ++ x :: d) ++ elements r).
Proof.
  intros Hwf Hx Ek [Hy Ha]%Forall_cons Hd Hl Hr. pose proof (wf_sorted _ Hwf) as Hs. cbn [elements app] in Hs.
  pose proof Hs as (S1 & S2 & S3)%sorted_app. apply StronglySorted_inv in S2 as [S2 S4]. split; [|split; [|split]].
  - eapply wf_exchange; [done..| |by apply Forall_app|by apply Forall_app].
    apply sorted_app. split_and!; [done|done|]. intros u v Hu Hv. apply S3; [done|by right].
  - apply Forall_forall. intros u Hu. apply below_of_lt, S3; [done|by left].
  - rewrite <-!app_assoc in S4 |- *. cbn. rewrite Forall_app in S4 |- *. rewrite Forall_cons. destruct S4 as (?&?). split_and!; try done. by apply (above_same k).
  - exists (elements l ++ y :: a), (d ++ elements r). cbn [elements]. rewrite <-!app_assoc. cbn. rewrite <-!app_assoc. split_and!; [done|done| |by apply Forall_app].
    rewrite Forall_app, Forall_cons. done.
Qed.

(** The last item leaves the page. *)
Lemma exchange_last h l b r k x y a d :
  wf (Node h l b (a ++ d ++ [y]) r) -> is_rec cookie pfComp F x -> ord k (key x) = Eq ->
  Forall (below_k k) a -> Forall (above_k k) (d ++ [y]) -> Forall (below_k k) (elements l) -> Forall (above_k k) (elements r) ->
  wf (Node h l b (a ++ x :: d) r) /\ Forall (below_k (key y)) (elements l ++ a ++ x :: d) /\ Forall (above_k (key y)) (elements r) /\
  inserted ord key k x (elements (Node h l b (a ++ d ++ [y]) r)) ((elements l ++ a ++ x :: d) ++ y :: elements r).
Proof.
  intros Hwf Hx Ek Ha [Hd [Hy _]%Forall_cons]%Forall_app Hl Hr. pose proof (wf_sorted _ Hwf) as Hs. cbn [elements] in Hs.
  replace (elements l ++ (a ++ d ++ [y]) ++ elements r) with ((elements l ++ a ++ d) ++ y :: elements r) in Hs by (rewrite <-!app_assoc; done).
  pose proof Hs as (S1 & S2 & S3)%sorted_app. apply StronglySorted_inv in S2 as [S2 S4]. split; [|split; [|split]].
  - eapply wf_exchange; [done..| | |by apply Forall_app|by apply Forall_app].
    + rewrite app_assoc. symmetry. apply Permutation_cons_append.
    + rewrite app_assoc. apply sorted_app. split_and!; [done|done|]. intros u v Hu Hv. apply S3; [done|by right].
  - assert (H : Forall (below_k (key y)) (elements l ++ a ++ d)) by (apply Forall_forall; intros u Hu; apply below_of_lt, S3; [done|by left]).
    apply Forall_app in H as (?&(?&?)%Forall_app). rewrite 2!Forall_app, Forall_cons. split_and!; try done. by apply (below_same k).
  - exact S4.
  - exists (elements l ++ a), (d ++ y :: elements r). cbn [elements]. rewrite <-!app_assoc. cbn. split_and!; [done|done|by apply Forall_app|].
    rewrite Forall_app, Forall_cons. done.
Qed.

Lemma insert_inside_ok ins s N h l b its r k x isA y0 yl :
  HN s F N -> rep N (Node h l b its r) -> wf (Node h l b its r) -> valid k -> is_rec cookie pfComp F x -> ord k (key x) = Eq ->
  its !! 0%nat = Some y0 -> its !! (length its - 1)%nat = Some yl -> below_k k y0 -> above_k k yl ->
  (forall its' y, wf (Node h l b its' r) -> outside (Node h l b its' r) (key y) -> ins_spec ins (Node h l b its' r) (key y)) ->
  wp (insert_inside cookie pfComp ins h (Z.of_nat (length its)) k x isA) s (insert_post N (Node h l b its r) k x isA).
Proof.
  intros HH Hrep Hwf Hk Hx Ek H0 Hl Hbe Hab Hins. pose proof Hrep as ([pad Hn] & Hrl & Hrr). destruct (wf_page _ _ _ _ _ Hwf) as (Hsort & Hrec & Hlen).
  destruct (between_sides _ _ _ _ _ _ _ _ Hwf H0 Hl Hbe Hab) as (H2 & Ht & Hd & Hbl & Har). destruct (is_rec_handle _ _ _ _ _ _ HH Hx) as (Ux & _).
  unfold insert_inside. apply wp_bind. replace (Z.of_nat (length its) - 1) with (Z.of_nat (length its - 1)) by lia.
  eapply (wp_search_page cookie pfComp PAGE_FUEL s F N h _ _ _ _ its pad k 1 (length its - 1) _ HH Hn);
    [done|done|done|lia|unfold PAGE_FUEL; lia|rewrite Ht; by constructor|rewrite Hd; by constructor|..].
  { intros i z Hi Ez. apply wp_ret. left. split; [done|]. split; [done|]. apply Exists_exists. exists z. split; [|done]. cbn [elements].
    apply list_elem_of_lookup_2 in Hi. set_solver. }
  intros m Hm Hbm Ham. wsteps. destruct (Z.ltb_spec (Z.of_nat (length its)) PAGE_SIZE) as [Hlt|Hge]; unfold PAGE_SIZE in *.
  - rewrite <-Nat2Z.inj_sub, Nat2Z.id by lia. eapply wp_page_insert; [exact HH|exact Hn|lia|lia|done|]. intros s' pad' HH'. apply wp_ret.
    assert (El : length (take m its ++ x :: drop m its) = (length its + 1)%nat) by (rewrite length_app, length_take; cbn; rewrite length_drop; lia).
    eapply (page_inserted _ _ _ _ _ _ _ _ _ _ _ pad'); [done..| |rewrite El; lia|done|done|rewrite El; exact HH'].
    exists (take m its), (drop m its). by rewrite take_drop.
  - assert (El : length its = 20%nat) by lia. pose proof (HN_node_ok _ _ _ _ _ HH Hn) as [_ _ _ _ Hpad Hu]. cbn [n_items] in *.
    destruct pad as [|]; [|rewrite length_app, El in Hpad; cbn in Hpad; lia]. rewrite app_nil_r in Hn, Hu. rewrite El in Hn |- *.
    assert (Hrecs : forall z, z ∈ its -> is_rec cookie pfComp F z) by (by apply Forall_forall).
    apply wp_bind. change (Z.to_nat 20) with 20%nat. rewrite <-El. eapply (wp_save_items s F N h _ _ _ _ [] its _ HH Hn). rewrite El.
    apply wp_bind. eapply wp_page_exchange; [exact HH|exact Hn|lia|done|..]; intros s' y a d E Ea HH'; apply wp_bind.
    + subst its. assert (El' : length (a ++ x :: d) = 20%nat) by (cbn in El; rewrite length_app in El |- *; cbn; lia).
      assert (Em : m = Datatypes.S (length a)) by lia. rewrite Em in Hbm, Ham. cbn [take drop] in Hbm, Ham. rewrite take_app_length in Hbm. rewrite drop_app_length in Ham.
      destruct (exchange_first h l b r k x y a d Hwf Hx Ek Hbm Ham Hbl Har) as (Hwf' & He1 & He2 & Hi).
      assert (Hrep' : rep (<[h := mkNode (root l) (root r) b 20 (a ++ x :: d)]> N) (Node h l b (a ++ x :: d) r)).
      { pose proof (wf_nodup _ Hwf) as [[? ?]%not_elem_of_app _]%NoDup_cons. cbn [rep]. split_and!; [|by apply rep_insert..].
        exists []. by rewrite lookup_insert_eq, El', app_nil_r. }
      eapply wp_convert; [exact HH'|apply Hrecs; by left|]. intros Hvy. apply wp_bind.
      eapply wp_mono; [eapply (Hins (a ++ x :: d) y Hwf'); [|exact HH'|exact Hrep'|done|done|done|apply Hrecs; by left|]|].
      * left. by apply Forall_app in He2 as [? _].
      * destruct (ord (key y) (key y)) eqn:Eyy; [done|..]; pose proof (ord_antisym (key y) (key y)) as Es; rewrite Eyy in Es; done.
      * intros res s2 Hpost. by eapply (reinserted _ _ _ _ _ _ _ _ _ _ _ _ (elements l) ((a ++ x :: d) ++ elements r)).
    + subst its. assert (El' : length (a ++ x :: d) = 20%nat) by (rewrite !length_app in El; rewrite length_app; cbn in *; lia).
      rewrite <-Ea in Hbm, Ham. rewrite take_app_length in Hbm. rewrite drop_app_length in Ham.
      destruct (exchange_last h l b r k x y a d Hwf Hx Ek Hbm Ham Hbl Har) as (Hwf' & He1 & He2 & Hi).
      assert (Hrep' : rep (<[h := mkNode (root l) (root r) b 20 (a ++ x :: d)]> N) (Node h l b (a ++ x :: d) r)).
      { pose proof (wf_nodup _ Hwf) as [[? ?]%not_elem_of_app _]%NoDup_cons. cbn [rep]. split_and!; [|by apply rep_insert..].
        exists []. by rewrite lookup_insert_eq, El', app_nil_r. }
      eapply wp_convert; [exact HH'|apply Hrecs; set_solver|]. intros Hvy. apply wp_bind.
      eapply wp_mono; [eapply (Hins (a ++ x :: d) y Hwf'); [|exact HH'|exact Hrep'|done|done|done|apply Hrecs; set_solver|]|].
      * right. by apply Forall_app in He1 as [_ ?].
      * destruct (ord (key y) (key y)) eqn:Eyy; [done|..]; pose proof (ord_antisym (key y) (key y)) as Es; rewrite Eyy in Es; done.
      * intros res s2 Hpost. eapply (reinserted _ _ _ _ _ _ _ _ _ _ _ _ (elements l ++ a ++ x :: d) (elements r)); try done. cbn [elements]. by rewrite <-!app_assoc.
Qed.

(** Insertion into a tree that is not empty. *)
Lemma Insert_ok fuel k t : enough fuel t k -> ins_spec (TtreeNode_Insert cookie pfComp fuel) t k.
Proof.
  revert k t; induction fuel as [|fuel IH]; intros k t Hf s N x isA HH Hrep Hwf Ht Hk Hx Ek.
  { pose proof (height_nonneg t). unfold enough in Hf. lia. }
  destruct t as [|h l b its r]; [done|]. destruct (wf_page _ _ _ _ _ Hwf) as (_ & Hrec & Hlen). pose proof Hrep as ([pad Hn] & _).
  assert (Hh : 2 * height l + 1 < Z.of_nat fuel /\ 2 * height r + 1 < Z.of_nat fuel).
  { unfold enough in Hf. cbn [height] in Hf. lia. }
  destruct (lookup_lt_is_Some_2 its 0) as [y0 H0]; [lia|]. destruct (lookup_lt_is_Some_2 its (length its - 1)) as [yl Hl]; [lia|].
  assert (Hy0 : is_rec cookie pfComp F y0) by by eapply Forall_lookup_1. assert (Hyl : is_rec cookie pfComp F yl) by by eapply Forall_lookup_1.
  cbn [TtreeNode_Insert root]. wsteps. eapply wp_ahItems; [exact HH|exact Hn|lia|by apply lookup_app_l_Some|].
  apply wp_bind, (wp_iDiff _ _ s F N y0 k _ HH Hy0 Hk). intros d0 Hd0.
  destruct (ord k (key y0)) eqn:E0; cbn [cmp_sign] in Hd0.
  - rewrite (proj2 (Z.eqb_eq d0 0)) by lia. apply wp_ret. left. split; [done|]. split; [done|]. apply Exists_exists. exists y0.
    apply list_elem_of_lookup_2 in H0. cbn [elements]. set_solver.
  - rewrite (proj2 (Z.eqb_neq d0 0)), (proj2 (Z.leb_le d0 0)) by lia. destruct its as [|y its]; [done|]. injection H0 as ->.
    apply insert_left_ok; try done; [lia|]. intros Hlf. apply IH. left. lia.
  - rewrite (proj2 (Z.eqb_neq d0 0)), (proj2 (Z.leb_gt d0 0)) by lia. apply wp_bind.
    eapply wp_ahItems; [exact HH|exact Hn|lia|rewrite Z2Nat.inj_sub, Nat2Z.id by lia; by apply lookup_app_l_Some|].
    apply wp_bind, (wp_iDiff _ _ s F N yl k _ HH Hyl Hk). intros d1 Hd1.
    destruct (ord k (key yl)) eqn:E1; cbn [cmp_sign] in Hd1.
    + rewrite (proj2 (Z.eqb_eq d1 0)) by lia. apply wp_ret. left. split; [done|]. split; [done|]. apply Exists_exists. exists yl.
      apply list_elem_of_lookup_2 in Hl. cbn [elements]. set_solver.
    + rewrite (proj2 (Z.eqb_neq d1 0)), (proj2 (Z.leb_gt 0 d1)) by lia. eapply insert_inside_ok; try done.
      intros its' y Hwf' Hout. apply IH. right. split; [|exact Hout]. unfold enough in Hf. cbn [height outside] in *.
      destruct Hf as [?|[_ [Ho|Ho]]]; [lia|..]; rewrite Forall_lookup in Ho; [specialize (Ho _ _ H0)|specialize (Ho _ _ Hl)]; unfold above, below in Ho; congruence.
    + rewrite (proj2 (Z.eqb_neq d1 0)), (proj2 (Z.leb_le 0 d1)) by lia. destruct its as [|y its _] using rev_ind; [done|].
      rewrite length_app, Nat.add_sub, list_lookup_middle in Hl by done. injection Hl as ->.
      apply insert_right_ok; try done; [lia|]. intros Hrf. apply IH. left. lia.
Qed.
End Insert.
