(* ===== verification/TTreeDelete.v ===== *)
(** Deletion from the T-tree of [TTree]: the record with the key leaves the order of the
    keys, the tree stays balanced, and a key that is not there changes nothing. *)
From Stdlib Require Import ZArith Lia.
From stdpp Require Import base sorting list numbers gmap.
From S2P Require Import Prelude Value PtMalloc PtSpec Mallocator TTree TTreePure TTreeRep TTreePage TTreeRot TTreeInsert.
Import AllocSpec.
Local Open Scope Z_scope.

Section Delete.
Context {S : Type} `{!Mallocator S, !MallocatorLaws S} (cookie : CmpCookie) (pfComp : KeyComparator (S := S)) `{!KeyOrder cookie pfComp}.
Context (F : blocks).

Abbreviation key := (key_at cookie pfComp F).
Abbreviation above_k := (above ord key).
Abbreviation below_k := (below ord key).
Abbreviation wf := (wf cookie pfComp F).
Abbreviation rec_ok := (is_rec cookie pfComp F).
Abbreviation gone k := (Forall (fun y => ord k (key y) <> Eq)).

(** The handles after a deletion: the same, or one less, which is freed. *)
Definition fewer_handles (N' : gmap Z node) (hs hs' : list Z) : Prop :=
  hs' ≡ₚ hs \/ exists h0, N' !! h0 = None /\ hs ≡ₚ h0 :: hs'.

Record del_ok (N : gmap Z node) (t : tree) (k : DTCValue) (ret : Z) (t' : tree) (N' : gmap Z node) : Prop := {
  do_rep : rep N' t';
  do_wf : wf t';
  do_removed : removed ord key k (elements t) (elements t');
  do_height : height t' = height t - ret;
  do_ret : 0 <= ret <= 1;
  do_handles : fewer_handles N' (handles t) (handles t');
  do_frame : forall y, y ∉ handles t -> N' !! y = N !! y
}.

Definition delete_post (N : gmap Z node) (t : tree) (k : DTCValue) (res : Z * Z * bool) (s' : S) : Prop :=
  (exists isF, res = (-1, root t, isF) /\ HN s' F N /\ gone k (elements t)) \/
  (exists ret t' N' isF, res = (ret, root t', isF) /\ HN s' F N' /\ del_ok N t k ret t' N').

Definition del_spec (del : Z -> DTCValue -> bool -> ST S (Z * Z * bool)) (t : tree) (k : DTCValue) : Prop :=
  forall s N isF, HN s F N -> rep N t -> wf t -> t <> Leaf -> valid k -> wp (del (root t) k isF) s (delete_post N t k).

(** ** Lists *)

Lemma ord_refl a : ord a a = Eq.
Proof. pose proof (ord_antisym a a) as E. destruct (ord a a); [done|cbn in E; congruence..]. Qed.

Lemma not_lt_rec x : ~ lt_rec ord key x x.
Proof. unfold lt_rec. by rewrite ord_refl. Qed.

Lemma removed_recs k l l' : removed ord key k l l' -> Forall rec_ok l -> Forall rec_ok l'.
Proof. intros (l1 & x & l2 & -> & -> & _). rewrite !Forall_app, Forall_cons. tauto. Qed.

Lemma removed_last e y l' : StronglySorted (lt_rec ord key) (e ++ [y]) -> removed ord key (key y) (e ++ [y]) l' -> l' = e.
Proof.
  intros Hs (l1 & x & l2 & E & -> & Ex).
  assert (x = y). { eapply (key_unique ord key ord_antisym ord_trans (key y) (e ++ [y])); [done|rewrite E; set_solver|set_solver|done|apply ord_refl]. }
  subst x. destruct l2 as [|w l2 _] using rev_ind.
  - apply app_inj_tail in E as [-> _]. by rewrite app_nil_r.
  - rewrite app_comm_cons, app_assoc in E. apply app_inj_tail in E as [-> ->]. exfalso.
    apply sorted_app in Hs as (_ & _ & Hs). eapply not_lt_rec, Hs; [|by left]. set_solver.
Qed.

Lemma removed_first y e l' : StronglySorted (lt_rec ord key) (y :: e) -> removed ord key (key y) (y :: e) l' -> l' = e.
Proof.
  intros Hs (l1 & x & l2 & E & -> & Ex).
  assert (x = y). { eapply (key_unique ord key ord_antisym ord_trans (key y) (y :: e)); [done|rewrite E; set_solver|set_solver|done|apply ord_refl]. }
  subst x. destruct l1 as [|w l1]; [by injection E as ->|]. injection E as -> ->. exfalso.
  apply StronglySorted_inv in Hs as [_ Hs]. rewrite Forall_forall in Hs. eapply not_lt_rec, Hs. set_solver.
Qed.

Lemma del_finish s N t k ret t' N' :
  wf t -> HN s F N' -> rep N' t' -> balanced t' -> removed ord key k (elements t) (elements t') -> height t' = height t - ret -> 0 <= ret <= 1 ->
  fewer_handles N' (handles t) (handles t') -> (forall y, y ∉ handles t -> N' !! y = N !! y) -> del_ok N t k ret t' N'.
Proof.
  intros [Hb Hs Hrec Hd] HH Hr Hb' Hrm Hh Hret Hn Hf. split; try done. split; [done| | |].
  - by eapply removed_sorted.
  - by eapply removed_recs.
  - destruct Hn as [P|(h0 & _ & P)]; rewrite P in *; [done|]. by apply NoDup_cons in Hd as [_ ?].
Qed.

Lemma fewer_left N' h hl hl' hr hs' : fewer_handles N' hl hl' -> hs' ≡ₚ h :: hl' ++ hr -> fewer_handles N' (h :: hl ++ hr) hs'.
Proof.
  intros [P|(h0 & Hn & P)] P'; [left; by rewrite P', P|right]. exists h0. split; [done|]. rewrite P', P. cbn. by rewrite perm_swap.
Qed.
Lemma fewer_right N' h hl hr hr' hs' : fewer_handles N' hr hr' -> hs' ≡ₚ h :: hl ++ hr' -> fewer_handles N' (h :: hl ++ hr) hs'.
Proof.
  intros Hn P'. rewrite (Permutation_app_comm hl hr') in P'. destruct (fewer_left N' h hr hr' hl hs' Hn P') as [P|(h0 & ? & P)].
  - left. by rewrite P, (Permutation_app_comm hr hl).
  - right. exists h0. split; [done|]. by rewrite (Permutation_app_comm hl hr).
Qed.
Lemma fewer_sub N' hs hs' x : fewer_handles N' hs hs' -> x ∈ hs' -> x ∈ hs.
Proof. intros [P|(h0 & _ & P)] Hx; rewrite P in *; [done|by right]. Qed.
Lemma fewer_nodup N' hs hs' : fewer_handles N' hs hs' -> NoDup hs -> NoDup hs'.
Proof. intros [P|(h0 & _ & P)] Hd; rewrite P in *; [done|]. by apply NoDup_cons in Hd as [_ ?]. Qed.

(** ** After the recursive call *)

(** The left subtree [l] has become [l'], and the page [its], [its']: rebalancing ends the
    deletion. *)
Lemma left_deleted_ok s N h l b its r k its' g l' N1 pad isF :
  wf (Node h l b its r) -> HN s F N1 -> length its' = length its ->
  N1 !! h = Some (mkNode (root l) (root r) b (Z.of_nat (length its')) (its' ++ pad)) -> rep N1 l' -> rep N1 r -> wf l' ->
  height l' = height l - g -> 0 <= g <= 1 -> fewer_handles N1 (handles l) (handles l') ->
  removed ord key k (elements (Node h l b its r)) (elements l' ++ its' ++ elements r) ->
  (forall y, y ∉ handles (Node h l b its r) -> N1 !! y = N !! y) ->
  wp (left_deleted h (root l) g (root l')) s (fun r0 s' => delete_post N (Node h l b its r) k (r0, isF) s').
Proof.
  intros Hwf HH El Hn Hrl' Hrr Hwl' Hh Hg Hfew Hrm Hfr.
  pose proof Hwf as [(Bl & Br & Eb & Hb & Hlen) _ _ [[Hhl Hhr]%not_elem_of_app (Hdl & Hdis & Hdr)%NoDup_app]%NoDup_cons].
  assert (Hhl' : h ∉ handles l') by (intros Hin; by apply Hhl; eapply fewer_sub).
  assert (Hnd : NoDup (handles (Node h l' b its' r))).
  { cbn [handles]. apply NoDup_cons. rewrite not_elem_of_app, NoDup_app. split_and!; try done; [by eapply fewer_nodup|].
    intros y Hy. apply Hdis. by eapply fewer_sub. }
  unfold left_deleted. apply wp_bind. eapply wp_set_left; [exact HH|exact Hn|by eapply rep_u64|]. intros s2 HH2.
  set (N2 := <[h := _]> N1) in HH2. assert (Hrep2 : rep N2 (Node h l' b its' r)).
  { cbn [rep]. split_and!; [exists pad; apply lookup_insert_eq|by apply rep_insert..]. }
  assert (Hf2 : forall y, y ∉ h :: handles l ++ handles r -> N2 !! y = N !! y).
  { intros y Hy. unfold N2. rewrite lookup_insert_ne by set_solver. by apply Hfr. }
  assert (Hmon : forall N3 : gmap Z node, (forall y, y ∉ handles (Node h l' b its' r) -> N3 !! y = N2 !! y) -> fewer_handles N3 (handles l) (handles l')).
  { intros N3 H3. destruct Hfew as [?|(h0 & Hn0 & P)]; [by left|right]. exists h0. split; [|done]. assert (Hin : h0 ∈ handles l) by (rewrite P; by left).
    assert (h0 <> h) by congruence. rewrite H3; [unfold N2; by rewrite lookup_insert_ne|]. cbn [handles]. rewrite not_elem_of_cons, not_elem_of_app. split_and!; [done| |by apply Hdis].
    rewrite P in Hdl. by apply NoDup_cons in Hdl as [? _]. }
  destruct (Z.ltb_spec 0 g) as [Hg1|Hg0].
  - destruct (left_shrunk_ok h l' b its' r (height l)) as (t & Et & [Rb Re Rh] & Hret & Hht); try done; [by destruct Hwl'|lia|lia|].
    eapply wp_balance_left; [exact HH2|exact Hrep2|exact Hnd|exact Et|]. intros s3 N3 HH3 Hr3 Hfr3.
    right. exists (left_shrunk_tree h l' b its' r).1, t, N3, isF. split; [done|]. split; [done|].
    eapply del_finish; try done; cbn [elements handles height balanced] in *.
    + by rewrite Re.
    + eapply fewer_left; [by apply Hmon|done].
    + intros y Hy. rewrite Hfr3, Hf2; [done|done|]. intros Hin. apply Hy. apply elem_of_cons in Hin as [->|[Hin|Hin]%elem_of_app]; [by left| |set_solver].
      right. apply elem_of_app. left. by eapply fewer_sub.
  - assert (g = 0) as -> by lia. apply wp_ret. right. exists 0, (Node h l' b its' r), N2, isF. split; [done|]. split; [done|].
    eapply del_finish; try done; cbn [elements handles height balanced] in *.
    + rewrite El. split_and!; first [done|lia|by destruct Hwl'].
    + lia.
    + eapply fewer_left; [by apply Hmon|done].
Qed.

Lemma right_deleted_ok s N h l b its r k its' g r' N1 pad isF :
  wf (Node h l b its r) -> HN s F N1 -> length its' = length its ->
  N1 !! h = Some (mkNode (root l) (root r) b (Z.of_nat (length its')) (its' ++ pad)) -> rep N1 l -> rep N1 r' -> wf r' ->
  height r' = height r - g -> 0 <= g <= 1 -> fewer_handles N1 (handles r) (handles r') ->
  removed ord key k (elements (Node h l b its r)) (elements l ++ its' ++ elements r') ->
  (forall y, y ∉ handles (Node h l b its r) -> N1 !! y = N !! y) ->
  wp (right_deleted h (root r) g (root r')) s (fun r0 s' => delete_post N (Node h l b its r) k (r0, isF) s').
Proof.
  intros Hwf HH El Hn Hrl Hrr' Hwr' Hh Hg Hfew Hrm Hfr.
  pose proof Hwf as [(Bl & Br & Eb & Hb & Hlen) _ _ [[Hhl Hhr]%not_elem_of_app (Hdl & Hdis & Hdr)%NoDup_app]%NoDup_cons].
  assert (Hhr' : h ∉ handles r') by (intros Hin; by apply Hhr; eapply fewer_sub).
  assert (Hnd : NoDup (handles (Node h l b its' r'))).
  { cbn [handles]. apply NoDup_cons. rewrite not_elem_of_app, NoDup_app. split_and!; try done; [|by eapply fewer_nodup].
    intros y Hy Hy'. apply (Hdis y Hy). by eapply fewer_sub. }
  unfold right_deleted. apply wp_bind. eapply wp_set_right; [exact HH|exact Hn|by eapply rep_u64|]. intros s2 HH2.
  set (N2 := <[h := _]> N1) in HH2. assert (Hrep2 : rep N2 (Node h l b its' r')).
  { cbn [rep]. split_and!; [exists pad; apply lookup_insert_eq|by apply rep_insert..]. }
  assert (Hf2 : forall y, y ∉ h :: handles l ++ handles r -> N2 !! y = N !! y).
  { intros y Hy. unfold N2. rewrite lookup_insert_ne by set_solver. by apply Hfr. }
  assert (Hmon : forall N3 : gmap Z node, (forall y, y ∉ handles (Node h l b its' r') -> N3 !! y = N2 !! y) -> fewer_handles N3 (handles r) (handles r')).
  { intros N3 H3. destruct Hfew as [?|(h0 & Hn0 & P)]; [by left|right]. exists h0. split; [|done]. assert (Hin : h0 ∈ handles r) by (rewrite P; by left).
    assert (h0 <> h) by congruence. rewrite H3; [unfold N2; by rewrite lookup_insert_ne|]. cbn [handles]. rewrite not_elem_of_cons, not_elem_of_app.
    split_and!; [done|intros Hl; by apply (Hdis h0)|]. rewrite P in Hdr. by apply NoDup_cons in Hdr as [? _]. }
  destruct (Z.ltb_spec 0 g) as [Hg1|Hg0].
  - destruct (right_shrunk_ok h l b its' r' (height r)) as (t & Et & [Rb Re Rh] & Hret & Hht); try done; [by destruct Hwr'|lia|lia|].
    eapply wp_balance_right; [exact HH2|exact Hrep2|exact Hnd|exact Et|]. intros s3 N3 HH3 Hr3 Hfr3.
    right. exists (right_shrunk_tree h l b its' r').1, t, N3, isF. split; [done|]. split; [done|].
    eapply del_finish; try done; cbn [elements handles height balanced] in *.
    + by rewrite Re.
    + eapply fewer_right; [by apply Hmon|done].
    + intros y Hy. rewrite Hfr3, Hf2; [done|done|]. intros Hin. apply Hy. apply elem_of_cons in Hin as [->|[Hin|Hin]%elem_of_app]; [by left|set_solver|].
      right. apply elem_of_app. right. by eapply fewer_sub.
  - assert (g = 0) as -> by lia. apply wp_ret. right. exists 0, (Node h l b its' r'), N2, isF. split; [done|]. split; [done|].
    eapply del_finish; try done; cbn [elements handles height balanced] in *.
    + rewrite El. split_and!; first [done|lia|by destruct Hwr'].
    + lia.
    + eapply fewer_right; [by apply Hmon|done].
Qed.

(** ** The neighbours of a page *)

Lemma wp_rightmost fuel s N t Q :
  HN s F N -> rep N t -> balanced t -> t <> Leaf -> height t <= Z.of_nat fuel ->
  (forall h l r b its y pad e, h ∈ handles t -> N !! h = Some (mkNode l r b (Z.of_nat (length (its ++ [y]))) ((its ++ [y]) ++ pad)) ->
    elements t = e ++ [y] -> Q h s) ->
  wp (rightmost fuel (root t)) s Q.
Proof.
  revert t; induction fuel as [|fuel IH]; intros t HH Hr Hb Ht Hf HQ; destruct t as [|h l b its r]; try done.
  { cbn [height] in Hf. pose proof (height_nonneg l). lia. }
  pose proof Hr as ([pad Hn] & Hl & Hrr). destruct Hb as (Bl & Br & _ & _ & Hlen). cbn [rightmost root height] in *. do 2 wstep.
  destruct (leaf_or r) as [->|Hrf].
  - apply wp_ret. destruct its as [|y its _] using rev_ind; [cbn in Hlen; lia|].
    apply (HQ h (root l) 0 b its y pad (elements l ++ its)); [by left|exact Hn|]. cbn [elements]. by rewrite app_nil_r, app_assoc.
  - rewrite (root_valid F s N r HH Hrr Hrf). apply IH; try done; [lia|]. intros h' l' r' b' its' y pad' e Hh' Hn' He.
    apply (HQ h' l' r' b' its' y pad' (elements l ++ its ++ e)); [cbn [handles]; set_solver|exact Hn'|]. cbn [elements]. by rewrite He, <-!app_assoc.
Qed.

Lemma wp_leftmost fuel s N t Q :
  HN s F N -> rep N t -> balanced t -> t <> Leaf -> height t <= Z.of_nat fuel ->
  (forall h l r b c its y e, h ∈ handles t -> N !! h = Some (mkNode l r b c (y :: its)) -> elements t = y :: e -> Q h s) ->
  wp (leftmost fuel (root t)) s Q.
Proof.
  revert t; induction fuel as [|fuel IH]; intros t HH Hr Hb Ht Hf HQ; destruct t as [|h l b its r]; try done.
  { cbn [height] in Hf. pose proof (height_nonneg l). lia. }
  pose proof Hr as ([pad Hn] & Hl & Hrr). destruct Hb as (Bl & Br & _ & _ & Hlen). cbn [leftmost root height] in *. do 2 wstep.
  destruct (leaf_or l) as [->|Hlf].
  - apply wp_ret. destruct its as [|y its]; [cbn in Hlen; lia|]. by eapply HQ; [left|exact Hn|].
  - rewrite (root_valid F s N l HH Hl Hlf). apply IH; try done; [lia|]. intros h' l' r' b' c' its' y e Hh' Hn' He.
    eapply HQ; [cbn [handles]; set_solver|exact Hn'|]. cbn [elements]. by rewrite He.
Qed.

(** The first item with the key, looked for without the cast. *)
Lemma wp_find_item s N h l r b c its pad k i Q :
  HN s F N -> N !! h = Some (mkNode l r b c (its ++ pad)) -> Forall rec_ok its -> valid k -> (i <= length its)%nat ->
  (forall j z, its !! j = Some z -> ord k (key z) = Eq -> Q (Some (Z.of_nat j)) s) ->
  (gone k (drop i its) -> Q None s) -> wp (find_item cookie pfComp h k (Z.of_nat i) (length its - i)) s Q.
Proof.
  intros HH Hn Hrec Hk. remember (length its - i)%nat as m eqn:Em. revert i Em; induction m as [|m IH]; intros i Em Hi HS HN_.
  - apply wp_ret, HN_. rewrite drop_ge by lia. constructor.
  - destruct (lookup_lt_is_Some_2 its i) as [z Hz]; [lia|]. cbn [find_item]. apply wp_bind.
    eapply wp_ahItems; [exact HH|exact Hn|lia|rewrite Nat2Z.id; by apply lookup_app_l_Some|].
    apply wp_bind. eapply (wp_comp cookie pfComp s F N z k); [done|by eapply Forall_lookup_1|done|]. intros d _ Hd.
    destruct (Z.eqb_spec d 0) as [->|Hd0].
    + apply wp_ret. eapply HS; [exact Hz|]. destruct (ord k (key z)); [done|cbn in Hd; lia..].
    + replace (Z.of_nat i + 1) with (Z.of_nat (Datatypes.S i)) by lia. apply IH; [lia|lia|exact HS|]. intros Hg. apply HN_.
      rewrite (drop_S _ z) by done. constructor; [|done]. intros E. rewrite E in Hd. cbn in Hd. lia.
Qed.

(** ** The item is found *)

Lemma delete_by_left_ok fuel del s N h l b a z d r k isF :
  HN s F N -> rep N (Node h l b (a ++ z :: d) r) -> wf (Node h l b (a ++ z :: d) r) -> ord k (key z) = Eq -> l <> Leaf -> height l <= Z.of_nat fuel ->
  (forall k', del_spec del l k') ->
  wp (delete_by_left cookie fuel del h (root l) (Z.of_nat (length a)) isF) s (delete_post N (Node h l b (a ++ z :: d) r) k).
Proof.
  intros HH Hrep Hwf Ek Hlf Hf Hdel. pose proof Hrep as ([pad Hn] & Hl & Hr).
  pose proof (wf_nodup _ _ _ _ Hwf) as [[Hhl Hhr]%not_elem_of_app _]%NoDup_cons. pose proof (wf_left _ _ _ _ _ _ _ _ Hwf) as Hwl.
  unfold delete_by_left. apply wp_bind, (wp_rightmost fuel s N l); [done..|by destruct Hwl|done|done|].
  intros hp lp rp bp itp y padp e Hhp Hnp He. assert (Hne : h <> hp) by (by intros <-).
  assert (Hy : rec_ok y). { pose proof (wf_recs _ _ _ _ Hwl) as Hrec. rewrite He in Hrec. by apply Forall_app in Hrec as [_ [? _]%Forall_cons]. }
  apply wp_bind. rewrite Nat2Z.id. rewrite <-app_assoc in Hn. eapply (wp_move_up s F N h _ _ _ _ [] a z (d ++ pad) _ HH Hn). intros s1 HH1.
  apply wp_bind. eapply wp_ushNItems; [exact HH1|rewrite lookup_insert_ne by done; exact Hnp|].
  apply wp_bind. eapply wp_ahItems; [exact HH1|rewrite lookup_insert_ne by done; exact Hnp|rewrite length_app; cbn; lia| |].
  { rewrite length_app. cbn. replace (Z.to_nat _) with (length itp) by lia. rewrite <-app_assoc. by apply list_lookup_middle. }
  apply wp_bind. eapply wp_put_ahItems; [exact HH1|apply lookup_insert_eq|lia|by eapply is_rec_handle|]. intros s2 HH2. rewrite insert_insert_eq in HH2.
  cbn [app list_insert] in HH2. change (Z.to_nat 0) with 0%nat in HH2. cbn [list_insert] in HH2.
  apply wp_bind. eapply wp_ahItems; [exact HH2|apply lookup_insert_eq|lia|done|]. apply wp_bind. eapply wp_convert; [exact HH2|exact Hy|]. intros Hvy.
  set (N2 := <[h := _]> N) in HH2. assert (El : length (y :: a ++ d) = length (a ++ z :: d)) by (cbn; rewrite !length_app; cbn; lia).
  assert (Hn2 : N2 !! h = Some (mkNode (root l) (root r) b (Z.of_nat (length (y :: a ++ d))) ((y :: a ++ d) ++ pad))).
  { unfold N2. rewrite lookup_insert_eq, El. cbn. by rewrite <-app_assoc. }
  assert (Hl2 : rep N2 l) by (by apply rep_insert). assert (Hr2 : rep N2 r) by (by apply rep_insert).
  apply wp_bind. eapply wp_mono; [by eapply (Hdel (key y) s2 N2 isF HH2 Hl2 Hwl Hlf)|].
  intros res s3 [(isF' & -> & HH3 & Hno)|(g & l' & N3 & isF' & -> & HH3 & [Hrl' Hwl' Hrm Hh Hg Hfew Hfr])].
  { exfalso. rewrite He in Hno. apply Forall_app in Hno as [_ [Hno _]%Forall_cons]. apply Hno, ord_refl. }
  rewrite (proj2 (Z.ltb_ge g (-1))) by lia. apply wp_bind.
  assert (Ee : elements l' = e). { eapply removed_last; [|rewrite He in Hrm; exact Hrm]. rewrite <-He. by destruct Hwl. }
  eapply wp_mono; [eapply (left_deleted_ok s3 N h l b (a ++ z :: d) r k (y :: a ++ d) g l' N3 pad isF'); try done|].
  - by rewrite Hfr.
  - apply (rep_ext N2); [done|]. intros v Hv. apply Hfr. pose proof (wf_nodup _ _ _ _ Hwf) as [_ (_ & Hdis & _)%NoDup_app]%NoDup_cons. intros Hv'. by apply (Hdis v).
  - exists (e ++ y :: a), z, (d ++ elements r). cbn [elements]. rewrite He, Ee, <-!app_assoc. cbn. by rewrite <-!app_assoc.
  - intros v Hv. cbn [handles] in Hv. rewrite Hfr by set_solver. unfold N2. rewrite lookup_insert_ne by set_solver. done.
  - intros r0 s4 Hpost. apply wp_ret. exact Hpost.
Qed.

Lemma delete_by_right_ok fuel del s N h l b a z d r k isF :
  HN s F N -> rep N (Node h l b (a ++ z :: d) r) -> wf (Node h l b (a ++ z :: d) r) -> ord k (key z) = Eq -> r <> Leaf -> height r <= Z.of_nat fuel ->
  (forall k', del_spec del r k') ->
  wp (delete_by_right cookie fuel del h (root r) (Z.of_nat (length (a ++ z :: d))) (Z.of_nat (length a)) isF) s (delete_post N (Node h l b (a ++ z :: d) r) k).
Proof.
  intros HH Hrep Hwf Ek Hrf Hf Hdel. pose proof Hrep as ([pad Hn] & Hl & Hr).
  pose proof (wf_nodup _ _ _ _ Hwf) as [[Hhl Hhr]%not_elem_of_app _]%NoDup_cons. pose proof (wf_right _ _ _ _ _ _ _ _ Hwf) as Hwr.
  destruct (wf_page _ _ _ _ _ _ _ _ Hwf) as (_ & _ & Hlen). rewrite length_app in Hlen. cbn [length] in Hlen.
  assert (En : Z.of_nat (length (a ++ z :: d)) - 1 = Z.of_nat (length (a ++ d))) by (rewrite !length_app; cbn; lia).
  unfold delete_by_right. apply wp_bind, (wp_leftmost fuel s N r); [done..|by destruct Hwr|done|done|].
  intros hp lp rp bp cp itp y e Hhp Hnp He. assert (Hne : h <> hp) by (by intros <-).
  assert (Hy : rec_ok y). { pose proof (wf_recs _ _ _ _ Hwr) as Hrec. rewrite He in Hrec. by apply Forall_cons in Hrec as [? _]. }
  rewrite En. replace (Z.to_nat (Z.of_nat (length (a ++ d)) - Z.of_nat (length a))) with (length d) by (rewrite length_app; lia).
  replace (Z.of_nat (length a) + 1) with (Z.of_nat (length a + 1)) by lia.
  apply wp_bind. rewrite <-app_assoc in Hn. cbn [app] in Hn. eapply (wp_move_down s F N h _ _ _ _ a d z pad _ HH Hn). intros s1 HH1.
  apply wp_bind. eapply wp_ahItems; [exact HH1|rewrite lookup_insert_ne by done; exact Hnp|done|done|].
  apply wp_bind. eapply wp_put_ahItems; [exact HH1|apply lookup_insert_eq|rewrite length_app; lia|by eapply is_rec_handle|]. intros s2 HH2.
  rewrite insert_insert_eq, Nat2Z.id, app_assoc, insert_app_r_alt, Nat.sub_diag in HH2 by done. cbn [list_insert] in HH2.
  apply wp_bind. eapply wp_ahItems; [exact HH2|apply lookup_insert_eq|lia|rewrite Nat2Z.id; by apply list_lookup_middle|].
  apply wp_bind. eapply wp_convert; [exact HH2|exact Hy|]. intros Hvy.
  set (N2 := <[h := _]> N) in HH2. assert (El : length ((a ++ d) ++ [y]) = length (a ++ z :: d)) by (rewrite !length_app; cbn; lia).
  assert (Hn2 : N2 !! h = Some (mkNode (root l) (root r) b (Z.of_nat (length ((a ++ d) ++ [y]))) (((a ++ d) ++ [y]) ++ pad))).
  { unfold N2. rewrite lookup_insert_eq, El. by rewrite <-(app_assoc _ [y]). }
  assert (Hl2 : rep N2 l) by (by apply rep_insert). assert (Hr2 : rep N2 r) by (by apply rep_insert).
  apply wp_bind. eapply wp_mono; [by eapply (Hdel (key y) s2 N2 isF HH2 Hr2 Hwr Hrf)|].
  intros res s3 [(isF' & -> & HH3 & Hno)|(g & r' & N3 & isF' & -> & HH3 & [Hrr' Hwr' Hrm Hh Hg Hfew Hfr])].
  { exfalso. rewrite He in Hno. apply Forall_cons in Hno as [Hno _]. apply Hno, ord_refl. }
  rewrite (proj2 (Z.ltb_ge g (-1))) by lia. apply wp_bind.
  assert (Ee : elements r' = e). { eapply removed_first; [|rewrite He in Hrm; exact Hrm]. rewrite <-He. by destruct Hwr. }
  eapply wp_mono; [eapply (right_deleted_ok s3 N h l b (a ++ z :: d) r k ((a ++ d) ++ [y]) g r' N3 pad isF'); try done|].
  - by rewrite Hfr.
  - apply (rep_ext N2); [done|]. intros v Hv. apply Hfr. pose proof (wf_nodup _ _ _ _ Hwf) as [_ (_ & Hdis & _)%NoDup_app]%NoDup_cons. by apply Hdis.
  - exists (elements l ++ a), z, (d ++ y :: e). cbn [elements]. by rewrite He, Ee, <-!app_assoc.
  - intros v Hv. cbn [handles] in Hv. rewrite Hfr by set_solver. unfold N2. rewrite lookup_insert_ne by set_solver. done.
  - intros r0 s4 Hpost. apply wp_ret. exact Hpost.
Qed.

(** ** The item is found *)

Lemma leaf_deleted s N h t t' x k isF hs : 
  HN s F (delete h N) -> wf t -> rep N t' -> wf t' -> h ∉ handles t' -> elements t = x :: elements t' \/ elements t = elements t' ++ [x] ->
  ord k (key x) = Eq -> handles t = h :: hs -> hs = handles t' -> height t = height t' + 1 ->
  delete_post N t k (1, root t', isF) s.
Proof.
  intros HH Hwf Hr Hwf' Hh He Ek Hhs -> Ht. right. exists 1, t', (delete h N), isF. split; [done|]. split; [done|]. eapply del_finish; try done.
  - apply (rep_ext N); [done|]. intros y Hy. apply lookup_delete_ne. by intros ->.
  - by destruct Hwf'.
  - destruct He as [He|He]; rewrite He; [exists [], x, (elements t')|exists (elements t'), x, []; rewrite app_nil_r]; done.
  - lia.
  - right. exists h. by rewrite lookup_delete_eq, Hhs.
  - intros y Hy. rewrite lookup_delete_ne; [done|]. intros ->. apply Hy. rewrite Hhs. by left.
Qed.

Lemma delete_item_ok fuel del s N h l b a z d r k isF :
  HN s F N -> rep N (Node h l b (a ++ z :: d) r) -> wf (Node h l b (a ++ z :: d) r) -> ord k (key z) = Eq ->
  height l <= Z.of_nat fuel -> height r <= Z.of_nat fuel -> (l <> Leaf -> forall k', del_spec del l k') -> (r <> Leaf -> forall k', del_spec del r k') ->
  wp (delete_item cookie fuel del h (Z.of_nat (length (a ++ z :: d))) (Z.of_nat (length a)) isF) s (delete_post N (Node h l b (a ++ z :: d) r) k).
Proof.
  intros HH Hrep Hwf Ek Hfl Hfr Hdl Hdr. pose proof Hrep as ([pad Hn] & Hl & Hr).
  pose proof (wf_nodup _ _ _ _ Hwf) as [[Hhl Hhr]%not_elem_of_app _]%NoDup_cons.
  pose proof (wf_balanced _ _ _ _ Hwf) as (Bl & Br & Eb & Hb & Hlen). pose proof (height_nonneg l). pose proof (height_nonneg r).
  unfold delete_item. wsteps. rewrite (rep_root_eqb s F N r HH Hr), (rep_root_eqb s F N l HH Hl).
  destruct (Z.eqb_spec (Z.of_nat (length (a ++ z :: d))) 1) as [E1|E1]; cbn [andb].
  - assert (a = [] /\ d = []) as [-> ->] by (rewrite length_app in E1; cbn in E1; split; apply nil_length_inv; lia).
    destruct (HN_free_node s F N h HH) as (s1 & Efree & HH1); [by eexists|]. destruct r as [|hr rl br ir rr]; [|destruct l as [|hl ll bl il lr]].
    + apply wp_bind. exists 0, s1. split; [exact Efree|]. apply wp_ret.
      eapply (leaf_deleted _ _ h _ l z); try done; [by eapply wf_left|by right|cbn [handles]; by rewrite app_nil_r|cbn [height] in *; lia].
    + apply wp_bind. exists 0, s1. split; [exact Efree|]. apply wp_ret.
      eapply (leaf_deleted _ _ h _ (Node hr rl br ir rr) z); try done; [by eapply wf_right|by left|cbn [height] in *; lia].
    + wsteps. rewrite E1. change (1 <=? MIN_ITEMS) with true. cbn [andb negb]. destruct (b <=? 0).
      * apply (delete_by_left_ok fuel del s N h (Node hl ll bl il lr) b [] z [] (Node hr rl br ir rr) k true); try done. by apply Hdl.
      * apply (delete_by_right_ok fuel del s N h (Node hl ll bl il lr) b [] z [] (Node hr rl br ir rr) k true); try done. by apply Hdr.
  - wsteps. destruct (_ && (negb _ && _)) eqn:Eg.
    { apply andb_true_iff in Eg as [_ [Eg _]%andb_true_iff]. assert (l <> Leaf) by (by intros ->). apply delete_by_left_ok; try done. by apply Hdl. }
    clear Eg. destruct (_ && negb _) eqn:Eg.
    { apply andb_true_iff in Eg as [_ Eg]. assert (r <> Leaf) by (by intros ->). apply delete_by_right_ok; try done. by apply Hdr. }
    unfold remove_item. apply wp_bind. replace (Z.of_nat (length a) + 1) with (Z.of_nat (length a + 1)) by lia. rewrite length_app in *. cbn [length] in *.
    replace (Z.to_nat _) with (length d) by lia. rewrite <-app_assoc in Hn. cbn [app] in Hn.
    apply wp_bind. eapply (wp_move_down s F N h _ _ _ _ a d z pad _ HH Hn). intros s1 HH1. wsteps.
    eapply wp_put_ushNItems; [exact HH1|look|unfold is_u; lia|]. intros s2 HH2. rewrite insert_insert_eq in HH2. apply wp_ret.
    right. eexists 0, (Node h l b (a ++ d) r), _, isF. split; [done|]. split; [exact HH2|]. eapply del_finish; try done.
    + cbn [rep]. split_and!; [eexists; rewrite lookup_insert_eq; rewrite (app_assoc a d); do 2 f_equal; rewrite length_app; lia|by apply rep_insert..].
    + cbn [balanced]. rewrite length_app. split_and!; first [done|lia].
    + exists (elements l ++ a), z, (d ++ elements r). cbn [elements]. by rewrite <-!app_assoc.
    + cbn [height]. lia.
    + by left.
    + intros y Hy. rewrite lookup_insert_ne by set_solver. done.
Qed.

(** ** Deletion *)

Lemma gone_app k l1 l2 : gone k (l1 ++ l2) <-> gone k l1 /\ gone k l2.
Proof. apply Forall_app. Qed.
Lemma gone_below k l : Forall (below_k k) l -> gone k l.
Proof. intros H. eapply Forall_impl; [exact H|]. unfold below. congruence. Qed.

(** The page and the right subtree: the key is not in the left one. *)
Lemma delete_here_ok fuel del s N h l b its r k isF :
  HN s F N -> rep N (Node h l b its r) -> wf (Node h l b its r) -> valid k -> gone k (elements l) ->
  height l <= Z.of_nat fuel -> height r <= Z.of_nat fuel -> (l <> Leaf -> forall k', del_spec del l k') -> (r <> Leaf -> forall k', del_spec del r k') ->
  wp (delete_here cookie pfComp fuel del h (Z.of_nat (length its)) k isF) s (delete_post N (Node h l b its r) k).
Proof.
  intros HH Hrep Hwf Hk Hgl Hfl Hfr Hdl Hdr. pose proof Hrep as ([pad Hn] & Hl & Hr). destruct (wf_page _ _ _ _ _ _ _ _ Hwf) as (Hs & Hrec & Hlen).
  destruct (lookup_lt_is_Some_2 its (length its - 1)) as [yl Hyl]; [lia|]. unfold delete_here. apply wp_bind.
  eapply wp_ahItems; [exact HH|exact Hn|lia|rewrite Z2Nat.inj_sub, Nat2Z.id by lia; by apply lookup_app_l_Some|].
  apply wp_bind, (wp_iDiff _ _ s F N yl k _ HH); [by eapply Forall_lookup_1|done|]. intros d Hd. apply wp_bind.
  assert (Hnone : forall s', s' = s -> gone k its -> wp (hRight ← hRight_of h;
      if negb (hRight =? 0) then x ← del hRight k isF; let '(iRet, hChild, isFreeNode) := x in
        if iRet <? -1 then mret (iRet, h, isFreeNode) else r0 ← right_deleted h hRight iRet hChild; mret (r0, isFreeNode)
      else mret (-1, h, isF)) s' (delete_post N (Node h l b its r) k)).
  { intros s' -> Hgi. wsteps. destruct (leaf_or r) as [->|Hrf].
    - apply wp_ret. left. exists isF. split; [done|]. split; [done|]. cbn [elements]. by rewrite app_nil_r, gone_app.
    - change 0 with INVALID_HANDLE. rewrite (root_valid F s N r HH Hr Hrf).
      cbn [negb]. apply wp_bind. eapply wp_mono; [by eapply (Hdr Hrf k s N isF HH Hr); [eapply wf_right|..]|].
      intros res s1 [(isF' & -> & HH1 & Hno)|(g & r' & N1 & isF' & -> & HH1 & [Hrr' Hwr' Hrm Hh Hg Hfew Hfm])].
      + change (-1 <? -1) with false. cbv iota. apply wp_bind. unfold right_deleted. rewrite Z.eqb_refl. cbn [negb]. apply wp_bind, wp_ret, wp_ret, wp_ret.
        left. exists isF'. split; [done|]. split; [done|]. cbn [elements]. by rewrite !gone_app.
      + rewrite (proj2 (Z.ltb_ge g (-1))) by lia. apply wp_bind. pose proof (wf_nodup _ _ _ _ Hwf) as [[Hhl Hhr]%not_elem_of_app (_ & Hdis & _)%NoDup_app]%NoDup_cons.
        eapply wp_mono; [eapply (right_deleted_ok s1 N h l b its r k its g r' N1 pad isF'); try done|].
        * by rewrite Hfm.
        * apply (rep_ext N); [done|]. intros v Hv. apply Hfm. by apply Hdis.
        * cbn [elements]. by apply removed_right, removed_right.
        * intros v Hv. apply Hfm. cbn [handles] in Hv. set_solver.
        * intros r0 s2 Hpost. by apply wp_ret. }
  destruct (Z.leb_spec d 0) as [Hd0|Hd0].
  - rewrite Nat2Z.id. change 0 with (Z.of_nat 0). rewrite <-(Nat.sub_0_r (length its)) at 1.
    eapply (wp_find_item s N h); [exact HH|exact Hn|done|done|lia|..].
    + intros j z Hj Ek. rewrite <-(take_drop_middle its j z Hj) in Hrep, Hwf |- *.
      assert (Ej : length (take j its) = j) by (pose proof (lookup_lt_Some _ _ _ Hj); rewrite length_take; lia).
      rewrite <-Ej at 3. by eapply delete_item_ok.
    + intros Hg. by apply Hnone.
  - apply wp_ret, Hnone; [done|]. destruct its as [|z its _] using rev_ind; [done|].
    rewrite length_app, Nat.add_sub, list_lookup_middle in Hyl by done. injection Hyl as ->.
    apply gone_below. eapply below_snoc; [apply ord_antisym|apply ord_trans|exact Hs|]. unfold below. destruct (ord k (key yl)); cbn in Hd; [lia..|done].
Qed.

(** A key above the first item is not in the left subtree, nor is one equal to it. *)
Lemma left_below k h l b y its r : wf (Node h l b (y :: its) r) -> ord k (key y) <> Lt -> Forall (below_k k) (elements l).
Proof.
  intros [_ Hs _ _] Hk. cbn [elements] in Hs. apply sorted_app in Hs as (_ & _ & Hs). apply Forall_forall. intros z Hz.
  assert (E : ord (key y) (key z) = Gt). { rewrite ord_antisym. by rewrite (Hs z y Hz ltac:(by left)). }
  unfold below. destruct (ord k (key y)) eqn:Ek; [|done|by eapply ord_trans]. by rewrite (ord_Eq_l ord ord_antisym ord_trans _ _ _ Ek).
Qed.

Lemma Delete_ok fuel k t : height t <= Z.of_nat fuel -> del_spec (TtreeNode_Delete cookie pfComp fuel) t k.
Proof.
  revert k t; induction fuel as [|fuel IH]; intros k t Hf s N isF HH Hrep Hwf Ht Hk; (destruct t as [|h l b its r]; [done|]); cbn [height] in Hf;
    pose proof (height_nonneg l); [lia|]. pose proof Hrep as ([pad Hn] & Hl & Hr). destruct (wf_page _ _ _ _ _ _ _ _ Hwf) as (_ & Hrec & Hlen).
  destruct its as [|y its]; [cbn in Hlen; lia|]. cbn [TtreeNode_Delete root]. wsteps. eapply wp_ahItems; [exact HH|exact Hn|done|done|].
  apply Forall_cons in Hrec as [Hy _]. apply wp_bind, (wp_iDiff _ _ s F N y k _ HH Hy Hk). intros d Hd. wsteps.
  assert (Hhere : gone k (elements l) -> wp (delete_here cookie pfComp fuel (TtreeNode_Delete cookie pfComp fuel) h (Z.of_nat (length (y :: its))) k isF) s
      (delete_post N (Node h l b (y :: its) r) k)).
  { intros Hg. eapply delete_here_ok; try done; [lia|lia|intros _ k'; apply IH; lia..]. }
  rewrite (rep_root_eqb s F N l HH Hl). destruct (Z.ltb_spec d 0) as [Hd0|Hd0]; cbn [andb].
  2:{ apply Hhere, gone_below. eapply left_below; [exact Hwf|]. intros E. rewrite E in Hd. cbn in Hd. lia. }
  destruct (leaf_or l) as [->|Hlf]; [by apply Hhere, Forall_nil|]. rewrite <-(rep_root_eqb s F N l HH Hl), (root_valid F s N l HH Hl Hlf). cbn [negb].
  apply wp_bind. eapply wp_mono; [by eapply (IH k l ltac:(lia) s N isF HH Hl); [eapply wf_left|..]|].
  intros res s1 [(isF' & -> & HH1 & Hno)|(g & l' & N1 & isF' & -> & HH1 & [Hrl' Hwl' Hrm Hh Hg Hfew Hfm])].
  - cbn [Z.ltb Z.leb Z.compare]. rewrite Z.eqb_refl. cbn [negb]. apply wp_bind, wp_ret. clear Hhere.
    eapply delete_here_ok; try done; [lia|lia|intros _ k'; apply IH; lia..].
  - rewrite (proj2 (Z.ltb_ge g (-1))), (proj2 (Z.leb_le 0 g)) by lia. apply wp_bind.
    pose proof (wf_nodup _ _ _ _ Hwf) as [[Hhl Hhr]%not_elem_of_app (_ & Hdis & _)%NoDup_app]%NoDup_cons.
    eapply wp_mono; [eapply (left_deleted_ok s1 N h l b (y :: its) r k (y :: its) g l' N1 pad isF'); try done|].
    + by rewrite Hfm.
    + apply (rep_ext N); [done|]. intros v Hv. apply Hfm. intros Hv'. by apply (Hdis v).
    + cbn [elements]. by apply removed_left.
    + intros v Hv. apply Hfm. cbn [handles] in Hv. set_solver.
    + intros r0 s2 Hpost. by apply wp_ret.
Qed.
End Delete.
