(* ===== verification/TTreeFind.v ===== *)
(** Searching the T-tree of [TTree], destroying it and asking for the memory that gives
    back. *)
From Stdlib Require Import ZArith Lia.
From stdpp Require Import base sorting list numbers gmap.
From S2P Require Import Prelude Value PtMalloc PtSpec Mallocator TTree TTreePure TTreeRep TTreePage TTreeRot TTreeInsert TTreeDelete.
Import AllocSpec.
Local Open Scope Z_scope.

Section Find.
Context {S : Type} `{!Mallocator S, !MallocatorLaws S} (cookie : CmpCookie) (pfComp : KeyComparator (S := S)) `{!KeyOrder cookie pfComp}.
Context (F : blocks).

Abbreviation key := (key_at cookie pfComp F).
Abbreviation wf := (wf cookie pfComp F).
Abbreviation gone k := (Forall (fun y => ord k (key y) <> Eq)).
Abbreviation below_k := (below ord key).
Abbreviation above_k := (above ord key).

Lemma gone_above k l : Forall (above_k k) l -> gone k l.
Proof. intros H. eapply Forall_impl; [exact H|]. unfold above. congruence. Qed.

(** The two comparisons at a node place the key against the parts of the tree. *)
Lemma node_orders k h l b its r y0 yl :
  wf (Node h l b its r) -> its !! 0%nat = Some y0 -> its !! (length its - 1)%nat = Some yl ->
  (ord k (key y0) = Lt -> Forall (above_k k) (its ++ elements r)) /\ (ord k (key yl) = Gt -> Forall (below_k k) (elements l ++ its)) /\
  (ord k (key y0) <> Lt -> Forall (below_k k) (elements l)) /\ (ord k (key yl) <> Gt -> Forall (above_k k) (elements r)).
Proof.
  intros Hwf H0 Hl. destruct its as [|y its]; [done|]. injection H0 as ->. split; [|split; [|split]].
  - intros E. by eapply above_rest.
  - intros E. destruct (y0 :: its) as [|z m _] using rev_ind; [done|].
    rewrite length_app, Nat.add_sub, list_lookup_middle in Hl by done. injection Hl as ->. by eapply below_front.
  - intros E. by eapply left_below.
  - intros E. destruct Hwf as [_ Hs _ _]. cbn [elements] in Hs. apply sorted_app in Hs as (_ & Hs & _). apply sorted_app in Hs as (_ & _ & Hs).
    apply Forall_forall. intros z Hz. assert (E1 : ord (key yl) (key z) = Lt) by (apply Hs; [by eapply list_elem_of_lookup_2|done]).
    unfold above. destruct (ord k (key yl)) eqn:Ek; [by rewrite (ord_Eq_l ord ord_antisym ord_trans _ _ _ Ek)|by eapply ord_trans|done].
Qed.

Lemma node_sides k h l b its r y0 yl :
  wf (Node h l b its r) -> its !! 0%nat = Some y0 -> its !! (length its - 1)%nat = Some yl ->
  (ord k (key y0) = Lt -> gone k (its ++ elements r)) /\ (ord k (key yl) = Gt -> gone k (elements l ++ its)) /\
  (ord k (key y0) <> Lt -> gone k (elements l)) /\ (ord k (key yl) <> Gt -> gone k (elements r)).
Proof.
  intros Hwf H0 Hl. destruct (node_orders k h l b its r y0 yl Hwf H0 Hl) as (A & B & C & D). split_and!; intros E.
  - by apply gone_above, A.
  - by apply (gone_below cookie pfComp), B.
  - by apply (gone_below cookie pfComp), C.
  - by apply gone_above, D.
Qed.

Lemma item_read s N h n i x : HN s F N -> N !! h = Some n -> 0 <= i -> n_items n !! Z.to_nat i = Some x -> mread 8 (item_addr h i) s = Ok (x, s).
Proof.
  intros HH Hn Hi Hx. destruct n as [l r b c its]. destruct (wp_ahItems s F N h l r b c its HH Hn i x (fun a s' => a = x /\ s' = s) Hi Hx) as (? & ? & E & -> & ->); done.
Qed.

(** What a search finds: the address of the item that holds the record with the key, or
    nothing. *)
Definition found_ptr (s : S) (k : DTCValue) (l : list Z) (res : Z * option Z) : Prop :=
  (exists a z, res = (1, Some a) /\ z ∈ l /\ ord k (key z) = Eq /\ mread 8 a s = Ok (z, s)) \/ (res = (0, None) /\ gone k l).

Lemma found_mid s k l1 l l2 res : found_ptr s k l res -> gone k l1 -> gone k l2 -> found_ptr s k (l1 ++ l ++ l2) res.
Proof.
  intros [(a & z & -> & Hz & E & Hr)|[-> Hg]] H1 H2; [left; exists a, z; split_and!; try done; set_solver|right].
  by rewrite !Forall_app.
Qed.

Lemma Find_ptr_ok fuel s N t k :
  HN s F N -> rep N t -> wf t -> t <> Leaf -> valid k -> height t <= Z.of_nat fuel ->
  wp (TtreeNode_Find_ptr cookie pfComp fuel (root t) k) s (fun res s' => s' = s /\ found_ptr s k (elements t) res).
Proof.
  revert t; induction fuel as [|fuel IH]; intros t HH Hrep Hwf Ht Hk Hf; (destruct t as [|h l b its r]; [done|]); cbn [height] in Hf;
    pose proof (height_nonneg l); [lia|]. pose proof Hrep as ([pad Hn] & Hl & Hr). destruct (wf_page _ _ _ _ _ _ _ _ Hwf) as (Hs & Hrec & Hlen).
  destruct (lookup_lt_is_Some_2 its 0) as [y0 H0]; [lia|]. destruct (lookup_lt_is_Some_2 its (length its - 1)) as [yl Hyl]; [lia|].
  assert (Hy0 : is_rec cookie pfComp F y0) by by eapply Forall_lookup_1. assert (Hyr : is_rec cookie pfComp F yl) by by eapply Forall_lookup_1.
  destruct (node_sides k _ _ _ _ _ _ _ Hwf H0 Hyl) as (G1 & G2 & G3 & G4).
  assert (Hrd : forall i z, its !! i = Some z -> ord k (key z) = Eq -> found_ptr s k (elements l ++ its ++ elements r) (1, Some (item_addr h (Z.of_nat i)))).
  { intros i z Hi E. left. exists (item_addr h (Z.of_nat i)), z. split_and!; [done|apply list_elem_of_lookup_2 in Hi; set_solver|done|].
    eapply item_read; [exact HH|exact Hn|lia|]. rewrite Nat2Z.id. by apply lookup_app_l_Some. }
  assert (Hlast : Z.of_nat (length its) - 1 = Z.of_nat (length its - 1)) by lia.
  cbn [TtreeNode_Find_ptr root elements]. wsteps. rewrite (proj2 (Z.eqb_neq _ 0)) by lia. wsteps. eapply wp_ahItems; [exact HH|exact Hn|done|by apply lookup_app_l_Some|].
  apply wp_bind, (wp_iDiff _ _ s F N y0 k _ HH Hy0 Hk). intros d Hd. destruct (ord k (key y0)) eqn:E0; cbn [cmp_sign] in Hd.
  - rewrite (proj2 (Z.eqb_eq d 0)) by lia. apply wp_ret. split; [done|]. by eapply (Hrd 0%nat).
  - rewrite (proj2 (Z.eqb_neq d 0)), (proj2 (Z.ltb_ge 0 d)) by lia. wsteps. rewrite (rep_root_eqb s F N l HH Hl). destruct (leaf_or l) as [->|Hlf].
    + apply wp_ret. split; [done|]. right. split; [done|]. by apply G1.
    + rewrite <-(rep_root_eqb s F N l HH Hl), (root_valid F s N l HH Hl Hlf). eapply wp_mono; [by apply (IH l HH Hl); [eapply wf_left| | |lia]|].
      intros res s' [-> Hp]. split; [done|]. rewrite <-(app_nil_l (elements l ++ _)). apply found_mid; [done|done|by apply G1].
  - rewrite (proj2 (Z.eqb_neq d 0)), (proj2 (Z.ltb_lt 0 d)) by lia. wsteps. rewrite Hlast.
    eapply wp_ahItems; [exact HH|exact Hn|lia|rewrite Nat2Z.id; by apply lookup_app_l_Some|].
    apply wp_bind, (wp_iDiff _ _ s F N yl k _ HH Hyr Hk). intros d1 Hd1. destruct (ord k (key yl)) eqn:E1; cbn [cmp_sign] in Hd1.
    + rewrite (proj2 (Z.eqb_eq d1 0)) by lia. apply wp_ret. split; [done|]. by eapply Hrd.
    + rewrite (proj2 (Z.eqb_neq d1 0)), (proj2 (Z.ltb_ge 0 d1)) by lia. apply wp_bind.
      destruct (between_sides _ _ _ _ _ _ _ _ _ _ _ Hwf H0 Hyl E0 E1) as (H2 & Ht1 & Hd2 & Hbl & Har).
      eapply (wp_search_page cookie pfComp PAGE_FUEL s F N h _ _ _ _ its pad k 1 (length its - 1) _ HH Hn);
        [done|done|done|lia|unfold PAGE_FUEL; lia|rewrite Ht1; by constructor|rewrite Hd2; by constructor|..].
      * intros i z Hi Ez. apply wp_ret. split; [done|]. by eapply Hrd.
      * intros m _ Hbm Ham. apply wp_ret. split; [done|]. right. split; [done|]. rewrite !Forall_app. split_and!; [by apply G3| |by apply G4].
        rewrite <-(take_drop m its). by apply no_key.
    + rewrite (proj2 (Z.eqb_neq d1 0)), (proj2 (Z.ltb_lt 0 d1)) by lia. wsteps. rewrite (rep_root_eqb s F N r HH Hr). destruct (leaf_or r) as [->|Hrf].
      * apply wp_ret. split; [done|]. right. split; [done|]. cbn [elements]. rewrite app_nil_r. by apply G2.
      * rewrite <-(rep_root_eqb s F N r HH Hr), (root_valid F s N r HH Hr Hrf). eapply wp_mono; [by apply (IH r HH Hr); [eapply wf_right| | |lia]|].
        intros res s' [-> Hp]. split; [done|]. rewrite app_assoc, <-(app_nil_r (elements r)). apply found_mid; [done|by apply G2|done].
Qed.

(** The record that is found, or none. *)
Definition found (k : DTCValue) (l : list Z) (res : Z * Z) : Prop :=
  (exists z, res = (1, z) /\ z ∈ l /\ ord k (key z) = Eq) \/ (res = (0, INVALID_HANDLE) /\ gone k l).

Lemma Find_ok fuel s N t k :
  HN s F N -> rep N t -> wf t -> t <> Leaf -> valid k -> height t <= Z.of_nat fuel ->
  wp (TtreeNode_Find cookie pfComp fuel (root t) k) s (fun res s' => s' = s /\ found k (elements t) res).
Proof.
  intros HH Hrep Hwf Ht Hk Hf. apply wp_bind. eapply wp_mono; [by apply (Find_ptr_ok fuel s N t k)|].
  intros res s' [-> [(a & z & -> & Hz & E & Hr)|[-> Hg]]]; cbv beta iota.
  - rewrite Z.eqb_refl. apply wp_bind. eapply wp_eq; [exact Hr|]. apply wp_ret. split; [done|]. left. by exists z.
  - apply wp_ret. split; [done|]. by right.
Qed.
End Find.

(** ** Loops over the items of a page *)

Section Loops.
Context {S : Type} `{!Mallocator S, !MallocatorLaws S}.

(** [I i c s] holds before item [i] with cookie [c]; the count can be read all along. *)
Lemma wp_for_up {C} p (n : nat) (body : Z -> C -> ST S (Z * C)) (I : nat -> C -> S -> Prop) Q :
  (forall i c s P, (i <= n)%nat -> I i c s -> P (Z.of_nat n) s -> wp (ushNItems_of p) s P) ->
  (forall i c s, (i < n)%nat -> I i c s -> wp (body (Z.of_nat i) c) s (fun rc s' => if rc.1 =? 0 then I (Datatypes.S i) rc.2 s' else Q rc s')) ->
  (forall c s, I n c s -> Q (0, c) s) ->
  forall fuel i c s, (n - i < fuel)%nat -> (i <= n)%nat -> I i c s -> wp (for_up fuel p (Z.of_nat i) body c) s Q.
Proof.
  intros Hcnt Hbody Hend. induction fuel as [|fuel IH]; intros i c s Hf Hi HI; [lia|]. cbn [for_up].
  apply wp_bind. eapply Hcnt; [exact Hi|exact HI|]. destruct (Z.ltb_spec (Z.of_nat i) (Z.of_nat n)) as [Hlt|Hge].
  - apply wp_bind. eapply wp_mono; [apply Hbody; [lia|exact HI]|]. intros rc s' Hrc. cbv beta in Hrc. destruct (rc.1 =? 0); cbn [negb].
    + replace (Z.of_nat i + 1) with (Z.of_nat (Datatypes.S i)) by lia. apply IH; [lia|lia|done].
    + by apply wp_ret.
  - apply wp_ret, Hend. by replace n with i by lia.
Qed.

(** The loop over a whole page. *)
Lemma wp_items {C} p (n : nat) (body : Z -> C -> ST S (Z * C)) (I : nat -> C -> S -> Prop) c s Q :
  (n <= 20)%nat -> I 0%nat c s ->
  (forall i c s P, (i <= n)%nat -> I i c s -> P (Z.of_nat n) s -> wp (ushNItems_of p) s P) ->
  (forall i c s, (i < n)%nat -> I i c s -> wp (body (Z.of_nat i) c) s (fun rc s' => if rc.1 =? 0 then I (Datatypes.S i) rc.2 s' else Q rc s')) ->
  (forall c s, I n c s -> Q (0, c) s) -> wp (for_up PAGE_FUEL p 0 body c) s Q.
Proof. intros Hn HI H1 H2 H3. apply (wp_for_up p n body I Q H1 H2 H3 PAGE_FUEL 0 c s); [unfold PAGE_FUEL; lia|lia|done]. Qed.

Lemma wp_for_down {C} (body : Z -> C -> ST S (Z * C)) (I : nat -> C -> S -> Prop) Q :
  (forall i c s, I (Datatypes.S i) c s -> wp (body (Z.of_nat i) c) s (fun rc s' => if rc.1 =? 0 then I i rc.2 s' else Q rc s')) ->
  (forall c s, I 0%nat c s -> Q (0, c) s) -> forall n c s, I n c s -> wp (for_down n body c) s Q.
Proof.
  intros Hbody Hend. induction n as [|n IH]; intros c s HI; [by apply wp_ret, Hend|]. cbn [for_down]. apply wp_bind.
  eapply wp_mono; [by apply Hbody|]. intros rc s' Hrc. cbv beta in Hrc. destruct (rc.1 =? 0); cbn [negb]; [by apply IH|by apply wp_ret].
Qed.

(** ** The handle of a record *)

Lemma elem_drop (its : list Z) i x : its !! i = Some x -> forall z, z ∈ drop i its <-> z = x \/ z ∈ drop (Datatypes.S i) its.
Proof. intros Hi z. rewrite (drop_S _ x) by done. apply elem_of_cons. Qed.

Lemma find_handle_ok fuel s F N t x :
  HN s F N -> rep N t -> balanced t -> t <> Leaf -> height t <= Z.of_nat fuel ->
  wp (TtreeNode_find_handle fuel (root t) x) s (fun r s' => s' = s /\ r = if decide (x ∈ elements t) then 1 else 0).
Proof.
  revert t; induction fuel as [|fuel IH]; intros t HH Hrep Hb Ht Hf; (destruct t as [|h l b its r]; [done|]); cbn [height] in Hf;
    pose proof (height_nonneg l); [lia|]. pose proof Hrep as ([pad Hn] & Hl & Hr). destruct Hb as (Bl & Br & _ & _ & Hlen).
  assert (Hsub : forall t' : tree, rep N t' -> balanced t' -> height t' <= Z.of_nat fuel ->
    wp (if negb (root t' =? INVALID_HANDLE) then TtreeNode_find_handle fuel (root t') x else mret 0) s (fun r s' => s' = s /\ r = if decide (x ∈ elements t') then 1 else 0)).
  { intros t' Hr' Hb' Hf'. rewrite (rep_root_eqb s F N t' HH Hr'). destruct t' as [|]; cbn [negb].
    - apply wp_ret. split; [done|]. by rewrite decide_False by apply not_elem_of_nil.
    - by apply (IH _ HH Hr' Hb'). }
  cbn [TtreeNode_find_handle root elements]. wsteps. rewrite (proj2 (Z.eqb_neq _ 0)) by lia. apply wp_bind.
  apply (wp_items h (length its) _ (fun i _ s' => s' = s /\ (x ∈ its <-> x ∈ drop i its))); [lia|done|..].
  - intros i _ s' P _ [-> _] HP. by eapply wp_ushNItems.
  - intros i [] s' Hi [-> Hiff]. destruct (lookup_lt_is_Some_2 its i Hi) as [z Hz]. apply wp_bind.
    eapply wp_ahItems; [exact HH|exact Hn|lia|rewrite Nat2Z.id; by apply lookup_app_l_Some|]. apply wp_ret. cbn [fst snd].
    rewrite (elem_drop _ _ _ Hz) in Hiff. destruct (Z.eqb_spec z x) as [->|Hne]; cbn.
    + apply wp_ret. split; [done|]. rewrite decide_True; [done|]. rewrite !elem_of_app. right; left. apply Hiff. by left.
    + split; [done|]. rewrite Hiff. intuition congruence.
  - intros [] s' [-> Hiff]. cbn. rewrite drop_ge in Hiff by lia. wsteps. eapply wp_mono; [by apply Hsub; [..|lia]|]. intros r1 s' [-> ->].
    destruct (decide (x ∈ elements r)) as [Hin|Hnr]; cbn.
    { apply wp_ret. split; [done|]. rewrite decide_True; [done|]. rewrite !elem_of_app. by right; right. }
    wsteps. eapply wp_mono; [by apply Hsub; [..|lia]|]. intros r2 s' [-> ->]. apply wp_ret. split; [done|].
    assert (Hdec : x ∈ elements l ++ its ++ elements r <-> x ∈ elements l) by (rewrite !elem_of_app, Hiff, elem_of_nil; tauto).
    destruct (decide (x ∈ elements l)); [rewrite decide_True|rewrite decide_False]; by rewrite ?Hdec.
Qed.

(** ** Destruction *)

Definition without (F : blocks) (l : list Z) : blocks := foldr delete F l.
Definition without_nodes (N : gmap Z node) (l : list Z) : gmap Z node := foldr delete N l.

Lemma Forall_in_impl {A} (P Q : A -> Prop) l : (forall x, x ∈ l -> P x -> Q x) -> Forall P l -> Forall Q l.
Proof. rewrite !Forall_forall. intros H HP x Hx. apply H; [done|by apply HP]. Qed.
Lemma without_snoc {A} (M : gmap Z A) l x : delete x (foldr delete M l) = foldr delete M (l ++ [x]).
Proof. rewrite foldr_app. cbn. induction l as [|y l IH]; [done|]. cbn. by rewrite delete_delete, IH. Qed.
Lemma without_lookup {A} (M : gmap Z A) l y : y ∉ l -> foldr delete M l !! y = M !! y.
Proof. induction l as [|x l IH]; [done|]. rewrite not_elem_of_cons. intros [? ?]. cbn. rewrite lookup_delete_ne by done. by apply IH. Qed.
Lemma without_app {A} (M : gmap Z A) l1 l2 : foldr delete (foldr delete M l1) l2 = foldr delete M (l2 ++ l1).
Proof. by rewrite foldr_app. Qed.
Lemma without_perm {A} (M : gmap Z A) l1 l2 : l1 ≡ₚ l2 -> foldr delete M l1 = foldr delete M l2.
Proof. induction 1; cbn; [done|by f_equal|apply delete_delete|congruence]. Qed.

Lemma Destroy_ok fuel s F N t :
  HN s F N -> rep N t -> balanced t -> NoDup (handles t) -> NoDup (elements t) -> Forall (fun x => is_Some (F !! x)) (elements t) -> height t < Z.of_nat fuel ->
  wp (TtreeNode_Destroy fuel (root t)) s (fun r s' => r = 0 /\ HN s' (without F (elements t)) (without_nodes N (handles t))).
Proof.
  revert s F N t; induction fuel as [|fuel IH]; intros s F N t HH Hrep Hb Hd He Hin Hf; [pose proof (height_nonneg t); lia|].
  destruct t as [|h l b its r]; [by apply wp_ret|]. pose proof Hrep as ([pad Hn] & Hl & Hr). destruct Hb as (Bl & Br & _ & _ & Hlen).
  cbn [TtreeNode_Destroy height] in *. rewrite (root_valid F s N _ HH Hrep ltac:(done)). cbn [negb root]. wsteps.
  pose proof Hd as [[Hhl Hhr]%not_elem_of_app (Hdl & Hdis & Hdr)%NoDup_app]%NoDup_cons. cbn [elements] in *.
  apply NoDup_app in He as (Hel & Hedis & (Hei & Hedir & Her)%NoDup_app). rewrite !Forall_app in Hin. destruct Hin as (Hinl & Hini & Hinr).
  apply (wp_items h (length its) _ (fun i _ s' => HN s' (without F (take i its)) N)); [lia|done|..].
  - intros i _ s' P _ HH' HP. by eapply wp_ushNItems.
  - intros i [] s' Hi HH'. destruct (lookup_lt_is_Some_2 its i Hi) as [z Hz]. apply wp_bind.
    eapply wp_ahItems; [exact HH'|exact Hn|lia|rewrite Nat2Z.id; by apply lookup_app_l_Some|]. apply wp_bind.
    destruct (HN_free_frame s' _ N z HH') as (s1 & E & HH1).
    { unfold without. rewrite without_lookup; [by eapply (Forall_lookup_1 _ _ _ _ Hini)|]. intros Hzi.
      rewrite <-(take_drop_middle its i z Hz) in Hei. apply NoDup_app in Hei as (_ & Hei & _). apply (Hei z Hzi). by left. }
    exists 0, s1. split; [exact E|]. apply wp_ret. cbn. unfold without in *. by rewrite (take_S_r _ _ z), <-without_snoc.
  - intros [] s1 HH1. rewrite take_ge in HH1 by lia. apply wp_bind.
    destruct (HN_free_node s1 _ N h HH1) as (s2 & E & HH2); [by eexists|]. exists 0, s2. split; [exact E|].
    apply wp_bind. eapply wp_mono; [eapply (IH s2 _ _ l HH2); try done|].
    + apply (rep_ext N); [done|]. intros y Hy. apply lookup_delete_ne. by intros ->.
    + eapply Forall_in_impl; [|exact Hinl]. intros y Hy Hs. unfold without. rewrite without_lookup; [done|].
      intros Hy'. apply (Hedis y Hy). set_solver.
    + lia.
    + intros r1 s3 [_ HH3]. unfold without, without_nodes in HH3. rewrite without_app in HH3. apply wp_bind. eapply wp_mono; [eapply (IH s3 _ _ r HH3); try done|].
      * apply (rep_ext N); [done|]. intros y Hy. rewrite without_lookup; [apply lookup_delete_ne; by intros ->|]. intros Hy'. by apply (Hdis y).
      * eapply Forall_in_impl; [|exact Hinr]. intros y Hy Hs. unfold without. rewrite without_lookup; [done|].
        intros [Hy'|Hy']%elem_of_app; [apply (Hedis y Hy'); set_solver|by apply (Hedir y)].
      * lia.
      * intros r2 s4 [_ HH4]. apply wp_ret. split; [done|]. unfold without, without_nodes in *.
        change (delete h N) with (foldr delete N [h]) in HH4. rewrite !without_app in HH4.
        rewrite (without_perm F _ (elements r ++ elements l ++ its)), (without_perm N _ ((handles r ++ handles l) ++ [h])); [done|..].
        -- cbn [handles]. rewrite (Permutation_app_comm (handles r)). by rewrite <-Permutation_cons_append.
        -- by rewrite app_assoc, (Permutation_app_comm (elements r)).
Qed.

(** The sizes of the blocks of the records and of the nodes are added up, modulo 2^32. *)
Lemma ask_for_destroy_size_ok fuel s F N t (sz : Z -> Z) :
  HN s F N -> rep N t -> balanced t -> Forall (fun h => block_size h s = Ok (sz h, s)) (handles t ++ elements t) -> height t < Z.of_nat fuel ->
  TtreeNode_ask_for_destroy_size fuel (root t) s = Ok (u32 (list_sum_Z (sz <$> handles t ++ elements t)), s).
Proof.
  intros HH Hrep Hb Hsz Hf. cut (wp (TtreeNode_ask_for_destroy_size fuel (root t)) s (fun r s' => s' = s /\ r = u32 (list_sum_Z (sz <$> handles t ++ elements t)))).
  { by intros (r & s' & E & -> & ->). }
  revert t Hrep Hb Hsz Hf; induction fuel as [|fuel IH]; intros t Hrep Hb Hsz Hf; [pose proof (height_nonneg t); lia|].
  destruct t as [|h l b its r]; [by apply wp_ret|]. pose proof Hrep as ([pad Hn] & Hl & Hr). destruct Hb as (Bl & Br & _ & _ & Hlen).
  cbn [TtreeNode_ask_for_destroy_size height elements handles app] in *. rewrite (root_valid F s N _ HH Hrep ltac:(done)). cbn [root]. wsteps.
  apply Forall_cons in Hsz as [Hh Hsz]. rewrite !Forall_app in Hsz. destruct Hsz as ((Hsl & Hsr) & Hel & Hei & Her).
  apply (wp_items h (length its) _ (fun i size s' => s' = s /\ size = u32 (list_sum_Z (sz <$> take i its)))); [lia|done|..].
  - intros i c s' P _ [-> _] HP. by eapply wp_ushNItems.
  - intros i c s' Hi [-> ->]. destruct (lookup_lt_is_Some_2 its i Hi) as [z Hz]. apply wp_bind.
    eapply wp_ahItems; [exact HH|exact Hn|lia|rewrite Nat2Z.id; by apply lookup_app_l_Some|]. apply wp_bind.
    eapply wp_eq; [by apply (Forall_lookup_1 _ _ _ _ Hei Hz)|]. apply wp_ret. cbn. split; [done|].
    rewrite (take_S_r _ _ z), fmap_app, list_sum_Z_app by done. cbn. unfold u32. by rewrite wrap_add_l, Z.add_0_r.
  - intros c s' [-> ->]. rewrite take_ge by lia. apply wp_bind. eapply wp_eq; [exact Hh|]. cbn [fst snd].
    apply wp_bind. eapply wp_mono; [apply IH; [done|done|by apply Forall_app|lia]|]. intros r1 s' [-> ->].
    apply wp_bind. eapply wp_mono; [apply IH; [done|done|by apply Forall_app|lia]|]. intros r2 s' [-> ->]. apply wp_ret. split; [done|].
    unfold u32. repeat rewrite ?wrap_add_l, ?wrap_add_r. rewrite Z.add_shuffle0, wrap_add_r, <-Z.add_assoc, wrap_add_l, !fmap_app. cbn [fmap list_fmap list_sum_Z]. rewrite !fmap_app, !list_sum_Z_app. f_equal. lia.
Qed.
End Loops.
