(* ===== verification/TTreeWalk.v ===== *)
(** The traversals of the T-tree of [TTree]: each calls its visitor on the records of the
    range, in its order, and stops at the first result that is not 0. *)
From Stdlib Require Import ZArith Lia.
From stdpp Require Import base sorting list numbers gmap.
From S2P Require Import Prelude Value PtMalloc PtSpec Mallocator TTree TTreePure TTreeRep TTreePage TTreeRot TTreeInsert TTreeDelete TTreeFind.
Import AllocSpec.
Local Open Scope Z_scope.

(** ** The records of a tree in an order *)

(** Pages after their subtrees: the left one first, or the right one, backwards. *)
Fixpoint post_up (t : tree) : list Z :=
  match t with Leaf => [] | Node _ l _ its r => post_up l ++ post_up r ++ its end.
Fixpoint post_down (t : tree) : list Z :=
  match t with Leaf => [] | Node _ l _ its r => post_down r ++ post_down l ++ rev its end.

Lemma elements_rev h l b its r : rev (elements (Node h l b its r)) = rev (elements r) ++ rev its ++ rev (elements l).
Proof. cbn [elements]. by rewrite !rev_app_distr, <-app_assoc. Qed.
Lemma post_up_perm t : post_up t ≡ₚ elements t.
Proof. induction t as [|h l IHl b its r IHr]; [done|]. cbn [post_up elements]. by rewrite IHl, IHr, (Permutation_app_comm (elements r)). Qed.
Lemma post_down_perm t : post_down t ≡ₚ elements t.
Proof.
  induction t as [|h l IHl b its r IHr]; [done|]. cbn [post_down elements]. rewrite IHl, IHr, <-(Permutation_rev its).
  by rewrite (Permutation_app_comm (elements r)), <-app_assoc.
Qed.

Lemma filter_none {A} (p : A -> bool) l : Forall (fun x => p x = false) l -> List.filter p l = [].
Proof. induction 1 as [|x l Hx _ IH]; [done|]. cbn. by rewrite Hx. Qed.
Lemma filter_every {A} (p : A -> bool) l : (forall x, p x = true) -> List.filter p l = l.
Proof. intros H. induction l as [|x l IH]; [done|]. cbn. by rewrite H, IH. Qed.
Lemma filter_perm_none {A} (p : A -> bool) l l' : l' ≡ₚ l -> Forall (fun x => p x = false) l -> List.filter p l' = [].
Proof. intros P H. apply filter_none. by rewrite P. Qed.

(** ** Visitors *)

Section Walk.
Context {S : Type} `{!Mallocator S, !MallocatorLaws S} (cookie : CmpCookie) (pfComp : KeyComparator (S := S)) `{!KeyOrder cookie pfComp}.
Context {C : Type} (pfVisit : ItemVisit (S := S) C) (vis : Z -> C -> Z * C).
Context (s : S) (F : blocks) (N : gmap Z node).
Hypothesis HH : HN s F N.
(** The visitor reads the record the item refers to, and changes only its cookie. *)
Hypothesis visit_law : forall a x c, is_rec cookie pfComp F x -> mread 8 a s = Ok (x, s) -> pfVisit a c s = Ok (vis x c, s).

Abbreviation key := (key_at cookie pfComp F).
Abbreviation wf := (wf cookie pfComp F).
Abbreviation rec_ok := (is_rec cookie pfComp F).

(** The visitor on a list of records, until it returns something other than 0. *)
Fixpoint visit_all (l : list Z) (c : C) : Z * C :=
  match l with
  | [] => (0, c)
  | x :: l => let rc := vis x c in if rc.1 =? 0 then visit_all l rc.2 else rc
  end.

(** The computation [m] visits the records [l]. *)
Definition walks (m : C -> ST S (Z * C)) (l : list Z) : Prop := forall c, m c s = Ok (visit_all l c, s).

Lemma visit_all_app l1 l2 c : visit_all (l1 ++ l2) c = let rc := visit_all l1 c in if rc.1 =? 0 then visit_all l2 rc.2 else rc.
Proof. revert c; induction l1 as [|x l1 IH]; intros c; [done|]. cbn. destruct ((vis x c).1 =? 0) eqn:E; [apply IH|]. by rewrite E. Qed.

Lemma walks_nil : walks (fun c => mret (0, c)) [].
Proof. done. Qed.
Lemma walks_then m k l1 l2 : walks m l1 -> walks k l2 -> walks (fun c => then_ (m c) k) (l1 ++ l2).
Proof.
  intros Hm Hk c. unfold then_. rewrite (bind_ok _ _ _ _ _ (Hm c)), visit_all_app. cbn. destruct (_ =? 0); cbn [negb]; [apply Hk|done].
Qed.
Lemma walks_read {B} (m : ST S B) v (f : B -> C -> ST S (Z * C)) l : m s = Ok (v, s) -> walks (f v) l -> walks (fun c => x ← m; f x c) l.
Proof. intros E H c. rewrite (bind_ok _ _ _ _ _ E). apply H. Qed.
(** A part that may be left out because it has nothing to visit. *)
Lemma walks_if (b : bool) m l : (b = true -> walks m l) -> (b = false -> l = []) -> walks (fun c => if b then m c else mret (0, c)) l.
Proof. destruct b; intros H1 H2; [by apply H1|by rewrite H2]. Qed.
Lemma walks_subtree t rec l : rep N t -> (t <> Leaf -> walks (rec (root t)) l) -> (t = Leaf -> l = []) -> walks (subtree (root t) rec) l.
Proof.
  intros Hr H1 H2 c. unfold subtree. rewrite (rep_root_eqb s F N t HH Hr). destruct t; cbn [negb]; [by rewrite H2|by apply H1].
Qed.
Lemma walks_subtree_if t diff d test rec l :
  rep N t -> diff s = Ok (d, s) -> (t <> Leaf -> test d = true -> walks (rec (root t)) l) -> (t = Leaf -> l = []) -> (test d = false -> l = []) ->
  walks (subtree_if (root t) diff test rec) l.
Proof.
  intros Hr Hd H1 H2 H3 c. unfold subtree_if. rewrite (rep_root_eqb s F N t HH Hr). destruct t; cbn [negb]; [by rewrite H2|].
  rewrite (bind_ok _ _ _ _ _ Hd). destruct (test d) eqn:E; [by apply H1|by rewrite H3].
Qed.

(** ** The page of a node *)

Section Page.
Context (h l r b : Z) (its pad : list Z).
Hypothesis Hn : N !! h = Some (mkNode l r b (Z.of_nat (length its)) (its ++ pad)).
Hypothesis Hrec : Forall rec_ok its.

Lemma read_hLeft : hLeft_of h s = Ok (l, s).
Proof. by destruct (wp_hLeft s F N h _ _ _ _ _ HH Hn (fun v s' => v = l /\ s' = s)) as (? & ? & ? & -> & ->). Qed.
Lemma read_hRight : hRight_of h s = Ok (r, s).
Proof. by destruct (wp_hRight s F N h _ _ _ _ _ HH Hn (fun v s' => v = r /\ s' = s)) as (? & ? & ? & -> & ->). Qed.
Lemma read_count : ushNItems_of h s = Ok (Z.of_nat (length its), s).
Proof. by destruct (wp_ushNItems s F N h _ _ _ _ _ HH Hn (fun v s' => v = Z.of_nat (length its) /\ s' = s)) as (? & ? & ? & -> & ->). Qed.
Lemma read_item i x : its !! i = Some x -> mread 8 (item_addr h (Z.of_nat i)) s = Ok (x, s).
Proof. intros Hx. eapply item_read; [exact HH|exact Hn|lia|]. rewrite Nat2Z.id. by apply lookup_app_l_Some. Qed.

Lemma visit_item i x c : its !! i = Some x -> visit pfVisit h (Z.of_nat i) c s = Ok (vis x c, s).
Proof. intros Hx. apply visit_law; [by eapply (Forall_lookup_1 _ _ _ _ Hrec)|by apply read_item]. Qed.

(** Comparisons with the items. *)
Lemma read_diff k i x : valid k -> its !! i = Some x -> exists d, item_diff cookie pfComp k h (Z.of_nat i) s = Ok (d, s) /\ Z.sgn d = cmp_sign (ord k (key x)).
Proof.
  intros Hk Hx. destruct (wp_iDiff cookie pfComp s F N x k (fun d s' => s' = s /\ Z.sgn d = cmp_sign (ord k (key x))) HH) as (d & ? & E & -> & Hd);
    [by eapply (Forall_lookup_1 _ _ _ _ Hrec)|done|done|]. exists d. split; [|done]. unfold item_diff, ahItems_of. by rewrite (bind_ok _ _ _ _ _ (read_item i x Hx)).
Qed.
Hypothesis Hlen : (1 <= length its <= 20)%nat.

(** The loops, over the items [p] selects. *)
Definition selects (p : Z -> bool) (body : Z -> C -> ST S (Z * C)) : Prop :=
  forall i x c, its !! i = Some x -> body (Z.of_nat i) c s = Ok (if p x then vis x c else (0, c), s).

Lemma select_step (p : Z -> bool) x l' c : visit_all (List.filter p (x :: l')) c =
  let rc := if p x then vis x c else (0, c) in if rc.1 =? 0 then visit_all (List.filter p l') rc.2 else rc.
Proof. cbn. by destruct (p x). Qed.

Lemma walks_up p body : selects p body -> walks (visit_up h body) (List.filter p its).
Proof.
  intros Hb. unfold visit_up. assert (Hgo : forall fuel i, (length its - i < fuel)%nat -> (i <= length its)%nat ->
    walks (for_up fuel h (Z.of_nat i) body) (List.filter p (drop i its))).
  { induction fuel as [|fuel IH]; intros i Hf Hi c; [lia|]. cbn [for_up]. rewrite (bind_ok _ _ _ _ _ read_count).
    destruct (Z.ltb_spec (Z.of_nat i) (Z.of_nat (length its))) as [Hlt|Hge].
    - destruct (lookup_lt_is_Some_2 its i) as [x Hx]; [lia|]. rewrite (bind_ok _ _ _ _ _ (Hb i x c Hx)).
      rewrite (drop_S _ x), select_step by done. cbv zeta. destruct (_ =? 0); cbn [negb]; [|done].
      replace (Z.of_nat i + 1) with (Z.of_nat (Datatypes.S i)) by lia. apply IH; lia.
    - by rewrite drop_ge by lia. }
  apply (Hgo PAGE_FUEL 0%nat); [unfold PAGE_FUEL; lia|lia].
Qed.

Lemma walks_down p body : selects p body -> walks (visit_down h body) (List.filter p (rev its)).
Proof.
  intros Hb. unfold visit_down. eapply walks_read; [apply read_count|]. rewrite Nat2Z.id.
  assert (Hgo : forall k, (k <= length its)%nat -> walks (for_down k body) (List.filter p (rev (take k its)))).
  { induction k as [|k IH]; intros Hk c; [done|]. destruct (lookup_lt_is_Some_2 its k) as [x Hx]; [lia|]. cbn [for_down].
    rewrite (bind_ok _ _ _ _ _ (Hb k x c Hx)), (take_S_r _ _ x), rev_app_distr by done. change (rev [x] ++ ?q) with (x :: q).
    rewrite select_step. cbv zeta. destruct (_ =? 0); cbn [negb]; [apply IH; lia|done]. }
  pose proof (Hgo (length its) ltac:(lia)) as Hall. by rewrite take_ge in Hall by lia.
Qed.

Lemma read_last k x : valid k -> its !! (length its - 1)%nat = Some x -> exists d, last_diff cookie pfComp k h s = Ok (d, s) /\ Z.sgn d = cmp_sign (ord k (key x)).
Proof.
  intros Hk Hx. destruct (read_diff k _ x Hk Hx) as (d & E & Hd). exists d. split; [|done]. unfold last_diff. rewrite (bind_ok _ _ _ _ _ read_count).
  by replace (Z.of_nat (length its) - 1) with (Z.of_nat (length its - 1)) by lia.
Qed.
End Page.

(** ** The selections *)

Definition at_least (k : DTCValue) (x : Z) : bool := match ord k (key x) with Gt => false | _ => true end.
Definition at_most (k : DTCValue) (x : Z) : bool := match ord k (key x) with Lt => false | _ => true end.
Definition between (k k1 : DTCValue) (x : Z) : bool := at_least k x && at_most k1 x.

Lemma sgn_least k x d : Z.sgn d = cmp_sign (ord k (key x)) -> (d <=? 0) = at_least k x.
Proof. unfold at_least. destruct (ord k (key x)); cbn [cmp_sign]; intros H; destruct (Z.leb_spec d 0); done || lia. Qed.
Lemma sgn_most k x d : Z.sgn d = cmp_sign (ord k (key x)) -> (0 <=? d) = at_most k x.
Proof. unfold at_most. destruct (ord k (key x)); cbn [cmp_sign]; intros H; destruct (Z.leb_spec 0 d); done || lia. Qed.

Lemma none_below k l : Forall (below ord key k) l -> Forall (fun x => at_least k x = false) l.
Proof. intros H. eapply Forall_impl; [exact H|]. intros x Hx. unfold at_least. by rewrite Hx. Qed.
Lemma none_above k l : Forall (above ord key k) l -> Forall (fun x => at_most k x = false) l.
Proof. intros H. eapply Forall_impl; [exact H|]. intros x Hx. unfold at_most. by rewrite Hx. Qed.
Lemma none_between_below k k1 l : Forall (below ord key k) l -> Forall (fun x => between k k1 x = false) l.
Proof. intros H%none_below. eapply Forall_impl; [exact H|]. intros x Hx. unfold between. cbn in Hx. by rewrite Hx. Qed.
Lemma none_between_above k k1 l : Forall (above ord key k1) l -> Forall (fun x => between k k1 x = false) l.
Proof. intros H%none_above. eapply Forall_impl; [exact H|]. intros x Hx. unfold between. cbn in Hx. by rewrite Hx, andb_false_r. Qed.

Section Bodies.
Context (h l r b : Z) (its pad : list Z).
Hypothesis Hn : N !! h = Some (mkNode l r b (Z.of_nat (length its)) (its ++ pad)).
Hypothesis Hrec : Forall rec_ok its.

Lemma selects_all : selects its (fun _ => true) (visit pfVisit h).
Proof. intros i x c Hx. exact (visit_item h l r b its pad Hn Hrec i x c Hx). Qed.
Lemma selects_ge k : valid k -> selects its (at_least k) (visit_ge cookie pfComp pfVisit k h).
Proof.
  intros Hk i x c Hx. destruct (read_diff h l r b its pad Hn Hrec k i x Hk Hx) as (d & E & Hd). unfold visit_ge.
  rewrite (bind_ok _ _ _ _ _ E), (sgn_least k x d Hd). destruct (at_least k x); [exact (visit_item h l r b its pad Hn Hrec i x c Hx)|done].
Qed.
Lemma selects_le k : valid k -> selects its (at_most k) (visit_le cookie pfComp pfVisit k h).
Proof.
  intros Hk i x c Hx. destruct (read_diff h l r b its pad Hn Hrec k i x Hk Hx) as (d & E & Hd). unfold visit_le.
  rewrite (bind_ok _ _ _ _ _ E), (sgn_most k x d Hd). destruct (at_most k x); [exact (visit_item h l r b its pad Hn Hrec i x c Hx)|done].
Qed.
Lemma selects_range k k1 : valid k -> valid k1 -> selects its (between k k1) (visit_range cookie pfComp pfVisit k k1 h).
Proof.
  intros Hk Hk1 i x c Hx. destruct (read_diff h l r b its pad Hn Hrec k i x Hk Hx) as (d & E & Hd).
  destruct (read_diff h l r b its pad Hn Hrec k1 i x Hk1 Hx) as (d1 & E1 & Hd1). unfold visit_range, between.
  rewrite (bind_ok _ _ _ _ _ E), (sgn_least k x d Hd). destruct (at_least k x); [|done].
  rewrite (bind_ok _ _ _ _ _ E1), (sgn_most k1 x d1 Hd1). destruct (at_most k1 x); [exact (visit_item h l r b its pad Hn Hrec i x c Hx)|done].
Qed.
End Bodies.

(** ** The nodes on the way *)

(** What the traversals read at a node, and where a key lies there. *)
Record at_node (h : Z) (l : tree) (b : Z) (its : list Z) (r : tree) (pad : list Z) : Prop := {
  an_node : N !! h = Some (mkNode (root l) (root r) b (Z.of_nat (length its)) (its ++ pad));
  an_recs : Forall rec_ok its;
  an_len : (1 <= length its <= 20)%nat;
  an_left : rep N l;
  an_right : rep N r;
  an_first k : valid k -> exists d, item_diff cookie pfComp k h 0 s = Ok (d, s) /\
    (0 <= d -> Forall (below ord key k) (elements l)) /\ (d < 0 -> Forall (above ord key k) (its ++ elements r));
  an_last k : valid k -> exists d, last_diff cookie pfComp k h s = Ok (d, s) /\
    (d <= 0 -> Forall (above ord key k) (elements r)) /\ (0 < d -> Forall (below ord key k) (elements l ++ its))
}.

Lemma node_at_hand h l b its r : rep N (Node h l b its r) -> wf (Node h l b its r) -> exists pad, at_node h l b its r pad.
Proof.
  intros ([pad Hn] & Hl & Hr) Hwf. destruct (wf_page _ _ _ _ _ _ _ _ Hwf) as (_ & Hrec & Hlen). exists pad.
  destruct (lookup_lt_is_Some_2 its 0) as [y0 H0]; [lia|]. destruct (lookup_lt_is_Some_2 its (length its - 1)) as [yl Hyl]; [lia|]. split; try done.
  - intros k Hk. destruct (read_diff h _ _ b its pad Hn Hrec k 0 y0 Hk H0) as (d & E & Hd). exists d. split; [done|].
    destruct (node_orders cookie pfComp F k h l b its r y0 yl Hwf H0 Hyl) as (A & _ & B & _). split; intros H.
    + apply B. intros E'. rewrite E' in Hd. cbn in Hd. lia.
    + apply A. destruct (ord k (key y0)); cbn [cmp_sign] in Hd; done || lia.
  - intros k Hk. destruct (read_last h _ _ b its pad Hn Hrec Hlen k yl Hk Hyl) as (d & E & Hd). exists d. split; [done|].
    destruct (node_orders cookie pfComp F k h l b its r y0 yl Hwf H0 Hyl) as (_ & A & _ & B). split; intros H.
    + apply B. intros E'. rewrite E' in Hd. cbn in Hd. lia.
    + apply A. destruct (ord k (key yl)); cbn [cmp_sign] in Hd; done || lia.
Qed.

(** The page that may overlap a range. *)
Lemma walks_page_range h l b its r pad k k1 loop L :
  at_node h l b its r pad -> valid k -> valid k1 -> L ≡ₚ its -> walks loop (List.filter (between k k1) L) ->
  walks (page_range cookie pfComp k k1 h loop) (List.filter (between k k1) L).
Proof.
  intros Ha Hk Hk1 P Hw. destruct (an_last _ _ _ _ _ _ Ha k Hk) as (d & E & _ & B). destruct (an_first _ _ _ _ _ _ Ha k1 Hk1) as (d1 & E1 & _ & A).
  unfold page_range. eapply walks_read; [exact E|]. eapply walks_read; [exact E1|].
  destruct (Z.ltb_spec d1 0) as [H1|H1]; [|destruct (Z.ltb_spec 0 d) as [H2|H2]; [|done]]; cbn [orb].
  - rewrite (filter_perm_none _ its); [done|done|]. apply none_between_above. by apply A, Forall_app in H1 as [? _].
  - rewrite (filter_perm_none _ its); [done|done|]. apply none_between_below. by apply B, Forall_app in H2 as [_ ?].
Qed.

(** ** The traversals *)

(** A subtree is traversed: the induction hypothesis, or there is nothing in it. *)
Ltac sub IH := apply walks_subtree; [eassumption|intros ?; apply IH; first [done|lia|by eapply wf_left|by eapply wf_right]|by intros ->].
Ltac sub_if E IH := eapply walks_subtree_if; [eassumption|exact E|intros ??; apply IH; first [done|lia|by eapply wf_left|by eapply wf_right]|by intros ->|].
(** A node on the way, by induction on the fuel. *)
Ltac open_node h l b its r :=
  let Ha := fresh "Ha" in
  pose proof (height_nonneg l); lazymatch goal with Hr : rep N (Node h l b its r), Hw : wf (Node h l b its r) |- _ =>
    destruct (node_at_hand h l b its r Hr Hw) as [pad Ha] end;
  pose proof Ha as [Hn Hrec Hlen Hl Hr Hfst Hlst].
Tactic Notation "walk" ident(fuel) ident(t) ident(IH) :=
  revert t; induction fuel as [|fuel IH]; intros t Hrep Hwf Ht Hf; (destruct t as [|h l b its r]; [done|]); cbn [height] in Hf;
    [pose proof (height_nonneg l); lia|]; open_node h l b its r.

Lemma traverse_forward_ok fuel t : rep N t -> wf t -> t <> Leaf -> height t <= Z.of_nat fuel ->
  walks (TtreeNode_traverse_forward pfVisit fuel (root t)) (elements t).
Proof.
  walk fuel t IH. cbn [TtreeNode_traverse_forward elements root].
  eapply walks_read; [by eapply read_hLeft|]. apply walks_then; [sub IH|]. apply walks_then.
  - rewrite <-(filter_every (fun _ => true) its) by done. eapply walks_up; [done|done|]. by eapply selects_all.
  - eapply walks_read; [by eapply read_hRight|]. sub IH.
Qed.

Lemma traverse_backward_ok fuel t : rep N t -> wf t -> t <> Leaf -> height t <= Z.of_nat fuel ->
  walks (TtreeNode_traverse_backward pfVisit fuel (root t)) (rev (elements t)).
Proof.
  walk fuel t IH. cbn [TtreeNode_traverse_backward root]. rewrite elements_rev.
  eapply walks_read; [by eapply read_hRight|]. apply walks_then; [sub IH|]. apply walks_then.
  - rewrite <-(filter_every (fun _ => true) (rev its)) by done. eapply walks_down; [done|done|]. by eapply selects_all.
  - eapply walks_read; [by eapply read_hLeft|]. sub IH.
Qed.

Lemma post_order_ok fuel t : rep N t -> wf t -> t <> Leaf -> height t <= Z.of_nat fuel ->
  walks (TtreeNode_post_order_traverse pfVisit fuel (root t)) (post_down t).
Proof.
  walk fuel t IH. cbn [TtreeNode_post_order_traverse post_down root].
  eapply walks_read; [by eapply read_hRight|]. apply walks_then; [sub IH|].
  eapply walks_read; [by eapply read_hLeft|]. apply walks_then; [sub IH|].
  rewrite <-(filter_every (fun _ => true) (rev its)) by done. eapply walks_down; [done|done|]. by eapply selects_all.
Qed.

Section Keyed.
Context (k : DTCValue) (Hk : valid k).

Lemma traverse_forward_ge_ok fuel t : rep N t -> wf t -> t <> Leaf -> height t <= Z.of_nat fuel ->
  walks (fun c => TtreeNode_traverse_forward_ge cookie pfComp pfVisit fuel (root t) k c) (List.filter (at_least k) (elements t)).
Proof.
  walk fuel t IH. destruct (Hfst k Hk) as (d & E & A & _). destruct (Hlst k Hk) as (d1 & E1 & _ & B).
  cbn [TtreeNode_traverse_forward_ge elements root]. rewrite !List.filter_app.
  eapply walks_read; [by eapply read_hLeft|]. apply walks_then.
  - sub_if E IH. intros Hd. apply filter_none, none_below, A. by apply Z.ltb_ge.
  - eapply walks_read; [exact E1|]. apply walks_then.
    + apply walks_if; intros Hd; [eapply walks_up; [done|done|]; by eapply selects_ge|]. apply filter_none, none_below.
      apply Z.leb_gt in Hd. by apply B, Forall_app in Hd as [_ ?].
    + eapply walks_read; [by eapply read_hRight|]. sub IH.
Qed.

Lemma traverse_backward_le_ok fuel t : rep N t -> wf t -> t <> Leaf -> height t <= Z.of_nat fuel ->
  walks (fun c => TtreeNode_traverse_backward_le cookie pfComp pfVisit fuel (root t) k c) (List.filter (at_most k) (rev (elements t))).
Proof.
  walk fuel t IH. destruct (Hfst k Hk) as (d & E & _ & A). destruct (Hlst k Hk) as (d1 & E1 & B & _).
  cbn [TtreeNode_traverse_backward_le root]. rewrite elements_rev, !List.filter_app.
  eapply walks_read; [by eapply read_hRight|]. apply walks_then.
  - sub_if E1 IH. intros Hd. eapply filter_perm_none; [symmetry; apply Permutation_rev|]. apply none_above, B. by apply Z.ltb_ge.
  - eapply walks_read; [exact E|]. apply walks_then.
    + apply walks_if; intros Hd; [eapply walks_down; [done|done|]; by eapply selects_le|]. eapply filter_perm_none; [symmetry; apply Permutation_rev|].
      apply none_above. apply Z.leb_gt in Hd. by apply A, Forall_app in Hd as [? _].
    + eapply walks_read; [by eapply read_hLeft|]. sub IH.
Qed.

Lemma post_order_ge_ok fuel t : rep N t -> wf t -> t <> Leaf -> height t <= Z.of_nat fuel ->
  walks (fun c => TtreeNode_post_order_traverse_ge cookie pfComp pfVisit fuel (root t) k c) (List.filter (at_least k) (post_up t)).
Proof.
  walk fuel t IH. destruct (Hfst k Hk) as (d & E & A & _). destruct (Hlst k Hk) as (d1 & E1 & _ & B).
  cbn [TtreeNode_post_order_traverse_ge post_up root]. rewrite !List.filter_app.
  eapply walks_read; [by eapply read_hLeft|]. apply walks_then.
  - sub_if E IH. intros Hd. eapply filter_perm_none; [apply post_up_perm|]. apply none_below, A. by apply Z.ltb_ge.
  - eapply walks_read; [by eapply read_hRight|]. apply walks_then; [sub IH|].
    eapply walks_read; [exact E1|]. apply walks_if; intros Hd; [eapply walks_up; [done|done|]; by eapply selects_ge|]. apply filter_none, none_below.
    apply Z.leb_gt in Hd. by apply B, Forall_app in Hd as [_ ?].
Qed.

Lemma post_order_le_ok fuel t : rep N t -> wf t -> t <> Leaf -> height t <= Z.of_nat fuel ->
  walks (fun c => TtreeNode_post_order_traverse_le cookie pfComp pfVisit fuel (root t) k c) (List.filter (at_most k) (post_down t)).
Proof.
  walk fuel t IH. destruct (Hfst k Hk) as (d & E & _ & A). destruct (Hlst k Hk) as (d1 & E1 & B & _).
  cbn [TtreeNode_post_order_traverse_le post_down root]. rewrite !List.filter_app.
  eapply walks_read; [by eapply read_hRight|]. apply walks_then.
  - sub_if E1 IH. intros Hd. eapply filter_perm_none; [apply post_down_perm|]. apply none_above, B. by apply Z.ltb_ge.
  - eapply walks_read; [by eapply read_hLeft|]. apply walks_then; [sub IH|].
    eapply walks_read; [exact E|]. apply walks_if; intros Hd; [eapply walks_down; [done|done|]; by eapply selects_le|].
    eapply filter_perm_none; [symmetry; apply Permutation_rev|]. apply none_above. apply Z.leb_gt in Hd. by apply A, Forall_app in Hd as [? _].
Qed.

Context (k1 : DTCValue) (Hk1 : valid k1).

Lemma traverse_forward_range_ok fuel t : rep N t -> wf t -> t <> Leaf -> height t <= Z.of_nat fuel ->
  walks (fun c => TtreeNode_traverse_forward_range cookie pfComp pfVisit fuel (root t) k k1 c) (List.filter (between k k1) (elements t)).
Proof.
  walk fuel t IH. destruct (Hfst k Hk) as (d & E & A & _). destruct (Hlst k1 Hk1) as (d1 & E1 & B & _).
  cbn [TtreeNode_traverse_forward_range elements root]. rewrite !List.filter_app.
  eapply walks_read; [by eapply read_hLeft|]. apply walks_then.
  - sub_if E IH. intros Hd. apply filter_none, none_between_below, A. by apply Z.ltb_ge.
  - apply walks_then.
    + eapply walks_page_range; [done..|]. eapply walks_up; [done|done|]. by eapply selects_range.
    + eapply walks_read; [exact E1|]. eapply walks_read; [by eapply read_hRight|].
      apply walks_if; intros Hd; [sub IH|]. apply filter_none, none_between_above, B. apply Z.leb_gt in Hd. lia.
Qed.

Lemma traverse_backward_range_ok fuel t : rep N t -> wf t -> t <> Leaf -> height t <= Z.of_nat fuel ->
  walks (fun c => TtreeNode_traverse_backward_range cookie pfComp pfVisit fuel (root t) k k1 c) (List.filter (between k k1) (rev (elements t))).
Proof.
  walk fuel t IH. destruct (Hfst k Hk) as (d & E & A & _). destruct (Hlst k1 Hk1) as (d1 & E1 & B & _).
  cbn [TtreeNode_traverse_backward_range root]. rewrite elements_rev, !List.filter_app.
  eapply walks_read; [by eapply read_hRight|]. apply walks_then.
  - sub_if E1 IH. intros Hd. eapply filter_perm_none; [symmetry; apply Permutation_rev|]. apply none_between_above, B. by apply Z.ltb_ge.
  - apply walks_then.
    + eapply walks_page_range; [done..|symmetry; apply Permutation_rev|]. eapply walks_down; [done|done|]. by eapply selects_range.
    + eapply walks_read; [exact E|]. eapply walks_read; [by eapply read_hLeft|].
      apply walks_if; intros Hd; [sub IH|]. eapply filter_perm_none; [symmetry; apply Permutation_rev|]. apply none_between_below, A.
      apply Z.leb_gt in Hd. lia.
Qed.

Lemma post_order_range_ok fuel t : rep N t -> wf t -> t <> Leaf -> height t <= Z.of_nat fuel ->
  walks (fun c => TtreeNode_post_order_traverse_range cookie pfComp pfVisit fuel (root t) k k1 c) (List.filter (between k k1) (post_up t)).
Proof.
  walk fuel t IH. destruct (Hfst k Hk) as (d & E & A & _). destruct (Hlst k1 Hk1) as (d1 & E1 & B & _).
  cbn [TtreeNode_post_order_traverse_range post_up root]. rewrite !List.filter_app.
  eapply walks_read; [by eapply read_hLeft|]. apply walks_then.
  - sub_if E IH. intros Hd. eapply filter_perm_none; [apply post_up_perm|]. apply none_between_below, A. by apply Z.ltb_ge.
  - eapply walks_read; [exact E1|]. eapply walks_read; [by eapply read_hRight|]. apply walks_then.
    + apply walks_if; intros Hd; [sub IH|]. eapply filter_perm_none; [apply post_up_perm|]. apply none_between_above, B. apply Z.leb_gt in Hd. lia.
    + eapply walks_page_range; [done..|]. eapply walks_up; [done|done|]. by eapply selects_range.
Qed.
End Keyed.

(** ** The records at most a distance above a key

    The comparator's result falls along the order of the keys. *)

Section Near.
Context (k : DTCValue) (Hk : valid k) (iInclusion : Z) (dif : Z -> Z).
Hypothesis dif_law : forall x, rec_ok x -> iDiff cookie pfComp k x s = Ok (dif x, s).
Hypothesis dif_mono : forall x y, rec_ok x -> rec_ok y -> lt_rec ord key x y -> dif y < dif x.

Definition near (x : Z) : bool := (dif x <=? 0) && (s32 (0 - iInclusion) <=? dif x).

Lemma near_far l : Forall (fun x => 0 < dif x \/ dif x < s32 (0 - iInclusion)) l -> List.filter near l = [].
Proof.
  intros H. apply filter_none. eapply Forall_impl; [exact H|]. intros x Hx. unfold near. cbn in Hx.
  destruct (Z.leb_spec (dif x) 0), (Z.leb_spec (s32 (0 - iInclusion)) (dif x)); done || lia.
Qed.

Lemma read_dif h l r b its pad i x : N !! h = Some (mkNode l r b (Z.of_nat (length its)) (its ++ pad)) -> Forall rec_ok its -> its !! i = Some x ->
  item_diff cookie pfComp k h (Z.of_nat i) s = Ok (dif x, s).
Proof.
  intros Hn Hrec Hx. unfold item_diff, ahItems_of. rewrite (bind_ok _ _ _ _ _ (read_item h l r b its pad Hn i x Hx)).
  apply dif_law. by eapply Forall_lookup_1.
Qed.

Lemma dif_sorted l1 x l2 : StronglySorted (lt_rec ord key) (l1 ++ x :: l2) -> Forall rec_ok (l1 ++ x :: l2) ->
  Forall (fun y => dif x < dif y) l1 /\ Forall (fun y => dif y < dif x) l2.
Proof.
  intros (_ & [_ H2]%StronglySorted_inv & H1)%sorted_app [Hr1 [Hx Hr2]%Forall_cons]%Forall_app. rewrite !Forall_forall in *. split; intros y Hy.
  - apply dif_mono; [by apply Hr1|done|]. apply H1; [done|by left].
  - apply dif_mono; [done|by apply Hr2|by apply H2].
Qed.

Lemma incl_loop_ok h l r b its pad : N !! h = Some (mkNode l r b (Z.of_nat (length its)) (its ++ pad)) -> Forall rec_ok its ->
  StronglySorted (lt_rec ord key) its -> forall fuel i c, (length its - i < fuel)%nat -> (i <= length its)%nat ->
  exists j, incl_loop cookie pfComp pfVisit fuel k (iInclusion) h (Z.of_nat i) c s = Ok (visit_all (List.filter near (drop i its)) c, Z.of_nat j, s) /\
    ((visit_all (List.filter near (drop i its)) c).1 = 0 -> j = length its \/ exists x, its !! j = Some x /\ dif x < s32 (0 - iInclusion)).
Proof.
  intros Hn Hrec Hs. induction fuel as [|fuel IH]; intros i c Hf Hi; [lia|]. cbn [incl_loop]. rewrite (bind_ok _ _ _ _ _ (read_count h l r b its pad Hn)).
  destruct (Z.ltb_spec (Z.of_nat i) (Z.of_nat (length its))) as [Hlt|Hge]; [|rewrite drop_ge by lia; exists i; split; [done|left; lia]].
  destruct (lookup_lt_is_Some_2 its i) as [x Hx]; [lia|]. rewrite (bind_ok _ _ _ _ _ (read_dif h l r b its pad i x Hn Hrec Hx)).
  replace (Z.of_nat i + 1) with (Z.of_nat (Datatypes.S i)) by lia. rewrite (drop_S _ x) by done. rewrite select_step. cbv zeta.
  change ((dif x <=? 0) && (s32 (0 - iInclusion) <=? dif x)) with (near x). destruct (near x) eqn:En.
  - rewrite (bind_ok _ _ _ _ _ (visit_item h l r b its pad Hn Hrec i x c Hx)). destruct (_ =? 0) eqn:E0; cbn [negb].
    + apply IH; lia.
    + exists i. split; [done|]. intros E. rewrite E in E0. done.
  - cbn [fst snd]. change (0 =? 0) with true. cbv iota. destruct (Z.ltb_spec (dif x) (s32 (0 - iInclusion))) as [Hfar|Hnf].
    + exists i. rewrite near_far; [split; [done|right; by exists x]|].
      rewrite <-(take_drop_middle its i x Hx) in Hs, Hrec. destruct (dif_sorted _ _ _ Hs Hrec) as [_ H2]. eapply Forall_impl; [exact H2|]. cbn. intros y Hy. lia.
    + apply IH; lia.
Qed.

Lemma traverse_forward_incl_ok fuel t : rep N t -> wf t -> t <> Leaf -> height t <= Z.of_nat fuel ->
  walks (fun c => TtreeNode_traverse_forward_incl cookie pfComp pfVisit fuel (root t) k iInclusion c) (List.filter near (elements t)).
Proof.
  walk fuel t IH. cbn [TtreeNode_traverse_forward_incl elements root]. rewrite !List.filter_app.
  pose proof (wf_sorted _ _ _ _ Hwf) as Hs. pose proof (wf_recs _ _ _ _ Hwf) as Hr3. cbn [elements] in Hs, Hr3. destruct (wf_page _ _ _ _ _ _ _ _ Hwf) as (Hsi & _ & _).
  destruct (lookup_lt_is_Some_2 its 0) as [y0 H0]; [lia|]. destruct (lookup_lt_is_Some_2 its (length its - 1)) as [yl Hyl]; [lia|].
  pose proof (read_dif h _ _ b its pad _ _ Hn Hrec H0) as E0. pose proof (read_dif h _ _ b its pad _ _ Hn Hrec Hyl) as El.
  eapply walks_read; [by eapply read_hLeft|]. apply walks_then.
  - sub_if E0 IH. intros Hd%Z.ltb_ge. destruct its as [|y its]; [done|]. injection H0 as ->.
    apply near_far. destruct (dif_sorted _ _ _ Hs Hr3) as [H1 _]. eapply Forall_impl; [exact H1|]. cbn. intros y Hy. lia.
  - eapply walks_read; [by eapply read_count|]. replace (Z.of_nat (length its) - 1) with (Z.of_nat (length its - 1)) by lia.
    eapply walks_read; [exact El|]. intros c. destruct (Z.leb_spec (dif yl) 0) as [Hd|Hd].
    + destruct (incl_loop_ok h _ _ b its pad Hn Hrec Hsi PAGE_FUEL 0 c) as (j & E & Hj); [unfold PAGE_FUEL; lia|lia|].
      rewrite drop_0 in E, Hj. change (Z.of_nat 0) with 0 in E. rewrite (bind_ok _ _ _ _ _ E). cbn [fst snd]. rewrite visit_all_app. cbv zeta. destruct (_ =? 0) eqn:Ez; cbn [negb]; [|done].
      rewrite (bind_ok _ _ _ _ _ (read_hRight h _ _ b its pad Hn)). destruct (Z.leb_spec (Z.of_nat (length its)) (Z.of_nat j)) as [Hge|Hlt].
      * match goal with |- _ = Ok (visit_all _ ?c', _) => generalize c' end. change (walks (subtree (root r) (fun h0 c0 => TtreeNode_traverse_forward_incl cookie pfComp pfVisit fuel h0 k iInclusion c0)) (List.filter near (elements r))). sub IH.
      * destruct (Hj ltac:(by apply Z.eqb_eq)) as [->|(x & Hx & Hfar)]; [lia|]. rewrite (near_far (elements r)); [done|].
        rewrite <-(take_drop_middle its j x Hx) in Hs, Hr3. rewrite <-app_assoc, (app_assoc (elements l)) in Hs, Hr3. cbn [app] in Hs, Hr3.
        destruct (dif_sorted _ _ _ Hs Hr3) as [_ H2]. apply Forall_app in H2 as [_ H2]. eapply Forall_impl; [exact H2|]. cbn. intros y Hy. lia.
    + rewrite (bind_ok _ _ _ _ _ (ret_ok _ _)). cbn [fst snd]. change (0 =? 0) with true. cbn [negb].
      rewrite (bind_ok _ _ _ _ _ (read_hRight h _ _ b its pad Hn)), Z.leb_refl, (near_far its).
      * revert c. change (walks (subtree (root r) (fun h0 c0 => TtreeNode_traverse_forward_incl cookie pfComp pfVisit fuel h0 k iInclusion c0)) (List.filter near (elements r))). sub IH.
      * rewrite <-(take_drop_middle its _ yl Hyl) in Hsi, Hrec |- *. destruct (dif_sorted _ _ _ Hsi Hrec) as [H1 _].
        rewrite (drop_ge its) by lia. apply Forall_app. split; [|constructor; [by left|done]]. eapply Forall_impl; [exact H1|]. cbn. intros y Hy. lia.
Qed.
End Near.
End Walk.
