(* ===== verification/TTreeKeys.v ===== *)
(** [KeyCompare] as a comparator of the T-tree: the keys for which it orders the records
    as the tree needs. Integer keys must lie less than 2^31 apart, since the tree cuts
    their difference to an [int]; byte strings are ordered like a dictionary. *)
From Stdlib Require Import ZArith Lia.
From stdpp Require Import base sorting list numbers gmap.
From S2P Require Import Prelude Value TableDef Field PtMalloc PtSpec Mallocator TTree TTreePure TTreeRep TTreePage.
Import AllocSpec.
Local Open Scope Z_scope.

(** ** Integers *)

Section IntDefs.
Context (sgnd : bool) (size lo : Z).

(** The bytes of the key, its number, and the number in a value. *)
Definition key_width : nat := if 4 <? size then 8 else 4.
Definition key_num (bs : list Z) : Z :=
  let r := le_value (take key_width (drop 10 bs)) in if sgnd then swrap (8 * Z.of_nat key_width) r else r.
Definition num_of (v : DTCValue) : Z := match v with DWord u => if sgnd then s64 u else u | DBin _ => 0 end.

Definition int_ok (v : Z) : Prop := (if sgnd then is_s 64 v else is_u 64 v) /\ lo <= v < lo + 2 ^ 31.
#[local] Instance int_ok_dec v : Decision (int_ok v).
Proof. unfold int_ok. destruct sgnd; apply _. Defined.
Definition int_rec_key (bs : list Z) : option DTCValue :=
  if decide ((10 + key_width <= length bs)%nat /\ int_ok (key_num bs)) then Some (set_s64 (key_num bs)) else None.
Definition int_valid (k : DTCValue) : Prop := exists v, k = set_s64 v /\ int_ok v.
Definition int_ord (a b : DTCValue) : comparison := Z.compare (num_of a) (num_of b).

Lemma num_of_key v : int_ok v -> num_of (set_s64 v) = v.
Proof.
  intros [Hv _]. unfold num_of, set_s64, s64, u64. destruct sgnd; [by rewrite swrap_wrap, swrap_small|by apply wrap_small].
Qed.
End IntDefs.

(** ** Byte strings *)

(** The bytes of a key in a record: a length and as many bytes; a string is without
    zeros, and compared without regard to case. *)
Definition fold_case (ci : bool) (bs : list Z) : list Z := if ci then ascii_lower <$> bs else bs.
Definition str_ok (ci : bool) (bs : list Z) : Prop := bytes_ok bs /\ (ci = true -> Forall (fun b => b <> 0) bs) /\ Z.of_nat (length bs) < 2 ^ 31.
#[export] Instance str_ok_dec ci bs : Decision (str_ok ci bs).
Proof. unfold str_ok. apply _. Defined.
Definition str_value (bs : list Z) : DTCValue := DBin (mkBin (Z.of_nat (length bs)) (Some bs)).
Definition str_of (v : DTCValue) : list Z := match v with DBin b => default [] b.(bytes) | DWord _ => [] end.
Definition str_len (bs : list Z) : Z := s32 (le_value (take 4 (drop 10 bs))).
Definition str_at (bs : list Z) : list Z := take (Z.to_nat (str_len bs)) (drop 14 bs).
Definition str_rec_key (ci : bool) (bs : list Z) : option DTCValue :=
  if decide ((14 <= length bs)%nat /\ 0 <= str_len bs /\ 14 + str_len bs <= Z.of_nat (length bs) /\ str_ok ci (str_at bs)) then Some (str_value (str_at bs)) else None.
Definition str_valid (ci : bool) (k : DTCValue) : Prop := exists bs, k = str_value bs /\ str_ok ci bs.
Definition str_ord (ci : bool) (a b : DTCValue) : comparison := lex (fold_case ci (str_of a)) (fold_case ci (str_of b)).

Section Keys.
Context {S : Type} `{!Mallocator S, !MallocatorLaws S} (cookie : CmpCookie).

Definition key_type : outcome Z := field_type cookie.(m_pstTab) cookie.(m_uchIdx).
Definition key_size : outcome Z := field_size cookie.(m_pstTab) cookie.(m_uchIdx).

Lemma read_key s A h bs n o :
  heap s A -> A !! h = Some bs -> (10 + o + n <= length bs)%nat -> mread n (key_ptr h + Z.of_nat o) s = Ok (le_value (take n (drop (10 + o) bs)), s).
Proof. intros HA Hb Hn. unfold key_ptr. rewrite <-(mread_law n s A h bs (10 + o) HA Hb) by lia. f_equal. lia. Qed.

Lemma lift_ok {A} (o : outcome A) a (s : S) : o = Ok a -> lift o s = Ok (a, s).
Proof. by intros ->. Qed.

(** ** [KeyCompare] on integers *)

Section Integers.
Context (sgnd : bool) (size lo : Z).
Abbreviation key_width := (key_width size).
Abbreviation key_num := (key_num sgnd size).
Abbreviation num_of := (num_of sgnd).
Hypothesis Htype : key_type = Ok (if sgnd then DField.Signed else DField.Unsigned).
Hypothesis Hsize : key_size = Ok size.

(** The number of a record as [KeyCompare] and [convert_cvalue] read it. *)
Lemma read_signed s A h bs : heap s A -> A !! h = Some bs -> (10 + key_width <= length bs)%nat -> sgnd = true ->
  (if 4 <? size then get_s64 (key_ptr h) else get_s32 (key_ptr h)) s = Ok (key_num bs, s).
Proof.
  intros HA Hb Hl Es. unfold TTreeKeys.key_num, get_s64, get_s32. rewrite Es. pose proof (read_key s A h bs key_width 0 HA Hb ltac:(lia)) as E. rewrite Z.add_0_r in E.
  unfold TTreeKeys.key_width in *. destruct (4 <? size); rewrite (bind_ok _ _ _ _ _ E); done.
Qed.
Lemma read_unsigned s A h bs : heap s A -> A !! h = Some bs -> (10 + key_width <= length bs)%nat -> sgnd = false ->
  (if 4 <? size then mread 8 (key_ptr h) else mread 4 (key_ptr h)) s = Ok (key_num bs, s).
Proof.
  intros HA Hb Hl Es. unfold TTreeKeys.key_num. rewrite Es. pose proof (read_key s A h bs key_width 0 HA Hb ltac:(lia)) as E. rewrite Z.add_0_r in E.
  unfold TTreeKeys.key_width in *. by destruct (4 <? size).
Qed.

Lemma int_compare s A h bs k : heap s A -> A !! h = Some bs -> (10 + key_width <= length bs)%nat -> (exists u, k = DWord u) ->
  KeyCompare k cookie h s = Ok (s64 (num_of k - key_num bs), s).
Proof.
  intros HA Hb Hl [u ->]. unfold KeyCompare. rewrite (bind_ok _ _ _ _ _ (lift_ok _ _ s Htype)), (bind_ok _ _ _ _ _ (lift_ok _ _ s Hsize)). cbv zeta.
  pose proof (read_signed s A h bs HA Hb Hl) as H1. pose proof (read_unsigned s A h bs HA Hb Hl) as H2. destruct sgnd.
  - change (DField.Signed =? DField.Signed) with true. cbv iota. rewrite (bind_ok _ _ s (s64 u) s eq_refl), (bind_ok _ _ _ _ _ (H1 eq_refl)). done.
  - change (DField.Unsigned =? DField.Signed) with false. change (DField.Unsigned =? DField.Unsigned) with true. cbv iota.
    rewrite (bind_ok _ _ s u s eq_refl), (bind_ok _ _ _ _ _ (H2 eq_refl)). done.
Qed.

Lemma int_convert s A h bs : heap s A -> A !! h = Some bs -> (10 + key_width <= length bs)%nat ->
  convert_cvalue cookie h s = Ok (set_s64 (key_num bs), s).
Proof.
  intros HA Hb Hl. unfold convert_cvalue. rewrite (bind_ok _ _ _ _ _ (lift_ok _ _ s Htype)), (bind_ok _ _ _ _ _ (lift_ok _ _ s Hsize)). cbv zeta.
  pose proof (read_signed s A h bs HA Hb Hl) as H1. pose proof (read_unsigned s A h bs HA Hb Hl) as H2. destruct sgnd.
  - change (DField.Signed =? DField.Signed) with true. cbv iota. by rewrite (bind_ok _ _ _ _ _ (H1 eq_refl)).
  - change (DField.Unsigned =? DField.Signed) with false. change (DField.Unsigned =? DField.Unsigned) with true. cbv iota.
    by rewrite (bind_ok _ _ _ _ _ (H2 eq_refl)).
Qed.

(** Integer keys in a window of 2^31. *)
#[refine] Definition integer_order : KeyOrder cookie KeyCompare := {| ord := int_ord sgnd; valid := int_valid sgnd lo; rec_key := int_rec_key sgnd size lo |}.
Proof.
  - intros a b. apply Z.compare_antisym.
  - intros c x y z. unfold int_ord. destruct c; rewrite ?Z.compare_eq_iff, ?Z.compare_lt_iff, ?Z.compare_gt_iff; lia.
  - intros s A h bs k kh HA Hb Hr (v & -> & Hv). unfold int_rec_key in Hr. case_decide as Hd; [|done]. injection Hr as <-. destruct Hd as [Hl Hw].
    exists (s64 (v - key_num bs)). rewrite (int_compare s A h bs) by (done || by eexists). rewrite (num_of_key sgnd lo) by done. split; [done|].
    unfold int_ord. rewrite !(num_of_key sgnd lo) by done. destruct Hv as [_ Hv], Hw as [_ Hw].
    unfold s64. rewrite swrap_small; [|lia|unfold is_s; lia]. split; [unfold is_s; change (2 ^ (32 - 1)) with (2 ^ 31); lia|].
    destruct (Z.compare_spec v (key_num bs)); cbn; lia.
  - intros s A h bs kh HA Hb Hr. unfold int_rec_key in Hr. case_decide as Hd; [|done]. injection Hr as <-. destruct Hd as [Hl Hw].
    split; [by eapply int_convert|by eexists].
Defined.
End Integers.

(** ** [KeyCompare] on byte strings *)

(** A dictionary compares the common part and then the lengths. *)
Lemma lex_common xs ys : lex xs ys =
  match lex (take (length xs `min` length ys) xs) (take (length xs `min` length ys) ys) with Eq => Nat.compare (length xs) (length ys) | c => c end.
Proof.
  revert ys; induction xs as [|x xs IH]; intros [|y ys]; [done..|]. cbn. destruct (Z.compare x y); [apply IH|done|done].
Qed.

Lemma read_byte s A h bs o : heap s A -> A !! h = Some bs -> (o < length bs)%nat -> mread 1 (h + Z.of_nat o) s = Ok (nth o bs 0, s).
Proof.
  intros HA Hb Ho. rewrite (mread_law 1 s A h bs o HA Hb) by lia. do 2 f_equal. destruct (lookup_lt_is_Some_2 bs o Ho) as [x Hx].
  rewrite (drop_S _ x), (nth_lookup_Some _ _ _ _ Hx) by done. cbn [take]. change (take 0 _) with (@nil Z). cbn [le_value]. lia.
Qed.

Definition str_cmp (ci : bool) : Z -> list Z -> Z -> ST S Z := if ci then strncasecmp else memcmp_at.

Section Strings.
Context (ci : bool).

Lemma nth_drop_cons (bs : list Z) o : (o < length bs)%nat -> drop o bs = nth o bs 0 :: drop (Datatypes.S o) bs.
Proof. intros Ho. destruct (lookup_lt_is_Some_2 bs o Ho) as [x Hx]. by rewrite (drop_S _ x), (nth_lookup_Some _ _ _ _ Hx). Qed.

(** The comparison of [n] bytes at [key] with those of a block. *)
Lemma str_cmp_ok s A h bs n key o : heap s A -> A !! h = Some bs -> bytes_ok key -> (ci = true -> Forall (fun b => b <> 0) key) -> (n <= length key)%nat -> (o + n <= length bs)%nat ->
  exists d, str_cmp ci (Z.of_nat n) key (h + Z.of_nat o) s = Ok (d, s) /\ is_s 32 d /\
    Z.sgn d = cmp_sign (lex (fold_case ci (take n key)) (fold_case ci (take n (drop o bs)))).
Proof.
  intros HA Hb. pose proof (heap_bytes s A h bs HA Hb) as Hbs. unfold str_cmp. revert key o; induction n as [|n IH]; intros key o Hk Hz Hl Ho.
  { exists 0. split; [by destruct ci, key|]. split; [done|]. by destruct ci. }
  destruct key as [|c1 key]; [cbn in Hl; lia|]. apply Forall_cons in Hk as [Hc1 Hk]. cbn [length] in Hl.
  pose proof (read_byte s A h bs o HA Hb ltac:(lia)) as Er. rewrite (nth_drop_cons bs o) by lia. cbn [take].
  assert (Hc2 : is_u 8 (nth o bs 0)). { destruct (lookup_lt_is_Some_2 bs o) as [x Hx]; [lia|]. rewrite (nth_lookup_Some _ _ _ _ Hx). by eapply (Forall_lookup_1 _ _ _ _ Hbs). }
  set (c2 := nth o bs 0) in *. replace (Z.of_nat (Datatypes.S n) =? 0) with false by (symmetry; apply Z.eqb_neq; lia).
  destruct (IH key (Datatypes.S o) Hk) as (d & E & Hd & Hs); [intros Ei; by apply Forall_cons in Hz as [_ ?]|lia|lia|].
  replace (h + Z.of_nat (Datatypes.S o)) with (h + Z.of_nat o + 1) in E by lia. replace (Z.of_nat n) with (Z.of_nat (Datatypes.S n) - 1) in E by lia.
  destruct ci; cbn [strncasecmp memcmp_at fold_case fmap list_fmap lex] in *; unfold is_u in *; change (2 ^ 8) with 256 in *.
  - specialize (Hz eq_refl). apply Forall_cons in Hz as [Hz _]. rewrite (proj2 (Z.eqb_neq (Z.of_nat (Datatypes.S n)) 0)), (bind_ok _ _ _ _ _ Er) by lia.
    destruct (Z.eqb_spec (ascii_lower c1 - ascii_lower c2) 0) as [E0|E0]; cbn [negb].
    + rewrite (proj2 (Z.eqb_neq c1 0)) by done. exists d. rewrite (proj2 (Z.compare_eq_iff _ _)) by lia. done.
    + eexists. split; [done|]. split; [unfold is_s, ascii_lower; repeat case_match; lia|].
      destruct (Z.compare_spec (ascii_lower c1) (ascii_lower c2)); cbn [cmp_sign]; lia.
  - rewrite (proj2 (Z.eqb_neq (Z.of_nat (Datatypes.S n)) 0)), (bind_ok _ _ _ _ _ Er) by lia. destruct (Z.eqb_spec c1 c2) as [->|Hne]; cbn [negb].
    + exists d. by rewrite Z.compare_refl.
    + eexists. split; [done|]. destruct (Z.compare_spec c1 c2); [lia|done..].
Qed.

Hypothesis Htype : key_type = Ok (if ci then DField.String else DField.Binary).
Context (size : Z).
Hypothesis Hsize : key_size = Ok size.

Lemma fold_case_length bs : length (fold_case ci bs) = length bs.
Proof. unfold fold_case. destruct ci; [apply length_fmap|done]. Qed.
Lemma fold_case_take n bs : fold_case ci (take n bs) = take n (fold_case ci bs).
Proof. unfold fold_case. destruct ci; [apply fmap_take|done]. Qed.

Lemma read_len s A h bs : heap s A -> A !! h = Some bs -> (14 <= length bs)%nat -> get_s32 (key_ptr h) s = Ok (str_len bs, s).
Proof.
  intros HA Hb Hl. unfold get_s32. pose proof (read_key s A h bs 4 0 HA Hb ltac:(lia)) as E. rewrite Z.add_0_r in E. by rewrite (bind_ok _ _ _ _ _ E).
Qed.

Lemma str_compare s A h bs k : heap s A -> A !! h = Some bs -> (14 <= length bs)%nat -> 0 <= str_len bs -> 14 + str_len bs <= Z.of_nat (length bs) -> str_ok ci k ->
  exists d, compare_bin (str_cmp ci) (str_value k) (key_ptr h) s = Ok (d, s) /\ is_s 32 d /\ Z.sgn d = cmp_sign (lex (fold_case ci k) (fold_case ci (str_at bs))).
Proof.
  intros HA Hb Hl H0 H1 (Hk & Hz & Hk31). unfold compare_bin.
  assert (Ek : lift (val_bin (str_value k)) s = Ok (mkBin (Z.of_nat (length k)) (Some k), s)) by done.
  rewrite (bind_ok _ _ _ _ _ Ek), (bind_ok _ _ _ _ _ (read_len s A h bs HA Hb Hl)). cbn [len bytes].
  set (w := str_at bs). assert (Ew : str_len bs = Z.of_nat (length w)) by (unfold w, str_at; rewrite length_take, length_drop; lia). rewrite Ew.
  rewrite lex_common, !fold_case_length, <-!fold_case_take. set (m := (length k `min` length w)%nat).
  destruct (Z.eqb_spec (Z.of_nat (length k)) 0) as [Ek0|Ek0]; cbn [andb].
  { assert (k = []) as -> by (apply nil_length_inv; lia). cbn [length Nat.min] in *. subst m.
    destruct (Z.eqb_spec (Z.of_nat (length w)) 0) as [Ew0|Ew0]; cbn [andb].
    - exists 0. split; [done|]. split; [done|]. rewrite !take_0. assert (w = []) as -> by (apply nil_length_inv; lia). by destruct ci.
    - exists (-1). split; [done|]. split; [done|]. rewrite !take_0. destruct w as [|]; [done|]. by destruct ci. }
  destruct (Z.eqb_spec (Z.of_nat (length w)) 0) as [Ew0|Ew0].
  { exists 1. split; [done|]. split; [done|]. assert (w = []) as -> by (apply nil_length_inv; lia). subst m. rewrite Nat.min_0_r, !take_0. destruct k; [done|]. by destruct ci. }
  destruct (str_cmp_ok s A h bs m k 14 HA Hb Hk Hz) as (d & E & Hd & Hs); [lia|lia|].
  assert (Em : u64 (if Z.of_nat (length k) <? Z.of_nat (length w) then Z.of_nat (length k) else Z.of_nat (length w)) = Z.of_nat m).
  { unfold u64. rewrite wrap_small; [destruct (Z.ltb_spec (Z.of_nat (length k)) (Z.of_nat (length w))); lia|]. unfold is_u. change (2 ^ 31) with 2147483648 in Hk31. change (2 ^ 64) with 18446744073709551616. bcases; lia. }
  rewrite Em. replace (key_ptr h + 4) with (h + Z.of_nat 14) by (unfold key_ptr; lia). rewrite (bind_ok _ _ _ _ _ E).
  assert (Et : take m w = take m (drop 14 bs)) by (unfold w, str_at; rewrite take_take; f_equal; lia). rewrite Et.
  destruct (Z.eqb_spec (Z.of_nat (length k)) (Z.of_nat (length w))) as [El|El].
  - exists d. split; [done|]. split; [done|]. rewrite Hs. destruct (lex _ _); [|done..]. by rewrite (proj2 (Nat.compare_eq_iff _ _)) by lia.
  - destruct (Z.eqb_spec d 0) as [->|Hd0].
    + rewrite (proj1 (cmp_sign_0 _) (eq_sym Hs)). eexists. split; [done|]. destruct (Z.ltb_spec (Z.of_nat (length w)) (Z.of_nat (length k))); split; try done.
      * by rewrite (proj2 (Nat.compare_gt_iff _ _)) by lia.
      * by rewrite (proj2 (Nat.compare_lt_iff _ _)) by lia.
    + exists d. split; [done|]. split; [done|]. rewrite Hs. destruct (lex _ _); [|done..]. cbn in Hs. lia.
Qed.

Lemma read_mem s A h bs n o : heap s A -> A !! h = Some bs -> (o + n <= length bs)%nat -> get_mem n (h + Z.of_nat o) s = Ok (take n (drop o bs), s).
Proof.
  intros HA Hb. revert o; induction n as [|n IH]; intros o Hl; [done|]. cbn [get_mem].
  rewrite (bind_ok _ _ _ _ _ (read_byte s A h bs o HA Hb ltac:(lia))). replace (h + Z.of_nat o + 1) with (h + Z.of_nat (Datatypes.S o)) by lia.
  rewrite (bind_ok _ _ _ _ _ (IH (Datatypes.S o) ltac:(lia))), (nth_drop_cons bs o) by lia. done.
Qed.

Lemma str_convert s A h bs : heap s A -> A !! h = Some bs -> (14 <= length bs)%nat -> 0 <= str_len bs -> 14 + str_len bs <= Z.of_nat (length bs) ->
  convert_cvalue cookie h s = Ok (str_value (str_at bs), s).
Proof.
  intros HA Hb Hl H0 H1. unfold convert_cvalue. rewrite (bind_ok _ _ _ _ _ (lift_ok _ _ s Htype)), (bind_ok _ _ _ _ _ (lift_ok _ _ s Hsize)). cbv zeta.
  assert (E : (l ← get_s32 (key_ptr h); bs' ← get_mem (Z.to_nat l) (key_ptr h + 4); mret (DBin (mkBin l (Some bs')))) s = Ok (str_value (str_at bs), s)).
  { rewrite (bind_ok _ _ _ _ _ (read_len s A h bs HA Hb Hl)). replace (key_ptr h + 4) with (h + Z.of_nat 14) by (unfold key_ptr; lia).
    rewrite (bind_ok _ _ _ _ _ (read_mem s A h bs (Z.to_nat (str_len bs)) 14 HA Hb ltac:(lia))). unfold str_value, str_at.
    rewrite length_take_le by (rewrite length_drop; lia). by rewrite Z2Nat.id. }
  by destruct ci.
Qed.

(** Byte strings, and strings without regard to case. *)
#[refine] Definition string_order : KeyOrder cookie KeyCompare := {| ord := str_ord ci; valid := str_valid ci; rec_key := str_rec_key ci |}.
Proof.
  - intros a b. apply lex_antisym.
  - intros c x y z. apply lex_trans.
  - intros s A h bs k kh HA Hb Hr (kb & -> & Hk). unfold str_rec_key in Hr. case_decide as Hd; [|done]. injection Hr as <-. destruct Hd as (Hl & H0 & H1 & Hw).
    destruct (str_compare s A h bs kb HA Hb Hl H0 H1 Hk) as (d & E & Hd & Hs). exists d. split; [|done].
    unfold KeyCompare. rewrite (bind_ok _ _ _ _ _ (lift_ok _ _ s Htype)), (bind_ok _ _ _ _ _ (lift_ok _ _ s Hsize)). cbv zeta. by destruct ci.
  - intros s A h bs kh HA Hb Hr. unfold str_rec_key in Hr. case_decide as Hd; [|done]. injection Hr as <-. destruct Hd as (Hl & H0 & H1 & Hw).
    split; [by eapply str_convert|by exists (str_at bs)].
Defined.
End Strings.
End Keys.
