(* ===== verification/TTreeSpec.v ===== *)
(** What the T-tree of [TTree] promises: an ordered collection of records, searched in
    logarithmic time and traversed in the order of the keys. *)
From Stdlib Require Import ZArith Lia.
From stdpp Require Import base sorting list numbers gmap.
From S2P Require Import Prelude Value TableDef Field Mem PtMalloc PtHeap PtOps PtCheck PtSpec Mallocator TTree TTreePure TTreeRep TTreePage TTreeRot TTreeInsert TTreeDelete TTreeFind TTreeWalk TTreeKeys.
Import MemFacts Header Layout AllocSpec.
Local Open Scope Z_scope.

Module TreeSpec.

Section Spec.
Context {S : Type} `{!Mallocator S, !MallocatorLaws S} (cookie : CmpCookie) (pfComp : KeyComparator (S := S)) `{!KeyOrder cookie pfComp}.
Context (F : blocks).

Abbreviation key := (key_at cookie pfComp F).
Abbreviation rec_ok := (is_rec cookie pfComp F).

(** ** The tree as a list of records

    The memory consists of the blocks [F] and of the nodes of a tree with the root [h],
    which holds the records [l] in the order of their keys. *)
Definition Tree (s : S) (h : Z) (l : list Z) : Prop :=
  exists t N, HN s F N /\ rep N t /\ wf cookie pfComp F t /\ h = root t /\ l = elements t /\ (forall x, is_Some (N !! x) <-> x ∈ handles t).

Inductive op : Type :=
  | TInsert (k : DTCValue) (x : Z)
  | TDelete (k : DTCValue)
  | TFind (k : DTCValue).

(** The result of an operation, the record it finds, and the root it leaves. *)
Definition exec (o : op) (h : Z) : ST S (Z * Z * Z) :=
  match o with
  | TInsert k x => r ← Ttree_Insert cookie pfComp h k x false; mret (r.1.1, 0, r.1.2)
  | TDelete k => r ← Ttree_Delete cookie pfComp h k false; mret (r.1.1, 0, r.1.2)
  | TFind k => r ← Ttree_Find cookie pfComp h k; mret (r.1, r.2, h)
  end.

Definition has_key (k : DTCValue) (l : list Z) : Prop := Exists (fun y => ord k (key y) = Eq) l.

(** The same on the list of the records. *)
Definition spec_step (l : list Z) (o : op) (r : Z * Z) (l' : list Z) : Prop :=
  match o with
  | TInsert k x =>
    (r = (EC_KEY_EXIST, 0) /\ has_key k l /\ l' = l) \/ (r = (EC_NO_MEM, 0) /\ ~ has_key k l /\ l' = l) \/ (r = (0, 0) /\ ~ has_key k l /\ inserted ord key k x l l')
  | TDelete k =>
    (r = (0, 0) /\ removed ord key k l l') \/ (r = ((if decide (l = []) then 0 else -1), 0) /\ ~ has_key k l /\ l' = l)
  | TFind k => l' = l /\ ((r.1 = 1 /\ r.2 ∈ l /\ ord k (key r.2) = Eq) \/ (r = (0, 0) /\ ~ has_key k l))
  end.

Definition legal (o : op) : Prop :=
  match o with
  | TInsert k x => valid k /\ rec_ok x /\ ord k (key x) = Eq
  | TDelete k | TFind k => valid k
  end.

Lemma gone_iff k l : Forall (fun y => ord k (key y) <> Eq) l <-> ~ has_key k l.
Proof. unfold has_key. rewrite <-Forall_Exists_neg. done. Qed.

Lemma inserted_nokey k x l l' : inserted ord key k x l l' -> ~ has_key k l.
Proof. intros (l1 & l2 & -> & _ & H1 & H2). apply gone_iff. by apply no_key. Qed.

Lemma Tree_height s t N : HN s F N -> wf cookie pfComp F t -> (forall x, is_Some (N !! x) <-> x ∈ handles t) -> height t <= 129.
Proof.
  intros HH [Hb _ _ Hd] HN'. apply height_bound; [done|done|]. apply Forall_forall. intros x Hx. eapply HN_handle; [done|by apply HN'].
Qed.

(** The nodes after an operation are those of the tree. *)
Lemma nodes_after (N N' : gmap Z node) (hs hs' : list Z) : (forall x, is_Some (N !! x) <-> x ∈ hs) -> (forall x, x ∈ hs' -> is_Some (N' !! x)) ->
  (forall x, x ∉ hs -> x ∉ hs' -> N' !! x = N !! x) -> (forall x, x ∈ hs -> x ∉ hs' -> N' !! x = None) -> forall x, is_Some (N' !! x) <-> x ∈ hs'.
Proof.
  intros HN Hin Hout Hgone x. split; [|apply Hin]. intros Hx. destruct (decide (x ∈ hs')) as [|Hni]; [done|]. destruct (decide (x ∈ hs)) as [Hi|Hi].
  - rewrite Hgone in Hx by done. by destruct Hx.
  - rewrite Hout in Hx by done. by apply HN in Hx.
Qed.

Lemma insert_step s h l k x : Tree s h l -> legal (TInsert k x) ->
  exists r h' l' s', exec (TInsert k x) h s = Ok ((r, h'), s') /\ spec_step l (TInsert k x) r l' /\ Tree s' h' l'.
Proof.
  intros (t & N & HH & Hr & Hwf & -> & -> & HN) (Hk & Hx & Ek). cut (wp (exec (TInsert k x) (root t)) s (fun r s' => exists l', spec_step (elements t) (TInsert k x) r.1 l' /\ Tree s' r.2 l')).
  { intros ([r h'] & s' & E & l' & H1 & H2). by exists r, h', l', s'. }
  cbn [exec]. apply wp_bind. unfold Ttree_Insert. destruct (leaf_or t) as [->|Ht].
  - rewrite Z.eqb_refl. destruct (is_rec_handle _ _ _ _ _ _ HH Hx) as (Ux & _). apply wp_bind. eapply wp_Alloc; [exact HH|done|..].
    + intros s' HH'. rewrite Z.eqb_refl. apply wp_ret, wp_ret. exists []. split; [right; left; split_and!; try done; by apply gone_iff|]. by exists Leaf, N.
    + intros s' hn pad Hn HnN HnF HH'. rewrite (proj2 (Z.eqb_neq hn INVALID_HANDLE)) by done. apply wp_ret, wp_ret.
      pose proof (new_leaf cookie pfComp F N k x false hn pad Hx Ek HnN HnF) as [Hrep' Hwf' Hi _ _ _ _ Hfr]. cbn [fst snd]. exists [x].
      split; [right; right; split_and!; [done|by apply gone_iff|exact Hi]|]. exists (Node hn Leaf 0 [x] Leaf), (<[hn := mkNode 0 0 0 1 (x :: pad)]> N).
      split_and!; try done. apply (nodes_after N _ []); [done| |done|set_solver]. intros y Hy. by eapply rep_handle.
  - rewrite (root_valid F s N t HH Hr Ht). pose proof (Tree_height s t N HH Hwf HN) as Hh. apply wp_bind.
    eapply wp_mono; [by eapply (Insert_ok cookie pfComp F TREE_FUEL k t); [left; unfold TREE_FUEL; lia|..]|].
    intros res s' [(-> & HH' & Hex)|[(-> & HH' & Hno)|(ret & t' & N' & isA' & -> & HH' & [Hr' Hwf' Hi Hht Hret _ Hnew Hfr])]].
    + cbn. apply wp_ret, wp_ret. exists (elements t). split; [by left|]. by exists t, N.
    + cbn. apply wp_ret, wp_ret. exists (elements t). split; [right; left; by rewrite <-gone_iff|]. by exists t, N.
    + rewrite (proj2 (Z.eqb_neq ret (-2))), (proj2 (Z.eqb_neq ret (-1))), (proj2 (Z.ltb_ge ret 0)) by lia. apply wp_ret, wp_ret.
      exists (elements t'). split; [right; right; split_and!; [done|by eapply inserted_nokey|done]|]. exists t', N'. split_and!; try done.
      apply (nodes_after N _ (handles t)); [done|by intros y Hy; eapply rep_handle|done|]. intros y Hy Hy'.
      destruct Hnew as [[_ P]|(_ & hn & _ & _ & P)]; exfalso; apply Hy'; rewrite P; [done|by right].
Qed.

Lemma delete_step s h l k : Tree s h l -> legal (TDelete k) ->
  exists r h' l' s', exec (TDelete k) h s = Ok ((r, h'), s') /\ spec_step l (TDelete k) r l' /\ Tree s' h' l'.
Proof.
  intros (t & N & HH & Hr & Hwf & -> & -> & HN) Hk. cut (wp (exec (TDelete k) (root t)) s (fun r s' => exists l', spec_step (elements t) (TDelete k) r.1 l' /\ Tree s' r.2 l')).
  { intros ([r h'] & s' & E & l' & H1 & H2). by exists r, h', l', s'. }
  cbn [exec]. apply wp_bind. unfold Ttree_Delete. destruct (leaf_or t) as [->|Ht].
  - rewrite Z.eqb_refl. apply wp_ret, wp_ret. exists []. split; [right; split_and!; try done; by apply gone_iff|]. by exists Leaf, N.
  - rewrite (root_valid F s N t HH Hr Ht). pose proof (Tree_height s t N HH Hwf HN) as Hh. apply wp_bind.
    assert (Hne : elements t <> []). { destruct t as [|h l b its r]; [done|]. destruct (wf_page _ _ _ _ _ _ _ _ Hwf) as (_ & _ & Hl). cbn [elements]. destruct its; [cbn in Hl; lia|]. by destruct (elements l). }
    eapply wp_mono; [by eapply (Delete_ok cookie pfComp F TREE_FUEL k t); [unfold TREE_FUEL; lia|..]|].
    intros res s' [(isF & -> & HH' & Hno)|(ret & t' & N' & isF' & -> & HH' & [Hr' Hwf' Hrm Hht Hret Hfew Hfr])].
    + cbn. apply wp_ret, wp_ret. exists (elements t). split; [right; rewrite decide_False by done; by rewrite <-gone_iff|]. by exists t, N.
    + rewrite (proj2 (Z.ltb_ge ret (-1))), (proj2 (Z.eqb_neq ret (-1))) by lia. apply wp_ret, wp_ret. exists (elements t'). split; [by left|]. exists t', N'. split_and!; try done.
      apply (nodes_after N _ (handles t)); [done|by intros y Hy; eapply rep_handle|by intros; apply Hfr|]. intros y Hy Hy'.
      destruct Hfew as [P|(h0 & Hn0 & P)]; [exfalso; apply Hy'; by rewrite P|]. rewrite P in Hy. by apply elem_of_cons in Hy as [->|?].
Qed.

Lemma find_step s h l k : Tree s h l -> legal (TFind k) ->
  exists r h' l' s', exec (TFind k) h s = Ok ((r, h'), s') /\ spec_step l (TFind k) r l' /\ Tree s' h' l'.
Proof.
  intros (t & N & HH & Hr & Hwf & -> & -> & HN) Hk. cut (wp (exec (TFind k) (root t)) s (fun r s' => exists l', spec_step (elements t) (TFind k) r.1 l' /\ Tree s' r.2 l')).
  { intros ([r h'] & s' & E & l' & H1 & H2). by exists r, h', l', s'. }
  cbn [exec]. apply wp_bind. unfold Ttree_Find. destruct (leaf_or t) as [->|Ht].
  - rewrite Z.eqb_refl. apply wp_ret, wp_ret. exists []. split; [split; [done|right; split; [done|by apply gone_iff]]|]. by exists Leaf, N.
  - rewrite (root_valid F s N t HH Hr Ht). pose proof (Tree_height s t N HH Hwf HN) as Hh.
    eapply wp_mono; [apply (Find_ok cookie pfComp F TREE_FUEL s N t k); [done..|unfold TREE_FUEL; lia]|].
    intros res s' [-> Hf]. apply wp_ret. exists (elements t). cbn [fst snd]. split; [split; [done|]|by exists t, N].
    destruct Hf as [(z & -> & Hz & E)|[-> Hg]]; [by left|right; split; [done|by apply gone_iff]].
Qed.

Lemma tree_step_ok s h l o : Tree s h l -> legal o -> exists r h' l' s', exec o h s = Ok ((r, h'), s') /\ spec_step l o r l' /\ Tree s' h' l'.
Proof. destruct o; [apply insert_step|apply delete_step|apply find_step]. Qed.

Lemma Tree_empty s : heap s F -> Tree s INVALID_HANDLE [].
Proof. intros HA. exists Leaf, ∅. split; [by apply HN_start|]. split_and!; try done; [by repeat constructor|]. intros x. rewrite lookup_empty. split; [by intros []|by intros ?%not_elem_of_nil]. Qed.

(** A program on the tree. *)
Fixpoint run (os : list op) (h : Z) : ST S (list (Z * Z) * Z) :=
  match os with
  | [] => mret ([], h)
  | o :: os => rh ← exec o h; rs ← run os rh.2; mret (rh.1 :: rs.1, rs.2)
  end.
Fixpoint spec_run (l : list Z) (os : list op) (rs : list (Z * Z)) (l' : list Z) : Prop :=
  match os, rs with
  | [], [] => l' = l
  | o :: os, r :: rs => exists l1, spec_step l o r l1 /\ spec_run l1 os rs l'
  | _, _ => False
  end.

(** C3: the tree refines an ordered list of records with distinct keys, over any
    allocator that keeps its promises: every sequence of insertions, deletions and
    searches ends without a fault, with the results and the records of the same sequence
    on the list, whatever shape the pages and rotations give the tree. An insertion of a
    key that is there, or without memory, changes nothing. *)
Theorem tree_run_refines os s h l : Tree s h l -> Forall legal os ->
  exists rs h' l' s', run os h s = Ok ((rs, h'), s') /\ spec_run l os rs l' /\ Tree s' h' l' /\ StronglySorted (lt_rec ord key) l'.
Proof.
  intros HT Hl. revert s h l HT; induction Hl as [|o os Ho _ IH]; intros s h l HT.
  - exists [], h, l, s. split; [done|]. split; [done|]. split; [done|]. by destruct HT as (t & N & _ & _ & [_ Hs _ _] & _ & -> & _).
  - destruct (tree_step_ok s h l o HT Ho) as (r & h1 & l1 & s1 & E & H1 & HT1). destruct (IH s1 h1 l1 HT1) as (rs & h' & l' & s' & E' & H2 & HT' & Hs).
    exists (r :: rs), h', l', s'. cbn [run]. rewrite (bind_ok _ _ _ _ _ E). cbn [fst snd]. rewrite (bind_ok _ _ _ _ _ E').
    split; [done|]. split; [by exists l1|]. by split.
Qed.

(** ** The cost of a search *)

Lemma pages_nonempty t : balanced t -> nodes t <= Z.of_nat (length (elements t)).
Proof.
  induction t as [|h l IHl b its r IHr]; [done|]. intros (Bl & Br & _ & _ & Hi). specialize (IHl Bl). specialize (IHr Br).
  rewrite nodes_node. cbn [elements]. rewrite !length_app. lia.
Qed.

Lemma found_unique k l r r' : StronglySorted (lt_rec ord key) l -> found cookie pfComp F k l r -> found cookie pfComp F k l r' -> r = r'.
Proof.
  intros Hs [(z & -> & Hz & E)|[-> Hg]] [(z' & -> & Hz' & E')|[-> Hg']]; [|rewrite Forall_forall in Hg'; by destruct (Hg' z Hz)|rewrite Forall_forall in Hg; by destruct (Hg z' Hz')|done].
  f_equal. by eapply (key_unique ord key ord_antisym ord_trans k l).
Qed.

(** C10: a search goes down at most [n] nodes where [2 ^ (n / 2)] is not more than the
    number of records plus one, and never more than 129: the recursion ends within them
    and finds the record with the key, if the tree has it. *)
Theorem Find_logarithmic s h l k : Tree s h l -> h <> INVALID_HANDLE -> valid k ->
  exists (n : nat) res, 2 ^ (Z.of_nat n / 2) <= Z.of_nat (length l) + 1 /\ (n <= 129)%nat /\ found cookie pfComp F k l res /\
    forall fuel, (n <= fuel)%nat -> TtreeNode_Find cookie pfComp fuel h k s = Ok (res, s).
Proof.
  intros (t & N & HH & Hr & Hwf & -> & -> & HN) Hne Hk. assert (Ht : t <> Leaf) by (by intros ->).
  pose proof (Tree_height s t N HH Hwf HN) as Hh. pose proof (height_nonneg t) as H0. pose proof Hwf as [Hb Hs _ _].
  exists (Z.to_nat (height t)). destruct (Find_ok cookie pfComp F (Z.to_nat (height t)) s N t k HH Hr Hwf Ht Hk ltac:(lia)) as (res & ? & E & -> & Hf).
  exists res. split; [|split; [lia|split; [done|]]].
  - pose proof (nodes_height (Z.to_nat (height t)) t Hb ltac:(lia)). pose proof (pages_nonempty t Hb). lia.
  - intros fuel Hfuel. destruct (Find_ok cookie pfComp F fuel s N t k HH Hr Hwf Ht Hk ltac:(lia)) as (res' & ? & E' & -> & Hf').
    by rewrite E', (found_unique k _ _ _ Hs Hf Hf').
Qed.

(** ** Traversals *)

Section Visitors.
Context {C : Type} (v : ItemVisit (S := S) C) (vis : Z -> C -> Z * C).

(** The visitor reads the record the item refers to and changes only its cookie. *)
Definition visitor (s : S) : Prop := forall a x c, rec_ok x -> mread 8 a s = Ok (x, s) -> v a c s = Ok (vis x c, s).

Lemma on_root_ok s t N f L : HN s F N -> rep N t -> (t <> Leaf -> walks vis s (f (root t)) L) -> (t = Leaf -> L = []) -> walks vis s (on_root (root t) f) L.
Proof.
  intros HH Hr H1 H2 c. unfold on_root. rewrite (rep_root_eqb s F N t HH Hr). destruct t; cbn [negb]; [by rewrite H2|by apply H1].
Qed.

Ltac on_tree lem :=
  eapply on_root_ok; [eassumption..|intros Ht; apply (lem); try eassumption; unfold TREE_FUEL; lia|by intros ->].

(** C13: every traversal calls its visitor once on each record of its range and on no
    other, until the visitor returns something other than 0: forwards and backwards in
    the order of the keys, over a closed range or one that is open at one end; the
    traversals in post order in an order of the pages of the tree. The tree is left as it
    was. *)
Theorem traversals s h l k k1 : Tree s h l -> visitor s -> valid k -> valid k1 ->
  walks vis s (Ttree_traverse_forward v h) l /\
  walks vis s (Ttree_traverse_backward v h) (rev l) /\
  walks vis s (Ttree_traverse_forward_range cookie pfComp v h k k1) (List.filter (between cookie pfComp F k k1) l) /\
  walks vis s (Ttree_traverse_backward_range cookie pfComp v h k k1) (List.filter (between cookie pfComp F k k1) (rev l)) /\
  walks vis s (Ttree_traverse_forward_ge cookie pfComp v h k) (List.filter (at_least cookie pfComp F k) l) /\
  walks vis s (Ttree_traverse_backward_le cookie pfComp v h k) (List.filter (at_most cookie pfComp F k) (rev l)) /\
  exists up down, up ≡ₚ l /\ down ≡ₚ l /\
    walks vis s (Ttree_post_order_traverse v h) down /\
    walks vis s (Ttree_post_order_traverse_range cookie pfComp v h k k1) (List.filter (between cookie pfComp F k k1) up) /\
    walks vis s (Ttree_post_order_traverse_ge cookie pfComp v h k) (List.filter (at_least cookie pfComp F k) up) /\
    walks vis s (Ttree_post_order_traverse_le cookie pfComp v h k) (List.filter (at_most cookie pfComp F k) down).
Proof.
  intros (t & N & HH & Hr & Hwf & -> & -> & HN) Hv Hk Hk1. pose proof (Tree_height s t N HH Hwf HN) as Hh.
  split; [on_tree (traverse_forward_ok cookie pfComp v vis s F N HH Hv)|].
  split; [on_tree (traverse_backward_ok cookie pfComp v vis s F N HH Hv)|].
  split; [on_tree (traverse_forward_range_ok cookie pfComp v vis s F N HH Hv k Hk k1 Hk1)|].
  split; [on_tree (traverse_backward_range_ok cookie pfComp v vis s F N HH Hv k Hk k1 Hk1)|].
  split; [on_tree (traverse_forward_ge_ok cookie pfComp v vis s F N HH Hv k Hk)|].
  split; [on_tree (traverse_backward_le_ok cookie pfComp v vis s F N HH Hv k Hk)|].
  exists (post_up t), (post_down t). split; [apply post_up_perm|]. split; [apply post_down_perm|].
  split; [on_tree (post_order_ok cookie pfComp v vis s F N HH Hv)|].
  split; [on_tree (post_order_range_ok cookie pfComp v vis s F N HH Hv k Hk k1 Hk1)|].
  split; [on_tree (post_order_ge_ok cookie pfComp v vis s F N HH Hv k Hk)|].
  on_tree (post_order_le_ok cookie pfComp v vis s F N HH Hv k Hk).
Qed.
End Visitors.

(** ** Destruction *)

Lemma sorted_nodup l : StronglySorted (lt_rec ord key) l -> NoDup l.
Proof.
  induction 1 as [|x l _ IH Hx]; [constructor|]. constructor; [|done]. intros Hin. rewrite Forall_forall in Hx.
  by eapply (not_lt_rec cookie pfComp F x), Hx.
Qed.

Lemma HN_none s F' N : HN s F' N -> (forall x, N !! x = None) -> heap s F'.
Proof. intros (A & HA & _ & HF) HN. replace F' with A; [done|]. apply map_eq. intros x. by apply HF. Qed.

Definition block_len (A : blocks) (x : Z) : Z := Z.of_nat (length (default [] (A !! x))).

(** C20: [Destroy] gives back the nodes and the records, all of them and nothing else: it
    leaves an empty tree and the other blocks of the memory as they were. The memory the
    tree says it will give back is that of these blocks, modulo 2^32. *)
Theorem Destroy_releases s h l : Tree s h l ->
  exists A nodes s', heap s A /\ NoDup (nodes ++ l) /\ (forall x, is_Some (A !! x) <-> x ∈ nodes \/ is_Some (F !! x)) /\
    Ttree_ask_for_destroy_size h s = Ok (u32 (list_sum_Z (block_len A <$> nodes ++ l)), s) /\
    Ttree_Destroy h s = Ok ((0, INVALID_HANDLE), s') /\ heap s' (foldr delete F l).
Proof.
  intros (t & N & HH & Hr & Hwf & -> & -> & HN). pose proof (Tree_height s t N HH Hwf HN) as Hh. pose proof Hwf as [Hb Hs Hrec Hd].
  assert (HF : Forall (fun x => is_Some (F !! x)) (elements t)).
  { eapply Forall_impl; [exact Hrec|]. intros x (bs & Hx & _)%is_rec_inv. by eexists. }
  pose proof HH as (A & HA & HAn & HAf).
  assert (HAF : forall x, is_Some (F !! x) -> N !! x = None /\ A !! x = F !! x).
  { intros x Hx. destruct (HN_frame s F N x HH Hx) as [_ Hn]. split; [done|by apply HAf]. }
  destruct (Destroy_ok TREE_FUEL s F N t HH Hr Hb Hd (sorted_nodup _ Hs) HF ltac:(unfold TREE_FUEL; lia)) as (r & s' & E & -> & HH').
  exists A, (handles t), s'. split; [done|]. split; [|split; [|split; [|split]]].
  - apply NoDup_app. split; [done|]. split; [|by apply sorted_nodup]. intros x Hx Hx'. apply HN in Hx as [n Hx]. rewrite Forall_forall in HF.
    destruct (HAF x (HF x Hx')) as [Hn _]. congruence.
  - intros x. split.
    + intros HAx. destruct (N !! x) as [n|] eqn:En; [left; by apply HN; eexists|right]. by rewrite <-HAf.
    + intros [[n Hx]%HN|Hx]; [|by rewrite (proj2 (HAF x Hx))]. apply HAn in Hx as [[_ [tl Ht]] _]. by eexists.
  - apply (ask_for_destroy_size_ok TREE_FUEL s F N t (block_len A) HH Hr Hb); [|unfold TREE_FUEL; lia].
    apply Forall_forall. intros x Hx. assert (HAx : is_Some (A !! x)).
    { apply elem_of_app in Hx as [[n Hx]%HN|Hx]; [apply HAn in Hx as [[_ [tl Ht]] _]; by eexists|]. rewrite Forall_forall in HF. rewrite (proj2 (HAF x (HF x Hx))). by apply HF. }
    destruct HAx as [bs Hbs]. unfold block_len. rewrite Hbs. by apply (block_size_law s A).
  - unfold Ttree_Destroy. by rewrite (bind_ok _ _ _ _ _ E).
  - apply (HN_none _ _ _ HH'). intros x. destruct (decide (x ∈ handles t)) as [Hx|Hx]; unfold without_nodes.
    + clear -Hx. induction (handles t) as [|y hs IH]; [by apply not_elem_of_nil in Hx|]. cbn. apply elem_of_cons in Hx as [->|Hx]; [apply lookup_delete_eq|].
      destruct (decide (x = y)) as [->|?]; [apply lookup_delete_eq|]. rewrite lookup_delete_ne by done. by apply IH.
    + rewrite without_lookup by done. destruct (N !! x) eqn:En; [|done]. exfalso. apply Hx, HN. rewrite En. by eexists.
Qed.
End Spec.

(** ** The records near a key *)

Section Integers.
Context {S : Type} `{!Mallocator S, !MallocatorLaws S} (cookie : CmpCookie) (sgnd : bool) (size lo : Z).
Hypothesis Htype : key_type cookie = Ok (if sgnd then DField.Signed else DField.Unsigned).
Hypothesis Hsize : key_size cookie = Ok size.
#[local] Instance ints : KeyOrder cookie KeyCompare := integer_order cookie sgnd size lo Htype Hsize.

(** The traversal from a key on with a width visits the records with the keys from
    [k] to [k + iInclusion], in their order, as long as the keys lie in a window of 2^31
    and the width is less. *)
Theorem traverse_incl_integers {C} F s h l k iInclusion (v : ItemVisit (S := S) C) (vis : Z -> C -> Z * C) :
  Tree cookie KeyCompare F s h l -> visitor cookie KeyCompare F v vis s -> valid k -> 0 <= iInclusion < 2 ^ 31 ->
  walks vis s (Ttree_traverse_forward_incl cookie KeyCompare v h k iInclusion)
    (List.filter (fun x => (num_of sgnd k <=? num_of sgnd (key_at cookie KeyCompare F x)) && (num_of sgnd (key_at cookie KeyCompare F x) <=? num_of sgnd k + iInclusion)) l).
Proof.
  intros (t & N & HH & Hr & Hwf & -> & -> & HN) Hv Hk Hi. pose proof (Tree_height cookie KeyCompare F s t N HH Hwf HN) as Hh.
  set (num x := num_of sgnd (key_at cookie KeyCompare F x)). set (dif x := num_of sgnd k - num x).
  assert (Hrng : forall x, is_rec cookie KeyCompare F x -> is_s 32 (dif x) /\ iDiff cookie KeyCompare k x s = Ok (dif x, s)).
  { intros x Hx. destruct (is_rec_heap cookie KeyCompare s F N x HH Hx) as (A & bs & HA & Hb & Hrk). cbn in Hrk. unfold int_rec_key in Hrk. case_decide as Hd; [|done].
    destruct Hd as [Hlen [Hw1 Hw2]]. assert (Ekey : num x = key_num sgnd size bs). { unfold num. injection Hrk as <-. by apply (num_of_key sgnd lo). }
    destruct Hk as (kv & -> & Hkv1 & Hkv2). assert (Ek : num_of sgnd (set_s64 kv) = kv) by (by apply (num_of_key sgnd lo)).
    assert (Hd : is_s 32 (dif x)). { unfold dif. rewrite Ek, Ekey. unfold is_s. change (2 ^ (32 - 1)) with (2 ^ 31). lia. }
    split; [done|]. unfold iDiff. rewrite (bind_ok _ _ _ _ _ (int_compare cookie sgnd size Htype Hsize s A x bs (set_s64 kv) HA Hb Hlen ltac:(by eexists))), <-Ekey.
    fold (dif x). unfold mret, ST_ret, s32, s64. do 2 f_equal. rewrite (swrap_small 64); [|lia|].
    - apply swrap_small; [lia|done].
    - unfold is_s in *. change (2 ^ (32 - 1)) with 2147483648 in Hd. change (2 ^ (64 - 1)) with 9223372036854775808. lia. }
  assert (Hnear : forall x, x ∈ elements t -> near iInclusion dif x = (num_of sgnd k <=? num x) && (num x <=? num_of sgnd k + iInclusion)).
  { intros x _. unfold near, dif. unfold s32. rewrite swrap_small; [|lia|unfold is_s; change (2 ^ (32 - 1)) with (2 ^ 31); lia]. f_equal; bcases; lia || done. }
  match goal with |- walks _ _ _ ?L => replace L with (List.filter (near iInclusion dif) (elements t)) end; [|by apply filter_ext_in; intros x Hx; apply Hnear, list_elem_of_In].
  eapply on_root_ok; [exact HH|exact Hr| |by intros ->]. intros Ht.
  assert (Ei : s32 iInclusion = iInclusion). { unfold s32. apply swrap_small; [lia|]. unfold is_s. change (2 ^ (32 - 1)) with (2 ^ 31). lia. }
  rewrite Ei. apply (traverse_forward_incl_ok cookie KeyCompare v vis s F N HH Hv k iInclusion dif); try done; [by intros x Hx; apply Hrng| |unfold TREE_FUEL; lia].
  intros x y Hx Hy Hlt. change (Z.compare (num x) (num y) = Lt) in Hlt. unfold dif. by apply Z.sub_lt_mono_l, Z.compare_lt_iff.
Qed.

(** ** Where the cut to an [int] shows *)

Lemma cut_zero d : d mod 2 ^ 32 = 0 -> s32 (s64 d) = 0.
Proof.
  intros Hd. unfold s32. rewrite <-swrap_wrap. replace (wrap 32 (s64 d)) with 0; [done|]. unfold s64, swrap, wrap.
  change (2 ^ 32) with 4294967296 in *. change (2 ^ 64) with 18446744073709551616. change (2 ^ (64 - 1)) with 9223372036854775808. bcases; zdm.
Qed.

(** The difference of two keys is cut to an [int] before its sign is looked at: with
    8-byte keys the insertion of a key that is a multiple of 2^32 away from another is
    refused as a duplicate, and a search for it finds the record with the other key. *)
Theorem Insert_truncates F s N h x bs pad u y isA :
  HN s F N -> N !! h = Some (mkNode 0 0 0 1 (x :: pad)) -> N !! x = None -> F !! x = Some bs -> (18 <= length bs)%nat -> 4 < size ->
  (num_of sgnd (DWord u) - key_num sgnd size bs) mod 2 ^ 32 = 0 ->
  Ttree_Insert cookie KeyCompare h (DWord u) y isA s = Ok ((EC_KEY_EXIST, h, isA), s) /\
  Ttree_Find cookie KeyCompare h (DWord u) s = Ok ((1, x), s).
Proof.
  intros HH Hn Hx HF Hl Hsz Hd. pose proof (HN_handle s F N h HH ltac:(by eexists)) as Hh.
  assert (Ed : iDiff cookie KeyCompare (DWord u) x s = Ok (0, s)).
  { pose proof HH as (A & HA & _ & HAF). rewrite <-(cut_zero _ Hd). unfold iDiff.
    rewrite (bind_ok _ _ _ _ _ (int_compare cookie sgnd size Htype Hsize s A x bs (DWord u) HA ltac:(by rewrite HAF) ltac:(unfold key_width; rewrite (proj2 (Z.ltb_lt _ _)) by done; lia) ltac:(by eexists))). done. }
  assert (E1 : ushNItems_of h s = Ok (1, s)) by exact (read_count s F N HH h 0 0 0 [x] pad Hn).
  assert (E2 : mread 8 (item_addr h 0) s = Ok (x, s)) by exact (item_read F s N h _ 0 x HH Hn ltac:(done) eq_refl).
  assert (E3 : ahItems_of h 0 s = Ok (x, s)) by exact E2. split.
  - unfold Ttree_Insert. rewrite (proj2 (Z.eqb_neq h INVALID_HANDLE)) by (unfold INVALID_HANDLE; lia). change TREE_FUEL with (Datatypes.S 259). generalize 259%nat as fuel; intros fuel.
    assert (E : TtreeNode_Insert cookie KeyCompare (Datatypes.S fuel) h (DWord u) y isA s = Ok ((-2, h, isA), s)).
    { cbn [TtreeNode_Insert]. by rewrite (bind_ok _ _ _ _ _ E1), (bind_ok _ _ _ _ _ E3), (bind_ok _ _ _ _ _ Ed). }
    by rewrite (bind_ok _ _ _ _ _ E).
  - unfold Ttree_Find, TtreeNode_Find. rewrite (proj2 (Z.eqb_neq h INVALID_HANDLE)) by (unfold INVALID_HANDLE; lia). change TREE_FUEL with (Datatypes.S 259). generalize 259%nat as fuel; intros fuel.
    assert (E : TtreeNode_Find_ptr cookie KeyCompare (Datatypes.S fuel) h (DWord u) s = Ok ((1, Some (item_addr h 0)), s)).
    { cbn [TtreeNode_Find_ptr]. rewrite (bind_ok _ _ _ _ _ E1). change (1 =? 0) with false. cbv iota. by rewrite (bind_ok _ _ _ _ _ E3), (bind_ok _ _ _ _ _ Ed). }
    rewrite (bind_ok _ _ _ _ _ E). cbv iota beta. rewrite Z.eqb_refl. by rewrite (bind_ok _ _ _ _ _ E2).
Qed.
End Integers.

(** Deleting the only record of a node without children frees the node and leaves
    [isFreeNode] as it was, which the caller takes for a node that has not been freed. *)
Theorem Delete_last_isFreeNode {S} `{!Mallocator S, !MallocatorLaws S} cookie pfComp `{!KeyOrder cookie pfComp} (F : blocks) s N h x pad k isFreeNode :
  HN s F N -> N !! h = Some (mkNode 0 0 0 1 (x :: pad)) -> is_rec cookie pfComp F x -> valid k -> ord k (key_at cookie pfComp F x) = Eq ->
  exists s', Ttree_Delete cookie pfComp h k isFreeNode s = Ok ((0, INVALID_HANDLE, isFreeNode), s') /\ HN s' F (delete h N).
Proof.
  intros HH Hn Hx Hk Ek. pose proof (HN_handle s F N h HH ltac:(by eexists)) as Hh. destruct (HN_free_node s F N h HH ltac:(by eexists)) as (s' & Ef & HH').
  exists s'. split; [|done]. unfold Ttree_Delete. rewrite (proj2 (Z.eqb_neq h INVALID_HANDLE)) by (unfold INVALID_HANDLE; lia).
  cut (wp (TtreeNode_Delete cookie pfComp TREE_FUEL h k isFreeNode) s (fun r s1 => r = (1, 0, isFreeNode) /\ s1 = s')).
  { intros (r & s1 & E & -> & ->). by rewrite (bind_ok _ _ _ _ _ E). }
  change TREE_FUEL with (Datatypes.S 259). generalize 259%nat as fuel; intros fuel. cbn [TtreeNode_Delete]. wsteps. eapply wp_ahItems; [exact HH|exact Hn|done|done|].
  apply wp_bind, (wp_iDiff _ _ s F N x k _ HH Hx Hk). intros d Hd. rewrite Ek in Hd. assert (d = 0) as -> by (cbn in Hd; lia). wsteps. change (0 <? 0) with false. cbn [andb].
  unfold delete_here. wsteps. eapply wp_ahItems; [exact HH|exact Hn|done|done|]. apply wp_bind, (wp_iDiff _ _ s F N x k _ HH Hx Hk). intros d Hd'.
  rewrite Ek in Hd'. assert (d = 0) as -> by (cbn in Hd'; lia). apply wp_bind. change (0 <=? 0) with true. cbv iota. change (Z.to_nat 1) with (length [x]).
  eapply (wp_find_item cookie pfComp F s N h _ _ _ _ [x] pad k 0); [exact HH|exact Hn|by constructor|done|cbn; lia|..].
  - intros [|j] z Hj _; [|done]. unfold delete_item. wsteps. change ((1 =? 1) && (0 =? INVALID_HANDLE)) with true. cbv iota. apply wp_bind. exists 0, s'. split; [exact Ef|]. by apply wp_ret.
  - intros Hg. cbn in Hg. by apply Forall_cons in Hg as [Hg _].
Qed.

(** Keys of bytes are compared like words in a dictionary, strings after their ASCII
    letters have been made small, for all lengths of the key and of the record's key, 0
    included: the result is an [int] with the sign of the order. *)
Theorem KeyCompare_strings {S} `{!Mallocator S, !MallocatorLaws S} cookie (ci : bool) (size : Z) (s : S) (A : blocks) (h : Z) (bs k : list Z) :
  key_type cookie = Ok (if ci then DField.String else DField.Binary) -> key_size cookie = Ok size ->
  heap s A -> A !! h = Some bs -> (14 <= length bs)%nat -> 0 <= str_len bs -> 14 + str_len bs <= Z.of_nat (length bs) -> str_ok ci k ->
  exists d, KeyCompare (str_value k) cookie h s = Ok (d, s) /\ is_s 32 d /\ Z.sgn d = cmp_sign (lex (fold_case ci k) (fold_case ci (str_at bs))).
Proof.
  intros Ht Hs HA Hb Hl H0 H1 Hk. destruct (str_compare cookie ci Ht s A h bs k HA Hb Hl H0 H1 Hk) as (d & E & Hd & Hsg). exists d. split; [|done].
  unfold KeyCompare. rewrite (bind_ok _ _ _ _ _ (lift_ok _ _ s Ht)), (bind_ok _ _ _ _ _ (lift_ok _ _ s Hs)). cbv zeta. by destruct ci.
Qed.

(** ** A concrete tree

    Three records with 8-byte keys, in the memory of [DTCBinMalloc], and a tree of two of
    them. *)

Definition sample_cookie : CmpCookie :=
  mkCookie (with_fieldList TableSpec.garbage_table [mkField None 8 2 0 0 0 0 0 0; mkField None 8 2 0 0 0 0 0 0]) 1.
Definition record (k : Z) : M Z := h ← Malloc 1 20; store 8 (key_ptr h) k;; mret h.
Definition three_records : DTCBinMalloc := after_ops [record 10; record 20; record (10 + 2 ^ 32)] fresh.
Definition sample_insert (h : Z) (k x : Z) : M Z := r ← Ttree_Insert sample_cookie KeyCompare h (set_u64 k) x false; mret r.1.2.
Definition sample_tree : DTCBinMalloc := after_ops [sample_insert 0 20 8240; sample_insert 8288 10 8216] three_records.

Definition record_blocks : blocks := heap_of (mem three_records) (useds (bottom three_records) [mkC 24 true; mkC 24 true; mkC 24 true]).
Definition tree_blocks : blocks := heap_of (mem sample_tree) (useds (bottom sample_tree) [mkC 24 true; mkC 24 true; mkC 24 true; mkC 184 true]).

Lemma records_heap : heap three_records record_blocks.
Proof. eexists. split; [|reflexivity]. apply Invb_sound; vm_compute; reflexivity. Defined.
Lemma tree_heap : heap sample_tree tree_blocks.
Proof. eexists. split; [|reflexivity]. apply Invb_sound; vm_compute; reflexivity. Defined.

Lemma sample_type : key_type sample_cookie = Ok DField.Unsigned.
Proof. vm_compute. reflexivity. Defined.
Lemma sample_size : key_size sample_cookie = Ok 8.
Proof. vm_compute. reflexivity. Defined.
#[local] Instance sample_order : KeyOrder (S := DTCBinMalloc) sample_cookie KeyCompare := integer_order sample_cookie false 8 0 sample_type sample_size.

Lemma sample_valid u : 0 <= u < 2 ^ 31 -> valid (KeyOrder := sample_order) (set_u64 u).
Proof. intros Hu. exists u. split; [done|]. split; [|lia]. unfold is_u. change (2 ^ 31) with 2147483648 in Hu. change (2 ^ 64) with 18446744073709551616. lia. Defined.

Lemma record_at F x k : F !! x ≫= rec_key (KeyOrder := sample_order) = Some k -> is_rec sample_cookie KeyCompare F x /\ key_at sample_cookie KeyCompare F x = k.
Proof. intros E. unfold is_rec, key_at. rewrite E. split; [by eexists|done]. Defined.

Lemma sample_legal F u x : 0 <= u < 2 ^ 31 -> F !! x ≫= rec_key (KeyOrder := sample_order) = Some (set_u64 u) ->
  legal sample_cookie KeyCompare F (TInsert (set_u64 u) x).
Proof.
  intros Hu E. destruct (record_at F x _ E) as [Hr Hk]. split; [by apply sample_valid|]. split; [exact Hr|]. rewrite Hk. apply Z.compare_refl.
Defined.

Definition sample_ops : list op := [TInsert (set_u64 20) 8240; TInsert (set_u64 10) 8216; TFind (set_u64 10); TDelete (set_u64 20); TFind (set_u64 20)].
Lemma tree_run_refines_witness : exists rs h' l' s', run sample_cookie KeyCompare sample_ops 0 three_records = Ok ((rs, h'), s') /\
  rs = [(0, 0); (0, 0); (1, 8216); (0, 0); (0, 0)] /\ Tree sample_cookie KeyCompare record_blocks s' h' l'.
Proof.
  destruct (tree_run_refines sample_cookie KeyCompare record_blocks sample_ops three_records 0 []) as (rs & h' & l' & s' & E & _ & HT & _).
  - apply Tree_empty, records_heap.
  - unfold sample_ops. rewrite !Forall_cons. split; [apply sample_legal; [lia|vm_compute; reflexivity]|]. split; [apply sample_legal; [lia|vm_compute; reflexivity]|].
    split; [apply sample_valid; lia|]. split; [apply sample_valid; lia|]. split; [apply sample_valid; lia|done].
  - exists rs, h', l', s'. split; [exact E|]. split; [|exact HT].
    assert (Hrs : match run sample_cookie KeyCompare sample_ops 0 three_records with Ok ((rs, _), _) => rs | _ => [] end = [(0, 0); (0, 0); (1, 8216); (0, 0); (0, 0)])
      by (vm_compute; reflexivity). by rewrite E in Hrs.
Defined.

(** The tree of two records. *)
Definition tree_node : node := mkNode 0 0 0 2 (8216 :: 8240 :: replicate 18 0).
Definition other_blocks : blocks := delete 8288 tree_blocks.

Lemma one_node (s : DTCBinMalloc) A h n tail : heap s A -> A !! h = Some (node_bytes n ++ tail) -> node_ok n -> HN s (delete h A) {[h := n]}.
Proof.
  intros HA Hh Hn. exists A. split; [done|]. split.
  - intros x m [<- <-]%lookup_singleton_Some. split; [split; [done|by eexists]|apply lookup_delete_eq].
  - intros x Hx%lookup_singleton_None. by rewrite lookup_delete_ne.
Defined.
Lemma tree_nodes : HN sample_tree other_blocks {[8288 := tree_node]}.
Proof. apply (one_node sample_tree tree_blocks 8288 tree_node [0]); [apply tree_heap|vm_compute; reflexivity|]. split; try done. refine (bool_decide_eq_true_1 _ _). vm_compute. reflexivity. Defined.

Lemma tree_record_1 : is_rec sample_cookie KeyCompare other_blocks 8216 /\ key_at sample_cookie KeyCompare other_blocks 8216 = set_u64 10.
Proof. apply record_at. vm_compute. reflexivity. Defined.
Lemma tree_record_2 : is_rec sample_cookie KeyCompare other_blocks 8240 /\ key_at sample_cookie KeyCompare other_blocks 8240 = set_u64 20.
Proof. apply record_at. vm_compute. reflexivity. Defined.

Definition two_records : tree := Node 8288 Leaf 0 [8216; 8240] Leaf.
Lemma two_records_balanced : balanced two_records.
Proof. cbn. split_and!; done || lia. Defined.
Lemma two_records_rep : rep {[8288 := tree_node]} two_records.
Proof. cbn [rep two_records]. split; [|split; exact I]. exists (replicate 18 0). rewrite lookup_singleton_eq. reflexivity. Defined.
Lemma two_records_handles (x : Z) : is_Some (({[8288 := tree_node]} : gmap Z node) !! x) <-> x ∈ handles two_records.
Proof.
  cbn [handles app two_records]. split.
  - intros [m [<- _]%lookup_singleton_Some]. by left.
  - intros ->%list_elem_of_singleton. rewrite lookup_singleton_eq. by eexists.
Defined.
Lemma two_records_sorted : StronglySorted (lt_rec ord (key_at sample_cookie KeyCompare other_blocks)) [8216; 8240].
Proof.
  apply SSorted_cons; [apply SSorted_cons; constructor|]. apply Forall_singleton. unfold lt_rec.
  rewrite (proj2 tree_record_1), (proj2 tree_record_2). vm_compute. reflexivity.
Defined.

Lemma sample_Tree : Tree sample_cookie KeyCompare other_blocks sample_tree 8288 [8216; 8240].
Proof.
  exists two_records, {[8288 := tree_node]}. split; [apply tree_nodes|]. split; [apply two_records_rep|]. split; [|split; [reflexivity|split; [reflexivity|apply two_records_handles]]].
  split; [apply two_records_balanced|apply two_records_sorted| |apply NoDup_singleton].
  apply Forall_cons. split; [apply tree_record_1|]. apply Forall_singleton, tree_record_2.
Defined.

Lemma Find_logarithmic_witness : exists n : nat, 2 ^ (Z.of_nat n / 2) <= 3 /\
  forall fuel, (n <= fuel)%nat -> exists res, TtreeNode_Find sample_cookie KeyCompare fuel 8288 (set_u64 20) sample_tree = Ok (res, sample_tree).
Proof.
  destruct (Find_logarithmic sample_cookie KeyCompare other_blocks sample_tree 8288 [8216; 8240] (set_u64 20)) as (n & res & Hn & _ & _ & Hf);
    [apply sample_Tree|done|apply sample_valid; lia|]. exists n. split; [exact Hn|]. intros fuel Hfuel. exists res. by apply Hf.
Defined.

(** A visitor that collects the keys. *)
Definition collect : ItemVisit (S := DTCBinMalloc) (list Z) := fun a c => h ← mread 8 a; k ← convert_cvalue sample_cookie h; u ← lift (val_u64 k); mret (0, u :: c).
Definition collects (x : Z) (c : list Z) : Z * list Z := (0, num_of false (key_at sample_cookie KeyCompare other_blocks x) :: c).
Lemma collect_convert s F N a x c : HN (S := DTCBinMalloc) s F N -> is_rec sample_cookie KeyCompare F x -> mread 8 a s = Ok (x, s) ->
  collect a c s = Ok ((0, num_of false (key_at sample_cookie KeyCompare F x) :: c), s).
Proof.
  intros HH Hx Ha. unfold collect. rewrite (bind_ok _ _ _ _ _ Ha).
  destruct (wp_convert sample_cookie KeyCompare s F N x (fun v s' => v = key_at sample_cookie KeyCompare F x /\ s' = s) HH Hx) as (v & s' & E & -> & ->); [done|].
  rewrite (bind_ok _ _ _ _ _ E). apply is_rec_inv in Hx as (bs & _ & Hr). cbn in Hr. unfold int_rec_key in Hr. case_decide as Hd; [|done].
  injection Hr as Hr. rewrite <-Hr. reflexivity.
Defined.
Lemma collect_visitor : visitor sample_cookie KeyCompare other_blocks collect collects sample_tree.
Proof. intros a x c Hx Ha. exact (collect_convert sample_tree other_blocks _ a x c tree_nodes Hx Ha). Defined.

Lemma traversals_witness :
  Ttree_traverse_backward_range sample_cookie KeyCompare collect 8288 (set_u64 5) (set_u64 15) [] sample_tree = Ok ((0, [10]), sample_tree).
Proof.
  destruct (traversals sample_cookie KeyCompare other_blocks collect collects sample_tree 8288 [8216; 8240] (set_u64 5) (set_u64 15)) as (_ & _ & _ & Hw & _);
    [apply sample_Tree|apply collect_visitor|apply sample_valid; lia|apply sample_valid; lia|]. rewrite Hw. vm_compute. reflexivity.
Defined.

Lemma Destroy_releases_witness : exists s', Ttree_Destroy 8288 sample_tree = Ok ((0, INVALID_HANDLE), s') /\ heap s' (foldr delete other_blocks [8216; 8240]).
Proof.
  destruct (Destroy_releases sample_cookie KeyCompare other_blocks sample_tree 8288 [8216; 8240] sample_Tree) as (_ & _ & s' & _ & _ & _ & _ & E & HA).
  exists s'. split; [exact E|exact HA].
Defined.

Lemma traverse_incl_integers_witness :
  Ttree_traverse_forward_incl sample_cookie KeyCompare collect 8288 (set_u64 8) 5 [] sample_tree = Ok ((0, [10]), sample_tree).
Proof.
  pose proof (traverse_incl_integers sample_cookie false 8 0 sample_type sample_size other_blocks sample_tree 8288 [8216; 8240] (set_u64 8) 5 collect collects
    sample_Tree collect_visitor (sample_valid 8 ltac:(lia)) ltac:(lia)) as Hw. rewrite Hw. vm_compute. reflexivity.
Defined.

(** A tree of one record. *)
Definition small_tree : DTCBinMalloc := after_ops [sample_insert 0 10 8216] three_records.
Definition small_blocks : blocks := heap_of (mem small_tree) (useds (bottom small_tree) [mkC 24 true; mkC 24 true; mkC 24 true; mkC 184 true]).
Definition small_node : node := mkNode 0 0 0 1 (8216 :: replicate 19 0).
Definition small_rest : blocks := delete 8288 small_blocks.
Lemma small_nodes : HN small_tree small_rest {[8288 := small_node]}.
Proof.
  apply (one_node small_tree small_blocks 8288 small_node [0]); [|vm_compute; reflexivity|].
  - eexists. split; [|reflexivity]. apply Invb_sound; vm_compute; reflexivity.
  - split; try done. refine (bool_decide_eq_true_1 _ _). vm_compute. reflexivity.
Defined.

Lemma Insert_truncates_witness :
  Ttree_Insert sample_cookie KeyCompare 8288 (DWord (10 + 2 ^ 32)) 8264 false small_tree = Ok ((EC_KEY_EXIST, 8288, false), small_tree) /\
  Ttree_Find sample_cookie KeyCompare 8288 (DWord (10 + 2 ^ 32)) small_tree = Ok ((1, 8216), small_tree).
Proof.
  eapply (Insert_truncates sample_cookie false 8 sample_type sample_size small_rest small_tree {[8288 := small_node]} 8288 8216 _ (replicate 19 0) (10 + 2 ^ 32) 8264 false small_nodes);
    [apply lookup_singleton_eq|apply lookup_singleton_ne; lia|vm_compute; reflexivity|vm_compute; lia|lia|vm_compute; reflexivity].
Defined.

Lemma Delete_last_isFreeNode_witness : exists s', Ttree_Delete sample_cookie KeyCompare 8288 (set_u64 10) false small_tree = Ok ((0, INVALID_HANDLE, false), s') /\
  HN s' small_rest (delete 8288 {[8288 := small_node]}).
Proof.
  destruct (record_at small_rest 8216 (set_u64 10)) as [R K]; [vm_compute; reflexivity|].
  apply (Delete_last_isFreeNode sample_cookie KeyCompare small_rest small_tree {[8288 := small_node]} 8288 8216 (replicate 19 0) (set_u64 10) false small_nodes);
    [apply lookup_singleton_eq|exact R|apply sample_valid; lia|rewrite K; apply Z.compare_refl].
Defined.

(** A record with the key "abc". *)
Definition word_cookie : CmpCookie :=
  mkCookie (with_fieldList TableSpec.garbage_table [mkField None 255 4 0 0 0 0 0 0; mkField None 255 4 0 0 0 0 0 0]) 1.
Definition word_record : DTCBinMalloc := after_ops [h ← Malloc 1 20; store 4 (key_ptr h) 3;; store 3 (key_ptr h + 4) 0x636261;; mret h] fresh.
Definition word_blocks : blocks := heap_of (mem word_record) (useds (bottom word_record) [mkC 24 true]).

Lemma word_heap : heap word_record word_blocks.
Proof. eexists. split; [|reflexivity]. apply Invb_sound; vm_compute; reflexivity. Defined.

Lemma KeyCompare_strings_witness : exists d, KeyCompare (str_value [65; 66; 68]) word_cookie 8216 word_record = Ok (d, word_record) /\ is_s 32 d /\ Z.sgn d = 1.
Proof.
  destruct (KeyCompare_strings word_cookie true 255 word_record word_blocks 8216 [0; 0; 0; 0; 0; 0; 0; 0; 0; 0; 3; 0; 0; 0; 97; 98; 99; 0; 0; 0] [65; 66; 68]) as (d & E & Hd & Hs);
    [vm_compute; reflexivity|vm_compute; reflexivity|exact word_heap|vm_compute; reflexivity|cbn; lia|vm_compute; discriminate|vm_compute; discriminate| |].
  - refine (bool_decide_eq_true_1 _ _). vm_compute. reflexivity.
  - exists d. split; [exact E|]. split; [exact Hd|]. rewrite Hs. vm_compute. reflexivity.
Defined.
End TreeSpec.
