(* ===== verification/RawData.v ===== *)
(** The rows of a key in one chunk: [cache/raw_data.h] and [cache/raw_data.cc].

    A [RawData] is an object outside the shared segment that reads and writes a chunk
    inside it through the allocator's interface [Mallocator]: a header with the sizes and
    the access times, the key, and the rows one after the other. The methods are
    computations on the object and the allocator. The macros of the source jump to the
    label [ERROR_RET] when an access would leave the chunk; here they answer [None].
    A pointer into the segment is an address of the allocator, so a row that was decoded
    points into the chunk it came from. *)
From Stdlib Require Import ZArith Lia SpecFloat.
From stdpp Require Import base list list_numbers numbers gmap.
From S2P Require Import Prelude Value TableDef Field PtMalloc Mallocator.
Local Open Scope Z_scope.

(** [EnumDataType] and [TOperType] *)
Definition DATA_TYPE_RAW : Z := 0.
Definition OPER_DIRTY : Z := 0x02.
Definition OPER_SELECT : Z := 0x30.
Definition OPER_UPDATE : Z := 0x32.
Definition OPER_INSERT : Z := 0x36.
Definition PRE_DECODE_ROW : Z := 1.
Definition BTYE_MAX_VALUE : Z := 255.
Definition ENOMEM : Z := 12.

(** ** The object *)

Record RawData := mkRaw {
  m_pchContent : Z;
  m_uiDataSize : Z;
  m_uiRowCnt : Z;
  m_uchKeyIdx : Z;
  m_iKeySize : Z;
  m_iLAId : Z;
  m_iLCmodId : Z;
  m_iExpireId : Z;
  m_iTableIdx : Z;
  m_uiKeyStart : Z;
  m_uiDataStart : Z;
  m_uiRowOffset : Z;
  m_uiOffset : Z;
  m_uiLAOffset : Z;
  m_uiGetCountOffset : Z;
  m_uiTimeStampOffSet : Z;
  m_uchGetCount : Z;
  m_LastAccessHour : Z;
  m_LastUpdateHour : Z;
  m_CreateHour : Z;
  m_uiNeedSize : Z;
  _handle : Z;
  _size : Z;
  _tabledef : option DTCTableDefinition
}.

Definition set_block (h c n : Z) (r : RawData) : RawData :=
  mkRaw c r.(m_uiDataSize) r.(m_uiRowCnt) r.(m_uchKeyIdx) r.(m_iKeySize) r.(m_iLAId) r.(m_iLCmodId) r.(m_iExpireId)
    r.(m_iTableIdx) r.(m_uiKeyStart) r.(m_uiDataStart) r.(m_uiRowOffset) r.(m_uiOffset) r.(m_uiLAOffset)
    r.(m_uiGetCountOffset) r.(m_uiTimeStampOffSet) r.(m_uchGetCount) r.(m_LastAccessHour) r.(m_LastUpdateHour)
    r.(m_CreateHour) r.(m_uiNeedSize) h n r.(_tabledef).

Definition set_handle (h : Z) (r : RawData) : RawData :=
  mkRaw r.(m_pchContent) r.(m_uiDataSize) r.(m_uiRowCnt) r.(m_uchKeyIdx) r.(m_iKeySize) r.(m_iLAId) r.(m_iLCmodId)
    r.(m_iExpireId) r.(m_iTableIdx) r.(m_uiKeyStart) r.(m_uiDataStart) r.(m_uiRowOffset) r.(m_uiOffset)
    r.(m_uiLAOffset) r.(m_uiGetCountOffset) r.(m_uiTimeStampOffSet) r.(m_uchGetCount) r.(m_LastAccessHour)
    r.(m_LastUpdateHour) r.(m_CreateHour) r.(m_uiNeedSize) h r.(_size) r.(_tabledef).

Definition set_size (n : Z) (r : RawData) : RawData :=
  mkRaw r.(m_pchContent) r.(m_uiDataSize) r.(m_uiRowCnt) r.(m_uchKeyIdx) r.(m_iKeySize) r.(m_iLAId) r.(m_iLCmodId)
    r.(m_iExpireId) r.(m_iTableIdx) r.(m_uiKeyStart) r.(m_uiDataStart) r.(m_uiRowOffset) r.(m_uiOffset)
    r.(m_uiLAOffset) r.(m_uiGetCountOffset) r.(m_uiTimeStampOffSet) r.(m_uchGetCount) r.(m_LastAccessHour)
    r.(m_LastUpdateHour) r.(m_CreateHour) r.(m_uiNeedSize) r.(_handle) n r.(_tabledef).

Definition set_uiDataSize (v : Z) (r : RawData) : RawData :=
  mkRaw r.(m_pchContent) v r.(m_uiRowCnt) r.(m_uchKeyIdx) r.(m_iKeySize) r.(m_iLAId) r.(m_iLCmodId) r.(m_iExpireId)
    r.(m_iTableIdx) r.(m_uiKeyStart) r.(m_uiDataStart) r.(m_uiRowOffset) r.(m_uiOffset) r.(m_uiLAOffset)
    r.(m_uiGetCountOffset) r.(m_uiTimeStampOffSet) r.(m_uchGetCount) r.(m_LastAccessHour) r.(m_LastUpdateHour)
    r.(m_CreateHour) r.(m_uiNeedSize) r.(_handle) r.(_size) r.(_tabledef).

Definition set_uiRowCnt (v : Z) (r : RawData) : RawData :=
  mkRaw r.(m_pchContent) r.(m_uiDataSize) v r.(m_uchKeyIdx) r.(m_iKeySize) r.(m_iLAId) r.(m_iLCmodId) r.(m_iExpireId)
    r.(m_iTableIdx) r.(m_uiKeyStart) r.(m_uiDataStart) r.(m_uiRowOffset) r.(m_uiOffset) r.(m_uiLAOffset)
    r.(m_uiGetCountOffset) r.(m_uiTimeStampOffSet) r.(m_uchGetCount) r.(m_LastAccessHour) r.(m_LastUpdateHour)
    r.(m_CreateHour) r.(m_uiNeedSize) r.(_handle) r.(_size) r.(_tabledef).

Definition set_uiOffset (v : Z) (r : RawData) : RawData :=
  mkRaw r.(m_pchContent) r.(m_uiDataSize) r.(m_uiRowCnt) r.(m_uchKeyIdx) r.(m_iKeySize) r.(m_iLAId) r.(m_iLCmodId)
    r.(m_iExpireId) r.(m_iTableIdx) r.(m_uiKeyStart) r.(m_uiDataStart) r.(m_uiRowOffset) v r.(m_uiLAOffset)
    r.(m_uiGetCountOffset) r.(m_uiTimeStampOffSet) r.(m_uchGetCount) r.(m_LastAccessHour) r.(m_LastUpdateHour)
    r.(m_CreateHour) r.(m_uiNeedSize) r.(_handle) r.(_size) r.(_tabledef).

Definition set_uiRowOffset (v : Z) (r : RawData) : RawData :=
  mkRaw r.(m_pchContent) r.(m_uiDataSize) r.(m_uiRowCnt) r.(m_uchKeyIdx) r.(m_iKeySize) r.(m_iLAId) r.(m_iLCmodId)
    r.(m_iExpireId) r.(m_iTableIdx) r.(m_uiKeyStart) r.(m_uiDataStart) v r.(m_uiOffset) r.(m_uiLAOffset)
    r.(m_uiGetCountOffset) r.(m_uiTimeStampOffSet) r.(m_uchGetCount) r.(m_LastAccessHour) r.(m_LastUpdateHour)
    r.(m_CreateHour) r.(m_uiNeedSize) r.(_handle) r.(_size) r.(_tabledef).

Definition set_uiLAOffset (v : Z) (r : RawData) : RawData :=
  mkRaw r.(m_pchContent) r.(m_uiDataSize) r.(m_uiRowCnt) r.(m_uchKeyIdx) r.(m_iKeySize) r.(m_iLAId) r.(m_iLCmodId)
    r.(m_iExpireId) r.(m_iTableIdx) r.(m_uiKeyStart) r.(m_uiDataStart) r.(m_uiRowOffset) r.(m_uiOffset) v
    r.(m_uiGetCountOffset) r.(m_uiTimeStampOffSet) r.(m_uchGetCount) r.(m_LastAccessHour) r.(m_LastUpdateHour)
    r.(m_CreateHour) r.(m_uiNeedSize) r.(_handle) r.(_size) r.(_tabledef).

Definition set_uiNeedSize (v : Z) (r : RawData) : RawData :=
  mkRaw r.(m_pchContent) r.(m_uiDataSize) r.(m_uiRowCnt) r.(m_uchKeyIdx) r.(m_iKeySize) r.(m_iLAId) r.(m_iLCmodId)
    r.(m_iExpireId) r.(m_iTableIdx) r.(m_uiKeyStart) r.(m_uiDataStart) r.(m_uiRowOffset) r.(m_uiOffset)
    r.(m_uiLAOffset) r.(m_uiGetCountOffset) r.(m_uiTimeStampOffSet) r.(m_uchGetCount) r.(m_LastAccessHour)
    r.(m_LastUpdateHour) r.(m_CreateHour) v r.(_handle) r.(_size) r.(_tabledef).

Definition set_uchGetCount (v : Z) (r : RawData) : RawData :=
  mkRaw r.(m_pchContent) r.(m_uiDataSize) r.(m_uiRowCnt) r.(m_uchKeyIdx) r.(m_iKeySize) r.(m_iLAId) r.(m_iLCmodId)
    r.(m_iExpireId) r.(m_iTableIdx) r.(m_uiKeyStart) r.(m_uiDataStart) r.(m_uiRowOffset) r.(m_uiOffset)
    r.(m_uiLAOffset) r.(m_uiGetCountOffset) r.(m_uiTimeStampOffSet) v r.(m_LastAccessHour) r.(m_LastUpdateHour)
    r.(m_CreateHour) r.(m_uiNeedSize) r.(_handle) r.(_size) r.(_tabledef).

Definition set_hours (la lu cr : Z) (r : RawData) : RawData :=
  mkRaw r.(m_pchContent) r.(m_uiDataSize) r.(m_uiRowCnt) r.(m_uchKeyIdx) r.(m_iKeySize) r.(m_iLAId) r.(m_iLCmodId)
    r.(m_iExpireId) r.(m_iTableIdx) r.(m_uiKeyStart) r.(m_uiDataStart) r.(m_uiRowOffset) r.(m_uiOffset)
    r.(m_uiLAOffset) r.(m_uiGetCountOffset) r.(m_uiTimeStampOffSet) r.(m_uchGetCount) la lu cr r.(m_uiNeedSize)
    r.(_handle) r.(_size) r.(_tabledef).

Definition set_table (idx : Z) (t : option DTCTableDefinition) (r : RawData) : RawData :=
  mkRaw r.(m_pchContent) r.(m_uiDataSize) r.(m_uiRowCnt) r.(m_uchKeyIdx) r.(m_iKeySize) r.(m_iLAId) r.(m_iLCmodId)
    r.(m_iExpireId) idx r.(m_uiKeyStart) r.(m_uiDataStart) r.(m_uiRowOffset) r.(m_uiOffset) r.(m_uiLAOffset)
    r.(m_uiGetCountOffset) r.(m_uiTimeStampOffSet) r.(m_uchGetCount) r.(m_LastAccessHour) r.(m_LastUpdateHour)
    r.(m_CreateHour) r.(m_uiNeedSize) r.(_handle) r.(_size) t.

Definition set_iTableIdx (v : Z) (r : RawData) : RawData :=
  mkRaw r.(m_pchContent) r.(m_uiDataSize) r.(m_uiRowCnt) r.(m_uchKeyIdx) r.(m_iKeySize) r.(m_iLAId) r.(m_iLCmodId)
    r.(m_iExpireId) v r.(m_uiKeyStart) r.(m_uiDataStart) r.(m_uiRowOffset) r.(m_uiOffset) r.(m_uiLAOffset)
    r.(m_uiGetCountOffset) r.(m_uiTimeStampOffSet) r.(m_uchGetCount) r.(m_LastAccessHour) r.(m_LastUpdateHour)
    r.(m_CreateHour) r.(m_uiNeedSize) r.(_handle) r.(_size) r.(_tabledef).

Definition set_key (idx size la cm ex : Z) (r : RawData) : RawData :=
  mkRaw r.(m_pchContent) r.(m_uiDataSize) r.(m_uiRowCnt) idx size la cm ex r.(m_iTableIdx) r.(m_uiKeyStart)
    r.(m_uiDataStart) r.(m_uiRowOffset) r.(m_uiOffset) r.(m_uiLAOffset) r.(m_uiGetCountOffset)
    r.(m_uiTimeStampOffSet) r.(m_uchGetCount) r.(m_LastAccessHour) r.(m_LastUpdateHour) r.(m_CreateHour)
    r.(m_uiNeedSize) r.(_handle) r.(_size) r.(_tabledef).

Definition set_GetCountOffset (v : Z) (r : RawData) : RawData :=
  mkRaw r.(m_pchContent) r.(m_uiDataSize) r.(m_uiRowCnt) r.(m_uchKeyIdx) r.(m_iKeySize) r.(m_iLAId) r.(m_iLCmodId)
    r.(m_iExpireId) r.(m_iTableIdx) r.(m_uiKeyStart) r.(m_uiDataStart) r.(m_uiRowOffset) r.(m_uiOffset)
    r.(m_uiLAOffset) v r.(m_uiTimeStampOffSet) r.(m_uchGetCount) r.(m_LastAccessHour) r.(m_LastUpdateHour)
    r.(m_CreateHour) r.(m_uiNeedSize) r.(_handle) r.(_size) r.(_tabledef).

Definition set_TimeStampOffSet (v : Z) (r : RawData) : RawData :=
  mkRaw r.(m_pchContent) r.(m_uiDataSize) r.(m_uiRowCnt) r.(m_uchKeyIdx) r.(m_iKeySize) r.(m_iLAId) r.(m_iLCmodId)
    r.(m_iExpireId) r.(m_iTableIdx) r.(m_uiKeyStart) r.(m_uiDataStart) r.(m_uiRowOffset) r.(m_uiOffset)
    r.(m_uiLAOffset) r.(m_uiGetCountOffset) v r.(m_uchGetCount) r.(m_LastAccessHour) r.(m_LastUpdateHour)
    r.(m_CreateHour) r.(m_uiNeedSize) r.(_handle) r.(_size) r.(_tabledef).

Definition set_KeyStart (v : Z) (r : RawData) : RawData :=
  mkRaw r.(m_pchContent) r.(m_uiDataSize) r.(m_uiRowCnt) r.(m_uchKeyIdx) r.(m_iKeySize) r.(m_iLAId) r.(m_iLCmodId)
    r.(m_iExpireId) r.(m_iTableIdx) v r.(m_uiDataStart) r.(m_uiRowOffset) r.(m_uiOffset) r.(m_uiLAOffset)
    r.(m_uiGetCountOffset) r.(m_uiTimeStampOffSet) r.(m_uchGetCount) r.(m_LastAccessHour) r.(m_LastUpdateHour)
    r.(m_CreateHour) r.(m_uiNeedSize) r.(_handle) r.(_size) r.(_tabledef).

Definition set_DataStart (v : Z) (r : RawData) : RawData :=
  mkRaw r.(m_pchContent) r.(m_uiDataSize) r.(m_uiRowCnt) r.(m_uchKeyIdx) r.(m_iKeySize) r.(m_iLAId) r.(m_iLCmodId)
    r.(m_iExpireId) r.(m_iTableIdx) r.(m_uiKeyStart) v r.(m_uiRowOffset) r.(m_uiOffset) r.(m_uiLAOffset)
    r.(m_uiGetCountOffset) r.(m_uiTimeStampOffSet) r.(m_uchGetCount) r.(m_LastAccessHour) r.(m_LastUpdateHour)
    r.(m_CreateHour) r.(m_uiNeedSize) r.(_handle) r.(_size) r.(_tabledef).

(** The constructor, with what the memory held before in the two members it leaves out. *)
Definition RawData_new (junk_lcmod : Z) (junk_def : option DTCTableDefinition) : RawData :=
  mkRaw 0 0 0 255 0 (-1) junk_lcmod (-1) (-1) 0 0 0 0 0 0 0 0 0 0 0 0 INVALID_HANDLE 0 junk_def.

(** What the methods ask of the process around them: [TableDefinitionManager],
    [DTCColExpand], [RELATIVE_HOUR_CALCULATOR] and [malloc] of the C library. *)
Record Env := mkEnv {
  _def : Z -> option DTCTableDefinition;
  is_expanding : bool;
  cur_table_idx : Z;
  get_relative_hour : Z;
  sys_malloc : Z -> bool
}.
Definition get_table_def_by_idx (env : Env) (idx : Z) : option DTCTableDefinition := env.(_def) (Z.rem idx 2).

(** ** Rows

    A field is a [union DTCValue] of 16 bytes: the first eight are [s64], [u64] and [flt],
    the first four also [bin.len], the second eight [bin.ptr]. Nothing says which member
    was written last. A pointer goes into private memory or into the segment. *)
Inductive pointer := PNull | PMem (bs : list Z) | PSeg (a : Z).
Record cell := mkCell { u64_ : Z; bin_ptr : pointer }.
Record DataRow := mkDataRow { table_definition : DTCTableDefinition; cells : list cell }.

Definition bin_len (c : cell) : Z := s32 c.(u64_).
Definition set_word (w : Z) (c : cell) : cell := mkCell w c.(bin_ptr).
Definition set_bin (n : Z) (p : pointer) (c : cell) : cell := mkCell (Z.shiftr c.(u64_) 32 * 2 ^ 32 + u32 n) p.
Definition cell_at (row : DataRow) (j : Z) : outcome cell :=
  match row.(cells) !! Z.to_nat j with Some c => Ok c | None => Fault end.
Definition upd_cell (row : DataRow) (j : Z) (f : cell -> cell) : DataRow :=
  mkDataRow row.(table_definition) (alter f (Z.to_nat j) row.(cells)).

Definition is_discard (t : DTCTableDefinition) (j : Z) : outcome bool :=
  let! f := field_flags t j in Ok (negb (Z.land f FF_DISCARD =? 0)).

(** The fields [for (j = m_uchKeyIdx + 1; j <= num_fields(); j++)] goes through. *)
Definition fields_from (keyIdx : Z) (t : DTCTableDefinition) : list Z := seqZ (keyIdx + 1) (t.(numFields) - keyIdx).

(** [calc_row_size] *)
Fixpoint row_size_from (row : DataRow) (js : list Z) (tSize : Z) : outcome Z :=
  match js with
  | [] => Ok tSize
  | j :: js =>
    let! skip := is_discard row.(table_definition) j in
    if (skip : bool) then row_size_from row js tSize else
    let! type := field_type row.(table_definition) j in
    let! size := field_size row.(table_definition) j in
    if (type =? DField.Signed) || (type =? DField.Unsigned) then row_size_from row js (u32 (tSize + (if 4 <? size then 8 else 4)))
    else if type =? DField.Float then row_size_from row js (u32 (tSize + (if 4 <? size then 8 else 4)))
    else let! c := cell_at row j in row_size_from row js (u32 (u32 (tSize + 4) + bin_len c))
  end.
Definition calc_row_size (row : DataRow) (keyIdx : Z) : outcome Z :=
  row_size_from row (fields_from keyIdx row.(table_definition)) 1.

Section RawData.
Context {S : Type} `{!Mallocator S}.

#[local] Abbreviation RD := (ST (RawData * S)).

(** On the allocator; the fields of the object. *)
Definition on_mem {A} (m : ST S A) : RD A := fun st => let! p := m st.2 in Ok (p.1, (st.1, p.2)).
Definition get {A} (f : RawData -> A) : RD A := gets (fun st => f st.1).
Definition upd (g : RawData -> RawData) : RD unit := modify (fun st => (g st.1, st.2)).

(** [goto ERROR_RET] is [None]. *)
Definition or_error {A B} (m : RD (option A)) (f : A -> RD (option B)) : RD (option B) :=
  x ← m; match x with Some a => f a | None => mret None end.
Definition error_ret {A} (m : RD (option A)) (label : RD A) : RD A :=
  x ← m; match x with Some a => mret a | None => label end.

(** ** The macros *)

Definition GET_VALUE (n : nat) : RD (option Z) :=
  off ← get m_uiOffset; size ← get _size;
  if size <? off + Z.of_nat n then mret None else
  p ← get m_pchContent; v ← on_mem (mread n (p + off));
  upd (set_uiOffset (u32 (off + Z.of_nat n)));; mret (Some v).
Definition GET_VALUE_AT_OFFSET (n : nat) (off : Z) : RD (option Z) :=
  size ← get _size;
  if size <? off + Z.of_nat n then mret None else
  p ← get m_pchContent; v ← on_mem (mread n (p + off)); mret (Some v).
Definition SET_VALUE (x : Z) (n : nat) : RD (option unit) :=
  off ← get m_uiOffset; size ← get _size;
  if size <? off + Z.of_nat n then mret None else
  p ← get m_pchContent; on_mem (mwrite n (p + off) x);;
  upd (set_uiOffset (u32 (off + Z.of_nat n)));; mret (Some tt).
Definition SET_VALUE_AT_OFFSET (x : Z) (n : nat) (off : Z) : RD (option unit) :=
  size ← get _size;
  if size <? off + Z.of_nat n then mret None else
  p ← get m_pchContent; on_mem (mwrite n (p + off) x);; mret (Some tt).
(** [SKIP_SIZE] of an [int] and of a [sizeof]. *)
Definition SKIP_SIZE (s : Z) : RD (option unit) :=
  off ← get m_uiOffset; size ← get _size;
  if size <? u32 (off + s) then mret None else upd (set_uiOffset (u32 (off + s)));; mret (Some tt).
Definition SKIP_SIZEOF (n : nat) : RD (option unit) :=
  off ← get m_uiOffset; size ← get _size;
  if size <? off + Z.of_nat n then mret None else upd (set_uiOffset (u32 (off + Z.of_nat n)));; mret (Some tt).

(** [memmove] of [n] bytes; the bytes are read before the first is written. *)
Definition chunk_move (dst src n : Z) : RD unit :=
  v ← on_mem (mread (Z.to_nat n) src); on_mem (mwrite (Z.to_nat n) dst v).
(** [n] bytes behind a pointer. *)
Definition read_pointer (p : pointer) (n : Z) : RD Z :=
  if n <? 0 then fault else
  match p with
  | PNull => fault
  | PMem bs => if Z.of_nat (length bs) <? n then fault else mret (le_value (take (Z.to_nat n) bs))
  | PSeg a => on_mem (mread (Z.to_nat n) a)
  end.
(** [memcpy] from a pointer to the address [dst]. *)
Definition memcpy_from (dst : Z) (p : pointer) (n : Z) : RD unit :=
  v ← read_pointer p n; on_mem (mwrite (Z.to_nat n) dst v).
Definition SET_BIN_VALUE (p : pointer) (n : Z) : RD (option unit) :=
  off ← get m_uiOffset; size ← get _size;
  if size <? u64 (off + 4 + n) then mret None else
  c ← get m_pchContent; on_mem (mwrite 4 (c + off) n);;
  upd (set_uiOffset (u32 (off + 4)));;
  (if negb (n =? 0) then off ← get m_uiOffset; memcpy_from (c + off) p n else mret tt);;
  off ← get m_uiOffset; upd (set_uiOffset (u32 (off + n)));; mret (Some tt).

(** ** Making and attaching a chunk *)

Definition wipe_handle : RD unit := upd (set_handle INVALID_HANDLE);; upd (set_size 0).

(** [init_timp_stamp], [attach_time_stamp] *)
Definition init_timp_stamp (env : Env) : RD unit :=
  p ← get m_pchContent; if p =? 0 then mret tt else
  off ← get m_uiOffset; size ← get _size;
  if size <? off + 6 then mret tt else
  let h := u16 env.(get_relative_hour) in
  upd (set_hours h h h);;
  t ← get m_uiTimeStampOffSet;
  on_mem (mwrite 2 (p + t) h);; on_mem (mwrite 2 (p + t + 2) h);; on_mem (mwrite 2 (p + t + 4) h).
Definition attach_time_stamp : RD unit :=
  p ← get m_pchContent; if p =? 0 then mret tt else
  t ← get m_uiTimeStampOffSet; size ← get _size;
  if size <? t + 6 then mret tt else
  la ← on_mem (mread 2 (p + t)); lu ← on_mem (mread 2 (p + t + 2)); cr ← on_mem (mread 2 (p + t + 4));
  upd (set_hours la lu cr).

(** [iKeySize != 0 ? iKeySize : 1 + *(unsigned char * )pchKey] *)
Definition key_bytes_size (iKeySize : Z) (pchKey : list Z) : outcome Z :=
  if negb (iKeySize =? 0) then Ok iKeySize else
  match pchKey with b :: _ => Ok (1 + b) | [] => Fault end.

(** [2 + sizeof(uint32_t) * 2 + sizeof(uint16_t) * 3 + ks] *)
Definition head_size (ks : Z) : Z := 16 + ks.

Definition set_header (env : Env) (ks : Z) (pchKey : list Z) : RD (option unit) :=
  idx ← get m_iTableIdx; dsize ← get m_uiDataSize; cnt ← get m_uiRowCnt;
  or_error (SET_VALUE (Z.land (Z.shiftl idx 7) 0x80 + DATA_TYPE_RAW) 1) (fun _ =>
  or_error (SET_VALUE dsize 4) (fun _ =>
  or_error (SET_VALUE cnt 4) (fun _ =>
  off ← get m_uiOffset; upd (set_GetCountOffset off);;
  upd (set_uchGetCount 1);;
  or_error (SET_VALUE 1 1) (fun _ =>
  off ← get m_uiOffset; upd (set_TimeStampOffSet off);;
  init_timp_stamp env;;
  or_error (SKIP_SIZEOF 6) (fun _ =>
  off ← get m_uiOffset; upd (set_KeyStart off);;
  p ← get m_pchContent; memcpy_from (p + off) (PMem pchKey) ks;;
  upd (set_uiOffset (u32 (off + ks)));;
  off ← get m_uiOffset; upd (set_DataStart off);; upd (set_uiRowOffset off);;
  mret (Some tt)))))).

(** [Init(uchKeyIdx, iKeySize, pchKey, uiDataSize, laId, expireId, nodeIdx)] *)
Definition Init_key (env : Env) (uchKeyIdx iKeySize : Z) (pchKey : list Z) (uiDataSize laId expireId nodeIdx : Z) : RD Z :=
  ks ← lift (key_bytes_size iKeySize pchKey);
  let uiDataSize := u32 (uiDataSize + head_size ks) in
  wipe_handle;;
  h ← on_mem (malloc uiDataSize);
  upd (set_handle h);;
  if h =? INVALID_HANDLE then upd (set_uiNeedSize uiDataSize);; mret EC_NO_MEM else
  n ← on_mem (block_size h);
  upd (set_size n);;
  upd (set_uiDataSize (u32 (head_size ks)));; upd (set_uiRowCnt 0);;
  cm ← get m_iLCmodId; upd (set_key uchKeyIdx iKeySize laId cm expireId);;
  upd (set_block h h n);; upd (set_uiOffset 0);; upd (set_uiLAOffset 0);;
  (if negb (nodeIdx =? -1) then upd (set_iTableIdx nodeIdx) else mret tt);;
  idx ← get m_iTableIdx;
  if negb (idx =? 0) && negb (idx =? 1) then mret (-100) else
  error_ret (or_error (set_header env ks pchKey) (fun _ => mret (Some 0))) (mret (-100)).

(** [Init(pchKey, uiDataSize)] *)
Definition RawData_Init (env : Env) (pchKey : list Z) (uiDataSize : Z) : RD Z :=
  let idx := if env.(is_expanding) then Z.rem (env.(cur_table_idx) + 1) 2 else Z.rem env.(cur_table_idx) 2 in
  upd (set_iTableIdx idx);;
  if negb (idx =? 0) && negb (idx =? 1) then mret (-1) else
  upd (set_table idx (get_table_def_by_idx env idx));;
  match get_table_def_by_idx env idx with
  | None => mret (-1)
  | Some t =>
    Init_key env (u8 (t.(keyFields) - 1)) t.(keyFormat) pchKey uiDataSize t.(hasLastacc) t.(hasExpireTime) (-1)
  end.

Definition attach_header (uchKeyIdx iKeySize laid lcmodid expireid : Z) : RD (option Z) :=
  or_error (GET_VALUE 1) (fun uchType =>
  if negb (Z.land uchType 0x7f =? DATA_TYPE_RAW) then mret (Some (-2)) else
  or_error (GET_VALUE 4) (fun v => upd (set_uiDataSize v);;
  or_error (GET_VALUE 4) (fun v => upd (set_uiRowCnt v);;
  off ← get m_uiOffset; upd (set_GetCountOffset off);;
  or_error (GET_VALUE 1) (fun v => upd (set_uchGetCount v);;
  off ← get m_uiOffset; upd (set_TimeStampOffSet off);;
  attach_time_stamp;;
  or_error (SKIP_SIZEOF 6) (fun _ =>
  dsize ← get m_uiDataSize; size ← get _size;
  if size <? dsize then mret (Some (-3)) else
  off ← get m_uiOffset;
  upd (set_KeyStart off);; upd (set_key uchKeyIdx iKeySize laid lcmodid expireid);;
  p ← get m_pchContent;
  ks ← (if negb (iKeySize =? 0) then mret iKeySize else b ← on_mem (mread 1 (p + off)); mret (1 + b));
  or_error (SKIP_SIZE ks) (fun _ =>
  off ← get m_uiOffset; upd (set_DataStart off);; upd (set_uiRowOffset off);;
  mret (Some 0))))))).

(** [Attach(hHandle, uchKeyIdx, iKeySize, laid, lcmodid, expireid)] *)
Definition Attach_key (hHandle uchKeyIdx iKeySize laid lcmodid expireid : Z) : RD Z :=
  n ← on_mem (block_size hHandle);
  upd (set_size n);;
  if n =? 0 then mret (-1) else
  upd (set_block hHandle hHandle n);; upd (set_uiOffset 0);; upd (set_uiLAOffset 0);;
  error_ret (attach_header uchKeyIdx iKeySize laid lcmodid expireid) (mret (-100)).

(** [Attach(hHandle)]: the type byte is read first. *)
Definition RawData_Attach (env : Env) (hHandle : Z) : RD Z :=
  upd (set_handle hHandle);;
  b ← on_mem (mread 1 hHandle);
  let idx := Z.land (Z.shiftr (s8 b) 7) 0x01 in
  upd (set_iTableIdx idx);;
  if negb (idx =? 0) && negb (idx =? 1) then mret (-1) else
  upd (set_table idx (get_table_def_by_idx env idx));;
  match get_table_def_by_idx env idx with
  | None => mret (-1)
  | Some t =>
    Attach_key hHandle (u8 (t.(keyFields) - 1)) t.(keyFormat) t.(hasLastacc) t.(hasLastcmod) t.(hasExpireTime)
  end.

Definition RawData_Destroy : RD Z :=
  h ← get _handle;
  if h =? INVALID_HANDLE then upd (set_size 0);; mret 0 else
  r ← on_mem (free h);
  wipe_handle;; mret r.

(** [check_size]: the type byte is compared without the mask of [Attach]. *)
Definition check_size (hHandle size : Z) : RD Z :=
  n ← on_mem (block_size hHandle);
  upd (set_size n);;
  if n =? 0 then mret (-1) else
  upd (set_block hHandle hHandle n);; upd (set_uiOffset 0);; upd (set_uiLAOffset 0);;
  error_ret
    (or_error (GET_VALUE 1) (fun uchType =>
     if negb (uchType =? DATA_TYPE_RAW) then mret (Some (-2)) else
     or_error (GET_VALUE 4) (fun v => upd (set_uiDataSize v);;
     if negb (v =? u32 size) then mret (Some (-1)) else mret (Some 0))))
    (mret (-1)).

(** ** The size of the chunk *)

(** [_mallocator->ReAlloc(_handle, tSize)] and what follows it: the object points to
    the new chunk, or remembers what it lacked. *)
Definition re_alloc (tSize : Z) : RD Z :=
  h ← get _handle;
  hTmp ← on_mem (realloc h tSize);
  if hTmp =? INVALID_HANDLE then upd (set_uiNeedSize tSize);; mret EC_NO_MEM else
  n ← on_mem (block_size hTmp);
  upd (set_block hTmp hTmp n);; mret 0.

Definition strip_mem : RD Z := dsize ← get m_uiDataSize; re_alloc dsize.

Definition expand_chunk (tExpSize : Z) : RD Z :=
  h ← get _handle;
  if h =? INVALID_HANDLE then mret (-1) else
  dsize ← get m_uiDataSize; size ← get _size;
  if size <? u32 (dsize + tExpSize) then re_alloc (u32 (dsize + tExpSize)) else mret 0.

Definition re_alloc_chunk (tSize : Z) : RD Z :=
  size ← get _size; if size <? tSize then re_alloc tSize else mret 0.

(** [set_data_size], [set_row_count]: both fall through into [ERROR_RET] after the
    store, so they answer -100 always; no caller looks. *)
Definition set_data_size : RD Z :=
  v ← get m_uiDataSize; SET_VALUE_AT_OFFSET v 4 1;; mret (-100).
Definition set_row_count : RD Z :=
  v ← get m_uiRowCnt; SET_VALUE_AT_OFFSET v 4 5;; mret (-100).

(** ** Reading rows *)

(** One field: what is done to its cell, if anything, and whether to go on. *)
Definition read_word (m : RD (option Z)) (f : Z -> Z) : RD (option (cell -> cell) * bool) :=
  v ← m; mret (match v with Some v => (Some (set_word (f v)), true) | None => (None, false) end).
Definition decode_cell (type size : Z) : RD (option (cell -> cell) * bool) :=
  if type =? DField.Signed then
    if 4 <? size then read_word (GET_VALUE 8) (fun v => v) else read_word (GET_VALUE 4) (fun v => u64 (s32 v))
  else if type =? DField.Unsigned then
    if 4 <? size then read_word (GET_VALUE 8) (fun v => v) else read_word (GET_VALUE 4) (fun v => v)
  else if type =? DField.Float then
    if 4 <? size then read_word (GET_VALUE 8) (fun v => v) else read_word (GET_VALUE 4) dbl_of_flt
  else
    v ← GET_VALUE 4;
    match v with
    | Some v =>
      p ← get m_pchContent; off ← get m_uiOffset;
      ok ← SKIP_SIZE (s32 v);
      mret (Some (set_bin (s32 v) (PSeg (p + off))), match ok with Some _ => true | None => false end)
    | None => mret (None, false)
    end.

Fixpoint decode_fields (row : DataRow) (js : list Z) : RD (DataRow * bool) :=
  match js with
  | [] => mret (row, true)
  | j :: js =>
    skip ← lift (is_discard row.(table_definition) j);
    if (skip : bool) then decode_fields row js else
    la ← get m_iLAId;
    (if j =? la then off ← get m_uiOffset; upd (set_uiLAOffset off) else mret tt);;
    type ← lift (field_type row.(table_definition) j);
    size ← lift (field_size row.(table_definition) j);
    cb ← decode_cell type size;
    let row := match cb.1 with Some f => upd_cell row j f | None => row end in
    if (cb.2 : bool) then decode_fields row js else mret (row, false)
  end.

(** The reference parameters are results: the row and the row's flags. *)
Definition decode_row (stRow : DataRow) (uchRowFlags iDecodeFlag : Z) : RD (Z * DataRow * Z) :=
  h ← get _handle; p ← get m_pchContent;
  if (h =? INVALID_HANDLE) || (p =? 0) then mret (-1, stRow, uchRowFlags) else
  uiOldOffset ← get m_uiOffset; uiOldRowOffset ← get m_uiRowOffset;
  upd (set_uiLAOffset 0);; upd (set_uiRowOffset uiOldOffset);;
  f ← GET_VALUE 1;
  keyIdx ← get m_uchKeyIdx;
  r ← (match f with
       | Some f =>
         rb ← decode_fields stRow (fields_from keyIdx stRow.(table_definition));
         mret ((if (rb.2 : bool) then 0 else -100), rb.1, f)
       | None => mret (-100, stRow, uchRowFlags)
       end);
  (if negb (Z.land iDecodeFlag PRE_DECODE_ROW =? 0)
   then upd (set_uiOffset uiOldOffset);; upd (set_uiRowOffset uiOldRowOffset) else mret tt);;
  mret r.

Definition rewind : RD unit := o ← get m_uiDataStart; upd (set_uiOffset o);; upd (set_uiRowOffset o).

(** [SKIP_SIZE] over one field, in [skip_row], [get_lastcmod] and [get_expire_time] *)
Definition skip_field (type size : Z) : RD (option unit) :=
  if (type =? DField.Unsigned) || (type =? DField.Signed) then if 4 <? size then SKIP_SIZEOF 8 else SKIP_SIZEOF 4
  else if type =? DField.Float then if 4 <? size then SKIP_SIZEOF 8 else SKIP_SIZEOF 4
  else or_error (GET_VALUE 4) (fun v => SKIP_SIZE (s32 v)).

Fixpoint skip_fields (t : DTCTableDefinition) (js : list Z) : RD (option unit) :=
  match js with
  | [] => mret (Some tt)
  | j :: js =>
    skip ← lift (is_discard t j);
    if (skip : bool) then skip_fields t js else
    type ← lift (field_type t j); size ← lift (field_size t j);
    or_error (skip_field type size) (fun _ => skip_fields t js)
  end.

Definition skip_row (stRow : DataRow) : RD Z :=
  h ← get _handle; p ← get m_pchContent;
  if (h =? INVALID_HANDLE) || (p =? 0) then mret (-1) else
  ro ← get m_uiRowOffset; upd (set_uiOffset ro);;
  dsize ← get m_uiDataSize;
  if dsize <=? ro then mret (-2) else
  keyIdx ← get m_uchKeyIdx;
  error_ret (or_error (SKIP_SIZEOF 1) (fun _ =>
    or_error (skip_fields stRow.(table_definition) (fields_from keyIdx stRow.(table_definition))) (fun _ => mret (Some 0))))
    (mret (-100)).

(** [get_lastcmod]: every field is skipped, the last modification time read on the way. *)
Fixpoint lastcmod_fields (t : DTCTableDefinition) (js : list Z) (lastcmod : Z) : RD (option Z * Z) :=
  match js with
  | [] => mret (Some 0, lastcmod)
  | j :: js =>
    skip ← lift (is_discard t j);
    if (skip : bool) then lastcmod_fields t js lastcmod else
    id ← get m_iLCmodId;
    lastcmod ← (if j =? id then p ← get m_pchContent; off ← get m_uiOffset; on_mem (mread 4 (p + off)) else mret lastcmod);
    type ← lift (field_type t j); size ← lift (field_size t j);
    ok ← skip_field type size;
    match ok with Some _ => lastcmod_fields t js lastcmod | None => mret (None, lastcmod) end
  end.
Definition get_lastcmod : RD (Z * Z) :=
  h ← get _handle; p ← get m_pchContent;
  if (h =? INVALID_HANDLE) || (p =? 0) then mret (-1, 0) else
  off ← get m_uiOffset; upd (set_uiRowOffset off);;
  ok ← SKIP_SIZEOF 1;
  match ok with
  | None => mret (-100, 0)
  | Some _ =>
    keyIdx ← get m_uchKeyIdx; t ← get _tabledef;
    match t with
    | None => fault
    | Some t =>
      x ← lastcmod_fields t (fields_from keyIdx t) 0;
      mret (match x.1 with Some r => r | None => -100 end, x.2)
    end
  end.

(** [get_expire_time]: unlike the other loops this one does not pass over discarded
    fields, which are not stored. *)
Fixpoint expire_fields (t : DTCTableDefinition) (js : list Z) : RD (option Z) :=
  match js with
  | [] => mret (Some 0)
  | j :: js =>
    id ← get m_iExpireId;
    if j =? id then p ← get m_pchContent; off ← get m_uiOffset; v ← on_mem (mread 4 (p + off)); mret (Some v) else
    type ← lift (field_type t j); size ← lift (field_size t j);
    or_error (skip_field type size) (fun _ => expire_fields t js)
  end.
Definition get_expire_time : RD (Z * Z) :=
  h ← get _handle; p ← get m_pchContent;
  if (h =? INVALID_HANDLE) || (p =? 0) then mret (-1, 0) else
  id ← get m_iExpireId;
  if id =? -1 then mret (0, 0) else
  x ← or_error (SKIP_SIZEOF 1) (fun _ =>
    keyIdx ← get m_uchKeyIdx; t ← get _tabledef;
    match t with None => fault | Some t => expire_fields t (fields_from keyIdx t) end);
  mret (match x with Some v => (0, v) | None => (-100, 0) end).

(** ** Writing rows *)

Definition encode_cell (type size : Z) (v : cell) : RD (option unit) :=
  if type =? DField.Signed then if 4 <? size then SET_VALUE v.(u64_) 8 else SET_VALUE v.(u64_) 4
  else if type =? DField.Unsigned then if 4 <? size then SET_VALUE v.(u64_) 8 else SET_VALUE v.(u64_) 4
  else if type =? DField.Float then if 4 <? size then SET_VALUE v.(u64_) 8 else SET_VALUE (flt_of_dbl v.(u64_)) 4
  else SET_BIN_VALUE v.(bin_ptr) (bin_len v).
Fixpoint encode_fields (row : DataRow) (js : list Z) : RD (option unit) :=
  match js with
  | [] => mret (Some tt)
  | j :: js =>
    skip ← lift (is_discard row.(table_definition) j);
    if (skip : bool) then encode_fields row js else
    v ← lift (cell_at row j);
    type ← lift (field_type row.(table_definition) j); size ← lift (field_size row.(table_definition) j);
    or_error (encode_cell type size v) (fun _ => encode_fields row js)
  end.

Definition encode_row (stRow : DataRow) (uchOp : Z) (expendBuf : bool) : RD Z :=
  keyIdx ← get m_uchKeyIdx;
  tSize ← lift (calc_row_size stRow keyIdx);
  iRet ← (if expendBuf then expand_chunk tSize else mret 0);
  if negb (iRet =? 0) then mret iRet else
  error_ret
    (or_error (SET_VALUE uchOp 1) (fun _ =>
     or_error (encode_fields stRow (fields_from keyIdx stRow.(table_definition))) (fun _ =>
     dsize ← get m_uiDataSize; upd (set_uiDataSize (u32 (dsize + tSize)));; set_data_size;;
     cnt ← get m_uiRowCnt; upd (set_uiRowCnt (u32 (cnt + 1)));; set_row_count;;
     mret (Some 0))))
    (mret (-100)).

(** The rows written behind [uiOldSize] become the first ones, by way of a buffer of the
    C library. *)
Definition move_to_front (env : Env) (uiOldSize : Z) : RD Z :=
  dsize ← get m_uiDataSize; start ← get m_uiDataStart; p ← get m_pchContent;
  let uiNewRowSize := u32 (dsize - uiOldSize) in
  if (0 <? uiNewRowSize) && (0 <? u32 (uiOldSize - start)) then
    if negb (env.(sys_malloc) uiNewRowSize) then mret (- ENOMEM) else
    let pchDataStart := p + start in
    pBuf ← on_mem (mread (Z.to_nat uiNewRowSize) (p + uiOldSize));
    chunk_move (pchDataStart + uiNewRowSize) pchDataStart (u32 (uiOldSize - start));;
    on_mem (mwrite (Z.to_nat uiNewRowSize) pchDataStart pBuf);;
    mret 0
  else mret 0.

Definition insert_row_flag (env : Env) (stRow : DataRow) (byFirst : bool) (uchOp : Z) : RD Z :=
  uiOldSize ← get m_uiDataSize;
  upd (set_uiOffset uiOldSize);;
  iRet ← encode_row stRow uchOp true;
  if (iRet =? 0) && byFirst then move_to_front env uiOldSize else mret iRet.
Definition insert_row (env : Env) (stRow : DataRow) (byFirst isDirty : bool) : RD Z :=
  insert_row_flag env stRow byFirst (if isDirty then OPER_INSERT else OPER_SELECT).

Fixpoint rows_size (rows : list DataRow) (keyIdx tSize : Z) : outcome Z :=
  match rows with
  | [] => Ok tSize
  | row :: rows => let! n := calc_row_size row keyIdx in rows_size rows keyIdx (u32 (tSize + n))
  end.
Fixpoint encode_rows (rows : list DataRow) (uchOp : Z) : RD Z :=
  match rows with
  | [] => mret 0
  | row :: rows => iRet ← encode_row row uchOp true; if negb (iRet =? 0) then mret iRet else encode_rows rows uchOp
  end.
Definition insert_n_rows (env : Env) (pstRow : list DataRow) (byFirst isDirty : bool) : RD Z :=
  keyIdx ← get m_uchKeyIdx;
  tSize ← lift (rows_size pstRow keyIdx 0);
  iRet ← expand_chunk tSize;
  if negb (iRet =? 0) then mret iRet else
  uiOldSize ← get m_uiDataSize;
  upd (set_uiOffset uiOldSize);;
  iRet ← encode_rows pstRow (if isDirty then OPER_INSERT else OPER_SELECT);
  if negb (iRet =? 0) then mret iRet else
  if byFirst then move_to_front env uiOldSize else mret 0.

(** The new row is longer: the chunk grows and the rows behind make room. *)
Definition replace_longer (stRow : DataRow) (uchRowFlag uiNewRowSize uiCurRowSize uiNextRowsOffset uiNextRowsSize : Z) : RD Z :=
  dsize ← get m_uiDataSize;
  iRet ← re_alloc (u32 (dsize + uiNewRowSize - uiCurRowSize));
  if negb (iRet =? 0) then mret iRet else
  p ← get m_pchContent;
  (if 0 <? uiNextRowsSize
   then chunk_move (p + uiNextRowsOffset + (uiNewRowSize - uiCurRowSize)) (p + uiNextRowsOffset) uiNextRowsSize else mret tt);;
  ro ← get m_uiRowOffset; upd (set_uiOffset ro);;
  iRet ← encode_row stRow uchRowFlag false;
  if negb (iRet =? 0) then
    (if 0 <? uiNextRowsSize
     then chunk_move (p + uiNextRowsOffset) (p + uiNextRowsOffset + (uiNewRowSize - uiCurRowSize)) uiNextRowsSize else mret tt);;
    mret (-1)
  else
    cnt ← get m_uiRowCnt; upd (set_uiRowCnt (u32 (cnt - 1)));;
    dsize ← get m_uiDataSize; upd (set_uiDataSize (u32 (dsize - uiCurRowSize)));; mret 0.

(** The new row is not longer: it is written, the rows behind move up and the chunk may
    shrink. [encode_row] has already added the new row to [m_uiDataSize] when the size
    to ask for is computed. *)
Definition replace_shorter (env : Env) (stRow : DataRow) (uchRowFlag uiNewRowSize uiCurRowSize uiNextRowsOffset uiNextRowsSize : Z) : RD Z :=
  if negb (env.(sys_malloc) uiCurRowSize) then mret (- ENOMEM) else
  p ← get m_pchContent; ro ← get m_uiRowOffset;
  pTmpBuf ← on_mem (mread (Z.to_nat uiCurRowSize) (p + ro));
  upd (set_uiOffset ro);;
  iRet ← encode_row stRow uchRowFlag false;
  if negb (iRet =? 0) then on_mem (mwrite (Z.to_nat uiCurRowSize) (p + ro) pTmpBuf);; mret (-1) else
  off ← get m_uiOffset;
  (if (0 <? uiNextRowsSize) && negb (off =? uiNextRowsOffset)
   then chunk_move (p + off) (p + uiNextRowsOffset) uiNextRowsSize else mret tt);;
  h ← get _handle; dsize ← get m_uiDataSize;
  hTmp ← on_mem (realloc h (u32 (dsize + uiNewRowSize - uiCurRowSize)));
  (if negb (hTmp =? INVALID_HANDLE) then n ← on_mem (block_size hTmp); upd (set_block hTmp hTmp n) else mret tt);;
  cnt ← get m_uiRowCnt; upd (set_uiRowCnt (u32 (cnt - 1)));;
  dsize ← get m_uiDataSize; upd (set_uiDataSize (u32 (dsize - uiCurRowSize)));; mret 0.

(** [replace_cur_row]: [ERROR_RET] puts the offset back, but the return for a failing
    [malloc] does not. *)
Definition replace_cur_row (env : Env) (stRow : DataRow) (isDirty : bool) : RD Z :=
  uiOldOffset ← get m_uiOffset;
  iRet ← skip_row stRow;
  if negb (iRet =? 0) then upd (set_uiOffset uiOldOffset);; mret iRet else
  ro ← get m_uiRowOffset;
  f ← GET_VALUE_AT_OFFSET 1 ro;
  match f with
  | None => upd (set_uiOffset uiOldOffset);; mret 0
  | Some f =>
    let uchRowFlag := if isDirty then OPER_UPDATE else f in
    keyIdx ← get m_uchKeyIdx;
    uiNewRowSize ← lift (calc_row_size stRow keyIdx);
    off ← get m_uiOffset; dsize ← get m_uiDataSize;
    let uiCurRowSize := u32 (off - ro) in
    iRet ← (if uiCurRowSize <? uiNewRowSize
            then replace_longer stRow uchRowFlag uiNewRowSize uiCurRowSize off (u32 (dsize - off))
            else replace_shorter env stRow uchRowFlag uiNewRowSize uiCurRowSize off (u32 (dsize - off)));
    if iRet =? 0 then set_data_size;; set_row_count;; mret 0
    else (if iRet =? - ENOMEM then mret tt else upd (set_uiOffset uiOldOffset));; mret iRet
  end.

Definition delete_cur_row (stRow : DataRow) : RD Z :=
  uiOldOffset ← get m_uiOffset;
  iRet ← skip_row stRow;
  if negb (iRet =? 0) then upd (set_uiOffset uiOldOffset);; mret iRet else
  p ← get m_pchContent; off ← get m_uiOffset; ro ← get m_uiRowOffset; dsize ← get m_uiDataSize;
  chunk_move (p + ro) (p + off) (u32 (dsize - off));;
  upd (set_uiDataSize (u32 (dsize - (off - ro))));;
  cnt ← get m_uiRowCnt; upd (set_uiRowCnt (u32 (cnt - 1)));;
  set_data_size;; set_row_count;;
  upd (set_uiOffset ro);; mret 0.

Definition delete_all_rows : RD Z :=
  start ← get m_uiDataStart;
  upd (set_uiDataSize start);; upd (set_uiRowOffset start);; upd (set_uiRowCnt 0);; upd (set_uiOffset start);;
  set_data_size;; set_row_count;;
  upd (set_uiNeedSize 0);; mret 0.

Definition set_cur_row_flag (uchFlag : Z) : RD Z :=
  ro ← get m_uiRowOffset; dsize ← get m_uiDataSize;
  if dsize <=? ro then mret (-1) else
  p ← get m_pchContent; on_mem (mwrite 1 (p + ro) uchFlag);; mret 0.

(** Copies from [m_pstRef], another object over the same allocator. *)
Definition copy_row (m_pstRef : RawData) : RD Z :=
  let uiSize := u32 (m_pstRef.(m_uiOffset) - m_pstRef.(m_uiRowOffset)) in
  iRet ← expand_chunk uiSize;
  if negb (iRet =? 0) then mret iRet else
  p ← get m_pchContent; off ← get m_uiOffset;
  chunk_move (p + off) (m_pstRef.(m_pchContent) + m_pstRef.(m_uiRowOffset)) uiSize;;
  upd (set_uiOffset (u32 (off + uiSize)));;
  dsize ← get m_uiDataSize; upd (set_uiDataSize (u32 (dsize + uiSize)));;
  cnt ← get m_uiRowCnt; upd (set_uiRowCnt (u32 (cnt + 1)));;
  set_data_size;; set_row_count;; mret 0.
Definition copy_all (env : Env) (m_pstRef : RawData) : RD Z :=
  iRet ← re_alloc_chunk m_pstRef.(m_uiDataSize);
  if negb (iRet =? 0) then mret iRet else
  p ← get m_pchContent;
  chunk_move p m_pstRef.(m_pchContent) m_pstRef.(m_uiDataSize);;
  h ← get _handle; RawData_Attach env h.

Definition append_n_records (uiNRows : Z) (pchData : pointer) (uiLen : Z) : RD Z :=
  iRet ← expand_chunk uiLen;
  if negb (iRet =? 0) then mret iRet else
  p ← get m_pchContent; dsize ← get m_uiDataSize;
  memcpy_from (p + dsize) pchData uiLen;;
  upd (set_uiDataSize (u32 (dsize + uiLen)));;
  cnt ← get m_uiRowCnt; upd (set_uiRowCnt (u32 (cnt + uiNRows)));;
  set_data_size;; set_row_count;; mret 0.

(** ** Access times *)

Definition update_lastacc (now : Z) : RD unit :=
  la ← get m_uiLAOffset; p ← get m_pchContent;
  if 0 <? la then on_mem (mwrite 4 (p + la) now) else mret tt.
Definition update_last_access_time_by_hour (env : Env) : RD unit :=
  p ← get m_pchContent; if p =? 0 then mret tt else
  t ← get m_uiTimeStampOffSet; size ← get _size;
  if size <? t + 2 then mret tt else
  lu ← get m_LastUpdateHour; cr ← get m_CreateHour;
  let h := u16 env.(get_relative_hour) in
  upd (set_hours h lu cr);; on_mem (mwrite 2 (p + t) h).
Definition update_last_update_time_by_hour (env : Env) : RD unit :=
  p ← get m_pchContent; if p =? 0 then mret tt else
  t ← get m_uiTimeStampOffSet; size ← get _size;
  if size <? t + 4 then mret tt else
  la ← get m_LastAccessHour; cr ← get m_CreateHour;
  let h := u16 env.(get_relative_hour) in
  upd (set_hours la h cr);; on_mem (mwrite 2 (p + t + 2) h).
Definition inc_select_count : RD unit :=
  c ← get m_uchGetCount; if BTYE_MAX_VALUE <=? c then mret tt else
  o ← get m_uiGetCountOffset; size ← get _size;
  if size <? o + 1 then mret tt else
  upd (set_uchGetCount (c + 1));; p ← get m_pchContent; on_mem (mwrite 1 (p + o) (c + 1)).

End RawData.
