(* ===== verification/RawRep.v ===== *)
(** The chunk of a [RawData] in memory: what the macros and loops of [RawData] do to a
    chunk the object owns, and the bytes a row is stored in. *)
From Stdlib Require Import ZArith Lia.
From stdpp Require Import base list list_numbers numbers gmap.
From S2P Require Import Prelude Value TableDef Field PtMalloc PtSpec Mallocator RawData.
Import AllocSpec.
Local Open Scope Z_scope.

(** ** The bytes of a row *)

(** A stored column is a type and a size; a value in it a word or bytes. *)
Definition column : Type := Z * Z.
Inductive fval := FWord (w : Z) | FBin (bs : list Z).

(** How many bytes the word of a column takes; [None] for a length and bytes. *)
Definition col_width (c : column) : option nat :=
  if decide (c.1 = DField.Signed \/ c.1 = DField.Unsigned \/ c.1 = DField.Float) then Some (if decide (c.2 <= 4) then 4%nat else 8%nat) else None.
(** A float of four bytes is stored as a single. *)
Definition stored (c : column) (w : Z) : Z :=
  if decide (c.1 = DField.Float /\ c.2 <= 4) then flt_of_dbl w else w.
Definition enc (c : column) (v : fval) : list Z :=
  match col_width c, v with
  | Some n, FWord w => le_bytes n (stored c w)
  | None, FBin bs => le_bytes 4 (Z.of_nat (length bs)) ++ bs
  | _, _ => []
  end.
Fixpoint encs (cs : list column) (vs : list fval) : list Z :=
  match cs, vs with
  | c :: cs, v :: vs => enc c v ++ encs cs vs
  | _, _ => []
  end.

Definition col_ok (c : column) (v : fval) : Prop :=
  match col_width c, v with
  | Some _, FWord _ => True
  | None, FBin bs => bytes_ok bs /\ Z.of_nat (length bs) < 2 ^ 31
  | _, _ => False
  end.

(** What is left of a word in its column: eight bytes keep it; four bytes keep the low
    half of an unsigned word, the low half with its sign of a signed one, as an [int64_t]
    again, and the nearest single of a double. *)
Definition norm_word (c : column) (w : Z) : Z :=
  if decide (4 < c.2) then w mod 2 ^ 64
  else if decide (c.1 = DField.Float) then dbl_of_flt (flt_of_dbl w mod 2 ^ 32)
  else if decide (c.1 = DField.Signed /\ 2 ^ 31 <= w mod 2 ^ 32) then w mod 2 ^ 32 + (2 ^ 64 - 2 ^ 32)
  else w mod 2 ^ 32.
(** What [decode_row] does to a field whose bytes start at the address [a]. *)
Definition cell_of (c : column) (v : fval) (a : Z) : cell -> cell :=
  match col_width c, v with
  | Some n, FWord w => set_word (norm_word c w)
  | _, FBin bs => set_bin (Z.of_nat (length bs)) (PSeg (a + 4))
  | _, _ => fun x => x
  end.
Fixpoint fill (row : DataRow) (l : list (Z * column)) (vs : list fval) (a : Z) : DataRow :=
  match l, vs with
  | (j, c) :: l, v :: vs => fill (upd_cell row j (cell_of c v a)) l vs (a + Z.of_nat (length (enc c v)))
  | _, _ => row
  end.

(** The field [x] of a row holds the value [v]; a pointer into the segment points into
    one of the blocks [F]. *)
Definition pointed (F : blocks) (p : pointer) (bs : list Z) : Prop :=
  match p with
  | PNull => False
  | PMem m => (length bs <= length m)%nat /\ take (length bs) m = bs
  | PSeg a => exists h pre post, F !! h = Some (pre ++ bs ++ post) /\ a = h + Z.of_nat (length pre)
  end.
Definition cell_val (F : blocks) (c : column) (x : cell) (v : fval) : Prop :=
  match col_width c, v with
  | Some _, FWord w => u64_ x = w
  | None, FBin bs => bin_len x = Z.of_nat (length bs) /\ (bs = [] \/ pointed F (bin_ptr x) bs) /\ bytes_ok bs /\ Z.of_nat (length bs) < 2 ^ 31
  | _, _ => False
  end.
Definition cells_val (F : blocks) (row : DataRow) (l : list (Z * column)) (vs : list fval) : Prop :=
  Forall2 (fun jc v => exists x, cell_at row jc.1 = Ok x /\ cell_val F jc.2 x v) l vs.

Record row := mkRowV { r_flag : Z; r_vals : list fval }.
Definition row_bytes (cs : list column) (r : row) : list Z := le_bytes 1 (r_flag r) ++ encs cs (r_vals r).
Definition row_ok (cs : list column) (r : row) : Prop := is_u 8 (r_flag r) /\ Forall2 col_ok cs (r_vals r).
Definition rows_bytes (cs : list column) (rs : list row) : list Z := concat (row_bytes cs <$> rs).

Lemma rows_bytes_app cs a b : rows_bytes cs (a ++ b) = rows_bytes cs a ++ rows_bytes cs b.
Proof. unfold rows_bytes. by rewrite fmap_app, concat_app. Qed.
Lemma rows_bytes_cons cs r b : rows_bytes cs (r :: b) = row_bytes cs r ++ rows_bytes cs b.
Proof. done. Qed.
Lemma row_bytes_length cs r : length (row_bytes cs r) = Datatypes.S (length (encs cs (r_vals r))).
Proof. unfold row_bytes. by rewrite length_app, le_bytes_length. Qed.

Lemma col_width_cases c n : col_width c = Some n -> n = 4%nat \/ n = 8%nat.
Proof. unfold col_width. case_decide; [|done]. case_decide; intros [= <-]; auto. Qed.

(** The types of the source are different numbers: each switch is one of six cases. *)
Inductive switch_case : Z -> Z -> Prop :=
  | case_signed8 sz : 4 < sz -> switch_case DField.Signed sz
  | case_signed4 sz : sz <= 4 -> switch_case DField.Signed sz
  | case_unsigned8 sz : 4 < sz -> switch_case DField.Unsigned sz
  | case_unsigned4 sz : sz <= 4 -> switch_case DField.Unsigned sz
  | case_float8 sz : 4 < sz -> switch_case DField.Float sz
  | case_float4 sz : sz <= 4 -> switch_case DField.Float sz
  | case_default ty sz : ty <> DField.Signed -> ty <> DField.Unsigned -> ty <> DField.Float -> switch_case ty sz.
Lemma switch_cases ty sz : switch_case ty sz.
Proof.
  destruct (decide (ty = DField.Signed)) as [->|]; [destruct (decide (4 < sz)); [by constructor|constructor; lia]|].
  destruct (decide (ty = DField.Unsigned)) as [->|]; [destruct (decide (4 < sz)); [by constructor|constructor; lia]|].
  destruct (decide (ty = DField.Float)) as [->|]; [destruct (decide (4 < sz)); [by constructor|constructor; lia]|by apply case_default].
Qed.

(** Goes through the cases of a switch and computes the tests of each. *)
Ltac switch_on ty sz :=
  destruct (switch_cases ty sz);
  repeat match goal with
  | H : 4 < ?z |- context [4 <? ?z] => rewrite (proj2 (Z.ltb_lt 4 z) H)
  | H : ?z <= 4 |- context [4 <? ?z] => rewrite (proj2 (Z.ltb_ge 4 z) H)
  | H : ?t <> ?n |- context [?t =? ?n] => rewrite (proj2 (Z.eqb_neq t n) H)
  end;
  repeat (case_decide; try (exfalso; unfold DField.Signed, DField.Unsigned, DField.Float in *; lia));
  cbn [Z.eqb orb Pos.eqb DField.Signed DField.Unsigned DField.Float].

(** The stored columns of a table, with their field ids. *)
Fixpoint scan (t : DTCTableDefinition) (js : list Z) : outcome (list (Z * column)) :=
  match js with
  | [] => Ok []
  | j :: js =>
    let! skip := is_discard t j in
    if (skip : bool) then scan t js else
    let! type := field_type t j in let! size := field_size t j in let! cs := scan t js in
    Ok ((j, (type, size)) :: cs)
  end.

Lemma scan_cons t j js l : scan t (j :: js) = Ok l ->
  exists skip, is_discard t j = Ok skip /\
  if (skip : bool) then scan t js = Ok l
  else exists ty sz l', field_type t j = Ok ty /\ field_size t j = Ok sz /\ scan t js = Ok l' /\ l = (j, (ty, sz)) :: l'.
Proof.
  cbn [scan]. destruct (is_discard t j) as [skip| |]; [|done|done]. cbn [obind]. intros H. exists skip. split; [done|].
  destruct skip; [done|]. destruct (field_type t j) as [ty| |], (field_size t j) as [sz| |]; try done. cbn [obind] in H.
  destruct (scan t js) as [l'| |]; [|done|done]. cbn [obind] in H. injection H as <-. by exists ty, sz, l'.
Qed.

(** ** Computations on the object and the allocator *)

Section Chunk.
Context {S : Type} `{!Mallocator S, !MallocatorLaws S}.
Implicit Types (r : RawData) (s : S) (F : blocks).
#[local] Abbreviation RD := (ST (RawData * S)).

Lemma wp_get {A B} (f : RawData -> A) (k : A -> RD B) r s Q : wp (k (f r)) (r, s) Q -> wp (get f ≫= k) (r, s) Q.
Proof. done. Qed.
Lemma wp_upd {B} (g : RawData -> RawData) (k : unit -> RD B) r s Q : wp (k tt) (g r, s) Q -> wp (upd g ≫= k) (r, s) Q.
Proof. done. Qed.
Lemma wp_upd_last (g : RawData -> RawData) r s (Q : unit -> RawData * S -> Prop) : Q tt (g r, s) -> wp (upd g) (r, s) Q.
Proof. intros H. by exists tt, (g r, s). Qed.
Lemma wp_mret {A B} (a : A) (k : A -> RD B) r s Q : wp (k a) (r, s) Q -> wp (mret a ≫= k) (r, s) Q.
Proof. done. Qed.
Lemma wp_lift_ok {A B} (o : outcome A) (a : A) (k : A -> RD B) r s Q : o = Ok a -> wp (k a) (r, s) Q -> wp (lift o ≫= k) (r, s) Q.
Proof. by intros ->. Qed.
Lemma wp_on_mem {A} (m : ST S A) r s a s' (Q : A -> RawData * S -> Prop) : m s = Ok (a, s') -> Q a (r, s') -> wp (on_mem m) (r, s) Q.
Proof. intros E H. exists a, (r, s'). split; [|done]. unfold on_mem. cbn [fst snd]. by rewrite E. Qed.
Lemma wp_or_error {A B} (m : RD (option A)) (f : A -> RD (option B)) r s a st' Q :
  m (r, s) = Ok (Some a, st') -> wp (f a) st' Q -> wp (or_error m f) (r, s) Q.
Proof. intros E H. apply wp_bind. exists (Some a), st'. done. Qed.
Lemma wp_error_ret {A} (m : RD (option A)) (label : RD A) r s (Q : A -> RawData * S -> Prop) :
  wp m (r, s) (fun x st => match x with Some a => Q a st | None => wp label st Q end) -> wp (error_ret m label) (r, s) Q.
Proof. intros H. apply wp_bind. eapply wp_mono; [exact H|]. intros [a|] st HQ; [by apply wp_ret|done]. Qed.

(** The object owns a block of the bytes [bs]; the other blocks are [F]. *)
Definition own r s F (bs : list Z) : Prop :=
  heap s (<[_handle r := bs]> F) /\ F !! _handle r = None /\ m_pchContent r = _handle r /\ _size r = Z.of_nat (length bs).

Lemma own_size r s F bs : own r s F bs -> Z.of_nat (length bs) < 2 ^ 32.
Proof. intros (H & _). eapply heap_size; [exact H|]. by rewrite lookup_insert_eq. Qed.
Lemma own_ok r s F bs : own r s F bs -> bytes_ok bs.
Proof. intros (H & _). eapply heap_bytes; [exact H|]. by rewrite lookup_insert_eq. Qed.
Lemma own_handle r s F bs : own r s F bs -> 0 < _handle r < 2 ^ 64.
Proof. intros (H & _). eapply heap_handle; [exact H|]. by rewrite lookup_insert_eq. Qed.
Lemma own_valid r s F bs : own r s F bs -> (_handle r =? INVALID_HANDLE) = false /\ (m_pchContent r =? 0) = false.
Proof.
  intros H. pose proof (own_handle _ _ _ _ H). destruct H as (_ & _ & -> & _).
  split; apply Z.eqb_neq; unfold INVALID_HANDLE; lia.
Qed.

Lemma own_read r s F pre data post : own r s F (pre ++ data ++ post) ->
  mread (length data) (m_pchContent r + Z.of_nat (length pre)) s = Ok (le_value data, s).
Proof.
  intros (H & _ & -> & _). rewrite (mread_law (length data) s _ _ _ (length pre) H (lookup_insert_eq _ _ _)).
  - by rewrite drop_app_length, take_app_length.
  - rewrite !length_app. lia.
Qed.
Lemma own_write r s F pre old post k x : own r s F (pre ++ old ++ post) -> length old = k ->
  exists s', mwrite k (m_pchContent r + Z.of_nat (length pre)) x s = Ok (tt, s') /\ own r s' F (pre ++ le_bytes k x ++ post).
Proof.
  intros (H & HF & Ec & En) Hk.
  destruct (mwrite_law k s _ _ _ (length pre) x H (lookup_insert_eq _ _ _)) as (s' & E & H').
  { rewrite !length_app. lia. }
  exists s'. rewrite Ec. split; [exact E|].
  rewrite insert_insert_eq, inserts_middle in H' by by rewrite le_bytes_length.
  split; [exact H'|split; [done|split; [done|]]]. rewrite En, !length_app, le_bytes_length. lia.
Qed.

(** ** The macros inside the chunk *)

Lemma own_len r s F pre data post : own r s F (pre ++ data ++ post) -> _size r = Z.of_nat (length pre + length data + length post).
Proof. intros (_ & _ & _ & ->). rewrite !length_app. lia. Qed.

Lemma u32_small v : 0 <= v < 2 ^ 32 -> u32 v = v.
Proof. apply wrap_small. Qed.

(** The offset stands at the end of [pre], and the chunk has [data] there. *)
Definition stands r (pre : list Z) : Prop := m_uiOffset r = Z.of_nat (length pre).

Ltac in_chunk H := 
  let Hs := fresh "Hsize" in let Hl := fresh "Hlt" in
  pose proof (own_len _ _ _ _ _ _ H) as Hs; pose proof (own_size _ _ _ _ H) as Hl; rewrite !length_app in Hl.

Lemma GET_VALUE_ok r s F pre data post : own r s F (pre ++ data ++ post) -> stands r pre ->
  GET_VALUE (length data) (r, s) = Ok (Some (le_value data), (set_uiOffset (Z.of_nat (length (pre ++ data))) r, s)).
Proof.
  intros H Ho. in_chunk H. unfold GET_VALUE. rewrite (gets_bind (fun st : RawData * S => m_uiOffset st.1)).
  rewrite (gets_bind (fun st : RawData * S => _size st.1)). cbn [fst]. rewrite Ho, Hsize.
  rewrite (proj2 (Z.ltb_ge _ _)) by lia. rewrite (gets_bind (fun st : RawData * S => m_pchContent st.1)). cbn [fst].
  erewrite bind_ok; [|unfold on_mem; cbn [snd]; rewrite (own_read _ _ _ _ _ _ H); reflexivity].
  cbn [fst snd]. rewrite length_app, u32_small by lia. rewrite Nat2Z.inj_add. reflexivity.
Qed.

Lemma GET_VALUE_AT_OFFSET_ok r s F pre data post : own r s F (pre ++ data ++ post) ->
  GET_VALUE_AT_OFFSET (length data) (Z.of_nat (length pre)) (r, s) = Ok (Some (le_value data), (r, s)).
Proof.
  intros H. in_chunk H. unfold GET_VALUE_AT_OFFSET. rewrite (gets_bind (fun st : RawData * S => _size st.1)). cbn [fst]. rewrite Hsize.
  rewrite (proj2 (Z.ltb_ge _ _)) by lia. rewrite (gets_bind (fun st : RawData * S => m_pchContent st.1)). cbn [fst].
  erewrite bind_ok; [|unfold on_mem; cbn [snd]; rewrite (own_read _ _ _ _ _ _ H); reflexivity]. reflexivity.
Qed.

Lemma SET_VALUE_ok r s F pre old post k x : own r s F (pre ++ old ++ post) -> stands r pre -> length old = k ->
  exists s', SET_VALUE x k (r, s) = Ok (Some tt, (set_uiOffset (Z.of_nat (length pre + k)) r, s')) /\
    own r s' F (pre ++ le_bytes k x ++ post).
Proof.
  intros H Ho Hk. in_chunk H. destruct (own_write _ _ _ _ _ _ k x H Hk) as (s' & E & H').
  exists s'. split; [|exact H']. unfold SET_VALUE. rewrite (gets_bind (fun st : RawData * S => m_uiOffset st.1)).
  rewrite (gets_bind (fun st : RawData * S => _size st.1)). cbn [fst]. rewrite Ho, Hsize.
  rewrite (proj2 (Z.ltb_ge _ _)) by lia. rewrite (gets_bind (fun st : RawData * S => m_pchContent st.1)). cbn [fst].
  erewrite bind_ok; [|unfold on_mem; cbn [snd]; rewrite E; reflexivity].
  cbn [fst snd]. rewrite u32_small by lia. rewrite Nat2Z.inj_add. reflexivity.
Qed.

Lemma SET_VALUE_AT_OFFSET_ok r s F pre old post k x : own r s F (pre ++ old ++ post) -> length old = k ->
  exists s', SET_VALUE_AT_OFFSET x k (Z.of_nat (length pre)) (r, s) = Ok (Some tt, (r, s')) /\ own r s' F (pre ++ le_bytes k x ++ post).
Proof.
  intros H Hk. in_chunk H. destruct (own_write _ _ _ _ _ _ k x H Hk) as (s' & E & H').
  exists s'. split; [|exact H']. unfold SET_VALUE_AT_OFFSET. rewrite (gets_bind (fun st : RawData * S => _size st.1)). cbn [fst]. rewrite Hsize.
  rewrite (proj2 (Z.ltb_ge _ _)) by lia. rewrite (gets_bind (fun st : RawData * S => m_pchContent st.1)). cbn [fst].
  erewrite bind_ok; [|unfold on_mem; cbn [snd]; rewrite E; reflexivity]. reflexivity.
Qed.

Lemma SKIP_SIZEOF_ok r s F pre data post : own r s F (pre ++ data ++ post) -> stands r pre ->
  SKIP_SIZEOF (length data) (r, s) = Ok (Some tt, (set_uiOffset (Z.of_nat (length (pre ++ data))) r, s)).
Proof.
  intros H Ho. in_chunk H. unfold SKIP_SIZEOF. rewrite (gets_bind (fun st : RawData * S => m_uiOffset st.1)).
  rewrite (gets_bind (fun st : RawData * S => _size st.1)). cbn [fst]. rewrite Ho, Hsize.
  rewrite (proj2 (Z.ltb_ge _ _)) by lia. rewrite u32_small by lia. rewrite length_app, Nat2Z.inj_add. reflexivity.
Qed.
Lemma SKIP_SIZE_ok r s F pre data post : own r s F (pre ++ data ++ post) -> stands r pre ->
  SKIP_SIZE (Z.of_nat (length data)) (r, s) = Ok (Some tt, (set_uiOffset (Z.of_nat (length (pre ++ data))) r, s)).
Proof.
  intros H Ho. in_chunk H. unfold SKIP_SIZE. rewrite (gets_bind (fun st : RawData * S => m_uiOffset st.1)).
  rewrite (gets_bind (fun st : RawData * S => _size st.1)). cbn [fst]. rewrite Ho, Hsize.
  rewrite u32_small by lia. rewrite (proj2 (Z.ltb_ge _ _)) by lia. rewrite length_app, Nat2Z.inj_add. reflexivity.
Qed.

(** [memmove] inside the chunk: [data] is copied to where [old] was. *)
Lemma memmove_ok r s F (a b c d x : list Z) :
  own r s F (a ++ b) -> a ++ b = c ++ d -> take (length x) b = x -> (length x <= length b)%nat ->
  (length x <= length d)%nat ->
  exists s', chunk_move (m_pchContent r + Z.of_nat (length c)) (m_pchContent r + Z.of_nat (length a)) (Z.of_nat (length x)) (r, s) = Ok (tt, (r, s'))
    /\ own r s' F (c ++ x ++ drop (length x) d).
Proof.
  intros H Ecd Hx Hb Hd. pose proof H as Hr. rewrite <-(take_drop (length x) b), Hx in Hr.
  pose proof H as Hw. rewrite Ecd, <-(take_drop (length x) d) in Hw.
  destruct (own_write _ _ _ _ _ _ (length x) (le_value x) Hw) as (s' & E & H'); [by rewrite length_take; lia|].
  assert (Ev : le_bytes (length x) (le_value x) = x).
  { apply le_bytes_value. pose proof (own_ok _ _ _ _ Hr) as Hok. rewrite !Forall_app in Hok. tauto. }
  rewrite Ev in H'. exists s'. split; [|exact H']. unfold chunk_move. rewrite Nat2Z.id.
  erewrite bind_ok; [|unfold on_mem; cbn [snd]; rewrite (own_read _ _ _ _ _ _ Hr); reflexivity].
  unfold on_mem. cbn [fst snd]. rewrite E. reflexivity.
Qed.

(** ** Rows inside the chunk *)

Lemma le_value_bytes_small k v : 0 <= v < 256 ^ Z.of_nat k -> le_value (le_bytes k v) = v.
Proof. intros H. rewrite le_value_bytes. by apply Z.mod_small. Qed.
Lemma s32_len n : 0 <= n < 2 ^ 31 -> s32 (le_value (le_bytes 4 n)) = n.
Proof. intros H. rewrite le_value_bytes_small by (change (256 ^ Z.of_nat 4) with (2 ^ 32); lia). apply swrap_small; unfold is_s; lia. Qed.

Lemma read_word_ok r s F pre post n w f : own r s F (pre ++ le_bytes n w ++ post) -> stands r pre ->
  read_word (GET_VALUE n) f (r, s) = Ok ((Some (set_word (f (w mod 256 ^ Z.of_nat n))), true), (set_uiOffset (Z.of_nat (length (pre ++ le_bytes n w))) r, s)).
Proof.
  intros H Ho. pose proof (GET_VALUE_ok r s F pre (le_bytes n w) post H Ho) as E. rewrite le_bytes_length in E.
  unfold read_word. by rewrite (bind_ok _ _ _ _ _ E), le_value_bytes.
Qed.
Lemma signed_word w : u64 (s32 (w mod 2 ^ 32)) = if decide (2 ^ 31 <= w mod 2 ^ 32) then w mod 2 ^ 32 + (2 ^ 64 - 2 ^ 32) else w mod 2 ^ 32.
Proof.
  pose proof (Z.mod_pos_bound w (2 ^ 32) ltac:(lia)) as Hw. set (u := w mod 2 ^ 32) in *. case_decide.
  - replace (s32 u) with (u - 2 ^ 32); [unfold u64, wrap; symmetry; apply (Z.mod_unique_pos _ _ (-1)); lia|].
    unfold s32, swrap. rewrite wrap_small by (unfold is_u; lia). by rewrite (proj2 (Z.ltb_ge _ _)) by lia.
  - replace (s32 u) with u; [apply Z.mod_small; lia|]. symmetry. apply swrap_small; unfold is_s; lia.
Qed.

Lemma decode_cell_ok r s F pre post c v : own r s F (pre ++ enc c v ++ post) -> stands r pre -> col_ok c v ->
  decode_cell c.1 c.2 (r, s) =
    Ok ((Some (cell_of c v (m_pchContent r + Z.of_nat (length pre))), true), (set_uiOffset (Z.of_nat (length (pre ++ enc c v))) r, s)).
Proof.
  destruct c as [ty sz]. unfold decode_cell, enc, cell_of, norm_word, stored, col_ok, col_width. cbn [fst snd].
  switch_on ty sz; destruct v as [w|bs]; try done; intros Hown Ho Hc.
  all: try (erewrite (read_word_ok r s F pre post _ _ _ Hown Ho); change (256 ^ Z.of_nat 8) with (2 ^ 64); change (256 ^ Z.of_nat 4) with (2 ^ 32); reflexivity || (rewrite signed_word; by repeat case_decide; try lia)).
  destruct Hc as [_ Hl]. rewrite <-app_assoc in Hown.
  pose proof (GET_VALUE_ok r s F pre (le_bytes 4 (Z.of_nat (length bs))) (bs ++ post) Hown Ho) as E. rewrite le_bytes_length in E.
  rewrite (bind_ok _ _ _ _ _ E), s32_len by lia. rewrite app_assoc in Hown.
  rewrite (gets_bind (fun st : RawData * S => m_pchContent st.1)), (gets_bind (fun st : RawData * S => m_uiOffset st.1)). cbn [fst].
  pose proof (SKIP_SIZE_ok (set_uiOffset (Z.of_nat (length (pre ++ le_bytes 4 (Z.of_nat (length bs))))) r) s F _ bs post Hown eq_refl) as E2.
  rewrite (bind_ok _ _ _ _ _ E2), ret_ok, <-app_assoc. cbn [m_pchContent set_uiOffset m_uiOffset]. rewrite !length_app, le_bytes_length.
  replace (m_pchContent r + Z.of_nat (length pre) + 4) with (m_pchContent r + Z.of_nat (length pre + 4)) by lia. reflexivity.
Qed.

Lemma decode_fields_ok t js : forall l vs row r s F pre post,
  scan t js = Ok l -> table_definition row = t -> Forall2 col_ok l.*2 vs ->
  own r s F (pre ++ encs l.*2 vs ++ post) -> stands r pre ->
  exists la, decode_fields row js (r, s) =
    Ok ((fill row l vs (m_pchContent r + Z.of_nat (length pre)), true),
        (set_uiLAOffset la (set_uiOffset (Z.of_nat (length (pre ++ encs l.*2 vs))) r), s)).
Proof.
  induction js as [|j js IH]; intros l vs row r s F pre post Hl Ht Hv H Ho.
  { injection Hl as <-. apply Forall2_nil_inv_l in Hv as ->. exists (m_uiLAOffset r). rewrite app_nil_r, <-Ho. by destruct r. }
  cbn [decode_fields]. rewrite Ht. apply scan_cons in Hl as (skip & Es & Hl). rewrite (bind_ok _ _ _ skip (r, s)) by (unfold lift; by rewrite Es).
  destruct skip; [by eapply IH|]. destruct Hl as (ty & sz & l' & Ety & Esz & Hl' & ->).
  apply Forall2_cons_inv_l in Hv as (v & vs' & Hc & Hv' & ->). rewrite fmap_cons in *. cbn [fst snd encs fill] in *. rewrite <-app_assoc in H.
  rewrite (gets_bind (fun st : RawData * S => m_iLAId st.1)). cbn [fst].
  set (r1 := if j =? m_iLAId r then set_uiLAOffset (m_uiOffset r) r else r).
  rewrite (bind_ok _ _ _ tt (r1, s)) by (unfold r1; by destruct (_ =? _)).
  rewrite (bind_ok _ _ _ ty (r1, s)) by (unfold lift; by rewrite Ety). rewrite (bind_ok _ _ _ sz (r1, s)) by (unfold lift; by rewrite Esz).
  assert (H1 : own r1 s F (pre ++ enc (ty, sz) v ++ encs l'.*2 vs' ++ post)) by (unfold r1; by destruct (_ =? _)).
  assert (Ho1 : stands r1 pre) by (unfold r1; by destruct (_ =? _)).
  assert (Ec : m_pchContent r1 = m_pchContent r) by (unfold r1; by destruct (_ =? _)).
  rewrite (bind_ok _ _ _ _ _ (decode_cell_ok r1 s F pre _ (ty, sz) v H1 Ho1 Hc)). cbn [fst snd].
  rewrite app_assoc in H1.
  destruct (IH l' vs' (upd_cell row j (cell_of (ty, sz) v (m_pchContent r1 + Z.of_nat (length pre)))) (set_uiOffset (Z.of_nat (length (pre ++ enc (ty, sz) v))) r1) s F _ post Hl' Ht Hv' H1 eq_refl) as (la & E).
  exists la. rewrite E. cbn [m_pchContent set_uiOffset]. rewrite Ec, !length_app, !Nat2Z.inj_add, !Z.add_assoc.
  unfold r1. by destruct (_ =? _).
Qed.

Lemma skip_field_ok r s F pre post c v : own r s F (pre ++ enc c v ++ post) -> stands r pre -> col_ok c v ->
  skip_field c.1 c.2 (r, s) = Ok (Some tt, (set_uiOffset (Z.of_nat (length (pre ++ enc c v))) r, s)).
Proof.
  destruct c as [ty sz]. unfold skip_field, enc, stored, col_ok, col_width. cbn [fst snd].
  switch_on ty sz; destruct v as [w|bs]; try done; intros Hown Ho Hc.
  all: try (match type of Hown with own _ _ _ (_ ++ le_bytes ?n ?w ++ _) =>
    pose proof (SKIP_SIZEOF_ok r s F pre (le_bytes n w) post Hown Ho) as E; by rewrite le_bytes_length in E end).
  destruct Hc as [_ Hl]. rewrite <-app_assoc in Hown.
  pose proof (GET_VALUE_ok r s F pre (le_bytes 4 (Z.of_nat (length bs))) (bs ++ post) Hown Ho) as E. rewrite le_bytes_length in E.
  unfold or_error. rewrite (bind_ok _ _ _ _ _ E), s32_len by lia. rewrite app_assoc in Hown.
  pose proof (SKIP_SIZE_ok (set_uiOffset (Z.of_nat (length (pre ++ le_bytes 4 (Z.of_nat (length bs))))) r) s F _ bs post Hown eq_refl) as E2.
  rewrite E2, <-app_assoc. reflexivity.
Qed.

Lemma skip_fields_ok t js : forall l vs r s F pre post,
  scan t js = Ok l -> Forall2 col_ok l.*2 vs -> own r s F (pre ++ encs l.*2 vs ++ post) -> stands r pre ->
  skip_fields t js (r, s) = Ok (Some tt, (set_uiOffset (Z.of_nat (length (pre ++ encs l.*2 vs))) r, s)).
Proof.
  induction js as [|j js IH]; intros l vs r s F pre post Hl Hv H Ho.
  { injection Hl as <-. apply Forall2_nil_inv_l in Hv as ->. rewrite app_nil_r, <-Ho. by destruct r. }
  cbn [skip_fields]. apply scan_cons in Hl as (skip & Es & Hl). rewrite (bind_ok _ _ _ skip (r, s)) by (unfold lift; by rewrite Es).
  destruct skip; [by eapply IH|]. destruct Hl as (ty & sz & l' & Ety & Esz & Hl' & ->).
  apply Forall2_cons_inv_l in Hv as (v & vs' & Hc & Hv' & ->). rewrite fmap_cons in *. cbn [fst snd encs] in *. rewrite <-app_assoc in H.
  rewrite (bind_ok _ _ _ ty (r, s)) by (unfold lift; by rewrite Ety). rewrite (bind_ok _ _ _ sz (r, s)) by (unfold lift; by rewrite Esz).
  unfold or_error. rewrite (bind_ok _ _ _ _ _ (skip_field_ok r s F pre _ (ty, sz) v H Ho Hc)). rewrite app_assoc in H.
  rewrite (IH l' vs' (set_uiOffset (Z.of_nat (length (pre ++ enc (ty, sz) v))) r) s F _ post Hl' Hv' H eq_refl).
  by rewrite <-app_assoc.
Qed.

Lemma read_pointer_ok r s F bs0 p bs : own r s F bs0 -> pointed F p bs -> 
  read_pointer p (Z.of_nat (length bs)) (r, s) = Ok (le_value bs, (r, s)).
Proof.
  intros H Hp. unfold read_pointer. rewrite (proj2 (Z.ltb_ge _ _)) by lia. destruct p as [|m|a]; [done| |].
  - destruct Hp as [Hm E]. rewrite (proj2 (Z.ltb_ge _ _)) by lia. by rewrite Nat2Z.id, E.
  - destruct Hp as (h & pre & post & Hh & ->). destruct H as (H & HF & _).
    assert (Hn : <[_handle r:=bs0]> F !! h = Some (pre ++ bs ++ post)) by (rewrite lookup_insert_ne; [done|intros E; rewrite E in HF; congruence]).
    unfold on_mem. cbn [fst snd]. rewrite Nat2Z.id, (mread_law (length bs) s _ h _ (length pre) H Hn) by (rewrite !length_app; lia).
    cbn [obind fst snd]. by rewrite drop_app_length, take_app_length.
Qed.

Lemma memcpy_from_ok r s F pre old post p bs : own r s F (pre ++ old ++ post) -> pointed F p bs -> bytes_ok bs -> length old = length bs ->
  exists s', memcpy_from (m_pchContent r + Z.of_nat (length pre)) p (Z.of_nat (length bs)) (r, s) = Ok (tt, (r, s')) /\
    own r s' F (pre ++ bs ++ post).
Proof.
  intros H Hp Hb Hl. destruct (own_write _ _ _ _ _ _ (length bs) (le_value bs) H Hl) as (s' & E & H').
  rewrite (le_bytes_value _ Hb) in H'. exists s'. split; [|exact H'].
  unfold memcpy_from. rewrite (bind_ok _ _ _ _ _ (read_pointer_ok _ _ _ _ _ _ H Hp)), Nat2Z.id.
  unfold on_mem. cbn [fst snd]. by rewrite E.
Qed.

Lemma SET_BIN_VALUE_ok r s F pre old post p bs : own r s F (pre ++ old ++ post) -> stands r pre ->
  (bs = [] \/ pointed F p bs) -> bytes_ok bs -> Z.of_nat (length bs) < 2 ^ 31 -> length old = (4 + length bs)%nat ->
  exists s', SET_BIN_VALUE p (Z.of_nat (length bs)) (r, s) = Ok (Some tt, (set_uiOffset (Z.of_nat (length pre + length old)) r, s')) /\
    own r s' F (pre ++ (le_bytes 4 (Z.of_nat (length bs)) ++ bs) ++ post).
Proof.
  intros H Ho Hp Hb Hlb Hl. in_chunk H. unfold SET_BIN_VALUE. rewrite (gets_bind (fun st : RawData * S => m_uiOffset st.1)).
  rewrite (gets_bind (fun st : RawData * S => _size st.1)). cbn [fst]. rewrite Ho, Hsize.
  replace (u64 _) with (Z.of_nat (length pre + (4 + length bs))) by (symmetry; rewrite <-(wrap_small 64 (Z.of_nat (length pre + _))); [unfold u64; f_equal; lia|split; [lia|]; change (2 ^ 64) with (2 ^ 32 * 2 ^ 32); lia]).
  rewrite (proj2 (Z.ltb_ge _ _)) by lia.
  rewrite (gets_bind (fun st : RawData * S => m_pchContent st.1)). cbn [fst].
  rewrite <-(take_drop 4 old), <-app_assoc in H.
  destruct (own_write _ _ _ _ _ _ 4%nat (Z.of_nat (length bs)) H) as (s1 & E1 & H1); [rewrite length_take; lia|].
  erewrite bind_ok; [|unfold on_mem; cbn [snd]; rewrite E1; reflexivity].
  cbn [fst snd]. erewrite (bind_ok (upd _)); [|reflexivity]. cbn [fst snd].
  set (o := u32 _). assert (Eo : o = Z.of_nat (length (pre ++ le_bytes 4 (Z.of_nat (length bs))))).
  { unfold o. rewrite length_app, le_bytes_length, u32_small; lia. }
  rewrite app_assoc in H1.
  assert (H2 : exists s2, (if negb (Z.of_nat (length bs) =? 0) then
      off ← get m_uiOffset; memcpy_from (m_pchContent r + off) p (Z.of_nat (length bs)) else mret tt) (set_uiOffset o r, s1)
      = Ok (tt, (set_uiOffset o r, s2)) /\ own r s2 F ((pre ++ le_bytes 4 (Z.of_nat (length bs))) ++ bs ++ post)).
  { destruct bs as [|b bs]; [exists s1; split; [done|]; rewrite drop_ge in H1 by (cbn in Hl; lia); exact H1|].
    destruct Hp as [Hp|Hp]; [done|]. rewrite (proj2 (Z.eqb_neq _ _)) by (cbn [length]; lia). cbn [negb].
    rewrite (gets_bind (fun st : RawData * S => m_uiOffset st.1)). cbn [fst m_uiOffset set_uiOffset]. rewrite Eo.
    eapply (memcpy_from_ok (set_uiOffset (Z.of_nat (length (pre ++ le_bytes 4 _))) r)); [exact H1|exact Hp|exact Hb|].
    rewrite length_drop. cbn [length] in *. lia. }
  destruct H2 as (s2 & E2 & H2). exists s2. rewrite <-(app_assoc pre), (app_assoc (le_bytes _ _)) in H2. split; [|exact H2].
  rewrite (bind_ok _ _ _ _ _ E2), (gets_bind (fun st : RawData * S => m_uiOffset st.1)). cbn [fst m_uiOffset set_uiOffset].
  rewrite Eo. unfold mbind, ST_bind, upd, modify. cbn [obind fst snd]. unfold mret, ST_ret. do 3 f_equal.
  rewrite length_app, le_bytes_length, u32_small by lia. unfold set_uiOffset. cbn. f_equal; lia.
Qed.

Lemma encode_cell_ok r s F pre old post c x v : own r s F (pre ++ old ++ post) -> stands r pre -> cell_val F c x v ->
  length old = length (enc c v) ->
  exists s', encode_cell c.1 c.2 x (r, s) = Ok (Some tt, (set_uiOffset (Z.of_nat (length pre + length old)) r, s')) /\
    own r s' F (pre ++ enc c v ++ post).
Proof.
  destruct c as [ty sz]. unfold encode_cell, enc, stored, cell_val, col_width. cbn [fst snd].
  switch_on ty sz; destruct v as [w|bs]; try done; intros Hown Ho Hx Hl.
  all: try (subst w; rewrite le_bytes_length in Hl;
    match goal with |- context [SET_VALUE ?w ?n] => destruct (SET_VALUE_ok r s F pre old post n w Hown Ho Hl) as (s' & E & H'); exists s'; by rewrite E, Hl end).
  destruct Hx as (-> & Hp & Hb & Hn). rewrite length_app, le_bytes_length in Hl. by apply SET_BIN_VALUE_ok.
Qed.

Lemma encode_fields_ok t row js : table_definition row = t -> forall l vs r s F pre old post,
  scan t js = Ok l -> cells_val F row l vs -> own r s F (pre ++ old ++ post) -> stands r pre -> length old = length (encs l.*2 vs) ->
  exists s', encode_fields row js (r, s) = Ok (Some tt, (set_uiOffset (Z.of_nat (length pre + length old)) r, s')) /\
    own r s' F (pre ++ encs l.*2 vs ++ post).
Proof.
  intros Ht. induction js as [|j js IH]; intros l vs r s F pre old post Hl Hv H Ho Hn.
  { injection Hl as <-. apply Forall2_nil_inv_l in Hv as ->. apply nil_length_inv in Hn as ->. exists s.
    rewrite Nat.add_0_r, <-Ho. split; [by destruct r|exact H]. }
  cbn [encode_fields]. rewrite Ht. apply scan_cons in Hl as (skip & Es & Hl). rewrite (bind_ok _ _ _ skip (r, s)) by (unfold lift; by rewrite Es).
  destruct skip; [by eapply IH|]. destruct Hl as (ty & sz & l' & Ety & Esz & Hl' & ->).
  apply Forall2_cons_inv_l in Hv as (v & vs' & (x & Hx & Hc) & Hv' & ->). rewrite fmap_cons in *. cbn [fst snd encs] in *.
  rewrite (bind_ok _ _ _ x (r, s)) by (unfold lift; by rewrite Hx).
  rewrite (bind_ok _ _ _ ty (r, s)) by (unfold lift; by rewrite Ety). rewrite (bind_ok _ _ _ sz (r, s)) by (unfold lift; by rewrite Esz).
  set (k := length (enc (ty, sz) v)) in *. rewrite length_app in Hn.
  rewrite <-(take_drop k old), <-app_assoc in H.
  destruct (encode_cell_ok r s F pre (take k old) (drop k old ++ post) (ty, sz) x v H Ho Hc) as (s1 & E1 & H1); [rewrite length_take; lia|].
  unfold or_error. cbn [fst snd] in E1. rewrite (bind_ok _ _ _ _ _ E1).
  rewrite app_assoc in H1.
  destruct (IH l' vs' (set_uiOffset (Z.of_nat (length pre + length (take k old))) r) s1 F _ (drop k old) post Hl' Hv' H1) as (s2 & E2 & H2).
  { unfold stands. cbn. rewrite length_app, length_take. fold k. lia. }
  { rewrite length_drop. lia. }
  exists s2. rewrite <-!app_assoc in H2. rewrite <-app_assoc. split; [|exact H2].
  rewrite E2. unfold set_uiOffset. cbn. rewrite length_app, length_drop. fold k. do 3 f_equal. f_equal. lia.
Qed.

Lemma u32_add a b : u32 (u32 a + b) = u32 (a + b).
Proof. unfold u32. apply wrap_add_l. Qed.

Lemma calc_row_size_ok t row js : table_definition row = t -> forall l vs F n,
  scan t js = Ok l -> cells_val F row l vs -> row_size_from row js (u32 n) = Ok (u32 (n + Z.of_nat (length (encs l.*2 vs)))).
Proof.
  intros Ht. induction js as [|j js IH]; intros l vs F n Hl Hv.
  { injection Hl as <-. apply Forall2_nil_inv_l in Hv as ->. cbn. by rewrite Z.add_0_r. }
  cbn [row_size_from]. rewrite Ht. apply scan_cons in Hl as (skip & -> & Hl). cbn [obind].
  destruct skip; [by eapply IH|]. destruct Hl as (ty & sz & l' & -> & -> & Hl' & ->). cbn [obind].
  apply Forall2_cons_inv_l in Hv as (v & vs' & (x & Hx & Hc) & Hv' & ->). rewrite fmap_cons. cbn [fst snd encs]. rewrite length_app.
  revert Hc. unfold cell_val, enc, stored, col_width. cbn [fst snd]. switch_on ty sz; destruct v as [w|bs]; try done; intros Hc.
  all: try (rewrite u32_add, (IH l' vs' F _ Hl' Hv'), le_bytes_length; do 2 f_equal; lia).
  destruct Hc as (Hc & _). cbn [fst] in Hx; rewrite Hx. cbn [obind]. rewrite Hc, !u32_add, (IH l' vs' F _ Hl' Hv').
  rewrite <-!Z.add_assoc, u32_add, !length_app, le_bytes_length. do 2 f_equal. lia.
Qed.

End Chunk.
