(* ===== verification/RawOps.v ===== *)
(** The operations of [RawData] that write rows behind or before the others, on a chunk
    that holds a key and a list of rows: each leaves such a chunk behind, with the list
    changed as the operation says, or answers an error and leaves the rows as they were. *)
From Stdlib Require Import ZArith Lia.
From stdpp Require Import base list list_numbers numbers gmap.
From S2P Require Import Prelude Value TableDef Field PtMalloc PtSpec Mallocator RawData RawRep.
Import AllocSpec.
Local Open Scope Z_scope.

(** ** Chunks *)

(** Type byte, data size, row count, and seven bytes of access count and times. *)
Definition header (tb : list Z) (dsize cnt : Z) (meta : list Z) : list Z := tb ++ le_bytes 4 dsize ++ le_bytes 4 cnt ++ meta.

Lemma header_length tb d c meta : length tb = 1%nat -> length meta = 7%nat -> length (header tb d c meta) = 16%nat.
Proof. intros H1 H2. unfold header. rewrite !length_app, !le_bytes_length. lia. Qed.

Section Ops.
Context {S : Type} `{!Mallocator S, !MallocatorLaws S}.
Implicit Types (r : RawData) (s : S) (F : blocks).
#[local] Abbreviation RD := (ST (RawData * S)).

(** [r'] is [r] with another chunk. *)
Definition moved r r' : Prop := exists h n, r' = set_block h h n r.

Lemma own_same r r' s F bs : _handle r' = _handle r -> m_pchContent r' = m_pchContent r -> _size r' = _size r -> own r s F bs -> own r' s F bs.
Proof. unfold own. by intros -> -> ->. Qed.
Lemma moved_refl r s F bs : own r s F bs -> moved r r.
Proof. intros (_ & _ & E & _). exists (_handle r), (_size r). destruct r. cbn in *. by subst. Qed.

(** ** The size of the chunk *)

Lemma re_alloc_ok r s F bs t : own r s F bs -> 0 < t ->
  wp (re_alloc t) (r, s) (fun x st =>
    (x = EC_NO_MEM /\ st.1 = set_uiNeedSize t r /\ own r st.2 F bs) \/
    (x = 0 /\ moved r st.1 /\ exists bs', own st.1 st.2 F bs' /\ t <= Z.of_nat (length bs') /\
      forall k, Z.of_nat k <= t -> (k <= length bs)%nat -> take k bs' = take k bs)).
Proof.
  intros (H & HF & Ec & En) Ht. unfold re_alloc. apply wp_get.
  destruct (realloc_law s _ _ bs t H (lookup_insert_eq _ _ _) Ht) as (h & s' & A' & E & H' & Hc).
  apply wp_bind. eapply wp_on_mem; [exact E|]. destruct Hc as [[-> ->]|[Hh Hc]].
  - cbn. apply wp_upd, wp_ret. left. split; [done|]. split; [done|]. done.
  - unfold INVALID_HANDLE. rewrite (proj2 (Z.eqb_neq _ _)) by done.
    rewrite (delete_insert_id F) in Hc by done.
    destruct Hc as [[-> _]|(_ & HFh & bs' & Hl & Hp & ->)]; [done|].
    apply wp_bind. eapply wp_on_mem; [exact (block_size_law s' _ h bs' H' (lookup_insert_eq _ _ _))|].
    apply wp_upd, wp_ret. right. split; [done|]. split; [by eexists _, _|]. exists bs'. split; [done|]. split; [done|].
    intros k Hk1 Hk2. apply (f_equal (take k)) in Hp. rewrite !take_take in Hp.
    replace (k `min` _)%nat with k in Hp by lia. done.
Qed.

Lemma expand_chunk_ok r s F bs n : own r s F bs -> 0 <= m_uiDataSize r -> 0 <= n -> m_uiDataSize r + n < 2 ^ 32 ->
  wp (expand_chunk n) (r, s) (fun x st =>
    (x = EC_NO_MEM /\ st.1 = set_uiNeedSize (m_uiDataSize r + n) r /\ own r st.2 F bs /\ _size r < m_uiDataSize r + n) \/
    (x = 0 /\ moved r st.1 /\ (m_uiDataSize r + n <= _size r -> _size st.1 = _size r) /\
      exists bs', own st.1 st.2 F bs' /\ m_uiDataSize r + n <= Z.of_nat (length bs') /\
      forall k, Z.of_nat k <= m_uiDataSize r + n -> (k <= length bs)%nat -> take k bs' = take k bs)).
Proof.
  intros H Hd Hn Hs. unfold expand_chunk. apply wp_get. destruct (own_valid _ _ _ _ H) as [Hv _]. rewrite Hv.
  apply wp_get, wp_get. rewrite u32_small by lia. pose proof H as (_ & _ & _ & Esz). rewrite Esz.
  destruct (Z.ltb_spec (Z.of_nat (length bs)) (m_uiDataSize r + n)) as [Hlt|Hge].
  - eapply wp_mono; [apply re_alloc_ok; [done|lia]|]. intros x st [(? & ? & ?)|(? & ? & ?)]; [by left|right]. split; [done|]. split; [done|]. split; [lia|done].
  - apply wp_ret. right. split; [done|]. split; [by eapply moved_refl|]. split; [done|]. exists bs. done.
Qed.

(** ** The sizes in the header *)

Lemma set_data_size_ok r s F tb d4 post : own r s F (tb ++ d4 ++ post) -> length tb = 1%nat -> length d4 = 4%nat ->
  exists s', set_data_size (r, s) = Ok (-100, (r, s')) /\ own r s' F (tb ++ le_bytes 4 (m_uiDataSize r) ++ post).
Proof.
  intros H Ht Hd. destruct (SET_VALUE_AT_OFFSET_ok r s F tb d4 post 4 (m_uiDataSize r) H Hd) as (s' & E & H').
  exists s'. split; [|done]. unfold set_data_size. rewrite (gets_bind (fun st : RawData * S => m_uiDataSize st.1)).
  rewrite Ht in E. by rewrite (bind_ok _ _ _ _ _ E).
Qed.
Lemma set_row_count_ok r s F tb d4 c4 post : own r s F (tb ++ d4 ++ c4 ++ post) -> length tb = 1%nat -> length d4 = 4%nat -> length c4 = 4%nat ->
  exists s', set_row_count (r, s) = Ok (-100, (r, s')) /\ own r s' F (tb ++ d4 ++ le_bytes 4 (m_uiRowCnt r) ++ post).
Proof.
  intros H Ht Hd Hc. rewrite app_assoc in H. destruct (SET_VALUE_AT_OFFSET_ok r s F _ c4 post 4 (m_uiRowCnt r) H Hc) as (s' & E & H').
  exists s'. rewrite <-app_assoc in H'. split; [|done]. unfold set_row_count. rewrite (gets_bind (fun st : RawData * S => m_uiRowCnt st.1)).
  rewrite length_app, Ht, Hd in E. by rewrite (bind_ok _ _ _ _ _ E).
Qed.
Lemma set_sizes_ok r s F tb d4 c4 post {B} (k : RD B) (Q : B -> RawData * S -> Prop) :
  own r s F (tb ++ d4 ++ c4 ++ post) -> length tb = 1%nat -> length d4 = 4%nat -> length c4 = 4%nat ->
  (forall s', own r s' F (tb ++ le_bytes 4 (m_uiDataSize r) ++ le_bytes 4 (m_uiRowCnt r) ++ post) -> wp k (r, s') Q) ->
  wp (set_data_size;; set_row_count;; k) (r, s) Q.
Proof.
  intros H Ht Hd Hc HQ. destruct (set_data_size_ok _ _ _ _ _ _ H Ht Hd) as (s1 & E1 & H1).
  destruct (set_row_count_ok _ _ _ _ _ _ _ H1 Ht (le_bytes_length _ _) Hc) as (s2 & E2 & H2).
  apply wp_bind. eexists _, _. split; [exact E1|]. apply wp_bind. eexists _, _. split; [exact E2|]. by apply HQ.
Qed.

(** ** Writing a row at the offset *)

Section Row.
(** The columns of the table, and a row that holds the values [vs] in them. *)
Context (F : blocks) (t : DTCTableDefinition) (l : list (Z * column)) (stRow : DataRow) (vs : list fval).
Context (Ht : table_definition stRow = t) (Hvs : cells_val F stRow l vs).
Notation cs := (l.*2).

Lemma calc_ok keyIdx : scan t (fields_from keyIdx t) = Ok l ->
  calc_row_size stRow keyIdx = Ok (u32 (Z.of_nat (length (row_bytes cs (mkRowV 0 vs))))).
Proof.
  intros Hl. unfold calc_row_size. rewrite Ht.
  pose proof (calc_row_size_ok t stRow (fields_from keyIdx t) Ht l vs F 1 Hl Hvs) as E. change (u32 1) with 1 in E. rewrite E.
  rewrite row_bytes_length. cbn [r_vals]. do 2 f_equal. lia.
Qed.

Lemma row_bytes_flag f g : length (row_bytes cs (mkRowV f vs)) = length (row_bytes cs (mkRowV g vs)).
Proof. by rewrite !row_bytes_length. Qed.

(** What is left of [encode_row] once there is room. *)
Lemma encode_row_ok r s uchOp (b : bool) n tb d4 c4 pre (Q : Z -> RawData * S -> Prop) :
  n = length (row_bytes cs (mkRowV uchOp vs)) ->
  scan t (fields_from (m_uchKeyIdx r) t) = Ok l ->
  length tb = 1%nat -> length d4 = 4%nat -> length c4 = 4%nat -> stands r (tb ++ d4 ++ c4 ++ pre) ->
  0 <= m_uiDataSize r -> m_uiDataSize r + Z.of_nat n < 2 ^ 32 -> 0 <= m_uiRowCnt r -> m_uiRowCnt r + 1 < 2 ^ 32 ->
  wp (if b then expand_chunk (Z.of_nat n) else mret 0) (r, s) (fun x st =>
    (x <> 0 /\ Q x st) \/
    (x = 0 /\ moved r st.1 /\ exists old post, own st.1 st.2 F (tb ++ d4 ++ c4 ++ pre ++ old ++ post) /\ length old = n /\
      forall s', let r' := set_uiOffset (m_uiOffset r + Z.of_nat n) (set_uiRowCnt (m_uiRowCnt r + 1) (set_uiDataSize (m_uiDataSize r + Z.of_nat n) st.1)) in
        own r' s' F (tb ++ le_bytes 4 (m_uiDataSize r + Z.of_nat n) ++ le_bytes 4 (m_uiRowCnt r + 1) ++ pre ++ row_bytes cs (mkRowV uchOp vs) ++ post) ->
        Q 0 (r', s'))) ->
  wp (encode_row stRow uchOp b) (r, s) Q.
Proof.
  intros Hn Hscan Htb Hd4 Hc4 Ho Hd1 Hd2 Hc1 Hc2 Hroom. unfold encode_row. apply wp_get.
  eapply wp_lift_ok; [by apply calc_ok|]. rewrite (row_bytes_flag 0 uchOp), <-Hn, u32_small by lia.
  apply wp_bind. eapply wp_mono; [exact Hroom|]. intros x [r1 s1]. cbn [fst snd].
  intros [[Hx HQ]|(-> & (h & sz & ->) & old & post & H & Hlo & HQ)].
  { rewrite (proj2 (Z.eqb_neq _ _)) by done. by apply wp_ret. }
  cbn [Z.eqb negb]. apply wp_error_ret. set (r1 := set_block h h sz r) in *.
  unfold row_bytes in Hn. rewrite length_app, le_bytes_length in Hn. cbn [r_vals r_flag] in Hn.
  destruct old as [|o old]; [cbn in Hlo; lia|]. cbn [length] in Hlo.
  assert (H0 : own r1 s1 F ((tb ++ d4 ++ c4 ++ pre) ++ [o] ++ (old ++ post))) by (rewrite <-!app_assoc; exact H).
  destruct (SET_VALUE_ok r1 s1 F _ [o] _ 1 uchOp H0 Ho eq_refl) as (s2 & E2 & H2).
  eapply wp_or_error; [exact E2|]. rewrite app_assoc in H2. rewrite Ht.
  destruct (encode_fields_ok t stRow _ Ht l vs (set_uiOffset (Z.of_nat (length (tb ++ d4 ++ c4 ++ pre) + 1)) r1) s2 F _ old post Hscan Hvs H2) as (s3 & E3 & H3).
  { unfold stands. cbn [m_uiOffset set_uiOffset]. rewrite (length_app (tb ++ d4 ++ c4 ++ pre)), le_bytes_length. done. }
  { lia. }
  eapply wp_or_error; [exact E3|]. apply wp_get. cbn [fst m_uiDataSize set_uiOffset set_block r1].
  rewrite u32_small by lia. apply wp_upd.
  rewrite <-!app_assoc in H3.
  destruct (set_data_size_ok (set_uiDataSize (m_uiDataSize r + Z.of_nat n) (set_uiOffset (Z.of_nat (length ((tb ++ d4 ++ c4 ++ pre) ++ le_bytes 1 uchOp) + length old)) r1)) s3 F tb d4 _ H3 Htb Hd4) as (s4 & E4 & H4).
  apply wp_bind. eexists _, _. split; [exact E4|]. apply wp_get. cbn [fst m_uiRowCnt set_uiDataSize set_uiOffset set_block r1].
  rewrite (u32_small (m_uiRowCnt r + 1)) by lia. apply wp_upd.
  destruct (set_row_count_ok (set_uiRowCnt (m_uiRowCnt r + 1) (set_uiDataSize (m_uiDataSize r + Z.of_nat n) (set_uiOffset (Z.of_nat (length ((tb ++ d4 ++ c4 ++ pre) ++ le_bytes 1 uchOp) + length old)) r1))) s4 F tb _ c4 _ H4 Htb (le_bytes_length _ _) Hc4) as (s5 & E5 & H5).
  apply wp_bind. eexists _, _. split; [exact E5|]. apply wp_ret.
  assert (Er : Z.of_nat (length ((tb ++ d4 ++ c4 ++ pre) ++ le_bytes 1 uchOp) + length old) = m_uiOffset r + Z.of_nat n).
  { rewrite Ho, (length_app (tb ++ d4 ++ c4 ++ pre)), le_bytes_length. lia. }
  rewrite Er in *. apply (HQ s5). unfold row_bytes. cbn [r_flag r_vals]. rewrite <-!app_assoc. exact H5.
Qed.

End Row.

(** ** A chunk with a key and rows *)

(** What stays the same: the type byte, the access data, the key, the table and its
    stored columns. *)
Record info := mkInfo { k_tb : list Z; k_meta : list Z; k_key : list Z; k_tab : DTCTableDefinition; k_fields : list (Z * column) }.
Definition k_cols (k : info) : list column := (k_fields k).*2.
Definition data_start (k : info) : nat := (16 + length (k_key k))%nat.
Definition data_size (k : info) (rows : list row) : nat := (data_start k + length (rows_bytes (k_cols k) rows))%nat.

Definition before_rows (k : info) (rows : list row) : list Z :=
  k_tb k ++ le_bytes 4 (Z.of_nat (data_size k rows)) ++ le_bytes 4 (Z.of_nat (length rows)) ++ k_meta k ++ k_key k.
Definition chunk_bytes (k : info) (rows : list row) (spare : list Z) : list Z :=
  before_rows k rows ++ rows_bytes (k_cols k) rows ++ spare.

Record rep r s F (k : info) (rows : list row) : Prop := {
  rep_own : exists spare, own r s F (chunk_bytes k rows spare);
  rep_dsize : m_uiDataSize r = Z.of_nat (data_size k rows);
  rep_cnt : m_uiRowCnt r = Z.of_nat (length rows);
  rep_start : m_uiDataStart r = Z.of_nat (data_start k);
  rep_scan : scan (k_tab k) (fields_from (m_uchKeyIdx r) (k_tab k)) = Ok (k_fields k);
  rep_rows : Forall (row_ok (k_cols k)) rows;
  rep_tb : length (k_tb k) = 1%nat;
  rep_meta : length (k_meta k) = 7%nat
}.

(** The place of a row, and of the end of the rows. *)
Definition place (k : info) (rows : list row) (i : nat) : Z := Z.of_nat (data_size k (take i rows)).

Lemma before_rows_length k rows : length (k_tb k) = 1%nat -> length (k_meta k) = 7%nat -> length (before_rows k rows) = data_start k.
Proof. intros H1 H2. unfold before_rows, data_start. rewrite !length_app, !le_bytes_length. lia. Qed.
Lemma rows_count cs rows : (length rows <= length (rows_bytes cs rows))%nat.
Proof. induction rows as [|v rows IH]; [done|]. rewrite rows_bytes_cons, length_app, row_bytes_length. cbn. lia. Qed.
Lemma rows_bytes_nil cs rows : (length (rows_bytes cs rows) <= 0)%nat -> rows = [].
Proof. pose proof (rows_count cs rows). intros ?. apply nil_length_inv. lia. Qed.
Lemma data_size_snoc k rows v : data_size k (rows ++ [v]) = (data_size k rows + length (row_bytes (k_cols k) v))%nat.
Proof. unfold data_size. rewrite rows_bytes_app, length_app. unfold rows_bytes at 2. cbn. rewrite app_nil_r. lia. Qed.
Lemma data_size_cons k rows v : data_size k (v :: rows) = (data_size k rows + length (row_bytes (k_cols k) v))%nat.
Proof. unfold data_size. rewrite rows_bytes_cons, length_app. lia. Qed.
Lemma data_size_app k a b : data_size k (a ++ b) = (data_size k a + length (rows_bytes (k_cols k) b))%nat.
Proof. unfold data_size. rewrite rows_bytes_app, length_app. lia. Qed.
Lemma place_all k rows i : (length rows <= i)%nat -> place k rows i = Z.of_nat (data_size k rows).
Proof. intros H. unfold place. by rewrite take_ge. Qed.
Lemma rep_small r s F k rows : rep r s F k rows -> Z.of_nat (data_size k rows) < 2 ^ 32 /\ Z.of_nat (length rows) <= Z.of_nat (data_size k rows).
Proof.
  intros H. destruct (rep_own _ _ _ _ _ H) as (spare & Ho). pose proof (own_size _ _ _ _ Ho) as Hl.
  unfold chunk_bytes in Hl. rewrite !length_app, (before_rows_length _ _ (rep_tb _ _ _ _ _ H) (rep_meta _ _ _ _ _ H)) in Hl.
  pose proof (rows_count (k_cols k) rows). unfold data_size. lia.
Qed.

(** Rows behind the row at [i]. *)
Lemma rows_at cs rows i v : rows !! i = Some v ->
  rows_bytes cs rows = rows_bytes cs (take i rows) ++ row_bytes cs v ++ rows_bytes cs (drop (Datatypes.S i) rows).
Proof. intros H. rewrite <-rows_bytes_cons, <-rows_bytes_app. by rewrite take_drop_middle. Qed.

Lemma chunk_rep_ext r r' s F k rows : _handle r' = _handle r -> m_pchContent r' = m_pchContent r -> _size r' = _size r ->
  m_uiDataSize r' = m_uiDataSize r -> m_uiRowCnt r' = m_uiRowCnt r -> m_uiDataStart r' = m_uiDataStart r -> m_uchKeyIdx r' = m_uchKeyIdx r ->
  rep r s F k rows -> rep r' s F k rows.
Proof.
  intros E1 E2 E3 E4 E5 E6 E7 []. split; rewrite ?E4, ?E5, ?E6, ?E7; try done.
  destruct rep_own0 as (spare & H). exists spare. by apply (own_same r).
Qed.

(** ** Inserting *)

(** A row of the table that holds [v]. *)
Definition row_val F (k : info) (stRow : DataRow) (vs : list fval) : Prop :=
  table_definition stRow = k_tab k /\ cells_val F stRow (k_fields k) vs.

Lemma row_val_ok F k stRow vs f : row_val F k stRow vs -> is_u 8 f -> row_ok (k_cols k) (mkRowV f vs).
Proof.
  intros [_ H] Hf. split; [done|]. cbn. unfold k_cols. unfold cells_val in H. apply Forall2_fmap_l. eapply Forall2_impl; [exact H|].
  intros [j c] v (x & _ & Hx). unfold cell_val, col_ok in *. cbn in *. destruct (col_width c), v; try done. by destruct Hx as (_ & _ & ?).
Qed.

(** The chunk of the same rows with other bytes behind them. *)
Lemma chunk_bytes_head k rows spare : chunk_bytes k rows spare = (before_rows k rows ++ rows_bytes (k_cols k) rows) ++ spare.
Proof. unfold chunk_bytes. by rewrite <-app_assoc. Qed.
Lemma head_length k rows : length (k_tb k) = 1%nat -> length (k_meta k) = 7%nat ->
  length (before_rows k rows ++ rows_bytes (k_cols k) rows) = data_size k rows.
Proof. intros H1 H2. by rewrite length_app, before_rows_length. Qed.
Lemma rep_prefix r s F k rows spare r1 s1 bs1 :
  rep r s F k rows -> moved r r1 -> own r1 s1 F bs1 -> take (data_size k rows) bs1 = take (data_size k rows) (chunk_bytes k rows spare) ->
  rep r1 s1 F k rows.
Proof.
  intros [Hown Hd Hc Hst Hscan Hrows Htb Hmeta] (h & n & ->) H1 Hp. split; try done.
  rewrite chunk_bytes_head, <-(head_length k rows) in Hp by done. rewrite take_app_length, (head_length k rows) in Hp by done.
  exists (drop (data_size k rows) bs1). rewrite chunk_bytes_head, <-Hp. by rewrite take_drop.
Qed.

Lemma expand_rep r s F k rows n : rep r s F k rows -> 0 <= n -> m_uiDataSize r + n < 2 ^ 32 ->
  wp (expand_chunk n) (r, s) (fun x st =>
    (x = EC_NO_MEM /\ st.1 = set_uiNeedSize (m_uiDataSize r + n) r /\ rep st.1 st.2 F k rows /\ _size r < m_uiDataSize r + n) \/
    (x = 0 /\ moved r st.1 /\ (m_uiDataSize r + n <= _size r -> _size st.1 = _size r) /\ rep st.1 st.2 F k rows /\ m_uiDataSize r + n <= _size st.1)).
Proof.
  intros H Hn Hsz. pose proof H as [(spare & Hown) Hd _ _ _ _ Htb Hmeta].
  eapply wp_mono; [apply (expand_chunk_ok r s F _ n Hown); lia|]. intros x [r1 s1]. cbn [fst snd].
  intros [(-> & -> & H1 & Hroom)|(-> & Hm & Hroom & bs' & H1 & Hl & Hp)].
  - left. split; [done|]. split; [done|]. split; [|done]. apply (chunk_rep_ext r); try done. destruct H; split; try done. by exists spare.
  - right. split; [done|]. split; [done|]. split; [done|]. split; [|pose proof H1 as (_ & _ & _ & ->); lia].
    eapply rep_prefix; [exact H|done|exact H1|]. apply (Hp (data_size k rows)); [lia|].
    rewrite chunk_bytes_head, length_app, head_length by done. lia.
Qed.

(** Room behind the rows. *)
Lemma rep_room r s F k rows n : rep r s F k rows -> m_uiDataSize r + Z.of_nat n <= _size r ->
  exists old post, own r s F (k_tb k ++ le_bytes 4 (Z.of_nat (data_size k rows)) ++ le_bytes 4 (Z.of_nat (length rows)) ++
    (k_meta k ++ k_key k ++ rows_bytes (k_cols k) rows) ++ old ++ post) /\ length old = n.
Proof.
  intros [(spare & Hown) Hd _ _ _ _ Htb Hmeta] Hn. exists (take n spare), (drop n spare). rewrite take_drop. split.
  - unfold chunk_bytes, before_rows in Hown. by rewrite <-!app_assoc in *.
  - pose proof Hown as (_ & _ & _ & Hs). rewrite chunk_bytes_head, length_app, head_length in Hs by done. rewrite length_take. lia.
Qed.

(** [encode_row] behind the last row. *)
Lemma encode_row_end r s F k rows stRow vs uchOp :
  rep r s F k rows -> row_val F k stRow vs -> is_u 8 uchOp ->
  Z.of_nat (data_size k (rows ++ [mkRowV uchOp vs])) < 2 ^ 32 -> m_uiOffset r = m_uiDataSize r ->
  wp (encode_row stRow uchOp true) (r, s) (fun x st =>
    (x = EC_NO_MEM /\ rep st.1 st.2 F k rows /\ m_uiOffset st.1 = m_uiOffset r /\ m_uiRowOffset st.1 = m_uiRowOffset r /\
      _size r < Z.of_nat (data_size k (rows ++ [mkRowV uchOp vs]))) \/
    (x = 0 /\ rep st.1 st.2 F k (rows ++ [mkRowV uchOp vs]) /\
      (Z.of_nat (data_size k (rows ++ [mkRowV uchOp vs])) <= _size r -> _size st.1 = _size r) /\
      m_uiOffset st.1 = Z.of_nat (data_size k (rows ++ [mkRowV uchOp vs])) /\ m_uiRowOffset st.1 = m_uiRowOffset r)).
Proof.
  intros H Hv Hop Hsz Ho. pose proof H as [_ Hd Hc Hst Hscan Hrows Htb Hmeta].
  set (v := mkRowV uchOp vs) in *. set (n := length (row_bytes (k_cols k) v)).
  pose proof (rows_count (k_cols k) (rows ++ [v])) as Hcnt.
  assert (Hcnt' : Z.of_nat (length rows) + 1 < 2 ^ 32) by (unfold data_size in Hsz; rewrite length_app in Hcnt; cbn in Hcnt; lia).
  assert (Hdn : Z.of_nat (data_size k (rows ++ [v])) = m_uiDataSize r + Z.of_nat n) by (rewrite data_size_snoc, Hd; fold n; lia).
  rewrite Hdn in Hsz |- *. set (pre := k_meta k ++ k_key k ++ rows_bytes (k_cols k) rows).
  apply (encode_row_ok F (k_tab k) (k_fields k) stRow vs (proj1 Hv) (proj2 Hv) r s uchOp true n (k_tb k) (le_bytes 4 (Z.of_nat (data_size k rows))) (le_bytes 4 (Z.of_nat (length rows))) pre);
    rewrite ?le_bytes_length; try done; [|lia..|].
  { unfold stands. rewrite Ho, Hd. unfold pre, data_size, data_start. rewrite !length_app, !le_bytes_length. lia. }
  eapply wp_mono; [apply (expand_rep r s F k rows (Z.of_nat n) H); lia|]. intros x [r1 s1]. cbn [fst snd].
  intros [(-> & -> & H1 & Hroom)|(-> & Hm & Hroom & H1 & Hl)].
  - left. split; [done|]. by left.
  - right. split; [done|]. split; [done|].
    destruct (rep_room r1 s1 F k rows n H1) as (old & post & H2 & Hlo); [destruct Hm as (? & ? & ->); exact Hl|].
    exists old, post. split; [exact H2|]. split; [exact Hlo|]. intros s' H'. right. split; [done|]. cbn [fst snd].
    destruct Hm as (h & sz & ->). split; [|split; [exact Hroom|split; [cbn; by rewrite Ho|done]]].
    split; try done.
    + exists post. unfold chunk_bytes, before_rows. rewrite Hdn, rows_bytes_app. rewrite Hd, Hc in H'. rewrite Hd, length_app. cbn [length]. rewrite Nat2Z.inj_add.
      unfold rows_bytes at 2. cbn [fmap list_fmap concat]. rewrite app_nil_r. unfold pre in H'. rewrite <-!app_assoc in *. exact H'.
    + change (m_uiRowCnt r + 1 = Z.of_nat (length (rows ++ [v]))). rewrite Hc, length_app. cbn. lia.
    + apply Forall_app. split; [done|]. constructor; [|constructor]. by eapply row_val_ok.
Qed.

(** ** Moving rows to the front *)

Lemma data_size_comm k a b : data_size k (a ++ b) = data_size k (b ++ a).
Proof. unfold data_size. rewrite !rows_bytes_app, !length_app. lia. Qed.

(** The exchange of two neighbouring pieces of the chunk. *)
Lemma swap_ok r s F A B N spare : own r s F (A ++ B ++ N ++ spare) ->
  wp (pBuf ← on_mem (mread (length N) (m_pchContent r + Z.of_nat (length A) + Z.of_nat (length B)));
      chunk_move (m_pchContent r + Z.of_nat (length A) + Z.of_nat (length N)) (m_pchContent r + Z.of_nat (length A)) (Z.of_nat (length B));;
      on_mem (mwrite (length N) (m_pchContent r + Z.of_nat (length A)) pBuf);; mret 0) (r, s)
    (fun x st => x = 0 /\ st.1 = r /\ own r st.2 F (A ++ N ++ B ++ spare)).
Proof.
  intros H. pose proof H as HN. rewrite app_assoc in HN.
  apply wp_bind. eapply wp_on_mem.
  { rewrite <-Z.add_assoc, <-Nat2Z.inj_add, <-length_app. by eapply own_read. }
  set (c := A ++ take (length N) (B ++ N)). set (d := drop (length N) (B ++ N) ++ spare).
  assert (Hcd : A ++ B ++ N ++ spare = c ++ d) by (unfold c, d; by rewrite <-app_assoc, (app_assoc (take _ _)), take_drop, <-app_assoc).
  assert (Hc : length c = (length A + length N)%nat) by (unfold c; rewrite length_app, length_take, length_app; lia).
  assert (Hd : drop (length B) d = spare) by (unfold d; rewrite drop_app_ge; rewrite length_drop, length_app; [|lia]; by replace (_ - _)%nat with 0%nat by lia).
  destruct (memmove_ok r s F A (B ++ N ++ spare) c d B H Hcd) as (s1 & E1 & H1).
  { apply take_app_length. }
  { rewrite length_app. lia. }
  { unfold d. rewrite length_app, length_drop, length_app. lia. }
  apply wp_bind. eexists _, _. split; [rewrite <-Z.add_assoc, <-Nat2Z.inj_add, <-Hc; exact E1|].
  rewrite Hd in H1. unfold c in H1. rewrite <-app_assoc in H1.
  destruct (own_write _ _ _ _ _ _ (length N) (le_value N) H1) as (s2 & E2 & H2).
  { rewrite length_take, length_app. lia. }
  apply wp_bind. eapply wp_on_mem; [exact E2|]. apply wp_ret. split; [done|]. split; [done|].
  rewrite le_bytes_value in H2; [exact H2|]. pose proof (own_ok _ _ _ _ H) as Hok. rewrite !Forall_app in Hok. tauto.
Qed.

Lemma move_to_front_ok env r s F k rows news :
  rep r s F k (rows ++ news) ->
  wp (move_to_front env (Z.of_nat (data_size k rows))) (r, s) (fun x st => st.1 = r /\
    ((x = 0 /\ rep r st.2 F k (news ++ rows)) \/
     (x = - ENOMEM /\ rep r st.2 F k (rows ++ news) /\ env.(sys_malloc) (Z.of_nat (length (rows_bytes (k_cols k) news))) = false))).
Proof.
  intros H. pose proof (rep_small _ _ _ _ _ H) as [Hsm _]. pose proof H as [(spare & Hown) Hd Hc Hst Hscan Hrows Htb Hmeta].
  unfold move_to_front. do 3 apply wp_get.
  set (B := rows_bytes (k_cols k) rows). set (N := rows_bytes (k_cols k) news).
  assert (Hn : u32 (m_uiDataSize r - Z.of_nat (data_size k rows)) = Z.of_nat (length N)).
  { rewrite Hd, data_size_app in *. fold N in Hsm |- *. rewrite u32_small; lia. }
  assert (Hb : u32 (Z.of_nat (data_size k rows) - m_uiDataStart r) = Z.of_nat (length B)).
  { rewrite Hst. rewrite data_size_app in Hsm. unfold data_size in *. fold B in Hsm |- *. rewrite u32_small; lia. }
  rewrite Hn, Hb. destruct (Z.ltb_spec 0 (Z.of_nat (length N))) as [HN|HN]; destruct (Z.ltb_spec 0 (Z.of_nat (length B))) as [HB|HB]; cbn [andb].
  2,3,4: apply wp_ret; split; [done|]; left; split; [done|].
  2: assert (EB : rows = []) by (apply (rows_bytes_nil (k_cols k)); fold B; lia); subst rows; by rewrite app_nil_r.
  2,3: assert (EN : news = []) by (apply (rows_bytes_nil (k_cols k)); fold N; lia); subst news; by rewrite app_nil_r in H.
  destruct (sys_malloc env _) eqn:Hm; cbn [negb]; [|apply wp_ret; split; [done|]; by right].
  rewrite Nat2Z.id. unfold chunk_bytes in Hown. rewrite rows_bytes_app in Hown. fold B N in Hown. rewrite <-app_assoc in Hown.
  pose proof (swap_ok _ _ _ _ _ _ _ Hown) as Hsw. rewrite (before_rows_length _ _ Htb Hmeta), <-Hst in Hsw.
  assert (Ea : m_pchContent r + Z.of_nat (data_size k rows) = m_pchContent r + m_uiDataStart r + Z.of_nat (length B)).
  { rewrite Hst. unfold data_size. fold B. lia. }
  rewrite Ea. eapply wp_mono; [exact Hsw|]. intros x [r1 s1]. cbn [fst snd]. intros (-> & -> & H1). split; [done|]. left. split; [done|].
  assert (Hbr : before_rows k (rows ++ news) = before_rows k (news ++ rows)).
  { unfold before_rows. by rewrite data_size_comm, !length_app, Nat.add_comm. }
  split; try done.
  - exists spare. unfold chunk_bytes. rewrite rows_bytes_app, <-app_assoc, <-Hbr. exact H1.
  - by rewrite data_size_comm.
  - by rewrite Hc, !length_app, Nat.add_comm.
  - rewrite Forall_app in *. tauto.
Qed.

Definition front_or_end (byFirst : bool) (rows news : list row) : list row := if byFirst then news ++ rows else rows ++ news.

(** The three ends of an insertion: done; no room, nothing changed; the rows are in the
    chunk, behind the others, because the C library had no room for the buffer. *)
Definition inserted_post env (r : RawData) F k rows (byFirst : bool) (news : list row) (x : Z) (st : RawData * S) : Prop :=
  m_uiRowOffset st.1 = m_uiRowOffset r /\
  ((x = 0 /\ rep st.1 st.2 F k (front_or_end byFirst rows news) /\ m_uiOffset st.1 = Z.of_nat (data_size k (rows ++ news))) \/
   (x = EC_NO_MEM /\ rep st.1 st.2 F k rows) \/
   (x = - ENOMEM /\ byFirst = true /\ rep st.1 st.2 F k (rows ++ news) /\
     env.(sys_malloc) (Z.of_nat (length (rows_bytes (k_cols k) news))) = false)).

Lemma insert_row_flag_ok env r s F k rows stRow vs byFirst uchOp :
  rep r s F k rows -> row_val F k stRow vs -> is_u 8 uchOp -> Z.of_nat (data_size k (rows ++ [mkRowV uchOp vs])) < 2 ^ 32 ->
  wp (insert_row_flag env stRow byFirst uchOp) (r, s) (inserted_post env r F k rows byFirst [mkRowV uchOp vs]).
Proof.
  intros H Hv Hop Hsz. unfold insert_row_flag. apply wp_get, wp_upd, wp_bind.
  assert (H0 : rep (set_uiOffset (m_uiDataSize r) r) s F k rows) by by apply (chunk_rep_ext r).
  eapply wp_mono; [exact (encode_row_end _ _ _ _ _ _ _ _ H0 Hv Hop Hsz eq_refl)|].
  intros x [r1 s1]. cbn [fst snd]. intros [(-> & H1 & Ho & Hr & _)|(-> & H1 & _ & Ho & Hr)].
  - apply wp_ret. split; [done|]. by right; left.
  - cbn [Z.eqb andb]. destruct byFirst.
    + rewrite (rep_dsize _ _ _ _ _ H). eapply wp_mono; [exact (move_to_front_ok env _ _ _ _ _ _ H1)|].
      intros x [r2 s2]. cbn [fst snd]. intros (-> & [[-> H2]|(-> & H2 & Hm)]); (split; [done|]); [by left|by right; right].
    + apply wp_ret. split; [done|]. by left.
Qed.

(** ** Several rows *)

Definition rows_val F k (sts : list DataRow) (vss : list (list fval)) : Prop := Forall2 (row_val F k) sts vss.
Definition new_rows (op : Z) (vss : list (list fval)) : list row := mkRowV op <$> vss.

Lemma rows_size_ok F k keyIdx op sts : forall vss n, scan (k_tab k) (fields_from keyIdx (k_tab k)) = Ok (k_fields k) -> rows_val F k sts vss ->
  rows_size sts keyIdx (u32 n) = Ok (u32 (n + Z.of_nat (length (rows_bytes (k_cols k) (new_rows op vss))))).
Proof.
  induction sts as [|st sts IH]; intros vss n Hs Hv.
  { apply Forall2_nil_inv_l in Hv as ->. cbn. by rewrite Z.add_0_r. }
  apply Forall2_cons_inv_l in Hv as (vs & vss' & [Ht Hc] & Hv & ->). cbn [rows_size].
  rewrite (calc_ok F (k_tab k) (k_fields k) st vs Ht Hc keyIdx Hs). cbn [obind]. rewrite u32_add.
  assert (Eu : forall a b, u32 (a + u32 b) = u32 (a + b)) by (intros; unfold u32; apply wrap_add_r). rewrite Eu, (IH vss') by done.
  unfold new_rows. rewrite fmap_cons, rows_bytes_cons, length_app, (row_bytes_flag (k_fields k) vs 0 op). do 2 f_equal.
  unfold k_cols. lia.
Qed.

Lemma encode_rows_ok F k op sts : forall vss r s rows,
  rep r s F k rows -> rows_val F k sts vss -> is_u 8 op -> Z.of_nat (data_size k (rows ++ new_rows op vss)) < 2 ^ 32 ->
  m_uiOffset r = m_uiDataSize r -> Z.of_nat (data_size k (rows ++ new_rows op vss)) <= _size r ->
  wp (encode_rows sts op) (r, s) (fun x st => x = 0 /\ rep st.1 st.2 F k (rows ++ new_rows op vss) /\
    m_uiOffset st.1 = Z.of_nat (data_size k (rows ++ new_rows op vss)) /\ m_uiRowOffset st.1 = m_uiRowOffset r).
Proof.
  induction sts as [|st sts IH]; intros vss r s rows H Hv Hop Hsz Ho Hroom.
  { apply Forall2_nil_inv_l in Hv as ->. cbn [new_rows fmap list_fmap] in *. rewrite app_nil_r in *. apply wp_ret. split; [done|]. split; [done|].
    split; [|done]. cbn [fst]. by rewrite Ho, (rep_dsize _ _ _ _ _ H). }
  apply Forall2_cons_inv_l in Hv as (vs & vss' & Hv1 & Hv & ->). change (new_rows op (vs :: vss')) with ([mkRowV op vs] ++ new_rows op vss') in *.
  rewrite (app_assoc rows) in *.
  assert (Hle : (data_size k (rows ++ [mkRowV op vs]) <= data_size k ((rows ++ [mkRowV op vs]) ++ new_rows op vss'))%nat) by (rewrite (data_size_app k (rows ++ _)); lia).
  cbn [encode_rows]. apply wp_bind. eapply wp_mono; [apply (encode_row_end r s F k rows st vs op H Hv1 Hop); [lia|done]|].
  intros x [r1 s1]. cbn [fst snd]. intros [(_ & _ & _ & _ & Hno)|(-> & H1 & Hs & Ho1 & Hr1)]; [lia|]. cbn [Z.eqb negb].
  eapply wp_mono; [apply (IH vss' r1 s1 _ H1 Hv Hop Hsz); [by rewrite Ho1, (rep_dsize _ _ _ _ _ H1)|rewrite Hs; lia]|].
  intros x [r2 s2]. cbn [fst snd]. intros (-> & H2 & Ho2 & Hr2). split; [done|]. split; [done|]. split; [done|]. by rewrite Hr2.
Qed.

Lemma insert_n_rows_ok env r s F k rows sts vss (byFirst isDirty : bool) :
  let op := if isDirty then OPER_INSERT else OPER_SELECT in
  rep r s F k rows -> rows_val F k sts vss -> Z.of_nat (data_size k (rows ++ new_rows op vss)) < 2 ^ 32 ->
  wp (insert_n_rows env sts byFirst isDirty) (r, s) (fun x st =>
    inserted_post env r F k rows byFirst (new_rows op vss) x st \/
    (x = EC_NO_MEM /\ st.1 = set_uiNeedSize (Z.of_nat (data_size k (rows ++ new_rows op vss))) r /\ rep st.1 st.2 F k rows)).
Proof.
  intros op H Hv Hsz. assert (Hop : is_u 8 op) by (unfold op; destruct isDirty; split; vm_compute; congruence).
  unfold insert_n_rows. apply wp_get.
  eapply wp_lift_ok; [exact (rows_size_ok F k _ op sts vss 0 (rep_scan _ _ _ _ _ H) Hv)|].
  set (n := Z.of_nat (length (rows_bytes (k_cols k) (new_rows op vss)))).
  assert (Hdn : Z.of_nat (data_size k (rows ++ new_rows op vss)) = m_uiDataSize r + n) by (rewrite data_size_app, (rep_dsize _ _ _ _ _ H); lia).
  rewrite Hdn in Hsz |- *. pose proof (rep_dsize _ _ _ _ _ H) as Hd. rewrite Z.add_0_l, u32_small by lia.
  apply wp_bind. eapply wp_mono; [apply (expand_rep r s F k rows n H); lia|]. intros x [r1 s1]. cbn [fst snd].
  intros [(-> & -> & H1 & _)|(-> & Hm & _ & H1 & Hl)].
  { apply wp_ret. by right. }
  cbn [Z.eqb negb]. apply wp_get, wp_upd, wp_bind. pose proof (rep_dsize _ _ _ _ _ H1) as Hd1.
  assert (H2 : rep (set_uiOffset (m_uiDataSize r1) r1) s1 F k rows) by by apply (chunk_rep_ext r1).
  eapply wp_mono; [apply (encode_rows_ok F k op sts vss _ s1 rows H2 Hv Hop); [by rewrite Hdn|done|rewrite Hdn; exact Hl]|].
  intros x [r2 s2]. cbn [fst snd]. intros (-> & H3 & Ho & Hr). cbn [Z.eqb negb].
  assert (Hr0 : m_uiRowOffset r2 = m_uiRowOffset r) by (rewrite Hr; by destruct Hm as (? & ? & ->)).
  destruct byFirst.
  - rewrite Hd1. eapply wp_mono; [exact (move_to_front_ok env _ _ _ _ _ _ H3)|].
    intros x [r3 s3]. cbn [fst snd]. intros (-> & [[-> H4]|(-> & H4 & Hmm)]); left; (split; [done|]); [by left|by right; right].
  - apply wp_ret. left. split; [done|]. by left.
Qed.

End Ops.
