(* ===== verification/RawEdit.v ===== *)
(** The operations of [RawData] that read, delete and replace rows, and those that make
    and copy whole chunks. *)
From Stdlib Require Import ZArith Lia.
From stdpp Require Import base list list_numbers numbers gmap.
From S2P Require Import Prelude Value TableDef Field PtMalloc PtSpec Mallocator RawData RawRep RawOps.
Import AllocSpec.
Local Open Scope Z_scope.

Section Edit.
Context {S : Type} `{!Mallocator S, !MallocatorLaws S}.
Implicit Types (r : RawData) (s : S) (F : blocks).
#[local] Abbreviation RD := (ST (RawData * S)).

(** ** Reading *)

Lemma or_error_ok {A B} (m : RD (option A)) (f : A -> RD (option B)) st a st' : m st = Ok (Some a, st') -> or_error m f st = f a st'.
Proof. intros E. unfold or_error. by rewrite (bind_ok _ _ _ _ _ E). Qed.
Lemma error_ret_ok {A} (m : RD (option A)) (label : RD A) st a st' : m st = Ok (Some a, st') -> error_ret m label st = Ok (a, st').
Proof. intros E. unfold error_ret. by rewrite (bind_ok _ _ _ _ _ E). Qed.

(** The chunk around the row [i]. *)
Lemma own_row r s F k rows i v : rep r s F k rows -> rows !! i = Some v ->
  exists spare, own r s F ((before_rows k rows ++ rows_bytes (k_cols k) (take i rows)) ++ row_bytes (k_cols k) v ++
    rows_bytes (k_cols k) (drop (Datatypes.S i) rows) ++ spare).
Proof.
  intros [(spare & Hown) _ _ _ _ _ _ _] Hi. exists spare. unfold chunk_bytes in Hown. rewrite (rows_at _ _ _ _ Hi) in Hown. by rewrite <-!app_assoc in *.
Qed.
Lemma before_length k rows rows' : length (k_tb k) = 1%nat -> length (k_meta k) = 7%nat ->
  length (before_rows k rows ++ rows_bytes (k_cols k) rows') = data_size k rows'.
Proof. intros H1 H2. by rewrite length_app, before_rows_length. Qed.
Lemma place_S k rows i v : rows !! i = Some v -> place k rows (Datatypes.S i) = place k rows i + Z.of_nat (length (row_bytes (k_cols k) v)).
Proof. intros H. unfold place. rewrite (take_S_r _ _ _ H), data_size_snoc. lia. Qed.
Lemma row_at_ok r s F k rows i v : rep r s F k rows -> rows !! i = Some v -> row_ok (k_cols k) v.
Proof. intros H Hi. eapply Forall_lookup_1; [exact (rep_rows _ _ _ _ _ H)|exact Hi]. Qed.

Lemma decode_row_ok r s F k rows i v stRow f0 iDecodeFlag :
  rep r s F k rows -> rows !! i = Some v -> m_uiOffset r = place k rows i -> table_definition stRow = k_tab k ->
  let peek := negb (Z.land iDecodeFlag PRE_DECODE_ROW =? 0) in
  exists la, decode_row stRow f0 iDecodeFlag (r, s) =
    Ok ((0, fill stRow (k_fields k) (r_vals v) (m_pchContent r + place k rows i + 1), r_flag v),
        (set_uiLAOffset la (set_uiRowOffset (if peek then m_uiRowOffset r else place k rows i)
          (set_uiOffset (if peek then place k rows i else place k rows (Datatypes.S i)) r)), s)).
Proof.
  intros H Hi Ho Ht peek. destruct (own_row _ _ _ _ _ _ _ H Hi) as (spare & Hown).
  destruct (row_at_ok _ _ _ _ _ _ _ H Hi) as [Hf Hv]. pose proof H as [_ _ _ _ Hscan _ Htb Hmeta].
  destruct (own_valid _ _ _ _ Hown) as [E1 E2]. set (pre := before_rows k rows ++ rows_bytes (k_cols k) (take i rows)) in *.
  assert (Hpre : Z.of_nat (length pre) = place k rows i) by (unfold pre; by rewrite before_length).
  set (r1 := set_uiRowOffset (m_uiOffset r) (set_uiLAOffset 0 r)).
  unfold row_bytes in Hown. rewrite <-app_assoc in Hown.
  assert (H1 : own r1 s F (pre ++ le_bytes 1 (r_flag v) ++ encs (k_cols k) (r_vals v) ++ rows_bytes (k_cols k) (drop (Datatypes.S i) rows) ++ spare)) by exact Hown.
  pose proof (GET_VALUE_ok r1 s F pre (le_bytes 1 (r_flag v)) _ H1) as Eg. rewrite le_bytes_length, le_value_bytes_small in Eg by exact Hf.
  specialize (Eg ltac:(unfold stands; by rewrite Hpre)). rewrite app_assoc in H1.
  destruct (decode_fields_ok (k_tab k) _ (k_fields k) (r_vals v) stRow (set_uiOffset (Z.of_nat (length (pre ++ le_bytes 1 (r_flag v)))) r1) s F _ _ Hscan Ht Hv H1 eq_refl) as (la & Ed).
  exists la. unfold decode_row.
  rewrite (gets_bind (fun st : RawData * S => _handle st.1)), (gets_bind (fun st : RawData * S => m_pchContent st.1)). cbn [fst].
  rewrite E1, E2. cbn [orb].
  rewrite (gets_bind (fun st : RawData * S => m_uiOffset st.1)), (gets_bind (fun st : RawData * S => m_uiRowOffset st.1)).
  do 2 rewrite (bind_ok (upd _) _ _ _ _ eq_refl). cbn [fst snd]. fold r1. rewrite (bind_ok _ _ _ _ _ Eg).
  rewrite (gets_bind (fun st : RawData * S => m_uchKeyIdx st.1)). cbn [fst m_uchKeyIdx set_uiOffset set_uiRowOffset set_uiLAOffset r1]. rewrite Ht.
  rewrite (bind_ok _ _ _ _ _ (bind_ok _ _ _ _ _ Ed)). cbn [fst snd].
  assert (El : Z.of_nat (length ((pre ++ le_bytes 1 (r_flag v)) ++ encs (k_fields k).*2 (r_vals v))) = place k rows (Datatypes.S i)).
  { rewrite (place_S _ _ _ _ Hi), <-Hpre. unfold row_bytes. rewrite <-app_assoc, (length_app pre). unfold k_cols. lia. }
  assert (Ea : m_pchContent r + Z.of_nat (length (pre ++ le_bytes 1 (r_flag v))) = m_pchContent r + place k rows i + 1).
  { rewrite <-Hpre, length_app, le_bytes_length. lia. }
  cbn [m_pchContent set_uiOffset r1 set_uiRowOffset set_uiLAOffset]. rewrite El, Ea. fold peek. unfold r1. rewrite Ho. by destruct peek.
Qed.

Lemma skip_row_ok r s F k rows i v stRow :
  rep r s F k rows -> rows !! i = Some v -> m_uiRowOffset r = place k rows i -> table_definition stRow = k_tab k ->
  skip_row stRow (r, s) = Ok (0, (set_uiOffset (place k rows (Datatypes.S i)) r, s)).
Proof.
  intros H Hi Ho Ht. destruct (own_row _ _ _ _ _ _ _ H Hi) as (spare & Hown).
  destruct (row_at_ok _ _ _ _ _ _ _ H Hi) as [Hf Hv]. pose proof H as [_ Hd _ _ Hscan _ Htb Hmeta].
  destruct (own_valid _ _ _ _ Hown) as [E1 E2]. set (pre := before_rows k rows ++ rows_bytes (k_cols k) (take i rows)) in *.
  assert (Hpre : Z.of_nat (length pre) = place k rows i) by (unfold pre; by rewrite before_length).
  unfold skip_row.
  rewrite (gets_bind (fun st : RawData * S => _handle st.1)), (gets_bind (fun st : RawData * S => m_pchContent st.1)). cbn [fst].
  rewrite E1, E2. cbn [orb]. rewrite (gets_bind (fun st : RawData * S => m_uiRowOffset st.1)). cbn [fst].
  rewrite (bind_ok (upd _) _ _ _ _ eq_refl). cbn [fst snd]. rewrite (gets_bind (fun st : RawData * S => m_uiDataSize st.1)). cbn [fst m_uiDataSize set_uiOffset].
  assert (Hlt : place k rows i < Z.of_nat (data_size k rows)).
  { rewrite <-(take_drop_middle _ _ _ Hi) at 2. unfold place. rewrite data_size_app, rows_bytes_cons, length_app, row_bytes_length. lia. }
  rewrite Ho, Hd, (proj2 (Z.leb_gt _ _)) by lia.
  rewrite (gets_bind (fun st : RawData * S => m_uchKeyIdx st.1)). cbn [fst m_uchKeyIdx set_uiOffset].
  unfold row_bytes in Hown. rewrite <-app_assoc in Hown. set (r1 := set_uiOffset (place k rows i) r).
  assert (H1 : own r1 s F (pre ++ le_bytes 1 (r_flag v) ++ encs (k_cols k) (r_vals v) ++ rows_bytes (k_cols k) (drop (Datatypes.S i) rows) ++ spare)) by exact Hown.
  pose proof (SKIP_SIZEOF_ok r1 s F pre (le_bytes 1 (r_flag v)) _ H1) as Eg. rewrite le_bytes_length in Eg.
  specialize (Eg ltac:(unfold stands; by rewrite Hpre)). rewrite app_assoc in H1.
  apply error_ret_ok. rewrite (or_error_ok _ _ _ _ _ Eg), Ht.
  pose proof (skip_fields_ok (k_tab k) _ (k_fields k) (r_vals v) (set_uiOffset (Z.of_nat (length (pre ++ le_bytes 1 (r_flag v)))) r1) s F _ _ Hscan Hv H1 eq_refl) as Es.
  rewrite (or_error_ok _ _ _ _ _ Es), ret_ok. do 3 f_equal.
  assert (El : Z.of_nat (length ((pre ++ le_bytes 1 (r_flag v)) ++ encs (k_fields k).*2 (r_vals v))) = place k rows (Datatypes.S i)).
  { rewrite (place_S _ _ _ _ Hi), <-Hpre. unfold row_bytes. rewrite <-app_assoc, (length_app pre). unfold k_cols. lia. }
  by rewrite El.
Qed.

Lemma skip_row_end r s F k rows stRow : rep r s F k rows -> m_uiRowOffset r = Z.of_nat (data_size k rows) ->
  skip_row stRow (r, s) = Ok (-2, (set_uiOffset (m_uiRowOffset r) r, s)).
Proof.
  intros [(spare & Hown) Hd _ _ _ _ _ _] Ho. destruct (own_valid _ _ _ _ Hown) as [E1 E2]. unfold skip_row.
  rewrite (gets_bind (fun st : RawData * S => _handle st.1)), (gets_bind (fun st : RawData * S => m_pchContent st.1)). cbn [fst].
  rewrite E1, E2. cbn [orb]. rewrite (gets_bind (fun st : RawData * S => m_uiRowOffset st.1)). cbn [fst].
  rewrite (bind_ok (upd _) _ _ _ _ eq_refl). cbn [fst snd]. rewrite (gets_bind (fun st : RawData * S => m_uiDataSize st.1)). cbn [fst m_uiDataSize set_uiOffset].
  by rewrite Ho, Hd, (proj2 (Z.leb_le _ _)).
Qed.

(** ** Storing the sizes

    The rows are already in place, and the object counts them; the header follows. *)
Definition head_bytes (k : info) (d4 c4 : list Z) : list Z := k_tb k ++ d4 ++ c4 ++ k_meta k ++ k_key k.
Lemma head_bytes_length k d4 c4 : length (k_tb k) = 1%nat -> length (k_meta k) = 7%nat -> length d4 = 4%nat -> length c4 = 4%nat ->
  length (head_bytes k d4 c4) = data_start k.
Proof. intros H1 H2 H3 H4. unfold head_bytes, data_start. rewrite !length_app. lia. Qed.
Lemma store_sizes r s F k d4 c4 rows spare {B} (kk : RD B) (Q : B -> RawData * S -> Prop) :
  own r s F (head_bytes k d4 c4 ++ rows_bytes (k_cols k) rows ++ spare) -> length d4 = 4%nat -> length c4 = 4%nat ->
  m_uiDataSize r = Z.of_nat (data_size k rows) -> m_uiRowCnt r = Z.of_nat (length rows) -> m_uiDataStart r = Z.of_nat (data_start k) ->
  scan (k_tab k) (fields_from (m_uchKeyIdx r) (k_tab k)) = Ok (k_fields k) -> Forall (row_ok (k_cols k)) rows ->
  length (k_tb k) = 1%nat -> length (k_meta k) = 7%nat ->
  (forall s', rep r s' F k rows -> wp kk (r, s') Q) ->
  wp (set_data_size;; set_row_count;; kk) (r, s) Q.
Proof.
  intros Hown Hd4 Hc4 Hd Hc Hst Hscan Hrows Htb Hmeta HQ. unfold head_bytes in Hown. rewrite <-!app_assoc in Hown.
  eapply set_sizes_ok; [exact Hown|done..|]. intros s' H'. apply HQ. split; try done.
  exists spare. unfold chunk_bytes, before_rows. rewrite <-!app_assoc, <-Hd, <-Hc. exact H'.
Qed.

(** ** Deleting *)

Lemma rows_drop_length k rows i v : rows !! i = Some v ->
  Z.of_nat (length (rows_bytes (k_cols k) (drop (Datatypes.S i) rows))) = Z.of_nat (data_size k rows) - place k rows (Datatypes.S i).
Proof.
  intros Hi. rewrite <-(take_drop (Datatypes.S i) rows) at 2. unfold place. rewrite data_size_app. lia.
Qed.
Lemma place_le k rows i : place k rows i <= Z.of_nat (data_size k rows).
Proof. rewrite <-(take_drop i rows) at 2. unfold place. rewrite data_size_app. lia. Qed.
Lemma place_nonneg k rows i : 0 <= place k rows i.
Proof. unfold place. lia. Qed.

Lemma delete_cur_row_ok r s F k rows i v stRow :
  rep r s F k rows -> rows !! i = Some v -> m_uiRowOffset r = place k rows i -> table_definition stRow = k_tab k ->
  wp (delete_cur_row stRow) (r, s) (fun x st => x = 0 /\ rep st.1 st.2 F k (delete i rows) /\
    m_uiOffset st.1 = place k rows i /\ m_uiRowOffset st.1 = place k rows i).
Proof.
  intros H Hi Ho Ht. destruct (own_row _ _ _ _ _ _ _ H Hi) as (spare & Hown).
  pose proof (rep_small _ _ _ _ _ H) as [Hsm Hsm2]. pose proof H as [_ Hd Hc Hst Hscan Hrows Htb Hmeta].
  set (pre := before_rows k rows ++ rows_bytes (k_cols k) (take i rows)) in *. set (rest := rows_bytes (k_cols k) (drop (Datatypes.S i) rows)) in *.
  set (vb := row_bytes (k_cols k) v) in *.
  assert (Hpre : Z.of_nat (length pre) = place k rows i) by (unfold pre; by rewrite before_length).
  pose proof (place_S k _ _ _ Hi) as HS. fold vb in HS. pose proof (rows_drop_length k _ _ _ Hi) as Hrest. fold rest in Hrest.
  unfold delete_cur_row. apply wp_get, wp_bind. eexists _, _. split; [exact (skip_row_ok _ _ _ _ _ _ _ _ H Hi Ho Ht)|]. cbn [Z.eqb negb].
  do 4 apply wp_get. cbn [m_pchContent m_uiOffset m_uiRowOffset m_uiDataSize set_uiOffset]. rewrite Ho, Hd.
  rewrite <-Hrest, (u32_small (Z.of_nat (length rest))) by (pose proof (place_nonneg k rows i); lia).
  assert (Es : place k rows (Datatypes.S i) = Z.of_nat (length (pre ++ vb))) by (rewrite HS, length_app; lia).
  rewrite Es, <-Hpre. rewrite app_assoc in Hown.
  destruct (memmove_ok (set_uiOffset (Z.of_nat (length (pre ++ vb))) r) s F (pre ++ vb) (rest ++ spare) pre (vb ++ rest ++ spare) rest) as (s1 & E1 & H1).
  { exact Hown. } { by rewrite <-app_assoc. } { apply take_app_length. } { rewrite length_app. lia. } { rewrite !length_app. lia. }
  apply wp_bind. eexists _, _. split; [exact E1|]. apply wp_upd, wp_get, wp_upd. cbn [m_uiRowCnt set_uiDataSize set_uiOffset].
  assert (Hn : Z.of_nat (data_size k (delete i rows)) = Z.of_nat (data_size k rows) - Z.of_nat (length vb)).
  { rewrite delete_take_drop, data_size_app. fold rest. unfold place in HS, Hrest. lia. }
  assert (Hln : (length rows = 1 + length (delete i rows))%nat) by (rewrite length_delete by eauto; apply lookup_lt_Some in Hi; lia).
  assert (Hrows' : rows_bytes (k_cols k) (delete i rows) = rows_bytes (k_cols k) (take i rows) ++ rest) by (by rewrite delete_take_drop, rows_bytes_app).
  eapply (store_sizes _ s1 F k (le_bytes 4 (Z.of_nat (data_size k rows))) (le_bytes 4 (Z.of_nat (length rows))) (delete i rows)); try done.
  - rewrite Hrows', <-!app_assoc. unfold pre in H1. rewrite <-!app_assoc in H1. exact H1.
  - cbn [m_uiDataSize set_uiDataSize set_uiRowCnt]. rewrite Hn, length_app, u32_small; lia.
  - cbn [m_uiRowCnt set_uiRowCnt]. rewrite Hc, u32_small; lia.
  - rewrite delete_take_drop. apply Forall_app. split; [by apply Forall_take|by apply Forall_drop].
  - intros s2 H2. apply wp_upd, wp_ret. cbn [fst snd]. split; [done|]. split; [by eapply chunk_rep_ext; [..|exact H2]|]. cbn. by rewrite Hpre.
Qed.

Lemma delete_cur_row_end r s F k rows stRow : rep r s F k rows -> m_uiRowOffset r = Z.of_nat (data_size k rows) ->
  delete_cur_row stRow (r, s) = Ok (-2, (r, s)).
Proof.
  intros H Ho. unfold delete_cur_row. rewrite (gets_bind (fun st : RawData * S => m_uiOffset st.1)). cbn [fst].
  rewrite (bind_ok _ _ _ _ _ (skip_row_end _ _ _ _ _ stRow H Ho)). cbn [Z.eqb negb]. rewrite (bind_ok (upd _) _ _ _ _ eq_refl), ret_ok. cbn [fst snd].
  by destruct r.
Qed.

(** ** Replacing *)

Lemma moved_fields r r1 : moved r r1 -> m_uiDataSize r1 = m_uiDataSize r /\ m_uiRowCnt r1 = m_uiRowCnt r /\ m_uiDataStart r1 = m_uiDataStart r /\
  m_uiOffset r1 = m_uiOffset r /\ m_uiRowOffset r1 = m_uiRowOffset r /\ m_uchKeyIdx r1 = m_uchKeyIdx r.
Proof. by intros (h & n & ->). Qed.

(** [encode_row] over the place of the row [i], without growing the chunk. *)
Lemma encode_row_over r s F k rows i stRow vs op n d4 c4 old post :
  scan (k_tab k) (fields_from (m_uchKeyIdx r) (k_tab k)) = Ok (k_fields k) -> length (k_tb k) = 1%nat -> length (k_meta k) = 7%nat ->
  row_val F k stRow vs -> n = length (row_bytes (k_cols k) (mkRowV op vs)) ->
  own r s F (head_bytes k d4 c4 ++ rows_bytes (k_cols k) (take i rows) ++ old ++ post) -> length d4 = 4%nat -> length c4 = 4%nat ->
  length old = n -> m_uiOffset r = place k rows i ->
  0 <= m_uiDataSize r -> m_uiDataSize r + Z.of_nat n < 2 ^ 32 -> 0 <= m_uiRowCnt r <= m_uiDataSize r ->
  wp (encode_row stRow op false) (r, s) (fun x st => x = 0 /\
    st.1 = set_uiOffset (place k rows i + Z.of_nat n) (set_uiRowCnt (m_uiRowCnt r + 1) (set_uiDataSize (m_uiDataSize r + Z.of_nat n) r)) /\
    exists d4 c4, length d4 = 4%nat /\ length c4 = 4%nat /\
      own st.1 st.2 F (head_bytes k d4 c4 ++ rows_bytes (k_cols k) (take i rows) ++ row_bytes (k_cols k) (mkRowV op vs) ++ post)).
Proof.
  intros Hscan Htb Hmeta Hv Hn H Hd4 Hc4 Hlo Ho Hd1 Hd2 Hc1. pose proof (row_bytes_length (k_cols k) (mkRowV op vs)) as Hn1.
  apply (encode_row_ok F (k_tab k) (k_fields k) stRow vs (proj1 Hv) (proj2 Hv) r s op false n (k_tb k) d4 c4 (k_meta k ++ k_key k ++ rows_bytes (k_cols k) (take i rows)));
    try done; [|lia..|].
  { unfold stands. rewrite Ho. unfold place, data_size, data_start. rewrite !length_app. lia. }
  apply wp_ret. right. split; [done|]. cbn [fst snd]. split; [by eapply moved_refl|]. exists old, post.
  split; [unfold head_bytes in H; by rewrite <-!app_assoc in *|]. split; [done|]. intros s' H'. split; [done|]. cbn [fst snd]. split; [by rewrite Ho|].
  eexists (le_bytes 4 _), (le_bytes 4 _). split; [apply le_bytes_length|]. split; [apply le_bytes_length|].
  unfold head_bytes. rewrite <-!app_assoc in *. exact H'.
Qed.

Lemma replaced_bytes cs rows i (v v' : row) : rows !! i = Some v ->
  rows_bytes cs (<[i := v']> rows) = rows_bytes cs (take i rows) ++ row_bytes cs v' ++ rows_bytes cs (drop (Datatypes.S i) rows).
Proof. intros Hi. rewrite insert_take_drop by (by apply lookup_lt_Some in Hi). by rewrite rows_bytes_app, rows_bytes_cons. Qed.
Lemma replaced_size k rows i (v v' : row) : rows !! i = Some v ->
  Z.of_nat (data_size k (<[i := v']> rows)) = Z.of_nat (data_size k rows) + Z.of_nat (length (row_bytes (k_cols k) v')) - Z.of_nat (length (row_bytes (k_cols k) v)).
Proof. intros Hi. unfold data_size. rewrite (replaced_bytes _ _ _ _ _ Hi), (rows_at _ _ _ _ Hi), !length_app. lia. Qed.
Lemma replaced_place k rows i (v v' : row) : rows !! i = Some v -> place k (<[i := v']> rows) i = place k rows i.
Proof. intros Hi. unfold place. by rewrite take_insert_ge by lia. Qed.

Section Replace.
Context (F : blocks) (k : info) (rows : list row) (i : nat) (v : row) (stRow : DataRow) (vs : list fval) (op : Z).
Context (Hi : rows !! i = Some v) (Hv : row_val F k stRow vs) (Hop : is_u 8 op).
Notation v' := (mkRowV op vs).
Notation cs := (k_cols k).
Notation n := (length (row_bytes cs v)).
Notation n' := (length (row_bytes cs v')).
Notation pre := (before_rows k rows ++ rows_bytes cs (take i rows)).
Notation rest := (rows_bytes cs (drop (Datatypes.S i) rows)).
Context (Hfit : Z.of_nat (data_size k rows) + Z.of_nat n' < 2 ^ 32).

(** The rows are in place and counted; only the header still has the old sizes. *)
Definition replaced r (st : RawData * S) : Prop :=
  (exists d4 c4 spare, length d4 = 4%nat /\ length c4 = 4%nat /\
    own st.1 st.2 F (head_bytes k d4 c4 ++ rows_bytes cs (<[i := v']> rows) ++ spare)) /\
  m_uiDataSize st.1 = Z.of_nat (data_size k (<[i := v']> rows)) /\ m_uiRowCnt st.1 = Z.of_nat (length rows) /\
  m_uiDataStart st.1 = m_uiDataStart r /\ m_uchKeyIdx st.1 = m_uchKeyIdx r /\
  m_uiOffset st.1 = place k (<[i := v']> rows) (Datatypes.S i) /\ m_uiRowOffset st.1 = place k rows i.

(** What [encode_row] and the corrections after it leave in the object. *)
Lemma replaced_fields r h sz d4 c4 spare s' :
  rep r s' F k rows \/ (m_uiDataSize r = Z.of_nat (data_size k rows) /\ m_uiRowCnt r = Z.of_nat (length rows)) ->
  m_uiRowOffset r = place k rows i -> length d4 = 4%nat -> length c4 = 4%nat ->
  let r' := set_uiDataSize (u32 (m_uiDataSize r + Z.of_nat n' - Z.of_nat n)) (set_uiRowCnt (u32 (m_uiRowCnt r + 1 - 1)) (set_block h h sz
     (set_uiOffset (place k rows i + Z.of_nat n') (set_uiRowCnt (m_uiRowCnt r + 1) (set_uiDataSize (m_uiDataSize r + Z.of_nat n') r))))) in
  own r' s' F (head_bytes k d4 c4 ++ rows_bytes cs (take i rows) ++ row_bytes cs v' ++ rest ++ spare) ->
  Z.of_nat (data_size k rows) < 2 ^ 32 -> replaced r (r', s').
Proof.
  intros Hr Hro Hd4 Hc4 r' H' Hsm. assert (Hd : m_uiDataSize r = Z.of_nat (data_size k rows) /\ m_uiRowCnt r = Z.of_nat (length rows)) by (destruct Hr as [[]|?]; done).
  destruct Hd as [Hd Hc]. pose proof (rows_count cs rows) as Hrc. pose proof (replaced_size k rows i v v' Hi) as Hds.
  pose proof (place_S k rows i v Hi) as Hps. pose proof (place_le k rows (Datatypes.S i)) as Hpl. pose proof (place_nonneg k rows i) as Hpn.
  split; [exists d4, c4, spare; split; [done|]; split; [done|]; rewrite (replaced_bytes _ _ _ _ _ Hi), <-!app_assoc; exact H'|].
  split; [cbn [fst]; unfold r'; cbn [m_uiDataSize set_uiDataSize]; rewrite Hds, Hd, u32_small; lia|].
  split; [cbn [fst]; unfold r'; cbn [m_uiRowCnt set_uiDataSize set_uiRowCnt]; rewrite Hc, u32_small; unfold data_size in Hsm; lia|].
  split; [done|]. split; [done|]. split; [|done].
  rewrite (place_S k _ i v'), (replaced_place k rows i v v' Hi) by (apply list_lookup_insert_eq; by apply lookup_lt_Some in Hi). done.
Qed.

(** Room for the new row: what follows the old one moves down. *)
Lemma make_room r s spare : own r s F (pre ++ row_bytes cs v ++ rest ++ spare) -> length (k_tb k) = 1%nat -> length (k_meta k) = 7%nat ->
  (n < n')%nat -> (n' <= n + length spare)%nat ->
  exists s2 X spare2, (if 0 <? Z.of_nat (length rest)
    then chunk_move (m_pchContent r + place k rows (Datatypes.S i) + (Z.of_nat n' - Z.of_nat n)) (m_pchContent r + place k rows (Datatypes.S i)) (Z.of_nat (length rest))
    else mret tt) (r, s) = Ok (tt, (r, s2)) /\
    own r s2 F (pre ++ X ++ rest ++ spare2) /\ length X = n'.
Proof.
  intros H Htb Hmeta Hlt Hroom. set (vb := row_bytes cs v) in *. set (R := rest) in *.
  assert (Ea : place k rows (Datatypes.S i) = Z.of_nat (length (pre ++ vb))).
  { rewrite (place_S _ _ _ _ Hi), length_app, before_length by done. unfold place. fold vb. lia. }
  destruct (Z.ltb_spec 0 (Z.of_nat (length R))) as [HR|HR].
  - set (c := pre ++ take n' (vb ++ R ++ spare)). set (d := drop n' (vb ++ R ++ spare)).
    assert (Hc : length c = (length pre + n')%nat) by (unfold c; rewrite length_app, length_take, !length_app; fold vb in Hlt; lia).
    rewrite app_assoc in H.
    destruct (memmove_ok r s F (pre ++ vb) (R ++ spare) c d R H) as (s2 & E & H2).
    { unfold c, d. by rewrite <-!app_assoc, take_drop. } { apply take_app_length. } { rewrite length_app. lia. }
    { unfold d. rewrite length_drop, !length_app. fold vb in Hroom. lia. }
    exists s2, (take n' (vb ++ R ++ spare)), (drop (length R) d). unfold c in H2. rewrite <-!app_assoc in H2. split; [|split; [rewrite <-!app_assoc; exact H2|]].
    + rewrite Ea. rewrite <-E. f_equal. rewrite Hc, (length_app pre vb). fold vb. lia.
    + rewrite length_take, !length_app. fold vb in Hlt. lia.
  - assert (ER : R = []) by (apply nil_length_inv; lia). rewrite ER in *. cbn [app] in *.
    exists s, (take n' (vb ++ spare)), (drop n' (vb ++ spare)). rewrite take_drop. split; [done|]. split; [done|].
    rewrite length_take, length_app. fold vb in Hroom. lia.
Qed.

Lemma replace_longer_ok r s :
  rep r s F k rows -> m_uiRowOffset r = place k rows i -> (n < n')%nat ->
  wp (replace_longer stRow op (Z.of_nat n') (Z.of_nat n) (place k rows (Datatypes.S i)) (Z.of_nat (length rest))) (r, s) (fun x st =>
    (x = 0 /\ replaced r st) \/ (x = EC_NO_MEM /\ rep st.1 st.2 F k rows /\ m_uiRowOffset st.1 = m_uiRowOffset r)).
Proof.
  intros H Hro Hlt. pose proof (rep_small _ _ _ _ _ H) as [Hsm Hsm2].
  pose proof H as [(spare & Hown) Hd Hc Hst Hscan Hrows Htb Hmeta].
  unfold replace_longer. apply wp_get. rewrite u32_small by lia.
  apply wp_bind. eapply wp_mono; [apply (re_alloc_ok r s F _ _ Hown); lia|]. intros x [r1 s1]. cbn [fst snd].
  intros [(-> & -> & H1)|(-> & Hm & bs' & H1 & Hl & Hp)].
  { apply wp_ret. right. split; [done|]. split; [|done]. apply (chunk_rep_ext r); try done. split; try done. by exists spare. }
  cbn [Z.eqb negb]. specialize (Hp (data_size k rows) ltac:(lia)). rewrite chunk_bytes_head in Hp at 1.
  rewrite length_app, head_length in Hp by done. specialize (Hp ltac:(lia)).
  pose proof (rep_prefix r s F k rows spare r1 s1 bs' H Hm H1 Hp) as Hrep1. destruct (own_row _ _ _ _ _ _ _ Hrep1 Hi) as (spare1 & Hown1).
  assert (Hsp : (n' <= n + length spare1)%nat).
  { pose proof Hown1 as (_ & _ & _ & Es). pose proof H1 as (_ & _ & _ & Es1). rewrite Es1, !length_app, before_rows_length in Es by done.
    unfold data_size in Hd. rewrite (rows_at _ _ _ _ Hi), !length_app in Hd. lia. }
  apply wp_get. destruct (make_room r1 s1 spare1 Hown1 Htb Hmeta Hlt Hsp) as (s2 & X & spare2 & E2 & H2 & HX).
  apply wp_bind. eexists _, _. split; [exact E2|]. apply wp_get, wp_upd, wp_bind.
  destruct (moved_fields _ _ Hm) as (Em1 & Em2 & Em3 & Em4 & Em5 & Em6).
  eapply wp_mono; [apply (encode_row_over (set_uiOffset (m_uiRowOffset r1) r1) s2 F k rows i stRow vs op n' (le_bytes 4 (Z.of_nat (data_size k rows))) (le_bytes 4 (Z.of_nat (length rows))) X (rest ++ spare2));
    cbn [m_uchKeyIdx m_uiOffset m_uiDataSize m_uiRowCnt set_uiOffset]; rewrite ?Em1, ?Em2, ?Em5, ?Em6, ?le_bytes_length; try done; try lia|].
  { rewrite <-app_assoc in H2. exact H2. }
  intros x [r2 s3]. cbn [fst snd]. intros (-> & -> & d4 & c4 & Hd4 & Hc4 & H3). cbn [Z.eqb negb].
  apply wp_get, wp_upd, wp_get, wp_upd, wp_ret. left. split; [done|].
  destruct Hm as (h & sz & ->). apply (replaced_fields r h sz d4 c4 spare2); try done. by right.
Qed.
(** The rows behind the new, shorter one move up. *)
Lemma close_gap r s d4 c4 spare : own r s F (head_bytes k d4 c4 ++ rows_bytes cs (take i rows) ++ row_bytes cs v' ++ (drop n' (row_bytes cs v) ++ rest ++ spare)) ->
  length (k_tb k) = 1%nat -> length (k_meta k) = 7%nat -> length d4 = 4%nat -> length c4 = 4%nat -> (n' <= n)%nat ->
  exists s2 spare2, (if (0 <? Z.of_nat (length rest)) && negb (place k rows i + Z.of_nat n' =? place k rows (Datatypes.S i))
    then chunk_move (m_pchContent r + (place k rows i + Z.of_nat n')) (m_pchContent r + place k rows (Datatypes.S i)) (Z.of_nat (length rest))
    else mret tt) (r, s) = Ok (tt, (r, s2)) /\
    own r s2 F (head_bytes k d4 c4 ++ rows_bytes cs (take i rows) ++ row_bytes cs v' ++ rest ++ spare2) /\
    (n + length spare = n' + length spare2)%nat.
Proof.
  intros H Htb Hmeta Hd4 Hc4 Hle. set (vb := row_bytes cs v) in *. set (wb := row_bytes cs v') in *. set (R := rest) in *.
  rewrite (place_S _ _ _ _ Hi). fold vb.
  destruct (Z.ltb_spec 0 (Z.of_nat (length R))) as [HR|HR]; cbn [andb].
  - destruct (Z.eqb_spec (place k rows i + Z.of_nat (length wb)) (place k rows i + Z.of_nat (length vb))) as [Hn|Hn]; cbn [negb].
    { exists s, spare. rewrite drop_ge in H by (fold vb wb; lia). cbn [app] in H. split; [done|]. split; [exact H|lia]. }
    set (c := head_bytes k d4 c4 ++ rows_bytes cs (take i rows) ++ wb). set (g := drop (length wb) vb).
    assert (Hc : Z.of_nat (length c) = place k rows i + Z.of_nat (length wb)).
    { unfold c. rewrite !length_app, head_bytes_length by done. unfold place, data_size. lia. }
    assert (Hg : (length wb + length g = length vb)%nat) by (unfold g; rewrite length_drop; fold vb wb in Hle; lia).
    destruct (memmove_ok r s F (c ++ g) (R ++ spare) c (g ++ R ++ spare) R) as (s2 & E & H2).
    { unfold c. rewrite <-!app_assoc. exact H. } { by rewrite <-app_assoc. } { apply take_app_length. } { rewrite length_app. lia. } { rewrite !length_app. lia. }
    exists s2, (drop (length R) (g ++ R ++ spare)). split; [|split].
    + rewrite <-E. f_equal; [f_equal; lia|]. f_equal. rewrite length_app. lia.
    + unfold c in H2. rewrite <-!app_assoc in H2. exact H2.
    + rewrite length_drop, !length_app. fold vb wb. lia.
  - assert (ER : R = []) by (apply nil_length_inv; lia). rewrite ER in *. cbn [app] in *.
    exists s, (drop (length wb) vb ++ spare). split; [done|]. split; [exact H|]. rewrite length_app, length_drop. fold vb wb in Hle |- *. lia.
Qed.

(** The chunk may shrink; the object follows it, or stays where it is. *)
Lemma shrink_ok r s bs t {B} (kk : unit -> RD B) (Q : B -> RawData * S -> Prop) : own r s F bs -> 0 < t ->
  (forall r1 s1 bs', moved r r1 -> own r1 s1 F bs' -> (forall j, Z.of_nat j <= t -> (j <= length bs)%nat -> take j bs' = take j bs) ->
    wp (kk tt) (r1, s1) Q) ->
  wp (hTmp ← on_mem (realloc (_handle r) t);
      (if negb (hTmp =? INVALID_HANDLE) then sz ← on_mem (block_size hTmp); upd (set_block hTmp hTmp sz) else mret tt) ≫= kk) (r, s) Q.
Proof.
  intros H Ht HQ. pose proof H as (Hh & HF & _).
  destruct (realloc_law s _ _ bs t Hh (lookup_insert_eq _ _ _) Ht) as (h & s' & A' & E & H' & Hc).
  apply wp_bind. eapply wp_on_mem; [exact E|]. destruct Hc as [[-> ->]|[Hn Hc]].
  - cbn. apply (wp_mret tt). apply (HQ _ _ bs); [by eapply moved_refl| |done]. pose proof H as (_ & _ & Hrest). split; [exact H'|]. by split.
  - unfold INVALID_HANDLE. rewrite (proj2 (Z.eqb_neq _ _)) by done. rewrite (delete_insert_id F) in Hc by done.
    destruct Hc as [[-> _]|(_ & HFh & bs' & Hl & Hp & ->)]; [done|]. cbn [negb].
    apply wp_bind, wp_bind. eapply wp_on_mem; [exact (block_size_law s' _ h bs' H' (lookup_insert_eq _ _ _))|]. apply wp_upd_last.
    apply (HQ _ _ bs'); [by eexists _, _|done|]. intros j Hj1 Hj2. apply (f_equal (take j)) in Hp. rewrite !take_take in Hp.
    by replace (j `min` _)%nat with j in Hp by lia.
Qed.

Lemma replace_shorter_ok env r s :
  rep r s F k rows -> m_uiRowOffset r = place k rows i -> (n' <= n)%nat ->
  wp (replace_shorter env stRow op (Z.of_nat n') (Z.of_nat n) (place k rows (Datatypes.S i)) (Z.of_nat (length rest))) (r, s) (fun x st =>
    (x = 0 /\ replaced r st) \/ (x = - ENOMEM /\ st = (r, s) /\ env.(sys_malloc) (Z.of_nat n) = false)).
Proof.
  intros H Hro Hle. pose proof (rep_small _ _ _ _ _ H) as [Hsm Hsm2]. destruct (own_row _ _ _ _ _ _ _ H Hi) as (spare & Hown).
  pose proof H as [_ Hd Hc Hst Hscan Hrows Htb Hmeta].
  unfold replace_shorter. destruct (sys_malloc env (Z.of_nat n)) eqn:Hm; cbn [negb]; [|apply wp_ret; by right].
  do 2 apply wp_get. rewrite Hro, Nat2Z.id. apply wp_bind. eapply wp_on_mem.
  { replace (place k rows i) with (Z.of_nat (length pre)) by (by rewrite before_length). eapply own_read. exact Hown. }
  apply wp_upd, wp_bind.
  eapply wp_mono; [apply (encode_row_over (set_uiOffset (place k rows i) r) s F k rows i stRow vs op n' (le_bytes 4 (Z.of_nat (data_size k rows))) (le_bytes 4 (Z.of_nat (length rows))) (take n' (row_bytes cs v)) (drop n' (row_bytes cs v) ++ rest ++ spare));
    cbn [m_uchKeyIdx m_uiOffset m_uiDataSize m_uiRowCnt set_uiOffset]; rewrite ?le_bytes_length; try done; try lia|].
  { rewrite (app_assoc (take n' _)), take_drop. rewrite <-app_assoc in Hown. exact Hown. }
  { rewrite length_take. lia. }
  intros x [r2 s3]. cbn [fst snd]. intros (-> & -> & d4 & c4 & Hd4 & Hc4 & H3). cbn [Z.eqb negb].
  apply wp_get. destruct (close_gap _ _ _ _ _ H3 Htb Hmeta Hd4 Hc4 Hle) as (s4 & spare2 & E4 & H4 & Hsp).
  apply wp_bind. eexists _, _. split; [exact E4|]. apply wp_get, wp_get. cbn [m_uiDataSize set_uiOffset set_uiRowCnt set_uiDataSize].
  set (r3 := set_uiOffset _ _) in *. set (t := u32 _). assert (Et : Z.of_nat (data_size k (<[i:=v']> rows)) <= t).
  { pose proof (place_le k rows (Datatypes.S i)) as Hpl. rewrite (place_S _ _ _ _ Hi) in Hpl. pose proof (place_nonneg k rows i).
    unfold t. rewrite (replaced_size _ _ _ _ _ Hi), u32_small; lia. }
  assert (Ht : 0 < t) by (unfold data_size, data_start in Et; lia).
  apply (shrink_ok r3 s4 _ t _ _ H4 Ht). intros r4 s5 bs' (h & sz & ->) H5 Hp.
  apply wp_get, wp_upd, wp_get, wp_upd, wp_ret. left. split; [done|].
  set (rb := head_bytes k d4 c4 ++ rows_bytes cs (take i rows) ++ row_bytes cs v' ++ rest) in *.
  assert (Erb : head_bytes k d4 c4 ++ rows_bytes cs (take i rows) ++ row_bytes cs v' ++ rest ++ spare2 = rb ++ spare2) by (unfold rb; by rewrite <-!app_assoc).
  assert (Hrb : length rb = data_size k (<[i:=v']> rows)).
  { unfold rb, data_size. rewrite (replaced_bytes _ _ _ _ _ Hi), (length_app (head_bytes _ _ _)), head_bytes_length by done. done. }
  rewrite Erb in Hp. specialize (Hp (length rb) ltac:(lia) ltac:(rewrite length_app; lia)). rewrite take_app_length in Hp.
  apply (replaced_fields r h sz d4 c4 (drop (length rb) bs')); try done; [by right|].
  replace (head_bytes k d4 c4 ++ _) with (rb ++ drop (length rb) bs') by (unfold rb; by rewrite <-!app_assoc).
  rewrite <-Hp at 1. rewrite take_drop. exact H5.
Qed.
End Replace.

Lemma replace_cur_row_end env r s F k rows stRow isDirty : rep r s F k rows -> m_uiRowOffset r = Z.of_nat (data_size k rows) ->
  replace_cur_row env stRow isDirty (r, s) = Ok (-2, (r, s)).
Proof.
  intros H Ho. unfold replace_cur_row. rewrite (gets_bind (fun st : RawData * S => m_uiOffset st.1)). cbn [fst].
  rewrite (bind_ok _ _ _ _ _ (skip_row_end _ _ _ _ _ stRow H Ho)). cbn [Z.eqb negb]. rewrite (bind_ok (upd _) _ _ _ _ eq_refl), ret_ok. cbn [fst snd].
  by destruct r.
Qed.

Definition new_flag (isDirty : bool) (v : row) : Z := if isDirty then OPER_UPDATE else r_flag v.

Lemma own_flag r s F k rows i v : rep r s F k rows -> rows !! i = Some v ->
  GET_VALUE_AT_OFFSET 1 (place k rows i) (r, s) = Ok (Some (r_flag v), (r, s)).
Proof.
  intros H Hi. destruct (own_row _ _ _ _ _ _ _ H Hi) as (spare & Hown). destruct (row_at_ok _ _ _ _ _ _ _ H Hi) as [Hf _].
  unfold row_bytes in Hown. rewrite <-(app_assoc (le_bytes _ _)) in Hown.
  pose proof (GET_VALUE_AT_OFFSET_ok _ _ _ _ _ _ Hown) as E. rewrite le_bytes_length, le_value_bytes_small in E by exact Hf.
  by rewrite before_length in E by apply H.
Qed.

Lemma replace_cur_row_ok env r s F k rows i v stRow vs isDirty :
  let v' := mkRowV (new_flag isDirty v) vs in
  rep r s F k rows -> rows !! i = Some v -> m_uiRowOffset r = place k rows i -> row_val F k stRow vs ->
  Z.of_nat (data_size k rows) + Z.of_nat (length (row_bytes (k_cols k) v')) < 2 ^ 32 ->
  wp (replace_cur_row env stRow isDirty) (r, s) (fun x st => m_uiRowOffset st.1 = m_uiRowOffset r /\
    ((x = 0 /\ rep st.1 st.2 F k (<[i := v']> rows) /\ m_uiOffset st.1 = place k (<[i := v']> rows) (Datatypes.S i)) \/
     (x = EC_NO_MEM /\ rep st.1 st.2 F k rows /\ m_uiOffset st.1 = m_uiOffset r) \/
     (x = - ENOMEM /\ rep st.1 st.2 F k rows /\ m_uiOffset st.1 = place k rows (Datatypes.S i) /\
       env.(sys_malloc) (Z.of_nat (length (row_bytes (k_cols k) v))) = false))).
Proof.
  intros v' H Hi Hro Hv Hfit. pose proof H as [_ Hd Hc Hst Hscan Hrows Htb Hmeta]. pose proof (rep_small _ _ _ _ _ H) as [Hsm _].
  destruct (row_at_ok _ _ _ _ _ _ _ H Hi) as [Hf Hvv].
  assert (Hop : is_u 8 (new_flag isDirty v)) by (unfold new_flag; destruct isDirty; [split; vm_compute; congruence|done]).
  set (r1 := set_uiOffset (place k rows (Datatypes.S i)) r).
  assert (H1 : rep r1 s F k rows) by by apply (chunk_rep_ext r).
  unfold replace_cur_row. apply wp_get, wp_bind. eexists _, _. split; [exact (skip_row_ok _ _ _ _ _ _ _ _ H Hi Hro (proj1 Hv))|].
  cbn [Z.eqb negb]. fold r1. apply wp_get. change (m_uiRowOffset r1) with (m_uiRowOffset r). rewrite Hro.
  apply wp_bind. eexists _, _. split; [exact (own_flag _ _ _ _ _ _ _ H1 Hi)|]. fold (new_flag isDirty v).
  apply wp_get. eapply wp_lift_ok.
  { apply (calc_ok F (k_tab k) (k_fields k) stRow vs (proj1 Hv) (proj2 Hv)). exact Hscan. }
  change (row_bytes (k_fields k).*2 (mkRowV 0 vs)) with (row_bytes (k_cols k) (mkRowV 0 vs)).
  rewrite (row_bytes_flag (k_fields k) vs 0 (new_flag isDirty v) : length (row_bytes (k_cols k) (mkRowV 0 vs)) = length (row_bytes (k_cols k) v')).
  do 2 apply wp_get. cbn [m_uiOffset m_uiDataSize set_uiOffset r1]. rewrite Hd.
  pose proof (place_S k rows i v Hi) as HS. pose proof (place_nonneg k rows i). pose proof (rows_drop_length k _ _ _ Hi) as Hrest.
  pose proof (place_le k rows (Datatypes.S i)).
  assert (Ecur : u32 (place k rows (Datatypes.S i) - place k rows i) = Z.of_nat (length (row_bytes (k_cols k) v))) by (rewrite u32_small; lia).
  assert (Enew : u32 (Z.of_nat (length (row_bytes (k_cols k) v'))) = Z.of_nat (length (row_bytes (k_cols k) v'))) by (apply u32_small; lia).
  assert (Erest : u32 (Z.of_nat (data_size k rows) - place k rows (Datatypes.S i)) = Z.of_nat (length (rows_bytes (k_cols k) (drop (Datatypes.S i) rows)))) by (rewrite Hrest; apply u32_small; lia).
  rewrite Ecur, Enew, Erest. fold (new_flag isDirty v). apply wp_bind. eapply wp_mono with (P := fun x st =>
    (x = 0 /\ replaced F k rows i vs (new_flag isDirty v) r1 st) \/
    (x = EC_NO_MEM /\ rep st.1 st.2 F k rows /\ m_uiRowOffset st.1 = m_uiRowOffset r1) \/
    (x = - ENOMEM /\ st = (r1, s) /\ env.(sys_malloc) (Z.of_nat (length (row_bytes (k_cols k) v))) = false)).
  { destruct (Z.ltb_spec (Z.of_nat (length (row_bytes (k_cols k) v))) (Z.of_nat (length (row_bytes (k_cols k) v')))) as [Hlt|Hge].
    - eapply wp_mono; [apply (replace_longer_ok F k rows i v stRow vs _ Hi Hv Hfit r1 s H1 Hro); by apply Nat2Z.inj_lt|]. intros x st [?|?]; [by left|by right; left].
    - eapply wp_mono; [apply (replace_shorter_ok F k rows i v stRow vs _ Hi Hv Hfit env r1 s H1 Hro); by apply Nat2Z.inj_le|]. intros x st [?|?]; [by left|by right; right]. }
  intros x [r2 s2]. cbn [fst snd].
  intros [(-> & (d4 & c4 & spare & Hd4 & Hc4 & Hown2) & Ed & Ec & Es & Ek & Eo & Er)|[(-> & Hown2 & Er)|(-> & E & Hm)]].
  - cbn [Z.eqb]. cbn [fst snd] in *. eapply (store_sizes r2 s2 F k d4 c4); try done.
    + by rewrite Ec, length_insert.
    + by rewrite Es.
    + by rewrite Ek.
    + apply Forall_insert; [done|]. by eapply row_val_ok.
    + intros s' Hrep3. apply wp_ret. split; [done|]. by left.
  - cbn [Z.eqb EC_NO_MEM Z.opp ENOMEM]. apply wp_bind, wp_upd_last, wp_ret. cbn [fst snd]. split; [by change (m_uiRowOffset r2 = place k rows i); rewrite Er|].
    right; left. split; [done|]. split; [by apply (chunk_rep_ext r2)|done].
  - injection E as -> ->. cbn [Z.eqb Z.opp ENOMEM]. apply wp_bind, wp_ret, wp_ret. cbn [fst snd]. split; [done|]. by right; right.
Qed.

(** ** All rows, and the flag of one *)

Lemma delete_all_rows_ok r s F k rows : rep r s F k rows ->
  wp delete_all_rows (r, s) (fun x st => x = 0 /\ rep st.1 st.2 F k [] /\ m_uiOffset st.1 = place k [] 0 /\ m_uiRowOffset st.1 = place k [] 0).
Proof.
  intros [(spare & Hown) Hd Hc Hst Hscan Hrows Htb Hmeta]. unfold delete_all_rows. apply wp_get. do 4 apply wp_upd.
  eapply (store_sizes _ s F k (le_bytes 4 (Z.of_nat (data_size k rows))) (le_bytes 4 (Z.of_nat (length rows))) [] (rows_bytes (k_cols k) rows ++ spare)); try done.
  - cbn. rewrite Hst. unfold data_size. cbn. lia.
  - intros s' H'. apply wp_upd, wp_ret. cbn [fst snd]. split; [done|]. split; [by eapply chunk_rep_ext; [..|exact H']|].
    cbn. rewrite Hst. unfold place, data_size. cbn. split; lia.
Qed.

Lemma set_cur_row_flag_ok r s F k rows i v f : rep r s F k rows -> rows !! i = Some v -> m_uiRowOffset r = place k rows i -> is_u 8 f ->
  wp (set_cur_row_flag f) (r, s) (fun x st => x = 0 /\ st.1 = r /\ rep r st.2 F k (<[i := mkRowV f (r_vals v)]> rows)).
Proof.
  intros H Hi Hro Hf. destruct (own_row _ _ _ _ _ _ _ H Hi) as (spare & Hown). destruct (row_at_ok _ _ _ _ _ _ _ H Hi) as [_ Hv].
  pose proof H as [_ Hd Hc Hst Hscan Hrows Htb Hmeta]. unfold row_bytes in Hown. rewrite <-(app_assoc (le_bytes _ _)) in Hown.
  destruct (own_write _ _ _ _ _ _ 1%nat f Hown) as (s1 & E1 & H1); [apply le_bytes_length|]. rewrite before_length in E1 by done.
  assert (Hlt : place k rows i < Z.of_nat (data_size k rows)).
  { pose proof (place_le k rows (Datatypes.S i)) as Hl. rewrite (place_S _ _ _ _ Hi), row_bytes_length in Hl. lia. }
  unfold set_cur_row_flag. do 2 apply wp_get. rewrite Hro, Hd, (proj2 (Z.leb_gt _ _)) by lia. apply wp_get, wp_bind.
  eapply wp_on_mem; [exact E1|]. apply wp_ret. cbn [fst snd]. split; [done|]. split; [done|].
  assert (Hsz : data_size k (<[i := mkRowV f (r_vals v)]> rows) = data_size k rows).
  { apply Nat2Z.inj. rewrite (replaced_size k rows i v _ Hi), !row_bytes_length. cbn [r_vals]. lia. }
  split; try done.
  - exists spare. unfold chunk_bytes. rewrite (replaced_bytes _ _ _ v _ Hi).
    assert (Eb : before_rows k (<[i:=mkRowV f (r_vals v)]> rows) = before_rows k rows) by (unfold before_rows; by rewrite Hsz, length_insert).
    rewrite Eb. unfold row_bytes. cbn [r_flag r_vals]. rewrite <-!app_assoc in H1. rewrite <-!app_assoc. exact H1.
  - by rewrite Hsz.
  - by rewrite length_insert.
  - apply Forall_insert; [done|]. by split.
Qed.
Lemma set_cur_row_flag_end r s F k rows f : rep r s F k rows -> m_uiRowOffset r = Z.of_nat (data_size k rows) ->
  set_cur_row_flag f (r, s) = Ok (-1, (r, s)).
Proof.
  intros H Ho. unfold set_cur_row_flag. rewrite (gets_bind (fun st : RawData * S => m_uiRowOffset st.1)), (gets_bind (fun st : RawData * S => m_uiDataSize st.1)).
  cbn [fst]. by rewrite Ho, (rep_dsize _ _ _ _ _ H), (proj2 (Z.leb_le _ _)).
Qed.

Lemma strip_mem_ok r s F k rows : rep r s F k rows ->
  wp strip_mem (r, s) (fun x st => (x = 0 \/ x = EC_NO_MEM) /\ rep st.1 st.2 F k rows /\
    m_uiOffset st.1 = m_uiOffset r /\ m_uiRowOffset st.1 = m_uiRowOffset r).
Proof.
  intros H. pose proof H as [(spare & Hown) Hd Hc Hst Hscan Hrows Htb Hmeta]. unfold strip_mem. apply wp_get. rewrite Hd.
  eapply wp_mono; [apply (re_alloc_ok r s F _ _ Hown); unfold data_size, data_start; lia|]. intros x [r1 s1]. cbn [fst snd].
  intros [(-> & -> & H1)|(-> & Hm & bs' & H1 & Hl & Hp)].
  - split; [by right|]. split; [|done]. apply (chunk_rep_ext r); try done. split; try done. by exists spare.
  - split; [by left|]. destruct (moved_fields _ _ Hm) as (_ & _ & _ & -> & -> & _). split; [|done].
    eapply (rep_prefix r s F k rows spare); [exact H|done|exact H1|]. apply Hp; [lia|]. rewrite chunk_bytes_head, length_app, head_length by done. lia.
Qed.

(** ** Appending what is already encoded *)

(** [len] bytes are written behind the rows and counted as [news]. *)
Lemma counted r s F k rows news spare cntd {B} (kk : RD B) (Q : B -> RawData * S -> Prop) :
  rep r s F k rows -> own r s F (before_rows k rows ++ rows_bytes (k_cols k) rows ++ rows_bytes (k_cols k) news ++ spare) ->
  Forall (row_ok (k_cols k)) news -> cntd = Z.of_nat (length news) -> Z.of_nat (data_size k (rows ++ news)) < 2 ^ 32 ->
  forall o,
  (forall s', rep (set_uiRowCnt (u32 (m_uiRowCnt r + cntd)) (set_uiDataSize (u32 (m_uiDataSize r + Z.of_nat (length (rows_bytes (k_cols k) news)))) (set_uiOffset o r))) s' F k (rows ++ news) ->
    wp kk (set_uiRowCnt (u32 (m_uiRowCnt r + cntd)) (set_uiDataSize (u32 (m_uiDataSize r + Z.of_nat (length (rows_bytes (k_cols k) news)))) (set_uiOffset o r)), s') Q) ->
  wp (set_data_size;; set_row_count;; kk)
    (set_uiRowCnt (u32 (m_uiRowCnt r + cntd)) (set_uiDataSize (u32 (m_uiDataSize r + Z.of_nat (length (rows_bytes (k_cols k) news)))) (set_uiOffset o r)), s) Q.
Proof.
  intros [_ Hd Hc Hst Hscan Hrows Htb Hmeta] H1 Hn -> Hsz o HQ. pose proof (rows_count (k_cols k) (rows ++ news)) as Hcnt.
  assert (Ed : u32 (m_uiDataSize r + Z.of_nat (length (rows_bytes (k_cols k) news))) = Z.of_nat (data_size k (rows ++ news))).
  { rewrite data_size_app in Hsz |- *. rewrite u32_small; lia. }
  assert (Ec : u32 (m_uiRowCnt r + Z.of_nat (length news)) = Z.of_nat (length (rows ++ news))).
  { unfold data_size in Hsz. rewrite length_app in Hcnt |- *. rewrite u32_small; lia. }
  eapply (store_sizes _ s F k (le_bytes 4 (Z.of_nat (data_size k rows))) (le_bytes 4 (Z.of_nat (length rows))) (rows ++ news) spare); try done.
  - rewrite rows_bytes_app, <-app_assoc. exact H1.
  - by apply Forall_app.
Qed.

(** The bytes that are copied behind the rows come from elsewhere. *)
Lemma append_bytes r s F k rows p data : rep r s F k rows -> m_uiDataSize r + Z.of_nat (length data) <= _size r -> pointed F p data -> bytes_ok data ->
  exists s', memcpy_from (m_pchContent r + m_uiDataSize r) p (Z.of_nat (length data)) (r, s) = Ok (tt, (r, s')) /\
    exists spare, own r s' F (before_rows k rows ++ rows_bytes (k_cols k) rows ++ data ++ spare).
Proof.
  intros H Hl Hp Hb. destruct (rep_room _ _ _ _ _ (length data) H Hl) as (old & post & H1 & Ho).
  pose proof H as [_ Hd _ _ _ _ Htb Hmeta].
  assert (H2 : own r s F ((before_rows k rows ++ rows_bytes (k_cols k) rows) ++ old ++ post)) by (unfold before_rows; by rewrite <-!app_assoc in *).
  destruct (memcpy_from_ok _ _ _ _ _ _ _ _ H2 Hp Hb Ho) as (s' & E & H3). rewrite head_length, <-Hd in E by done.
  exists s'. split; [exact E|]. exists post. by rewrite <-!app_assoc in H3.
Qed.

Lemma append_n_records_ok r s F k rows p news : rep r s F k rows -> pointed F p (rows_bytes (k_cols k) news) -> bytes_ok (rows_bytes (k_cols k) news) ->
  Forall (row_ok (k_cols k)) news -> Z.of_nat (data_size k (rows ++ news)) < 2 ^ 32 ->
  wp (append_n_records (Z.of_nat (length news)) p (Z.of_nat (length (rows_bytes (k_cols k) news)))) (r, s) (fun x st =>
    m_uiOffset st.1 = m_uiOffset r /\ m_uiRowOffset st.1 = m_uiRowOffset r /\
    ((x = 0 /\ rep st.1 st.2 F k (rows ++ news)) \/ (x = EC_NO_MEM /\ rep st.1 st.2 F k rows))).
Proof.
  intros H Hp Hb Hn Hsz. pose proof (rep_dsize _ _ _ _ _ H) as Hd. pose proof Hsz as Hsz'. rewrite data_size_app in Hsz'.
  unfold append_n_records. apply wp_bind. eapply wp_mono; [apply (expand_rep r s F k rows _ H); lia|]. intros x [r1 s1]. cbn [fst snd].
  intros [(-> & -> & H1 & _)|(-> & Hm & _ & H1 & Hl)].
  { apply wp_ret. split; [done|]. split; [done|]. by right. }
  cbn [Z.eqb negb]. do 2 apply wp_get. destruct (moved_fields _ _ Hm) as (E1 & _ & _ & E4 & E5 & _). rewrite <-E1 in Hl.
  destruct (append_bytes r1 s1 F k rows p _ H1 Hl Hp Hb) as (s2 & E2 & spare & H2).
  apply wp_bind. eexists _, _. split; [exact E2|]. apply wp_upd, wp_get, wp_upd.
  assert (H1' : rep r1 s2 F k rows) by (destruct H1; split; try done; by eexists (_ ++ spare)).
  pose proof (counted r1 s2 F k rows news spare (Z.of_nat (length news)) (mret 0 : RD Z) 
    (fun x st => m_uiOffset st.1 = m_uiOffset r /\ m_uiRowOffset st.1 = m_uiRowOffset r /\
    ((x = 0 /\ rep st.1 st.2 F k (rows ++ news)) \/ (x = EC_NO_MEM /\ rep st.1 st.2 F k rows))) H1' H2 Hn eq_refl Hsz (m_uiOffset r1)) as HC.
  assert (Eo : set_uiOffset (m_uiOffset r1) r1 = r1) by (by destruct r1). rewrite Eo in HC. apply HC.
  intros s' H'. apply wp_ret. cbn [fst snd]. split; [exact E4|]. split; [exact E5|]. by left.
Qed.

(** ** Copying from another object *)

Lemma memmove_pointer dst src n st : chunk_move dst src (Z.of_nat n) st = memcpy_from (S := S) dst (PSeg src) (Z.of_nat n) st.
Proof. unfold chunk_move, memcpy_from, read_pointer. by rewrite (proj2 (Z.ltb_ge _ _)) by lia. Qed.

(** [m_pstRef] has just read the row [v], in a chunk of its own. *)
Definition ref_row F (ref : RawData) (cs : list column) (v : row) : Prop :=
  exists pre post, F !! m_pchContent ref = Some (pre ++ row_bytes cs v ++ post) /\
    m_uiRowOffset ref = Z.of_nat (length pre) /\ m_uiOffset ref = Z.of_nat (length (pre ++ row_bytes cs v)).

Lemma frame_bytes r s F bs h x : own r s F bs -> F !! h = Some x -> bytes_ok x /\ Z.of_nat (length x) < 2 ^ 32.
Proof.
  intros (H & HF & _) Hx. assert (E : <[_handle r:=bs]> F !! h = Some x) by (rewrite lookup_insert_ne; [done|intros E; rewrite E in HF; congruence]).
  split; [by eapply heap_bytes|by eapply heap_size].
Qed.

Lemma copy_row_ok r s F k rows ref v : rep r s F k rows -> m_uiOffset r = m_uiDataSize r -> ref_row F ref (k_cols k) v -> row_ok (k_cols k) v ->
  Z.of_nat (data_size k (rows ++ [v])) < 2 ^ 32 ->
  wp (copy_row ref) (r, s) (fun x st => m_uiRowOffset st.1 = m_uiRowOffset r /\
    ((x = 0 /\ rep st.1 st.2 F k (rows ++ [v]) /\ m_uiOffset st.1 = m_uiDataSize st.1) \/ (x = EC_NO_MEM /\ rep st.1 st.2 F k rows /\ m_uiOffset st.1 = m_uiOffset r))).
Proof.
  intros H Ho (pre & post & HF & Er & Eo) Hv Hsz. pose proof (rep_dsize _ _ _ _ _ H) as Hd. set (vb := row_bytes (k_cols k) v) in *.
  destruct (rep_own _ _ _ _ _ H) as (spare0 & Hown0). destruct (frame_bytes _ _ _ _ _ _ Hown0 HF) as [Hbs Hlen]. rewrite !Forall_app in Hbs. rewrite !length_app in Hlen.
  pose proof Hsz as Hsz'. rewrite data_size_snoc in Hsz'. fold vb in Hsz'.
  assert (Esz : u32 (m_uiOffset ref - m_uiRowOffset ref) = Z.of_nat (length vb)) by (rewrite Er, Eo, length_app, u32_small; lia).
  assert (Hp : pointed F (PSeg (m_pchContent ref + m_uiRowOffset ref)) vb) by (exists (m_pchContent ref), pre, post; by rewrite Er).
  assert (E1v : rows_bytes (k_cols k) [v] = vb) by (unfold rows_bytes; cbn; by rewrite app_nil_r).
  unfold copy_row. rewrite Esz. apply wp_bind. eapply wp_mono; [apply (expand_rep r s F k rows _ H); lia|]. intros x [r1 s1]. cbn [fst snd].
  intros [(-> & -> & H1 & _)|(-> & Hm & _ & H1 & Hl)].
  { apply wp_ret. split; [done|]. by right. }
  cbn [Z.eqb negb]. do 2 apply wp_get. destruct (moved_fields _ _ Hm) as (E1 & _ & _ & E4 & E5 & _). rewrite <-E1 in Hl.
  destruct (append_bytes r1 s1 F k rows _ vb H1 Hl Hp (proj1 (proj2 Hbs))) as (s2 & E2 & spare & H2).
  apply wp_bind. eexists _, _. split; [rewrite memmove_pointer, E4, Ho, <-E1; exact E2|]. apply wp_upd, wp_get, wp_upd, wp_get, wp_upd.
  cbn [m_uiDataSize m_uiRowCnt set_uiOffset set_uiDataSize]. rewrite <-E1v in H2 |- *.
  assert (H1' : rep r1 s2 F k rows) by (destruct H1; split; try done; by eexists (_ ++ spare)).
  eapply (counted r1 s2 F k rows [v] spare 1); try done; [by constructor|].
  intros s' H'. apply wp_ret. cbn [fst snd]. split; [exact E5|]. left. split; [done|]. split; [exact H'|].
  cbn [m_uiOffset m_uiDataSize set_uiRowCnt set_uiDataSize set_uiOffset]. by rewrite E4, Ho, E1.
Qed.

(** ** Attaching *)

Definition key_fits (iKeySize : Z) (key : list Z) : Prop :=
  if iKeySize =? 0 then exists rest, key = Z.of_nat (length rest) :: rest else iKeySize = Z.of_nat (length key).

Lemma place_0 k rows : place k rows 0 = Z.of_nat (data_start k).
Proof. unfold place, data_size. rewrite take_0. unfold rows_bytes. cbn [fmap list_fmap concat length]. by rewrite Nat.add_0_r. Qed.
Lemma le_value_1 x : le_value [x] = x.
Proof. cbn. lia. Qed.

Lemma attach_time_stamp_ok r s F pre a u c post : own r s F (pre ++ (a ++ u ++ c) ++ post) -> length a = 2%nat -> length u = 2%nat -> length c = 2%nat ->
  m_uiTimeStampOffSet r = Z.of_nat (length pre) ->
  attach_time_stamp (r, s) = Ok (tt, (set_hours (le_value a) (le_value u) (le_value c) r, s)).
Proof.
  intros H Ha Hu Hc Ht. destruct (own_valid _ _ _ _ H) as [_ E2]. pose proof (own_len _ _ _ _ _ _ H) as Hl. rewrite !length_app in Hl.
  unfold attach_time_stamp. rewrite (gets_bind (fun st : RawData * S => m_pchContent st.1)). cbn [fst]. rewrite E2.
  rewrite (gets_bind (fun st : RawData * S => m_uiTimeStampOffSet st.1)), (gets_bind (fun st : RawData * S => _size st.1)). cbn [fst].
  rewrite Ht, (proj2 (Z.ltb_ge _ _)) by lia. rewrite <-!app_assoc in H. pose proof (own_read _ _ _ _ _ _ H) as Ra. rewrite Ha in Ra.
  rewrite app_assoc in H. pose proof (own_read _ _ _ _ _ _ H) as Ru. rewrite app_assoc in H. pose proof (own_read _ _ _ _ _ _ H) as Rc.
  rewrite length_app, Ha, Hu in Ru. rewrite !length_app, Ha, Hu, Hc in Rc.
  assert (A2 : m_pchContent r + Z.of_nat (length pre) + 2 = m_pchContent r + Z.of_nat (length pre + 2)) by lia.
  assert (A4 : m_pchContent r + Z.of_nat (length pre) + 4 = m_pchContent r + Z.of_nat (length pre + 2 + 2)) by lia.
  rewrite A2, A4.
  erewrite bind_ok; [|unfold on_mem; cbn [snd]; rewrite Ra; reflexivity].
  erewrite bind_ok; [|unfold on_mem; cbn [fst snd]; rewrite Ru; reflexivity].
  erewrite bind_ok; [|unfold on_mem; cbn [fst snd]; rewrite Rc; reflexivity].
  reflexivity.
Qed.

(** The first fields of a chunk, one after the other. *)
Lemma attach_header_ok r s F k rows spare b g a u c idx ks la cm ex :
  own r s F (chunk_bytes k rows spare) -> m_uiOffset r = 0 -> k_tb k = [b] -> Z.land b 0x7f = DATA_TYPE_RAW ->
  k_meta k = [g] ++ a ++ u ++ c -> length a = 2%nat -> length u = 2%nat -> length c = 2%nat ->
  key_fits ks (k_key k) -> scan (k_tab k) (fields_from idx (k_tab k)) = Ok (k_fields k) -> Forall (row_ok (k_cols k)) rows ->
  wp (attach_header idx ks la cm ex) (r, s) (fun x st => x = Some 0 /\ st.2 = s /\ rep st.1 s F k rows /\
    m_uiOffset st.1 = place k rows 0 /\ m_uiRowOffset st.1 = place k rows 0 /\ m_uchGetCount st.1 = g /\ _handle st.1 = _handle r).
Proof.
  intros Hown Ho Htb Hb Hmeta Ha Hu Hc Hks Hscan Hrows. pose proof (own_size _ _ _ _ Hown) as Hlen. 
  pose proof (rows_count (k_cols k) rows) as Hcnt.
  assert (Htb1 : length (k_tb k) = 1%nat) by (by rewrite Htb). assert (Hm7 : length (k_meta k) = 7%nat) by (rewrite Hmeta; cbn; rewrite !length_app; lia).
  rewrite chunk_bytes_head, length_app, head_length in Hlen by done.
  set (d4 := le_bytes 4 (Z.of_nat (data_size k rows))) in *. set (c4 := le_bytes 4 (Z.of_nat (length rows))) in *.
  assert (Hd4 : le_value d4 = Z.of_nat (data_size k rows)) by (apply le_value_bytes_small; change (256 ^ Z.of_nat 4) with (2 ^ 32); lia).
  assert (Hc4 : le_value c4 = Z.of_nat (length rows)) by (apply le_value_bytes_small; change (256 ^ Z.of_nat 4) with (2 ^ 32); unfold data_size in Hlen; lia).
  set (tail := rows_bytes (k_cols k) rows ++ spare).
  assert (H0 : own r s F (([b] ++ d4 ++ c4) ++ [g] ++ (a ++ u ++ c) ++ k_key k ++ tail)).
  { unfold chunk_bytes, before_rows in Hown. rewrite Htb, Hmeta in Hown. fold d4 c4 in Hown. unfold tail. rewrite <-!app_assoc in Hown. rewrite <-!app_assoc. exact Hown. }
  assert (H1 : own r s F ([] ++ [b] ++ d4 ++ c4 ++ [g] ++ (a ++ u ++ c) ++ k_key k ++ tail)) by (by rewrite <-!app_assoc in * ).
  assert (Hl4 : length d4 = 4%nat /\ length c4 = 4%nat) by (unfold d4, c4; by rewrite !le_bytes_length). destruct Hl4 as [Ld Lc].
  unfold attach_header.
  pose proof (GET_VALUE_ok r s F [] [b] _ H1 Ho) as E1. rewrite le_value_1 in E1. eapply wp_or_error; [exact E1|]. cbn [app length]. rewrite Hb. cbn [Z.eqb negb DATA_TYPE_RAW].
  set (r1 := set_uiOffset _ r). assert (H2 : own r1 s F ([b] ++ d4 ++ c4 ++ [g] ++ (a ++ u ++ c) ++ k_key k ++ tail)) by exact H1.
  pose proof (GET_VALUE_ok r1 s F [b] d4 _ H2 eq_refl) as E2. rewrite Ld, Hd4 in E2. eapply wp_or_error; [exact E2|]. apply wp_upd.
  set (r2 := set_uiDataSize _ _). rewrite app_assoc in H2.
  pose proof (GET_VALUE_ok r2 s F ([b] ++ d4) c4 _ H2 eq_refl) as E3. rewrite Lc, Hc4 in E3. eapply wp_or_error; [exact E3|]. apply wp_upd, wp_get, wp_upd.
  set (r3 := set_GetCountOffset _ _). rewrite app_assoc in H2.
  pose proof (GET_VALUE_ok r3 s F (([b] ++ d4) ++ c4) [g] _ H2 eq_refl) as E4. rewrite le_value_1 in E4. eapply wp_or_error; [exact E4|]. apply wp_upd, wp_get, wp_upd.
  set (r4 := set_TimeStampOffSet _ _). rewrite app_assoc in H2.
  apply wp_bind. eexists _, _. split; [exact (attach_time_stamp_ok r4 s F _ a u c _ H2 Ha Hu Hc eq_refl)|].
  set (r5 := set_hours _ _ _ _).
  pose proof (SKIP_SIZEOF_ok r5 s F _ (a ++ u ++ c) _ H2 eq_refl) as E5. rewrite !(length_app a), !(length_app u), Ha, Hu, Hc in E5. eapply wp_or_error; [exact E5|].
  rewrite app_assoc in H2. set (r6 := set_uiOffset _ r5). set (hd := _ ++ a ++ u ++ c) in H2.
  assert (Lh : length hd = 16%nat) by (unfold hd; rewrite !length_app, Ld, Lc, Ha, Hu, Hc; done).
  do 2 apply wp_get. change (m_uiDataSize r6) with (Z.of_nat (data_size k rows)). change (_size r6) with (_size r).
  pose proof (own_len _ _ _ _ _ _ H2) as Hsz6. change (_size r1) with (_size r) in Hsz6. rewrite Hsz6, Lh. unfold tail at 1.
  rewrite length_app, (proj2 (Z.ltb_ge _ _)) by (unfold data_size, data_start; lia).
  apply wp_get, wp_upd, wp_upd, wp_get. change (m_uiOffset r6) with (Z.of_nat (length hd)). rewrite Lh.
  set (r7 := set_key _ _ _ _ _ _).
  assert (Ek : (if negb (ks =? 0) then mret ks else b0 ← on_mem (mread 1 (m_pchContent r7 + Z.of_nat 16)); mret (1 + b0)) (r7, s) = Ok (Z.of_nat (length (k_key k)), (r7, s))).
  { unfold key_fits in Hks. destruct (ks =? 0); cbn [negb]; [|by rewrite Hks].
    destruct Hks as (rest & Ekey). rewrite Ekey in H2. pose proof (own_read r7 s F hd [Z.of_nat (length rest)] (rest ++ tail) H2) as R.
    rewrite Lh, le_value_1 in R. erewrite bind_ok; [|unfold on_mem; cbn [snd]; cbn [length] in R; rewrite R; reflexivity].
    rewrite Ekey. cbn [fst snd length]. rewrite ret_ok. do 3 f_equal. lia. }
  apply wp_bind. eexists _, _. split; [exact Ek|].
  pose proof (SKIP_SIZE_ok r7 s F hd (k_key k) tail H2 eq_refl) as E6.
  eapply wp_or_error; [exact E6|]. apply wp_get, wp_upd, wp_upd, wp_ret. cbn [fst snd].
  assert (Eo : Z.of_nat (length (hd ++ k_key k)) = place k rows 0) by (by rewrite length_app, Lh, place_0).
  change (m_uiOffset _) with (Z.of_nat (length (hd ++ k_key k))). rewrite Eo.
  split; [done|]. split; [done|]. split; [|done].
  split; try done.
  - exists spare. exact Hown.
  - exact (place_0 k rows).
Qed.

Lemma Attach_key_ok r s F h k rows spare b g a u c idx ks la cm ex :
  heap s (<[h := chunk_bytes k rows spare]> F) -> F !! h = None -> k_tb k = [b] -> Z.land b 0x7f = DATA_TYPE_RAW ->
  k_meta k = [g] ++ a ++ u ++ c -> length a = 2%nat -> length u = 2%nat -> length c = 2%nat ->
  key_fits ks (k_key k) -> scan (k_tab k) (fields_from idx (k_tab k)) = Ok (k_fields k) -> Forall (row_ok (k_cols k)) rows ->
  wp (Attach_key h idx ks la cm ex) (r, s) (fun x st => x = 0 /\ st.2 = s /\ rep st.1 s F k rows /\
    m_uiOffset st.1 = place k rows 0 /\ m_uiRowOffset st.1 = place k rows 0 /\ m_uchGetCount st.1 = g /\ _handle st.1 = h).
Proof.
  intros H HF Htb Hb Hmeta Ha Hu Hc Hks Hscan Hrows. pose proof (block_size_law s _ h _ H (lookup_insert_eq _ _ _)) as Eb.
  unfold Attach_key. apply wp_bind. eapply wp_on_mem; [exact Eb|]. apply wp_upd.
  rewrite (proj2 (Z.eqb_neq _ _)) by (rewrite chunk_bytes_head, !length_app, before_rows_length by (by rewrite ?Htb, ?Hmeta, ?length_app, ?Ha, ?Hu, ?Hc); unfold data_start; lia).
  do 3 apply wp_upd. apply wp_error_ret. set (r1 := set_uiLAOffset _ _).
  eapply wp_mono; [apply (attach_header_ok r1 s F k rows spare b g a u c); try done|].
  intros x [r2 s2]. cbn [fst snd]. intros (-> & -> & H2). done.
Qed.

(** What the chunks of a table look like: the index of the table in the type byte, a key
    in the table's format, and the columns behind the key. *)
Definition tab_idx (b : Z) : Z := Z.land (Z.shiftr (s8 b) 7) 0x01.
Record info_ok (env : Env) (k : info) : Prop := {
  io_tb : exists b, k_tb k = [b] /\ Z.land b 0x7f = DATA_TYPE_RAW /\ get_table_def_by_idx env (tab_idx b) = Some (k_tab k);
  io_meta : length (k_meta k) = 7%nat;
  io_key : key_fits (k_tab k).(keyFormat) (k_key k);
  io_scan : scan (k_tab k) (fields_from (u8 ((k_tab k).(keyFields) - 1)) (k_tab k)) = Ok (k_fields k)
}.

Lemma meta_parts (m : list Z) : length m = 7%nat -> exists g a u c, m = [g] ++ a ++ u ++ c /\ length a = 2%nat /\ length u = 2%nat /\ length c = 2%nat.
Proof. intros H. do 7 (destruct m as [|? m]; [done|]). destruct m; [|done]. by eexists _, [_; _], [_; _], [_; _]. Qed.
Lemma tab_idx_01 b : (tab_idx b =? 0) || (tab_idx b =? 1) = true.
Proof.
  unfold tab_idx. pose proof (Z.land_ones (Z.shiftr (s8 b) 7) 1 ltac:(lia)) as E. change (Z.ones 1) with 1 in E. rewrite E.
  pose proof (Z.mod_pos_bound (Z.shiftr (s8 b) 7) (2 ^ 1) ltac:(lia)). apply orb_true_iff. rewrite !Z.eqb_eq. lia.
Qed.

Lemma raw_Attach_ok env r s F h k rows spare :
  heap s (<[h := chunk_bytes k rows spare]> F) -> F !! h = None -> info_ok env k -> Forall (row_ok (k_cols k)) rows ->
  wp (RawData_Attach env h) (r, s) (fun x st => x = 0 /\ st.2 = s /\ rep st.1 s F k rows /\
    m_uiOffset st.1 = place k rows 0 /\ m_uiRowOffset st.1 = place k rows 0 /\ _handle st.1 = h).
Proof.
  intros H HF [(b & Htb & Hb & Htab) Hm Hkey Hscan] Hrows. destruct (meta_parts _ Hm) as (g & a & u & c & Em & Ha & Hu & Hc).
  unfold RawData_Attach. apply wp_upd, wp_bind.
  pose proof (mread_law 1 s _ h _ 0 H (lookup_insert_eq _ _ _)) as R. rewrite Z.add_0_r in R.
  unfold chunk_bytes, before_rows in R. rewrite Htb in R. cbn [app drop take length] in R. rewrite le_value_1 in R.
  eapply wp_on_mem; [apply R; lia|]. apply wp_upd. fold (tab_idx b).
  pose proof (tab_idx_01 b) as H01. rewrite <-negb_orb, H01. cbn [negb].
  apply wp_upd. rewrite Htab. eapply wp_mono; [eapply (Attach_key_ok _ s F h k rows spare b g a u c); try done|].
  intros x st (? & ? & ? & ? & ? & _ & ?). done.
Qed.

(** [m_pstRef] holds a chunk of its own with the same table. *)
Lemma copy_all_ok env r s F bs k rows spare ref : own r s F bs -> F !! m_pchContent ref = Some (chunk_bytes k rows spare) ->
  m_uiDataSize ref = Z.of_nat (data_size k rows) -> info_ok env k -> Forall (row_ok (k_cols k)) rows ->
  wp (copy_all env ref) (r, s) (fun x st =>
    (x = 0 /\ rep st.1 st.2 F k rows /\ m_uiOffset st.1 = place k rows 0 /\ m_uiRowOffset st.1 = place k rows 0) \/
    (x = EC_NO_MEM /\ own st.1 st.2 F bs /\ st.1 = set_uiNeedSize (Z.of_nat (data_size k rows)) r)).
Proof.
  intros H HF Hd Hinfo Hrows. pose proof Hinfo as [(b & Htb & _) Hm _ _]. assert (Htb1 : length (k_tb k) = 1%nat) by by rewrite Htb.
  destruct (frame_bytes _ _ _ _ _ _ H HF) as [Hbs Hlen]. rewrite chunk_bytes_head in Hbs, HF.
  unfold copy_all. rewrite Hd. set (n := data_size k rows) in *. assert (Hn : 0 < Z.of_nat n) by (unfold n, data_size, data_start; lia).
  apply wp_bind. apply wp_mono with (P := fun x st => (x = EC_NO_MEM /\ own st.1 st.2 F bs /\ st.1 = set_uiNeedSize (Z.of_nat n) r) \/
    (x = 0 /\ exists bs', own st.1 st.2 F bs' /\ (n <= length bs')%nat)).
  { unfold re_alloc_chunk. apply wp_get. pose proof H as (_ & _ & _ & Es). rewrite Es. destruct (Z.ltb_spec (Z.of_nat (length bs)) (Z.of_nat n)) as [Hlt|Hge].
    - eapply wp_mono; [apply (re_alloc_ok r s F bs _ H Hn)|]. intros x [r1 s1] [(-> & E & ?)|(? & _ & bs' & ? & ? & _)]; cbn [fst snd] in *; [left; by subst r1|right].
      split; [done|]. exists bs'. split; [done|lia].
    - apply wp_ret. right. split; [done|]. exists bs. split; [done|lia]. }
  intros x [r1 s1]. cbn [fst snd]. intros [(-> & H1 & ->)|(-> & bs' & H1 & Hl)]; [apply wp_ret; right; by split; [|split]|].
  cbn [Z.eqb negb]. apply wp_get. set (data := before_rows k rows ++ rows_bytes (k_cols k) rows) in *.
  assert (Hdl : length data = n) by by apply head_length.
  assert (Hp : pointed F (PSeg (m_pchContent ref)) data) by (exists (m_pchContent ref), [], spare; split; [exact HF|cbn; lia]).
  assert (H2 : own r1 s1 F ([] ++ take n bs' ++ drop n bs')) by (cbn; by rewrite take_drop).
  assert (Hdb : bytes_ok data) by (rewrite Forall_app in Hbs; tauto).
  destruct (memcpy_from_ok _ _ _ _ _ _ _ _ H2 Hp Hdb) as (s2 & E2 & H3); [rewrite length_take; lia|].
  rewrite Z.add_0_r in E2. apply wp_bind. eexists _, _. split; [rewrite memmove_pointer, <-Hdl; exact E2|].
  apply wp_get. cbn [app] in H3. destruct H3 as (Hh & HFn & _). unfold data in Hh. rewrite <-chunk_bytes_head in Hh.
  eapply wp_mono; [exact (raw_Attach_ok env r1 s2 F _ k rows _ Hh HFn Hinfo Hrows)|]. intros x [r3 s3]. cbn [fst snd].
  intros (-> & -> & H3 & Ho1 & Ho2 & _). by left.
Qed.

(** ** A new chunk *)

Lemma init_timp_stamp_ok env r s F pre old post : own r s F (pre ++ old ++ post) -> length old = 6%nat ->
  m_uiOffset r = Z.of_nat (length pre) -> m_uiTimeStampOffSet r = Z.of_nat (length pre) ->
  let h := u16 env.(get_relative_hour) in
  exists s', init_timp_stamp env (r, s) = Ok (tt, (set_hours h h h r, s')) /\
    own r s' F (pre ++ (le_bytes 2 h ++ le_bytes 2 h ++ le_bytes 2 h) ++ post).
Proof.
  intros H Hl Ho Ht h. destruct (own_valid _ _ _ _ H) as [_ E2]. pose proof (own_len _ _ _ _ _ _ H) as Hs.
  do 6 (destruct old as [|? old]; [done|]). destruct old; [|done].
  destruct (own_write r s F pre [z; z0] ([z1; z2] ++ [z3; z4] ++ post) 2 h H eq_refl) as (s1 & E1 & H1). rewrite app_assoc in H1.
  destruct (own_write r s1 F _ [z1; z2] ([z3; z4] ++ post) 2 h H1 eq_refl) as (s2 & E2' & H2). rewrite app_assoc in H2.
  destruct (own_write r s2 F _ [z3; z4] post 2 h H2 eq_refl) as (s3 & E3 & H3).
  exists s3. rewrite <-!app_assoc in H3. split; [|rewrite <-!app_assoc; exact H3].
  unfold init_timp_stamp. rewrite (gets_bind (fun st : RawData * S => m_pchContent st.1)). cbn [fst]. rewrite E2.
  rewrite (gets_bind (fun st : RawData * S => m_uiOffset st.1)), (gets_bind (fun st : RawData * S => _size st.1)). cbn [fst].
  rewrite Ho, Hs, (proj2 (Z.ltb_ge _ _)) by (cbn [length]; lia). rewrite (bind_ok (upd _) _ _ _ _ eq_refl). cbn [fst snd].
  rewrite (gets_bind (fun st : RawData * S => m_uiTimeStampOffSet st.1)). cbn [fst m_uiTimeStampOffSet set_hours]. rewrite Ht. fold h.
  rewrite length_app, le_bytes_length in E2'. rewrite !length_app, !le_bytes_length in E3.
  assert (A2 : m_pchContent r + Z.of_nat (length pre) + 2 = m_pchContent r + Z.of_nat (length pre + 2)) by lia.
  assert (A4 : m_pchContent r + Z.of_nat (length pre) + 4 = m_pchContent r + Z.of_nat (length pre + 2 + 2)) by lia.
  rewrite A2, A4.
  erewrite bind_ok; [|unfold on_mem; cbn [fst snd]; rewrite E1; reflexivity].
  erewrite bind_ok; [|unfold on_mem; cbn [fst snd]; rewrite E2'; reflexivity].
  unfold on_mem; cbn [fst snd]. by rewrite E3.
Qed.

Definition new_info (env : Env) (idx : Z) (key : list Z) (t : DTCTableDefinition) (l : list (Z * column)) : info :=
  let h := le_bytes 2 (u16 env.(get_relative_hour)) in
  mkInfo [Z.land (Z.shiftl idx 7) 0x80] ([1] ++ h ++ h ++ h) key t l.

Lemma set_header_ok env r s F bs key more t l : own r s F bs -> m_uiOffset r = 0 -> (m_iTableIdx r = 0 \/ m_iTableIdx r = 1) ->
  m_uiDataSize r = 16 + Z.of_nat (length key) -> m_uiRowCnt r = 0 -> (16 + length key <= length bs)%nat -> bytes_ok key ->
  scan t (fields_from (m_uchKeyIdx r) t) = Ok l ->
  wp (set_header env (Z.of_nat (length key)) (key ++ more)) (r, s) (fun x st => x = Some tt /\ rep st.1 st.2 F (new_info env (m_iTableIdx r) key t l) [] /\
    m_uiOffset st.1 = Z.of_nat (16 + length key) /\ m_uiRowOffset st.1 = Z.of_nat (16 + length key)).
Proof.
  intros H Ho Hidx Hd Hc Hl Hkey Hscan. set (n := length key) in *. pose proof (own_size _ _ _ _ H) as Hsz.
  set (tb := Z.land (Z.shiftl (m_iTableIdx r) 7) 0x80).
  assert (Htb : le_bytes 1 (tb + DATA_TYPE_RAW) = [tb]) by (unfold tb; destruct Hidx as [-> | ->]; reflexivity).
  assert (Hb : exists b0 d4 c4 g t6 k0 post, bs = [b0] ++ d4 ++ c4 ++ [g] ++ t6 ++ k0 ++ post /\ length d4 = 4%nat /\ length c4 = 4%nat /\ length t6 = 6%nat /\ length k0 = n).
  { do 10 (destruct bs as [|? bs]; [cbn in Hl; lia|]). cbn [length] in Hl.
    eexists _, [_; _; _; _], [_; _; _; _], _, (take 6 bs), (take n (drop 6 bs)), (drop n (drop 6 bs)). rewrite !take_drop. split; [done|].
    rewrite !length_take, length_drop. repeat split; lia. }
  destruct Hb as (b0 & d4 & c4 & g & t6 & k0 & post & -> & Ld & Lc & L6 & Lk).
  unfold set_header. do 3 apply wp_get. rewrite Hd, Hc. fold tb.
  destruct (SET_VALUE_ok r s F [] [b0] _ 1 (tb + DATA_TYPE_RAW) H Ho eq_refl) as (s1 & E1 & H1). rewrite Htb in H1. eapply wp_or_error; [exact E1|].
  set (r1 := set_uiOffset _ r). rewrite app_nil_l in H1.
  destruct (SET_VALUE_ok r1 s1 F [tb] d4 _ 4 (16 + Z.of_nat n) H1 eq_refl Ld) as (s2 & E2 & H2). eapply wp_or_error; [exact E2|].
  set (r2 := set_uiOffset _ r1). rewrite app_assoc in H2.
  destruct (SET_VALUE_ok r2 s2 F _ c4 _ 4 0 H2) as (s3 & E3 & H3); [reflexivity|done|].
  eapply wp_or_error; [exact E3|]. apply wp_get, wp_upd, wp_upd. set (r3 := set_uchGetCount _ _). rewrite app_assoc in H3.
  destruct (SET_VALUE_ok r3 s3 F _ [g] _ 1 1 H3) as (s4 & E4 & H4); [reflexivity|done|].
  eapply wp_or_error; [exact E4|]. apply wp_get, wp_upd. set (r4 := set_TimeStampOffSet _ _). rewrite app_assoc in H4.
  destruct (init_timp_stamp_ok env r4 s4 F _ t6 _ H4 L6) as (s5 & E5 & H5); [reflexivity..|].
  apply wp_bind. eexists _, _. split; [exact E5|]. set (r5 := set_hours _ _ _ r4).
  set (hb := le_bytes 2 (u16 (get_relative_hour env))) in H5. set (h6 := hb ++ hb ++ hb) in H5.
  assert (L6' : length h6 = 6%nat) by (unfold h6, hb; by rewrite !length_app, !le_bytes_length).
  pose proof (SKIP_SIZEOF_ok r5 s5 F _ h6 _ H5 eq_refl) as E6. rewrite L6' in E6. eapply wp_or_error; [exact E6|].
  rewrite app_assoc in H5. set (hd := _ ++ h6) in H5. set (r6 := set_uiOffset _ r5).
  assert (Lh : length hd = 16%nat) by (unfold hd; rewrite length_app, L6', !length_app, !le_bytes_length; done).
  apply wp_get, wp_upd, wp_get. change (m_uiOffset r6) with (Z.of_nat (length hd)).
  assert (Hp : pointed F (PMem (key ++ more)) key) by (split; [rewrite length_app; lia|apply take_app_length]).
  destruct (memcpy_from_ok (set_KeyStart (Z.of_nat (length hd)) r6) s5 F hd k0 post (PMem (key ++ more)) key H5 Hp Hkey Lk) as (s6 & E7 & H6).
  apply wp_bind. eexists _, _. split; [exact E7|]. rewrite Lh. apply wp_upd, wp_get, wp_upd, wp_upd, wp_ret. cbn [fst snd].
  assert (Eo : u32 (Z.of_nat 16 + Z.of_nat n) = Z.of_nat (16 + n)) by (rewrite u32_small; [lia|]; rewrite !length_app in Hsz; cbn [length] in Hsz; lia).
  cbn [fst snd m_uiOffset set_uiOffset]. rewrite Eo. split; [done|]. split; [|done].
  assert (Eds : forall k : info, k_key k = key -> data_size k [] = (16 + n)%nat) by (intros k Ek; unfold data_size, data_start; rewrite Ek; cbn; lia).
  split; try done.
  - exists post. unfold chunk_bytes, before_rows. rewrite Eds by done. cbn [k_tb k_meta k_key new_info length rows_bytes fmap list_fmap concat app Z.of_nat].
    unfold hd, h6, hb in H6. rewrite <-!app_assoc in H6 |- *.
    replace (16 + Z.of_nat n) with (Z.of_nat (16 + n)) in H6 by lia. exact H6.
  - rewrite Eds by done. change (m_uiDataSize r = Z.of_nat (16 + n)). rewrite Hd. lia.
Qed.

Lemma key_bytes_size_ok iKeySize key more : key_fits iKeySize key -> key_bytes_size iKeySize (key ++ more) = Ok (Z.of_nat (length key)).
Proof.
  unfold key_fits, key_bytes_size. destruct (iKeySize =? 0); cbn [negb]; [|by intros ->].
  intros (rest & ->). cbn [app length]. f_equal. lia.
Qed.

Lemma Init_key_ok env r s A idx ks key more uiDataSize la ex t l :
  heap s A -> key_fits ks key -> bytes_ok key -> (m_iTableIdx r = 0 \/ m_iTableIdx r = 1) ->
  0 <= uiDataSize -> uiDataSize + 16 + Z.of_nat (length key) < 2 ^ 32 -> scan t (fields_from idx t) = Ok l ->
  wp (Init_key env idx ks (key ++ more) uiDataSize la ex (-1)) (r, s) (fun x st =>
    (x = EC_NO_MEM /\ heap st.2 A /\ _handle st.1 = INVALID_HANDLE) \/
    (x = 0 /\ rep st.1 st.2 A (new_info env (m_iTableIdx r) key t l) [] /\
      m_uiOffset st.1 = Z.of_nat (16 + length key) /\ m_uiRowOffset st.1 = Z.of_nat (16 + length key))).
Proof.
  intros HA Hks Hkey Hidx Hd0 Hd Hscan. unfold Init_key. eapply wp_lift_ok; [by apply key_bytes_size_ok|].
  unfold head_size. rewrite (u32_small (uiDataSize + _)) by lia. set (t0 := uiDataSize + _).
  apply wp_bind. unfold wipe_handle. apply wp_upd, wp_upd_last.
  destruct (malloc_law s A t0 HA ltac:(unfold t0; lia)) as (h & s' & A' & E & Hn & HA').
  apply wp_bind. eapply wp_on_mem; [exact E|]. apply wp_upd. destruct Hn as [[-> ->]|(Hh & HAh & bs & Hl & _ & ->)].
  { cbn. apply wp_upd, wp_ret. by left. }
  unfold INVALID_HANDLE. rewrite (proj2 (Z.eqb_neq _ _)) by done.
  apply wp_bind. eapply wp_on_mem; [exact (block_size_law s' _ h bs HA' (lookup_insert_eq _ _ _))|].
  do 3 apply wp_upd. apply wp_get. do 4 apply wp_upd. cbn [Z.eqb negb Z.opp]. apply (wp_mret tt), wp_get.
  set (r1 := set_uiLAOffset _ _). change (m_iTableIdx r1) with (m_iTableIdx r).
  replace (_ && _) with false by (destruct Hidx as [-> | ->]; reflexivity).
  apply wp_error_ret. apply wp_bind. eapply wp_mono.
  { apply (set_header_ok env r1 s' A bs key more t l); try done.
    - change (u32 (16 + Z.of_nat (length key)) = 16 + Z.of_nat (length key)). apply u32_small. lia.
    - unfold t0 in Hl. lia. }
  intros x [r2 s2]. cbn [fst snd]. intros (-> & H2 & Ho1 & Ho2). apply wp_ret. right. done.
Qed.

Lemma raw_Init_ok env r s A key more uiDataSize t l :
  let idx := if env.(is_expanding) then Z.rem (env.(cur_table_idx) + 1) 2 else Z.rem env.(cur_table_idx) 2 in
  heap s A -> 0 <= env.(cur_table_idx) -> get_table_def_by_idx env idx = Some t -> key_fits t.(keyFormat) key -> bytes_ok key ->
  scan t (fields_from (u8 (t.(keyFields) - 1)) t) = Ok l -> 0 <= uiDataSize -> uiDataSize + 16 + Z.of_nat (length key) < 2 ^ 32 ->
  wp (RawData_Init env (key ++ more) uiDataSize) (r, s) (fun x st =>
    (x = EC_NO_MEM /\ heap st.2 A /\ _handle st.1 = INVALID_HANDLE) \/
    (x = 0 /\ rep st.1 st.2 A (new_info env idx key t l) [] /\
      m_uiOffset st.1 = place (new_info env idx key t l) [] 0 /\ m_uiRowOffset st.1 = place (new_info env idx key t l) [] 0)).
Proof.
  intros idx HA Hcur Htab Hks Hkey Hscan Hd0 Hd. unfold RawData_Init. fold idx.
  assert (Hidx : idx = 0 \/ idx = 1) by (unfold idx; destruct (is_expanding env); rewrite Z.rem_mod_nonneg by lia; zdm).
  apply wp_upd. replace (_ && _) with false by (destruct Hidx as [-> | ->]; reflexivity). apply wp_upd. rewrite Htab.
  rewrite !place_0. by apply (Init_key_ok env (set_table idx (Some t) (set_iTableIdx idx r)) s A _ _ key more uiDataSize _ _ t l).
Qed.

Lemma new_info_ok env idx key t l : (idx = 0 \/ idx = 1) -> get_table_def_by_idx env idx = Some t -> key_fits t.(keyFormat) key ->
  scan t (fields_from (u8 (t.(keyFields) - 1)) t) = Ok l -> info_ok env (new_info env idx key t l).
Proof.
  intros Hidx Htab Hkey Hscan. split; try done. exists (Z.land (Z.shiftl idx 7) 128). split; [done|].
  destruct Hidx as [-> | ->]; (split; [reflexivity|exact Htab]).
Qed.

Lemma raw_Destroy_ok r s F k rows : rep r s F k rows ->
  exists s', RawData_Destroy (r, s) = Ok (0, (set_size 0 (set_handle INVALID_HANDLE r), s')) /\ heap s' F.
Proof.
  intros [(spare & Hown) _ _ _ _ _ _ _]. pose proof (own_valid _ _ _ _ Hown) as [E1 _]. destruct Hown as (H & HF & _).
  destruct (free_law s _ _ H (ex_intro _ _ (lookup_insert_eq _ _ _))) as (s' & E & H'). rewrite (delete_insert_id F) in H' by done.
  exists s'. split; [|exact H']. unfold RawData_Destroy. rewrite (gets_bind (fun st : RawData * S => _handle st.1)). cbn [fst]. rewrite E1.
  erewrite bind_ok; [|unfold on_mem; cbn [fst snd]; rewrite E; reflexivity]. reflexivity.
Qed.

(** ** Access data *)

Definition with_meta (m : list Z) (k : info) : info := mkInfo (k_tb k) m (k_key k) (k_tab k) (k_fields k).

(** A write among the seven bytes of access data leaves the rows alone. *)
Lemma meta_write r s F k rows a old b n x : rep r s F k rows -> k_meta k = a ++ old ++ b -> length old = n ->
  exists s', mwrite n (m_pchContent r + Z.of_nat (9 + length a)) x s = Ok (tt, s') /\ rep r s' F (with_meta (a ++ le_bytes n x ++ b) k) rows.
Proof.
  intros [(spare & Hown) Hd Hc Hst Hscan Hrows Htb Hmeta] Em Hn.
  set (hd := k_tb k ++ le_bytes 4 (Z.of_nat (data_size k rows)) ++ le_bytes 4 (Z.of_nat (length rows)) ++ a).
  assert (H1 : own r s F (hd ++ old ++ b ++ k_key k ++ rows_bytes (k_cols k) rows ++ spare)).
  { unfold chunk_bytes, before_rows in Hown. rewrite Em in Hown. unfold hd. rewrite <-!app_assoc in *. exact Hown. }
  destruct (own_write _ _ _ _ _ _ n x H1 Hn) as (s' & E & H').
  assert (Lh : length hd = (9 + length a)%nat) by (unfold hd; rewrite !length_app, !le_bytes_length; lia).
  rewrite Lh in E. exists s'. split; [exact E|]. split; try done.
  - exists spare. unfold chunk_bytes, before_rows. cbn [with_meta k_tb k_meta k_key].
    change (k_cols (with_meta _ k)) with (k_cols k). change (data_size (with_meta _ k) rows) with (data_size k rows).
    unfold hd in H'. rewrite <-!app_assoc in *. exact H'.
  - cbn. rewrite Em in Hmeta. rewrite !length_app, le_bytes_length in *. lia.
Qed.

Lemma rep_big r s F k rows : rep r s F k rows -> 16 <= _size r.
Proof.
  intros [(spare & Hown) _ _ _ _ _ Htb Hmeta]. destruct Hown as (_ & _ & _ & ->). rewrite chunk_bytes_head, !length_app, before_rows_length by done.
  unfold data_start. lia.
Qed.

(** The counter of reads stops at 255. *)
Lemma inc_select_count_ok r s F k rows c t6 : rep r s F k rows -> k_meta k = [c] ++ t6 -> m_uchGetCount r = c -> m_uiGetCountOffset r = 9 -> 0 <= c <= 255 ->
  wp inc_select_count (r, s) (fun _ st => let c' := Z.min 255 (c + 1) in m_uchGetCount st.1 = c' /\ rep st.1 st.2 F (with_meta ([c'] ++ t6) k) rows).
Proof.
  intros H Em Hc Ho Hr. pose proof (rep_big _ _ _ _ _ H). unfold inc_select_count. apply wp_get. rewrite Hc. unfold BTYE_MAX_VALUE.
  destruct (Z.leb_spec 255 c) as [Hge|Hlt].
  - apply wp_ret. assert (c = 255) as -> by lia. cbn [fst snd]. split; [done|]. change (Z.min 255 (255 + 1)) with 255. rewrite <-Em.
    by destruct k.
  - do 2 apply wp_get. rewrite Ho, (proj2 (Z.ltb_ge _ _)) by lia. apply wp_upd, wp_get.
    destruct (meta_write r s F k rows [] [c] t6 1 (c + 1) H Em eq_refl) as (s' & E & H').
    eapply wp_on_mem; [exact E|]. cbn [fst snd]. rewrite Z.min_r by lia. split; [done|].
    assert (Eb : le_bytes 1 (c + 1) = [c + 1]) by (cbn; rewrite Z.mod_small by lia; done). rewrite Eb in H'. by apply (chunk_rep_ext r).
Qed.

Lemma update_last_access_ok env r s F k rows g a u c : rep r s F k rows -> k_meta k = [g] ++ a ++ u ++ c -> length a = 2%nat -> m_uiTimeStampOffSet r = 10 ->
  let h := u16 env.(get_relative_hour) in
  wp (update_last_access_time_by_hour env) (r, s) (fun _ st => m_LastAccessHour st.1 = h /\ rep st.1 st.2 F (with_meta ([g] ++ le_bytes 2 h ++ u ++ c) k) rows).
Proof.
  intros H Em Ha Ht h. pose proof (rep_big _ _ _ _ _ H). destruct (rep_own _ _ _ _ _ H) as (spare & Hown). destruct (own_valid _ _ _ _ Hown) as [_ E2].
  unfold update_last_access_time_by_hour. apply wp_get. rewrite E2. do 2 apply wp_get. rewrite Ht, (proj2 (Z.ltb_ge _ _)) by lia.
  do 2 apply wp_get. fold h. apply wp_upd. destruct (meta_write r s F k rows [g] a (u ++ c) 2 h H Em Ha) as (s' & E & H').
  eapply wp_on_mem; [exact E|]. cbn [fst snd]. split; [done|]. by apply (chunk_rep_ext r).
Qed.
Lemma update_last_update_ok env r s F k rows g a u c : rep r s F k rows -> k_meta k = [g] ++ a ++ u ++ c -> length a = 2%nat -> length u = 2%nat -> m_uiTimeStampOffSet r = 10 ->
  let h := u16 env.(get_relative_hour) in
  wp (update_last_update_time_by_hour env) (r, s) (fun _ st => m_LastUpdateHour st.1 = h /\ rep st.1 st.2 F (with_meta ([g] ++ a ++ le_bytes 2 h ++ c) k) rows).
Proof.
  intros H Em Ha Hu Ht h. pose proof (rep_big _ _ _ _ _ H). destruct (rep_own _ _ _ _ _ H) as (spare & Hown). destruct (own_valid _ _ _ _ Hown) as [_ E2].
  unfold update_last_update_time_by_hour. apply wp_get. rewrite E2. do 2 apply wp_get. rewrite Ht, (proj2 (Z.ltb_ge _ _)) by lia.
  do 2 apply wp_get. fold h. apply wp_upd. rewrite (app_assoc [g]) in Em. destruct (meta_write r s F k rows ([g] ++ a) u c 2 h H Em Hu) as (s' & E & H').
  rewrite length_app, Ha in E. eapply wp_on_mem; [replace (m_pchContent r + 10 + 2) with (m_pchContent r + Z.of_nat (9 + (length [g] + 2))) by (cbn; lia); exact E|].
  cbn [fst snd]. split; [done|]. rewrite <-app_assoc in H'. by apply (chunk_rep_ext r).
Qed.

End Edit.
