(* ===== verification/RawSpec.v ===== *)
(** What the rows of a key promise to the code above them: a [RawData] behaves like a key
    with a list of rows and a place in it, whatever the table and wherever the allocator
    puts the chunk. *)
From Stdlib Require Import ZArith Lia.
From stdpp Require Import base list list_numbers numbers gmap.
From S2P Require Import Prelude Value TableDef Field Mem PtMalloc PtHeap PtOps PtCheck PtSpec Mallocator RawData RawRep RawOps RawEdit.
Import MemFacts Header Layout AllocSpec.
Local Open Scope Z_scope.

(** ** What a reader of a row sees *)

Section Observe.
Context {S : Type} `{!Mallocator S, !MallocatorLaws S}.
Implicit Types (r : RawData) (s : S) (F : blocks).

(** The value of a field: the word, or the bytes behind the pointer. *)
Definition observe_cell (c : column) (x : cell) : ST S fval :=
  match col_width c with
  | Some _ => mret (FWord (u64_ x))
  | None =>
    if bin_len x =? 0 then mret (FBin []) else
    match bin_ptr x with
    | PNull => fault
    | PMem m => mret (FBin (take (Z.to_nat (bin_len x)) m))
    | PSeg a => v ← mread (Z.to_nat (bin_len x)) a; mret (FBin (le_bytes (Z.to_nat (bin_len x)) v))
    end
  end.
Fixpoint observe (row : DataRow) (l : list (Z * column)) : ST S (list fval) :=
  match l with
  | [] => mret []
  | (j, c) :: l => x ← lift (cell_at row j); v ← observe_cell c x; vs ← observe row l; mret (v :: vs)
  end.

(** A stored value as it is read back. *)
Definition norm (c : column) (v : fval) : fval :=
  match col_width c, v with Some _, FWord w => FWord (norm_word c w) | _, _ => v end.
Fixpoint norms (cs : list column) (vs : list fval) : list fval :=
  match cs, vs with c :: cs, v :: vs => norm c v :: norms cs vs | _, _ => [] end.

(** ** Filled rows *)

Lemma upd_cell_ne row j f i : 0 <= j -> 0 <= i -> i <> j -> cell_at (upd_cell row j f) i = cell_at row i.
Proof. intros Hj Hi Hne. unfold cell_at, upd_cell. cbn. by rewrite list_lookup_alter_ne by lia. Qed.
Lemma upd_cell_eq row j f : (Z.to_nat j < length (cells row))%nat -> exists x, cell_at (upd_cell row j f) j = Ok (f x).
Proof.
  intros Hl. destruct (lookup_lt_is_Some_2 _ _ Hl) as [x Hx]. exists x. unfold cell_at, upd_cell. cbn. by rewrite list_lookup_alter_eq, Hx.
Qed.
Lemma bin_len_set n p x : is_s 32 n -> bin_len (set_bin n p x) = n.
Proof.
  intros Hn. unfold bin_len, set_bin, s32, swrap. cbn [u64_]. replace (wrap 32 _) with (wrap 32 n); [by apply (swrap_small 32)|].
  unfold u32, wrap. by rewrite Z.add_comm, Z_mod_plus_full, Z.mod_mod by lia.
Qed.
Lemma fill_length l : forall row vs a, length (cells (fill row l vs a)) = length (cells row).
Proof.
  induction l as [|[j c] l IH]; intros row [|v vs] a; try done. cbn [fill]. rewrite IH. cbn. apply length_alter.
Qed.
Lemma fill_other l : forall row vs a i, 0 <= i -> Forall (fun jc : Z * column => 0 <= jc.1 /\ (Z.to_nat jc.1 < length (cells row))%nat) l -> i ∉ l.*1 ->
  cell_at (fill row l vs a) i = cell_at row i.
Proof.
  induction l as [|[j c] l IH]; intros row [|v vs] a i Hi Hl Hn; try done. cbn [fill]. rewrite fmap_cons, not_elem_of_cons in Hn. cbn in Hn.
  apply Forall_cons in Hl as [[Hj1 Hj2] Hl]. cbn in Hj1, Hj2. rewrite IH; [|done| |by apply Hn].
  - apply upd_cell_ne; [done..|apply Hn].
  - eapply Forall_impl; [exact Hl|]. cbn. intros ? [? ?]. by rewrite length_alter.
Qed.

Lemma scan_fst t js : forall l, scan t js = Ok l -> sublist l.*1 js.
Proof.
  induction js as [|j js IH]; intros l Hl; [by injection Hl as <-|]. apply scan_cons in Hl as ([|] & _ & Hl); [apply sublist_cons; by apply IH|].
  destruct Hl as (ty & sz & l' & _ & _ & Hl & ->). cbn. apply sublist_skip. by apply IH.
Qed.
(** No column is stored twice. *)
Lemma scan_NoDup t keyIdx l : scan t (fields_from keyIdx t) = Ok l -> NoDup l.*1.
Proof. intros H. eapply sublist_NoDup; [apply NoDup_seqZ|by eapply scan_fst]. Qed.

Lemma observe_filled r s F pre l : forall row vs post,
  own r s F (pre ++ encs l.*2 vs ++ post) -> Forall2 col_ok l.*2 vs -> NoDup l.*1 ->
  Forall (fun jc : Z * column => 0 <= jc.1 /\ (Z.to_nat jc.1 < length (cells row))%nat) l ->
  forall l0 row0, (forall jc, jc ∈ l -> cell_at row0 jc.1 = cell_at (fill row l vs (m_pchContent r + Z.of_nat (length pre))) jc.1) -> l0 = l ->
  observe row0 l0 s = Ok (norms l.*2 vs, s).
Proof.
  revert pre. induction l as [|[j c] l IH]; intros pre row vs post H Hv Hnd Hl l0 row0 Hrow ->.
  { by destruct vs. }
  apply Forall2_cons_inv_l in Hv as (v & vs' & Hc & Hv & ->). rewrite fmap_cons in *. cbn [fst snd encs norms] in *.
  apply NoDup_cons in Hnd as [Hj Hnd]. apply Forall_cons in Hl as [[Hj1 Hj2] Hl]. cbn in Hj1, Hj2. rewrite <-app_assoc in H.
  cbn [observe]. cbn [fill] in Hrow. 
  assert (Hl' : Forall (fun jc : Z * column => 0 <= jc.1 /\ (Z.to_nat jc.1 < length (cells (upd_cell row j (cell_of c v (m_pchContent r + Z.of_nat (length pre))))))%nat) l).
  { eapply Forall_impl; [exact Hl|]. cbn. intros ? [? ?]. by rewrite length_alter. }
  pose proof (Hrow (j, c) ltac:(left)) as Ex. cbn [fst] in Ex. rewrite fill_other in Ex by done.
  destruct (upd_cell_eq row j (cell_of c v (m_pchContent r + Z.of_nat (length pre))) Hj2) as (x & Ex'). rewrite Ex' in Ex.
  rewrite (bind_ok _ _ _ (cell_of c v (m_pchContent r + Z.of_nat (length pre)) x) s) by (unfold lift; by rewrite Ex).
  assert (Eo : observe_cell c (cell_of c v (m_pchContent r + Z.of_nat (length pre)) x) s = Ok (norm c v, s)).
  { unfold observe_cell, cell_of, norm, col_ok, enc in *. destruct (col_width c) as [n|], v as [w|bs]; try done.
    destruct Hc as [Hb Hlen]. rewrite bin_len_set by (unfold is_s; lia). cbn [bin_ptr set_bin].
    destruct (Z.eqb_spec (Z.of_nat (length bs)) 0) as [E0|E0]; [by destruct bs|]. rewrite <-!app_assoc, (app_assoc pre) in H.
    pose proof (own_read _ _ _ _ _ _ H) as R. rewrite length_app, le_bytes_length, Nat2Z.inj_add, Z.add_assoc in R.
    rewrite Nat2Z.id. rewrite (bind_ok _ _ _ _ _ R). by rewrite le_bytes_value. }
  rewrite (bind_ok _ _ _ _ _ Eo). rewrite app_assoc in H.
  assert (Er : observe row0 l s = Ok (norms l.*2 vs', s)).
  { eapply (IH (pre ++ enc c v) _ vs' post H Hv Hnd Hl'); [|done]. intros jc Hjc. rewrite (Hrow jc) by by right.
    rewrite (length_app pre), Nat2Z.inj_add, Z.add_assoc. done. }
  by rewrite (bind_ok _ _ _ _ _ Er).
Qed.

End Observe.

Module RawSpec.

Section Spec.
Context {S : Type} `{!Mallocator S, !MallocatorLaws S} (env : Env) (k : info) (F : blocks).
Implicit Types (r : RawData) (s : S).
#[local] Abbreviation RD := (ST (RawData * S)).

(** ** A key with rows

    The rows, and the numbers of the row that is read next and of the row that was read
    last, where the object still knows them. *)
Record view := mkView { v_rows : list row; v_next : option nat; v_cur : option nat }.

Definition stands_at (rows : list row) (off : Z) (i : option nat) : Prop :=
  match i with Some i => (i <= length rows)%nat /\ off = place k rows i | None => True end.
Record Refines (r : RawData) (s : S) (v : view) : Prop := {
  rf_rep : rep r s F k (v_rows v);
  rf_next : stands_at (v_rows v) (m_uiOffset r) (v_next v);
  rf_cur : stands_at (v_rows v) (m_uiRowOffset r) (v_cur v)
}.

Inductive op : Type :=
  | ODecode (stRow : DataRow) (peek : bool)
  | OSkip (stRow : DataRow)
  | OInsert (stRow : DataRow) (vs : list fval) (byFirst : bool) (flag : Z)
  | OInsertN (stRows : list DataRow) (vss : list (list fval)) (byFirst isDirty : bool)
  | OReplace (stRow : DataRow) (vs : list fval) (isDirty : bool)
  | ODelete (stRow : DataRow)
  | OClear
  | OFlag (flag : Z)
  | ORewind
  | OStrip
  | OAppend (p : pointer) (news : list row)
  | OAttach (junk : RawData).

(** What an operation answers: the result, and the flag and the values of the row that
    was read. [OAttach] goes on with another object, on the same chunk. *)
Definition answer : Type := Z * option (Z * list fval).
Definition code (m : RD Z) : RD answer := x ← m; mret (x, None).
Definition exec (o : op) : RD answer :=
  match o with
  | ODecode stRow peek =>
    x ← decode_row stRow 0 (if peek then PRE_DECODE_ROW else 0);
    if negb (x.1.1 =? 0) then mret (x.1.1, None) else vs ← on_mem (observe x.1.2 (k_fields k)); mret (x.1.1, Some (x.2, vs))
  | OSkip stRow => code (skip_row stRow)
  | OInsert stRow _ byFirst flag => code (insert_row_flag env stRow byFirst flag)
  | OInsertN stRows _ byFirst isDirty => code (insert_n_rows env stRows byFirst isDirty)
  | OReplace stRow _ isDirty => code (replace_cur_row env stRow isDirty)
  | ODelete stRow => code (delete_cur_row stRow)
  | OClear => code delete_all_rows
  | OFlag flag => code (set_cur_row_flag flag)
  | ORewind => code (rewind;; mret 0)
  | OStrip => code strip_mem
  | OAppend p news => code (append_n_records (Z.of_nat (length news)) p (Z.of_nat (length (rows_bytes (k_cols k) news))))
  | OAttach junk => code (h ← get _handle; upd (fun _ => junk);; RawData_Attach env h)
  end.

Definition dirty_insert (isDirty : bool) : Z := if isDirty then OPER_INSERT else OPER_SELECT.

(** The same on the list of the rows. An insertion moves the place of reading to the end;
    in front of the others it makes the number of the last row meaningless. It fails for
    want of shared memory, without effect, or because the C library has no buffer for the
    way to the front: then the rows stay behind the others. *)
Definition spec_insert (v : view) (byFirst : bool) (news : list row) (x : Z) (v' : view) : Prop :=
  (x = 0 /\ v' = mkView (front_or_end byFirst (v_rows v) news) (Some (length (v_rows v ++ news))) (if byFirst then None else v_cur v)) \/
  (x = EC_NO_MEM /\ v' = mkView (v_rows v) None (v_cur v)) \/
  (x = - ENOMEM /\ byFirst = true /\ env.(sys_malloc) (Z.of_nat (length (rows_bytes (k_cols k) news))) = false /\
    v' = mkView (v_rows v ++ news) None (v_cur v)).

Definition spec_step (v : view) (o : op) (a : answer) (v' : view) : Prop :=
  match o with
  | ODecode _ peek => exists i x, v_next v = Some i /\ v_rows v !! i = Some x /\ a = (0, Some (r_flag x, norms (k_cols k) (r_vals x))) /\
      v' = if peek then v else mkView (v_rows v) (Some (Datatypes.S i)) (Some i)
  | OSkip _ => exists i, v_cur v = Some i /\
      ((a = (0, None) /\ (i < length (v_rows v))%nat /\ v' = mkView (v_rows v) (Some (Datatypes.S i)) (Some i)) \/
       (a = (-2, None) /\ i = length (v_rows v) /\ v' = mkView (v_rows v) (Some i) (Some i)))
  | OInsert _ vs byFirst flag => a.2 = None /\ spec_insert v byFirst [mkRowV flag vs] a.1 v'
  | OInsertN _ vss byFirst isDirty => a.2 = None /\ spec_insert v byFirst (new_rows (dirty_insert isDirty) vss) a.1 v'
  | OReplace _ vs isDirty => exists i, v_cur v = Some i /\
      ((exists x, v_rows v !! i = Some x /\
         ((a = (0, None) /\ v' = mkView (<[i := mkRowV (new_flag isDirty x) vs]> (v_rows v)) (Some (Datatypes.S i)) (Some i)) \/
          (a = (EC_NO_MEM, None) /\ v' = v) \/
          (a = (- ENOMEM, None) /\ v' = mkView (v_rows v) (Some (Datatypes.S i)) (Some i) /\
            env.(sys_malloc) (Z.of_nat (length (row_bytes (k_cols k) x))) = false))) \/
       (a = (-2, None) /\ i = length (v_rows v) /\ v' = v))
  | ODelete _ => exists i, v_cur v = Some i /\
      ((a = (0, None) /\ (i < length (v_rows v))%nat /\ v' = mkView (delete i (v_rows v)) (Some i) (Some i)) \/
       (a = (-2, None) /\ i = length (v_rows v) /\ v' = v))
  | OClear => a = (0, None) /\ v' = mkView [] (Some 0%nat) (Some 0%nat)
  | OFlag f => exists i, v_cur v = Some i /\
      ((exists x, v_rows v !! i = Some x /\ a = (0, None) /\ v' = mkView (<[i := mkRowV f (r_vals x)]> (v_rows v)) (v_next v) (Some i)) \/
       (a = (-1, None) /\ i = length (v_rows v) /\ v' = v))
  | ORewind => a = (0, None) /\ v' = mkView (v_rows v) (Some 0%nat) (Some 0%nat)
  | OStrip => (a = (0, None) \/ a = (EC_NO_MEM, None)) /\ v' = v
  | OAppend _ news => (a = (0, None) /\ v' = mkView (v_rows v ++ news) (v_next v) (v_cur v)) \/ (a = (EC_NO_MEM, None) /\ v' = v)
  | OAttach _ => a = (0, None) /\ v' = mkView (v_rows v) (Some 0%nat) (Some 0%nat)
  end.

(** The row object of a caller has a place for every column. *)
Definition fits (stRow : DataRow) : Prop :=
  table_definition stRow = k_tab k /\
  Forall (fun jc : Z * column => 0 <= jc.1 /\ (Z.to_nat jc.1 < length (cells stRow))%nat) (k_fields k).
Definition fits_32 (rows : list row) : Prop := Z.of_nat (data_size k rows) < 2 ^ 32.

(** What the callers see to: reads end with the rows, the object knows the row a change
    is about, the values fit their columns and the chunk stays below 4 GB. *)
Definition legal (v : view) (o : op) : Prop :=
  match o with
  | ODecode stRow _ => fits stRow /\ exists i, v_next v = Some i /\ (i < length (v_rows v))%nat
  | OSkip stRow | ODelete stRow => table_definition stRow = k_tab k /\ is_Some (v_cur v)
  | OInsert stRow vs _ flag => row_val F k stRow vs /\ is_u 8 flag /\ fits_32 (v_rows v ++ [mkRowV flag vs])
  | OInsertN stRows vss _ isDirty => rows_val F k stRows vss /\ fits_32 (v_rows v ++ new_rows (dirty_insert isDirty) vss)
  | OReplace stRow vs isDirty => row_val F k stRow vs /\ is_Some (v_cur v) /\
      Z.of_nat (data_size k (v_rows v)) + Z.of_nat (length (row_bytes (k_cols k) (mkRowV 0 vs))) < 2 ^ 32
  | OFlag f => is_u 8 f /\ is_Some (v_cur v)
  | OAppend p news => pointed F p (rows_bytes (k_cols k) news) /\ bytes_ok (rows_bytes (k_cols k) news) /\
      Forall (row_ok (k_cols k)) news /\ fits_32 (v_rows v ++ news)
  | OAttach _ => info_ok env k
  | OClear | ORewind | OStrip => True
  end.

(** ** The steps *)

Lemma stands_app rows news off i : stands_at rows off i -> stands_at (rows ++ news) off i.
Proof. destruct i as [i|]; [|done]. intros [Hi ->]. split; [rewrite length_app; lia|]. unfold place. by rewrite take_app_le. Qed.
Lemma stands_end rows off : off = Z.of_nat (data_size k rows) -> stands_at rows off (Some (length rows)).
Proof. intros ->. split; [done|]. unfold place. by rewrite firstn_all. Qed.
Lemma stands_insert rows i v off j : (j <= i)%nat -> stands_at rows off (Some j) -> stands_at (<[i := v]> rows) off (Some j).
Proof. intros Hj [Hl ->]. split; [by rewrite length_insert|]. unfold place. by rewrite take_insert_ge. Qed.
(** A row that stands somewhere is there, or at the end. *)
Lemma stands_row rows off i : stands_at rows off (Some i) ->
  (exists v, rows !! i = Some v /\ off = place k rows i) \/ (i = length rows /\ off = Z.of_nat (data_size k rows)).
Proof.
  intros [Hi ->]. destruct (rows !! i) as [v|] eqn:E; [left; by exists v|]. right. apply lookup_ge_None in E.
  assert (i = length rows) as -> by lia. split; [done|]. by apply place_all.
Qed.

Definition step_post (v : view) (o : op) (a : answer) (st : RawData * S) : Prop := exists v', spec_step v o a v' /\ Refines st.1 st.2 v'.

Lemma wp_code (m : RD Z) st (Q : answer -> RawData * S -> Prop) : wp m st (fun x => Q (x, None)) -> wp (code m) st Q.
Proof. intros H. apply wp_bind. eapply wp_mono; [exact H|]. intros x st' HQ. by apply wp_ret. Qed.

Lemma insert_refines r s v byFirst news x st o : Refines r s v -> inserted_post env r F k (v_rows v) byFirst news x st ->
  (forall x v', spec_insert v byFirst news x v' -> spec_step v o (x, None) v') -> step_post v o (x, None) st.
Proof.
  intros [Hrep Hn Hc] [Er H] Ho. rewrite <-Er in Hc.
  destruct H as [(-> & H & Eo)|[(-> & H)|(-> & Hf & H & Hm)]]; eexists; (split; [apply Ho|]).
  - by left.
  - split; cbn [v_rows v_next v_cur]; [done| |].
    + destruct (stands_end (v_rows v ++ news) _ Eo) as [H1 H2]. destruct byFirst; cbn [front_or_end]; [|done].
      split; [rewrite !length_app; lia|]. rewrite H2, !place_all by (rewrite !length_app; lia). by rewrite data_size_comm.
    + destruct byFirst; [done|]. by apply stands_app.
  - by right; left.
  - by split.
  - by right; right.
  - split; [done..|]. by apply stands_app.
Qed.

Lemma decode_step r s v stRow peek : Refines r s v -> legal v (ODecode stRow peek) ->
  wp (exec (ODecode stRow peek)) (r, s) (step_post v (ODecode stRow peek)).
Proof.
  intros [Hrep Hn Hc] [[Ht Hfit] (i & Ei & Hi)]. destruct v as [rows next cur]. cbn [v_rows v_next v_cur] in *. subst next.
  destruct (stands_row _ _ _ Hn) as [(x & Hx & Eo)|[-> _]]; [|lia].
  destruct (decode_row_ok r s F k rows i x stRow 0 (if peek then PRE_DECODE_ROW else 0) Hrep Hx Eo Ht) as (la & Ed). cbn zeta in Ed.
  replace (negb (Z.land (if peek then PRE_DECODE_ROW else 0) PRE_DECODE_ROW =? 0)) with peek in Ed by by destruct peek.
  cbn [exec]. apply wp_bind. eexists _, _. split; [exact Ed|]. cbn [fst snd Z.eqb negb].
  destruct (own_row _ _ _ _ _ _ _ Hrep Hx) as (spare & Hown). destruct (row_at_ok _ _ _ _ _ _ _ Hrep Hx) as [_ Hv].
  pose proof Hrep as [_ _ _ _ Hscan _ Htb Hmeta].
  unfold row_bytes in Hown. rewrite <-(app_assoc (le_bytes _ _)), app_assoc in Hown. set (pre := (_ ++ le_bytes 1 _)) in Hown.
  assert (Hpre : m_pchContent r + place k rows i + 1 = m_pchContent r + Z.of_nat (length pre)).
  { unfold pre. rewrite length_app, before_length, le_bytes_length by done. unfold place. lia. }
  rewrite Hpre. apply wp_bind. eapply wp_on_mem.
  { apply (observe_filled r s F pre (k_fields k) stRow (r_vals x) _ Hown Hv (scan_NoDup _ _ _ Hscan) Hfit (k_fields k)); done. }
  apply wp_ret. eexists. split; [exists i, x; done|].
  pose proof (lookup_lt_Some _ _ _ Hx). destruct peek; (split; cbn [v_rows v_next v_cur fst snd]; [by apply (chunk_rep_ext r)| |]);
    first [exact Hc | split; [lia|done]].
Qed.

Lemma skip_step r s v stRow : Refines r s v -> legal v (OSkip stRow) -> wp (exec (OSkip stRow)) (r, s) (step_post v (OSkip stRow)).
Proof.
  intros [Hrep Hn Hc] [Ht [i Ei]]. destruct v as [rows next cur]. cbn [v_rows v_next v_cur] in *. subst cur. apply wp_code.
  destruct (stands_row _ _ _ Hc) as [(x & Hx & Eo)|[-> Eo]].
  - eexists _, _. split; [exact (skip_row_ok _ _ _ _ _ _ _ _ Hrep Hx Eo Ht)|]. pose proof (lookup_lt_Some _ _ _ Hx).
    eexists. split; [exists i; split; [done|by left]|]. split; cbn [v_rows v_next v_cur fst snd]; [by apply (chunk_rep_ext r)|done|done].
  - eexists _, _. split; [exact (skip_row_end _ _ _ _ _ stRow Hrep Eo)|].
    eexists. split; [exists (length rows); split; [done|by right]|]. split; cbn [v_rows v_next v_cur fst snd]; [by apply (chunk_rep_ext r)|exact Hc|exact Hc].
Qed.

Lemma row_insert_step r s v stRow vs byFirst flag : Refines r s v -> legal v (OInsert stRow vs byFirst flag) ->
  wp (exec (OInsert stRow vs byFirst flag)) (r, s) (step_post v (OInsert stRow vs byFirst flag)).
Proof.
  intros H (Hv & Hf & Hsz). apply wp_code. eapply wp_mono; [exact (insert_row_flag_ok env _ _ _ _ _ _ _ byFirst _ (rf_rep _ _ _ H) Hv Hf Hsz)|].
  intros x st Hp. by eapply insert_refines.
Qed.
Lemma insert_n_step r s v sts vss byFirst isDirty : Refines r s v -> legal v (OInsertN sts vss byFirst isDirty) ->
  wp (exec (OInsertN sts vss byFirst isDirty)) (r, s) (step_post v (OInsertN sts vss byFirst isDirty)).
Proof.
  intros H (Hv & Hsz). apply wp_code. eapply wp_mono; [exact (insert_n_rows_ok env _ _ _ _ _ _ _ byFirst isDirty (rf_rep _ _ _ H) Hv Hsz)|].
  intros x st [Hp|(-> & E & Hrep)]; [by eapply insert_refines|]. eexists. split; [split; [done|by right; left]|].
  destruct H as [_ _ Hc]. split; cbn [v_rows v_next v_cur]; [done|done|]. by rewrite E.
Qed.

Lemma replace_step r s v stRow vs isDirty : Refines r s v -> legal v (OReplace stRow vs isDirty) ->
  wp (exec (OReplace stRow vs isDirty)) (r, s) (step_post v (OReplace stRow vs isDirty)).
Proof.
  intros [Hrep Hn Hc] (Hv & [i Ei] & Hsz). destruct v as [rows next cur]. cbn [v_rows v_next v_cur] in *. subst cur. apply wp_code.
  destruct (stands_row _ _ _ Hc) as [(x & Hx & Eo)|[-> Eo]].
  - pose proof (lookup_lt_Some _ _ _ Hx). rewrite (row_bytes_flag (k_fields k) vs 0 (new_flag isDirty x) : length (row_bytes (k_cols k) _) = length (row_bytes (k_cols k) _)) in Hsz.
    eapply wp_mono; [exact (replace_cur_row_ok env _ _ _ _ _ _ _ _ _ isDirty Hrep Hx Eo Hv Hsz)|]. intros y st (Er & Hp). rewrite <-Er in Hc.
    destruct Hp as [(-> & H1 & Eo1)|[(-> & H1 & Eo1)|(-> & H1 & Eo1 & Hm)]]; eexists; (split; [exists i; split; [done|left; exists x; split; [done|]]|]).
    + by left.
    + split; cbn [v_rows v_next v_cur]; [done|split; [by rewrite length_insert; lia|done]|by apply (stands_insert _ i)].
    + by right; left.
    + split; cbn [v_rows v_next v_cur]; [done|by rewrite Eo1|done].
    + by right; right.
    + split; cbn [v_rows v_next v_cur]; [done|done|done].
  - eexists _, _. split; [exact (replace_cur_row_end env _ _ _ _ _ stRow isDirty Hrep Eo)|].
    eexists. split; [exists (length rows); split; [done|by right]|]. by split.
Qed.

Lemma row_delete_step r s v stRow : Refines r s v -> legal v (ODelete stRow) -> wp (exec (ODelete stRow)) (r, s) (step_post v (ODelete stRow)).
Proof.
  intros [Hrep Hn Hc] [Ht [i Ei]]. destruct v as [rows next cur]. cbn [v_rows v_next v_cur] in *. subst cur. apply wp_code.
  destruct (stands_row _ _ _ Hc) as [(x & Hx & Eo)|[-> Eo]].
  - pose proof (lookup_lt_Some _ _ _ Hx). eapply wp_mono; [exact (delete_cur_row_ok _ _ _ _ _ _ _ _ Hrep Hx Eo Ht)|]. intros y st (-> & H1 & Eo1 & Er1).
    assert (Hd : stands_at (delete i rows) (place k rows i) (Some i)).
    { split; [rewrite length_delete by eauto; lia|]. unfold place. rewrite delete_take_drop, take_app_le, take_take by (rewrite length_take; lia). by rewrite Nat.min_id. }
    eexists. split; [exists i; split; [done|by left]|]. split; cbn [v_rows v_next v_cur]; [done|by rewrite Eo1|by rewrite Er1].
  - eexists _, _. split; [exact (delete_cur_row_end _ _ _ _ _ stRow Hrep Eo)|].
    eexists. split; [exists (length rows); split; [done|by right]|]. by split.
Qed.

Lemma clear_step r s v : Refines r s v -> wp (exec OClear) (r, s) (step_post v OClear).
Proof.
  intros [Hrep _ _]. apply wp_code. eapply wp_mono; [exact (delete_all_rows_ok _ _ _ _ _ Hrep)|]. intros x st (-> & H1 & Eo & Er).
  eexists. split; [done|]. split; cbn [v_rows v_next v_cur]; [done|by rewrite Eo|by rewrite Er].
Qed.

Lemma flag_step r s v f : Refines r s v -> legal v (OFlag f) -> wp (exec (OFlag f)) (r, s) (step_post v (OFlag f)).
Proof.
  intros [Hrep Hn Hc] [Hf [i Ei]]. destruct v as [rows next cur]. cbn [v_rows v_next v_cur] in *. subst cur. apply wp_code.
  destruct (stands_row _ _ _ Hc) as [(x & Hx & Eo)|[-> Eo]].
  - eapply wp_mono; [exact (set_cur_row_flag_ok _ _ _ _ _ _ _ _ Hrep Hx Eo Hf)|]. intros y [r1 s1]. cbn [fst snd]. intros (-> & -> & H1).
    eexists. split; [exists i; split; [done|left; by exists x]|].
    assert (Hany : forall off o, stands_at rows off o -> stands_at (<[i := mkRowV f (r_vals x)]> rows) off o).
    { intros off [j|]; [|done]. intros [Hj ->]. split; [by rewrite length_insert|].
      destruct (decide (j <= i)%nat); [unfold place; by rewrite take_insert_ge|].
      unfold place. rewrite take_insert_lt by lia. rewrite (replaced_size k (take j rows) i x); [|rewrite lookup_take_lt by lia; done].
      rewrite !row_bytes_length. cbn [r_vals]. lia. }
    split; cbn [v_rows v_next v_cur fst snd]; [done|by apply Hany|by apply Hany].
  - eexists _, _. split; [exact (set_cur_row_flag_end _ _ _ _ _ f Hrep Eo)|].
    eexists. split; [exists (length rows); split; [done|by right]|]. by split.
Qed.

Lemma rewind_step r s v : Refines r s v -> wp (exec ORewind) (r, s) (step_post v ORewind).
Proof.
  intros [Hrep _ _]. apply wp_code. unfold rewind. apply wp_bind, wp_get, wp_upd, wp_upd_last, wp_ret. eexists. split; [done|].
  pose proof (rep_start _ _ _ _ _ Hrep) as Hs. rewrite <-(place_0 k (v_rows v)) in Hs.
  split; cbn [v_rows v_next v_cur fst snd]; [by apply (chunk_rep_ext r)|split; [lia|exact Hs]|split; [lia|exact Hs]].
Qed.

Lemma strip_step r s v : Refines r s v -> wp (exec OStrip) (r, s) (step_post v OStrip).
Proof.
  intros [Hrep Hn Hc]. apply wp_code. eapply wp_mono; [exact (strip_mem_ok _ _ _ _ _ Hrep)|]. intros x st (Hx & H1 & Eo & Er).
  exists v. split; [split; [by destruct Hx as [-> | ->]; [left|right]|done]|]. split; [done|by rewrite Eo|by rewrite Er].
Qed.

Lemma append_step r s v p news : Refines r s v -> legal v (OAppend p news) -> wp (exec (OAppend p news)) (r, s) (step_post v (OAppend p news)).
Proof.
  intros [Hrep Hn Hc] (Hp & Hb & Hr & Hsz). apply wp_code. eapply wp_mono; [exact (append_n_records_ok _ _ _ _ _ p news Hrep Hp Hb Hr Hsz)|].
  intros x st (Eo & Er & [[-> H1]|[-> H1]]); eexists; (split; [by (left + right)|]);
    (split; cbn [v_rows v_next v_cur]; [done|rewrite Eo|rewrite Er]); by try apply stands_app.
Qed.

(** Another object reads the same rows from the chunk. *)
Lemma attach_step r s v junk : Refines r s v -> legal v (OAttach junk) -> wp (exec (OAttach junk)) (r, s) (step_post v (OAttach junk)).
Proof.
  intros [Hrep _ _] Hi. destruct (rep_own _ _ _ _ _ Hrep) as (spare & Hh & HF & _). apply wp_code, wp_get, wp_upd.
  eapply wp_mono; [exact (raw_Attach_ok env junk s F _ k _ spare Hh HF Hi (rep_rows _ _ _ _ _ Hrep))|].
  intros x [r1 s1]. cbn [fst snd]. intros (-> & -> & H1 & Eo & Er & _). eexists. split; [done|].
  split; cbn [v_rows v_next v_cur fst snd]; [done|split; [lia|done]|split; [lia|done]].
Qed.

Lemma exec_ok r s v o : Refines r s v -> legal v o -> wp (exec o) (r, s) (step_post v o).
Proof.
  intros H Hl. destruct o; [by apply decode_step|by apply skip_step|by apply row_insert_step|by apply insert_n_step|by apply replace_step|by apply row_delete_step
    |by apply clear_step|by apply flag_step|by apply rewind_step|by apply strip_step|by apply append_step|by apply attach_step].
Qed.

(** ** Programs on a key *)

Fixpoint run (os : list op) : RD (list answer) :=
  match os with [] => mret [] | o :: os => a ← exec o; rest ← run os; mret (a :: rest) end.
Fixpoint spec_run (v : view) (os : list op) (l : list answer) (v' : view) : Prop :=
  match os, l with
  | [], [] => v' = v
  | o :: os, a :: l => exists v1, spec_step v o a v1 /\ spec_run v1 os l v'
  | _, _ => False
  end.
(** Each operation is legal after all the results the ones before it can have. *)
Fixpoint legal_run (v : view) (os : list op) : Prop :=
  match os with [] => True | o :: os => legal v o /\ forall a v', spec_step v o a v' -> legal_run v' os end.

(** C4: the chunk refines a list of rows with a place in it, for any table and over any
    allocator that keeps its promises: every program of reads, insertions at either end,
    replacements, deletions, appends and changes of flags, also when it goes on with
    another object attached to the chunk, ends without a fault, with the answers and the
    rows of the same program on the list. A failing operation leaves the rows as they
    were, but for an insertion at the front, whose rows may stay behind the others. *)
Theorem raw_run_refines os r s v : Refines r s v -> legal_run v os ->
  exists l v' r' s', run os (r, s) = Ok (l, (r', s')) /\ spec_run v os l v' /\ Refines r' s' v'.
Proof.
  revert r s v; induction os as [|o os IH]; intros r s v H Hl; [by exists [], v, r, s|].
  destruct Hl as [Ho Hl]. destruct (exec_ok r s v o H Ho) as (a & [r1 s1] & E & v1 & H1 & HR1). cbn [fst snd] in HR1.
  destruct (IH r1 s1 v1 HR1 (Hl a v1 H1)) as (l & v' & r' & s' & E' & H2 & HR'). exists (a :: l), v', r', s'.
  cbn [run]. rewrite (bind_ok _ _ _ _ _ E), (bind_ok _ _ _ _ _ E'). split; [done|]. split; [by exists v1|done].
Qed.

(** ** Written and read back *)

Definition read_answer (x : row) : answer := (0, Some (r_flag x, norms (k_cols k) (r_vals x))).
Fixpoint read_rows (n : nat) (stRow : DataRow) : RD (list answer) :=
  match n with 0%nat => mret [] | Datatypes.S n => a ← exec (ODecode stRow false); l ← read_rows n stRow; mret (a :: l) end.

Lemma read_rows_ok n stRow rows : fits stRow -> forall r s i cur, Refines r s (mkView rows (Some i) cur) -> (i + n = length rows)%nat ->
  wp (read_rows n stRow) (r, s) (fun l _ => l = read_answer <$> drop i rows).
Proof.
  intros Hfit. induction n as [|n IH]; intros r s i cur H Hi; [apply wp_ret; rewrite drop_ge by lia; done|].
  cbn [read_rows]. apply wp_bind. eapply wp_mono; [apply (decode_step _ _ _ stRow false H); split; [done|exists i; cbn; split; [done|lia]]|].
  intros a [r1 s1] (v' & (j & x & [= <-] & Hx & -> & ->) & H1). cbn [v_rows fst snd] in *.
  apply wp_bind. eapply wp_mono; [apply (IH r1 s1 (Datatypes.S i) _ H1); lia|]. intros l st ->. apply wp_ret.
  by rewrite (drop_S rows x i Hx).
Qed.

(** A chunk is made, rows are written to it, another object attaches and reads. *)
Definition write_then_read (key : list Z) (size : Z) (stRows : list DataRow) (isDirty : bool) (reader : RawData) (stRow : DataRow) : RD (Z * list answer) :=
  c ← RawData_Init env key size;
  if negb (c =? 0) then mret (c, []) else
  c ← insert_n_rows env stRows false isDirty;
  if negb (c =? 0) then mret (c, []) else
  h ← get _handle; upd (fun _ => reader);;
  c ← RawData_Attach env h;
  if negb (c =? 0) then mret (c, []) else
  l ← read_rows (length stRows) stRow; mret (0, l).

End Spec.

Section RoundTrip.
Context {S : Type} `{!Mallocator S, !MallocatorLaws S}.

(** C9: what is written into a new chunk is what another object reads from it, whatever
    the object held before: either the allocator has no room, or every row comes back in
    its place with the flag of the insertion and its values, a word in the width of its
    column and bytes as they are. *)
Theorem rows_round_trip env (r : RawData) (s : S) A key more size t l stRows vss isDirty reader stRow :
  let idx := if env.(is_expanding) then Z.rem (env.(cur_table_idx) + 1) 2 else Z.rem env.(cur_table_idx) 2 in
  let k := new_info env idx key t l in
  heap s A -> 0 <= env.(cur_table_idx) -> get_table_def_by_idx env idx = Some t -> key_fits t.(keyFormat) key -> bytes_ok key ->
  scan t (fields_from (u8 (t.(keyFields) - 1)) t) = Ok l -> 0 <= size -> size + 16 + Z.of_nat (length key) < 2 ^ 32 ->
  rows_val A k stRows vss -> fits_32 k (new_rows (dirty_insert isDirty) vss) -> fits k stRow ->
  wp (write_then_read env k (key ++ more) size stRows isDirty reader stRow) (r, s) (fun a _ =>
    a = (EC_NO_MEM, []) \/ a = (0, (fun vs => (0, Some (dirty_insert isDirty, norms l.*2 vs))) <$> vss)).
Proof.
  intros idx k HA Hcur Ht Hks Hkey Hscan Hs0 Hs Hv Hsz Hfit.
  assert (Hidx : idx = 0 \/ idx = 1) by (unfold idx; destruct (is_expanding env); rewrite Z.rem_mod_nonneg by lia; zdm).
  pose proof (new_info_ok env idx key t l Hidx Ht Hks Hscan) as Hi. fold k in Hi.
  unfold write_then_read. apply wp_bind. eapply wp_mono; [exact (raw_Init_ok env r s A key more size t l HA Hcur Ht Hks Hkey Hscan Hs0 Hs)|].
  intros x [r1 s1]. cbn [fst snd]. fold idx k. intros [(-> & _ & _)|(-> & H1 & Eo & Er)]; [apply wp_ret; by left|]. cbn [Z.eqb negb].
  apply wp_bind. eapply wp_mono; [exact (insert_n_rows_ok env r1 s1 A k [] stRows vss false isDirty H1 Hv Hsz)|].
  intros x [r2 s2]. cbn [app]. intros [(_ & [(-> & H2 & _)|[(-> & _)|(_ & Hf & _)]])|(-> & _)]; [|apply wp_ret; by left|done|apply wp_ret; by left].
  cbn [front_or_end app fst snd Z.eqb negb] in *. apply wp_get, wp_upd.
  destruct (rep_own _ _ _ _ _ H2) as (spare & Hh & HF & _).
  apply wp_bind. eapply wp_mono; [exact (raw_Attach_ok env reader s2 A _ k _ spare Hh HF Hi (rep_rows _ _ _ _ _ H2))|].
  intros x [r3 s3]. cbn [fst snd]. intros (-> & -> & H3 & Eo3 & Er3 & _). cbn [Z.eqb negb].
  assert (HR : Refines k A r3 s2 (mkView (new_rows (dirty_insert isDirty) vss) (Some 0%nat) (Some 0%nat))) by (split; [done|split; [lia|done]|split; [lia|done]]).
  apply wp_bind. eapply wp_mono; [apply (read_rows_ok env k A _ stRow _ Hfit _ _ _ _ HR)|].
  { unfold new_rows. rewrite length_fmap, (Forall2_length _ _ _ Hv). lia. }
  intros a st ->. apply wp_ret. right. f_equal. rewrite drop_0. unfold new_rows. by rewrite <-list_fmap_compose.
Qed.

End RoundTrip.

(** ** Chunks that hold anything *)

Section AnyBytes.
Context {S : Type} `{!Mallocator S, !MallocatorLaws S} (F : blocks) (bs : list Z) (s : S) (r0 : RawData).
Implicit Types (r : RawData).
#[local] Abbreviation RD := (ST (RawData * S)).

(** The object stands anywhere in its chunk, or behind it. *)
Definition roams r : Prop :=
  own r s F bs /\ m_pchContent r = m_pchContent r0 /\ _size r = _size r0 /\ is_u 32 (m_uiOffset r) /\
  m_uchKeyIdx r = m_uchKeyIdx r0 /\ m_uiDataSize r = m_uiDataSize r0 /\ m_uiRowCnt r = m_uiRowCnt r0.

Lemma roams_offset r o : roams r -> is_u 32 o -> roams (set_uiOffset o r).
Proof. intros (H & H2) Ho. split; [exact H|]. revert H2. unfold roams. cbn. tauto. Qed.
Lemma u32_range v : is_u 32 (u32 v).
Proof. unfold is_u, u32, wrap. apply Z.mod_pos_bound. lia. Qed.

Lemma GET_VALUE_any n r : roams r ->
  GET_VALUE n (r, s) = Ok (None, (r, s)) \/
  exists v, GET_VALUE n (r, s) = Ok (Some v, (set_uiOffset (u32 (m_uiOffset r + Z.of_nat n)) r, s)) /\ m_uiOffset r + Z.of_nat n <= _size r.
Proof.
  intros ((H & HF & Ec & Es) & _ & _ & Ho & _). unfold GET_VALUE. rewrite (gets_bind (fun st : RawData * S => m_uiOffset st.1)).
  rewrite (gets_bind (fun st : RawData * S => _size st.1)). cbn [fst]. destruct (Z.ltb_spec (_size r) (m_uiOffset r + Z.of_nat n)) as [|Hle]; [by left|].
  right. rewrite (gets_bind (fun st : RawData * S => m_pchContent st.1)). cbn [fst]. destruct Ho as [Ho _].
  pose proof (mread_law n s _ _ _ (Z.to_nat (m_uiOffset r)) H (lookup_insert_eq _ _ _) ltac:(lia)) as R. rewrite Z2Nat.id in R by done. rewrite <-Ec in R.
  eexists. split; [|exact Hle]. erewrite bind_ok; [|unfold on_mem; cbn [snd]; rewrite R; reflexivity]. reflexivity.
Qed.
Lemma SKIP_SIZE_any n r : roams r ->
  (SKIP_SIZE n (r, s) = Ok (None, (r, s)) /\ _size r < u32 (m_uiOffset r + n)) \/
  (SKIP_SIZE n (r, s) = Ok (Some tt, (set_uiOffset (u32 (m_uiOffset r + n)) r, s)) /\ u32 (m_uiOffset r + n) <= _size r).
Proof.
  intros _. unfold SKIP_SIZE. rewrite (gets_bind (fun st : RawData * S => m_uiOffset st.1)), (gets_bind (fun st : RawData * S => _size st.1)). cbn [fst].
  destruct (Z.ltb_spec (_size r) (u32 (m_uiOffset r + n))); [by left|by right].
Qed.

(** A decoded field points to bytes of the chunk, as many as it says; the last one that
    is put in before the decoding stops may say more, and a length may be negative. *)
Definition inside (ok : bool) (x : cell) : Prop :=
  exists a, bin_ptr x = PSeg a /\ m_pchContent r0 <= a <= m_pchContent r0 + _size r0 /\ (ok = true -> a + bin_len x <= m_pchContent r0 + _size r0).
(** A field of the type of [c] is [x'] where [x] was before: a word keeps the pointer. *)
Definition decoded (c : column) (ok : bool) (x x' : cell) : Prop :=
  match col_width c with Some _ => bin_ptr x' = bin_ptr x | None => inside ok x' end.
(** The bytes a field takes in a row. *)
Definition width (c : column) (x : cell) : Z :=
  match col_width c with Some n => Z.of_nat n | None => 4 + bin_len x end.

Lemma read_word_any n f r : roams r ->
  read_word (GET_VALUE n) f (r, s) = Ok ((None, false), (r, s)) \/
  exists w, read_word (GET_VALUE n) f (r, s) = Ok ((Some (set_word w), true), (set_uiOffset (u32 (m_uiOffset r + Z.of_nat n)) r, s)).
Proof.
  intros H. unfold read_word. destruct (GET_VALUE_any n r H) as [E|(v & E & _)]; rewrite (bind_ok _ _ _ _ _ E); [by left|right; by eexists].
Qed.

Lemma decode_cell_any ty sz r : roams r -> _size r0 < 2 ^ 31 ->
  exists g ok r', decode_cell ty sz (r, s) = Ok ((g, ok), (r', s)) /\ roams r' /\
    match g with
    | Some f => forall x, decoded (ty, sz) ok x (f x) /\ (ok = true -> m_uiOffset r' = u32 (m_uiOffset r + width (ty, sz) (f x)))
    | None => ok = false
    end.
Proof.
  intros H Hsz. unfold decode_cell, decoded, width, col_width. cbn [fst snd]. switch_on ty sz.
  all: try (match goal with |- context [read_word (GET_VALUE ?n) ?f] => destruct (read_word_any n f r H) as [E|(w & E)] end;
    eexists _, _, _; (split; [exact E|]); (split; [first [done | apply roams_offset; [done|apply u32_range]]|done])).
  destruct (GET_VALUE_any 4 r H) as [E|(v & E & Hle)]; rewrite (bind_ok _ _ _ _ _ E); [by exists None, false, r|].
  set (r1 := set_uiOffset _ r). assert (Hr1 : roams r1) by (apply roams_offset; [done|apply u32_range]).
  rewrite (gets_bind (fun st : RawData * S => m_pchContent st.1)), (gets_bind (fun st : RawData * S => m_uiOffset st.1)). cbn [fst].
  pose proof H as (_ & _ & Esz & [Ho _] & _). pose proof Hr1 as (_ & Ec1 & Es1 & [Ho1 _] & _).
  assert (Eo : m_uiOffset r1 = m_uiOffset r + 4). { unfold r1. cbn. apply u32_small. change (Z.of_nat 4) with 4 in Hle. lia. }
  change (Z.of_nat 4) with 4 in Hle. assert (Hs : is_s 32 (s32 v)) by (apply (swrap_range 32); lia). pose proof Hs as Hs'. unfold is_s in Hs'. cbn in Hs'.
  destruct (SKIP_SIZE_any (s32 v) r1 Hr1) as [[E1 _]|[E1 Hl]]; rewrite (bind_ok _ _ _ _ _ E1); eexists _, _, _; (split; [reflexivity|]).
  - split; [done|]. intros x. split; [|done]. unfold inside. eexists. split; [reflexivity|]. rewrite Ec1. split; [lia|done].
  - split; [apply roams_offset; [done|apply u32_range]|]. intros x. rewrite bin_len_set by done. split.
    + unfold inside. eexists. split; [reflexivity|]. rewrite Ec1, bin_len_set by done. split; [lia|]. intros _.
      destruct (Z.ltb_spec (m_uiOffset r1 + s32 v) 0); [lia|]. rewrite u32_small in Hl by lia. lia.
    + intros _. cbn [m_uiOffset set_uiOffset]. by rewrite Eo, Z.add_assoc.
Qed.

(** ** The bytes of a row that is filled *)

Definition places (l : list (Z * column)) : list nat := (fun jc => Z.to_nat jc.1) <$> l.
Definition field_width (row : DataRow) (jc : Z * column) : Z := width jc.2 (default (mkCell 0 PNull) (cells row !! Z.to_nat jc.1)).
Definition widths (row : DataRow) (l : list (Z * column)) : Z := foldr (fun jc n => field_width row jc + n) 0 l.

(** Fields that are not in [l] keep their cells, and those in it are [decoded]. *)
Definition filled (l : list (Z * column)) (ok : bool) (row row' : DataRow) : Prop :=
  length (cells row') = length (cells row) /\
  forall i x', cells row' !! i = Some x' -> exists x, cells row !! i = Some x /\
    (x' = x \/ exists jc, jc ∈ l /\ Z.to_nat jc.1 = i /\ decoded jc.2 ok x x').
(** After a success all of them are, and the object has gone over their bytes. *)
Definition complete (l : list (Z * column)) (off : Z) (row' : DataRow) (off' : Z) : Prop :=
  (forall jc x', jc ∈ l -> col_width jc.2 = None -> cells row' !! Z.to_nat jc.1 = Some x' -> inside true x') /\
  (Forall (fun i => (i < length (cells row'))%nat) (places l) -> off' = u32 (off + widths row' l)).

Lemma decoded_any c ok x x' : decoded c true x x' -> decoded c ok x x'.
Proof. unfold decoded. destruct (col_width c); [done|]. intros (a & ? & ? & ?). exists a. auto. Qed.
Lemma filled_same l ok row : filled l ok row row.
Proof. split; [done|]. intros i x Hx. exists x. split; [done|by left]. Qed.
Lemma row_filled_upd l ok row j c f : (forall x, decoded c ok x (f x)) -> filled ((j, c) :: l) ok row (upd_cell row j f).
Proof.
  intros H. split; [apply length_alter|]. intros i x'. unfold upd_cell. cbn [cells]. destruct (decide (i = Z.to_nat j)) as [->|Hne].
  - rewrite list_lookup_alter_eq. intros (x & Hx & ->)%fmap_Some. exists x. split; [done|]. right. exists (j, c). split; [by left|done].
  - rewrite list_lookup_alter_ne by done. intros Hx. exists x'. split; [done|by left].
Qed.
Lemma filled_keep l ok row row' i : filled l ok row row' -> i ∉ places l -> cells row' !! i = cells row !! i.
Proof.
  intros [Hl H] Hi. destruct (cells row' !! i) as [x'|] eqn:E; [|apply lookup_ge_None in E; symmetry; apply lookup_ge_None; lia].
  destruct (H i x' E) as (x & Hx & [->|(jc & Hjc & <- & _)]); [done|]. destruct Hi. by apply (list_elem_of_fmap_2 (fun jc => Z.to_nat jc.1)).
Qed.
Lemma filled_cons l ok row row' j c f : Z.to_nat j ∉ places l -> (forall x, decoded c true x (f x)) -> filled l ok (upd_cell row j f) row' ->
  filled ((j, c) :: l) ok row row'.
Proof.
  intros Hj Hf H. pose proof (filled_keep _ _ _ _ _ H Hj) as Ej. unfold upd_cell in *. cbn [cells] in Ej.
  destruct H as [Hl H]. split; [by rewrite Hl; apply length_alter|]. intros i x' Hx'. destruct (decide (i = Z.to_nat j)) as [->|Hne].
  - rewrite Hx', list_lookup_alter_eq in Ej. symmetry in Ej. apply fmap_Some in Ej as (x & Hx & ->). exists x. split; [done|]. right.
    exists (j, c). split; [by left|]. split; [done|]. by apply decoded_any.
  - destruct (H i x' Hx') as (x & Hx & Hc). cbn [cells] in Hx. rewrite list_lookup_alter_ne in Hx by done. exists x. split; [done|].
    destruct Hc as [->|(jc & Hjc & ? & ?)]; [by left|right]. exists jc. split; [by right|done].
Qed.
Lemma complete_cons l row row' j c f off off1 off' : Z.to_nat j ∉ places l -> (forall x, decoded c true x (f x) /\ off1 = u32 (off + width c (f x))) ->
  filled l true (upd_cell row j f) row' -> complete l off1 row' off' -> complete ((j, c) :: l) off row' off'.
Proof.
  intros Hj Hf H [Hin Hw]. pose proof (filled_keep _ _ _ _ _ H Hj) as Ej. unfold upd_cell in Ej. cbn [cells] in Ej. rewrite list_lookup_alter_eq in Ej.
  split.
  - intros jc x' [->|Hjc]%elem_of_cons Hc; [|by apply Hin]. cbn [fst snd] in *. rewrite Ej. intros (x & Hx & ->)%fmap_Some.
    destruct (Hf x) as [Hd _]. unfold decoded in Hd. by rewrite Hc in Hd.
  - intros [Hjl Hl]%Forall_cons. cbn [fst] in Hjl. rewrite (Hw Hl). cbn [widths foldr]. fold (widths row' l). unfold field_width at 1. cbn [fst snd].
    apply lookup_lt_is_Some_2 in Hjl as [x' Hx']. rewrite Hx' in Ej |- *. symmetry in Ej. apply fmap_Some in Ej as (x & Hx & ->). cbn [from_option id].
    destruct (Hf x) as [_ ->]. rewrite u32_add. f_equal. lia.
Qed.

Lemma decode_fields_any t js : _size r0 < 2 ^ 31 -> forall l row r, scan t js = Ok l -> NoDup (places l) -> table_definition row = t -> roams r ->
  exists row' ok r', decode_fields row js (r, s) = Ok ((row', ok), (r', s)) /\ roams r' /\ table_definition row' = t /\
    filled l ok row row' /\ (ok = true -> complete l (m_uiOffset r) row' (m_uiOffset r')).
Proof.
  intros Hsz. induction js as [|j js IH]; intros l row r Hl Hnd Ht H.
  { injection Hl as <-. exists row, true, r. split_and!; [done..|apply filled_same|]. intros _. split; [by intros ? ? ?%elem_of_nil|].
    intros _. cbn. rewrite Z.add_0_r. symmetry. apply u32_small. by destruct H as (_ & _ & _ & ? & _). }
  cbn [decode_fields]. rewrite Ht. apply scan_cons in Hl as (skip & Es & Hl). rewrite (bind_ok _ _ _ skip (r, s)) by (unfold lift; by rewrite Es).
  destruct skip; [by eapply IH|]. destruct Hl as (ty & sz & l' & Ety & Esz & Hl' & ->). apply NoDup_cons in Hnd as [Hj Hnd]. cbn [fst] in Hj.
  rewrite (gets_bind (fun st : RawData * S => m_iLAId st.1)). cbn [fst].
  set (r1 := if j =? m_iLAId r then set_uiLAOffset (m_uiOffset r) r else r).
  assert (Eo : m_uiOffset r1 = m_uiOffset r) by (unfold r1; by destruct (_ =? _)).
  rewrite (bind_ok _ _ _ tt (r1, s)) by (unfold r1; by destruct (_ =? _)).
  rewrite (bind_ok _ _ _ ty (r1, s)) by (unfold lift; by rewrite Ety). rewrite (bind_ok _ _ _ sz (r1, s)) by (unfold lift; by rewrite Esz).
  assert (H1 : roams r1) by (unfold r1; by destruct (_ =? _)).
  destruct (decode_cell_any ty sz r1 H1 Hsz) as (g & ok & r2 & E & H2 & Hg). rewrite (bind_ok _ _ _ _ _ E), Eo in *. cbn [fst snd].
  destruct g as [f|]; [|subst ok; exists row, false, r2; split_and!; [done..|apply filled_same|done]].
  destruct ok.
  - destruct (IH l' (upd_cell row j f) r2 Hl' Hnd Ht H2) as (row' & ok & r' & E' & H' & Ht' & Hfi & Hco). exists row', ok, r'. rewrite E'.
    split_and!; [done..| |].
    + eapply filled_cons; [done| |exact Hfi]. intros x. by apply Hg.
    + intros ->. eapply complete_cons; [done| |exact Hfi|by apply Hco]. intros x. destruct (Hg x) as [? Ho]. split; [done|by apply Ho].
  - exists (upd_cell row j f), false, r2. split_and!; [done..| |done]. apply row_filled_upd. intros x. by apply Hg.
Qed.

(** A table answers for its own fields only, which have numbers. *)
Lemma scan_pos t js : forall l, scan t js = Ok l -> Forall (fun j => 0 <= j) js.
Proof.
  induction js as [|j js IH]; intros l Hl; [done|]. apply scan_cons in Hl as (skip & Es & Hl). apply Forall_cons. split.
  - unfold is_discard, field_flags, field_at in Es. destruct (Z.ltb_spec j 0); [done|lia].
  - destruct skip; [by eapply IH|]. destruct Hl as (ty & sz & l' & _ & _ & Hl & _). by eapply IH.
Qed.
Lemma scan_places t keyIdx l : scan t (fields_from keyIdx t) = Ok l -> NoDup (places l).
Proof.
  intros H. unfold places. change (NoDup ((Z.to_nat ∘ fst) <$> l)). rewrite list_fmap_compose. apply NoDup_fmap_2_strong; [|by eapply scan_NoDup].
  assert (Hp : forall j, j ∈ l.*1 -> 0 <= j).
  { intros j Hj. pose proof (scan_pos _ _ _ H) as Hp. rewrite Forall_forall in Hp. apply Hp.
    exact (elem_of_submseteq _ _ j Hj (sublist_submseteq _ _ (scan_fst _ _ _ H))). }
  intros i j Hi%Hp Hj%Hp ?. lia.
Qed.

(** [decode_row] on any bytes; a successful one has read a flag before the fields. *)
Lemma decode_row_any row f0 flags r t l : roams r -> _size r0 < 2 ^ 31 -> table_definition row = t -> scan t (fields_from (m_uchKeyIdx r0) t) = Ok l ->
  exists ok row' f r', decode_row row f0 flags (r, s) = Ok (((if (ok : bool) then 0 else -100), row', f), (r', s)) /\ own r' s F bs /\
    table_definition row' = t /\ filled l ok row row' /\
    (ok = true -> exists off, complete l (u32 (m_uiOffset r + 1)) row' off /\ m_uiOffset r' = if negb (Z.land flags PRE_DECODE_ROW =? 0) then m_uiOffset r else off).
Proof.
  intros H Hsz Ht Hscan. destruct (own_valid _ _ _ _ (proj1 H)) as [E1 E2]. pose proof H as (_ & _ & _ & _ & Ek & _). unfold decode_row.
  rewrite (gets_bind (fun st : RawData * S => _handle st.1)), (gets_bind (fun st : RawData * S => m_pchContent st.1)). cbn [fst]. rewrite E1, E2. cbn [orb].
  rewrite (gets_bind (fun st : RawData * S => m_uiOffset st.1)), (gets_bind (fun st : RawData * S => m_uiRowOffset st.1)).
  do 2 rewrite (bind_ok (upd _) _ _ _ _ eq_refl). cbn [fst snd]. set (r1 := set_uiRowOffset _ _).
  assert (H1 : roams r1) by exact H.
  assert (Hp : forall r2, roams r2 -> exists r3, (if negb (Z.land flags PRE_DECODE_ROW =? 0)
      then upd (S := S) (set_uiOffset (m_uiOffset r));; upd (set_uiRowOffset (m_uiRowOffset r)) else mret tt) (r2, s) = Ok (tt, (r3, s)) /\ own r3 s F bs /\
      m_uiOffset r3 = if negb (Z.land flags PRE_DECODE_ROW =? 0) then m_uiOffset r else m_uiOffset r2).
  { intros r2 (H2 & _). destruct (negb _); [|by exists r2]. eexists. split; [reflexivity|]. split; [exact H2|done]. }
  destruct (GET_VALUE_any 1 r1 H1) as [E|(v & E & _)]; rewrite (bind_ok _ _ _ _ _ E);
    rewrite (gets_bind (fun st : RawData * S => m_uchKeyIdx st.1)); cbn [fst].
  - destruct (Hp r1 H1) as (r3 & E3 & H3 & _). exists false, row, f0, r3. split; [rewrite (bind_ok _ _ _ _ _ (ret_ok _ _)), (bind_ok _ _ _ _ _ E3); done|].
    split_and!; [done..|apply filled_same|done].
  - set (r2 := set_uiOffset _ r1). assert (H2 : roams r2) by (apply roams_offset; [done|apply u32_range]). cbn [m_uchKeyIdx r2 r1 set_uiOffset set_uiRowOffset set_uiLAOffset]. rewrite Ek, Ht.
    destruct (decode_fields_any t (fields_from (m_uchKeyIdx r0) t) Hsz l row r2 Hscan (scan_places _ _ _ Hscan) Ht H2) as (row' & ok & r' & E' & H' & Ht' & Hfi & Hco).
    destruct (Hp r' H') as (r3 & E3 & H3 & Eo). exists ok, row', v, r3.
    split; [rewrite (bind_ok _ _ _ _ _ (bind_ok _ _ _ _ _ E')), (bind_ok _ _ _ _ _ E3); done|].
    split_and!; [done..|]. intros Hok. exists (m_uiOffset r'). split; [by apply Hco|done].
Qed.

Lemma widths_size t row js : table_definition row = t -> forall l n, scan t js = Ok l -> Forall (fun i => (i < length (cells row))%nat) (places l) ->
  row_size_from row js (u32 n) = Ok (u32 (n + widths row l)).
Proof.
  intros Ht. induction js as [|j js IH]; intros l n Hl Hc; [injection Hl as <-; cbn; by rewrite Z.add_0_r|].
  cbn [row_size_from]. rewrite Ht. apply scan_cons in Hl as (skip & -> & Hl). cbn [obind]. destruct skip; [by apply IH|].
  destruct Hl as (ty & sz & l' & -> & -> & Hl' & ->). cbn [obind]. apply Forall_cons in Hc as [Hj Hc]. cbn [fst] in Hj.
  cbn [widths foldr]. fold (widths row l'). unfold field_width, width, col_width, cell_at. cbn [fst snd].
  apply lookup_lt_is_Some_2 in Hj as [x ->]. cbn [from_option id obind]. 
  switch_on ty sz; rewrite !u32_add, (IH l' _ Hl' Hc), <-?Z.add_assoc, ?u32_add; do 2 f_equal; lia.
Qed.
End AnyBytes.

(** C12: decoding is safe on any bytes: whatever the chunk holds and wherever in it the
    object stands, [decode_row] ends without an access outside the chunk, answers 0 or
    -100 and writes nothing to it. It changes the cells of stored columns only; a word
    leaves the pointer of its cell, and every pointer it puts into a cell points into the
    chunk. When it answers 0, every column of bytes has such a pointer, and the bytes it
    counts are inside too. *)
Theorem decode_row_safe {S : Type} `{!Mallocator S, !MallocatorLaws S} (F : blocks) (bs : list Z) (s : S) (r : RawData) row f0 flags t l :
  own r s F bs -> is_u 32 (m_uiOffset r) -> _size r < 2 ^ 31 -> table_definition row = t -> scan t (fields_from (m_uchKeyIdx r) t) = Ok l ->
  exists x row' f r', decode_row row f0 flags (r, s) = Ok ((x, row', f), (r', s)) /\ (x = 0 \/ x = -100) /\
    own r' s F bs /\ length (cells row') = length (cells row) /\
    (forall i c', cells row' !! i = Some c' -> exists c, cells row !! i = Some c /\
       (c' = c \/ exists jc, jc ∈ l /\ Z.to_nat jc.1 = i /\ decoded r jc.2 (x =? 0) c c')) /\
    (x = 0 -> forall jc c', jc ∈ l -> col_width jc.2 = None -> cells row' !! Z.to_nat jc.1 = Some c' -> inside r true c').
Proof.
  intros H Ho Hsz Ht Hscan. assert (Hr : roams F bs s r r) by by split_and!.
  destruct (decode_row_any F bs s r row f0 flags r t l Hr Hsz Ht Hscan) as (ok & row' & f & r' & E & H' & _ & [Hl Hfi] & Hco).
  eexists _, row', f, r'. split; [exact E|]. split; [destruct ok; auto|]. do 2 (split; [done|]). split; [by destruct ok|].
  destruct ok; [|done]. intros _. by destruct (Hco eq_refl) as (off & [? _] & _).
Qed.

(** C16: sizes are exact on any bytes: when [decode_row] has read a row from a chunk that
    holds whatever it holds, [calc_row_size] of that row is the number of bytes the object
    has gone over, modulo [2 ^ 32] as both count, also where a length in the chunk is
    negative: the two switches over the types of the columns agree. *)
Theorem decode_row_size {S : Type} `{!Mallocator S, !MallocatorLaws S} (F : blocks) (bs : list Z) (s : S) (r : RawData) row f0 flags t l x row' f r' s' :
  own r s F bs -> is_u 32 (m_uiOffset r) -> _size r < 2 ^ 31 -> table_definition row = t -> scan t (fields_from (m_uchKeyIdx r) t) = Ok l ->
  Forall (fun jc => (Z.to_nat jc.1 < length (cells row))%nat) l -> Z.land flags PRE_DECODE_ROW = 0 ->
  decode_row row f0 flags (r, s) = Ok ((x, row', f), (r', s')) -> x = 0 ->
  calc_row_size row' (m_uchKeyIdx r) = Ok (u32 (m_uiOffset r' - m_uiOffset r)).
Proof.
  intros H Ho Hsz Ht Hscan Hc Hpre E ->. assert (Hr : roams F bs s r r) by by split_and!.
  destruct (decode_row_any F bs s r row f0 flags r t l Hr Hsz Ht Hscan) as (ok & row1 & f1 & r1 & E1 & _ & Ht1 & [Hl _] & Hco).
  rewrite E in E1. destruct ok; [|done]. injection E1 as <- <- <- <-. destruct (Hco eq_refl) as (off & [_ Hw] & ->). rewrite Hpre. cbn [Z.eqb negb].
  assert (Hc1 : Forall (fun i => (i < length (cells row'))%nat) (places l)) by (rewrite Hl; unfold places; by apply Forall_fmap).
  unfold calc_row_size. rewrite Ht1. rewrite (widths_size t row' _ Ht1 l 1 Hscan Hc1 : row_size_from row' _ 1 = _), (Hw Hc1), u32_add.
  unfold u32, wrap. f_equal. rewrite Zminus_mod_idemp_l. f_equal. lia.
Qed.

(** ** Values read on the way through a row *)

Section Times.
Context {S : Type} `{!Mallocator S, !MallocatorLaws S} (F : blocks) (k : info).
Implicit Types (r : RawData) (s : S).

(** The first four bytes of a stored value. *)
Definition low_word (c : column) (v : fval) : Z := le_value (take 4 (enc c v)).
(** The word of the column [id] in a row. *)
Fixpoint word_of (id : Z) (l : list (Z * column)) (vs : list fval) : option Z :=
  match l, vs with
  | (j, c) :: l, v :: vs => if j =? id then Some (low_word c v) else word_of id l vs
  | _, _ => None
  end.

Lemma enc_long c v : col_ok c v -> (4 <= length (enc c v))%nat.
Proof.
  unfold col_ok, enc. destruct (col_width c) as [n|] eqn:E, v as [w|bs]; try done.
  - intros _. rewrite le_bytes_length. destruct (col_width_cases _ _ E); lia.
  - intros _. rewrite length_app, le_bytes_length. lia.
Qed.
Lemma read_low r s pre c v post : own r s F (pre ++ enc c v ++ post) -> col_ok c v ->
  mread 4 (m_pchContent r + Z.of_nat (length pre)) s = Ok (low_word c v, s).
Proof.
  intros H Hc. pose proof (enc_long c v Hc) as Hl. rewrite <-(take_drop 4 (enc c v)), <-app_assoc in H.
  pose proof (own_read _ _ _ _ _ _ H) as R. by rewrite length_take_le in R by done.
Qed.

Lemma lastcmod_fields_ok t js : forall l vs r s pre post d, scan t js = Ok l -> NoDup l.*1 -> Forall2 col_ok l.*2 vs ->
  own r s F (pre ++ encs l.*2 vs ++ post) -> stands r pre ->
  lastcmod_fields t js d (r, s) = Ok ((Some 0, default d (word_of (m_iLCmodId r) l vs)), (set_uiOffset (Z.of_nat (length (pre ++ encs l.*2 vs))) r, s)).
Proof.
  induction js as [|j js IH]; intros l vs r s pre post d Hl Hnd Hv H Ho.
  { injection Hl as <-. apply Forall2_nil_inv_l in Hv as ->. rewrite app_nil_r, <-Ho. by destruct r. }
  cbn [lastcmod_fields]. apply scan_cons in Hl as (skip & Es & Hl). rewrite (bind_ok _ _ _ skip (r, s)) by (unfold lift; by rewrite Es).
  destruct skip; [by eapply IH|]. destruct Hl as (ty & sz & l' & Ety & Esz & Hl' & ->).
  apply Forall2_cons_inv_l in Hv as (v & vs' & Hc & Hv' & ->). rewrite !fmap_cons in *. cbn [fst snd encs word_of] in *. rewrite <-app_assoc in H.
  apply NoDup_cons in Hnd as [Hj Hnd].
  rewrite (gets_bind (fun st : RawData * S => m_iLCmodId st.1)). cbn [fst].
  set (d1 := if j =? m_iLCmodId r then low_word (ty, sz) v else d).
  assert (Ed : (if j =? m_iLCmodId r then p ← get m_pchContent; off ← get m_uiOffset; on_mem (mread 4 (p + off)) else mret d) (r, s) = Ok (d1, (r, s))).
  { unfold d1. destruct (j =? m_iLCmodId r); [|done]. rewrite (gets_bind (fun st : RawData * S => m_pchContent st.1)), (gets_bind (fun st : RawData * S => m_uiOffset st.1)).
    cbn [fst]. unfold on_mem. cbn [fst snd]. by rewrite Ho, (read_low _ _ _ _ _ _ H Hc). }
  rewrite (bind_ok _ _ _ _ _ Ed).
  rewrite (bind_ok _ _ _ ty (r, s)) by (unfold lift; by rewrite Ety). rewrite (bind_ok _ _ _ sz (r, s)) by (unfold lift; by rewrite Esz).
  rewrite (bind_ok _ _ _ _ _ (skip_field_ok r s F pre _ (ty, sz) v H Ho Hc)). rewrite app_assoc in H.
  rewrite (IH l' vs' (set_uiOffset (Z.of_nat (length (pre ++ enc (ty, sz) v))) r) s _ post d1 Hl' Hnd Hv' H eq_refl).
  rewrite <-app_assoc. cbn [m_iLCmodId set_uiOffset]. unfold d1. destruct (Z.eqb_spec j (m_iLCmodId r)) as [->|_]; [|done].
  assert (En : word_of (m_iLCmodId r) l' vs' = None).
  { clear -Hj. revert vs'. induction l' as [|[j c] l' IH]; intros [|v vs']; try done. cbn [word_of]. rewrite fmap_cons, not_elem_of_cons in Hj. cbn in Hj.
    rewrite (proj2 (Z.eqb_neq _ _)) by (by destruct Hj as [? _]; intros ->). apply IH. tauto. }
  by rewrite En.
Qed.

Lemma expire_fields_ok t js : forall l vs r s pre post, scan t js = Ok l -> Forall (fun j => is_discard t j = Ok false) js -> Forall2 col_ok l.*2 vs ->
  own r s F (pre ++ encs l.*2 vs ++ post) -> stands r pre ->
  exists o, expire_fields t js (r, s) = Ok (Some (default 0 (word_of (m_iExpireId r) l vs)), (set_uiOffset o r, s)).
Proof.
  induction js as [|j js IH]; intros l vs r s pre post Hl Hnd Hv H Ho.
  { injection Hl as <-. exists (m_uiOffset r). by destruct r. }
  cbn [expire_fields]. apply Forall_cons in Hnd as [Hj Hnd]. apply scan_cons in Hl as (skip & Es & Hl). rewrite Hj in Es. injection Es as <-.
  destruct Hl as (ty & sz & l' & Ety & Esz & Hl' & ->).
  apply Forall2_cons_inv_l in Hv as (v & vs' & Hc & Hv' & ->). rewrite !fmap_cons in *. cbn [fst snd encs word_of] in *. rewrite <-app_assoc in H.
  rewrite (gets_bind (fun st : RawData * S => m_iExpireId st.1)). cbn [fst]. destruct (j =? m_iExpireId r).
  { rewrite (gets_bind (fun st : RawData * S => m_pchContent st.1)), (gets_bind (fun st : RawData * S => m_uiOffset st.1)). cbn [fst].
    erewrite bind_ok; [|unfold on_mem; cbn [fst snd]; rewrite Ho, (read_low _ _ _ _ _ _ H Hc); reflexivity].
    exists (m_uiOffset r). cbn. by destruct r. }
  rewrite (bind_ok _ _ _ ty (r, s)) by (unfold lift; by rewrite Ety). rewrite (bind_ok _ _ _ sz (r, s)) by (unfold lift; by rewrite Esz).
  unfold or_error. rewrite (bind_ok _ _ _ _ _ (skip_field_ok r s F pre _ (ty, sz) v H Ho Hc)). rewrite app_assoc in H.
  destruct (IH l' vs' (set_uiOffset (Z.of_nat (length (pre ++ enc (ty, sz) v))) r) s _ post Hl' Hnd Hv' H eq_refl) as (o & E).
  exists o. by rewrite E.
Qed.

(** The chunk around the values of the row that is next. *)
Lemma at_values r s rows i v : rep r s F k rows -> rows !! i = Some v -> m_uiOffset r = place k rows i ->
  exists pre post, own r s F (pre ++ encs (k_cols k) (r_vals v) ++ post) /\ Forall2 col_ok (k_cols k) (r_vals v) /\
    Z.of_nat (length (pre ++ encs (k_cols k) (r_vals v))) = place k rows (Datatypes.S i) /\
    forall ro, SKIP_SIZEOF 1 (set_uiRowOffset ro r, s) = Ok (Some tt, (set_uiOffset (Z.of_nat (length pre)) (set_uiRowOffset ro r), s)).
Proof.
  intros H Hi Ho. destruct (own_row _ _ _ _ _ _ _ H Hi) as (spare & Hown). destruct (row_at_ok _ _ _ _ _ _ _ H Hi) as [Hf Hv].
  pose proof H as [_ _ _ _ _ _ Htb Hmeta]. set (pre := before_rows k rows ++ rows_bytes (k_cols k) (take i rows)) in *.
  assert (Hpre : Z.of_nat (length pre) = place k rows i) by (unfold pre; by rewrite before_length).
  unfold row_bytes in Hown. rewrite <-app_assoc in Hown. exists (pre ++ le_bytes 1 (r_flag v)), (rows_bytes (k_cols k) (drop (Datatypes.S i) rows) ++ spare).
  split; [by rewrite <-app_assoc|]. split; [done|]. split.
  - rewrite (place_S _ _ _ _ Hi), <-Hpre. unfold row_bytes. rewrite <-app_assoc, (length_app pre). lia.
  - intros ro. pose proof (SKIP_SIZEOF_ok (set_uiRowOffset ro r) s F pre (le_bytes 1 (r_flag v)) _ Hown) as E. rewrite le_bytes_length in E.
    apply E. unfold stands. by rewrite Hpre.
Qed.

(** The time of the last change and the time of expiry of the row that is next are
    the words of their columns in that row, 0 where the table has none; reading the first
    goes on to the next row. The second is right only for a table without discarded
    columns. *)
Theorem times_of_row r s rows i v : rep r s F k rows -> rows !! i = Some v -> m_uiOffset r = place k rows i -> _tabledef r = Some (k_tab k) ->
  get_lastcmod (r, s) = Ok ((0, default 0 (word_of (m_iLCmodId r) (k_fields k) (r_vals v))),
    (set_uiOffset (place k rows (Datatypes.S i)) (set_uiRowOffset (place k rows i) r), s)) /\
  (m_iExpireId r <> -1 -> Forall (fun j => is_discard (k_tab k) j = Ok false) (fields_from (m_uchKeyIdx r) (k_tab k)) ->
   exists o, get_expire_time (r, s) = Ok ((0, default 0 (word_of (m_iExpireId r) (k_fields k) (r_vals v))), (set_uiOffset o r, s))).
Proof.
  intros H Hi Ho Ht. destruct (at_values r s rows i v H Hi Ho) as (pre & post & Hown & Hv & Hend & Hskip). destruct (own_valid _ _ _ _ Hown) as [E1 E2].
  pose proof (rep_scan _ _ _ _ _ H) as Hscan. split.
  - unfold get_lastcmod. rewrite (gets_bind (fun st : RawData * S => _handle st.1)), (gets_bind (fun st : RawData * S => m_pchContent st.1)). cbn [fst].
    rewrite E1, E2. cbn [orb]. rewrite (gets_bind (fun st : RawData * S => m_uiOffset st.1)), (bind_ok (upd _) _ _ _ _ eq_refl). cbn [fst snd].
    rewrite (bind_ok _ _ _ _ _ (Hskip _)), (gets_bind (fun st : RawData * S => m_uchKeyIdx st.1)), (gets_bind (fun st : RawData * S => _tabledef st.1)).
    cbn [fst _tabledef m_uchKeyIdx set_uiOffset set_uiRowOffset]. rewrite Ht.
    set (r1 := set_uiOffset _ _). assert (Hown1 : own r1 s F (pre ++ encs (k_cols k) (r_vals v) ++ post)) by exact Hown.
    rewrite (bind_ok _ _ _ _ _ (lastcmod_fields_ok (k_tab k) _ (k_fields k) (r_vals v) r1 s pre post 0 Hscan (scan_NoDup _ _ _ Hscan) Hv Hown1 eq_refl)), ret_ok.
    cbn [fst snd]. fold (k_cols k). rewrite Hend. unfold r1. by rewrite Ho.
  - intros Hid Hnd. unfold get_expire_time. rewrite (gets_bind (fun st : RawData * S => _handle st.1)), (gets_bind (fun st : RawData * S => m_pchContent st.1)). cbn [fst].
    rewrite E1, E2. cbn [orb]. rewrite (gets_bind (fun st : RawData * S => m_iExpireId st.1)). cbn [fst]. rewrite (proj2 (Z.eqb_neq _ _)) by done.
    assert (Er : set_uiRowOffset (m_uiRowOffset r) r = r) by by destruct r. specialize (Hskip (m_uiRowOffset r)). rewrite Er in Hskip.
    set (r1 := set_uiOffset _ r) in Hskip. assert (Hown1 : own r1 s F (pre ++ encs (k_cols k) (r_vals v) ++ post)) by exact Hown.
    destruct (expire_fields_ok (k_tab k) _ (k_fields k) (r_vals v) r1 s pre post Hscan Hnd Hv Hown1 eq_refl) as (o & E).
    exists o. erewrite bind_ok; [|rewrite (or_error_ok _ _ _ _ _ Hskip), (gets_bind (fun st : RawData * S => m_uchKeyIdx st.1)), (gets_bind (fun st : RawData * S => _tabledef st.1));
      cbn [fst _tabledef m_uchKeyIdx set_uiOffset r1]; rewrite Ht; exact E]. reflexivity.
Qed.

(** An insertion at the front of other rows that finds no buffer in the C library
    answers [-ENOMEM], but the row is in the chunk, the last one. *)
Theorem insert_front_fails env r s rows stRow vs flag : rep r s F k rows -> rows <> [] -> row_val F k stRow vs -> is_u 8 flag ->
  fits_32 k (rows ++ [mkRowV flag vs]) -> env.(sys_malloc) (Z.of_nat (length (row_bytes (k_cols k) (mkRowV flag vs)))) = false ->
  wp (insert_row_flag env stRow true flag) (r, s) (fun x st =>
    (x = EC_NO_MEM /\ rep st.1 st.2 F k rows) \/ (x = - ENOMEM /\ rep st.1 st.2 F k (rows ++ [mkRowV flag vs]))).
Proof.
  intros H Hne Hv Hf Hsz Hm. unfold insert_row_flag. apply wp_get, wp_upd, wp_bind.
  assert (H0 : rep (set_uiOffset (m_uiDataSize r) r) s F k rows) by by apply (chunk_rep_ext r).
  eapply wp_mono; [exact (encode_row_end _ _ _ _ _ _ _ _ H0 Hv Hf Hsz eq_refl)|]. intros x [r1 s1]. cbn [fst snd].
  intros [(-> & H1 & _)|(-> & H1 & _)]; [apply wp_ret; by left|]. cbn [Z.eqb andb]. unfold move_to_front. do 3 apply wp_get.
  pose proof (rep_small _ _ _ _ _ H1) as [Hs _]. pose proof (rep_small _ _ _ _ _ H) as [Hs0 _]. rewrite (rep_dsize _ _ _ _ _ H1), (rep_dsize _ _ _ _ _ H), (rep_start _ _ _ _ _ H1), data_size_snoc.
  rewrite data_size_snoc in Hs. pose proof (row_bytes_length (k_cols k) (mkRowV flag vs)) as Hl.
  replace (u32 (Z.of_nat (data_size k rows + _) - _)) with (Z.of_nat (length (row_bytes (k_cols k) (mkRowV flag vs)))) by (rewrite u32_small; lia).
  rewrite (proj2 (Z.ltb_lt _ _)) by lia. rewrite u32_small by (unfold data_size in *; lia).
  pose proof (rows_bytes_nil (k_cols k) rows). rewrite (proj2 (Z.ltb_lt _ _)).
  - cbn [andb]. rewrite Hm. apply wp_ret. by right.
  - unfold data_size. destruct (length (rows_bytes (k_cols k) rows)) eqn:E; [|lia]. by destruct Hne; auto.
Qed.

End Times.
(** ** A concrete key

    A table with a 4-byte key, a signed column, a discarded one and a string; a chunk of
    it in the memory of [DTCBinMalloc] with one row. *)

Definition sample_tab : DTCTableDefinition :=
  with_stamps (with_keys (with_fields TableSpec.garbage_table
    [mkField None 4 DField.Unsigned 0 0 0 0 0 0; mkField None 4 DField.Signed 0 0 0 0 0 0;
     mkField None 8 DField.Unsigned 0 0 FF_DISCARD 0 0 0; mkField None 255 DField.String 0 0 0 0 0 0] [] 4 3 None) 1 1 4 4)
    (-1) (-1) (-1) 1 (-1).
Definition sample_env : Env := mkEnv (fun i => if i =? 0 then Some sample_tab else None) false 0 1000 (fun n => n <? 10).
Definition sample_row (w : Z) (bs : list Z) : DataRow :=
  mkDataRow sample_tab [mkCell 0 PNull; mkCell w PNull; mkCell 0 PNull; mkCell (Z.of_nat (length bs)) (PMem bs)].
Definition sample_vals (w : Z) (bs : list Z) : list fval := [FWord w; FBin bs].
Definition blank_row : DataRow := mkDataRow sample_tab (replicate 4 (mkCell 0 PNull)).
Definition sample_key : list Z := [7; 0; 0; 0].
Definition sample_fields : list (Z * column) := [(1, (DField.Signed, 4)); (3, (DField.String, 255))].
Definition sample_info : info := new_info sample_env 0 sample_key sample_tab sample_fields.

Definition sample_new : RawData := RawData_new 0 None.
Definition sample_prog : ST (RawData * DTCBinMalloc) Z :=
  RawData_Init sample_env sample_key 100;; insert_row sample_env (sample_row 5 [104; 105]) false false.
Definition sample_st : RawData * DTCBinMalloc :=
  match sample_prog (sample_new, fresh) with
  | Ok (_, st) => st
  | _ => (sample_new, fresh)
  end.
Definition sample_blocks : blocks := heap_of (mem sample_st.2) (useds (bottom sample_st.2) [mkC 128 true]).
Definition rest_blocks : blocks := delete 8216 sample_blocks.
Definition sample_rows : list row := [mkRowV OPER_SELECT (sample_vals 5 [104; 105])].
Definition sample_spare : list Z := match sample_blocks !! 8216 with Some bs => drop (data_size sample_info sample_rows) bs | None => [] end.

Lemma fresh_heap : heap fresh (∅ : blocks).
Proof. exists []. split; [apply Invb_sound; vm_compute; reflexivity|]. vm_compute. reflexivity. Defined.
Lemma sample_heap : heap sample_st.2 sample_blocks.
Proof. eexists. split; [|reflexivity]. apply Invb_sound; vm_compute; reflexivity. Defined.
Lemma sample_bytes : sample_blocks !! 8216 = Some (chunk_bytes sample_info sample_rows sample_spare).
Proof. vm_compute. reflexivity. Defined.
Lemma sample_own : own sample_st.1 sample_st.2 rest_blocks (chunk_bytes sample_info sample_rows sample_spare).
Proof.
  assert (Eh : _handle sample_st.1 = 8216) by (vm_compute; reflexivity). unfold own. rewrite Eh. split; [|split; [apply lookup_delete_eq|split; vm_compute; reflexivity]].
  unfold rest_blocks. rewrite insert_delete_eq, insert_id; [exact sample_heap|exact sample_bytes].
Defined.
Lemma sample_row_ok : Forall (row_ok (k_cols sample_info)) sample_rows.
Proof.
  apply Forall_singleton. split; [split; vm_compute; congruence|]. apply Forall2_cons. split; [exact I|]. apply Forall2_cons. split; [|apply Forall2_nil; exact I].
  split; [refine (bool_decide_eq_true_1 _ _); vm_compute; reflexivity|vm_compute; reflexivity].
Defined.
Lemma sample_rep : rep sample_st.1 sample_st.2 rest_blocks sample_info sample_rows.
Proof. split; [exists sample_spare; exact sample_own|..|exact sample_row_ok| |]; vm_compute; reflexivity. Defined.

Lemma sample_row_val F w bs : bytes_ok bs -> Z.of_nat (length bs) < 2 ^ 31 -> row_val F sample_info (sample_row w bs) (sample_vals w bs).
Proof.
  intros Hb Hl. split; [reflexivity|]. apply Forall2_cons. split; [exists (mkCell w PNull); split; reflexivity|]. apply Forall2_cons. split; [|apply Forall2_nil; exact I].
  exists (mkCell (Z.of_nat (length bs)) (PMem bs)). split; [reflexivity|]. split; [apply (swrap_small 32); unfold is_s; lia|]. split; [right; split; [lia|apply firstn_all]|]. by split.
Defined.
Lemma blank_fits : fits sample_info blank_row.
Proof. split; [reflexivity|]. repeat apply Forall_cons_2; [..|apply Forall_nil_2]; cbn; lia. Defined.
Lemma small_bytes (bs : list Z) : forallb (fun b => (0 <=? b) && (b <=? 255)) bs = true -> bytes_ok bs.
Proof. intros H. apply Forall_forall. intros b Hb. rewrite forallb_forall in H. specialize (H b (proj1 (list_elem_of_In _ _) Hb)). apply andb_true_iff in H as [H1%Z.leb_le H2%Z.leb_le]. split; lia. Defined.
Definition sample_ops : list op :=
  [ORewind; ODecode blank_row false; ODelete blank_row; OInsert (sample_row 9 [1]) (sample_vals 9 [1]) true OPER_INSERT; ORewind; OStrip].
Lemma sample_run_legal : legal_run sample_env sample_info rest_blocks (mkView sample_rows None None) sample_ops.
Proof.
  split; [exact I|]. intros a v' (-> & ->). split; [split; [exact blank_fits|exists 0%nat; split; [reflexivity|cbn; lia]]|].
  intros a v' (i & x & [= <-] & _ & -> & ->). split; [split; [reflexivity|by eexists]|].
  intros a v' (i & [= <-] & [(-> & _ & ->)|(_ & Hi & _)]); [|discriminate]. split.
  { split; [apply sample_row_val; [by apply small_bytes|vm_compute; reflexivity]|]. split; [split; vm_compute; congruence|vm_compute; reflexivity]. }
  intros. split; [exact I|]. intros. split; [exact I|]. intros. exact I.
Defined.
Lemma raw_run_refines_witness : exists v' r' s',
  run sample_env sample_info sample_ops sample_st = Ok ([(0, None); (0, Some (OPER_SELECT, [FWord 5; FBin [104; 105]])); (0, None); (0, None); (0, None); (0, None)], (r', s')) /\
  Refines sample_info rest_blocks r' s' v'.
Proof.
  destruct (raw_run_refines sample_env sample_info rest_blocks sample_ops sample_st.1 sample_st.2 (mkView sample_rows None None)) as (l & v' & r' & s' & E & _ & H).
  - split; [exact sample_rep|exact I|exact I].
  - exact sample_run_legal.
  - exists v', r', s'. split; [|exact H].
    assert (El : match run sample_env sample_info sample_ops sample_st with Ok (l, _) => l | _ => [] end
      = [(0, None); (0, Some (OPER_SELECT, [FWord 5; FBin [104; 105]])); (0, None); (0, None); (0, None); (0, None)]) by (vm_compute; reflexivity).
    assert (Es : (sample_st.1, sample_st.2) = sample_st) by (symmetry; apply surjective_pairing). rewrite Es in E. rewrite E in El |- *. by rewrite El.
Defined.

Lemma rows_round_trip_witness : exists a st,
  write_then_read sample_env sample_info sample_key 100 [sample_row 5 [104; 105]; sample_row (2 ^ 64 - 1) []] true sample_new blank_row (sample_new, fresh) = Ok (a, st) /\
  (a = (EC_NO_MEM, []) \/ a = (0, [(0, Some (OPER_INSERT, [FWord 5; FBin [104; 105]])); (0, Some (OPER_INSERT, [FWord (2 ^ 64 - 1); FBin []]))])).
Proof.
  destruct (rows_round_trip sample_env sample_new fresh ∅ sample_key [] 100 sample_tab sample_fields [sample_row 5 [104; 105]; sample_row (2 ^ 64 - 1) []]
    [sample_vals 5 [104; 105]; sample_vals (2 ^ 64 - 1) []] true sample_new blank_row fresh_heap) as (a & st & E & H);
    [vm_compute; congruence|vm_compute; reflexivity|vm_compute; reflexivity|by apply small_bytes|vm_compute; reflexivity|vm_compute; congruence|vm_compute; reflexivity| |vm_compute; reflexivity|exact blank_fits|].
  - apply Forall2_cons. split; [apply sample_row_val; [by apply small_bytes|vm_compute; reflexivity]|]. apply Forall2_cons. split; [|apply Forall2_nil; exact I].
    apply sample_row_val; [by apply small_bytes|vm_compute; reflexivity].
  - exists a, st. split; [exact E|exact H].
Defined.

(** From an odd place of the chunk. *)
Lemma decode_row_safe_witness : exists x row' f r',
  decode_row blank_row 0 0 (set_uiOffset 21 sample_st.1, sample_st.2) = Ok ((x, row', f), (r', sample_st.2)) /\ (x = 0 \/ x = -100).
Proof.
  destruct (decode_row_safe rest_blocks (chunk_bytes sample_info sample_rows sample_spare) sample_st.2 (set_uiOffset 21 sample_st.1) blank_row 0 0 sample_tab sample_fields)
    as (x & row' & f & r' & E & Hx & _); [eapply own_same; [..|exact sample_own]; vm_compute; reflexivity|split; vm_compute; congruence|vm_compute; reflexivity|reflexivity|vm_compute; reflexivity|].
  exists x, row', f, r'. split; [exact E|exact Hx].
Defined.

Lemma decode_row_size_witness : exists row' f r' s', decode_row blank_row 0 0 (set_uiOffset 20 sample_st.1, sample_st.2) = Ok ((0, row', f), (r', s')) /\
  calc_row_size row' 0 = Ok 11.
Proof.
  assert (Ho : own (set_uiOffset 20 sample_st.1) sample_st.2 rest_blocks (chunk_bytes sample_info sample_rows sample_spare)) by (eapply own_same; [..|exact sample_own]; vm_compute; reflexivity).
  destruct (decode_row blank_row 0 0 (set_uiOffset 20 sample_st.1, sample_st.2)) as [[[[x row'] f] [r' s']]| |] eqn:E; [|vm_compute in E; discriminate..].
  assert (Hx : x = 0 /\ u32 (m_uiOffset r' - 20) = 11) by (vm_compute in E; injection E as <- <- <- <- <-; split; vm_compute; reflexivity). destruct Hx as [-> Hn].
  exists row', f, r', s'. split; [reflexivity|].
  assert (Hd : calc_row_size row' (m_uchKeyIdx (set_uiOffset 20 sample_st.1)) = Ok (u32 (m_uiOffset r' - m_uiOffset (set_uiOffset 20 sample_st.1)))).
  { eapply (decode_row_size rest_blocks _ sample_st.2 (set_uiOffset 20 sample_st.1) blank_row 0 0 sample_tab sample_fields 0 row' f r' s' Ho);
      [split; vm_compute; congruence|vm_compute; reflexivity|reflexivity|vm_compute; reflexivity|repeat apply Forall_cons_2; [..|apply Forall_nil_2]; cbn; lia|reflexivity|exact E|reflexivity]. }
  assert (Ek : m_uchKeyIdx (set_uiOffset 20 sample_st.1) = 0) by (vm_compute; reflexivity). rewrite Ek in Hd. rewrite Hd. f_equal. exact Hn.
Defined.

Definition sample_reader : RawData := set_key 0 4 (-1) 1 (-1) (set_uiOffset 20 sample_st.1).
Lemma times_of_row_witness : exists st, get_lastcmod (sample_reader, sample_st.2) = Ok ((0, 5), st).
Proof.
  assert (Hr : rep sample_reader sample_st.2 rest_blocks sample_info sample_rows) by (eapply chunk_rep_ext; [..|exact sample_rep]; vm_compute; reflexivity).
  destruct (times_of_row rest_blocks sample_info sample_reader sample_st.2 sample_rows 0 (mkRowV OPER_SELECT (sample_vals 5 [104; 105])) Hr) as [E _];
    [reflexivity|vm_compute; reflexivity|vm_compute; reflexivity|].
  assert (Ev : default 0 (word_of (m_iLCmodId sample_reader) (k_fields sample_info) [FWord 5; FBin [104; 105]]) = 5) by (vm_compute; reflexivity).
  change (r_vals (mkRowV OPER_SELECT (sample_vals 5 [104; 105]))) with [FWord 5; FBin [104; 105]] in E. rewrite Ev in E. eexists. exact E.
Defined.

Lemma insert_front_fails_witness : exists x st, insert_row_flag sample_env (sample_row 9 [1; 2; 3]) true OPER_INSERT sample_st = Ok (x, st) /\
  (x = EC_NO_MEM \/ x = - ENOMEM).
Proof.
  destruct (insert_front_fails rest_blocks sample_info sample_env sample_st.1 sample_st.2 sample_rows (sample_row 9 [1; 2; 3]) (sample_vals 9 [1; 2; 3]) OPER_INSERT sample_rep)
    as (x & st & E & H); [discriminate|apply sample_row_val; [by apply small_bytes|vm_compute; reflexivity]|split; vm_compute; congruence|vm_compute; reflexivity|vm_compute; reflexivity|].
  exists x, st. split; [rewrite (surjective_pairing sample_st); exact E|]. destruct H as [[-> _]|[-> _]]; [by left|by right].
Defined.
End RawSpec.
