(* ===== verification/Hash.v ===== *)
(** The hash buckets of the cache: [cache/hash.h], [cache/hash.cc] and the hash function of
    [common/new_hash.cc]. A bucket holds the id of the first node of its chain. *)
From Stdlib Require Import ZArith Lia.
From stdpp Require Import base list list_numbers numbers gmap.
From S2P Require Import Prelude PtMalloc Mallocator NodeTable.
Local Open Scope Z_scope.

(** ** Hash functions

    A key is a string of [char], which is signed. *)
Definition char_at (k : list Z) (i : nat) : Z := u32 (s8 (default 0 (k !! i))).
Definition shl (v n : Z) : Z := u32 (Z.shiftl v n).

(** The macro [mix] on unsigned 32-bit words *)
Definition mix (w : Z * Z * Z) : Z * Z * Z :=
  let '(a, b, c) := w in
  let a := u32 (a - b) in let a := u32 (a - c) in let a := Z.lxor a (Z.shiftr c 13) in
  let b := u32 (b - c) in let b := u32 (b - a) in let b := Z.lxor b (shl a 8) in
  let c := u32 (c - a) in let c := u32 (c - b) in let c := Z.lxor c (Z.shiftr b 13) in
  let a := u32 (a - b) in let a := u32 (a - c) in let a := Z.lxor a (Z.shiftr c 12) in
  let b := u32 (b - c) in let b := u32 (b - a) in let b := Z.lxor b (shl a 16) in
  let c := u32 (c - a) in let c := u32 (c - b) in let c := Z.lxor c (Z.shiftr b 5) in
  let a := u32 (a - b) in let a := u32 (a - c) in let a := Z.lxor a (Z.shiftr c 3) in
  let b := u32 (b - c) in let b := u32 (b - a) in let b := Z.lxor b (shl a 10) in
  let c := u32 (c - a) in let c := u32 (c - b) in let c := Z.lxor c (Z.shiftr b 15) in
  (a, b, c).

(** [k[i] + ((u4)k[i+1] << 8) + ((u4)k[i+2] << 16) + ((u4)k[i+3] << 24)] *)
Definition word_at (k : list Z) (i : nat) : Z :=
  u32 (char_at k i + shl (char_at k (i + 1)) 8 + shl (char_at k (i + 2)) 16 + shl (char_at k (i + 3)) 24).
(** The loop over blocks of 12 bytes: the rest of the key and the state. *)
Fixpoint mix_blocks (fuel : nat) (k : list Z) (w : Z * Z * Z) : list Z * (Z * Z * Z) :=
  match fuel with
  | O => (k, w)
  | S fuel =>
    if (length k <? 12)%nat then (k, w) else
    let '(a, b, c) := w in
    mix_blocks fuel (drop 12 k) (mix (u32 (a + word_at k 0), u32 (b + word_at k 4), u32 (c + word_at k 8)))
  end.
(** The cases of the [switch] fall through: each is executed for every length from its own on. *)
Definition upto (len n : nat) (w v : Z) : Z := if (n <=? len)%nat then u32 (w + v) else w.
Definition mix_tail (k : list Z) (w : Z * Z * Z) : Z * Z * Z :=
  let '(a, b, c) := w in
  let len := length k in
  let c := upto len 11 c (shl (char_at k 10) 24) in
  let c := upto len 10 c (shl (char_at k 9) 16) in
  let c := upto len 9 c (shl (char_at k 8) 8) in
  let b := upto len 8 b (shl (char_at k 7) 24) in
  let b := upto len 7 b (shl (char_at k 6) 16) in
  let b := upto len 6 b (shl (char_at k 5) 8) in
  let b := upto len 5 b (char_at k 4) in
  let a := upto len 4 a (shl (char_at k 3) 24) in
  let a := upto len 3 a (shl (char_at k 2) 16) in
  let a := upto len 2 a (shl (char_at k 1) 8) in
  let a := upto len 1 a (char_at k 0) in
  (a, b, c).
(** [new_hash(k, length)] for a key of [length] bytes *)
Definition new_hash (k : list Z) : Z :=
  let '(r, (a, b, c)) := mix_blocks (length k) k (0x9e3779b9, 0x9e3779b9, 0x48545443) in
  let c := u32 (c + Z.of_nat (length k)) in
  (mix (mix_tail r (a, b, c))).2.

(** The loop of [hash_slot] *)
Definition hash_char (h b : Z) : Z :=
  let h := u32 (shl h 4 + s8 b) in
  let g := Z.land h 0xF0000000 in
  if g =? 0 then h else Z.lxor (Z.lxor h (Z.shiftr g 24)) g.
Definition hash_chars (k : list Z) : Z := foldl hash_char 0 k.

(** The hash of a key before it is reduced to a slot; the key is what can be read at its
    pointer. [fixed] is [hh_fixedsize]. Keys of 1, 2 and 4 bytes are their own hash. *)
Definition hash_value (f : list Z -> Z) (fixed : Z) (key : list Z) : outcome Z :=
  let! x := (if negb (fixed =? 0) then Ok (fixed, key) else match key with b :: key => Ok (b, key) | [] => Fault end) in
  let '(size, key) := x in
  if (Z.of_nat (length key) <? size) then Fault else
  let key := take (Z.to_nat size) key in
  if (size =? 1) || (size =? 2) || (size =? 4) then Ok (le_value key) else Ok (f key).

Section Hash.
Context {S : Type} `{!Mallocator S}.
#[local] Abbreviation PS := (ST (Pool * S)).

(** ** [HASH_T] in the segment *)

Definition sizeof_HASH : Z := 16.
Definition hh_size (h : Z) : ST S Z := mread 4 h.
Definition hh_bucket (h v : Z) : Z := h + sizeof_HASH + 4 * v.

Definition slot_with (f : list Z -> Z) (key : list Z) : PS Z :=
  h ← member _hash;
  fixed ← shm (mread 4 (h + 12));
  v ← lift (hash_value f fixed key);
  size ← shm (hh_size h);
  if size =? 0 then fault else mret (v mod size).
Definition new_hash_slot (key : list Z) : PS Z := slot_with new_hash key.
Definition hash_slot (key : list Z) : PS Z := slot_with hash_chars key.

Definition hash2_node (v : Z) : PS Z := h ← member _hash; shm (mread 4 (hh_bucket h v)).
Definition put_hash2_node (v id : Z) : PS unit := h ← member _hash; shm (mwrite 4 (hh_bucket h v) id).
Definition hash_size : PS Z := h ← member _hash; shm (hh_size h).
Definition free_bucket : PS Z := h ← member _hash; shm (mread 4 (h + 4)).
Definition inc_free_bucket (v : Z) : PS unit := h ← member _hash; shm (add_to 4 (h + 4) v).
Definition inc_node_cnt (v : Z) : PS unit := h ← member _hash; shm (add_to 4 (h + 8) v).

(** The loop that empties the buckets: [k] of them from [i] on. *)
Fixpoint init_buckets (h i : Z) (k : nat) : ST S unit :=
  match k with
  | O => mret tt
  | Datatypes.S k => mwrite 4 (hh_bucket h i) INVALID_NODE_ID;; init_buckets h (i + 1) k
  end.
Definition Hash_Init (hsize fixedsize : Z) : PS Z :=
  v ← shm (calloc (4 * hsize + sizeof_HASH));
  if v =? INVALID_HANDLE then mret (-1) else
  assign (set_hash v);;
  shm (mwrite 4 v hsize);;
  shm (mwrite 4 (v + 4) hsize);;
  shm (mwrite 4 (v + 8) 0);;
  shm (mwrite 4 (v + 12) fixedsize);;
  shm (init_buckets v 0 (Z.to_nat hsize));;
  mret 0.
Definition Hash_Attach (handle : Z) : PS Z :=
  if handle =? INVALID_HANDLE then mret (-1) else assign (set_hash handle);; mret 0.
Definition Hash_Detach : PS Z := assign (set_hash 0);; mret 0.

End Hash.
