(* ===== verification/BufferPool.v ===== *)
(** The cache of rows by key: [cache/buffer_pool.cc], with [cache/data_chunk.h] and the
    parts of [cache/tree_data.cc] and [cache/raw_data_process.cc] it meets. A node stands
    for a key: it hangs in the bucket of the key's hash and in one of the eviction lists,
    and its handle is the chunk with the rows.

    The statistics items, the log and the alert for data that expires too early
    ([check_and_purge_node_everything] with [DataExpireAlertTime] set) only report and are
    left out. The virtual call [purge_node_notify] is an event, a key and a node's id. *)
From Stdlib Require Import ZArith Lia.
From stdpp Require Import base list list_numbers numbers gmap.
From S2P Require Import Prelude TableDef PtMalloc Mallocator NodeTable TTree RawData Hash.
Local Open Scope Z_scope.

Definition TIME_MARKER_NEXT_NODE_ID : Z := INVALID_NODE_ID - 1.
Definition DATA_TYPE_TREE_ROOT : Z := 1.

(** What is fixed while the cache runs: [_cacheInfo.keySize], the globals [hashChanging]
    and [targetNewHash], [emptyLimit], and whether there is a [_purge_notifier]. *)
Record Config := mkConfig {
  keySize : Z;
  hashChanging : bool;
  targetNewHash : bool;
  emptyLimit : Z;
  purge_notifier : bool
}.

Abbreviation events := (list (list Z * Z)).

(** [memcmp] reads no further than the first difference. *)
Fixpoint memcmp_seg {S : Type} `{!Mallocator S} (key : list Z) (n : nat) (a : Z) {struct n} : ST S Z :=
  match n with
  | O => mret 0
  | Datatypes.S n =>
    match key with
    | [] => fault
    | b :: key => o ← mread 1 a; if b =? o then memcmp_seg key n (a + 1) else mret (b - o)
    end
  end.
Fixpoint read_bytes {S : Type} `{!Mallocator S} (a : Z) (n : nat) : ST S (list Z) :=
  match n with O => mret [] | Datatypes.S n => b ← mread 1 a; bs ← read_bytes (a + 1) n; mret (b :: bs) end.

Section BufferPool.
Context {S : Type} `{!Mallocator S}.
Context (cfg : Config) (env : Env).
#[local] Abbreviation PS := (ST (Pool * S)).
#[local] Abbreviation CS := (ST (events * (Pool * S))).

Definition pool {A} (m : PS A) : CS A := fun st => let! p := m st.2 in Ok (p.1, (st.1, p.2)).
Definition seg {A} (m : ST S A) : CS A := pool (shm m).
Definition emit (e : list Z * Z) : CS unit := modify (fun st => (st.1 ++ [e], st.2)).

(** ** [DataChunk] *)

(** [Key()]: 0 for none. A raw chunk has a header of 16 bytes, a tree's root one of 32. *)
Definition chunk_Key (h : Z) : ST S Z :=
  b ← mread 1 h;
  let t := Z.land b 0x7f in
  if t =? DATA_TYPE_RAW then mret (h + 16) else if t =? DATA_TYPE_TREE_ROOT then mret (h + 32) else mret 0.
Definition chunk_total_rows (h : Z) : ST S Z :=
  b ← mread 1 h; if b =? DATA_TYPE_RAW then mread 4 (h + 5) else mread 4 (h + 13).
Definition chunk_base_size (h : Z) : ST S Z := b ← mread 1 h; mret (if b =? DATA_TYPE_RAW then 16 else 32).
Definition chunk_str_key_size (h : Z) : ST S Z := n ← chunk_base_size h; mread 1 (h + n).
Definition chunk_data_size (h iKeySize : Z) : ST S Z :=
  n ← chunk_base_size h; k ← (if negb (iKeySize =? 0) then mret iKeySize else k ← chunk_str_key_size h; mret (1 + k)); mret (u32 (n + k)).
Definition chunk_node_size (h : Z) : ST S Z := b ← mread 1 h; if b =? DATA_TYPE_RAW then mread 4 (h + 1) else mret 0.
Definition chunk_create_time (h : Z) : ST S Z := b ← mread 1 h; if b =? DATA_TYPE_RAW then mread 2 (h + 14) else mret 0.
Definition chunk_last_access_time (h : Z) : ST S Z := b ← mread 1 h; if b =? DATA_TYPE_RAW then mread 2 (h + 10) else mret 0.
Definition chunk_last_update_time (h : Z) : ST S Z := b ← mread 1 h; if b =? DATA_TYPE_RAW then mread 2 (h + 12) else mret 0.

(** [TreeData::Attach(hHandle)]: the return code and the root of the index. *)
Definition TreeData_Attach (h : Z) : ST S (Z * Z) :=
  b ← mread 1 h;
  match get_table_def_by_idx env (Z.land (Z.shiftr (s8 b) 7) 0x01) with
  | None => mret (-1, 0)
  | Some t =>
    n ← block_size h;
    if n =? 0 then mret (-1, 0) else
    b ← mread 1 h;
    if negb (Z.land b 0x7f =? DATA_TYPE_TREE_ROOT) then mret (-2, 0) else
    root ← mread 8 (h + 24); mret (0, root)
  end.
Definition TreeData_Destroy (h root : Z) : ST S Z := Ttree_Destroy root;; free h;; mret 0.
Definition chunk_Destroy (h : Z) : ST S Z :=
  b ← mread 1 h;
  if b =? DATA_TYPE_RAW then free h
  else if b =? DATA_TYPE_TREE_ROOT then
    x ← TreeData_Attach h; if negb (x.1 =? 0) then mret x.1 else TreeData_Destroy h x.2
  else mret (-1).

Definition node_rows_count (n : Node) : PS Z :=
  if no_node n then mret 0 else
  h ← shm (vd_handle n);
  if h =? INVALID_HANDLE then mret 0 else v ← shm (chunk_total_rows h); mret (s32 v).

(** ** Setting up

    [hash_bucket_num], and the part of [dtc_mem_init] that makes the index, the hash and the
    node groups; the features, which record their handles, come before and after it. *)
Definition hash_bucket_num (size : Z) : Z :=
  let h := s32 (u32 (u64 (size / 100 - 16)) / 4) in u32 (Z.quot h 9 * 9).
Definition dtc_mem_init (ipcMemSize : Z) : PS Z :=
  r ← Index_Init ipcMemSize; if negb (r =? 0) then mret (-1) else
  r ← Hash_Init (hash_bucket_num ipcMemSize) cfg.(keySize); if negb (r =? 0) then mret (-1) else
  r ← NGInfo_Init; if negb (r =? 0) then mret (-1) else mret 0.

(** ** The hash *)

Definition target_slot (key : list Z) : PS Z := if cfg.(targetNewHash) then new_hash_slot key else hash_slot key.
Definition Insert2Hash (key : list Z) (n : Node) : PS Z :=
  slot ← target_slot key;
  b ← hash2_node slot;
  (if b =? INVALID_NODE_ID then inc_free_bucket (-1) else mret tt);;
  inc_node_cnt 1;;
  b ← hash2_node slot; shm (put_next_node_id n b);;
  id ← shm (node_id n); put_hash2_node slot id;;
  mret 0.

(** The walk along a chain: the node looked for, or the empty one, and the one before. *)
Fixpoint seek (fuel : nat) (prev next : Node) (id : Z) : PS (Node * Node) :=
  match fuel with
  | O => fault
  | Datatypes.S fuel =>
    if no_node next then mret (prev, next) else
    i ← shm (node_id next);
    if i =? id then mret (prev, next) else n ← next_node next; seek fuel next n id
  end.
Definition remove_from_hash_base (fuel : nat) (key : list Z) (remove_node : Node) (newhash : bool) : PS Z :=
  slot ← (if newhash then new_hash_slot key else hash_slot key);
  node_id_ ← hash2_node slot;
  if node_id_ =? INVALID_NODE_ID then mret 0 else
  id ← shm (node_id remove_node);
  if node_id_ =? id then
    x ← shm (next_node_id remove_node); put_hash2_node slot x;;
    b ← hash2_node slot;
    (if b =? INVALID_NODE_ID then inc_free_bucket 1 else mret tt);;
    inc_node_cnt (-1);;
    mret 0
  else
    prev ← Index_Search node_id_; next ← next_node prev;
    x ← seek fuel prev next id;
    let '(prev, next) := x in
    if no_node next then mret (-1) else
    y ← shm (next_node_id next); shm (put_next_node_id prev y);; inc_node_cnt (-1);; mret 0.
Definition remove_from_hash (fuel : nat) (key : list Z) (remove_node : Node) : PS Z :=
  (if cfg.(hashChanging) then
     remove_from_hash_base fuel key remove_node true;; remove_from_hash_base fuel key remove_node false
   else remove_from_hash_base fuel key remove_node cfg.(targetNewHash));;
  mret 0.
Definition move_to_new_hash (fuel : nat) (key : list Z) (n : Node) : PS Z :=
  remove_from_hash fuel key n;; Insert2Hash key n;; mret 0.

Definition key_length (key : list Z) : outcome Z :=
  if cfg.(keySize) =? 0 then match key with b :: _ => Ok (b + 1) | [] => Fault end else Ok cfg.(keySize).
Definition key_cmp (key : list Z) (other : Z) : ST S Z := n ← lift (key_length key); memcmp_seg key (Z.to_nat n) other.

(** ** Purging *)

Definition purge_node (fuel : nat) (key : list Z) (n : Node) : CS Z :=
  (if cfg.(purge_notifier) then id ← seg (node_id n); emit (key, id) else mret tt);;
  pool (remove_from_hash fuel key n);;
  pool (remove_from_lru n);;
  pool (release_node n);;
  mret 0.
(** [purge_node_everything(Node)]: the key is copied from the chunk into [char key[256]]. *)
Definition purge_everything (fuel : nat) (n : Node) : CS Z :=
  h ← (if no_node n then mret INVALID_HANDLE else seg (vd_handle n));
  if h =? INVALID_HANDLE then mret 0 else
  k ← seg (chunk_Key h);
  if k =? 0 then mret (-1) else
  len ← (if 0 <? cfg.(keySize) then mret cfg.(keySize) else b ← seg (mread 1 k); mret (b + 1));
  if 256 <? len then fault else
  key ← seg (read_bytes k (Z.to_nat len));
  seg (chunk_Destroy h);;
  purge_node fuel key n.
(** [purge_node_everything(const char *, Node)] *)
Definition purge_everything_key (fuel : nat) (key : list Z) (n : Node) : CS Z :=
  h ← (if no_node n then mret INVALID_HANDLE else seg (vd_handle n));
  (if h =? INVALID_HANDLE then mret 0 else seg (chunk_Destroy h));;
  if no_node n then mret 0 else purge_node fuel key n.

(** ** Finding *)

(** A node without a chunk, or whose chunk has no key, is purged on the way. The walk takes
    [steps] nodes at most; [fuel] is for the walks inside [purge_node]. *)
Fixpoint find_in_chain (fuel steps : nat) (key : list Z) (iter : Node) : CS Node :=
  match steps with
  | O => fault
  | Datatypes.S steps =>
    if no_node iter then mret Node_Empty else
    let purge_and_go_on := (n ← pool (next_node iter); purge_node fuel key iter;; find_in_chain fuel steps key n) in
    h ← seg (vd_handle iter);
    if h =? INVALID_HANDLE then purge_and_go_on else
    k ← seg (chunk_Key h);
    if k =? 0 then purge_and_go_on else
    c ← seg (key_cmp key k);
    if c =? 0 then mret iter else n ← pool (next_node iter); find_in_chain fuel steps key n
  end.
Definition cache_find (fuel : nat) (key : list Z) (newhash : bool) : CS Node :=
  slot ← pool (if newhash then new_hash_slot key else hash_slot key);
  node_id_ ← pool (hash2_node slot);
  if node_id_ =? INVALID_NODE_ID then mret Node_Empty else
  iter ← pool (Index_Search node_id_); find_in_chain fuel fuel key iter.
Definition cache_find_auto_chose_hash (fuel : nat) (key : list Z) : CS Node :=
  if cfg.(hashChanging) then
    let newhash := cfg.(targetNewHash) in
    n ← cache_find fuel key (negb newhash);
    if no_node n then cache_find fuel key newhash else pool (move_to_new_hash fuel key n);; mret n
  else cache_find fuel key cfg.(targetNewHash).

Definition cache_allocate (key : list Z) : PS Node :=
  n ← allocate_node;
  if no_node n then mret n else
  Insert2Hash key n;; insert2_clean_lru n;; mret n.

Definition purge_found (fuel : nat) (key : list Z) (n : Node) : CS Z :=
  x ← purge_everything_key fuel key n; mret (if x <? 0 then -1 else 0).
Definition cache_purge (fuel : nat) (key : list Z) : CS Z :=
  if cfg.(hashChanging) then
    n ← cache_find fuel key false;
    if no_node n then
      n ← cache_find fuel key true;
      if no_node n then mret 0 else purge_found fuel key n
    else purge_found fuel key n
  else
    n ← cache_find fuel key cfg.(targetNewHash);
    if no_node n then mret 0 else purge_found fuel key n.

(** ** Giving a node its chunk

    One round of [BufferProcess::InsertEmptyNode], without the retry after [try_purge_size],
    and [RawDataProcess::init_data] for a null [pstAffectedRows] with the start of
    [replace_rows] that calls it: a node that gets no chunk is purged. *)
Definition insert_empty_node (key : list Z) : PS Node :=
  n ← cache_allocate key;
  if no_node n then mret n else shm (put_vd_handle n INVALID_HANDLE);; mret n.
Definition with_raw {A} (m : ST (RawData * S) A) (r : RawData) : ST S (A * RawData) :=
  fun s => let! x := m (r, s) in Ok ((x.1, x.2.1), x.2.2).
Definition init_data (n : Node) (raw : RawData) (key : list Z) : ST S (Z * RawData) :=
  x ← with_raw (RawData_Init env key 0) raw;
  if negb (x.1 =? 0) then mret (-1, x.2) else put_vd_handle n (_handle x.2);; mret (0, x.2).
Definition ensure_data (fuel : nat) (key : list Z) (n : Node) (raw : RawData) : CS Z :=
  h ← seg (vd_handle n);
  if negb (h =? INVALID_HANDLE) then mret 0 else
  x ← seg (init_data n raw key);
  if x.1 =? 0 then mret 0 else
  h ← seg (vd_handle n);
  (if h =? INVALID_HANDLE then purge_node fuel key n else mret 0);;
  mret x.1.

(** ** Evicting from the end of the list of clean nodes *)

(** The loop of [pre_purge_nodes]; the number of nodes purged. *)
Fixpoint pre_purge_loop (fuel : nat) (purge_count : nat) (reserve clean_header pos : Node) (realpurged : Z) : CS Z :=
  match purge_count with
  | O => mret realpurged
  | Datatypes.S purge_count =>
    if no_node pos || same_node pos clean_header then mret realpurged else
    next ← pool (node_Prev pos);
    if same_node reserve pos then pre_purge_loop fuel purge_count reserve clean_header next realpurged else
    rows ← pool (node_rows_count pos); pool (inc_total_row (s32 (0 - rows)));;
    purge_everything fuel pos;;
    pre_purge_loop fuel purge_count reserve clean_header next (realpurged + 1)
  end.
Definition pre_purge_nodes (fuel : nat) (purge_count : Z) (reserve : Node) : CS Z :=
  if purge_count <=? 0 then mret 0 else
  clean_header ← pool clean_node_head; pos ← pool (node_Prev clean_header);
  pre_purge_loop fuel (Z.to_nat purge_count) reserve clean_header pos 0.
Definition delay_purge_notify (fuel : nat) (count : Z) : CS unit :=
  need ← pool (member _need_purge_node_count);
  if need =? 0 then mret tt else
  let purge_count := if count <? need then count else need in
  clean_header ← pool clean_node_head; pos ← pool (node_Prev clean_header);
  real ← pre_purge_loop fuel (Z.to_nat purge_count) Node_Empty clean_header pos 0;
  pool (assign (fun p => set_need_purge (u32 (p.(_need_purge_node_count) - real)) p)).

(** ** Nodes without rows *)

(** [check_cross_linked_lru]: a node of a list that is its own neighbour ends the loops. *)
Definition cross_linked (n : Node) : PS bool := v ← node_Prev n; mret (same_node v n).
(** The loops from the end of a list to its head: [body] says by how much the count grows. *)
Fixpoint from_the_end (fuel : nat) (body : Node -> CS Z) (limit : option Z) (header pos : Node) (count : Z) : CS Z :=
  match fuel with
  | O => fault
  | Datatypes.S fuel =>
    if (match limit with Some togo => togo <=? count | None => false end) || same_node pos header then mret count else
    x ← pool (cross_linked pos); if x : bool then mret count else
    next ← pool (node_Prev pos); d ← body pos; from_the_end fuel body limit header next (count + d)
  end.
Definition over_list (fuel : nat) (head : PS Node) (limit : option Z) (body : Node -> CS Z) : CS Z :=
  header ← pool head; pos ← pool (node_Prev header); from_the_end fuel body limit header pos 0.
Definition init_empty_node_list (fuel : nat) : CS Z :=
  mode ← pool (member emptyStartupMode);
  if negb (mode =? ATTACHED) then mret 0 else
  count ← over_list fuel empty_node_head None (fun _ => mret 1); pool (ng_inc_empty_node count);; mret 0.
Definition upgrade_empty_node_list (fuel : nat) : CS Z :=
  mode ← pool (member emptyStartupMode);
  if mode =? CREATED then mret 0 else
  count ← over_list fuel clean_node_head None (fun pos =>
    rows ← pool (node_rows_count pos);
    if rows =? 0 then pool (remove_from_lru pos);; pool (insert2_empty_lru pos);; mret 1 else mret 0);
  pool (ng_inc_empty_node count);; mret 0.
Definition merge_empty_node_list (fuel : nat) : CS Z :=
  mode ← pool (member emptyStartupMode);
  if mode =? CREATED then mret 0 else
  over_list fuel empty_node_head None (fun pos => pool (remove_from_lru pos);; pool (insert2_clean_lru pos);; mret 1);; mret 0.
Definition prune_empty_node_list (fuel : nat) : CS Z :=
  mode ← pool (member emptyStartupMode);
  if negb (mode =? ATTACHED) then mret 0 else
  over_list fuel empty_node_head None (fun pos => purge_everything fuel pos;; mret 1);; mret 0.
Definition shrink_empty_node_list (fuel : nat) : CS Z :=
  cnt ← pool (member emptyCnt);
  if (cfg.(emptyLimit) =? 0) || negb (cfg.(emptyLimit) <? cnt) then mret 0 else
  over_list fuel empty_node_head (Some (cnt - cfg.(emptyLimit))) (fun pos => purge_everything fuel pos;; pool (ng_inc_empty_node (-1));; mret 1);; mret 0.
Definition purge_single_empty_node (fuel : nat) : CS Z :=
  header ← pool empty_node_head; pos ← pool (node_Prev header);
  if same_node pos header then mret 0 else
  x ← pool (cross_linked pos); if x : bool then mret (-1) else
  purge_everything fuel pos;; pool (ng_inc_empty_node (-1));; mret 0.
Definition inc_empty_node (fuel : nat) : CS unit :=
  if cfg.(emptyLimit) =? 0 then mret tt else
  pool (ng_inc_empty_node 1);;
  cnt ← pool (member emptyCnt);
  if cfg.(emptyLimit) <? cnt then purge_single_empty_node fuel;; mret tt else mret tt.
Definition dec_empty_node : CS unit := if cfg.(emptyLimit) =? 0 then mret tt else pool (ng_inc_empty_node (-1)).
Definition pool_insert2_empty_lru (n : Node) : PS Z := if cfg.(emptyLimit) =? 0 then insert2_clean_lru n else insert2_empty_lru n.

(** ** Markers of time in the list of dirty nodes *)

Definition is_time_marker (n : Node) : PS bool := x ← shm (next_node_id n); mret (x =? TIME_MARKER_NEXT_NODE_ID).
Fixpoint find_marker (fuel : nat) (step : Node -> PS Node) (header pos : Node) : PS Node :=
  match fuel with
  | O => fault
  | Datatypes.S fuel =>
    if same_node pos header then mret Node_Empty else
    m ← is_time_marker pos; if m : bool then mret pos else pos ← step pos; find_marker fuel step header pos
  end.
Definition first_time_marker (fuel : nat) : PS Node :=
  header ← dirty_node_head; pos ← node_Next header; find_marker fuel node_Next header pos.
Definition last_time_marker (fuel : nat) : PS Node :=
  header ← dirty_node_head; pos ← node_Prev header; find_marker fuel node_Prev header pos.
Definition marker_time (n : Node) : PS Z := if no_node n then mret 0 else shm (node_Time n).
Definition first_time_marker_time (fuel : nat) : PS Z :=
  t ← member firstMarkerTime;
  (if t =? 0 then m ← first_time_marker fuel; t ← marker_time m; assign (fun p => set_markers t p.(lastMarkerTime) p) else mret tt);;
  member firstMarkerTime.
Definition last_time_marker_time (fuel : nat) : PS Z :=
  t ← member lastMarkerTime;
  (if t =? 0 then m ← last_time_marker fuel; t ← marker_time m; assign (fun p => set_markers p.(firstMarkerTime) t p) else mret tt);;
  member lastMarkerTime.
Definition insert_time_marker (fuel : nat) (t : Z) : CS Z :=
  n ← pool allocate_node;
  n ← (if no_node n then pre_purge_nodes fuel 10 Node_Empty;; pool allocate_node else mret n);
  if no_node n then mret (-1) else
  seg (put_next_node_id n TIME_MARKER_NEXT_NODE_ID);;
  seg (put_vd_handle n t);;
  pool (insert2_dirty_lru n);;
  pool (assign (fun p => set_markers t p.(lastMarkerTime) p));;
  last ← pool (member lastMarkerTime);
  (if last =? 0 then pool (last_time_marker_time fuel);; mret tt else mret tt);;
  mret 0.
Definition remove_time_marker (fuel : nat) (n : Node) : PS Z :=
  m ← is_time_marker n;
  if negb m then mret (-1) else
  remove_from_lru n;; release_node n;;
  last ← last_time_marker fuel;
  (if no_node last then assign (fun p => set_markers p.(firstMarkerTime) p.(firstMarkerTime) p)
   else t ← shm (node_Time last); assign (fun p => set_markers p.(firstMarkerTime) t p));;
  mret 0.

End BufferPool.
