(* ===== verification/CacheRep.v ===== *)
(** Chains of the hash in memory: what the operations of [Hash] and the walks of
    [BufferPool] along the chains do. *)
From Stdlib Require Import ZArith Lia.
From stdpp Require Import functions base list list_numbers numbers gmap.
From S2P Require Import Prelude TTree RawData PtMalloc PtSpec Mallocator NodeTable NodeRep NodeAcc NodeLru NodeGroup NodeNg NodeInv NodeAlloc NodeAllot NodeLists Hash BufferPool.
Import AllocSpec.
Local Open Scope Z_scope.

(** ** Chains *)

(** The ids [xs] hang one after the other on the link [x]. *)
Fixpoint chain (f : Z -> Z) (x : Z) (xs : list Z) : Prop :=
  match xs with [] => x = INVALID_NODE_ID | y :: ys => x = y /\ chain f (f y) ys end.

Lemma chain_ext f g x xs : (forall y, y ∈ xs -> g y = f y) -> chain f x xs -> chain g x xs.
Proof.
  revert x; induction xs as [|y ys IH]; intros x H; [done|]. intros [-> Hc]. split; [done|]. rewrite H by by left.
  apply IH; [|done]. intros z Hz. apply H. by right.
Qed.
(** Taking [id] out from behind [z]. *)
Lemma chain_del f x l z id r : chain f x (l ++ z :: id :: r) -> NoDup (l ++ z :: id :: r) -> chain (<[z := f id]> f) x (l ++ z :: r).
Proof.
  revert x; induction l as [|y l IH]; intros x; cbn [app chain].
  - intros (-> & _ & Hc) [Hz [Hid Hn]%NoDup_cons]%NoDup_cons. split; [done|]. rewrite fn_lookup_insert. eapply chain_ext; [|exact Hc].
    intros w Hw. apply fn_lookup_insert_ne. intros <-. apply Hz. by right.
  - intros (-> & Hc) [Hy Hn]%NoDup_cons. split; [done|]. rewrite fn_lookup_insert_ne by (intros <-; apply Hy; set_solver). by apply IH.
Qed.
(** ** The hash in a table *)

Record hashed (p : Pool) (G : table) (ks : Z) : Prop := {
  ha_pool : _hash p = hof G RHash;
  ha_block : hof G RHash <> 0;
  ha_size : hh G HSize = nbkt G;
  ha_pos : 0 < nbkt G;
  ha_fixed : hh G HFixed = ks
}.
(** A key as it is packed: of a fixed size, or with its length in front. *)
Definition key_ok (ks : Z) (key : list Z) : Prop :=
  bytes_ok key /\ 0 <= ks <= 256 /\ if decide (ks = 0) then exists b k, key = b :: k /\ Z.of_nat (length k) = b else Z.of_nat (length key) = ks.
Definition slot_of (f : list Z -> Z) (ks nb : Z) (key : list Z) : Z := match hash_value f ks key with Ok v => v mod nb | _ => 0 end.
Lemma key_hash f ks key : key_ok ks key -> exists v, hash_value f ks key = Ok v.
Proof.
  intros (Hb & H0 & H). unfold hash_value. destruct (decide (ks = 0)) as [->|Hks].
  - destruct H as (b & k & -> & E). cbn [Z.eqb negb obind]. rewrite (proj2 (Z.ltb_ge _ _)) by lia. case_match; by eexists.
  - rewrite (proj2 (Z.eqb_neq ks 0)) by done. cbn [negb obind]. rewrite (proj2 (Z.ltb_ge _ _)) by lia. case_match; by eexists.
Qed.
Lemma slot_range f ks nb key : 0 < nb -> 0 <= slot_of f ks nb key < nb.
Proof. intros H. unfold slot_of. case_match; [by apply Z.mod_pos_bound|lia..]. Qed.

(** The chains of the buckets. *)
Record chains_ok (G : table) (C : Z -> list Z) : Prop := {
  ch_chain i : 0 <= i < nbkt G -> chain (nxt G) (bkt G i) (C i);
  ch_nodup i : 0 <= i < nbkt G -> NoDup (C i);
  ch_apart i j x : 0 <= i < nbkt G -> 0 <= j < nbkt G -> x ∈ C i -> x ∈ C j -> i = j
}.

(** Tables that differ in cells of the hash and in the links of the nodes [X]. *)
Definition hash_loc (X : Z -> Prop) (l : loc) : Prop :=
  match l with LNext x => X x | LBucket _ => True | LHash f => f = HFree \/ f = HNode | _ => False end.
Inductive hash_writes (X : Z -> Prop) : table -> table -> Prop :=
  | hw_refl G : hash_writes X G G
  | hw_step G G' l v : hash_writes X G G' -> hash_loc X l -> hash_writes X G (upd l v G').

Section Writes.
Context (X : Z -> Prop) (G G' : table).
Hypothesis HW : hash_writes X G G'.
Lemma hw_same : hof G' = hof G /\ nsets G' = nsets G /\ nbkt G' = nbkt G /\ rest G' = rest G.
Proof. induction HW as [|G G' l v HW' IH]; [done|]. rewrite upd_hof, upd_nsets, upd_nbkt, upd_rest. exact (IH HW'). Qed.
Lemma hw_val l : ~ hash_loc X l -> val G' l = val G l.
Proof. intros Hl. induction HW as [|G G' l' v HW' IH Hl']; [done|]. rewrite val_upd_ne by (intros ->; done). by apply IH. Qed.
Lemma hw_table p N L st NL : table_ok p G N L st NL -> table_ok p G' N L st NL.
Proof. intros HT. induction HW as [|G G' l v HW' IH Hl]; [done|]. apply table_free; [exact (IH HW' HT)|]. by destruct l. Qed.
Lemma hw_ready x : ready G x -> ready G' x.
Proof. intros Hx. induction HW as [|G G' l v HW' IH Hl]; [done|]. apply ready_upd; [by destruct l|exact (IH HW' Hx)]. Qed.
Lemma hw_geo k : set_geo G k -> set_geo G' k.
Proof. intros Hx. induction HW as [|G G' l v HW' IH Hl]; [done|]. apply set_geo_upd; [by destruct l|exact (IH HW' Hx)]. Qed.
Lemma hw_nd x : nd G' x = nd G x.
Proof. unfold nd. by destruct hw_same as (-> & _). Qed.
Lemma hw_vdh x : vdh G' x = vdh G x.
Proof. exact (hw_val (LVd x) (fun F => F)). Qed.
Lemma hw_dirty x : dirty_bit G' x = dirty_bit G x.
Proof. unfold dirty_bit. by rewrite (hw_val (LDirty (x / 64)) (fun F => F) : dirty G' _ = _). Qed.
Lemma hw_lru x b : lru G' x b = lru G x b.
Proof. exact (hw_val (LLru x b) (fun F => F)). Qed.
Lemma hw_nxt x : ~ X x -> nxt G' x = nxt G x.
Proof. exact (hw_val (LNext x)). Qed.
Lemma hw_hashed p ks : hashed p G ks -> hashed p G' ks.
Proof.
  intros [H1 H2 H3 H4 H5]. destruct hw_same as (E1 & E2 & E3 & E4). split; rewrite ?E1, ?E3; try done.
  - by rewrite (hw_val (LHash HSize) ltac:(by intros []) : hh G' HSize = _).
  - by rewrite (hw_val (LHash HFixed) ltac:(by intros []) : hh G' HFixed = _).
Qed.
Lemma hw_linked p : linked p G -> linked p G'.
Proof. unfold linked. by destruct hw_same as (-> & _). Qed.
Lemma hw_index : index_ok G -> index_ok G'.
Proof. intros [I1 I2]. destruct hw_same as (E1 & _). split; rewrite E1; [done|]. intros i Hi. rewrite (hw_val (LFi i) (fun F => F) : fih G' i = _). exact (I2 i Hi). Qed.
End Writes.
Lemma hw_trans X G G' G'' : hash_writes X G G' -> hash_writes X G' G'' -> hash_writes X G G''.
Proof. intros H1 H2. induction H2 as [|G' G'' l v _ IH Hl]; [done|]. apply hw_step; [by apply IH|done]. Qed.
Lemma hw_mono (X Y : Z -> Prop) G G' : (forall x, X x -> Y x) -> hash_writes X G G' -> hash_writes Y G G'.
Proof. intros HX. induction 1 as [|G G' l v _ IH Hl]; [by constructor|]. apply hw_step; [done|]. destruct l; cbn in *; auto. Qed.
Lemma hw_one X G l v : hash_loc X l -> hash_writes X G (upd l v G).
Proof. intros Hl. apply hw_step; [constructor|done]. Qed.

Section Walks.
Context {S : Type} `{!Mallocator S, !MallocatorLaws S}.
Implicit Types (s : S) (G : table) (p : Pool).
#[local] Abbreviation PS := (ST (Pool * S)).

Section Cells.
Context (p : Pool) (s : S) (G : table) (ks : Z).
Hypothesis HR : Rep s G.
Hypothesis HH : hashed p G ks.

Lemma wp_slot_with f key (Q : Z -> Pool * S -> Prop) : key_ok ks key -> Q (slot_of f ks (nbkt G) key) (p, s) -> wp (slot_with f key) (p, s) Q.
Proof.
  intros Hk HQ. destruct HH as [H1 H2 H3 H4 H5]. destruct (key_hash f ks key Hk) as [v Ev]. unfold slot_of in HQ. rewrite Ev in HQ.
  apply wp_member. rewrite H1. apply wp_bind, wp_shm, (wp_rd s G (LHash HFixed)); [done|by split|done|done|]. cbn [val]. rewrite H5.
  apply wp_bind, (wp_lift _ v); [done|]. apply wp_bind, wp_shm, (wp_rd s G (LHash HSize)); [done|by split|cbn; lia|done|]. cbn [val]. rewrite H3.
  rewrite (proj2 (Z.eqb_neq _ _)) by lia. by apply wp_ret.
Qed.
Lemma wp_hash2_node i (Q : Z -> Pool * S -> Prop) : 0 <= i < nbkt G -> Q (bkt G i) (p, s) -> wp (hash2_node i) (p, s) Q.
Proof.
  intros Hi HQ. destruct HH as [H1 H2 H3 H4 H5]. apply wp_member. rewrite H1. apply wp_shm, (wp_rd s G (LBucket i)); [done|by split| |done|done].
  unfold hh_bucket, sizeof_HASH. cbn [lrole loff]. lia.
Qed.
Lemma wp_put_hash2_node i v (Q : unit -> Pool * S -> Prop) : 0 <= i < nbkt G -> 0 <= v < 2 ^ 32 ->
  (forall s', Rep s' (upd (LBucket i) v G) -> Q tt (p, s')) -> wp (put_hash2_node i v) (p, s) Q.
Proof.
  intros Hi Hv HQ. destruct HH as [H1 H2 H3 H4 H5]. apply wp_member. rewrite H1. apply wp_shm, (wp_wr s G (LBucket i)); [done|by split| |done|].
  - unfold hh_bucket, sizeof_HASH. cbn [lrole loff]. lia.
  - rewrite Z.mod_small by done. exact HQ.
Qed.
(** The counters wrap around. *)
Lemma wp_count f o v (Q : unit -> Pool * S -> Prop) : f = HFree \/ f = HNode -> o = loff (LHash f) ->
  (forall s' x, Rep s' (upd (LHash f) x G) -> Q tt (p, s')) -> wp (h ← member _hash; shm (add_to 4 (h + o) v)) (p, s) Q.
Proof.
  intros Hf -> HQ. destruct HH as [H1 H2 H3 H4 H5]. apply wp_member. rewrite H1. apply wp_shm, wp_bind, (wp_rd s G (LHash f)); [done|by split|done|by destruct f|].
  apply (wp_wr s G (LHash f)); [done|by split|done|by destruct f|]. intros s' H'. by eapply HQ.
Qed.
Lemma bkt_range i : 0 <= i < nbkt G -> 0 <= bkt G i < 2 ^ 32.
Proof. intros Hi. apply (Rep_val_range s G (LBucket i) HR). split; [apply HH|done]. Qed.
Lemma nxt_range id : set_geo G (id / 256) -> 0 <= nxt G id < 2 ^ 32.
Proof. intros Hg. apply (Rep_val_range s G (LNext id) HR). split; [apply Hg|done]. Qed.
End Cells.

(** ** Inserting *)

(** The counter of free buckets is adapted, or not. *)
Lemma wp_free_count p s G ks (b : bool) v X (Q : unit -> Pool * S -> Prop) : Rep s G -> hashed p G ks ->
  (forall s' G', Rep s' G' -> hash_writes X G G' -> bkt G' = bkt G -> nxt G' = nxt G -> Q tt (p, s')) ->
  wp (if b then inc_free_bucket v else mret tt) (p, s) Q.
Proof.
  intros HR HH HQ. destruct b; [|apply wp_ret; by apply (HQ s G); [|constructor|..]].
  apply (wp_count p s G ks HR HH HFree); [by left|done|]. intros s' x H'. by apply (HQ s' _ H'); [apply hw_one; left|..].
Qed.
Lemma wp_node_count p s G ks v X (Q : unit -> Pool * S -> Prop) : Rep s G -> hashed p G ks ->
  (forall s' G', Rep s' G' -> hash_writes X G G' -> bkt G' = bkt G -> nxt G' = nxt G -> Q tt (p, s')) -> wp (inc_node_cnt v) (p, s) Q.
Proof.
  intros HR HH HQ. apply (wp_count p s G ks HR HH HNode); [by right|done|]. intros s' x H'. by apply (HQ s' _ H'); [apply hw_one; right|..].
Qed.

Definition hash_of (newhash : bool) : list Z -> Z := if newhash then new_hash else hash_chars.
Definition slot_fun (newhash : bool) (ks nb : Z) (key : list Z) : Z := slot_of (hash_of newhash) ks nb key.
Lemma wp_slot p s G ks (b : bool) key (Q : Z -> Pool * S -> Prop) : Rep s G -> hashed p G ks -> key_ok ks key -> Q (slot_fun b ks (nbkt G) key) (p, s) ->
  wp (if b then new_hash_slot key else hash_slot key) (p, s) Q.
Proof. intros HR HH Hk HQ. destruct b; by apply (wp_slot_with p s G ks HR HH). Qed.

Lemma wp_Insert2Hash cfg p s G ks key id (Q : Z -> Pool * S -> Prop) (i := slot_fun (targetNewHash cfg) ks (nbkt G) key) : Rep s G -> hashed p G ks -> key_ok ks key -> set_geo G (id / 256) ->
  (forall s' G', Rep s' G' -> hash_writes (eq id) G G' -> bkt G' = <[i := id]> (bkt G) -> nxt G' = <[id := bkt G i]> (nxt G) -> Q 0 (p, s')) ->
  wp (Insert2Hash cfg key (nd G id)) (p, s) Q.
Proof.
  intros HR HH Hk Hg HQ. assert (Hi : 0 <= i < nbkt G) by apply slot_range, HH. unfold Insert2Hash, target_slot.
  apply wp_bind, (wp_slot p s G ks); [done..|]. fold i. apply wp_bind, (wp_hash2_node p s G ks HR HH); [done|].
  apply wp_bind, (wp_free_count p s G ks _ _ (eq id)); [done..|]. intros s1 G1 H1 W1 B1 N1. pose proof (hw_hashed _ _ _ W1 p ks HH) as HH1.
  apply wp_bind, (wp_node_count p s1 G1 ks _ (eq id)); [done..|]. intros s2 G2 H2 W2 B2 N2. pose proof (hw_trans _ _ _ _ W1 W2) as W12. pose proof (hw_hashed _ _ _ W12 p ks HH) as HH2.
  assert (Enb : nbkt G2 = nbkt G) by apply (hw_same _ _ _ W12). assert (Hi2 : 0 <= i < nbkt G2) by by rewrite Enb.
  apply wp_bind, (wp_hash2_node p s2 G2 ks H2 HH2); [done|]. pose proof (hw_geo _ _ _ W12 _ Hg) as Hg2. rewrite <-(hw_nd _ _ _ W12).
  apply wp_bind, wp_shm, (wp_put_next_node_id s2 G2 id H2 Hg2); [by apply (bkt_range p s2 G2 ks)|]. intros s3 H3. set (G3 := upd _ _ G2) in *.
  assert (W3 : hash_writes (eq id) G G3) by by apply hw_step. assert (HH3 : hashed p G3 ks) by by apply (hw_hashed _ _ _ W3).
  change (nd G2 id) with (nd G3 id). apply wp_bind, wp_shm, (wp_node_id s3 G3 id H3); [by apply (hw_geo _ _ _ W3)|].
  apply wp_bind, (wp_put_hash2_node p s3 G3 ks H3 HH3); [done|pose proof (id_small G id Hg); lia|]. intros s4 H4. apply wp_ret, (HQ s4 _ H4); [by apply hw_step| |].
  - change (bkt (upd (LBucket i) id G3)) with (<[i := id]> (bkt G2)). by rewrite B2, B1.
  - change (nxt (upd (LBucket i) id G3)) with (<[id := bkt G2 i]> (nxt G2)). by rewrite N2, N1, B2, B1.
Qed.
Lemma chains_insert G G' C i id : chains_ok G C -> 0 <= i < nbkt G -> (forall j, 0 <= j < nbkt G -> id ∉ C j) ->
  nbkt G' = nbkt G -> bkt G' = <[i := id]> (bkt G) -> nxt G' = <[id := bkt G i]> (nxt G) -> chains_ok G' (<[i := id :: C i]> C).
Proof.
  intros [C1 C2 C3] Hi Hn Enb EB EN. split; rewrite Enb.
  - intros j Hj. rewrite EB, EN. destruct (decide (j = i)) as [->|Hne].
    + rewrite !fn_lookup_insert. split; [done|]. rewrite fn_lookup_insert. eapply chain_ext; [|by apply C1].
      intros y Hy. apply fn_lookup_insert_ne. intros <-. by apply (Hn i).
    + rewrite !fn_lookup_insert_ne by done. eapply chain_ext; [|by apply C1]. intros y Hy. apply fn_lookup_insert_ne. intros <-. by apply (Hn j).
  - intros j Hj. destruct (decide (j = i)) as [->|Hne]; [|rewrite fn_lookup_insert_ne by done; by apply C2].
    rewrite fn_lookup_insert. apply NoDup_cons. split; [by apply Hn|by apply C2].
  - assert (Hx : forall j x, 0 <= j < nbkt G -> x ∈ <[i := id :: C i]> C j -> x ∈ C j \/ (x = id /\ j = i)).
    { intros j x Hj. destruct (decide (j = i)) as [->|Hne]; [rewrite fn_lookup_insert|rewrite fn_lookup_insert_ne by done; by left].
      intros [->|Hx]%elem_of_cons; [by right|by left]. }
    intros j k x Hj Hk [H1|[-> ->]]%Hx [H2|[E ->]]%Hx; try done; [by eapply C3|subst x; by destruct (Hn j)|by destruct (Hn k)].
Qed.

(** ** Walking *)

(** Where a link leads. *)
Definition hop (G : table) (x : Z) : Node := if decide (x = INVALID_NODE_ID) then mkNd 0 0 else nd G x.
Lemma wp_hop p s G x (Q : Node -> Pool * S -> Prop) : Rep s G -> linked p G -> (x <> INVALID_NODE_ID -> ready G x) -> Q (hop G x) (p, s) -> wp (Index_Search x) (p, s) Q.
Proof.
  intros HR Hl Hx HQ. unfold hop in HQ. destruct (decide (x = INVALID_NODE_ID)) as [->|Hne].
  - unfold Index_Search. rewrite Z.eqb_refl. by apply wp_ret.
  - apply (wp_Search p s G); auto.
Qed.
Lemma wp_next_node p s G x (Q : Node -> Pool * S -> Prop) : Rep s G -> linked p G -> ready G x -> (nxt G x <> INVALID_NODE_ID -> ready G (nxt G x)) ->
  Q (hop G (nxt G x)) (p, s) -> wp (next_node (nd G x)) (p, s) Q.
Proof. intros HR Hl Hx Hn HQ. apply wp_bind, wp_shm, (wp_next_node_id s G x HR); [apply Hx|]. by apply (wp_hop p s G). Qed.
Lemma ready_valid G x : ready G x -> x <> INVALID_NODE_ID.
Proof. intros Hx ->. destruct (ready_small _ _ Hx). unfold INVALID_NODE_ID in *. lia. Qed.
Lemma hop_ready G x : ready G x -> hop G x = nd G x.
Proof. intros Hx. unfold hop. rewrite decide_False; [done|by apply (ready_valid G)]. Qed.
Lemma chain_ready G f x xs : chain f x xs -> (forall y, y ∈ xs -> ready G y) -> x <> INVALID_NODE_ID -> ready G x.
Proof. destruct xs as [|y ys]; [done|]. intros [-> _] H _. apply H. by left. Qed.

Lemma wp_seek p s G id : Rep s G -> linked p G -> forall fuel rest l z (Q : Node * Node -> Pool * S -> Prop), (length rest < fuel)%nat -> chain (nxt G) (nxt G z) rest ->
  (forall y, y ∈ z :: rest -> ready G y) -> id ∉ l ++ [z] ->
  (forall l' z' r', l ++ z :: rest = l' ++ z' :: id :: r' -> Q (nd G z', nd G id) (p, s)) ->
  (id ∉ l ++ z :: rest -> forall z', Q (z', mkNd 0 0) (p, s)) -> wp (seek fuel (nd G z) (hop G (nxt G z)) id) (p, s) Q.
Proof.
  intros HR Hl. induction fuel as [|fuel IH]; intros rest l z Q Hf Hc Hr Hn HQ1 HQ2; [lia|]. destruct rest as [|y ys]; cbn [chain] in Hc.
  - rewrite Hc. cbn [seek]. unfold hop. rewrite decide_True by done. cbn [no_node owner Z.eqb orb]. apply wp_ret, HQ2. done.
  - destruct Hc as [-> Hc]. assert (Hy : ready G y) by (apply Hr; right; by left). rewrite (hop_ready _ _ Hy). cbn [seek]. rewrite (node_there G y) by apply Hy.
    apply wp_bind, wp_shm, (wp_node_id s G y HR); [apply Hy|]. destruct (Z.eqb_spec y id) as [->|Hne]; [by apply wp_ret, (HQ1 l z ys)|].
    apply wp_bind, (wp_next_node p s G y); [done|done|done|intros Hv; apply (chain_ready G (nxt G) _ ys); [done|intros w Hw; apply Hr; by do 2 right|done]|].
    apply (IH ys (l ++ [z]) y); [cbn in Hf; lia|done|intros w Hw; apply Hr; by right| |..].
    + rewrite <-app_assoc. apply not_elem_of_app in Hn as [H1 H2]. set_solver.
    + intros l' z' r' E. apply (HQ1 l' z' r'). by rewrite <-app_assoc in E.
    + intros Hx z'. apply HQ2. by rewrite <-app_assoc in Hx.
Qed.

(** ** Removing *)

Lemma chains_ext G C C' : (forall i, 0 <= i < nbkt G -> C' i = C i) -> chains_ok G C -> chains_ok G C'.
Proof.
  intros H [C1 C2 C3]. split.
  - intros i Hi. rewrite H by done. auto.
  - intros i Hi. rewrite H by done. auto.
  - intros i j x Hi Hj. rewrite !H by done. by apply C3.
Qed.
(** The chain [i] changes to a part of it. *)
Lemma chains_shrink G G' C i xs (X : Z -> Prop) : chains_ok G C -> 0 <= i < nbkt G -> hash_writes X G G' -> (forall x, X x -> x ∈ C i) ->
  (forall j, j <> i -> bkt G' j = bkt G j) -> chain (nxt G') (bkt G' i) xs -> sublist xs (C i) -> chains_ok G' (<[i := xs]> C).
Proof.
  intros [C1 C2 C3] Hi HW HX HB Hc Hs. destruct (hw_same _ _ _ HW) as (_ & _ & Enb & _).
  assert (Hx : forall j x, x ∈ <[i := xs]> C j -> x ∈ C j).
  { intros j x. destruct (decide (j = i)) as [->|Hne]; [rewrite fn_lookup_insert|by rewrite fn_lookup_insert_ne]. intros Hx. by eapply sublist_subseteq. }
  split; rewrite Enb.
  - intros j Hj. destruct (decide (j = i)) as [->|Hne]; [by rewrite fn_lookup_insert|]. rewrite fn_lookup_insert_ne, HB by done.
    eapply chain_ext; [|by apply C1]. intros y Hy. apply (hw_nxt _ _ _ HW). intros Hxy%HX. by apply Hne, (C3 j i y).
  - intros j Hj. destruct (decide (j = i)) as [->|Hne]; [|rewrite fn_lookup_insert_ne by done; auto]. rewrite fn_lookup_insert. eapply sublist_NoDup; [by apply C2|done].
  - intros j k x Hj Hk H1%Hx H2%Hx. by eapply C3.
Qed.
Section Remove.
Context (p : Pool) (s : S) (G : table) (ks : Z) (key : list Z) (id : Z) (b : bool) (C : Z -> list Z).
#[local] Abbreviation i := (slot_fun b ks (nbkt G) key).
Hypothesis HR : Rep s G.
Hypothesis Hl : linked p G.
Hypothesis HH : hashed p G ks.
Hypothesis HC : chains_ok G C.
Hypothesis Hrd : forall y, y ∈ id :: C i -> ready G y.

Definition removed (Q : Z -> Pool * S -> Prop) : Prop :=
  forall z s' G', Rep s' G' -> hash_writes (fun x => x ∈ C i /\ x <> id) G G' -> chains_ok G' (<[i := without id (C i)]> C) -> Q z (p, s').
Lemma bucket_range : 0 <= i < nbkt G.
Proof. apply slot_range, HH. Qed.
Lemma removed_none Q z : removed Q -> id ∉ C i -> Q z (p, s).
Proof.
  intros HQ Hn. apply (HQ z s G HR); [constructor|]. apply (chains_ext G C); [|done]. intros j _.
  destruct (decide (j = i)) as [->|Hne]; [by rewrite fn_lookup_insert, without_absent|by rewrite fn_lookup_insert_ne].
Qed.

(** The first of its chain *)
Lemma wp_remove_head xs (Q : Z -> Pool * S -> Prop) : C i = id :: xs -> removed Q ->
  wp (x ← shm (next_node_id (nd G id)); put_hash2_node i x;; b' ← hash2_node i; (if b' =? INVALID_NODE_ID then inc_free_bucket 1 else mret tt);; inc_node_cnt (-1);; mret 0) (p, s) Q.
Proof.
  intros E HQ. pose proof bucket_range as Hi. assert (Hg : set_geo G (id / 256)) by (apply Hrd; by left). pose proof (ch_chain _ _ HC i Hi) as Hc.
  pose proof (ch_nodup _ _ HC i Hi) as Hn. rewrite E in Hc, Hn. destruct Hc as [_ Hc]. apply NoDup_cons in Hn as [Hn _].
  apply wp_bind, wp_shm, (wp_next_node_id s G id HR Hg). apply wp_bind, (wp_put_hash2_node p s G ks HR HH); [done|by apply (nxt_range s)|]. intros s1 H1. set (G1 := upd _ _ G) in *.
  set (X := fun x => x ∈ C i /\ x <> id). assert (W1 : hash_writes X G G1) by by apply hw_one. pose proof (hw_hashed _ _ _ W1 p ks HH) as HH1.
  apply wp_bind, (wp_hash2_node p s1 G1 ks H1 HH1); [done|]. apply wp_bind, (wp_free_count p s1 G1 ks _ _ X); [done..|]. intros s2 G2 H2 W2 B2 N2.
  pose proof (hw_trans _ _ _ _ W1 W2) as W12. pose proof (hw_hashed _ _ _ W12 p ks HH) as HH2.
  apply wp_bind, (wp_node_count p s2 G2 ks _ X); [done..|]. intros s3 G3 H3 W3 B3 N3. pose proof (hw_trans _ _ _ _ W12 W3) as W13.
  apply wp_ret, (HQ 0 s3 G3 H3 W13). apply (chains_shrink G G3 C i _ X HC Hi W13); [by intros x []|..].
  - intros j Hj. rewrite B3, B2. by apply fn_lookup_insert_ne.
  - rewrite B3, B2, N3, N2, E. change (bkt G1 i) with (<[i := nxt G id]> (bkt G) i). rewrite fn_lookup_insert.
    unfold without. rewrite filter_cons_False by tauto. fold (without id xs). by rewrite without_absent.
  - apply without_sublist.
Qed.

(** Behind another one *)
Lemma wp_remove_behind l z r (Q : Z -> Pool * S -> Prop) : C i = l ++ z :: id :: r -> removed Q ->
  wp (y ← shm (next_node_id (nd G id)); shm (put_next_node_id (nd G z) y);; inc_node_cnt (-1);; mret 0) (p, s) Q.
Proof.
  intros E HQ. pose proof bucket_range as Hi. assert (Hg : set_geo G (id / 256)) by (apply Hrd; by left).
  assert (Hgz : set_geo G (z / 256)) by (apply Hrd; right; rewrite E; set_solver).
  pose proof (ch_chain _ _ HC i Hi) as Hc. pose proof (ch_nodup _ _ HC i Hi) as Hn. rewrite E in Hc, Hn.
  assert (Hzid : z <> id). { intros ->. rewrite NoDup_app in Hn. destruct Hn as (_ & _ & Hn). apply NoDup_cons in Hn as [Hn _]. apply Hn. by left. }
  set (X := fun x => x ∈ C i /\ x <> id). assert (HX : X z) by (split; [rewrite E; set_solver|done]).
  apply wp_bind, wp_shm, (wp_next_node_id s G id HR Hg). apply wp_bind, wp_shm, (wp_put_next_node_id s G z HR Hgz); [by apply (nxt_range s)|].
  intros s1 H1. set (G1 := upd _ _ G) in *. assert (W1 : hash_writes X G G1) by by apply hw_one. pose proof (hw_hashed _ _ _ W1 p ks HH) as HH1.
  apply wp_bind, (wp_node_count p s1 G1 ks _ X); [done..|]. intros s2 G2 H2 W2 B2 N2. pose proof (hw_trans _ _ _ _ W1 W2) as W12.
  apply wp_ret, (HQ 0 s2 G2 H2 W12). apply (chains_shrink G G2 C i _ X HC Hi W12); [by intros x []|by intros j _; rewrite B2| |apply without_sublist].
  rewrite B2, N2, E. change (nxt G1) with (<[z := nxt G id]> (nxt G)).
  replace (without id (l ++ z :: id :: r)) with (l ++ z :: r); [by apply chain_del|].
  change (l ++ z :: id :: r) with (l ++ [z] ++ id :: r) in *. rewrite app_assoc in *. rewrite without_middle, <-app_assoc by done. done.
Qed.

Lemma wp_remove_base fuel (Q : Z -> Pool * S -> Prop) : key_ok ks key -> (length (C i) < fuel)%nat -> removed Q -> wp (remove_from_hash_base fuel key (nd G id) b) (p, s) Q.
Proof.
  intros Hk Hf HQ. pose proof bucket_range as Hi. pose proof (ch_chain _ _ HC i Hi) as Hc. unfold remove_from_hash_base.
  apply wp_bind, (wp_slot p s G ks b key); [done..|]. apply wp_bind, (wp_hash2_node p s G ks HR HH); [done|].
  assert (E : C i = [] \/ exists x xs, C i = x :: xs) by (destruct (C i); eauto). destruct E as [E|(x & xs & E)]; rewrite E in Hc; cbn [chain] in Hc.
  { rewrite Hc, Z.eqb_refl. apply wp_ret, removed_none; [done|]. rewrite E. by intros ?%elem_of_nil. }
  destruct Hc as [Ex Hc]. assert (Hin : forall y, y ∈ x :: xs -> ready G y) by (intros y Hy; apply Hrd; rewrite E; by right). assert (Hx : ready G x) by (apply Hin; by left). pose proof (ready_valid _ _ Hx) as Hxv.
  rewrite Ex, (proj2 (Z.eqb_neq x _)) by done. assert (Hid : ready G id) by (apply Hrd; by left).
  apply wp_bind, wp_shm, (wp_node_id s G id HR); [apply Hid|]. destruct (Z.eqb_spec x id) as [->|Hne].
  { by apply (wp_remove_head xs Q E). }
  apply wp_bind, (wp_Search p s G); [done..|].
  apply wp_bind, (wp_next_node p s G x); [done|done|done|intros Hv; apply (chain_ready G (nxt G) _ xs); [done|intros w Hw; apply Hin; by right|done]|].
  apply wp_bind, (wp_seek p s G id HR Hl fuel xs [] x); [rewrite E in Hf; cbn in Hf; lia|done|exact Hin|set_solver| |].
  - intros l z r El. cbn [app] in El. rewrite (node_there G id) by apply Hid. apply (wp_remove_behind l z r Q); [by rewrite E|done].
  - intros Hn z. cbn. apply wp_ret, removed_none; [done|]. by rewrite E.
Qed.
End Remove.
End Walks.
