(* ===== verification/CacheInv.v ===== *)
(** The invariant of the cache: the chunks of the nodes, and a state of the cache in memory. *)
From Stdlib Require Import ZArith Lia.
From stdpp Require Import functions base list list_numbers numbers gmap.
From S2P Require Import Prelude TTree RawData PtMalloc PtSpec Mallocator NodeTable NodeRep NodeAcc NodeLru NodeGroup NodeNg NodeInv NodeAlloc NodeAllot NodeLists NodeSpec Hash BufferPool CacheRep.
Import AllocSpec.
Local Open Scope Z_scope.

Abbreviation lru_list := NodeSpec.lru_list.
#[export] Existing Instance NodeSpec.lru_list_eq_dec.
Abbreviation head_of := NodeSpec.head_of.
Abbreviation Clean := NodeSpec.Clean.
Abbreviation Dirty := NodeSpec.Dirty.
Abbreviation Empty := NodeSpec.Empty.

Lemma key_ok_pos ks key : key_ok ks key -> (0 < length key <= 256)%nat.
Proof.
  intros (Hb & H0 & Hk). destruct (decide (ks = 0)) as [E|Hne]; [|lia]. destruct Hk as (b & k & -> & Hl). apply Forall_cons in Hb as [Hb _]. unfold is_u in Hb. cbn. lia.
Qed.

(** ** The other blocks of the segment *)

Definition set_rest (r : blocks) (G : table) : table :=
  mkTable (hof G) (nsets G) (nbkt G) (info G) (hdr G) (nxt G) (lru G) (vdh G) (dirty G) (fih G) (siu G) (sih G) (hh G) (bkt G) r.
Lemma table_rest p G N L st NL r : table_ok p G N L st NL -> table_ok p (set_rest r G) N L st NL.
Proof.
  intros [T1 [] [] [] [N1 N2] T6 T7 [T8 ? ?] [[] ?] T10]. split; try done; try by split.
  - split; [|done]. intros k Hk. apply (group_ext G); [done|done|by apply N1].
Qed.

Section Rest.
Context {S : Type} `{!Mallocator S, !MallocatorLaws S}.
Implicit Types (s : S) (G : table) (p : Pool).

Lemma Rep_other s G h bs : Rep s G -> h <> 0 -> rest G !! h = Some bs -> exists A, heap s A /\ in_heap A G /\ A !! h = Some bs /\ forall r, hof G r <> h.
Proof.
  intros (A & HA & HG) Hh Hb. assert (Hr : forall r, hof G r <> h).
  { intros r <-. by rewrite (ih_apart A G HG r Hh) in Hb. }
  exists A. split; [done|]. split; [done|]. split; [|done]. by rewrite (ih_rest A G HG h Hh Hr).
Qed.
Lemma wp_other_read s G h bs (n o : nat) (Q : Z -> S -> Prop) : Rep s G -> h <> 0 -> rest G !! h = Some bs -> (o + n <= length bs)%nat ->
  Q (le_value (take n (drop o bs))) s -> wp (mread n (h + Z.of_nat o)) s Q.
Proof. intros HR Hh Hb Hn HQ. destruct (Rep_other s G h bs HR Hh Hb) as (A & HA & _ & HAb & _). eapply wp_eq; [by eapply mread_law|done]. Qed.
Lemma other_bytes s G h bs : Rep s G -> h <> 0 -> rest G !! h = Some bs -> bytes_ok bs /\ 0 < h < 2 ^ 64.
Proof.
  intros HR Hh Hb. destruct (Rep_other s G h bs HR Hh Hb) as (A & HA & _ & HAb & _). split; [by eapply heap_bytes|]. eapply heap_handle; [done|]. by exists bs.
Qed.
Lemma wp_other_byte s G h bs b (o : nat) (Q : Z -> S -> Prop) : Rep s G -> h <> 0 -> rest G !! h = Some bs -> bs !! o = Some b ->
  Q b s -> wp (mread 1 (h + Z.of_nat o)) s Q.
Proof.
  intros HR Hh Hb Ho HQ. pose proof (lookup_lt_Some _ _ _ Ho). apply (wp_other_read s G h bs); [done..|lia|].
  replace (take 1 (drop o bs)) with [b]; [cbn; by rewrite Z.add_0_r|]. by rewrite (drop_S _ _ _ Ho).
Qed.
(** A block is freed. *)
Lemma wp_other_free s G h bs (Q : Z -> S -> Prop) : Rep s G -> h <> 0 -> rest G !! h = Some bs ->
  (forall s', Rep s' (set_rest (delete h (rest G)) G) -> Q 0 s') -> wp (free h) s Q.
Proof.
  intros HR Hh Hb HQ. destruct (Rep_other s G h bs HR Hh Hb) as (A & HA & HG & HAb & Hr).
  destruct (free_law s A h HA) as (s' & E & H'); [by exists bs|]. exists 0, s'. split; [done|]. apply HQ. exists (delete h A). split; [done|].
  destruct HG as [I1 I2 I3 I4 I5 I6]. split; cbn; try done.
  - intros r Hz. rewrite lookup_delete_ne by (intros E'; by apply (Hr r)). by apply I2.
  - intros x Hx Hn. destruct (decide (x = h)) as [->|Hne]; [by rewrite !lookup_delete_eq|]. rewrite !lookup_delete_ne by done. by apply I4.
  - intros r Hz. rewrite lookup_delete_None. right. by apply I5.
  - intros l b Hl Hlb. apply (I6 l b Hl). rewrite lookup_delete_ne in Hlb; [done|]. intros E'. by apply (Hr (lrole l)).
Qed.
(** A new block is there, and the rest is as it was. *)
Lemma Rep_new s s' A G h bs : heap s A -> in_heap A G -> A !! h = None -> h <> 0 -> heap s' (<[h := bs]> A) -> Rep s' (set_rest (<[h := bs]> (rest G)) G).
Proof.
  intros HA [I1 I2 I3 I4 I5 I6] Hn Hh H'. assert (Hr : forall r, hof G r <> h).
  { intros r <-. destruct (I2 r Hh) as (b & Hb & _). by rewrite Hn in Hb. }
  exists (<[h := bs]> A). split; [done|]. split; cbn; try done.
  - intros r Hz. rewrite lookup_insert_ne by (intros E'; by apply (Hr r)). by apply I2.
  - intros x Hx Hxn. destruct (decide (x = h)) as [->|Hne]; [by rewrite !lookup_insert_eq|]. rewrite !lookup_insert_ne by done. by apply I4.
  - intros r Hz. rewrite lookup_insert_ne; [by apply I5|]. intros E'. by apply (Hr r).
  - intros l b Hl Hlb. apply (I6 l b Hl). rewrite lookup_insert_ne in Hlb; [done|]. intros E'. by apply (Hr (lrole l)).
Qed.

(** ** Chunks *)

(** A raw chunk of a key, for either table of the definition. *)
Definition chunk_ok (A : blocks) (h : Z) (key : list Z) : Prop :=
  exists t hd more, A !! h = Some (t :: hd ++ key ++ more) /\ (t = 0 \/ t = 128) /\ length hd = 15%nat /\ (0 < length key)%nat.
(** What [Destroy] does to the blocks: it takes the type byte as it is. *)
Definition destroyed (A : blocks) (h : Z) : blocks :=
  match A !! h with Some (0 :: _) => delete h A | _ => A end.

Section Chunk.
Context (s : S) (G : table) (h : Z) (key : list Z).
Hypothesis HR : Rep s G.
Hypothesis Hh : h <> 0.
Hypothesis HC : chunk_ok (rest G) h key.

Lemma wp_chunk_type (Q : Z -> S -> Prop) : (forall t, t = 0 \/ t = 128 -> Q t s) -> wp (mread 1 h) s Q.
Proof.
  intros HQ. destruct HC as (t & hd & more & Hb & Ht & _). rewrite <-(Z.add_0_r h). apply (wp_other_byte s G h (t :: hd ++ key ++ more) t 0%nat); auto.
Qed.
Lemma wp_chunk_Key (Q : Z -> S -> Prop) : Q (h + 16) s -> wp (chunk_Key h) s Q.
Proof. intros HQ. apply wp_bind, wp_chunk_type. intros t [->| ->]; by apply wp_ret. Qed.
Lemma wp_chunk_total_rows (Q : Z -> S -> Prop) : (forall v, Q v s) -> wp (chunk_total_rows h) s Q.
Proof.
  intros HQ. apply wp_bind, wp_chunk_type. intros t Ht. destruct HC as (t' & hd & more & Hb & _ & Hd & Hk).
  destruct (t =? DATA_TYPE_RAW); [change 5 with (Z.of_nat 5)|change 13 with (Z.of_nat 13)]; (eapply (wp_other_read s G); [done|done|exact Hb|cbn; rewrite !length_app; lia|by apply HQ]).
Qed.
Lemma key_byte i b : key !! i = Some b -> forall (Q : Z -> S -> Prop), Q b s -> wp (mread 1 (h + 16 + Z.of_nat i)) s Q.
Proof.
  intros Hi Q HQ. destruct HC as (t & hd & more & Hb & _ & Hd & _). replace (h + 16 + Z.of_nat i) with (h + Z.of_nat (Datatypes.S (length hd + i))) by lia.
  eapply (wp_other_byte s G); [done|done|exact Hb| |done]. change ((hd ++ key ++ more) !! (length hd + i)%nat = Some b). rewrite lookup_app_r by lia. replace (length hd + i - length hd)%nat with i by lia.
  rewrite lookup_app_l; [done|]. by eapply lookup_lt_Some.
Qed.
Lemma wp_read_key (n i : nat) (Q : list Z -> S -> Prop) : (i + n = length key)%nat -> Q (drop i key) s -> wp (read_bytes (h + 16 + Z.of_nat i) n) s Q.
Proof.
  revert i Q. induction n as [|n IH]; intros i Q Hn HQ; cbn [read_bytes].
  - apply wp_ret. by rewrite drop_ge in HQ by lia.
  - destruct (lookup_lt_is_Some_2 key i) as [b Hb]; [lia|]. apply wp_bind, (key_byte i b Hb). apply wp_bind.
    replace (h + 16 + Z.of_nat i + 1) with (h + 16 + Z.of_nat (Datatypes.S i)) by lia. apply IH; [lia|]. apply wp_ret. by rewrite <-(drop_S _ _ _ Hb).
Qed.

(** Comparing a key that is packed the same way *)
Lemma wp_memcmp (n i : nat) other (Q : Z -> S -> Prop) : length other = n -> (i + n = length key)%nat -> (forall c, (c = 0 <-> other = drop i key) -> Q c s) ->
  wp (memcmp_seg other n (h + 16 + Z.of_nat i)) s Q.
Proof.
  revert i other Q. induction n as [|n IH]; intros i other Q Ho Hn HQ; cbn [memcmp_seg].
  - apply wp_ret, HQ. split; [intros _|done]. rewrite drop_ge by lia. by apply nil_length_inv.
  - destruct other as [|x other]; [done|]. destruct (lookup_lt_is_Some_2 key i) as [b Hb]; [lia|]. apply wp_bind, (key_byte i b Hb).
    destruct (Z.eqb_spec x b) as [->|Hne].
    + replace (h + 16 + Z.of_nat i + 1) with (h + 16 + Z.of_nat (Datatypes.S i)) by lia. apply IH; [cbn in Ho; lia|lia|]. intros c Hc. apply HQ. rewrite Hc, (drop_S _ _ _ Hb). split; [by intros ->|by intros [=]].
    + apply wp_ret, HQ. rewrite (drop_S _ _ _ Hb). split; [lia|by intros [=]].
Qed.
Lemma wp_key_cmp cfg other (Q : Z -> S -> Prop) : key_ok (keySize cfg) other -> key_ok (keySize cfg) key -> (forall c, (c = 0 <-> other = key) -> Q c s) ->
  wp (key_cmp cfg other (h + 16)) s Q.
Proof.
  intros (_ & H0 & Ho) (_ & _ & Hk) HQ. unfold key_cmp, key_length. replace (h + 16) with (h + 16 + Z.of_nat 0) by lia.
  destruct (decide (keySize cfg = 0)) as [->|Hne]; [|rewrite (proj2 (Z.eqb_neq _ _)) by done].
  - destruct Ho as (b & k & -> & Eb), Hk as (b' & k' & Ek & Eb'). cbn [Z.eqb]. apply wp_bind, (wp_lift _ (b + 1)); [done|].
    destruct (decide (b = b')) as [<-|Hb].
    + apply wp_memcmp; [cbn; lia|rewrite Ek; cbn; lia|done].
    + replace (Z.to_nat (b + 1)) with (Datatypes.S (length k)) by lia. cbn [memcmp_seg]. apply wp_bind, (key_byte 0 b'); [by rewrite Ek|].
      rewrite (proj2 (Z.eqb_neq _ _)) by done. apply wp_ret, HQ. rewrite Ek. split; [lia|by intros [=]].
  - apply wp_bind, (wp_lift _ (keySize cfg)); [done|]. apply wp_memcmp; [lia|lia|done].
Qed.

Lemma wp_chunk_Destroy env (Q : Z -> S -> Prop) : (forall r s', Rep s' (set_rest (destroyed (rest G) h) G) -> Q r s') -> wp (chunk_Destroy env h) s Q.
Proof.
  intros HQ. destruct HC as (t & hd & more & Hb & Ht & _). unfold chunk_Destroy, destroyed in *. rewrite Hb in HQ. apply wp_bind.
  rewrite <-(Z.add_0_r h) at 1. apply (wp_other_byte s G h (t :: hd ++ key ++ more) t 0%nat); [done|done|exact Hb|done|].
  destruct Ht as [->| ->]; cbn [Z.eqb Pos.eqb].
  - apply (wp_other_free s G h _ _ HR Hh Hb). intros s' H'. by eapply HQ.
  - change (128 =? DATA_TYPE_RAW) with false. change (128 =? DATA_TYPE_TREE_ROOT) with false. cbn [orb]. apply wp_ret, (HQ (-1) s). by destruct G.
Qed.
End Chunk.
End Rest.

(** ** States of the cache *)

Record entry := mkEntry { e_key : list Z; e_handle : Z; e_dirty : bool }.
(** The keys with their nodes, the markers with their times, the eviction lists, the
    released nodes, and the blocks of the segment that are not the table's: the chunks
    among them. *)
Record cview := mkView {
  v_entries : gmap Z entry;
  v_marks : gmap Z Z;
  v_list : lru_list -> list Z;
  v_spare : gset Z;
  v_rest : blocks
}.
Definition live (v : cview) : gset Z := dom (v_entries v) ∪ dom (v_marks v).

(** The buckets a key may hang in: while the hash is being changed, those of either hash. *)
Definition in_slot (cfg : Config) (nb i : Z) (key : list Z) : Prop :=
  if hashChanging cfg then exists b, i = slot_fun b (keySize cfg) nb key else i = slot_fun (targetNewHash cfg) (keySize cfg) nb key.

Record entry_ok (cfg : Config) (G : table) (C : Z -> list Z) (id : Z) (e : entry) : Prop := {
  en_handle : vdh G id = e_handle e;
  en_dirty : dirty_bit G id = e_dirty e;
  en_key : key_ok (keySize cfg) (e_key e);
  en_slot i : 0 <= i < nbkt G -> id ∈ C i -> in_slot cfg (nbkt G) i (e_key e)
}.
(** [dead] is the node whose chunk has just been destroyed, if there is one. *)
Record cshows (cfg : Config) (dead : option Z) (p : Pool) (G : table) (L st NL C : Z -> list Z) (v : cview) : Prop := {
  cs_table : table_ok p G (live v) L st NL;
  cs_apart : dom (v_entries v) ## dom (v_marks v);
  cs_lists w : L (head_of w) = v_list v w;
  cs_spare x : x ∈ v_spare v -> NodeSpec.allotted_id G x /\ x ∉ live v;
  cs_rest : rest G = v_rest v;
  cs_hash : hashed p G (keySize cfg);
  cs_chains : chains_ok G C;
  cs_in x : x ∈ dom (v_entries v) <-> exists i, 0 <= i < nbkt G /\ x ∈ C i;
  cs_entry id e : v_entries v !! id = Some e -> entry_ok cfg G C id e;
  cs_chunk id e : dead <> Some id -> v_entries v !! id = Some e -> e_handle e <> 0 -> chunk_ok (v_rest v) (e_handle e) (e_key e);
  cs_once id id' e e' : v_entries v !! id = Some e -> v_entries v !! id' = Some e' ->
    e_handle e <> 0 -> e_handle e = e_handle e' -> id = id';
  cs_mark id t : v_marks v !! id = Some t -> nxt G id = TIME_MARKER_NEXT_NODE_ID /\ vdh G id = t
}.

Section Shows.
Context (cfg : Config) (dead : option Z) (p : Pool) (G : table) (L st NL C : Z -> list Z) (v : cview).
Hypothesis HS : cshows cfg dead p G L st NL C v.
#[local] Abbreviation ks := (keySize cfg).

Lemma entry_live id e : v_entries v !! id = Some e -> id ∈ live v.
Proof. intros H. apply elem_of_union_l. by eapply elem_of_dom_2. Qed.
Lemma mark_live id t : v_marks v !! id = Some t -> id ∈ live v.
Proof. intros H. apply elem_of_union_r. by eapply elem_of_dom_2. Qed.
Lemma shows_ready x : x ∈ live v -> ready G x.
Proof. apply (live_ready _ _ _ _ _ _ (cs_table _ _ _ _ _ _ _ _ _ HS)). Qed.
Lemma chain_entry i x : 0 <= i < nbkt G -> x ∈ C i -> x ∈ dom (v_entries v).
Proof. intros Hi Hx. apply (cs_in _ _ _ _ _ _ _ _ _ HS). by exists i. Qed.
Lemma chain_live i x : 0 <= i < nbkt G -> x ∈ C i -> ready G x.
Proof. intros Hi Hx. apply shows_ready, elem_of_union_l. by eapply chain_entry. Qed.
Lemma chain_size i : 0 <= i < nbkt G -> (length (C i) <= size (v_entries v))%nat.
Proof.
  intros Hi. rewrite <-size_dom. rewrite <-(size_list_to_set (C := gset Z) (C i)) by by apply (ch_nodup _ _ (cs_chains _ _ _ _ _ _ _ _ _ HS)).
  apply subseteq_size. intros x Hx%elem_of_list_to_set. by eapply chain_entry.
Qed.
Lemma mark_no_entry id t : v_marks v !! id = Some t -> v_entries v !! id = None.
Proof. intros H%elem_of_dom_2. apply not_elem_of_dom. intros Hx. by apply (cs_apart _ _ _ _ _ _ _ _ _ HS id). Qed.
End Shows.

(** The table changes in the hash only. *)
Lemma shows_hash cfg dead p G G' L st NL C C' v X : cshows cfg dead p G L st NL C v -> hash_writes X G G' -> (forall x, X x -> x ∈ dom (v_entries v)) ->
  chains_ok G' C' -> (forall x, x ∈ dom (v_entries v) <-> exists i, 0 <= i < nbkt G /\ x ∈ C' i) ->
  (forall id e i, v_entries v !! id = Some e -> 0 <= i < nbkt G -> id ∈ C' i -> in_slot cfg (nbkt G) i (e_key e)) -> cshows cfg dead p G' L st NL C' v.
Proof.
  intros [S1 S2 S3 S4 S5 S6 S7 S8 S9 S10 S11 S12] HW HX HC Hin Hsl. destruct (hw_same _ _ _ HW) as (E1 & E2 & E3 & E4). split; try done.
  - by apply (hw_table _ _ _ HW).
  - intros x Hx. destruct (S4 x Hx) as [[H1 H2] H3]. split; [|done]. split; [by rewrite E2|].
    by rewrite (hw_val _ _ _ HW (LSet (x / 256) SFree) (fun F => F) : hdr G' _ SFree = _).
  - by rewrite E4.
  - by apply (hw_hashed _ _ _ HW).
  - by rewrite E3.
  - intros id e He. destruct (S9 id e He) as [Q1 Q2 Q3 Q4]. split; [by rewrite (hw_vdh _ _ _ HW)|by rewrite (hw_dirty _ _ _ HW)|done|]. rewrite E3. intros i. by apply Hsl.
  - intros id t Ht. rewrite (hw_vdh _ _ _ HW), (hw_nxt _ _ _ HW); [by apply S12|]. intros Hx%HX. apply (S2 id Hx). by eapply elem_of_dom_2.
Qed.
(** The eviction lists change. *)
Lemma shows_lists cfg dead p G L L' st NL C v f lists : cshows cfg dead p G L st NL C v -> table_ok p (with_lru f G) (live v) L' st NL ->
  (forall w, L' (head_of w) = lists w) ->
  cshows cfg dead p (with_lru f G) L' st NL C (mkView (v_entries v) (v_marks v) lists (v_spare v) (v_rest v)).
Proof.
  intros [S1 S2 S3 S4 S5 [] [] S8 S9 S10 S11 S12] HT HL. split; try done. intros id e He. by destruct (S9 id e He).
Qed.

(** ** Leaving the hash *)

Section Ops.
Context {S : Type} `{!Mallocator S, !MallocatorLaws S}.
Context (cfg : Config) (env : Env).
Implicit Types (s : S) (G : table) (p : Pool).
#[local] Abbreviation PS := (ST (Pool * S)).
#[local] Abbreviation CS := (ST (events * (Pool * S))).
#[local] Abbreviation ks := (keySize cfg).

Lemma wp_pool {A} (m : PS A) log st (Q : A -> events * (Pool * S) -> Prop) : wp m st (fun a st' => Q a (log, st')) -> wp (pool m) (log, st) Q.
Proof. intros (a & st' & E & HQ). exists a, (log, st'). split; [|done]. unfold pool. cbn. by rewrite E. Qed.
Lemma wp_seg {A} (m : ST S A) log p s (Q : A -> events * (Pool * S) -> Prop) : wp m s (fun a s' => Q a (log, (p, s'))) -> wp (seg m) (log, (p, s)) Q.
Proof. intros H. by apply wp_pool, wp_shm. Qed.

Section Out.
Context (dead : option Z) (p : Pool) (s : S) (G : table) (L st NL C : Z -> list Z) (v : cview) (fuel : nat) (key : list Z) (id : Z).
Hypothesis HR : Rep s G.
Hypothesis HS : cshows cfg dead p G L st NL C v.
Hypothesis Hf : (size (v_entries v) < fuel)%nat.
Hypothesis Hk : key_ok ks key.
Hypothesis Hid : id ∈ dom (v_entries v).

#[local] Abbreviation HT := (cs_table _ _ _ _ _ _ _ _ _ HS).
#[local] Abbreviation HH := (cs_hash _ _ _ _ _ _ _ _ _ HS).
Definition in_chain (x : Z) : Prop := (exists i, 0 <= i < nbkt G /\ x ∈ C i) /\ x <> id.

(** The chains where the node is looked for lose it. *)
Lemma wp_remove_one C1 s1 G1 b (Q : Z -> Pool * S -> Prop) : Rep s1 G1 -> hash_writes in_chain G G1 -> chains_ok G1 C1 -> (forall i, 0 <= i < nbkt G -> sublist (C1 i) (C i)) ->
  (forall z s' G', Rep s' G' -> hash_writes in_chain G G' -> chains_ok G' (<[slot_fun b ks (nbkt G) key := without id (C1 (slot_fun b ks (nbkt G) key))]> C1) -> Q z (p, s')) ->
  wp (remove_from_hash_base fuel key (nd G id) b) (p, s1) Q.
Proof.
  intros H1 W1 HC1 Hsub HQ. destruct (hw_same _ _ _ W1) as (_ & _ & E3 & _). assert (Hi : 0 <= slot_fun b ks (nbkt G) key < nbkt G) by apply slot_range, HH.
  rewrite <-(hw_nd _ _ _ W1). apply (wp_remove_base p s1 G1 ks key id b C1 H1); [by apply (hw_linked _ _ _ W1), HT|by apply (hw_hashed _ _ _ W1), HH|done| |done| |].
  - rewrite E3. intros y [->|Hy]%elem_of_cons; apply (hw_ready _ _ _ W1).
    + apply (shows_ready _ _ _ _ _ _ _ _ _ HS). by apply elem_of_union_l.
    + apply (chain_live _ _ _ _ _ _ _ _ _ HS _ _ Hi). by eapply sublist_subseteq; [apply Hsub|].
  - rewrite E3. pose proof (chain_size _ _ _ _ _ _ _ _ _ HS _ Hi). pose proof (sublist_length _ _ (Hsub _ Hi)). lia.
  - intros z s' G' H' W' HC'. rewrite E3 in *. apply (HQ z s' G' H'); [|done]. eapply hw_trans; [exact W1|]. eapply hw_mono; [|exact W'].
    intros x [Hx Hne]. split; [|done]. eexists. split; [exact Hi|]. by eapply sublist_subseteq; [apply Hsub|].
Qed.

Lemma wp_remove_from_hash (Q : Z -> Pool * S -> Prop) : (forall i, 0 <= i < nbkt G -> id ∈ C i -> in_slot cfg (nbkt G) i key) ->
  (forall s' G' C', Rep s' G' -> hash_writes in_chain G G' -> chains_ok G' C' -> (forall i, 0 <= i < nbkt G -> C' i = without id (C i)) -> Q 0 (p, s')) ->
  wp (remove_from_hash cfg fuel key (nd G id)) (p, s) Q.
Proof.
  intros Hslot HQ. unfold remove_from_hash, in_slot in *. apply wp_bind. destruct (hashChanging cfg).
  - apply wp_bind, (wp_remove_one C s G true); [done|constructor|apply HS|done|]. intros _ s1 G1 H1 W1 HC1. set (i1 := slot_fun true _ _ _) in *.
    apply (wp_remove_one _ s1 G1 false _ H1 W1 HC1).
    { intros i _. destruct (decide (i = i1)) as [->|Hne]; [rewrite fn_lookup_insert; apply without_sublist|by rewrite fn_lookup_insert_ne]. }
    intros _ s2 G2 H2 W2 HC2. apply wp_ret. eapply HQ; [exact H2|exact W2|exact HC2|]. set (i0 := slot_fun false _ _ _) in *. intros i Hi.
    assert (Hc : i = i1 \/ i = i0 \/ id ∉ C i). { destruct (decide (id ∈ C i)) as [Hin|]; [|tauto]. destruct (Hslot i Hi Hin) as [[|] ->]; tauto. }
    destruct (decide (i = i0)) as [->|H0]; [rewrite fn_lookup_insert|rewrite fn_lookup_insert_ne by done];
      (destruct (decide (i0 = i1)) as [E|]; [rewrite <-E in *|]); try (destruct (decide (i = i1)) as [->|]);
      rewrite ?fn_lookup_insert, ?fn_lookup_insert_ne, ?without_twice by done; try done; destruct Hc as [|[|]]; try done; by rewrite without_absent.
  - apply (wp_remove_one C s G (targetNewHash cfg)); [done|constructor|apply HS|done|]. intros _ s1 G1 H1 W1 HC1. apply wp_ret. eapply HQ; [exact H1|exact W1|exact HC1|].
    set (i1 := slot_fun _ _ _ _) in *. intros i Hi. destruct (decide (i = i1)) as [->|Hne]; [by rewrite fn_lookup_insert|]. rewrite fn_lookup_insert_ne by done.
    rewrite without_absent; [done|]. intros Hin. by apply Hne, (Hslot i Hi Hin).
Qed.
End Out.
End Ops.
