(* ===== verification/CacheOps.v ===== *)
(** The operations of the cache keep its invariant: purging, finding, allocating. *)
From Stdlib Require Import ZArith Lia.
From stdpp Require Import functions base list list_numbers numbers gmap.
From S2P Require Import Prelude TTree RawData PtMalloc PtSpec Mallocator NodeTable NodeRep NodeAcc NodeLru NodeGroup NodeNg NodeInv NodeAlloc NodeAllot NodeRelease NodeLists NodeSpec Hash BufferPool CacheRep CacheInv.
Import AllocSpec.
Local Open Scope Z_scope.

(** The node [id] leaves the cache; its chunk is not looked at. *)
Definition drop_entry (id : Z) (v : cview) : cview :=
  mkView (delete id (v_entries v)) (v_marks v) (fun w => without id (v_list v w)) ({[id]} ∪ v_spare v) (v_rest v).

Lemma kept_hashed p N G G' ks : kept N G G' -> hashed p G ks -> hashed p G' ks.
Proof. intros HK [H1 H2 H3 H4 H5]. split; rewrite ?(kp_hash _ _ _ HK), ?(kp_hh _ _ _ HK), ?(kp_nbkt _ _ _ HK); done. Qed.
Lemma kept_chains N G G' C : kept N G G' -> (forall i x, 0 <= i < nbkt G -> x ∈ C i -> x ∈ N) -> chains_ok G C -> chains_ok G' C.
Proof.
  intros HK HN [C1 C2 C3]. split; rewrite (kp_nbkt _ _ _ HK); [|done|done]. intros i Hi. rewrite (kp_bkt _ _ _ HK). eapply chain_ext; [|by apply C1].
  intros y Hy. apply (kp_node _ _ _ HK). by eapply HN.
Qed.
Lemma live_allotted_id p G N L st NL id : table_ok p G N L st NL -> id ∈ N -> NodeSpec.allotted_id G id.
Proof. intros HT Hid. by destruct (proj1 (no_live _ _ _ (tb_nodes _ _ _ _ _ _ HT) id) Hid) as (? & ? & _). Qed.
Lemma allotted_hw X G G' id : hash_writes X G G' -> NodeSpec.allotted_id G id -> NodeSpec.allotted_id G' id.
Proof.
  intros HW [H1 H2]. destruct (hw_same _ _ _ HW) as (_ & E2 & _). split; [by rewrite E2|].
  by rewrite (hw_val _ _ _ HW (LSet (id / 256) SFree) (fun F => F) : hdr G' _ SFree = _).
Qed.

Section Ops.
Context {S : Type} `{!Mallocator S, !MallocatorLaws S}.
Context (cfg : Config) (env : Env).
Implicit Types (s : S) (G : table) (p : Pool).
#[local] Abbreviation PS := (ST (Pool * S)).
#[local] Abbreviation CS := (ST (events * (Pool * S))).
#[local] Abbreviation ks := (keySize cfg).
#[local] Abbreviation shows := (cshows cfg None).

(** ** Purging *)

Definition noted (key : list Z) (id : Z) : events := if purge_notifier cfg then [(key, id)] else [].

(** The view without [id], when the node has been put back. *)
Lemma shows_dropped dead p G G1 G' L L' st st' NL NL' C C' v id f : cshows cfg dead p G L st NL C v -> (dead = None \/ dead = Some id) -> id ∈ dom (v_entries v) ->
  hash_writes (in_chain G C id) G G1 -> chains_ok G1 C' -> (forall i, 0 <= i < nbkt G -> C' i = without id (C i)) ->
  (forall w, L' (head_of w) = without id (L (head_of w))) -> table_ok p G' (live v ∖ {[id]}) L' st' NL' -> kept (live v ∖ {[id]}) (with_lru f G1) G' ->
  shows p G' L' st' NL' C' (drop_entry id v).
Proof.
  intros [S1 S2 S3 S4 S5 S6 S7 S8 S9 S10 S11 S12] Hd Hid HW HC HC' HL HT' HK. destruct (hw_same _ _ _ HW) as (E1 & E2 & E3 & E4).
  assert (Hidm : id ∉ dom (v_marks v)) by (intros Hx; by apply (S2 id)).
  assert (Hin : forall i x, 0 <= i < nbkt G1 -> x ∈ C' i -> x ∈ dom (v_entries v) /\ x <> id).
  { intros i x. rewrite E3. intros Hi. rewrite HC', elem_of_without by done. intros [Hne Hx]. split; [|done]. apply S8. by exists i. }
  assert (Elive : live (drop_entry id v) = live v ∖ {[id]}) by (unfold live; cbn; rewrite dom_delete_L; set_solver).
  assert (Hkeep : forall x, x ∈ live v -> x <> id -> vdh G' x = vdh G x /\ dirty_bit G' x = dirty_bit G x /\ (x ∉ dom (v_entries v) -> nxt G' x = nxt G x)).
  { intros x Hx Hne. destruct (kp_node _ _ _ HK x) as (K1 & K2 & K3); [set_solver|]. rewrite K1, K2, K3. split; [exact (hw_vdh _ _ _ HW x)|]. split; [exact (hw_dirty _ _ _ HW x)|].
    intros Hxe. apply (hw_nxt _ _ _ HW). intros [[i [Hi Hxi]] _]. apply Hxe, S8. by exists i. }
  split.
  - by rewrite Elive.
  - cbn. rewrite dom_delete_L. set_solver.
  - intros w. cbn. by rewrite HL, S3.
  - intros x. cbn [v_spare drop_entry]. rewrite Elive, elem_of_union, elem_of_singleton. intros [->|Hx].
    + split; [|set_solver]. apply (NodeSpec.allotted_kept _ _ _ _ HK), (allotted_hw _ _ _ _ HW). by apply (live_allotted_id _ _ _ _ _ _ _ S1), elem_of_union_l.
    + destruct (S4 x Hx) as [Ha Hn]. split; [|set_solver]. by apply (NodeSpec.allotted_kept _ _ _ _ HK), (allotted_hw _ _ _ _ HW).
  - rewrite (kp_rest _ _ _ HK). cbn. by rewrite E4.
  - apply (kept_hashed _ _ _ _ _ HK). destruct (hw_hashed _ _ _ HW _ _ S6). by split.
  - apply (kept_chains _ _ _ _ HK); [|by destruct HC; split]. intros i x Hi Hx. destruct (Hin i x Hi Hx). unfold live. set_solver.
  - intros x. cbn. rewrite dom_delete_L, elem_of_difference, elem_of_singleton, S8, (kp_nbkt _ _ _ HK). cbn. rewrite E3. split.
    + intros [[i [Hi Hx]] Hne]. exists i. split; [done|]. rewrite HC', elem_of_without by done. done.
    + intros (i & Hi & Hx). rewrite HC', elem_of_without in Hx by done. destruct Hx. split; [by exists i|done].
  - intros x e. cbn. rewrite lookup_delete_Some. intros [Hne He]. destruct (S9 x e He) as [Q1 Q2 Q3 Q4]. destruct (Hkeep x) as (K1 & K2 & _); [|done|].
    { apply elem_of_union_l. by eapply elem_of_dom_2. }
    split; [by rewrite K1|by rewrite K2|done|]. rewrite (kp_nbkt _ _ _ HK). cbn. rewrite E3. intros i Hi. rewrite HC', elem_of_without by done. intros [_ Hx]. auto.
  - intros x e _. cbn. rewrite lookup_delete_Some. intros [Hne He]. apply (S10 x e); [|done]. destruct Hd as [->| ->]; congruence.
  - intros x y e e'. cbn. rewrite !lookup_delete_Some. intros [_ He] [_ He']. by apply (S11 x y e e').
  - intros x t Ht. assert (Hx : x ∈ dom (v_marks v)) by by eapply elem_of_dom_2. destruct (Hkeep x) as (K1 & _ & K3); [by apply elem_of_union_r|by intros ->|].
    rewrite K1, K3; [by apply (S12 x t)|]. intros Hxe. by apply (S2 x).
Qed.

Section Purge.
Context (dead : option Z) (p : Pool) (s : S) (G : table) (L st NL C : Z -> list Z) (v : cview) (fuel : nat) (key : list Z) (id : Z).
Hypothesis HR : Rep s G.
Hypothesis HS : cshows cfg dead p G L st NL C v.
Hypothesis Hf : (size (v_entries v) < fuel)%nat.
Hypothesis Hd : dead = None \/ dead = Some id.
Hypothesis Hk : key_ok ks key.
Hypothesis Hid : id ∈ dom (v_entries v).
Hypothesis Hslot : forall i, 0 <= i < nbkt G -> id ∈ C i -> in_slot cfg (nbkt G) i key.

Definition purged_post (log : events) (w : cview) (Q : Z -> events * (Pool * S) -> Prop) : Prop :=
  forall s' G' L' st' NL' C', Rep s' G' -> shows p G' L' st' NL' C' w -> nbkt G' = nbkt G -> (forall x, ready G x -> nd G' x = nd G x) ->
    (forall i, 0 <= i < nbkt G -> C' i = without id (C i)) -> Q 0 (log ++ noted key id, (p, s')).
Lemma wp_purge_node log (Q : Z -> events * (Pool * S) -> Prop) : purged_post log (drop_entry id v) Q -> wp (purge_node cfg fuel key (nd G id)) (log, (p, s)) Q.
Proof.
  intros HQ. pose proof (cs_table _ _ _ _ _ _ _ _ _ HS) as HT. assert (Hl : id ∈ live v) by by apply elem_of_union_l.
  assert (Hrd : ready G id) by by apply (live_ready _ _ _ _ _ _ HT).
  unfold purge_node. apply wp_bind.
  assert (Hn : wp (if purge_notifier cfg then i ← seg (node_id (nd G id)); emit (key, i) else mret tt : CS unit) (log, (p, s)) (fun _ st => st = (log ++ noted key id, (p, s)))).
  { unfold noted. destruct (purge_notifier cfg).
    - apply wp_bind, wp_seg, (wp_node_id s G id HR); [apply Hrd|]. by exists tt, (log ++ [(key, id)], (p, s)).
    - rewrite app_nil_r. by apply wp_ret. }
  eapply wp_mono; [exact Hn|]. intros _ ? ->. set (log' := log ++ noted key id) in *.
  apply wp_bind, wp_pool, (wp_remove_from_hash cfg dead p s G L st NL C v fuel key id HR HS Hf Hk Hid); [done|]. intros s1 G1 C' H1 W1 HC1 HC'.
  pose proof (hw_table _ _ _ W1 _ _ _ _ _ HT) as HT1. rewrite <-(hw_nd _ _ _ W1).
  apply wp_bind, wp_pool, (wp_unlist p s1 G1 _ L st NL H1 HT1); [done|]. intros s2 f L' H2 HT2 HL'.
  change (nd G1 id) with (nd (with_lru f G1) id).
  apply wp_bind, wp_pool, (wp_release_node p s2 (with_lru f G1) (live v) L' st NL id); [done|done|done| |].
  { intros (h & Hh & [Eh|Hx]%elem_of_cons).
    - apply head_small in Hh. pose proof (live_not_head _ _ _ _ _ _ HT id Hl). lia.
    - rewrite HL', elem_of_without in Hx by done. by destruct Hx. }
  intros s3 G3 st' NL' H3 HT3 HK. apply wp_ret. apply (HQ s3 G3 L' st' NL' C' H3).
  - apply (shows_dropped dead p G G1 G3 L L' st st' NL NL' C C' v id f); try done. intros w. apply HL', NodeSpec.head_in.
  - rewrite (kp_nbkt _ _ _ HK). by destruct (hw_same _ _ _ W1) as (_ & _ & E & _).
  - intros x Hx. rewrite <-(hw_nd _ _ _ W1). change (nd G1 x) with (nd (with_lru f G1) x). eapply kept_nd; [|exact HK]. by apply (hw_geo _ _ _ W1), Hx.
  - done.
Qed.
End Purge.
End Ops.
