(* ===== verification/CacheFind.v ===== *)
(** Purging a node with its chunk, and looking a key up. *)
From Stdlib Require Import ZArith Lia.
From stdpp Require Import functions base list list_numbers numbers gmap.
From S2P Require Import Prelude TTree RawData PtMalloc PtSpec Mallocator NodeTable NodeRep NodeAcc NodeLru NodeGroup NodeNg NodeInv NodeAlloc NodeAllot NodeRelease NodeLists NodeSpec Hash BufferPool CacheRep CacheInv CacheOps.
Import AllocSpec.
Local Open Scope Z_scope.

Definition with_rest (r : blocks) (v : cview) : cview := mkView (v_entries v) (v_marks v) (v_list v) (v_spare v) r.
(** The chunk of an entry is destroyed, if it has one. *)
Definition unchunk (e : entry) (v : cview) : cview := if e_handle e =? 0 then v else with_rest (destroyed (v_rest v) (e_handle e)) v.
Definition purge_entry (id : Z) (e : entry) (v : cview) : cview := drop_entry id (unchunk e v).

(** Nodes without a chunk that a search for [key] meets are purged. *)
Inductive swept (cfg : Config) (key : list Z) : cview -> events -> cview -> Prop :=
  | sw_nil v : swept cfg key v [] v
  | sw_cons v id e evs w : v_entries v !! id = Some e -> e_handle e = 0 -> swept cfg key (drop_entry id v) evs w ->
      swept cfg key v (noted cfg key id ++ evs) w.
Lemma swept_trans cfg key v evs w evs' u : swept cfg key v evs w -> swept cfg key w evs' u -> swept cfg key v (evs ++ evs') u.
Proof. induction 1 as [|v id e evs w He Hh _ IH]; [done|]. intros Hu. rewrite <-app_assoc. eapply sw_cons; [done|done|by apply IH]. Qed.
(** The entries with a chunk stay. *)
Lemma swept_entries cfg key v evs w : swept cfg key v evs w ->
  (forall id e, v_entries w !! id = Some e -> v_entries v !! id = Some e) /\ (forall id e, v_entries v !! id = Some e -> e_handle e <> 0 -> v_entries w !! id = Some e) /\
  v_marks w = v_marks v /\ v_rest w = v_rest v /\ (size (v_entries w) <= size (v_entries v))%nat.
Proof.
  induction 1 as [|v id e evs w He Hh _ (I1 & I2 & I3 & I4 & I5)]; [done|]. cbn in *. rewrite I3, I4. split; [|split; [|split; [done|split; [done|]]]].
  - intros x d Hx%I1. by apply lookup_delete_Some in Hx as [_ ?].
  - intros x d Hx Hd. apply I2; [|done]. apply lookup_delete_Some. split; [congruence|done].
  - rewrite map_size_delete, He in I5. lia.
Qed.

Section Find.
Context {S : Type} `{!Mallocator S, !MallocatorLaws S}.
Context (cfg : Config) (env : Env).
Implicit Types (s : S) (G : table) (p : Pool).
#[local] Abbreviation PS := (ST (Pool * S)).
#[local] Abbreviation CS := (ST (events * (Pool * S))).
#[local] Abbreviation ks := (keySize cfg).
#[local] Abbreviation shows := (cshows cfg None).

Lemma destroyed_other A h x : x <> h -> destroyed A h !! x = A !! x.
Proof. intros Hne. unfold destroyed. repeat case_match; try done. by apply lookup_delete_ne. Qed.
Lemma shows_destroyed p G L st NL C v id e : shows p G L st NL C v -> v_entries v !! id = Some e -> e_handle e <> 0 ->
  cshows cfg (Some id) p (set_rest (destroyed (rest G) (e_handle e)) G) L st NL C (with_rest (destroyed (v_rest v) (e_handle e)) v).
Proof.
  intros [S1 S2 S3 S4 S5 [] [] S8 S9 S10 S11 S12] He Hh. split; try done.
  - by apply table_rest.
  - cbn. by rewrite S5.
  - intros x d Hd. by destruct (S9 x d Hd).
  - intros x d Hx Hd Hn. destruct (S10 x d ltac:(done) Hd Hn) as (t & hd & more & Hb & ?). exists t, hd, more. split; [|done].
    cbn. rewrite destroyed_other; [done|]. intros E. apply Hx. f_equal. by apply (S11 id x e d).
Qed.

Section Purge.
Context (p : Pool) (s : S) (G : table) (L st NL C : Z -> list Z) (v : cview) (fuel : nat) (id : Z) (e : entry).
Hypothesis HR : Rep s G.
Hypothesis HS : shows p G L st NL C v.
Hypothesis Hf : (size (v_entries v) < fuel)%nat.
Hypothesis He : v_entries v !! id = Some e.

Lemma entry_dom : id ∈ dom (v_entries v).
Proof. by eapply elem_of_dom_2. Qed.
Lemma entry_ready : ready G id.
Proof. apply (shows_ready _ _ _ _ _ _ _ _ _ HS), elem_of_union_l, entry_dom. Qed.
Lemma entry_there : no_node (nd G id) = false.
Proof. apply node_there, entry_ready. Qed.
Lemma wp_entry_handle log (Q : Z -> events * (Pool * S) -> Prop) : Q (e_handle e) (log, (p, s)) -> wp (seg (vd_handle (nd G id))) (log, (p, s)) Q.
Proof. intros HQ. apply wp_seg, (wp_vd_handle s G id HR); [apply entry_ready|]. by rewrite (en_handle _ _ _ _ _ (cs_entry _ _ _ _ _ _ _ _ _ HS id e He)). Qed.
Lemma entry_chunk : e_handle e <> 0 -> chunk_ok (rest G) (e_handle e) (e_key e).
Proof. intros Hh. rewrite (cs_rest _ _ _ _ _ _ _ _ _ HS). by apply (cs_chunk _ _ _ _ _ _ _ _ _ HS id). Qed.

(** The node goes once its chunk is destroyed. *)
Lemma wp_purge_chunkless key log (Q : Z -> events * (Pool * S) -> Prop) s' : key_ok ks key -> (forall i, 0 <= i < nbkt G -> id ∈ C i -> in_slot cfg (nbkt G) i key) ->
  (if e_handle e =? 0 then s' = s else Rep s' (set_rest (destroyed (rest G) (e_handle e)) G)) ->
  purged_post cfg p G C key id log (purge_entry id e v) Q -> wp (purge_node cfg fuel key (nd G id)) (log, (p, s')) Q.
Proof.
  intros Hk Hslot H' HQ. unfold purge_entry, unchunk in HQ. destruct (Z.eqb_spec (e_handle e) 0) as [Hz|Hz].
  - subst s'. apply (wp_purge_node cfg None p s G L st NL C v fuel key id); try done; [by left|apply entry_dom].
  - apply (wp_purge_node cfg (Some id) p s' (set_rest (destroyed (rest G) (e_handle e)) G) L st NL C (with_rest (destroyed (v_rest v) (e_handle e)) v) fuel key id); try done; [by apply shows_destroyed|by right|apply entry_dom].
Qed.
Lemma wp_purge_everything_key key log (Q : Z -> events * (Pool * S) -> Prop) : key_ok ks key -> (forall i, 0 <= i < nbkt G -> id ∈ C i -> in_slot cfg (nbkt G) i key) ->
  purged_post cfg p G C key id log (purge_entry id e v) Q -> wp (purge_everything_key cfg env fuel key (nd G id)) (log, (p, s)) Q.
Proof.
  intros Hk Hslot HQ. pose proof entry_there as Hn. unfold purge_everything_key. rewrite Hn. apply wp_bind, wp_entry_handle.
  change INVALID_HANDLE with 0. destruct (Z.eqb_spec (e_handle e) 0) as [Hz|Hz].
  - apply wp_bind, wp_ret, (wp_purge_chunkless key log Q s Hk Hslot); [|done]. by rewrite (proj2 (Z.eqb_eq _ _)).
  - apply wp_bind, wp_seg, (wp_chunk_Destroy s G (e_handle e) (e_key e)); [done|done|by apply entry_chunk|]. intros r s' H'.
    apply (wp_purge_chunkless key log Q s' Hk Hslot); [|done]. by rewrite (proj2 (Z.eqb_neq _ _)).
Qed.
(** The key is read from the chunk. *)
Lemma wp_purge_everything log (Q : Z -> events * (Pool * S) -> Prop) : (e_handle e = 0 -> Q 0 (log, (p, s))) ->
  (e_handle e <> 0 -> purged_post cfg p G C (e_key e) id log (purge_entry id e v) Q) -> wp (purge_everything cfg env fuel (nd G id)) (log, (p, s)) Q.
Proof.
  intros HQ0 HQ. pose proof entry_there as Hn. destruct (cs_entry _ _ _ _ _ _ _ _ _ HS id e He) as [_ _ Hk Hslot]. unfold purge_everything. rewrite Hn. apply wp_bind, wp_entry_handle.
  change INVALID_HANDLE with 0. destruct (Z.eqb_spec (e_handle e) 0) as [Hz|Hz]; [apply wp_ret; auto|]. pose proof (entry_chunk Hz) as Hc. specialize (HQ Hz).
  apply wp_bind, wp_seg, (wp_chunk_Key s G _ (e_key e)); [done..|]. rewrite (proj2 (Z.eqb_neq (e_handle e + 16) 0)).
  2: { destruct Hc as (t & hd & more & Hb & _). pose proof (other_bytes s G _ _ HR Hz Hb). lia. }
  assert (Hlen : forall (Q : Z -> events * (Pool * S) -> Prop), Q (Z.of_nat (length (e_key e))) (log, (p, s)) ->
    wp (if 0 <? ks then mret ks else b ← seg (mread 1 (e_handle e + 16)); mret (b + 1)) (log, (p, s)) Q).
  { intros Q' HQ'. destruct Hk as (_ & H0 & Hk). destruct (decide (ks = 0)) as [E|Hne].
    - rewrite E. destruct Hk as (b & k & Ek & Eb). apply wp_bind, wp_seg. replace (e_handle e + 16) with (e_handle e + 16 + Z.of_nat 0) by lia.
      apply (key_byte s G _ (e_key e) HR Hz Hc 0 b); [by rewrite Ek|]. apply wp_ret. rewrite Ek in HQ'. cbn in HQ'. by replace (b + 1) with (Z.of_nat (Datatypes.S (length k))) by lia.
    - rewrite (proj2 (Z.ltb_lt 0 ks)) by lia. apply wp_ret. by rewrite <-Hk. }
  apply wp_bind, Hlen. rewrite (proj2 (Z.ltb_ge _ _)) by (pose proof (key_ok_pos ks _ Hk); lia). rewrite Nat2Z.id. apply wp_bind, wp_seg. replace (e_handle e + 16) with (e_handle e + 16 + Z.of_nat 0) by lia.
  apply (wp_read_key s G _ (e_key e)); [done..|]. rewrite drop_0.
  apply wp_bind, wp_seg, (wp_chunk_Destroy s G (e_handle e) (e_key e)); [done..|]. intros r s' H'.
  apply (wp_purge_chunkless (e_key e) log Q s' Hk Hslot); [|done]. by rewrite (proj2 (Z.eqb_neq _ _)).
Qed.
End Purge.

(** ** Searching *)

Definition first_node (G : table) (xs : list Z) : Node := match xs with [] => mkNd 0 0 | y :: _ => nd G y end.
Definition found_node (G : table) (r : option Z) : Node := match r with Some id => nd G id | None => mkNd 0 0 end.
(** What a search along the chain [i] gives: either the node of an entry with the key and a
    chunk, or none, and then no entry of the chain has the key. *)
Definition found_in (C : Z -> list Z) (i : Z) (key : list Z) (w : cview) (r : option Z) : Prop :=
  match r with
  | Some id => id ∈ C i /\ exists e, v_entries w !! id = Some e /\ e_key e = key /\ e_handle e <> 0
  | None => forall id e, id ∈ C i -> v_entries w !! id = Some e -> e_key e <> key
  end.
Definition find_post (p : Pool) (G : table) (C : Z -> list Z) (i : Z) (key : list Z) (log : events) (v : cview) (Q : Node -> events * (Pool * S) -> Prop) : Prop :=
  forall s' G' L' st' NL' C' w r evs, Rep s' G' -> shows p G' L' st' NL' C' w -> nbkt G' = nbkt G ->
    (forall j x, 0 <= j < nbkt G -> x ∈ C' j -> x ∈ C j) -> swept cfg key v evs w -> found_in C' i key w r -> Q (found_node G' r) (log ++ evs, (p, s')).

Lemma first_hop p s G f x xs (Q : Node -> Pool * S -> Prop) : Rep s G -> linked p G -> chain f x xs -> (forall y, y ∈ xs -> ready G y) ->
  Q (first_node G xs) (p, s) -> wp (Index_Search x) (p, s) Q.
Proof.
  intros HR Hl Hc Hr HQ. apply (wp_hop p s G); [done|done|by eapply chain_ready|]. destruct xs as [|y ys]; cbn in Hc.
  - by rewrite Hc.
  - destruct Hc as [-> _]. rewrite hop_ready; [done|]. apply Hr. by left.
Qed.
Lemma first_next p s G y ys (Q : Node -> Pool * S -> Prop) : Rep s G -> linked p G -> chain (nxt G) (nxt G y) ys -> (forall x, x ∈ y :: ys -> ready G x) ->
  Q (first_node G ys) (p, s) -> wp (next_node (nd G y)) (p, s) Q.
Proof.
  intros HR Hl Hc Hr HQ. apply wp_bind, wp_shm, (wp_next_node_id s G y HR); [apply Hr; by left|]. apply (first_hop p s G (nxt G) _ ys); [done..| |done].
  intros x Hx. apply Hr. by right.
Qed.
(** The links behind a node in its chain. *)
Lemma chain_behind G C i l y ys : chains_ok G C -> 0 <= i < nbkt G -> C i = l ++ y :: ys -> chain (nxt G) (nxt G y) ys /\ NoDup (l ++ y :: ys).
Proof.
  intros HC Hi E. pose proof (ch_chain _ _ HC i Hi) as Hc. pose proof (ch_nodup _ _ HC i Hi) as Hn. rewrite E in *. split; [|done]. clear E Hn.
  revert Hc. generalize (bkt G i). induction l as [|z l IH]; intros x [-> Hc]; [done|by eapply IH].
Qed.

Section Search.
Context (p : Pool) (key : list Z) (i : Z) (fuel : nat).
Hypothesis Hk : key_ok ks key.

Lemma wp_find_in_chain : forall steps rest l s G L st NL C v log Q, (length rest < steps)%nat -> Rep s G -> shows p G L st NL C v -> (size (v_entries v) < fuel)%nat ->
  0 <= i < nbkt G -> in_slot cfg (nbkt G) i key -> C i = l ++ rest -> (forall id e, id ∈ l -> v_entries v !! id = Some e -> e_key e <> key) ->
  find_post p G C i key log v Q -> wp (find_in_chain cfg fuel steps key (first_node G rest)) (log, (p, s)) Q.
Proof.
  induction steps as [|steps IH]; intros rest l s G L st NL C v log Q Hst HR HS Hf Hi Hslot E Hl HQ; [lia|]. destruct rest as [|y ys].
  { cbn [find_in_chain first_node]. apply wp_ret. rewrite <-(app_nil_r log). apply (HQ s G L st NL C v None []); [done|done|done|by intros|constructor|].
    intros id e Hid. apply Hl. rewrite E, app_nil_r in Hid. done. }
  assert (Hin : forall x, x ∈ y :: ys -> ready G x) by (intros x Hx; apply (chain_live _ _ _ _ _ _ _ _ _ HS i); [done|]; rewrite E; set_solver).
  destruct (chain_behind G C i l y ys (cs_chains _ _ _ _ _ _ _ _ _ HS) Hi E) as [Hc Hn]. pose proof (tb_linked _ _ _ _ _ _ (cs_table _ _ _ _ _ _ _ _ _ HS)) as Hlk.
  assert (Hy : y ∈ C i) by (rewrite E; set_solver). pose proof (chain_entry _ _ _ _ _ _ _ _ _ HS i y Hi Hy) as Hd. pose proof Hd as [e He]%elem_of_dom.
  cbn [find_in_chain first_node]. rewrite (entry_there p G L st NL C v y e HS He). apply wp_bind, (wp_entry_handle p s G L st NL C v y e HR HS He).
  change INVALID_HANDLE with 0. destruct (Z.eqb_spec (e_handle e) 0) as [Hz|Hz].
  - apply wp_bind, wp_pool, (first_next p s G y ys); [done..|]. apply wp_bind.
    apply (wp_purge_node cfg None p s G L st NL C v fuel key y HR HS Hf); [by left|done|done| |].
    { intros j Hj Hyj. by rewrite (ch_apart _ _ (cs_chains _ _ _ _ _ _ _ _ _ HS) j i y Hj Hi Hyj Hy). }
    intros s1 G1 L1 st1 NL1 C1 H1 HS1 En Hnd HC1. replace (first_node G ys) with (first_node G1 ys).
    2: { destruct ys as [|z ys]; [done|]. cbn. apply Hnd, Hin. set_solver. }
    eapply (IH ys l s1 G1 L1 st1 NL1 C1 (drop_entry y v)); [cbn in Hst; lia|done|done| |by rewrite En|by rewrite En| | |].
    + cbn. rewrite map_size_delete, He. lia.
    + rewrite HC1, E by done. by apply without_middle.
    + intros id d Hid Hd'. apply (Hl id d Hid). cbn in Hd'. by apply lookup_delete_Some in Hd' as [_ ?].
    + intros s2 G2 L2 st2 NL2 C2 w r evs H2 HS2 En2 HC2 Hsw Hfo. rewrite <-app_assoc. apply (HQ s2 G2 L2 st2 NL2 C2 w r _ H2 HS2); [congruence| |by eapply sw_cons|done].
      intros j x Hj Hx. rewrite <-En in Hj. apply HC2 in Hx; [|done]. rewrite En in Hj. rewrite HC1, elem_of_without in Hx by done. by destruct Hx.
  - pose proof (entry_chunk p G L st NL C v y e HS He Hz) as Hch. apply wp_bind, wp_seg, (wp_chunk_Key s G _ (e_key e)); [done..|].
    rewrite (proj2 (Z.eqb_neq (e_handle e + 16) 0)).
    2: { destruct Hch as (t & hd & more & Hb & _). pose proof (other_bytes s G _ _ HR Hz Hb). lia. }
    apply wp_bind, wp_seg, (wp_key_cmp s G _ (e_key e)); [done..|by apply (en_key _ _ _ _ _ (cs_entry _ _ _ _ _ _ _ _ _ HS y e He))|]. intros c Hcmp.
    destruct (Z.eqb_spec c 0) as [Hc0|Hc0].
    + apply wp_ret. rewrite <-(app_nil_r log). apply (HQ s G L st NL C v (Some y) []); [done|done|done|by intros|constructor|]. split; [done|]. exists e.
      split; [done|]. split; [symmetry; by apply Hcmp|done].
    + apply wp_bind, wp_pool, (first_next p s G y ys); [done..|].
      apply (IH ys (l ++ [y]) s G L st NL C v log Q); [cbn in Hst; lia|done|done|done|done|done|by rewrite <-app_assoc| |done].
      intros id d [Hid| ->%list_elem_of_singleton]%elem_of_app Hd'; [by eapply Hl|]. rewrite He in Hd'. injection Hd' as <-. intros Ek. by apply Hc0, Hcmp.
Qed.

Lemma wp_cache_find b s G L st NL C v log Q : i = slot_fun b ks (nbkt G) key -> (hashChanging cfg = true \/ b = targetNewHash cfg) -> Rep s G -> shows p G L st NL C v -> (size (v_entries v) < fuel)%nat ->
  find_post p G C i key log v Q -> wp (cache_find cfg fuel key b) (log, (p, s)) Q.
Proof.
  intros Ei Hb HR HS Hf HQ. pose proof (cs_hash _ _ _ _ _ _ _ _ _ HS) as HH. assert (Hi : 0 <= i < nbkt G) by (subst i; apply slot_range, HH).
  pose proof (ch_chain _ _ (cs_chains _ _ _ _ _ _ _ _ _ HS) i Hi) as Hc.
  unfold cache_find. apply wp_bind, wp_pool, (wp_slot p s G ks b key); [done..|]. rewrite <-Ei. apply wp_bind, wp_pool, (wp_hash2_node p s G ks HR HH); [done|].
  destruct (Z.eqb_spec (bkt G i) INVALID_NODE_ID) as [Eb|Eb].
  - apply wp_ret. rewrite <-(app_nil_r log). apply (HQ s G L st NL C v None []); [done|done|done|by intros|constructor|].
    assert (E : C i = []). { destruct (C i) as [|y ys] eqn:E; [done|]. destruct Hc as [Hy _]. exfalso. apply (ready_valid G y); [|congruence]. apply (chain_live _ _ _ _ _ _ _ _ _ HS i); [done|]. rewrite E. by left. }
    intros id e Hid. rewrite E in Hid. by apply not_elem_of_nil in Hid.
  - apply wp_bind, wp_pool, (first_hop p s G (nxt G) _ (C i)); [done|apply (cs_table _ _ _ _ _ _ _ _ _ HS)|done|intros y Hy; by apply (chain_live _ _ _ _ _ _ _ _ _ HS i)|].
    eapply (wp_find_in_chain fuel (C i) []); [|done|exact HS|done|done| |done| |done].
    + pose proof (chain_size _ _ _ _ _ _ _ _ _ HS i Hi). lia.
    + unfold in_slot. destruct (hashChanging cfg); [by exists b|]. destruct Hb as [|<-]; done.
    + intros id e ?%not_elem_of_nil. done.
Qed.
End Search.

(** ** In whichever hash *)

(** In the cache: no entry has the key, or there is the node of one. *)
Definition found (key : list Z) (w : cview) (r : option Z) : Prop :=
  match r with
  | Some id => exists e, v_entries w !! id = Some e /\ e_key e = key /\ e_handle e <> 0
  | None => forall id e, v_entries w !! id = Some e -> e_key e <> key
  end.
Definition found_post (p : Pool) (key : list Z) (log : events) (v : cview) (Q : Node -> events * (Pool * S) -> Prop) : Prop :=
  forall s' G' L' st' NL' C' w r evs, Rep s' G' -> shows p G' L' st' NL' C' w -> swept cfg key v evs w -> found key w r -> Q (found_node G' r) (log ++ evs, (p, s')).

Lemma wp_move_to_new_hash p s G L st NL C v fuel id e (Q : Z -> Pool * S -> Prop) : Rep s G -> shows p G L st NL C v -> (size (v_entries v) < fuel)%nat -> v_entries v !! id = Some e ->
  (forall s' G' C', Rep s' G' -> shows p G' L st NL C' v -> nd G' id = nd G id -> Q 0 (p, s')) -> wp (move_to_new_hash cfg fuel (e_key e) (nd G id)) (p, s) Q.
Proof.
  intros HR HS Hf He HQ. destruct (cs_entry _ _ _ _ _ _ _ _ _ HS id e He) as [_ _ Hk Hslot]. assert (Hd : id ∈ dom (v_entries v)) by by eapply elem_of_dom_2.
  pose proof (cs_hash _ _ _ _ _ _ _ _ _ HS) as HH. apply wp_bind, (wp_remove_from_hash cfg None p s G L st NL C v fuel (e_key e) id); [done..|]. intros s1 G1 C1 H1 W1 HC1 E1.
  destruct (hw_same _ _ _ W1) as (_ & _ & Enb & _). pose proof (hw_hashed _ _ _ W1 p ks HH) as HH1. rewrite <-(hw_nd _ _ _ W1).
  apply wp_bind, (wp_Insert2Hash cfg p s1 G1 ks); [done|done|done|apply (hw_geo _ _ _ W1), (entry_ready p G L st NL C v id e HS He)|]. rewrite Enb.
  assert (Hi : 0 <= slot_fun (targetNewHash cfg) ks (nbkt G) (e_key e) < nbkt G) by apply slot_range, HH. set (i := slot_fun _ _ _ _) in *.
  intros s2 G2 H2 W2 EB EN. apply wp_ret. set (X := fun x => x ∈ dom (v_entries v)).
  assert (W : hash_writes X G G2).
  { eapply hw_trans; [eapply hw_mono; [|exact W1]|eapply hw_mono; [|exact W2]]; [|by intros x <-]. intros x [(j & Hj & Hx) _]. by apply (chain_entry _ _ _ _ _ _ _ _ _ HS j). }
  assert (Hout : forall j, 0 <= j < nbkt G -> id ∉ C1 j) by (intros j Hj; rewrite E1, elem_of_without by done; tauto).
  assert (Hin : forall j x, 0 <= j < nbkt G -> x ∈ <[i := id :: C1 i]> C1 j <-> (x <> id /\ x ∈ C j) \/ (x = id /\ j = i)).
  { intros j x Hj. destruct (decide (j = i)) as [->|Hne]; [rewrite fn_lookup_insert, elem_of_cons|rewrite fn_lookup_insert_ne by done]; rewrite E1, elem_of_without by done.
    - destruct (decide (x = id)); tauto.
    - tauto. }
  destruct (hw_same _ _ _ W) as (_ & _ & Enb2 & _).
  apply (HQ s2 G2 (<[i := id :: C1 i]> C1) H2); [|by rewrite (hw_nd _ _ _ W)].
  apply (shows_hash cfg None p G G2 L st NL C _ v X HS W); [done| | |].
  - apply (chains_insert G1 G2 C1 i id HC1); [by rewrite Enb|by rewrite Enb|congruence|done|done].
  - intros x. split.
    + intros Hx. destruct (decide (x = id)) as [->|Hne]; [exists i; split; [done|]; apply Hin; [done|by right]|].
      apply (cs_in _ _ _ _ _ _ _ _ _ HS) in Hx as (j & Hj & Hx). exists j. split; [done|]. apply Hin; [done|by left].
    + intros (j & Hj & [[_ Hx]|[-> ->]]%Hin); [by apply (chain_entry _ _ _ _ _ _ _ _ _ HS j)|done|done].
  - intros x d j Hx Hj [[_ Hxj]|[-> ->]]%Hin; [| |done].
    + by apply (en_slot _ _ _ _ _ (cs_entry _ _ _ _ _ _ _ _ _ HS x d Hx)).
    + rewrite He in Hx. injection Hx as <-. unfold in_slot. destruct (hashChanging cfg); [by eexists|done].
Qed.

Section Auto.
Context (p : Pool) (s : S) (G : table) (L st NL C : Z -> list Z) (v : cview) (fuel : nat) (key : list Z) (log : events).
Hypothesis HR : Rep s G.
Hypothesis HS : shows p G L st NL C v.
Hypothesis Hf : (size (v_entries v) < fuel)%nat.
Hypothesis Hk : key_ok ks key.

Lemma found_node_none G' L' st' NL' C' w r : shows p G' L' st' NL' C' w -> found key w r -> no_node (found_node G' r) = match r with Some _ => false | None => true end.
Proof. intros HS' Hr. destruct r as [id|]; [|done]. destruct Hr as (e & He & _). by apply (entry_there p G' L' st' NL' C' w id e). Qed.
Lemma found_in_some C' i w id : found_in C' i key w (Some id) -> found key w (Some id).
Proof. by intros [_ H]. Qed.

(** One search is enough when the hash is settled. *)
Lemma wp_cache_find_settled (Q : Node -> events * (Pool * S) -> Prop) : hashChanging cfg = false -> found_post p key log v Q -> wp (cache_find cfg fuel key (targetNewHash cfg)) (log, (p, s)) Q.
Proof.
  intros Hc HQ. eapply (wp_cache_find p key _ fuel Hk (targetNewHash cfg) s G L st NL C v); [done|by right|done..|].
  intros s' G' L' st' NL' C' w r evs H' HS' En HC Hsw Hfo. apply (HQ s' G' L' st' NL' C' w r evs H' HS' Hsw). destruct r as [id|]; [by apply Hfo|].
  intros id e He. assert (Hd : id ∈ dom (v_entries w)) by by eapply elem_of_dom_2.
  apply (cs_in _ _ _ _ _ _ _ _ _ HS') in Hd as (j & Hj & Hx). pose proof (en_slot _ _ _ _ _ (cs_entry _ _ _ _ _ _ _ _ _ HS' id e He) j Hj Hx) as Hs. unfold in_slot in Hs. rewrite Hc in Hs.
  intros Ek. apply (Hfo id e); [|done|done]. rewrite <-En. by rewrite Ek in Hs; subst j.
Qed.
(** Searching the one and then the other; what is done with a node of the first is up to [k]. *)
Lemma wp_two_finds {A} b (k1 k2 : Node -> CS A) (second : CS A) (Q : A -> events * (Pool * S) -> Prop) : hashChanging cfg = true ->
  (forall s' G' L' st' NL' C' w id evs, Rep s' G' -> shows p G' L' st' NL' C' w -> swept cfg key v evs w -> found key w (Some id) -> wp (k1 (nd G' id)) (log ++ evs, (p, s')) Q) ->
  (forall st, wp (cache_find cfg fuel key (negb b)) st (fun n st' => wp (k2 n) st' Q) -> wp second st Q) ->
  (found_post p key log v (fun n st => wp (k2 n) st Q)) ->
  wp (n ← cache_find cfg fuel key b; if no_node n then second else k1 n) (log, (p, s)) Q.
Proof.
  intros Hc HQ1 Hsec HQ2. eapply wp_bind, (wp_cache_find p key _ fuel Hk b s G L st NL C v); [done|by left|done..|].
  intros s1 G1 L1 st1 NL1 C1 w1 r1 evs1 H1 HS1 En1 HC1 Hsw1 Hfo1. destruct (swept_entries _ _ _ _ _ Hsw1) as (_ & _ & _ & _ & Hsz).
  destruct r1 as [id|]; cbn [found_node].
  - destruct Hfo1 as [_ Hfo1]. pose proof (found_node_none _ _ _ _ _ _ (Some id) HS1 Hfo1) as En. cbn [found_node] in En. rewrite En. by eapply HQ1.
  - cbn [no_node owner Z.eqb orb]. eapply Hsec, (wp_cache_find p key _ fuel Hk (negb b) s1 G1 L1 st1 NL1 C1 w1); [done|by left|done|done|lia|].
    intros s2 G2 L2 st2 NL2 C2 w2 r2 evs2 H2 HS2 En2 HC2 Hsw2 Hfo2. rewrite <-app_assoc.
    apply (HQ2 s2 G2 L2 st2 NL2 C2 w2 r2 _ H2 HS2); [by eapply swept_trans|]. destruct r2 as [id|]; [by apply Hfo2|].
    intros id e He Ek. assert (Hd : id ∈ dom (v_entries w2)) by by eapply elem_of_dom_2.
    apply (cs_in _ _ _ _ _ _ _ _ _ HS2) in Hd as (j & Hj & Hx). pose proof (en_slot _ _ _ _ _ (cs_entry _ _ _ _ _ _ _ _ _ HS2 id e He) j Hj Hx) as Hs.
    unfold in_slot in Hs. rewrite Hc, Ek, En2, En1 in Hs. destruct Hs as [b' ->]. rewrite En2 in Hj.
    destruct (decide (b' = b)) as [->|Hb].
    + apply (Hfo1 id e); [by apply HC2| |done]. by apply (swept_entries _ _ _ _ _ Hsw2).
    + apply (Hfo2 id e); [|done|done]. rewrite En1. by replace (negb b) with b' by (clear -Hb; destruct b, b'; done || congruence).
Qed.

Lemma wp_cache_find_auto (Q : Node -> events * (Pool * S) -> Prop) : found_post p key log v Q -> wp (cache_find_auto_chose_hash cfg fuel key) (log, (p, s)) Q.
Proof.
  intros HQ. unfold cache_find_auto_chose_hash. destruct (hashChanging cfg) eqn:Hc; [|by apply wp_cache_find_settled].
  apply (wp_two_finds (negb (targetNewHash cfg)) (fun n => pool (move_to_new_hash cfg fuel key n);; mret n) mret _ Q Hc).
  - intros s1 G1 L1 st1 NL1 C1 w id evs H1 HS1 Hsw (e & He & <- & Hh). apply wp_bind, wp_pool. destruct (swept_entries _ _ _ _ _ Hsw) as (_ & _ & _ & _ & Hsz).
    apply (wp_move_to_new_hash p s1 G1 L1 st1 NL1 C1 w fuel id e); [done|done|lia|done|]. intros s2 G2 C2 H2 HS2 End. apply wp_ret. rewrite <-End.
    apply (HQ s2 G2 L1 st1 NL1 C2 w (Some id) evs H2 HS2 Hsw). by exists e.
  - intros x H. rewrite negb_involutive in H. eapply wp_mono; [exact H|]. by intros n x' (a & y & [= <- <-] & H').
  - intros s1 G1 L1 st1 NL1 C1 w r evs H1 HS1 Hsw Hfo. by apply wp_ret, (HQ s1 G1 L1 st1 NL1 C1 w r evs).
Qed.

(** ** Purging a key *)

Definition after_purge (w : cview) (evs : events) (r : option Z) (evs' : events) (u : cview) : Prop :=
  match r with
  | Some id => exists e, v_entries w !! id = Some e /\ evs' = evs ++ noted cfg key id /\ u = purge_entry id e w
  | None => evs' = evs /\ u = w
  end.
Definition purge_post (Q : Z -> events * (Pool * S) -> Prop) : Prop :=
  forall s' G' L' st' NL' C' w r evs evs' u, Rep s' G' -> shows p G' L' st' NL' C' u -> swept cfg key v evs w -> found key w r -> after_purge w evs r evs' u -> Q 0 (log ++ evs', (p, s')).

Lemma wp_purge_found s' G' L' st' NL' C' w id evs (Q : Z -> events * (Pool * S) -> Prop) : Rep s' G' -> shows p G' L' st' NL' C' w -> swept cfg key v evs w -> found key w (Some id) ->
  purge_post Q -> wp (purge_found cfg env fuel key (nd G' id)) (log ++ evs, (p, s')) Q.
Proof.
  intros H' HS' Hsw Hfo HQ. pose proof Hfo as (e & He & Ek & _). destruct (swept_entries _ _ _ _ _ Hsw) as (_ & _ & _ & _ & Hsz).
  apply wp_bind. apply (wp_purge_everything_key p s' G' L' st' NL' C' w fuel id e); [done|done|lia|done|done| |].
  { rewrite <-Ek. by apply (en_slot _ _ _ _ _ (cs_entry _ _ _ _ _ _ _ _ _ HS' id e He)). }
  intros s2 G2 L2 st2 NL2 C2 H2 HS2 _ _ _. apply wp_ret. rewrite <-app_assoc. apply (HQ s2 G2 L2 st2 NL2 C2 w (Some id) evs _ _ H2 HS2 Hsw Hfo). by exists e.
Qed.
Lemma wp_purge_or_not (Q : Z -> events * (Pool * S) -> Prop) : purge_post Q ->
  found_post p key log v (fun n st => wp (if no_node n then mret 0 else purge_found cfg env fuel key n) st Q).
Proof.
  intros HQ s' G' L' st' NL' C' w r evs H' HS' Hsw Hfo. rewrite (found_node_none _ _ _ _ _ _ r HS' Hfo). destruct r as [id|].
  - by eapply wp_purge_found.
  - apply wp_ret. by apply (HQ s' G' L' st' NL' C' w None evs evs w).
Qed.
Lemma wp_cache_purge (Q : Z -> events * (Pool * S) -> Prop) : purge_post Q -> wp (cache_purge cfg env fuel key) (log, (p, s)) Q.
Proof.
  intros HQ. pose proof (wp_purge_or_not Q HQ) as HQ'. unfold cache_purge. destruct (hashChanging cfg) eqn:Hc.
  - apply (wp_two_finds false _ (fun n => if no_node n then mret 0 else purge_found cfg env fuel key n) _ Q Hc); [|intros x H; by apply wp_bind|done].
    intros s1 G1 L1 st1 NL1 C1 w id evs H1 HS1 Hsw Hfo. by eapply wp_purge_found.
  - by apply wp_bind, wp_cache_find_settled.
Qed.
End Auto.
End Find.
