(* ===== verification/CacheMake.v ===== *)
(** New entries of the cache: a node is put into the hash and the list of clean nodes, and
    is given a chunk. *)
From Stdlib Require Import ZArith Lia.
From stdpp Require Import functions base list list_numbers numbers gmap.
From S2P Require Import Prelude TableDef TTree RawData RawRep RawOps RawEdit PtMalloc PtSpec Mallocator NodeTable NodeRep NodeAcc NodeLru NodeGroup NodeNg NodeInv NodeAlloc NodeAllot NodeRelease NodeLists NodeSpec Hash BufferPool CacheRep CacheInv CacheOps CacheFind.
Import AllocSpec.
Local Open Scope Z_scope.

(** The node [id] enters the cache for [key]. *)
Definition new_entry (id : Z) (key : list Z) (v : cview) : cview :=
  mkView (<[id := mkEntry key 0 false]> (v_entries v)) (v_marks v) (<[Clean := id :: v_list v Clean]> (v_list v)) (v_spare v ∖ {[id]}) (v_rest v).
Definition set_chunk (id : Z) (e : entry) (h : Z) (bs : list Z) (v : cview) : cview :=
  mkView (<[id := mkEntry (e_key e) h (e_dirty e)]> (v_entries v)) (v_marks v) (v_list v) (v_spare v) (<[h := bs]> (v_rest v)).

(** The table definition that new chunks are made for *)
Definition new_idx (env : Env) : Z := if env.(is_expanding) then Z.rem (env.(cur_table_idx) + 1) 2 else Z.rem env.(cur_table_idx) 2.
(** A new chunk for a key: its type byte holds the index of the table definition. *)
Definition chunk_type (env : Env) : Z := Z.land (Z.shiftl (new_idx env) 7) 0x80.
Definition new_chunk (env : Env) (key bs : list Z) : Prop := exists hd more, bs = chunk_type env :: hd ++ key ++ more /\ length hd = 15%nat.
Record env_ok (cfg : Config) (env : Env) : Prop := {
  eo_cur : 0 <= env.(cur_table_idx);
  eo_tab : exists t l, get_table_def_by_idx env (new_idx env) = Some t /\ t.(keyFormat) = keySize cfg /\ scan t (fields_from (u8 (t.(keyFields) - 1)) t) = Ok l
}.

Section Make.
Context {S : Type} `{!Mallocator S, !MallocatorLaws S}.
Context (cfg : Config) (env : Env).
Implicit Types (s : S) (G : table) (p : Pool).
#[local] Abbreviation PS := (ST (Pool * S)).
#[local] Abbreviation CS := (ST (events * (Pool * S))).
#[local] Abbreviation ks := (keySize cfg).
#[local] Abbreviation shows := (cshows cfg None).

Lemma hashed_kept p p' N G G' : _hash p' = _hash p -> kept N G G' -> hashed p G ks -> hashed p' G' ks.
Proof. intros E HK HH. pose proof (kept_hashed p N G G' ks HK HH) as [H1 H2 H3 H4 H5]. split; try done. by rewrite E. Qed.

(** ** A node for a key *)

Section Born.
Context (p p' : Pool) (G G1 G2 : table) (L L' st st' NL NL' C : Z -> list Z) (v : cview) (f : Z -> bool -> Z) (id i : Z) (key : list Z).
#[local] Abbreviation G4 := (upd (LVd id) 0 (with_lru f G2)).
Hypothesis HS : shows p G L st NL C v.
Hypothesis HK : kept (live v) G G1.
Hypothesis HW : hash_writes (eq id) G1 G2.
Hypothesis Hid : id ∉ live v.
Hypothesis Hi : 0 <= i < nbkt G.
Hypothesis Hkey : key_ok ks key.
Hypothesis Hslot : in_slot cfg (nbkt G) i key.

Lemma born_chain j : 0 <= j < nbkt G -> id ∉ C j.
Proof. intros Hj Hx. by apply Hid, elem_of_union_l, (chain_entry _ _ _ _ _ _ _ _ _ HS j). Qed.
Lemma born_same x : x ∈ live v -> nxt G4 x = nxt G x /\ vdh G4 x = vdh G x /\ dirty_bit G4 x = dirty_bit G x.
Proof.
  intros Hx. assert (Hne : id <> x) by (intros ->; done). destruct (kp_node _ _ _ HK x Hx) as (K1 & K2 & K3). split; [|split].
  - change (nxt G4 x) with (nxt G2 x). by rewrite (hw_nxt _ _ _ HW).
  - change (vdh G4 x) with (<[id := 0]> (vdh G2) x). by rewrite fn_lookup_insert_ne, (hw_vdh _ _ _ HW).
  - rewrite <-K3. exact (hw_dirty _ _ _ HW x).
Qed.
Lemma born_shows : hashed p' G1 ks -> bkt G2 = <[i := id]> (bkt G1) -> nxt G2 = <[id := bkt G1 i]> (nxt G1) -> dirty_bit G1 id = false ->
  table_ok p' G4 ({[id]} ∪ live v) L' st' NL' -> (forall w, L' (head_of w) = <[Clean := id :: v_list v Clean]> (v_list v) w) ->
  shows p' G4 L' st' NL' (<[i := id :: C i]> C) (new_entry id key v).
Proof.
  intros HH EB EN Hdi HT HL. destruct HS as [S1 S2 S3 S4 S5 S6 S7 S8 S9 S10 S11 S12]. destruct (hw_same _ _ _ HW) as (E1 & E2 & E3 & E4).
  assert (Enb : nbkt G4 = nbkt G) by (change (nbkt G4) with (nbkt G2); by rewrite E3, (kp_nbkt _ _ _ HK)).
  assert (Elive : live (new_entry id key v) = {[id]} ∪ live v) by (unfold live; cbn; rewrite dom_insert_L; set_solver).
  assert (Hidm : id ∉ dom (v_marks v) /\ id ∉ dom (v_entries v)) by (unfold live in Hid; set_solver).
  assert (Hin : forall j x, 0 <= j < nbkt G -> x ∈ <[i := id :: C i]> C j <-> x ∈ C j \/ (x = id /\ j = i)).
  { intros j x Hj. destruct (decide (j = i)) as [->|Hne]; [rewrite fn_lookup_insert, elem_of_cons; tauto|rewrite fn_lookup_insert_ne by done; tauto]. }
  split.
  - by rewrite Elive.
  - cbn. rewrite dom_insert_L. set_solver.
  - exact HL.
  - intros x. cbn [v_spare new_entry]. rewrite Elive, elem_of_difference, elem_of_singleton. intros [Hx Hne]. destruct (S4 x Hx) as [Ha Hn]. split; [|set_solver].
    by apply (allotted_hw (eq id) G1 G2 x HW), (NodeSpec.allotted_kept (live v) G).
  - change (rest G4) with (rest G2). by rewrite E4, (kp_rest _ _ _ HK).
  - by apply (hw_hashed _ _ _ HW) in HH as [].
  - assert (HC2 : chains_ok G2 (<[i := id :: C i]> C)); [|by destruct HC2; split].
    apply (chains_insert G1 G2 C i id); [|by rewrite (kp_nbkt _ _ _ HK)|intros j; rewrite (kp_nbkt _ _ _ HK); apply born_chain|done|done|done].
    apply (kept_chains (live v) G); [done| |done]. intros j x Hj Hx. apply elem_of_union_l. apply S8. by exists j.
  - intros x. cbn [v_entries new_entry]. rewrite dom_insert_L, elem_of_union, elem_of_singleton, S8, Enb. split.
    + intros [->|(j & Hj & Hx)]; [exists i|exists j]; (split; [done|]); apply Hin; auto.
    + intros (j & Hj & [Hx|[-> ->]]%Hin); [right; by exists j|by left|done].
  - intros x e. cbn [v_entries new_entry]. rewrite lookup_insert_Some. intros [[<- <-]|[Hne He]].
    + split; cbn [e_handle e_dirty e_key]; rewrite ?Enb.
      * change (<[id := 0]> (vdh G2) id = 0). apply fn_lookup_insert.
      * rewrite <-Hdi. exact (hw_dirty _ _ _ HW id).
      * done.
      * intros j Hj [Hx|[_ ->]]%Hin; [by destruct (born_chain j Hj)|done|done].
    + assert (Hx : x ∈ live v) by by apply (entry_live v x e). destruct (born_same x Hx) as (_ & B2 & B3). destruct (S9 x e He) as [Q1 Q2 Q3 Q4].
      split; [by rewrite B2|by rewrite B3|done|]. rewrite Enb. intros j Hj [Hxj|[Ex _]]%Hin; [by apply Q4|congruence|done].
  - intros x e _. cbn. rewrite lookup_insert_Some. intros [[_ <-]|[_ He]]; [done|]. by apply (S10 x e).
  - intros x y e e'. cbn. rewrite !lookup_insert_Some. intros [[_ <-]|[_ He]] [[_ <-]|[_ He']]; try done. by apply (S11 x y e e').
  - intros x t Hx. destruct (born_same x) as (-> & -> & _); [|by apply S12]. by apply (mark_live v x t).
Qed.
End Born.

(** The node is known, or the index could not take it. *)
Definition born_post (p : Pool) (G : table) (v : cview) (key : list Z) (Q : Node -> Pool * S -> Prop) : Prop :=
  (forall p' s' G' L' st' NL' C' id, Rep s' G' -> shows p' G' L' st' NL' C' (new_entry id key v) -> id ∉ live v -> Q (nd G' id) (p', s')) /\
  (forall p' s' G' id, Rep s' G' -> linked p' G' -> index_ok G' -> set_geo G' (id / 256) -> hof G' (RSecond (id / 256 / 65536)) = 0 -> Q (nd G' id) (p', s')).

Section Insert.
Context (p : Pool) (s : S) (G : table) (L st NL C : Z -> list Z) (v : cview) (key : list Z).
Hypothesis HR : Rep s G.
Hypothesis HS : shows p G L st NL C v.
Hypothesis Hk : key_ok ks key.
#[local] Abbreviation i := (slot_fun (targetNewHash cfg) ks (nbkt G) key).

Lemma insert_slot : 0 <= i < nbkt G /\ in_slot cfg (nbkt G) i key.
Proof.
  split; [apply slot_range, (cs_hash _ _ _ _ _ _ _ _ _ HS)|]. unfold in_slot. destruct (hashChanging cfg); [by eexists|done].
Qed.
(** What comes after [cache_allocate]. *)
Definition then_clear (Q : Node -> Pool * S -> Prop) (n : Node) (st : Pool * S) : Prop :=
  wp (if no_node n then mret n else shm (put_vd_handle n INVALID_HANDLE);; mret n) st Q.
Lemma wp_insert_known p' s1 G1 st' NL' id (Q : Node -> Pool * S -> Prop) : Rep s1 G1 -> table_ok p' G1 ({[id]} ∪ live v) L st' NL' -> id ∉ live v -> kept (live v) G G1 ->
  dirty_bit G1 id = false -> _hash p' = _hash p -> born_post p G v key Q ->
  wp (Insert2Hash cfg key (nd G1 id);; insert2_clean_lru (nd G1 id);; mret (nd G1 id)) (p', s1) (then_clear Q).
Proof.
  intros H1 HT Hid HK Hd Hp [HQ _]. pose proof (hashed_kept p p' _ G G1 Hp HK (cs_hash _ _ _ _ _ _ _ _ _ HS)) as HH.
  assert (Hin : id ∈ {[id]} ∪ live v) by set_solver. pose proof (live_ready _ _ _ _ _ _ HT id Hin) as Hrd. destruct insert_slot as [Hi Hsl].
  apply wp_bind, (wp_Insert2Hash cfg p' s1 G1 ks); [done|done|done|apply Hrd|]. rewrite (kp_nbkt _ _ _ HK). intros s2 G2 H2 W2 EB EN.
  pose proof (hw_table _ _ _ W2 _ _ _ _ _ HT) as HT2. rewrite <-(hw_nd _ _ _ W2). pose proof (hw_ready _ _ _ W2 id Hrd) as Hrd2.
  apply wp_bind, (wp_insert2_lru p' s2 G2 _ L st' NL' H2 HT2 SYS_CLEAN_NODE_INDEX id); [by apply (NodeSpec.head_in Clean)|done| |].
  { intros (h & Hh & [Eh|Hx]%elem_of_cons).
    - apply head_small in Hh. pose proof (live_not_head _ _ _ _ _ _ HT id Hin). lia.
    - by apply Hid, (ls_in _ _ _ (tb_lists _ _ _ _ _ _ (cs_table _ _ _ _ _ _ _ _ _ HS)) h). }
  intros s3 f H3 HT3. apply wp_ret. unfold then_clear. rewrite (node_there G2 id) by apply Hrd2. apply wp_bind, wp_shm, (wp_put_vd_handle s3 (with_lru f G2) id H3 (proj1 Hrd2)); [done|]. intros s4 H4. apply wp_ret.
  eapply (HQ p' s4 _ _ _ _ _ id H4); [|done].
  apply (born_shows p p' G G1 G2 L _ st st' NL NL' C v f id i key); try done.
  - apply (table_free p' (with_lru f G2) _ _ st' NL'); done.
  - intros w. change SYS_CLEAN_NODE_INDEX with (head_of Clean). destruct (decide (w = Clean)) as [->|Hne].
    + by rewrite !fn_lookup_insert, (cs_lists _ _ _ _ _ _ _ _ _ HS).
    + rewrite !fn_lookup_insert_ne; [apply (cs_lists _ _ _ _ _ _ _ _ _ HS)|done|]. intros E. by apply Hne, NodeSpec.head_inj.
Qed.
Lemma wp_insert_lost p' s1 G1 id (Q : Node -> Pool * S -> Prop) : Rep s1 G1 -> short p' G1 (live v) -> kept (live v) G G1 -> set_geo G1 (id / 256) ->
  hof G1 (RSecond (id / 256 / 65536)) = 0 -> _hash p' = _hash p -> born_post p G v key Q ->
  wp (Insert2Hash cfg key (nd G1 id);; insert2_clean_lru (nd G1 id);; mret (nd G1 id)) (p', s1) (then_clear Q).
Proof.
  intros H1 [O1 O2 O3 O4 O5] HK Hg H0 Hp [_ HQ]. pose proof (hashed_kept p p' _ G G1 Hp HK (cs_hash _ _ _ _ _ _ _ _ _ HS)) as HH.
  assert (Hh : SYS_CLEAN_NODE_INDEX ∈ heads) by apply (NodeSpec.head_in Clean).
  apply wp_bind, (wp_Insert2Hash cfg p' s1 G1 ks); [done..|]. intros s2 G2 H2 W2 _ _. destruct (hw_same _ _ _ W2) as (E1 & _). rewrite <-(hw_nd _ _ _ W2).
  pose proof (hw_geo _ _ _ W2 _ Hg) as Hg2. apply wp_bind, (wp_insert2_any p' s2 G2); [done|by apply (hw_linked _ _ _ W2)| |done|apply (hw_ready _ _ _ W2); auto| |done|].
  - rewrite E1, <-O3. exact (hw_val _ _ _ W2 (LInfo ISys) (fun F => F)).
  - rewrite (hw_lru _ _ _ W2). by apply (hw_ready _ _ _ W2), O5.
  - intros s3 H3. apply wp_ret. unfold then_clear. rewrite (node_there G2 id) by done. apply wp_bind, wp_shm, (wp_put_vd_handle s3 (with_lru _ G2) id H3 Hg2); [done|]. intros s4 H4. apply wp_ret. eapply (HQ p' s4 _ id H4).
    + by apply (hw_linked _ _ _ W2).
    + by destruct (hw_index _ _ _ W2 O2); split.
    + by apply (set_geo_upd (LVd id)).
    + rewrite <-H0. change (hof G2 (RSecond (id / 256 / 65536)) = hof G1 (RSecond (id / 256 / 65536))). by rewrite E1.
Qed.

Lemma wp_insert_empty_node (Q : Node -> Pool * S -> Prop) : (v_spare v = ∅ -> forall s', Rep s' G -> Q (mkNd 0 0) (p, s')) -> born_post p G v key Q ->
  wp (insert_empty_node cfg key) (p, s) Q.
Proof.
  intros HQ0 HQ. pose proof (cs_table _ _ _ _ _ _ _ _ _ HS) as HT. unfold insert_empty_node, cache_allocate.
  apply wp_bind, wp_bind, (wp_allocate_node p s G (live v) L st NL _ HR HT).
  - intros E s' H'. apply wp_ret, wp_ret, HQ0; [|done]. apply set_eq. intros x. split; [|by intros ?%elem_of_empty]. intros Hx.
    destruct (cs_spare _ _ _ _ _ _ _ _ _ HS x Hx) as [Ha Hn]. destruct (Hn (NodeSpec.no_room _ _ _ _ _ _ x HT E Ha)).
  - split.
    + intros p' s' G' st' NL' id H' HT' Hid HK _ Hd (step & fail & ->). assert (Hrd : ready G' id) by (apply (live_ready _ _ _ _ _ _ HT'); set_solver).
      rewrite (node_there G' id) by apply Hrd. by apply (wp_insert_known _ s' G' st' NL' id Q).
    + intros p' s' G' id H' HSh HK Hg H0 (step & fail & ->). rewrite (node_there G' id) by done. by apply (wp_insert_lost _ s' G' id Q).
Qed.
End Insert.

(** ** A chunk for a node *)

Lemma key_fits_ok key : key_ok ks key -> key_fits ks key.
Proof.
  intros (_ & H0 & Hk). unfold key_fits. destruct (decide (ks = 0)) as [->|Hne]; [|by rewrite (proj2 (Z.eqb_neq _ _))].
  cbn. destruct Hk as (b & k & -> & <-). by exists k.
Qed.

Lemma new_idx_01 : env_ok cfg env -> new_idx env = 0 \/ new_idx env = 1.
Proof. intros [Hc _]. unfold new_idx. destruct (is_expanding env); rewrite Z.rem_mod_nonneg by lia; zdm. Qed.
Lemma new_chunk_parts key d c m x : length d = 4%nat -> length c = 4%nat -> length m = 7%nat -> new_chunk env key ([chunk_type env] ++ d ++ c ++ m ++ key ++ x).
Proof. intros Hd Hc Hm. exists (d ++ c ++ m), x. rewrite <-!app_assoc. split; [done|]. rewrite !length_app. lia. Qed.
Lemma new_chunk_ok key bs h A : env_ok cfg env -> key_ok ks key -> new_chunk env key bs -> chunk_ok (<[h := bs]> A) h key.
Proof.
  intros HE Hk (hd & more & -> & Hd). exists (chunk_type env), hd, more. split; [apply lookup_insert_eq|]. split.
  - unfold chunk_type. by destruct (new_idx_01 HE) as [-> | ->]; [left|right].
  - split; [done|]. by apply (key_ok_pos ks).
Qed.

Lemma wp_with_raw {A} (m : ST (RawData * S) A) r s (Q : A * RawData -> S -> Prop) : wp m (r, s) (fun a st => Q (a, st.1) st.2) -> wp (with_raw m r) s Q.
Proof. intros (a & [r' s'] & E & HQ). exists (a, r'), s'. split; [|done]. unfold with_raw. by rewrite E. Qed.
Lemma raw_init_chunk s A key raw : env_ok cfg env -> heap s A -> key_ok ks key ->
  wp (RawData_Init env key 0) (raw, s) (fun x st => (x = EC_NO_MEM /\ heap st.2 A) \/
    (x = 0 /\ exists bs, heap st.2 (<[_handle st.1 := bs]> A) /\ A !! _handle st.1 = None /\ 0 < _handle st.1 < 2 ^ 64 /\ new_chunk env key bs)).
Proof.
  intros [Hcur (t & l & Ht & Ef & Hl)] HA Hk. pose proof (key_ok_pos ks key Hk) as Hlen.
  assert (Hfit : key_fits t.(keyFormat) key) by (rewrite Ef; by apply key_fits_ok). assert (Hsz : 0 + 16 + Z.of_nat (length key) < 2 ^ 32) by (clear -Hlen; change (2 ^ 32) with 4294967296; lia).
  pose proof (raw_Init_ok env raw s A key [] 0 t l HA Hcur Ht Hfit (proj1 Hk) Hl (Z.le_refl 0) Hsz) as H. rewrite app_nil_r in H.
  eapply wp_mono; [exact H|]. intros x [r s']. cbn [fst snd]. intros [(-> & H' & _)|(-> & H' & _)]; [by left|right]. split; [done|].
  destruct (rep_own _ _ _ _ _ H') as (spare & Ho & Hn & _). eexists. split; [exact Ho|]. split; [done|]. split.
  - eapply heap_handle; [exact Ho|]. rewrite lookup_insert_eq. by eexists.
  - unfold chunk_bytes, before_rows. rewrite <-!app_assoc. by apply (new_chunk_parts key).
Qed.

Section Chunk.
Context (s : S) (G : table) (id : Z) (key : list Z) (raw : RawData).
Hypothesis HR : Rep s G.
Hypothesis HE : env_ok cfg env.
Hypothesis Hg : set_geo G (id / 256).
Hypothesis Hk : key_ok ks key.

Lemma wp_init_data (Q : Z * RawData -> S -> Prop) : (forall r s', Rep s' G -> Q (-1, r) s') ->
  (forall r s' h bs, Rep s' (upd (LVd id) h (set_rest (<[h := bs]> (rest G)) G)) -> h <> 0 -> rest G !! h = None -> new_chunk env key bs -> Q (0, r) s') ->
  wp (init_data env (nd G id) raw key) s Q.
Proof.
  intros HQ1 HQ2. destruct HR as (A & HA & HG). apply wp_bind, wp_with_raw. eapply wp_mono; [exact (raw_init_chunk s A key raw HE HA Hk)|].
  intros x [r s']. cbn [fst snd]. intros [(-> & H')|(-> & bs & Ho & Hn & Hh & Hc)].
  - apply wp_ret, HQ1. by exists A.
  - cbn [Z.eqb negb fst snd]. assert (Hn0 : _handle r <> 0) by (clear -Hh; lia). pose proof (Rep_new s s' A G (_handle r) bs HA HG Hn Hn0 Ho) as H2. set (G2 := set_rest _ G) in *. change (nd G id) with (nd G2 id).
    apply wp_bind, (wp_put_vd_handle s' G2 id H2 Hg); [clear -Hh; lia|]. intros s3 H3. apply wp_ret, (HQ2 r s3 (_handle r) bs H3 Hn0); [|done].
    destruct (rest G !! _handle r) eqn:E; [|done]. rewrite (ih_rest _ _ HG _ Hn0), E in Hn; [done|]. intros q Eq.
    assert (Hq : hof G q <> 0) by (clear -Hh Eq; lia). pose proof (ih_apart _ _ HG q Hq) as Hq'. rewrite Eq, E in Hq'. done.
Qed.
End Chunk.

Lemma shows_chunk p G L st NL C v id e h bs : env_ok cfg env -> shows p G L st NL C v -> v_entries v !! id = Some e -> h <> 0 -> rest G !! h = None -> new_chunk env (e_key e) bs ->
  shows p (upd (LVd id) h (set_rest (<[h := bs]> (rest G)) G)) L st NL C (set_chunk id e h bs v).
Proof.
  intros HE HS He Hh Hn Hb. pose proof HS as [S1 S2 S3 S4 S5 S6 S7 S8 S9 S10 S11 S12]. destruct (S9 id e He) as [Q1 Q2 Q3 Q4].
  assert (Hd : dom (v_entries (set_chunk id e h bs v)) = dom (v_entries v)).
  { cbn. rewrite dom_insert_L, subseteq_union_1_L; [done|]. apply singleton_subseteq_l. by eapply elem_of_dom_2. }
  assert (Hl : live (set_chunk id e h bs v) = live v) by (unfold live; by rewrite Hd).
  assert (Hold : forall x d, v_entries v !! x = Some d -> e_handle d <> 0 -> e_handle d <> h).
  { intros x d Hx Hd0 E. destruct (S10 x d ltac:(done) Hx Hd0) as (t & hd & more & Hc & _). rewrite E, <-S5, Hn in Hc. done. }
  split; rewrite ?Hl, ?Hd; try done.
  - apply (table_free p (set_rest _ G) _ L st NL); [by apply table_rest|]. by apply (entry_live v id e).
  - cbn. by rewrite S5.
  - by destruct S6.
  - by destruct S7.
  - intros x d. cbn. rewrite lookup_insert_Some. intros [[<- <-]|[Hne Hx]].
    + split; cbn [e_handle e_dirty e_key]; [apply fn_lookup_insert|done..].
    + destruct (S9 x d Hx) as [R1 R2 R3 R4]. split; try done. cbn. by rewrite fn_lookup_insert_ne.
  - intros x d _. cbn. rewrite lookup_insert_Some. intros [[<- <-]|[Hne Hx]] Hd0; cbn [e_handle e_key].
    + by apply new_chunk_ok.
    + destruct (S10 x d ltac:(done) Hx Hd0) as (t & hd & more & Hc & ?). exists t, hd, more. split; [|done]. rewrite lookup_insert_ne; [done|]. intros E. by apply (Hold x d Hx Hd0).
  - intros x y d d'. cbn. rewrite !lookup_insert_Some. intros [[<- <-]|[_ Hx]] [[<- <-]|[_ Hy]]; cbn [e_handle]; intros H0 E; try done.
    + destruct (Hold y d' Hy); congruence.
    + by destruct (Hold x d Hx).
    + by apply (S11 x y d d').
  - intros x t Hx. cbn. rewrite fn_lookup_insert_ne; [by apply S12|]. intros <-. rewrite (mark_no_entry _ _ _ _ _ _ _ _ _ HS id t Hx) in He. done.
Qed.

Lemma wp_ensure_data p s G L st NL C v fuel id e raw log (Q : Z -> events * (Pool * S) -> Prop) : env_ok cfg env -> Rep s G -> shows p G L st NL C v -> (size (v_entries v) < fuel)%nat ->
  v_entries v !! id = Some e -> (e_handle e <> 0 -> Q 0 (log, (p, s))) ->
  (e_handle e = 0 -> forall s' G' h bs, Rep s' G' -> shows p G' L st NL C (set_chunk id e h bs v) -> h <> 0 -> v_rest v !! h = None -> new_chunk env (e_key e) bs -> Q 0 (log, (p, s'))) ->
  (e_handle e = 0 -> forall s' G' L' st' NL' C', Rep s' G' -> shows p G' L' st' NL' C' (drop_entry id v) -> Q (-1) (log ++ noted cfg (e_key e) id, (p, s'))) ->
  wp (ensure_data cfg env fuel (e_key e) (nd G id) raw) (log, (p, s)) Q.
Proof.
  intros HE HR HS Hf He HQ0 HQ1 HQ2. pose proof (entry_ready cfg p G L st NL C v id e HS He) as Hrd. destruct (cs_entry _ _ _ _ _ _ _ _ _ HS id e He) as [Q1 _ Q3 Q4].
  apply wp_bind, (wp_entry_handle cfg p s G L st NL C v id e HR HS He). change INVALID_HANDLE with 0. destruct (Z.eqb_spec (e_handle e) 0) as [Hz|Hz]; cbn [negb]; [|apply wp_ret; auto].
  apply wp_bind, wp_seg, (wp_init_data s G id (e_key e) raw HR HE (proj1 Hrd) Q3).
  - intros r s' H'. cbn [fst Z.eqb]. apply wp_bind, (wp_entry_handle cfg p s' G L st NL C v id e H' HS He). rewrite Hz. cbn [Z.eqb].
    apply wp_bind, (wp_purge_node cfg None p s' G L st NL C v fuel (e_key e) id); [done|done|done|by left|done|by eapply elem_of_dom_2|done|].
    intros s2 G2 L2 st2 NL2 C2 H2 HS2 _ _ _. apply wp_ret. by eapply HQ2.
  - intros r s' h bs H' Hh Hn Hb. apply wp_ret. eapply (HQ1 Hz s' _ h bs H'); [|done|by rewrite <-(cs_rest _ _ _ _ _ _ _ _ _ HS)|done].
    by apply shows_chunk.
Qed.
End Make.
