(* ===== verification/CacheEvict.v ===== *)
(** Changes of the eviction lists, and evicting from the end of the list of clean nodes. *)
From Stdlib Require Import ZArith Lia.
From stdpp Require Import functions base list list_numbers numbers gmap.
From S2P Require Import Prelude TableDef TTree RawData PtMalloc PtSpec Mallocator NodeTable NodeRep NodeAcc NodeLru NodeGroup NodeNg NodeInv NodeAlloc NodeOps NodeAllot NodeRelease NodeLists NodeSpec Hash BufferPool CacheRep CacheInv CacheOps CacheFind CacheMake.
Import AllocSpec.
Local Open Scope Z_scope.

Definition move_to (w : lru_list) (id : Z) (v : cview) : cview :=
  mkView (v_entries v) (v_marks v) (<[w := id :: without id (v_list v w)]> (fun u => without id (v_list v u))) (v_spare v) (v_rest v).
Definition set_dirty_bit (id : Z) (e : entry) (b : bool) (v : cview) : cview :=
  mkView (<[id := mkEntry (e_key e) (e_handle e) b]> (v_entries v)) (v_marks v) (v_list v) (v_spare v) (v_rest v).

(** What [pre_purge_nodes] does to the clean nodes [xs], the one not used for longest first:
    how many it visits, what it reports, and the cache it leaves. A node without a chunk
    is passed over, but counted. *)
Fixpoint evict (cfg : Config) (n : nat) (xs : list Z) (v : cview) : Z * events * cview :=
  match n, xs with
  | Datatypes.S n, x :: xs =>
    match v_entries v !! x with
    | Some e =>
      if e_handle e =? 0 then let '(k, l, w) := evict cfg n xs v in (1 + k, l, w)
      else let '(k, l, w) := evict cfg n xs (purge_entry x e v) in (1 + k, noted cfg (e_key e) x ++ l, w)
    | None => (0, [], v)
    end
  | _, _ => (0, [], v)
  end.

(** The last of a list is before its end. *)
Lemma path_last f h xs b : path f h (reverse xs) b -> f b false = List.hd h xs.
Proof. destruct xs as [|x xs]; [by intros []|]. rewrite reverse_cons, NodeSpec.path_snoc. by intros (_ & _ & ?). Qed.

Section Evict.
Context {S : Type} `{!Mallocator S, !MallocatorLaws S}.
Context (cfg : Config) (env : Env).
Implicit Types (s : S) (G : table) (p : Pool).
#[local] Abbreviation PS := (ST (Pool * S)).
#[local] Abbreviation CS := (ST (events * (Pool * S))).
#[local] Abbreviation ks := (keySize cfg).
#[local] Abbreviation shows := (cshows cfg None).

(** ** Moving and marking *)

Section Step.
Context (p : Pool) (s : S) (G : table) (L st NL C : Z -> list Z) (v : cview).
Hypothesis HR : Rep s G.
Hypothesis HS : shows p G L st NL C v.
#[local] Abbreviation HT := (cs_table _ _ _ _ _ _ _ _ _ HS).

Lemma wp_move w id (Q : Z -> Pool * S -> Prop) : id ∈ dom (v_entries v) ->
  (forall s' G' L', Rep s' G' -> shows p G' L' st NL C (move_to w id v) -> Q 0 (p, s')) ->
  wp (remove_from_lru (nd G id);; NodeSpec.insert2 w (nd G id)) (p, s) Q.
Proof.
  intros Hid HQ. assert (Hl : id ∈ live v) by by apply elem_of_union_l. apply wp_bind, (wp_unlist p s G _ L st NL HR HT); [done|]. intros s1 f L1 H1 HT1 HL1.
  rewrite NodeSpec.insert2_lru_of. change (nd G id) with (nd (with_lru f G) id). apply (wp_insert2_lru p s1 _ _ L1 st NL H1 HT1); [apply NodeSpec.head_in|done| |].
  { intros (h & Hh & [Eh|Hx]%elem_of_cons).
    - apply head_small in Hh. pose proof (live_not_head _ _ _ _ _ _ HT id Hl). lia.
    - rewrite HL1, elem_of_without in Hx by done. by destruct Hx. }
  intros s2 g H2 HT2. eapply (HQ s2 _ _ H2). change (with_lru g (with_lru f G)) with (with_lru g G) in *.
  apply (shows_lists cfg None p G L _ st NL C v g _ HS HT2). intros u. destruct (decide (u = w)) as [->|Hne].
  - by rewrite !fn_lookup_insert, HL1, (cs_lists _ _ _ _ _ _ _ _ _ HS) by apply NodeSpec.head_in.
  - rewrite !fn_lookup_insert_ne, HL1, (cs_lists _ _ _ _ _ _ _ _ _ HS); [done|apply NodeSpec.head_in|done|]. intros E. by apply Hne, NodeSpec.head_inj.
Qed.

Lemma shows_dirty id e b x : v_entries v !! id = Some e ->
  (forall y, dirty_bit (upd (LDirty (id / 64)) x G) y = if decide (y = id) then b else dirty_bit G y) ->
  shows p (upd (LDirty (id / 64)) x G) L st NL C (set_dirty_bit id e b v).
Proof.
  intros He Hb. destruct HS as [S1 S2 S3 S4 S5 [] [] S8 S9 S10 S11 S12]. destruct (S9 id e He) as [Q1 Q2 Q3 Q4].
  assert (Hd : dom (v_entries (set_dirty_bit id e b v)) = dom (v_entries v)).
  { cbn. rewrite dom_insert_L, subseteq_union_1_L; [done|]. apply singleton_subseteq_l. by eapply elem_of_dom_2. }
  assert (Hl : live (set_dirty_bit id e b v) = live v) by (unfold live; by rewrite Hd).
  assert (Hold : forall y d, v_entries (set_dirty_bit id e b v) !! y = Some d -> exists d', v_entries v !! y = Some d' /\ e_handle d' = e_handle d /\ e_key d' = e_key d).
  { intros y d. cbn. rewrite lookup_insert_Some. intros [[<- <-]|[_ Hy]]; [by exists e|by exists d]. }
  split; rewrite ?Hl, ?Hd; try done.
  - by apply (table_free p G _ L st NL).
  - intros y d. cbn. rewrite lookup_insert_Some. intros [[<- <-]|[Hne Hy]].
    + split; cbn [e_handle e_dirty e_key]; [done|by rewrite Hb, decide_True|done..].
    + destruct (S9 y d Hy) as [R1 R2 R3 R4]. split; [done|by rewrite Hb, decide_False by congruence|done..].
  - intros y d _ (d' & Hy & <- & <-)%Hold. by apply (S10 y d').
  - intros y z d d' (c & Hy & <- & _)%Hold (c' & Hz & <- & _)%Hold. by apply (S11 y z c c').
Qed.
Lemma wp_set_dirty_bit id e b (Q : unit -> Pool * S -> Prop) : v_entries v !! id = Some e ->
  (forall s' G', Rep s' G' -> shows p G' L st NL C (set_dirty_bit id e b v) -> Q tt (p, s')) -> wp (shm (if b then set_dirty (nd G id) else clr_dirty (nd G id))) (p, s) Q.
Proof.
  intros He HQ. pose proof (entry_ready cfg p G L st NL C v id e HS He) as Hrd. destruct b.
  - apply wp_shm, (wp_set_dirty s G id HR); [apply Hrd|]. intros s' H'. apply (HQ s' _ H'). by apply shows_dirty; [|intros y; apply dirty_bit_set].
  - apply wp_shm, (wp_clr_dirty s G id HR); [apply Hrd|]. intros s' H'. apply (HQ s' _ H'). by apply shows_dirty; [|intros y; apply dirty_bit_clr].
Qed.

(** ** The counter of rows *)

Lemma wp_inc_total_row x (Q : unit -> Pool * S -> Prop) : (forall s' G', Rep s' G' -> shows p G' L st NL C v -> (forall y, nd G' y = nd G y) -> Q tt (p, s')) -> wp (inc_total_row x) (p, s) Q.
Proof.
  intros HQ. destruct (tb_linked _ _ _ _ _ _ HT) as (_ & Ei & Hi). apply wp_member. rewrite Ei. apply wp_shm, wp_bind, (wp_rd s G (LInfo IUsedRow)); [done|by split|done|done|].
  apply (wp_wr s G (LInfo IUsedRow)); [done|by split|done|done|]. intros s' H'. apply (HQ s' _ H'); [|done].
  destruct HS as [S1 S2 S3 S4 S5 [] [] S8 S9 S10 S11 S12]. split; try done; try by split.
  - apply (table_free p G _ L st NL); [done|]. cbn. set_solver.
  - intros y e He. by destruct (S9 y e He).
Qed.
Lemma wp_node_rows_count id e (Q : Z -> Pool * S -> Prop) : v_entries v !! id = Some e -> (forall r, Q r (p, s)) -> wp (node_rows_count (nd G id)) (p, s) Q.
Proof.
  intros He HQ. pose proof (entry_ready cfg p G L st NL C v id e HS He) as Hrd. unfold node_rows_count. rewrite (entry_there cfg p G L st NL C v id e HS He).
  apply wp_bind, wp_shm, (wp_vd_handle s G id HR); [apply Hrd|]. rewrite (en_handle _ _ _ _ _ (cs_entry _ _ _ _ _ _ _ _ _ HS id e He)). change INVALID_HANDLE with 0.
  destruct (Z.eqb_spec (e_handle e) 0) as [Hz|Hz]; [by apply wp_ret|].
  apply wp_bind, wp_shm, (wp_chunk_total_rows s G _ (e_key e)); [done|done|by apply (entry_chunk cfg p G L st NL C v id e HS He)|]. intros r. by apply wp_ret.
Qed.

(** The end of the list of clean nodes *)
Lemma clean_ring : ring (lru G) SYS_CLEAN_NODE_INDEX (v_list v Clean) /\ NoDup (v_list v Clean).
Proof.
  destruct (tb_lists _ _ _ _ _ _ HT) as [[HL _] _]. rewrite <-(cs_lists _ _ _ _ _ _ _ _ _ HS Clean). split.
  - apply (rg_ring _ _ _ HL), (NodeSpec.head_in Clean).
  - eapply NoDup_cons_1_2, (rg_nodup _ _ _ HL), (NodeSpec.head_in Clean).
Qed.
Lemma clean_ready : ready G SYS_CLEAN_NODE_INDEX.
Proof. apply (head_ready _ _ _ _ _ _ HT), (NodeSpec.head_in Clean). Qed.
Lemma not_the_head x : x ∈ dom (v_entries v) -> same_node (nd G x) (nd G SYS_CLEAN_NODE_INDEX) = false.
Proof.
  intros Hx. assert (Hl : x ∈ live v) by by apply elem_of_union_l. pose proof (live_not_head _ _ _ _ _ _ HT x Hl) as Hr. pose proof (shows_ready _ _ _ _ _ _ _ _ _ HS x Hl) as Hrd.
  unfold same_node. apply andb_false_iff. left. apply Z.eqb_neq. cbn [owner nd]. intros E. destruct HR as (A & _ & HG).
  assert (E' : RSet (x / 256) = RSet (SYS_CLEAN_NODE_INDEX / 256)) by (apply (ih_inj _ _ HG); [apply Hrd|done]). injection E' as E'. revert E'. change (SYS_CLEAN_NODE_INDEX / 256) with 0. zdm.
Qed.
Lemma same_head : same_node (nd G SYS_CLEAN_NODE_INDEX) (nd G SYS_CLEAN_NODE_INDEX) = true.
Proof. unfold same_node. by rewrite !Z.eqb_refl. Qed.
Lemma wp_before_tail xs x tail (Q : Node -> Pool * S -> Prop) : v_list v Clean = reverse xs ++ x :: tail -> x ∈ live v ->
  Q (nd G (List.hd SYS_CLEAN_NODE_INDEX xs)) (p, s) -> wp (node_Prev (nd G x)) (p, s) Q.
Proof.
  intros E Hx HQ. destruct clean_ring as [Hr _]. rewrite E in Hr. apply path_app in Hr as [Hr _]. apply (wp_near p s G _ L st NL HR HT x false); [by left|].
  by rewrite (path_last _ _ _ _ Hr).
Qed.
Lemma wp_clean_end (Q : Node -> Pool * S -> Prop) : Q (nd G (List.hd SYS_CLEAN_NODE_INDEX (reverse (v_list v Clean)))) (p, s) -> wp (node_Prev (nd G SYS_CLEAN_NODE_INDEX)) (p, s) Q.
Proof.
  intros HQ. destruct clean_ring as [Hr _]. rewrite <-(reverse_involutive (v_list v Clean)) in Hr.
  apply (wp_near p s G _ L st NL HR HT SYS_CLEAN_NODE_INDEX false); [right; apply (NodeSpec.head_in Clean)|]. by rewrite (path_last _ _ _ _ Hr).
Qed.
End Step.

Lemma wp_pre_purge_loop p fuel : forall n xs tail s G L st NL C v log k (Q : Z -> events * (Pool * S) -> Prop), Rep s G -> shows p G L st NL C v -> (size (v_entries v) < fuel)%nat ->
  v_list v Clean = reverse xs ++ tail -> (forall x, x ∈ xs -> x ∈ dom (v_entries v)) ->
  (forall s' G' L' st' NL' C', Rep s' G' -> shows p G' L' st' NL' C' (evict cfg n xs v).2 -> Q (k + (evict cfg n xs v).1.1) (log ++ (evict cfg n xs v).1.2, (p, s'))) ->
  wp (pre_purge_loop cfg env fuel n Node_Empty (nd G SYS_CLEAN_NODE_INDEX) (nd G (List.hd SYS_CLEAN_NODE_INDEX xs)) k) (log, (p, s)) Q.
Proof.
  induction n as [|n IH]; intros xs tail s G L st NL C v log k Q HR HS Hf E Hin HQ; cbn [pre_purge_loop].
  { apply wp_ret. cbn [evict fst snd] in HQ. rewrite Z.add_0_r, app_nil_r in HQ. by eapply HQ. }
  destruct xs as [|x xs]; cbn [List.hd].
  { rewrite (node_there G) by apply (clean_ready p G L st NL C v HS). rewrite same_head. apply wp_ret. cbn [evict fst snd] in HQ. rewrite Z.add_0_r, app_nil_r in HQ. by eapply HQ. }
  assert (Hx : x ∈ dom (v_entries v)) by (apply Hin; by left). assert (Hl : x ∈ live v) by by apply elem_of_union_l. pose proof Hx as [e He]%elem_of_dom.
  rewrite (entry_there cfg p G L st NL C v x e HS He), (not_the_head p s G L st NL C v HR HS x Hx). cbn [orb]. rewrite reverse_cons, <-app_assoc in E.
  apply wp_bind, wp_pool, (wp_before_tail p s G L st NL C v HR HS xs x tail); [done..|].
  replace (same_node Node_Empty (nd G x)) with false.
  2: { pose proof (shows_ready _ _ _ _ _ _ _ _ _ HS x Hl) as [(_ & _ & Hh & _) _]. symmetry. apply andb_false_iff. left. apply Z.eqb_neq. cbn. congruence. }
  apply wp_bind, wp_pool, (wp_node_rows_count p s G L st NL C v HR HS x e _ He). intros rows.
  apply wp_bind, wp_pool, (wp_inc_total_row p s G L st NL C v HR HS). intros s1 G1 H1 HS1 End. rewrite <-!End.
  assert (Hnd : NoDup (reverse xs ++ x :: tail)) by (destruct (clean_ring p G L st NL C v HS) as [_ H]; by rewrite E in H).
  assert (Hxs : x ∉ xs).
  { intros Hxs. apply NoDup_app in Hnd as (_ & Hnd & _). apply (Hnd x); [by apply elem_of_reverse|by left]. }
  cbn [evict] in HQ. rewrite He in HQ. apply wp_bind, (wp_purge_everything cfg env p s1 G1 L st NL C v fuel x e H1 HS1 Hf He).
  - intros Hz. rewrite Hz in HQ. cbn [Z.eqb] in HQ. eapply (IH xs (x :: tail) s1 G1 L st NL C v log (k + 1) Q); [done|done|done|done|intros y Hy; apply Hin; by right|].
    intros s2 G2 L2 st2 NL2 C2 H2 HS2. destruct (evict cfg n xs v) as [[j l] w]. cbn [fst snd] in *. rewrite <-Z.add_assoc. by eapply HQ.
  - intros Hz s2 G2 L2 st2 NL2 C2 H2 HS2 En2 End2 HC2. rewrite (proj2 (Z.eqb_neq _ _)) in HQ by done.
    replace (nd G1 SYS_CLEAN_NODE_INDEX) with (nd G2 SYS_CLEAN_NODE_INDEX) by (apply End2, (clean_ready p G1 L st NL C v HS1)).
    replace (nd G1 (List.hd SYS_CLEAN_NODE_INDEX xs)) with (nd G2 (List.hd SYS_CLEAN_NODE_INDEX xs)).
    2: { apply End2. destruct xs as [|y xs]; [apply (clean_ready p G1 L st NL C v HS1)|]. apply (shows_ready _ _ _ _ _ _ _ _ _ HS1), elem_of_union_l, Hin. right. by left. }
    assert (Hrest : v_entries (purge_entry x e v) = delete x (v_entries v) /\ v_list (purge_entry x e v) Clean = without x (v_list v Clean)).
    { unfold purge_entry, unchunk. by rewrite (proj2 (Z.eqb_neq _ _)) by done. }
    destruct Hrest as [Ee El]. eapply (IH xs tail s2 G2 L2 st2 NL2 C2 (purge_entry x e v) _ (k + 1) Q); [done|done| | | |].
    + rewrite Ee, map_size_delete, He. lia.
    + rewrite El, E. by apply without_middle.
    + intros y Hy. rewrite Ee, dom_delete_L, elem_of_difference, elem_of_singleton. split; [apply Hin; by right|by intros ->].
    + intros s3 G3 L3 st3 NL3 C3 H3 HS3. destruct (evict cfg n xs (purge_entry x e v)) as [[j l] w]. cbn [fst snd] in *. rewrite <-Z.add_assoc, <-app_assoc. by eapply HQ.
Qed.

Lemma wp_pre_purge_nodes p s G L st NL C v fuel n log (Q : Z -> events * (Pool * S) -> Prop) : Rep s G -> shows p G L st NL C v -> (size (v_entries v) < fuel)%nat ->
  (forall x, x ∈ v_list v Clean -> x ∈ dom (v_entries v)) ->
  (forall s' G' L' st' NL' C' k l w, evict cfg (Z.to_nat n) (reverse (v_list v Clean)) v = (k, l, w) -> Rep s' G' -> shows p G' L' st' NL' C' w -> Q k (log ++ l, (p, s'))) ->
  wp (pre_purge_nodes cfg env fuel n Node_Empty) (log, (p, s)) Q.
Proof.
  intros HR HS Hf Hin HQ. pose proof (cs_table _ _ _ _ _ _ _ _ _ HS) as HT. unfold pre_purge_nodes. destruct (Z.leb_spec n 0) as [Hn|Hn].
  - apply wp_ret. rewrite <-(app_nil_r log). eapply (HQ s G L st NL C 0 [] v); [|done|done]. by rewrite (Z2Nat.nonpos n) by done.
  - apply wp_bind, wp_pool, (wp_lru_head p s G _ L st NL HR HT); [apply (NodeSpec.head_in Clean)|].
    apply wp_bind, wp_pool, (wp_clean_end p s G L st NL C v HR HS).
    eapply (wp_pre_purge_loop p fuel _ _ [] s G L st NL C v log 0 Q HR HS Hf); [by rewrite reverse_involutive, app_nil_r|intros x Hx; apply Hin; by apply elem_of_reverse|].
    intros s' G' L' st' NL' C' H' HS'. destruct (evict _ _ _ _) as [[k l] w] eqn:E. by eapply HQ.
Qed.
End Evict.
