(* ===== verification/CacheInit.v ===== *)
(** Setting up the cache in an empty segment. *)
From Stdlib Require Import ZArith Lia.
From stdpp Require Import functions base list list_numbers numbers gmap.
From S2P Require Import Prelude TTree RawData PtMalloc PtSpec Mallocator NodeTable NodeRep NodeAcc NodeLru NodeGroup NodeNg NodeInv NodeAlloc NodeInit NodeSpec Hash BufferPool CacheRep CacheInv.
Import AllocSpec.
Local Open Scope Z_scope.

Definition start_view (F : blocks) : cview := mkView ∅ ∅ (fun _ => []) ∅ F.
(** A segment of the size [verify_cache_info] lets through has buckets. *)
Lemma buckets_pos m : 5200 <= m <= 2 ^ 36 -> 0 < hash_bucket_num m < 2 ^ 32 - 9.
Proof.
  intros Hm. unfold hash_bucket_num. assert (Hd : 52 <= m / 100 < 2 ^ 30) by (change (2 ^ 30) with 1073741824; change (2 ^ 36) with 68719476736 in Hm; zdm).
  change (2 ^ 30) with 1073741824 in Hd. assert (E64 : u64 (m / 100 - 16) = m / 100 - 16) by (apply wrap_small; unfold is_u; change (2 ^ 64) with 18446744073709551616; lia).
  assert (E32 : u32 (m / 100 - 16) = m / 100 - 16) by (apply wrap_small; unfold is_u; change (2 ^ 32) with 4294967296; lia). rewrite E64, E32.
  set (q := (m / 100 - 16) / 4). assert (Hq : 9 <= q < 2 ^ 28) by (change (2 ^ 28) with 268435456; unfold q; zdm). change (2 ^ 28) with 268435456 in Hq.
  assert (Es : s32 q = q) by (apply swrap_small; [lia|]; unfold is_s; change (2 ^ (32 - 1)) with 2147483648; lia). rewrite Es, Z.quot_div_nonneg by lia. cbn zeta.
  assert (Eu : u32 (q / 9 * 9) = q / 9 * 9) by (apply wrap_small; unfold is_u; change (2 ^ 32) with 4294967296; zdm). rewrite Eu. change (2 ^ 32) with 4294967296. zdm.
Qed.

Section Init.
Context {S : Type} `{!Mallocator S, !MallocatorLaws S}.
Implicit Types (s : S) (G : table) (p : Pool).
#[local] Abbreviation PS := (ST (Pool * S)).

Lemma bare_hash p G G' : (forall r, r <> RHash -> hof G' r = hof G r) -> nsets G' = nsets G -> fih G' = fih G -> bare p G -> bare p G'.
Proof.
  intros Hr En Ef [A1 [I1 I2] A3 A4 A5 A6]. split; rewrite ?Hr by done; try done; [|by intros k; rewrite Hr|by rewrite En].
  split; [by rewrite Hr|]. intros i Hi. rewrite Ef, Hr by done. auto.
Qed.

(** What the hash is made of does not change with the rest. *)
Record hash_only (G G' : table) : Prop := {
  oh_hof : hof G' = hof G;
  oh_nsets : nsets G' = nsets G;
  oh_nbkt : nbkt G' = nbkt G;
  oh_rest : rest G' = rest G;
  oh_fih : fih G' = fih G
}.
Lemma wp_init_buckets v : forall k i s G (Q : unit -> S -> Prop), Rep s G -> v = hof G RHash -> v <> 0 -> 0 <= i -> i + Z.of_nat k = nbkt G ->
  (forall s' G', Rep s' G' -> hash_only G G' -> hh G' = hh G -> (forall j, i <= j < nbkt G -> bkt G' j = INVALID_NODE_ID) -> (forall j, j < i -> bkt G' j = bkt G j) -> Q tt s') ->
  wp (init_buckets v i k) s Q.
Proof.
  induction k as [|k IH]; intros i s G Q HR Ev Hv Hi Hk HQ; cbn [init_buckets].
  - apply wp_ret, (HQ s G HR); [done|done|lia|done].
  - apply wp_bind, (wp_wr s G (LBucket i)); [done|split; [cbn [lrole]; by rewrite <-Ev|cbn; lia]|unfold hh_bucket, sizeof_HASH; cbn [lrole loff]; lia|done|].
    rewrite Z.mod_small by done. intros s1 H1. set (G1 := upd _ _ G) in *.
    apply (IH (i + 1) s1 G1); [done|done|done|lia|change (nbkt G1) with (nbkt G); lia|].
    intros s' G' H' [E1 E2 E3 E4 E5] Eh Hb Hlo. apply (HQ s' G' H'); [by split|done| |].
    + intros j Hj. destruct (decide (j = i)) as [->|Hne]; [rewrite Hlo by lia; apply fn_lookup_insert|apply Hb; change (nbkt G1) with (nbkt G); lia].
    + intros j Hj. rewrite Hlo by lia. apply fn_lookup_insert_ne. lia.
Qed.

Lemma wp_Hash_Init p s G ks hsize (Q : Z -> Pool * S -> Prop) : Rep s G -> bare p G -> hof G RHash = 0 -> 0 < hsize < 2 ^ 32 -> 0 <= ks < 2 ^ 32 -> (forall p' s', Q (-1) (p', s')) ->
  (forall s' G' v, Rep s' G' -> bare (set_hash v p) G' -> hashed (set_hash v p) G' ks -> nbkt G' = hsize -> (forall i, 0 <= i < hsize -> bkt G' i = INVALID_NODE_ID) -> rest G' = rest G -> Q 0 (set_hash v p, s')) ->
  wp (Hash_Init hsize ks) (p, s) Q.
Proof.
  intros HR HB Hn Hs Hks HQ1 HQ. unfold Hash_Init. apply wp_bind, wp_shm.
  destruct (Rep_calloc s G RHash hsize (4 * hsize + sizeof_HASH) HR Hn ltac:(lia) (or_introl eq_refl)) as (v & s1 & E & Hc); [cbn; unfold sizeof_HASH; lia|].
  exists v, s1. split; [exact E|]. clear E. unfold INVALID_HANDLE. destruct Hc as [[-> HR1]|(Hv & _ & H1)]; [by apply wp_ret, HQ1|].
  rewrite (proj2 (Z.eqb_neq v 0)) by done. apply wp_assign. set (G1 := adopt _ _ _ _) in *. assert (Ev : hof G1 RHash = v) by apply fn_lookup_insert.
  assert (Hr1 : forall r, r <> RHash -> hof G1 r = hof G r) by (intros r Hr; by apply fn_lookup_insert_ne). assert (Hl : hof G1 RHash <> 0) by by rewrite Ev.
  apply wp_bind, wp_shm, (wp_wr s1 G1 (LHash HSize)); [done|by split|cbn [lrole loff]; lia|done|]. intros s2 H2. set (G2 := upd _ _ G1) in *.
  apply wp_bind, wp_shm, (wp_wr s2 G2 (LHash HFree)); [done|by split|cbn [lrole loff]; change (hof G2) with (hof G1); lia|done|]. intros s3 H3. set (G3 := upd _ _ G2) in *.
  apply wp_bind, wp_shm, (wp_wr s3 G3 (LHash HNode)); [done|by split|cbn [lrole loff]; change (hof G3) with (hof G1); lia|done|]. intros s4 H4. set (G4 := upd _ _ G3) in *.
  apply wp_bind, wp_shm, (wp_wr s4 G4 (LHash HFixed)); [done|by split|cbn [lrole loff]; change (hof G4) with (hof G1); lia|done|]. intros s5 H5. set (G5 := upd _ _ G4) in *.
  apply wp_bind, wp_shm, (wp_init_buckets v _ 0 s5 G5); [done|done|done|done|change (nbkt G5) with hsize; lia|].
  intros s6 G6 H6 [E1 E2 E3 E4 E5] Eh Hb _. apply wp_ret, (HQ s6 G6 v H6); [| |by rewrite E3|by intros i Hi; apply Hb|by rewrite E4].
  - apply (bare_hash _ G); [|by rewrite E2| |by destruct HB; split].
    + intros r Hr. rewrite E1. by apply Hr1.
    + rewrite E5. done.
  - split; rewrite ?E1, ?E3, ?Eh; try done; [change (hsize mod 2 ^ 32 = hsize); apply Z.mod_small; lia|change (0 < hsize); lia|].
    change (ks mod 2 ^ 32 = ks). by apply Z.mod_small.
Qed.

Lemma wp_dtc_mem_init cfg p s F m (Q : Z -> Pool * S -> Prop) : heap s F -> 5200 <= m <= 2 ^ 36 -> 0 <= keySize cfg < 2 ^ 32 -> 1 <= alloc_step p ->
  (forall p' s', Q (-1) (p', s')) ->
  (forall p' s' G, Rep s' G -> cshows cfg None p' G none none none (fun _ => []) (start_view F) -> Q 0 (p', s')) -> wp (dtc_mem_init cfg m) (p, s) Q.
Proof.
  intros HA Hm Hks Hst HQ1 HQ. pose proof (buckets_pos m Hm) as Hb. unfold dtc_mem_init. set (n := hash_bucket_num m) in *.
  apply wp_bind, (wp_Index_Init p s F m); [done|lia|intros p' s'; by apply wp_ret, HQ1|]. intros s1 G1 v1 H1 B1 E1 R1. cbn [Z.eqb negb].
  apply wp_bind, (wp_Hash_Init _ s1 G1 (keySize cfg) n); [done|done|done|lia|done|intros p' s'; by apply wp_ret, HQ1|]. intros s2 G2 v2 H2 B2 HH2 En Hbk R2. cbn [Z.eqb negb].
  apply wp_bind, (wp_NGInfo_Init _ s2 G2); [done|done|done|intros p' s'; by apply wp_ret, HQ1|]. intros s3 G3 v3 H3 T3 [P1 P2 P3 P4 P5 P6]. cbn [Z.eqb negb]. apply wp_ret.
  apply (HQ _ s3 G3 H3). destruct HH2 as [A1 A2 A3 A4 A5]. split; try done.
  - cbn. by rewrite P6, R2.
  - split; rewrite ?P2, ?P3, ?P5; done.
  - split; rewrite P5, En; [|intros; constructor|]; intros i; [|by intros j x _ _ ?%not_elem_of_nil]. intros Hi. cbn. by rewrite P4, Hbk.
  - intros x. cbn [v_entries start_view]. rewrite dom_empty_L. split; [by intros ?%elem_of_empty|by intros (i & _ & ?%not_elem_of_nil)].
Qed.
End Init.
