(* ===== verification/CacheSpec.v ===== *)
(** What the cache promises: keys with chunks in three eviction lists. *)
From Stdlib Require Import ZArith Lia.
From stdpp Require Import functions base list list_numbers numbers gmap.
From S2P Require Import Prelude TableDef TTree RawData RawRep RawOps RawEdit RawSpec Mem PtMalloc PtHeap PtOps PtSpec Mallocator Bump NodeTable NodeRep NodeAcc NodeLru NodeGroup NodeNg NodeInv NodeAlloc NodeOps NodeAllot NodeRelease NodeLists NodeInit NodeSpec Hash BufferPool CacheRep CacheInv CacheOps CacheFind CacheMake CacheEvict CacheInit.
Import AllocSpec Bump.
Local Open Scope Z_scope.

Module CacheSpec.

(** ** Clients *)

(** [OData] gives the node of a key its chunk; the object it is done with may hold
    anything. *)
Inductive op :=
  | OFind (key : list Z)
  | OInsert (key : list Z)
  | OData (id : Z) (key : list Z) (raw : RawData)
  | OPurge (key : list Z)
  | OEvict (n : Z)
  | OMove (w : lru_list) (id : Z)
  | ODirty (id : Z) (b : bool)
  | ORead (id : Z).
(** [ANode id found]: [found] says that the index finds the new node. *)
Inductive answer :=
  | ANone
  | ANode (id : Z) (found : bool)
  | ACode (r : Z)
  | AEntry (h : Z) (dirty : bool).

Section Exec.
Context {S : Type} `{!Mallocator S}.
Context (cfg : Config) (env : Env).
#[local] Abbreviation PS := (ST (Pool * S)).
#[local] Abbreviation CS := (ST (events * (Pool * S))).

(** An operation with what it reports to the notifier. *)
Definition reporting (m : CS answer) : PS (answer * events) := fun st => let! x := m ([], st) in Ok ((x.1, x.2.1), x.2.2).
Definition exec (fuel : nat) (o : op) : CS answer :=
  match o with
  | OFind key => n ← cache_find_auto_chose_hash cfg fuel key; if no_node n then mret ANone else id ← seg (node_id n); mret (ANode id true)
  | OInsert key => n ← pool (insert_empty_node cfg key); if no_node n then mret ANone else id ← seg (node_id n); m ← pool (Index_Search id); mret (ANode id (negb (no_node m)))
  | OData id key raw => n ← pool (Index_Search id); r ← ensure_data cfg env fuel key n raw; mret (ACode r)
  | OPurge key => r ← cache_purge cfg env fuel key; mret (ACode r)
  | OEvict n => r ← pre_purge_nodes cfg env fuel n Node_Empty; mret (ACode r)
  | OMove w id => n ← pool (Index_Search id); r ← pool (remove_from_lru n;; NodeSpec.insert2 w n); mret (ACode r)
  | ODirty id b => n ← pool (Index_Search id); pool (shm (if b then set_dirty n else clr_dirty n));; mret (ACode 0)
  | ORead id => n ← pool (Index_Search id); h ← seg (vd_handle n); d ← seg (is_dirty n); mret (AEntry h d)
  end.

Abbreviation trace := (list (op * (answer * events))).
Fixpoint run (client : trace -> option op) (fuel n : nat) (tr : trace) : PS trace :=
  match n with
  | O => mret tr
  | Datatypes.S n => match client tr with None => mret tr | Some o => a ← reporting (exec fuel o); run client fuel n (tr ++ [(o, a)]) end
  end.
End Exec.
Abbreviation trace := (list (op * (answer * events))).

(** ** The specification *)

Section Rules.
Context (cfg : Config) (env : Env) (F : blocks).

(** What a client sees to: keys are packed as the cache expects, a key is inserted when it
    is not there, and nodes are those of entries. *)
Definition legal (v : cview) (o : op) : Prop :=
  match o with
  | OFind key | OPurge key => key_ok (keySize cfg) key
  | OInsert key => key_ok (keySize cfg) key /\ forall id e, v_entries v !! id = Some e -> e_key e <> key
  | OData id key _ => exists e, v_entries v !! id = Some e /\ e_key e = key
  | OEvict _ => True
  | OMove _ id | ODirty id _ | ORead id => is_Some (v_entries v !! id)
  end.
(** [None] is the cache after an insertion whose node the index does not know, for want of
    memory for a second-level map: that failure is ignored by the code, and nothing is
    promised from there on. *)
Definition spec_step (v : cview) (o : op) (a : answer) (evs : events) (w : option cview) : Prop :=
  match o with
  | OFind key => exists u r, swept cfg key v evs u /\ found key u r /\ a = (match r with Some id => ANode id true | None => ANone end) /\ w = Some u
  | OInsert key => evs = [] /\
      ((a = ANone /\ v_spare v = ∅ /\ w = Some v) \/
       (exists id, a = ANode id true /\ id ∉ live v /\ 256 <= id < INVALID_NODE_ID /\ w = Some (new_entry id key v)) \/
       (exists id, a = ANode id false /\ w = None))
  | OData id key _ => exists e, v_entries v !! id = Some e /\
      ((e_handle e <> 0 /\ a = ACode 0 /\ evs = [] /\ w = Some v) \/
       (e_handle e = 0 /\ exists h bs, a = ACode 0 /\ evs = [] /\ h <> 0 /\ v_rest v !! h = None /\ new_chunk env key bs /\ w = Some (set_chunk id e h bs v)) \/
       (e_handle e = 0 /\ a = ACode (-1) /\ evs = noted cfg key id /\ w = Some (drop_entry id v)))
  | OPurge key => exists u r evs' x, swept cfg key v evs' u /\ found key u r /\ after_purge cfg key u evs' r evs x /\ a = ACode 0 /\ w = Some x
  | OEvict n => exists k x, evict cfg (Z.to_nat n) (reverse (v_list v Clean)) v = (k, evs, x) /\ a = ACode k /\ w = Some x
  | OMove l id => evs = [] /\ a = ACode 0 /\ w = Some (move_to l id v)
  | ODirty id b => evs = [] /\ exists e, v_entries v !! id = Some e /\ a = ACode 0 /\ w = Some (set_dirty_bit id e b v)
  | ORead id => evs = [] /\ exists e, v_entries v !! id = Some e /\ a = AEntry (e_handle e) (e_dirty e) /\ w = Some v
  end.
Inductive spec_trace : trace -> option cview -> Prop :=
  | st_nil : spec_trace [] (Some (start_view F))
  | st_snoc tr v o a evs w : spec_trace tr (Some v) -> legal v o -> spec_step v o a evs w -> spec_trace (tr ++ [(o, (a, evs))]) w.
Definition well_behaved (client : trace -> option op) : Prop :=
  forall tr w o, spec_trace tr w -> client tr = Some o -> exists v, w = Some v /\ legal v o.

(** ** What holds in the specification *)

Record sound (n : nat) (v : cview) : Prop := {
  so_clean x : x ∈ v_list v Clean -> x ∈ dom (v_entries v);
  so_keys id id' e e' : v_entries v !! id = Some e -> v_entries v !! id' = Some e' -> e_key e = e_key e' -> id = id';
  so_size : (size (v_entries v) <= n)%nat
}.
Lemma sound_le n m v : (n <= m)%nat -> sound n v -> sound m v.
Proof. intros Hn [H1 H2 H3]. split; [done|done|lia]. Qed.
Lemma sound_drop n id v : sound n v -> sound n (drop_entry id v).
Proof.
  intros [H1 H2 H3]. split; cbn [v_entries v_list drop_entry].
  - intros x. rewrite elem_of_without, dom_delete_L, elem_of_difference, elem_of_singleton. intros [Hne Hx]. auto.
  - intros x y e e' [_ Hx]%lookup_delete_Some [_ Hy]%lookup_delete_Some. by apply H2.
  - rewrite map_size_delete. destruct (v_entries v !! id); cbn; lia.
Qed.
Lemma sound_purge n id e v : sound n v -> sound n (purge_entry id e v).
Proof. intros Hv. apply sound_drop. unfold unchunk. destruct (_ =? _); [done|]. by destruct Hv; split. Qed.
Lemma sound_swept n key v evs u : swept cfg key v evs u -> sound n v -> sound n u.
Proof. induction 1 as [|v id e evs w _ _ _ IH]; [done|]. intros Hv. by apply IH, sound_drop. Qed.
Lemma sound_evict n : forall k xs v, sound n v -> sound n (evict cfg k xs v).2.
Proof.
  induction k as [|k IH]; intros xs v Hv; [by destruct xs|]. destruct xs as [|x xs]; [done|]. cbn [evict]. destruct (v_entries v !! x) as [e|]; [|done]. destruct (_ =? _).
  - specialize (IH xs v Hv). by destruct (evict cfg k xs v) as [[j l] w].
  - specialize (IH xs _ (sound_purge n x e v Hv)). by destruct (evict cfg k xs _) as [[j l] w].
Qed.
(** An entry changes, but not its key. *)
Lemma sound_change n id e e' lists r v : sound n v -> v_entries v !! id = Some e -> e_key e' = e_key e -> (forall x, x ∈ lists Clean -> x = id \/ x ∈ v_list v Clean) ->
  sound n (mkView (<[id := e']> (v_entries v)) (v_marks v) lists (v_spare v) r).
Proof.
  intros [H1 H2 H3] He Hk Hl. assert (Hid : id ∈ dom (v_entries v)) by by eapply elem_of_dom_2. split; cbn [v_entries v_list].
  - intros x Hx. rewrite dom_insert_L. destruct (Hl x Hx) as [->|Hx']; set_solver.
  - assert (Hold : forall x d, <[id := e']> (v_entries v) !! x = Some d -> exists d', v_entries v !! x = Some d' /\ e_key d' = e_key d).
    { intros x d. rewrite lookup_insert_Some. intros [[<- <-]|[_ Hx]]; [by exists e|by exists d]. }
    intros x y d d' (c & Hx & <-)%Hold (c' & Hy & <-)%Hold. by apply H2.
  - by rewrite map_size_insert_Some.
Qed.
Lemma sound_new n id key v : sound n v -> id ∉ live v -> (forall x e, v_entries v !! x = Some e -> e_key e <> key) -> sound (Datatypes.S n) (new_entry id key v).
Proof.
  intros [H1 H2 H3] Hid Hk. split; cbn [v_entries v_list new_entry].
  - intros x. rewrite fn_lookup_insert, dom_insert_L, elem_of_cons. intros [->|Hx]; [set_solver|]. apply elem_of_union_r. auto.
  - intros x y e e'. rewrite !lookup_insert_Some. intros [[<- <-]|[_ Hx]] [[<- <-]|[_ Hy]]; cbn [e_key]; [done| | |by apply H2].
    + intros E. by destruct (Hk y e' Hy).
    + intros E. by destruct (Hk x e Hx).
  - rewrite map_size_insert_None; [lia|]. apply not_elem_of_dom. intros Hx. by apply Hid, elem_of_union_l.
Qed.
Lemma sound_step n v o a evs u : sound n v -> legal v o -> spec_step v o a evs (Some u) -> sound (Datatypes.S n) u.
Proof.
  intros Hv Ho Hs. assert (Hv' : sound (Datatypes.S n) v) by (eapply sound_le; [|done]; lia). destruct o as [key|key|id key raw|key|k|l id|id b|id]; cbn in Ho, Hs.
  - destruct Hs as (u' & r & Hsw & _ & _ & [= ->]). by eapply sound_swept.
  - destruct Hs as (_ & [(_ & _ & [= ->])|[(id & _ & Hid & _ & [= ->])|(id & _ & ?)]]); [done| |done]. apply sound_new; [done|done|apply Ho].
  - destruct Hs as (e & He & [(_ & _ & _ & [= ->])|[(_ & h & bs & _ & _ & _ & _ & _ & [= ->])|(_ & _ & _ & [= ->])]]); [done| |by apply sound_drop].
    eapply sound_change; [done|done|done|auto].
  - destruct Hs as (w & r & evs' & x & Hsw & _ & Ha & _ & [= ->]). pose proof (sound_swept _ _ _ _ _ Hsw Hv') as Hw. destruct r as [id|]; cbn in Ha.
    + destruct Ha as (e & _ & _ & ->). by apply sound_purge.
    + by destruct Ha as [_ ->].
  - destruct Hs as (j & x & E & _ & [= ->]). pose proof (sound_evict _ (Z.to_nat k) (reverse (v_list v Clean)) v Hv') as H. by rewrite E in H.
  - destruct Hs as (_ & _ & [= ->]). destruct Ho as [e He]. destruct Hv' as [H1 H2 H3]. split; [|done|done]. intros x. cbn [v_list v_entries move_to].
    destruct (decide (l = Clean)) as [->|Hne]; [rewrite fn_lookup_insert, elem_of_cons|rewrite fn_lookup_insert_ne by done]; rewrite elem_of_without.
    + intros [->|[_ Hx]]; [by eapply elem_of_dom_2|auto].
    + intros [_ Hx]. auto.
  - destruct Hs as (_ & e & He & _ & [= ->]). eapply sound_change; [done|done|done|auto].
  - destruct Hs as (_ & e & _ & _ & [= ->]). done.
Qed.
Lemma sound_trace tr w : spec_trace tr w -> forall v, w = Some v -> sound (length tr) v.
Proof.
  induction 1 as [|tr v o a evs w Ht IH Ho Hs]; intros u Hu.
  - injection Hu as <-. split; cbn; [by intros x ?%not_elem_of_nil|done|by rewrite map_size_empty].
  - rewrite length_app, Nat.add_comm. subst w. eapply sound_step; [by apply IH|done|done].
Qed.
End Rules.

(** ** The implementation *)

Section Spec.
Context {S : Type} `{!Mallocator S, !MallocatorLaws S}.
Context (cfg : Config) (env : Env).
Implicit Types (s : S) (G : table) (p : Pool).
#[local] Abbreviation PS := (ST (Pool * S)).
#[local] Abbreviation CS := (ST (events * (Pool * S))).
#[local] Abbreviation shows := (cshows cfg None).

Definition Refines (p : Pool) (s : S) (v : cview) : Prop := exists G L st NL C, Rep s G /\ shows p G L st NL C v.
Definition RefinesO (p : Pool) (s : S) (w : option cview) : Prop := match w with Some v => Refines p s v | None => True end.
Definition step_post (v : cview) (o : op) (a : answer) (st : events * (Pool * S)) : Prop :=
  exists w, spec_step cfg env v o a st.1 w /\ RefinesO st.2.1 st.2.2 w.

Section Step.
Context (p : Pool) (s : S) (G : table) (L st NL C : Z -> list Z) (v : cview) (fuel n : nat).
Hypothesis HE : env_ok cfg env.
Hypothesis HR : Rep s G.
Hypothesis HS : shows p G L st NL C v.
Hypothesis Hv : sound n v.
Hypothesis Hn : (n < fuel)%nat.

Lemma small : (size (v_entries v) < fuel)%nat.
Proof. pose proof (so_size _ _ Hv). lia. Qed.
Lemma refines_to s' G' p' L' st' NL' C' u : Rep s' G' -> shows p' G' L' st' NL' C' u -> RefinesO p' s' (Some u).
Proof. intros H1 H2. by exists G', L', st', NL', C'. Qed.
Lemma wp_of_entry {B} id e (f : Node -> CS B) log (Q : B -> events * (Pool * S) -> Prop) : v_entries v !! id = Some e -> wp (f (nd G id)) (log, (p, s)) Q ->
  wp (n ← pool (Index_Search id); f n) (log, (p, s)) Q.
Proof.
  intros He HQ. apply wp_bind, wp_pool, (wp_Search p s G); [done|apply (cs_table _ _ _ _ _ _ _ _ _ HS)|by apply (entry_ready cfg p G L st NL C v id e)|done].
Qed.

(** The pool object stays as it is. *)
Lemma find_keeps key : legal cfg v (OFind key) ->
  wp (exec cfg env fuel (OFind key)) ([], (p, s)) (fun a st => exists u r, a = (match r with Some id => ANode id true | None => ANone end) /\ swept cfg key v st.1 u /\ found key u r /\ st.2.1 = p /\ Refines p st.2.2 u).
Proof.
  intros Hk. apply wp_bind, (wp_cache_find_auto cfg p s G L st NL C v fuel key []); [done|done|apply small|done|].
  intros s' G' L' st' NL' C' u r evs H' HS' Hsw Hfo. rewrite (found_node_none cfg p key G' L' st' NL' C' u r HS' Hfo). destruct r as [id|]; cbn [found_node].
  - pose proof Hfo as (e & He & Hek). apply wp_bind, wp_seg, (wp_node_id s' G' id H'); [by apply (entry_ready cfg p G' L' st' NL' C' u id e)|]. apply wp_ret.
    exists u, (Some id). do 4 (split; [done|]). by eapply refines_to.
  - apply wp_ret. exists u, None. do 4 (split; [done|]). by eapply refines_to.
Qed.
Lemma step_find key : legal cfg v (OFind key) -> wp (exec cfg env fuel (OFind key)) ([], (p, s)) (step_post v (OFind key)).
Proof.
  intros Hk. eapply wp_mono; [by apply find_keeps|]. intros a [evs [p' s']] (u & r & -> & Hsw & Hfo & Hp & HR'). cbn in *. subst p'. exists (Some u). split; [|done]. by exists u, r.
Qed.
Lemma cache_step_insert key : legal cfg v (OInsert key) -> wp (exec cfg env fuel (OInsert key)) ([], (p, s)) (step_post v (OInsert key)).
Proof.
  intros [Hk _]. apply wp_bind, wp_pool, (wp_insert_empty_node cfg p s G L st NL C v key HR HS Hk).
  - intros E s' H'. apply wp_ret. exists (Some v). split; [|by eapply refines_to]. split; [done|]. by left.
  - split.
    + intros p' s' G' L' st' NL' C' id H' HS' Hid. pose proof (cs_table _ _ _ _ _ _ _ _ _ HS') as HT'.
      assert (Hl : id ∈ live (new_entry id key v)) by (unfold live; cbn; rewrite dom_insert_L; set_solver). pose proof (live_ready _ _ _ _ _ _ HT' id Hl) as Hrd.
      rewrite (node_there G' id) by apply Hrd. apply wp_bind, wp_seg, (wp_node_id s' G' id H'); [apply Hrd|]. apply wp_bind, wp_pool, (wp_Search p' s' G'); [done|apply HT'|done|].
      rewrite (node_there G' id) by apply Hrd. apply wp_ret. exists (Some (new_entry id key v)). split; [|by eapply refines_to]. split; [done|]. right. left. exists id.
      split; [done|]. split; [done|]. split; [|done]. destruct (ready_small _ _ Hrd) as [Hr _]. pose proof (live_not_head _ _ _ _ _ _ HT' id Hl). unfold INVALID_NODE_ID. lia.
    + intros p' s' G' id H' Hp HI Hg H0. rewrite (node_there G' id) by done. apply wp_bind, wp_seg, (wp_node_id s' G' id H'); [done|].
      apply wp_bind, wp_pool, (wp_Search_none p' s' G'); [done..|]. apply wp_ret. exists None. split; [|done]. split; [done|]. right. right. by exists id.
Qed.
Lemma step_data id key raw : legal cfg v (OData id key raw) -> wp (exec cfg env fuel (OData id key raw)) ([], (p, s)) (step_post v (OData id key raw)).
Proof.
  intros (e & He & <-). apply (wp_of_entry id e); [done|]. apply wp_bind. apply (wp_ensure_data cfg env p s G L st NL C v fuel id e raw []); [done|done|done|apply small|done|..].
  - intros Hz. apply wp_ret. exists (Some v). split; [|by eapply refines_to]. exists e. split; [done|]. by left.
  - intros Hz s' G' h bs H' HS' Hh Hb Hc. apply wp_ret. eexists. split; [|by eapply refines_to]. exists e. split; [done|]. right. left. split; [done|]. by exists h, bs.
  - intros Hz s' G' L' st' NL' C' H' HS'. apply wp_ret. eexists. split; [|by eapply refines_to]. exists e. split; [done|]. by right; right.
Qed.
Lemma step_purge key : legal cfg v (OPurge key) -> wp (exec cfg env fuel (OPurge key)) ([], (p, s)) (step_post v (OPurge key)).
Proof.
  intros Hk. apply wp_bind, (wp_cache_purge cfg env p s G L st NL C v fuel key []); [done|done|apply small|done|].
  intros s' G' L' st' NL' C' w r evs evs' u H' HS' Hsw Hfo Ha. apply wp_ret. exists (Some u). split; [|by eapply refines_to]. by exists w, r, evs, u.
Qed.
Lemma step_evict k : wp (exec cfg env fuel (OEvict k)) ([], (p, s)) (step_post v (OEvict k)).
Proof.
  apply wp_bind, (wp_pre_purge_nodes cfg env p s G L st NL C v fuel k []); [done|done|apply small|apply Hv|].
  intros s' G' L' st' NL' C' j l w E H' HS'. apply wp_ret. exists (Some w). split; [|by eapply refines_to]. by exists j, w.
Qed.
Lemma step_move l id : legal cfg v (OMove l id) -> wp (exec cfg env fuel (OMove l id)) ([], (p, s)) (step_post v (OMove l id)).
Proof.
  intros [e He]. apply (wp_of_entry id e); [done|]. apply wp_bind, wp_pool, (wp_move cfg p s G L st NL C v HR HS l id); [by eapply elem_of_dom_2|].
  intros s' G' L' H' HS'. apply wp_ret. exists (Some (move_to l id v)). split; [done|by eapply refines_to].
Qed.
Lemma step_dirty id b : legal cfg v (ODirty id b) -> wp (exec cfg env fuel (ODirty id b)) ([], (p, s)) (step_post v (ODirty id b)).
Proof.
  intros [e He]. apply (wp_of_entry id e); [done|]. apply wp_bind, wp_pool, (wp_set_dirty_bit cfg p s G L st NL C v HR HS id e b); [done|].
  intros s' G' H' HS'. apply wp_ret. exists (Some (set_dirty_bit id e b v)). split; [|by eapply refines_to]. split; [done|]. by exists e.
Qed.
Lemma cache_step_read id : legal cfg v (ORead id) -> wp (exec cfg env fuel (ORead id)) ([], (p, s)) (step_post v (ORead id)).
Proof.
  intros [e He]. apply (wp_of_entry id e); [done|]. pose proof (entry_ready cfg p G L st NL C v id e HS He) as [Hg _]. destruct (cs_entry _ _ _ _ _ _ _ _ _ HS id e He) as [Q1 Q2 _ _].
  apply wp_bind, wp_seg, (wp_vd_handle s G id HR Hg), wp_bind, wp_seg, (wp_is_dirty s G id HR Hg), wp_ret. rewrite Q1, Q2.
  exists (Some v). split; [|by eapply refines_to]. split; [done|]. by exists e.
Qed.
End Step.

Lemma cache_step_refines p s v o fuel n : env_ok cfg env -> Refines p s v -> sound n v -> (n < fuel)%nat -> legal cfg v o -> wp (exec cfg env fuel o) ([], (p, s)) (step_post v o).
Proof.
  intros HE (G & L & st & NL & C & HR & HS) Hv Hn Ho.
  destruct o; [eapply step_find|eapply cache_step_insert|eapply step_data|eapply step_purge|eapply step_evict|eapply step_move|eapply step_dirty|eapply cache_step_read]; done.
Qed.

Lemma cache_run F client fuel n : forall tr p s w, env_ok cfg env -> well_behaved cfg env F client -> spec_trace cfg env F tr w -> RefinesO p s w -> (length tr + n <= fuel)%nat ->
  exists tr' p' s' w', run cfg env client fuel n tr (p, s) = Ok (tr', (p', s')) /\ spec_trace cfg env F tr' w' /\ RefinesO p' s' w'.
Proof.
  induction n as [|n IH]; intros tr p s w HE Hc Ht HR Hf; cbn [run]; [by exists tr, p, s, w|].
  destruct (client tr) as [o|] eqn:Eo; [|by exists tr, p, s, w]. destruct (Hc tr w o Ht Eo) as (v & -> & Ho).
  destruct (cache_step_refines p s v o fuel (length tr) HE HR (sound_trace _ _ _ _ _ Ht v eq_refl) ltac:(lia) Ho) as (a & [evs [p1 s1]] & E & w1 & Hs & H1).
  assert (E' : reporting (exec cfg env fuel o) (p, s) = Ok ((a, evs), (p1, s1))) by (unfold reporting; by rewrite E). rewrite (bind_ok _ _ _ _ _ E').
  apply (IH _ p1 s1 w1); [done|done|by eapply st_snoc|done|]. rewrite length_app. cbn. lia.
Qed.
End Spec.

(** C5: the cache refines its specification. In any segment of any allocator that keeps its
    word, setting up fails for want of memory or gives an empty cache, and then every run of
    every client ends without a fault, within loops of as many steps as there were
    operations. Its answers are those of a set of keyed entries in three lists: a search
    finds the entry of the key with a chunk, or tells that there is none, in whichever hash
    while the hash is being changed; a node without a chunk in its way is purged and
    reported; a new entry goes to the front of the clean list; a purged one leaves the hash,
    its list and the segment; eviction takes clean entries from the end of their list. The
    blocks of the segment that are nobody's chunk stay as they are. *)
Theorem cache_refines {S : Type} `{!Mallocator S, !MallocatorLaws S} cfg env client fuel n m p (s : S) F :
  heap s F -> env_ok cfg env -> 0 <= keySize cfg <= 256 -> 5200 <= m <= 2 ^ 36 -> 1 <= alloc_step p -> (n <= fuel)%nat -> well_behaved cfg env F client ->
  exists r p1 s1, dtc_mem_init cfg m (p, s) = Ok (r, (p1, s1)) /\
    (r = -1 \/ (r = 0 /\ exists tr p2 s2 w, run cfg env client fuel n [] (p1, s1) = Ok (tr, (p2, s2)) /\ spec_trace cfg env F tr w /\ RefinesO cfg p2 s2 w)).
Proof.
  intros HA HE Hk Hm Hst Hf Hc.
  assert (H : wp (dtc_mem_init cfg m) (p, s) (fun r st => r = -1 \/ (r = 0 /\ Refines cfg st.1 st.2 (start_view F)))).
  { apply (wp_dtc_mem_init cfg p s F m _ HA Hm); [lia|done|by left|]. intros p' s' G HR HS. right. split; [done|]. by eexists G, _, _, _, _. }
  destruct H as (r & [p1 s1] & E & H). exists r, p1, s1. split; [done|]. destruct H as [->|[-> H]]; [by left|]. right. split; [done|].
  apply (cache_run cfg env F client fuel n [] p1 s1 (Some (start_view F))); [done|done|constructor|done|done].
Qed.

(** C19: a search finds the entry with the key and a chunk exactly when there is one, and it
    is the same as before; what it removes are entries without a chunk, and when it finds
    nothing no entry with the key is left. *)
Theorem search_exact {S : Type} `{!Mallocator S, !MallocatorLaws S} cfg env fuel n p (s : S) v key :
  Refines cfg p s v -> sound n v -> (n < fuel)%nat -> key_ok (keySize cfg) key ->
  exists r evs s' u, exec cfg env fuel (OFind key) ([], (p, s)) = Ok (match r with Some id => ANode id true | None => ANone end, (evs, (p, s'))) /\ Refines cfg p s' u /\
    (forall id, r = Some id <-> exists e, v_entries v !! id = Some e /\ e_key e = key /\ e_handle e <> 0) /\
    (forall id e, e_handle e <> 0 -> v_entries u !! id = Some e <-> v_entries v !! id = Some e) /\
    (r = None -> forall id e, v_entries u !! id = Some e -> e_key e <> key).
Proof.
  intros (G & L & st & NL & C & HR & HS) Hv Hn Hk.
  destruct (find_keeps cfg env p s G L st NL C v fuel n HR HS Hv Hn key Hk) as (a & [evs [p' s']] & E & u & r & -> & Hsw & Hfo & Hp & HR').
  cbn in Hp, HR'. subst p'. exists r, evs, s', u. split; [done|]. split; [done|].
  destruct (swept_entries _ _ _ _ _ Hsw) as (H1 & H2 & _). split; [|split; [intros id e Hh; split; [apply H1|by intros ?; apply H2]|by intros ->]].
  intros id. split.
  - intros ->. destruct Hfo as (e & He & Hke). exists e. by split; [apply H1|].
  - intros (e & He & Hke & Hh). pose proof (H2 id e He Hh) as Hu. destruct r as [x|]; [|by destruct (Hfo id e)]. destruct Hfo as (d & Hd & Hkd & _). f_equal.
    apply (so_keys n v Hv x id d e); [by apply H1|done|congruence].
Qed.

(** C39: [Destroy] takes the type byte of a chunk as it is, with the index of the table
    definition in it: a chunk made while the second definition is current is neither a raw
    chunk nor a tree for it, so it answers -1 and frees nothing, while [Key] finds the key. *)
Theorem Destroy_second_table {S : Type} `{!Mallocator S, !MallocatorLaws S} env (s : S) A h key bs :
  heap s A -> A !! h = Some bs -> new_chunk env key bs -> new_idx env = 1 -> chunk_Destroy env h s = Ok (-1, s) /\ chunk_Key h s = Ok (h + 16, s).
Proof.
  intros HA Hb (hd & more & -> & Hd) Hi. assert (E : mread 1 h s = Ok (128, s)).
  { rewrite <-(Z.add_0_r h). change 0 with (Z.of_nat 0). rewrite (mread_law 1 s A h _ 0 HA Hb) by (cbn; lia). unfold chunk_type. by rewrite Hi. }
  unfold chunk_Destroy, chunk_Key. by rewrite !(bind_ok _ _ _ _ _ E).
Qed.

(** ** Witnesses *)

(** A client that inserts a key, gives it a chunk, searches for it, purges it and searches
    again, as long as the index takes its node. *)
Definition lost (x : op * (answer * events)) : bool := match x.2.1 with ANode _ false => true | _ => false end.
Definition key0 : list Z := [7; 0; 0; 0].
Definition raw0 : RawData := RawData_new 0 None.
Definition ask_data (x : op * (answer * events)) : option op :=
  match x with (OInsert key, (ANode id true, _)) => if decide (key = key0) then Some (OData id key0 raw0) else None | _ => None end.
Definition client1 (tr : trace) : option op :=
  if existsb lost tr then None else
  match tr with
  | [] => Some (OInsert key0)
  | [x] => ask_data x
  | [_; _] | [_; _; _; _] => Some (OFind key0)
  | [_; _; _] => Some (OPurge key0)
  | _ => None
  end.
Definition cfg0 : Config := mkConfig 4 true true 0 true.
Definition env1 : Env := mkEnv (fun i => Some (RawSpec.RawSpec.sample_tab)) false 1 1000 (fun n => true).

Lemma cache_trace_nil cfg env F w : spec_trace cfg env F [] w -> w = Some (start_view F).
Proof. intros H. remember ([] : trace) as tr eqn:E. destruct H as [|tr v o a evs w _ _ _]; [done|]. by destruct tr. Defined.
Lemma cache_trace_snoc cfg env F tr o a evs w : spec_trace cfg env F (tr ++ [(o, (a, evs))]) w -> exists v, spec_trace cfg env F tr (Some v) /\ legal cfg v o /\ spec_step cfg env v o a evs w.
Proof.
  intros H. remember (tr ++ [(o, (a, evs))]) as tr' eqn:E. destruct H as [|tr' v o' a' evs' w Ht Ho Hs]; [by destruct tr|].
  apply app_inj_tail in E as [-> [= -> -> ->]]. by exists v.
Defined.
Lemma step_known cfg env v o a evs w : spec_step cfg env v o a evs w -> lost (o, (a, evs)) = false -> exists u, w = Some u.
Proof.
  intros Hs Hl. destruct o; cbn in Hs; naive_solver.
Defined.
Lemma known cfg env F tr w : spec_trace cfg env F tr w -> existsb lost tr = false -> exists v, w = Some v.
Proof.
  destruct 1 as [|tr v o a evs w Ht Ho Hs]; [by eexists|]. rewrite existsb_app. intros [_ Hl]%orb_false_iff. cbn [existsb] in Hl. rewrite orb_false_r in Hl. by eapply step_known.
Defined.
Lemma key0_ok : key_ok 4 key0.
Proof. split; [|split; [lia|done]]. unfold key0, is_u. repeat constructor; cbn; lia. Defined.
Lemma env1_ok : env_ok cfg0 env1.
Proof. split; [done|exists RawSpec.RawSpec.sample_tab, RawSpec.RawSpec.sample_fields; split; [reflexivity|split; vm_compute; reflexivity]]. Defined.
Lemma client1_ok F : well_behaved cfg0 env1 F client1.
Proof.
  intros tr w o Ht Hc. unfold client1 in Hc. destruct (existsb lost tr) eqn:El; [done|]. destruct (known _ _ _ _ _ Ht El) as [v ->]. exists v. split; [done|].
  destruct tr as [|[o1 [a1 e1]] [|x2 [|x3 [|x4 [|x5 tr]]]]]; try done; try (injection Hc as <-; exact key0_ok).
  - injection Hc as <-. split; [exact key0_ok|]. apply cache_trace_nil in Ht as [= ->]. intros x d Hx. cbn in Hx. by rewrite lookup_empty in Hx.
  - cbn in Hc. destruct o1 as [|key| | | | | |]; try done. destruct a1 as [|id []| |]; try done. destruct (decide (key = key0)) as [->|]; [|done]. injection Hc as <-.
    apply (cache_trace_snoc _ _ _ []) in Ht as (u & _ & _ & _ & [(? & _)|[(j & Ej & _ & _ & Ew)|(j & ? & _)]]); [done| |done].
    injection Ej as <-. injection Ew as ->. exists (mkEntry key0 0 false). split; [|done]. cbn. apply lookup_insert_eq.
Defined.
Definition cache_outcome {S : Type} `{!Mallocator S} (client : trace -> option op) (n : nat) (m : Z) (st : Pool * S) : option (Z * trace) :=
  match dtc_mem_init cfg0 m st with
  | Ok (r, st) => match run cfg0 env1 client n n [] st with Ok (tr, _) => Some (r, tr) | _ => None end
  | _ => None
  end.
Definition trace1 : trace :=
  [(OInsert key0, (ANode 256 true, [])); (OData 256 key0 raw0, (ACode 0, [])); (OFind key0, (ANode 256 true, [])); (OPurge key0, (ACode 0, [(key0, 256)])); (OFind key0, (ANone, []))].
Lemma cache_outcome_inv {S : Type} `{!Mallocator S} client n m (st : Pool * S) r tr st1 : dtc_mem_init cfg0 m st = Ok (r, st1) ->
  cache_outcome client n m st = Some (0, tr) -> r = 0 /\ forall tr' st2, run cfg0 env1 client n n [] st1 = Ok (tr', st2) -> tr' = tr.
Proof.
  unfold cache_outcome. intros -> H. destruct (run cfg0 env1 client n n [] st1) as [[tr1 st2]| |]; [|done..]. injection H as -> ->. split; [done|]. by intros tr' st3 [= -> _].
Defined.
Lemma cache_refines_witness :
  cache_outcome client1 5 65536 (NodeSpec.fresh_pool, Bump.empty_bump) = Some (0, trace1) /\ exists w p s, spec_trace cfg0 env1 ∅ trace1 w /\ RefinesO (S := Bump.Bump) cfg0 p s w.
Proof.
  destruct (cache_refines cfg0 env1 client1 5 5 65536 NodeSpec.fresh_pool Bump.empty_bump ∅ Bump.empty_holds env1_ok) as (r & p1 & s1 & E & H); [cbn; lia|cbn; lia|cbn; lia|lia|apply client1_ok|].
  assert (C : cache_outcome client1 5 65536 (NodeSpec.fresh_pool, Bump.empty_bump) = Some (0, trace1)) by (vm_compute; reflexivity).
  split; [exact C|]. destruct (cache_outcome_inv _ _ _ _ _ _ _ E C) as [-> Hrun]. destruct H as [H|[_ (tr & p2 & s2 & w & E2 & Ht & HR)]]; [discriminate H|].
  rewrite <-(Hrun _ _ E2). exact (ex_intro _ w (ex_intro _ p2 (ex_intro _ s2 (conj Ht HR)))).
Defined.

(** The cache after the first two steps of the client. *)
Definition trace2 : trace := take 2 trace1.
Lemma cache_with_key : exists p (s : Bump.Bump) v, Refines cfg0 p s v /\ sound 2 v.
Proof.
  assert (H : wp (dtc_mem_init cfg0 65536) (NodeSpec.fresh_pool, Bump.empty_bump) (fun r st => r = -1 \/ (r = 0 /\ Refines cfg0 st.1 st.2 (start_view ∅)))).
  { apply (wp_dtc_mem_init cfg0 NodeSpec.fresh_pool Bump.empty_bump ∅ 65536 _ Bump.empty_holds); [lia|cbn; lia|cbn; lia|by left|]. intros p' s' G HR HS. right. split; [done|]. by eexists G, _, _, _, _. }
  destruct H as (r & [p1 s1] & E & H).
  assert (C : cache_outcome client1 2 65536 (NodeSpec.fresh_pool, Bump.empty_bump) = Some (0, trace2)) by (vm_compute; reflexivity).
  destruct (cache_outcome_inv _ _ _ _ _ _ _ E C) as [-> Hrun]. destruct H as [H|[_ H]]; [discriminate H|].
  destruct (cache_run cfg0 env1 ∅ client1 2 2 [] p1 s1 (Some (start_view ∅)) env1_ok (client1_ok ∅)) as (tr & p2 & s2 & w & E2 & Ht & HR); [constructor|exact H|done|].
  pose proof (Hrun _ _ E2) as ->. destruct (known _ _ _ _ _ Ht) as [v ->]; [reflexivity|]. exists p2, s2, v. split; [exact HR|]. exact (sound_trace _ _ _ _ _ Ht v eq_refl).
Defined.
Lemma search_exact_witness : exists p (s : Bump.Bump) v r evs s' u, Refines cfg0 p s v /\
  exec cfg0 env1 5 (OFind key0) ([], (p, s)) = Ok (match r with Some id => ANode id true | None => ANone end, (evs, (p, s'))) /\ Refines cfg0 p s' u.
Proof.
  destruct cache_with_key as (p & s & v & HR & Hv). destruct (search_exact cfg0 env1 5 2 p s v key0 HR Hv) as (r & evs & s' & u & E & HR' & _); [lia|exact key0_ok|].
  by exists p, s, v, r, evs, s', u.
Defined.
Lemma Destroy_second_table_witness : exists (s : Bump.Bump) h, chunk_Destroy env1 h s = Ok (-1, s) /\ chunk_Key h s = Ok (h + 16, s).
Proof.
  destruct (raw_init_chunk cfg0 env1 Bump.empty_bump ∅ key0 raw0 env1_ok Bump.empty_holds key0_ok) as (x & [r s] & E & H).
  assert (C : match RawData_Init env1 key0 0 (raw0, Bump.empty_bump) with Ok (x, _) => x | _ => 1 end = 0) by (vm_compute; reflexivity).
  rewrite E in C. destruct H as [[H _]|(_ & bs & HA & _ & _ & Hc)]; [rewrite H in C; discriminate C|].
  exists s, (_handle r). exact (Destroy_second_table env1 s _ (_handle r) key0 bs HA (lookup_insert_eq _ _ _) Hc eq_refl).
Defined.
End CacheSpec.
