(* ===== verification/Std.v ===== *)
(** Algorithms of the C++ standard library that the search side uses: sorting, sets
    as sorted sequences, and merging sorted sequences, for a comparison function. *)
From Stdlib Require Import ZArith Lia.
From stdpp Require Import gmultiset base list numbers sorting sets.
From S2P Require Import Prelude.
Local Open Scope Z_scope.

(** [operator<] of [std::string], which compares bytes as unsigned. *)
Definition string_lt (a b : list Z) : bool := match lex a b with Lt => true | _ => false end.

(** ** Comparison functions *)

(** What the standard library asks of a comparison function. *)
Class WeakOrder {A} (lt : A -> A -> bool) : Prop := {
  wo_asym a b : lt a b = true -> lt b a = false;
  wo_neg_trans a b c : lt a b = false -> lt b c = false -> lt a c = false
}.

Lemma sorted_impl {A} (R S : relation A) l : (forall x y, R x y -> S x y) -> StronglySorted R l -> StronglySorted S l.
Proof. intros H. induction 1 as [|x l Hl IH Hx]; constructor; [done|]. eapply Forall_impl; [exact Hx|]. apply H. Qed.

Section Order.
Context {A : Type} (lt : A -> A -> bool).

(** [y] does not come before [x]. *)
Definition not_after (x y : A) : Prop := lt y x = false.
#[export] Instance not_after_dec x y : Decision (not_after x y).
Proof. unfold not_after. apply _. Defined.

(** [std::sort]; elements that compare equal keep their order here. *)
Definition std_sort : list A -> list A := merge_sort not_after.

(** [std::upper_bound] on a sorted sequence: the elements from the first one after [x]. *)
Fixpoint upper_bound (x : A) (l : list A) : list A :=
  match l with
  | [] => []
  | y :: l' => if lt x y then l else upper_bound x l'
  end.
(** [std::set::insert] on the elements in order. *)
Fixpoint set_insert (x : A) (l : list A) : list A :=
  match l with
  | [] => [x]
  | y :: l' => if lt x y then x :: l else if lt y x then y :: set_insert x l' else l
  end.
(** [std::set_union], [std::set_intersection] and [std::set_difference]. *)
Fixpoint set_union (l : list A) : list A -> list A :=
  fix go k :=
  match l, k with
  | [], _ => k
  | _, [] => l
  | a :: l', b :: k' => if lt a b then a :: set_union l' k else if lt b a then b :: go k' else a :: set_union l' k'
  end.
Fixpoint set_intersection (l : list A) : list A -> list A :=
  fix go k :=
  match l, k with
  | [], _ | _, [] => []
  | a :: l', b :: k' => if lt a b then set_intersection l' k else if lt b a then go k' else a :: set_intersection l' k'
  end.
Fixpoint set_difference (l : list A) : list A -> list A :=
  fix go k :=
  match l, k with
  | [], _ => []
  | _, [] => l
  | a :: l', b :: k' => if lt a b then a :: set_difference l' k else if lt b a then go k' else set_difference l' k'
  end.

Context `{!WeakOrder lt}.
Lemma wo_irr a : lt a a = false.
Proof. destruct (lt a a) eqn:E; [|done]. by rewrite (wo_asym a a E) in E. Qed.
Lemma wo_trans a b c : lt a b = true -> lt b c = true -> lt a c = true.
Proof.
  intros H1 H2. destruct (lt a c) eqn:E; [done|]. by rewrite (wo_neg_trans a c b E (wo_asym b c H2)) in H1.
Qed.
(** An element before [b] comes before what does not come before [b]. *)
Lemma wo_before a b c : lt a b = true -> lt c b = false -> lt a c = true.
Proof. intros H1 H2. destruct (lt a c) eqn:E; [done|]. by rewrite (wo_neg_trans a c b E H2) in H1. Qed.
#[local] Instance not_after_trans : Transitive not_after.
Proof. intros a b c H1 H2. exact (wo_neg_trans c b a H2 H1). Qed.
#[local] Instance not_after_total : Total not_after.
Proof. intros a b. unfold not_after. destruct (lt b a) eqn:E; [right; by apply wo_asym|by left]. Qed.

Lemma std_sort_perm l : std_sort l ≡ₚ l.
Proof. apply merge_sort_Permutation. Qed.
Lemma std_sort_sorted l : StronglySorted not_after (std_sort l).
Proof. apply StronglySorted_merge_sort; apply _. Qed.
(** The sorted sequence is unique when no two different elements compare equal. *)
Lemma std_sort_unique l k : (forall x y, x ∈ l -> y ∈ l -> lt x y = false -> lt y x = false -> x = y) -> StronglySorted not_after k -> k ≡ₚ l -> k = std_sort l.
Proof.
  intros H Hk Hp. apply (StronglySorted_unique_strong not_after); [|done|apply std_sort_sorted|by rewrite std_sort_perm].
  intros x y Hx Hy H1 H2. rewrite Hp in Hx. rewrite (std_sort_perm l) in Hy. by apply H.
Qed.
Lemma filter_whole (P : A -> Prop) `{forall x, Decision (P x)} l : Forall P l -> filter P l = l.
Proof. induction 1 as [|x l Hx Hl IH]; [done|]. by rewrite filter_cons_True, IH. Qed.
Lemma filter_nothing (P : A -> Prop) `{forall x, Decision (P x)} l : Forall (fun x => ~ P x) l -> filter P l = [].
Proof. induction 1 as [|x l Hx Hl IH]; [done|]. by rewrite filter_cons_False. Qed.
Lemma sorted_filter (R : relation A) (P : A -> Prop) `{forall x, Decision (P x)} l : StronglySorted R l -> StronglySorted R (filter P l).
Proof.
  induction 1 as [|x l Hl IH Hx]; [constructor|]. rewrite filter_cons. destruct (decide (P x)); [|done]. constructor; [done|].
  rewrite list.Forall_forall in Hx |- *. intros y [_ Hy]%list_elem_of_filter. by apply Hx.
Qed.
Lemma upper_bound_filter x l : StronglySorted not_after l -> upper_bound x l = filter (fun y => lt x y = true) l.
Proof.
  induction 1 as [|y l Hl IH Hy]; [done|]. cbn [upper_bound]. destruct (lt x y) eqn:E.
  - rewrite filter_cons_True by done. f_equal. symmetry. apply filter_whole. eapply Forall_impl; [exact Hy|]. intros z Hz. by eapply wo_before.
  - by rewrite filter_cons_False, IH by congruence.
Qed.

(** Two sorted sequences of the same elements compare equal at every place. *)
Lemma sorted_count_lt l i a : StronglySorted not_after l -> l !! i = Some a -> (length (filter (fun x => lt x a = true) l) <= i)%nat.
Proof.
  intros Hl Hi. rewrite <-(take_drop i l), filter_app, length_app. rewrite (filter_nothing _ (drop i l)); [cbn; pose proof (length_filter (fun x => lt x a = true) (take i l)); rewrite length_take in *; lia|].
  rewrite (drop_S _ _ _ Hi). rewrite <-(take_drop i l), (drop_S _ _ _ Hi) in Hl. apply StronglySorted_app in Hl as (_ & _ & Hl).
  apply StronglySorted_cons in Hl as [Hl _]. constructor; [by rewrite wo_irr|]. eapply Forall_impl; [exact Hl|]. intros x Hx. unfold not_after in Hx. congruence.
Qed.
Lemma sorted_count_le l i a b : StronglySorted not_after l -> l !! i = Some a -> lt a b = true -> (i < length (filter (fun x => lt x b = true) l))%nat.
Proof.
  intros Hl Hi Hab. rewrite <-(take_drop (S i) l), filter_app, length_app, (filter_whole _ (take (S i) l)).
  - rewrite length_take. pose proof (lookup_lt_Some _ _ _ Hi). lia.
  - rewrite (take_S_r _ _ _ Hi). rewrite <-(take_drop i l), (drop_S _ _ _ Hi) in Hl. apply StronglySorted_app in Hl as (Hl & _ & _).
    apply Forall_app. split; [|by repeat constructor]. apply list.Forall_forall. intros x Hx. destruct (lt x b) eqn:E; [done|].
    specialize (Hl x a Hx ltac:(left)). by rewrite (wo_neg_trans a x b Hl E) in Hab.
Qed.
Lemma sorted_pointwise l k : StronglySorted not_after l -> StronglySorted not_after k -> l ≡ₚ k -> Forall2 (fun x y => lt x y = false /\ lt y x = false) l k.
Proof.
  assert (H : forall l k i a b, StronglySorted not_after l -> StronglySorted not_after k -> l ≡ₚ k -> l !! i = Some a -> k !! i = Some b -> lt a b = false).
  { clear l k. intros l k i a b Hl Hk Hp Ha Hb. destruct (lt a b) eqn:E; [|done]. pose proof (sorted_count_le l i a b Hl Ha E). pose proof (sorted_count_lt k i b Hk Hb).
    assert (length (filter (fun x => lt x b = true) l) = length (filter (fun x => lt x b = true) k)) by (by rewrite Hp). lia. }
  intros Hl Hk Hp. apply Forall2_same_length_lookup_2; [by apply Permutation_length|]. intros i x y Hx Hy.
  split; [by apply (H l k i)|]. by apply (H k l i y x Hk Hl (symmetry Hp)).
Qed.

(** Sorted without elements that compare equal: the sequence of a [std::set]. *)
Definition strictly : list A -> Prop := StronglySorted (fun a b => lt a b = true).
Lemma strictly_sorted l : strictly l -> StronglySorted not_after l.
Proof. induction 1 as [|x l Hl IH Hx]; constructor; [done|]. eapply Forall_impl; [exact Hx|]. intros y Hy. by apply wo_asym. Qed.
Lemma set_insert_forall (P : A -> Prop) x l : P x -> Forall P l -> Forall P (set_insert x l).
Proof. intros Hx. induction 1 as [|y l Hy Hl IH]; [by repeat constructor|]. cbn. destruct (lt x y), (lt y x); by repeat constructor. Qed.
Lemma set_insert_strictly x l : strictly l -> strictly (set_insert x l).
Proof.
  induction 1 as [|y l Hl IH Hy]; [by repeat constructor|]. cbn. destruct (lt x y) eqn:E1; [|destruct (lt y x) eqn:E2].
  - constructor; [by constructor|]. constructor; [done|]. eapply Forall_impl; [exact Hy|]. intros z Hz. by eapply wo_trans.
  - constructor; [done|]. by apply set_insert_forall.
  - by constructor.
Qed.
(** What compares equal to nothing in the set is added. *)
Lemma set_insert_perm x l : Forall (fun y => lt x y = true \/ lt y x = true) l -> set_insert x l ≡ₚ x :: l.
Proof.
  induction 1 as [|y l Hy Hl IH]; [done|]. cbn. destruct (lt x y) eqn:E1; [done|]. destruct (lt y x) eqn:E2; [|naive_solver].
  rewrite IH. constructor.
Qed.
(** ** Merging sorted sequences

    Of elements that compare equal, [std::set_union] leaves as many as the sequence has
    that has more of them, [std::set_intersection] as the one that has fewer, and
    [std::set_difference] as the first has more than the second. *)

Section Keys.
Context {K : Type} `{Countable K} (key : A -> K).
Context (Hkey : forall a b, lt a b = false -> lt b a = false -> key a = key b) (Hneq : forall a b, lt a b = true -> key a <> key b).

Definition bag (l : list A) : gmultiset K := list_to_set_disj (key <$> l).

Lemma bag_perm l k : l ≡ₚ k -> bag l = bag k.
Proof. intros E. unfold bag. by rewrite E. Qed.
Lemma bag_nil : bag [] = ∅.
Proof. done. Qed.
Lemma bag_cons a l : bag (a :: l) = {[+ key a +]} ⊎ bag l.
Proof. done. Qed.
(** What comes before the first of a sorted sequence is not in it. *)
Lemma bag_before a b k : lt a b = true -> StronglySorted not_after (b :: k) -> key a ∉ bag (b :: k).
Proof.
  intros Hab [_ Hb]%StronglySorted_inv. unfold bag. rewrite elem_of_list_to_set_disj. intros (x & E & Hx)%list_elem_of_fmap.
  rewrite list.Forall_forall in Hb. apply elem_of_cons in Hx as [->|Hx]; [by apply (Hneq a b)|]. apply (Hneq a x); [|done]. eapply wo_before; [exact Hab|by apply Hb].
Qed.

(** Counting an element that one side does not have. *)
Ltac count_both x Hx :=
  apply gmultiset_eq; intros y;
  rewrite ?multiplicity_union, ?multiplicity_intersection, ?multiplicity_difference, ?multiplicity_disj_union,
    ?multiplicity_union, ?multiplicity_intersection, ?multiplicity_difference, ?multiplicity_singleton;
  apply not_elem_of_multiplicity in Hx; destruct (decide (y = x)) as [->|]; lia.
Lemma bag_union_l x (B C : gmultiset K) : x ∉ C -> {[+ x +]} ⊎ (B ∪ C) = ({[+ x +]} ⊎ B) ∪ C.
Proof. intros Hx. count_both x Hx. Qed.
Lemma bag_intersection_l x (B C : gmultiset K) : x ∉ C -> ({[+ x +]} ⊎ B) ∩ C = B ∩ C.
Proof. intros Hx. count_both x Hx. Qed.
Lemma bag_difference_l x (B C : gmultiset K) : x ∉ C -> ({[+ x +]} ⊎ B) ∖ C = {[+ x +]} ⊎ (B ∖ C).
Proof. intros Hx. count_both x Hx. Qed.
Lemma bag_difference_r x (B C : gmultiset K) : x ∉ B -> B ∖ ({[+ x +]} ⊎ C) = B ∖ C.
Proof. intros Hx. count_both x Hx. Qed.
Lemma bag_difference_both x (B C : gmultiset K) : ({[+ x +]} ⊎ B) ∖ ({[+ x +]} ⊎ C) = B ∖ C.
Proof. symmetry. apply gmultiset_difference_disj_union_l. Qed.
Lemma bag_difference_nil (B : gmultiset K) : B ∖ ∅ = B.
Proof. apply gmultiset_eq. intros y. rewrite multiplicity_difference, multiplicity_empty. lia. Qed.
Lemma bag_nil_difference (B : gmultiset K) : ∅ ∖ B = ∅.
Proof. apply gmultiset_eq. intros y. rewrite multiplicity_difference, multiplicity_empty. lia. Qed.

Section Heads.
Context (a : A) (l : list A) (b : A) (k : list A).
Context (HA : StronglySorted not_after (a :: l)) (HB : StronglySorted not_after (b :: k)).

(** The three cases of a merge, by the first elements. *)
Lemma merge_heads :
  (lt a b = true /\ key a ∉ bag (b :: k)) \/ (lt a b = false /\ lt b a = true /\ key b ∉ bag (a :: l)) \/ (lt a b = false /\ lt b a = false /\ key a = key b).
Proof using HA HB Hkey Hneq WeakOrder0.
  destruct (lt a b) eqn:E1; [left; split; [done|by apply bag_before]|right]. destruct (lt b a) eqn:E2; [left|right]; split_and!; try done; [by apply bag_before|by apply Hkey].
Qed.
End Heads.

Lemma set_union_bag l : StronglySorted not_after l -> forall k, StronglySorted not_after k -> bag (set_union l k) = bag l ∪ bag k.
Proof.
  induction 1 as [|a l Hl IHl Ha]; intros k Hk; [rewrite bag_nil, (left_id_L ∅ (∪)); by destruct k|].
  induction Hk as [|b k Hk IHk Hb]; [by rewrite bag_nil, (right_id_L ∅ (∪))|].
  assert (HA : StronglySorted not_after (a :: l)) by by constructor. assert (HB : StronglySorted not_after (b :: k)) by by constructor.
  destruct (merge_heads a l b k HA HB) as [(E1 & Hn)|[(E1 & E2 & Hn)|(E1 & E2 & E)]]; cbn [set_union]; rewrite E1, ?E2, bag_cons.
  - rewrite (IHl _ HB), (bag_cons a). by apply bag_union_l.
  - change ({[+ key b +]} ⊎ bag (set_union (a :: l) k) = bag (a :: l) ∪ bag (b :: k)). rewrite IHk, (bag_cons b), !(comm_L (∪) (bag (a :: l))). by apply bag_union_l.
  - rewrite (IHl _ Hk), (bag_cons a), (bag_cons b), E. apply gmultiset_disj_union_union_l.
Qed.
Lemma set_intersection_bag l : StronglySorted not_after l -> forall k, StronglySorted not_after k -> bag (set_intersection l k) = bag l ∩ bag k.
Proof.
  induction 1 as [|a l Hl IHl Ha]; intros k Hk; [rewrite bag_nil, (left_absorb_L ∅ (∩)); by destruct k|].
  induction Hk as [|b k Hk IHk Hb]; [by rewrite bag_nil, (right_absorb_L ∅ (∩))|].
  assert (HA : StronglySorted not_after (a :: l)) by by constructor. assert (HB : StronglySorted not_after (b :: k)) by by constructor.
  destruct (merge_heads a l b k HA HB) as [(E1 & Hn)|[(E1 & E2 & Hn)|(E1 & E2 & E)]]; cbn [set_intersection]; rewrite E1, ?E2.
  - rewrite (IHl _ HB), (bag_cons a). symmetry. by apply bag_intersection_l.
  - change (bag (set_intersection (a :: l) k) = bag (a :: l) ∩ bag (b :: k)). rewrite IHk, (bag_cons b), !(comm_L (∩) (bag (a :: l))). symmetry. by apply bag_intersection_l.
  - rewrite bag_cons, (IHl _ Hk), (bag_cons a), (bag_cons b), E. apply gmultiset_disj_union_intersection_l.
Qed.
Lemma set_difference_bag l : StronglySorted not_after l -> forall k, StronglySorted not_after k -> bag (set_difference l k) = bag l ∖ bag k.
Proof.
  induction 1 as [|a l Hl IHl Ha]; intros k Hk; [rewrite bag_nil, bag_nil_difference; by destruct k|].
  induction Hk as [|b k Hk IHk Hb]; [by rewrite bag_nil, bag_difference_nil|].
  assert (HA : StronglySorted not_after (a :: l)) by by constructor. assert (HB : StronglySorted not_after (b :: k)) by by constructor.
  destruct (merge_heads a l b k HA HB) as [(E1 & Hn)|[(E1 & E2 & Hn)|(E1 & E2 & E)]]; cbn [set_difference]; rewrite E1, ?E2.
  - rewrite bag_cons, (IHl _ HB), (bag_cons a). symmetry. by apply bag_difference_l.
  - change (bag (set_difference (a :: l) k) = bag (a :: l) ∖ bag (b :: k)). rewrite IHk, (bag_cons b). symmetry. by apply bag_difference_r.
  - rewrite (IHl _ Hk), (bag_cons a), (bag_cons b), E. symmetry. apply bag_difference_both.
Qed.
End Keys.
End Order.
