(* ===== verification/Heap.v ===== *)
(** Binary heaps in arrays, for any order: the place of an entry sinks to its children,
    the top is no better than the others, and a heap of bounded size keeps the best
    entries it has seen. *)
From Stdlib Require Import ZArith Lia.
From stdpp Require Import base list numbers sorting.
From S2P Require Import Prelude Std.
Local Open Scope Z_scope.

Section Heap.
Context {Entry : Type} (before : Entry -> Entry -> bool) `{!WeakOrder before}.

(** No entry at [n] or after comes before one of its children. *)
Definition child (i c : nat) : Prop := c = (2 * i + 1)%nat \/ c = (2 * i + 2)%nat.
Definition heap_from (n : nat) (v : list Entry) : Prop :=
  forall i c a b, (n <= i)%nat -> child i c -> v !! i = Some a -> v !! c = Some b -> before a b = false.
(** A heap from [n] but for the place [h]. *)
Definition heap_but (n h : nat) (v : list Entry) : Prop :=
  (forall i c a b, (n <= i)%nat -> i <> h -> child i c -> v !! i = Some a -> v !! c = Some b -> before a b = false) /\
  (forall p c a b, (n <= p)%nat -> child p h -> child h c -> v !! p = Some a -> v !! c = Some b -> before a b = false).

Lemma heap_top v t : heap_from 0 v -> v !! 0%nat = Some t -> Forall (fun x => before t x = false) v.
Proof.
  intros H Ht. apply Forall_lookup. intros i. induction i as [j IH] using lt_wf_ind. intros x Hx. rename j into i. destruct (decide (i = 0%nat)) as [->|Hi]; [simplify_eq; apply (wo_irr before)|].
  assert (exists p, child p i) as [p Hc]. { exists ((i - 1) / 2)%nat. unfold child. pose proof (Nat.div_mod_eq (i - 1) 2). pose proof (Nat.mod_upper_bound (i - 1) 2). lia. }
  assert (p < i)%nat by (unfold child in Hc; lia). destruct (lookup_lt_is_Some_2 v p) as [y Hy]; [pose proof (lookup_lt_Some _ _ _ Hx); lia|].
  exact (wo_neg_trans (lt := before) t y x (IH p ltac:(lia) y Hy) (H p i y x ltac:(lia) Hc Hy Hx)).
Qed.

(** The hole moves from [h] to [c], a child that none of its siblings comes after. *)
Lemma sift_step n v h c parent y : (n <= h)%nat -> (h < length v)%nat -> child h c -> v !! c = Some y -> (forall d z, child h d -> v !! d = Some z -> before y z = false) ->
  before y parent = false -> heap_but n h (<[h := parent]> v) -> heap_but n c (<[c := parent]> (<[h := y]> v)).
Proof.
  intros Hn Hh Hc Hy Hbig Eb [H1 H2]. assert (Hne : h <> c) by (unfold child in Hc; lia). pose proof (lookup_lt_Some _ _ _ Hy) as Hl.
  assert (Hp : forall i a, i <> h -> i <> c -> <[c := parent]> (<[h := y]> v) !! i = Some a -> <[h := parent]> v !! i = Some a).
  { intros i a Hi Hi'. by rewrite !list_lookup_insert_ne. }
  assert (Hh' : <[c := parent]> (<[h := y]> v) !! h = Some y) by (rewrite list_lookup_insert_ne, list_lookup_insert_eq; done).
  assert (Hc' : <[h := parent]> v !! c = Some y) by (by rewrite list_lookup_insert_ne).
  split.
  - intros i d a b Hi Hic Hd Ha Hb. destruct (decide (i = h)) as [->|Hih].
    + rewrite Hh' in Ha. simplify_eq. destruct (decide (d = c)) as [->|Hdc]; [rewrite list_lookup_insert_eq in Hb by (by rewrite length_insert); by simplify_eq|].
      rewrite !list_lookup_insert_ne in Hb by (unfold child in *; lia). by eapply Hbig.
    + destruct (decide (d = h)) as [->|Hdh].
      * rewrite Hh' in Hb. simplify_eq. apply (H2 i c a b Hi Hd Hc); [by apply Hp|done].
      * apply (H1 i d a b Hi Hih Hd); [by apply Hp|]. apply Hp; [done| |done]. unfold child in *. lia.
  - intros p d a b Hpn Hpc Hd Ha Hb. assert (p = h) as -> by (unfold child in *; lia). rewrite Hh' in Ha. simplify_eq.
    apply (H1 c d a b); [unfold child in *; lia|done|done|done|]. apply Hp; [unfold child in *; lia..|done].
Qed.
(** [heap] holds as many entries of [seen] as it can that no other comes before. *)
Definition best (heap seen : list Entry) : Prop := exists rest, heap ++ rest ≡ₚ seen /\ forall x y, x ∈ heap -> y ∈ rest -> before y x = false.
Lemma best_skip heap seen e top : best heap seen -> (forall x, x ∈ heap -> before top x = false) -> before e top = false -> best heap (seen ++ [e]).
Proof.
  intros (rest & Hp & Hb) Ht He. exists (rest ++ [e]). split; [by rewrite <-Hp, (assoc_L (++))|]. intros x y Hx [Hy| ->%list_elem_of_singleton]%elem_of_app; [by apply Hb|].
  apply (wo_neg_trans e top x He), Ht, Hx.
Qed.
Lemma best_swap heap seen e top h : best (top :: heap) seen -> (forall x, x ∈ heap -> before top x = false) -> before top e = false -> h ≡ₚ e :: heap -> best h (seen ++ [e]).
Proof.
  intros (rest & Hp & Hb) Ht He Hh. exists (rest ++ [top]). split.
  - rewrite Hh, <-Hp. cbn. rewrite (assoc_L (++)), <-!Permutation_cons_append. cbn. apply Permutation_swap.
  - intros x y Hx Hy. rewrite Hh in Hx. assert (Hte : before top x = false) by (apply elem_of_cons in Hx as [->|Hx]; [done|by apply Ht]).
    apply elem_of_app in Hy as [Hy| ->%list_elem_of_singleton]; [|done]. apply (wo_neg_trans y top x); [|done]. apply Hb; [left|done].
Qed.
End Heap.
