(* ===== verification/TopK.v ===== *)
(** Ranking of search results: the first entries by score through a heap
    ([index_read/utils/max_heap.h]) and the pages cut from them
    ([index_read/order_op.h]). *)
From Stdlib Require Import ZArith Lia.
From stdpp Require Import base list list_numbers numbers sorting.
From S2P Require Import Prelude Value Std.
Local Open Scope Z_scope.

(** ** Scores

    [query_process.cc] makes the templates for [int], [double] and [std::string], each
    with its own [FIELDTYPE]; the comparisons of [DocIdEntry] are given here for the type
    at hand. [sc_eq], [sc_lt] and [sc_gt] are [tmp], [tmp1] and [tmp2] of [operator<],
    [sc_same] is [operator==]. *)
Class Scalar (T : Type) := {
  sc_eq : T -> T -> bool;
  sc_lt : T -> T -> bool;
  sc_gt : T -> T -> bool;
  sc_same : T -> T -> bool
}.

(** An [int] is the low 32 bits of a number. [lexical_cast<uint64_t>] of an [int] reads
    its digits back, a sign included. *)
Definition score_int := Z.
#[export] Instance int_scalar : Scalar score_int :=
  { sc_eq a b := s32 a =? s32 b; sc_lt a b := s32 a <? s32 b; sc_gt a b := s32 b <? s32 a; sc_same a b := u64 (s32 a) =? u64 (s32 b) }.

Definition score_string := list Z.
Definition is_space (c : Z) : bool := (c =? 32) || ((9 <=? c) && (c <=? 13)).
Fixpoint skip_space (s : list Z) : list Z := match s with c :: s' => if is_space c then skip_space s' else s | [] => [] end.
Fixpoint token (s : list Z) : list Z * list Z :=
  match s with
  | c :: s' => if is_space c then ([], s) else ((c :: (token s').1), (token s').2)
  | [] => ([], [])
  end.
(** [lexical_cast<std::string>] of a string: its only word, or nothing. *)
Definition lexical_cast (s : list Z) : list Z :=
  let r := token (skip_space s) in
  match r.1 with [] => [] | w => match skip_space r.2 with [] => w | _ => [] end end.
Definition compare (a b : list Z) : comparison := lex a b.
#[export] Instance string_scalar : Scalar score_string :=
  { sc_eq a b := match compare (lexical_cast a) (lexical_cast b) with Eq => true | _ => false end;
    sc_lt a b := match compare (lexical_cast a) (lexical_cast b) with Lt => true | _ => false end;
    sc_gt a b := match compare (lexical_cast a) (lexical_cast b) with Gt => true | _ => false end;
    sc_same a b := match compare (lexical_cast a) (lexical_cast b) with Eq => true | _ => false end }.

(** What the order on scores needs; it fails for [double], where near scores count as
    the same and nearness is not transitive. *)
Class ScalarLaws (T : Type) `{Scalar T} : Prop := {
  sc_order : WeakOrder (sc_lt (T := T));
  sc_eq_lt a b : sc_eq a b = negb (sc_lt a b || sc_lt b a);
  sc_gt_lt a b : sc_gt a b = sc_lt b a;
  sc_same_eq a b : sc_same a b = true -> sc_eq a b = true
}.

Definition SORT_FIELD_ASC := 4.
Definition SORT_FIELD_DESC := 5.

(** The entries of one operation also carry its [FieldType] and its [SortType]: the
    first is the type of the scores, the second a parameter of what follows. *)
Record DocIdEntry (T : Type) := mkEntry { DocId : list Z; Score : T }.
Arguments mkEntry {T}. Arguments DocId {T}. Arguments Score {T}.
Record OrderOpCond := mkCond { last_id : list Z; limit_start : Z; count : Z; has_extra_filter : bool }.

Module TopK.
Section Heap.
Context {T : Type} `{!Scalar T} (SortType : Z).
#[local] Abbreviation Entry := (DocIdEntry T).

Definition entry_lt (a b : Entry) : bool :=
  let tmp := sc_eq (Score a) (Score b) in
  let tmp1 := sc_lt (Score a) (Score b) in
  let tmp2 := sc_gt (Score a) (Score b) in
  if SortType =? SORT_FIELD_ASC then
    if tmp then match compare (DocId a) (DocId b) with Lt => true | _ => false end else tmp1
  else
    if tmp then match compare (DocId a) (DocId b) with Gt => true | _ => false end else tmp2.
Definition entry_eq (a b : Entry) : bool := sc_same (Score a) (Score b).

(** ** The heap: [CMaxHeap] *)

(** [(int)v.size()]. *)
Definition int_size (v : list Entry) : Z := s32 (Z.of_nat (length v)).
(** [2*index + 1] on [int]s: past the last [int] it has no meaning. *)
Definition left_child (index : nat) : outcome nat := if 2 ^ 31 <=? 2 * Z.of_nat index + 1 then Fault else Ok (2 * index + 1)%nat.
Definition at_ (v : list Entry) (i : nat) : outcome Entry := match v !! i with Some e => Ok e | None => Fault end.
Fixpoint down_loop (fuel : nat) (v : list Entry) (parent : Entry) (index : nat) : outcome (list Entry) :=
  match fuel with
  | O => Fault
  | S fuel =>
    let! child_index := left_child index in
    if Z.of_nat child_index <? int_size v then
      let! c := at_ v child_index in
      let! bigger := if Z.of_nat child_index + 1 <? int_size v then let! d := at_ v (child_index + 1) in Ok (entry_lt c d) else Ok false in
      let child_index := if (bigger : bool) then (child_index + 1)%nat else child_index in
      let! c := at_ v child_index in
      if entry_lt c parent || entry_eq c parent then Ok (<[index := parent]> v)
      else down_loop fuel (<[index := c]> v) parent child_index
    else Ok (<[index := parent]> v)
  end.
Definition downAdjust (v : list Entry) (index : nat) : outcome (list Entry) :=
  let! parent := at_ v index in down_loop (S (length v)) v parent index.
(** [for (i = n - 1; i >= 0; --i)]. *)
Fixpoint build_loop (n : nat) (v : list Entry) : outcome (list Entry) :=
  match n with
  | O => Ok v
  | S i => let! v := downAdjust v i in build_loop i v
  end.
(** [(v.size()-2) / 2] is computed on [size_t] and cut to [int]. *)
Definition buildMaxHeap (v : list Entry) : outcome (list Entry) :=
  build_loop (Z.to_nat (s32 (u64 (Z.of_nat (length v) - 2) / 2) + 1)) v.
Definition emplacePeek (v : list Entry) (val : Entry) : outcome (list Entry) := downAdjust (<[0%nat := val]> v) 0.

(** The first loop of [getNumbers]: the entries that [take] lets through, until there
    are [k]. *)
Fixpoint fill (passes : Entry -> bool) (arr : list Entry) (k : Z) (heap : list Entry) : list Entry :=
  match arr with
  | [] => heap
  | e :: arr =>
    let heap := if passes e then heap ++ [e] else heap in
    if k <=? Z.of_nat (length heap) then heap else fill passes arr k heap
  end.
(** The second loop, on the entries from index [k]. *)
Fixpoint replace (passes : Entry -> bool) (arr : list Entry) (heap : list Entry) : outcome (list Entry) :=
  match arr with
  | [] => Ok heap
  | e :: arr =>
    let! top := at_ heap 0 in
    let! heap := if entry_lt e top && passes e then emplacePeek heap e else Ok heap in
    replace passes arr heap
  end.
(** Both loops stop at [(int)arr.size()]. [arr[i]] for a negative [i] reads before the
    vector. *)
Definition getNumbers_by (passes : Entry -> bool) (arr : list Entry) (k : Z) : outcome (list Entry) :=
  if k =? 0 then Ok [] else
  let arr := take (Z.to_nat (int_size arr)) arr in
  let heap := fill passes arr k [] in
  match heap with
  | [] => Ok []
  | _ =>
    let! heap := buildMaxHeap heap in
    if k <? 0 then Fault else replace passes (drop (Z.to_nat k) arr) heap
  end.
Definition getNumbers (arr : list Entry) (k : Z) : outcome (list Entry) := getNumbers_by (fun _ => true) arr k.
Definition getNumbers_after (arr : list Entry) (last_value : Entry) (k : Z) : outcome (list Entry) :=
  getNumbers_by (fun e => entry_lt last_value e) arr k.

(** ** Pages: [COrderOp] *)

(** A result row: [doc_id] and [score]; the id goes through [c_str]. *)
Definition row (e : Entry) : list Z * T := (cstr (DocId e), Score e).
(** The loop over the sorted entries, with [sequence] and the test of the filter. *)
Fixpoint page_loop (check : list Z -> bool) (limit_start count sequence : Z) (l : list Entry) : list (list Z * T) :=
  match l with
  | [] => []
  | e :: l =>
    if negb (check (DocId e)) then page_loop check limit_start count sequence l else
    let sequence := sequence + 1 in
    if sequence <? s32 limit_start then page_loop check limit_start count sequence l
    else if s32 (u32 (limit_start + count - 1)) <? sequence then []
    else row e :: page_loop check limit_start count sequence l
  end.
(** [for (; it != end && c < count; it++)], where an entry the filter refuses does not
    count. *)
Fixpoint after_loop (check : list Z -> bool) (count c : Z) (l : list Entry) : list (list Z * T) :=
  match l with
  | [] => []
  | e :: l =>
    if c <? count then
      if check (DocId e) then row e :: after_loop check count (c + 1) l else after_loop check count c l
    else []
  end.

Section Op.
(** [_SearchAfter], and the filter of the documents
    ([DocManager::CheckDocByExtraFilterKey]), which asks the storage engine. *)
Context (SearchAfter : bool) (CheckDocByExtraFilterKey : list Z -> bool).

Definition entries (score_map : list (list Z * T)) : list Entry := (fun p => mkEntry p.1 p.2) <$> score_map.
Definition score_set (score_map : list (list Z * T)) : list Entry := fold_left (fun l e => set_insert entry_lt e l) (entries score_map) [].

(** [score_map] lists a [std::map] from ids to scores. *)
Definition Process (score_map : list (list Z * T)) (last_value : T) (cond : OrderOpCond) : outcome (list (list Z * T)) :=
  let last_entry := mkEntry cond.(last_id) last_value in
  if SearchAfter then
    let n := s32 cond.(count) in
    if cond.(has_extra_filter) then
      Ok (after_loop CheckDocByExtraFilterKey n 0 (upper_bound entry_lt last_entry (score_set score_map)))
    else
      let! res := getNumbers_after (entries score_map) last_entry n in
      Ok (after_loop (fun _ => true) n 0 (std_sort entry_lt res))
  else if cond.(has_extra_filter) then
    Ok (page_loop CheckDocByExtraFilterKey cond.(limit_start) cond.(count) (-1) (score_set score_map))
  else
    let! res := getNumbers (entries score_map) (s32 (u32 (cond.(limit_start) + cond.(count)))) in
    Ok (page_loop (fun _ => true) cond.(limit_start) cond.(count) (-1) (std_sort entry_lt res)).
End Op.
End Heap.
End TopK.
