(* ===== verification/TopKSpec.v ===== *)
(** The first entries by score, and the pages. *)
From Stdlib Require Import ZArith Lia.
From stdpp Require Import base list list_numbers numbers sorting.
From S2P Require Import Prelude Value Std Heap TopK.
Import TopK.
Local Open Scope Z_scope.

Module TopKSpec.

Section Heap.
Context {T : Type} `{!Scalar T} `{!ScalarLaws T} (st : Z).
#[local] Existing Instance sc_order.
#[local] Abbreviation Entry := (DocIdEntry T).

(** [a] comes before [b] by its score alone. *)
Definition before (a b : Entry) : bool := if st =? SORT_FIELD_ASC then sc_lt (Score a) (Score b) else sc_lt (Score b) (Score a).
#[local] Instance before_order : WeakOrder before.
Proof. unfold before. split; intros a b; [|intros c]; destruct (st =? SORT_FIELD_ASC); intros; [by apply wo_asym..|by eapply wo_neg_trans|by eapply wo_neg_trans]. Qed.
Definition tied (a b : Entry) : Prop := before a b = false /\ before b a = false.
Lemma eq_tied a b : sc_eq (Score a) (Score b) = true <-> tied a b.
Proof. rewrite sc_eq_lt. unfold tied, before. rewrite negb_true_iff, orb_false_iff. destruct (st =? SORT_FIELD_ASC); tauto. Qed.
Definition id_before (a b : Entry) : bool := if st =? SORT_FIELD_ASC then bool_decide (lex (DocId a) (DocId b) = Lt) else bool_decide (lex (DocId a) (DocId b) = Gt).
Lemma entry_lt_eq a b : entry_lt st a b = if sc_eq (Score a) (Score b) then id_before a b else before a b.
Proof.
  unfold entry_lt, id_before, before, compare. rewrite sc_gt_lt. destruct (st =? _), (sc_eq _ _), (lex (DocId a) (DocId b)); done.
Qed.
#[local] Instance id_before_order : WeakOrder id_before.
Proof.
  split.
  - intros a b. unfold id_before. rewrite (lex_antisym (DocId a) (DocId b)). destruct (st =? _), (lex (DocId a) (DocId b)); done.
  - intros a b c. unfold id_before. destruct (lex (DocId a) (DocId b)) eqn:E1, (lex (DocId b) (DocId c)) eqn:E2, (st =? _); try done; intros _ _.
    all: try (apply lex_eq in E1; rewrite E1, E2; done). all: try (apply lex_eq in E2; rewrite <-E2, E1; done).
    all: rewrite (lex_trans _ _ _ _ E1 E2); done.
Qed.
Lemma before_lt a b : before a b = true -> entry_lt st a b = true.
Proof.
  intros H. rewrite entry_lt_eq. destruct (sc_eq _ _) eqn:E; [|done]. apply eq_tied in E as [E _]. congruence.
Qed.
Lemma lt_not_before a b : entry_lt st a b = true -> before b a = false.
Proof.
  rewrite entry_lt_eq. destruct (sc_eq _ _) eqn:E; [|apply wo_asym]. by apply eq_tied in E as [_ E].
Qed.
Lemma not_lt_before a b : entry_lt st a b = false -> before a b = false.
Proof. destruct (before a b) eqn:E; [|done]. by rewrite (before_lt a b E). Qed.
#[local] Instance entry_order : WeakOrder (entry_lt st).
Proof.
  split.
  - intros a b. rewrite !entry_lt_eq, !sc_eq_lt, orb_comm. destruct (negb _); [apply id_before_order|apply wo_asym].
  - intros a b c H1 H2. pose proof (not_lt_before _ _ H1) as B1. pose proof (not_lt_before _ _ H2) as B2. rewrite entry_lt_eq in *.
    destruct (sc_eq (Score a) (Score c)) eqn:E3; [|by apply (wo_neg_trans a b c)]. apply eq_tied in E3 as [E3 E4].
    assert (E1 : sc_eq (Score a) (Score b) = true). { apply eq_tied. split; [done|]. by apply (wo_neg_trans b c a). }
    assert (E2 : sc_eq (Score b) (Score c) = true). { apply eq_tied. split; [done|]. by apply (wo_neg_trans c a b). }
    rewrite E1 in H1. rewrite E2 in H2. by apply (wo_neg_trans (WeakOrder := id_before_order) a b c).
Qed.

(** ** The heap *)

#[local] Abbreviation heap_from := (heap_from before).
#[local] Abbreviation heap_but := (heap_but before).
#[local] Abbreviation best := (best before).

(** A heap of at most 2^30 entries: the indices of its children are [int]s. *)
Definition small (v : list Entry) : Prop := Z.of_nat (length v) <= 2 ^ 30.
Lemma small_size v : small v -> int_size v = Z.of_nat (length v).
Proof. intros H. unfold small in H. unfold int_size, s32. apply swrap_small; unfold is_s; lia. Qed.
Lemma small_child v h : small v -> (h < length v)%nat -> left_child h = Ok (2 * h + 1)%nat.
Proof. unfold small, left_child. intros. by rewrite (proj2 (Z.leb_gt _ _)) by lia. Qed.
Lemma small_length v w : length v = length w -> small w -> small v.
Proof. unfold small. by intros ->. Qed.

(** The bigger child: none of the two comes after it by score. *)
Lemma bigger_child v h (x : Entry) : small v -> v !! (2 * h + 1)%nat = Some x -> exists bigger y,
  (if Z.of_nat (2 * h + 1) + 1 <? int_size v then let! d := at_ v (2 * h + 1 + 1) in Ok (entry_lt st x d) else Ok false) = Ok bigger /\
  v !! (if bigger : bool then 2 * h + 1 + 1 else 2 * h + 1)%nat = Some y /\ forall d z, child h d -> v !! d = Some z -> before y z = false.
Proof.
  intros Hs Hx. unfold child. rewrite (small_size _ Hs). destruct (Z.ltb_spec (Z.of_nat (2 * h + 1) + 1) (Z.of_nat (length v))).
  - destruct (lookup_lt_is_Some_2 v (2 * h + 1 + 1)) as [d Hd]; [lia|]. unfold at_. rewrite Hd. cbn [obind]. exists (entry_lt st x d).
    assert (Hd' : v !! (2 * h + 2)%nat = Some d) by (by replace (2 * h + 2)%nat with (2 * h + 1 + 1)%nat by lia).
    destruct (entry_lt st x d) eqn:E.
    + exists d. split_and!; [done..|]. intros e z [->| ->] Hz; simplify_eq; [by apply lt_not_before|apply (wo_irr before)].
    + exists x. split_and!; [done..|]. intros e z [->| ->] Hz; simplify_eq; [apply (wo_irr before)|by apply not_lt_before].
  - exists false, x. split_and!; [done..|]. intros e z [->| ->] Hz; [simplify_eq; apply (wo_irr before)|]. apply lookup_lt_Some in Hz. lia.
Qed.

Lemma down_loop_ok n fuel v parent h : small v -> (n <= h)%nat -> (h < length v)%nat -> (length v < fuel + h)%nat -> heap_but n h (<[h := parent]> v) ->
  exists r, down_loop st fuel v parent h = Ok r /\ r ≡ₚ <[h := parent]> v /\ heap_from n r.
Proof.
  revert v h. induction fuel as [|fuel IH]; intros v h Hs Hn Hh Hf [H1 H2]; [lia|]. cbn [down_loop]. rewrite (small_child v h) by done. cbn [obind]. rewrite (small_size _ Hs).
  assert (Hdone : (forall c y, child h c -> v !! c = Some y -> before parent y = false) -> heap_from n (<[h := parent]> v)).
  { intros Hd i c a b Hi Hc Ha Hb. destruct (decide (i = h)) as [->|]; [|by eapply H1]. rewrite list_lookup_insert_eq in Ha by done. simplify_eq.
    rewrite list_lookup_insert_ne in Hb by (unfold child in Hc; lia). by eapply Hd. }
  destruct (Z.ltb_spec (Z.of_nat (2 * h + 1)) (Z.of_nat (length v))) as [Hl|Hl].
  2:{ eexists. split; [done|]. split; [done|]. apply Hdone. intros c y Hc Hy. apply lookup_lt_Some in Hy. unfold child in Hc. lia. }
  destruct (lookup_lt_is_Some_2 v (2 * h + 1) ltac:(lia)) as [x Hx]. destruct (bigger_child v h x Hs Hx) as (bigger & y & EB & Hy & Hbig). rewrite (small_size _ Hs) in EB.
  unfold at_ at 1. rewrite Hx. cbn [obind]. rewrite EB. cbn [obind]. set (c := if bigger then _ else _) in *. unfold at_. rewrite Hy. cbn [obind].
  assert (Hc : child h c) by (unfold child, c; destruct bigger; lia).
  assert (Hne : h <> c) by (unfold child in Hc; lia).
  destruct (entry_lt st y parent || entry_eq y parent) eqn:E.
  - eexists. split; [done|]. split; [done|]. apply Hdone. intros d z Hd Hz. apply (wo_neg_trans parent y z); [|by eapply Hbig].
    apply orb_true_iff in E as [E|E]; [by apply lt_not_before|]. by apply sc_same_eq, eq_tied in E as [_ E].
  - apply orb_false_iff in E as [E _]. pose proof (not_lt_before _ _ E) as Eb.
    assert (Hp : <[c := parent]> (<[h := y]> v) ≡ₚ <[h := parent]> v).
    { rewrite <-(Permutation_insert_swap (<[h := parent]> v) h c parent y); [|by apply list_lookup_insert_eq|by rewrite list_lookup_insert_ne].
      by rewrite list_insert_insert_eq. }
    destruct (IH (<[h := y]> v) c) as (r & Er & Hr & Hh'); [by apply (small_length _ v); [rewrite length_insert|]|unfold child in Hc; lia|rewrite length_insert; by eapply lookup_lt_Some|rewrite length_insert; unfold child in Hc; lia| |].
    2:{ exists r. split; [done|]. split; [|done]. by rewrite Hr. }
    apply (sift_step before n v h c parent y); done.
Qed.

Lemma downAdjust_ok v n h : small v -> (n <= h)%nat -> (h < length v)%nat -> heap_but n h v -> exists r, downAdjust st v h = Ok r /\ r ≡ₚ v /\ heap_from n r.
Proof.
  intros Hs Hn Hh Hv. destruct (lookup_lt_is_Some_2 v h Hh) as [e He]. unfold downAdjust, at_. rewrite He. cbn [obind].
  pose proof (list_insert_id v h e He) as E. rewrite <-E in Hv. destruct (down_loop_ok n (S (length v)) v e h) as (r & -> & Hr & Hh'); [done|done|done|lia|done|]. exists r. by rewrite E in Hr.
Qed.
Lemma build_loop_ok n v : small v -> (n <= length v)%nat -> heap_from n v -> exists r, build_loop st n v = Ok r /\ r ≡ₚ v /\ heap_from 0 r.
Proof.
  revert v. induction n as [|n IH]; intros v Hs Hn Hv; [by exists v|]. cbn [build_loop].
  destruct (downAdjust_ok v n n) as (r & -> & Hr & Hh); [done|lia|lia| |].
  { split; [|unfold child; lia]. intros i c a b Hi Hne Hc. apply Hv; [lia|done]. }
  cbn [obind]. destruct (IH r) as (r' & -> & Hr' & Hh'); [apply (small_length _ v); [by rewrite Hr|done]|rewrite Hr; lia|done|]. exists r'. split; [done|]. split; [by rewrite Hr'|done].
Qed.
Lemma buildMaxHeap_ok v : v <> [] -> small v -> exists r, buildMaxHeap st v = Ok r /\ r ≡ₚ v /\ heap_from 0 r.
Proof.
  intros Hv Hs. pose proof Hs as Hl. unfold small in Hl. unfold buildMaxHeap. assert (0 < length v)%nat by (destruct v; [done|cbn; lia]).
  pose proof (Nat.div_mod_eq (length v) 2). pose proof (Nat.mod_upper_bound (length v) 2 ltac:(lia)).
  assert (E : Z.to_nat (s32 (u64 (Z.of_nat (length v) - 2) / 2) + 1) = (length v / 2)%nat).
  { destruct (decide (length v = 1%nat)) as [->|]; [done|]. unfold u64. rewrite wrap_small by (unfold is_u; lia).
    pose proof (Z.div_mod (Z.of_nat (length v) - 2) 2 ltac:(lia)). pose proof (Z.mod_pos_bound (Z.of_nat (length v) - 2) 2 ltac:(lia)).
    unfold s32. rewrite swrap_small by (unfold is_s; lia). lia. }
  rewrite E. apply build_loop_ok; [done|lia|]. intros i c a b Hi Hc Ha Hb. apply lookup_lt_Some in Hb. unfold child in Hc. lia.
Qed.

(** ** The first entries *)

Lemma replace_ok passes arr : forall heap seen, small heap -> heap <> [] -> heap_from 0 heap -> best heap seen ->
  exists r, replace st passes arr heap = Ok r /\ length r = length heap /\ best r (seen ++ filter (fun e => passes e = true) arr).
Proof.
  induction arr as [|e arr IH]; intros heap seen Hs Hne Hh Hb; [exists heap; by rewrite app_nil_r|]. cbn [replace].
  destruct heap as [|top heap]; [done|]. cbn [at_ lookup list_lookup obind].
  pose proof (heap_top before _ top Hh eq_refl) as Ht. apply Forall_cons in Ht as [_ Ht]. rewrite Forall_forall in Ht.
  destruct (passes e) eqn:Ep; [rewrite filter_cons_True by done|rewrite filter_cons_False by congruence; rewrite andb_false_r; by apply IH].
  rewrite andb_true_r, cons_middle, (assoc_L (++)). destruct (entry_lt st e top) eqn:E.
  - unfold emplacePeek. destruct (downAdjust_ok (e :: heap) 0 0) as (h & Eh & Hp & Hh').
    { done. } { lia. } { cbn. lia. }
    { split; [|unfold child; lia]. intros i c a b _ Hi Hc Ha Hb'. apply (Hh i c a b); [lia|done|by destruct i|]. destruct c; [unfold child in Hc; lia|done]. }
    cbn [insert list_insert]. rewrite Eh. cbn [obind]. destruct (IH h (seen ++ [e])) as (r & -> & Hl & Hr).
    { apply (small_length _ (e :: heap)); [by rewrite Hp|done]. } { intros ->. by apply Permutation_nil_l in Hp. } { done. } { apply (best_swap before heap seen e top); [done..|by apply lt_not_before|done]. }
    exists r. split; [done|]. split; [by rewrite Hl, Hp|done].
  - cbn [obind]. destruct (IH (top :: heap) (seen ++ [e])) as (r & -> & Hl & Hr); [done|done|done| |by exists r].
    apply (best_skip before _ _ _ top Hb); [|by apply not_lt_before]. intros x [->|Hx]%elem_of_cons; [apply (wo_irr before)|by apply Ht].
Qed.

(** Filling stops after [k] entries. *)
Lemma fill_all passes (arr : list Entry) k h : (Z.of_nat (length h) < k) -> Forall (fun e => passes e = true) (take (Z.to_nat k - length h) arr) ->
  fill passes arr k h = h ++ take (Z.to_nat k - length h) arr.
Proof.
  revert h. induction arr as [|e arr IH]; intros h Hk Ha; [by rewrite take_nil, app_nil_r|]. cbn [fill].
  replace (Z.to_nat k - length h)%nat with (S (Z.to_nat k - S (length h))) in * by lia. cbn in Ha |- *. apply Forall_cons in Ha as [-> Ha].
  rewrite length_app. cbn [length]. destruct (Z.leb_spec k (Z.of_nat (length h + 1))).
  - by replace (Z.to_nat k - S (length h))%nat with 0%nat by lia.
  - rewrite IH; rewrite length_app; cbn [length]; [|lia|by replace (Z.to_nat k - (length h + 1))%nat with (Z.to_nat k - S (length h))%nat by lia].
    replace (Z.to_nat k - (length h + 1))%nat with (Z.to_nat k - S (length h))%nat by lia. by rewrite <-(assoc_L (++)).
Qed.
(** When all of the first [k] entries pass, the heap holds the best of all that pass. *)
Lemma getNumbers_by_best passes arr k : 0 < k -> Z.of_nat (length arr) < 2 ^ 31 -> Z.min k (Z.of_nat (length arr)) <= 2 ^ 30 -> Forall (fun e => passes e = true) (take (Z.to_nat k) arr) ->
  exists r, getNumbers_by st passes arr k = Ok r /\ length r = (Z.to_nat k `min` length arr)%nat /\ best r (filter (fun e => passes e = true) arr).
Proof.
  intros Hk Hl Hm Ha. unfold getNumbers_by. replace (k =? 0) with false by lia. replace (k <? 0) with false by lia.
  assert (int_size arr = Z.of_nat (length arr)) as -> by (unfold int_size, s32; apply swrap_small; unfold is_s; lia). rewrite Nat2Z.id, firstn_all.
  rewrite fill_all by (cbn; rewrite ?Nat.sub_0_r; done || lia). cbn [length app]. rewrite Nat.sub_0_r.
  destruct (take (Z.to_nat k) arr) as [|x l] eqn:E.
  { assert (arr = []) as -> by (destruct (Z.to_nat k) eqn:Ek; [lia|]; by destruct arr). exists []. split; [done|]. cbn. split; [lia|]. exists []. split; [done|]. by intros ? ? ?%not_elem_of_nil. }
  assert (Hlen : length (x :: l) = (Z.to_nat k `min` length arr)%nat) by (by rewrite <-E, length_take).
  assert (Hs : small (x :: l)) by (unfold small; rewrite Hlen; lia).
  destruct (buildMaxHeap_ok (x :: l)) as (h & -> & Hp & Hh); [done..|]. cbn [obind].
  destruct (replace_ok passes (drop (Z.to_nat k) arr) h (x :: l)) as (r & -> & Hr & Hb); [apply (small_length _ (x :: l)); [by rewrite Hp|done]|by intros ->; apply Permutation_nil_cons in Hp|done| |].
  { exists []. rewrite app_nil_r. split; [done|]. by intros ? ? _ ?%not_elem_of_nil. }
  exists r. split; [done|]. split; [by rewrite Hr, Hp|]. rewrite <-(filter_whole _ _ Ha), <-E, <-filter_app, take_drop in Hb. done.
Qed.

(** ** Pages *)

Lemma best_pages r l : best r l -> Forall2 tied (std_sort (entry_lt st) r) (take (length r) (std_sort (entry_lt st) l)).
Proof.
  intros (rest & Hp & Hb). assert (Hs : forall k, StronglySorted (not_after (entry_lt st)) k -> StronglySorted (not_after before) k).
  { induction 1 as [|x k _ IH Hx]; constructor; [done|]. eapply Forall_impl; [exact Hx|]. intros y. apply not_lt_before. }
  assert (H : Forall2 tied (std_sort (entry_lt st) r ++ std_sort (entry_lt st) rest) (std_sort (entry_lt st) l)).
  { apply sorted_pointwise; [apply _| |apply Hs, std_sort_sorted, _|by rewrite !std_sort_perm].
    apply StronglySorted_app_2; [|apply Hs, std_sort_sorted, _..]. intros x y Hx Hy. rewrite std_sort_perm in Hx, Hy. by apply Hb. }
  apply (Forall2_take _ _ _ (length r)) in H. rewrite take_app_length' in H; [exact H|]. by rewrite (std_sort_perm (entry_lt st) r).
Qed.

Lemma page_loop_spec check start count seq (l : list Entry) : 0 <= start -> 0 <= count -> start + count < 2 ^ 31 -> -1 <= seq ->
  page_loop check start count seq l = row <$> drop (Z.to_nat (start - (seq + 1))) (take (Z.to_nat (start + count - (seq + 1))) (filter (fun e => check (DocId e) = true) l)).
Proof.
  intros Hs Hc Hsc. revert seq. assert (E1 : s32 start = start) by (apply swrap_small; unfold is_s; lia).
  assert (E2 : s32 (u32 (start + count - 1)) = start + count - 1) by (unfold s32, u32; rewrite swrap_wrap; apply swrap_small; unfold is_s; lia).
  induction l as [|e l IH]; intros seq Hseq; [by rewrite filter_nil, take_nil, drop_nil|]. cbn [page_loop]. rewrite E1, E2.
  destruct (check (DocId e)) eqn:Ec; cbn [negb]; [rewrite filter_cons_True by done|rewrite filter_cons_False by congruence; by apply IH].
  destruct (Z.ltb_spec (seq + 1) start).
  - rewrite IH by lia. replace (Z.to_nat (start - (seq + 1))) with (S (Z.to_nat (start - (seq + 1 + 1)))) by lia.
    by replace (Z.to_nat (start + count - (seq + 1))) with (S (Z.to_nat (start + count - (seq + 1 + 1)))) by lia.
  - replace (Z.to_nat (start - (seq + 1))) with 0%nat by lia. destruct (Z.ltb_spec (start + count - 1) (seq + 1)).
    + by replace (Z.to_nat (start + count - (seq + 1))) with 0%nat by lia.
    + rewrite IH by lia. replace (Z.to_nat (start - (seq + 1 + 1))) with 0%nat by lia.
      by replace (Z.to_nat (start + count - (seq + 1))) with (S (Z.to_nat (start + count - (seq + 1 + 1)))) by lia.
Qed.
Lemma after_loop_spec check count c (l : list Entry) : after_loop check count c l = row <$> take (Z.to_nat (count - c)) (filter (fun e => check (DocId e) = true) l).
Proof.
  revert c. induction l as [|e l IH]; intros c; [by rewrite filter_nil, take_nil|]. cbn [after_loop]. destruct (Z.ltb_spec c count); [|by replace (Z.to_nat (count - c)) with 0%nat by lia].
  destruct (check (DocId e)) eqn:Ec; [rewrite filter_cons_True by done|rewrite filter_cons_False by congruence; by apply IH].
  rewrite IH. by replace (Z.to_nat (count - c)) with (S (Z.to_nat (count - (c + 1)))) by lia.
Qed.

(** The set of the entries is the sorted sequence of them. *)
Lemma id_before_total a b : id_before a b = false -> id_before b a = false -> DocId a = DocId b.
Proof.
  unfold id_before. rewrite (lex_antisym (DocId a) (DocId b)). destruct (lex (DocId a) (DocId b)) eqn:E; [by apply lex_eq in E|destruct (st =? _); done..].
Qed.
Lemma lt_total a b : entry_lt st a b = false -> entry_lt st b a = false -> DocId a = DocId b.
Proof.
  rewrite !entry_lt_eq. destruct (sc_eq (Score a) (Score b)) eqn:E.
  - apply eq_tied in E as E'. assert (sc_eq (Score b) (Score a) = true) as -> by (apply eq_tied; destruct E'; by split). apply id_before_total.
  - intros H1. destruct (sc_eq (Score b) (Score a)) eqn:E'; [apply eq_tied in E' as [E1 E2]|]; [|intros H2]; exfalso; revert E; apply not_false_iff_true, eq_tied; by split.
Qed.
Lemma fold_insert l s : strictly (entry_lt st) s -> NoDup (DocId <$> s ++ l) ->
  strictly (entry_lt st) (fold_left (fun s e => set_insert (entry_lt st) e s) l s) /\ fold_left (fun s e => set_insert (entry_lt st) e s) l s ≡ₚ s ++ l.
Proof.
  revert s. induction l as [|e l IH]; intros s Hs Hn; [by rewrite app_nil_r|]. cbn [fold_left].
  assert (Hp : set_insert (entry_lt st) e s ≡ₚ e :: s).
  { apply set_insert_perm. apply list.Forall_forall. intros x Hx. destruct (entry_lt st e x) eqn:E1; [by left|]. right. destruct (entry_lt st x e) eqn:E2; [done|].
    pose proof (lt_total _ _ E1 E2) as E. rewrite fmap_app in Hn. apply NoDup_app in Hn as (_ & Hn & _). exfalso. apply (Hn (DocId x)); [by apply list_elem_of_fmap_2|]. rewrite <-E. left. }
  destruct (IH (set_insert (entry_lt st) e s)) as [H1 H2]; [by apply (set_insert_strictly (entry_lt st))| |].
  - rewrite Hp. cbn. rewrite <-fmap_cons. by rewrite Permutation_middle.
  - split; [done|]. rewrite H2, Hp. cbn. apply Permutation_middle.
Qed.
Lemma entries_distinct m x y : NoDup m.*1 -> x ∈ entries m -> y ∈ entries m -> entry_lt st x y = false -> entry_lt st y x = false -> x = y.
Proof.
  intros Hn Hx Hy Hxy Hyx. assert (Hn' : NoDup (DocId <$> entries m)) by (unfold entries; by rewrite <-list_fmap_compose).
  pose proof (lt_total _ _ Hxy Hyx) as E. apply list_elem_of_lookup in Hx as [i Hi], Hy as [j Hj].
  assert (i = j) as ->; [|congruence]. apply (NoDup_lookup _ _ _ (DocId x) Hn'); rewrite list_lookup_fmap; [by rewrite Hi|by rewrite Hj, E].
Qed.
Lemma score_set_sorted m : NoDup m.*1 -> score_set st m = std_sort (entry_lt st) (entries m).
Proof.
  intros Hn. assert (Hn' : NoDup (DocId <$> entries m)) by (unfold entries; by rewrite <-list_fmap_compose).
  destruct (fold_insert (entries m) []) as [H1 H2]; [constructor|done|]. apply (std_sort_unique (entry_lt st)); [|by apply (strictly_sorted (entry_lt st))|done].
  intros x y. by apply entries_distinct.
Qed.

(** ** What a query is answered with *)

(** The entries of a page of the sorted results. *)
Definition page (cond : OrderOpCond) (l : list Entry) : list Entry :=
  drop (Z.to_nat cond.(limit_start)) (take (Z.to_nat (cond.(limit_start) + cond.(count))) l).
Definition cond_ok (cond : OrderOpCond) : Prop := 0 <= cond.(limit_start) /\ 0 <= cond.(count) /\ cond.(limit_start) + cond.(count) < 2 ^ 31.

Lemma small_s32 n : 0 <= n < 2 ^ 31 -> s32 n = n.
Proof. intros. apply swrap_small; unfold is_s; lia. Qed.
Lemma small_s32_u32 n : 0 <= n < 2 ^ 31 -> s32 (u32 n) = n.
Proof. intros. unfold s32, u32. rewrite swrap_wrap. by apply small_s32. Qed.
Lemma getNumbers_page cond m : cond_ok cond -> Z.of_nat (length m) < 2 ^ 31 -> Z.min (limit_start cond + count cond) (Z.of_nat (length m)) <= 2 ^ 30 ->
  exists r, getNumbers st (entries m) (limit_start cond + count cond) = Ok r /\ (forall x, x ∈ r -> x ∈ entries m) /\ Forall2 tied (page cond (std_sort (entry_lt st) r)) (page cond (std_sort (entry_lt st) (entries m))).
Proof.
  intros (H1 & H2 & H3) Hm Hk. unfold getNumbers. destruct (decide (limit_start cond + count cond = 0)) as [E|E].
  { exists []. unfold getNumbers_by, page. rewrite E. split; [done|]. split; [by intros ? ?%not_elem_of_nil|]. rewrite !take_0, !drop_nil. constructor. }
  assert (Hm' : length (entries m) = length m) by (unfold entries; by rewrite length_fmap).
  destruct (getNumbers_by_best (fun _ => true) (entries m) (limit_start cond + count cond)) as (r & -> & Hl & Hb); [lia|by rewrite Hm'..|by apply list.Forall_forall|].
  exists r. split; [done|]. rewrite (filter_whole _ (entries m)) in Hb by (by apply list.Forall_forall).
  split; [destruct Hb as (rest & Hp & _); intros x Hx; rewrite <-Hp; apply elem_of_app; by left|].
  apply best_pages in Hb. apply (Forall2_take _ _ _ (Z.to_nat (limit_start cond + count cond))) in Hb. apply Forall2_drop. rewrite take_take, Hl in Hb.
  set (k := Z.to_nat _) in *. destruct (decide (k <= length (entries m))%nat).
  - by replace (k `min` (k `min` length (entries m)))%nat with k in Hb by lia.
  - assert (H : forall n, (length (entries m) <= n)%nat -> take n (std_sort (entry_lt st) (entries m)) = std_sort (entry_lt st) (entries m)).
    { intros j Hj. apply take_ge. by rewrite (std_sort_perm (entry_lt st)). }
    rewrite H in Hb by lia. by rewrite H by lia.
Qed.

Lemma in_page cond l i x : page cond (std_sort (entry_lt st) l) !! i = Some x -> x ∈ l.
Proof.
  intros H%list_elem_of_lookup_2. rewrite <-(std_sort_perm (entry_lt st) l). eapply elem_of_submseteq; [exact H|]. apply sublist_submseteq. etrans; [apply sublist_drop|apply sublist_take].
Qed.
(** C23: Without a filter, and for scores that are [int]s or strings, a page has the scores
    of that page of all results in order, ties included; and when no two scores are the
    same it has its documents. There are fewer than 2^31 results, of which at most 2^30
    are kept in the heap, so that the indices of children are [int]s: the heap keeps the
    best entries, and never reads outside the vector. *)
Theorem pages_by_score chk m last_value cond : cond_ok cond -> has_extra_filter cond = false ->
  Z.of_nat (length m) < 2 ^ 31 -> Z.min (limit_start cond + count cond) (Z.of_nat (length m)) <= 2 ^ 30 ->
  exists rows, Process st false chk m last_value cond = Ok rows /\
    Forall2 (fun r e => sc_eq r.2 (Score e) = true) rows (page cond (std_sort (entry_lt st) (entries m))) /\
    ((forall x y, x ∈ entries m -> y ∈ entries m -> sc_eq (Score x) (Score y) = true -> x = y) -> rows = row <$> page cond (std_sort (entry_lt st) (entries m))).
Proof.
  intros Hc Hf Hm Hk. destruct (getNumbers_page cond m Hc Hm Hk) as (r & E & Hin & HF). unfold Process. rewrite Hf, (small_s32_u32 (_ + _)) by (destruct Hc as (? & ? & ?); lia). rewrite E. cbn [obind].
  eexists. split; [done|]. destruct Hc as (H1 & H2 & H3). rewrite page_loop_spec by (done || lia). rewrite filter_whole by (by apply Forall_true).
  replace (-1 + 1) with 0 by lia. rewrite !Z.sub_0_r. fold (page cond (std_sort (entry_lt st) r)). split.
  - rewrite Forall2_fmap_l. eapply Forall2_impl; [exact HF|]. intros x y Hxy. by apply eq_tied.
  - intros Hd. f_equal. apply Forall2_same_length_lookup in HF as [Hl Hxy]. apply list_eq_same_length with (length (page cond (std_sort (entry_lt st) r))); [done..|].
    intros i x y _ Hx Hy. apply Hd; [by eapply Hin, in_page|by eapply in_page|by eapply eq_tied, Hxy].
Qed.

(** C32: With a filter, and for scores that are [int]s or strings, the answer is exact: a page is that page of the documents the filter
    lets through, in order, and the page after an entry has the first of those that come
    after it. *)
Theorem filtered_pages after chk m last_value cond : cond_ok cond -> has_extra_filter cond = true -> NoDup m.*1 ->
  let sorted := filter (fun e => chk (DocId e) = true) (std_sort (entry_lt st) (entries m)) in
  let last := mkEntry (last_id cond) last_value in
  Process st after chk m last_value cond =
    Ok (row <$> if after then take (Z.to_nat (count cond)) (filter (fun e => entry_lt st last e = true) sorted) else page cond sorted).
Proof.
  intros (H1 & H2 & H3) Hf Hn. unfold Process. rewrite Hf, score_set_sorted by done. destruct after.
  - rewrite after_loop_spec, small_s32, Z.sub_0_r, upper_bound_filter by (lia || apply std_sort_sorted, _ || apply _). rewrite !list_filter_filter. do 3 f_equal. apply list_filter_iff. tauto.
  - by rewrite page_loop_spec, !Z.sub_0_r by done.
Qed.

(** Without a filter, the page after an entry has the right scores when the first
    [count] documents of the map, which are in the order of their ids, come after it. *)
Theorem search_after_first chk m last_value cond : cond_ok cond -> has_extra_filter cond = false -> 0 < count cond -> NoDup m.*1 ->
  Z.of_nat (length m) < 2 ^ 31 -> Z.min (count cond) (Z.of_nat (length m)) <= 2 ^ 30 ->
  let last := mkEntry (last_id cond) last_value in
  Forall (fun e => entry_lt st last e = true) (take (Z.to_nat (count cond)) (entries m)) ->
  exists rows, Process st true chk m last_value cond = Ok rows /\
    Forall2 (fun r e => sc_eq r.2 (Score e) = true) rows (take (Z.to_nat (count cond)) (filter (fun e => entry_lt st last e = true) (std_sort (entry_lt st) (entries m)))).
Proof.
  intros (H1 & H2 & H3) Hf Hc Hn Hm Hk last Ha. unfold Process. fold last. rewrite Hf, small_s32 by lia.
  destruct (getNumbers_by_best (fun e => entry_lt st last e) (entries m) (count cond)) as (r & E & Hl & Hb); [done|unfold entries; by rewrite length_fmap..|done|].
  unfold getNumbers_after. rewrite E. cbn [obind]. eexists. split; [done|]. rewrite after_loop_spec, filter_whole, Z.sub_0_r by (by apply Forall_true).
  apply best_pages in Hb. set (l := filter _ (std_sort _ _)). assert (El : l = std_sort (entry_lt st) (filter (fun e => entry_lt st last e = true) (entries m))).
  { apply (std_sort_unique (entry_lt st)); [|apply sorted_filter, std_sort_sorted, _|unfold l; by rewrite (std_sort_perm (entry_lt st))].
    intros x y [_ Hx]%list_elem_of_filter [_ Hy]%list_elem_of_filter. by apply (entries_distinct m). }
  rewrite <-El in Hb. rewrite (take_ge (std_sort _ r)) by (rewrite (std_sort_perm (entry_lt st)); lia).
  assert (Et : take (length r) l = take (Z.to_nat (count cond)) l).
  { rewrite Hl. destruct (decide (Z.to_nat (count cond) <= length (entries m))%nat); [f_equal; lia|]. rewrite (take_ge (entries m)) in Ha by lia.
    rewrite !take_ge; [done|..]; rewrite El, (std_sort_perm (entry_lt st)), filter_whole by done; lia. }
  rewrite <-Et, Forall2_fmap_l. eapply Forall2_impl; [exact Hb|]. intros x y Hxy. by apply eq_tied.
Qed.
End Heap.

(** ** The scores of the templates *)

#[export] Instance int_laws : ScalarLaws score_int.
Proof.
  split; cbn.
  - split; intros *; rewrite ?Z.ltb_lt, ?Z.ltb_ge; lia.
  - intros a b. destruct (Z.eqb_spec (s32 a) (s32 b)), (Z.ltb_spec (s32 a) (s32 b)), (Z.ltb_spec (s32 b) (s32 a)); done || lia.
  - done.
  - intros a b H%Z.eqb_eq. apply Z.eqb_eq. pose proof (swrap_range 32 a ltac:(lia)) as [? ?]. pose proof (swrap_range 32 b ltac:(lia)) as [? ?]. fold (s32 a) (s32 b) in *.
    assert (E : forall v, - 2 ^ 31 <= v < 2 ^ 31 -> v = s64 (u64 v)) by (intros v Hv; unfold s64, u64; rewrite swrap_wrap, swrap_small; unfold is_s; lia).
    rewrite (E (s32 a)), (E (s32 b)), H by (cbn in *; lia). done.
Qed.
#[export] Instance string_laws : ScalarLaws score_string.
Proof.
  unfold score_string. split; cbn; unfold compare.
  - split.
    + intros a b. rewrite (lex_antisym (lexical_cast a) (lexical_cast b)). by destruct (lex _ _).
    + intros a b c. rewrite (lex_antisym (lexical_cast c) (lexical_cast a)). destruct (lex (lexical_cast a) (lexical_cast b)) eqn:E1; [apply lex_eq in E1 as ->; rewrite (lex_antisym (lexical_cast b) (lexical_cast c)); by destruct (lex _ _)|done|].
      destruct (lex (lexical_cast b) (lexical_cast c)) eqn:E2; [apply lex_eq in E2 as <-|done|].
      * rewrite (lex_antisym (lexical_cast a)), E1. done.
      * rewrite (lex_antisym (lexical_cast a) (lexical_cast c)), (lex_trans _ _ _ _ E1 E2). done.
  - intros a b. rewrite (lex_antisym (lexical_cast a) (lexical_cast b)). by destruct (lex _ _).
  - intros a b. rewrite (lex_antisym (lexical_cast a) (lexical_cast b)). by destruct (lex _ _).
  - done.
Qed.

(** ** Examples and witnesses *)

Definition docs (scores : list Z) : list (list Z * score_int) := imap (fun i s => ([49 + Z.of_nat i], s)) scores.
Definition first_page : OrderOpCond := mkCond [] 0 2 false.
Definition second_page : OrderOpCond := mkCond [] 2 2 false.

(** Four documents with one score, in descending order: document 2 is on both pages and
    document 3 on none, since the heap stops at children with the same score. *)
Lemma tied_pages_overlap : Process SORT_FIELD_DESC false (fun _ => true) (docs [7; 7; 7; 7]) 0 first_page = Ok [([52], 7); ([50], 7)] /\
  Process SORT_FIELD_DESC false (fun _ => true) (docs [7; 7; 7; 7]) 0 second_page = Ok [([50], 7); ([49], 7)].
Proof. split; reflexivity. Qed.

(** Without a filter the page after an entry may repeat documents and leave others
    out. The second loop of [getNumbers] starts at index [k] and not after the entries the
    first loop has seen: of five documents with the scores 1 to 5, the two after score 2
    are answered as 3 and 3, where the filtered search answers 3 and 4. *)
Theorem search_after_repeats :
  Process SORT_FIELD_ASC true (fun _ => true) (docs [1; 2; 3; 4; 5]) 2 (mkCond [50] 0 2 false) = Ok [([51], 3); ([51], 3)] /\
  Process SORT_FIELD_ASC true (fun _ => true) (docs [1; 2; 3; 4; 5]) 2 (mkCond [50] 0 2 true) = Ok [([51], 3); ([52], 4)].
Proof. split; reflexivity. Qed.

Lemma pages_by_score_witness : cond_ok second_page /\ exists rows, Process SORT_FIELD_ASC false (fun _ => true) (docs [4; 2; 9; 1; 3]) 0 second_page = Ok rows /\ rows = [([53], 3); ([49], 4)].
Proof.
  assert (Hc : cond_ok second_page) by (repeat split; cbn; lia). split; [exact Hc|].
  destruct (pages_by_score SORT_FIELD_ASC (fun _ => true) (docs [4; 2; 9; 1; 3]) 0 second_page Hc eq_refl ltac:(cbn; lia) ltac:(cbn; lia)) as (rows & E & _ & _).
  exists rows. split; [exact E|]. assert (C : Process SORT_FIELD_ASC false (fun _ => true) (docs [4; 2; 9; 1; 3]) 0 second_page = Ok [([53], 3); ([49], 4)]) by (vm_compute; reflexivity).
  rewrite C in E. injection E as <-. reflexivity.
Defined.
Lemma filtered_pages_witness : exists rows, Process SORT_FIELD_ASC true (fun id => negb (bool_decide (id = [51]))) (docs [1; 2; 3; 4; 5]) 2 (mkCond [50] 0 2 true) = Ok rows /\ rows = [([52], 4); ([53], 5)].
Proof.
  eexists. split; [apply (filtered_pages SORT_FIELD_ASC true); [repeat split; cbn; lia|reflexivity|apply (bool_decide_unpack _); vm_compute; exact I]|]. vm_compute. reflexivity.
Defined.
Lemma search_after_first_witness : exists rows, Process SORT_FIELD_ASC true (fun _ => true) (docs [9; 3; 4; 5]) 2 (mkCond [50] 0 2 false) = Ok rows.
Proof.
  destruct (search_after_first SORT_FIELD_ASC (fun _ => true) (docs [9; 3; 4; 5]) 2 (mkCond [50] 0 2 false)) as (rows & E & _).
  - repeat split; cbn; lia.
  - reflexivity.
  - cbn; lia.
  - apply (bool_decide_unpack _). vm_compute. exact I.
  - cbn; lia.
  - cbn; lia.
  - repeat constructor.
  - exists rows. exact E.
Defined.
End TopKSpec.
