(* ===== verification/QuerySet.v ===== *)
(** The documents a query has found so far ([index_read/result_context.cc]), the
    searches for one list of words ([index_read/valid_doc_filter.cc]), the query
    processes that ask for them and the boolean query that combines them
    ([index_read/process/]). What the index, the geographic filter and the range index
    answer is an argument, over a state [W] of their own. *)
From Stdlib Require Import ZArith Lia.
From stdpp Require Import gmultiset base list numbers sorting gmap sets.
From S2P Require Import Prelude Std.
Local Open Scope Z_scope.

(** ** Index entries *)

(** [struct IndexInfo] without [distance], which this code does not read. *)
Record IndexInfo := mkInfo { appid : Z; doc_id : list Z; doc_version : Z; field : Z; word_freq : Z; created_time : Z; pos : list Z; extend : list Z }.
#[export] Instance IndexInfo_eq_dec : EqDecision IndexInfo.
Proof. solve_decision. Defined.
Definition info_lt (a b : IndexInfo) : bool :=
  if decide (doc_id a = doc_id b) then doc_version a <? doc_version b else string_lt (doc_id a) (doc_id b).
Record KeyInfo := mkKeyInfo { doc_count : Z; key_word_freq : Z }.

Inductive KeyType := ORKEY | ANDKEY | INVERTKEY.
Definition RT_DTC_ERR := 10011.
Definition RT_GET_DOC_ERR := 10016.
Definition RT_GET_FIELD_ERROR := 10018.

(** A key to search for; [start] and [end] are the bits of doubles. *)
Record FieldInfo := mkField { word : list Z; key_field : Z; field_type : Z; segment_tag : Z; start : Z; end_ : Z; index_tag : Z; range_type : Z; query_type : Z }.
Definition FIELD_INDEX := 11.
Definition SEGMENT_CHINESE := 3.
Definition SEGMENT_ENGLISH := 4.

(** [E_INDEX_READ_QUERY_PROCESS] *)
Definition E_INDEX_READ_PRE_TERM := 0.
Definition E_INDEX_READ_RANGE := 1.
Definition E_INDEX_READ_GEO_DISTANCE := 2.
Definition E_INDEX_READ_GEO_SHAPE := 3.
Definition E_INDEX_READ_MATCH := 4.
Definition E_INDEX_READ_TERM := 5.
Definition E_INDEX_READ_TOTAL_NUM := 6.

(** ** [ResultContext] *)

Record ResultContext := mkContext {
  index_info_vet : list IndexInfo;
  valid_docs_set : gset (list Z);
  highlight_word_set : gset (list Z);
  docid_keyinfovet_map : gmap (list Z) (list KeyInfo);
  key_doccount_map : gmap (list Z) Z
}.
Definition with_infos (v : list IndexInfo) (c : ResultContext) : ResultContext :=
  mkContext v c.(valid_docs_set) c.(highlight_word_set) c.(docid_keyinfovet_map) c.(key_doccount_map).
Definition Clear : ResultContext := mkContext [] ∅ ∅ ∅ ∅.
Definition SetHighLightWordSet (word : list Z) (c : ResultContext) : ResultContext :=
  mkContext c.(index_info_vet) c.(valid_docs_set) ({[word]} ∪ c.(highlight_word_set)) c.(docid_keyinfovet_map) c.(key_doccount_map).
Definition SetDocKeyinfoMap (id : list Z) (i : KeyInfo) (c : ResultContext) : ResultContext :=
  mkContext c.(index_info_vet) c.(valid_docs_set) c.(highlight_word_set) (<[id := default [] (c.(docid_keyinfovet_map) !! id) ++ [i]]> c.(docid_keyinfovet_map)) c.(key_doccount_map).
(** [insert] keeps what is there. *)
Definition SetWordDoccountMap (word : list Z) (n : Z) (c : ResultContext) : ResultContext :=
  mkContext c.(index_info_vet) c.(valid_docs_set) c.(highlight_word_set) c.(docid_keyinfovet_map)
    (match c.(key_doccount_map) !! word with Some _ => c.(key_doccount_map) | None => <[word := n]> c.(key_doccount_map) end).
Definition SetValidDocs (id : list Z) (c : ResultContext) : ResultContext :=
  mkContext c.(index_info_vet) ({[id]} ∪ c.(valid_docs_set)) c.(highlight_word_set) c.(docid_keyinfovet_map) c.(key_doccount_map).

(** The vectors are sorted where they are; what is left of the argument is not used. *)
Definition combine (op : list IndexInfo -> list IndexInfo -> list IndexInfo) (v : list IndexInfo) (c : ResultContext) : ResultContext :=
  match c.(index_info_vet) with
  | [] => with_infos v c
  | l => with_infos (op (std_sort info_lt l) (std_sort info_lt v)) c
  end.
Definition SetOrIndexInfos (v : list IndexInfo) (c : ResultContext) : ResultContext := combine (set_union info_lt) v c.
Definition SetAndIndexInfos (v : list IndexInfo) (c : ResultContext) : ResultContext := combine (set_intersection info_lt) v c.
Definition SetInvertIndexInfos (v : list IndexInfo) (c : ResultContext) : ResultContext := combine (set_difference info_lt) v c.
Definition SetIndexInfos (t : KeyType) (v : list IndexInfo) (c : ResultContext) : ResultContext :=
  match t with ORKEY => SetOrIndexInfos v c | ANDKEY => SetAndIndexInfos v c | INVERTKEY => SetInvertIndexInfos v c end.

(** ** [ValidDocFilter] *)

Definition isAllNumber (str : list Z) : bool := forallb (fun b => (48 <=? b) && (b <=? 57)) str.
Definition Union (first second : list IndexInfo) : list IndexInfo := set_union info_lt (std_sort info_lt first) (std_sort info_lt second).
Definition CalculateByWord (doc_info : list IndexInfo) (c : ResultContext) : ResultContext :=
  fold_left (fun c i => SetDocKeyinfoMap (doc_id i) (mkKeyInfo (u32 (Z.of_nat (length doc_info))) (word_freq i)) c) doc_info c.

Section Search.
(** [GetDocIdSetByWord], [GetDocByShiftWord] and [GetDocByShiftEnWord] search the index,
    [GetRangeIndex] the index of ranges in memory; [GetDocContent] of [DocManager] leaves
    the documents near the place a geographic query of a kind is about. *)
Context {W : Type} (GetDocIdSetByWord GetDocByShiftWord GetDocByShiftEnWord : FieldInfo -> W -> option (list IndexInfo) * W).
Context (GetRangeIndex : FieldInfo -> W -> list IndexInfo * W) (GetDocContent : KeyType -> list IndexInfo -> W -> option (list IndexInfo) * W).
(** [HasGisFlag] and [SortType() == SORT_RELEVANCE] of the request. *)
Context (gis relevance : bool).

Fixpoint text_loop (keys : list FieldInfo) (vet : list IndexInfo) (c : ResultContext) (w : W) : outcome (list IndexInfo) * (ResultContext * W) :=
  match keys with
  | [] => (Ok vet, (c, w))
  | k :: keys =>
    match GetDocIdSetByWord k w with
    | (None, w) => (Err (- RT_GET_DOC_ERR), (c, w))
    | (Some [], w) => text_loop keys vet c w
    | (Some doc_info, w) =>
      let c := if negb gis || negb (isAllNumber (word k)) then if negb (field_type k =? FIELD_INDEX) then SetHighLightWordSet (word k) c else c else c in
      let c := if negb gis && relevance then CalculateByWord doc_info c else c in
      text_loop keys (Union vet doc_info) c w
    end
  end.
Definition TextInvertIndexSearch (keys : list FieldInfo) (c : ResultContext) (w : W) : outcome (list IndexInfo) * (ResultContext * W) :=
  match keys with [] => (Err (- RT_GET_FIELD_ERROR), (c, w)) | _ => text_loop keys [] c w end.

(** [HanPinTextInvertIndexSearch]: words that sound alike; every one counts once. *)
Definition sound_docs (doc_info : list IndexInfo) (c : ResultContext) : ResultContext :=
  fold_left (fun c i => SetDocKeyinfoMap (doc_id i) (mkKeyInfo 0 1) c) (std_sort info_lt doc_info) c.
Definition sound_search (k : FieldInfo) (w : W) : option (list IndexInfo) * W :=
  if segment_tag k =? SEGMENT_CHINESE then GetDocByShiftWord k w
  else if segment_tag k =? SEGMENT_ENGLISH then GetDocByShiftEnWord k w else (Some [], w).
Fixpoint sound_loop (keys : list FieldInfo) (vet : list IndexInfo) (c : ResultContext) (w : W) : outcome (list IndexInfo) * (ResultContext * W) :=
  match keys with
  | [] => (Ok vet, (c, w))
  | k :: keys =>
    match sound_search k w with
    | (None, w) => (Err (- RT_GET_DOC_ERR), (c, w))
    | (Some doc_info, w) => sound_loop keys (Union vet (std_sort info_lt doc_info)) (sound_docs doc_info c) w
    end
  end.
Definition HanPinTextInvertIndexSearch (keys : list FieldInfo) (c : ResultContext) (w : W) : outcome (list IndexInfo) * (ResultContext * W) :=
  match keys with [] => (Err (- RT_GET_FIELD_ERROR), (c, w)) | _ => sound_loop keys [] c w end.

Definition range_search (k : FieldInfo) (w : W) : list IndexInfo * W := match word k with [] => GetRangeIndex k w | _ => ([], w) end.
Fixpoint range_loop (keys : list FieldInfo) (vet : list IndexInfo) (w : W) : list IndexInfo * W :=
  match keys with
  | [] => (vet, w)
  | k :: keys => let '(doc_info, w) := range_search k w in range_loop keys (Union vet doc_info) w
  end.
Definition RangeQueryInvertIndexSearch (keys : list FieldInfo) (w : W) : outcome (list IndexInfo) * W :=
  match keys with [] => (Err (- RT_GET_DOC_ERR), w) | _ => let '(v, w) := range_loop keys [] w in (Ok v, w) end.

(** ** Query processes

    [GetValidDoc(logic_type, keys)] of each: what it returns, and what it leaves. *)
Definition process : Type := KeyType -> list FieldInfo -> ResultContext * W -> Z * (ResultContext * W).

(** [int iret = ...; if (iret != 0) return iret; SetIndexInfos(...); return 0;] *)
Definition set_found (t : KeyType) (r : outcome (list IndexInfo) * (ResultContext * W)) : Z * (ResultContext * W) :=
  match r with
  | (Ok v, (c, w)) => (0, (SetIndexInfos t v c, w))
  | (Err e, st) => (e, st)
  | (Fault, st) => (0, st)
  end.
(** The first key; the callers pass lists that have one. *)
Definition first_is (p : FieldInfo -> bool) (keys : list FieldInfo) : bool := match keys with k :: _ => p k | [] => false end.

Definition match_GetValidDoc : process := fun t keys '(c, w) =>
  if first_is (fun k => (segment_tag k =? SEGMENT_CHINESE) || (segment_tag k =? SEGMENT_ENGLISH)) keys
  then set_found t (HanPinTextInvertIndexSearch keys c w) else set_found t (TextInvertIndexSearch keys c w).
Definition term_GetValidDoc : process := fun t keys '(c, w) =>
  if first_is (fun k => index_tag k =? 0) keys then (- RT_GET_FIELD_ERROR, (c, w)) else set_found t (TextInvertIndexSearch keys c w).
Definition range_GetValidDoc : process := fun t keys '(c, w) =>
  let '(r, w) := RangeQueryInvertIndexSearch keys w in set_found t (r, (c, w)).
(** [GeoDistanceQueryProcess] and, by inheritance, [GeoShapeQueryProcess] *)
Definition geo_GetValidDoc : process := fun t keys '(c, w) =>
  match TextInvertIndexSearch keys c w with
  | (Ok v, (c, w)) => match GetDocContent t v w with (Some v, w) => set_found t (Ok v, (c, w)) | (None, w) => (- RT_DTC_ERR, (c, w)) end
  | r => set_found t r
  end.
(** [PreTerminal] leaves single lists alone. *)
Definition pre_GetValidDoc : process := fun _ _ st => (0, st).

(** [query_process_map_] *)
Definition query_process (type : Z) : process :=
  if type =? E_INDEX_READ_PRE_TERM then pre_GetValidDoc
  else if type =? E_INDEX_READ_RANGE then range_GetValidDoc
  else if type =? E_INDEX_READ_MATCH then match_GetValidDoc
  else if type =? E_INDEX_READ_TERM then term_GetValidDoc
  else geo_GetValidDoc.

(** ** [BoolQueryProcess::GetValidDoc] *)

(** [query_bitset_.test]: a type behind the last is an exception. *)
Definition test (query_bitset_ : gset Z) (type : Z) : outcome bool :=
  if type <? E_INDEX_READ_TOTAL_NUM then Ok (bool_decide (type ∈ query_bitset_)) else Fault.

(** The lists of one kind, one after the other: what a process returns is not looked
    at, but a list whose type has no process ends the whole search with -1, and leaves what
    was found until then. *)
Fixpoint valid_docs (query_bitset_ : gset Z) (t : KeyType) (lists : list (list FieldInfo)) (st : ResultContext * W) : outcome (Z * (ResultContext * W)) :=
  match lists with
  | [] => Ok (0, st)
  | [] :: lists => valid_docs query_bitset_ t lists st
  | (k :: _) as keys :: lists =>
    let! set := test query_bitset_ (query_type k) in
    if negb set then Ok (-1, st) else valid_docs query_bitset_ t lists (query_process (query_type k) t keys st).2
  end.
(** [GetValidDoc] of [PreTerminal], which collects documents of its own. *)
Context (PreTerminal_GetValidDoc : W -> Z * W).
Definition bool_GetValidDoc (query_bitset_ : gset Z) (GetFieldList : KeyType -> list (list FieldInfo)) (st : ResultContext * W) : outcome (Z * (ResultContext * W)) :=
  let! pre := test query_bitset_ E_INDEX_READ_PRE_TERM in let! term := test query_bitset_ E_INDEX_READ_TERM in
  if pre && term then let '(r, w) := PreTerminal_GetValidDoc st.2 in Ok (r, (st.1, w)) else
  let! o := valid_docs query_bitset_ ORKEY (GetFieldList ORKEY) st in
  if negb (o.1 =? 0) then Ok o else
  let! a := valid_docs query_bitset_ ANDKEY (GetFieldList ANDKEY) o.2 in
  if negb (a.1 =? 0) then Ok a else
  valid_docs query_bitset_ INVERTKEY (GetFieldList INVERTKEY) a.2.
End Search.

(** ** What they compute *)

Module QuerySpec.
Lemma info_lt_lex a b : info_lt a b = match lex (doc_id a) (doc_id b) with Lt => true | Eq => doc_version a <? doc_version b | Gt => false end.
Proof.
  unfold info_lt, string_lt. case_decide as E; [by rewrite E, lex_refl|]. destruct (lex (doc_id a) (doc_id b)) eqn:E'; [by apply lex_eq in E'|done..].
Qed.
#[export] Instance info_order : WeakOrder info_lt.
Proof.
  split.
  - intros a b. rewrite !info_lt_lex, (lex_antisym (doc_id a) (doc_id b)). destruct (lex _ _); cbn; rewrite ?Z.ltb_lt, ?Z.ltb_ge; lia || done.
  - intros a b c. rewrite !info_lt_lex. destruct (lex (doc_id a) (doc_id b)) eqn:E1; [apply lex_eq in E1; rewrite E1|done|].
    + destruct (lex (doc_id b) (doc_id c)); intros H1 H2; try done. rewrite Z.ltb_ge in *. lia.
    + destruct (lex (doc_id b) (doc_id c)) eqn:E2; [apply lex_eq in E2; by rewrite <-E2, E1|done|]. by rewrite (lex_trans _ _ _ _ E1 E2).
Qed.

(** A document in a version: what entries are told apart by. *)
Definition key (i : IndexInfo) : list Z * Z := (doc_id i, doc_version i).
Lemma key_eq a b : info_lt a b = false -> info_lt b a = false -> key a = key b.
Proof.
  rewrite !info_lt_lex, (lex_antisym (doc_id a) (doc_id b)). unfold key. destruct (lex (doc_id a) (doc_id b)) eqn:E; cbn; [|done..].
  apply lex_eq in E as ->. rewrite !Z.ltb_ge. intros. f_equal. lia.
Qed.
Lemma key_neq a b : info_lt a b = true -> key a <> key b.
Proof. rewrite info_lt_lex. intros H [= E1 E2]. rewrite E1, E2, lex_refl, Z.ltb_irrefl in H. done. Qed.

(** Documents with how often they are found; [∪] takes the greater number, [∩] the
    lesser, [∖] the difference. *)
Abbreviation found := (gmultiset (list Z * Z)).
Definition keys (v : list IndexInfo) : found := bag key v.
Lemma keys_sort v : keys (std_sort info_lt v) = keys v.
Proof. apply bag_perm, (std_sort_perm info_lt). Qed.
Lemma keys_nil v : keys v = ∅ <-> v = [].
Proof.
  split; [|by intros ->]. destruct v as [|i v]; [done|]. unfold keys. rewrite bag_cons. intros E.
  apply (f_equal (multiplicity (key i))) in E. rewrite multiplicity_disj_union, multiplicity_singleton_eq in E. change (multiplicity (key i) ∅) with 0%nat in E. lia.
Qed.
Lemma Union_keys a b : keys (Union a b) = keys a ∪ keys b.
Proof.
  unfold Union, keys. rewrite (set_union_bag info_lt key key_eq key_neq) by apply (std_sort_sorted info_lt). unfold keys in *. by rewrite !(bag_perm key _ _ (std_sort_perm info_lt _)).
Qed.

(** What the code makes of the documents so far and those of the next list. *)
Definition join (t : KeyType) (s x : found) : found :=
  if decide (s = ∅) then x else match t with ORKEY => s ∪ x | ANDKEY => s ∩ x | INVERTKEY => s ∖ x end.
Definition docs (c : ResultContext) : found := keys c.(index_info_vet).
Lemma SetIndexInfos_join t v c : docs (SetIndexInfos t v c) = join t (docs c) (keys v).
Proof.
  unfold docs, join. assert (E : SetIndexInfos t v c = combine (match t with ORKEY => set_union info_lt | ANDKEY => set_intersection info_lt | INVERTKEY => set_difference info_lt end) v c) by (by destruct t).
  rewrite E. unfold combine. destruct c.(index_info_vet) as [|i l] eqn:El; [done|]. rewrite decide_False by (by rewrite keys_nil). cbn [index_info_vet with_infos].
  unfold keys. destruct t; [rewrite (set_union_bag info_lt key key_eq key_neq)|rewrite (set_intersection_bag info_lt key key_eq key_neq)|rewrite (set_difference_bag info_lt key key_eq key_neq)];
    try apply (std_sort_sorted info_lt); by rewrite !(bag_perm key _ _ (std_sort_perm info_lt _)).
Qed.

Section Query.
Context {W : Type} (GetDocIdSetByWord GetDocByShiftWord GetDocByShiftEnWord : FieldInfo -> W -> option (list IndexInfo) * W).
Context (GetRangeIndex : FieldInfo -> W -> list IndexInfo * W) (GetDocContent : KeyType -> list IndexInfo -> W -> option (list IndexInfo) * W).
Context (gis relevance : bool) (PreTerminal_GetValidDoc : W -> Z * W).
#[local] Abbreviation word_loop := (text_loop GetDocIdSetByWord gis relevance).
#[local] Abbreviation word_search := (TextInvertIndexSearch GetDocIdSetByWord gis relevance).
#[local] Abbreviation process_of := (query_process GetDocIdSetByWord GetDocByShiftWord GetDocByShiftEnWord GetRangeIndex GetDocContent gis relevance).
#[local] Abbreviation docs_of := (valid_docs GetDocIdSetByWord GetDocByShiftWord GetDocByShiftEnWord GetRangeIndex GetDocContent gis relevance).
#[local] Abbreviation bool_query := (bool_GetValidDoc GetDocIdSetByWord GetDocByShiftWord GetDocByShiftEnWord GetRangeIndex GetDocContent gis relevance PreTerminal_GetValidDoc).

(** ** The documents of one list *)

(** What a search has for one of the keys of a list, if it answers for all of them. *)
Fixpoint any_key (search : FieldInfo -> W -> option (list IndexInfo) * W) (ks : list FieldInfo) (w : W) : option found * W :=
  match ks with
  | [] => (Some ∅, w)
  | k :: ks =>
    match search k w with
    | (None, w) => (None, w)
    | (Some v, w) => let r := any_key search ks w in (s ← r.1; Some (keys v ∪ s), r.2)
    end
  end.
Definition near (t : KeyType) (ks : list FieldInfo) (w : W) : option found * W :=
  match word_search ks Clear w with
  | (Ok v, (_, w)) => let r := GetDocContent t v w in (keys <$> r.1, r.2)
  | (_, (_, w)) => (None, w)
  end.
Definition range_answer (k : FieldInfo) (w : W) : option (list IndexInfo) * W := let r := range_search GetRangeIndex k w in (Some r.1, r.2).
(** A list of the type of its first key has what the search of that type has for one of
    its keys; a geographic one has of those what is near. *)
Definition list_docs (t : KeyType) (k : FieldInfo) (ks : list FieldInfo) (w : W) : option found * W :=
  if query_type k =? E_INDEX_READ_PRE_TERM then (None, w)
  else if query_type k =? E_INDEX_READ_RANGE then any_key range_answer (k :: ks) w
  else if query_type k =? E_INDEX_READ_MATCH then
    if (segment_tag k =? SEGMENT_CHINESE) || (segment_tag k =? SEGMENT_ENGLISH) then any_key (sound_search GetDocByShiftWord GetDocByShiftEnWord) (k :: ks) w
    else any_key GetDocIdSetByWord (k :: ks) w
  else if query_type k =? E_INDEX_READ_TERM then if index_tag k =? 0 then (None, w) else any_key GetDocIdSetByWord (k :: ks) w
  else near t (k :: ks) w.

Lemma CalculateByWord_infos v c : (CalculateByWord v c).(index_info_vet) = c.(index_info_vet).
Proof.
  unfold CalculateByWord. generalize (u32 (Z.of_nat (length v))). intros n. revert c. induction v as [|i v IH]; intros c; [done|]. cbn [fold_left]. by rewrite IH.
Qed.
Lemma sound_docs_infos v c : (sound_docs v c).(index_info_vet) = c.(index_info_vet).
Proof. unfold sound_docs. generalize (std_sort info_lt v). clear v. intros v. revert c. induction v as [|i v IH]; intros c; [done|]. cbn [fold_left]. by rewrite IH. Qed.

(** A search answers with the documents of one of its keys, and adds to the words and
    frequencies of the context, not to its documents. *)
Definition answers (s : option found * W) (vet : found) (c : ResultContext) (x : outcome (list IndexInfo) * (ResultContext * W)) : Prop :=
  x.2.2 = s.2 /\ docs x.2.1 = docs c /\ match s.1 with Some d => exists v, x.1 = Ok v /\ keys v = vet ∪ d | None => exists e, x.1 = Err e end.
Lemma text_loop_docs ks : forall vet c w, answers (any_key GetDocIdSetByWord ks w) (keys vet) c (word_loop ks vet c w).
Proof.
  induction ks as [|k ks IH]; intros vet c w; cbn [text_loop any_key]; [split_and!; [done..|]; exists vet; by rewrite (right_id_L ∅ (∪))|].
  destruct (GetDocIdSetByWord k w) as [[d|] w1]; [|split_and!; [done..|by eexists]]. 
  assert (H : forall vet' c', keys vet' = keys vet ∪ keys d -> docs c' = docs c -> answers (let r := any_key GetDocIdSetByWord ks w1 in (s ← r.1; Some (keys d ∪ s), r.2)) (keys vet) c (word_loop ks vet' c' w1)).
  { intros vet' c' Ev Ec. destruct (IH vet' c' w1) as (H1 & H2 & H3). split_and!; [done|congruence|]. cbn [fst]. destruct (any_key _ ks w1).1; cbn; [|done].
    destruct H3 as (v & ? & Hv). exists v. split; [done|]. by rewrite Hv, Ev, (assoc_L (∪)). }
  destruct d as [|i d]; apply H; [by rewrite (proj2 (keys_nil []) eq_refl), (right_id_L ∅ (∪))|done|by rewrite Union_keys|].
  unfold docs. destruct (negb gis && relevance); rewrite ?CalculateByWord_infos; by destruct (_ || _), (negb (field_type k =? FIELD_INDEX)).
Qed.
Lemma text_loop_list ks : forall vet c c1 w, (word_loop ks vet c w).1 = (word_loop ks vet c1 w).1 /\ (word_loop ks vet c w).2.2 = (word_loop ks vet c1 w).2.2.
Proof. induction ks as [|k ks IH]; intros vet c c1 w; [done|]. cbn [text_loop]. destruct (GetDocIdSetByWord k w) as [[[|i d]|] w1]; [apply IH|apply IH|done]. Qed.
Lemma sound_loop_docs ks : forall vet c w, answers (any_key (sound_search GetDocByShiftWord GetDocByShiftEnWord) ks w) (keys vet) c (sound_loop GetDocByShiftWord GetDocByShiftEnWord ks vet c w).
Proof.
  induction ks as [|k ks IH]; intros vet c w; cbn [sound_loop any_key]; [split_and!; [done..|]; exists vet; by rewrite (right_id_L ∅ (∪))|].
  destruct (sound_search _ _ k w) as [[d|] w1]; [|split_and!; [done..|by eexists]].
  destruct (IH (Union vet (std_sort info_lt d)) (sound_docs d c) w1) as (H1 & H2 & H3). split_and!; [done|rewrite H2; unfold docs; by rewrite sound_docs_infos|].
  cbn [fst]. destruct (any_key _ ks w1).1; cbn; [|done]. destruct H3 as (v & ? & Hv). exists v. split; [done|]. by rewrite Hv, Union_keys, keys_sort, (assoc_L (∪)).
Qed.
Lemma range_loop_docs ks : forall vet w, exists d, any_key range_answer ks w = (Some d, (range_loop GetRangeIndex ks vet w).2) /\
  keys (range_loop GetRangeIndex ks vet w).1 = keys vet ∪ d.
Proof.
  induction ks as [|k ks IH]; intros vet w; cbn [range_loop any_key]; [exists ∅; by rewrite (right_id_L ∅ (∪))|].
  unfold range_answer at 1. destruct (range_search GetRangeIndex k w) as [v w1]. destruct (IH (Union vet v) w1) as (d & E & Hd). exists (keys v ∪ d). cbn [fst snd]. rewrite E. split; [done|].
  by rewrite Hd, Union_keys, (assoc_L (∪)).
Qed.

(** ** What a process promises to the boolean query

    It leaves the documents as they are, or joins those it found to them. *)
Definition joined (t : KeyType) (c : ResultContext) (s : option found * W) (x : Z * (ResultContext * W)) : Prop :=
  x.2.2 = s.2 /\ docs x.2.1 = match s.1 with Some d => join t (docs c) d | None => docs c end.
Class Finds (type : Z) (p : process (W := W)) : Prop :=
  finds t k ks c w : query_type k = type -> joined t c (list_docs t k ks w) (p t (k :: ks) (c, w)).

Lemma answers_joined t c s x : answers s ∅ c x -> joined t c s (set_found t x).
Proof.
  destruct s as [[d|] w'], x as [r [c' w1]]; intros (Hw & Hc & H); cbn [fst snd] in *.
  - destruct H as (v & -> & Hv). split; [done|]. cbn [set_found fst snd]. by rewrite SetIndexInfos_join, Hc, Hv, (left_id_L ∅ (∪)).
  - destruct H as (e & ->). done.
Qed.
#[local] Instance finds_pre : Finds E_INDEX_READ_PRE_TERM pre_GetValidDoc.
Proof. intros t k ks c w E. unfold list_docs. by rewrite E. Qed.
#[local] Instance finds_range : Finds E_INDEX_READ_RANGE (range_GetValidDoc GetRangeIndex).
Proof.
  intros t k ks c w E. unfold list_docs, range_GetValidDoc, RangeQueryInvertIndexSearch. rewrite E. cbn [Z.eqb Pos.eqb E_INDEX_READ_RANGE E_INDEX_READ_PRE_TERM].
  destruct (range_loop_docs (k :: ks) [] w) as (d & -> & Hd). destruct (range_loop GetRangeIndex (k :: ks) [] w) as [v w1]. split; [done|]. cbn [set_found fst snd] in *.
  by rewrite SetIndexInfos_join, Hd, (proj2 (keys_nil []) eq_refl), (left_id_L ∅ (∪)).
Qed.
#[local] Instance finds_match : Finds E_INDEX_READ_MATCH (match_GetValidDoc GetDocIdSetByWord GetDocByShiftWord GetDocByShiftEnWord gis relevance).
Proof.
  intros t k ks c w E. unfold list_docs, match_GetValidDoc, HanPinTextInvertIndexSearch, TextInvertIndexSearch. rewrite E. cbn [Z.eqb Pos.eqb E_INDEX_READ_RANGE E_INDEX_READ_PRE_TERM E_INDEX_READ_MATCH first_is].
  destruct (_ || _); apply answers_joined; [apply (sound_loop_docs (k :: ks) [])|apply (text_loop_docs (k :: ks) [])].
Qed.
#[local] Instance finds_term : Finds E_INDEX_READ_TERM (term_GetValidDoc GetDocIdSetByWord gis relevance).
Proof.
  intros t k ks c w E. unfold list_docs, term_GetValidDoc, TextInvertIndexSearch. rewrite E. cbn [Z.eqb Pos.eqb E_INDEX_READ_RANGE E_INDEX_READ_PRE_TERM E_INDEX_READ_MATCH E_INDEX_READ_TERM first_is].
  destruct (index_tag k =? 0); [done|]. apply answers_joined, (text_loop_docs (k :: ks) []).
Qed.
Lemma geo_joined t k ks c w : joined t c (near t (k :: ks) w) (geo_GetValidDoc GetDocIdSetByWord GetDocContent gis relevance t (k :: ks) (c, w)).
Proof.
  unfold near, geo_GetValidDoc, TextInvertIndexSearch. destruct (text_loop_list (k :: ks) [] Clear c w) as [E1 E2].
  pose proof (text_loop_docs (k :: ks) [] c w) as (_ & Hc & Hr).
  destruct (word_loop (k :: ks) [] c w) as [r [c1 w1]], (word_loop (k :: ks) [] Clear w) as [r0 [c0 w0]]. cbn [fst snd] in E1, E2, Hc, Hr. subst r0 w0. destruct r as [v|e|].
  - destruct (GetDocContent t v w1) as [[v'|] w2]; [|done]. split; [done|]. cbn [set_found fst snd]. by rewrite SetIndexInfos_join, Hc.
  - done.
  - destruct (any_key _ _ w).1; naive_solver.
Qed.
#[local] Instance finds_process type : Finds type (process_of type).
Proof.
  unfold query_process. destruct (Z.eqb_spec type E_INDEX_READ_PRE_TERM) as [->|]; [apply _|]. destruct (Z.eqb_spec type E_INDEX_READ_RANGE) as [->|]; [apply _|].
  destruct (Z.eqb_spec type E_INDEX_READ_MATCH) as [->|]; [apply _|]. destruct (Z.eqb_spec type E_INDEX_READ_TERM) as [->|]; [apply _|].
  intros t k ks c w E. unfold list_docs. rewrite E, !(proj2 (Z.eqb_neq _ _)) by done. apply geo_joined.
Qed.

(** ** The documents of the query *)

(** What the lists of a kind have, in order; a list whose search fails is left out. *)
Fixpoint searches (t : KeyType) (lists : list (list FieldInfo)) (w : W) : list found * W :=
  match lists with
  | [] => ([], w)
  | [] :: lists => searches t lists w
  | (k :: ks) :: lists => let s := list_docs t k ks w in let r := searches t lists s.2 in (match s.1 with Some d => d :: r.1 | None => r.1 end, r.2)
  end.
(** The types of the lists have processes. *)
Definition announced (bits : gset Z) (lists : list (list FieldInfo)) : Prop :=
  Forall (fun ks => match ks with k :: _ => query_type k < E_INDEX_READ_TOTAL_NUM /\ query_type k ∈ bits | [] => True end) lists.

Lemma valid_docs_join bits t lists : announced bits lists -> forall c w, exists c',
  docs_of bits t lists (c, w) = Ok (0, (c', (searches t lists w).2)) /\ docs c' = fold_left (join t) (searches t lists w).1 (docs c).
Proof.
  induction 1 as [|ks lists Hk Hl IH]; intros c w; [by exists c|]. destruct ks as [|k ks]; [apply IH|]. destruct Hk as [H6 Hb]. cbn [valid_docs searches].
  unfold test. rewrite (proj2 (Z.ltb_lt _ _)), bool_decide_true by done. cbn [obind negb].
  pose proof (finds t k ks c w eq_refl) as [Hw Hc]. destruct (process_of (query_type k) t (k :: ks) (c, w)) as [ret [c1 w1]]. cbn [fst snd] in *. subst w1.
  destruct (IH c1 (list_docs t k ks w).2) as (c' & E & Hd). exists c'. split; [exact E|]. rewrite Hd, Hc. by destruct (list_docs t k ks w).1.
Qed.
(** A list whose type has no process ends the search. *)
Lemma valid_docs_stops bits t lists k ks more : announced bits lists -> query_type k < E_INDEX_READ_TOTAL_NUM -> query_type k ∉ bits -> forall c w, exists c',
  docs_of bits t (lists ++ (k :: ks) :: more) (c, w) = Ok (-1, (c', (searches t lists w).2)) /\ docs c' = fold_left (join t) (searches t lists w).1 (docs c).
Proof.
  intros Hl H6 Hb. induction Hl as [|ls lists Hk Hl IH]; intros c w.
  - exists c. split; [|done]. cbn [app valid_docs]. unfold test. by rewrite (proj2 (Z.ltb_lt _ _)), bool_decide_false by done.
  - destruct ls as [|k' ls]; [apply IH|]. destruct Hk as [H6' Hb']. cbn [app valid_docs searches].
    unfold test. rewrite (proj2 (Z.ltb_lt _ _)), bool_decide_true by done. cbn [obind negb].
    pose proof (finds t k' ls c w eq_refl) as [Hw Hc]. destruct (process_of (query_type k') t (k' :: ls) (c, w)) as [ret [c1 w1]]. cbn [fst snd] in *. subst w1.
    destruct (IH c1 (list_docs t k' ls w).2) as (c' & E & Hd). exists c'. split; [exact E|]. rewrite Hd, Hc. by destruct (list_docs t k' ls w).1.
Qed.
(** The query goes through the lists in three passes. *)
Lemma bool_query_join bits lists w : (E_INDEX_READ_PRE_TERM ∈ bits -> E_INDEX_READ_TERM ∉ bits) -> (forall t, announced bits (lists t)) ->
  let o := searches ORKEY (lists ORKEY) w in let a := searches ANDKEY (lists ANDKEY) o.2 in let n := searches INVERTKEY (lists INVERTKEY) a.2 in
  exists c, bool_query bits lists (Clear, w) = Ok (0, (c, n.2)) /\ docs c = fold_left (join INVERTKEY) n.1 (fold_left (join ANDKEY) a.1 (fold_left (join ORKEY) o.1 ∅)).
Proof.
  intros Hpt Hl o a n. unfold bool_GetValidDoc.
  change (test bits E_INDEX_READ_PRE_TERM) with (Ok (bool_decide (E_INDEX_READ_PRE_TERM ∈ bits))). change (test bits E_INDEX_READ_TERM) with (Ok (bool_decide (E_INDEX_READ_TERM ∈ bits))). cbn [obind].
  assert (Hs : bool_decide (E_INDEX_READ_PRE_TERM ∈ bits) && bool_decide (E_INDEX_READ_TERM ∈ bits) = false).
  { destruct (bool_decide_reflect (E_INDEX_READ_PRE_TERM ∈ bits)) as [H0|]; [|done]. by rewrite bool_decide_false by exact (Hpt H0). }
  rewrite Hs. destruct (valid_docs_join bits ORKEY _ (Hl ORKEY) Clear w) as (c1 & E1 & H1). rewrite E1. cbn [obind fst snd Z.eqb negb].
  destruct (valid_docs_join bits ANDKEY _ (Hl ANDKEY) c1 o.2) as (c2 & E2 & H2). unfold o in E2. rewrite E2. cbn [obind fst snd Z.eqb negb].
  destruct (valid_docs_join bits INVERTKEY _ (Hl INVERTKEY) c2 a.2) as (c3 & E3 & H3). exists c3. split; [exact E3|]. by rewrite H3, H2, H1.
Qed.

(** Of the first lists the greatest number, if there are any, and of the second the
    least; then the third are taken away. *)
Definition positive (ors ands : list found) : found :=
  match ors, ands with
  | [], a :: ands => fold_left (∩) ands a
  | _, _ => fold_left (∩) ands (fold_left (∪) ors ∅)
  end.
Definition wanted (ors ands nots : list found) : found := fold_left (∖) nots (positive ors ands).

Lemma fold_empty (op : found -> found -> found) l : (forall x, op ∅ x = ∅) -> fold_left op l ∅ = ∅.
Proof. intros H. induction l as [|x l IH]; [done|]. cbn. by rewrite H. Qed.
Lemma join_ors l : forall s, fold_left (join ORKEY) l s = fold_left (∪) l s.
Proof. induction l as [|x l IH]; intros s; [done|]. cbn [fold_left]. rewrite IH. unfold join. case_decide as E; [by rewrite E, (left_id_L ∅ (∪))|done]. Qed.
(** As long as something is left, a pass of intersections or differences only removes. *)
Lemma join_removes t op l : match t with ORKEY => False | ANDKEY => op = (∩) | INVERTKEY => op = (∖) end ->
  forall s, fold_left op l s <> ∅ -> fold_left (join t) l s = fold_left op l s.
Proof.
  intros Ht. assert (He : forall x, op ∅ x = ∅) by (destruct t; [done|subst op; intros x; apply (left_absorb_L ∅ (∩))|subst op; apply bag_nil_difference]).
  induction l as [|x l IH]; intros s Hn; [done|]. cbn [fold_left] in *. rewrite <-IH by done. f_equal. unfold join. case_decide as E; [|by destruct t; [|subst op..]].
  destruct Hn. by rewrite E, He, fold_empty.
Qed.
Lemma join_positive ors ands : positive ors ands <> ∅ -> fold_left (join ANDKEY) ands (fold_left (join ORKEY) ors ∅) = positive ors ands.
Proof.
  intros Hn. rewrite join_ors. unfold positive in *. destruct ors as [|o ors]; [|by apply join_removes].
  destruct ands as [|a ands]; [done|]. cbn [fold_left]. change (join ANDKEY ∅ a) with a. by apply join_removes.
Qed.
Lemma wanted_positive ors ands nots : wanted ors ands nots <> ∅ -> positive ors ands <> ∅.
Proof. intros Hn E. apply Hn. unfold wanted. rewrite E. apply fold_empty, bag_nil_difference. Qed.

(** For what the positive lists have once the query is a question of membership. *)
Lemma in_union x l : forall s : found, x ∈ fold_left (∪) l s <-> x ∈ s \/ Exists (fun y => x ∈ y) l.
Proof.
  induction l as [|y l IH]; intros s; cbn [fold_left]; [rewrite Exists_nil; tauto|]. rewrite IH, Exists_cons, gmultiset_elem_of_union. tauto.
Qed.
Lemma in_intersection x l : forall s : found, x ∈ fold_left (∩) l s <-> x ∈ s /\ Forall (fun y => x ∈ y) l.
Proof.
  induction l as [|y l IH]; intros s; cbn [fold_left]; [split; [done|by intros [? _]]|]. rewrite IH, Forall_cons, gmultiset_elem_of_intersection. tauto.
Qed.
Lemma in_difference x l : forall s : found, (multiplicity x s <= 1)%nat -> x ∈ fold_left (∖) l s <-> x ∈ s /\ Forall (fun y => x ∉ y) l.
Proof.
  induction l as [|y l IH]; intros s Hs; cbn [fold_left]; [split; [done|by intros [? _]]|]. rewrite IH by (rewrite multiplicity_difference; lia).
  rewrite Forall_cons, !elem_of_multiplicity, multiplicity_difference. rewrite (not_elem_of_multiplicity x y). intuition lia.
Qed.
Lemma in_positive x ors ands : positive ors ands <> ∅ -> x ∈ positive ors ands <-> (ors = [] \/ Exists (fun s => x ∈ s) ors) /\ Forall (fun s => x ∈ s) ands.
Proof.
  intros Hn. unfold positive in *. destruct ors as [|o ors].
  - destruct ands as [|a ands]; [done|]. rewrite in_intersection, Forall_cons. tauto.
  - rewrite in_intersection, in_union. assert (x ∉ (∅ : found)) by apply gmultiset_not_elem_of_empty. naive_solver.
Qed.

(** C24: a boolean query finds what it asks for whenever there is something to find. Its
    lists are searched by the processes of their types, the should-, must- and must-not-
    lists in this order; a list whose search fails is left out. What is found is counted:
    the should-lists give a document as often as the one that has it most, the must-lists
    leave the least of its counts, and the must-not-lists take theirs away. So a document
    the positive lists have once is found when one of the should-lists has it, if there
    are any, every must-list does and no must-not-list. Nothing is assumed of the index. *)
Theorem bool_query_exact bits lists w : (E_INDEX_READ_PRE_TERM ∈ bits -> E_INDEX_READ_TERM ∉ bits) -> (forall t, announced bits (lists t)) ->
  let o := searches ORKEY (lists ORKEY) w in let a := searches ANDKEY (lists ANDKEY) o.2 in let n := searches INVERTKEY (lists INVERTKEY) a.2 in
  wanted o.1 a.1 n.1 <> ∅ ->
  exists c, bool_query bits lists (Clear, w) = Ok (0, (c, n.2)) /\ docs c = wanted o.1 a.1 n.1 /\
    forall x, (multiplicity x (positive o.1 a.1) <= 1)%nat ->
      x ∈ docs c <-> (o.1 = [] \/ Exists (fun s => x ∈ s) o.1) /\ Forall (fun s => x ∈ s) a.1 /\ Forall (fun s => x ∉ s) n.1.
Proof.
  intros Hpt Hl o a n Hn. pose proof (wanted_positive _ _ _ Hn) as Hp. destruct (bool_query_join bits lists w Hpt Hl) as (c & E & Hd).
  fold o in E, Hd. fold a in E, Hd. fold n in E, Hd. rewrite (join_positive _ _ Hp), (join_removes INVERTKEY (∖)) in Hd by done.
  exists c. split; [done|]. split; [done|]. intros x Hx. rewrite Hd, in_difference, in_positive by done. tauto.
Qed.

(** A query that should find nothing finds documents: when two must-lists have no
    document in common the next one starts afresh, and a query with must-not-lists only
    answers with the documents of the first of them. An empty result is taken for no
    result yet. *)
Theorem nothing_found_starts_afresh bits lists w s1 s2 s3 : (E_INDEX_READ_PRE_TERM ∈ bits -> E_INDEX_READ_TERM ∉ bits) -> (forall t, announced bits (lists t)) ->
  lists ORKEY = [] -> s1 <> ∅ -> s1 ∩ s2 = ∅ ->
  ((searches ANDKEY (lists ANDKEY) w).1 = [s1; s2; s3] /\ lists INVERTKEY = [] \/ lists ANDKEY = [] /\ (searches INVERTKEY (lists INVERTKEY) w).1 = [s3]) ->
  exists c w', bool_query bits lists (Clear, w) = Ok (0, (c, w')) /\ docs c = s3.
Proof.
  intros Hpt Hl Ho H1 H12 H. destruct (bool_query_join bits lists w Hpt Hl) as (c & E & Hd). rewrite Ho in E, Hd. cbn [searches fst snd fold_left] in E, Hd.
  exists c. eexists. split; [exact E|]. rewrite Hd. destruct H as [[-> ->]|[-> Hs]]; cbn [searches fst snd fold_left].
  - unfold join. rewrite (decide_True _ _ (eq_refl ∅)), (decide_False (P := s1 = ∅)), H12 by done. by rewrite decide_True.
  - by rewrite Hs.
Qed.

(** The lists of a union key have no index tag: where the query has terms only, they are
    searched as terms, and left out. *)
Lemma term_without_tag k ks t w : query_type k = E_INDEX_READ_TERM -> index_tag k = 0 -> searches t [k :: ks] w = ([], w).
Proof. intros E Et. cbn [searches]. unfold list_docs. by rewrite E, Et. Qed.
End Query.

(** ** Witnesses *)

(** An index of two documents: word 1 has both, the first twice, word 2 the first, word
    3 the second; its state counts the searches. *)
Definition doc (n : Z) : IndexInfo := mkInfo 1 [n] 1 0 1 0 [] [].
Definition sample_index (k : FieldInfo) (w : nat) : option (list IndexInfo) * nat :=
  (match word k with [1] => Some [doc 66; doc 65; doc 66] | [2] => Some [doc 65] | [3] => Some [doc 66; doc 66] | _ => None end, S w).
Definition no_index (k : FieldInfo) (w : nat) : option (list IndexInfo) * nat := (None, w).
Definition term (n : Z) : FieldInfo := mkField [n] 1 2 0 0 0 1 0 E_INDEX_READ_TERM.
Definition sample_lists (ors ands nots : list (list FieldInfo)) (t : KeyType) : list (list FieldInfo) :=
  match t with ORKEY => ors | ANDKEY => ands | INVERTKEY => nots end.
#[local] Abbreviation sample_query := (bool_GetValidDoc sample_index no_index no_index (fun _ w => ([], w)) (fun _ v w => (Some v, w)) false true (fun w => (0, w))).
Lemma bool_query_exact_witness : exists c,
  sample_query {[E_INDEX_READ_TERM]} (sample_lists [[term 1]] [[term 1]; [term 2; term 9]] [[term 3]]) (Clear, 0%nat) = Ok (0, (c, 5%nat)) /\
  docs c = {[+ ([65], 1) +]} ⊎ ∅.
Proof.
  destruct (bool_query_exact sample_index no_index no_index (fun _ w => ([], w)) (fun _ v w => (Some v, w)) false true (fun w => (0, w))
    {[E_INDEX_READ_TERM]} (sample_lists [[term 1]] [[term 1]; [term 2; term 9]] [[term 3]]) 0%nat) as (c & E & Hd & _).
  - by intros H%elem_of_singleton.
  - intros []; repeat constructor; by apply elem_of_singleton.
  - apply (bool_decide_unpack _). vm_compute. exact I.
  - exists c. split; [exact E|]. rewrite Hd. apply (bool_decide_unpack _). vm_compute. exact I.
Defined.
Lemma nothing_found_starts_afresh_witness : exists c w,
  sample_query {[E_INDEX_READ_TERM]} (sample_lists [] [[term 2]; [term 3]; [term 1]] []) (Clear, 0%nat) = Ok (0, (c, w)) /\ docs c = keys [doc 66; doc 65; doc 66] ∪ ∅.
Proof.
  apply (nothing_found_starts_afresh sample_index no_index no_index (fun _ w => ([], w)) (fun _ v w => (Some v, w)) false true (fun w => (0, w))
    {[E_INDEX_READ_TERM]} (sample_lists [] [[term 2]; [term 3]; [term 1]] []) 0%nat (keys [doc 65] ∪ ∅) (keys [doc 66; doc 66] ∪ ∅)).
  - by intros H%elem_of_singleton.
  - intros []; repeat constructor; by apply elem_of_singleton.
  - done.
  - apply (bool_decide_unpack _). vm_compute. exact I.
  - apply (bool_decide_unpack _). vm_compute. exact I.
  - by left.
Defined.
End QuerySpec.
