(* ===== verification/Suggest.v ===== *)
(** Suggestions: the words of a dictionary that continue what was typed, the most
    frequent first ([index_read/priority_queue.h], [index_read/ternary.cc]). *)
From Stdlib Require Import ZArith Lia.
From stdpp Require Import base list list_numbers numbers sorting gmap.
From S2P Require Import Prelude Std Heap.
Local Open Scope Z_scope.

(** ** [PriorityQueue] *)

(** A frequency and a word. *)
Abbreviation PAIR := (Z * list Z)%type.
Definition CmpByValue (lhs rhs : PAIR) : bool := rhs.1 <? lhs.1.
Record PriorityQueue := mkQueue { pairs : list PAIR; size : nat; count : nat }.
(** [vector<PAIR>(len)] throws for a negative [len]. *)
Definition PriorityQueue_new (len : Z) : outcome PriorityQueue :=
  if len <? 0 then Fault else Ok (mkQueue (List.repeat (0, []) (Z.to_nat len)) 0 (Z.to_nat len)).

Definition Parent (pos : nat) : nat := ((pos - 1) / 2)%nat.
(** Products of [int]s: past the last [int] they have no meaning. *)
Definition as_int (pos : nat) : outcome nat := if 2 ^ 31 <=? Z.of_nat pos then Fault else Ok pos.
Definition Left (pos : nat) : outcome nat := as_int (pos * 2 + 1).
Definition Right (pos : nat) : outcome nat := as_int (pos * 2 + 2).
Definition pair_at (v : list PAIR) (i : nat) : outcome PAIR := match v !! i with Some p => Ok p | None => Fault end.
Definition swap (v : list PAIR) (i j : nat) : outcome (list PAIR) :=
  let! a := pair_at v i in let! b := pair_at v j in Ok (<[j := a]> (<[i := b]> v)).

Fixpoint MinHeapIfy (fuel : nat) (v : list PAIR) (n pos : nat) : outcome (list PAIR) :=
  match fuel with
  | O => Fault
  | S fuel =>
    let! here := pair_at v pos in
    let! lpos := Left pos in
    let! minPos := if (lpos <? n)%nat then let! l := pair_at v lpos in Ok (if l.1 <? here.1 then lpos else pos) else Ok pos in
    let! rpos := Right pos in
    let! m := pair_at v minPos in
    let! minPos := if (rpos <? n)%nat then let! r := pair_at v rpos in Ok (if r.1 <? m.1 then rpos else minPos) else Ok minPos in
    if (minPos =? pos)%nat then Ok v else let! v := swap v pos minPos in MinHeapIfy fuel v n minPos
  end.
Definition DeQueue (q : PriorityQueue) : outcome (bool * PriorityQueue) :=
  match q.(size) with
  | O => Ok (false, q)
  | S n =>
    let! last := pair_at q.(pairs) n in
    let v := <[0%nat := last]> q.(pairs) in
    if (n =? 0)%nat then Ok (true, mkQueue v n q.(count))
    else let! v := MinHeapIfy (S n) v n 0 in Ok (true, mkQueue v n q.(count))
  end.
Fixpoint up_loop (fuel : nat) (v : list PAIR) (i : nat) : outcome (list PAIR) :=
  match fuel with
  | O => Fault
  | S fuel =>
    if (i =? 0)%nat then Ok v else
    let! a := pair_at v i in
    let! b := pair_at v (Parent i) in
    if a.1 <? b.1 then let! v := swap v i (Parent i) in up_loop fuel v (Parent i) else Ok v
  end.
(** [pairs[size++] = val] and the way up; writing past the vector has no meaning. *)
Definition push (q : PriorityQueue) (val : PAIR) : outcome PriorityQueue :=
  if (length q.(pairs) <=? q.(size))%nat then Fault else
  let! v := up_loop (S q.(size)) (<[q.(size) := val]> q.(pairs)) q.(size) in
  Ok (mkQueue v (S q.(size)) q.(count)).
Definition EnQueue (q : PriorityQueue) (val : PAIR) : outcome (bool * PriorityQueue) :=
  if (q.(count) <=? q.(size))%nat then
    let! top := pair_at q.(pairs) 0 in
    if val.1 <=? top.1 then Ok (true, q)
    else let! r := DeQueue q in let! q := push r.2 val in Ok (true, q)
  else let! q := push q val in Ok (true, q).
Definition GetElements (q : PriorityQueue) : list (list Z) :=
  match q.(size) with
  | O => []
  | _ => (snd <$> std_sort CmpByValue (take q.(size) q.(pairs)))
  end.
Definition Top (q : PriorityQueue) : option PAIR := match q.(size) with O => None | _ => q.(pairs) !! 0%nat end.

(** ** [TernaryTree] *)

(** A node, [NULL] being [Leaf]: the character (a [char]), whether a word ends here, its
    frequency, and the branches. *)
Inductive NodeTree :=
  | Leaf
  | Node (word : Z) (completed : bool) (freq : Z) (left mid right : NodeTree).

(** [Insert(word, index, freq, node)], on the rest of the word from [index]. *)
Fixpoint insert_from (word : list Z) (freq : Z) : NodeTree -> NodeTree :=
  match word with
  | [] => fun node => node
  | ch :: rest =>
    fix go (node : NodeTree) : NodeTree :=
    match node with
    | Leaf => match rest with [] => Node ch true freq Leaf Leaf Leaf | _ => Node ch false 0 Leaf (insert_from rest freq Leaf) Leaf end
    | Node w c f l m r =>
      if ch <? w then Node w c f (go l) m r
      else if w <? ch then Node w c f l m (go r)
      else match rest with [] => Node w true freq l m r | _ => Node w c f l (insert_from rest freq m) r end
    end
  end.
Definition Insert (word : list Z) (freq : Z) (root : NodeTree) : NodeTree := insert_from word freq root.

(** The loop of [Find], from [node] and position [pos] of the word; [rest] is the word
    from there. *)
Fixpoint find_loop (word rest : list Z) (node : NodeTree) (q : PriorityQueue) : outcome (NodeTree * PriorityQueue) :=
  match node, rest with
  | Leaf, _ | _, [] => Ok (Leaf, q)
  | Node w c f l m r, ch :: rest' =>
    if ch <? w then find_loop word rest l q
    else if w <? ch then find_loop word rest r q
    else match rest' with
         | [] => if c then let! e := EnQueue q (f, word) in Ok (m, e.2) else Ok (m, q)
         | _ => find_loop word rest' m q
         end
  end.
Definition Find (root : NodeTree) (word : list Z) (q : PriorityQueue) : outcome (NodeTree * PriorityQueue) := find_loop word word root q.
Fixpoint DFS (prefix : list Z) (node : NodeTree) (q : PriorityQueue) : outcome PriorityQueue :=
  match node with
  | Leaf => Ok q
  | Node w c f l m r =>
    let! q := if c then let! e := EnQueue q (f, prefix ++ [w]) in Ok e.2 else Ok q in
    let! q := DFS prefix l q in
    let! q := DFS (prefix ++ [w]) m q in
    DFS prefix r q
  end.
Definition FindSimliar (root : NodeTree) (word : list Z) (q : PriorityQueue) : outcome (bool * PriorityQueue) :=
  let! r := Find root word q in
  match r.1 with
  | Leaf => Ok (false, r.2)
  | node => let! q := DFS word node r.2 in Ok (true, q)
  end.
(** [SuggestTask]: the answer for a text and a number of words. *)
Definition suggest (root : NodeTree) (word : list Z) (suggest_cnt : Z) : outcome (list (list Z)) :=
  let! q := PriorityQueue_new suggest_cnt in
  let! r := FindSimliar root word q in
  Ok (GetElements r.2).
