(* ===== verification/SuggestSpec.v ===== *)
(** The queue keeps the most frequent words, and the tree finds the words of the
    dictionary that continue a text. *)
From Stdlib Require Import ZArith Lia.
From stdpp Require Import base list list_numbers numbers sorting gmap.
From S2P Require Import Prelude Std Heap Suggest.
Local Open Scope Z_scope.

Module SuggestSpec.

(** ** The queue *)

#[export] Instance value_order : WeakOrder CmpByValue.
Proof. split; unfold CmpByValue; intros *; rewrite ?Z.ltb_lt, ?Z.ltb_ge; lia. Qed.
#[local] Abbreviation heap_from := (heap_from CmpByValue 0).
#[local] Abbreviation heap_but := (heap_but CmpByValue 0).

Lemma at_app v (t : list PAIR) i : (i < length v)%nat -> exists x, v !! i = Some x /\ pair_at (v ++ t) i = Ok x.
Proof. intros Hi. destruct (lookup_lt_is_Some_2 v i Hi) as [x Hx]. exists x. split; [done|]. unfold pair_at. by rewrite lookup_app_l, Hx. Qed.
Lemma swap_app v t i j a b : v !! i = Some a -> v !! j = Some b -> swap (v ++ t) i j = Ok (<[j := a]> (<[i := b]> v) ++ t).
Proof.
  intros Ha Hb. pose proof (lookup_lt_Some _ _ _ Ha). pose proof (lookup_lt_Some _ _ _ Hb). unfold swap, pair_at. rewrite !lookup_app_l, Ha, Hb by done. cbn [obind].
  by rewrite !insert_app_l by (rewrite ?length_insert; done).
Qed.
Lemma not_before (a b : PAIR) : CmpByValue a b = false <-> a.1 <= b.1.
Proof. unfold CmpByValue. apply Z.ltb_ge. Qed.

(** In a heap of fewer than 2^30 pairs the places of children are [int]s. *)
Lemma small_children (v : list PAIR) pos : (pos < length v)%nat -> Z.of_nat (length v) < 2 ^ 30 -> Left pos = Ok (pos * 2 + 1)%nat /\ Right pos = Ok (pos * 2 + 2)%nat.
Proof. intros Hp Hv. unfold Left, Right, as_int. by rewrite !(proj2 (Z.leb_gt _ _)) by lia. Qed.
(** The place that [MinHeapIfy] goes on with. *)
Lemma min_child v t pos here : v !! pos = Some here -> exists c y,
  (let! minPos := if (pos * 2 + 1 <? length v)%nat then let! l := pair_at (v ++ t) (pos * 2 + 1) in Ok (if l.1 <? here.1 then (pos * 2 + 1)%nat else pos) else Ok pos in
   let! m := pair_at (v ++ t) minPos in
   if (pos * 2 + 2 <? length v)%nat then let! r := pair_at (v ++ t) (pos * 2 + 2) in Ok (if r.1 <? m.1 then (pos * 2 + 2)%nat else minPos) else Ok minPos) = Ok c /\
  v !! c = Some y /\ (forall d z, child pos d -> v !! d = Some z -> y.1 <= z.1) /\ ((c = pos /\ y = here) \/ (child pos c /\ y.1 < here.1)).
Proof.
  intros Hp. unfold child. pose proof (lookup_lt_Some _ _ _ Hp) as Hl.
  assert (H1 : exists c y, (if (pos * 2 + 1 <? length v)%nat then let! l := pair_at (v ++ t) (pos * 2 + 1) in Ok (if l.1 <? here.1 then (pos * 2 + 1)%nat else pos) else Ok pos) = Ok c /\
    v !! c = Some y /\ (forall z, v !! (pos * 2 + 1)%nat = Some z -> y.1 <= z.1) /\ ((c = pos /\ y = here) \/ (c = (pos * 2 + 1)%nat /\ y.1 < here.1))).
  { destruct (Nat.ltb_spec (pos * 2 + 1) (length v)) as [Hc|Hc].
    - destruct (at_app v t _ Hc) as (l & E & ->). cbn [obind]. destruct (Z.ltb_spec l.1 here.1); [exists (pos * 2 + 1)%nat, l|exists pos, here]; (split; [done|]; split; [done|]; split; [intros z Hz; simplify_eq; lia|]); [right; split; [done|lia]|by left].
    - exists pos, here. split_and!; try done; [|by left]. intros z Hz%lookup_lt_Some. lia. }
  destruct H1 as (c & y & -> & Hy & Hle & Hc). cbn [obind]. pose proof (lookup_lt_Some _ _ _ Hy) as Hlc. unfold pair_at at 1. rewrite lookup_app_l, Hy by done. cbn [obind].
  destruct (Nat.ltb_spec (pos * 2 + 2) (length v)) as [Hr|Hr].
  - destruct (at_app v t _ Hr) as (r & E & ->). cbn [obind]. destruct (Z.ltb_spec r.1 y.1).
    + exists (pos * 2 + 2)%nat, r. split_and!; try done.
      * intros d z [->| ->] Hz; [replace (2 * pos + 1)%nat with (pos * 2 + 1)%nat in Hz by lia; specialize (Hle z Hz); lia|].
        replace (2 * pos + 2)%nat with (pos * 2 + 2)%nat in Hz by lia. simplify_eq. lia.
      * right. destruct Hc as [[-> ->]|[-> ?]]; lia.
    + exists c, y. split_and!; try done; [|destruct Hc as [?|[-> ?]]; [by left|right; lia]].
      intros d z [->| ->] Hz; [apply Hle; by replace (pos * 2 + 1)%nat with (2 * pos + 1)%nat by lia|]. replace (2 * pos + 2)%nat with (pos * 2 + 2)%nat in Hz by lia. by simplify_eq.
  - exists c, y. split_and!; try done; [|destruct Hc as [?|[-> ?]]; [by left|right; lia]].
    intros d z [->| ->] Hz; [apply Hle; by replace (pos * 2 + 1)%nat with (2 * pos + 1)%nat by lia|]. apply lookup_lt_Some in Hz. lia.
Qed.
Lemma MinHeapIfy_ok fuel : forall v t pos, Z.of_nat (length v) < 2 ^ 30 -> heap_but pos v -> (pos < length v)%nat -> (length v < fuel + pos)%nat ->
  exists r, MinHeapIfy fuel (v ++ t) (length v) pos = Ok (r ++ t) /\ r ≡ₚ v /\ heap_from r.
Proof.
  induction fuel as [|fuel IH]; intros v t pos Hv Hb Hp Hf; [lia|]. cbn [MinHeapIfy]. destruct (small_children v pos Hp Hv) as [-> ->]. cbn [obind]. destruct (at_app v t pos Hp) as (here & Hh & ->). cbn [obind].
  destruct (min_child v t pos here Hh) as (c & y & E & Hy & Hle & Hc).
  match goal with |- context [obind ?m1 ?f1] => destruct m1 as [m| |] eqn:E1 end; [|discriminate E..]. cbn [obind] in E |- *.
  destruct (pair_at (v ++ t) m) as [ym| |] eqn:E2; [|discriminate E..]. cbn [obind] in E |- *. rewrite E. cbn [obind]. clear E E1 E2 m ym.
  destruct Hc as [[-> ->]|[Hc Hlt]].
  - rewrite Nat.eqb_refl. exists v. split; [done|]. split; [done|]. intros i d a b Hi Hd Ha Hz. destruct (decide (i = pos)) as [->|Hne]; [|by eapply (proj1 Hb)].
    simplify_eq. apply not_before. by eapply Hle.
  - replace (c =? pos)%nat with false by (symmetry; apply Nat.eqb_neq; unfold child in Hc; lia). rewrite (swap_app _ _ _ _ _ _ Hh Hy). cbn [obind].
    pose proof (lookup_lt_Some _ _ _ Hy). destruct (IH (<[c := here]> (<[pos := y]> v)) t c) as (r & Er & Hr & Hhr).
    + by rewrite !length_insert.
    + apply (sift_step CmpByValue 0 v pos c here y); [lia|done|done|done| | |by rewrite list_insert_id].
      * intros d z Hd Hz. apply not_before. by eapply Hle.
      * apply not_before. lia.
    + by rewrite !length_insert.
    + rewrite !length_insert. unfold child in Hc. lia.
    + rewrite !length_insert in Er. exists r. split; [done|]. split; [|done]. rewrite Hr. by apply Permutation_insert_swap.
Qed.

(** A heap but for the edge from the parent of [h]. *)
Definition heap_up (h : nat) (v : list PAIR) : Prop :=
  (forall p c a b, child p c -> c <> h -> v !! p = Some a -> v !! c = Some b -> a.1 <= b.1) /\
  (forall p c a b, child p h -> child h c -> v !! p = Some a -> v !! c = Some b -> a.1 <= b.1).
Lemma child_parent i : i <> 0%nat -> child (Parent i) i /\ (Parent i < i)%nat.
Proof. intros Hi. unfold child, Parent. pose proof (Nat.div_mod_eq (i - 1) 2). pose proof (Nat.mod_upper_bound (i - 1) 2 ltac:(lia)). lia. Qed.
Lemma child_inj p q i : child p i -> child q i -> p = q.
Proof. unfold child. lia. Qed.
Lemma up_step v p i a b : child p i -> v !! i = Some a -> v !! p = Some b -> a.1 < b.1 -> heap_up i v -> heap_up p (<[p := a]> (<[i := b]> v)).
Proof.
  intros Hpi Ha Hb Hlt [H1 H2]. assert (Hne : i <> p) by (unfold child in Hpi; lia). pose proof (lookup_lt_Some _ _ _ Ha) as Hli. pose proof (lookup_lt_Some _ _ _ Hb) as Hlp.
  assert (Ei : <[p := a]> (<[i := b]> v) !! i = Some b) by (rewrite list_lookup_insert_ne, list_lookup_insert_eq; done).
  assert (Ep : <[p := a]> (<[i := b]> v) !! p = Some a) by (rewrite list_lookup_insert_eq; by rewrite ?length_insert).
  assert (Eo : forall j, j <> i -> j <> p -> <[p := a]> (<[i := b]> v) !! j = v !! j) by (intros; by rewrite !list_lookup_insert_ne).
  split; intros x c y z Hxc.
  - intros Hcp Hx Hc. destruct (decide (x = i)) as [->|Hxi]; [rewrite Ei in Hx; simplify_eq; rewrite Eo in Hc by (unfold child in *; lia); by eapply H2|].
    destruct (decide (c = i)) as [->|Hci]; [pose proof (child_inj _ _ _ Hpi Hxc); subst x; rewrite Ep in Hx; rewrite Ei in Hc; simplify_eq; lia|].
    rewrite Eo in Hc by done. destruct (decide (x = p)) as [->|Hxp]; [rewrite Ep in Hx; simplify_eq; pose proof (H1 p c b z Hxc Hci Hb Hc); lia|].
    rewrite Eo in Hx by done. by eapply H1.
  - intros Hpc Hx Hc. assert (x <> i /\ x <> p) as [Hxi Hxp] by (unfold child in *; lia). rewrite Eo in Hx by done.
    assert (y.1 <= b.1) by (apply (H1 x p y b Hxc); [lia|done..]). destruct (decide (c = i)) as [->|Hci]; [rewrite Ei in Hc; by simplify_eq|].
    rewrite Eo in Hc by (unfold child in *; lia). pose proof (H1 p c b z Hpc Hci Hb Hc). lia.
Qed.
Lemma up_loop_ok fuel : forall v t i, heap_up i v -> (i < length v)%nat -> (i < fuel)%nat -> exists r, up_loop fuel (v ++ t) i = Ok (r ++ t) /\ r ≡ₚ v /\ heap_from r.
Proof.
  induction fuel as [|fuel IH]; intros v t i Hh Hi Hf; [lia|]. cbn [up_loop]. destruct (Nat.eqb_spec i 0) as [->|Hi0].
  - exists v. split; [done|]. split; [done|]. intros p c a b _ Hc Ha Hb. apply not_before. eapply (proj1 Hh); [done| |done..]. unfold child in Hc. lia.
  - destruct (child_parent i Hi0) as [Hc Hlt]. destruct (at_app v t i Hi) as (a & Ha & ->). destruct (at_app v t (Parent i)) as (b & Hb & ->); [lia|]. cbn [obind].
    destruct (Z.ltb_spec a.1 b.1).
    + rewrite (swap_app _ _ _ _ _ _ Ha Hb). cbn [obind]. destruct (IH (<[Parent i := a]> (<[i := b]> v)) t (Parent i)) as (r & Er & Hr & Hhr); [by apply up_step|rewrite !length_insert; lia|lia|].
      exists r. split; [done|]. split; [|done]. rewrite Hr. by apply Permutation_insert_swap.
    + exists v. split; [done|]. split; [done|]. intros p c x y _ Hpc Hx Hy. apply not_before. destruct (decide (c = i)) as [->|Hci]; [|by eapply (proj1 Hh)].
      pose proof (child_inj _ _ _ Hc Hpc). subst p. by simplify_eq.
Qed.

(** What a queue holds, and its invariant. *)
Definition items (q : PriorityQueue) : list PAIR := take q.(size) q.(pairs).
Definition inv (q : PriorityQueue) : Prop := length q.(pairs) = q.(count) /\ (q.(size) <= q.(count))%nat /\ heap_from (items q).

Lemma push_ok q val : inv q -> (q.(size) < q.(count))%nat -> exists q', push q val = Ok q' /\ inv q' /\ q'.(count) = q.(count) /\ q'.(size) = S q.(size) /\ items q' ≡ₚ val :: items q.
Proof.
  intros (H1 & H2 & H3) Hs. unfold push. replace (length (pairs q) <=? size q)%nat with false by (symmetry; apply Nat.leb_gt; lia).
  assert (Hli : length (items q) = size q) by (unfold items; rewrite length_take; lia).
  assert (E : <[size q := val]> (pairs q) = (items q ++ [val]) ++ drop (S (size q)) (pairs q)).
  { rewrite insert_take_drop by lia. unfold items. by rewrite <-(assoc_L (++)). }
  rewrite E. destruct (up_loop_ok (S (size q)) (items q ++ [val]) (drop (S (size q)) (pairs q)) (size q)) as (r & -> & Hr & Hh); [|rewrite length_app; cbn; lia|lia|].
  - split; intros p c a b Hpc.
    + intros Hc Ha Hb. assert (c < length (items q))%nat by (apply lookup_lt_Some in Hb; rewrite length_app in Hb; cbn in Hb; lia).
      rewrite lookup_app_l in Hb by done. rewrite lookup_app_l in Ha by (unfold child in Hpc; lia). apply not_before. eapply (H3 p c); [lia|done..].
    + intros Hc _ Hb. apply lookup_lt_Some in Hb. rewrite length_app in Hb. cbn in Hb. unfold child in Hc. lia.
  - cbn [obind]. assert (Hlr : length r = S (size q)) by (rewrite Hr, length_app; cbn; lia). eexists. split; [done|]. unfold inv, items. cbn [pairs size count].
    rewrite <-Hlr, take_app_length. split_and!; [rewrite length_app, length_drop; lia|lia|done|done|lia|]. rewrite Hr. by rewrite <-Permutation_cons_append.
Qed.
Lemma DeQueue_ok q top h : Z.of_nat q.(count) <= 2 ^ 30 -> inv q -> items q = top :: h -> exists q', DeQueue q = Ok (true, q') /\ inv q' /\ q'.(count) = q.(count) /\ S q'.(size) = q.(size) /\ items q' ≡ₚ h.
Proof.
  intros Hsm (H1 & H2 & H3) Hq. assert (Hli : length (items q) = size q) by (unfold items; rewrite length_take; lia). rewrite Hq in Hli. cbn in Hli.
  unfold DeQueue. destruct (size q) as [|n] eqn:Es; [lia|]. assert (n = length h) as -> by lia.
  assert (Ep : pairs q = top :: h ++ drop (S (length h)) (pairs q)) by (rewrite <-(take_drop (S (length h)) (pairs q)) at 1; unfold items in Hq; rewrite Es in Hq; by rewrite Hq).
  set (tail := drop (S (length h)) (pairs q)) in *. unfold pair_at. rewrite Ep. destruct h as [|l h _] using rev_ind.
  - cbn [length app lookup list_lookup obind insert list_insert Nat.eqb]. eexists. split; [done|]. unfold inv, items. cbn [pairs size count take]. split_and!; [rewrite <-H1, Ep; done|lia| |done..].
    intros i c x y _ _ Hx. by rewrite lookup_nil in Hx.
  - assert (El : (top :: (h ++ [l]) ++ tail) !! length (h ++ [l]) = Some l).
    { replace (length (h ++ [l])) with (S (length h)) by (rewrite length_app; cbn; lia). cbn. rewrite <-(assoc_L (++)). by apply list_lookup_middle. }
    rewrite El. cbn [obind insert list_insert]. replace (length (h ++ [l]) =? 0)%nat with false by (rewrite length_app, Nat.add_comm; done).
    destruct (MinHeapIfy_ok (S (length (h ++ [l]))) (l :: h) (l :: tail) 0) as (r & Er & Hr & Hh); [rewrite length_app in *; cbn [length] in *; lia| |cbn; lia|rewrite length_app; cbn; lia|].
    { split; [|intros p c x y _ Hp; unfold child in Hp; lia]. intros i c x y _ Hi Hic Hx Hy. rewrite Hq in H3. apply (H3 i c x y); [lia|done|..].
      - destruct i as [|i]; [done|]. exact (lookup_app_l_Some h [l] i x Hx).
      - destruct c as [|c]; [unfold child in Hic; lia|]. exact (lookup_app_l_Some h [l] c y Hy). }
    replace (l :: (h ++ [l]) ++ tail) with ((l :: h) ++ l :: tail) by (by rewrite <-(assoc_L (++))). replace (length (l :: h)) with (length (h ++ [l])) in Er by (rewrite length_app; cbn; lia).
    rewrite Er. cbn [obind]. assert (Hlr : length r = length (h ++ [l])) by (rewrite Hr, length_app; cbn; lia).
    eexists. split; [done|]. unfold inv, items. cbn [pairs size count]. rewrite <-Hlr, take_app_length. split_and!; [rewrite <-H1, Ep, length_app; cbn; rewrite !length_app in *; cbn in *; lia|lia|done|done|done|].
    rewrite Hr. apply Permutation_cons_append.
Qed.

Lemma EnQueue_ok q val seen : inv q -> 0 < Z.of_nat q.(count) <= 2 ^ 30 -> best CmpByValue (items q) seen -> q.(size) = (q.(count) `min` length seen)%nat ->
  exists q', EnQueue q val = Ok (true, q') /\ inv q' /\ q'.(count) = q.(count) /\ best CmpByValue (items q') (seen ++ [val]) /\ q'.(size) = (q'.(count) `min` length (seen ++ [val]))%nat.
Proof.
  intros Hi Hc Hb Hs. pose proof Hi as (H1 & H2 & H3). unfold EnQueue. rewrite length_app. cbn [length]. destruct (Nat.leb_spec (count q) (size q)) as [Hf|Hf].
  - assert (Hli : length (items q) = size q) by (unfold items; rewrite length_take; lia). destruct (items q) as [|top h] eqn:Eq; [cbn in Hli; lia|].
    assert (Et : pair_at (pairs q) 0 = Ok top). { unfold pair_at. replace (pairs q) with (items q ++ drop (size q) (pairs q)) by apply take_drop. by rewrite Eq. }
    rewrite Et. cbn [obind]. pose proof (heap_top CmpByValue _ top H3 eq_refl) as Ht. apply Forall_cons in Ht as [_ Ht]. rewrite Forall_forall in Ht. destruct (Z.leb_spec val.1 top.1).
    + exists q. split_and!; [done..| |lia]. rewrite Eq. apply (best_skip CmpByValue _ _ _ top Hb); [|by apply not_before]. intros x [->|Hx]%elem_of_cons; [by apply (wo_irr CmpByValue)|by apply Ht].
    + destruct (DeQueue_ok q top h ltac:(lia) Hi Eq) as (q1 & -> & Hi1 & Hc1 & Hs1 & Hq1). cbn [obind snd]. destruct (push_ok q1 val Hi1) as (q2 & -> & Hi2 & Hc2 & Hs2 & Hq2); [lia|]. cbn [obind].
      exists q2. split_and!; [done|done|lia| |lia]. apply (best_swap CmpByValue h seen val top); [done|done|apply not_before; lia|by rewrite Hq2, Hq1].
  - destruct (push_ok q val Hi Hf) as (q2 & -> & Hi2 & Hc2 & Hs2 & Hq2). cbn [obind]. exists q2. split_and!; [done|done|lia| |lia].
    destruct Hb as (rest & Hp & _). assert (rest = []) as ->.
    { apply Permutation_length in Hp. rewrite length_app in Hp. unfold items in Hp. rewrite length_take in Hp. destruct rest; [done|cbn in Hp; lia]. }
    exists []. rewrite app_nil_r in Hp |- *. split; [by rewrite Hq2, Hp, Permutation_cons_append|]. by intros ? ? ? ?%not_elem_of_nil.
Qed.

(** ** The tree *)

(** The frequency a tree has for a word, and the words below a node in the order of
    [DFS]. *)
Fixpoint freq_of (t : NodeTree) (word : list Z) : option Z :=
  match t, word with
  | Leaf, _ | _, [] => None
  | Node w c f l m r, ch :: rest =>
    if ch <? w then freq_of l word else if w <? ch then freq_of r word
    else match rest with [] => if c then Some f else None | _ => freq_of m rest end
  end.
Fixpoint words (prefix : list Z) (t : NodeTree) : list PAIR :=
  match t with
  | Leaf => []
  | Node w c f l m r => (if c then [(f, prefix ++ [w])] else []) ++ words prefix l ++ words (prefix ++ [w]) m ++ words prefix r
  end.
(** The first characters of the words of a tree, and its order. *)
Fixpoint spine (t : NodeTree) : list Z := match t with Leaf => [] | Node w _ _ l _ r => w :: spine l ++ spine r end.
Fixpoint ordered (t : NodeTree) : Prop :=
  match t with
  | Leaf => True
  | Node w _ _ l m r => Forall (fun x => x < w) (spine l) /\ Forall (fun x => w < x) (spine r) /\ ordered l /\ ordered m /\ ordered r
  end.

Lemma freq_of_nil t : freq_of t [] = None.
Proof. by destruct t. Qed.
Lemma freq_spine t ch w f : freq_of t (ch :: w) = Some f -> ch ∈ spine t.
Proof.
  induction t as [|w' c f' l IHl m _ r IHr]; [done|]. cbn [freq_of spine]. destruct (Z.ltb_spec ch w'); [intros ?; set_solver|]. destruct (Z.ltb_spec w' ch); [intros ?; set_solver|].
  assert (ch = w') as -> by lia. set_solver.
Qed.
Lemma freq_insert word f : forall t w, word <> [] -> freq_of (insert_from word f t) w = if decide (w = word) then Some f else freq_of t w.
Proof.
  induction word as [|ch rest IH]; [done|]. intros t w _. destruct w as [|x w]; [rewrite !freq_of_nil; by case_decide|].
  induction t as [|w' c f' l IHl m _ r IHr].
  - cbn [insert_from]. destruct rest as [|ch' rest]; cbn [freq_of]; destruct (Z.ltb_spec x ch); try (rewrite decide_False by (intros [=]; lia); done); destruct (Z.ltb_spec ch x); try (rewrite decide_False by (intros [=]; lia); done).
    + assert (x = ch) as -> by lia. destruct w; [by rewrite decide_True|by rewrite decide_False].
    + assert (x = ch) as -> by lia. destruct w as [|y w]; [by rewrite decide_False|]. rewrite IH by done. destruct (decide (y :: w = ch' :: rest)) as [E|E]; [rewrite decide_True by congruence|rewrite decide_False by congruence]; done.
  - cbn [insert_from]. destruct (Z.ltb_spec ch w'); [|destruct (Z.ltb_spec w' ch)].
    + cbn [freq_of]. destruct (Z.ltb_spec x w'); [exact IHl|]. rewrite decide_False by (intros [=]; lia). done.
    + cbn [freq_of]. destruct (Z.ltb_spec x w'); [rewrite decide_False by (intros [=]; lia); done|]. destruct (Z.ltb_spec w' x); [exact IHr|]. rewrite decide_False by (intros [=]; lia). done.
    + assert (ch = w') as -> by lia. destruct rest as [|ch' rest]; cbn [freq_of]; destruct (Z.ltb_spec x w'); try (rewrite decide_False by (intros [=]; lia); done); destruct (Z.ltb_spec w' x); try (rewrite decide_False by (intros [=]; lia); done); assert (x = w') as -> by lia.
      * destruct w; [by rewrite decide_True|by rewrite decide_False].
      * destruct w as [|y w]; [by rewrite decide_False|]. rewrite IH by done. destruct (decide (y :: w = ch' :: rest)); [rewrite decide_True by congruence|rewrite decide_False by congruence]; done.
Qed.
Lemma spine_insert ch rest f t x : x ∈ spine (insert_from (ch :: rest) f t) <-> x = ch \/ x ∈ spine t.
Proof.
  induction t as [|w' c f' l IHl m _ r IHr]; [destruct rest; cbn; set_solver|]. cbn [insert_from]. destruct (Z.ltb_spec ch w'); [|destruct (Z.ltb_spec w' ch)].
  - cbn [spine]. rewrite !elem_of_cons, !elem_of_app. cbn [insert_from] in IHl. rewrite IHl. tauto.
  - cbn [spine]. rewrite !elem_of_cons, !elem_of_app. cbn [insert_from] in IHr. rewrite IHr. tauto.
  - assert (ch = w') as -> by lia. destruct rest; cbn [spine]; rewrite !elem_of_cons; tauto.
Qed.
Lemma ordered_insert word f : forall t, ordered t -> ordered (insert_from word f t).
Proof.
  induction word as [|ch rest IH]; [done|]. induction t as [|w' c f' l IHl m _ r IHr].
  - intros _. cbn [insert_from]. destruct rest; cbn [ordered spine]; split_and!; try constructor. by apply (IH Leaf).
  - intros (H1 & H2 & H3 & H4 & H5). cbn [insert_from]. destruct (Z.ltb_spec ch w'); [|destruct (Z.ltb_spec w' ch)].
    + cbn [ordered]. split_and!; try done; [|by apply IHl]. rewrite list.Forall_forall in H1 |- *. intros x [->|Hx]%(spine_insert ch rest f l x); [done|by apply H1].
    + cbn [ordered]. split_and!; try done; [|by apply IHr]. rewrite list.Forall_forall in H2 |- *. intros x [->|Hx]%(spine_insert ch rest f r x); [done|by apply H2].
    + destruct rest; cbn [ordered]; split_and!; try done. by apply IH.
Qed.

Lemma words_freq t : ordered t -> forall p f x, (f, x) ∈ words p t <-> exists w, x = p ++ w /\ freq_of t w = Some f.
Proof.
  induction t as [|w' c f' l IHl m IHm r IHr]; [intros _ p f x; split; [by intros ?%not_elem_of_nil|by intros (w & _ & ?)]|].
  intros (H1 & H2 & H3 & H4 & H5) p f x. cbn [words]. rewrite !elem_of_app, IHl, IHm, IHr by done. rewrite Forall_forall in H1, H2. split.
  - intros [H|[(w & -> & Hw)|[(w & -> & Hw)|(w & -> & Hw)]]].
    + destruct c; [|by apply not_elem_of_nil in H]. apply list_elem_of_singleton in H as [= -> ->]. exists [w']. split; [done|]. cbn. by rewrite Z.ltb_irrefl.
    + destruct w as [|ch w]; [by rewrite freq_of_nil in Hw|]. exists (ch :: w). split; [done|]. pose proof (H1 _ (freq_spine _ _ _ _ Hw)). cbn. by replace (ch <? w') with true by lia.
    + destruct w as [|ch w]; [by rewrite freq_of_nil in Hw|]. exists (w' :: ch :: w). split; [by rewrite <-(assoc_L (++))|]. cbn [freq_of]. by rewrite Z.ltb_irrefl.
    + destruct w as [|ch w]; [by rewrite freq_of_nil in Hw|]. exists (ch :: w). split; [done|]. pose proof (H2 _ (freq_spine _ _ _ _ Hw)). cbn. replace (ch <? w') with false by lia. by replace (w' <? ch) with true by lia.
  - intros (w & -> & Hw). destruct w as [|ch w]; [done|]. cbn [freq_of] in Hw. destruct (Z.ltb_spec ch w'); [right; left; by exists (ch :: w)|]. destruct (Z.ltb_spec w' ch); [right; right; right; by exists (ch :: w)|].
    assert (ch = w') as -> by lia. destruct w as [|y w]; [left; destruct c; simplify_eq; apply list_elem_of_singleton; done|right; right; left; exists (y :: w); by rewrite <-(assoc_L (++))].
Qed.
(** What is left of a word below a node after the prefix starts in its spine. *)
Lemma words_first t p f x : ordered t -> (f, x) ∈ words p t -> exists ch w, x = p ++ ch :: w /\ ch ∈ spine t.
Proof.
  intros Ht Hx. apply (words_freq t Ht) in Hx as (w & -> & Hw). destruct w as [|ch w]; [by rewrite freq_of_nil in Hw|]. exists ch, w. split; [done|]. by eapply freq_spine.
Qed.
Lemma words_nodup t : ordered t -> forall p, NoDup (words p t).
Proof.
  induction t as [|w' c f' l IHl m IHm r IHr]; [constructor|]. intros (H1 & H2 & H3 & H4 & H5) p. rewrite Forall_forall in H1, H2.
  assert (Hl : forall f x, (f, x) ∈ words p l -> exists ch w, x = p ++ ch :: w /\ ch < w').
  { intros f x Hx. destruct (words_first _ _ _ _ H3 Hx) as (ch & w & -> & Hc). exists ch, w. split; [done|by apply H1]. }
  assert (Hr : forall f x, (f, x) ∈ words p r -> exists ch w, x = p ++ ch :: w /\ w' < ch).
  { intros f x Hx. destruct (words_first _ _ _ _ H5 Hx) as (ch & w & -> & Hc). exists ch, w. split; [done|by apply H2]. }
  assert (Hm : forall f x, (f, x) ∈ words (p ++ [w']) m -> exists ch w, x = p ++ w' :: ch :: w).
  { intros f x Hx. destruct (words_first _ _ _ _ H4 Hx) as (ch & w & -> & Hc). exists ch, w. by rewrite <-(assoc_L (++)). }
  cbn [words]. rewrite !NoDup_app. split_and!; [destruct c; [apply NoDup_singleton|constructor]| |by apply IHl| |by apply IHm| |by apply IHr].
  - intros [f x] Hx. destruct c; [|by apply not_elem_of_nil in Hx]. apply list_elem_of_singleton in Hx as [= -> ->]. rewrite !elem_of_app.
    intros [(ch & w & E%app_inv_head & ?)%Hl|[(ch & w & E%app_inv_head)%Hm|(ch & w & E%app_inv_head & ?)%Hr]]; simplify_eq; lia.
  - intros [f x] (ch & w & -> & ?)%Hl. rewrite elem_of_app. intros [(ch' & w2 & E%app_inv_head)%Hm|(ch' & w2 & E%app_inv_head & ?)%Hr]; simplify_eq; lia.
  - intros [f x] (ch & w & ->)%Hm (ch' & w2 & E%app_inv_head & ?)%Hr. simplify_eq; lia.
Qed.

(** ** Finding *)

(** The tree below the last character of a word. *)
Fixpoint below (t : NodeTree) (rest : list Z) : NodeTree :=
  match t, rest with
  | Leaf, _ | _, [] => Leaf
  | Node w c f l m r, ch :: rest' =>
    if ch <? w then below l rest else if w <? ch then below r rest else match rest' with [] => m | _ => below m rest' end
  end.
Lemma below_freq t rest w : w <> [] -> rest <> [] -> freq_of (below t rest) w = freq_of t (rest ++ w).
Proof.
  intros Hw. revert rest. induction t as [|w' c f l IHl m IHm r IHr]; intros rest Hr; [by destruct rest|]. destruct rest as [|ch rest]; [done|]. cbn [below freq_of app].
  destruct (ch <? w'); [by apply (IHl (ch :: rest))|]. destruct (w' <? ch); [by apply (IHr (ch :: rest))|]. destruct rest as [|ch' rest]; [by destruct w|]. by apply (IHm (ch' :: rest)).
Qed.
Lemma below_ordered t rest : ordered t -> ordered (below t rest).
Proof.
  revert rest. induction t as [|w' c f l IHl m IHm r IHr]; intros rest; [by destruct rest|]. intros (H1 & H2 & H3 & H4 & H5). destruct rest as [|ch rest]; [done|]. cbn [below].
  destruct (ch <? w'); [by apply IHl|]. destruct (w' <? ch); [by apply IHr|]. destruct rest; [done|by apply IHm].
Qed.

(** A queue of [n] places that has seen [seen]. *)
Definition holds (n : nat) (seen : list PAIR) (q : PriorityQueue) : Prop :=
  inv q /\ q.(count) = n /\ best CmpByValue (items q) seen /\ q.(size) = (n `min` length seen)%nat.
Lemma holds_enqueue n seen q val : 0 < Z.of_nat n <= 2 ^ 30 -> holds n seen q -> exists q', EnQueue q val = Ok (true, q') /\ holds n (seen ++ [val]) q'.
Proof.
  intros Hn (Hi & Hc & Hb & Hs). rewrite <-Hc in Hs. destruct (EnQueue_ok q val seen Hi) as (q' & E & Hi' & Hc' & Hb' & Hs'); [lia|done|done|]. exists q'. split; [done|]. split_and!; [done|congruence|done|congruence].
Qed.
Lemma holds_find n t rest : 0 < Z.of_nat n <= 2 ^ 30 -> forall word seen q, rest <> [] -> holds n seen q ->
  exists q', find_loop word rest t q = Ok (below t rest, q') /\ holds n (seen ++ match freq_of t rest with Some f => [(f, word)] | None => [] end) q'.
Proof.
  intros Hn. revert rest. induction t as [|w' c f l IHl m IHm r IHr]; intros rest word seen q Hr Hq; [exists q; destruct rest; cbn; by rewrite app_nil_r|].
  destruct rest as [|ch rest]; [done|]. cbn [find_loop below freq_of]. destruct (ch <? w'); [by apply IHl|]. destruct (w' <? ch); [by apply IHr|].
  destruct rest as [|ch' rest]; [|by apply IHm]. destruct c; [|exists q; by rewrite app_nil_r]. destruct (holds_enqueue n seen q (f, word) Hn Hq) as (q' & -> & Hq'). by exists q'.
Qed.
Lemma holds_dfs n t : 0 < Z.of_nat n <= 2 ^ 30 -> forall p seen q, holds n seen q -> exists q', DFS p t q = Ok q' /\ holds n (seen ++ words p t) q'.
Proof.
  intros Hn. induction t as [|w' c f l IHl m IHm r IHr]; intros p seen q Hq; [exists q; by rewrite app_nil_r|]. cbn [DFS words].
  assert (H : exists q', (if c then let! e := EnQueue q (f, p ++ [w']) in Ok e.2 else Ok q) = Ok q' /\ holds n (seen ++ if c then [(f, p ++ [w'])] else []) q').
  { destruct c; [|exists q; by rewrite app_nil_r]. destruct (holds_enqueue n seen q (f, p ++ [w']) Hn Hq) as (q' & -> & Hq'). by exists q'. }
  destruct H as (q1 & -> & H1). cbn [obind]. destruct (IHl p _ _ H1) as (q2 & -> & H2). cbn [obind]. destruct (IHm (p ++ [w']) _ _ H2) as (q3 & -> & H3). cbn [obind].
  destruct (IHr p _ _ H3) as (q4 & -> & H4). exists q4. split; [done|]. by rewrite !(assoc_L (++)).
Qed.

(** ** Suggestions *)

(** A dictionary, as the words are inserted one after the other. *)
Definition dict (ws : list (list Z * Z)) : gmap (list Z) Z := fold_left (fun d p => match p.1 with [] => d | w => <[w := p.2]> d end) ws ∅.
Definition tree (ws : list (list Z * Z)) : NodeTree := fold_left (fun t p => Insert p.1 p.2 t) ws Leaf.
Definition matches (ws : list (list Z * Z)) (word : list Z) : list PAIR :=
  (fun p => (p.2, p.1)) <$> map_to_list (filter (fun p => word `prefix_of` p.1) (dict ws)).
Lemma tree_dict ws : ordered (tree ws) /\ forall w, freq_of (tree ws) w = dict ws !! w.
Proof.
  unfold tree, dict. assert (H : ordered Leaf /\ forall w, freq_of Leaf w = (∅ : gmap (list Z) Z) !! w) by done. revert H. generalize Leaf (∅ : gmap (list Z) Z).
  assert (Hn : forall (d : gmap (list Z) Z) t, (forall w, freq_of t w = d !! w) -> d !! [] = None) by (intros d t <-; apply freq_of_nil).
  induction ws as [|[w f] ws IH]; intros t d [Ht Hd]; [done|]. cbn [fold_left]. apply IH. destruct w as [|ch w]; [done|]. split; [by apply ordered_insert|].
  intros w'. unfold Insert. rewrite freq_insert by done. rewrite Hd. cbn [fst snd]. case_decide as E; [by rewrite E, lookup_insert_eq|by rewrite lookup_insert_ne].
Qed.
Lemma words_matches ws word : word <> [] ->
  match freq_of (tree ws) word with Some f => [(f, word)] | None => [] end ++ words word (below (tree ws) word) ≡ₚ matches ws word.
Proof.
  intros Hw. destruct (tree_dict ws) as [Ho Hd]. pose proof (below_ordered _ word Ho) as Hb.
  assert (Hnil : dict ws !! [] = None) by (rewrite <-Hd; apply freq_of_nil).
  assert (Hin : forall f x, (f, x) ∈ words word (below (tree ws) word) <-> exists w, w <> [] /\ x = word ++ w /\ dict ws !! x = Some f).
  { intros f x. rewrite (words_freq _ Hb). split.
    - intros (w & -> & E). assert (w <> []) by (intros ->; by rewrite freq_of_nil in E). exists w. rewrite below_freq, Hd in E by done. done.
    - intros (w & Hn & -> & E). exists w. split; [done|]. by rewrite below_freq, Hd. }
  apply NoDup_Permutation.
  - apply NoDup_app. split; [destruct (freq_of _ _); [apply NoDup_singleton|constructor]|]. split; [|by apply words_nodup].
    intros [f x] H1 (w & Hn & -> & _)%Hin. destruct (freq_of _ _); [|by apply not_elem_of_nil in H1]. apply list_elem_of_singleton in H1 as [= _ E]. rewrite <-(app_nil_r word) in E at 2. by apply app_inv_head in E.
  - apply NoDup_fmap_2; [by intros [? ?] [? ?] [= -> ->]|]. apply NoDup_map_to_list.
  - intros [f x]. rewrite elem_of_app, Hin, Hd. unfold matches. rewrite list_elem_of_fmap. split.
    + intros [H|(w & _ & -> & E)].
      * destruct (dict ws !! word) eqn:E; [|by apply not_elem_of_nil in H]. apply list_elem_of_singleton in H as [= -> ->]. exists (word, z). split; [done|]. apply elem_of_map_to_list, map_lookup_filter_Some. done.
      * exists (word ++ w, f). split; [done|]. apply elem_of_map_to_list, map_lookup_filter_Some. split; [done|]. by exists w.
    + intros ([x' f'] & [= -> ->] & H). apply elem_of_map_to_list, map_lookup_filter_Some in H as [E [w Hp]]. cbn in Hp. subst x'. destruct w as [|y w].
      * left. rewrite app_nil_r in E |- *. rewrite E. by apply list_elem_of_singleton.
      * right. by exists (y :: w).
Qed.

(** C25: Suggestions are the most frequent words of the dictionary that begin with the text,
    in the order of their frequency, as many as were asked for or as there are: the last
    frequency given for a word counts, the text itself is among them if it is a word, and
    no word left out is more frequent than one answered. At most 2^30 are asked for, so
    that the places in the queue are [int]s. *)
Theorem suggest_exact ws word suggest_cnt : word <> [] -> 0 < suggest_cnt <= 2 ^ 30 -> exists chosen rest,
  suggest (tree ws) word suggest_cnt = Ok chosen.*2 /\ chosen ++ rest ≡ₚ matches ws word /\
  length chosen = (Z.to_nat suggest_cnt `min` length (matches ws word))%nat /\
  StronglySorted (fun x y => y.1 <= x.1) chosen /\ forall x y, x ∈ chosen -> y ∈ rest -> y.1 <= x.1.
Proof.
  intros Hw Hc. set (n := Z.to_nat suggest_cnt). assert (Hn : 0 < Z.of_nat n <= 2 ^ 30) by lia. unfold suggest, PriorityQueue_new. replace (suggest_cnt <? 0) with false by lia. cbn [obind]. fold n.
  assert (H0 : holds n [] (mkQueue (List.repeat (0, []) n) 0 n)).
  { split; [|split; [done|split; [|cbn; lia]]].
    - split_and!; [apply repeat_length|cbn; lia|]. intros i c a b _ _ Ha. done.
    - exists []. split; [done|]. by intros ? ? ? ?%not_elem_of_nil. }
  unfold FindSimliar, Find. destruct (holds_find n (tree ws) word Hn word [] _ Hw H0) as (q1 & -> & H1). cbn [obind fst snd]. cbn [app] in H1.
  assert (H2 : exists b q2, (match below (tree ws) word with Leaf => Ok (false, q1) | Node w c f l m r => let! q := DFS word (Node w c f l m r) q1 in Ok (true, q) end) = Ok (b, q2) /\
    holds n (match freq_of (tree ws) word with Some f => [(f, word)] | None => [] end ++ words word (below (tree ws) word)) q2).
  { destruct (holds_dfs n (below (tree ws) word) Hn word _ _ H1) as (q2 & E & H2). destruct (below (tree ws) word); [exists false, q1; by rewrite app_nil_r|]. rewrite E. by exists true, q2. }
  destruct H2 as (b & q2 & E & (Hi & Hq & _) & Hcnt & (rest & Hp & Hb) & Hs).
  rewrite E. cbn [obind snd]. rewrite words_matches in Hp by done. apply Permutation_length in Hp as Hlen. rewrite <-(Permutation_length (words_matches ws word Hw)), <-Hs.
  assert (Hlq : length (items q2) = size q2) by (unfold items; rewrite length_take; lia).
  exists (std_sort CmpByValue (items q2)), rest. split_and!.
  - unfold GetElements. fold (items q2). destruct (size q2) eqn:Es; [|done]. by destruct (items q2).
  - by rewrite (std_sort_perm CmpByValue).
  - by rewrite (std_sort_perm CmpByValue).
  - eapply sorted_impl, (std_sort_sorted CmpByValue). intros x y H%not_before. done.
  - intros x y Hx Hy. rewrite (std_sort_perm CmpByValue) in Hx. by apply not_before, Hb.
Qed.

Lemma DFS_no_room t : forall p, DFS p t (mkQueue [] 0 0) = match words p t with [] => Ok (mkQueue [] 0 0) | _ => Fault end.
Proof.
  induction t as [|w' c f l IHl m IHm r IHr]; intros p; [done|]. cbn [DFS words]. destruct c; [done|]. cbn [obind]. rewrite IHl.
  destruct (words p l); [|done]. cbn [obind]. rewrite IHm. destruct (words (p ++ [w']) m); [|done]. cbn [obind]. by rewrite IHr.
Qed.
Lemma find_no_room t word rest : rest <> [] -> find_loop word rest t (mkQueue [] 0 0) = match freq_of t rest with Some _ => Fault | None => Ok (below t rest, mkQueue [] 0 0) end.
Proof.
  revert rest. induction t as [|w' c f l IHl m IHm r IHr]; intros rest Hr; [by destruct rest|]. destruct rest as [|ch rest]; [done|]. cbn [find_loop freq_of below].
  destruct (ch <? w'); [by apply IHl|]. destruct (w' <? ch); [by apply IHr|]. destruct rest as [|ch' rest]; [by destruct c|by apply IHm].
Qed.

(** A request for no suggestions, or for less, ends outside the meaning of the language
    as soon as there is one: the first word to enter looks at the top of a vector without
    entries, and a negative number is no size of a vector. *)
Theorem suggest_zero ws word suggest_cnt : word <> [] -> suggest_cnt <= 0 -> suggest_cnt < 0 \/ matches ws word <> [] ->
  suggest (tree ws) word suggest_cnt = Fault.
Proof.
  intros Hw Hc Hm. unfold suggest, PriorityQueue_new. destruct (Z.ltb_spec suggest_cnt 0); [done|]. assert (suggest_cnt = 0) as -> by lia. destruct Hm as [Hm|Hm]; [lia|].
  pose proof (words_matches ws word Hw) as Hp. cbn [obind Z.to_nat List.repeat]. unfold FindSimliar, Find. rewrite find_no_room by done. destruct (freq_of (tree ws) word) as [f|]; [done|].
  cbn [obind fst snd]. cbn [app] in Hp. destruct (below (tree ws) word) as [|w c f l m r] eqn:Eb; [by apply Permutation_nil_l in Hp|].
  rewrite DFS_no_room. destruct (words word (Node w c f l m r)); [by apply Permutation_nil_l in Hp|done].
Qed.

(** ** Witnesses *)

(** The words cat (5), car (7), cart (2), dog (9), and car again (1). *)
Definition sample_words : list (list Z * Z) := [([99; 97; 116], 5); ([99; 97; 114], 7); ([99; 97; 114; 116], 2); ([100; 111; 103], 9); ([99; 97; 114], 1)].
Lemma suggest_exact_witness : suggest (tree sample_words) [99; 97] 2 = Ok [[99; 97; 116]; [99; 97; 114; 116]] /\
  exists chosen rest : list (Z * list Z), Ok chosen.*2 = Ok [[99; 97; 116]; [99; 97; 114; 116]] /\ chosen ++ rest ≡ₚ matches sample_words [99; 97].
Proof.
  assert (C : suggest (tree sample_words) [99; 97] 2 = Ok [[99; 97; 116]; [99; 97; 114; 116]]) by (vm_compute; reflexivity).
  split; [exact C|]. destruct (suggest_exact sample_words [99; 97] 2) as (chosen & rest & E & Hp & _); [discriminate|lia|].
  exists chosen, rest. split; [|exact Hp]. rewrite <-E. exact C.
Defined.
Lemma suggest_zero_witness : suggest (tree sample_words) [99; 97] 0 = Fault.
Proof. apply (suggest_zero sample_words [99; 97] 0); [discriminate|lia|right; vm_compute; discriminate]. Defined.
(** A word that no other continues is in the queue, and [FindSimliar] answers [false]. *)
Lemma whole_word : forall q, PriorityQueue_new 2 = Ok q -> match FindSimliar (tree sample_words) [100; 111; 103] q with Ok (b, q') => b = false /\ GetElements q' = [[100; 111; 103]] | _ => False end.
Proof. intros q [= <-]. vm_compute. done. Qed.
End SuggestSpec.
