(* ===== verification/Utf8.v ===== *)
(** UTF-8 strings as [comm/utf8_str.cc] takes them apart: a character is a byte that
    starts one, with the bytes after it that do not. *)
From Stdlib Require Import ZArith Lia.
From stdpp Require Import base list list_numbers numbers.
From S2P Require Import Prelude.
Local Open Scope Z_scope.

(** ** [iutf8string] *)

(** The test of [refresh]: a positive [char], or bit 6 set. *)
Definition starts (c : Z) : bool := (0 <? s8 c) || negb (Z.land (s8 c) 0x40 =? 0).
Fixpoint start_offsets (i : nat) (data : list Z) : list nat :=
  match data with
  | [] => []
  | c :: data => if starts c then i :: start_offsets (S i) data else start_offsets (S i) data
  end.
(** [(int)data.length()] as the bound of a loop: there is no round for a negative one. *)
Definition int_length (s : list Z) : nat := Z.to_nat (s32 (Z.of_nat (length s))).
Record iutf8string := mkUtf8 { data : list Z; offerset : list nat; length_ : nat }.
(** The last offset is the [int] of the length too; where that is negative there are no
    characters, and it stands as 0. *)
Definition refresh (s : list Z) : iutf8string :=
  let tmp := start_offsets 0 (take (int_length s) s) in mkUtf8 s (tmp ++ [int_length s]) (length tmp).
(** [std::string::substr] of a range inside the string. *)
Definition range (s : list Z) (from to : nat) : list Z := take (to - from) (drop from s).
Definition offset (s : iutf8string) (i : nat) : nat := nth i s.(offerset) 0%nat.
(** [operator []] and [get]. *)
Definition char_of (s : iutf8string) (index : nat) : list Z :=
  if (s.(length_) <=? index)%nat then [] else range s.(data) (offset s index) (offset s (S index)).
Definition substr (s : iutf8string) (start len : nat) : list Z :=
  if (s.(length_) <? start + len)%nat then [] else range s.(data) (offset s start) (offset s (start + len)).
Definition utf8substr (s : iutf8string) (start len : nat) : iutf8string := refresh (substr s start len).

(** ** [splitEx]

    [src.find(sep, pos)] for one character, and the pieces between; a piece of one blank
    is left out, and so is an empty last piece. The positions are [int]s: the model is for
    a [src] whose length one holds ([fits] below). *)
Fixpoint find_sep (sep : Z) (s : list Z) : option (list Z * list Z) :=
  match s with
  | [] => None
  | c :: s => if c =? sep then Some ([], s) else match find_sep sep s with Some (a, b) => Some (c :: a, b) | None => None end
  end.
Fixpoint splitEx (fuel : nat) (src : list Z) (sep : Z) : list (list Z) :=
  match fuel with
  | O => []
  | S fuel =>
    match find_sep sep src with
    | Some (a, rest) => (if bool_decide (a = [32]) then [] else [a]) ++ splitEx fuel rest sep
    | None => if bool_decide (src = []) || bool_decide (src = [32]) then [] else [src]
    end
  end.

(** ** Characters *)

Module Utf8Spec.
(** The bytes before the first character, and the characters. *)
Fixpoint split_chars (s : list Z) : list Z * list (list Z) :=
  match s with
  | [] => ([], [])
  | c :: s => let r := split_chars s in if starts c then ([], (c :: r.1) :: r.2) else (c :: r.1, r.2)
  end.
Definition lead (s : list Z) : list Z := (split_chars s).1.
Definition chars (s : list Z) : list (list Z) := (split_chars s).2.
(** One character: a byte that starts one, and bytes that do not. *)
Definition is_char (c : list Z) : Prop := match c with b :: k => starts b = true /\ Forall (fun b => starts b = false) k | [] => False end.

Lemma lead_chars s : lead s ++ concat (chars s) = s.
Proof.
  unfold lead, chars. induction s as [|c s IH]; [done|]. cbn [split_chars]. destruct (starts c); cbn; [by rewrite IH|]. by rewrite IH.
Qed.
Lemma lead_none s : Forall (fun b => starts b = false) (lead s).
Proof. unfold lead. induction s as [|c s IH]; [constructor|]. cbn [split_chars]. destruct (starts c) eqn:E; cbn; by constructor. Qed.
Lemma chars_ok s : Forall is_char (chars s).
Proof.
  unfold chars. induction s as [|c s IH]; [constructor|]. cbn [split_chars]. destruct (starts c) eqn:E; cbn; [|done]. constructor; [|done]. split; [done|apply lead_none].
Qed.
Lemma split_none k s : Forall (fun b => starts b = false) k -> split_chars (k ++ s) = (k ++ lead s, chars s).
Proof.
  unfold lead, chars. induction 1 as [|c k Hc Hk IH]; cbn [app split_chars]; [by destruct (split_chars s)|]. by rewrite Hc, IH.
Qed.
(** Characters are taken apart as they were put together. *)
Lemma split_concat cs : Forall is_char cs -> split_chars (concat cs) = ([], cs).
Proof.
  induction 1 as [|c cs Hc Hcs IH]; [done|]. destruct c as [|b k]; [done|]. destruct Hc as [Hb Hk]. cbn [concat]. rewrite <-app_comm_cons. cbn [split_chars].
  rewrite Hb, (split_none k _ Hk). unfold lead, chars. rewrite IH. cbn. by rewrite app_nil_r.
Qed.
Lemma chars_concat cs : Forall is_char cs -> chars (concat cs) = cs.
Proof. intros H. unfold chars. by rewrite split_concat. Qed.
Lemma is_char_nonempty c : is_char c -> (0 < length c)%nat.
Proof. destruct c; [done|]. cbn. lia. Qed.

(** The texts whose length an [int] holds. *)
Definition fits (s : list Z) : Prop := Z.of_nat (length s) < 2 ^ 31.
Lemma int_length_fits s : fits s -> int_length s = length s.
Proof. unfold fits, int_length. intros H. unfold s32. rewrite swrap_small; [lia|lia|]. unfold is_s. lia. Qed.
Lemma refresh_fits s : fits s -> refresh s = mkUtf8 s (start_offsets 0 s ++ [length s]) (length (start_offsets 0 s)).
Proof. intros H. unfold refresh. by rewrite (int_length_fits _ H), firstn_all. Qed.
Lemma fits_le s t : fits t -> (length s <= length t)%nat -> fits s.
Proof. unfold fits. lia. Qed.
Lemma length_concat_chars_le s i n : (length (concat (take n (drop i (chars s)))) <= length s)%nat.
Proof.
  pose proof (f_equal length (lead_chars s)) as E. revert E. rewrite <-(take_drop i (chars s)) at 1. rewrite <-(take_drop n (drop i (chars s))) at 1.
  rewrite !concat_app, !length_app. lia.
Qed.
Lemma fits_sub s i n : fits s -> fits (concat (take n (drop i (chars s)))).
Proof. intros H. apply (fits_le _ _ H), length_concat_chars_le. Qed.

(** The offsets are where the characters start. *)
Lemma offsets_chars s : forall i, start_offsets i s = imap (fun k _ => (i + length (lead s) + length (concat (take k (chars s))))%nat) (chars s).
Proof.
  unfold lead, chars. induction s as [|c s IH]; intros i; [done|]. cbn [start_offsets split_chars]. rewrite (IH (S i)). destruct (starts c); cbn [fst snd].
  - cbn [imap]. f_equal; [cbn; lia|]. apply imap_ext. intros k x _. cbn [compose take concat length]. rewrite length_app. cbn [length]. lia.
  - apply imap_ext. intros k x _. cbn [length]. lia.
Qed.
Lemma length_chars s : fits s -> length_ (refresh s) = length (chars s).
Proof. intros H. rewrite (refresh_fits _ H). cbn [length_]. by rewrite offsets_chars, length_imap. Qed.
Lemma offset_chars s i : fits s -> (i <= length (chars s))%nat -> offset (refresh s) i = (length (lead s) + length (concat (take i (chars s))))%nat.
Proof.
  intros Hs Hi. unfold offset. rewrite (refresh_fits _ Hs). cbn [offerset]. rewrite offsets_chars. destruct (decide (i = length (chars s))) as [->|Hne].
  - rewrite app_nth2, length_imap, Nat.sub_diag by (rewrite length_imap; lia). cbn [nth]. rewrite firstn_all, <-length_app. by rewrite lead_chars.
  - rewrite app_nth1 by (rewrite length_imap; lia). apply nth_lookup_Some. rewrite list_lookup_imap. destruct (lookup_lt_is_Some_2 (chars s) i) as [x ->]; [lia|]. cbn. f_equal.
Qed.
Lemma substr_chars s i n : fits s -> (i + n <= length (chars s))%nat -> substr (refresh s) i n = concat (take n (drop i (chars s))).
Proof.
  intros Hs H. unfold substr. rewrite (length_chars _ Hs). replace (length (chars s) <? i + n)%nat with false by (symmetry; apply Nat.ltb_ge; lia).
  rewrite !offset_chars by (done || lia). unfold range, refresh. cbn [data]. clear Hs.
  assert (E : s = lead s ++ concat (take i (chars s)) ++ concat (take n (drop i (chars s))) ++ concat (drop (i + n) (chars s))).
  { rewrite (assoc_L (++) (concat (take i _))), <-!concat_app, take_take_drop, take_drop. by rewrite lead_chars. }
  assert (El : concat (take (i + n) (chars s)) = concat (take i (chars s)) ++ concat (take n (drop i (chars s)))) by (by rewrite <-concat_app, take_take_drop).
  rewrite El, length_app. clear El H. set (u := concat (take n _)) in *. set (v := concat (take i _)) in *. set (w := concat (drop _ _)) in *. set (l := lead s) in *.
  clearbody u v w l. rewrite E, (assoc_L (++)), drop_app_length' by (by rewrite length_app). apply take_app_length'. lia.
Qed.
Lemma char_of_chars s i c : fits s -> chars s !! i = Some c -> char_of (refresh s) i = c.
Proof.
  intros Hs Hi. pose proof (lookup_lt_Some _ _ _ Hi) as Hl. unfold char_of. rewrite (length_chars _ Hs). replace (length (chars s) <=? i)%nat with false by (symmetry; apply Nat.leb_gt; lia).
  pose proof (substr_chars s i 1 Hs ltac:(lia)) as H. unfold substr in H. rewrite (length_chars _ Hs) in H. replace (length (chars s) <? i + 1)%nat with false in H by (symmetry; apply Nat.ltb_ge; lia).
  rewrite Nat.add_1_r in H. rewrite H. rewrite (drop_S _ _ _ Hi). cbn. by rewrite app_nil_r.
Qed.
Lemma utf8substr_chars s i n : fits s -> (i + n <= length (chars s))%nat -> utf8substr (refresh s) i n = refresh (concat (take n (drop i (chars s)))).
Proof. intros Hs H. unfold utf8substr. by rewrite substr_chars. Qed.
Lemma chars_sub s i n : chars (concat (take n (drop i (chars s)))) = take n (drop i (chars s)).
Proof. apply chars_concat, Forall_take, Forall_drop, chars_ok. Qed.
End Utf8Spec.
