(* ===== verification/Segment.v ===== *)
(** Word segmentation of the search side ([comm/segment/]): what all segmenters share,
    and the forward, the backward, the bigram and the plug-in segmenter. *)
From Stdlib Require Import ZArith Lia SpecFloat.
From stdpp Require Import base list list_numbers numbers gmap sets.
From S2P Require Import Prelude Value Field Utf8.
Local Open Scope Z_scope.

(** ** The dictionary: [segment.cc] *)

Definition MAX_WORD_LEN : nat := 8.
Record WordInfo := mkWord { word_id : Z; word_freq : Z; word_appid : Z }.

(** [punct] and [en_punct], and [ALPHA_DIGIT], in the UTF-8 of the source. *)
Definition punct : list Z :=
  [239; 188; 140; 227; 128; 130; 239; 188; 129; 239; 188; 159; 227; 128; 129; 239; 188; 155; 239; 188; 154;
   226; 128; 156; 226; 128; 157; 226; 128; 152; 226; 128; 153; 239; 188; 136; 239; 188; 137; 227; 128; 138;
   227; 128; 139; 32].
Definition en_punct : list Z :=
  [44; 46; 33; 63; 47; 39; 34; 60; 62; 92; 58; 59; 10].
Definition ALPHA_DIGIT : list Z :=
  [48; 49; 50; 51; 52; 53; 54; 55; 56; 57; 239; 188; 145; 239; 188; 146; 239; 188; 147; 239; 188; 148; 239;
   188; 149; 239; 188; 150; 239; 188; 151; 239; 188; 152; 239; 188; 153; 239; 188; 144; 97; 98; 99; 100;
   101; 102; 103; 104; 105; 106; 107; 108; 109; 110; 111; 112; 113; 114; 115; 116; 117; 118; 119; 120; 121;
   122; 65; 66; 67; 68; 69; 70; 71; 72; 73; 74; 75; 76; 77; 78; 79; 80; 81; 82; 83; 84; 85; 86; 87; 88; 89;
   90; 239; 189; 129; 239; 189; 130; 239; 189; 131; 239; 189; 132; 239; 189; 133; 239; 189; 134; 239; 189;
   135; 239; 189; 136; 239; 189; 137; 239; 189; 135; 239; 189; 139; 239; 189; 140; 239; 189; 141; 239; 189;
   142; 239; 189; 143; 239; 189; 144; 239; 189; 145; 239; 189; 146; 239; 189; 147; 239; 189; 148; 239; 189;
   149; 239; 189; 150; 239; 189; 151; 239; 189; 152; 239; 189; 153; 239; 189; 154; 239; 188; 161; 239; 188;
   162; 239; 188; 163; 239; 188; 164; 239; 188; 165; 239; 188; 166; 239; 188; 167; 239; 188; 168; 239; 188;
   169; 239; 188; 170; 239; 188; 171; 239; 188; 172; 239; 188; 173; 239; 188; 174; 239; 188; 175; 239; 188;
   176; 239; 188; 177; 239; 188; 178; 239; 188; 179; 239; 188; 181; 239; 188; 182; 239; 188; 183; 239; 188;
   184; 239; 188; 185; 239; 188; 186].
(** The characters of a string, as [Init] enters them into its sets. *)
Definition char_set (s : list Z) : gset (list Z) := list_to_set (char_of (refresh s) <$> seq 0 (length_ (refresh s))).
Definition punct_set : gset (list Z) := Eval vm_compute in char_set (punct ++ en_punct).
Definition alpha_set : gset (list Z) := Eval vm_compute in char_set ALPHA_DIGIT.

Section Dictionary.
Context (word_dict : gmap (list Z) (gmap Z WordInfo)) (appid : Z).

Definition WordValid (word : list Z) : bool :=
  if decide (word ∈ punct_set) then false else
  match word_dict !! word with
  | Some info => match info !! 0, info !! appid with None, None => false | _, _ => true end
  | None => false
  end.
Definition GetWordInfo (word : list Z) : option WordInfo :=
  match word_dict !! word with
  | Some info => match info !! 0 with Some i => Some i | None => info !! appid end
  | None => None
  end.

(** ** Forward and backward matching: [fmm_segment.cc], [bmm_segment.cc] *)

(** How the inner loop ends: with a word of the dictionary, at a single character, or
    past its bound. *)
Inductive found := Word (key : iutf8string) | Single (c : list Z) | Nothing.

(** [for (j = phrase_sub.length(); j >= 0; j--)]. *)
Fixpoint fmm_inner (phrase_sub : iutf8string) (j : nat) : found :=
  match j with
  | O => Nothing
  | S j' =>
    if (j =? 1)%nat then Single (char_of phrase_sub 0) else
    let key := utf8substr phrase_sub 0 j in
    if WordValid key.(data) then Word key else fmm_inner phrase_sub j'
  end.
(** [nothing] is what [i] is advanced by when the inner loop finds nothing. *)
Fixpoint fmm_loop (nothing : nat) (fuel : nat) (phrase : iutf8string) (i : nat) (fmm_list : list (list Z)) : outcome (list (list Z)) :=
  match fuel with
  | O => Fault
  | S fuel =>
    let len_phrase := phrase.(length_) in
    if (i <? len_phrase)%nat then
      let end_ := if (len_phrase <=? i + MAX_WORD_LEN)%nat then len_phrase else (i + MAX_WORD_LEN)%nat in
      let phrase_sub := utf8substr phrase i (end_ - i) in
      match fmm_inner phrase_sub phrase_sub.(length_) with
      | Word key => fmm_loop nothing fuel phrase (i + key.(length_)) (fmm_list ++ [key.(data)])
      | Single c => fmm_loop nothing fuel phrase (i + 1) (fmm_list ++ [c])
      | Nothing => fmm_loop nothing fuel phrase (i + nothing) fmm_list
      end
    else Ok fmm_list
  end.
Definition FmmSegment_ConcreteSplit (str : list Z) : outcome (list (list Z)) :=
  fmm_loop 0 (S (length str)) (refresh str) 0 [].

(** [for (j = 0; j < phrase_sub.length(); j++)], with [r] rounds to go. *)
Fixpoint bmm_inner (phrase_sub : iutf8string) (r : nat) : found :=
  match r with
  | O => Nothing
  | S r' =>
    let j := (phrase_sub.(length_) - r)%nat in
    if (r =? 1)%nat then Single (char_of phrase_sub j) else
    let key := utf8substr phrase_sub j r in
    if WordValid key.(data) then Word key else bmm_inner phrase_sub r'
  end.
Fixpoint bmm_loop (nothing : nat) (fuel : nat) (phrase : iutf8string) (i : nat) (bmm_list : list (list Z)) : outcome (list (list Z)) :=
  match fuel with
  | O => Fault
  | S fuel =>
    if (0 <? i)%nat then
      let start := (i - MAX_WORD_LEN)%nat in
      let phrase_sub := utf8substr phrase start (i - start) in
      match bmm_inner phrase_sub phrase_sub.(length_) with
      | Word key => bmm_loop nothing fuel phrase (i - key.(length_)) (key.(data) :: bmm_list)
      | Single c => bmm_loop nothing fuel phrase (i - 1) (c :: bmm_list)
      | Nothing => bmm_loop nothing fuel phrase (i - nothing) bmm_list
      end
    else Ok bmm_list
  end.
Definition BmmSegment_ConcreteSplit (str : list Z) : outcome (list (list Z)) :=
  let phrase := refresh str in bmm_loop 0 (S (length str)) phrase phrase.(length_) [].
End Dictionary.

(** ** Bigrams: [ngram_segment.cc] *)

Definition BEG : list Z := [60; 66; 69; 71; 62].
Definition END_ : list Z := [60; 69; 78; 68; 62].
Definition dbl_div (a b : Z) : Z := bits_of_dbl (SFdiv 53 1024 (dbl_of_bits a) (dbl_of_bits b)).
Definition dbl_lt (a b : Z) : bool := SFltb (dbl_of_bits a) (dbl_of_bits b).

(** What the training left: [NextDict()] and [TrainCnt()]. *)
Record HmmManager := mkHmm { NextDict : gmap (list Z) (gmap (list Z) Z); TrainCnt : Z }.

Section Ngram.
Context (word_dict : gmap (list Z) (gmap Z WordInfo)) (appid : Z) (hmm : HmmManager).
(** [log] of the C library, on the bits of a double. *)
Context (log : Z -> Z).

Definition follow_probability (word1 word2 : list Z) : Z :=
  match hmm.(NextDict) !! word1 with
  | None => log (dbl_div (dbl_of_Z 1) (dbl_of_Z hmm.(TrainCnt)))
  | Some next =>
    let numerator := match next !! word2 with Some n => dbl_add (dbl_of_Z 1) (dbl_of_Z n) | None => dbl_of_Z 1 end in
    let denominator := map_fold (fun _ n d => u32 (d + n)) hmm.(TrainCnt) next in
    log (dbl_div numerator (dbl_of_Z denominator))
  end.
Definition first_probability (word : list Z) : Z :=
  let word_freq := match GetWordInfo word_dict 0 word with Some i => i.(word_freq) | None => 0 end in
  log (dbl_add (dbl_add (dbl_of_Z word_freq) (dbl_div (dbl_of_Z 1) (dbl_of_Z (Z.of_nat (size hmm.(NextDict)))))) (dbl_of_Z hmm.(TrainCnt))).
(** The loop of [calSegProbability] from [pos], [rest] being the words from there. *)
Fixpoint probability_loop (first : list Z) (pos : nat) (rest : list (list Z)) (p : Z) : Z :=
  match rest with
  | [] => p
  | word :: rest' =>
    let p := match rest' with next :: _ => dbl_add p (follow_probability word next) | [] => p end in
    let p := if ((pos =? 0)%nat && negb (bool_decide (first = BEG))) || ((pos =? 1)%nat && bool_decide (first = BEG)) then dbl_add p (first_probability word) else p in
    probability_loop first (S pos) rest' p
  end.
Definition calSegProbability (vec : list (list Z)) : Z := probability_loop (default [] (head vec)) 0 vec (dbl_of_Z 0).

Definition fmm (str : list Z) : outcome (list (list Z)) := fmm_loop word_dict appid 1 (S (length str)) (refresh str) 0 [].
Definition bmm (str : list Z) : outcome (list (list Z)) :=
  let phrase := refresh str in bmm_loop word_dict appid 1 (S (length str)) phrase phrase.(length_) [].

(** The variables of the loop of [ConcreteSplit]. *)
Record Merge := mkMerge { pos1 : Z; pos2 : Z; cur1 : nat; cur2 : nat; cal_list1 : list (list Z); cal_list2 : list (list Z); parse_list : list (list Z) }.
Definition word_at (l : list (list Z)) (i : nat) : outcome (list Z) := match l !! i with Some w => Ok w | None => Fault end.
Definition last_of (l : list (list Z)) : outcome (list Z) := match last l with Some w => Ok w | None => Fault end.
Definition len (w : list Z) : Z := Z.of_nat (length w).
(** The words up to a common place are decided for: the likelier of the two lists, seen
    with the word before and, if there is one, the word after. *)
Definition decide_between (cal1 cal2 : list (list Z)) (before : list Z) (more : bool) (w1 w2 : list Z) : list (list Z) :=
  let c1 := before :: cal1 ++ (if more then [w1] else []) in
  let c2 := before :: cal2 ++ (if more then [w2] else []) in
  let cal_list := if dbl_lt (calSegProbability c2) (calSegProbability c1) then c1 else c2 in
  let cal_list := tail cal_list in
  if more then removelast cal_list else cal_list.
Definition forward1 (m : Merge) (w : list Z) : Merge :=
  mkMerge (u32 (m.(pos1) + len w)) m.(pos2) (S m.(cur1)) m.(cur2) (m.(cal_list1) ++ [w]) m.(cal_list2) m.(parse_list).
Definition forward2 (m : Merge) (w : list Z) : Merge :=
  mkMerge m.(pos1) (u32 (m.(pos2) + len w)) m.(cur1) (S m.(cur2)) m.(cal_list1) (m.(cal_list2) ++ [w]) m.(parse_list).
Definition merge_step (parse_list1 parse_list2 : list (list Z)) (m : Merge) : outcome Merge :=
  let! w1 := word_at parse_list1 m.(cur1) in
  let! w2 := word_at parse_list2 m.(cur2) in
  if m.(pos1) =? m.(pos2) then
    if len w1 =? len w2 then
      let! p := match m.(cal_list1) with
        | [] => Ok (m.(parse_list), m.(cal_list1), m.(cal_list2))
        | _ => let! before := last_of m.(parse_list) in
               let more := (m.(cur1) <? length parse_list1 - 1)%nat in
               Ok (m.(parse_list) ++ decide_between m.(cal_list1) m.(cal_list2) before more w1 w2, [], [])
        end in
      Ok (mkMerge (u32 (m.(pos1) + len w1)) (u32 (m.(pos2) + len w2)) (S m.(cur1)) (S m.(cur2)) p.1.2 p.2 (p.1.1 ++ [w1]))
    else if len w2 <? len w1 then Ok (forward2 m w2) else Ok (forward1 m w1)
  else if m.(pos1) + len w1 =? m.(pos2) + len w2 then Ok (forward2 (forward1 m w1) w2)
  else if m.(pos2) + len w2 <? m.(pos1) + len w1 then Ok (forward2 m w2)
  else Ok (forward1 m w1).
Fixpoint merge_loop (fuel : nat) (parse_list1 parse_list2 : list (list Z)) (m : Merge) : outcome Merge :=
  if (m.(cur1) =? length parse_list1)%nat && (m.(cur2) =? length parse_list2)%nat then Ok m else
  match fuel with
  | O => Fault
  | S fuel => let! m := merge_step parse_list1 parse_list2 m in merge_loop fuel parse_list1 parse_list2 m
  end.
Definition NgramSegment_ConcreteSplit (str : list Z) : outcome (list (list Z)) :=
  let! parse_list1 := fmm str in
  let! parse_list2 := bmm str in
  let parse_list1 := BEG :: parse_list1 ++ [END_] in
  let parse_list2 := BEG :: parse_list2 ++ [END_] in
  let! m := merge_loop (length parse_list1 + length parse_list2) parse_list1 parse_list2 (mkMerge 0 0 0 0 [] [] []) in
  match m.(parse_list) with
  | _ :: _ :: _ => Ok (removelast (tail m.(parse_list)))
  | _ => Fault
  end.
End Ngram.

(** ** A plug-in: [custom_segment.cc] *)

(** [word_split_func] leaves a C string in a buffer of 100 bytes. *)
Fixpoint split_blanks (res tmp : list Z) : list (list Z) :=
  match res with
  | [] => match tmp with [] => [] | _ => [tmp] end
  | c :: res => if c =? 32 then tmp :: split_blanks res [] else split_blanks res (tmp ++ [c])
  end.
Definition CustomSegment_ConcreteSplit (word_split_func : list Z -> list Z) (str : list Z) : outcome (list (list Z)) :=
  Ok (split_blanks (cstr (take 100 (word_split_func (cstr str)))) []).

(** ** Sentences: [Segment::Split] *)

(** The virtual function of a segmenter. *)
Class Segmenter := ConcreteSplit : list Z -> outcome (list (list Z)).

Section Split.
Context (word_dict : gmap (list Z) (gmap Z WordInfo)) (appid : Z) `{Segmenter}.

Definition isAlphaOrDigit (str : list Z) : bool := bool_decide (str ∈ alpha_set).
Definition is_punct (str : list Z) : bool := bool_decide (str ∈ punct_set).
Record Scan := mkScan { sen_list : list (list Z); special_set : gset (list Z); tmp_words : list Z; flag : bool }.
Definition scan_char (s : Scan) (c : list Z) : Scan :=
  if isAlphaOrDigit c then
    let stop := negb (bool_decide (s.(tmp_words) = [])) && negb s.(flag) in
    mkScan (if stop then s.(sen_list) ++ [s.(tmp_words)] else s.(sen_list)) s.(special_set) ((if stop then [] else s.(tmp_words)) ++ c) true
  else if is_punct c then
    if bool_decide (s.(tmp_words) = []) then s else
    mkScan (s.(sen_list) ++ [s.(tmp_words); c]) (if s.(flag) then {[s.(tmp_words)]} ∪ s.(special_set) else s.(special_set)) [] false
  else if s.(flag) then mkScan (s.(sen_list) ++ [s.(tmp_words)]) ({[s.(tmp_words)]} ∪ s.(special_set)) c false
  else mkScan s.(sen_list) s.(special_set) (s.(tmp_words) ++ c) s.(flag).
Definition scan_end (s : Scan) : Scan :=
  if bool_decide (s.(tmp_words) = []) then s else
  mkScan (s.(sen_list) ++ [s.(tmp_words)]) (if s.(flag) then {[s.(tmp_words)]} ∪ s.(special_set) else s.(special_set)) [] s.(flag).
Definition scan (phrase : iutf8string) : Scan :=
  scan_end (fold_left (fun s i => scan_char s (char_of phrase i)) (seq 0 phrase.(length_)) (mkScan [] ∅ [] false)).
Fixpoint split_loop (special_set : gset (list Z)) (sen_list res_all : list (list Z)) : outcome (list (list Z)) :=
  match sen_list with
  | [] => Ok res_all
  | s :: sen_list =>
    if negb (bool_decide (s ∈ special_set)) && negb (is_punct s) then
      let! parse_list := ConcreteSplit s in split_loop special_set sen_list (res_all ++ parse_list)
    else split_loop special_set sen_list (if is_punct s then res_all else res_all ++ [s])
  end.
(** With [hmm_flag] false, as every caller has it. *)
Definition Split (str : list Z) : outcome (list (list Z)) :=
  let s := scan (refresh str) in split_loop s.(special_set) s.(sen_list) [].
(** [SplitManager::split] of the query side: every word with a bar after it. *)
Definition split (str : list Z) : outcome (list Z) :=
  let! res_all := Split str in Ok (concat ((fun w => w ++ [124]) <$> res_all)).

Definition isAllAlphaOrDigit (str : list Z) : bool :=
  forallb (fun c => ((65 <=? c) && (c <=? 90)) || ((97 <=? c) && (c <=? 122)) || ((48 <=? c) && (c <=? 57))) str.
(** The words of [n] characters inside a word. *)
Definition inner_words (w : list Z) (n : nat) : list (list Z) :=
  let utf8_str := refresh w in
  if (n <? utf8_str.(length_))%nat && negb (isAllAlphaOrDigit w) then
    filter (fun s => WordValid word_dict appid s = true) ((fun j => substr utf8_str j n) <$> seq 0 (utf8_str.(length_) - (n - 1)))
  else [].
Definition CutForSearch (str : list Z) : outcome (list (list (list Z))) :=
  let! new_res_all := Split str in Ok ((fun w => inner_words w 2 ++ inner_words w 3 ++ [w]) <$> new_res_all).
Definition CutNgram (str : list Z) (n : nat) : list (list Z) :=
  let phrase := refresh str in
  let N := if (phrase.(length_) <? n)%nat then phrase.(length_) else n in
  concat ((fun i => (fun j => substr phrase j i) <$> seq 0 (phrase.(length_) - i + 1)) <$> seq 1 N).
End Split.
