(* ===== verification/SegmentSpec.v ===== *)
(** What the segmenters promise: they keep the text, and cut it into single characters
    and words of the dictionary. *)
From Stdlib Require Import ZArith Lia.
From stdpp Require Import base list list_numbers numbers gmap sets.
From S2P Require Import Prelude Value Field Utf8 Segment.
Local Open Scope Z_scope.

Module SegmentSpec.
Import Utf8Spec.

Lemma length_concat_chars cs : Forall is_char cs -> (length cs <= length (concat cs))%nat.
Proof. induction 1 as [|c cs Hc _ IH]; cbn; [lia|]. rewrite length_app. pose proof (is_char_nonempty c Hc). lia. Qed.
Lemma length_chars_le s : (length (chars s) <= length s)%nat.
Proof. pose proof (length_concat_chars _ (chars_ok s)) as H. pose proof (f_equal length (lead_chars s)) as E. rewrite length_app in E. lia. Qed.
Lemma length_concat_drop {A} (l : list (list A)) n : (length (concat (drop n l)) <= length (concat l))%nat.
Proof. pose proof (f_equal (fun l => length (concat l)) (take_drop n l)) as E. cbn beta in E. rewrite concat_app, length_app in E. lia. Qed.
Lemma take1 {A} (cs : list A) c : cs !! 0%nat = Some c -> take 1 cs = [c].
Proof. destruct cs; [done|]. by intros [= ->]. Qed.

(** ** Words *)

Section Words.
Context (word_dict : gmap (list Z) (gmap Z WordInfo)) (appid : Z).
Local Abbreviation valid := (WordValid word_dict appid).

(** A piece of text a segmenter cuts off: one character, or a word of the dictionary of
    at most [MAX_WORD_LEN] characters. *)
Definition piece (cs : list (list Z)) : Prop :=
  length cs = 1%nat \/ ((2 <= length cs <= MAX_WORD_LEN)%nat /\ valid (concat cs) = true).
Definition word_ok (w : list Z) : Prop := exists cs, w = concat cs /\ Forall is_char cs /\ piece cs.

Lemma word_ok_nonempty w : word_ok w -> (0 < length w)%nat.
Proof. intros (cs & -> & Hc & Hp). pose proof (length_concat_chars cs Hc). destruct Hp as [|[? _]]; lia. Qed.

(** What is cut off at the front of [cs]: the longest word, or one character. *)
Definition longest_front (cs : list (list Z)) (k : nat) : Prop :=
  (1 <= k <= length cs)%nat /\ piece (take k cs) /\
  forall j, (k < j <= MAX_WORD_LEN)%nat -> (j <= length cs)%nat -> valid (concat (take j cs)) = false.
Definition longest_back (cs : list (list Z)) (k : nat) : Prop :=
  (1 <= k <= length cs)%nat /\ piece (drop (length cs - k) cs) /\
  forall j, (k < j <= MAX_WORD_LEN)%nat -> (j <= length cs)%nat -> valid (concat (drop (length cs - j) cs)) = false.
(** Longest match from the front, and from the back. *)
Inductive greedy : list (list Z) -> list (list Z) -> Prop :=
  | greedy_nil : greedy [] []
  | greedy_cons cs k ws : longest_front cs k -> greedy (drop k cs) ws -> greedy cs (concat (take k cs) :: ws).
Inductive greedy_back : list (list Z) -> list (list Z) -> Prop :=
  | greedy_back_nil : greedy_back [] []
  | greedy_back_snoc cs k ws :
      longest_back cs k -> greedy_back (take (length cs - k) cs) ws -> greedy_back cs (ws ++ [concat (drop (length cs - k) cs)]).

Definition cut (cs ws : list (list Z)) : Prop := concat ws = concat cs /\ Forall word_ok ws.
Lemma greedy_cut cs ws : Forall is_char cs -> greedy cs ws -> cut cs ws.
Proof.
  intros Hc. induction 1 as [|cs k ws [_ [Hp _]] _ IH]; [by split; constructor|].
  destruct IH as [Ht Hw]; [by apply Forall_drop|]. split; [cbn; by rewrite Ht, <-concat_app, take_drop|].
  constructor; [|done]. exists (take k cs). split; [done|]. split; [by apply Forall_take|done].
Qed.
Lemma greedy_back_cut cs ws : Forall is_char cs -> greedy_back cs ws -> cut cs ws.
Proof.
  intros Hc. induction 1 as [|cs k ws [_ [Hp _]] _ IH]; [by split; constructor|].
  destruct IH as [Ht Hw]; [by apply Forall_take|]. split; [rewrite concat_app; cbn; by rewrite Ht, app_nil_r, <-concat_app, take_drop|].
  apply Forall_app. split; [done|]. constructor; [|done]. eexists. split; [done|]. split; [by apply Forall_drop|done].
Qed.

Lemma longest_front_least cs i k : longest_front cs i -> longest_front cs k -> (k <= i)%nat.
Proof.
  intros [Hi [_ Hno]] [Hk [[Hp|[Hl Hv]] _]]; rewrite length_take in *; [lia|].
  destruct (decide (k <= i)%nat); [done|]. rewrite (Hno k) in Hv by lia. done.
Qed.
(** There is one segmentation by longest match. *)
Lemma greedy_unique cs ws vs : greedy cs ws -> greedy cs vs -> ws = vs.
Proof.
  intros H. revert vs. induction H as [|cs k ws Hk _ IH]; intros vs Hv; inversion Hv as [Ec|? j us Hj Hg]; subst; try done.
  - destruct Hj as [Hl _]. cbn in Hl. lia.
  - destruct Hk as [Hl _]. cbn in Hl. lia.
  - assert (j = k) as -> by (pose proof (longest_front_least cs j k Hj Hk); pose proof (longest_front_least cs k j Hk Hj); lia).
    f_equal. by apply IH.
Qed.

(** ** Forward matching *)

Lemma fmm_inner_best cs j :
  fits (concat cs) -> Forall is_char cs -> (1 <= j <= length cs)%nat -> (length cs <= MAX_WORD_LEN)%nat ->
  exists k, (1 <= k <= j)%nat /\ piece (take k cs) /\
    (forall i, (k < i <= j)%nat -> valid (concat (take i cs)) = false) /\
    fmm_inner word_dict appid (refresh (concat cs)) j = (if (k =? 1)%nat then Single (concat (take 1 cs)) else Word (refresh (concat (take k cs)))).
Proof.
  intros Hf Hc Hj Hm. pose proof (chars_concat cs Hc) as Ec. induction j as [|j IH]; [lia|]. cbn [fmm_inner].
  destruct (decide (j = 0%nat)) as [->|Hn].
  - exists 1%nat. split; [lia|]. split; [left; rewrite length_take; lia|]. split; [intros; lia|]. cbn [Nat.eqb].
    destruct (lookup_lt_is_Some_2 cs 0) as [c Hl]; [lia|]. rewrite (take1 _ _ Hl). cbn. rewrite app_nil_r. f_equal. apply char_of_chars; [done|]. by rewrite Ec.
  - replace (S j =? 1)%nat with false by (symmetry; apply Nat.eqb_neq; lia). rewrite utf8substr_chars, Ec by (done || (rewrite Ec; lia)). rewrite drop_0. cbn [data refresh].
    destruct (valid (concat (take (S j) cs))) eqn:Ev.
    + exists (S j). split; [lia|]. split; [right; split; [rewrite length_take; lia|done]|]. split; [intros; lia|]. by replace (S j =? 1)%nat with false by (symmetry; apply Nat.eqb_neq; lia).
    + destruct IH as (k & Hk & Hp & Hno & E); [lia|]. exists k. split; [lia|]. split; [done|]. split; [|done].
      intros i Hi. destruct (decide (i = S j)) as [->|]; [done|]. apply Hno. lia.
Qed.

Lemma fmm_loop_greedy nothing s : fits s -> forall fuel i acc,
  (i <= length (chars s))%nat -> (length (chars s) - i < fuel)%nat ->
  exists ws, fmm_loop word_dict appid nothing fuel (refresh s) i acc = Ok (acc ++ ws) /\ greedy (drop i (chars s)) ws.
Proof.
  intros Hs. induction fuel as [|fuel IH]; intros i acc Hi Hf; [lia|]. cbn [fmm_loop]. rewrite (length_chars _ Hs). destruct (i <? length (chars s))%nat eqn:Elt.
  2:{ apply Nat.ltb_ge in Elt. exists []. rewrite app_nil_r, drop_ge by lia. split; [done|constructor]. }
  apply Nat.ltb_lt in Elt. set (e := if (length (chars s) <=? i + MAX_WORD_LEN)%nat then _ else _).
  assert (He : (i < e <= length (chars s) /\ e - i <= MAX_WORD_LEN /\ (e = length (chars s) \/ e - i = MAX_WORD_LEN))%nat).
  { subst e. unfold MAX_WORD_LEN. case_match; [apply Nat.leb_le in H|apply Nat.leb_gt in H]; lia. }
  clearbody e. destruct He as (He & Hm & Hmax). rewrite utf8substr_chars by (done || lia). pose proof (fits_sub s i (e - i) Hs) as Hds. rewrite (length_chars _ Hds), chars_sub.
  set (ds := take (e - i) (drop i (chars s))) in *. assert (Ld : length ds = (e - i)%nat) by (subst ds; rewrite length_take, length_drop; lia).
  destruct (fmm_inner_best ds (length ds)) as (k & Hk & Hp & Hno & ->); [done|apply Forall_take, Forall_drop, chars_ok|lia|lia|].
  assert (Et : forall j, (j <= length ds)%nat -> take j ds = take j (drop i (chars s))) by (intros j Hj; subst ds; rewrite take_take; f_equal; lia).
  destruct (IH (i + k)%nat (acc ++ [concat (take k ds)])) as (ws & E & Hg); [lia|lia|].
  exists (concat (take k ds) :: ws). split.
  - replace (acc ++ concat (take k ds) :: ws) with ((acc ++ [concat (take k ds)]) ++ ws) by (by rewrite <-(assoc_L (++))).
    rewrite <-E. destruct (k =? 1)%nat eqn:E1; [apply Nat.eqb_eq in E1; by subst k|]. rewrite length_chars, chars_concat by (first [rewrite Et by lia; by apply fits_sub | idtac]; apply Forall_take; subst ds; apply Forall_take, Forall_drop, chars_ok).
    rewrite length_take, Nat.min_l by lia. done.
  - rewrite Et by lia. constructor; [|by rewrite drop_drop]. split; [rewrite length_drop; lia|]. split; [by rewrite <-Et by lia|].
    intros j Hj Hl. rewrite length_drop in Hl. rewrite <-Et by lia. apply Hno. lia.
Qed.

(** ** Backward matching *)

Lemma drop_last1 (cs : list (list Z)) : (1 <= length cs)%nat -> exists c, cs !! (length cs - 1)%nat = Some c /\ drop (length cs - 1) cs = [c].
Proof.
  intros Hl. destruct (lookup_lt_is_Some_2 cs (length cs - 1)) as [c Hc]; [lia|]. exists c. split; [done|].
  rewrite (drop_S _ _ _ Hc). by rewrite drop_ge by lia.
Qed.
Lemma bmm_inner_best cs r :
  fits (concat cs) -> Forall is_char cs -> (1 <= r <= length cs)%nat -> (length cs <= MAX_WORD_LEN)%nat ->
  exists k, (1 <= k <= r)%nat /\ piece (drop (length cs - k) cs) /\
    (forall i, (k < i <= r)%nat -> valid (concat (drop (length cs - i) cs)) = false) /\
    bmm_inner word_dict appid (refresh (concat cs)) r =
      (if (k =? 1)%nat then Single (concat (drop (length cs - 1) cs)) else Word (refresh (concat (drop (length cs - k) cs)))).
Proof.
  intros Hf Hc Hj Hm. pose proof (chars_concat cs Hc) as Ec. induction r as [|r IH]; [lia|]. cbn [bmm_inner]. rewrite (length_chars _ Hf), Ec.
  destruct (decide (r = 0%nat)) as [->|Hn].
  - exists 1%nat. split; [lia|]. split; [left; rewrite length_drop; lia|]. split; [intros; lia|]. cbn [Nat.eqb].
    destruct (drop_last1 cs) as (c & Hl & ->); [lia|]. cbn. rewrite app_nil_r. f_equal. apply char_of_chars; [done|]. by rewrite Ec.
  - replace (S r =? 1)%nat with false by (symmetry; apply Nat.eqb_neq; lia). rewrite utf8substr_chars, Ec by (done || (rewrite Ec; lia)). cbn [data refresh].
    rewrite (take_ge (drop _ _)) by (rewrite length_drop; lia). destruct (valid (concat (drop (length cs - S r) cs))) eqn:Ev.
    + exists (S r). split; [lia|]. split; [right; split; [rewrite length_drop; lia|done]|]. split; [intros; lia|]. by replace (S r =? 1)%nat with false by (symmetry; apply Nat.eqb_neq; lia).
    + destruct IH as (k & Hk & Hp & Hno & E); [lia|]. exists k. split; [lia|]. split; [done|]. split; [|done].
      intros i Hi. destruct (decide (i = S r)) as [->|]; [done|]. apply Hno. lia.
Qed.

Lemma bmm_loop_greedy nothing s : fits s -> forall fuel i acc,
  (i <= length (chars s))%nat -> (i < fuel)%nat ->
  exists ws, bmm_loop word_dict appid nothing fuel (refresh s) i acc = Ok (ws ++ acc) /\ greedy_back (take i (chars s)) ws.
Proof.
  intros Hs. induction fuel as [|fuel IH]; intros i acc Hi Hf; [lia|]. cbn [bmm_loop]. destruct (0 <? i)%nat eqn:Elt.
  2:{ apply Nat.ltb_ge in Elt. exists []. replace i with 0%nat by lia. split; [done|constructor]. }
  apply Nat.ltb_lt in Elt. set (b := (i - MAX_WORD_LEN)%nat).
  assert (Hb : (b < i /\ i - b <= MAX_WORD_LEN /\ (b = 0 \/ i - b = MAX_WORD_LEN))%nat) by (subst b; unfold MAX_WORD_LEN; lia).
  clearbody b. destruct Hb as (Hb & Hm & Hmax). rewrite utf8substr_chars by (done || lia). pose proof (fits_sub s b (i - b) Hs) as Hds. rewrite (length_chars _ Hds), chars_sub.
  set (ds := take (i - b) (drop b (chars s))) in *. assert (Ld : length ds = (i - b)%nat) by (subst ds; rewrite length_take, length_drop; lia).
  destruct (bmm_inner_best ds (length ds)) as (k & Hk & Hp & Hno & ->); [done|apply Forall_take, Forall_drop, chars_ok|lia|lia|].
  assert (Lt : length (take i (chars s)) = i) by (rewrite length_take; lia).
  assert (Et : forall j, (j <= length ds)%nat -> drop (length ds - j) ds = drop (i - j) (take i (chars s))).
  { intros j Hj. rewrite Ld in *. unfold ds. rewrite take_drop_commute, drop_drop. replace (b + (i - b))%nat with i by lia. f_equal. lia. }
  destruct (IH (i - k)%nat (concat (drop (length ds - k) ds) :: acc)) as (ws & E & Hg); [lia|lia|].
  exists (ws ++ [concat (drop (length ds - k) ds)]). split.
  - rewrite <-(assoc_L (++)). cbn [app]. rewrite <-E. destruct (k =? 1)%nat eqn:E1; [apply Nat.eqb_eq in E1; by subst k|].
    assert (Hk' : fits (concat (drop (length ds - k) ds))) by (apply (fits_le _ _ Hds); apply length_concat_drop).
    rewrite (length_chars _ Hk'), chars_concat by (apply Forall_drop; subst ds; apply Forall_take, Forall_drop, chars_ok). rewrite length_drop. by replace (length ds - (length ds - k))%nat with k by lia.
  - rewrite Et by lia. rewrite <-Lt at 2. constructor; [|rewrite take_take, Lt; by rewrite Nat.min_l by lia].
    unfold longest_back. rewrite Lt. split; [lia|]. split; [by rewrite <-Et by lia|]. intros j Hj Hl. rewrite <-Et by lia. apply Hno. lia.
Qed.

Lemma fmm_segments nothing str : fits str -> exists ws, fmm_loop word_dict appid nothing (S (length str)) (refresh str) 0 [] = Ok ws /\ greedy (chars str) ws.
Proof. intros Hs. pose proof (length_chars_le str). by destruct (fmm_loop_greedy nothing str Hs (S (length str)) 0 []) as (ws & E & Hg); [lia|lia|exists ws]. Qed.
Lemma bmm_segments nothing str : fits str ->
  exists ws, bmm_loop word_dict appid nothing (S (length str)) (refresh str) (length_ (refresh str)) [] = Ok ws /\ greedy_back (chars str) ws.
Proof.
  intros Hs. pose proof (length_chars_le str). rewrite (length_chars _ Hs). destruct (bmm_loop_greedy nothing str Hs (S (length str)) (length (chars str)) []) as (ws & E & Hg); [lia|lia|].
  exists ws. rewrite app_nil_r in E. by rewrite firstn_all in Hg.
Qed.
(** A segmentation by longest match ends, forward and backward: what is found is
    the one the words of the dictionary determine. *)
Lemma greedy_total cs : fits (concat cs) -> Forall is_char cs -> exists ws, greedy cs ws.
Proof. intros Hf Hc. destruct (fmm_segments 0 (concat cs) Hf) as (ws & _ & Hg). exists ws. by rewrite chars_concat in Hg. Qed.
End Words.

(** ** The interface of a segmenter *)

(** What [Split] relies on: the text is cut into single characters and words of the
    dictionary, nothing is lost. The bound is that of the [int] length of a text; the two
    marks of five bytes are what the bigram segmenter counts in. *)
Definition short_text (str : list Z) : Prop := Z.of_nat (length str) + 10 < 2 ^ 31.
Lemma short_fits str : short_text str -> fits str.
Proof. unfold short_text, fits. lia. Qed.
Class SegmenterLaws (word_dict : gmap (list Z) (gmap Z WordInfo)) (appid : Z) (S : Segmenter) : Prop :=
  cuts_text : forall str, short_text str -> exists ws, ConcreteSplit str = Ok ws /\ cut word_dict appid (chars str) ws.

#[export] Instance fmm_laws word_dict appid : SegmenterLaws word_dict appid (FmmSegment_ConcreteSplit word_dict appid).
Proof.
  intros str Hs. destruct (fmm_segments word_dict appid 0 str (short_fits _ Hs)) as (ws & E & Hg). exists ws. split; [exact E|]. apply (greedy_cut _ _ _ _ (chars_ok str) Hg).
Qed.
#[export] Instance bmm_laws word_dict appid : SegmenterLaws word_dict appid (BmmSegment_ConcreteSplit word_dict appid).
Proof.
  intros str Hs. destruct (bmm_segments word_dict appid 0 str (short_fits _ Hs)) as (ws & E & Hg). exists ws. split; [exact E|]. apply (greedy_back_cut _ _ _ _ (chars_ok str) Hg).
Qed.

(** C34: [FmmSegment] and [BmmSegment] end on every text whose length an [int] holds, and
    are longest match: from the
    front, or from the back, each piece is the longest word of the dictionary of at most
    eight characters there, or a single character when there is none. *)
Theorem longest_match : forall word_dict appid str, Z.of_nat (length str) < 2 ^ 31 ->
  (exists ws, FmmSegment_ConcreteSplit word_dict appid str = Ok ws /\ greedy word_dict appid (chars str) ws /\
    forall vs, greedy word_dict appid (chars str) vs -> vs = ws) /\
  (exists ws, BmmSegment_ConcreteSplit word_dict appid str = Ok ws /\ greedy_back word_dict appid (chars str) ws).
Proof.
  intros word_dict appid str Hs. split; [|by apply (bmm_segments word_dict appid 0)].
  destruct (fmm_segments word_dict appid 0 str Hs) as (ws & E & Hg). exists ws. split; [exact E|]. split; [done|]. intros vs Hv. apply (greedy_unique _ _ _ _ _ Hv Hg).
Qed.
(** "ab" and "bcd" are words: "abcd" is cut differently from the front and from the back. *)
Definition two_words : gmap (list Z) (gmap Z WordInfo) :=
  <[[97; 98] := <[0 := mkWord 1 5 0]> ∅]> (<[[98; 99; 100] := <[0 := mkWord 2 7 0]> ∅]> ∅).
Lemma longest_match_witness :
  FmmSegment_ConcreteSplit two_words 0 [97; 98; 99; 100] = Ok [[97; 98]; [99]; [100]] /\
  BmmSegment_ConcreteSplit two_words 0 [97; 98; 99; 100] = Ok [[97]; [98; 99; 100]] /\
  (exists ws, FmmSegment_ConcreteSplit two_words 0 [97; 98; 99; 100] = Ok ws /\ greedy two_words 0 (chars [97; 98; 99; 100]) ws /\
    forall vs, greedy two_words 0 (chars [97; 98; 99; 100]) vs -> vs = ws) /\
  (exists ws, BmmSegment_ConcreteSplit two_words 0 [97; 98; 99; 100] = Ok ws /\ greedy_back two_words 0 (chars [97; 98; 99; 100]) ws).
Proof. split; [vm_compute; reflexivity|]. split; [vm_compute; reflexivity|]. apply longest_match. vm_compute. reflexivity. Defined.
End SegmentSpec.
