(* ===== verification/NgramSpec.v ===== *)
(** The bigram segmenter weaves the forward and the backward segmentation together: its
    words are theirs, and they spell the text. *)
From Stdlib Require Import ZArith Lia.
From stdpp Require Import base list list_numbers numbers gmap sets.
From S2P Require Import Prelude Value Field Utf8 Segment SegmentSpec.
Local Open Scope Z_scope.

Module NgramSpec.
Import Utf8Spec SegmentSpec.

(** ** Two segmentations of one text *)

Section Merge.
Context (word_dict : gmap (list Z) (gmap Z WordInfo)) (hmm : HmmManager) (log : Z -> Z).
Context (l1 l2 : list (list Z)) (Q : list Z -> Prop).
Hypothesis Q_nonempty : forall w, Q w -> (0 < length w)%nat.
Hypothesis Q1 : Forall Q l1.
Hypothesis Q2 : Forall Q l2.
Hypothesis same_text : concat l1 = concat l2.
Hypothesis text_bound : Z.of_nat (length (concat l1)) + 10 < 2 ^ 32.
Local Abbreviation full l := (BEG :: l ++ [END_]).
Local Abbreviation text_len l := (Z.of_nat (length (concat l))).

Lemma decide_either cal1 cal2 before more w1 w2 :
  decide_between word_dict hmm log cal1 cal2 before more w1 w2 = cal1 \/ decide_between word_dict hmm log cal1 cal2 before more w1 w2 = cal2.
Proof.
  unfold decide_between. destruct more; [|rewrite !app_nil_r; case_match; cbn; tauto].
  case_match; cbn [tail]; rewrite removelast_last; tauto.
Qed.

(** The word at [a], and where it ends. *)
Definition word_of (l : list (list Z)) (a : nat) : list Z := default END_ (l !! a).
Definition start_of (l : list (list Z)) (a : nat) : Z := 5 + text_len (take a l).
Definition end_of (l : list (list Z)) (a : nat) : Z := start_of l a + len (word_of l a).

Lemma word_at_full l a : (a <= length l)%nat -> word_at (full l) (S a) = Ok (word_of l a).
Proof.
  intros Ha. unfold word_at, word_of. change (full l !! S a) with ((l ++ [END_]) !! a). destruct (l !! a) as [w|] eqn:E.
  - by rewrite (lookup_app_l_Some _ _ _ _ E).
  - apply lookup_ge_None in E. by rewrite lookup_app_r, (proj2 (Nat.sub_0_le a (length l))) by lia.
Qed.
Lemma start_mono l a b : (a <= b)%nat -> start_of l a <= start_of l b.
Proof.
  intros H. unfold start_of. replace b with (a + (b - a))%nat by lia. rewrite <-take_take_drop, concat_app, length_app. lia.
Qed.
Lemma take_word l a : (a < length l)%nat -> take (S a) l = take a l ++ [word_of l a].
Proof. intros Ha. destruct (lookup_lt_is_Some_2 l a Ha) as [w E]. unfold word_of. rewrite E. by apply take_S_r. Qed.
Lemma end_start l a : (a < length l)%nat -> end_of l a = start_of l (S a).
Proof. intros Ha. unfold end_of, start_of, len. rewrite take_word, concat_app, length_app by done. cbn. rewrite app_nil_r. lia. Qed.
Lemma end_last l a : a = length l -> end_of l a = text_len l + 10.
Proof. intros ->. unfold end_of, start_of, word_of. rewrite lookup_ge_None_2 by lia. rewrite firstn_all. cbn [default]. change (len END_) with 5. lia. Qed.
Lemma start_full l : start_of l (length l) = 5 + text_len l.
Proof. unfold start_of. by rewrite firstn_all. Qed.
Lemma end_inside l a : (a < length l)%nat -> end_of l a <= 5 + text_len l.
Proof. intros Ha. rewrite end_start, <-start_full by done. apply start_mono. lia. Qed.
Lemma word_Q l a : Forall Q l -> (a < length l)%nat -> Q (word_of l a).
Proof. intros HQ Ha. destruct (lookup_lt_is_Some_2 l a Ha) as [w E]. unfold word_of. rewrite E. by apply (Forall_lookup_1 _ _ _ _ HQ E). Qed.
(** Only the end of the text lies at its end. *)
Lemma start_inside l a : Forall Q l -> (a < length l)%nat -> start_of l a < 5 + text_len l.
Proof.
  intros HQ Ha. pose proof (end_inside l a Ha) as He. pose proof (Q_nonempty _ (word_Q l a HQ Ha)). unfold end_of, len in He. lia.
Qed.
Lemma ends_together a b : (a <= length l1)%nat -> (b <= length l2)%nat -> start_of l1 a = start_of l2 b -> a = length l1 <-> b = length l2.
Proof.
  intros Ha Hb E. split; intros H.
  - destruct (decide (b = length l2)); [done|]. pose proof (start_inside l2 b Q2 ltac:(lia)). subst a. rewrite start_full, same_text in E. lia.
  - destruct (decide (a = length l1)); [done|]. pose proof (start_inside l1 a Q1 ltac:(lia)). subst b. rewrite start_full, <-same_text in E. lia.
Qed.

(** The state of the loop after [BEG], [a1] and [a2] words on: [mid] is decided. *)
Definition at_words (a1 a2 : nat) (mid cal1 cal2 : list (list Z)) : Merge :=
  mkMerge (start_of l1 a1) (start_of l2 a2) (S a1) (S a2) cal1 cal2 (BEG :: mid).
Record woven (a1 a2 : nat) (mid cal1 cal2 : list (list Z)) : Prop := {
  wv_1 : (a1 <= length l1)%nat;
  wv_2 : (a2 <= length l2)%nat;
  wv_text1 : concat mid ++ concat cal1 = concat (take a1 l1);
  wv_text2 : concat mid ++ concat cal2 = concat (take a2 l2);
  wv_words : Forall Q (mid ++ cal1 ++ cal2)
}.
Definition done_with (m : Merge) : Prop :=
  exists mid, m.(parse_list) = BEG :: mid ++ [END_] /\ concat mid = concat l1 /\ Forall Q mid /\
    m.(cur1) = length (full l1) /\ m.(cur2) = length (full l2).

Lemma end_u32_1 a : (a <= length l1)%nat -> u32 (start_of l1 a + len (word_of l1 a)) = end_of l1 a.
Proof.
  intros Ha. apply Z.mod_small. fold (end_of l1 a). split; [unfold end_of, start_of, len; lia|]. destruct (decide (a = length l1)) as [->|].
  - rewrite end_last by done. lia.
  - pose proof (end_inside l1 a ltac:(lia)). lia.
Qed.
Lemma end_u32_2 a : (a <= length l2)%nat -> u32 (start_of l2 a + len (word_of l2 a)) = end_of l2 a.
Proof.
  intros Ha. rewrite same_text in text_bound. apply Z.mod_small. fold (end_of l2 a). split; [unfold end_of, start_of, len; lia|]. destruct (decide (a = length l2)) as [->|].
  - rewrite end_last by done. lia.
  - pose proof (end_inside l2 a ltac:(lia)). lia.
Qed.
Lemma concat_word (cal : list (list Z)) w : concat (cal ++ [w]) = concat cal ++ w.
Proof. rewrite concat_app. cbn. by rewrite app_nil_r. Qed.

Lemma woven_forward1 a1 a2 mid cal1 cal2 :
  woven a1 a2 mid cal1 cal2 -> (a1 < length l1)%nat -> woven (S a1) a2 mid (cal1 ++ [word_of l1 a1]) cal2.
Proof.
  intros [H1 H2 T1 T2 W] Ha. split; try done.
  - by rewrite (take_word l1 a1 Ha), !concat_word, (assoc_L (++)), T1.
  - rewrite !Forall_app in *. rewrite Forall_singleton. pose proof (word_Q l1 a1 Q1 Ha). tauto.
Qed.
Lemma woven_forward2 a1 a2 mid cal1 cal2 :
  woven a1 a2 mid cal1 cal2 -> (a2 < length l2)%nat -> woven a1 (S a2) mid cal1 (cal2 ++ [word_of l2 a2]).
Proof.
  intros [H1 H2 T1 T2 W] Ha. split; try done.
  - by rewrite (take_word l2 a2 Ha), !concat_word, (assoc_L (++)), T2.
  - rewrite !Forall_app in *. rewrite Forall_singleton. pose proof (word_Q l2 a2 Q2 Ha). tauto.
Qed.
(** At a common place the two have spelt the same. *)
Lemma same_prefix a1 a2 : start_of l1 a1 = start_of l2 a2 -> concat (take a1 l1) = concat (take a2 l2).
Proof.
  intros E. assert (El : length (concat (take a1 l1)) = length (concat (take a2 l2))) by (unfold start_of in E; lia).
  assert (Ef : concat (take a1 l1) ++ concat (drop a1 l1) = concat (take a2 l2) ++ concat (drop a2 l2)) by (by rewrite <-!concat_app, !take_drop).
  apply (f_equal (take (length (concat (take a1 l1))))) in Ef. rewrite take_app_length in Ef. rewrite Ef, El. by rewrite take_app_length.
Qed.
Lemma same_place a1 a2 mid cal1 cal2 : woven a1 a2 mid cal1 cal2 -> start_of l1 a1 = start_of l2 a2 -> concat cal1 = concat cal2.
Proof. intros [_ _ T1 T2 _] E. apply (app_inv_head (concat mid)). rewrite T1, T2. by apply same_prefix. Qed.
(** There the rivals are settled: either list goes. *)
Lemma settle a1 a2 mid cal1 cal2 more w1 w2 before :
  woven a1 a2 mid cal1 cal2 -> start_of l1 a1 = start_of l2 a2 ->
  woven a1 a2 (mid ++ decide_between word_dict hmm log cal1 cal2 before more w1 w2) [] [].
Proof.
  intros Hw E. pose proof (same_place _ _ _ _ _ Hw E) as Es. destruct Hw as [H1 H2 T1 T2 W]. rewrite !Forall_app in W.
  destruct (decide_either cal1 cal2 before more w1 w2) as [-> | ->]; split; try done; rewrite ?app_nil_r, ?concat_app, ?Es, ?Forall_app; try tauto; congruence.
Qed.
Lemma cal1_nil a1 a2 mid cal2 : woven a1 a2 mid [] cal2 -> start_of l1 a1 = start_of l2 a2 -> cal2 = [].
Proof.
  intros Hw E. pose proof (same_place _ _ _ _ _ Hw E) as Es. destruct Hw as [_ _ _ _ W]. destruct cal2 as [|w cal2]; [done|].
  rewrite !Forall_app, Forall_cons in W. pose proof (Q_nonempty w ltac:(tauto)). destruct w; cbn in *; [lia|done].
Qed.

Definition goes_on (a1 a2 : nat) (m : Merge) : Prop :=
  done_with m \/ exists b1 b2 mid cal1 cal2, m = at_words b1 b2 mid cal1 cal2 /\ woven b1 b2 mid cal1 cal2 /\ (a1 + a2 < b1 + b2)%nat.

Lemma both_words a1 a2 mid : woven a1 a2 mid [] [] -> start_of l1 a1 = start_of l2 a2 -> len (word_of l1 a1) = len (word_of l2 a2) ->
  goes_on a1 a2 (mkMerge (end_of l1 a1) (end_of l2 a2) (S (S a1)) (S (S a2)) [] [] ((BEG :: mid) ++ [word_of l1 a1])).
Proof.
  intros Hw E El. pose proof (ends_together a1 a2 (wv_1 _ _ _ _ _ Hw) (wv_2 _ _ _ _ _ Hw) E) as Hends. destruct (decide (a1 = length l1)) as [Ha|Ha].
  - left. pose proof (proj1 Hends Ha). destruct Hw as [H1 H2 T1 T2 W]. exists mid. subst. cbn. rewrite app_nil_r in *. unfold word_of. rewrite lookup_ge_None_2 by lia.
    rewrite firstn_all in T1. rewrite !length_app. cbn. repeat split; try done; lia.
  - right. pose proof (wv_1 _ _ _ _ _ Hw) as H1. pose proof (wv_2 _ _ _ _ _ Hw) as H2. assert (Hb : a2 <> length l2) by tauto.
    exists (S a1), (S a2), (mid ++ [word_of l1 a1]), [], []. split; [|split; [|lia]].
    + unfold at_words. by rewrite !end_start by lia.
    + destruct Hw as [_ _ T1 T2 W]. pose proof (word_Q l1 a1 Q1 ltac:(lia)) as Hq. cbn in T1, T2. rewrite app_nil_r in T1, T2.
      assert (Ew : concat (take (S a1) l1) = concat (take (S a2) l2)).
      { apply same_prefix. rewrite <-!end_start by lia. unfold end_of. lia. }
      split; [lia|lia| | |]; cbn; rewrite ?app_nil_r.
      * by rewrite concat_word, T1, take_word, concat_word by lia.
      * by rewrite concat_word, T1, <-Ew, take_word, concat_word by lia.
      * rewrite !Forall_app, Forall_singleton in *. tauto.
Qed.

Lemma step_goes_on a1 a2 mid cal1 cal2 : woven a1 a2 mid cal1 cal2 ->
  exists m, merge_step word_dict hmm log (full l1) (full l2) (at_words a1 a2 mid cal1 cal2) = Ok m /\ goes_on a1 a2 m.
Proof.
  intros Hw. pose proof (wv_1 _ _ _ _ _ Hw) as H1. pose proof (wv_2 _ _ _ _ _ Hw) as H2. unfold merge_step, at_words, forward1, forward2.
  cbn [cur1 cur2 pos1 pos2 cal_list1 cal_list2 parse_list]. rewrite !word_at_full by done. cbn [obind]. rewrite !end_u32_1, !end_u32_2 by done. fold (end_of l1 a1) (end_of l2 a2).
  destruct (start_of l1 a1 =? start_of l2 a2) eqn:Es.
  - apply Z.eqb_eq in Es. pose proof (ends_together a1 a2 H1 H2 Es) as Hends. destruct (len (word_of l1 a1) =? len (word_of l2 a2)) eqn:El.
    + apply Z.eqb_eq in El. destruct cal1 as [|c cal1].
      * pose proof (cal1_nil _ _ _ _ Hw Es) as ->. eexists. split; [done|]. by apply both_words.
      * unfold last_of. destruct (last (BEG :: mid)) as [before|] eqn:Eb; [|exfalso; apply (proj1 (last_None _)) in Eb; done]. cbn [obind fst snd]. eexists. split; [done|].
        by apply both_words; [apply settle| |].
    + apply Z.eqb_neq in El. destruct (len (word_of l2 a2) <? len (word_of l1 a1)) eqn:Elt.
      * apply Z.ltb_lt in Elt. assert (Ha : (a2 < length l2)%nat).
        { destruct (decide (a2 = length l2)) as [E|]; [|lia]. unfold word_of in El. pose proof (proj2 Hends E) as E1. by rewrite !lookup_ge_None_2 in El by lia. }
        eexists. split; [done|]. right. eexists _, _, _, _, _. split; [|split; [by apply woven_forward2|lia]]. unfold at_words. by rewrite end_start.
      * apply Z.ltb_ge in Elt. assert (Ha : (a1 < length l1)%nat).
        { destruct (decide (a1 = length l1)) as [E|]; [|lia]. unfold word_of in El. pose proof (proj1 Hends E) as E1. by rewrite !lookup_ge_None_2 in El by lia. }
        eexists. split; [done|]. right. eexists _, _, _, _, _. split; [|split; [by apply woven_forward1|lia]]. unfold at_words. by rewrite end_start.
  - apply Z.eqb_neq in Es.
    pose proof (fun H => end_inside l1 a1 H) as I1. pose proof (fun H => end_inside l2 a2 H) as I2. rewrite <-same_text in I2.
    pose proof (fun E => end_last l1 a1 E) as L1. pose proof (fun E => end_last l2 a2 E) as L2. rewrite <-same_text in L2.
    assert (Hboth : a1 = length l1 -> a2 = length l2 -> False) by (intros -> ->; rewrite !start_full, same_text in Es; done).
    destruct (end_of l1 a1 =? end_of l2 a2) eqn:Ee; [apply Z.eqb_eq in Ee|apply Z.eqb_neq in Ee; destruct (end_of l2 a2 <? end_of l1 a1) eqn:El; [apply Z.ltb_lt in El|apply Z.ltb_ge in El]].
    all: eexists; split; [done|]; right; eexists _, _, _, _, _.
    + assert (Ha : (a1 < length l1 /\ a2 < length l2)%nat) by lia. destruct Ha. split; [|split; [apply woven_forward2; [by apply woven_forward1|]|]]; [|lia|lia]. unfold at_words. by rewrite !end_start by lia.
    + assert (a2 < length l2)%nat by lia. split; [|split; [by apply woven_forward2|lia]]. unfold at_words. by rewrite end_start.
    + assert (a1 < length l1)%nat by lia. split; [|split; [by apply woven_forward1|lia]]. unfold at_words. by rewrite end_start.
Qed.

Lemma loop_weaves : forall fuel a1 a2 mid cal1 cal2,
  woven a1 a2 mid cal1 cal2 -> (length l1 + length l2 < fuel + a1 + a2)%nat ->
  exists m, merge_loop word_dict hmm log fuel (full l1) (full l2) (at_words a1 a2 mid cal1 cal2) = Ok m /\ done_with m.
Proof.
  induction fuel as [|fuel IH]; intros a1 a2 mid cal1 cal2 Hw Hf; pose proof (wv_1 _ _ _ _ _ Hw); pose proof (wv_2 _ _ _ _ _ Hw); [lia|].
  cbn [merge_loop]. replace (_ && _) with false.
  2:{ symmetry. apply andb_false_iff. left. apply Nat.eqb_neq. cbn. rewrite length_app. cbn. lia. }
  destruct (step_goes_on _ _ _ _ _ Hw) as (m & -> & [Hd|(b1 & b2 & mid' & c1 & c2 & -> & Hw' & Hlt)]); cbn [obind].
  - exists m. split; [|done]. destruct Hd as (? & ? & ? & ? & E1 & E2). destruct fuel; cbn [merge_loop]; by rewrite E1, E2, !Nat.eqb_refl.
  - by apply IH; [|lia].
Qed.
Lemma begin_weaves : merge_step word_dict hmm log (full l1) (full l2) (mkMerge 0 0 0 0 [] [] []) = Ok (at_words 0 0 [] [] []) /\ woven 0 0 [] [] [].
Proof. split; [done|]. split; cbn; (lia || done || constructor). Qed.
Lemma merge_weaves : exists m, merge_loop word_dict hmm log (length (full l1) + length (full l2)) (full l1) (full l2) (mkMerge 0 0 0 0 [] [] []) = Ok m /\ done_with m.
Proof.
  destruct begin_weaves as [E Hw]. replace (length (full l1) + length (full l2))%nat with (S (length l1 + length (full l2) + 1)) by (cbn; rewrite !length_app; cbn; lia).
  cbn [merge_loop cur1 cur2]. replace (_ && _) with false by done. rewrite E. cbn [obind]. apply loop_weaves; [done|]. cbn. rewrite length_app. cbn. lia.
Qed.
End Merge.

(** ** The bigram segmenter *)

Section Ngram.
Context (word_dict : gmap (list Z) (gmap Z WordInfo)) (appid : Z) (hmm : HmmManager) (log : Z -> Z).

Lemma lead_short str : (length (concat (chars str)) <= length str)%nat.
Proof. pose proof (f_equal length (lead_chars str)) as E. rewrite length_app in E. lia. Qed.

Lemma ngram_weaves str : short_text str -> exists ws1 ws2 ws,
  fmm word_dict appid str = Ok ws1 /\ bmm word_dict appid str = Ok ws2 /\
  NgramSegment_ConcreteSplit word_dict appid hmm log str = Ok ws /\ concat ws = concat (chars str) /\
  Forall (fun w => (w ∈ ws1 \/ w ∈ ws2) /\ word_ok word_dict appid w) ws.
Proof.
  intros Hb. destruct (fmm_segments word_dict appid 1 str (short_fits _ Hb)) as (ws1 & E1 & G1). destruct (bmm_segments word_dict appid 1 str (short_fits _ Hb)) as (ws2 & E2 & G2).
  pose proof (greedy_cut _ _ _ _ (chars_ok str) G1) as [T1 W1]. pose proof (greedy_back_cut _ _ _ _ (chars_ok str) G2) as [T2 W2]. pose proof (lead_short str) as Hl.
  destruct (merge_weaves word_dict hmm log ws1 ws2 (fun w => (w ∈ ws1 \/ w ∈ ws2) /\ word_ok word_dict appid w)) as (m & Em & mid & Ep & Et & Hq & _).
  - intros w [_ Hw]. by apply (word_ok_nonempty word_dict appid).
  - rewrite Forall_forall in *. auto.
  - rewrite Forall_forall in *. auto.
  - congruence.
  - rewrite T1. unfold short_text in Hb. lia.
  - exists ws1, ws2, mid. split; [exact E1|]. split; [exact E2|]. split; [|by rewrite <-T1].
    unfold NgramSegment_ConcreteSplit. rewrite (E1 : fmm _ _ _ = _), (E2 : bmm _ _ _ = _). cbn [obind]. rewrite Em. cbn [obind]. rewrite Ep.
    destruct mid as [|w mid]; [done|]. cbn [app]. change (Ok (removelast ((w :: mid) ++ [END_])) = Ok (w :: mid)). by rewrite removelast_last.
Qed.
#[export] Instance ngram_laws : SegmenterLaws word_dict appid (NgramSegment_ConcreteSplit word_dict appid hmm log).
Proof.
  intros str Hb. destruct (ngram_weaves str Hb) as (ws1 & ws2 & ws & _ & _ & E & Et & Hw). exists ws. split; [exact E|]. split; [done|].
  eapply Forall_impl; [exact Hw|]. by intros w [_ ?].
Qed.
End Ngram.

(** C35: The bigram segmenter ends without an error on every text whose length
    an [int] holds, its words are words of the forward or of the backward segmentation, and
    together they spell the text. *)
Theorem ngram_keeps_text : forall word_dict appid hmm log str, short_text str -> exists ws1 ws2 ws,
  fmm word_dict appid str = Ok ws1 /\ bmm word_dict appid str = Ok ws2 /\
  NgramSegment_ConcreteSplit word_dict appid hmm log str = Ok ws /\ concat ws = concat (chars str) /\
  forall w, w ∈ ws -> (w ∈ ws1 \/ w ∈ ws2) /\ word_ok word_dict appid w.
Proof.
  intros word_dict appid hmm log str Hb. destruct (ngram_weaves word_dict appid hmm log str Hb) as (ws1 & ws2 & ws & E1 & E2 & E & Et & Hw).
  exists ws1, ws2, ws. split; [done|]. split; [done|]. split; [done|]. split; [done|]. by apply Forall_forall.
Qed.

(** "ab" is a word, so is "bcd": the two directions disagree on "abcd". *)
Lemma ngram_keeps_text_witness :
  fmm two_words 0 [97; 98; 99; 100] = Ok [[97; 98]; [99]; [100]] /\ bmm two_words 0 [97; 98; 99; 100] = Ok [[97]; [98; 99; 100]] /\
  exists ws1 ws2 ws, fmm two_words 0 [97; 98; 99; 100] = Ok ws1 /\ bmm two_words 0 [97; 98; 99; 100] = Ok ws2 /\
  NgramSegment_ConcreteSplit two_words 0 (mkHmm ∅ 0) (fun p => p) [97; 98; 99; 100] = Ok ws /\ concat ws = concat (chars [97; 98; 99; 100]) /\
  forall w, w ∈ ws -> (w ∈ ws1 \/ w ∈ ws2) /\ word_ok two_words 0 w.
Proof. split; [vm_compute; reflexivity|]. split; [vm_compute; reflexivity|]. apply ngram_keeps_text. vm_compute. reflexivity. Defined.
End NgramSpec.
