(* ===== verification/SplitSpec.v ===== *)
(** Sentences: [Segment::Split] over any segmenter that keeps the text. *)
From Stdlib Require Import ZArith Lia.
From stdpp Require Import base list list_numbers numbers gmap sets.
From S2P Require Import Prelude Value Field Utf8 Segment SegmentSpec NgramSpec.
Local Open Scope Z_scope.

Module SplitSpec.
Import Utf8Spec SegmentSpec NgramSpec.

(** ** The characters of [punct] and of [ALPHA_DIGIT] *)

Definition is_charb (c : list Z) : bool := match c with b :: k => starts b && forallb (fun b => negb (starts b)) k | [] => false end.
Lemma is_charb_ok c : is_charb c = true -> is_char c.
Proof.
  destruct c as [|b k]; [done|]. cbn. intros [Hb Hk]%andb_true_iff. split; [done|]. rewrite forallb_forall in Hk. apply Forall_forall. intros x Hx.
  apply negb_true_iff, Hk. by apply list_elem_of_In.
Qed.
Lemma all_elements (f : list Z -> bool) (X : gset (list Z)) c : forallb f (elements X) = true -> c ∈ X -> f c = true.
Proof. intros H Hc. rewrite forallb_forall in H. apply H. by rewrite <-list_elem_of_In, elem_of_elements. Qed.
Lemma punct_chars p : p ∈ punct_set -> is_char p.
Proof. intros Hp. apply is_charb_ok, (all_elements is_charb punct_set); [vm_compute; reflexivity|done]. Qed.
Lemma alpha_not_punct c : isAlphaOrDigit c = true -> is_punct c = false.
Proof.
  unfold isAlphaOrDigit. rewrite bool_decide_eq_true. intros Ha. apply negb_true_iff.
  apply (all_elements (fun c => negb (is_punct c)) alpha_set); [vm_compute; reflexivity|done].
Qed.

(** ** The scan *)

Local Abbreviation not_punct := (fun c => is_punct c = false).
Definition kept (cs : list (list Z)) : list Z := concat (filter not_punct cs).
Arguments kept : simpl never.
(** A sentence is a run of characters that are not punctuation. *)
Definition run (s : list Z) : Prop := exists cs, s = concat cs /\ cs <> [] /\ Forall is_char cs /\ Forall not_punct cs.
Definition alnum (s : list Z) : Prop := exists cs, s = concat cs /\ cs <> [] /\ Forall is_char cs /\ Forall (fun c => isAlphaOrDigit c = true) cs.

Lemma run_not_punct s : run s -> is_punct s = false.
Proof.
  intros (cs & -> & Hn & Hc & Hp). apply not_true_iff_false. intros Hs. pose proof Hs as H. unfold is_punct in H. apply bool_decide_eq_true, punct_chars in H.
  pose proof (chars_concat cs Hc) as E. pose proof (chars_concat [concat cs] ltac:(by constructor)) as E'. cbn in E'. rewrite app_nil_r in E'. rewrite E' in E.
  destruct cs as [|c [|]]; try done. inversion Hp as [|? ? Hcp _]. cbn in Hs. rewrite app_nil_r in Hs. congruence.
Qed.
Lemma run_nonempty s : run s -> s <> [].
Proof. intros (cs & -> & Hn & Hc & _) E. pose proof (length_concat_chars cs Hc) as H. rewrite E in H. destruct cs; cbn in H; [done|lia]. Qed.
Lemma run_one c : is_char c -> is_punct c = false -> run c.
Proof. intros. exists [c]. cbn. rewrite app_nil_r. repeat split; try done; by constructor. Qed.
Lemma run_snoc s c : run s -> is_char c -> is_punct c = false -> run (s ++ c).
Proof.
  intros (cs & -> & Hn & Hc & Hp) ? ?. exists (cs ++ [c]). rewrite concat_app. cbn. rewrite app_nil_r. split; [done|]. split; [by destruct cs|]. rewrite !Forall_app, !Forall_singleton. done.
Qed.
Lemma alnum_one c : is_char c -> isAlphaOrDigit c = true -> alnum c.
Proof. intros. exists [c]. cbn. rewrite app_nil_r. repeat split; try done; by constructor. Qed.
Lemma alnum_snoc s c : alnum s -> is_char c -> isAlphaOrDigit c = true -> alnum (s ++ c).
Proof.
  intros (cs & -> & Hn & Hc & Hp) ? ?. exists (cs ++ [c]). rewrite concat_app. cbn. rewrite app_nil_r. split; [done|]. split; [by destruct cs|]. rewrite !Forall_app, !Forall_singleton. done.
Qed.

Record scanned (cs : list (list Z)) (s : Scan) : Prop := {
  sc_text : kept s.(sen_list) ++ s.(tmp_words) = kept cs;
  sc_sen : Forall (fun w => is_punct w = true \/ run w) s.(sen_list);
  sc_tmp : s.(tmp_words) = [] \/ run s.(tmp_words);
  sc_flag : s.(flag) = true -> alnum s.(tmp_words);
  sc_special : forall w, w ∈ s.(special_set) -> alnum w
}.
Lemma kept_app cs ds : kept (cs ++ ds) = kept cs ++ kept ds.
Proof. unfold kept. by rewrite filter_app, concat_app. Qed.
Lemma kept_one c : is_punct c = false -> kept [c] = c.
Proof. intros H. unfold kept. rewrite filter_cons_True by done. cbn. by rewrite app_nil_r. Qed.
Lemma kept_punct c : is_punct c = true -> kept [c] = [].
Proof. intros H. unfold kept. by rewrite filter_cons_False by congruence. Qed.


(** Pushing the sentence at hand. *)
Lemma kept_push sen w : run w -> kept (sen ++ [w]) = kept sen ++ w.
Proof. intros Hw. by rewrite kept_app, (kept_one w (run_not_punct w Hw)). Qed.
Lemma sen_push sen w : Forall (fun w => is_punct w = true \/ run w) sen -> is_punct w = true \/ run w -> Forall (fun w => is_punct w = true \/ run w) (sen ++ [w]).
Proof. intros. apply Forall_app. split; [done|]. by constructor. Qed.
Lemma special_push (b : bool) w X : (b = true -> alnum w) -> (forall v, v ∈ X -> alnum v) -> forall v, v ∈ (if b then {[w]} ∪ X else X : gset (list Z)) -> alnum v.
Proof. intros Hw HX v Hv. destruct b; [|by apply HX]. apply elem_of_union in Hv as [Hv|Hv]; [|by apply HX]. apply elem_of_singleton in Hv as ->. by apply Hw. Qed.
Lemma alnum_nonempty w : alnum w -> w <> [].
Proof. intros (cs & -> & Hn & Hc & _) E. pose proof (length_concat_chars cs Hc) as H. rewrite E in H. destruct cs; cbn in H; [done|lia]. Qed.

Lemma scan_alpha cs s c : scanned cs s -> is_char c -> isAlphaOrDigit c = true -> scanned (cs ++ [c]) (scan_char s c).
Proof.
  intros [Ht Hsen Htmp Hf Hsp] Hc Ha. pose proof (alpha_not_punct c Ha) as Ep. unfold scan_char. rewrite Ha. destruct (decide (s.(tmp_words) = [])) as [E|Hn].
  - rewrite (bool_decide_true _ E). cbn. rewrite E in *. split; cbn; try done; [by rewrite kept_app, kept_one, <-Ht, app_nil_r|right; by apply run_one|intros _; by apply alnum_one].
  - rewrite (bool_decide_false _ Hn). destruct Htmp as [|Hr]; [done|]. cbn. destruct (flag s) eqn:Ef; cbn.
    + split; cbn; try done; [by rewrite kept_app, kept_one, <-Ht, (assoc_L (++))|right; by apply run_snoc|intros _; apply alnum_snoc; auto].
    + split; cbn; try done; [by rewrite kept_push, !kept_app, kept_one, Ht|apply sen_push; auto|right; by apply run_one|intros _; by apply alnum_one].
Qed.
Lemma scan_punct cs s c : scanned cs s -> isAlphaOrDigit c = false -> is_punct c = true -> scanned (cs ++ [c]) (scan_char s c).
Proof.
  intros [Ht Hsen Htmp Hf Hsp] Ha Ep. unfold scan_char. rewrite Ha, Ep. destruct (decide (s.(tmp_words) = [])) as [E|Hn].
  - rewrite (bool_decide_true _ E). split; try done. by rewrite kept_app, kept_punct, app_nil_r.
  - rewrite (bool_decide_false _ Hn). destruct Htmp as [|Hr]; [done|].
    split; cbn; [|rewrite cons_middle, (assoc_L (++)); apply sen_push; [apply sen_push|]; auto|by left|done|by apply special_push].
    change [tmp_words s; c] with ([tmp_words s] ++ [c]). rewrite (assoc_L (++)), !kept_app, kept_one, kept_punct, !app_nil_r by (done || by apply run_not_punct). done.
Qed.
Lemma scan_other cs s c : scanned cs s -> is_char c -> isAlphaOrDigit c = false -> is_punct c = false -> scanned (cs ++ [c]) (scan_char s c).
Proof.
  intros [Ht Hsen Htmp Hf Hsp] Hc Ha Ep. unfold scan_char. rewrite Ha, Ep. destruct (flag s) eqn:Ef.
  - specialize (Hf eq_refl). destruct Htmp as [E|Hr]; [by apply alnum_nonempty in Hf|].
    split; cbn; try done; [by rewrite kept_push, kept_app, kept_one, Ht|apply sen_push; auto|right; by apply run_one|by apply (special_push true)].
  - split; cbn; try done; [by rewrite kept_app, kept_one, <-Ht, (assoc_L (++))|].
    right. destruct Htmp as [->|Hr]; [by apply run_one|by apply run_snoc].
Qed.
Lemma scanned_char cs s c : scanned cs s -> is_char c -> scanned (cs ++ [c]) (scan_char s c).
Proof.
  intros. destruct (isAlphaOrDigit c) eqn:?; [by apply scan_alpha|]. destruct (is_punct c) eqn:?; [by apply scan_punct|by apply scan_other].
Qed.
Lemma scanned_chars cs : forall ds s, scanned ds s -> Forall is_char cs -> scanned (ds ++ cs) (fold_left scan_char cs s).
Proof.
  induction cs as [|c cs IH]; intros ds s Hs Hc; [by rewrite app_nil_r|]. inversion Hc; subst. rewrite cons_middle, (assoc_L (++)). cbn [fold_left].
  apply IH; [by apply scanned_char|done].
Qed.

Lemma scan_chars str : fits str -> fold_left (fun s i => scan_char s (char_of (refresh str) i)) (seq 0 (length_ (refresh str))) (mkScan [] ∅ [] false) = fold_left scan_char (chars str) (mkScan [] ∅ [] false).
Proof.
  intros Hf. generalize (mkScan [] ∅ [] false). rewrite (length_chars _ Hf). assert (E : chars str = (fun i => char_of (refresh str) i) <$> seq 0 (length (chars str))).
  { apply list_eq. intros i. rewrite list_lookup_fmap. destruct (decide (i < length (chars str))%nat) as [Hi|Hi].
    - rewrite lookup_seq_lt by done. cbn. destruct (lookup_lt_is_Some_2 _ _ Hi) as [c Hc]. by rewrite Hc, (char_of_chars _ _ _ Hf Hc).
    - rewrite (lookup_seq_ge 0) by lia. apply lookup_ge_None_2. lia. }
  revert E. generalize (seq 0 (length (chars str))). intros l ->. induction l as [|i l IH]; [done|]. intros s. cbn [fold_left fmap list_fmap]. apply IH.
Qed.
Lemma scanned_end cs s : scanned cs s ->
  kept (sen_list (scan_end s)) = kept cs /\ Forall (fun w => is_punct w = true \/ run w) (sen_list (scan_end s)) /\ forall w, w ∈ special_set (scan_end s) -> alnum w.
Proof.
  intros [Ht Hsen Htmp Hf Hsp]. unfold scan_end. destruct (decide (s.(tmp_words) = [])) as [E|Hn].
  - rewrite (bool_decide_true _ E). rewrite E, app_nil_r in Ht. done.
  - rewrite (bool_decide_false _ Hn). destruct Htmp as [|Hr]; [done|]. cbn. split; [by rewrite kept_push|]. split; [apply sen_push; auto|]. by apply special_push.
Qed.
Lemma scan_ok str : fits str -> kept (sen_list (scan (refresh str))) = kept (chars str) /\
  Forall (fun w => is_punct w = true \/ run w) (sen_list (scan (refresh str))) /\ forall w, w ∈ special_set (scan (refresh str)) -> alnum w.
Proof.
  intros Hf. unfold scan. rewrite (scan_chars _ Hf). apply scanned_end, (scanned_chars (chars str) [] _); [|apply chars_ok].
  split; cbn; [done|constructor|by left|done|intros w Hw; by apply not_elem_of_empty in Hw].
Qed.

(** ** Splitting *)

Lemma kept_length cs : (length (kept cs) <= length (concat cs))%nat.
Proof.
  induction cs as [|c cs IH]; [done|]. rewrite <-(app_nil_l cs), app_comm_cons, kept_app. cbn. rewrite !length_app. destruct (is_punct c) eqn:E; [rewrite kept_punct|rewrite kept_one]; cbn; try done; lia.
Qed.
Lemma run_chars s : run s -> concat (chars s) = s.
Proof. intros (cs & -> & _ & Hc & _). by rewrite chars_concat. Qed.

Section Split.
Context (word_dict : gmap (list Z) (gmap Z WordInfo)) (appid : Z) (S : Segmenter) (Laws : SegmenterLaws word_dict appid S).

Lemma split_loop_ok special : (forall w, w ∈ special -> alnum w) -> forall sens res,
  Forall (fun w => is_punct w = true \/ run w) sens -> short_text (kept sens) ->
  exists ws, split_loop special sens res = Ok (res ++ ws) /\ concat ws = kept sens /\ Forall (fun w => alnum w \/ word_ok word_dict appid w) ws.
Proof.
  intros Hsp. induction sens as [|s sens IH]; intros res Hs Hb; [exists []; by rewrite app_nil_r|].
  inversion Hs as [|? ? Hw Hr]; subst. change (s :: sens) with ([s] ++ sens) in Hb |- *. rewrite kept_app in Hb |- *. cbn [split_loop app]. unfold short_text in *. rewrite length_app in Hb.
  destruct (is_punct s) eqn:Ep.
  - rewrite andb_false_r, kept_punct by done. apply IH; [done|lia].
  - destruct Hw as [|Hw]; [done|]. rewrite kept_one in Hb |- * by done. destruct (bool_decide (s ∈ special)) eqn:Ed; cbn [negb andb].
    + apply bool_decide_eq_true, Hsp in Ed. destruct (IH (res ++ [s]) Hr ltac:(lia)) as (ws & E & Et & Hg). exists (s :: ws). rewrite E, <-(assoc_L (++)). cbn. rewrite Et.
      split; [done|]. split; [done|]. constructor; [by left|done].
    + destruct (Laws s) as (vs & Ev & Tv & Wv); [unfold short_text; lia|]. rewrite Ev. cbn [obind]. destruct (IH (res ++ vs) Hr ltac:(lia)) as (ws & E & Et & Hg).
      exists (vs ++ ws). rewrite E, <-(assoc_L (++)), concat_app, Tv, Et, (run_chars s Hw). split; [done|]. split; [done|]. apply Forall_app. split; [|done].
      eapply Forall_impl; [exact Wv|]. intros w ?. by right.
Qed.
Lemma split_ok str : short_text str ->
  exists ws, Split str = Ok ws /\ concat ws = kept (chars str) /\ Forall (fun w => alnum w \/ word_ok word_dict appid w) ws.
Proof.
  intros Hb. destruct (scan_ok str (short_fits _ Hb)) as (Ht & Hs & Hsp). unfold Split. rewrite <-Ht. apply (split_loop_ok _ Hsp _ []); [done|]. rewrite Ht. unfold short_text in *.
  pose proof (kept_length (chars str)). pose proof (lead_short str). lia.
Qed.
End Split.

(** ** Words as a string *)

Lemma find_sep_first sep a r : sep ∉ a -> find_sep sep (a ++ sep :: r) = Some (a, r).
Proof.
  induction a as [|c a IH]; intros Ha; cbn [app find_sep]; [by rewrite Z.eqb_refl|]. apply not_elem_of_cons in Ha as [Hc Ha].
  rewrite (proj2 (Z.eqb_neq c sep)) by congruence. by rewrite IH.
Qed.
Lemma splitEx_join sep ws : Forall (fun w => sep ∉ w /\ w <> [32]) ws -> forall fuel, (length ws < fuel)%nat ->
  splitEx fuel (concat ((fun w => w ++ [sep]) <$> ws)) sep = ws.
Proof.
  induction 1 as [|w ws [Hs Hb] _ IH]; intros fuel Hf; (destruct fuel as [|fuel]; [cbn in Hf; lia|]); [done|]. cbn [fmap list_fmap concat splitEx].
  rewrite <-(assoc_L (++)). cbn [app]. rewrite find_sep_first by done. rewrite bool_decide_false by done. cbn [app]. f_equal. apply IH. cbn in Hf. lia.
Qed.
Lemma word_chars word_dict appid w : alnum w \/ word_ok word_dict appid w -> exists cs, w = concat cs /\ Forall is_char cs.
Proof. intros [(cs & -> & _ & Hc & _)|(cs & -> & Hc & _)]; eauto. Qed.
(** The characters of the words are those of the text they spell. *)
Lemma words_chars ws : Forall (fun w => exists cs, w = concat cs /\ Forall is_char cs) ws -> chars (concat ws) = concat (chars <$> ws).
Proof.
  intros H. assert (Hc : exists css, ws = concat (A:=Z) <$> css /\ Forall (Forall is_char) css).
  { induction H as [|w ws (cs & -> & Hc) _ (css & -> & Hcs)]; [by exists []|]. exists (cs :: css). split; [done|by constructor]. }
  destruct Hc as (css & -> & Hcs). clear H. assert (E : forall l : list (list (list Z)), concat (concat (A:=Z) <$> l) = concat (concat l)).
  { induction l as [|cs l IH]; [done|]. cbn. by rewrite IH, concat_app. }
  rewrite E, chars_concat by by apply Forall_concat. f_equal. rewrite <-list_fmap_compose. symmetry. rewrite <-(list_fmap_id css) at 2.
  apply Forall_fmap_ext. eapply Forall_impl; [exact Hcs|]. intros cs Hc. by apply chars_concat.
Qed.
Lemma words_separate word_dict appid str ws : 124 ∉ str -> concat ws = kept (chars str) ->
  Forall (fun w => alnum w \/ word_ok word_dict appid w) ws -> Forall (fun w => 124 ∉ w /\ w <> [32]) ws.
Proof.
  intros Hs Et Hw. assert (Hk : Forall is_char (filter not_punct (chars str))) by (apply Forall_forall; intros c [_ Hc]%list_elem_of_filter; pose proof (chars_ok str) as Hok; rewrite Forall_forall in Hok; auto).
  pose proof (f_equal chars Et) as Ec. unfold kept in Ec. rewrite (chars_concat _ Hk), words_chars in Ec by (eapply Forall_impl; [exact Hw|apply word_chars]).
  apply Forall_forall. intros w Hin. split.
  - intros Hb. apply Hs. rewrite <-(lead_chars str). apply elem_of_app. right. assert (Hc : 124 ∈ kept (chars str)) by (rewrite <-Et; apply list_elem_of_In, in_concat; exists w; by rewrite <-!list_elem_of_In).
    unfold kept in Hc. rewrite list_elem_of_In, in_concat in Hc. setoid_rewrite <-list_elem_of_In in Hc. destruct Hc as (c & Hc & Hbc). apply list_elem_of_filter in Hc as [_ Hc].
    rewrite list_elem_of_In, in_concat. exists c. by rewrite <-!list_elem_of_In.
  - intros ->. assert (Hc : [32] ∈ concat (chars <$> ws)).
    { rewrite list_elem_of_In, in_concat. exists (chars [32]). rewrite <-!list_elem_of_In. split; [by apply list_elem_of_fmap_2|]. vm_compute. left. }
    rewrite Ec in Hc. apply list_elem_of_filter in Hc as [Hc _]. vm_compute in Hc. done.
Qed.

Lemma words_nonempty word_dict appid ws : Forall (fun w => alnum w \/ word_ok word_dict appid w) ws -> Forall (fun w => (0 < length w)%nat) ws.
Proof.
  intros H. eapply Forall_impl; [exact H|]. intros w [(cs & -> & Hn & Hc & _)|Hw]; [|by apply (word_ok_nonempty word_dict appid)].
  pose proof (length_concat_chars cs Hc). destruct cs; [done|]. cbn [length] in *. lia.
Qed.
Lemma joined_length ws : Forall (fun w : list Z => (0 < length w)%nat) ws -> (length (concat ((fun w => w ++ [124%Z]) <$> ws)) <= 2 * length (concat ws))%nat.
Proof. induction 1 as [|w ws Hw _ IH]; cbn; [lia|]. rewrite !length_app. cbn. lia. Qed.

(** C21: Over any segmenter that keeps the text, [Split] ends without an error and loses
    only the punctuation: the words it returns spell the other characters of the text
    in order, and each is a run of letters and digits, a single character, or a word of
    the dictionary. *)
Theorem split_keeps_text : forall word_dict appid S, SegmenterLaws word_dict appid S -> forall str, short_text str ->
  exists ws, Split str = Ok ws /\ concat ws = concat (filter (fun c => is_punct c = false) (chars str)) /\
    forall w, w ∈ ws -> alnum w \/ word_ok word_dict appid w.
Proof.
  intros word_dict appid S Laws str Hb. destruct (split_ok word_dict appid S Laws str Hb) as (ws & E & Et & Hw). exists ws. split; [done|]. split; [done|]. by apply Forall_forall.
Qed.
(** C33: The string [SplitManager::split] makes of a text without a bar, shorter than 1 GB,
    has a length an [int] holds, and is taken apart by [splitEx] into the very words
    [Split] returned: no word is lost, joined or cut. *)
Theorem split_round_trip : forall word_dict appid S, SegmenterLaws word_dict appid S ->
  forall str, Z.of_nat (length str) < 2 ^ 30 -> 124 ∉ str ->
  exists ws out, Split str = Ok ws /\ split str = Ok out /\ fits out /\ splitEx (Datatypes.S (length out)) out 124 = ws.
Proof.
  intros word_dict appid S Laws str Hb Hs. destruct (split_ok word_dict appid S Laws str ltac:(unfold short_text; lia)) as (ws & E & Et & Hw). unfold split. rewrite E. cbn [obind].
  eexists _, _. split; [done|]. split; [done|]. split.
  { unfold fits. pose proof (joined_length ws (words_nonempty word_dict appid _ Hw)). pose proof (f_equal length Et). pose proof (kept_length (chars str)). pose proof (lead_short str). lia. }
  apply splitEx_join; [by apply (words_separate word_dict appid str)|].
  clear. induction ws as [|w ws IH]; cbn; [lia|]. rewrite !length_app. cbn. lia.
Qed.
(** A comma, digits and two Chinese characters that are a word, by bigrams. *)
Definition sample_words : gmap (list Z) (gmap Z WordInfo) := <[[228; 189; 160; 229; 165; 189] := <[0 := mkWord 1 5 0]> ∅]> ∅.
Definition sample_text : list Z := [49; 50; 44; 228; 189; 160; 229; 165; 189].
Lemma split_keeps_text_witness :
  @Split (NgramSegment_ConcreteSplit sample_words 0 (mkHmm ∅ 0) (fun p => p)) sample_text = Ok [[49; 50]; [228; 189; 160; 229; 165; 189]] /\
  exists ws, @Split (NgramSegment_ConcreteSplit sample_words 0 (mkHmm ∅ 0) (fun p => p)) sample_text = Ok ws /\
    concat ws = concat (filter (fun c => is_punct c = false) (chars sample_text)) /\
    forall w, w ∈ ws -> alnum w \/ word_ok sample_words 0 w.
Proof. split; [vm_compute; reflexivity|]. apply (split_keeps_text sample_words 0 _ (ngram_laws sample_words 0 _ _)). vm_compute. reflexivity. Defined.
Lemma split_round_trip_witness :
  @split (FmmSegment_ConcreteSplit sample_words 0) sample_text = Ok [49; 50; 124; 228; 189; 160; 229; 165; 189; 124] /\
  exists ws out, @Split (FmmSegment_ConcreteSplit sample_words 0) sample_text = Ok ws /\
    @split (FmmSegment_ConcreteSplit sample_words 0) sample_text = Ok out /\ fits out /\ splitEx (S (length out)) out 124 = ws.
Proof.
  split; [vm_compute; reflexivity|]. apply (split_round_trip sample_words 0 _ (fmm_laws sample_words 0)); [vm_compute; reflexivity|].
  apply (bool_decide_unpack _). vm_compute. exact I.
Defined.
End SplitSpec.
