(* ===== verification/Correct.v ===== *)
(** Spelling correction ([index_read/correction/correction.cc]): the words one edit away,
    for letters and for Chinese characters, and the best of those that are known. *)
From Stdlib Require Import ZArith Lia.
From stdpp Require Import base list list_numbers numbers gmap sorting.
From S2P Require Import Prelude Std Utf8 Segment.
Local Open Scope Z_scope.

(** [insert] of one word after the other into a [std::set<string>]. *)
Definition insert_all (words word_set : list (list Z)) : list (list Z) := fold_left (fun s w => set_insert string_lt w s) words word_set.

Module Correction.

(** ** [Edits1] and [ChEdits1] *)

Definition letters : list Z := seqZ 97 26.
(** What the round for [i] of the loop inserts: one deletion, one transposition, the
    replacements and the insertions. *)
Definition Edits1_at (word : list Z) (i : nat) : list (list Z) :=
  let left := take i word in
  let right := drop i word in
  [left ++ drop 1 right] ++
  match right with c0 :: c1 :: rest => [left ++ [c1] ++ [c0] ++ rest] | _ => [] end ++
  (if (0 <? length right)%nat then (fun c => left ++ [c] ++ drop 1 right) <$> letters else []) ++
  ((fun c => left ++ [c] ++ right) <$> letters).
Definition Edits1 (word : list Z) : list (list Z) := fold_left (fun s i => insert_all (Edits1_at word i) s) (seq 0 (int_length word)) [].

Section Chinese.
Context (word_dict : gmap (list Z) (gmap Z WordInfo)) (characters_ : list (list Z)).

Definition ChEdits1_at (utf8_str : iutf8string) (i : nat) : list (list Z) :=
  let left := substr utf8_str 0 i in
  let right := utf8substr utf8_str i (utf8_str.(length_) - i) in
  [left ++ substr right 1 (right.(length_) - 1)] ++
  (if (1 <? right.(length_))%nat then [left ++ char_of right 1 ++ char_of right 0 ++ substr right 2 (right.(length_) - 2)] else []) ++
  (if (0 <? right.(length_))%nat then (fun c => left ++ c ++ substr right 1 (right.(length_) - 1)) <$> characters_ else []) ++
  ((fun c => left ++ c ++ right.(data)) <$> characters_).
Definition ChEdits1 (word : list Z) : list (list Z) :=
  let utf8_str := refresh word in
  fold_left (fun s i => insert_all (ChEdits1_at utf8_str i) s) (seq 0 utf8_str.(length_)) [].
Definition ChKnown (words : list (list Z)) : list (list Z) := filter (fun w => WordValid word_dict 0 w = true) words.

(** ** The best candidate *)

Abbreviation PAIR := (list Z * Z)%type.
Definition CmpByValue (lhs rhs : PAIR) : bool := rhs.2 <? lhs.2.
(** [res_vec] from [candidate_map], sorted; its first word, or the empty string. *)
Definition first_of (candidate_map : list PAIR) : list Z :=
  match std_sort CmpByValue candidate_map with tmp :: _ => tmp.1 | [] => [] end.

Definition ChCorrect (word : list Z) : list Z :=
  if WordValid word_dict 0 word then word else
  first_of ((fun w => (w, default 0 (word_freq <$> GetWordInfo word_dict 0 w))) <$> ChKnown (ChEdits1 word)).
Definition IsChineseWord (appid : Z) (str : list Z) : bool :=
  match GetWordInfo word_dict appid str with Some word_info => word_info.(word_id) <? 100000000 | None => false end.
End Chinese.

Section English.
Context (en_word_map_ : gmap (list Z) Z).
Definition Known (words : list (list Z)) : list (list Z) := filter (fun w => is_Some (en_word_map_ !! w)) words.
Definition Correct (word : list Z) : list Z :=
  match en_word_map_ !! word with
  | Some _ => word
  | None => first_of ((fun w => (w, default 0 (en_word_map_ !! w))) <$> Known (Edits1 word))
  end.
Definition IsEnWord (str : list Z) : bool := bool_decide (is_Some (en_word_map_ !! str)).
End English.
End Correction.
