(* ===== verification/CorrectSpec.v ===== *)
(** What spelling correction promises: the edits are the ones of edit distance one, but
    for a letter added at the end, and the best known candidate is returned. *)
From Stdlib Require Import ZArith Lia.
From stdpp Require Import base list list_numbers numbers gmap sorting.
From S2P Require Import Prelude Std Utf8 Segment SegmentSpec Correct.
Local Open Scope Z_scope.

Module CorrectSpec.
Import Utf8Spec Correction.

(** One edit of a word: a symbol is dropped, two neighbours are exchanged, one is
    replaced, or one is put before another. Nothing is put at the end. *)
Inductive edit {A} (symbols : list A) : list A -> list A -> Prop :=
  | edit_delete l x r : edit symbols (l ++ x :: r) (l ++ r)
  | edit_transpose l x y r : edit symbols (l ++ x :: y :: r) (l ++ y :: x :: r)
  | edit_replace l x c r : c ∈ symbols -> edit symbols (l ++ x :: r) (l ++ c :: r)
  | edit_insert l x c r : c ∈ symbols -> edit symbols (l ++ x :: r) (l ++ c :: x :: r).

(** The edits at one place. *)
Definition edits_at {A} (symbols word : list A) (i : nat) : list (list A) :=
  let left := take i word in
  let right := drop i word in
  [left ++ drop 1 right] ++
  match right with c0 :: c1 :: rest => [left ++ c1 :: c0 :: rest] | _ => [] end ++
  ((fun c => left ++ c :: drop 1 right) <$> symbols) ++
  ((fun c => left ++ c :: right) <$> symbols).

Lemma edits_at_split {A} (symbols l : list A) x r w : w ∈ edits_at symbols (l ++ x :: r) (length l) <->
  w = l ++ r \/ (exists y s, r = y :: s /\ w = l ++ y :: x :: s) \/ (exists c, c ∈ symbols /\ w = l ++ c :: r) \/ (exists c, c ∈ symbols /\ w = l ++ c :: x :: r).
Proof.
  unfold edits_at. rewrite take_app_length, drop_app_length. change (drop 1 (x :: r)) with r. rewrite !elem_of_app, list_elem_of_singleton, !list_elem_of_fmap.
  assert (Ht : w ∈ match r with [] => [] | c1 :: rest => [l ++ c1 :: x :: rest] end <-> exists y s, r = y :: s /\ w = l ++ y :: x :: s).
  { destruct r as [|y s]; [split; [by intros ?%not_elem_of_nil|by intros (? & ? & [=] & _)]|]. rewrite list_elem_of_singleton. split; [eauto|by intros (? & ? & [= <- <-] & ->)]. }
  rewrite Ht. naive_solver.
Qed.
(** Every edit is made at some place, and only edits are made. *)
Lemma edits_at_edit {A} (symbols word w : list A) : (exists i, (i < length word)%nat /\ w ∈ edits_at symbols word i) <-> edit symbols word w.
Proof.
  split.
  - intros (i & Hi & Hw). destruct (lookup_lt_is_Some_2 word i Hi) as [x Hx]. pose proof (take_drop_middle word i x Hx) as E.
    pose proof (length_take_le word i ltac:(lia)) as El. revert Hw. rewrite <-E. rewrite <-El at 3. rewrite edits_at_split.
    intros [->|[(y & s & -> & ->)|[(c & Hc & ->)|(c & Hc & ->)]]]; by constructor.
  - intros H. assert (Hl : exists l x r, word = l ++ x :: r /\ w ∈ edits_at symbols (l ++ x :: r) (length l)).
    { destruct H; eexists _, _, _; (split; [done|]); rewrite edits_at_split; naive_solver. }
    destruct Hl as (l & x & r & -> & Hw). exists (length l). split; [rewrite length_app; cbn; lia|done].
Qed.

(** ** Sets of strings *)

Lemma string_lt_cases a b : string_lt a b = true \/ a = b \/ string_lt b a = true.
Proof. unfold string_lt. rewrite (lex_antisym a b). destruct (lex a b) eqn:E; cbn; [right; left; by apply lex_eq|by left|by right; right]. Qed.
Lemma set_insert_elem w x l : w ∈ set_insert string_lt x l <-> w = x \/ w ∈ l.
Proof.
  induction l as [|y l IH]; cbn [set_insert]; [by rewrite elem_of_cons|].
  destruct (string_lt x y) eqn:E1; [by rewrite elem_of_cons|]. destruct (string_lt y x) eqn:E2; [rewrite !elem_of_cons, IH; tauto|].
  destruct (string_lt_cases x y) as [H|[->|H]]; [congruence| |congruence]. rewrite elem_of_cons. tauto.
Qed.
Lemma insert_all_elem w words s : w ∈ insert_all words s <-> w ∈ words \/ w ∈ s.
Proof.
  unfold insert_all. revert s. induction words as [|x words IH]; intros s; cbn [fold_left]; [rewrite elem_of_nil; tauto|].
  rewrite IH, set_insert_elem, elem_of_cons. tauto.
Qed.
Lemma rounds_elem (f : nat -> list (list Z)) w js s : w ∈ fold_left (fun s i => insert_all (f i) s) js s <-> (exists i, i ∈ js /\ w ∈ f i) \/ w ∈ s.
Proof.
  revert s. induction js as [|i js IH]; intros s; cbn [fold_left].
  - split; [by right|]. intros [(i & Hi & _)|H]; [by apply not_elem_of_nil in Hi|done].
  - rewrite IH, insert_all_elem. setoid_rewrite elem_of_cons. naive_solver.
Qed.

(** ** The two loops *)

Lemma Edits1_at_edits word i : (i < length word)%nat -> Edits1_at word i = edits_at letters word i.
Proof.
  intros Hi. unfold Edits1_at, edits_at. destruct (drop i word) as [|x r] eqn:E; [|done].
  apply (f_equal length) in E. rewrite length_drop in E. cbn in E. lia.
Qed.
Lemma Edits1_elem word w : fits word -> w ∈ Edits1 word <-> edit letters word w.
Proof.
  intros Hf. unfold Edits1. rewrite (int_length_fits _ Hf), rounds_elem, elem_of_nil, <-edits_at_edit. split.
  - intros [(i & Hi & Hw)|[]]. apply elem_of_seq in Hi. exists i. rewrite <-Edits1_at_edits by lia. split; [lia|done].
  - intros (i & Hi & Hw). left. exists i. rewrite Edits1_at_edits by done. split; [apply elem_of_seq; lia|done].
Qed.

Lemma ChEdits1_at_edits characters word i : fits word -> (i < length (chars word))%nat ->
  ChEdits1_at characters (refresh word) i = concat (A:=Z) <$> edits_at characters (chars word) i.
Proof.
  intros Hf Hi. unfold ChEdits1_at, edits_at. rewrite length_chars, substr_chars, drop_0 by (done || lia). rewrite utf8substr_chars by (done || lia).
  pose proof (fits_sub word i (length (chars word) - i) Hf) as Hfr. revert Hfr.
  rewrite (take_ge (drop i (chars word))) by (rewrite length_drop; lia).
  pose proof (Forall_drop _ i _ (chars_ok word)) as Hr. pose proof (length_drop (chars word) i) as Hl. destruct (drop i (chars word)) as [|x r]; [cbn in Hl; lia|].
  intros Hfr. pose proof (chars_concat _ Hr) as Ec. rewrite (length_chars _ Hfr), Ec. set (u := refresh _) in *.
  assert (E1 : substr u 1 (length (x :: r) - 1) = concat r) by (unfold u; rewrite substr_chars by (done || (rewrite Ec; cbn; lia)); rewrite Ec, take_ge by (rewrite length_drop; cbn; lia); done).
  rewrite E1. unfold u. change (data (refresh (concat (x :: r)))) with (concat (x :: r)).
  rewrite !fmap_app, <-!list_fmap_compose. f_equal; [cbn; by rewrite concat_app|]. f_equal.
  - destruct r as [|y r]; [done|]. cbn [length Nat.ltb Nat.leb]. rewrite substr_chars by (done || (rewrite Ec; cbn; lia)). rewrite (char_of_chars _ 1 y), (char_of_chars _ 0 x) by (done || by rewrite Ec).
    rewrite Ec, (take_ge (drop 2 _)) by (rewrite length_drop; cbn; lia). cbn. by rewrite !concat_app.
  - cbn [length Nat.ltb Nat.leb]. f_equal; apply list_fmap_ext; intros j c _; cbn; by rewrite concat_app.
Qed.
Lemma ChEdits1_elem characters word w : fits word -> w ∈ ChEdits1 characters word <-> exists cs, edit characters (chars word) cs /\ w = concat cs.
Proof.
  intros Hf. unfold ChEdits1. rewrite rounds_elem, elem_of_nil, (length_chars _ Hf). setoid_rewrite <-edits_at_edit. split.
  - intros [(i & Hi & Hw)|[]]. apply elem_of_seq in Hi. rewrite ChEdits1_at_edits, list_elem_of_fmap in Hw by (done || lia). destruct Hw as (cs & -> & Hcs). exists cs. split; [|done]. exists i. split; [lia|done].
  - intros (cs & (i & Hi & Hcs) & ->). left. exists i. split; [apply elem_of_seq; lia|]. rewrite ChEdits1_at_edits by done. by apply list_elem_of_fmap_2.
Qed.

(** ** The best candidate *)

#[local] Instance best_order : WeakOrder CmpByValue.
Proof. split; unfold CmpByValue; intros *; rewrite ?Z.ltb_lt, ?Z.ltb_ge; lia. Qed.
Lemma first_of_best cands (freq : list Z -> Z) :
  (cands = [] /\ first_of ((fun w => (w, freq w)) <$> cands) = []) \/
  (first_of ((fun w => (w, freq w)) <$> cands) ∈ cands /\ forall w, w ∈ cands -> freq w <= freq (first_of ((fun w => (w, freq w)) <$> cands))).
Proof.
  destruct cands as [|c cands]; [by left|]. right. set (l := _ <$> (c :: cands)). unfold first_of.
  pose proof (std_sort_perm CmpByValue l) as Hp. pose proof (std_sort_sorted CmpByValue l) as Hs.
  destruct (std_sort CmpByValue l) as [|tmp rest]; [apply Permutation_nil in Hp; by unfold l in Hp|].
  assert (Ht : tmp ∈ l) by (rewrite <-Hp; apply list_elem_of_here). unfold l in Ht. apply list_elem_of_fmap in Ht as (w & -> & Hw). cbn [fst].
  split; [done|]. intros v Hv. assert (Hin : (v, freq v) ∈ (w, freq w) :: rest) by (rewrite Hp; unfold l; apply (list_elem_of_fmap_2 (fun w => (w, freq w))); exact Hv).
  apply elem_of_cons in Hin as [[= -> _]|Hin]; [lia|]. inversion Hs as [|? ? _ Hall]; subst. rewrite Forall_forall in Hall. specialize (Hall _ Hin).
  unfold not_after, CmpByValue in Hall. cbn in Hall. apply Z.ltb_ge in Hall. lia.
Qed.

(** C38: [Edits1] and [ChEdits1] return exactly the words one edit away, over the small
    letters and over the characters of the dictionary: one symbol dropped, two neighbours
    exchanged, one replaced, or one put before another; never one at the end. The loops
    count with an [int], so the word is shorter than 2 GB. *)
Theorem edits_exact : forall word w, Z.of_nat (length word) < 2 ^ 31 ->
  (w ∈ Edits1 word <-> edit letters word w) /\
  forall characters, w ∈ ChEdits1 characters word <-> exists cs, edit characters (chars word) cs /\ w = concat cs.
Proof. intros word w Hf. split; [by apply Edits1_elem|]. intros characters. by apply ChEdits1_elem. Qed.
(** "a" from "b", and one Chinese character from another. *)
Lemma edits_exact_witness :
  [97] ∈ Edits1 [98] /\ [229; 165; 189] ∈ ChEdits1 [[229; 165; 189]] [228; 189; 160] /\
  ([97] ∈ Edits1 [98] <-> edit letters [98] [97]) /\
  forall characters, [97] ∈ ChEdits1 characters [98] <-> exists cs, edit characters (chars [98]) cs /\ [97] = concat cs.
Proof.
  split; [apply (bool_decide_unpack _); vm_compute; exact I|]. split; [apply (bool_decide_unpack _); vm_compute; exact I|].
  apply edits_exact. vm_compute. reflexivity.
Defined.

(** C37: [Correct] leaves a known word alone; of an unknown one it returns a known word one
    edit away that none of them is more frequent than, and the empty string only when none
    is known (or the empty word is the most frequent of them). The loop over the word counts
    with an [int], so the word is shorter than 2 GB. *)
Theorem correct_best : forall en_word_map word, Z.of_nat (length word) < 2 ^ 31 ->
  match en_word_map !! word with
  | Some _ => Correct en_word_map word = word
  | None =>
      ((forall w, edit letters word w -> en_word_map !! w = None) /\ Correct en_word_map word = []) \/
      exists freq, edit letters word (Correct en_word_map word) /\ en_word_map !! Correct en_word_map word = Some freq /\
        forall w f, edit letters word w -> en_word_map !! w = Some f -> f <= freq
  end.
Proof.
  intros en word Hl. unfold Correct. destruct (en !! word) as [?|] eqn:E; [done|].
  assert (Hk : forall w, w ∈ Known en (Edits1 word) <-> is_Some (en !! w) /\ edit letters word w) by (intros w; unfold Known; by rewrite list_elem_of_filter, (Edits1_elem _ _ Hl)).
  destruct (first_of_best (Known en (Edits1 word)) (fun w => default 0 (en !! w))) as [[En Ef]|[Hin Hbest]].
  - left. split; [|done]. intros w Hw. apply eq_None_not_Some. intros Hs. apply (not_elem_of_nil w). rewrite <-En, Hk. done.
  - right. set (b := first_of _) in *. apply Hk in Hin as [[freq Hb] Hed]. exists freq. split; [done|]. split; [done|]. intros w f Hw Hf.
    specialize (Hbest w). rewrite Hk, Hf, Hb in Hbest. apply Hbest. eauto.
Qed.

(** "hous" and "houte" are known; "houe" is one edit from both, and "hous" is met more often. *)
Definition two_known : gmap (list Z) Z := <[[104; 111; 117; 115] := 9]> (<[[104; 111; 117; 116; 101] := 4]> ∅).
Lemma correct_best_witness :
  Correct two_known [104; 111; 117; 101] = [104; 111; 117; 115] /\
  match two_known !! [104; 111; 117; 101] with
  | Some _ => Correct two_known [104; 111; 117; 101] = [104; 111; 117; 101]
  | None =>
      ((forall w, edit letters [104; 111; 117; 101] w -> two_known !! w = None) /\ Correct two_known [104; 111; 117; 101] = []) \/
      exists freq, edit letters [104; 111; 117; 101] (Correct two_known [104; 111; 117; 101]) /\
        two_known !! Correct two_known [104; 111; 117; 101] = Some freq /\
        forall w f, edit letters [104; 111; 117; 101] w -> two_known !! w = Some f -> f <= freq
  end.
Proof. split; [vm_compute; reflexivity|]. apply correct_best. vm_compute. reflexivity. Defined.

(** "house" is not found from "hous". *)
Lemma end_not_found : Correct (<[[104; 111; 117; 115; 101] := 9]> ∅) [104; 111; 117; 115] = [] /\ ~ edit letters [104; 111; 117; 115] [104; 111; 117; 115; 101].
Proof. split; [vm_compute; reflexivity|]. rewrite <-Edits1_elem by (vm_compute; reflexivity). apply (bool_decide_unpack _). vm_compute. exact I. Qed.
End CorrectSpec.
